(* ===== verification/_CoqProject ===== *)
-Q . S2P
Prelude.v
Names.v
Server.v
Encode.v
EncodeSafe.v
Roundtrip.v
NameExamples.v
EspDns.v
EspDnsProofs.v
EspDnsExamples.v
Heap.v
Txt.v
TxtRoundtrip.v
Collision.v
CollisionProofs.v
ConflictExamples.v
Answers.v
AnswersProofs.v
AnswersExamples.v
Engine.v
EngineProofs.v
EngineSteps.v
EngineLive.v
EngineStartup.v
EngineExamples.v
State.v
Received.v
Cache.v
CacheTree.v
CacheExpiry.v
CacheRefine.v
CacheOps.v
CacheUpdate.v
CacheTxt.v
CacheAddr.v
CacheSrv.v
CacheReceive.v
Browse.v
BrowseNotify.v
CacheExpire.v
CacheTrim.v
BrowseSync.v
Client.v
ClientProofs.v
CacheExamples.v
Query.v
QueryProofs.v
QuerySafe.v
QueryRun.v
QueryLive.v
QueryCollect.v
QueryExamples.v
Responder.v
ResponderProofs.v
ResponderCopies.v
ResponderServices.v
ResponderRemove.v
ResponderHosts.v
ResponderLookup.v
ResponderRun.v
ResponderExamples.v
WsData.v
Ws.v
WsConfig.v
WsTask.v
WsProofs.v
WsSafe.v
WsConfigProofs.v
WsLife.v
WsInit.v
WsRun.v
WsSteps.v
WsMachine.v
WsTheorems.v
WsSend.v
WsRecv.v
WsLost.v
WsExamples.v
