(* ===== verification/Prelude.v ===== *)
(** * A model of esp-protocols: mDNS, the DNS client and the websocket client

    The repository holds network components for ESP-IDF.  This development
    models the C code that carries their own protocol logic: the mDNS component
    (components/mdns), the DNS client over TCP, TLS and HTTPS
    (components/esp_dns) and the websocket client
    (components/esp_websocket_client).

    ** The program and how its parts interact

    mDNS runs in one service task.  Packets received from the network are put
    into an action queue and parsed (mdns_receive.c, mdns_utils.c); the parser
    looks names up in the data of the responder (mdns_responder.c), decides
    conflicts with other hosts, and asks for answers (mdns_send.c).  Each
    interface and protocol has a control block (mdns_pcb.c) that takes it
    through probing and announcing.  Packets to send wait in a queue sorted by
    time; a timer marks those that are due and queues an action for each, and
    the service task encodes and sends them (mdns_send.c) and hands them back
    to the control block, which sends them again or lets them go.  What other
    hosts announce goes into a cache (mdns_cache.c) as far as a browse
    (mdns_browser.c) wants it; after each action the service task drops expired
    records and tells the browses what has changed.  A query (mdns_querier.c) is
    a search that lives for a limited time, sends questions from the timer and
    collects the records of responses.

    esp_dns builds a query, exchanges it with a server over a stream or HTTPS,
    parses the response and gives the addresses to lwIP.

    A websocket client has a task of its own that connects, receives, answers
    control frames, pings the server and reconnects; other tasks send through
    it, and start, stop, close and destroy it.

    ** The files

    - Prelude: outcomes, machine integers, C strings, byte buffers, lemmas and
      tactics used everywhere.
    - Names: names read from a packet (mdns_utils.c, [mdns_utils_read_fqdn],
      [mdns_utils_parse_fqdn], [mdns_name_t] of mdns_private.h).
    - Server: services, hosts and their lookups (mdns_private.h, mdns_utils.c,
      the accessors of mdns_responder.c).
    - Encode: from [append_u32] to [mdns_priv_dispatch_tx_packet] of
      mdns_send.c; EncodeSafe: it stays inside its buffer; Roundtrip: names
      with compression are read back as written; NameExamples: runs.
    - EspDns: all of components/esp_dns; EspDnsProofs, EspDnsExamples.
    - Heap: allocation with a schedule of failures and a count of live blocks.
    - Txt: the TXT parsers of mdns_receive.c; TxtRoundtrip: they read what the
      encoder writes.
    - Collision: tie breaking, renaming and name ownership (mdns_receive.c);
      CollisionProofs, ConflictExamples.
    - Answers: packets under construction, the responder's packets and the
      answer to a parsed packet (mdns_send.c); AnswersProofs, AnswersExamples.
    - Engine: the transmit queue (mdns_send.c) and the control blocks
      (mdns_pcb.c) as one state; EngineProofs: the invariant and each
      operation; EngineSteps: the state machine and its reachable states;
      EngineLive: delivery and stalls; EngineStartup: from enabling an
      interface to running; EngineExamples.
    - State: state passing with a heap, for the files that follow.
    - Cache: the cache of mdns_cache.c up to its update functions, and the
      state it shares with browsing; Browse: mdns_browser.c and the part of
      mdns_cache.c that reports to it (expiry, trimming, synchronisation).
    - CacheTree: the tree of entries, services, addresses and subtypes as a set
      of records; CacheExpiry: the list of expiry nodes; CacheRefine: the
      abstract cache and the relation to the concrete one; CacheOps: elementary
      steps; CacheUpdate, CacheTxt, CacheAddr, CacheSrv: the update functions;
      CacheReceive: a record of any kind is received;
      BrowseNotify: what notifiers get; CacheExpire, CacheTrim: expiry and
      trimming; BrowseSync: synchronisation.
    - Received: the records of a received response.
    - Client: what records do to the cache, the browse interface, turns of the
      service task and shutting down; ClientProofs; CacheExamples: runs and
      instances.
    - Query: searches (mdns_querier.c and what mdns_receive.c gives to them);
      QueryProofs: collecting results; QuerySafe: the operations and their
      invariant; QueryRun: every operation keeps it; QueryLive: reachable states
      and the end of a search; QueryCollect: a service is found; QueryExamples.
    - Responder: mdns_responder.c, over the engine; ResponderProofs: the
      invariant that ties the registry to queue, control blocks and heap, and
      the rules by which the functions are verified; ResponderCopies: what is
      copied from callers; ResponderServices, ResponderRemove, ResponderHosts,
      ResponderLookup: the functions on services, removal, hosts and names, and
      lookups; ResponderRun: the state machine and the specification of each
      operation; ResponderExamples.
    - WsData: the websocket client's data (components/esp_websocket_client)
      and the surroundings it runs in; Ws: buffers, events, sending and
      receiving; WsConfig: configuration, URI, transports, creation and
      destruction; WsTask: its task and the calls of the application as a
      machine whose steps interleave.  WsProofs: the invariant of a client and
      the rules by which the functions are verified; WsSafe: sending, events
      and receiving; WsConfigProofs: configuration; WsLife: transports and
      destruction; WsInit: creation; WsRun, WsSteps: the steps of the task and
      of the calls; WsMachine: every step keeps the invariant and what a stop
      does; WsTheorems; WsSend, WsRecv: the messages sent and received;
      WsLost: a stop that comes too early; WsExamples.

    A pure function of the code is a function here.  Code that reads or writes
    a buffer returns an [outcome]; encoding runs in a state monad over the
    packet, allocation in [H], the engine in [E], cache and
    browses in [C], searches in [Q], the responder in [R], the websocket
    client in [W].  A pointer that the code
    stores or compares is an identifier, and following one looks it up in the
    object that owns it, so that a dangling pointer is a bad access.  Static
    variables are fields of the state.

    ** What the theorems show

    - Reading names (C1, C2): any bytes are parsed inside the packet and the
      buffers, the parser terminates, and an accepted name has the shape its
      callers rely on.
    - Encoding (C3, C4): a packet of the responder is encoded inside the
      packet buffer, if the search for earlier names may read 255 bytes behind
      it; a name of distinct plain labels survives encoding with compression and
      parsing, if the packet holds nothing that only looks like the name.
    - DNS client (C5 to C7): resolving over TCP is safe for any server; over
      TCP, TLS and HTTPS the addresses among the first records of a well-formed
      response are delivered;
      init and cleanup keep the one handle.
    - TXT records (C8, C9): parsing any bytes leaves no block behind and
      reads what was written.
    - Conflicts (C10, C11): two hosts that compare their records come to
      opposite verdicts, and renaming makes progress.
    - Building packets (C12 to C15): for any pattern of failing allocations
      nothing leaks and no pointer dangles; what is probed is announced; what
      is asked for is answered.
    - Sending (C16 to C19): an invariant over every state that the allowed
      operations on queue, control blocks, sockets and heap lead to; due packets
      are sent, once and in order, when memory and the action queue let them; a
      state from which clock, timer and task send nothing any more; and that a
      fresh engine probes, announces and runs (C19).
    - The cache (C20 to C22): the shortcut of the expiry list is insertion into
      an ordered list; each update function implements an abstract one on a set
      of records with expiry times, whatever allocations fail; expiry ends and
      leaves what has not expired.
    - Browsing (C23 to C25): browses are told of what expires and of what has
      changed, once; records nobody wants expire after the grace period.
    - The client as a whole (C26, C27): any sequence of packets, calls and turns
      of the task keeps cache, expiry list, browses, actions and heap
      consistent, and shutting down frees everything.
    - Searches (C28 to C31): an invariant over the states any order of calls,
      packets, ticks and turns of the task leads to, with no pointer to a freed
      search followed; results come out only when a search is over, short of a
      wrap-around of the clock; a search
      whose time is over ends; a service that answers is found.
    - The responder (C32, C33): over every state its calls, its actions and the
      engine lead to, with any allocations failing outside lookups, no pointer to a removed
      service is left and every block has an owner; each operation does to
      services, items, subtypes, hosts and results what its abstract
      specification says for the error it returns, and while memory lasts that
      determines what a success does.  Where the code needs more
      of a state than the invariant gives (a service without a host name, an
      array that is probed without a packet in the queue), the operation is
      allowed only in the states in which it is safe, and ResponderExamples
      shows the others to be unsafe.
    - The websocket client (C34 to C40): over every interleaving of its task, of
      sends and of the calls of the application, with any answers of server,
      event handler and allocator but control frames that do not fit the buffer, no null, freed or overrun object is used,
      and in the end everything is freed (C34); creation is all or nothing
      (C35); a stop ends the task within four of its steps (C36), unless it
      comes before the first one and is lost (C40); a message that is sent arrives at the
      transport as frames of one message (C37), and a frame that is received
      is delivered and answered (C38); a URI replaces what it names (C39).

    The Examples files run the definitions on concrete inputs, instantiate the
    theorems, and prove the defects that the model showed.

    ** Bounds

    The loop over labels is given one more step than the packet has bytes, and
    the recursion on compression pointers has the code's own limit of depth;
    running out of either is the outcome [OutOfFuel], which the theorems
    exclude.  Removing expired records is given one step more than there are
    nodes.  The loops of esp_dns are bounded by the bytes or records left.  In
    the websocket client the loop of a send is given two steps more than there
    are bytes, the loop of a receive one more than there are answers of the
    transport, and the nesting of events one more than there are reactions of
    the handler.
    Times are 32-bit milliseconds; the theorem on delivery assumes that the
    clock is not about to wrap around.  Integers that can wrap are reduced at
    their width where the code stores them.

    ** What is not modelled

    lwIP, esp_netif, esp-tls, the HTTP client and FreeRTOS are arguments:
    replies of a server, schedules of failing calls, addresses of interfaces.
    Locking is not modelled: the service lock makes the operations of the
    engine, of the client, of searches and of the responder atomic.  The strings of a
    question in a queued packet are copies, where the code points into the data
    of the responder.  Not modelled: the loop of
    [mdns_parse_packet] apart from what it does to the cache and to searches,
    and the events of mdns_netif.c.  The websocket client is modelled with the options that are on by default: without
    the separate lock for sending, the DS peripheral and memory in external
    RAM; registering event handlers, null handles and calls of stop, close or
    destroy from its own task are left out.  Console commands,
    ports of third-party libraries, C++ wrappers and examples are left out. *)
From stdpp Require Export base numbers list gmap strings.
From Stdlib Require Export ZArith Lia Ascii.

Declare Scope c_scope.
Delimit Scope c_scope with C.
Create HintDb mdns.

(** * Outcomes *)

(** What a call can do: return a value; report failure to its caller the way
    the C code does (a null pointer, a zero length, an error code); touch
    memory outside the object it was given or follow a null or dangling
    pointer; or exhaust the bound a loop of the model was given.  The last two are never behaviour the code intends: the
    components prove that they do not happen. *)
Inductive outcome (A : Type) : Type :=
| Ret (a : A)
| Failed
| BadAccess
| OutOfFuel.
Arguments Ret {A} a.
Arguments Failed {A}.
Arguments BadAccess {A}.
Arguments OutOfFuel {A}.

#[export] Instance outcome_bind : MBind outcome := fun A B f m =>
  match m with
  | Ret a => f a
  | Failed => Failed
  | BadAccess => BadAccess
  | OutOfFuel => OutOfFuel
  end.

#[export] Instance outcome_ret : MRet outcome := fun A a => Ret a.

#[export] Instance outcome_fmap : FMap outcome := fun A B f m =>
  match m with
  | Ret a => Ret (f a)
  | Failed => Failed
  | BadAccess => BadAccess
  | OutOfFuel => OutOfFuel
  end.

(** A pointer that may be null is followed. *)
Definition deref {A} (o : option A) : outcome A := match o with Some a => Ret a | None => BadAccess end.

(** A call that stays inside its buffers and terminates. *)
Definition safe {A} (m : outcome A) : Prop :=
  match m with Ret _ | Failed => True | _ => False end.

(** Partial-correctness view of an outcome: [P] holds of the value returned. *)
Definition returns {A} (m : outcome A) (P : A -> Prop) : Prop :=
  match m with Ret a => P a | Failed => True | _ => False end.

(** [m] returns a value that satisfies [P]. *)
Definition yields {A} (m : outcome A) (P : A -> Prop) : Prop :=
  match m with Ret a => P a | _ => False end.

(** An array read, checked against the array it reads. *)
Definition rd {A} (l : list A) (i : nat) : outcome A :=
  match l !! i with Some x => Ret x | None => BadAccess end.

(** * Machine integers *)

Definition u8 (z : Z) : Z := z mod 2 ^ 8.
Definition u16 (z : Z) : Z := z mod 2 ^ 16.
Definition u32 (z : Z) : Z := z mod 2 ^ 32.

(** Reinterpretation of a 32-bit pattern as [int32_t]. *)
Definition s32 (z : Z) : Z :=
  let r := u32 z in if (r <? 2 ^ 31)%Z then r else (r - 2 ^ 32)%Z.

Definition byte_ok (b : Z) : Prop := (0 <= b < 256)%Z.

Definition u16_ok (z : Z) : Prop := (0 <= z < 2 ^ 16)%Z.

Definition u32_ok (z : Z) : Prop := (0 <= z < 2 ^ 32)%Z.

(** Big-endian readings of two and four bytes. *)
Definition be16 (hi lo : Z) : Z := Z.lor (Z.shiftl hi 8) lo.

Definition be32 (a b c d : Z) : Z :=
  Z.lor (Z.lor (Z.lor (Z.shiftl a 24) (Z.shiftl b 16)) (Z.shiftl c 8)) d.

(** * C strings *)

(** A C string is the list of its bytes before the terminator. *)
Abbreviation cstr := (list Z) (only parsing).

(** The C string at the start of a char array: its bytes up to the first NUL. *)
Fixpoint cstr_of (bs : list Z) : cstr :=
  match bs with
  | [] => []
  | b :: bs => if (b =? 0)%Z then [] else b :: cstr_of bs
  end.

Fixpoint str (s : string) : cstr :=
  match s with
  | EmptyString => []
  | String a s => Z.of_nat (nat_of_ascii a) :: str s
  end.

Definition cstr_ok (s : cstr) : Prop := Forall (fun b => (0 < b < 256)%Z) s.

(** [tolower] in the C locale, and the equality test [strcasecmp(a, b) == 0]. *)
Definition tolower (c : Z) : Z :=
  if ((65 <=? c) && (c <=? 90))%Z then (c + 32)%Z else c.

Fixpoint strcaseeq (a b : cstr) : bool :=
  match a, b with
  | [], [] => true
  | x :: a, y :: b => (tolower x =? tolower y)%Z && strcaseeq a b
  | _, _ => false
  end.

Definition isspace (c : Z) : bool := ((c =? 32) || ((9 <=? c) && (c <=? 13)))%Z.

Definition isdigit (c : Z) : bool := ((48 <=? c) && (c <=? 57))%Z.

Fixpoint skip_spaces (s : cstr) : cstr :=
  match s with c :: s' => if isspace c then skip_spaces s' else s | [] => [] end.

Fixpoint take_digits (s : cstr) (acc : Z) : Z * cstr :=
  match s with
  | c :: s' => if isdigit c then take_digits s' (acc * 10 + (c - 48))%Z else (acc, s)
  | [] => (acc, [])
  end.

Definition LONG_MAX : Z := 2 ^ 31 - 1.
Definition LONG_MIN : Z := - 2 ^ 31.

(** [strtol(s, &endp, 10)] with a 32-bit [long]: the value and the string at
    [endp]. *)
Definition strtol (s : cstr) : Z * cstr :=
  let t := skip_spaces s in
  let '(neg, t) :=
    match t with
    | c :: t' => if (c =? 45)%Z then (true, t') else if (c =? 43)%Z then (false, t') else (false, t)
    | [] => (false, [])
    end in
  match t with
  | c :: _ =>
      if isdigit c then
        let '(v, rest) := take_digits t 0 in
        let v := if neg then (- v)%Z else v in
        (Z.max LONG_MIN (Z.min LONG_MAX v), rest)
      else (0%Z, s)
  | [] => (0%Z, s)
  end.

(** [strlcat(dst, src, size)] for a terminated [dst] shorter than [size]. *)
Definition strlcat (dst src : cstr) (size : nat) : cstr :=
  dst ++ take (size - 1 - length dst) src.

(** [memcmp(a, b, n)] as the sign of its result, on [n] bytes of each. *)
Fixpoint memcmp (a b : list Z) : comparison :=
  match a, b with
  | x :: a, y :: b => match (x ?= y)%Z with Eq => memcmp a b | c => c end
  | _, _ => Eq
  end.

(** [n] bytes at offset [i], checked against the array. *)
Definition rd_bytes (l : list Z) (i n : nat) : outcome (list Z) :=
  if i + n <=? length l then Ret (take n (drop i l)) else BadAccess.

(** [memcpy] of [bs] to offset [i], checked against the array. *)
Definition wr_bytes (l : list Z) (i : nat) (bs : list Z) : outcome (list Z) :=
  if i + length bs <=? length l then Ret (take i l ++ bs ++ drop (i + length bs) l)
  else BadAccess.

(** [strcasecmp(a, b) == 0] on nullable pointers: passing null is a bad access. *)
Definition strcasecmp_eq (a b : option cstr) : outcome bool :=
  match a, b with
  | Some a, Some b => Ret (strcaseeq a b)
  | _, _ => BadAccess
  end.

(** * Tactics *)

(** Splits every boolean conjunction, disjunction and comparison in the
    hypotheses. *)
Ltac bsimp :=
  repeat match goal with
  | H : (_ && _) = true |- _ => apply andb_true_iff in H; destruct H
  | H : (_ || _) = false |- _ => apply orb_false_iff in H; destruct H
  | H : negb _ = true |- _ => apply negb_true_iff in H
  | H : negb _ = false |- _ => apply negb_false_iff in H
  | H : (_ <=? _) = true |- _ => apply Nat.leb_le in H
  | H : (_ <=? _) = false |- _ => apply Nat.leb_gt in H
  | H : (_ <? _) = true |- _ => apply Nat.ltb_lt in H
  | H : (_ <? _) = false |- _ => apply Nat.ltb_ge in H
  | H : (_ =? _) = true |- _ => apply Nat.eqb_eq in H
  | H : (_ =? _) = false |- _ => apply Nat.eqb_neq in H
  | H : (_ <=? _)%Z = true |- _ => apply Z.leb_le in H
  | H : (_ <=? _)%Z = false |- _ => apply Z.leb_gt in H
  | H : (_ <? _)%Z = true |- _ => apply Z.ltb_lt in H
  | H : (_ <? _)%Z = false |- _ => apply Z.ltb_ge in H
  | H : (_ =? _)%Z = true |- _ => apply Z.eqb_eq in H
  | H : (_ =? _)%Z = false |- _ => apply Z.eqb_neq in H
  | H : (_ >=? _)%Z = true |- _ => rewrite Z.geb_leb in H
  | H : (_ >=? _)%Z = false |- _ => rewrite Z.geb_leb in H
  | H : (_ >? _)%Z = true |- _ => rewrite Z.gtb_ltb in H
  | H : (_ >? _)%Z = false |- _ => rewrite Z.gtb_ltb in H
  end.

(** Case analysis on the scrutinee of the first [match] or [if] of the goal. *)
Ltac case_on_goal :=
  match goal with
  | |- context [match ?x with _ => _ end] => destruct x eqn:?
  end.

(** * Outcomes: lemmas *)

Lemma yields_returns {A} (m : outcome A) P : yields m P -> returns m P.
Proof. by destruct m. Qed.

Lemma yields_mono {A} (m : outcome A) (P Q : A -> Prop) :
  yields m P -> (forall a, P a -> Q a) -> yields m Q.
Proof. destruct m; cbn; auto. Qed.

Lemma yields_and {A} (m : outcome A) P Q : yields m P -> yields m Q -> yields m (fun a => P a /\ Q a).
Proof. by destruct m. Qed.

Lemma yields_bind {A B} (m : outcome A) (f : A -> outcome B) P Q :
  yields m P -> (forall a, P a -> yields (f a) Q) -> yields (m ≫= f) Q.
Proof. destruct m; cbn; auto; done. Qed.

Lemma returns_safe {A} (m : outcome A) P : returns m P -> safe m.
Proof. destruct m; simpl; tauto. Qed.

Lemma returns_mono {A} (m : outcome A) (P Q : A -> Prop) :
  returns m P -> (forall a, P a -> Q a) -> returns m Q.
Proof. destruct m; simpl; auto. Qed.

Lemma returns_bind {A B} (m : outcome A) (f : A -> outcome B) P Q :
  returns m P -> (forall a, P a -> returns (f a) Q) -> returns (m ≫= f) Q.
Proof. destruct m; simpl; auto. Qed.

Lemma returns_Ret {A} (m : outcome A) P a : returns m P -> m = Ret a -> P a.
Proof. intros H ->; exact H. Qed.

Lemma bind_Ret {A B} (m : outcome A) (f : A -> outcome B) b :
  m ≫= f = Ret b -> exists a, m = Ret a /\ f a = Ret b.
Proof. destruct m; simpl; try discriminate; eauto. Qed.

Lemma rd_yields {A} (l : list A) i : i < length l -> yields (rd l i) (fun x => l !! i = Some x).
Proof.
  intros H. unfold rd. destruct (lookup_lt_is_Some_2 l i H) as [x ->]. done.
Qed.

Lemma rd_ok {A} (l : list A) i : i < length l -> returns (rd l i) (fun x => l !! i = Some x).
Proof.
  intros H. by apply yields_returns, rd_yields.
Qed.

#[export] Hint Resolve returns_safe returns_mono : mdns.

(** * Machine integers: lemmas *)

Lemma u8_range z : (0 <= u8 z < 256)%Z.
Proof. apply Z.mod_pos_bound; lia. Qed.

Lemma u16_range z : (0 <= u16 z < 65536)%Z.
Proof. apply Z.mod_pos_bound; lia. Qed.

Lemma u32_range z : (0 <= u32 z < 4294967296)%Z.
Proof. apply Z.mod_pos_bound; lia. Qed.

Lemma u8_small z : (0 <= z < 256)%Z -> u8 z = z.
Proof. intros H; apply Z.mod_small; simpl; lia. Qed.

Lemma u16_small z : (0 <= z < 65536)%Z -> u16 z = z.
Proof. intros H; apply Z.mod_small; simpl; lia. Qed.

Lemma land_shiftl_small hi lo n : (0 <= n)%Z -> (0 <= lo < 2 ^ n)%Z ->
  Z.land (Z.shiftl hi n) lo = 0%Z.
Proof.
  intros Hn Hlo. apply Z.bits_inj'; intros k Hk.
  rewrite Z.land_spec, Z.bits_0, Z.shiftl_spec by done.
  destruct (Z.lt_ge_cases k n) as [Hlt|Hge].
  - rewrite Z.testbit_neg_r by lia. done.
  - destruct (Z.eq_dec lo 0) as [->|Hz]; [by rewrite Z.bits_0, andb_false_r|].
    rewrite (Z.bits_above_log2 lo k); [by rewrite andb_false_r|lia|].
    apply Z.log2_lt_pow2; [lia|]. eapply Z.lt_le_trans; [apply Hlo|].
    apply Z.pow_le_mono_r; lia.
Qed.

Lemma lor_shiftl_add hi lo n : (0 <= n)%Z -> (0 <= lo < 2 ^ n)%Z ->
  Z.lor (Z.shiftl hi n) lo = (hi * 2 ^ n + lo)%Z.
Proof.
  intros Hn Hlo. pose proof (land_shiftl_small hi lo n Hn Hlo) as H0.
  rewrite <- (Z.shiftl_mul_pow2 hi n), <- Z.lxor_lor, Z.add_nocarry_lxor; done.
Qed.

Lemma be16_add hi lo : byte_ok lo -> be16 hi lo = (hi * 256 + lo)%Z.
Proof. intros H. unfold be16. rewrite lor_shiftl_add; unfold byte_ok in H; lia. Qed.

Lemma be16_range hi lo : byte_ok hi -> byte_ok lo -> u16_ok (be16 hi lo).
Proof. intros Hh Hl. rewrite be16_add by done. unfold byte_ok, u16_ok in *. lia. Qed.

(** Splitting a 16-bit value into its two bytes and reading them back. *)
Lemma be16_split v : u16_ok v -> be16 (u8 (Z.shiftr v 8)) (u8 v) = v.
Proof.
  intros Hv. rewrite be16_add by (unfold byte_ok; pose proof (u8_range v); lia).
  unfold u16_ok in Hv. rewrite Z.shiftr_div_pow2 by lia.
  unfold u8. change (2 ^ 8)%Z with 256%Z.
  rewrite (Z.mod_small (v / 256) 256) by (split; [apply Z.div_pos|apply Z.div_lt_upper_bound]; lia).
  pose proof (Z.div_mod v 256). lia.
Qed.

(** The same for 32 bits and four bytes. *)
Lemma be32_split v : u32_ok v ->
  be32 (u8 (Z.shiftr v 24)) (u8 (Z.shiftr v 16)) (u8 (Z.shiftr v 8)) (u8 v) = v.
Proof.
  intros Hv. unfold be32, u32_ok in *.
  apply Z.bits_inj'; intros n Hn. rewrite !Z.lor_spec, !Z.shiftl_spec by done. unfold u8.
  destruct (Z.lt_ge_cases n 32) as [Hlt|Hge].
  - destruct (Z.lt_ge_cases n 8) as [H8|H8]; [|destruct (Z.lt_ge_cases n 16) as [H16|H16];
      [|destruct (Z.lt_ge_cases n 24) as [H24|H24]]];
    repeat match goal with
    | |- context [Z.testbit (_ mod 2 ^ 8) ?m] =>
        first [rewrite (Z.testbit_neg_r _ m) by lia
              |rewrite (Z.mod_pow2_bits_low _ 8 m) by lia
              |rewrite (Z.mod_pow2_bits_high _ 8 m) by lia]
    end; rewrite ?Z.shiftr_spec by lia; rewrite ?orb_false_r, ?orb_false_l;
    try (f_equal; lia).
  - rewrite !(Z.mod_pow2_bits_high _ 8) by lia.
    destruct (Z.eq_dec v 0) as [->|Hz]; [by rewrite Z.bits_0|].
    rewrite (Z.bits_above_log2 v n); [done|lia|]. apply Z.log2_lt_pow2; [lia|].
    eapply Z.lt_le_trans; [apply Hv|]. apply Z.pow_le_mono_r; lia.
Qed.

(** * Strings: lemmas *)

Lemma tolower_idem c : tolower (tolower c) = tolower c.
Proof. unfold tolower. repeat case_on_goal; bsimp; lia. Qed.

Lemma strcaseeq_iff a b : strcaseeq a b = true <-> map tolower a = map tolower b.
Proof.
  revert b; induction a as [|x a IH]; intros [|y b]; simpl; try done.
  rewrite andb_true_iff, IH, Z.eqb_eq. split; [intros [-> ->]; done|].
  intros [=]; done.
Qed.

Lemma strcaseeq_refl a : strcaseeq a a = true.
Proof. by apply strcaseeq_iff. Qed.

Lemma strcaseeq_sym a b : strcaseeq a b = strcaseeq b a.
Proof. apply eq_true_iff_eq. rewrite !strcaseeq_iff. done. Qed.

Lemma strcaseeq_trans a b c :
  strcaseeq a b = true -> strcaseeq b c = true -> strcaseeq a c = true.
Proof. rewrite !strcaseeq_iff. congruence. Qed.

(** Equality of strings up to ASCII case is an equivalence, and the equality
    test is invariant under it. *)
Definition case_eq (a b : cstr) : Prop := map tolower a = map tolower b.

#[export] Instance case_eq_equiv : Equivalence case_eq.
Proof. unfold case_eq. split; [intros ?; done|intros ?? ->; done|intros ??? -> ->; done]. Qed.

#[export] Instance strcaseeq_proper : Proper (case_eq ==> case_eq ==> (=)) strcaseeq.
Proof.
  intros a a' Ha b b' Hb. apply eq_true_iff_eq.
  rewrite !strcaseeq_iff. unfold case_eq in *. by rewrite Ha, Hb.
Qed.

Lemma case_eq_length a b : case_eq a b -> length a = length b.
Proof. unfold case_eq. intros H%(f_equal length). by rewrite !length_map in H. Qed.

Lemma cstr_of_ok bs : Forall byte_ok bs -> cstr_ok (cstr_of bs).
Proof.
  induction 1 as [|b bs Hb _ IH]; simpl; [constructor|].
  destruct (Z.eqb_spec b 0); constructor; auto. unfold byte_ok in Hb. lia.
Qed.

Lemma cstr_of_length bs : length (cstr_of bs) <= length bs.
Proof. induction bs as [|b bs IH]; simpl; [lia|]. destruct (b =? 0)%Z; simpl; lia. Qed.

Lemma cstr_of_id s : cstr_ok s -> cstr_of s = s.
Proof.
  induction 1 as [|b bs Hb _ IH]; simpl; [done|].
  destruct (Z.eqb_spec b 0); [lia|]. by rewrite IH.
Qed.

Lemma cstr_ok_app a b : cstr_ok (a ++ b) <-> cstr_ok a /\ cstr_ok b.
Proof. apply Forall_app. Qed.

Lemma cstr_ok_bytes s : cstr_ok s -> Forall byte_ok s.
Proof. intros H. eapply Forall_impl; [exact H|]. unfold byte_ok. simpl. lia. Qed.

Lemma strlcat_length dst src size :
  length dst < size -> length (strlcat dst src size) < size.
Proof. intros H. unfold strlcat. rewrite length_app, length_take. lia. Qed.

Lemma strlcat_ok dst src size : cstr_ok dst -> cstr_ok src -> cstr_ok (strlcat dst src size).
Proof. intros Hd Hs. apply cstr_ok_app. split; [done|]. by apply Forall_take. Qed.

#[export] Hint Resolve cstr_of_ok strlcat_ok cstr_ok_bytes strlcat_length : mdns.

(** * Buffers: lemmas *)

Lemma rd_bytes_ok l i n : i + n <= length l ->
  rd_bytes l i n = Ret (take n (drop i l)).
Proof. intros H. unfold rd_bytes. by rewrite (proj2 (Nat.leb_le _ _) H). Qed.

Lemma rd_bytes_yields l i n : i + n <= length l ->
  yields (rd_bytes l i n) (fun bs => bs = take n (drop i l)).
Proof. intros H. by rewrite rd_bytes_ok. Qed.

Lemma wr_bytes_ok l i bs : i + length bs <= length l ->
  wr_bytes l i bs = Ret (take i l ++ bs ++ drop (i + length bs) l).
Proof. intros H. unfold wr_bytes. by rewrite (proj2 (Nat.leb_le _ _) H). Qed.

Lemma wr_bytes_length l i bs l' : wr_bytes l i bs = Ret l' -> length l' = length l.
Proof.
  unfold wr_bytes. case_on_goal; bsimp; intros [= <-].
  rewrite !length_app, length_take, length_drop. lia.
Qed.

Lemma wr_bytes_below l i bs l' j : wr_bytes l i bs = Ret l' -> j < i -> l' !! j = l !! j.
Proof.
  unfold wr_bytes. case_on_goal; bsimp; intros [= <-] Hj.
  rewrite lookup_app_l by (rewrite length_take; lia). by rewrite lookup_take_lt.
Qed.

Lemma wr_bytes_above l i bs l' j :
  wr_bytes l i bs = Ret l' -> i + length bs <= j -> l' !! j = l !! j.
Proof.
  unfold wr_bytes. case_on_goal; bsimp; intros [= <-] Hj.
  rewrite lookup_app_r by (rewrite length_take; lia).
  rewrite length_take, lookup_app_r by lia. rewrite lookup_drop. f_equal. lia.
Qed.

Lemma wr_bytes_at l i bs l' j :
  wr_bytes l i bs = Ret l' -> j < length bs -> l' !! (i + j) = bs !! j.
Proof.
  unfold wr_bytes. case_on_goal; bsimp; intros [= <-] Hj.
  rewrite lookup_app_r by (rewrite length_take; lia).
  rewrite length_take, lookup_app_l by lia. f_equal. lia.
Qed.

Lemma memcmp_refl l : memcmp l l = Eq.
Proof. induction l as [|x l IH]; simpl; [done|]. by rewrite Z.compare_refl. Qed.

Lemma memcmp_Eq a b : length a = length b -> memcmp a b = Eq -> a = b.
Proof.
  revert b; induction a as [|x a IH]; intros [|y b]; simpl; try done.
  intros [= Hl] H. destruct (Z.compare_spec x y); try done. subst. f_equal; auto.
Qed.

Lemma memcmp_antisym a b : memcmp b a = CompOpp (memcmp a b).
Proof.
  revert b; induction a as [|x a IH]; intros [|y b]; simpl; try done.
  rewrite (Z.compare_antisym x y). destruct (x ?= y)%Z; simpl; auto.
Qed.

(** * What lies in a buffer *)

(** The bytes [bs] lie in [b] at offset [i]. *)
Definition has (b : list Z) (i : nat) (bs : list Z) : Prop := exists k, drop i b = bs ++ k.

Lemma has_app b i xs ys : has b i (xs ++ ys) <-> has b i xs /\ has b (i + length xs) ys.
Proof.
  unfold has. split.
  - intros [k Hk]. split; [exists (ys ++ k); by rewrite <- app_assoc in Hk|].
    exists k. rewrite <- drop_drop, Hk, <- app_assoc. by rewrite drop_app_length.
  - intros [[k1 H1] [k2 H2]]. exists k2.
    rewrite <- drop_drop, H1, drop_app_length in H2. by rewrite H1, H2, app_assoc.
Qed.

Lemma has_cons b i x ys : has b i (x :: ys) <-> b !! i = Some x /\ has b (i + 1) ys.
Proof.
  change (x :: ys) with ([x] ++ ys). rewrite has_app. simpl.
  assert (has b i [x] <-> b !! i = Some x) as ->; [|done].
  assert (b !! i = drop i b !! 0) as -> by (rewrite lookup_drop; f_equal; lia).
  unfold has. split; [intros [k ->]; done|]. destruct (drop i b) as [|y k]; [done|].
  simpl. intros [= ->]. by exists k.
Qed.

Lemma has_length b i bs : has b i bs -> bs <> [] -> i + length bs <= length b.
Proof.
  intros [k Hk] Hne. apply (f_equal length) in Hk. rewrite length_drop, length_app in Hk.
  destruct bs; [done|]. simpl in *. lia.
Qed.

Lemma has_mid pre bs post : has (pre ++ bs ++ post) (length pre) bs.
Proof. exists post. by rewrite drop_app_length. Qed.

Lemma rd_has b i x ys : has b i (x :: ys) -> rd b i = Ret x.
Proof. intros [H _]%has_cons. unfold rd. by rewrite H. Qed.

Lemma rd_bytes_has b i bs : has b i bs -> i + length bs <= length b ->
  rd_bytes b i (length bs) = Ret bs.
Proof.
  intros [k Hk] Hl. rewrite rd_bytes_ok by done. by rewrite Hk, take_app_length.
Qed.
