(* ===== verification/Names.v ===== *)
(** Domain names on the receive side: [mdns_name_t] and the parser of
    components/mdns/mdns_utils.c ([mdns_utils_read_fqdn_impl],
    [mdns_utils_read_fqdn], [mdns_utils_parse_fqdn]).

    A packet is the list of its bytes; a pointer into it is an offset.  Every
    read of the packet, every store in the 64-byte label buffer and every use
    of the four-entry field table is checked, so that memory safety is a
    property of the model and not an assumption.  The char arrays of
    [mdns_name_t] are kept as the C strings they hold. *)
From S2P Require Import Prelude.

(** * Build-time configuration *)

Record config := mk_config {
  CONFIG_LWIP_IPV4 : bool;
  CONFIG_LWIP_IPV6 : bool;
  CONFIG_MDNS_RESPOND_REVERSE_QUERIES : bool;
}.

Definition MDNS_NAME_MAX_LEN (cfg : config) : nat :=
  if CONFIG_LWIP_IPV6 cfg && CONFIG_MDNS_RESPOND_REVERSE_QUERIES cfg then 64 + 4 else 64.

Definition MDNS_NAME_BUF_LEN (cfg : config) : nat := MDNS_NAME_MAX_LEN cfg + 1.

(** The configuration the component's Kconfig file selects by default. *)
Definition default_config : config := mk_config true true false.

(** * Data *)

Record mdns_name_t := mk_name {
  host : cstr;
  service : cstr;
  proto : cstr;
  domain : cstr;
  parts : nat;
  sub : nat;
  invalid : bool;
}.

Definition set_invalid (n : mdns_name_t) : mdns_name_t :=
  mk_name (host n) (service n) (proto n) (domain n) (parts n) (sub n) true.

Definition empty_name : mdns_name_t := mk_name [] [] [] [] 0 0 false.

Definition MDNS_DEFAULT_DOMAIN : cstr := str "local".
Definition MDNS_SUB_STR : cstr := str "_sub".
Definition MDNS_FQDN_MAX_COMPRESSION_DEPTH : nat := 16.

(** * Reading *)

Section Parser.
Context (cfg : config).

(** [mdns_name_ptrs[name->parts++]] followed by the [memcpy] of the label. *)
Definition store_part (n : mdns_name_t) (buf : cstr) : outcome mdns_name_t :=
  match parts n with
  | 0 => Ret (mk_name buf (service n) (proto n) (domain n) 1 (sub n) (invalid n))
  | 1 => Ret (mk_name (host n) buf (proto n) (domain n) 2 (sub n) (invalid n))
  | 2 => Ret (mk_name (host n) (service n) buf (domain n) 3 (sub n) (invalid n))
  | 3 => Ret (mk_name (host n) (service n) (proto n) buf 4 (sub n) (invalid n))
  | _ => BadAccess
  end.

(** A label that continues a dotted host name instead of starting a new part. *)
Definition continues_host (n : mdns_name_t) (buf : cstr) : bool :=
  (parts n =? 1) && negb (match buf with c :: _ => (c =? 95)%Z | [] => false end)
  && negb (strcaseeq buf MDNS_DEFAULT_DOMAIN)
  && negb (strcaseeq buf (str "arpa"))
  && (CONFIG_MDNS_RESPOND_REVERSE_QUERIES cfg
      || negb (strcaseeq buf (str "ip6")) && negb (strcaseeq buf (str "in-addr"))).

(** What one label does to the name under construction. *)
Definition push_label (n : mdns_name_t) (buf : cstr) : outcome mdns_name_t :=
  if continues_host n buf then
    let h := strlcat (host n) (str ".") (MDNS_NAME_BUF_LEN cfg) in
    let h := strlcat h buf (MDNS_NAME_BUF_LEN cfg) in
    Ret (mk_name h (service n) (proto n) (domain n) (parts n) (sub n) (invalid n))
  else if strcaseeq buf MDNS_SUB_STR then
    if negb (parts n =? 1) || negb (sub n =? 0) then Ret (set_invalid n)
    else Ret (mk_name (host n) (service n) (proto n) (domain n) (parts n) 1 (invalid n))
  else if negb (invalid n) then store_part n buf
  else Ret n.

(** The [for] loop that copies [len] bytes of a label into [buf]. *)
Fixpoint read_label (packet : list Z) (packet_end pos i len : nat) : outcome (list Z) :=
  match len with
  | 0 => Ret []
  | S len =>
      if packet_end <=? pos then Failed
      else if MDNS_NAME_BUF_LEN cfg <=? i then BadAccess
      else b ← rd packet pos; bs ← read_label packet packet_end (S pos) (S i) len; Ret (b :: bs)
  end.

(** The [while] loop of [mdns_utils_read_fqdn_impl]; [jump] is the recursive
    call on the target of a compression pointer. *)
Fixpoint read_labels (jump : nat -> mdns_name_t -> outcome (nat * mdns_name_t))
    (packet : list Z) (packet_len start fuel index : nat) (n : mdns_name_t)
    : outcome (nat * mdns_name_t) :=
  match fuel with
  | 0 => OutOfFuel
  | S fuel =>
      if packet_len <=? start + index then Ret (start + index + 1, n)
      else
        len ← rd packet (start + index);
        if (len =? 0)%Z then Ret (start + index + 1, n)
        else
          let n := if parts n =? 4 then set_invalid n else n in
          let index := S index in
          if (len <? 0xC0)%Z then
            if (63 <? len)%Z then Failed
            else
              raw ← read_label packet packet_len (start + index) 0 (Z.to_nat len);
              if MDNS_NAME_BUF_LEN cfg <=? Z.to_nat len then BadAccess
              else
                n ← push_label n (cstr_of raw);
                read_labels jump packet packet_len start fuel (index + Z.to_nat len) n
          else if packet_len <=? start + index then Failed
          else
            lo ← rd packet (start + index);
            let address := Z.to_nat (Z.lor (Z.shiftl (Z.land len 0x3F) 8) lo) in
            if start <=? address then Failed
            else
              '(_, n) ← jump address n;
              Ret (start + (index + 1), n)
  end.

(** [depth] is what is left of [MDNS_FQDN_MAX_COMPRESSION_DEPTH]; the loop bound
    [S packet_len] is one more than the number of bytes it can consume. *)
Fixpoint mdns_utils_read_fqdn_impl (depth : nat) (packet : list Z) (packet_len start : nat)
    (n : mdns_name_t) : outcome (nat * mdns_name_t) :=
  read_labels
    (match depth with
     | 0 => fun _ _ => Failed
     | S depth => mdns_utils_read_fqdn_impl depth packet packet_len
     end) packet packet_len start (S packet_len) 0 n.

Definition mdns_utils_read_fqdn (packet : list Z) (packet_len start : nat)
    (n : mdns_name_t) : outcome (nat * mdns_name_t) :=
  mdns_utils_read_fqdn_impl MDNS_FQDN_MAX_COMPRESSION_DEPTH packet packet_len start n.

(** The adjustment [mdns_utils_parse_fqdn] makes to a name it has read. *)
Definition arrange_name (n : mdns_name_t) : mdns_name_t :=
  let n := if negb (sub n =? 0) && negb (parts n =? 4) then set_invalid n else n in
  if (parts n =? 0) || invalid n then n
  else
    let n :=
      if parts n =? 3 then
        mk_name [] (host n) (service n) (proto n) (parts n) (sub n) (invalid n)
      else if parts n =? 2 then
        mk_name (host n) [] [] (service n) (parts n) (sub n) (invalid n)
      else n in
    if strcaseeq (domain n) MDNS_DEFAULT_DOMAIN || strcaseeq (domain n) (str "arpa") then n
    else set_invalid n.

Definition mdns_utils_parse_fqdn (packet : list Z) (packet_len start : nat)
    : outcome (nat * mdns_name_t) :=
  '(next, n) ← mdns_utils_read_fqdn packet packet_len start empty_name;
  Ret (next, arrange_name n).

End Parser.

(** * Well-formed names *)

(** The invariant of a name under construction: every field fits its buffer
    and is a C string, and the number of parts stays within the field table. *)
Record name_ok (cfg : config) (n : mdns_name_t) : Prop := mk_name_ok {
  name_host : length (host n) < MDNS_NAME_BUF_LEN cfg /\ cstr_ok (host n);
  name_service : length (service n) < MDNS_NAME_BUF_LEN cfg /\ cstr_ok (service n);
  name_proto : length (proto n) < MDNS_NAME_BUF_LEN cfg /\ cstr_ok (proto n);
  name_domain : length (domain n) < MDNS_NAME_BUF_LEN cfg /\ cstr_ok (domain n);
  name_parts : parts n <= 4;
  name_sub : sub n <= 1;
}.

(** A name under construction: the domain is unset until the fourth part. *)
Definition wip_ok (cfg : config) (n : mdns_name_t) : Prop :=
  name_ok cfg n /\ (parts n < 4 -> domain n = []).

(** What a caller may rely on when the parser did not mark the name invalid. *)
Definition valid_name (n : mdns_name_t) : Prop :=
  invalid n = false ->
  parts n = 0 \/
  (2 <= parts n <= 4
   /\ (case_eq (domain n) MDNS_DEFAULT_DOMAIN \/ case_eq (domain n) (str "arpa"))
   /\ (parts n = 2 -> service n = [] /\ proto n = [])
   /\ (parts n = 3 -> host n = [])
   /\ (sub n = 1 -> parts n = 4)).

Section Facts.
Context (cfg : config).

Lemma buf_len_64 : 65 <= MDNS_NAME_BUF_LEN cfg.
Proof. unfold MDNS_NAME_BUF_LEN, MDNS_NAME_MAX_LEN. case_on_goal; lia. Qed.

Lemma empty_name_ok : wip_ok cfg empty_name.
Proof. pose proof buf_len_64. split; [split|]; simpl; repeat split; try constructor; lia. Qed.

Lemma set_invalid_ok n : name_ok cfg n -> name_ok cfg (set_invalid n).
Proof. intros []; split; simpl; auto. Qed.

Lemma set_invalid_wip n : wip_ok cfg n -> wip_ok cfg (set_invalid n).
Proof. intros []; split; auto using set_invalid_ok. Qed.

Lemma push_label_ok n buf :
  wip_ok cfg n -> (invalid n = false -> parts n < 4) ->
  length buf < MDNS_NAME_BUF_LEN cfg -> cstr_ok buf ->
  returns (push_label cfg n buf) (wip_ok cfg).
Proof.
  intros Hn Hp Hl Hb. pose proof Hn as [[] Hd]. unfold push_label.
  assert (Hdot : cstr_ok (str ".")) by (repeat constructor; lia).
  repeat case_on_goal; simpl; try (by apply set_invalid_wip); auto.
  - split; [split|]; simpl; auto. destruct name_host0. split; eauto using strlcat_length, strlcat_ok.
  - split; [split|]; simpl; auto.
  - unfold store_part. bsimp. specialize (Hp ltac:(done)).
    destruct (parts n) as [|[|[|[|]]]] eqn:E; try lia; (split; [split|]); simpl; auto; lia.
Qed.

Lemma read_label_safe packet packet_end len : forall pos i,
  packet_end <= length packet -> i + len <= MDNS_NAME_BUF_LEN cfg -> Forall byte_ok packet ->
  returns (read_label cfg packet packet_end pos i len)
    (fun bs => length bs = len /\ Forall byte_ok bs /\ pos + len <= packet_end \/ len = 0 /\ bs = []).
Proof.
  induction len as [|len IH]; intros pos i Hlen Hi Hp; simpl; [by right|].
  case_on_goal; [done|]. case_on_goal; bsimp; [lia|].
  eapply returns_bind; [apply rd_ok; lia|]. simpl. intros b Hb.
  eapply returns_bind; [apply (IH (S pos) (S i)); auto; lia|]. simpl.
  intros bs Hbs. left.
  assert (byte_ok b) by (eapply Forall_lookup_1; eauto).
  destruct Hbs as [(? & ? & ?)|[-> ->]]; simpl; repeat split; auto; lia.
Qed.

(** The step of the label loop: from a byte of the packet to the position and
    the name after that label. *)
Lemma read_labels_safe jump packet packet_len start : forall fuel index n,
  packet_len <= length packet -> Forall byte_ok packet -> wip_ok cfg n ->
  packet_len - (start + index) < fuel ->
  (forall a n, a < start -> wip_ok cfg n ->
     returns (jump a n) (fun r => wip_ok cfg (snd r))) ->
  returns (read_labels cfg jump packet packet_len start fuel index n)
    (fun r => wip_ok cfg (snd r) /\ start + index < fst r
              /\ (start + index <= packet_len -> fst r <= packet_len + 1)).
Proof.
  pose proof buf_len_64 as Hbuf.
  induction fuel as [|fuel IH]; intros index n Hlen Hp Hn Hf Hj; [lia|]. simpl.
  case_on_goal; bsimp; [simpl; split; [done|lia]|].
  eapply returns_bind; [apply rd_ok; lia|]. simpl. intros len Hb.
  assert (Hlb : byte_ok len) by (eapply Forall_lookup_1; eauto). unfold byte_ok in Hlb.
  case_on_goal; [simpl; split; [done|lia]|]. bsimp.
  set (n' := if parts n =? 4 then set_invalid n else n).
  assert (Hn' : wip_ok cfg n' /\ (invalid n' = false -> parts n' < 4)).
  { unfold n'. pose proof (name_parts _ _ (proj1 Hn)). case_on_goal; bsimp; split; auto using set_invalid_wip.
    - simpl; done.
    - lia. }
  destruct Hn' as [Hn' Hp4]. clearbody n'.
  case_on_goal; bsimp.
  - case_on_goal; bsimp; [done|].
    eapply returns_bind; [apply read_label_safe; auto; lia|]. simpl. intros raw Hraw.
    assert (Hr : length raw = Z.to_nat len /\ Forall byte_ok raw /\
                 start + S index + Z.to_nat len <= packet_len).
    { destruct Hraw as [(? & ? & ?)|[? ?]]; [repeat split; auto; lia|lia]. }
    destruct Hr as (Hr & Hrb & Hre).
    case_on_goal; bsimp; [lia|].
    eapply returns_bind; [apply push_label_ok; auto using cstr_of_ok|].
    { pose proof (cstr_of_length raw). lia. }
    simpl. intros n2 Hn2.
    eapply returns_mono; [apply IH; auto; lia|]. simpl. intros r (? & ? & ?).
    split; [done|]. lia.
  - case_on_goal; bsimp; [done|].
    eapply returns_bind; [apply rd_ok; lia|]. simpl. intros lo Hlo.
    case_on_goal; bsimp; [done|].
    eapply returns_bind; [apply Hj; auto|]. simpl. intros [? n2] Hn2. simpl in *.
    split; [done|]. lia.
Qed.

Lemma read_fqdn_impl_safe depth : forall packet packet_len start n,
  packet_len <= length packet -> Forall byte_ok packet -> wip_ok cfg n ->
  returns (mdns_utils_read_fqdn_impl cfg depth packet packet_len start n)
    (fun r => wip_ok cfg (snd r) /\ start < fst r
              /\ (start <= packet_len -> fst r <= packet_len + 1)).
Proof.
  induction depth as [|depth IH]; intros packet packet_len start n Hlen Hp Hn;
    cbn [mdns_utils_read_fqdn_impl];
    (eapply returns_mono; [apply read_labels_safe; auto; try lia|]).
  - intros; exact I.
  - simpl. intros r. rewrite Nat.add_0_r. auto.
  - intros a n' _ Hn'. eapply returns_mono; [apply IH; auto|]. simpl. tauto.
  - simpl. intros r. rewrite Nat.add_0_r. auto.
Qed.

Lemma arrange_name_ok n : name_ok cfg n -> name_ok cfg (arrange_name n).
Proof.
  intros Hn. unfold arrange_name. pose proof buf_len_64.
  set (n1 := if _ && _ then _ else n).
  assert (H1 : name_ok cfg n1) by (unfold n1; case_on_goal; auto using set_invalid_ok).
  clearbody n1. case_on_goal; [done|].
  set (n2 := if parts n1 =? 3 then _ else _).
  assert (H2 : name_ok cfg n2).
  { unfold n2. pose proof H1 as [].
    repeat case_on_goal; auto; split; simpl; auto; split; try constructor; lia. }
  case_on_goal; auto using set_invalid_ok.
Qed.

Lemma arrange_name_valid n : wip_ok cfg n -> valid_name (arrange_name n).
Proof.
  intros [[] Hd]. unfold valid_name, arrange_name.
  destruct (negb (sub n =? 0) && negb (parts n =? 4)) eqn:E1.
  { simpl. rewrite orb_true_r. done. }
  destruct (parts n =? 0) eqn:E0; simpl; bsimp; [auto|].
  destruct (invalid n) eqn:Ei; [congruence|].
  set (n2 := if parts n =? 3 then _ else _).
  assert (H2 : parts n2 = parts n /\ sub n2 = sub n /\ (parts n = 1 -> domain n2 = [])
     /\ (parts n = 2 -> service n2 = [] /\ proto n2 = []) /\ (parts n = 3 -> host n2 = [])).
  { unfold n2. repeat case_on_goal; bsimp; simpl; repeat split; auto; try lia.
    intros. apply Hd. lia. }
  destruct H2 as (Hp & Hs & H1 & H2 & H3). clearbody n2.
  destruct (_ || _) eqn:Ed; [intros _|simpl; congruence].
  right. apply orb_true_iff in Ed. rewrite !strcaseeq_iff in Ed.
  rewrite Hp, Hs. apply andb_false_iff in E1. split; [split|]; auto.
  - destruct (decide (parts n = 1)) as [E|]; [|lia].
    rewrite (H1 E) in Ed. destruct Ed; done.
  - repeat split; auto; try (by apply H2).
    intros E. destruct E1; bsimp; lia.
Qed.

(** C1. Parsing a name never reads outside the packet it was given, never
    overruns the label buffer or the table of name parts, and always
    terminates, whatever the bytes of the packet are and wherever parsing
    starts (compression pointers and missing terminators included). *)
Theorem parse_fqdn_safe packet packet_len start :
  packet_len <= length packet -> Forall byte_ok packet ->
  safe (mdns_utils_parse_fqdn cfg packet packet_len start).
Proof.
  intros Hl Hp. eapply returns_safe, returns_bind; [apply read_fqdn_impl_safe; eauto using empty_name_ok|].
  intros [? ?] _. exact (I : returns (Ret _) (fun _ => True)).
Qed.

(** C2. A parsed name fits the char arrays of [mdns_name_t], parsing consumes at
    least one byte and stops at most one byte past the packet, and a name not
    marked invalid either has no parts at all (the root name) or has two to four
    parts under the domain local or arpa, with a subtype only in front of a full
    service name. *)
Theorem parse_fqdn_wf packet packet_len start next n :
  packet_len <= length packet -> Forall byte_ok packet -> start <= packet_len ->
  mdns_utils_parse_fqdn cfg packet packet_len start = Ret (next, n) ->
  name_ok cfg n /\ valid_name n /\ start < next <= packet_len + 1.
Proof.
  intros Hl Hp Hs E. unfold mdns_utils_parse_fqdn in E.
  apply bind_Ret in E as ([next' n'] & E & [= <- <-]).
  pose proof (returns_Ret _ _ _ (read_fqdn_impl_safe _ _ _ _ _ Hl Hp empty_name_ok) E) as (Hn & ? & ?).
  simpl in *. split; [apply arrange_name_ok, Hn|]. split; [by apply arrange_name_valid|]. lia.
Qed.

End Facts.
