(* ===== verification/Server.v ===== *)
(** The responder's data (components/mdns/private_include/mdns_private.h and
    the accessors of mdns_responder.c) and the lookups that decide which
    service or host a name refers to (mdns_utils.c).

    A pointer that the code compares or stores is an identifier: [sid] for a
    registered service (its [mdns_srv_item_t] and the [mdns_service_t] it owns),
    [hid] for a delegated host.  A dereference looks the identifier up in the
    list that owns the object, and a dangling one is a bad access. *)
From S2P Require Import Prelude Names.

(** * Constants *)

Definition MDNS_ANSWER_PTR_TTL : Z := 4500.
Definition MDNS_ANSWER_TXT_TTL : Z := 4500.
Definition MDNS_ANSWER_SRV_TTL : Z := 120.
Definition MDNS_ANSWER_A_TTL : Z := 120.
Definition MDNS_ANSWER_AAAA_TTL : Z := 120.
Definition MDNS_FLAGS_QR_AUTHORITATIVE : Z := Z.lor 0x8000 0x0400.
Definition MDNS_FLAGS_DISTRIBUTED : Z := 0x0200.
Definition MDNS_NAME_REF : Z := 0xC000.
Definition MDNS_TYPE_A : Z := 0x0001.
Definition MDNS_TYPE_PTR : Z := 0x000C.
Definition MDNS_TYPE_TXT : Z := 0x0010.
Definition MDNS_TYPE_AAAA : Z := 0x001C.
Definition MDNS_TYPE_SRV : Z := 0x0021.
Definition MDNS_TYPE_OPT : Z := 0x0029.
Definition MDNS_TYPE_NSEC : Z := 0x002F.
Definition MDNS_TYPE_ANY : Z := 0x00FF.
Definition MDNS_TYPE_SDPTR : Z := 0x0032.
Definition MDNS_CLASS_IN : Z := 0x0001.
Definition MDNS_CLASS_IN_FLUSH_CACHE : Z := 0x8001.
Definition MDNS_ANSWER_PTR : Z := 0x08.
Definition MDNS_ANSWER_TXT : Z := 0x04.
Definition MDNS_ANSWER_SRV : Z := 0x02.
Definition MDNS_ANSWER_A : Z := 0x01.
Definition MDNS_ANSWER_AAAA : Z := 0x10.
Definition MDNS_ANSWER_AAAA_SIZE : nat := 16.
Definition MDNS_SERVICE_PORT : Z := 5353.
Definition MDNS_MAX_PACKET_SIZE : nat := 1460.
Definition MDNS_HEAD_LEN : nat := 12.

#[global] Arguments MDNS_MAX_PACKET_SIZE : simpl never.


Lemma max_packet_size : MDNS_MAX_PACKET_SIZE = 1460.
Proof. reflexivity. Qed.

#[global] Opaque MDNS_MAX_PACKET_SIZE.

(** * Data *)

Inductive mdns_ip_protocol_t := MDNS_IP_PROTOCOL_V4 | MDNS_IP_PROTOCOL_V6.

#[export] Instance ip_protocol_eq_dec : EqDecision mdns_ip_protocol_t.
Proof. solve_decision. Defined.

(** [esp_ip_addr_t]: an IPv4 address as the 32-bit number it is stored in, an
    IPv6 address as its sixteen bytes in memory order. *)
Inductive esp_ip_addr_t :=
| IP4 (addr : Z)
| IP6 (addr : list Z).

#[export] Instance ip_addr_eq_dec : EqDecision esp_ip_addr_t.
Proof. solve_decision. Defined.

Definition mdns_if_t := nat.
Definition sid := positive.
Definition hid := positive.

Record mdns_txt_linked_item_t := mk_txt {
  key : option cstr;
  value : option (list Z);
  value_len : Z;
}.

Record mdns_service_t := mk_service {
  srv_instance : option cstr;
  srv_service : cstr;
  srv_proto : cstr;
  srv_hostname : option cstr;
  priority : Z;
  weight : Z;
  port : Z;
  txt : list mdns_txt_linked_item_t;
  subtype : list cstr;
}.

Record mdns_host_item_t := mk_host {
  hostname : option cstr;
  address_list : list esp_ip_addr_t;
}.

(** A [mdns_host_item_t *]: the responder's own entry or a delegated host. *)
Inductive host_ref := SelfHost | Delegated (h : hid).

#[export] Instance host_ref_eq_dec : EqDecision host_ref.
Proof. solve_decision. Defined.

Record mdns_server_t := mk_server {
  s_hostname : option cstr;
  s_instance : option cstr;
  s_services : list (sid * mdns_service_t);
  s_hosts : list (hid * mdns_host_item_t);
  s_self_host : mdns_host_item_t;
}.

Definition mdns_priv_get_global_hostname (s : option mdns_server_t) : option cstr :=
  s ≫= s_hostname.

Definition mdns_priv_get_instance (s : option mdns_server_t) : option cstr :=
  s ≫= s_instance.

Definition mdns_priv_get_services (s : option mdns_server_t) : list (sid * mdns_service_t) :=
  match s with Some s => s_services s | None => [] end.

Definition mdns_priv_get_hosts (s : option mdns_server_t) : list (hid * mdns_host_item_t) :=
  match s with Some s => s_hosts s | None => [] end.

Definition mdns_priv_get_self_host (s : option mdns_server_t) : option host_ref :=
  match s with Some _ => Some SelfHost | None => None end.

(** Dereferences. *)
Fixpoint assoc {A} (k : positive) (l : list (positive * A)) : option A :=
  match l with
  | [] => None
  | (k', a) :: l => if Pos.eqb k k' then Some a else assoc k l
  end.

Definition get_service (s : option mdns_server_t) (i : sid) : outcome mdns_service_t :=
  match assoc i (mdns_priv_get_services s) with Some x => Ret x | None => BadAccess end.

Definition get_host (s : option mdns_server_t) (h : host_ref) : outcome mdns_host_item_t :=
  match s, h with
  | Some s, SelfHost => Ret (s_self_host s)
  | Some s, Delegated h =>
      match assoc h (s_hosts s) with Some x => Ret x | None => BadAccess end
  | None, _ => BadAccess
  end.

(** * Lookups *)

(** [mdns_utils_str_null_or_empty] on a nullable string. *)
Definition mdns_utils_str_null_or_empty (s : option cstr) : bool :=
  match s with None | Some [] => true | _ => false end.

Definition mdns_utils_str_case_equal (a b : option cstr) : bool :=
  match a, b with
  | Some (x :: a), Some (y :: b) => strcaseeq (x :: a) (y :: b)
  | _, _ => false
  end.

Definition mdns_utils_str_case_equal_nullable (a b : option cstr) : bool :=
  (mdns_utils_str_null_or_empty a && mdns_utils_str_null_or_empty b)
  || mdns_utils_str_case_equal a b.

(** The [while] loops that search a list for the first match. *)
Fixpoint find_first {A} (f : A -> outcome bool) (l : list A) : outcome (option A) :=
  match l with
  | [] => Ret None
  | x :: l => b ← f x; if (b : bool) then Ret (Some x) else find_first f l
  end.

Definition mdns_utils_hostname_is_ours (s : option mdns_server_t) (h : cstr) : outcome bool :=
  if negb (mdns_utils_str_null_or_empty (mdns_priv_get_global_hostname s))
     && match mdns_priv_get_global_hostname s with Some g => strcaseeq h g | None => false end
  then Ret true
  else
    r ← find_first (fun x => strcasecmp_eq (Some h) (hostname (snd x))) (mdns_priv_get_hosts s);
    Ret (bool_decide (is_Some r)).

Definition mdns_utils_service_match (srv : mdns_service_t) (service proto hostname : option cstr)
    : bool :=
  match service, proto, srv_hostname srv with
  | Some service, Some proto, Some h =>
      strcaseeq (srv_service srv) service && strcaseeq (srv_proto srv) proto
      && (mdns_utils_str_null_or_empty hostname
          || match hostname with Some x => strcaseeq h x | None => false end)
  | _, _, _ => false
  end.

Definition mdns_utils_get_service_item (s : option mdns_server_t)
    (service proto hostname : option cstr) : outcome (option (sid * mdns_service_t)) :=
  find_first (fun x => Ret (mdns_utils_service_match (snd x) service proto hostname))
    (mdns_priv_get_services s).

Definition get_default_instance_name (s : option mdns_server_t) : option cstr :=
  if negb (mdns_utils_str_null_or_empty (mdns_priv_get_instance s)) then mdns_priv_get_instance s
  else if negb (mdns_utils_str_null_or_empty (mdns_priv_get_global_hostname s))
  then mdns_priv_get_global_hostname s
  else None.

Definition mdns_utils_get_service_instance_name (s : option mdns_server_t)
    (service : mdns_service_t) : option cstr :=
  if negb (mdns_utils_str_null_or_empty (srv_instance service)) then srv_instance service
  else get_default_instance_name s.

Definition mdns_utils_instance_name_match (s : option mdns_server_t) (lhs rhs : option cstr)
    : outcome bool :=
  let lhs := match lhs with None => get_default_instance_name s | _ => lhs end in
  let rhs := match rhs with None => get_default_instance_name s | _ => rhs end in
  strcasecmp_eq lhs rhs.

Definition mdns_utils_service_match_instance (s : option mdns_server_t) (srv : mdns_service_t)
    (instance service proto hostname : option cstr) : outcome bool :=
  match service, proto with
  | Some service, Some proto =>
      if negb (strcaseeq (srv_service srv) service) then Ret false
      else
        m ← mdns_utils_instance_name_match s (srv_instance srv) instance;
        if negb m then Ret false
        else if negb (strcaseeq (srv_proto srv) proto) then Ret false
        else if mdns_utils_str_null_or_empty hostname then Ret true
        else strcasecmp_eq (srv_hostname srv) hostname
  | _, _ => Ret false
  end.

Definition mdns_utils_get_service_item_instance (s : option mdns_server_t)
    (instance service proto hostname : option cstr) : outcome (option (sid * mdns_service_t)) :=
  find_first
    (fun x =>
       match instance with
       | Some _ => mdns_utils_service_match_instance s (snd x) instance service proto hostname
       | None => Ret (mdns_utils_service_match (snd x) service proto hostname)
       end) (mdns_priv_get_services s).
