(* ===== verification/Encode.v ===== *)
(** Serialisation of outgoing packets: components/mdns/mdns_send.c from
    [append_u32] to [mdns_priv_dispatch_tx_packet], with
    [mdns_utils_append_u8] and [mdns_utils_append_u16].

    The static packet buffer and the write index are the state of a small
    writer monad.  Every store and every read back of the buffer is checked
    against its size; what lies beyond the index is whatever an earlier packet
    left there, exactly as in the static buffer of the code. *)
From S2P Require Import Prelude Names Server.

(** * The writer *)

Record pkt := mk_pkt { buf : list Z; index : nat }.

Definition W (A : Type) : Type := pkt -> outcome (A * pkt).

#[export] Instance W_bind : MBind W := fun A B f m p =>
  match m p with
  | Ret (a, p) => f a p
  | Failed => Failed
  | BadAccess => BadAccess
  | OutOfFuel => OutOfFuel
  end.

#[export] Instance W_ret : MRet W := fun A a p => Ret (a, p).

(** A check or a lookup made in the middle of writing. *)
Definition lift {A} (m : outcome A) : W A := fun p =>
  match m with
  | Ret a => Ret (a, p)
  | Failed => Failed
  | BadAccess => BadAccess
  | OutOfFuel => OutOfFuel
  end.

(** [packet[*index ...] = bs; *index += length bs]. *)
Definition put (bs : list Z) : W unit := fun p =>
  b ← wr_bytes (buf p) (index p) bs; Ret (tt, mk_pkt b (index p + length bs)).

(** [*index += n] over bytes that are left as they are. *)
Definition advance (n : nat) : W unit := fun p => Ret (tt, mk_pkt (buf p) (index p + n)).

Definition get_index : W nat := fun p => Ret (index p, p).

(** * Integers and strings *)

Definition mdns_utils_append_u8 (v : Z) : W Z := fun p =>
  if MDNS_MAX_PACKET_SIZE <=? index p then Ret (0%Z, p)
  else (_ ← put [u8 v]; mret 1%Z) p.

Definition mdns_utils_append_u16 (v : Z) : W Z := fun p =>
  if MDNS_MAX_PACKET_SIZE <=? index p + 1 then Ret (0%Z, p)
  else
    (_ ← mdns_utils_append_u8 (Z.land (Z.shiftr v 8) 0xFF);
     _ ← mdns_utils_append_u8 (Z.land v 0xFF);
     mret 2%Z) p.

Definition append_u32 (v : Z) : W Z := fun p =>
  if MDNS_MAX_PACKET_SIZE <=? index p + 4 then Ret (0%Z, p)
  else
    (_ ← mdns_utils_append_u8 (Z.land (Z.shiftr v 24) 0xFF);
     _ ← mdns_utils_append_u8 (Z.land (Z.shiftr v 16) 0xFF);
     _ ← mdns_utils_append_u8 (Z.land (Z.shiftr v 8) 0xFF);
     _ ← mdns_utils_append_u8 (Z.land v 0xFF);
     mret 4%Z) p.

Definition append_type (type : Z) (flush : bool) (ttl : Z) : W Z := fun p =>
  if MDNS_MAX_PACKET_SIZE <=? index p + 10 then Ret (0%Z, p)
  else
    let mdns_class := if flush then MDNS_CLASS_IN_FLUSH_CACHE else MDNS_CLASS_IN in
    let tail (rrtype : Z) : W Z :=
      _ ← mdns_utils_append_u16 rrtype;
      _ ← mdns_utils_append_u16 mdns_class;
      _ ← append_u32 ttl;
      _ ← mdns_utils_append_u16 0;
      mret 10%Z in
    if (type =? MDNS_ANSWER_PTR)%Z then tail MDNS_TYPE_PTR p
    else if (type =? MDNS_ANSWER_TXT)%Z then tail MDNS_TYPE_TXT p
    else if (type =? MDNS_ANSWER_SRV)%Z then tail MDNS_TYPE_SRV p
    else if (type =? MDNS_ANSWER_A)%Z then tail MDNS_TYPE_A p
    else if (type =? MDNS_ANSWER_AAAA)%Z then tail MDNS_TYPE_AAAA p
    else Ret (0%Z, p).

(** The length is a [uint8_t]: a longer string is written truncated. *)
Definition append_string (s : cstr) : W Z := fun p =>
  let len := u8 (Z.of_nat (length s)) in
  if MDNS_MAX_PACKET_SIZE <=? index p + Z.to_nat len + 1 then Ret (0%Z, p)
  else
    (_ ← mdns_utils_append_u8 len;
     _ ← put (take (Z.to_nat len) s);
     mret (u8 (len + 1))) p.

Definition set_u16 (location : nat) (v : Z) : W unit := fun p =>
  if MDNS_MAX_PACKET_SIZE <=? location + 1 then Ret (tt, p)
  else
    b ← wr_bytes (buf p) location [Z.land (Z.shiftr v 8) 0xFF; Z.land v 0xFF];
    Ret (tt, mk_pkt b (index p)).

Definition mdns_priv_append_one_txt_record_entry (t : mdns_txt_linked_item_t) : W Z := fun p =>
  match key t with
  | None => Ret ((-1)%Z, p)
  | Some k =>
      let len := length k + Z.to_nat (value_len t) + (match value t with Some _ => 1 | None => 0 end) in
      if MDNS_MAX_PACKET_SIZE <=? index p + len + 1 then Ret (0%Z, p)
      else
        (_ ← mdns_utils_append_u8 (Z.of_nat len);
         _ ← (match value t with
              | Some v =>
                  v ← lift (rd_bytes v 0 (Z.to_nat (value_len t)));
                  put (k ++ 61%Z :: v)
              | None => _ ← put k; advance (Z.to_nat (value_len t))
              end);
         mret (Z.of_nat (len + 1))) p
  end.

(** * Names with compression *)

(** The text of part [i] of a name, by position in [mdns_name_t]. *)
Definition name_part (n : mdns_name_t) (i : nat) : cstr :=
  match i with 0 => host n | 1 => service n | 2 => proto n | _ => domain n end.

Fixpoint same_parts (strings : list cstr) (n : mdns_name_t) (i : nat) : bool :=
  match strings with
  | [] => true
  | s :: strings => strcaseeq s (name_part n i) && same_parts strings n (S i)
  end.

Section WithConfig.
Context (cfg : config).

(** The search for an earlier occurrence: the [n] offsets from [loc] on. *)
Fixpoint find_name (packet : list Z) (packet_len : nat) (strings : list cstr) (loc n : nat)
    : outcome (option nat) :=
  match n with
  | 0 => Ret None
  | S n =>
      let first := match strings with s :: _ => s | [] => [] end in
      let len := u8 (Z.of_nat (length first)) in
      let search_next := find_name packet packet_len strings (S loc) n in
      b ← rd packet loc;
      if negb (b =? len)%Z then search_next
      else
        bs ← rd_bytes packet (S loc) (Z.to_nat len);
        match memcmp bs (take (Z.to_nat len) first) with
        | Eq =>
            match mdns_utils_read_fqdn cfg packet packet_len loc empty_name with
            | Failed => search_next
            | Ret (_, name) =>
                if (parts name =? length strings) && same_parts strings name 0
                then Ret (Some loc) else search_next
            | BadAccess => BadAccess
            | OutOfFuel => OutOfFuel
            end
        | _ => search_next
        end
  end.

Fixpoint append_fqdn (strings : list cstr) (packet_len : nat) : W Z :=
  match strings with
  | [] => mdns_utils_append_u8 0
  | s :: rest => fun p =>
      found ← find_name (buf p) packet_len strings 0 (index p);
      match found with
      | None =>
          (written ← append_string s;
           if (written =? 0)%Z then mret 0%Z
           else
             more ← append_fqdn rest packet_len;
             mret (u16 (written + more))) p
      | Some loc => mdns_utils_append_u16 (Z.lor (Z.of_nat loc) MDNS_NAME_REF) p
      end
  end.

(** The [uint8_t part_length] the callers keep the length in. *)
Definition append_fqdn8 (strings : list cstr) : W Z :=
  l ← append_fqdn strings MDNS_MAX_PACKET_SIZE; mret (u8 l).

(** * Questions and records *)

Record mdns_out_question_t := mk_out_question {
  oq_type : Z;
  oq_unicast : bool;
  oq_host : option cstr;
  oq_service : option cstr;
  oq_proto : option cstr;
  oq_domain : option cstr;
  oq_subtype : option cstr;
  oq_own_dynamic_memory : bool;
}.

Definition opt_list {A} (x : option A) : list A := match x with Some a => [a] | None => [] end.

Definition append_single_str (s : cstr) (len : nat) : W Z := fun p =>
  if MDNS_MAX_PACKET_SIZE <=? index p + len + 1 then Ret (0%Z, p)
  else
    (r ← mdns_utils_append_u8 (Z.of_nat len);
     if (r =? 0)%Z then mret 0%Z
     else _ ← put (take len s); i ← get_index; mret (Z.of_nat i)) p.

(** Labels of a dotted name: the text between dots, an empty tail after a
    final dot not included. *)
Fixpoint split_dots (s cur : cstr) : list cstr :=
  match s with
  | [] => [rev cur]
  | c :: s =>
      if (c =? 46)%Z then
        match s with [] => [rev cur] | _ => rev cur :: split_dots s [] end
      else split_dots s (c :: cur)
  end.

Fixpoint append_single_strs (ss : list cstr) : W Z :=
  match ss with
  | [] => mret 1%Z
  | s :: ss =>
      r ← append_single_str s (length s);
      if (r =? 0)%Z then mret 0%Z else append_single_strs ss
  end.

Definition append_fqdn_dots (name : cstr) : W Z :=
  r ← append_single_strs (split_dots name []);
  if (r =? 0)%Z then mret 0%Z
  else
    r ← append_single_str (str "arpa") 4;
    if (r =? 0)%Z then mret 0%Z
    else
      r ← mdns_utils_append_u8 0;
      if (r =? 0)%Z then mret 0%Z else i ← get_index; mret (Z.of_nat i).

(** [strstr(s, needle) != NULL]. *)
Fixpoint starts_with (needle s : cstr) : bool :=
  match needle, s with
  | [], _ => true
  | x :: needle, y :: s => (x =? y)%Z && starts_with needle s
  | _, [] => false
  end.

Fixpoint strstr (s needle : cstr) : bool :=
  starts_with needle s || match s with [] => false | _ :: s => strstr s needle end.

Definition is_reverse_name (s : cstr) : bool := strstr s (str "in-addr") || strstr s (str "ip6").

Definition append_question (q : mdns_out_question_t) : W Z :=
  part_length ←
    (match CONFIG_MDNS_RESPOND_REVERSE_QUERIES cfg, oq_subtype q, oq_host q with
     | true, None, Some h =>
         if is_reverse_name h then l ← append_fqdn_dots h; mret (u8 l)
         else append_fqdn8 (h :: opt_list (oq_service q) ++ opt_list (oq_proto q) ++ opt_list (oq_domain q))
     | _, st, h =>
         let prefix := match st with Some s => [s; MDNS_SUB_STR] | None => opt_list h end in
         append_fqdn8 (prefix ++ opt_list (oq_service q) ++ opt_list (oq_proto q) ++ opt_list (oq_domain q))
     end);
  if (part_length =? 0)%Z then mret 0%Z
  else
    a ← mdns_utils_append_u16 (oq_type q);
    b ← mdns_utils_append_u16 (if oq_unicast q then 0x8001 else 0x0001);
    mret (u8 (part_length + a + b)).

(** The shape every record function has: the owner name, the fixed part, the
    data, and the length of the data stored at the end of the fixed part.  A
    part of length 0 makes the function return 0; [u8] and [u16] are the widths
    of [part_length] and [record_length]. *)
Definition append_record (owner : W Z) (type : Z) (flush : bool) (ttl : Z) (rdata : W Z) : W Z :=
  part_length ← owner;
  if (part_length =? 0)%Z then mret 0%Z
  else
    let record_length := part_length in
    part_length ← append_type type flush ttl;
    if (part_length =? 0)%Z then mret 0%Z
    else
      let record_length := (record_length + part_length)%Z in
      i ← get_index;
      let data_len_location := i - 2 in
      data_len ← rdata;
      if (data_len =? 0)%Z then mret 0%Z
      else _ ← set_u16 data_len_location data_len; mret (u16 (record_length + data_len)).

(** A null string handed to [append_fqdn] is dereferenced by [strlen]. *)
Fixpoint derefs (l : list (option cstr)) : outcome (list cstr) :=
  match l with
  | [] => Ret []
  | s :: l => s ← deref s; l ← derefs l; Ret (s :: l)
  end.

(** [append_fqdn] on an array of pointers, all of which it dereferences unless
    the buffer fills up first. *)
Definition append_fqdn_ptrs (strings : list (option cstr)) : W Z :=
  ss ← lift (derefs strings); append_fqdn8 ss.

Definition bye_ttl (bye : bool) (ttl : Z) : Z := if bye then 0 else ttl.

Definition append_reverse_ptr_record (s : option mdns_server_t) (name : cstr) : W Z :=
  if negb (is_reverse_name name) then mret 0%Z
  else
    r ← append_record (l ← append_fqdn_dots name; mret (u16 l)) MDNS_ANSWER_PTR false 10
          (self ← lift (get_host s SelfHost);
           h ← lift (deref (hostname self));
           append_fqdn [h; MDNS_DEFAULT_DOMAIN] MDNS_MAX_PACKET_SIZE);
    mret (if (r =? 0)%Z then 0%Z else 1%Z).

Definition append_ptr_record (instance service proto : option cstr) (flush bye : bool) : W Z :=
  match service with
  | None => mret 0%Z
  | Some _ =>
      append_record (append_fqdn_ptrs [service; proto; Some MDNS_DEFAULT_DOMAIN])
        MDNS_ANSWER_PTR false (bye_ttl bye MDNS_ANSWER_PTR_TTL)
        (append_fqdn_ptrs [instance; service; proto; Some MDNS_DEFAULT_DOMAIN])
  end.

Definition append_subtype_ptr_record (instance : option cstr) (subtype service proto : cstr)
    (flush bye : bool) : W Z :=
  append_record (append_fqdn8 [subtype; MDNS_SUB_STR; service; proto; MDNS_DEFAULT_DOMAIN])
    MDNS_ANSWER_PTR false (bye_ttl bye MDNS_ANSWER_PTR_TTL)
    (append_fqdn_ptrs [instance; Some service; Some proto; Some MDNS_DEFAULT_DOMAIN]).

Fixpoint append_subtypes (instance : option cstr) (subtypes : list cstr) (service proto : cstr)
    (flush bye : bool) (appended_answers : Z) : W Z :=
  match subtypes with
  | [] => mret appended_answers
  | st :: subtypes =>
      r ← append_subtype_ptr_record instance st service proto flush bye;
      append_subtypes instance subtypes service proto flush bye
        (u8 (appended_answers + (if (0 <? r)%Z then 1 else 0)))
  end.

Definition append_service_ptr_answers (s : option mdns_server_t) (service : mdns_service_t)
    (flush bye : bool) : W Z :=
  let instance := mdns_utils_get_service_instance_name s service in
  r ← append_ptr_record instance (Some (srv_service service)) (Some (srv_proto service)) flush bye;
  if (r <=? 0)%Z then mret 0%Z
  else append_subtypes instance (subtype service) (srv_service service) (srv_proto service) flush bye 1.

Definition append_srv_record (s : option mdns_server_t) (service : mdns_service_t) (flush bye : bool) : W Z :=
  match mdns_utils_get_service_instance_name s service with
  | None => mret 0%Z
  | Some instance =>
      append_record
        (append_fqdn8 [instance; srv_service service; srv_proto service; MDNS_DEFAULT_DOMAIN])
        MDNS_ANSWER_SRV flush (bye_ttl bye MDNS_ANSWER_SRV_TTL)
        (a ← mdns_utils_append_u16 (priority service);
         b ← mdns_utils_append_u16 (weight service);
         c ← mdns_utils_append_u16 (port service);
         if negb (u8 (a + b + c) =? 6)%Z then mret 0%Z
         else
           let h := match srv_hostname service with
                    | Some h => Some h
                    | None => mdns_priv_get_global_hostname s
                    end in
           if mdns_utils_str_null_or_empty h then mret 0%Z
           else
             part_length ← append_fqdn_ptrs [h; Some MDNS_DEFAULT_DOMAIN];
             if (part_length =? 0)%Z then mret 0%Z else mret (part_length + 6)%Z)
  end.

(** The loop over the TXT items; 0 when an entry does not fit. *)
Fixpoint append_txt_items (items : list mdns_txt_linked_item_t) (data_len : Z) : W (option Z) :=
  match items with
  | [] => mret (Some data_len)
  | t :: items =>
      l ← mdns_priv_append_one_txt_record_entry t;
      if (0 <? l)%Z then append_txt_items items (u16 (data_len + l))
      else if (l =? 0)%Z then mret None
      else append_txt_items items data_len
  end.

Definition append_txt_record (s : option mdns_server_t) (service : mdns_service_t) (flush bye : bool) : W Z :=
  match mdns_utils_get_service_instance_name s service with
  | None => mret 0%Z
  | Some instance =>
      append_record
        (append_fqdn8 [instance; srv_service service; srv_proto service; MDNS_DEFAULT_DOMAIN])
        MDNS_ANSWER_TXT flush (bye_ttl bye MDNS_ANSWER_TXT_TTL)
        (r ← append_txt_items (txt service) 0;
         match r with
         | None => mret 0%Z
         | Some data_len =>
             if (data_len =? 0)%Z then _ ← put [0%Z]; mret 1%Z else mret data_len
         end)
  end.

(** The owner name of the service enumeration record is appended without a
    check of its length. *)
Definition append_sdptr_record (service : mdns_service_t) (flush bye : bool) : W Z :=
  part_length ← append_fqdn8 [str "_services"; str "_dns-sd"; str "_udp"; MDNS_DEFAULT_DOMAIN];
  let record_length := part_length in
  part_length ← append_type MDNS_ANSWER_PTR flush MDNS_ANSWER_PTR_TTL;
  if (part_length =? 0)%Z then mret 0%Z
  else
    let record_length := (record_length + part_length)%Z in
    i ← get_index;
    part_length ← append_fqdn8 [srv_service service; srv_proto service; MDNS_DEFAULT_DOMAIN];
    if (part_length =? 0)%Z then mret 0%Z
    else _ ← set_u16 (i - 2) part_length; mret (u16 (record_length + part_length)).

Definition append_a_record (h : option cstr) (ip : Z) (flush bye : bool) : W Z :=
  if mdns_utils_str_null_or_empty h then mret 0%Z
  else
    append_record (append_fqdn_ptrs [h; Some MDNS_DEFAULT_DOMAIN]) MDNS_ANSWER_A flush
      (bye_ttl bye MDNS_ANSWER_A_TTL)
      (i ← get_index;
       if MDNS_MAX_PACKET_SIZE <=? i + 3 then mret 0%Z
       else
         _ ← mdns_utils_append_u8 (Z.land ip 0xFF);
         _ ← mdns_utils_append_u8 (Z.land (Z.shiftr ip 8) 0xFF);
         _ ← mdns_utils_append_u8 (Z.land (Z.shiftr ip 16) 0xFF);
         _ ← mdns_utils_append_u8 (Z.land (Z.shiftr ip 24) 0xFF);
         mret 4%Z).

Definition append_aaaa_record (h : option cstr) (ipv6 : list Z) (flush bye : bool) : W Z :=
  if mdns_utils_str_null_or_empty h then mret 0%Z
  else
    append_record (append_fqdn_ptrs [h; Some MDNS_DEFAULT_DOMAIN]) MDNS_ANSWER_AAAA flush
      (bye_ttl bye MDNS_ANSWER_AAAA_TTL)
      (i ← get_index;
       if MDNS_MAX_PACKET_SIZE <? i + MDNS_ANSWER_AAAA_SIZE then mret 0%Z
       else
         bs ← lift (rd_bytes ipv6 0 MDNS_ANSWER_AAAA_SIZE);
         _ ← put bs;
         mret 16%Z).

(** * Answers *)

(** What the encoder asks of the network interfaces and of the protocol
    control blocks. *)
Record net_view := mk_net_view {
  if_ready : mdns_if_t -> mdns_ip_protocol_t -> bool;
  is_duplicate : mdns_if_t -> mdns_ip_protocol_t -> bool;
  check_for_duplicates : mdns_if_t -> bool;
  other_interface : mdns_if_t -> mdns_if_t;
  ip4_info : mdns_if_t -> option Z;
  all_ip6 : mdns_if_t -> list (list Z);
  ip6_linklocal : mdns_if_t -> option (list Z);
}.

Record mdns_out_answer_t := mk_out_answer {
  oa_type : Z;
  oa_bye : bool;
  oa_flush : bool;
  oa_service : option sid;
  oa_host : option host_ref;
  oa_custom_instance : option cstr;
  oa_custom_service : option cstr;
  oa_custom_proto : option cstr;
}.

Definition mdns_utils_ipv6_address_is_zero (ip6 : list Z) : bool :=
  forallb (fun b => (b =? 0)%Z) ip6.

(** The [while] loop of [append_host_answer], for addresses of one kind. *)
Fixpoint append_host_answer (h : option cstr) (addrs : list esp_ip_addr_t) (v6 : bool)
    (flush bye : bool) (num_records : Z) : W Z :=
  match addrs with
  | [] => mret num_records
  | a :: addrs =>
      match a with
      | IP4 ip =>
          if v6 then append_host_answer h addrs v6 flush bye num_records
          else
            r ← append_a_record h ip flush bye;
            if (r <=? 0)%Z then mret num_records
            else append_host_answer h addrs v6 flush bye (u8 (num_records + 1))
      | IP6 ip =>
          if v6 then
            r ← append_aaaa_record h ip flush bye;
            if (r <=? 0)%Z then mret num_records
            else append_host_answer h addrs v6 flush bye (u8 (num_records + 1))
          else append_host_answer h addrs v6 flush bye num_records
      end
  end.

Definition is_host_valid (s : option mdns_server_t) (h : host_ref) : bool :=
  bool_decide (mdns_priv_get_self_host s = Some h)
  || existsb (fun x => bool_decide (Delegated (fst x) = h)) (mdns_priv_get_hosts s).

(** The A record branch for the responder's own host. *)
Definition append_self_a (s : option mdns_server_t) (net : net_view) (answer : mdns_out_answer_t)
    (tcpip_if : mdns_if_t) : W Z :=
  if negb (if_ready net tcpip_if MDNS_IP_PROTOCOL_V4)
     && negb (is_duplicate net tcpip_if MDNS_IP_PROTOCOL_V4) then mret 0%Z
  else
    match ip4_info net tcpip_if with
    | None => mret 0%Z
    | Some ip =>
        if (ip =? 0)%Z then mret 0%Z
        else
          r ← append_a_record (mdns_priv_get_global_hostname s) ip (oa_flush answer) (oa_bye answer);
          if (r <=? 0)%Z then mret 0%Z
          else if negb (check_for_duplicates net tcpip_if) then mret 1%Z
          else
            match ip4_info net (other_interface net tcpip_if) with
            | None => mret 1%Z
            | Some ip =>
                if (ip =? 0)%Z then mret 1%Z
                else
                  r ← append_a_record (mdns_priv_get_global_hostname s) ip (oa_flush answer) (oa_bye answer);
                  mret (if (0 <? r)%Z then 2%Z else 1%Z)
            end
    end.

(** The loop over the interface's IPv6 addresses; [None] is its [return 0]. *)
Fixpoint append_ip6s (s : option mdns_server_t) (answer : mdns_out_answer_t) (ips : list (list Z))
    : W (option unit) :=
  match ips with
  | [] => mret (Some tt)
  | ip :: ips =>
      if mdns_utils_ipv6_address_is_zero ip then mret None
      else
        r ← append_aaaa_record (mdns_priv_get_global_hostname s) ip (oa_flush answer) (oa_bye answer);
        if (r <=? 0)%Z then mret None else append_ip6s s answer ips
  end.

(** The AAAA record branch for the responder's own host. *)
Definition append_self_aaaa (s : option mdns_server_t) (net : net_view) (answer : mdns_out_answer_t)
    (tcpip_if : mdns_if_t) : W Z :=
  if negb (if_ready net tcpip_if MDNS_IP_PROTOCOL_V6)
     && negb (is_duplicate net tcpip_if MDNS_IP_PROTOCOL_V6) then mret 0%Z
  else
    let ips := all_ip6 net tcpip_if in
    let count := u8 (Z.of_nat (length ips)) in
    ok ← append_ip6s s answer ips;
    match ok with
    | None => mret 0%Z
    | Some _ =>
        if negb (check_for_duplicates net tcpip_if) then mret count
        else
          match ip6_linklocal net (other_interface net tcpip_if) with
          | None => mret count
          | Some ip =>
              r ← append_aaaa_record (mdns_priv_get_global_hostname s) ip (oa_flush answer) (oa_bye answer);
              mret (if (0 <? r)%Z then u8 (1 + count) else count)
          end
    end.

Definition positive_b (r : Z) : Z := if (0 <? r)%Z then 1 else 0.

(** A service pointer that the record functions test for null themselves. *)
Definition with_service (s : option mdns_server_t) (i : option sid) (f : mdns_service_t -> W Z) : W Z :=
  match i with
  | None => mret 0%Z
  | Some i => srv ← lift (get_service s i); f srv
  end.

(** The PTR record of an answer that names its service itself. *)
Definition append_custom_ptr (answer : mdns_out_answer_t) : W Z :=
  r ← append_ptr_record (oa_custom_instance answer) (oa_custom_service answer) (oa_custom_proto answer)
        (oa_flush answer) (oa_bye answer);
  mret (positive_b r).

Definition append_answer (s : option mdns_server_t) (net : net_view) (answer : mdns_out_answer_t)
    (tcpip_if : mdns_if_t) : W Z :=
  if match oa_host answer with Some h => negb (is_host_valid s h) | None => false end then mret 0%Z
  else if (oa_type answer =? MDNS_TYPE_PTR)%Z then
    match oa_service answer, oa_host answer with
    | Some i, _ =>
        srv ← lift (get_service s i);
        append_service_ptr_answers s srv (oa_flush answer) (oa_bye answer)
    | None, Some h =>
        host ← lift (get_host s h);
        match CONFIG_MDNS_RESPOND_REVERSE_QUERIES cfg, hostname host with
        | true, Some name =>
            if is_reverse_name name
            then r ← append_reverse_ptr_record s name; mret (positive_b r)
            else append_custom_ptr answer
        | _, _ => append_custom_ptr answer
        end
    | None, None => append_custom_ptr answer
    end
  else if (oa_type answer =? MDNS_TYPE_SRV)%Z then
    r ← with_service s (oa_service answer)
          (fun srv => append_srv_record s srv (oa_flush answer) (oa_bye answer));
    mret (positive_b r)
  else if (oa_type answer =? MDNS_TYPE_TXT)%Z then
    r ← with_service s (oa_service answer)
          (fun srv => append_txt_record s srv (oa_flush answer) (oa_bye answer));
    mret (positive_b r)
  else if (oa_type answer =? MDNS_TYPE_SDPTR)%Z then
    r ← with_service s (oa_service answer)
          (fun srv => append_sdptr_record srv (oa_flush answer) (oa_bye answer));
    mret (positive_b r)
  else if CONFIG_LWIP_IPV4 cfg && (oa_type answer =? MDNS_TYPE_A)%Z then
    if bool_decide (oa_host answer = mdns_priv_get_self_host s) then append_self_a s net answer tcpip_if
    else
      match oa_host answer with
      | Some h =>
          host ← lift (get_host s h);
          append_host_answer (hostname host) (address_list host) false (oa_flush answer) (oa_bye answer) 0
      | None => mret 0%Z
      end
  else if CONFIG_LWIP_IPV6 cfg && (oa_type answer =? MDNS_TYPE_AAAA)%Z then
    if bool_decide (oa_host answer = mdns_priv_get_self_host s) then append_self_aaaa s net answer tcpip_if
    else
      match oa_host answer with
      | Some h =>
          host ← lift (get_host s h);
          append_host_answer (hostname host) (address_list host) true (oa_flush answer) (oa_bye answer) 0
      | None => mret 0%Z
      end
  else mret 0%Z.

(** * Whole packets *)

Record mdns_tx_packet_t := mk_tx_packet {
  tx_send_at : Z;
  tx_if : mdns_if_t;
  tx_ip_protocol : mdns_ip_protocol_t;
  tx_dst : esp_ip_addr_t;
  tx_port : Z;
  tx_flags : Z;
  tx_distributed : bool;
  tx_questions : list mdns_out_question_t;
  tx_answers : list mdns_out_answer_t;
  tx_servers : list mdns_out_answer_t;
  tx_additional : list mdns_out_answer_t;
  tx_queued : bool;
  tx_id : Z;
}.

Fixpoint append_questions (qs : list mdns_out_question_t) (count : Z) : W Z :=
  match qs with
  | [] => mret count
  | q :: qs =>
      r ← append_question q;
      append_questions qs (if (r =? 0)%Z then count else u8 (count + 1))
  end.

Fixpoint append_answers (s : option mdns_server_t) (net : net_view) (tcpip_if : mdns_if_t)
    (answers : list mdns_out_answer_t) (count : Z) : W Z :=
  match answers with
  | [] => mret count
  | a :: answers =>
      r ← append_answer s net a tcpip_if;
      append_answers s net tcpip_if answers (u8 (count + r))
  end.

(** [mdns_priv_dispatch_tx_packet] up to the call of [mdns_priv_if_write]: from
    the static buffer to the buffer and the number of bytes handed over. *)
Definition mdns_priv_dispatch_tx_packet (s : option mdns_server_t) (net : net_view)
    (p : mdns_tx_packet_t) (static_buf : list Z) : outcome (list Z * nat) :=
  b ← wr_bytes static_buf 0 (replicate MDNS_HEAD_LEN 0%Z);
  '(_, r) ←
    (_ ← set_u16 2 (tx_flags p);
     _ ← set_u16 0 (tx_id p);
     count ← append_questions (tx_questions p) 0;
     _ ← set_u16 4 count;
     count ← append_answers s net (tx_if p) (tx_answers p) 0;
     _ ← set_u16 6 count;
     count ← append_answers s net (tx_if p) (tx_servers p) 0;
     _ ← set_u16 8 count;
     count ← append_answers s net (tx_if p) (tx_additional p) 0;
     set_u16 10 count) (mk_pkt b MDNS_HEAD_LEN);
  Ret (buf r, index r).

End WithConfig.
