(* ===== verification/EncodeSafe.v ===== *)
(** Memory safety of the encoder: no packet, however large its records are,
    makes [mdns_priv_dispatch_tx_packet] store outside the 1460-byte packet
    buffer, and the write index never leaves it.

    The only access beyond the buffer the code can make is the [memcmp] of
    [append_fqdn] on a candidate near its end, which reads at most 255 bytes
    further; the lemmas therefore speak of a buffer followed by that much
    readable memory and show that nothing of it is ever modified. *)
From S2P Require Import Prelude Names Server Encode.

(** Readable bytes assumed after the packet buffer. *)
Definition overread : nat := 255.

#[global] Opaque overread.

Record pkt_ok (p : pkt) : Prop := mk_pkt_ok {
  pkt_len : MDNS_MAX_PACKET_SIZE + overread <= length (buf p);
  pkt_index : index p <= MDNS_MAX_PACKET_SIZE;
  pkt_bytes : Forall byte_ok (buf p);
}.

(** What writing leaves alone: the size of the buffer, and every byte after
    the packet buffer; the index only grows. *)
Record frame (p p' : pkt) : Prop := mk_frame {
  frame_len : length (buf p') = length (buf p);
  frame_index : index p <= index p';
  frame_rest : forall j, MDNS_MAX_PACKET_SIZE <= j -> buf p' !! j = buf p !! j;
}.

(** [m], run on [p], returns, keeps the invariant and establishes [Q]. *)
Definition wpre {A} (m : W A) (p : pkt) (Q : A -> pkt -> Prop) : Prop :=
  exists a p', m p = Ret (a, p') /\ pkt_ok p' /\ frame p p' /\ Q a p'.

Definition wsafe {A} (m : W A) (Q : A -> pkt -> Prop) : Prop :=
  forall p, pkt_ok p -> wpre m p Q.

(** * Data that can be encoded *)

Definition label_ok (s : cstr) : Prop := cstr_ok s.

Definition txt_item_ok (t : mdns_txt_linked_item_t) : Prop :=
  (forall k, key t = Some k -> cstr_ok k)
  /\ (forall v, value t = Some v -> Forall byte_ok v /\ Z.to_nat (value_len t) <= length v).

Record service_ok (srv : mdns_service_t) : Prop := mk_service_ok {
  srv_instance_ok : forall s, srv_instance srv = Some s -> label_ok s;
  srv_service_ok : label_ok (srv_service srv);
  srv_proto_ok : label_ok (srv_proto srv);
  srv_hostname_ok : forall s, srv_hostname srv = Some s -> label_ok s;
  srv_txt_ok : Forall txt_item_ok (txt srv);
  srv_subtype_ok : Forall label_ok (subtype srv);
}.

Definition addr_ok (a : esp_ip_addr_t) : Prop :=
  match a with IP4 _ => True | IP6 l => length l = MDNS_ANSWER_AAAA_SIZE /\ Forall byte_ok l end.

Record host_ok (h : mdns_host_item_t) : Prop := mk_host_ok {
  host_name_ok : forall s, hostname h = Some s -> label_ok s;
  host_addr_ok : Forall addr_ok (address_list h);
}.

(** A responder whose host name is set, as it is whenever packets go out. *)
Record server_ok (s : mdns_server_t) : Prop := mk_server_ok {
  server_hostname : exists h, s_hostname s = Some h /\ h <> [] /\ label_ok h;
  server_instance : forall i, s_instance s = Some i -> label_ok i;
  server_services : Forall (fun x => service_ok (snd x)) (s_services s);
  server_hosts : Forall (fun x => host_ok (snd x)) (s_hosts s);
  server_self : host_ok (s_self_host s) /\ hostname (s_self_host s) = s_hostname s;
}.

Definition net_ok (net : net_view) : Prop :=
  (forall i, Forall (fun l => addr_ok (IP6 l)) (all_ip6 net i))
  /\ (forall i l, ip6_linklocal net i = Some l -> addr_ok (IP6 l)).

(** An answer that names a service names all of it. *)
Definition custom_ok (a : mdns_out_answer_t) : Prop :=
  forall service, oa_custom_service a = Some service -> label_ok service
  /\ (exists instance, oa_custom_instance a = Some instance /\ label_ok instance)
  /\ exists proto, oa_custom_proto a = Some proto /\ label_ok proto.

(** The services and hosts an answer points to are still registered. *)
Definition answer_live (s : mdns_server_t) (a : mdns_out_answer_t) : Prop :=
  (forall i, oa_service a = Some i -> is_Some (assoc i (s_services s))) /\ custom_ok a.

Definition question_ok (q : mdns_out_question_t) : Prop :=
  Forall (fun o => forall s, o = Some s -> label_ok s)
    [oq_host q; oq_service q; oq_proto q; oq_domain q; oq_subtype q].

Record tx_packet_ok (s : mdns_server_t) (p : mdns_tx_packet_t) : Prop := mk_tx_packet_ok {
  tx_questions_ok : Forall question_ok (tx_questions p);
  tx_answers_ok : Forall (answer_live s) (tx_answers p);
  tx_servers_ok : Forall (answer_live s) (tx_servers p);
  tx_additional_ok : Forall (answer_live s) (tx_additional p);
}.

(** * The logic of the writer *)

Lemma frame_refl p : frame p p.
Proof. split; auto. Qed.

Lemma frame_trans p1 p2 p3 : frame p1 p2 -> frame p2 p3 -> frame p1 p3.
Proof.
  intros [L1 I1 R1] [L2 I2 R2]. split; [congruence|lia|]. intros j Hj.
  rewrite (R2 j Hj). auto.
Qed.

Lemma wpre_ret {A} (a : A) p (Q : A -> pkt -> Prop) : pkt_ok p -> Q a p -> wpre (mret a) p Q.
Proof. intros Hp HQ. exists a, p. auto using frame_refl. Qed.

Lemma wpre_here {A} (a : A) p (Q : A -> pkt -> Prop) : pkt_ok p -> Q a p ->
  exists a' p', Ret (a, p) = Ret (a', p') /\ pkt_ok p' /\ frame p p' /\ Q a' p'.
Proof. exact (wpre_ret a p Q). Qed.

Lemma wpre_bind {A B} (m : W A) (f : A -> W B) p Q R :
  wpre m p Q ->
  (forall a p', pkt_ok p' -> frame p p' -> Q a p' -> wpre (f a) p' R) ->
  wpre (m ≫= f) p R.
Proof.
  intros (a & p' & E & Hp' & Hf & HQ) Hk.
  destruct (Hk a p' Hp' Hf HQ) as (b & p'' & E' & Hp'' & Hf' & HR).
  exists b, p''. unfold mbind, W_bind. rewrite E. eauto using frame_trans.
Qed.

Lemma wpre_mono {A} (m : W A) p (Q R : A -> pkt -> Prop) :
  wpre m p Q -> (forall a p', Q a p' -> R a p') -> wpre m p R.
Proof. intros (a & p' & E & Hp & Hf & HQ) HR. exists a, p'. eauto. Qed.

Lemma wsafe_bind {A B} (m : W A) (f : A -> W B) p Q R :
  wsafe m Q -> pkt_ok p ->
  (forall a p', pkt_ok p' -> frame p p' -> Q a p' -> wpre (f a) p' R) ->
  wpre (m ≫= f) p R.
Proof. intros Hm Hp. apply wpre_bind. auto. Qed.

Lemma wpre_lift {A} (m : outcome A) (a : A) p (Q : A -> pkt -> Prop) :
  pkt_ok p -> m = Ret a -> Q a p -> wpre (lift m) p Q.
Proof. intros Hp -> HQ. exists a, p. unfold lift. auto using frame_refl. Qed.

Lemma wpre_get_index p Q : pkt_ok p -> Q (index p) p -> wpre get_index p Q.
Proof. intros Hp HQ. exists (index p), p. auto using frame_refl. Qed.

(** Storing [bs] at [i] inside the packet buffer. *)
Lemma wr_bytes_frame p i bs j :
  pkt_ok p -> Forall byte_ok bs -> i + length bs <= MDNS_MAX_PACKET_SIZE ->
  index p <= j <= MDNS_MAX_PACKET_SIZE ->
  exists b, wr_bytes (buf p) i bs = Ret b /\ pkt_ok (mk_pkt b j) /\ frame p (mk_pkt b j).
Proof.
  intros Hp Hbs Hi Hj. pose proof (pkt_len _ Hp).
  destruct (wr_bytes (buf p) i bs) eqn:E;
    try (rewrite wr_bytes_ok in E by lia; discriminate).
  pose proof (wr_bytes_length _ _ _ _ E) as Hl.
  exists a. split; [done|]. split.
  - split; simpl; try lia. rewrite wr_bytes_ok in E by lia. injection E as <-.
    pose proof (pkt_bytes _ Hp). rewrite !Forall_app. auto using Forall_take, Forall_drop.
  - split; simpl; try lia. intros k Hk. eapply wr_bytes_above; eauto. lia.
Qed.

Lemma wpre_put p bs Q :
  pkt_ok p -> Forall byte_ok bs -> index p + length bs <= MDNS_MAX_PACKET_SIZE ->
  (forall p', index p' = index p + length bs -> Q tt p') -> wpre (put bs) p Q.
Proof.
  intros Hp Hb Hl HQ.
  destruct (wr_bytes_frame p (index p) bs (index p + length bs)) as (b & E & ? & ?); auto; [lia|].
  exists tt, (mk_pkt b (index p + length bs)). unfold put. rewrite E. simpl. auto.
Qed.

(** Result and index of an append of at most [n] bytes. *)
Definition grew (p : pkt) (n : nat) (r : Z) (p' : pkt) : Prop :=
  (0 <= r)%Z /\ (r = 0%Z \/ index p' = index p + n).

Lemma append_u8_spec v p :
  pkt_ok p -> wpre (mdns_utils_append_u8 v) p
    (fun r p' => if MDNS_MAX_PACKET_SIZE <=? index p then r = 0%Z /\ p' = p
                 else r = 1%Z /\ index p' = index p + 1).
Proof.
  intros Hp. unfold mdns_utils_append_u8, wpre. case_on_goal; bsimp.
  - apply wpre_here; auto.
  - change (wpre (_ ← put [u8 v]; mret 1%Z) p (fun r p' => r = 1%Z /\ index p' = index p + 1)).
    eapply wpre_bind with (Q := fun _ p' => index p' = index p + 1).
    + apply wpre_put; auto; [|simpl; lia]. constructor; [apply u8_range|done].
    + intros [] p' Hp' _ E. by apply wpre_ret.
Qed.

Lemma append_u8_safe v : wsafe (mdns_utils_append_u8 v) (fun r _ => (0 <= r <= 1)%Z).
Proof.
  intros p Hp. eapply wpre_mono; [by apply append_u8_spec|].
  intros r p'. simpl. case_on_goal; intros [-> ?]; lia.
Qed.

Lemma append_u16_spec v p :
  pkt_ok p -> wpre (mdns_utils_append_u16 v) p
    (fun r p' => if MDNS_MAX_PACKET_SIZE <=? index p + 1 then r = 0%Z /\ p' = p
                 else r = 2%Z /\ index p' = index p + 2).
Proof.
  intros Hp. unfold mdns_utils_append_u16, wpre. case_on_goal; bsimp.
  - apply wpre_here; auto.
  - eapply (wpre_bind _ _ p _ (fun r p' => r = 2%Z /\ index p' = index p + 2)).
    { by apply append_u8_spec. }
    intros a p1 Hp1 _. simpl. case_on_goal; bsimp; [lia|]. intros [_ H1].
    eapply wpre_bind; [by apply append_u8_spec|].
    intros b p2 Hp2 _. simpl. case_on_goal; bsimp; [lia|]. intros [_ H2].
    apply wpre_ret; [done|]. split; [done|lia].
Qed.

Lemma append_u16_safe v : wsafe (mdns_utils_append_u16 v) (fun r _ => r = 0%Z \/ r = 2%Z).
Proof.
  intros p Hp. eapply wpre_mono; [by apply append_u16_spec|].
  intros r p'. simpl. case_on_goal; intros [-> ?]; auto.
Qed.

(** Runs a writer of the goal one bind at a time with the lemmas of the
    components it calls. *)
Create HintDb wsafe.
#[export] Hint Resolve append_u8_safe append_u16_safe : wsafe.

Ltac wbind := eapply wsafe_bind; [solve [eauto with wsafe]|assumption|];
  let a := fresh "r" in let p' := fresh "p" in let Hp := fresh "Hp" in
  let Hf := fresh "Hf" in let HQ := fresh "HQ" in
  intros a p' Hp Hf HQ; cbn beta in HQ.

Ltac wret := apply wpre_ret; [assumption|].

Lemma append_u32_safe v : wsafe (append_u32 v) (fun r _ => r = 0%Z \/ r = 4%Z).
Proof.
  intros p Hp. unfold append_u32, wpre. case_on_goal; [apply wpre_here; auto|].
  change (wpre (_ ← mdns_utils_append_u8 (Z.land (Z.shiftr v 24) 0xFF);
     _ ← mdns_utils_append_u8 (Z.land (Z.shiftr v 16) 0xFF);
     _ ← mdns_utils_append_u8 (Z.land (Z.shiftr v 8) 0xFF);
     _ ← mdns_utils_append_u8 (Z.land v 0xFF);
     mret 4%Z) p (fun r _ => r = 0%Z \/ r = 4%Z)).
  do 4 wbind. wret. auto.
Qed.

(** A guard at the head of a function. *)
Lemma wpre_if {A} (b : bool) (m1 m2 : W A) p Q :
  (b = true -> wpre m1 p Q) -> (b = false -> wpre m2 p Q) ->
  wpre (fun p' => if b then m1 p' else m2 p') p Q.
Proof. destruct b; auto. Qed.

Lemma append_u32_grow v p : pkt_ok p -> index p + 4 < MDNS_MAX_PACKET_SIZE ->
  wpre (append_u32 v) p (fun r p' => index p' = index p + 4).
Proof.
  intros Hp Hi. unfold append_u32, wpre. case_on_goal; bsimp; [lia|].
  change (wpre (_ ← mdns_utils_append_u8 (Z.land (Z.shiftr v 24) 0xFF);
     _ ← mdns_utils_append_u8 (Z.land (Z.shiftr v 16) 0xFF);
     _ ← mdns_utils_append_u8 (Z.land (Z.shiftr v 8) 0xFF);
     _ ← mdns_utils_append_u8 (Z.land v 0xFF);
     mret 4%Z) p (fun r p' => index p' = index p + 4)).
  do 4 (eapply wpre_bind; [by apply append_u8_spec|]; intros ? ? ? _; simpl;
        case_on_goal; bsimp; [lia|]; intros [_ ?]).
  wret. lia.
Qed.

(** [append_type] either does nothing and returns 0, or writes ten bytes and
    leaves room for one more. *)
Lemma append_type_spec type flush ttl p :
  pkt_ok p -> wpre (append_type type flush ttl) p
    (fun r p' => r = 0%Z /\ p' = p \/
                 r = 10%Z /\ index p' = index p + 10 /\ index p' < MDNS_MAX_PACKET_SIZE).
Proof.
  intros Hp. unfold append_type, wpre. case_on_goal; bsimp; [apply wpre_here; auto|].
  set (c := if flush then _ else _).
  assert (H : forall t, wpre (_ ← mdns_utils_append_u16 t; _ ← mdns_utils_append_u16 c;
      _ ← append_u32 ttl; _ ← mdns_utils_append_u16 0; mret 10%Z) p
    (fun r p' => r = 0%Z /\ p' = p \/
                 r = 10%Z /\ index p' = index p + 10 /\ index p' < MDNS_MAX_PACKET_SIZE)).
  { intros t.
    do 2 (eapply wpre_bind; [by apply append_u16_spec|]; intros ? ? ? _; simpl;
        case_on_goal; bsimp; [lia|]; intros [_ ?]).
    eapply wpre_bind; [apply append_u32_grow; auto; lia|]. intros ? ? ? _ ?; cbn beta in *.
    eapply wpre_bind; [by apply append_u16_spec|]. intros ? ? ? _; simpl.
    case_on_goal; bsimp; [lia|]. intros [_ ?]. wret. right. split; [done|lia]. }
  repeat case_on_goal; try (by apply H). apply wpre_here; auto.
Qed.

Lemma append_string_spec s p :
  label_ok s -> pkt_ok p -> wpre (append_string s) p
    (fun r p' => r = 0%Z \/ (0 <= r < 256)%Z /\ index p' < MDNS_MAX_PACKET_SIZE).
Proof.
  intros Hs Hp. unfold append_string, wpre. case_on_goal; bsimp; [apply wpre_here; auto|].
  set (len := u8 _) in *.
  eapply (wpre_bind _ _ p _ (fun r p' => r = 0%Z \/ (0 <= r < 256)%Z /\ index p' < MDNS_MAX_PACKET_SIZE)).
  { by apply append_u8_spec. }
  intros r1 p1 Hp1 _; simpl. case_on_goal; bsimp; [lia|]. intros [_ H1].
  assert (Hlen : length (take (Z.to_nat len) s) <= Z.to_nat len) by (rewrite length_take; lia).
  eapply wpre_bind with (Q := fun _ p' => index p' < MDNS_MAX_PACKET_SIZE).
  { apply wpre_put; auto; [|lia|lia]. apply Forall_take, cstr_ok_bytes, Hs. }
  intros [] p2 Hp2 _ H2. wret. right. split; [apply u8_range|done].
Qed.

Lemma set_u16_safe location v : wsafe (set_u16 location v) (fun _ _ => True).
Proof.
  intros p Hp. unfold set_u16, wpre. case_on_goal; bsimp.
  - apply wpre_here; auto.
  - set (bs := [_; _]).
    assert (Hb : Forall byte_ok bs).
    { unfold bs, byte_ok. change 255%Z with (Z.ones 8).
      repeat constructor; rewrite Z.land_ones by lia;
        apply (Z.mod_pos_bound _ (2 ^ 8)); lia. }
    destruct (wr_bytes_frame p location bs (index p)) as (b & E & ? & ?); auto.
    + unfold bs. simpl. lia.
    + split; [done|apply Hp].
    + exists tt, (mk_pkt b (index p)). rewrite E. simpl. auto.
Qed.
#[export] Hint Resolve append_u32_safe set_u16_safe : wsafe.

(** * Names *)

Section WithConfig.
Context (cfg : config).

Lemma find_name_safe packet strings n : forall loc,
  MDNS_MAX_PACKET_SIZE + overread <= length packet -> Forall byte_ok packet ->
  loc + n <= MDNS_MAX_PACKET_SIZE ->
  exists r, find_name cfg packet MDNS_MAX_PACKET_SIZE strings loc n = Ret r
            /\ (forall l, r = Some l -> loc <= l < loc + n).
Proof.
  induction n as [|n IH]; intros loc Hl Hb Hn; simpl; [by exists None|].
  destruct (IH (S loc)) as (r & E & Hr); auto; [lia|].
  assert (Hnext : forall l, r = Some l -> loc <= l < loc + S n)
    by (intros l ->; specialize (Hr l eq_refl); lia).
  assert (Hov : overread = 255) by reflexivity.
  unfold rd. destruct (lookup_lt_is_Some_2 packet loc) as [b ->]; [lia|]. simpl.
  case_on_goal; [eauto|]. bsimp. set (len := u8 _) in *.
  pose proof (u8_range (Z.of_nat (length (match strings with s :: _ => s | [] => [] end)))).
  rewrite rd_bytes_ok by (unfold len; lia). simpl.
  case_on_goal; [|eauto|eauto].
  pose proof (read_fqdn_impl_safe cfg MDNS_FQDN_MAX_COMPRESSION_DEPTH packet MDNS_MAX_PACKET_SIZE loc
     empty_name ltac:(lia) Hb (empty_name_ok cfg)) as Hs.
  unfold mdns_utils_read_fqdn. destruct (mdns_utils_read_fqdn_impl _ _ _ _ _ _) as [[? name]| | |];
    simpl in Hs; try done; [|eauto].
  case_on_goal; [|eauto]. exists (Some loc). split; [done|]. intros l [= <-]. lia.
Qed.

Lemma append_fqdn_safe strings : Forall label_ok strings ->
  wsafe (append_fqdn cfg strings MDNS_MAX_PACKET_SIZE) (fun r _ => (0 <= r)%Z).
Proof.
  induction 1 as [|s rest Hs _ IH]; intros p Hp; cbn [append_fqdn].
  - eapply wpre_mono; [by apply append_u8_safe|]. simpl. lia.
  - destruct (find_name_safe (buf p) (s :: rest) (index p) 0) as (r & E & _);
      try apply Hp.
    unfold wpre. rewrite E. cbn [mbind outcome_bind]. destruct r as [loc|].
    + eapply wpre_mono; [by apply append_u16_safe|]. intros ? ? [->| ->]; lia.
    + eapply (wpre_bind _ _ p _ (fun r _ => (0 <= r)%Z)); [by apply append_string_spec|].
      intros w p1 Hp1 _ Hw. cbn beta in Hw. case_on_goal; [wret; lia|].
      eapply wpre_bind; [by apply IH|]. intros m p2 Hp2 _ Hm. wret. apply u16_range.
Qed.

Lemma append_fqdn8_safe strings : Forall label_ok strings ->
  wsafe (append_fqdn8 cfg strings) (fun r _ => (0 <= r < 256)%Z).
Proof.
  intros Hs p Hp. unfold append_fqdn8. eapply wsafe_bind; [by apply append_fqdn_safe|done|].
  intros. wret. apply u8_range.
Qed.

Lemma derefs_ok l : Forall (fun o => exists s, o = Some s /\ label_ok s) l ->
  exists ss, derefs l = Ret ss /\ Forall label_ok ss.
Proof.
  induction 1 as [|o l (s & -> & Hs) _ (ss & E & Hss)]; simpl; [by exists []|].
  rewrite E. simpl. eauto.
Qed.

Lemma append_fqdn_ptrs_safe l : Forall (fun o => exists s, o = Some s /\ label_ok s) l ->
  wsafe (append_fqdn_ptrs cfg l) (fun r _ => (0 <= r < 256)%Z).
Proof.
  intros Hl p Hp. destruct (derefs_ok l Hl) as (ss & E & Hss). unfold append_fqdn_ptrs.
  eapply wpre_bind with (Q := fun a _ => a = ss); [by eapply wpre_lift|].
  intros ? p' Hp' _ ->. by apply append_fqdn8_safe.
Qed.

(** A record: safe owner and safe data, the data starting inside the buffer. *)
Lemma append_record_safe owner type flush ttl rdata :
  wsafe owner (fun r _ => (0 <= r)%Z) ->
  (forall p, pkt_ok p -> index p < MDNS_MAX_PACKET_SIZE -> wpre rdata p (fun r _ => (0 <= r)%Z)) ->
  wsafe (append_record owner type flush ttl rdata) (fun r _ => (0 <= r)%Z).
Proof.
  intros Ho Hd p Hp. unfold append_record.
  eapply wsafe_bind; [done|done|]. intros r1 p1 Hp1 _ H1. case_on_goal; [wret; lia|].
  eapply wpre_bind; [by apply append_type_spec|]. intros r2 p2 Hp2 _ H2. cbn beta in H2.
  case_on_goal; [wret; lia|]. bsimp.
  destruct H2 as [[-> _]|(-> & Hi & Hi')]; [done|].
  eapply wpre_bind with (Q := fun _ p' => p' = p2); [by apply wpre_get_index|].
  intros i ? _ _ ->.
  eapply wpre_bind; [by apply Hd|]. intros r3 p3 Hp3 _ H3. cbn beta in H3.
  case_on_goal; [wret; lia|].
  eapply wsafe_bind; [apply set_u16_safe|done|]. intros. wret. apply u16_range.
Qed.

(** * Records *)

Lemma default_domain_ok : label_ok MDNS_DEFAULT_DOMAIN.
Proof. repeat constructor; lia. Qed.

Lemma sub_str_ok : label_ok MDNS_SUB_STR.
Proof. repeat constructor; lia. Qed.

Lemma some_label s : label_ok s -> exists s', Some s = Some s' /\ label_ok s'.
Proof. eauto. Qed.

#[local] Hint Resolve default_domain_ok sub_str_ok some_label : wsafe.
#[local] Hint Constructors Forall : wsafe.

Lemma wsafe_weaken {A} (m : W A) (Q R : A -> pkt -> Prop) :
  wsafe m Q -> (forall a p, Q a p -> R a p) -> wsafe m R.
Proof. intros H HR p Hp. eapply wpre_mono; eauto. Qed.

Lemma wsafe_pre {A} (m : W A) Q p : wsafe m Q -> pkt_ok p -> wpre m p Q.
Proof. auto. Qed.

Lemma append_fqdn8_nonneg strings : Forall label_ok strings ->
  wsafe (append_fqdn8 cfg strings) (fun r _ => (0 <= r)%Z).
Proof. intros H. eapply wsafe_weaken; [by apply append_fqdn8_safe|]. simpl. lia. Qed.

Lemma append_fqdn_ptrs_nonneg l : Forall (fun o => exists s, o = Some s /\ label_ok s) l ->
  wsafe (append_fqdn_ptrs cfg l) (fun r _ => (0 <= r)%Z).
Proof. intros H. eapply wsafe_weaken; [by apply append_fqdn_ptrs_safe|]. simpl. lia. Qed.
#[local] Hint Resolve append_fqdn8_nonneg append_fqdn_ptrs_nonneg : wsafe.

Lemma append_ptr_record_safe instance service proto flush bye :
  label_ok instance -> label_ok service -> label_ok proto ->
  wsafe (append_ptr_record cfg (Some instance) (Some service) (Some proto) flush bye)
    (fun r _ => (0 <= r)%Z).
Proof.
  intros. apply append_record_safe; [eauto 8 with wsafe|].
  intros p Hp _. apply wsafe_pre; eauto 10 with wsafe.
Qed.

Lemma append_subtype_ptr_record_safe instance st service proto flush bye :
  label_ok instance -> label_ok st -> label_ok service -> label_ok proto ->
  wsafe (append_subtype_ptr_record cfg (Some instance) st service proto flush bye)
    (fun r _ => (0 <= r)%Z).
Proof.
  intros. apply append_record_safe; [eauto 10 with wsafe|].
  intros p Hp _. apply wsafe_pre; eauto 10 with wsafe.
Qed.

Lemma append_subtypes_safe instance sts service proto flush bye :
  label_ok instance -> Forall label_ok sts -> label_ok service -> label_ok proto ->
  forall n, (0 <= n)%Z ->
  wsafe (append_subtypes cfg (Some instance) sts service proto flush bye n) (fun r _ => (0 <= r)%Z).
Proof.
  intros Hi Hs H1 H2. induction Hs as [|st sts Hst _ IH]; intros n Hn p Hp; simpl; [by wret|].
  eapply wsafe_bind; [by apply append_subtype_ptr_record_safe|done|].
  intros r p1 Hp1 _ _. apply IH; [|done]. apply u8_range.
Qed.

(** The instance name of a service exists once the host name is set. *)
Lemma instance_name_ok s srv : server_ok s -> service_ok srv ->
  exists i, mdns_utils_get_service_instance_name (Some s) srv = Some i /\ label_ok i.
Proof.
  intros [(h & Eh & Hne & Hh) Hi _ _ _] [Hsi _ _ _ _ _].
  unfold mdns_utils_get_service_instance_name, get_default_instance_name,
    mdns_priv_get_instance, mdns_priv_get_global_hostname. simpl. rewrite Eh.
  destruct (srv_instance srv) as [[|c i]|] eqn:E1; simpl; eauto;
    destruct (s_instance s) as [[|c' i']|] eqn:E2; simpl; eauto;
    destruct h; try done; simpl; eauto.
Qed.

Lemma append_service_ptr_answers_safe s srv flush bye : server_ok s -> service_ok srv ->
  wsafe (append_service_ptr_answers cfg (Some s) srv flush bye) (fun r _ => (0 <= r)%Z).
Proof.
  intros Hs Hsrv p Hp. destruct (instance_name_ok s srv Hs Hsrv) as (i & E & Hi).
  pose proof Hsrv as []. unfold append_service_ptr_answers. rewrite E.
  eapply wsafe_bind; [by apply append_ptr_record_safe|done|].
  intros r p1 Hp1 _ _. case_on_goal; [by wret|]. apply append_subtypes_safe; auto. lia.
Qed.

Lemma append_srv_record_safe s srv flush bye : server_ok s -> service_ok srv ->
  wsafe (append_srv_record cfg (Some s) srv flush bye) (fun r _ => (0 <= r)%Z).
Proof.
  intros Hs Hsrv. destruct (instance_name_ok s srv Hs Hsrv) as (i & E & Hi).
  pose proof Hsrv as []. unfold append_srv_record. rewrite E.
  apply append_record_safe; [eauto 10 with wsafe|]. intros p Hp _.
  do 3 wbind. case_on_goal; [by wret|].
  set (h := match srv_hostname srv with Some h => Some h | None => _ end).
  assert (Hh : mdns_utils_str_null_or_empty h = false -> exists x, h = Some x /\ label_ok x).
  { unfold h. destruct (srv_hostname srv) as [x|] eqn:Ex; [eauto|].
    destruct Hs as [(g & Eg & _ & Hg)]. unfold mdns_priv_get_global_hostname. simpl. rewrite Eg. eauto. }
  case_on_goal; [by wret|]. destruct (Hh ltac:(done)) as (x & -> & Hx).
  eapply wsafe_bind; [apply append_fqdn_ptrs_safe; eauto 10 with wsafe|done|].
  intros r3 p3 Hp3 _ H3. cbn beta in H3. case_on_goal; wret; lia.
Qed.

Lemma append_one_txt_spec t p : txt_item_ok t -> pkt_ok p ->
  wpre (mdns_priv_append_one_txt_record_entry t) p
    (fun r p' => (r = -1)%Z /\ p' = p \/ r = 0%Z \/ (0 < r)%Z /\ index p' < MDNS_MAX_PACKET_SIZE).
Proof.
  intros [Hk Hv] Hp. unfold mdns_priv_append_one_txt_record_entry, wpre.
  destruct (key t) as [k|] eqn:Ek; [|apply wpre_here; auto]. specialize (Hk k eq_refl).
  case_on_goal; bsimp; [apply wpre_here; auto|]. set (len := length k + _ + _) in *.
  eapply (wpre_bind _ _ p _ (fun r p' => (r = -1)%Z /\ p' = p \/ r = 0%Z \/ (0 < r)%Z /\ index p' < MDNS_MAX_PACKET_SIZE)).
  { by apply append_u8_spec. }
  intros r1 p1 Hp1 _; simpl. case_on_goal; bsimp; [lia|]. intros [_ H1].
  eapply wpre_bind with (Q := fun _ p' => index p' = index p + 1 + len).
  - destruct (value t) as [v|] eqn:Ev.
    + destruct (Hv v eq_refl) as [Hvb Hvl].
      eapply wpre_bind with (Q := fun bs p' => bs = take (Z.to_nat (value_len t)) v /\ p' = p1).
      { eapply wpre_lift; [done|by rewrite rd_bytes_ok by lia|done]. }
      intros bs ? _ _ [-> ->].
      assert (Hlen : length (k ++ 61%Z :: take (Z.to_nat (value_len t)) v) = len).
      { rewrite length_app. simpl. rewrite length_take. unfold len. lia. }
      apply wpre_put; [done| |lia|intros; lia].
      rewrite Forall_app. split; [by apply cstr_ok_bytes|]. constructor; [unfold byte_ok; lia|].
      by apply Forall_take.
    + eapply wpre_bind with (Q := fun _ p' => index p' = index p + 1 + length k).
      { apply wpre_put; auto using cstr_ok_bytes; intros; unfold len in *; lia. }
      intros [] p2 Hp2 _ H2. exists tt, (mk_pkt (buf p2) (index p2 + Z.to_nat (value_len t))).
      split; [done|]. unfold len in *. repeat split; simpl; try apply Hp2; try lia.
  - intros [] p2 Hp2 _ H2. wret. right; right. split; lia.
Qed.

Lemma append_txt_items_spec items : Forall txt_item_ok items -> forall n p,
  pkt_ok p -> index p < MDNS_MAX_PACKET_SIZE -> (0 <= n)%Z ->
  wpre (append_txt_items items n) p
    (fun r p' => match r with Some k => (0 <= k)%Z /\ index p' < MDNS_MAX_PACKET_SIZE | None => True end).
Proof.
  induction 1 as [|t items Ht _ IH]; intros n p Hp Hi Hn; simpl; [by wret|].
  eapply wpre_bind; [by apply append_one_txt_spec|]. intros r p1 Hp1 Hf H. cbn beta in H.
  destruct (Z.ltb_spec 0 r).
  - destruct H as [[-> _]|[->|[_ ?]]]; try lia. apply IH; auto. apply u16_range.
  - case_on_goal; [by wret|]. bsimp. destruct H as [[_ ->]|[?|[? _]]]; try lia. apply IH; auto.
Qed.

Lemma append_txt_record_safe s srv flush bye : server_ok s -> service_ok srv ->
  wsafe (append_txt_record cfg (Some s) srv flush bye) (fun r _ => (0 <= r)%Z).
Proof.
  intros Hs Hsrv. destruct (instance_name_ok s srv Hs Hsrv) as (i & E & Hi).
  pose proof Hsrv as []. unfold append_txt_record. rewrite E.
  apply append_record_safe; [eauto 10 with wsafe|]. intros p Hp Hidx.
  eapply wpre_bind; [apply append_txt_items_spec; auto; lia|].
  intros [n|] p1 Hp1 _ H1; [|by wret]. cbn beta iota in H1. case_on_goal; [|wret; lia].
  eapply wpre_bind with (Q := fun _ _ => True).
  - apply wpre_put; auto; [|simpl; lia]. repeat constructor; unfold byte_ok; lia.
  - intros [] p2 Hp2 _ _. wret. lia.
Qed.

Lemma append_sdptr_record_safe srv flush bye : service_ok srv ->
  wsafe (append_sdptr_record cfg srv flush bye) (fun r _ => (0 <= r)%Z).
Proof.
  intros Hsrv p Hp. pose proof Hsrv as []. unfold append_sdptr_record.
  eapply wsafe_bind; [apply append_fqdn8_safe; repeat constructor; lia|done|].
  intros r1 p1 Hp1 _ H1. cbn beta in H1.
  eapply wpre_bind; [by apply append_type_spec|]. intros r2 p2 Hp2 _ H2. cbn beta in H2.
  case_on_goal; [wret; lia|].
  eapply wpre_bind with (Q := fun _ p' => p' = p2); [by apply wpre_get_index|]. intros i ? _ _ ->.
  eapply wsafe_bind; [apply append_fqdn8_safe; eauto 8 with wsafe|done|].
  intros r3 p3 Hp3 _ H3. cbn beta in H3. case_on_goal; [wret; lia|].
  eapply wsafe_bind; [apply set_u16_safe|done|]. intros. wret. apply u16_range.
Qed.

Lemma null_or_empty_false h : mdns_utils_str_null_or_empty h = false -> exists x, h = Some x /\ x <> [].
Proof. destruct h as [[|]|]; simpl; try discriminate; eauto. Qed.

Lemma append_a_record_safe h ip flush bye : (forall s, h = Some s -> label_ok s) ->
  wsafe (append_a_record cfg h ip flush bye) (fun r _ => (0 <= r)%Z).
Proof.
  intros Hh p Hp. unfold append_a_record. case_on_goal; [by wret|].
  destruct (null_or_empty_false h) as (x & -> & _); [done|].
  apply append_record_safe; [eauto 8 with wsafe| |done]. clear p Hp. intros p Hp _.
  eapply wpre_bind with (Q := fun _ p' => p' = p); [by apply wpre_get_index|]. intros i ? _ _ ->.
  case_on_goal; [by wret|]. do 4 wbind. wret. lia.
Qed.

Lemma append_aaaa_record_safe h ip flush bye :
  (forall s, h = Some s -> label_ok s) -> addr_ok (IP6 ip) ->
  wsafe (append_aaaa_record cfg h ip flush bye) (fun r _ => (0 <= r)%Z).
Proof.
  intros Hh [Hl Hb] p Hp. unfold append_aaaa_record. case_on_goal; [by wret|].
  destruct (null_or_empty_false h) as (x & -> & _); [done|].
  apply append_record_safe; [eauto 8 with wsafe| |done]. clear p Hp. intros p Hp _.
  eapply wpre_bind with (Q := fun i p' => p' = p /\ i = index p); [by apply wpre_get_index|].
  intros i ? _ _ [-> ->]. case_on_goal; [by wret|]. bsimp.
  eapply wpre_bind with (Q := fun bs p' => bs = take 16 ip /\ p' = p).
  { eapply wpre_lift; [done|apply rd_bytes_ok; by rewrite Hl|done]. }
  intros bs ? _ _ [-> ->]. unfold MDNS_ANSWER_AAAA_SIZE in *.
  eapply wpre_bind with (Q := fun _ _ => True).
  - apply wpre_put; auto using Forall_take. rewrite length_take. lia.
  - intros [] p2 Hp2 _ _. wret. lia.
Qed.

(** * Answers, questions, packets *)

Lemma append_host_answer_safe h addrs v6 flush bye :
  (forall s, h = Some s -> label_ok s) -> Forall addr_ok addrs ->
  forall n, wsafe (append_host_answer cfg h addrs v6 flush bye n) (fun _ _ => True).
Proof.
  intros Hh. induction 1 as [|a addrs Ha _ IH]; intros n p Hp; simpl; [by wret|].
  destruct a, v6; try (by apply IH); (eapply wsafe_bind; [by eauto using append_a_record_safe, append_aaaa_record_safe|done|]);
    intros r p1 Hp1 _ _; (case_on_goal; [by wret|by apply IH]).
Qed.

Lemma global_hostname_label s : server_ok s ->
  forall h, mdns_priv_get_global_hostname (Some s) = Some h -> label_ok h.
Proof. intros [(g & E & _ & Hg)] h. unfold mdns_priv_get_global_hostname. simpl. congruence. Qed.

Lemma append_self_a_safe s net a i : server_ok s ->
  wsafe (append_self_a cfg (Some s) net a i) (fun _ _ => True).
Proof.
  intros Hs p Hp. pose proof (global_hostname_label s Hs). unfold append_self_a.
  case_on_goal; [by wret|]. destruct (ip4_info net i); [|by wret]. case_on_goal; [by wret|].
  eapply wsafe_bind; [by apply append_a_record_safe|done|]. intros r p1 Hp1 _ _.
  case_on_goal; [by wret|]. case_on_goal; [by wret|]. case_on_goal; [|by wret].
  case_on_goal; [by wret|].
  eapply wsafe_bind; [by apply append_a_record_safe|done|]. intros. by wret.
Qed.

Lemma append_ip6s_safe s a ips : server_ok s -> Forall (fun l => addr_ok (IP6 l)) ips ->
  wsafe (append_ip6s cfg (Some s) a ips) (fun _ _ => True).
Proof.
  intros Hs. pose proof (global_hostname_label s Hs).
  induction 1 as [|ip ips Hip _ IH]; intros p Hp; simpl; [by wret|].
  case_on_goal; [by wret|].
  eapply wsafe_bind; [by apply append_aaaa_record_safe|done|]. intros r p1 Hp1 _ _.
  case_on_goal; [by wret|by apply IH].
Qed.

Lemma append_self_aaaa_safe s net a i : server_ok s -> net_ok net ->
  wsafe (append_self_aaaa cfg (Some s) net a i) (fun _ _ => True).
Proof.
  intros Hs [Hn Hl] p Hp. pose proof (global_hostname_label s Hs). unfold append_self_aaaa.
  case_on_goal; [by wret|].
  eapply wsafe_bind; [by apply append_ip6s_safe|done|]. intros [[]|] p1 Hp1 _ _; [|by wret].
  case_on_goal; [by wret|]. case_on_goal; [|by wret].
  eapply wsafe_bind; [apply append_aaaa_record_safe; eauto|done|]. intros. by wret.
Qed.

Lemma assoc_In {A} (k : positive) (l : list (positive * A)) x : assoc k l = Some x -> (k, x) ∈ l.
Proof.
  induction l as [|[k' y] l IH]; simpl; [done|]. destruct (Pos.eqb_spec k k'); [|set_solver].
  intros [= ->]. subst. set_solver.
Qed.

Lemma assoc_is_Some {A} (k : positive) (l : list (positive * A)) :
  is_Some (assoc k l) <-> k ∈ l.*1.
Proof.
  induction l as [|[k' y] l IH]; simpl.
  - split; [intros [? ?]; done|set_solver].
  - destruct (Pos.eqb_spec k k'); rewrite elem_of_cons.
    + subst. split; eauto.
    + rewrite IH. split; [auto|intros [?|?]; congruence || done].
Qed.

Lemma get_service_ok s i : server_ok s -> is_Some (assoc i (s_services s)) ->
  exists srv, get_service (Some s) i = Ret srv /\ service_ok srv.
Proof.
  intros Hs [srv E]. exists srv. unfold get_service. simpl. rewrite E. split; [done|].
  pose proof (server_services _ Hs) as HF. rewrite Forall_forall in HF.
  apply (HF (i, srv)). by apply assoc_In.
Qed.

Lemma get_host_ok s h : server_ok s -> is_host_valid (Some s) h = true ->
  exists x, get_host (Some s) h = Ret x /\ host_ok x.
Proof.
  intros Hs Hv. destruct h as [|h]; simpl.
  - exists (s_self_host s). split; [done|apply Hs].
  - apply orb_true_iff in Hv as [Hv%bool_decide_eq_true|Hv]; [simpl in Hv; discriminate|].
    apply existsb_exists in Hv as ((h' & y) & Hin & Heq%bool_decide_eq_true). injection Heq as ->.
    destruct (proj2 (assoc_is_Some h (s_hosts s))) as [x E].
    { apply list_elem_of_fmap. exists (h, y). split; [done|]. by apply list_elem_of_In. }
    exists x. rewrite E. split; [done|].
    pose proof (server_hosts _ Hs) as HF. rewrite Forall_forall in HF.
    apply (HF (h, x)). by apply assoc_In.
Qed.

Lemma with_service_safe s i f : server_ok s ->
  (forall k, i = Some k -> is_Some (assoc k (s_services s))) ->
  (forall srv, service_ok srv -> wsafe (f srv) (fun r _ => (0 <= r)%Z)) ->
  wsafe (with_service (Some s) i f) (fun r _ => (0 <= r)%Z).
Proof.
  intros Hs Hi Hf p Hp. destruct i as [k|]; simpl; [|by wret].
  destruct (get_service_ok s k Hs (Hi k eq_refl)) as (srv & E & Hsrv).
  eapply wpre_bind with (Q := fun a _ => a = srv); [by eapply wpre_lift|].
  intros ? p' Hp' _ ->. by apply Hf.
Qed.

Lemma append_single_str_safe s : Forall byte_ok s ->
  wsafe (append_single_str s (length s)) (fun _ _ => True).
Proof.
  intros Hs p Hp. unfold append_single_str, wpre. case_on_goal; bsimp; [apply wpre_here; auto|].
  eapply (wpre_bind _ _ p _ (fun _ _ => True)); [by apply append_u8_spec|].
  intros r1 p1 Hp1 _; simpl. case_on_goal; bsimp; [lia|]. intros [-> H1]. simpl.
  eapply wpre_bind with (Q := fun _ _ => True).
  { apply wpre_put; auto using Forall_take. rewrite firstn_all. lia. }
  intros [] p2 Hp2 _ _. eapply wpre_bind with (Q := fun _ _ => True); [by apply wpre_get_index|].
  intros. by wret.
Qed.

Lemma split_dots_ok s : Forall byte_ok s -> forall cur, Forall byte_ok cur ->
  Forall (Forall byte_ok) (split_dots s cur).
Proof.
  induction 1 as [|c s Hc Hs IH]; intros cur Hcur; simpl.
  - repeat constructor. by apply Forall_rev.
  - case_on_goal; [|by apply IH; constructor].
    destruct s; repeat constructor; auto using Forall_rev.
Qed.

Lemma append_single_strs_safe ss : Forall (Forall byte_ok) ss ->
  wsafe (append_single_strs ss) (fun _ _ => True).
Proof.
  induction 1 as [|s ss Hs _ IH]; intros p Hp; simpl; [by wret|].
  eapply wsafe_bind; [by apply append_single_str_safe|done|]. intros r p1 Hp1 _ _.
  case_on_goal; [by wret|by apply IH].
Qed.

Lemma append_fqdn_dots_safe s : label_ok s -> wsafe (append_fqdn_dots s) (fun _ _ => True).
Proof.
  intros Hs p Hp. unfold append_fqdn_dots.
  eapply wsafe_bind; [apply append_single_strs_safe, split_dots_ok; auto using cstr_ok_bytes|done|].
  intros r1 p1 Hp1 _ _. case_on_goal; [by wret|].
  eapply wsafe_bind; [apply (append_single_str_safe (str "arpa")); repeat constructor; unfold byte_ok; lia|done|].
  intros r2 p2 Hp2 _ _. case_on_goal; [by wret|]. wbind. case_on_goal; [by wret|].
  eapply wpre_bind with (Q := fun _ _ => True); [by apply wpre_get_index|]. intros. by wret.
Qed.

Lemma append_reverse_ptr_record_safe s name : server_ok s -> label_ok name ->
  wsafe (append_reverse_ptr_record cfg (Some s) name) (fun _ _ => True).
Proof.
  intros Hs Hn p Hp. unfold append_reverse_ptr_record. case_on_goal; [by wret|].
  destruct (server_self _ Hs) as [Hself Eself].
  destruct (server_hostname _ Hs) as (h & Eh & _ & Hh).
  eapply wsafe_bind; [apply append_record_safe|done|intros; by wret].
  - clear p Hp. intros p Hp. eapply wsafe_bind; [by apply append_fqdn_dots_safe|done|].
    intros. wret. apply u16_range.
  - clear p Hp. intros p Hp _.
    eapply wpre_bind with (Q := fun a _ => a = s_self_host s); [by eapply wpre_lift|].
    intros ? p1 Hp1 _ ->. rewrite Eself, Eh.
    eapply wpre_bind with (Q := fun a _ => a = h); [by eapply wpre_lift|].
    intros ? p2 Hp2 _ ->. apply append_fqdn_safe; eauto with wsafe.
Qed.

Lemma append_custom_ptr_safe a : custom_ok a -> wsafe (append_custom_ptr cfg a) (fun _ _ => True).
Proof.
  intros Ha p Hp. unfold append_custom_ptr. destruct (oa_custom_service a) as [srv|] eqn:Es; [|simpl; by wret].
  destruct (Ha srv Es) as (Hs & (i & -> & Hi) & (pr & -> & Hpr)).
  eapply wsafe_bind; [by apply append_ptr_record_safe|done|]. intros. by wret.
Qed.

Lemma append_answer_safe s net a i : server_ok s -> net_ok net -> answer_live s a ->
  wsafe (append_answer cfg (Some s) net a i) (fun _ _ => True).
Proof.
  intros Hs Hn [Ha Hc] p Hp. unfold append_answer.
  destruct (match oa_host a with Some h => negb (is_host_valid (Some s) h) | None => false end) eqn:Eh;
    [by wret|].
  assert (Hhost : forall h, oa_host a = Some h -> exists x, get_host (Some s) h = Ret x /\ host_ok x).
  { intros h E. rewrite E in Eh. bsimp. by apply get_host_ok. }
  case_on_goal.
  - destruct (oa_service a) as [k|] eqn:Ek.
    + destruct (get_service_ok s k Hs (Ha k ltac:(done))) as (srv & E & Hsrv).
      eapply wpre_bind with (Q := fun x _ => x = srv); [by eapply wpre_lift|].
      intros ? p1 Hp1 _ ->. eapply wpre_mono; [by apply append_service_ptr_answers_safe|done].
    + destruct (oa_host a) as [h|] eqn:Eho; [|by apply append_custom_ptr_safe].
      destruct (Hhost h eq_refl) as (x & E & Hx).
      eapply wpre_bind with (Q := fun y _ => y = x); [by eapply wpre_lift|].
      intros ? p1 Hp1 _ ->. case_on_goal; [|by apply append_custom_ptr_safe].
      destruct (hostname x) as [nm|] eqn:En; [|by apply append_custom_ptr_safe].
      case_on_goal; [|by apply append_custom_ptr_safe].
      eapply wsafe_bind; [apply append_reverse_ptr_record_safe; auto; eapply Hx; eauto|done|].
      intros. by wret.
  - assert (Hsrv : forall f, (forall srv, service_ok srv -> wsafe (f srv) (fun r _ => (0 <= r)%Z)) ->
      wpre (r ← with_service (Some s) (oa_service a) f; mret (positive_b r)) p (fun _ _ => True)).
    { intros f Hf. eapply wsafe_bind; [by apply with_service_safe|done|]. intros. by wret. }
    case_on_goal; [by apply Hsrv; intros; apply append_srv_record_safe|].
    case_on_goal; [by apply Hsrv; intros; apply append_txt_record_safe|].
    case_on_goal; [by apply Hsrv; intros; apply append_sdptr_record_safe|].
    case_on_goal; [|case_on_goal; [|by wret]];
      (case_on_goal; [by (apply append_self_a_safe + apply append_self_aaaa_safe)|]);
      (destruct (oa_host a) as [h|]; [|by wret]); destruct (Hhost h eq_refl) as (x & E & Hx);
      (eapply wpre_bind with (Q := fun y _ => y = x); [by eapply wpre_lift|]);
      intros ? p1 Hp1 _ ->; apply append_host_answer_safe; auto; apply Hx.
Qed.

Lemma append_answers_safe s net i answers : server_ok s -> net_ok net ->
  Forall (answer_live s) answers ->
  forall n, wsafe (append_answers cfg (Some s) net i answers n) (fun _ _ => True).
Proof.
  intros Hs Hn. induction 1 as [|a answers Ha _ IH]; intros n p Hp; simpl; [by wret|].
  eapply wsafe_bind; [by apply append_answer_safe|done|]. intros r p1 Hp1 _ _. by apply IH.
Qed.

Lemma opt_labels (l : list (option cstr)) : Forall (fun o => forall s, o = Some s -> label_ok s) l ->
  Forall label_ok (concat (map opt_list l)).
Proof.
  induction 1 as [|[s|] l Ho _ IH]; simpl; auto.
Qed.

Lemma append_question_safe q : question_ok q -> wsafe (append_question cfg q) (fun _ _ => True).
Proof.
  intros Hq p Hp. unfold append_question. unfold question_ok in Hq.
  rewrite !Forall_cons in Hq. destruct Hq as (Hh & Hs & Hpr & Hd & Hst & _).
  assert (Hrest : Forall label_ok (opt_list (oq_service q) ++ opt_list (oq_proto q) ++ opt_list (oq_domain q))).
  { pose proof (opt_labels [oq_service q; oq_proto q; oq_domain q]) as H. simpl in H.
    rewrite app_nil_r in H. apply H. auto. }
  eapply wsafe_bind with (Q := fun _ _ => True); [|done|].
  - intros p1 Hp1.
    destruct (CONFIG_MDNS_RESPOND_REVERSE_QUERIES cfg), (oq_subtype q) as [st|], (oq_host q) as [h|];
      try (eapply wpre_mono; [apply append_fqdn8_safe; simpl; auto using sub_str_ok|done]).
    case_on_goal.
    + eapply wsafe_bind; [by apply append_fqdn_dots_safe, Hh|done|]. intros. by wret.
    + eapply wpre_mono; [apply append_fqdn8_safe; simpl; auto|done].
  - intros r p1 Hp1 _ _. case_on_goal; [by wret|]. do 2 wbind. by wret.
Qed.

Lemma append_questions_safe qs : Forall question_ok qs ->
  forall n, wsafe (append_questions cfg qs n) (fun _ _ => True).
Proof.
  induction 1 as [|q qs Hq _ IH]; intros n p Hp; simpl; [by wret|].
  eapply wsafe_bind; [by apply append_question_safe|done|]. intros r p1 Hp1 _ _. by apply IH.
Qed.

#[local] Hint Resolve append_questions_safe append_answers_safe : wsafe.

(** C3. Provided that [overread] bytes behind the packet buffer can be read, which the
    search for earlier names may do, and that the strings of the packet fit a label
    and the services it points to are registered: encoding a packet returns, hands
    12 to 1460 bytes to the network, and stores nothing outside the packet buffer:
    every byte after it is the same before and after, whatever questions, answers,
    TXT items, subtypes and addresses the packet has. *)
Theorem dispatch_tx_packet_safe s net p static_buf :
  server_ok s -> net_ok net -> tx_packet_ok s p ->
  MDNS_MAX_PACKET_SIZE + overread <= length static_buf -> Forall byte_ok static_buf ->
  exists out n, mdns_priv_dispatch_tx_packet cfg (Some s) net p static_buf = Ret (out, n)
    /\ MDNS_HEAD_LEN <= n <= MDNS_MAX_PACKET_SIZE
    /\ length out = length static_buf /\ Forall byte_ok out
    /\ (forall j, MDNS_MAX_PACKET_SIZE <= j -> out !! j = static_buf !! j).
Proof.
  intros Hs Hn [] Hlen Hb. pose proof max_packet_size as Hmax.
  set (p0 := mk_pkt static_buf 0).
  assert (Hp0 : pkt_ok p0) by (split; simpl; auto; lia).
  destruct (wr_bytes_frame p0 0 (replicate MDNS_HEAD_LEN 0%Z) MDNS_HEAD_LEN) as (b & E & Hp1 & Hf1); auto.
  { apply Forall_replicate. unfold byte_ok. lia. }
  { rewrite length_replicate, Hmax. unfold MDNS_HEAD_LEN. lia. }
  { rewrite Hmax. unfold MDNS_HEAD_LEN. simpl. lia. }
  unfold mdns_priv_dispatch_tx_packet. change static_buf with (buf p0). rewrite E. cbn [mbind outcome_bind].
  match goal with |- context [@mbind _ _ _ _ _ (?m (mk_pkt b MDNS_HEAD_LEN))] =>
    assert (Hm : wpre m (mk_pkt b MDNS_HEAD_LEN) (fun _ _ => True)) end.
  { do 9 wbind. apply wsafe_pre; eauto with wsafe. }
  destruct Hm as ([] & p' & -> & Hp' & Hf' & _). cbn. exists (buf p'), (index p').
  destruct Hf1 as [L1 I1 R1], Hf' as [L2 I2 R2]. simpl in *.
  split; [done|]. split; [split; [done|apply Hp']|]. split; [congruence|]. split; [apply Hp'|].
  intros j Hj. rewrite (R2 j Hj). by apply R1.
Qed.

End WithConfig.
