(* ===== verification/Roundtrip.v ===== *)
(** The encoder and the parser of names agree: a name appended with
    compression by [append_fqdn] is read back by [mdns_utils_parse_fqdn] as
    the same name, up to ASCII case.

    Compression looks for an earlier occurrence anywhere in the buffer, the
    bytes left by earlier packets included.  [candidates_closed] is the
    decidable condition on the packet under which every occurrence it may
    settle on is a complete name of the packet itself; the last section shows
    by example what happens without it. *)
From S2P Require Import Prelude Names Server Encode EncodeSafe.

(** * Labels *)

Fixpoint push_all (cfg : config) (n : mdns_name_t) (ls : list cstr) : outcome mdns_name_t :=
  match ls with
  | [] => Ret n
  | l :: ls =>
      n ← push_label cfg (if parts n =? 4 then set_invalid n else n) l;
      push_all cfg n ls
  end.

(** The name a list of labels spells, as the parser understands it. *)
Definition name_of (cfg : config) (ls : list cstr) : outcome mdns_name_t :=
  n ← push_all cfg empty_name ls; Ret (arrange_name n).

(** The labels of a name in a packet, compression followed; a pointer to an
    empty name is not followed. *)
Fixpoint scan_labels (cfg : config) (jump : nat -> outcome (nat * list cstr))
    (packet : list Z) (packet_len start fuel index : nat) : outcome (nat * list cstr) :=
  match fuel with
  | 0 => OutOfFuel
  | S fuel =>
      if packet_len <=? start + index then Ret (start + index + 1, [])
      else
        len ← rd packet (start + index);
        if (len =? 0)%Z then Ret (start + index + 1, [])
        else
          let index := S index in
          if (len <? 0xC0)%Z then
            if (63 <? len)%Z then Failed
            else
              raw ← read_label cfg packet packet_len (start + index) 0 (Z.to_nat len);
              if MDNS_NAME_BUF_LEN cfg <=? Z.to_nat len then BadAccess
              else
                '(next, ls) ← scan_labels cfg jump packet packet_len start fuel (index + Z.to_nat len);
                Ret (next, cstr_of raw :: ls)
          else if packet_len <=? start + index then Failed
          else
            lo ← rd packet (start + index);
            let address := Z.to_nat (Z.lor (Z.shiftl (Z.land len 0x3F) 8) lo) in
            if start <=? address then Failed
            else
              '(_, ls) ← jump address;
              match ls with [] => Failed | _ => Ret (start + (index + 1), ls) end
  end.

Fixpoint scan (cfg : config) (depth : nat) (packet : list Z) (packet_len start : nat)
    : outcome (nat * list cstr) :=
  scan_labels cfg
    (match depth with 0 => fun _ => Failed | S depth => scan cfg depth packet packet_len end)
    packet packet_len start (S packet_len) 0.

(** * The condition on the packet *)

(** Could the bytes at [loc] of the packet below [i] be the label [s]? *)
Definition may_match (packet : list Z) (i : nat) (s : cstr) (loc : nat) : bool :=
  match take i packet !! loc with
  | Some b =>
      (b =? Z.of_nat (length s))%Z
      && bool_decide (take (length s) (drop (S loc) (take i packet)) = take (i - S loc) s)
  | None => false
  end.

Fixpoint same_labels (ls strings : list cstr) : bool :=
  match ls, strings with
  | [], [] => true
  | l :: ls, s :: strings => strcaseeq s l && same_labels ls strings
  | _, _ => false
  end.

(** Whatever the search accepts at [loc] is a name below [i] with exactly the
    labels searched for, readable one jump deeper. *)
Definition closed_at (cfg : config) (packet : list Z) (i : nat) (strings : list cstr) (loc : nat) : bool :=
  match mdns_utils_read_fqdn cfg (take i packet) MDNS_MAX_PACKET_SIZE loc empty_name with
  | Failed => true
  | Ret (_, n) =>
      if (parts n =? length strings) && same_parts strings n 0
      then match scan cfg (MDNS_FQDN_MAX_COMPRESSION_DEPTH - 1) (take i packet) MDNS_MAX_PACKET_SIZE loc with
           | Ret (_, ls) => same_labels ls strings
           | _ => false
           end
      else true
  | _ => false
  end.

Fixpoint candidates_closed (cfg : config) (packet : list Z) (i : nat) (strings : list cstr) : bool :=
  match strings with
  | [] => true
  | s :: rest =>
      forallb (fun loc => implb (may_match packet i s loc) (closed_at cfg packet i strings loc)) (seq 0 i)
      && candidates_closed cfg packet i rest
  end.

(** Labels the encoder can tell apart from the lengths in front of them. *)
Definition plain_label (s : cstr) : Prop :=
  1 <= length s < 32 /\ Forall (fun b => 32 <= b < 256)%Z s.

Definition enc_label (s : cstr) : list Z := Z.of_nat (length s) :: s.

Definition enc (ls : list cstr) : list Z := concat (map enc_label ls).

(** Equality of names up to ASCII case. *)
Record name_eq (n m : mdns_name_t) : Prop := mk_name_eq {
  name_eq_host : case_eq (host n) (host m);
  name_eq_service : case_eq (service n) (service m);
  name_eq_proto : case_eq (proto n) (proto m);
  name_eq_domain : case_eq (domain n) (domain m);
  name_eq_parts : parts n = parts m;
  name_eq_sub : sub n = sub m;
  name_eq_invalid : invalid n = invalid m;
}.

(** * Reading a name is scanning its labels *)

Section Scan.
Context (cfg : config).

Lemma push_all_invalid n l ls : parts n = 4 ->
  push_all cfg (set_invalid n) (l :: ls) = push_all cfg n (l :: ls).
Proof. intros E. simpl. rewrite E. done. Qed.

Lemma scan_labels_read jn jl packet packet_len start :
  (forall a n nx ls n', jl a = Ret (nx, ls) -> push_all cfg n ls = Ret n' -> jn a n = Ret (nx, n')) ->
  forall fuel index n nx ls n',
  scan_labels cfg jl packet packet_len start fuel index = Ret (nx, ls) ->
  push_all cfg n ls = Ret n' ->
  read_labels cfg jn packet packet_len start fuel index n = Ret (nx, n').
Proof.
  intros Hj. induction fuel as [|fuel IH]; intros index n nx ls n' E Hp; [done|]. simpl in *.
  case_on_goal; [injection E as <- <-; by injection Hp as ->|].
  apply bind_Ret in E as (len & -> & E). simpl.
  destruct (len =? 0)%Z; [injection E as <- <-; by injection Hp as ->|].
  destruct (len <? 192)%Z.
  - destruct (63 <? len)%Z; [done|].
    apply bind_Ret in E as (raw & -> & E). simpl. case_on_goal; [done|].
    apply bind_Ret in E as ([nx1 ls1] & E1 & [= <- <-]). simpl in Hp.
    apply bind_Ret in Hp as (n1 & Hn1 & Hp). rewrite Hn1. simpl. eauto.
  - case_on_goal; [done|].
    apply bind_Ret in E as (lo & -> & E). simpl.
    case_on_goal; [done|].
    apply bind_Ret in E as ([nx1 ls1] & E1 & E).
    destruct ls1 as [|l ls1]; [done|]. injection E as <- <-.
    rewrite (Hj _ _ _ _ n' E1); [done|].
    case_on_goal; bsimp; [by rewrite push_all_invalid|done].
Qed.

Lemma scan_read depth packet packet_len : forall start n nx ls n',
  scan cfg depth packet packet_len start = Ret (nx, ls) -> push_all cfg n ls = Ret n' ->
  mdns_utils_read_fqdn_impl cfg depth packet packet_len start n = Ret (nx, n').
Proof.
  induction depth as [|depth IH]; intros start n nx ls n' E Hp; cbn [scan] in E;
    cbn [mdns_utils_read_fqdn_impl]; (eapply scan_labels_read; [|exact E|exact Hp]); [done|eauto].
Qed.

(** * Reads below a bound do not depend on what follows *)

Lemma rd_prefix {A} (l1 l2 : list A) i : l1 `prefix_of` l2 ->
  rd l1 i <> BadAccess -> rd l2 i = rd l1 i.
Proof.
  intros Hp. unfold rd. destruct (l1 !! i) eqn:E; [|done].
  by rewrite (prefix_lookup_Some _ _ _ _ E Hp).
Qed.

Lemma bind_not_bad {A B} (m : outcome A) (f : A -> outcome B) :
  m ≫= f <> BadAccess -> m <> BadAccess /\ (forall a, m = Ret a -> f a <> BadAccess).
Proof. destruct m; simpl; split; try congruence; naive_solver. Qed.

Lemma read_label_prefix l1 l2 e : l1 `prefix_of` l2 -> forall len pos i,
  read_label cfg l1 e pos i len <> BadAccess ->
  read_label cfg l2 e pos i len = read_label cfg l1 e pos i len.
Proof.
  intros Hp. induction len as [|len IH]; intros pos i H; simpl in *; [done|].
  repeat case_on_goal; auto. apply bind_not_bad in H as [H1 H2].
  rewrite (rd_prefix l1 l2) by done. destruct (rd l1 pos) as [b| | |]; simpl in *; auto.
  specialize (H2 b eq_refl). apply bind_not_bad in H2 as [H2 _]. by rewrite IH.
Qed.

Lemma read_labels_prefix l1 l2 L jn1 jn2 start : l1 `prefix_of` l2 ->
  (forall a n, jn1 a n <> BadAccess -> jn2 a n = jn1 a n) ->
  forall fuel index n,
  read_labels cfg jn1 l1 L start fuel index n <> BadAccess ->
  read_labels cfg jn2 l2 L start fuel index n = read_labels cfg jn1 l1 L start fuel index n.
Proof.
  intros Hp Hj. induction fuel as [|fuel IH]; intros index n H; simpl in *; [done|].
  case_on_goal; [done|]. apply bind_not_bad in H as [H1 H2].
  rewrite (rd_prefix l1 l2 _ Hp H1). destruct (rd l1 _) as [len| | |]; simpl in *; auto.
  specialize (H2 len eq_refl). case_on_goal; [done|]. case_on_goal.
  - case_on_goal; [done|]. apply bind_not_bad in H2 as [H2 H3].
    rewrite (read_label_prefix l1 l2) by done.
    destruct (read_label cfg l1 _ _ _ _) as [raw| | |]; simpl in *; auto.
    specialize (H3 raw eq_refl). case_on_goal; [done|]. apply bind_not_bad in H3 as [_ H3].
    destruct (push_label cfg _ _) as [n1| | |]; simpl in *; auto.
  - case_on_goal; [done|]. apply bind_not_bad in H2 as [H2 H3].
    rewrite (rd_prefix l1 l2 _ Hp H2). destruct (rd l1 _) as [lo| | |]; simpl in *; auto.
    specialize (H3 lo eq_refl). case_on_goal; [done|]. apply bind_not_bad in H3 as [H3 _].
    by rewrite Hj.
Qed.

Lemma read_impl_prefix l1 l2 L depth : l1 `prefix_of` l2 -> forall start n,
  mdns_utils_read_fqdn_impl cfg depth l1 L start n <> BadAccess ->
  mdns_utils_read_fqdn_impl cfg depth l2 L start n = mdns_utils_read_fqdn_impl cfg depth l1 L start n.
Proof.
  intros Hp. induction depth as [|depth IH]; intros start n H; cbn [mdns_utils_read_fqdn_impl] in *;
    apply read_labels_prefix; auto.
Qed.

Lemma scan_labels_prefix l1 l2 L j1 j2 start : l1 `prefix_of` l2 ->
  (forall a, j1 a <> BadAccess -> j2 a = j1 a) ->
  forall fuel index,
  scan_labels cfg j1 l1 L start fuel index <> BadAccess ->
  scan_labels cfg j2 l2 L start fuel index = scan_labels cfg j1 l1 L start fuel index.
Proof.
  intros Hp Hj. induction fuel as [|fuel IH]; intros index H; simpl in *; [done|].
  case_on_goal; [done|]. apply bind_not_bad in H as [H1 H2].
  rewrite (rd_prefix l1 l2 _ Hp H1). destruct (rd l1 _) as [len| | |]; simpl in *; auto.
  specialize (H2 len eq_refl). case_on_goal; [done|]. case_on_goal.
  - case_on_goal; [done|]. apply bind_not_bad in H2 as [H2 H3].
    rewrite (read_label_prefix l1 l2) by done.
    destruct (read_label cfg l1 _ _ _ _) as [raw| | |]; simpl in *; auto.
    specialize (H3 raw eq_refl). case_on_goal; [done|]. apply bind_not_bad in H3 as [H3 _].
    by rewrite IH.
  - case_on_goal; [done|]. apply bind_not_bad in H2 as [H2 H3].
    rewrite (rd_prefix l1 l2 _ Hp H2). destruct (rd l1 _) as [lo| | |]; simpl in *; auto.
    specialize (H3 lo eq_refl). case_on_goal; [done|]. apply bind_not_bad in H3 as [H3 _].
    by rewrite Hj.
Qed.

Lemma scan_prefix l1 l2 L depth : l1 `prefix_of` l2 -> forall start,
  scan cfg depth l1 L start <> BadAccess ->
  scan cfg depth l2 L start = scan cfg depth l1 L start.
Proof.
  intros Hp. induction depth as [|depth IH]; intros start H; cbn [scan] in *;
    apply scan_labels_prefix; auto.
Qed.

(** * The parser is invariant under case *)

Lemma name_eq_refl n : name_eq n n.
Proof. split; reflexivity. Qed.

Lemma strcaseeq_case a b x : case_eq a b -> strcaseeq a x = strcaseeq b x.
Proof. intros H. apply strcaseeq_proper; [done|reflexivity]. Qed.

Lemma strlcat_case a a' b b' k : case_eq a a' -> case_eq b b' ->
  case_eq (strlcat a b k) (strlcat a' b' k).
Proof.
  intros Ha Hb. unfold strlcat. rewrite (case_eq_length _ _ Ha).
  unfold case_eq in *. rewrite !map_app, Ha. f_equal.
  rewrite <- !firstn_map. by rewrite Hb.
Qed.

Lemma tolower_underscore c : (tolower c =? 95)%Z = (c =? 95)%Z.
Proof. unfold tolower. case_on_goal; bsimp; destruct (Z.eqb_spec (c + 32) 95), (Z.eqb_spec c 95); lia. Qed.

Lemma continues_host_case n n' b b' : name_eq n n' -> case_eq b b' ->
  continues_host cfg n b = continues_host cfg n' b'.
Proof.
  intros Hn Hb. unfold continues_host. rewrite (name_eq_parts _ _ Hn).
  rewrite !(strcaseeq_case _ _ _ Hb). do 4 f_equal.
  destruct b as [|c b], b' as [|c' b']; try discriminate; [done|].
  injection Hb as Hc _. rewrite <- (tolower_underscore c), Hc. by rewrite tolower_underscore.
Qed.

Lemma push_label_case n n' b b' m : name_eq n n' -> case_eq b b' ->
  push_label cfg n b = Ret m -> exists m', push_label cfg n' b' = Ret m' /\ name_eq m m'.
Proof.
  intros Hn Hb. pose proof Hn as [Hh Hs Hp Hd Ep Es Ei]. unfold push_label.
  rewrite (continues_host_case n n' b b' Hn Hb), (strcaseeq_case _ _ _ Hb), Ep, Es, Ei.
  destruct (continues_host cfg n' b'); [intros [= <-]; eexists; split; [done|]|].
  { split; simpl; auto. apply strlcat_case; [|done]. by apply strlcat_case. }
  destruct (strcaseeq b' MDNS_SUB_STR).
  { destruct (negb _ || _); intros [= <-]; (eexists; split; [done|]); split; simpl; auto. }
  destruct (negb (invalid n')); [|intros [= <-]; eauto].
  unfold store_part. rewrite Ep.
  destruct (parts n') as [|[|[|[|]]]]; intros [= <-]; (eexists; split; [done|]); split; simpl; auto.
Qed.

Lemma push_all_case ls ls' : Forall2 case_eq ls ls' -> forall n n' m, name_eq n n' ->
  push_all cfg n ls = Ret m -> exists m', push_all cfg n' ls' = Ret m' /\ name_eq m m'.
Proof.
  induction 1 as [|l l' ls ls' Hl _ IH]; intros n n' m Hn; simpl; [intros [= <-]; eauto|].
  intros E. apply bind_Ret in E as (m1 & E1 & E).
  eapply (push_label_case _ (if parts n' =? 4 then set_invalid n' else n') _ l') in E1
    as (m1' & -> & Hm1); auto; [eauto|].
  rewrite (name_eq_parts _ _ Hn). case_on_goal; [|done]. destruct Hn; split; simpl; auto.
Qed.

Lemma arrange_name_case n n' : name_eq n n' -> name_eq (arrange_name n) (arrange_name n').
Proof.
  intros [Hh Hs Hp Hd Ep Es Ei]. unfold arrange_name. rewrite Ep, Es.
  assert (H1 : forall b : bool, name_eq (if b then set_invalid n else n) (if b then set_invalid n' else n'))
    by (intros []; split; simpl; auto).
  set (b := negb _ && _). pose proof (H1 b) as [Hh1 Hs1 Hp1 Hd1 Ep1 Es1 Ei1].
  set (n1 := if b then _ else _) in *. set (n1' := if b then set_invalid n' else n') in *.
  clearbody n1 n1'. rewrite Ep1, Ei1. case_on_goal; [by split|].
  set (n2 := if _ =? 3 then mk_name [] (host n1) _ _ _ _ _ else _).
  set (n2' := if _ =? 3 then mk_name [] (host n1') _ _ _ _ _ else _).
  assert (H2 : name_eq n2 n2').
  { unfold n2, n2'. repeat case_on_goal; split; simpl; auto; congruence || reflexivity. }
  clearbody n2 n2'. rewrite !(strcaseeq_case _ _ _ (name_eq_domain _ _ H2)).
  case_on_goal; [done|]. destruct H2; split; simpl; auto.
Qed.

End Scan.

(** * What appending writes *)

(** [p'] is [p] with [bs] written at the index. *)
Record extends (p p' : pkt) (bs : list Z) : Prop := mk_extends {
  ext_ok : pkt_ok p';
  ext_index : index p' = index p + length bs;
  ext_below : forall j, j < index p -> buf p' !! j = buf p !! j;
  ext_bytes : forall j, j < length bs -> buf p' !! (index p + j) = bs !! j;
}.

Lemma extends_trans p1 p2 p3 a b : extends p1 p2 a -> extends p2 p3 b -> extends p1 p3 (a ++ b).
Proof.
  intros [O1 I1 L1 B1] [O2 I2 L2 B2]. split; [done| | |].
  - rewrite length_app. lia.
  - intros j Hj. rewrite L2 by lia. auto.
  - intros j Hj. rewrite length_app in Hj. destruct (decide (j < length a)).
    + rewrite L2 by lia. rewrite lookup_app_l by lia. auto.
    + rewrite lookup_app_r by lia. rewrite <- (B2 (j - length a)) by lia. f_equal. lia.
Qed.

Lemma put_extends bs p : pkt_ok p -> Forall byte_ok bs -> index p + length bs <= MDNS_MAX_PACKET_SIZE ->
  exists p', put bs p = Ret (tt, p') /\ extends p p' bs.
Proof.
  intros Hp Hb Hl.
  destruct (wr_bytes_frame p (index p) bs (index p + length bs)) as (b & E & Hok & _); auto; [lia|].
  exists (mk_pkt b (index p + length bs)). unfold put. rewrite E. split; [done|].
  split; simpl; auto; intros j Hj; [by eapply wr_bytes_below|by eapply wr_bytes_at].
Qed.

Lemma append_u8_extends v p : pkt_ok p -> index p < MDNS_MAX_PACKET_SIZE ->
  exists p', mdns_utils_append_u8 v p = Ret (1%Z, p') /\ extends p p' [u8 v].
Proof.
  intros Hp Hi. unfold mdns_utils_append_u8. case_on_goal; bsimp; [lia|].
  destruct (put_extends [u8 v] p Hp) as (p' & E & Hext); [|simpl; lia|].
  - constructor; [apply u8_range|done].
  - exists p'. unfold mbind, W_bind. by rewrite E.
Qed.

Lemma append_u16_extends v p : pkt_ok p -> index p + 1 < MDNS_MAX_PACKET_SIZE ->
  exists p', mdns_utils_append_u16 v p = Ret (2%Z, p')
    /\ extends p p' [u8 (Z.land (Z.shiftr v 8) 0xFF); u8 (Z.land v 0xFF)].
Proof.
  intros Hp Hi. unfold mdns_utils_append_u16. case_on_goal; bsimp; [lia|].
  destruct (append_u8_extends (Z.land (Z.shiftr v 8) 255) p Hp) as (p1 & E1 & H1); [lia|].
  destruct (append_u8_extends (Z.land v 255) p1) as (p2 & E2 & H2); [apply H1|rewrite (ext_index _ _ _ H1); simpl; lia|].
  exists p2. unfold mbind, W_bind. rewrite E1, E2. split; [done|].
  exact (extends_trans _ _ _ _ _ H1 H2).
Qed.

Lemma plain_label_ok s : plain_label s -> label_ok s.
Proof. intros [_ H]. eapply Forall_impl; [exact H|]. simpl. lia. Qed.

Lemma append_string_extends s p : plain_label s -> pkt_ok p ->
  index p + length s + 1 < MDNS_MAX_PACKET_SIZE ->
  exists p', append_string s p = Ret (Z.of_nat (length s) + 1, p')%Z /\ extends p p' (enc_label s).
Proof.
  intros Hs Hp Hi. pose proof Hs as [Hl _]. unfold append_string.
  rewrite !u8_small by lia. rewrite Nat2Z.id. case_on_goal; bsimp; [lia|].
  destruct (append_u8_extends (Z.of_nat (length s)) p Hp) as (p1 & E1 & H1); [lia|].
  rewrite u8_small in H1 by lia. pose proof (ext_index _ _ _ H1) as Hi1. simpl in Hi1.
  destruct (put_extends s p1) as (p2 & E2 & H2);
    [apply H1|by apply cstr_ok_bytes, plain_label_ok|lia|].
  exists p2. rewrite firstn_all. unfold mbind, W_bind. rewrite E1, E2. split; [done|].
  exact (extends_trans _ _ _ _ _ H1 H2).
Qed.

(** A compression pointer to an offset of the buffer, and its two bytes. *)
Definition pointer_bytes_ok (loc : nat) : bool :=
  let v := Z.lor (Z.of_nat loc) MDNS_NAME_REF in
  let hi := u8 (Z.land (Z.shiftr v 8) 0xFF) in
  let lo := u8 (Z.land v 0xFF) in
  (0xC0 <=? hi)%Z && negb (hi =? 0)%Z && (Z.to_nat (Z.lor (Z.shiftl (Z.land hi 0x3F) 8) lo) =? loc).

Lemma pointer_bytes loc : loc < MDNS_MAX_PACKET_SIZE -> pointer_bytes_ok loc = true.
Proof.
  rewrite max_packet_size. intros H.
  assert (Hall : forallb pointer_bytes_ok (seq 0 1460) = true) by (vm_compute; reflexivity).
  rewrite forallb_forall in Hall. apply Hall, in_seq. lia.
Qed.

(** * The search *)

Section Search.
Context (cfg : config).

Lemma find_name_spec packet L s rest n : length s < 256 -> forall loc l,
  find_name cfg packet L (s :: rest) loc n = Ret (Some l) ->
  loc <= l < loc + n /\ packet !! l = Some (Z.of_nat (length s))
  /\ take (length s) (drop (S l) packet) = s
  /\ exists nx name, mdns_utils_read_fqdn cfg packet L l empty_name = Ret (nx, name)
       /\ parts name = S (length rest) /\ same_parts (s :: rest) name 0 = true.
Proof.
  intros Hlen. induction n as [|n IH]; intros loc l E; [done|]. cbn [find_name] in E.
  rewrite u8_small, Nat2Z.id, firstn_all in E by lia.
  assert (Hnext : find_name cfg packet L (s :: rest) (S loc) n = Ret (Some l) ->
     loc <= l < loc + S n /\ packet !! l = Some (Z.of_nat (length s))
     /\ take (length s) (drop (S l) packet) = s
     /\ exists nx name, mdns_utils_read_fqdn cfg packet L l empty_name = Ret (nx, name)
       /\ parts name = S (length rest) /\ same_parts (s :: rest) name 0 = true).
  { intros E'. destruct (IH _ _ E') as (H1 & H2). split; [lia|done]. }
  apply bind_Ret in E as (b & Eb & E). destruct (negb _) eqn:Eneg; [auto|].
  apply bind_Ret in E as (bs & Ebs & E). bsimp. subst b.
  destruct (memcmp bs s) eqn:Em; auto.
  destruct (mdns_utils_read_fqdn cfg packet L loc empty_name) as [[nx name]| | |] eqn:Er; try done; auto.
  destruct (_ && _) eqn:Eacc; auto. injection E as <-. bsimp.
  unfold rd in Eb. destruct (packet !! loc) eqn:El; [|done]. injection Eb as ->.
  unfold rd_bytes in Ebs. destruct (_ <=? _) eqn:Ele; [|done]. injection Ebs as <-. bsimp.
  split; [lia|]. split; [done|]. split; [|eauto 10].
  apply memcmp_Eq; [|done]. rewrite length_take, length_drop. lia.
Qed.

(** Among labels already written, none can be taken for the next one. *)
Lemma own_labels_no_match s done_ : forall tail k,
  Forall plain_label done_ -> plain_label s -> s ∉ done_ ->
  k < length (enc done_) -> (enc done_ ++ tail) !! k = Some (Z.of_nat (length s)) ->
  take (length s) (drop (S k) (enc done_ ++ tail)) <> s.
Proof.
  induction done_ as [|d done_ IH]; intros tail k Hd Hs Hnin Hk Hlk; [simpl in Hk; lia|].
  apply Forall_cons in Hd as [[Hdl Hdb] Hd]. rewrite not_elem_of_cons in Hnin. destruct Hnin as [Hne Hnin].
  unfold enc in *. simpl in *. rewrite length_app in Hk. rewrite <- app_assoc in *.
  destruct k as [|k]; simpl in *.
  - injection Hlk as Hlen. apply Nat2Z.inj in Hlen. rewrite drop_0, <- Hlen, take_app_length. congruence.
  - destruct (decide (k < length d)) as [Hin|Hout].
    + rewrite lookup_app_l in Hlk by done. rewrite Forall_forall in Hdb.
      assert (He : Z.of_nat (length s) ∈ d) by (apply list_elem_of_lookup; eauto).
      specialize (Hdb _ He). simpl in Hdb. destruct Hs. lia.
    + rewrite lookup_app_r in Hlk by lia.
      rewrite drop_app_ge by lia. replace (S k - length d) with (S (k - length d)) by lia.
      apply IH; auto. lia.
Qed.

Lemma same_labels_case ls strings : same_labels ls strings = true -> Forall2 case_eq ls strings.
Proof.
  revert strings; induction ls as [|l ls IH]; intros [|s strings]; simpl; try done.
  intros H. bsimp. constructor; [|auto]. symmetry. by apply strcaseeq_iff.
Qed.

Lemma take_agree (l1 l2 : list Z) i : (forall j, j < i -> l1 !! j = l2 !! j) -> take i l1 = take i l2.
Proof.
  intros H. apply list_eq. intros j. destruct (decide (j < i)).
  - rewrite !lookup_take_lt by done. auto.
  - rewrite !lookup_take_ge by lia. done.
Qed.

(** An occurrence the search settles on below [i] is the name searched for,
    in any packet with the same bytes below [i]. *)
Lemma closed_candidate packet i s rest l :
  plain_label s -> l < i -> i <= length packet ->
  candidates_closed cfg packet i (s :: rest) = true ->
  packet !! l = Some (Z.of_nat (length s)) ->
  take (length s) (drop (S l) packet) = s ->
  (exists nx name, mdns_utils_read_fqdn cfg packet MDNS_MAX_PACKET_SIZE l empty_name = Ret (nx, name)
     /\ parts name = S (length rest) /\ same_parts (s :: rest) name 0 = true) ->
  exists nx ls, Forall2 case_eq ls (s :: rest)
    /\ forall Q, (forall j, j < i -> Q !! j = packet !! j) ->
         scan cfg 15 Q MDNS_MAX_PACKET_SIZE l = Ret (nx, ls).
Proof.
  intros Hs Hl Hi Hc Hb Ht (nx & name & Er & Hpa & Hsp).
  cbn [candidates_closed] in Hc. apply andb_true_iff in Hc as [Hc _]. rewrite forallb_forall in Hc.
  specialize (Hc l ltac:(apply in_seq; lia)). simpl in Hc.
  assert (Hpre : take i packet `prefix_of` packet) by (exists (drop i packet); symmetry; apply take_drop).
  assert (Hm : may_match packet i s l = true).
  { unfold may_match. rewrite lookup_take_lt by done. rewrite Hb. rewrite Z.eqb_refl. simpl.
    apply bool_decide_eq_true. rewrite skipn_firstn_comm, take_take, Nat.min_comm, <- take_take.
    by rewrite Ht. }
  rewrite Hm in Hc. simpl in Hc. unfold closed_at in Hc.
  destruct (mdns_utils_read_fqdn cfg (take i packet) _ l empty_name) as [[nx' n']| | |] eqn:E'; try done.
  - unfold mdns_utils_read_fqdn in *.
    rewrite (read_impl_prefix cfg _ _ _ _ Hpre) in Er by (rewrite E'; done).
    rewrite E' in Er. injection Er as -> ->.
    rewrite Hpa, Hsp in Hc. cbn [length] in Hc. rewrite Nat.eqb_refl in Hc. cbn [andb] in Hc.
    change (MDNS_FQDN_MAX_COMPRESSION_DEPTH - 1) with 15 in Hc.
    destruct (scan cfg 15 (take i packet) _ l) as [[nx2 ls]| | |] eqn:Es; try done.
    exists nx2, ls. split; [by apply same_labels_case|]. intros Q HQ.
    rewrite (scan_prefix cfg (take i packet) Q); rewrite ?Es; try done.
    rewrite <- (take_agree Q packet i HQ). exists (drop i Q). symmetry. apply take_drop.
  - unfold mdns_utils_read_fqdn in *.
    rewrite (read_impl_prefix cfg _ _ _ _ Hpre) in Er by (rewrite E'; done). congruence.
Qed.

End Search.

(** * Appending and reading back *)

Section Append.
Context (cfg : config).

Lemma read_label_exact Q L raw : forall pos i,
  (forall j, j < length raw -> Q !! (pos + j) = raw !! j) ->
  pos + length raw <= L -> i + length raw <= MDNS_NAME_BUF_LEN cfg ->
  read_label cfg Q L pos i (length raw) = Ret raw.
Proof.
  induction raw as [|b raw IH]; intros pos i HQ HL Hi; simpl in *; [done|].
  case_on_goal; bsimp; [lia|]. case_on_goal; bsimp; [lia|].
  pose proof (HQ 0 ltac:(lia)) as H0. rewrite Nat.add_0_r in H0. unfold rd. rewrite H0. simpl.
  rewrite IH; [done| |lia|lia]. intros j Hj.
  pose proof (HQ (S j) ltac:(lia)) as HS. simpl in HS. rewrite <- HS. f_equal. lia.
Qed.

(** One label of the scan, the terminator, and a pointer. *)
Lemma scan_label_step jl Q start fuel idx s nx ls :
  plain_label s ->
  (forall j, j < length (enc_label s) -> Q !! (start + idx + j) = enc_label s !! j) ->
  start + idx + length (enc_label s) <= MDNS_MAX_PACKET_SIZE ->
  scan_labels cfg jl Q MDNS_MAX_PACKET_SIZE start fuel (idx + length (enc_label s)) = Ret (nx, ls) ->
  scan_labels cfg jl Q MDNS_MAX_PACKET_SIZE start (S fuel) idx = Ret (nx, s :: ls).
Proof.
  intros Hs HQ HL E. pose proof Hs as [Hl _]. pose proof (buf_len_64 cfg). cbn [length enc_label] in *.
  cbn [scan_labels]. case_on_goal; bsimp; [lia|].
  pose proof (HQ 0 ltac:(lia)) as H0. rewrite Nat.add_0_r in H0. unfold rd. rewrite H0. cbn.
  rewrite (proj2 (Z.eqb_neq _ _)), (proj2 (Z.ltb_lt _ 192)), (proj2 (Z.ltb_ge 63 _)) by lia.
  rewrite Nat2Z.id. rewrite read_label_exact; [| |lia|lia].
  - cbn. case_on_goal; bsimp; [lia|]. rewrite cstr_of_id by (by apply plain_label_ok).
    replace (S (idx + length s)) with (idx + S (length s)) by lia. by rewrite E.
  - intros j Hj. pose proof (HQ (S j) ltac:(lia)) as HS. simpl in HS. rewrite <- HS. f_equal. lia.
Qed.

Lemma scan_end jl Q start fuel idx : Q !! (start + idx) = Some 0%Z ->
  start + idx < MDNS_MAX_PACKET_SIZE ->
  scan_labels cfg jl Q MDNS_MAX_PACKET_SIZE start (S fuel) idx = Ret (start + idx + 1, []).
Proof. intros H Hl. cbn [scan_labels]. case_on_goal; [done|]. unfold rd. by rewrite H. Qed.

Lemma scan_pointer jl Q start fuel idx loc nx l ls :
  let v := Z.lor (Z.of_nat loc) MDNS_NAME_REF in
  Q !! (start + idx) = Some (u8 (Z.land (Z.shiftr v 8) 0xFF)) ->
  Q !! (start + idx + 1) = Some (u8 (Z.land v 0xFF)) ->
  start + idx + 1 < MDNS_MAX_PACKET_SIZE -> loc < start -> jl loc = Ret (nx, l :: ls) ->
  scan_labels cfg jl Q MDNS_MAX_PACKET_SIZE start (S fuel) idx = Ret (start + idx + 2, l :: ls).
Proof.
  intros v H0 H1 Hl Hloc Hj. pose proof (pointer_bytes loc ltac:(lia)) as Hp.
  unfold pointer_bytes_ok in Hp. fold v in Hp.
  set (hi := u8 (Z.land (Z.shiftr v 8) 0xFF)) in *. set (lo := u8 (Z.land v 0xFF)) in *.
  clearbody hi lo v. apply andb_true_iff in Hp as [Hp Hadr%Nat.eqb_eq]. bsimp.
  cbn [scan_labels]. unfold rd. rewrite H0.
  replace (start + S idx) with (start + idx + 1) by lia. rewrite H1.
  rewrite (proj2 (Nat.leb_gt _ _)) by lia. cbn [mbind outcome_bind].
  rewrite (proj2 (Z.eqb_neq _ _)), (proj2 (Z.ltb_ge _ 192)) by lia.
  rewrite (proj2 (Nat.leb_gt _ _)) by lia. rewrite Hadr.
  rewrite (proj2 (Nat.leb_gt _ _)) by lia. rewrite Hj. cbn [mbind outcome_bind]. do 2 f_equal. lia.
Qed.

(** The state in the middle of appending a name that starts at [i]: the labels
    [done_] are written and [rest] is to come. *)
Record appending (p : pkt) (i : nat) (done_ rest : list cstr) : Prop := mk_appending {
  app_ok : pkt_ok p;
  app_index : index p = i + length (enc done_);
  app_done : forall j, j < length (enc done_) -> buf p !! (i + j) = enc done_ !! j;
  app_plain : Forall plain_label (done_ ++ rest);
  app_nodup : NoDup (done_ ++ rest);
  app_room : index p + length (enc rest) + 1 < MDNS_MAX_PACKET_SIZE;
  app_closed : candidates_closed cfg (buf p) i rest = true;
}.

Lemma enc_cons s rest : enc (s :: rest) = enc_label s ++ enc rest.
Proof. done. Qed.

Lemma enc_snoc done_ s : enc (done_ ++ [s]) = enc done_ ++ enc_label s.
Proof. unfold enc. rewrite map_app, concat_app. simpl. by rewrite app_nil_r. Qed.

Lemma candidates_closed_ext P P' i strings : take i P = take i P' ->
  candidates_closed cfg P i strings = candidates_closed cfg P' i strings.
Proof.
  intros E. induction strings as [|s rest IH]; cbn [candidates_closed]; [reflexivity|]. rewrite IH.
  unfold may_match, closed_at. rewrite E. reflexivity.
Qed.

Lemma appending_step p p' i done_ s rest :
  appending p i done_ (s :: rest) -> extends p p' (enc_label s) ->
  appending p' i (done_ ++ [s]) rest.
Proof.
  intros [Hok Hidx Hdone Hpl Hnd Hroom Hcl] [Hok' Hi' Hbel Hbyt].
  rewrite enc_cons, length_app in Hroom. split.
  - done.
  - rewrite Hi', Hidx, enc_snoc, length_app. lia.
  - intros j Hj. rewrite enc_snoc, length_app in Hj. rewrite enc_snoc.
    destruct (decide (j < length (enc done_))).
    + rewrite Hbel by lia. rewrite lookup_app_l by done. auto.
    + rewrite lookup_app_r by lia. rewrite <- Hbyt by lia. f_equal. lia.
  - by rewrite <- app_assoc.
  - by rewrite <- app_assoc.
  - lia.
  - cbn [candidates_closed] in Hcl. apply andb_true_iff in Hcl as [_ Hcl].
    rewrite (candidates_closed_ext (buf p') (buf p)); [done|]. apply take_agree.
    intros j Hj. apply Hbel. lia.
Qed.

(** No occurrence of the next label lies among the labels being written. *)
Lemma appending_not_own p i done_ s rest l :
  appending p i done_ (s :: rest) -> i <= l < index p ->
  buf p !! l = Some (Z.of_nat (length s)) -> take (length s) (drop (S l) (buf p)) <> s.
Proof.
  intros [Hok Hidx Hdone Hpl Hnd Hroom _] Hl Hb.
  assert (Hsplit : drop i (buf p) = enc done_ ++ drop (index p) (buf p)).
  { apply list_eq. intros j. rewrite lookup_drop. destruct (decide (j < length (enc done_))).
    - rewrite lookup_app_l by done. auto.
    - rewrite lookup_app_r by lia. rewrite lookup_drop. f_equal. lia. }
  replace (S l) with (i + S (l - i)) by lia. rewrite <- drop_drop, Hsplit.
  apply Forall_app in Hpl as [Hpd Hps]. apply Forall_cons in Hps as [Hps _].
  apply NoDup_app in Hnd as (_ & Hnd & _).
  apply own_labels_no_match; auto; [intros Hin; eapply (Hnd s Hin), list_elem_of_here|lia|].
  rewrite <- Hsplit, lookup_drop, <- Hb. f_equal. lia.
Qed.

(** Appending the rest of a name: it returns the number of bytes written, and
    scanning from where it started finds the labels again. *)
Lemma append_fqdn_scan rest : forall p i done_,
  appending p i done_ rest ->
  exists r p' bs ls, append_fqdn cfg rest MDNS_MAX_PACKET_SIZE p = Ret (r, p')
    /\ extends p p' bs /\ r = Z.of_nat (length bs) /\ 1 <= length bs <= length (enc rest) + 1
    /\ Forall2 case_eq ls rest
    /\ forall Q fuel, (forall j, j < index p' -> Q !! j = buf p' !! j) -> length rest < fuel ->
         scan_labels cfg (scan cfg 15 Q MDNS_MAX_PACKET_SIZE) Q MDNS_MAX_PACKET_SIZE i fuel
           (index p - i) = Ret (index p', ls).
Proof.
  induction rest as [|s rest IH]; intros p i done_ Hap; pose proof Hap as [Hok Hidx Hdone Hpl Hnd Hroom Hcl].
  - cbn [append_fqdn]. destruct (append_u8_extends 0 p Hok) as (p' & E & Hext); [simpl in Hroom; lia|].
    exists 1%Z, p', [u8 0], []. pose proof (ext_index _ _ _ Hext) as Hi'. simpl in Hi'.
    split; [done|]. split; [done|]. split; [done|]. split; [simpl; lia|]. split; [constructor|].
    intros Q fuel HQ Hf. destruct fuel as [|fuel]; [lia|].
    rewrite scan_end.
    + f_equal. f_equal. lia.
    + rewrite HQ by lia. replace (i + (index p - i)) with (index p + 0) by lia.
      by rewrite (ext_bytes _ _ _ Hext) by (simpl; lia).
    + lia.
  - apply Forall_app in Hpl as [_ Hps]. apply Forall_cons in Hps as [Hs _]. pose proof Hs as [Hsl _].
    rewrite enc_cons, length_app in Hroom. assert (Hel : length (enc_label s) = S (length s)) by done.
    destruct (find_name_safe cfg (buf p) (s :: rest) (index p) 0) as (r & Ef & Hr); try apply Hok.
    cbn [append_fqdn]. rewrite Ef. cbn [mbind outcome_bind]. destruct r as [loc|].
    + destruct (find_name_spec cfg (buf p) MDNS_MAX_PACKET_SIZE s rest (index p) ltac:(lia) 0 loc Ef)
        as (Hloc & Hb & Ht & Hread).
      assert (Hlt : loc < i).
      { destruct (decide (loc < i)); [done|]. exfalso.
        eapply appending_not_own; eauto; lia. }
      destruct (append_u16_extends (Z.lor (Z.of_nat loc) MDNS_NAME_REF) p Hok) as (p' & E & Hext); [lia|].
      pose proof (ext_index _ _ _ Hext) as Hi'. cbn [length] in Hi'.
      assert (Hil : i <= length (buf p)) by (pose proof (pkt_len _ Hok); lia).
      destruct (closed_candidate cfg (buf p) i s rest loc) as (nx & ls & Hls & Es); auto.
      eexists _, p', _, ls. split; [exact E|]. split; [exact Hext|]. split; [done|].
      split; [rewrite enc_cons, length_app; cbn [length]; lia|]. split; [done|].
      intros Q fuel HQ Hf. destruct fuel as [|fuel]; [lia|].
      specialize (Es Q ltac:(intros j Hj; rewrite HQ by lia; apply (ext_below _ _ _ Hext); lia)).
      inversion Hls as [|l ? ls0 ? ? ? Hl1 Hl2]; subst.
      rewrite (scan_pointer _ _ _ _ _ loc nx l ls0); [do 2 f_equal; lia| | |lia|lia|done].
      * rewrite HQ by lia. replace (i + (index p - i)) with (index p + 0) by lia.
        by rewrite (ext_bytes _ _ _ Hext) by (simpl; lia).
      * rewrite HQ by lia. replace (i + (index p - i) + 1) with (index p + 1) by lia.
        by rewrite (ext_bytes _ _ _ Hext) by (simpl; lia).
    + destruct (append_string_extends s p Hs Hok) as (p1 & E1 & Hext1); [lia|].
      destruct (IH p1 i (done_ ++ [s])) as (r & p' & bs & ls & E & Hext & -> & Hbs & Hls & Hscan);
        [by eapply appending_step|].
      pose proof (ext_index _ _ _ Hext1) as Hi1. pose proof (ext_index _ _ _ Hext) as Hi'.
      exists (Z.of_nat (length (enc_label s ++ bs))), p', (enc_label s ++ bs), (s :: ls).
      split; [|split; [by eapply extends_trans|]].
      { unfold mbind, W_bind. rewrite E1. rewrite (proj2 (Z.eqb_neq _ _)) by lia. rewrite E.
        unfold mret, W_ret. rewrite u16_small; rewrite ?length_app, ?max_packet_size in *; [|lia].
        do 2 f_equal. lia. }
      split; [done|]. split; [rewrite enc_cons, !length_app; lia|].
      split; [constructor; [reflexivity|done]|].
      intros Q fuel HQ Hf. destruct fuel as [|fuel]; [lia|].
      assert (Hpos : i + (index p - i) = index p) by lia.
      apply scan_label_step; [done| |rewrite Hpos; lia|].
      * intros j Hj. rewrite Hpos, HQ by lia. rewrite (ext_below _ _ _ Hext) by lia.
        by apply (ext_bytes _ _ _ Hext1).
      * replace (index p - i + length (enc_label s)) with (index p1 - i) by lia.
        apply Hscan; [done|]. simpl in Hf. lia.
Qed.

Lemma push_label_not_failed n b : push_label cfg n b <> Failed.
Proof.
  unfold push_label, store_part. repeat case_on_goal; done.
Qed.

Lemma push_all_total ls : Forall plain_label ls -> forall n, wip_ok cfg n ->
  exists m, push_all cfg n ls = Ret m.
Proof.
  induction 1 as [|l ls Hl _ IH]; intros n Hn; simpl; [eauto|].
  set (n1 := if parts n =? 4 then _ else n).
  assert (Hn1 : wip_ok cfg n1 /\ (invalid n1 = false -> parts n1 < 4)).
  { unfold n1. pose proof (name_parts _ _ (proj1 Hn)).
    case_on_goal; bsimp; split; auto using set_invalid_wip; [done|lia]. }
  destruct Hn1 as [Hn1 Hp1]. pose proof (buf_len_64 cfg). pose proof Hl as [Hll _].
  pose proof (push_label_ok cfg n1 l Hn1 Hp1 ltac:(lia) (plain_label_ok l Hl)) as H1.
  pose proof (push_label_not_failed n1 l).
  destruct (push_label cfg n1 l) as [n2| | |]; simpl in *; try done. auto.
Qed.

(** C4. Round trip of names: appending distinct plain labels, for which there is room, to
    a packet in which every earlier place that the encoder may take for the rest of
    the name holds just these labels ([candidates_closed]) writes a name that
    the parser reads back, up to ASCII case, as the name the labels spell,
    whether it was compressed against an earlier name or not, and ends exactly
    where the encoder stopped; later appends to the packet do not change this. *)
Theorem append_parse_roundtrip p strings :
  pkt_ok p -> Forall plain_label strings -> NoDup strings ->
  index p + length (enc strings) + 1 < MDNS_MAX_PACKET_SIZE ->
  candidates_closed cfg (buf p) (index p) strings = true ->
  exists r p' n m, append_fqdn cfg strings MDNS_MAX_PACKET_SIZE p = Ret (r, p')
    /\ (0 < r)%Z /\ index p' = index p + Z.to_nat r
    /\ name_of cfg strings = Ret n /\ name_eq n m
    /\ forall Q, (forall j, j < index p' -> Q !! j = buf p' !! j) ->
         mdns_utils_parse_fqdn cfg Q MDNS_MAX_PACKET_SIZE (index p) = Ret (index p', m).
Proof.
  intros Hok Hpl Hnd Hroom Hcl.
  destruct (append_fqdn_scan strings p (index p) []) as (r & p' & bs & ls & E & Hext & -> & Hbs & Hls & Hscan).
  { split; auto; simpl; try lia. }
  destruct (push_all_total strings Hpl empty_name (empty_name_ok cfg)) as [n Hn].
  assert (Hls' : Forall2 case_eq strings ls).
  { apply Forall2_flip. eapply Forall2_impl; [exact Hls|]. intros ? ? H. by symmetry in H. }
  destruct (push_all_case cfg _ _ Hls' empty_name empty_name n (name_eq_refl _) Hn) as (m & Hm & Hnm).
  exists (Z.of_nat (length bs)), p', (arrange_name n), (arrange_name m).
  split; [done|]. split; [lia|]. split; [rewrite Nat2Z.id; apply Hext|].
  split; [unfold name_of; by rewrite Hn|]. split; [by apply arrange_name_case|].
  intros Q HQ. unfold mdns_utils_parse_fqdn, mdns_utils_read_fqdn.
  change MDNS_FQDN_MAX_COMPRESSION_DEPTH with 16.
  rewrite (scan_read cfg 16 Q MDNS_MAX_PACKET_SIZE (index p) empty_name (index p') ls m); [done| |done].
  cbn [scan]. rewrite <- (Hscan Q (S MDNS_MAX_PACKET_SIZE) HQ).
  - by rewrite Nat.sub_diag.
  - assert (Hc : length strings <= length (enc strings)).
    { clear. induction strings as [|s l IH]; [simpl; lia|]. rewrite enc_cons, length_app. simpl. lia. }
    lia.
Qed.

End Append.
