(* ===== verification/NameExamples.v ===== *)
(** Concrete packets: instances of the theorems on names, and the inputs on
    which the name compression of the encoder goes wrong. *)
From S2P Require Import Prelude Names Server Encode EncodeSafe Roundtrip.

Definition bytes_okb (l : list Z) : bool := forallb (fun b => ((0 <=? b) && (b <? 256))%Z) l.

Lemma bytes_okb_ok l : bytes_okb l = true -> Forall byte_ok l.
Proof.
  unfold bytes_okb. rewrite forallb_forall, Forall_forall. intros H x Hx.
  specialize (H x (proj1 (list_elem_of_In _ _) Hx)). bsimp. unfold byte_ok. lia.
Qed.

Definition plain_labelb (s : cstr) : bool :=
  (1 <=? length s) && (length s <? 32) && forallb (fun b => ((32 <=? b) && (b <? 256))%Z) s.

Lemma plain_labelb_ok ls : forallb plain_labelb ls = true -> Forall plain_label ls.
Proof.
  rewrite forallb_forall, Forall_forall. intros H s Hs.
  specialize (H s (proj1 (list_elem_of_In _ _) Hs)). unfold plain_labelb in H. bsimp.
  split; [lia|]. rewrite Forall_forall. intros b Hb.
  match goal with H : forallb _ _ = true |- _ => rewrite forallb_forall in H;
    specialize (H b (proj1 (list_elem_of_In _ _) Hb)) end. bsimp. lia.
Qed.

(** The buffer of the first packet: zeros, with [bs] written after the header. *)
Definition fresh_buf (bs : list Z) : list Z :=
  replicate 12 0%Z ++ bs ++ replicate (1460 + 255 - 12 - length bs) 0%Z.

Definition web_server : list cstr := [str "esp32"; str "_http"; str "_tcp"; str "local"].

Definition printer : list cstr := [str "Printer"; str "_http"; str "_tcp"; str "local"].

(** A packet that already holds the name of the web server. *)
Definition packet_with_name : pkt :=
  mk_pkt (fresh_buf (enc web_server ++ [0%Z])) (12 + length (enc web_server) + 1).

Lemma packet_with_name_ok : pkt_ok packet_with_name.
Proof.
  split.
  - apply Nat.leb_le. vm_compute. reflexivity.
  - apply Nat.leb_le. vm_compute. reflexivity.
  - apply bytes_okb_ok. vm_compute. reflexivity.
Qed.

Lemma parse_fqdn_safe_witness :
  safe (mdns_utils_parse_fqdn default_config (enc web_server) 22 0).
Proof.
  apply (parse_fqdn_safe default_config (enc web_server) 22 0).
  - apply Nat.leb_le. reflexivity.
  - apply bytes_okb_ok. reflexivity.
Defined.

Lemma parse_fqdn_wf_witness :
  name_ok default_config (mk_name (str "esp32") (str "_http") (str "_tcp") (str "local") 4 0 false)
  /\ valid_name (mk_name (str "esp32") (str "_http") (str "_tcp") (str "local") 4 0 false)
  /\ 0 < 24 <= 23 + 1.
Proof.
  apply (parse_fqdn_wf default_config (enc web_server) 23 0 24 _).
  - apply Nat.leb_le. reflexivity.
  - apply bytes_okb_ok. reflexivity.
  - lia.
  - vm_compute. reflexivity.
Defined.

Lemma append_parse_roundtrip_witness :
  exists r p' n m, append_fqdn default_config printer MDNS_MAX_PACKET_SIZE packet_with_name = Ret (r, p')
    /\ (0 < r)%Z /\ index p' = index packet_with_name + Z.to_nat r
    /\ name_of default_config printer = Ret n /\ name_eq n m
    /\ forall Q, (forall j, j < index p' -> Q !! j = buf p' !! j) ->
         mdns_utils_parse_fqdn default_config Q MDNS_MAX_PACKET_SIZE (index packet_with_name)
         = Ret (index p', m).
Proof.
  apply (append_parse_roundtrip default_config packet_with_name printer).
  - exact packet_with_name_ok.
  - apply plain_labelb_ok. reflexivity.
  - apply (proj1 (bool_decide_eq_true (NoDup printer))). vm_compute. reflexivity.
  - apply Nat.ltb_lt. vm_compute. reflexivity.
  - vm_compute. reflexivity.
Defined.

(** The name of the second service is written as one label and a pointer. *)
Example printer_is_compressed :
  (fun r => fst r) <$> append_fqdn default_config printer MDNS_MAX_PACKET_SIZE packet_with_name = Ret 10%Z.
Proof. vm_compute. reflexivity. Qed.

(** A packet encoded for a server with one service, for every section. *)
Definition example_service : mdns_service_t :=
  mk_service None (str "_http") (str "_tcp") (Some (str "esp32")) 0 0 80
    [mk_txt (Some (str "path")) (Some (str "/")) 1; mk_txt (Some (str "flag")) None 0] [str "_web"].

Definition example_server : mdns_server_t :=
  mk_server (Some (str "esp32")) None [(1%positive, example_service)]
    [(1%positive, mk_host (Some (str "delegate")) [IP4 0x0100A8C0; IP6 (replicate 16 1%Z)])]
    (mk_host (Some (str "esp32")) []).

Definition example_net : net_view :=
  mk_net_view (fun _ _ => true) (fun _ _ => false) (fun _ => false) (fun _ => 3)
    (fun _ => Some 0x0200A8C0%Z) (fun _ => [replicate 16 2%Z]) (fun _ => None).

Definition example_tx : mdns_tx_packet_t :=
  mk_tx_packet 0 0 MDNS_IP_PROTOCOL_V4 (IP4 0xFB0000E0) 5353 MDNS_FLAGS_QR_AUTHORITATIVE false
    [mk_out_question MDNS_TYPE_ANY false (Some (str "esp32")) None None (Some (str "local")) None false]
    [mk_out_answer MDNS_TYPE_PTR false false (Some 1%positive) None None None None;
     mk_out_answer MDNS_TYPE_SRV false true (Some 1%positive) None None None None;
     mk_out_answer MDNS_TYPE_TXT false true (Some 1%positive) None None None None]
    [mk_out_answer MDNS_TYPE_A false true None (Some SelfHost) None None None]
    [mk_out_answer MDNS_TYPE_AAAA false true None (Some (Delegated 1%positive)) None None None] false 0.

Definition cstr_okb (s : cstr) : bool := forallb (fun b => ((0 <? b) && (b <? 256))%Z) s.

Lemma cstr_okb_ok s : cstr_okb s = true -> cstr_ok s.
Proof.
  unfold cstr_okb, cstr_ok. rewrite forallb_forall, Forall_forall. intros H x Hx.
  specialize (H x (proj1 (list_elem_of_In _ _) Hx)). bsimp. lia.
Qed.

(** Closes [label_ok] of a literal. *)
Ltac lab := solve [intros; simplify_eq/=; solve [done | apply cstr_okb_ok; reflexivity] | intros; simplify_eq/=].

Lemma example_service_ok : service_ok example_service.
Proof.
  split; try lab.
  - constructor; [|constructor; [|constructor]]; (split; [lab|]).
    + intros v [= <-]. split; [by apply bytes_okb_ok|simpl; lia].
    + done.
  - constructor; [lab|constructor].
Qed.

Lemma example_server_ok : server_ok example_server.
Proof.
  split.
  - exists (str "esp32"). split; [done|]. split; [done|lab].
  - done.
  - constructor; [exact example_service_ok|constructor].
  - constructor; [|constructor]. split; [lab|].
    constructor; [done|]. constructor; [|constructor]. split; [done|]. by apply bytes_okb_ok.
  - split; [|done]. split; [lab|constructor].
Qed.

Lemma dispatch_tx_packet_safe_witness :
  exists out n, mdns_priv_dispatch_tx_packet default_config (Some example_server) example_net
      example_tx (replicate 1715 255%Z) = Ret (out, n)
    /\ MDNS_HEAD_LEN <= n <= MDNS_MAX_PACKET_SIZE
    /\ length out = length (replicate 1715 255%Z) /\ Forall byte_ok out
    /\ (forall j, MDNS_MAX_PACKET_SIZE <= j -> out !! j = replicate 1715 255%Z !! j).
Proof.
  apply (dispatch_tx_packet_safe default_config example_server example_net example_tx (replicate 1715 255%Z)).
  - exact example_server_ok.
  - split; [|done]. intros i. constructor; [|constructor]. split; [done|]. by apply bytes_okb_ok.
  - split.
    + constructor; [|constructor]. repeat (constructor; [lab|]). constructor.
    + repeat (constructor; [split; [intros ? [= <-]; by eexists|done]|]). constructor.
    + by repeat (constructor; [done|]).
    + by repeat (constructor; [done|]).
  - apply Nat.leb_le. vm_compute. reflexivity.
  - apply bytes_okb_ok. vm_compute. reflexivity.
Defined.

(** * Where compression goes wrong *)

(** A packet filled up to [i]. *)
Definition filled_to (i : nat) : pkt := mk_pkt (replicate 1715 255%Z) i.

(** When the second label does not fit, [append_fqdn] still returns a nonzero
    length: the first label stays in the packet as a name without an end, and
    the caller counts the record. *)
Example append_fqdn_hides_failure :
  (fun r => (fst r, index (snd r)))
    <$> append_fqdn default_config [str "abcd"; str "_tcp"; str "local"] MDNS_MAX_PACKET_SIZE (filled_to 1450)
  = Ret (5%Z, 1455).
Proof. vm_compute. reflexivity. Qed.

(** A host called local: the second label is found in the first one, which the
    zeros of a fresh buffer seem to end, and the name becomes a pointer to
    itself that the parser refuses. *)
Example hostname_local_self_pointer :
  let strings := [str "local"; str "local"] in
  let p := mk_pkt (fresh_buf []) 12 in
  (r ← append_fqdn default_config strings MDNS_MAX_PACKET_SIZE p;
   Ret (take 8 (drop 12 (buf (snd r))))) = Ret (enc_label (str "local") ++ [0xC0; 12])%Z
  /\ (r ← append_fqdn default_config strings MDNS_MAX_PACKET_SIZE p;
      mdns_utils_parse_fqdn default_config (buf (snd r)) MDNS_MAX_PACKET_SIZE 12) = Failed.
Proof. vm_compute. split; reflexivity. Qed.

(** A subtype and an instance of the same text: the instance name is replaced
    by a pointer to the subtype name, because the comparison ignores whether
    the name found has a subtype label. *)
Example instance_confused_with_subtype :
  let p := mk_pkt (fresh_buf (enc [str "web"; str "_sub"; str "_http"; str "_tcp"; str "local"] ++ [0%Z]))
             (12 + length (enc [str "web"; str "_sub"; str "_http"; str "_tcp"; str "local"]) + 1) in
  (r ← append_fqdn default_config [str "web"; str "_http"; str "_tcp"; str "local"] MDNS_MAX_PACKET_SIZE p;
   '(_, n) ← mdns_utils_parse_fqdn default_config (buf (snd r)) MDNS_MAX_PACKET_SIZE (index p);
   Ret (host n, sub n)) = Ret (str "web", 1)
  /\ (n ← name_of default_config [str "web"; str "_http"; str "_tcp"; str "local"];
      Ret (host n, sub n)) = Ret (str "web", 0).
Proof. vm_compute. split; reflexivity. Qed.

(** Near the end of the buffer the comparison of a candidate reads past it. *)
Example append_fqdn_overread :
  append_fqdn default_config [str "local"] MDNS_MAX_PACKET_SIZE (mk_pkt (replicate 1460 5%Z) 1458)
  = BadAccess.
Proof. vm_compute. reflexivity. Qed.
