(* ===== verification/EspDns.v ===== *)
(** The DNS client of components/esp_dns: the query builder and the response
    parser (esp_dns_utils.c), the resolvers over TCP, TLS and HTTPS
    (esp_dns_tcp.c, esp_dns_dot.c, esp_dns_doh.c), the handle's life cycle
    (esp_dns.c) and the lwIP hook that chooses among them (esp_dns_lwip.c).

    The transport, the HTTP client, the random source, [ipaddr_aton] and the
    memory allocator are arguments.  The number of answers kept is the
    configuration constant [MAX_ANSWERS], and [DNS_MAX_HOST_IP] is lwIP's. *)
From S2P Require Import Prelude.

(** * Constants and data *)

Inductive err_t := ERR_OK | ERR_MEM | ERR_VAL | ERR_CONN | ERR_ABRT | ERR_ARG.

#[export] Instance err_eq_dec : EqDecision err_t.
Proof. solve_decision. Defined.

Definition DNS_RRTYPE_A : Z := 1.
Definition DNS_RRTYPE_AAAA : Z := 28.
Definition DNS_RRCLASS_IN : Z := 1.
Definition SIZEOF_DNS_HEADER : nat := 12.
Definition SIZEOF_DNS_QUESTION : nat := 4.
Definition SIZEOF_DNS_ANSWER_FIXED : nat := 10.
Definition DNS_MAX_TTL : Z := 604800.
Definition ESP_DNS_BUFFER_SIZE : nat := 512.
Definition ESP_DNS_DEFAULT_TCP_PORT : Z := 53.
Definition ESP_DNS_DEFAULT_DOT_PORT : Z := 853.
Definition ESP_DNS_DEFAULT_DOH_PORT : Z := 443.
Definition ESP_DNS_DEFAULT_TIMEOUT_MS : Z := 10000.
Definition IPADDR_TYPE_V4 : Z := 0.
Definition IPADDR_TYPE_V6 : Z := 6.

(** lwIP's [ip_addr_t]: the sixteen bytes of its address union and its tag. *)
Record ip_addr_t := mk_ip { u_addr : list Z; ip_type : Z }.

Definition ip_zero : ip_addr_t := mk_ip (replicate 16 0%Z) 0.

Record dns_answer_storage_t := mk_answer { status : err_t; ip : ip_addr_t }.

Record dns_response_t := mk_response {
  status_code : err_t;
  id : Z;
  num_answers : nat;
  answers : list dns_answer_storage_t;
}.

Definition set_status (r : dns_response_t) (e : err_t) : dns_response_t :=
  mk_response e (id r) (num_answers r) (answers r).

(** [dns_response->answers[i] = a], checked against the array. *)
Definition set_answer (r : dns_response_t) (i : nat) (a : dns_answer_storage_t)
    : outcome dns_response_t :=
  if i <? length (answers r)
  then Ret (mk_response (status_code r) (id r) (num_answers r) (<[i:=a]> (answers r)))
  else BadAccess.

(** [ntohs] and [ntohl] of a field of the buffer. *)
Definition rd16 (b : list Z) (i : nat) : outcome Z :=
  hi ← rd b i; lo ← rd b (i + 1); Ret (be16 hi lo).

Definition rd32 (b : list Z) (i : nat) : outcome Z :=
  b0 ← rd b i; b1 ← rd b (i + 1); b2 ← rd b (i + 2); b3 ← rd b (i + 3);
  Ret (be32 b0 b1 b2 b3).

(** [htons(v)] as it lies in memory. *)
Definition net16 (v : Z) : list Z := [u8 (Z.shiftr v 8); u8 v].

(** * Queries *)

(** The bytes before the next dot, and what follows from the dot on
    ([strchr(dot, '.')], or the end of the string). *)
Fixpoint next_dot (dot : cstr) : cstr * cstr :=
  match dot with
  | [] => ([], [])
  | c :: s => if (c =? 46)%Z then ([], c :: s) else let '(l, r) := next_dot s in (c :: l, r)
  end.

(** The [while] loop over the labels; [q] is [qname - buffer]. *)
Fixpoint query_labels (fuel : nat) (buffer : list Z) (buffer_size q : nat) (dot : cstr)
    : outcome (list Z * nat) :=
  match fuel with
  | O => OutOfFuel
  | S fuel =>
      match dot with
      | [] => Ret (buffer, q)
      | _ =>
          let '(label, rest) := next_dot dot in
          let len := u8 (Z.of_nat (length label)) in
          buffer ← wr_bytes buffer q [len];
          if buffer_size <? q + 1 then Failed
          else
            buffer ← wr_bytes buffer (q + 1) (take (Z.to_nat len) label);
            query_labels fuel buffer buffer_size (q + 1 + Z.to_nat len)
              (match rest with [] => [] | _ :: rest => rest end)
      end
  end.

(** [esp_dns_create_query]: [rnd] is the value of [esp_random()]; the result is
    the buffer, the query's size and the identifier stored in [*id_o]. *)
Definition esp_dns_create_query (rnd : Z) (buffer_size : nat) (hostname : cstr) (addrtype : Z)
    : outcome (list Z * nat * Z) :=
  let buffer := replicate buffer_size 0%Z in
  let id := Z.land rnd 0xFFFF in
  buffer ← wr_bytes buffer 0 (net16 id);
  buffer ← wr_bytes buffer 2 (net16 0x0100);
  buffer ← wr_bytes buffer 4 (net16 1);
  '(buffer, q) ← query_labels (S (length hostname)) buffer buffer_size SIZEOF_DNS_HEADER hostname;
  buffer ← wr_bytes buffer q [0%Z];
  buffer ← wr_bytes buffer (q + 1) (net16 addrtype);
  buffer ← wr_bytes buffer (q + 3) (net16 DNS_RRCLASS_IN);
  Ret (buffer, q + 1 + SIZEOF_DNS_QUESTION, id).

(** * Responses *)

(** [skip_dns_name(buffer + ptr, remaining_bytes)], as an offset in the buffer. *)
Fixpoint skip_labels (fuel : nat) (buffer : list Z) (ptr remaining_bytes offset : nat)
    : outcome (option nat) :=
  match fuel with
  | O => OutOfFuel
  | S fuel =>
      if remaining_bytes <=? offset then Ret None
      else
        c ← rd buffer (ptr + offset);
        if (c =? 0)%Z then Ret (Some (ptr + (offset + 1)))
        else if (Z.land c 0xC0 =? 0xC0)%Z then
          if remaining_bytes - offset <? 2 then Ret None else Ret (Some (ptr + (offset + 2)))
        else if (63 <? c)%Z then Ret None
        else if remaining_bytes - offset <? Z.to_nat c + 1 then Ret None
        else skip_labels fuel buffer ptr remaining_bytes (offset + (Z.to_nat c + 1))
  end.

Definition skip_dns_name (buffer : list Z) (ptr remaining_bytes : nat) : outcome (option nat) :=
  skip_labels (S remaining_bytes) buffer ptr remaining_bytes 0.

(** [memcpy(&answers[i].ip, ptr, n)] and [IP_SET_TYPE]. *)
Definition copy_ip (a : ip_addr_t) (buffer : list Z) (ptr n : nat) (type : Z)
    : outcome ip_addr_t :=
  bs ← rd_bytes buffer ptr n;
  u ← wr_bytes (u_addr a) 0 bs;
  Ret (mk_ip u type).

(** The type switch on one answer. *)
Definition store_answer (buffer : list Z) (ptr : nat) (type data_len : Z) (a : dns_answer_storage_t)
    : outcome dns_answer_storage_t :=
  if (type =? DNS_RRTYPE_A)%Z && (data_len =? 4)%Z then
    i ← copy_ip (ip a) buffer ptr 4 IPADDR_TYPE_V4; Ret (mk_answer ERR_OK i)
  else if (type =? DNS_RRTYPE_AAAA)%Z && (data_len =? 16)%Z then
    i ← copy_ip (ip a) buffer ptr 16 IPADDR_TYPE_V6; Ret (mk_answer ERR_OK i)
  else Ret (mk_answer ERR_VAL (ip a)).

(** The [for] loop over the answers, from answer [i], [n] of them left. *)
Fixpoint parse_answers (n i : nat) (buffer : list Z) (buffer_end ptr : nat) (r : dns_response_t)
    : outcome dns_response_t :=
  match n with
  | O => Ret r
  | S n =>
      if buffer_end <? ptr then Ret (set_status r ERR_VAL)
      else
        p ← skip_dns_name buffer ptr (buffer_end - ptr);
        match p with
        | None => Ret (set_status r ERR_VAL)
        | Some ptr =>
            if buffer_end <? ptr + SIZEOF_DNS_ANSWER_FIXED then Ret (set_status r ERR_VAL)
            else
              type ← rd16 buffer ptr;
              class ← rd16 buffer (ptr + 2);
              ttl ← rd32 buffer (ptr + 4);
              data_len ← rd16 buffer (ptr + 8);
              let ptr := ptr + SIZEOF_DNS_ANSWER_FIXED in
              let next := ptr + Z.to_nat data_len in
              if buffer_end <? next then Ret (set_status r ERR_VAL)
              else
                old ← rd (answers r) i;
                a ← (if negb (class =? DNS_RRCLASS_IN)%Z || (DNS_MAX_TTL <? ttl)%Z
                     then Ret (mk_answer ERR_VAL (ip old))
                     else store_answer buffer ptr type data_len old);
                r ← set_answer r i a;
                parse_answers n (S i) buffer buffer_end next r
        end
  end.

Section Resolver.

(** [MAX_ANSWERS] is [CONFIG_LWIP_DNS_MAX_HOST_IP]; [DNS_MAX_HOST_IP] is lwIP's
    bound on the caller's array. *)
Context (MAX_ANSWERS DNS_MAX_HOST_IP : nat).

Definition esp_dns_parse_response (buffer : list Z) (response_size : Z) (r : dns_response_t)
    : outcome dns_response_t :=
  let r := set_status r ERR_OK in
  if (response_size <? Z.of_nat SIZEOF_DNS_HEADER)%Z then Ret (set_status r ERR_VAL)
  else
    answer_count ← rd16 buffer 6;
    hid ← rd16 buffer 0;
    if negb (hid =? id r)%Z || (answer_count =? 0)%Z then Ret (set_status r ERR_VAL)
    else
      let n := if (answer_count <? Z.of_nat MAX_ANSWERS)%Z then Z.to_nat answer_count
               else MAX_ANSWERS in
      let r := mk_response (status_code r) (id r) n (answers r) in
      let ptr := SIZEOF_DNS_HEADER in
      let buffer_end := Z.to_nat response_size in
      if buffer_end <? ptr then Ret (set_status r ERR_VAL)
      else
        p ← skip_dns_name buffer ptr (buffer_end - ptr);
        match p with
        | None => Ret (set_status r ERR_VAL)
        | Some ptr =>
            if buffer_end <? ptr + SIZEOF_DNS_QUESTION then Ret (set_status r ERR_VAL)
            else parse_answers n 0 buffer buffer_end (ptr + SIZEOF_DNS_QUESTION) r
        end.

(** The [for] loop of the extraction: answers [i] and following, [n] left. *)
Fixpoint extract (n i count : nat) (a : list dns_answer_storage_t) (ipaddr : list ip_addr_t)
    : outcome (nat * list ip_addr_t) :=
  match n with
  | O => Ret (count, ipaddr)
  | S n =>
      if count <? DNS_MAX_HOST_IP then
        x ← rd a i;
        if bool_decide (status x = ERR_OK) then
          if count <? length ipaddr then extract n (S i) (S count) a (<[count:=ip x]> ipaddr)
          else BadAccess
        else extract n (S i) count a ipaddr
      else Ret (count, ipaddr)
  end.

(** The caller's array is the one [memset] clears: [DNS_MAX_HOST_IP] entries. *)
Definition esp_dns_extract_ip_addresses_from_response (r : dns_response_t)
    : outcome (err_t * list ip_addr_t) :=
  let ipaddr := replicate DNS_MAX_HOST_IP ip_zero in
  if bool_decide (status_code r = ERR_OK) then
    '(count, ipaddr) ← extract (num_answers r) 0 0 (answers r) ipaddr;
    Ret (if count =? 0 then ERR_VAL else ERR_OK, ipaddr)
  else Ret (status_code r, ipaddr).

(** * The handle *)

Inductive esp_dns_protocol_type_t :=
| ESP_DNS_PROTOCOL_UDP | ESP_DNS_PROTOCOL_TCP | ESP_DNS_PROTOCOL_DOT | ESP_DNS_PROTOCOL_DOH.

#[export] Instance protocol_eq_dec : EqDecision esp_dns_protocol_type_t.
Proof. solve_decision. Defined.

Record esp_dns_config_t := mk_config {
  protocol : esp_dns_protocol_type_t;
  dns_server : cstr;
  cfg_port : Z;
  timeout_ms : Z;
  cert_pem : option cstr;
  crt_bundle_attach : bool;
  url_path : option cstr;
}.

(** [response_buffer_t] and [struct esp_dns_handle]. *)
Record response_buffer_t := mk_rbuf {
  rb_buffer : option (list Z);
  rb_length : Z;
  dns_response : dns_response_t;
}.

Record esp_dns_handle := mk_handle {
  h_config : esp_dns_config_t;
  initialized : bool;
  response_buffer : response_buffer_t;
  lock : bool;
}.

Definition set_rbuf (h : esp_dns_handle) (b : response_buffer_t) : esp_dns_handle :=
  mk_handle (h_config h) (initialized h) b (lock h).

(** [memset(&handle->response_buffer, 0, sizeof(response_buffer_t))]. *)
Definition rbuf_zero : response_buffer_t :=
  mk_rbuf None 0 (mk_response ERR_OK 0 0 (replicate MAX_ANSWERS (mk_answer ERR_OK ip_zero))).

Definition set_id (b : response_buffer_t) (i : Z) : response_buffer_t :=
  mk_rbuf (rb_buffer b) (rb_length b)
    (mk_response (status_code (dns_response b)) i (num_answers (dns_response b))
       (answers (dns_response b))).

(** * Resolution over a stream (TCP and TLS) *)

(** [esp_transport]: whether a transport could be created, the results of
    connect and write, and what a read of at most [n] bytes delivers after a
    query was written: its return value and the bytes. *)
Record transport := mk_transport {
  t_init : bool;
  t_connect : cstr -> Z -> Z -> Z;
  t_write : list Z -> Z;
  t_read : list Z -> nat -> Z * list Z;
}.

(** From the connect call on: both resolvers have these steps.  [len] is an
    [int] compared with [size_t] operands, so it is taken modulo [2^32]. *)
Definition stream_exchange (t : transport) (h : esp_dns_handle) (buffer : list Z)
    (query_size : nat) (port timeout : Z)
    : outcome (err_t * option (list ip_addr_t) * esp_dns_handle) :=
  if (t_connect t (dns_server (h_config h)) port timeout <? 0)%Z then Ret (ERR_CONN, None, h)
  else
    q ← rd_bytes buffer 0 (query_size + 2);
    if (t_write t q <? 0)%Z then Ret (ERR_ABRT, None, h)
    else
      let '(len, bytes) := t_read t q ESP_DNS_BUFFER_SIZE in
      buffer ← wr_bytes (replicate ESP_DNS_BUFFER_SIZE 0%Z) 0 bytes;
      if (Z.of_nat (2 + SIZEOF_DNS_HEADER) <=? u32 len)%Z then
        expected_len ← rd16 buffer 0;
        if (u32 (len - 2) <? expected_len)%Z then Ret (ERR_ABRT, None, h)
        else
          r ← esp_dns_parse_response (drop 2 buffer) (u32 (len - 2))
                (dns_response (response_buffer h));
          let h := set_rbuf h (mk_rbuf (Some (drop 2 buffer)) (len - 2) r) in
          '(err, addr) ← esp_dns_extract_ip_addresses_from_response r;
          Ret (err, Some addr, h)
      else Ret (ERR_ABRT, None, h).

(** The query with its two-byte length prefix, in a zeroed buffer. *)
Definition framed_query (rnd : Z) (name : cstr) (rrtype : Z) : outcome (list Z * nat * Z) :=
  '(qb, query_size, id) ← esp_dns_create_query rnd (ESP_DNS_BUFFER_SIZE - 2) name rrtype;
  Ret (net16 (Z.of_nat query_size) ++ qb, query_size, id).

(** [dns_resolve_tcp]; the caller's array is returned when it was written. *)
Definition dns_resolve_tcp (rnd : Z) (t : transport) (h : esp_dns_handle) (name : cstr)
    (addr_is_null : bool) (rrtype : Z)
    : outcome (err_t * option (list ip_addr_t) * esp_dns_handle) :=
  if addr_is_null then Ret (ERR_ARG, None, h)
  else
    let timeout := if (timeout_ms (h_config h) =? 0)%Z then ESP_DNS_DEFAULT_TIMEOUT_MS else timeout_ms (h_config h) in
    let port := if (cfg_port (h_config h) =? 0)%Z then ESP_DNS_DEFAULT_TCP_PORT else cfg_port (h_config h) in
    let h := set_rbuf h rbuf_zero in
    match framed_query rnd name rrtype with
    | Failed => Ret (ERR_MEM, None, set_rbuf h (set_id rbuf_zero (Z.land rnd 0xFFFF)))
    | BadAccess => BadAccess
    | OutOfFuel => OutOfFuel
    | Ret (buffer, query_size, id) =>
        let h := set_rbuf h (set_id rbuf_zero id) in
        if negb (t_init t) then Ret (ERR_MEM, None, h)
        else stream_exchange t h buffer query_size port timeout
    end.

Definition dns_resolve_dot (rnd : Z) (t : transport) (h : esp_dns_handle) (name : cstr)
    (addr_is_null : bool) (rrtype : Z)
    : outcome (err_t * option (list ip_addr_t) * esp_dns_handle) :=
  if addr_is_null then Ret (ERR_ARG, None, h)
  else
    let timeout := if (timeout_ms (h_config h) =? 0)%Z then ESP_DNS_DEFAULT_TIMEOUT_MS else timeout_ms (h_config h) in
    let port := if (cfg_port (h_config h) =? 0)%Z then ESP_DNS_DEFAULT_DOT_PORT else cfg_port (h_config h) in
    let h := set_rbuf h rbuf_zero in
    match framed_query rnd name rrtype with
    | Failed => Ret (ERR_MEM, None, set_rbuf h (set_id rbuf_zero (Z.land rnd 0xFFFF)))
    | BadAccess => BadAccess
    | OutOfFuel => OutOfFuel
    | Ret (buffer, query_size, id) =>
        let h := set_rbuf h (set_id rbuf_zero id) in
        if negb (t_init t) then Ret (ERR_MEM, None, h)
        else if negb (crt_bundle_attach (h_config h))
             && bool_decide (cert_pem (h_config h) = None) then Ret (ERR_VAL, None, h)
        else stream_exchange t h buffer query_size port timeout
    end.

(** * Resolution over HTTPS *)

Inductive esp_err_t := ESP_OK | ESP_ERR_INVALID_ARG | ESP_ERR_NO_MEM.

(** The events of the HTTP client that the handler acts on.  A data event
    carries the chunk and whether the allocation it needs succeeds; the end of
    the response carries the client's status code. *)
Inductive http_event :=
| HTTP_EVENT_ON_DATA (data : list Z) (alloc : bool)
| HTTP_EVENT_ON_FINISH (code : Z)
| HTTP_EVENT_OTHER.

Definition HttpStatus_Ok : Z := 200.

(** [realloc(b, n)]: the old contents, then bytes of no particular value. *)
Definition realloc (b : list Z) (n : nat) : list Z := take n b ++ replicate (n - length b) 0%Z.

Definition on_data (b : response_buffer_t) (data : list Z) (alloc : bool)
    : outcome (esp_err_t * response_buffer_t) :=
  match rb_buffer b with
  | None =>
      if length data =? 0 then Ret (ESP_ERR_INVALID_ARG, b)
      else if alloc
      then Ret (ESP_OK, mk_rbuf (Some data) (Z.of_nat (length data)) (dns_response b))
      else Ret (ESP_ERR_NO_MEM, b)
  | Some old =>
      let new_len := (rb_length b + Z.of_nat (length data))%Z in
      if (new_len =? 0)%Z then Ret (ESP_ERR_INVALID_ARG, b)
      else if alloc then
        bs ← wr_bytes (realloc old (Z.to_nat new_len)) (Z.to_nat (rb_length b)) data;
        Ret (ESP_OK, mk_rbuf (Some bs) new_len (dns_response b))
      else Ret (ESP_ERR_NO_MEM, b)
  end.

Definition on_finish (b : response_buffer_t) (code : Z) : outcome response_buffer_t :=
  r ← (if (code =? HttpStatus_Ok)%Z then
         if (Z.of_nat SIZEOF_DNS_HEADER <=? rb_length b)%Z then
           match rb_buffer b with
           | Some bs => esp_dns_parse_response bs (rb_length b) (dns_response b)
           | None => BadAccess
           end
         else Ret (set_status (dns_response b) ERR_VAL)
       else Ret (set_status (dns_response b) ERR_VAL));
  Ret (mk_rbuf None 0 r).

Definition esp_dns_http_event_handler (h : esp_dns_handle) (evt : http_event)
    : outcome (esp_err_t * esp_dns_handle) :=
  match evt with
  | HTTP_EVENT_ON_DATA data alloc =>
      '(e, b) ← on_data (response_buffer h) data alloc; Ret (e, set_rbuf h b)
  | HTTP_EVENT_ON_FINISH code =>
      b ← on_finish (response_buffer h) code; Ret (ESP_OK, set_rbuf h b)
  | HTTP_EVENT_OTHER => Ret (ESP_OK, h)
  end.

(** The client calls the handler on its events in order. *)
Fixpoint run_events (h : esp_dns_handle) (l : list http_event) : outcome esp_dns_handle :=
  match l with
  | [] => Ret h
  | e :: l => '(_, h) ← esp_dns_http_event_handler h e; run_events h l
  end.

(** The HTTP client: allocation of the URL, creation, the two setters, and what
    performing a POST does: its result, the events and the final status. *)
Record http_client := mk_http {
  url_alloc : bool;
  http_init : cstr -> Z -> bool;
  set_header : bool;
  set_post_field : list Z -> bool;
  http_perform : cstr -> list Z -> bool * list http_event * Z;
}.

Definition doh_url (c : esp_dns_config_t) : cstr :=
  str "https://" ++ dns_server c ++ str "/"
    ++ match url_path c with Some p => p | None => str "dns-query" end.

Definition dns_resolve_doh (rnd : Z) (client : http_client) (h : esp_dns_handle) (name : cstr)
    (rrtype : Z) : outcome (err_t * option (list ip_addr_t) * esp_dns_handle) :=
  let port := if (cfg_port (h_config h) =? 0)%Z then ESP_DNS_DEFAULT_DOH_PORT
              else cfg_port (h_config h) in
  let url := doh_url (h_config h) in
  if negb (url_alloc client) then Ret (ERR_MEM, None, h)
  else
    let h := set_rbuf h rbuf_zero in
    match esp_dns_create_query rnd ESP_DNS_BUFFER_SIZE name rrtype with
    | Failed => Ret (ERR_MEM, None, set_rbuf h (set_id rbuf_zero (Z.land rnd 0xFFFF)))
    | BadAccess => BadAccess
    | OutOfFuel => OutOfFuel
    | Ret (buffer_qry, query_size, id) =>
        let h := set_rbuf h (set_id rbuf_zero id) in
        if negb (http_init client url port) then Ret (ERR_VAL, None, h)
        else if negb (set_header client) then Ret (ERR_VAL, None, h)
        else
          q ← rd_bytes buffer_qry 0 query_size;
          if negb (set_post_field client q) then Ret (ERR_VAL, None, h)
          else
            let '(ok, events, code) := http_perform client url q in
            h ← run_events h events;
            if negb ok then Ret (ERR_VAL, None, h)
            else if negb (code =? HttpStatus_Ok)%Z
                    || negb (bool_decide (status_code (dns_response (response_buffer h)) = ERR_OK))
            then Ret (ERR_ARG, None, h)
            else
              '(err, addr) ← esp_dns_extract_ip_addresses_from_response
                               (dns_response (response_buffer h));
              Ret (err, Some addr, h)
    end.

(** * The lwIP hook *)

Inductive netconn_dns := NETCONN_DNS_IPV4 | NETCONN_DNS_IPV6 | NETCONN_DNS_IPV4_IPV6
| NETCONN_DNS_IPV6_IPV4 | NETCONN_DNS_OTHER.

(** [lwip_hook_netconn_external_resolve] for non-null arguments, with [g] the
    global handle, [aton] lwIP's [ipaddr_aton] and [loopif] the value of
    [LWIP_HAVE_LOOPIF].  The result: the return value, [*err] when it was
    written, the addresses when they were written, and the handle. *)
Definition lwip_hook_netconn_external_resolve (rnd : Z) (tcp tls : transport)
    (client : http_client) (aton : cstr -> option ip_addr_t) (loopif : bool)
    (g : option esp_dns_handle) (name : cstr) (addrtype : netconn_dns)
    : outcome (Z * option err_t * option (list ip_addr_t) * option esp_dns_handle) :=
  match g with
  | None => Ret (0%Z, Some ERR_OK, None, None)
  | Some h =>
      match aton name with
      | Some a => Ret (0%Z, Some ERR_OK, Some [a], Some h)
      | None =>
          if bool_decide (name = dns_server (h_config h))
             || (loopif && bool_decide (name = str "localhost"))
          then Ret (0%Z, None, None, Some h)
          else
            let rrtype :=
              match addrtype with
              | NETCONN_DNS_IPV4 | NETCONN_DNS_IPV4_IPV6 => Some DNS_RRTYPE_A
              | NETCONN_DNS_IPV6 | NETCONN_DNS_IPV6_IPV4 => Some DNS_RRTYPE_AAAA
              | NETCONN_DNS_OTHER => None
              end in
            match rrtype with
            | None => Ret (1%Z, Some ERR_VAL, None, Some h)
            | Some rrtype =>
                let handled (m : outcome (err_t * option (list ip_addr_t) * esp_dns_handle)) :=
                  '(e, a, h) ← m; Ret (1%Z, Some e, a, Some h) in
                match protocol (h_config h) with
                | ESP_DNS_PROTOCOL_UDP => Ret (0%Z, None, None, Some h)
                | ESP_DNS_PROTOCOL_TCP => handled (dns_resolve_tcp rnd tcp h name false rrtype)
                | ESP_DNS_PROTOCOL_DOT => handled (dns_resolve_dot rnd tls h name false rrtype)
                | ESP_DNS_PROTOCOL_DOH => handled (dns_resolve_doh rnd client h name rrtype)
                end
            end
      end
  end.

(** * Life cycle *)

(** The globals of esp_dns.c: whether [s_dns_global_mutex] exists, whether
    [g_dns_handle] points at the singleton, and the singleton itself. *)
Record dns_globals := mk_globals {
  global_mutex : bool;
  g_dns_handle : bool;
  instance : esp_dns_handle;
}.

Definition config_zero : esp_dns_config_t :=
  mk_config ESP_DNS_PROTOCOL_UDP [] 0 0 None false None.

Definition handle_zero : esp_dns_handle := mk_handle config_zero false rbuf_zero false.

Definition dns_globals_init : dns_globals := mk_globals false false handle_zero.

(** What the semaphore calls of one operation return: creation of the global
    mutex, taking it, creation or taking of the handle's lock. *)
Record sem_results := mk_sem { sem_create : bool; sem_take : bool; sem_lock : bool }.

(** [esp_dns_init]: true stands for the singleton's address, false for null.
    Releasing the static singleton with [free] is a bad access. *)
Definition esp_dns_init (sem : sem_results) (config : esp_dns_config_t) (g : dns_globals)
    : outcome (bool * dns_globals) :=
  if negb (global_mutex g) && negb (sem_create sem) then Ret (false, g)
  else
    let g := mk_globals true (g_dns_handle g) (instance g) in
    if negb (sem_take sem) then Ret (false, g)
    else if g_dns_handle g then Ret (false, g)
    else if negb (sem_lock sem) then BadAccess
    else Ret (true, mk_globals true true
                      (mk_handle config true (response_buffer (instance g)) true)).

(** [esp_dns_cleanup] on the singleton; taking a lock that is null is a bad
    access. *)
Definition esp_dns_cleanup (sem : sem_results) (g : dns_globals) : outcome (Z * dns_globals) :=
  let h := instance g in
  if negb (lock h) then BadAccess
  else if negb (sem_lock sem) then Ret ((-1)%Z, g)
  else
    let cleared := if global_mutex g && sem_take sem then false else g_dns_handle g in
    Ret (0%Z, mk_globals (global_mutex g) cleared
                (mk_handle (h_config h) false (response_buffer h) (lock h))).

(** What the four pairs of entry points share: they set the configuration's
    protocol, and on cleanup check it and clear the handle. *)
Definition with_protocol (p : esp_dns_protocol_type_t) (c : esp_dns_config_t) : esp_dns_config_t :=
  mk_config p (dns_server c) (cfg_port c) (timeout_ms c) (cert_pem c) (crt_bundle_attach c)
    (url_path c).

Definition init_as (p : esp_dns_protocol_type_t) (sem : sem_results)
    (config : option esp_dns_config_t) (g : dns_globals) : outcome (bool * dns_globals) :=
  match config with
  | None => Ret (false, g)
  | Some c => esp_dns_init sem (with_protocol p c) g
  end.


(** [handle] is null or the singleton. *)
Definition cleanup_as (p : esp_dns_protocol_type_t) (sem : sem_results) (handle_null : bool)
    (g : dns_globals) : outcome (Z * dns_globals) :=
  if handle_null then Ret ((-1)%Z, g)
  else if negb (bool_decide (protocol (h_config (instance g)) = p)) then Ret ((-1)%Z, g)
  else
    '(ret, g) ← esp_dns_cleanup sem g;
    if negb (ret =? 0)%Z then Ret (ret, g)
    else Ret (0%Z, mk_globals (global_mutex g) (g_dns_handle g) handle_zero).

Definition esp_dns_init_udp := init_as ESP_DNS_PROTOCOL_UDP.
Definition esp_dns_init_tcp := init_as ESP_DNS_PROTOCOL_TCP.
Definition esp_dns_init_dot := init_as ESP_DNS_PROTOCOL_DOT.
Definition esp_dns_init_doh := init_as ESP_DNS_PROTOCOL_DOH.
Definition esp_dns_cleanup_udp := cleanup_as ESP_DNS_PROTOCOL_UDP.
Definition esp_dns_cleanup_tcp := cleanup_as ESP_DNS_PROTOCOL_TCP.
Definition esp_dns_cleanup_dot := cleanup_as ESP_DNS_PROTOCOL_DOT.
Definition esp_dns_cleanup_doh := cleanup_as ESP_DNS_PROTOCOL_DOH.

End Resolver.
