(* ===== verification/EspDnsProofs.v ===== *)
(** Correctness of the DNS client: every routine stays inside its buffers, a
    query has the wire format of its host name, a well-formed response is
    parsed to exactly the addresses it carries, and a resolution over TCP or
    TLS returns the addresses the server sent. *)
From S2P Require Import Prelude EspDns.

(** * Fields of a message *)

Lemma rd16_has b i v : u16_ok v -> has b i (net16 v) -> rd16 b i = Ret v.
Proof.
  intros Hv H. unfold rd16, net16 in *. rewrite (rd_has _ _ _ _ H). simpl.
  apply has_cons in H as [_ H]. rewrite (rd_has _ _ _ _ H). simpl. by rewrite be16_split.
Qed.

Definition net32 (v : Z) : list Z :=
  [u8 (Z.shiftr v 24); u8 (Z.shiftr v 16); u8 (Z.shiftr v 8); u8 v].

Lemma rd32_has b i v : u32_ok v -> has b i (net32 v) -> rd32 b i = Ret v.
Proof.
  intros Hv H. unfold rd32, net32 in *. rewrite (rd_has _ _ _ _ H); simpl.
  apply has_cons in H as [_ H]. rewrite (rd_has _ _ _ _ H); simpl.
  apply has_cons in H as [_ H]. replace (i + 1 + 1) with (i + 2) in H by lia.
  rewrite (rd_has _ _ _ _ H); simpl.
  apply has_cons in H as [_ H]. replace (i + 2 + 1) with (i + 3) in H by lia.
  rewrite (rd_has _ _ _ _ H); simpl. by rewrite be32_split.
Qed.

Lemma rd16_ok b i : i + 1 < length b -> Forall byte_ok b -> returns (rd16 b i) u16_ok.
Proof.
  intros Hi Hb. unfold rd16.
  eapply returns_bind; [apply rd_ok; lia|]. intros hi Hhi.
  eapply returns_bind; [apply rd_ok; lia|]. intros lo Hlo. simpl.
  apply be16_range; [exact (Forall_lookup_1 _ _ _ _ Hb Hhi)|exact (Forall_lookup_1 _ _ _ _ Hb Hlo)].
Qed.

Lemma rd32_ok b i : i + 3 < length b -> returns (rd32 b i) (fun _ => True).
Proof.
  intros Hi. unfold rd32. do 4 (eapply returns_bind; [apply rd_ok; lia|]; intros ? _). done.
Qed.

(** * Skipping a name *)

Lemma skip_labels_ok fuel b ptr rem off :
  ptr + rem <= length b -> rem - off < fuel -> off <= rem -> Forall byte_ok b ->
  returns (skip_labels fuel b ptr rem off)
    (fun r => match r with Some p => ptr + off < p <= ptr + rem | None => True end).
Proof.
  revert off; induction fuel as [|fuel IH]; intros off Hl Hf Ho Hb; [lia|].
  cbn [skip_labels]. case_on_goal; bsimp; [done|].
  eapply returns_bind; [apply rd_ok; lia|]. intros c Hc.
  assert (byte_ok c) as Hcb by exact (Forall_lookup_1 _ _ _ _ Hb Hc). unfold byte_ok in Hcb.
  case_on_goal; bsimp; [simpl; lia|].
  case_on_goal; bsimp; [case_on_goal; bsimp; simpl; [done|lia]|].
  case_on_goal; bsimp; [done|]. case_on_goal; bsimp; [done|].
  eapply returns_mono; [apply IH; try done; lia|]. intros [p|]; [lia|done].
Qed.

(** The names a message may hold: labels up to a zero byte or up to a
    compression pointer. *)
Inductive wire_name : list Z -> Prop :=
| wire_end : wire_name [0%Z]
| wire_ptr hi lo : (192 <= hi < 256)%Z -> byte_ok lo -> wire_name [hi; lo]
| wire_label l rest : 0 < length l < 64 -> wire_name rest ->
    wire_name (Z.of_nat (length l) :: l ++ rest).

Lemma wire_name_nonempty n : wire_name n -> 0 < length n.
Proof. destruct 1; simpl; lia. Qed.

Lemma land_ptr hi : (192 <= hi < 256)%Z -> Z.land hi 0xC0 = 0xC0%Z.
Proof.
  intros H. assert (Hin : In (Z.to_nat hi) (seq 192 64)) by (apply in_seq; lia).
  rewrite <- (Z2Nat.id hi) by lia. revert Hin.
  apply (proj1 (List.Forall_forall (fun k => Z.land (Z.of_nat k) 0xC0 = 0xC0%Z) _)).
  repeat constructor.
Qed.

Lemma skip_labels_wire n : wire_name n -> forall fuel b ptr rem off,
  has b (ptr + off) n -> off + length n <= rem -> length n <= fuel ->
  skip_labels fuel b ptr rem off = Ret (Some (ptr + (off + length n))).
Proof.
  induction 1 as [|hi lo Hhi Hlo|l rest Hl Hrest IH]; intros fuel b ptr rem off Hh Hr Hf;
    (destruct fuel as [|fuel]; [simpl in Hf; lia|]); cbn [skip_labels];
    simpl in Hr, Hf; (rewrite (proj2 (Nat.leb_gt _ _)) by lia);
    rewrite (rd_has _ _ _ _ Hh); cbn -[Z.land Z.to_nat Nat.ltb Nat.sub Z.of_nat].
  - done.
  - rewrite (proj2 (Z.eqb_neq hi 0)) by lia. rewrite land_ptr, Z.eqb_refl by done.
    rewrite (proj2 (Nat.ltb_ge _ _)) by lia. done.
  - rewrite (proj2 (Z.eqb_neq _ 0)) by lia.
    rewrite (proj2 (Z.eqb_neq (Z.land _ _) _)).
    2:{ intros E. assert (Z.testbit (Z.of_nat (length l)) 7 = true) as Hb.
        { apply (f_equal (fun z => Z.testbit z 7)) in E. rewrite Z.land_spec in E.
          by rewrite andb_true_r in E. }
        rewrite Z.bits_above_log2 in Hb; [done|lia|].
        apply Z.log2_lt_pow2; lia. }
    rewrite (proj2 (Z.ltb_ge _ _)) by lia. rewrite Nat2Z.id.
    rewrite length_app in Hr, Hf. rewrite (proj2 (Nat.ltb_ge _ _)) by lia.
    apply has_cons in Hh as [_ Hh]. apply has_app in Hh as [_ Hh].
    replace (ptr + off + 1 + length l) with (ptr + (off + (length l + 1))) in Hh by lia.
    rewrite IH; [|exact Hh|lia|lia].
    rewrite length_app. do 2 f_equal. lia.
Qed.

Lemma skip_dns_name_ok b ptr rem : ptr + rem <= length b -> Forall byte_ok b ->
  returns (skip_dns_name b ptr rem)
    (fun r => match r with Some p => ptr < p <= ptr + rem | None => True end).
Proof.
  intros Hl Hb. eapply returns_mono; [apply skip_labels_ok; auto; lia|].
  intros [p|]; [lia|done].
Qed.

Lemma skip_dns_name_wire b ptr rem n : wire_name n -> has b ptr n -> length n <= rem ->
  skip_dns_name b ptr rem = Ret (Some (ptr + length n)).
Proof.
  intros Hn Hh Hr. unfold skip_dns_name.
  rewrite (skip_labels_wire n Hn); [done| |lia|lia]. by rewrite Nat.add_0_r.
Qed.

(** * Parsing is safe *)

(** An address slot holds the sixteen bytes of the address union. *)
Definition slot_ok (a : dns_answer_storage_t) : Prop := length (u_addr (ip a)) = 16.

Definition response_ok (m : nat) (r : dns_response_t) : Prop :=
  length (answers r) = m /\ Forall slot_ok (answers r).

Lemma copy_ip_ok a b ptr n t : length (u_addr a) = 16 -> n <= 16 -> ptr + n <= length b ->
  returns (copy_ip a b ptr n t) (fun a => length (u_addr a) = 16).
Proof.
  intros Ha Hn Hp. unfold copy_ip. rewrite rd_bytes_ok by done. simpl.
  assert (length (take n (drop ptr b)) = n) as Hlen by (rewrite length_take, length_drop; lia).
  destruct (wr_bytes (u_addr a) 0 _) as [u| | |] eqn:E; cbn.
  1: by rewrite (wr_bytes_length _ _ _ _ E).
  all: rewrite wr_bytes_ok in E by lia; done.
Qed.

Lemma store_answer_ok b ptr type dl a : slot_ok a -> (0 <= dl)%Z -> ptr + Z.to_nat dl <= length b ->
  returns (store_answer b ptr type dl a) slot_ok.
Proof.
  intros Ha Hd Hp. unfold store_answer, slot_ok in *.
  case_on_goal; bsimp; [eapply returns_bind; [apply copy_ip_ok; try done; lia|]; done|].
  case_on_goal; bsimp; [eapply returns_bind; [apply copy_ip_ok; try done; lia|]; done|].
  done.
Qed.

Lemma set_answer_ok m r i a : response_ok m r -> slot_ok a -> i < m ->
  returns (set_answer r i a) (fun r' => response_ok m r' /\ id r' = id r
    /\ num_answers r' = num_answers r).
Proof.
  intros [Hl Hs] Ha Hi. unfold set_answer. rewrite Hl, (proj2 (Nat.ltb_lt _ _)) by done.
  split; [|done]. split; cbn [answers]; [by rewrite length_insert|by apply Forall_insert].
Qed.

Lemma parse_answers_ok n i b e ptr r m :
  response_ok m r -> i + n <= m -> e <= length b -> Forall byte_ok b ->
  returns (parse_answers n i b e ptr r) (fun r' => response_ok m r' /\ id r' = id r
    /\ num_answers r' = num_answers r).
Proof.
  revert i ptr r; induction n as [|n IH]; intros i ptr r Hr Hi He Hb; [done|].
  cbn [parse_answers]. case_on_goal; bsimp; [done|].
  eapply returns_bind; [apply skip_dns_name_ok; [lia|done]|]. intros [p|] Hp; [|done].
  case_on_goal; bsimp; [done|]. unfold SIZEOF_DNS_ANSWER_FIXED in *.
  eapply returns_bind; [apply rd16_ok; [lia|done]|]. intros type _.
  eapply returns_bind; [apply rd16_ok; [lia|done]|]. intros class _.
  eapply returns_bind; [apply rd32_ok; lia|]. intros ttl _.
  eapply returns_bind; [apply rd16_ok; [lia|done]|]. intros dl [Hdl _].
  cbn zeta. case_on_goal; bsimp; [done|]. pose proof Hr as [Hlen Hs].
  eapply returns_bind; [apply rd_ok; lia|]. intros old Hold.
  assert (slot_ok old) as Ho by exact (Forall_lookup_1 _ _ _ _ Hs Hold).
  eapply (returns_bind _ _ slot_ok).
  { case_on_goal; [exact Ho|]. apply store_answer_ok; [done|done|lia]. }
  intros a Ha. eapply returns_bind; [apply set_answer_ok; [exact Hr|exact Ha|lia]|].
  intros r' (Hr' & <- & <-). apply IH; [done|lia|done|done].
Qed.

(** The parser on any bytes: it returns, it keeps the caller's identifier, the
    answers array keeps its size, the answers it reports lie in the array, and
    it reports success only for a response with the identifier of the query
    and at least one answer. *)
Lemma parse_response_ok m b size r :
  response_ok m r -> (size <= Z.of_nat (length b))%Z -> Forall byte_ok b ->
  returns (esp_dns_parse_response m b size r)
    (fun r' => response_ok m r' /\ id r' = id r
       /\ (status_code r' = ERR_OK -> num_answers r' <= m /\ rd16 b 0 = Ret (id r))).
Proof.
  intros Hr Hsz Hb. unfold esp_dns_parse_response, SIZEOF_DNS_HEADER, SIZEOF_DNS_QUESTION in *.
  case_on_goal; bsimp; [done|].
  eapply returns_bind; [apply rd16_ok; [lia|done]|]. intros ac [Hac _].
  destruct (rd16 b 0) as [hid| | |] eqn:Eid;
    [|pose proof (rd16_ok b 0 ltac:(lia) Hb) as H0; rewrite Eid in H0; done..].
  cbn [mbind outcome_bind id set_status].
  destruct (Z.eqb_spec hid (id r)) as [->|Hne]; [|done]. cbn [negb orb].
  case_on_goal; [done|]. bsimp. cbn zeta.
  set (n := if (ac <? Z.of_nat m)%Z then Z.to_nat ac else m).
  assert (n <= m) as Hn by (unfold n; case_on_goal; bsimp; lia).
  case_on_goal; bsimp; [done|].
  eapply returns_bind; [apply skip_dns_name_ok; [lia|done]|]. intros [p|] Hp; [|done].
  case_on_goal; bsimp; [done|].
  eapply returns_mono; [apply (parse_answers_ok _ _ _ _ _ _ m); [|lia|lia|done]|].
  { exact Hr. }
  intros r' (Hr' & Hid & Hnum). cbn in Hid, Hnum. split; [done|]. split; [done|].
  intros _. by rewrite Hnum.
Qed.

(** * Queries *)

(** Labels of a host name, the name with dots, and its wire format. *)
Definition label_ok (l : cstr) : Prop :=
  0 < length l < 64 /\ Forall (fun c => (0 < c < 256)%Z /\ c <> 46%Z) l.

Fixpoint dotted (ls : list cstr) : cstr :=
  match ls with
  | [] => []
  | [l] => l
  | l :: ls => l ++ 46%Z :: dotted ls
  end.

Definition wire_labels (ls : list cstr) : list Z :=
  concat (map (fun l => Z.of_nat (length l) :: l) ls).

Definition wire_qname (ls : list cstr) : list Z := wire_labels ls ++ [0%Z].

(** The message a query for [ls] is. *)
Definition query_message (id : Z) (ls : list cstr) (type : Z) : list Z :=
  net16 id ++ net16 0x0100 ++ net16 1 ++ replicate 6 0%Z ++ wire_qname ls
    ++ net16 type ++ net16 DNS_RRCLASS_IN.

Lemma wr_zeros pre k bs : length bs <= k ->
  wr_bytes (pre ++ replicate k 0%Z) (length pre) bs
  = Ret ((pre ++ bs) ++ replicate (k - length bs) 0%Z).
Proof.
  intros H. rewrite wr_bytes_ok by (rewrite length_app, length_replicate; lia).
  rewrite take_app_length, <- drop_drop, drop_app_length, drop_replicate. by rewrite app_assoc.
Qed.

Lemma wr_zeros_at b q pre k bs : b = pre ++ replicate k 0%Z -> q = length pre -> length bs <= k ->
  wr_bytes b q bs = Ret ((pre ++ bs) ++ replicate (k - length bs) 0%Z).
Proof. intros -> ->. apply wr_zeros. Qed.

Lemma next_dot_label l rest : label_ok l -> (rest = [] \/ exists r, rest = 46%Z :: r) ->
  next_dot (l ++ rest) = (l, rest).
Proof.
  intros [_ Hl] Hr. induction Hl as [|c l [_ Hc] _ IH]; simpl.
  - by destruct Hr as [->|[r ->]].
  - rewrite (proj2 (Z.eqb_neq c 46) Hc), IH. done.
Qed.

Lemma query_labels_wire ls : Forall label_ok ls -> forall fuel pre k n,
  n = length pre + k -> length (wire_labels ls) <= k -> length (dotted ls) < fuel ->
  query_labels fuel (pre ++ replicate k 0%Z) n (length pre) (dotted ls)
  = Ret ((pre ++ wire_labels ls) ++ replicate (k - length (wire_labels ls)) 0%Z,
         length pre + length (wire_labels ls)).
Proof.
  induction 1 as [|l ls Hl Hls IH]; intros fuel pre k n -> Hk Hf;
    (destruct fuel as [|fuel]; [lia|]).
  { cbn. by rewrite app_nil_r, Nat.sub_0_r, Nat.add_0_r. }
  assert (exists tl, dotted (l :: ls) = l ++ tl /\ (tl = [] \/ exists r, tl = 46%Z :: r)
    /\ (match tl with [] => [] | _ :: r => r end) = dotted ls) as (tl & Ed & Htl & Etl).
  { destruct ls as [|l' ls]; [exists []; rewrite app_nil_r; eauto|].
    exists (46%Z :: dotted (l' :: ls)); eauto. }
  assert (length (dotted ls) < fuel) as Hfuel.
  { rewrite Ed, length_app in Hf. destruct Hl as [Hl _].
    destruct tl; simpl in Etl; rewrite <- Etl; simpl in *; lia. }
  assert (Hlen : wire_labels (l :: ls) = (Z.of_nat (length l) :: l) ++ wire_labels ls) by done.
  rewrite Hlen, length_app in Hk |- *. simpl length in Hk. simpl length at 2 3.
  rewrite Ed. cbn [query_labels]. pose proof Hl as [Hl0 _].
  destruct (l ++ tl) as [|c s] eqn:Ec; [destruct l; simpl in *; [lia|done]|].
  rewrite <- Ec, next_dot_label by done.
  rewrite u8_small by lia. rewrite wr_zeros by (simpl; lia).
  cbn [mbind outcome_bind]. rewrite (proj2 (Nat.ltb_ge _ _)) by lia.
  rewrite Nat2Z.id, firstn_all.
  replace (length pre + 1) with (length (pre ++ [Z.of_nat (length l)])) by (rewrite length_app; done).
  rewrite wr_zeros by (simpl; lia). cbn [mbind outcome_bind].
  replace (length (pre ++ [Z.of_nat (length l)]) + length l)
    with (length ((pre ++ [Z.of_nat (length l)]) ++ l)) by (rewrite !length_app; done).
  rewrite Etl, IH; [|rewrite !length_app; simpl; lia|simpl; lia|done].
  f_equal. f_equal; [|rewrite !length_app; simpl; lia].
  rewrite <- !app_assoc. simpl. do 4 f_equal. f_equal. lia.
Qed.

Lemma create_query_wire rnd n ls type :
  Forall label_ok ls ->
  length (query_message (Z.land rnd 0xFFFF) ls type) <= n ->
  let m := query_message (Z.land rnd 0xFFFF) ls type in
  esp_dns_create_query rnd n (dotted ls) type
  = Ret (m ++ replicate (n - length m) 0%Z, length m, Z.land rnd 0xFFFF).
Proof.
  intros Hls Hn m. set (i := Z.land rnd 0xFFFF) in *.
  assert (length m = 12 + length (wire_labels ls) + 5) as Hm.
  { unfold m, query_message, wire_qname. rewrite !length_app. simpl. lia. }
  unfold m in Hm. rewrite Hm in Hn.
  unfold esp_dns_create_query. cbn zeta. fold i.
  rewrite (wr_zeros_at _ _ [] n) by (done || simpl; lia). cbn [mbind outcome_bind].
  rewrite (wr_zeros_at _ _ (net16 i) (n - 2)) by (done || simpl; lia). cbn [mbind outcome_bind].
  rewrite (wr_zeros_at _ _ (net16 i ++ net16 0x0100) (n - 2 - 2)) by (done || simpl; lia).
  cbn [mbind outcome_bind]. simpl (length (net16 1)).
  replace (n - 2 - 2 - 2) with (6 + (n - 12)) by lia. rewrite replicate_add, app_assoc.
  set (pre := _ ++ replicate 6 0%Z). change SIZEOF_DNS_HEADER with (length pre).
  rewrite query_labels_wire by (try done; simpl; lia). cbn [mbind outcome_bind].
  rewrite <- length_app. rewrite wr_zeros by (simpl; lia). cbn [mbind outcome_bind].
  replace (length (pre ++ wire_labels ls) + 1)
    with (length ((pre ++ wire_labels ls) ++ [0%Z])) by (rewrite !length_app; done).
  rewrite wr_zeros by (simpl; lia). cbn [mbind outcome_bind].
  replace (length (pre ++ wire_labels ls) + 3)
    with (length (((pre ++ wire_labels ls) ++ [0%Z]) ++ net16 type)) by (rewrite !length_app; simpl; lia).
  rewrite wr_zeros by (cbn -[Nat.sub]; lia). cbn [mbind outcome_bind].
  assert (m = (((pre ++ wire_labels ls) ++ [0%Z]) ++ net16 type) ++ net16 DNS_RRCLASS_IN) as ->.
  { unfold m, pre, query_message, wire_qname. by rewrite <- !app_assoc. }
  rewrite !length_app. assert (length pre = 12) as -> by done. unfold SIZEOF_DNS_QUESTION.
  cbn [length net16].
  replace (n - (12 + length (wire_labels ls) + 1 + 2 + 2))
    with (n - 12 - length (wire_labels ls) - 1 - 2 - 2) by lia.
  replace (12 + length (wire_labels ls) + 1 + 2 + 2)
    with (12 + length (wire_labels ls) + 1 + 4) by lia. done.
Qed.

(** * Resource records *)

Record rr := mk_rr {
  rr_name : list Z; rr_type : Z; rr_class : Z; rr_ttl : Z; rr_data : list Z }.

Definition rr_ok (r : rr) : Prop :=
  wire_name (rr_name r) /\ u16_ok (rr_type r) /\ u16_ok (rr_class r) /\ u32_ok (rr_ttl r)
  /\ u16_ok (Z.of_nat (length (rr_data r))).

Definition enc_rr (r : rr) : list Z :=
  rr_name r ++ net16 (rr_type r) ++ net16 (rr_class r) ++ net32 (rr_ttl r)
    ++ net16 (Z.of_nat (length (rr_data r))) ++ rr_data r.

(** The address a record carries: an A or AAAA record of class IN, with a
    time to live of at most a week and the length of its type. *)
Definition rr_addr (r : rr) : option ip_addr_t :=
  if (rr_class r =? DNS_RRCLASS_IN)%Z && (rr_ttl r <=? DNS_MAX_TTL)%Z then
    if (rr_type r =? DNS_RRTYPE_A)%Z && (length (rr_data r) =? 4) then
      Some (mk_ip (rr_data r ++ replicate 12 0%Z) IPADDR_TYPE_V4)
    else if (rr_type r =? DNS_RRTYPE_AAAA)%Z && (length (rr_data r) =? 16) then
      Some (mk_ip (rr_data r) IPADDR_TYPE_V6)
    else None
  else None.

Definition slot_of (r : rr) : dns_answer_storage_t :=
  match rr_addr r with Some a => mk_answer ERR_OK a | None => mk_answer ERR_VAL ip_zero end.

Definition slot_zero : dns_answer_storage_t := mk_answer ERR_OK ip_zero.

Lemma store_answer_wire b ptr type data : has b ptr data -> ptr + length data <= length b ->
  store_answer b ptr type (Z.of_nat (length data)) slot_zero
  = Ret (if (type =? DNS_RRTYPE_A)%Z && (length data =? 4) then
           mk_answer ERR_OK (mk_ip (data ++ replicate 12 0%Z) IPADDR_TYPE_V4)
         else if (type =? DNS_RRTYPE_AAAA)%Z && (length data =? 16) then
           mk_answer ERR_OK (mk_ip data IPADDR_TYPE_V6)
         else mk_answer ERR_VAL ip_zero).
Proof.
  intros Hd Hl. pose proof (rd_bytes_has _ _ _ Hd Hl) as Hr.
  unfold store_answer, copy_ip. change 4%Z with (Z.of_nat 4). change 16%Z with (Z.of_nat 16).
  assert (Heq : forall k, (Z.of_nat (length data) =? Z.of_nat k)%Z = (length data =? k)).
  { intros k. apply eq_true_iff_eq. rewrite Z.eqb_eq, Nat.eqb_eq. lia. }
  rewrite !Heq.
  destruct (type =? DNS_RRTYPE_A)%Z, (type =? DNS_RRTYPE_AAAA)%Z,
    (Nat.eqb_spec (length data) 4) as [H4|H4], (Nat.eqb_spec (length data) 16) as [H16|H16];
    cbn [andb]; try done; try lia;
  rewrite <- ?H4, <- ?H16, Hr; cbn [mbind outcome_bind];
  rewrite wr_bytes_ok by (cbn; lia); cbn [mbind outcome_bind];
  rewrite ?Nat.add_0_l, ?H4, ?H16; cbn; by rewrite ?app_nil_r.
Qed.

Lemma enc_rr_length r : length (enc_rr r) = length (rr_name r) + 10 + length (rr_data r).
Proof. unfold enc_rr. rewrite !length_app. simpl. lia. Qed.

(** * Parsing what a server sends *)

Definition enc_rrs (rs : list rr) : list Z := concat (map enc_rr rs).

Lemma set_answer_at r pre x post a : answers r = pre ++ x :: post ->
  set_answer r (length pre) a
  = Ret (mk_response (status_code r) (id r) (num_answers r) ((pre ++ [a]) ++ post)).
Proof.
  intros H. unfold set_answer. rewrite H, length_app. cbn [length].
  rewrite (proj2 (Nat.ltb_lt _ _)) by lia.
  rewrite insert_app_r_alt, Nat.sub_diag by lia. by rewrite <- app_assoc.
Qed.

(** One record of the loop, when its encoding lies at [ptr]. *)
Lemma parse_answers_step n b e ptr r x pre k :
  rr_ok x -> has b ptr (enc_rr x) -> ptr + length (enc_rr x) <= e -> e <= length b ->
  answers r = pre ++ replicate (S k) slot_zero ->
  parse_answers (S n) (length pre) b e ptr r
  = parse_answers n (length (pre ++ [slot_of x])) b e (ptr + length (enc_rr x))
      (mk_response (status_code r) (id r) (num_answers r)
         ((pre ++ [slot_of x]) ++ replicate k slot_zero)).
Proof.
  intros (Hn & Ht & Hc & Httl & Hd) Hh Hle He Ha. rewrite enc_rr_length in *.
  cbn [parse_answers]. rewrite (proj2 (Nat.ltb_ge _ _)) by lia.
  unfold enc_rr in Hh. apply has_app in Hh as [Hname Hh].
  rewrite (skip_dns_name_wire b ptr _ _ Hn Hname) by lia. cbn [mbind outcome_bind].
  unfold SIZEOF_DNS_ANSWER_FIXED. rewrite (proj2 (Nat.ltb_ge _ _)) by lia.
  set (p := ptr + length (rr_name x)) in *.
  apply has_app in Hh as [H1 Hh]. apply has_app in Hh as [H2 Hh].
  apply has_app in Hh as [H3 Hh]. apply has_app in Hh as [H4 H5]. cbn [length net16 net32] in *.
  rewrite <- !Nat.add_assoc in *. cbn [Nat.add] in *.
  rewrite (rd16_has _ _ _ Ht H1), (rd16_has _ _ _ Hc H2), (rd32_has _ _ _ Httl H3),
    (rd16_has _ _ _ Hd H4). cbn [mbind outcome_bind]. rewrite Nat2Z.id.
  rewrite (proj2 (Nat.ltb_ge _ _)) by lia.
  assert (rd (answers r) (length pre) = Ret slot_zero) as ->.
  { unfold rd. rewrite Ha, lookup_app_r, Nat.sub_diag by lia. done. }
  cbn [mbind outcome_bind].
  assert ((if negb (rr_class x =? DNS_RRCLASS_IN)%Z || (DNS_MAX_TTL <? rr_ttl x)%Z
           then Ret (mk_answer ERR_VAL (ip slot_zero))
           else store_answer b (p + 10) (rr_type x) (Z.of_nat (length (rr_data x))) slot_zero)
          = Ret (slot_of x)) as ->.
  { rewrite store_answer_wire by (done || lia). unfold slot_of, rr_addr.
    rewrite (Z.ltb_antisym (rr_ttl x)).
    destruct (rr_class x =? DNS_RRCLASS_IN)%Z, (rr_ttl x <=? DNS_MAX_TTL)%Z; cbn; try done.
    repeat case_on_goal; congruence. }
  cbn [mbind outcome_bind]. rewrite (set_answer_at _ pre slot_zero (replicate k slot_zero)) by done.
  cbn [mbind outcome_bind]. rewrite length_app. cbn [length].
  replace (S (length pre)) with (length pre + 1) by lia. f_equal. lia.
Qed.

Lemma parse_answers_wire rs : Forall rr_ok rs -> forall b e ptr r pre k,
  has b ptr (enc_rrs rs) -> ptr + length (enc_rrs rs) <= e -> e <= length b ->
  answers r = pre ++ replicate k slot_zero -> length rs <= k ->
  parse_answers (length rs) (length pre) b e ptr r
  = Ret (mk_response (status_code r) (id r) (num_answers r)
           (pre ++ map slot_of rs ++ replicate (k - length rs) slot_zero)).
Proof.
  induction 1 as [|x rs Hx _ IH]; intros b e ptr r pre k Hh He Hb Ha Hk.
  { cbn. rewrite Nat.sub_0_r, <- Ha. by destruct r. }
  destruct k as [|k]; [cbn in Hk; lia|].
  change (enc_rrs (x :: rs)) with (enc_rr x ++ enc_rrs rs) in *.
  rewrite length_app in He. apply has_app in Hh as [H1 H2].
  cbn [length]. rewrite (parse_answers_step _ _ _ _ _ x _ k) by (done || lia).
  rewrite (IH _ _ _ _ _ k); [|done|lia|done|done|cbn in Hk; lia].
  cbn. by rewrite <- app_assoc.
Qed.

(** A response to the question [qname]: header with identifier [i] and the
    given other fields, the question, the records and whatever follows. *)
Definition response_message (i flags : Z) (other : list Z) (qname q : list Z) (rs : list rr)
    (tail : list Z) : list Z :=
  net16 i ++ net16 flags ++ net16 1 ++ net16 (Z.of_nat (length rs)) ++ other ++ qname ++ q
    ++ enc_rrs rs ++ tail.

Lemma has_take b i rs n : has b i (enc_rrs rs) -> has b i (enc_rrs (take n rs)).
Proof.
  intros H. rewrite <- (take_drop n rs) in H. unfold enc_rrs in *.
  rewrite map_app, concat_app in H. by apply has_app in H as [H _].
Qed.

Lemma enc_rrs_take rs n : length (enc_rrs (take n rs)) <= length (enc_rrs rs).
Proof.
  rewrite <- (take_drop n rs) at 2. unfold enc_rrs.
  rewrite map_app, concat_app, length_app. lia.
Qed.

Definition zero_response (m : nat) (i : Z) : dns_response_t :=
  mk_response ERR_OK i 0 (replicate m slot_zero).

(** A response with the right identifier is parsed to the addresses of its
    first [m] records, in order. *)
Lemma parse_response_wire m i flags other qname q rs tail junk :
  u16_ok i -> length other = 4 -> wire_name qname -> length q = 4 -> Forall rr_ok rs ->
  0 < length rs -> u16_ok (Z.of_nat (length rs)) ->
  let msg := response_message i flags other qname q rs tail in
  esp_dns_parse_response m (msg ++ junk) (Z.of_nat (length msg)) (zero_response m i)
  = Ret (mk_response ERR_OK i (min (length rs) m)
           (map slot_of (take m rs) ++ replicate (m - length rs) slot_zero)).
Proof.
  intros Hi Ho Hq Hq4 Hrs Hn Hn16 msg. set (b := msg ++ junk).
  assert (has b 0 msg) as Hh by (exists junk; done).
  assert (length msg = 12 + length qname + 4 + length (enc_rrs rs) + length tail) as Hlen.
  { unfold msg, response_message. rewrite !length_app, Ho, Hq4. cbn [length net16]. lia. }
  assert (length b >= length msg) as Hlb by (unfold b; rewrite length_app; lia).
  unfold msg, response_message in Hh.
  apply has_app in Hh as [Hid Hh]. apply has_app in Hh as [_ Hh]. apply has_app in Hh as [_ Hh].
  apply has_app in Hh as [Hac Hh]. apply has_app in Hh as [_ Hh].
  apply has_app in Hh as [Hqn Hh]. apply has_app in Hh as [_ Hh]. apply has_app in Hh as [Hrr _].
  rewrite Ho, Hq4 in *. cbn [length net16 Nat.add] in *.
  unfold esp_dns_parse_response, SIZEOF_DNS_HEADER, SIZEOF_DNS_QUESTION.
  rewrite (proj2 (Z.ltb_ge _ _)) by lia.
  rewrite (rd16_has b 6 (Z.of_nat (length rs))) by done.
  rewrite (rd16_has b 0 i Hi Hid). cbn [mbind outcome_bind set_status zero_response id].
  rewrite Z.eqb_refl, (proj2 (Z.eqb_neq _ 0)) by lia. cbn [negb orb]. rewrite !Nat2Z.id.
  rewrite (proj2 (Nat.ltb_ge _ _)) by lia.
  rewrite (skip_dns_name_wire b 12 _ _ Hq Hqn) by lia. cbn [mbind outcome_bind].
  rewrite (proj2 (Nat.ltb_ge _ _)) by lia.
  assert ((if (Z.of_nat (length rs) <? Z.of_nat m)%Z then length rs else m)
          = length (take m rs)) as ->.
  { rewrite length_take. case_on_goal; bsimp; lia. }
  pose proof (enc_rrs_take rs m).
  unshelve epose proof (parse_answers_wire (take m rs) _ b (length msg) (12 + length qname + 4)
    (mk_response ERR_OK i (length (take m rs)) (replicate m slot_zero)) [] m _ _ _ _ _) as E;
    [by apply Forall_take|by apply has_take|lia|lia|done|rewrite length_take; lia|].
  etransitivity; [exact E|]. clear E.
  cbn [status_code num_answers id app]. rewrite length_take.
  replace (m `min` length rs) with (length rs `min` m) by lia.
  by replace (m - length rs `min` m) with (m - length rs) by lia.
Qed.

(** * Extraction *)

Definition ok_ip (a : dns_answer_storage_t) : option ip_addr_t :=
  if bool_decide (status a = ERR_OK) then Some (ip a) else None.

(** The loop stores the addresses of the valid answers, as many as fit. *)
Lemma extract_spec h n : forall i count a got pad,
  i + n <= length a -> count = length got -> count + pad = h ->
  let l := take pad (omap ok_ip (take n (drop i a))) in
  extract h n i count a (got ++ replicate pad ip_zero)
  = Ret (length (got ++ l), (got ++ l) ++ replicate (pad - length l) ip_zero).
Proof.
  induction n as [|n IH]; intros i count a got pad Hi -> Hp l.
  { assert (l = []) as -> by (unfold l; by destruct pad). cbn [length extract].
    by rewrite app_nil_r, Nat.sub_0_r. }
  cbn [extract]. destruct (Nat.ltb_spec (length got) h) as [Hlt|Hge].
  2:{ assert (pad = 0) as -> by lia. assert (l = []) as -> by done. cbn. by rewrite !app_nil_r. }
  destruct (lookup_lt_is_Some_2 a i) as [x Hx]; [lia|].
  unfold rd. rewrite Hx. cbn [mbind outcome_bind].
  unfold l. rewrite (drop_S _ _ _ Hx). cbn [take omap list_omap].
  assert (ok_ip x = if bool_decide (status x = ERR_OK) then Some (ip x) else None) as -> by done.
  destruct (bool_decide (status x = ERR_OK)).
  - rewrite length_app, length_replicate, (proj2 (Nat.ltb_lt _ _)) by lia.
    destruct pad as [|pad]; [lia|].
    rewrite insert_app_r_alt, Nat.sub_diag by lia. cbn [replicate insert list_insert].
    change (ip x :: replicate pad ip_zero) with ([ip x] ++ replicate pad ip_zero).
    rewrite app_assoc, (IH (S i) (S (length got)) a (got ++ [ip x]) pad);
      [|lia|rewrite length_app; simpl; lia|lia].
    cbn [take length]. rewrite <- !app_assoc. done.
  - apply (IH (S i) (length got) a got pad); lia.
Qed.

Lemma omap_slots rs : omap ok_ip (map slot_of rs) = omap rr_addr rs.
Proof.
  induction rs as [|x rs IH]; [done|]. cbn [map omap list_omap].
  assert (ok_ip (slot_of x) = rr_addr x) as -> by (unfold slot_of; by destruct (rr_addr x)).
  by rewrite IH.
Qed.

(** The addresses a resolver reports for the records [rs]. *)
Definition addresses (m h : nat) (rs : list rr) : list ip_addr_t :=
  take h (omap rr_addr (take m rs)).

Lemma extract_wire m h i rs :
  esp_dns_extract_ip_addresses_from_response h
    (mk_response ERR_OK i (min (length rs) m)
       (map slot_of (take m rs) ++ replicate (m - length rs) slot_zero))
  = Ret (if length (addresses m h rs) =? 0 then ERR_VAL else ERR_OK,
         addresses m h rs ++ replicate (h - length (addresses m h rs)) ip_zero).
Proof.
  unfold esp_dns_extract_ip_addresses_from_response. cbn [status_code num_answers answers].
  rewrite bool_decide_true by done.
  pose proof (extract_spec h (min (length rs) m) 0 0
    (map slot_of (take m rs) ++ replicate (m - length rs) slot_zero) [] h) as E.
  cbn [app] in E. rewrite E; [|rewrite length_app, length_map, length_take, length_replicate; lia|done|done].
  clear E. cbn [mbind outcome_bind]. rewrite drop_0, take_app_le by (rewrite length_map, length_take; lia).
  rewrite (take_ge (map slot_of _)) by (rewrite length_map, length_take; lia).
  rewrite omap_slots. done.
Qed.

(** * Resolving over a stream *)

(** A frame of the stream: the two-byte length, then the message. *)
Definition frame (msg : list Z) : list Z := net16 (Z.of_nat (length msg)) ++ msg.

Lemma u32_small z : u32_ok z -> u32 z = z.
Proof. intros H. apply Z.mod_small. exact H. Qed.

(** A connected transport that accepts the query and delivers a framed
    response to it. *)
Definition answers_with (t : transport) (h : esp_dns_handle) (port timeout : Z)
    (query reply : list Z) : Prop :=
  t_init t = true /\ (0 <= t_connect t (dns_server (h_config h)) port timeout)%Z
  /\ (0 <= t_write t (frame query))%Z
  /\ t_read t (frame query) ESP_DNS_BUFFER_SIZE = (Z.of_nat (length (frame reply)), frame reply).

Lemma framed_query_wire rnd ls type :
  let m := query_message (Z.land rnd 0xFFFF) ls type in
  Forall label_ok ls -> length m <= ESP_DNS_BUFFER_SIZE - 2 ->
  framed_query rnd (dotted ls) type
  = Ret (frame m ++ replicate (ESP_DNS_BUFFER_SIZE - 2 - length m) 0%Z, length m, Z.land rnd 0xFFFF).
Proof.
  intros m Hls Hm. unfold framed_query. rewrite create_query_wire by done.
  cbn [mbind outcome_bind]. fold m. unfold frame. by rewrite <- app_assoc.
Qed.

Lemma frame_length m : length (frame m) = length m + 2.
Proof. unfold frame. rewrite length_app. simpl. lia. Qed.

Lemma stream_exchange_wire m h t hd query pad port timeout i flags other qname q rs tail :
  let msg := response_message i flags other qname q rs tail in
  dns_response (response_buffer hd) = zero_response m i ->
  answers_with t hd port timeout query msg ->
  u16_ok i -> length other = 4 -> wire_name qname -> length q = 4 -> Forall rr_ok rs ->
  0 < length rs -> length msg <= ESP_DNS_BUFFER_SIZE - 2 ->
  exists hd', stream_exchange m h t hd (frame query ++ pad) (length query) port timeout
  = Ret (if length (addresses m h rs) =? 0 then ERR_VAL else ERR_OK,
         Some (addresses m h rs ++ replicate (h - length (addresses m h rs)) ip_zero), hd').
Proof.
  intros msg Hz (_ & Hc & Hw & Hr) Hi Ho Hq Hq4 Hrs Hn Hlen. unfold stream_exchange.
  rewrite (proj2 (Z.ltb_ge _ _)) by done. rewrite <- frame_length.
  rewrite (rd_bytes_has (frame query ++ pad) 0 (frame query))
    by (try (exists pad; done); rewrite length_app; lia).
  cbn [mbind outcome_bind]. rewrite (proj2 (Z.ltb_ge _ _)) by done. rewrite Hr.
  rewrite (wr_zeros_at _ _ [] ESP_DNS_BUFFER_SIZE) by
    (done || (rewrite frame_length; unfold ESP_DNS_BUFFER_SIZE in *; lia)).
  set (junk := replicate (ESP_DNS_BUFFER_SIZE - length (frame msg)) 0%Z).
  cbn [app mbind outcome_bind]. unfold ESP_DNS_BUFFER_SIZE in *.
  assert (14 <= length msg) as H14.
  { unfold msg, response_message. rewrite !length_app, Ho, Hq4. simpl.
    pose proof (wire_name_nonempty _ Hq). lia. }
  assert (length rs < 512) as Hrs512.
  { unfold msg, response_message in Hlen. rewrite !length_app in Hlen.
    assert (length rs <= length (enc_rrs rs)).
    { clear. induction rs as [|x rs IH]; [simpl; lia|].
      change (enc_rrs (x :: rs)) with (enc_rr x ++ enc_rrs rs).
      rewrite length_app, enc_rr_length. simpl. lia. }
    lia. }
  rewrite frame_length. rewrite !u32_small by (unfold u32_ok; lia).
  rewrite (proj2 (Z.leb_le _ _)) by (unfold SIZEOF_DNS_HEADER; lia).
  rewrite (rd16_has _ 0 (Z.of_nat (length msg))).
  2:{ unfold u16_ok; lia. }
  2:{ exists (msg ++ junk). unfold frame. by rewrite <- app_assoc. }
  cbn [mbind outcome_bind]. rewrite (proj2 (Z.ltb_ge _ _)) by lia.
  assert (drop 2 (frame msg ++ junk) = msg ++ junk) as -> by done.
  replace (Z.of_nat (length msg + 2) - 2)%Z with (Z.of_nat (length msg)) by lia.
  assert (u16_ok (Z.of_nat (length rs))) as Hn16 by (unfold u16_ok; lia).
  pose proof (parse_response_wire m i flags other qname q rs tail junk Hi Ho Hq Hq4 Hrs Hn Hn16)
    as E. cbv zeta in E. fold msg in E. rewrite Hz, E.
  cbn [mbind outcome_bind]. rewrite extract_wire. cbn [mbind outcome_bind]. eauto.
Qed.

Lemma wire_qname_name ls : Forall label_ok ls -> wire_name (wire_qname ls).
Proof.
  unfold wire_qname, wire_labels.
  induction 1 as [|l ls [Hl _] _ IH]; cbn; [constructor|].
  rewrite <- app_assoc. by constructor.
Qed.

Lemma land_u16 z : u16_ok (Z.land z 0xFFFF).
Proof.
  unfold u16_ok. change 0xFFFF%Z with (Z.ones 16). rewrite Z.land_ones by lia.
  apply Z.mod_pos_bound. lia.
Qed.

(** What a resolution over a stream delivers for the records [rs]. *)
Definition delivers (m h : nat) (rs : list rr)
    (o : outcome (err_t * option (list ip_addr_t) * esp_dns_handle)) : Prop :=
  exists hd', o = Ret (if length (addresses m h rs) =? 0 then ERR_VAL else ERR_OK,
    Some (addresses m h rs ++ replicate (h - length (addresses m h rs)) ip_zero), hd').

Section EndToEnd.

(** A name, the query for it and a response to that query. *)
Context (m h : nat) (rnd type : Z) (ls : list cstr) (t : transport) (hd : esp_dns_handle).
Context (flags : Z) (other tail : list Z) (rs : list rr).

Let query := query_message (Z.land rnd 0xFFFF) ls type.
Let reply := response_message (Z.land rnd 0xFFFF) flags other (wire_qname ls)
               (net16 type ++ net16 DNS_RRCLASS_IN) rs tail.

Hypothesis labels : Forall label_ok ls.
Hypothesis fits : length query <= ESP_DNS_BUFFER_SIZE - 2.
Hypothesis header_rest : length other = 4.
Hypothesis records : Forall rr_ok rs.
Hypothesis some_record : 0 < length rs.
Hypothesis reply_fits : length reply <= ESP_DNS_BUFFER_SIZE - 2.

Definition tcp_port : Z :=
  if (cfg_port (h_config hd) =? 0)%Z then ESP_DNS_DEFAULT_TCP_PORT else cfg_port (h_config hd).

Definition dot_port : Z :=
  if (cfg_port (h_config hd) =? 0)%Z then ESP_DNS_DEFAULT_DOT_PORT else cfg_port (h_config hd).

Definition query_timeout : Z :=
  if (timeout_ms (h_config hd) =? 0)%Z then ESP_DNS_DEFAULT_TIMEOUT_MS
  else timeout_ms (h_config hd).

Lemma exchange_delivers hd' port :
  h_config hd' = h_config hd -> dns_response (response_buffer hd') = zero_response m (Z.land rnd 0xFFFF) ->
  answers_with t hd port query_timeout query reply ->
  delivers m h rs (stream_exchange m h t hd'
    (frame query ++ replicate (ESP_DNS_BUFFER_SIZE - 2 - length query) 0%Z) (length query) port
    query_timeout).
Proof.
  intros Hc Hz Hans.
  apply (stream_exchange_wire _ _ _ _ _ _ _ _ (Z.land rnd 0xFFFF) flags other (wire_qname ls)
           (net16 type ++ net16 DNS_RRCLASS_IN) rs tail); try done.
  - unfold answers_with in *. by rewrite Hc.
  - apply land_u16.
  - by apply wire_qname_name.
Qed.

(** A query for a host name with valid labels is sent over TCP in the wire
    format of RFC 1035 with its length prefix, and when the server replies with
    a well-formed response to it, the caller's array holds the addresses of the
    A and AAAA records among the first [m] records, in order, as many as fit,
    and zeros after them; the call fails only when there is none. *)
Lemma tcp_delivers :
  answers_with t hd tcp_port query_timeout query reply ->
  delivers m h rs (dns_resolve_tcp m h rnd t hd (dotted ls) false type).
Proof using labels fits header_rest records some_record reply_fits.
  intros Hans. pose proof Hans as (Hi & _). unfold dns_resolve_tcp.
  rewrite framed_query_wire, Hi by done. cbn [negb]. by apply exchange_delivers.
Qed.

(** The same for DNS over TLS, when a certificate or a bundle is configured. *)
Lemma dot_delivers :
  crt_bundle_attach (h_config hd) = true \/ cert_pem (h_config hd) <> None ->
  answers_with t hd dot_port query_timeout query reply ->
  delivers m h rs (dns_resolve_dot m h rnd t hd (dotted ls) false type).
Proof using labels fits header_rest records some_record reply_fits.
  intros Hcert Hans. pose proof Hans as (Hi & _). unfold dns_resolve_dot.
  rewrite framed_query_wire, Hi by done. cbn [negb].
  assert (negb (crt_bundle_attach (h_config hd)) && bool_decide (cert_pem (h_config hd) = None)
          = false) as E.
  { destruct Hcert as [->|Hp]; [done|]. rewrite bool_decide_false by done. apply andb_false_r. }
  cbn [h_config set_rbuf]. rewrite E. by apply exchange_delivers.
Qed.

End EndToEnd.

(** * Any name, any reply *)

Lemma next_dot_length s l r : next_dot s = (l, r) ->
  length l + length r = length s /\ length (match r with [] => [] | _ :: r => r end) <= length s - length l - 1.
Proof.
  revert l r; induction s as [|c s IH]; cbn [next_dot]; intros l r.
  - intros [= <- <-]. cbn. lia.
  - case_on_goal; [intros [= <- <-]; cbn; lia|].
    destruct (next_dot s) as [l' r'] eqn:E. intros [= <- <-].
    destruct (IH _ _ eq_refl). cbn. destruct r'; cbn in *; lia.
Qed.

Lemma wr_bytes_keeps n b q bs : length b = n -> q + length bs <= n ->
  returns (wr_bytes b q bs) (fun b' => length b' = n).
Proof.
  intros Hb Hq. rewrite wr_bytes_ok by lia. cbn [returns].
  rewrite !length_app, length_take, length_drop. lia.
Qed.

Lemma query_labels_ok fuel : forall b n q s,
  length b = n -> length s < fuel -> q + length s + 1 <= n ->
  returns (query_labels fuel b n q s) (fun '(b', q') => length b' = n /\ q' <= q + length s + 1).
Proof.
  induction fuel as [|fuel IH]; intros b n q s Hb Hf Hq; [lia|]. cbn [query_labels].
  destruct s as [|c s]; [cbn; lia|].
  destruct (next_dot (c :: s)) as [l r] eqn:E. apply next_dot_length in E as [E1 E2].
  set (s0 := c :: s) in *. assert (0 < length s0) by (cbn; lia).
  pose proof (u8_range (Z.of_nat (length l))) as Hu.
  assert (Z.to_nat (u8 (Z.of_nat (length l))) <= length l) as Hle.
  { unfold u8. pose proof (Z.mod_le (Z.of_nat (length l)) (2 ^ 8)). lia. }
  set (len := Z.to_nat (u8 (Z.of_nat (length l)))) in *.
  eapply returns_bind; [apply (wr_bytes_keeps n); [done|cbn; lia]|]. intros b1 Hb1; cbn beta in Hb1.
  rewrite (proj2 (Nat.ltb_ge _ _)) by lia.
  assert (length (take len l) = len) as Hlen by (rewrite length_take; lia).
  eapply returns_bind; [apply (wr_bytes_keeps n); [done|lia]|]. intros b2 Hb2; cbn beta in Hb2.
  set (rest := match r with [] => [] | _ :: r => r end) in *.
  destruct (Nat.eq_dec (length rest) 0) as [H0|H0].
  - destruct rest; [|cbn in H0; lia]. clearbody s0. destruct fuel; [lia|].
    cbn [query_labels returns]. lia.
  - eapply returns_mono; [apply IH; lia|]. intros [b' q']; lia.
Qed.

Lemma create_query_ok rnd n name type : length name + 18 <= n ->
  returns (esp_dns_create_query rnd n name type)
    (fun '(b, size, i) => length b = n /\ size <= n /\ i = Z.land rnd 0xFFFF).
Proof.
  intros Hn. unfold esp_dns_create_query, SIZEOF_DNS_HEADER, SIZEOF_DNS_QUESTION. cbn zeta.
  eapply returns_bind; [apply (wr_bytes_keeps n); [apply length_replicate|cbn; lia]|]. intros b1 H1; cbn beta in H1.
  eapply returns_bind; [apply (wr_bytes_keeps n); [done|cbn; lia]|]. intros b2 H2; cbn beta in H2.
  eapply returns_bind; [apply (wr_bytes_keeps n); [done|cbn; lia]|]. intros b3 H3; cbn beta in H3.
  eapply returns_bind; [apply query_labels_ok; [done|lia|lia]|]. intros [b4 q] [H4 Hq].
  eapply returns_bind; [apply (wr_bytes_keeps n); [done|cbn; lia]|]. intros b5 H5; cbn beta in H5.
  eapply returns_bind; [apply (wr_bytes_keeps n); [done|cbn; lia]|]. intros b6 H6; cbn beta in H6.
  eapply returns_bind; [apply (wr_bytes_keeps n); [done|cbn; lia]|]. intros b7 H7; cbn beta in H7.
  cbn. lia.
Qed.

(** A read delivers at most the bytes asked for, or reports an error and
    delivers none. *)
Definition transport_ok (t : transport) : Prop :=
  forall q n len bytes, t_read t q n = (len, bytes) ->
    Forall byte_ok bytes /\ length bytes <= n
    /\ ((0 <= len)%Z /\ Z.to_nat len = length bytes \/ (- 2 ^ 31 <= len < 0)%Z /\ bytes = []).

Lemma parse_no_answers m b size r : rd16 b 6 = Ret 0%Z -> 12 <= length b ->
  esp_dns_parse_response m b size r = Ret (set_status r ERR_VAL).
Proof.
  intros H6 Hl. unfold esp_dns_parse_response, SIZEOF_DNS_HEADER.
  case_on_goal; [done|]. rewrite H6. cbn [mbind outcome_bind].
  assert (exists i, rd16 b 0 = Ret i) as [i ->].
  { unfold rd16, rd. destruct (lookup_lt_is_Some_2 b 0) as [x ->]; [lia|].
    destruct (lookup_lt_is_Some_2 b (0 + 1)) as [y ->]; [lia|]. cbn. eauto. }
  cbn [mbind outcome_bind]. by rewrite Z.eqb_refl, orb_true_r.
Qed.

Lemma extract_ok m h r : response_ok m r -> (status_code r = ERR_OK -> num_answers r <= m) ->
  returns (esp_dns_extract_ip_addresses_from_response h r)
    (fun '(e, l) => length l = h /\ (e = ERR_OK -> status_code r = ERR_OK)).
Proof.
  intros [Hl Hs] Hn. unfold esp_dns_extract_ip_addresses_from_response.
  destruct (bool_decide_reflect (status_code r = ERR_OK)) as [E|E];
    [|cbn; by rewrite length_replicate].
  pose proof (extract_spec h (num_answers r) 0 0 (answers r) [] h) as X. cbn [app] in X.
  rewrite X by (try done; rewrite Hl; auto). cbn. split; [|done].
  rewrite !length_app, length_replicate, length_take. lia.
Qed.

Lemma stream_exchange_ok m h t hd b query_size port timeout :
  transport_ok t -> response_ok m (dns_response (response_buffer hd)) ->
  query_size + 2 <= length b ->
  returns (stream_exchange m h t hd b query_size port timeout)
    (fun '(e, l, hd') => e = ERR_OK ->
       (exists l', l = Some l' /\ length l' = h)
       /\ exists bytes, t_read t (take (query_size + 2) b) ESP_DNS_BUFFER_SIZE
                        = (Z.of_nat (length bytes), bytes)
            /\ rd16 (bytes ++ replicate (ESP_DNS_BUFFER_SIZE - length bytes) 0%Z) 2
               = Ret (id (dns_response (response_buffer hd)))).
Proof.
  intros Ht Hr Hq. unfold stream_exchange. case_on_goal; [done|].
  rewrite rd_bytes_ok by lia. cbn [mbind outcome_bind]. rewrite drop_0.
  case_on_goal; [done|].
  destruct (t_read t _ ESP_DNS_BUFFER_SIZE) as [len bytes] eqn:Er.
  destruct (Ht _ _ _ _ Er) as (Hb & Hl & Hlen).
  rewrite (wr_zeros_at _ _ [] ESP_DNS_BUFFER_SIZE) by done. cbn [app mbind outcome_bind].
  set (buf := bytes ++ _). unfold ESP_DNS_BUFFER_SIZE, SIZEOF_DNS_HEADER in *.
  assert (length buf = 512) as Hbl by (unfold buf; rewrite length_app, length_replicate; lia).
  assert (Forall byte_ok buf) as Hbb.
  { apply Forall_app. split; [done|]. apply Forall_replicate. unfold byte_ok. lia. }
  assert (length (drop 2 buf) = 510) as Hd by (rewrite length_drop; lia).
  case_on_goal; [|done].
  eapply returns_bind; [apply rd16_ok; [lia|done]|]. intros el _. case_on_goal; [done|]. bsimp.
  destruct Hlen as [[H0 Hlen]|[Hneg ->]].
  - rewrite (u32_small (len - 2)) by (unfold u32_ok; rewrite u32_small in * by (unfold u32_ok; lia); lia).
    eapply returns_bind; [apply (parse_response_ok m); [done|lia|by apply Forall_drop]|].
    intros r (Hr' & Hid & Hok). cbn zeta.
    eapply returns_bind; [apply (extract_ok m); [done|by intros [X _]%Hok]|].
    intros [e l] [Hll Hst]. cbn. intros ->. split; [eauto|]. exists bytes.
    split; [f_equal; lia|]. destruct (Hok (Hst eq_refl)) as [_ <-].
    unfold rd16, rd. by rewrite !lookup_drop.
  - rewrite parse_no_answers; [|reflexivity|lia]. cbn [mbind outcome_bind].
    eapply returns_bind; [apply (extract_ok m); [exact Hr|intros [=]]|].
    intros [e l] [_ Hst]. cbn. intros ->. by specialize (Hst eq_refl).
Qed.

Lemma zero_response_ok m i : response_ok m (zero_response m i).
Proof.
  split; [apply length_replicate|]. apply Forall_replicate. by unfold slot_ok.
Qed.

(** The query of [name] as it is sent, when the builder returns. *)
Definition sent_query (rnd : Z) (name : cstr) (type : Z) : list Z :=
  match framed_query rnd name type with
  | Ret (b, n, _) => take (n + 2) b
  | _ => []
  end.

(** C5. Resolving any host name of at most 492 bytes over TCP, with any transport
    that keeps to its contract and whatever bytes the server sends: the
    resolver returns, no access leaves the 512-byte message buffer, the
    answers array or the caller's array, and success is reported only for a
    reply that carries the identifier of the query. *)
Theorem resolve_tcp_safe m h rnd t hd name rrtype :
  length name <= 492 -> transport_ok t ->
  returns (dns_resolve_tcp m h rnd t hd name false rrtype)
    (fun '(e, l, hd') => e = ERR_OK ->
       (exists l', l = Some l' /\ length l' = h)
       /\ exists bytes, t_read t (sent_query rnd name rrtype) ESP_DNS_BUFFER_SIZE
                        = (Z.of_nat (length bytes), bytes)
            /\ rd16 (bytes ++ replicate (ESP_DNS_BUFFER_SIZE - length bytes) 0%Z) 2
               = Ret (Z.land rnd 0xFFFF)).
Proof.
  intros Hn Ht. unfold dns_resolve_tcp, sent_query.
  assert (returns (framed_query rnd name rrtype) (fun '(b, n, i) =>
    n + 2 <= length b /\ i = Z.land rnd 0xFFFF)) as Hq.
  { unfold framed_query. eapply returns_bind; [apply create_query_ok; unfold ESP_DNS_BUFFER_SIZE; lia|].
    intros [[b n] i] (Hb & Hs & ->). cbn [returns]. rewrite length_app. cbn [length net16].
    unfold ESP_DNS_BUFFER_SIZE in *. lia. }
  destruct (framed_query rnd name rrtype) as [[[b n] i]| | |]; cbn [returns] in Hq; try done.
  destruct Hq as [Hq ->]. case_on_goal; [done|].
  apply (stream_exchange_ok m); [done|apply zero_response_ok|done].
Qed.

(** * Resolving over HTTPS *)

(** The events of a response body, however it is cut into chunks, and the body. *)
Definition body_event (e : http_event) : Prop :=
  match e with
  | HTTP_EVENT_ON_DATA _ alloc => alloc = true
  | HTTP_EVENT_ON_FINISH _ => False
  | HTTP_EVENT_OTHER => True
  end.

Definition chunk (e : http_event) : list Z :=
  match e with HTTP_EVENT_ON_DATA data _ => data | _ => [] end.

Definition body (es : list http_event) : list Z := concat (map chunk es).

(** The accumulated bytes of the handle: none, or the buffer and its length. *)
Definition holds (b : response_buffer_t) (bs : list Z) : Prop :=
  rb_length b = Z.of_nat (length bs)
  /\ match rb_buffer b with Some x => x = bs | None => bs = [] end.

Lemma on_data_holds b bs data : holds b bs ->
  exists e b', on_data b data true = Ret (e, b') /\ holds b' (bs ++ data)
    /\ dns_response b' = dns_response b.
Proof.
  intros [Hl Hb]. unfold on_data. destruct (rb_buffer b) as [old|] eqn:Eb; subst.
  - rewrite Hl. destruct (Z.eqb_spec (Z.of_nat (length bs) + Z.of_nat (length data)) 0) as [E|E].
    { assert (bs = [] /\ data = []) as [-> ->] by (destruct bs, data; cbn in *; split; done || lia).
      do 2 eexists. split; [done|]. split; [|done]. split; [done|]. by rewrite Eb. }
    replace (Z.to_nat (Z.of_nat (length bs) + Z.of_nat (length data)))
      with (length bs + length data) by lia. rewrite Nat2Z.id.
    unfold realloc. rewrite take_ge by lia.
    replace (length bs + length data - length bs) with (length data) by lia.
    rewrite wr_zeros by lia. cbn [mbind outcome_bind]. rewrite Nat.sub_diag, app_nil_r.
    do 2 eexists. split; [done|]. split; [|done]. split; cbn; [rewrite length_app; lia|done].
  - destruct (Nat.eqb_spec (length data) 0) as [E|E].
    + destruct data; [|done]. do 2 eexists. split; [done|]. split; [|done]. split; [done|]. by rewrite Eb.
    + do 2 eexists. split; [done|]. by split.
Qed.

Lemma run_body m es : forall h bs, Forall body_event es -> holds (response_buffer h) bs ->
  exists h', run_events m h es = Ret h' /\ holds (response_buffer h') (bs ++ body es)
    /\ dns_response (response_buffer h') = dns_response (response_buffer h)
    /\ h_config h' = h_config h.
Proof.
  induction es as [|e es IH]; intros h bs Hes Hh.
  { exists h. cbn. rewrite app_nil_r. done. }
  apply Forall_cons in Hes as [He Hes].
  assert (exists x h1, esp_dns_http_event_handler m h e = Ret (x, h1)
    /\ holds (response_buffer h1) (bs ++ chunk e)
    /\ dns_response (response_buffer h1) = dns_response (response_buffer h)
    /\ h_config h1 = h_config h) as (x & h1 & E & Hh1 & Hd & Hc).
  { destruct e as [data alloc|code|]; cbn in He; [|done|].
    - subst alloc. destruct (on_data_holds _ _ data Hh) as (x & b & E & Hb & Hd).
      cbn. rewrite E. cbn. by exists x, (set_rbuf h b).
    - cbn. rewrite app_nil_r. by exists ESP_OK, h. }
  destruct (IH h1 _ Hes Hh1) as (h' & E' & Hh' & Hd' & Hc').
  exists h'. cbn [run_events]. rewrite E. cbn [mbind outcome_bind].
  unfold body in *. cbn [map concat]. rewrite app_assoc. repeat split; try done; try congruence; apply Hh'.
Qed.

Lemma run_events_app m es es' h h' : run_events m h es = Ret h' ->
  run_events m h (es ++ es') = run_events m h' es'.
Proof.
  revert h; induction es as [|e es IH]; intros h; cbn; [by intros [= ->]|].
  destruct (esp_dns_http_event_handler m h e) as [[x h1]| | |]; cbn; try done. apply IH.
Qed.

(** DNS over HTTPS: however the client cuts the body of the reply into data
    events, the handler reassembles it, and a well-formed response to the query
    yields the addresses of its first [m] records. *)
Lemma doh_delivers m h rnd client hd ls type flags other tail rs es :
  let query := query_message (Z.land rnd 0xFFFF) ls type in
  let url := doh_url (h_config hd) in
  Forall label_ok ls -> length query <= ESP_DNS_BUFFER_SIZE ->
  url_alloc client = true -> (forall port, http_init client url port = true) ->
  set_header client = true -> set_post_field client query = true ->
  http_perform client url query = (true, es ++ [HTTP_EVENT_ON_FINISH HttpStatus_Ok], HttpStatus_Ok) ->
  Forall body_event es ->
  body es = response_message (Z.land rnd 0xFFFF) flags other (wire_qname ls)
              (net16 type ++ net16 DNS_RRCLASS_IN) rs tail ->
  length other = 4 -> Forall rr_ok rs -> 0 < length rs -> u16_ok (Z.of_nat (length rs)) ->
  delivers m h rs (dns_resolve_doh m h rnd client hd (dotted ls) type).
Proof.
  intros query url Hls Hq Ha Hi Hh Hp Hperf Hes Hbody Ho Hrs Hn Hn16. unfold dns_resolve_doh.
  rewrite Ha. cbn [negb]. rewrite create_query_wire by done. fold query url.
  rewrite Hi, Hh. cbn [negb].
  rewrite (rd_bytes_has _ 0 query) by (try (eexists; done); rewrite length_app; lia).
  cbn [mbind outcome_bind]. rewrite Hp, Hperf. cbn [negb].
  set (hd0 := set_rbuf _ _).
  destruct (run_body m es hd0 [] Hes) as (h' & E & [Hlen Hb] & Hd & Hc); [done|].
  rewrite (run_events_app _ _ _ _ _ E). cbn [run_events esp_dns_http_event_handler].
  unfold on_finish. rewrite Z.eqb_refl. cbn [app] in *. rewrite Hbody in *.
  assert (length (wire_qname ls) > 0) as Hw by (apply wire_name_nonempty, wire_qname_name; done).
  set (msg := response_message _ _ _ _ _ _ _) in *.
  assert (12 < length msg) as Hm.
  { unfold msg, response_message. rewrite !length_app, Ho. cbn [length net16]. lia. }
  rewrite Hlen, (proj2 (Z.leb_le _ _)) by (unfold SIZEOF_DNS_HEADER; lia).
  destruct (rb_buffer (response_buffer h')) as [bs|]; [subst bs|rewrite Hb in Hm; cbn in Hm; lia].
  rewrite Hd. change (dns_response (response_buffer hd0)) with (zero_response m (Z.land rnd 0xFFFF)).
  pose proof (parse_response_wire m (Z.land rnd 0xFFFF) flags other (wire_qname ls)
    (net16 type ++ net16 DNS_RRCLASS_IN) rs tail [] (land_u16 _) Ho (wire_qname_name _ Hls)
    eq_refl Hrs Hn Hn16) as Ep. cbv zeta in Ep. fold msg in Ep. rewrite app_nil_r in Ep.
  rewrite Ep. cbn [mbind outcome_bind run_events set_rbuf response_buffer dns_response status_code].
  rewrite bool_decide_true by done. cbn [negb orb]. rewrite extract_wire.
  cbn [mbind outcome_bind]. unfold delivers. eauto.
Qed.


(** * Life cycle *)

(** The global pointer is set exactly while the singleton is initialised, and
    then it has its lock and the global mutex exists. *)
Definition globals_ok (g : dns_globals) : Prop :=
  (g_dns_handle g = true -> global_mutex g = true /\ lock (instance g) = true)
  /\ g_dns_handle g = initialized (instance g).

(** C7. The singleton's life cycle, when the semaphore calls succeed: the module
    starts in a consistent state; initialisation succeeds exactly when no
    handle is live, and records the configuration with the protocol of the
    entry point; cleaning up through the entry point of another protocol is
    refused without effect; cleaning up through the right one succeeds, and
    the next initialisation succeeds again. *)
Theorem dns_lifecycle m p p' c g sem :
  sem_create sem = true -> sem_take sem = true -> sem_lock sem = true ->
  globals_ok g ->
  globals_ok (dns_globals_init m)
  /\ (g_dns_handle g = true -> init_as p sem (Some c) g = Ret (false, g))
  /\ (g_dns_handle g = false ->
       exists g', init_as p sem (Some c) g = Ret (true, g') /\ globals_ok g'
         /\ h_config (instance g') = with_protocol p c
         /\ (p' <> p -> cleanup_as m p' sem false g' = Ret ((-1)%Z, g'))
         /\ exists g'', cleanup_as m p sem false g' = Ret (0%Z, g'') /\ globals_ok g''
             /\ g_dns_handle g'' = false).
Proof.
  intros Hc Ht Hl [H1 H2]. split; [done|]. split.
  - intros Hg. destruct (H1 Hg) as [Hm _]. unfold init_as, esp_dns_init.
    destruct g as [gm gh i]; cbn in *. by rewrite Hm, Ht, Hg.
  - intros Hg. unfold init_as, esp_dns_init. rewrite Hc, Ht, Hl, Hg, andb_false_r. cbn.
    eexists. split; [done|]. split; [done|]. split; [done|]. unfold cleanup_as. cbn.
    split; [intros Hp; by rewrite bool_decide_false by done|].
    rewrite bool_decide_true by done. cbn. unfold esp_dns_cleanup. cbn. rewrite Hl, Ht. cbn.
    eexists. split; [done|]. split; [|done]. by split.
Qed.
