(* ===== verification/EspDnsExamples.v ===== *)
(** A concrete resolution: instances of the theorems on the DNS client, and the
    inputs on which it does not do what its comments say. *)
From S2P Require Import Prelude EspDns EspDnsProofs.

Definition host : list cstr := [str "example"; str "com"].

(** A CNAME record, an A record that points at the question's name, and an
    AAAA record whose time to live is too long. *)
Definition cname_rr : rr := mk_rr [0xC0; 12]%Z 5 1 300 [0xC0; 12]%Z.
Definition a_rr : rr := mk_rr [0xC0; 12]%Z 1 1 300 [93; 184; 216; 34]%Z.
Definition stale_rr : rr := mk_rr [3; 119; 119; 119; 0xC0; 12]%Z 28 1 604801 (replicate 16 1%Z).
Definition records : list rr := [cname_rr; a_rr; stale_rr].

Definition the_query : list Z := query_message 0x1234 host 1.

Definition the_reply : list Z :=
  response_message 0x1234 0x8180 [0; 0; 0; 0]%Z (wire_qname host)
    (net16 1 ++ net16 DNS_RRCLASS_IN) records [].

Definition server : transport :=
  mk_transport true (fun _ _ _ => 0%Z) (fun q => Z.of_nat (length q))
    (fun q n => if bool_decide (q = frame the_query)
                then (Z.of_nat (length (take n (frame the_reply))), take n (frame the_reply)) else ((-1)%Z, [])).

Definition handle (p : esp_dns_protocol_type_t) : esp_dns_handle :=
  mk_handle (mk_config p (str "8.8.8.8") 0 0 None true None) true (rbuf_zero 4) true.

Definition reply_addr : ip_addr_t := mk_ip ([93; 184; 216; 34]%Z ++ replicate 12 0%Z) 0.

Ltac unroll_forall := repeat first [apply Forall_nil_2 | apply Forall_cons_2].

Lemma host_ok : Forall label_ok host.
Proof.
  unfold host. unroll_forall; (split; [cbn; lia|]); apply List.Forall_forall;
    intros x Hx; vm_compute in Hx; repeat (destruct Hx as [<-|Hx]; [lia|]); done.
Qed.

Lemma records_ok : Forall rr_ok records.
Proof.
  unfold records. unroll_forall; (split; [|unfold u16_ok, u32_ok; cbn; lia]); cbn [rr_name].
  - apply wire_ptr; [lia|unfold byte_ok; lia].
  - apply wire_ptr; [lia|unfold byte_ok; lia].
  - apply (wire_label [119; 119; 119]%Z); [cbn; lia|]. apply wire_ptr; [lia|unfold byte_ok; lia].
Qed.

Lemma server_answers p port timeout :
  answers_with server (handle p) port timeout the_query the_reply.
Proof.
  split; [done|]. split; [cbn; lia|]. split; [cbn; lia|].
  cbn [server t_read]. by rewrite bool_decide_true.
Qed.

Lemma reply_bytes : forallb (fun b => (0 <=? b) && (b <? 256))%Z (frame the_reply) = true.
Proof. reflexivity. Qed.

Lemma server_ok : transport_ok server.
Proof.
  intros q n len bytes. cbn [server t_read]. case_bool_decide.
  - intros [= <- <-]. split; [|split].
    + apply Forall_take, List.Forall_forall. intros x Hx. pose proof reply_bytes as H1.
      rewrite forallb_forall in H1. specialize (H1 _ Hx). bsimp. unfold byte_ok. lia.
    + rewrite length_take. lia.
    + left. lia.
  - intros [= <- <-]. split; [constructor|]. split; [cbn; lia|]. right. split; [lia|done].
Qed.

Lemma resolve_tcp_safe_witness :
  returns (dns_resolve_tcp 4 2 0x51234 server (handle ESP_DNS_PROTOCOL_TCP) (dotted host) false 1)
    (fun '(e, l, hd') => e = ERR_OK ->
       (exists l', l = Some l' /\ length l' = 2)
       /\ exists bytes, t_read server (sent_query 0x51234 (dotted host) 1) ESP_DNS_BUFFER_SIZE
                        = (Z.of_nat (length bytes), bytes)
            /\ rd16 (bytes ++ replicate (ESP_DNS_BUFFER_SIZE - length bytes) 0%Z) 2
               = Ret (Z.land 0x51234 0xFFFF)).
Proof.
  apply (resolve_tcp_safe 4 2 0x51234 server (handle ESP_DNS_PROTOCOL_TCP) (dotted host) 1).
  - apply Nat.leb_le. reflexivity.
  - exact server_ok.
Defined.

Lemma records_delivered :
  addresses 4 2 records = [reply_addr].
Proof. reflexivity. Qed.

(** The reply in three chunks with other events in between. *)
Definition reply_events : list http_event :=
  [HTTP_EVENT_OTHER; HTTP_EVENT_ON_DATA (take 5 the_reply) true; HTTP_EVENT_OTHER;
   HTTP_EVENT_ON_DATA [] true;
   HTTP_EVENT_ON_DATA (take 40 (drop 5 the_reply)) true; HTTP_EVENT_ON_DATA (drop 45 the_reply) true].

Definition doh_client : http_client :=
  mk_http true (fun _ _ => true) true (fun _ => true)
    (fun _ _ => (true, reply_events ++ [HTTP_EVENT_ON_FINISH HttpStatus_Ok], HttpStatus_Ok)).


Definition sem_good : sem_results := mk_sem true true true.

Lemma dns_lifecycle_witness :
  exists g', init_as ESP_DNS_PROTOCOL_DOT sem_good (Some (h_config (handle ESP_DNS_PROTOCOL_TCP)))
               (dns_globals_init 4) = Ret (true, g') /\ g_dns_handle g' = true.
Proof.
  destruct (dns_lifecycle 4 ESP_DNS_PROTOCOL_DOT ESP_DNS_PROTOCOL_TCP
              (h_config (handle ESP_DNS_PROTOCOL_TCP)) (dns_globals_init 4) sem_good
              eq_refl eq_refl eq_refl) as (_ & _ & H).
  - split; [discriminate|reflexivity].
  - destruct (H eq_refl) as (g' & E & [_ H2] & _). exists g'. split; [exact E|].
    revert E. cbn. intros [= <-]. reflexivity.
Defined.

(** A read that fails with -1 passes the size check, which compares it as an
    unsigned number: the zeroed buffer is parsed and the error reported is not
    [ERR_ABRT] but [ERR_VAL]. *)
Fact read_error_is_parsed t p rnd :
  t_init t = true -> (forall a b c, t_connect t a b c = 0%Z) -> (forall q, t_write t q = 0%Z) ->
  (forall q n, t_read t q n = ((-1)%Z, [])) ->
  exists l h, dns_resolve_tcp 4 2 rnd t (handle p) (dotted host) false 1 = Ret (ERR_VAL, l, h).
Proof.
  intros Hi Hc Hw Hr. unfold dns_resolve_tcp.
  rewrite framed_query_wire by (exact host_ok || (apply Nat.leb_le; reflexivity)).
  rewrite Hi. cbn [negb]. unfold stream_exchange. rewrite Hc. cbn [Z.ltb Z.compare].
  rewrite rd_bytes_ok by (apply Nat.leb_le; reflexivity). cbn [mbind outcome_bind].
  rewrite Hw, Hr. cbn [Z.ltb Z.compare]. rewrite (wr_zeros_at _ _ [] 512) by (done || (cbn; lia)).
  cbn [mbind outcome_bind].
  change (u32 (-1)) with 4294967295%Z. change (u32 (-1 - 2)) with 4294967293%Z.
  change (Z.of_nat (2 + SIZEOF_DNS_HEADER) <=? 4294967295)%Z with true. cbn [app].
  change (rd16 (replicate (512 - length (@nil Z)) 0%Z) 0) with (Ret 0%Z).
  cbn [mbind outcome_bind]. rewrite (proj2 (Z.ltb_ge _ _)) by lia.
  rewrite parse_no_answers by (reflexivity || (apply Nat.leb_le; reflexivity)).
  cbn [mbind outcome_bind]. unfold esp_dns_extract_ip_addresses_from_response.
  rewrite bool_decide_false by done. cbn [mbind outcome_bind]. eauto.
Qed.

(** The overflow check of the query builder looks at the length byte only: a
    second long label is copied past the end of the buffer. *)
Fact create_query_overflow :
  esp_dns_create_query 0 ESP_DNS_BUFFER_SIZE
    (replicate 250 97%Z ++ [46%Z] ++ replicate 250 97%Z) 1 = BadAccess.
Proof. vm_compute. reflexivity. Qed.

(** A label of 256 bytes or more loses its length: the query asks for another
    name. *)
Fact create_query_truncates :
  exists b, esp_dns_create_query 0 ESP_DNS_BUFFER_SIZE (replicate 257 97%Z) 1 = Ret (b, 19, 0%Z)
    /\ take 3 (drop 12 b) = [1; 97; 0]%Z.
Proof. eexists. split; vm_compute; reflexivity. Qed.

(** When the lock of the handle cannot be created, the error path frees the
    static singleton. *)
Fact init_frees_static :
  esp_dns_init (mk_sem true true false) (h_config (handle ESP_DNS_PROTOCOL_TCP))
    (dns_globals_init 4) = BadAccess.
Proof. reflexivity. Qed.
