(* ===== verification/Heap.v ===== *)
(** Allocation as the mDNS code sees it: [mdns_mem_malloc] and its relatives may
    return null at any call, and what was allocated has to be freed once.

    The heap of the model is the schedule of allocation failures and the number
    of live blocks; a function in this monad can be run with any schedule. *)
From S2P Require Import Prelude.

Record heap := mk_heap { fails : list bool; live : Z }.

Definition H (A : Type) : Type := heap -> outcome (A * heap).

#[export] Instance H_bind : MBind H := fun A B f m h =>
  match m h with
  | Ret (a, h) => f a h
  | Failed => Failed
  | BadAccess => BadAccess
  | OutOfFuel => OutOfFuel
  end.

#[export] Instance H_ret : MRet H := fun A a h => Ret (a, h).

Definition hlift {A} (m : outcome A) : H A := fun h =>
  match m with
  | Ret a => Ret (a, h)
  | Failed => Failed
  | BadAccess => BadAccess
  | OutOfFuel => OutOfFuel
  end.

(** Whether the next allocation succeeds; a schedule that has run out never
    fails again. *)
Definition malloc : H bool := fun h =>
  match fails h with
  | true :: f => Ret (false, mk_heap f (live h))
  | false :: f => Ret (true, mk_heap f (live h + 1))
  | [] => Ret (true, mk_heap [] (live h + 1))
  end.

(** [n] blocks freed; freeing a null pointer frees none. *)
Definition mfree (n : Z) : H unit := fun h => Ret (tt, mk_heap (fails h) (live h - n)).

(** The block of a nullable pointer. *)
Definition opt_block {A} (x : option A) : Z := match x with Some _ => 1 | None => 0 end.

Definition next_bool (l : list bool) : bool * list bool :=
  match l with [] => (true, []) | b :: l => (b, l) end.

(** An allocator of addresses: the one after the highest in use. *)
Definition next_addr (l : list positive) : positive := Pos.succ (foldr Pos.max 1%positive l).

Lemma next_addr_new l : next_addr l ∉ l.
Proof.
  assert (Hle : forall x, x ∈ l -> (x <= foldr Pos.max 1 l)%positive).
  { intros x Hx. induction Hx as [x l|x y l _ IH]; cbn [foldr]; lia. }
  intros Hin%Hle. unfold next_addr in Hin. lia.
Qed.

(** * Reasoning *)

(** From any heap, [m] returns, and the value it returns with the number of
    blocks it leaves behind satisfies [Q]. *)
Definition hspec {A} (m : H A) (Q : A -> Z -> Prop) : Prop :=
  forall h, yields (m h) (fun '(a, h') => Q a (live h' - live h)%Z).

Lemma hspec_ret {A} (a : A) (Q : A -> Z -> Prop) : Q a 0%Z -> hspec (mret a) Q.
Proof. intros HQ h. cbn. by rewrite Z.sub_diag. Qed.

Lemma hspec_bind {A B} (m : H A) (f : A -> H B) P Q :
  hspec m P -> (forall a n, P a n -> hspec (f a) (fun b k => Q b (n + k)%Z)) ->
  hspec (m ≫= f) Q.
Proof.
  intros Hm Hf h. unfold mbind, H_bind. specialize (Hm h).
  destruct (m h) as [[a h1]| | |]; try done. cbn in Hm.
  eapply yields_mono; [apply (Hf a _ Hm h1)|]. intros [b h2].
  by replace (live h1 - live h + (live h2 - live h1))%Z with (live h2 - live h)%Z by lia.
Qed.

Lemma hspec_ret_bind {A B} (a : A) (f : A -> H B) Q : hspec (f a) Q -> hspec (mret a ≫= f) Q.
Proof. intros Hf h. exact (Hf h). Qed.

Lemma hspec_mono {A} (m : H A) (P Q : A -> Z -> Prop) :
  hspec m P -> (forall a n, P a n -> Q a n) -> hspec m Q.
Proof. intros Hm HQ h. eapply yields_mono; [apply Hm|]. intros [a h']. apply HQ. Qed.

Lemma hspec_lift {A} (m : outcome A) P : yields m P -> hspec (hlift m) (fun a n => P a /\ n = 0%Z).
Proof. intros Hm h. destruct m; try done. cbn. split; [done|lia]. Qed.

Lemma hspec_malloc : hspec malloc (fun ok n => n = if ok then 1 else 0)%Z.
Proof. intros h. unfold malloc. destruct (fails h) as [|[] f]; cbn; lia. Qed.

Lemma hspec_mfree n : hspec (mfree n) (fun _ k => k = - n)%Z.
Proof. intros h. cbn. lia. Qed.

(** A heap on which no allocation fails. *)
Definition never_fails (h : heap) : Prop := fails h = [].

Lemma malloc_never h : never_fails h -> exists h', malloc h = Ret (true, h') /\ never_fails h'.
Proof. unfold never_fails, malloc. intros ->. eauto. Qed.

(** The same judgement for both kinds of heap: with [nf] set it is about heaps on
    which no allocation fails, without it about any heap. *)
Definition hspecn (nf : bool) {A} (m : H A) (Q : A -> Z -> Prop) : Prop :=
  forall h, (nf = true -> never_fails h) ->
    yields (m h) (fun '(a, h') => (nf = true -> never_fails h') /\ Q a (live h' - live h)%Z).

Lemma hspecn_any {A} (m : H A) Q : hspecn false m Q -> hspec m Q.
Proof.
  intros Hm h. eapply yields_mono; [apply (Hm h); done|]. by intros [a h'] [_ ?].
Qed.

Lemma hspecn_never {A} (m : H A) Q h : hspecn true m Q -> never_fails h ->
  yields (m h) (fun '(a, h') => never_fails h' /\ Q a (live h' - live h)%Z).
Proof.
  intros Hm Hh. eapply yields_mono; [by apply (Hm h)|]. intros [a h'] [? ?]. auto.
Qed.

Lemma hn_ret {nf A} (a : A) (Q : A -> Z -> Prop) : Q a 0%Z -> hspecn nf (mret a) Q.
Proof. intros HQ h Hh. cbn. by rewrite Z.sub_diag. Qed.

Lemma hn_bind {nf A B} (m : H A) (f : A -> H B) P Q :
  hspecn nf m P -> (forall a n, P a n -> hspecn nf (f a) (fun b k => Q b (n + k)%Z)) ->
  hspecn nf (m ≫= f) Q.
Proof.
  intros Hm Hf h Hh. unfold mbind, H_bind. specialize (Hm h Hh).
  destruct (m h) as [[a h1]| | |]; try done. cbn in Hm. destruct Hm as [Hh1 Hm].
  eapply yields_mono; [apply (Hf a _ Hm h1 Hh1)|]. intros [b h2].
  by replace (live h1 - live h + (live h2 - live h1))%Z with (live h2 - live h)%Z by lia.
Qed.

Lemma hn_ret_bind {nf A B} (a : A) (f : A -> H B) Q : hspecn nf (f a) Q -> hspecn nf (mret a ≫= f) Q.
Proof. intros Hf h. exact (Hf h). Qed.

Lemma hn_mono {nf A} (m : H A) (P Q : A -> Z -> Prop) :
  hspecn nf m P -> (forall a n, P a n -> Q a n) -> hspecn nf m Q.
Proof.
  intros Hm HQ h Hh. eapply yields_mono; [by apply Hm|]. intros [a h'] [? ?]. auto.
Qed.

(** A lookup in front of a step. *)
Lemma hn_lookup {nf A B} (m : outcome A) (f : A -> H B) P Q :
  yields m P -> (forall a, P a -> hspecn nf (f a) Q) -> hspecn nf (hlift m ≫= f) Q.
Proof.
  intros Hm Hf h Hh. unfold mbind, H_bind. destruct m; try done. cbn. by apply (Hf a Hm).
Qed.

Lemma hn_lookup_eq {nf A B} (m : outcome A) (f : A -> H B) P Q :
  yields m P -> (forall a, m = Ret a -> P a -> hspecn nf (f a) Q) -> hspecn nf (hlift m ≫= f) Q.
Proof.
  intros Hm Hf. destruct m as [a| | |]; try done. apply (hn_lookup (Ret a) f (eq a)); [done|].
  intros ? <-. by apply Hf.
Qed.

Lemma hn_malloc {nf} : hspecn nf malloc (fun ok n => n = (if ok then 1 else 0)%Z /\ (nf = true -> ok = true)).
Proof.
  intros h Hh. unfold malloc. destruct (fails h) as [|b f] eqn:E.
  - cbn. split; [done|]. split; [lia|done].
  - destruct nf; [specialize (Hh eq_refl); unfold never_fails in Hh; congruence|].
    destruct b; cbn; (split; [done|split; [lia|done]]).
Qed.

Lemma hn_mfree {nf} n : hspecn nf (mfree n) (fun _ k => k = - n)%Z.
Proof. intros h Hh. cbn. split; [done|lia]. Qed.

(** Only a heap on which allocations may fail makes one fail. *)
Lemma nf_failed (nf : bool) : (nf = true -> false = true) -> nf = false.
Proof. destruct nf; [|done]. intros Hn. by specialize (Hn eq_refl). Qed.

#[export] Hint Resolve nf_failed : mdns.

(** Both at once: [P] holds on any heap; one on which no allocation fails stays
    so, and there [R] holds of the result. *)
Definition hfull {A} (m : H A) (P : A -> Z -> Prop) (R : A -> Prop) : Prop := forall h,
  yields (m h) (fun '(a, h') => P a (live h' - live h)%Z /\ (never_fails h -> never_fails h' /\ R a)).

Lemma hfull_malloc : hfull malloc (fun ok n => n = if ok then 1 else 0)%Z (fun ok => ok = true).
Proof.
  intros h. unfold malloc, never_fails. destruct (fails h) as [|[] f]; cbn; (split; [lia|]); done.
Qed.

Lemma hfull_mfree n : hfull (mfree n) (fun _ k => k = - n)%Z (fun _ => True).
Proof. intros h. cbn. split; [lia|done]. Qed.

(** A heap on which no allocation fails stays so. *)
Definition stays {A} (m : H A) : Prop := forall h a h', never_fails h -> m h = Ret (a, h') -> never_fails h'.

Lemma stays_bind {A B} (m : H A) (f : A -> H B) : stays m -> (forall a, stays (f a)) -> stays (m ≫= f).
Proof.
  intros Hm Hf h b h' Hh. unfold mbind, H_bind. destruct (m h) as [[a h1]| | |] eqn:E; try done.
  apply Hf. by eapply Hm.
Qed.

Lemma stays_ret {A} (a : A) : stays (mret a : H A).
Proof. by intros h b h' Hh [= _ <-]. Qed.

Lemma stays_lift {A} (m : outcome A) : stays (hlift m).
Proof. intros h a h' Hh. unfold hlift. by destruct m; intros [= _ <-]. Qed.

Lemma stays_malloc : stays malloc.
Proof. intros h a h' Hh. unfold malloc. rewrite Hh. by intros [= _ <-]. Qed.

Lemma stays_mfree n : stays (mfree n).
Proof. intros h a h' Hh [= _ <-]. done. Qed.

Create HintDb stays.
#[export] Hint Resolve stays_bind stays_ret stays_lift stays_malloc stays_mfree : stays.

Lemma stays_hspecn {A} (m : H A) Q : hspecn true m Q -> stays m.
Proof. intros Hm h a h' Hn E. specialize (Hm h (fun _ => Hn)). rewrite E in Hm. by apply Hm. Qed.

Lemma hspecn_stays {nf A} (m : H A) Q : hspec m Q -> stays m -> hspecn nf m Q.
Proof.
  intros Hm Hs h Hh. specialize (Hm h). destruct (m h) as [[a h']| | |] eqn:E; try done. cbn in *.
  split; [|done]. intros Hn. by eapply Hs; [apply Hh|].
Qed.
