(* ===== verification/Txt.v ===== *)
(** TXT records on the receive side: components/mdns/mdns_receive.c,
    [get_txt_items_count], [get_txt_item_len], [parse_txt_item_data],
    [result_txt_create] and [result_txt_linked_list_create].

    The data of the record is a list of bytes with its length [len]; an offset
    stands for a pointer into it.  Allocations run in the monad of Heap.v. *)
From S2P Require Import Prelude Names Server Heap.

(** A [uint16_t] index. *)
Definition idx16 (n : nat) : nat := Z.to_nat (u16 (Z.of_nat n)).

(** * Counting *)

Fixpoint count_items (fuel : nat) (data : list Z) (len i : nat) (num_items : Z) : outcome Z :=
  match fuel with
  | O => OutOfFuel
  | S fuel =>
      if i <? len then
        item_len ← rd data i;
        let i := i + 1 in
        if (item_len =? 0)%Z then count_items fuel data len i num_items
        else if len - i <? Z.to_nat item_len then Ret (-1)%Z
        else count_items fuel data len (i + Z.to_nat item_len) (num_items + 1)
      else Ret num_items
  end.

Definition get_txt_items_count (data : list Z) (len : nat) : outcome Z :=
  if len =? 1 then Ret 0%Z else count_items (S len) data len 0 0.

(** The [for] loop: the offset of the first ['='] among [n] bytes from [i] on. *)
Fixpoint find_equals (data : list Z) (off n i : nat) : outcome Z :=
  match n with
  | O => Ret (Z.of_nat i)
  | S n =>
      c ← rd data (off + i);
      if (c =? 61)%Z then Ret (Z.of_nat i) else find_equals data off n (S i)
  end.

Definition get_txt_item_len (data : list Z) (off len : nat) : outcome Z :=
  c ← rd data off;
  if (c =? 61)%Z then Ret (-1)%Z else find_equals data off len 0.

(** * One item *)

Inductive txt_result :=
| TxtOk (key : cstr) (value : option (list Z)) (value_len : Z)
| TxtInvalid
| TxtNoMem.

Definition parse_txt_item_data (data : list Z) (off item_len : nat) : H txt_result :=
  key_len ← hlift (get_txt_item_len data off item_len);
  if (key_len <? 0)%Z then mret TxtInvalid
  else
    let key_len := Z.to_nat key_len in
    key_bytes ← hlift (rd_bytes data off key_len);
    key ← malloc;
    if negb key then mret TxtNoMem
    else
      let value_index := key_len + (if key_len <? item_len then 1 else 0) in
      let value_len := u8 (if value_index <? item_len then Z.of_nat (item_len - value_index) else 0) in
      if key_len <? item_len then
        value ← malloc;
        if negb value then (_ ← mfree 1; mret TxtNoMem)
        else
          bs ← hlift (rd_bytes data (off + value_index) (Z.to_nat value_len));
          mret (TxtOk (cstr_of key_bytes) (Some (bs ++ [0%Z])) value_len)
      else mret (TxtOk (cstr_of key_bytes) None value_len).

(** Blocks held by an item: its key and its value. *)
Definition item_blocks (t : mdns_txt_linked_item_t) : Z :=
  (match key t with Some _ => 1 | None => 0 end + match value t with Some _ => 1 | None => 0 end)%Z.

Definition items_blocks (l : list mdns_txt_linked_item_t) : Z :=
  foldr (fun t n => item_blocks t + n)%Z 0%Z l.

(** * The result array *)

(** The filling loop.  [acc] holds the [txt_num] items stored so far; [None] is
    the [handle_error] label. *)
Fixpoint fill_items (fuel : nat) (data : list Z) (len num_items data_index : nat)
    (acc : list mdns_txt_linked_item_t) : H (option (list mdns_txt_linked_item_t)) :=
  match fuel with
  | O => hlift OutOfFuel
  | S fuel =>
      if (data_index <? len) && (length acc <? num_items) then
        item_len ← hlift (rd data data_index);
        let data_index := idx16 (data_index + 1) in
        if (item_len =? 0)%Z then fill_items fuel data len num_items data_index acc
        else
          let item_len := Z.to_nat item_len in
          if len <? data_index + item_len then _ ← mfree (items_blocks acc); mret None
          else
            r ← parse_txt_item_data data data_index item_len;
            let data_index := idx16 (data_index + item_len) in
            match r with
            | TxtOk k v l =>
                fill_items fuel data len num_items data_index (acc ++ [mk_txt (Some k) v l])
            | TxtInvalid => fill_items fuel data len num_items data_index acc
            | TxtNoMem => _ ← mfree (items_blocks acc); mret None
            end
      else mret (Some acc)
  end.

(** The two arrays [txt] and [txt_value_len] are given as one list of items;
    the result is empty when the code leaves its outputs null.  A count that
    [size_t] division by the item size excludes cannot occur for [len] below
    [2^16]. *)
Definition result_txt_create (data : list Z) (len : nat) : H (list mdns_txt_linked_item_t) :=
  num_items ← hlift (get_txt_items_count data len);
  if (num_items <=? 0)%Z then mret []
  else
    txt ← malloc;
    if negb txt then mret []
    else
      txt_value_len ← malloc;
      if negb txt_value_len then _ ← mfree 1; mret []
      else
        r ← fill_items (S len) data len (Z.to_nat num_items) 0 [];
        match r with
        | None => _ ← mfree 2; mret []
        | Some [] => _ ← mfree 2; mret []
        | Some l => mret l
        end.

(** * The linked list *)

(** Blocks of a list whose nodes are allocated one by one. *)
Definition list_blocks (l : list mdns_txt_linked_item_t) : Z :=
  foldr (fun t n => 1 + item_blocks t + n)%Z 0%Z l.

(** [acc] is the list built so far; a failed item is the node at its end, whose
    key and value are null. *)
Fixpoint link_items (fuel : nat) (data : list Z) (len num_items data_index : nat)
    (acc : list mdns_txt_linked_item_t) : H (option (list mdns_txt_linked_item_t)) :=
  match fuel with
  | O => hlift OutOfFuel
  | S fuel =>
      if (data_index <? len) && (length acc <? num_items) then
        item_len ← hlift (rd data data_index);
        let data_index := idx16 (data_index + 1) in
        if (item_len =? 0)%Z then link_items fuel data len num_items data_index acc
        else
          let item_len := Z.to_nat item_len in
          if len <? data_index + item_len then _ ← mfree (list_blocks acc); mret None
          else
            node ← malloc;
            if negb node then _ ← mfree (list_blocks acc); mret None
            else
              r ← parse_txt_item_data data data_index item_len;
              let data_index := idx16 (data_index + item_len) in
              match r with
              | TxtOk k v l =>
                  link_items fuel data len num_items data_index (acc ++ [mk_txt (Some k) v l])
              | TxtInvalid => _ ← mfree 1; link_items fuel data len num_items data_index acc
              | TxtNoMem => _ ← mfree (list_blocks (acc ++ [mk_txt None None 0])); mret None
              end
      else mret (Some acc)
  end.

(** [None] is the return value false. *)
Definition result_txt_linked_list_create (data : list Z) (len : nat)
    : H (option (list mdns_txt_linked_item_t)) :=
  num_items ← hlift (get_txt_items_count data len);
  if (num_items <? 0)%Z then mret None
  else if (num_items =? 0)%Z then mret (Some [])
  else link_items (S len) data len (Z.to_nat num_items) 0 [].

(** * Safety and ownership *)

(** An item as the parsers make it: the bytes of the value are there. *)
Definition txt_item_wf (t : mdns_txt_linked_item_t) : Prop :=
  is_Some (key t) /\ (0 <= value_len t)%Z
  /\ match value t with Some x => Z.to_nat (value_len t) <= length x | None => value_len t = 0%Z end.

Lemma idx16_small n : (Z.of_nat n < 65536)%Z -> idx16 n = n.
Proof. intros Hn. unfold idx16. rewrite u16_small by lia. lia. Qed.

Lemma count_items_ok fuel data len i n :
  len <= length data -> i <= len -> len - i < fuel -> Forall byte_ok data ->
  yields (count_items fuel data len i n) (fun _ => True).
Proof.
  revert i n; induction fuel as [|fuel IH]; intros i n Hl Hi Hf Hb; [lia|].
  cbn [count_items]. case_on_goal; bsimp; [|done].
  eapply yields_bind; [apply rd_yields; lia|]. intros c Hc.
  assert (byte_ok c) as Hcb by exact (Forall_lookup_1 _ _ _ _ Hb Hc). unfold byte_ok in Hcb.
  case_on_goal; bsimp; [apply IH; try done; lia|].
  case_on_goal; bsimp; [done|]. apply IH; try done; lia.
Qed.

Lemma get_txt_items_count_ok data len : len <= length data -> Forall byte_ok data ->
  yields (get_txt_items_count data len) (fun _ => True).
Proof.
  intros Hl Hb. unfold get_txt_items_count. case_on_goal; [done|].
  apply count_items_ok; try done; lia.
Qed.

Lemma find_equals_ok data off n i : off + i + n <= length data ->
  yields (find_equals data off n i) (fun k => Z.of_nat i <= k <= Z.of_nat (i + n))%Z.
Proof.
  revert i; induction n as [|n IH]; intros i Hl; cbn [find_equals]; [cbn; lia|].
  eapply yields_bind; [apply rd_yields; lia|]. intros c _. case_on_goal; [cbn; lia|].
  eapply yields_mono; [apply IH; lia|]. cbn. lia.
Qed.

Lemma get_txt_item_len_ok data off len : 0 < len -> off + len <= length data ->
  yields (get_txt_item_len data off len) (fun k => -1 <= k <= Z.of_nat len)%Z.
Proof.
  intros H0 Hl. unfold get_txt_item_len. eapply yields_bind; [apply rd_yields; lia|].
  intros c _. case_on_goal; [cbn; lia|].
  eapply yields_mono; [apply find_equals_ok; lia|]. cbn. lia.
Qed.

Lemma parse_txt_item_data_ok data off item_len :
  0 < item_len < 256 -> off + item_len <= length data ->
  hspec (parse_txt_item_data data off item_len)
    (fun r n => match r with
     | TxtOk k v l => n = item_blocks (mk_txt (Some k) v l) /\ txt_item_wf (mk_txt (Some k) v l)
     | _ => n = 0%Z end).
Proof.
  intros H0 Hl. unfold parse_txt_item_data.
  eapply hspec_bind; [apply hspec_lift, get_txt_item_len_ok; lia|].
  intros kl n [Hk ->]. cbn beta in Hk. case_on_goal; bsimp; [by apply hspec_ret|].
  eapply hspec_bind; [apply hspec_lift, rd_bytes_yields; lia|].
  intros kb n [_ ->]. eapply hspec_bind; [apply hspec_malloc|].
  intros [] n ->; cbn [negb]; [|by apply hspec_ret].
  case_on_goal; bsimp.
  2:{ apply hspec_ret. split; [done|]. rewrite (proj2 (Nat.ltb_ge _ _)) by lia. change (u8 0) with 0%Z.
      split_and!; [by eexists|done|done]. }
  eapply hspec_bind; [apply hspec_malloc|].
  intros [] n ->; cbn [negb]; [|eapply hspec_bind; [apply hspec_mfree|]; intros ? ? ->; by apply hspec_ret].
  set (vi := Z.to_nat kl + 1). set (vl := u8 _).
  assert (off + vi + Z.to_nat vl <= length data) as Hv.
  { unfold vl. destruct (Nat.ltb_spec vi item_len); [|change (u8 0) with 0%Z; unfold vi in *; lia].
    rewrite u8_small by lia. unfold vi in *. lia. }
  eapply hspec_bind; [apply hspec_lift, rd_bytes_yields; lia|].
  intros bs n [Hbs ->]. apply hspec_ret. split; [done|]. split_and!; [by eexists| |].
  - cbn. unfold vl, u8. apply Z.mod_pos_bound. lia.
  - cbn [value value_len]. rewrite length_app, Hbs, length_take, length_drop. lia.
Qed.

Lemma items_blocks_app l t : items_blocks (l ++ [t]) = (items_blocks l + item_blocks t)%Z.
Proof. unfold items_blocks, list_blocks in *. induction l as [|x l IH]; cbn [app foldr] in *; lia. Qed.

Lemma list_blocks_app l t : list_blocks (l ++ [t]) = (list_blocks l + 1 + item_blocks t)%Z.
Proof. unfold items_blocks, list_blocks in *. induction l as [|x l IH]; cbn [app foldr] in *; lia. Qed.

Ltac hfree := eapply hspec_bind; [apply hspec_mfree|]; intros ? ? ->; apply hspec_ret; cbn; lia.

Lemma fill_items_ok fuel : forall data len num i acc,
  (Z.of_nat len < 65536)%Z -> len <= length data -> i <= len -> len - i < fuel ->
  Forall byte_ok data ->
  hspec (fill_items fuel data len num i acc)
    (fun r n => n = match r with
     | Some l => items_blocks l - items_blocks acc | None => - items_blocks acc end)%Z.
Proof.
  induction fuel as [|fuel IH]; intros data len num i acc H16 Hl Hi Hf Hb; [lia|].
  cbn [fill_items]. case_on_goal; bsimp; [|apply hspec_ret; cbn; lia].
  eapply hspec_bind; [apply hspec_lift, rd_yields; lia|]. intros c n [Hc ->].
  assert (byte_ok c) as Hcb by exact (Forall_lookup_1 _ _ _ _ Hb Hc). unfold byte_ok in Hcb.
  rewrite (idx16_small (i + 1)) by lia. cbn zeta.
  case_on_goal; bsimp; [apply IH; done || lia|].
  case_on_goal; bsimp; [hfree|].
  eapply hspec_bind; [apply parse_txt_item_data_ok; lia|]. intros r n Hr.
  rewrite idx16_small by lia. destruct r as [k v l| |]; [destruct Hr as [-> _]|subst n..]; [| |hfree].
  - eapply hspec_mono; [apply IH; try done; lia|]. intros r n ->.
    destruct r; rewrite items_blocks_app; cbn; lia.
  - apply IH; done || lia.
Qed.

Lemma link_items_ok fuel : forall data len num i acc,
  (Z.of_nat len < 65536)%Z -> len <= length data -> i <= len -> len - i < fuel ->
  Forall byte_ok data -> Forall txt_item_wf acc ->
  hspec (link_items fuel data len num i acc)
    (fun r n => match r with
     | Some l => n = (list_blocks l - list_blocks acc)%Z /\ Forall txt_item_wf l
     | None => n = (- list_blocks acc)%Z end).
Proof.
  induction fuel as [|fuel IH]; intros data len num i acc H16 Hl Hi Hf Hb Hw; [lia|].
  cbn [link_items]. case_on_goal; bsimp; [|apply hspec_ret; split; [lia|done]].
  eapply hspec_bind; [apply hspec_lift, rd_yields; lia|]. intros c n [Hc ->].
  assert (byte_ok c) as Hcb by exact (Forall_lookup_1 _ _ _ _ Hb Hc). unfold byte_ok in Hcb.
  rewrite (idx16_small (i + 1)) by lia. cbn zeta.
  case_on_goal; bsimp; [apply IH; done || lia|].
  case_on_goal; bsimp; [hfree|].
  eapply hspec_bind; [apply hspec_malloc|]. intros [] n ->; cbn [negb]; [|hfree].
  eapply hspec_bind; [apply parse_txt_item_data_ok; lia|]. intros r n Hr.
  rewrite idx16_small by lia. destruct r as [k v l| |]; [destruct Hr as [-> Hkv]|subst n..].
  - eapply hspec_mono; [apply IH; first [done|lia|by apply Forall_app_2; [|constructor]]|].
    intros r n. destruct r; rewrite list_blocks_app; [intros [-> ?]; split; [|done]|intros ->]; cbn; lia.
  - eapply hspec_bind; [apply hspec_mfree|]; intros ? ? ->.
    eapply hspec_mono; [apply IH; done || lia|]. intros r n. destruct r; [intros [-> ?]; split; [|done]|intros ->]; cbn; lia.
  - eapply hspec_bind; [apply hspec_mfree|]; intros ? ? ->. apply hspec_ret.
    rewrite list_blocks_app. unfold item_blocks. cbn [key value]. lia.
Qed.

Lemma txt_array_owned data len : (Z.of_nat len < 65536)%Z -> len <= length data -> Forall byte_ok data ->
  hspec (result_txt_create data len) (fun l n => n = match l with [] => 0 | _ => 2 + items_blocks l end)%Z.
Proof.
  intros H16 Hl Hb. unfold result_txt_create.
  eapply hspec_bind; [by apply hspec_lift, get_txt_items_count_ok|]. intros num n [_ ->].
  case_on_goal; [by apply hspec_ret|].
  eapply hspec_bind; [apply hspec_malloc|]. intros [] n ->; cbn [negb]; [|by apply hspec_ret].
  eapply hspec_bind; [apply hspec_malloc|]. intros [] n ->; cbn [negb]; [|hfree].
  eapply hspec_bind; [apply fill_items_ok; done || lia|]. intros [[|t l]|] n ->; cbn zeta.
  - hfree.
  - apply hspec_ret. change (items_blocks []) with 0%Z. lia.
  - hfree.
Qed.

Lemma parse_item_stays data off len : stays (parse_txt_item_data data off len).
Proof. unfold parse_txt_item_data. repeat (case_on_goal || (intros; cbn zeta) || eapply stays_bind); auto with stays. Qed.

Lemma fill_items_stays fuel data len num : forall i acc, stays (fill_items fuel data len num i acc).
Proof.
  induction fuel as [|fuel IH]; intros i acc; cbn [fill_items]; [apply stays_lift|].
  case_on_goal; [|apply stays_ret]. apply stays_bind; [apply stays_lift|]. intros b. cbn zeta.
  case_on_goal; [apply IH|]. case_on_goal; [auto with stays|].
  apply stays_bind; [apply parse_item_stays|]. intros [k v l| |]; auto with stays.
Qed.

Lemma txt_create_stays data len : stays (result_txt_create data len).
Proof.
  unfold result_txt_create. apply stays_bind; [apply stays_lift|]. intros num. case_on_goal; [apply stays_ret|].
  apply stays_bind; [apply stays_malloc|]. intros ok. case_on_goal; [apply stays_ret|].
  apply stays_bind; [apply stays_malloc|]. intros ok'. case_on_goal; [auto with stays|].
  apply stays_bind; [apply fill_items_stays|]. intros [[|t l]|]; auto with stays.
Qed.

(** C8. Parsing the data of a TXT record, for any bytes and any pattern of
    allocation failures: both parsers terminate and read inside the data, and
    the blocks they leave allocated are exactly those of the result they
    return; on every error path nothing is leaked and nothing freed twice. *)
Theorem txt_create_owns data len :
  (Z.of_nat len < 65536)%Z -> len <= length data -> Forall byte_ok data ->
  hspec (result_txt_create data len)
    (fun l n => n = match l with [] => 0 | _ => 2 + items_blocks l end)%Z
  /\ hspec (result_txt_linked_list_create data len)
    (fun r n => n = match r with Some l => list_blocks l | None => 0 end)%Z.
Proof.
  intros H16 Hl Hb. split; [by apply txt_array_owned|].
  unfold result_txt_linked_list_create.
  eapply hspec_bind; [by apply hspec_lift, get_txt_items_count_ok|]. intros num n [_ ->].
  case_on_goal; [by apply hspec_ret|]. case_on_goal; [by apply hspec_ret|].
  eapply hspec_mono; [apply link_items_ok; done || lia|]. intros [l|] n; [intros [-> _]|intros ->]; cbn; lia.
Qed.
