(* ===== verification/TxtRoundtrip.v ===== *)
(** The two ends of a TXT record: what [append_txt_record] writes for a list of
    items, [result_txt_create] and [result_txt_linked_list_create] read back. *)
From S2P Require Import Prelude Names Server Encode Heap Txt.

(** * Items and their wire format *)

(** An item a service may hold: a key without ['='], and a value of the stated
    length, together at most 255 bytes. *)
Definition txt_item_ok (t : mdns_txt_linked_item_t) : Prop :=
  match key t with
  | None => False
  | Some k =>
      0 < length k /\ Forall (fun c => (0 < c < 256)%Z /\ c <> 61%Z) k
      /\ (0 <= value_len t)%Z
      /\ match value t with
         | Some v => Z.to_nat (value_len t) <= length v
                     /\ length k + 1 + Z.to_nat (value_len t) < 256
         | None => value_len t = 0%Z /\ length k < 256
         end
  end.

Definition key_of (t : mdns_txt_linked_item_t) : cstr := match key t with Some k => k | None => [] end.

Definition value_of (t : mdns_txt_linked_item_t) : list Z :=
  match value t with Some v => take (Z.to_nat (value_len t)) v | None => [] end.

Definition txt_payload (t : mdns_txt_linked_item_t) : list Z :=
  key_of t ++ match value t with Some _ => 61%Z :: value_of t | None => [] end.

Definition txt_entry (t : mdns_txt_linked_item_t) : list Z :=
  Z.of_nat (length (txt_payload t)) :: txt_payload t.

Definition txt_bytes (l : list mdns_txt_linked_item_t) : list Z := concat (map txt_entry l).

(** What the receiver rebuilds: the value in a block with a final zero byte. *)
Definition received (t : mdns_txt_linked_item_t) : mdns_txt_linked_item_t :=
  mk_txt (Some (key_of t))
    (match value t with Some _ => Some (value_of t ++ [0%Z]) | None => None end) (value_len t).

Lemma payload_range t : txt_item_ok t -> 0 < length (txt_payload t) < 256.
Proof.
  unfold txt_item_ok, txt_payload, key_of, value_of.
  destruct (key t) as [k|]; [|done]. intros (Hk & _ & Hv & H).
  destruct (value t) as [v|]; rewrite length_app; cbn [length]; rewrite ?length_take; lia.
Qed.

Lemma entry_length t : length (txt_entry t) = S (length (txt_payload t)).
Proof. done. Qed.

(** * Writing *)

(** Bytes stored at the write index. *)
Definition written (p : pkt) (bs : list Z) : pkt :=
  mk_pkt (take (index p) (buf p) ++ bs ++ drop (index p + length bs) (buf p))
    (index p + length bs).

Lemma put_written p bs : index p + length bs <= length (buf p) ->
  put bs p = Ret (tt, written p bs).
Proof. intros Hl. unfold put. rewrite wr_bytes_ok by done. done. Qed.

Lemma written_length p bs : index p + length bs <= length (buf p) ->
  length (buf (written p bs)) = length (buf p).
Proof. intros Hl. cbn. rewrite !length_app, length_take, length_drop. lia. Qed.

Lemma written_app p xs ys : index p + length xs + length ys <= length (buf p) ->
  written (written p xs) ys = written p (xs ++ ys).
Proof.
  intros Hl. unfold written; cbn [buf index]. rewrite length_app.
  f_equal; [|lia].
  assert (length (take (index p) (buf p)) = index p) as Ht by (rewrite length_take; lia).
  assert (length (take (index p) (buf p) ++ xs) = index p + length xs) as Hx
    by (rewrite length_app; lia).
  rewrite (app_assoc (take (index p) (buf p)) xs).
  rewrite take_app_length' by done.
  rewrite <- (drop_drop _ _ (index p + length xs)), drop_app_length' by done.
  rewrite drop_drop, <- !app_assoc. do 4 f_equal. lia.
Qed.

Lemma append_u8_written v p : index p < MDNS_MAX_PACKET_SIZE -> index p + 1 <= length (buf p) ->
  mdns_utils_append_u8 v p = Ret (1%Z, written p [u8 v]).
Proof.
  intros Hi Hl. unfold mdns_utils_append_u8. rewrite (proj2 (Nat.leb_gt _ _)) by lia.
  unfold mbind, W_bind. rewrite put_written by done. done.
Qed.

(** One entry is written as its length byte and its payload. *)
Lemma append_entry_written t p : txt_item_ok t ->
  index p + length (txt_entry t) < MDNS_MAX_PACKET_SIZE ->
  index p + length (txt_entry t) <= length (buf p) ->
  mdns_priv_append_one_txt_record_entry t p
  = Ret (Z.of_nat (length (txt_entry t)), written p (txt_entry t)).
Proof.
  intros Ht Hi Hb. pose proof (payload_range _ Ht) as Hr. rewrite entry_length in *.
  unfold mdns_priv_append_one_txt_record_entry. pose proof Ht as Hok. unfold txt_item_ok in Hok.
  destruct (key t) as [k|] eqn:Ek; [|done]. destruct Hok as (Hk & _ & Hv0 & Hv).
  set (len := length k + _ + _).
  assert (len = length (txt_payload t)) as Hlen.
  { unfold len, txt_payload, key_of, value_of. rewrite Ek.
    destruct (value t); rewrite length_app; cbn [length]; rewrite ?length_take; lia. }
  clearbody len. subst len. rewrite (proj2 (Nat.leb_gt _ _)) by lia.
  unfold mbind at 1, W_bind at 1. rewrite append_u8_written by lia.
  rewrite u8_small by lia. set (p1 := written p _).
  assert (length (buf p1) = length (buf p)) as Hb1 by (apply written_length; cbn; lia).
  assert (index p1 = index p + 1) as Hi1 by done.
  assert (Hput : put (txt_payload t) p1 = Ret (tt, written p (txt_entry t))).
  { rewrite put_written by lia. unfold p1. rewrite written_app by (cbn; lia). done. }
  assert (Hpay : txt_payload t
    = k ++ match value t with Some v => 61%Z :: take (Z.to_nat (value_len t)) v | None => [] end).
  { unfold txt_payload, key_of, value_of. rewrite Ek. by destruct (value t). }
  rewrite Hpay in Hput at 1.
  destruct (value t) as [v|] eqn:Ev.
  - unfold mbind, W_bind. rewrite rd_bytes_ok by lia. cbn [lift]. rewrite drop_0, Hput.
    unfold mret, W_ret. by rewrite Nat.add_1_r.
  - rewrite app_nil_r in Hput. destruct Hv as [Hv _].
    unfold mbind, W_bind. rewrite Hput. unfold advance. rewrite Hv. cbn [Z.to_nat].
    rewrite Nat.add_0_r. unfold mret, W_ret. rewrite Nat.add_1_r. by destruct (written p _).
Qed.

Lemma append_items_written l : forall p n, Forall txt_item_ok l ->
  index p + length (txt_bytes l) < MDNS_MAX_PACKET_SIZE ->
  index p + length (txt_bytes l) <= length (buf p) ->
  (0 <= n)%Z -> (n + Z.of_nat (length (txt_bytes l)) < 65536)%Z ->
  append_txt_items l n p
  = Ret (Some (n + Z.of_nat (length (txt_bytes l)))%Z, written p (txt_bytes l)).
Proof.
  induction l as [|t l IH]; intros p n Hl Hi Hb Hn H16.
  { cbn. rewrite Z.add_0_r. unfold written. cbn. rewrite Nat.add_0_r, take_drop.
    by destruct p. }
  apply Forall_cons in Hl as [Ht Hl].
  change (txt_bytes (t :: l)) with (txt_entry t ++ txt_bytes l) in *.
  rewrite length_app in *. cbn [append_txt_items]. unfold mbind, W_bind.
  rewrite append_entry_written by (done || lia).
  rewrite (proj2 (Z.ltb_lt _ _)) by (rewrite entry_length; lia).
  rewrite u16_small by lia.
  rewrite IH; [|done|cbn [index written]; lia|rewrite written_length by lia; cbn [index written]; lia|lia|lia].
  rewrite written_app by lia. by rewrite Nat2Z.inj_add, Z.add_assoc.
Qed.

(** * Reading back *)

Lemma find_equals_none data off n i k : has data (off + i) k -> length k = n ->
  Forall (fun c => c <> 61%Z) k -> find_equals data off n i = Ret (Z.of_nat (i + n)).
Proof.
  revert i k; induction n as [|n IH]; intros i k Hh Hn Hk; cbn [find_equals].
  { by rewrite Nat.add_0_r. }
  destruct k as [|c k]; [done|]. rewrite (rd_has _ _ _ _ Hh). cbn [mbind outcome_bind].
  apply Forall_cons in Hk as [Hc Hk]. rewrite (proj2 (Z.eqb_neq c 61) Hc).
  apply has_cons in Hh as [_ Hh]. rewrite <- Nat.add_assoc, Nat.add_1_r in Hh.
  rewrite (IH (S i) k); [do 2 f_equal; lia|done|by injection Hn|done].
Qed.

Lemma find_equals_some data off n i k rest : has data (off + i) (k ++ 61%Z :: rest) ->
  length k < n -> Forall (fun c => c <> 61%Z) k ->
  find_equals data off n i = Ret (Z.of_nat (i + length k)).
Proof.
  revert i k; induction n as [|n IH]; intros i k Hh Hn Hk; [lia|]. cbn [find_equals].
  destruct k as [|c k].
  - rewrite (rd_has _ _ _ _ Hh). cbn. by rewrite Nat.add_0_r.
  - cbn [app] in Hh. rewrite (rd_has _ _ _ _ Hh). cbn [mbind outcome_bind].
    apply Forall_cons in Hk as [Hc Hk]. rewrite (proj2 (Z.eqb_neq c 61) Hc).
    apply has_cons in Hh as [_ Hh]. rewrite <- Nat.add_assoc, Nat.add_1_r in Hh.
    rewrite (IH (S i) k); [cbn [length]; do 2 f_equal; lia|done|cbn in Hn; lia|done].
Qed.

(** The key ends at the first ['='], or takes the whole item. *)
Lemma item_len_payload data off t : txt_item_ok t -> has data off (txt_payload t) ->
  get_txt_item_len data off (length (txt_payload t)) = Ret (Z.of_nat (length (key_of t))).
Proof.
  intros Ht Hh. unfold txt_item_ok in Ht. unfold txt_payload, get_txt_item_len in *.
  destruct (key t) as [k|] eqn:Ek; [|done]. unfold key_of in *. rewrite Ek in *.
  destruct Ht as (Hk & Hc & _). destruct k as [|c k]; [cbn in Hk; lia|].
  assert (Forall (fun c => c <> 61%Z) (c :: k)) as Hne
    by (eapply Forall_impl; [exact Hc|]; by intros ? [_ ?]).
  pose proof Hh as Hh0. cbn [app] in Hh0. rewrite (rd_has _ _ _ _ Hh0). cbn [mbind outcome_bind].
  apply Forall_cons in Hne as Hne'. destruct Hne' as [Hc0 _].
  rewrite (proj2 (Z.eqb_neq c 61) Hc0). rewrite <- (Nat.add_0_r off) in Hh.
  destruct (value t).
  - apply (find_equals_some _ _ _ 0 _ _ Hh); [|done]. rewrite length_app. cbn. lia.
  - rewrite app_nil_r in *. by apply (find_equals_none _ _ _ 0 _ Hh).
Qed.

Lemma parse_payload data off t h : txt_item_ok t -> has data off (txt_payload t) -> never_fails h ->
  exists h', parse_txt_item_data data off (length (txt_payload t)) h
    = Ret (TxtOk (key_of t) (value (received t)) (value_len t), h') /\ never_fails h'.
Proof.
  intros Ht Hh Hf. unfold parse_txt_item_data, mbind, H_bind.
  rewrite (item_len_payload _ _ _ Ht Hh). cbn [hlift].
  rewrite (proj2 (Z.ltb_ge _ _)) by lia. rewrite Nat2Z.id.
  pose proof (payload_range _ Ht) as Hr.
  assert (off + length (txt_payload t) <= length data) as Hl.
  { apply (has_length _ _ _ Hh). intros E. rewrite E in Hr. cbn in Hr. lia. }
  assert (Hsplit := Hh). unfold txt_payload in Hsplit at 1. apply has_app in Hsplit as [Hkey Hval].
  assert (length (key_of t) <= length (txt_payload t)) as Hkl
    by (unfold txt_payload; rewrite length_app; lia).
  rewrite (rd_bytes_has _ _ _ Hkey) by lia. cbn [hlift].
  destruct (malloc_never h Hf) as (h1 & E1 & Hf1). rewrite E1. cbn [negb].
  assert (cstr_of (key_of t) = key_of t) as Hcs.
  { apply cstr_of_id. unfold txt_item_ok in Ht. unfold key_of. destruct (key t); [|done].
    destruct Ht as (_ & Hc & _). eapply Forall_impl; [exact Hc|]. by intros ? [? _]. }
  unfold txt_item_ok in Ht. destruct (key t) as [k|] eqn:Ek; [|done].
  destruct Ht as (_ & _ & Hv0 & Hv). cbn [received value].
  destruct (value t) as [v|] eqn:Ev.
  - assert (length (txt_payload t) = length (key_of t) + 1 + Z.to_nat (value_len t)) as Hlen.
    { unfold txt_payload, value_of. rewrite Ev, length_app. cbn [length]. rewrite length_take. lia. }
    rewrite (proj2 (Nat.ltb_lt _ _)) by lia.
    destruct (malloc_never h1 Hf1) as (h2 & E2 & Hf2). rewrite E2. cbn [negb].
    assert (u8 (if length (key_of t) + 1 <? length (txt_payload t)
                then Z.of_nat (length (txt_payload t) - (length (key_of t) + 1)) else 0)
            = value_len t) as ->.
    { destruct (Nat.ltb_spec (length (key_of t) + 1) (length (txt_payload t)));
        [rewrite u8_small by lia; lia|]. change (u8 0) with 0%Z. lia. }
    apply has_cons in Hval as [_ Hval].
    assert (Z.to_nat (value_len t) = length (value_of t)) as Hvl.
    { unfold value_of. rewrite Ev, length_take. lia. }
    rewrite Hvl, Nat.add_assoc, (rd_bytes_has _ _ _ Hval) by lia. cbn [hlift].
    rewrite Hcs. eexists. split; [done|done].
  - assert (length (txt_payload t) = length (key_of t)) as Hlen.
    { unfold txt_payload. by rewrite Ev, app_nil_r. }
    rewrite Hlen, Nat.ltb_irrefl, Nat.add_0_r, Nat.ltb_irrefl, Hcs.
    destruct Hv as [-> _]. eexists. split; [done|done].
Qed.

Section ReadItems.
Context (data : list Z) (len : nat).

(** The items [l] take the rest of the data from offset [i]. *)
Definition items_at (i : nat) (l : list mdns_txt_linked_item_t) : Prop :=
  Forall txt_item_ok l /\ has data i (txt_bytes l) /\ i + length (txt_bytes l) = len.

Lemma items_at_cons i t l : items_at i (t :: l) ->
  txt_item_ok t /\ i < len /\ rd data i = Ret (Z.of_nat (length (txt_payload t)))
  /\ i + 1 + length (txt_payload t) <= len
  /\ has data (i + 1) (txt_payload t) /\ items_at (i + 1 + length (txt_payload t)) l.
Proof.
  intros (Ht & Hh & Hl). apply Forall_cons in Ht as [Ht Hls].
  change (txt_bytes (t :: l)) with (txt_entry t ++ txt_bytes l) in *.
  rewrite length_app, entry_length in Hl.
  assert (Hrd := Hh). cbn [txt_entry app] in Hrd. apply rd_has in Hrd.
  apply has_app in Hh as [He Hh]. apply has_cons in He as [_ He].
  rewrite entry_length in Hh. replace (i + S (length (txt_payload t)))
    with (i + 1 + length (txt_payload t)) in Hh by lia.
  split_and!; try done; try lia. split_and!; [done|done|lia].
Qed.

Lemma count_items_wire fuel : forall i l n, items_at i l -> len - i < fuel ->
  count_items fuel data len i n = Ret (n + Z.of_nat (length l))%Z.
Proof.
  induction fuel as [|fuel IH]; intros i l n Hl Hf; [lia|]. cbn [count_items].
  destruct l as [|t l].
  { destruct Hl as (_ & _ & Hl). cbn in Hl. rewrite (proj2 (Nat.ltb_ge _ _)) by lia.
    cbn. by rewrite Z.add_0_r. }
  apply items_at_cons in Hl as (Ht & Hi & Hrd & Hle & _ & Hl).
  pose proof (payload_range _ Ht).
  rewrite (proj2 (Nat.ltb_lt _ _) Hi), Hrd. cbn [mbind outcome_bind].
  rewrite (proj2 (Z.eqb_neq _ 0)), Nat2Z.id, (proj2 (Nat.ltb_ge _ _)) by lia.
  rewrite (IH _ l) by (done || lia). cbn [length].
  by replace (n + 1 + Z.of_nat (length l))%Z with (n + Z.of_nat (S (length l)))%Z by lia.
Qed.

Hypothesis len16 : (Z.of_nat len < 65536)%Z.

(** The two loops, in lock step. *)
Lemma fill_items_wire fuel : forall i l num acc h,
  items_at i l -> len - i < fuel -> length acc + length l <= num -> never_fails h ->
  exists h', fill_items fuel data len num i acc h = Ret (Some (acc ++ map received l), h').
Proof using len16.
  induction fuel as [|fuel IH]; intros i l num acc h Hl Hf Hn Hh; [lia|]. cbn [fill_items].
  destruct l as [|t l].
  { destruct Hl as (_ & _ & Hl). cbn in Hl. rewrite (proj2 (Nat.ltb_ge i len)) by lia.
    cbn. rewrite app_nil_r. eexists. done. }
  apply items_at_cons in Hl as (Ht & Hi & Hrd & Hle & Hp & Hl). cbn [length] in Hn.
  pose proof (payload_range _ Ht).
  rewrite (proj2 (Nat.ltb_lt i len) Hi), (proj2 (Nat.ltb_lt (length acc) num)) by lia.
  unfold mbind, H_bind. cbn [andb]. rewrite Hrd. cbn [hlift].
  rewrite (proj2 (Z.eqb_neq _ 0)), Nat2Z.id, (idx16_small (i + 1)) by lia.
  rewrite (proj2 (Nat.ltb_ge _ _)) by lia.
  destruct (parse_payload data (i + 1) t h Ht Hp Hh) as (h1 & -> & Hh1).
  rewrite idx16_small by lia.
  destruct (IH _ l num (acc ++ [received t]) h1 Hl) as (h' & E);
    [lia|rewrite length_app; cbn; lia|done|].
  exists h'. cbn [map]. rewrite <- app_assoc in E. exact E.
Qed.

Lemma link_items_wire fuel : forall i l num acc h,
  items_at i l -> len - i < fuel -> length acc + length l <= num -> never_fails h ->
  exists h', link_items fuel data len num i acc h = Ret (Some (acc ++ map received l), h').
Proof using len16.
  induction fuel as [|fuel IH]; intros i l num acc h Hl Hf Hn Hh; [lia|]. cbn [link_items].
  destruct l as [|t l].
  { destruct Hl as (_ & _ & Hl). cbn in Hl. rewrite (proj2 (Nat.ltb_ge i len)) by lia.
    cbn. rewrite app_nil_r. eexists. done. }
  apply items_at_cons in Hl as (Ht & Hi & Hrd & Hle & Hp & Hl). cbn [length] in Hn.
  pose proof (payload_range _ Ht).
  rewrite (proj2 (Nat.ltb_lt i len) Hi), (proj2 (Nat.ltb_lt (length acc) num)) by lia.
  unfold mbind, H_bind. cbn [andb]. rewrite Hrd. cbn [hlift].
  rewrite (proj2 (Z.eqb_neq _ 0)), Nat2Z.id, (idx16_small (i + 1)) by lia.
  rewrite (proj2 (Nat.ltb_ge _ _)) by lia.
  destruct (malloc_never h Hh) as (h0 & E0 & Hh0). rewrite E0. cbn [negb].
  destruct (parse_payload data (i + 1) t h0 Ht Hp Hh0) as (h1 & -> & Hh1).
  rewrite idx16_small by lia.
  destruct (IH _ l num (acc ++ [received t]) h1 Hl) as (h' & E);
    [lia|rewrite length_app; cbn; lia|done|].
  exists h'. cbn [map]. rewrite <- app_assoc in E. exact E.
Qed.

Lemma get_count_wire l : l <> [] -> items_at 0 l -> get_txt_items_count data len = Ret (Z.of_nat (length l)).
Proof.
  intros Hne Hat. unfold get_txt_items_count. destruct l as [|t l]; [done|].
  destruct (items_at_cons _ _ _ Hat) as (Ht & _ & _ & Hle & _).
  pose proof (payload_range _ Ht). rewrite (proj2 (Nat.eqb_neq len 1)) by lia.
  rewrite (count_items_wire _ 0 (t :: l)) by (done || lia). by rewrite Z.add_0_l.
Qed.

Lemma txt_create_wire l h : l <> [] -> items_at 0 l -> never_fails h ->
  exists h', result_txt_create data len h = Ret (map received l, h').
Proof using len16.
  intros Hne Hat Hh. unfold result_txt_create, mbind, H_bind. rewrite (get_count_wire l) by done. cbn [hlift].
  assert (0 < length l) as Hlen by (destruct l; [done|cbn; lia]).
  rewrite (proj2 (Z.leb_gt _ _)), Nat2Z.id by lia.
  destruct (malloc_never h Hh) as (ha & Ea & Hha). destruct (malloc_never ha Hha) as (hb & Eb & Hhb).
  rewrite Ea. cbn [negb]. rewrite Eb. cbn [negb].
  destruct (fill_items_wire (S len) 0 l (length l) [] hb) as (h1 & E1); [done|lia|cbn; lia|done|].
  rewrite E1. exists h1. by destruct l.
Qed.

Lemma txt_list_create_wire l h : l <> [] -> items_at 0 l -> never_fails h ->
  exists h', result_txt_linked_list_create data len h = Ret (Some (map received l), h').
Proof using len16.
  intros Hne Hat Hh. unfold result_txt_linked_list_create, mbind, H_bind. rewrite (get_count_wire l) by done. cbn [hlift].
  assert (0 < length l) as Hlen by (destruct l; [done|cbn; lia]).
  rewrite (proj2 (Z.ltb_ge _ _)), (proj2 (Z.eqb_neq _ 0)), Nat2Z.id by lia.
  apply (link_items_wire (S len) 0 l (length l) []); [done|lia|cbn; lia|done].
Qed.

End ReadItems.

