(* ===== verification/Collision.v ===== *)
(** Name conflicts on the receive side: components/mdns/mdns_receive.c, which
    names are ours ([is_discovery], [is_ours], [is_name_selfhosted]), the
    tie-breaking comparisons of RFC 6762 section 8.2 ([check_a_collision],
    [check_aaaa_collision], [check_txt_collision], [check_srv_collision]), the
    choice of the next name ([mangle_name]) and the questions kept from a packet
    ([question_matches], [remove_parsed_question]).

    A comparison returns a positive number when the other host wins, a negative
    one when we win, and zero when the data are the same. *)
From S2P Require Import Prelude Names Server Encode Heap.

(** * Whose name it is *)

Definition SERVICES : cstr := str "_services".
Definition DNS_SD : cstr := str "_dns-sd".
Definition UDP_PROTO : cstr := str "_udp".
Definition ARPA : cstr := str "arpa".

Definition nonempty (s : cstr) : bool := negb (mdns_utils_str_null_or_empty (Some s)).

Definition is_discovery (n : mdns_name_t) (type : Z) : bool :=
  (nonempty (host n) && strcaseeq (host n) SERVICES)
  && (nonempty (service n) && strcaseeq (service n) DNS_SD)
  && (nonempty (proto n) && strcaseeq (proto n) UDP_PROTO)
  && (nonempty (domain n) && strcaseeq (domain n) MDNS_DEFAULT_DOMAIN)
  && (type =? MDNS_TYPE_PTR)%Z.

Definition get_service_item_subtype (s : option mdns_server_t) (subtype_ service proto : cstr)
    : option (sid * mdns_service_t) :=
  find (fun x => mdns_utils_service_match (snd x) (Some service) (Some proto) None
                 && existsb (fun st => strcaseeq st subtype_) (subtype (snd x)))
    (mdns_priv_get_services s).

Definition is_ours (cfg : config) (s : option mdns_server_t) (n : mdns_name_t) : outcome bool :=
  if negb (nonempty (domain n))
     || (negb (strcaseeq (domain n) MDNS_DEFAULT_DOMAIN)
         && negb (CONFIG_MDNS_RESPOND_REVERSE_QUERIES cfg && strcaseeq (domain n) ARPA))
  then Ret false
  else if negb (nonempty (service n)) && negb (nonempty (proto n)) then
    if nonempty (host n)
       && negb (mdns_utils_str_null_or_empty (mdns_priv_get_global_hostname s))
    then mdns_utils_hostname_is_ours s (host n)
    else Ret false
  else if negb (nonempty (service n)) || negb (nonempty (proto n)) then Ret false
  else
    found ← (if negb (sub n =? 0) then Ret (get_service_item_subtype s (host n) (service n) (proto n))
             else if negb (nonempty (host n))
             then mdns_utils_get_service_item s (Some (service n)) (Some (proto n)) None
             else mdns_utils_get_service_item_instance s (Some (host n)) (Some (service n))
                    (Some (proto n)) None);
    match found with
    | None => Ret false
    | Some (_, srv) =>
        if negb (sub n =? 0) || negb (nonempty (host n)) then Ret true
        else
          match mdns_utils_get_service_instance_name s srv with
          | None => Ret false
          | Some instance => Ret (strcaseeq (host n) instance)
          end
    end.

Definition is_name_selfhosted (s : option mdns_server_t) (n : mdns_name_t) : outcome bool :=
  match mdns_priv_get_global_hostname s with
  | None | Some [] => Ret false
  | Some hostname =>
      if negb (nonempty (service n)) && negb (nonempty (proto n)) && strcaseeq (host n) hostname
      then Ret true
      else
        srv ← mdns_utils_get_service_item s (Some (service n)) (Some (proto n)) None;
        match srv with
        | None => Ret false
        | Some (_, srv) => strcasecmp_eq (Some hostname) (srv_hostname srv)
        end
  end.

(** * The next name *)

(** [strdup_check]: an empty or null string is stored as null. *)
Definition strdup_check (s : option cstr) : H (bool * option cstr) :=
  match s with
  | None | Some [] => mret (true, None)
  | Some s => ok ← malloc; mret (if (ok : bool) then (true, Some s) else (false, None))
  end.

(** [strrchr(in, '-')]: the bytes before the last dash and those after it. *)
Fixpoint strrchr_dash (s : cstr) : option (cstr * cstr) :=
  match s with
  | [] => None
  | c :: s =>
      match strrchr_dash s with
      | Some (b, a) => Some (c :: b, a)
      | None => if (c =? 45)%Z then Some ([], s) else None
      end
  end.

(** Decimal digits of a number below [10^fuel]. *)
Fixpoint digits (fuel : nat) (n : Z) : cstr :=
  match fuel with
  | O => []
  | S fuel => if (n <? 10)%Z then [48 + n]%Z else digits fuel (n / 10) ++ [48 + n mod 10]%Z
  end.

(** [sprintf("%d", n)] for an [int]. *)
Definition print_int (n : Z) : cstr :=
  if (n <? 0)%Z then 45%Z :: digits 10 (- n) else digits 10 n.

(** A string with its terminator stored in a block of [size] bytes. *)
Definition store_str (size : nat) (s : cstr) : outcome cstr :=
  if length s + 1 <=? size then Ret s else BadAccess.

(** The part before the last dash and the number after it, when what follows
    the dash is a number to its end. *)
Definition numeric_suffix (s : cstr) : option (cstr * Z) :=
  match strrchr_dash s with
  | None => None
  | Some (base, after) =>
      let '(v, endp) := strtol after in
      match endp with [] => Some (base, v) | _ => None end
  end.

(** [mangle_name]; [None] when the allocation fails.  [suffix + 1] is an [int]
    addition that wraps at [INT_MAX]. *)
Definition mangle_name (s : cstr) : H (option cstr) :=
  ok ← malloc;
  if negb ok then mret None
  else
    match numeric_suffix s with
    | None => r ← hlift (store_str (length s + 3) (s ++ [45; 50]%Z)); mret (Some r)
    | Some (base, v) =>
        r ← hlift (store_str (length s + 2) (base ++ 45%Z :: print_int (s32 (v + 1))));
        mret (Some r)
    end.

(** * Tie breaking *)

(** An IPv4 address as it lies in memory. *)
Definition ip4_bytes (addr : Z) : list Z :=
  [u8 addr; u8 (Z.shiftr addr 8); u8 (Z.shiftr addr 16); u8 (Z.shiftr addr 24)].

Section Interfaces.
Context (MDNS_MAX_INTERFACES : mdns_if_t).

(** The result and whether [mdns_priv_pcb_set_duplicate] was called. *)
Definition check_a_collision (net : net_view) (addr : Z) (tcpip_if : mdns_if_t) : Z * bool :=
  if (addr =? 0)%Z then (1%Z, false)
  else
    match ip4_info net tcpip_if with
    | None => (1%Z, false)
    | Some if_ip =>
        match memcmp (ip4_bytes if_ip) (ip4_bytes addr) with
        | Gt => ((-1)%Z, false)
        | Lt =>
            let other_if := other_interface net tcpip_if in
            if other_if =? MDNS_MAX_INTERFACES then (1%Z, false)
            else
              match ip4_info net other_if with
              | None => (1%Z, false)
              | Some other_ip => if negb (addr =? other_ip)%Z then (1%Z, false) else (2%Z, true)
              end
        | Eq => (0%Z, false)
        end
    end.

Definition check_aaaa_collision (net : net_view) (addr : list Z) (tcpip_if : mdns_if_t) : Z * bool :=
  if mdns_utils_ipv6_address_is_zero addr then (1%Z, false)
  else
    match ip6_linklocal net tcpip_if with
    | None => (1%Z, false)
    | Some if_ip =>
        match memcmp if_ip addr with
        | Gt => ((-1)%Z, false)
        | Lt =>
            let other_if := other_interface net tcpip_if in
            if other_if =? MDNS_MAX_INTERFACES then (1%Z, false)
            else
              match ip6_linklocal net other_if with
              | None => (1%Z, false)
              | Some other_ip =>
                  match memcmp other_ip addr with Eq => (2%Z, true) | _ => (1%Z, false) end
              end
        | Eq => (0%Z, false)
        end
    end.

End Interfaces.

(** The sign of [memcmp(ours, theirs)] as a verdict. *)
Definition verdict (c : comparison) : Z :=
  match c with Gt => (-1)%Z | Lt => 1%Z | Eq => 0%Z end.

(** The announced length of an item: [strlen] of a null key is a bad access. *)
Fixpoint txt_data_len (l : list mdns_txt_linked_item_t) (n : nat) : outcome nat :=
  match l with
  | [] => Ret n
  | t :: l =>
      match key t with
      | None => BadAccess
      | Some k =>
          txt_data_len l (n + 1 + length k + Z.to_nat (value_len t)
                          + match value t with Some _ => 1 | None => 0 end)
      end
  end.

Fixpoint append_entries (l : list mdns_txt_linked_item_t) : W unit :=
  match l with
  | [] => mret tt
  | t :: l => _ ← mdns_priv_append_one_txt_record_entry t; append_entries l
  end.

(** [check_txt_collision]; [junk] is what the allocated block holds. *)
Definition check_txt_collision (junk : list Z) (srv : mdns_service_t) (data : list Z) (len : nat)
    : H Z :=
  if (len <=? 1) && bool_decide (txt srv <> []) then mret (-1)%Z
  else if (1 <? len) && bool_decide (txt srv = []) then mret 1%Z
  else if (len <=? 1) && bool_decide (txt srv = []) then mret 0%Z
  else
    data_len ← hlift (txt_data_len (txt srv) 0);
    if data_len <? len then mret 1%Z
    else if len <? data_len then mret (-1)%Z
    else
      ours ← malloc;
      if negb ours then mret 0%Z
      else
        '(_, p) ← hlift (append_entries (txt srv) (mk_pkt (take len junk) 0));
        ours ← hlift (rd_bytes (buf p) 0 len);
        theirs ← hlift (rd_bytes data 0 len);
        _ ← mfree 1;
        mret (verdict (memcmp ours theirs)).

(** The record data of an SRV record as both sides build it for comparison. *)
Definition srv_data (priority weight port : Z) (host domain : cstr) : W unit :=
  _ ← mdns_utils_append_u16 priority;
  _ ← mdns_utils_append_u16 weight;
  _ ← mdns_utils_append_u16 port;
  _ ← put [u8 (Z.of_nat (length host))];
  _ ← put host;
  _ ← put [u8 (Z.of_nat (length domain))];
  _ ← put domain;
  put [0%Z].

(** [check_srv_collision]; [junk] is what the two stack buffers hold. *)
Definition check_srv_collision (cfg : config) (junk : list Z) (s : option mdns_server_t)
    (srv : mdns_service_t) (priority_ weight_ port_ : Z) (host domain : cstr) : outcome Z :=
  match mdns_priv_get_global_hostname s with
  | None | Some [] => Ret 0%Z
  | Some hostname =>
      let our_host_len := length hostname in
      let our_len := 14 + our_host_len in
      let their_host_len := length host in
      let their_domain_len := length domain in
      let their_len := 9 + their_host_len + their_domain_len in
      if our_len <? their_len then Ret 1%Z
      else if their_len <? our_len then Ret (-1)%Z
      else
        let MDNS_SRV_OUR_DATA_MAX := 14 + MDNS_NAME_MAX_LEN cfg in
        let MDNS_SRV_THEIR_DATA_MAX := 9 + 2 * MDNS_NAME_MAX_LEN cfg in
        if (MDNS_NAME_MAX_LEN cfg <? our_host_len) || (MDNS_NAME_MAX_LEN cfg <? their_host_len)
           || (MDNS_NAME_MAX_LEN cfg <? their_domain_len) || (MDNS_SRV_OUR_DATA_MAX <? our_len)
           || (MDNS_SRV_THEIR_DATA_MAX <? their_len)
        then Ret 1%Z
        else
          '(_, ours) ← srv_data (priority srv) (weight srv) (port srv) hostname MDNS_DEFAULT_DOMAIN
                         (mk_pkt (take MDNS_SRV_OUR_DATA_MAX junk) 0);
          '(_, theirs) ← srv_data priority_ weight_ port_ host domain
                           (mk_pkt (take MDNS_SRV_THEIR_DATA_MAX junk) 0);
          o ← rd_bytes (buf ours) 0 our_len;
          t ← rd_bytes (buf theirs) 0 our_len;
          Ret (verdict (memcmp o t))
  end.

(** * Questions kept from a packet *)

Record mdns_parsed_question_t := mk_question {
  q_type : Z;
  q_sub : bool;
  q_unicast : bool;
  q_host : option cstr;
  q_service : option cstr;
  q_proto : option cstr;
  q_domain : option cstr;
}.

Definition opt_caseeq (a : cstr) (b : option cstr) : bool :=
  match b with Some b => strcaseeq a b | None => false end.

(** [question_matches]; the service is null or given, and a null service is
    dereferenced for PTR questions that name a service. *)
Definition question_matches (s : option mdns_server_t) (q : mdns_parsed_question_t) (type : Z)
    (srv : option mdns_service_t) : outcome bool :=
  if negb (q_type q =? type)%Z then Ret false
  else if (type =? MDNS_TYPE_A)%Z || (type =? MDNS_TYPE_AAAA)%Z then Ret true
  else if (type =? MDNS_TYPE_PTR)%Z || (type =? MDNS_TYPE_SDPTR)%Z then
    match q_service q, q_proto q, q_domain q with
    | Some qs, Some qp, Some qd =>
        match srv with
        | None => BadAccess
        | Some srv =>
            if strcaseeq (srv_service srv) qs && strcaseeq (srv_proto srv) qp
               && strcaseeq MDNS_DEFAULT_DOMAIN qd
            then Ret match srv_instance srv with
                     | None => true
                     | Some i => opt_caseeq i (q_host q)
                     end
            else Ret false
        end
    | _, _, _ => Ret false
    end
  else
    match srv with
    | Some srv =>
        if (type =? MDNS_TYPE_SRV)%Z || (type =? MDNS_TYPE_TXT)%Z then
          match mdns_utils_get_service_instance_name s srv with
          | None => Ret false
          | Some name =>
              Ret (opt_caseeq name (q_host q) && opt_caseeq (srv_service srv) (q_service q)
                   && opt_caseeq (srv_proto srv) (q_proto q)
                   && opt_caseeq MDNS_DEFAULT_DOMAIN (q_domain q))
          end
        else Ret false
    | None => Ret false
    end.

(** [remove_parsed_question]: the first match leaves the list. *)
Fixpoint remove_parsed_question (s : option mdns_server_t) (qs : list mdns_parsed_question_t)
    (type : Z) (srv : option mdns_service_t) : outcome (list mdns_parsed_question_t) :=
  match qs with
  | [] => Ret []
  | q :: qs =>
      m ← question_matches s q type srv;
      if (m : bool) then Ret qs
      else rest ← remove_parsed_question s qs type srv; Ret (q :: rest)
  end.
