(* ===== verification/CollisionProofs.v ===== *)
(** Conflict resolution is sound: two hosts that compare the same pair of
    records reach opposite verdicts, so exactly one of them gives way, and the
    one that does always finds a new name. *)
From S2P Require Import Prelude Names Server Encode Heap Txt TxtRoundtrip Collision.

Lemma verdict_opp c : verdict (CompOpp c) = (- verdict c)%Z.
Proof. by destruct c. Qed.

Lemma memcmp_verdict_opp a b : verdict (memcmp b a) = (- verdict (memcmp a b))%Z.
Proof. by rewrite memcmp_antisym, verdict_opp. Qed.

Lemma verdict_0 c : verdict c = 0%Z -> c = Eq.
Proof. by destruct c. Qed.

(** * SRV *)

Definition be16_bytes (v : Z) : list Z :=
  [u8 (Z.land (Z.shiftr v 8) 0xFF); u8 (Z.land v 0xFF)].

Definition srv_bytes (priority weight port : Z) (host domain : cstr) : list Z :=
  be16_bytes priority ++ be16_bytes weight ++ be16_bytes port
    ++ [u8 (Z.of_nat (length host))] ++ host
    ++ [u8 (Z.of_nat (length domain))] ++ domain ++ [0%Z].

Lemma srv_bytes_length p w o h d : length (srv_bytes p w o h d) = 9 + length h + length d.
Proof. unfold srv_bytes. rewrite !length_app. cbn. lia. Qed.

Lemma append_u16_written v p : index p + 2 < MDNS_MAX_PACKET_SIZE -> index p + 2 <= length (buf p) ->
  mdns_utils_append_u16 v p = Ret (2%Z, written p (be16_bytes v)).
Proof.
  intros Hi Hl. unfold mdns_utils_append_u16. rewrite (proj2 (Nat.leb_gt _ _)) by lia.
  unfold mbind, W_bind. rewrite append_u8_written by lia.
  rewrite append_u8_written by (rewrite ?written_length by (cbn; lia); cbn [index written length]; lia).
  rewrite written_app by (cbn; lia). done.
Qed.

Lemma written_at_0 b bs : length bs <= length b ->
  rd_bytes (buf (written (mk_pkt b 0) bs)) 0 (length bs) = Ret bs.
Proof.
  intros Hl. rewrite rd_bytes_ok by (rewrite written_length; cbn; lia).
  cbn [buf written index]. rewrite drop_0, firstn_O. cbn [app]. by rewrite take_app_length.
Qed.

(** What one side writes fits and is the byte string above. *)
Lemma srv_data_written p w o h d b :
  9 + length h + length d <= length b -> 9 + length h + length d < MDNS_MAX_PACKET_SIZE ->
  srv_data p w o h d (mk_pkt b 0) = Ret (tt, written (mk_pkt b 0) (srv_bytes p w o h d)).
Proof.
  intros Hb Hm. unfold srv_data. set (p0 := mk_pkt b 0).
  assert (Hs : forall bs xs, length bs + length xs <= length b ->
    written (written p0 bs) xs = written p0 (bs ++ xs)) by (intros; apply written_app; cbn; lia).
  assert (Hput : forall bs xs, length bs + length xs <= length b ->
    put xs (written p0 bs) = Ret (tt, written p0 (bs ++ xs))).
  { intros bs xs Hl. rewrite put_written, Hs; [done|done|].
    rewrite written_length by (cbn; lia). cbn; lia. }
  assert (Hu : forall v bs, length bs + 2 <= length b -> length bs + 2 < MDNS_MAX_PACKET_SIZE ->
    mdns_utils_append_u16 v (written p0 bs) = Ret (2%Z, written p0 (bs ++ be16_bytes v))).
  { intros v bs Hl Hl'. rewrite append_u16_written, Hs; [done|cbn; lia| |].
    - unfold p0. cbn [index written]. lia.
    - rewrite written_length by (cbn; lia). unfold p0. cbn [index written buf]. lia. }
  unfold mbind, W_bind. rewrite append_u16_written by (cbn; lia).
  rewrite Hu by (cbn; lia). rewrite Hu by (rewrite ?length_app; cbn; lia).
  rewrite !Hput by (rewrite ?length_app; cbn; lia).
  unfold srv_bytes. by rewrite <- !app_assoc.
Qed.

Lemma be16_bytes_inj x y : u16_ok x -> u16_ok y -> be16_bytes x = be16_bytes y -> x = y.
Proof.
  intros Hx Hy [= E1 E2].
  assert (Hl : forall z, u8 (Z.land z 0xFF) = u8 z).
  { intros z. unfold u8. change 0xFF%Z with (Z.ones 8). rewrite Z.land_ones by lia.
    apply Z.mod_mod. lia. }
  rewrite !Hl in E1, E2. by rewrite <- (be16_split x), <- (be16_split y), E1, E2.
Qed.

Section Srv.
Context (cfg : config) (junk : list Z).
Hypothesis junk_size : 9 + 2 * MDNS_NAME_MAX_LEN cfg <= length junk.

Lemma name_max : 64 <= MDNS_NAME_MAX_LEN cfg <= 68.
Proof. unfold MDNS_NAME_MAX_LEN. case_on_goal; lia. Qed.

Lemma rd_srv_data q w o x n : 14 + length x <= n -> n <= length junk ->
  rd_bytes (buf (written (mk_pkt (take n junk) 0) (srv_bytes q w o x MDNS_DEFAULT_DOMAIN))) 0
    (14 + length x) = Ret (srv_bytes q w o x MDNS_DEFAULT_DOMAIN).
Proof.
  intros Hn Hn'.
  assert (length (srv_bytes q w o x MDNS_DEFAULT_DOMAIN) = 14 + length x) as Hlen
    by (rewrite srv_bytes_length; change (length MDNS_DEFAULT_DOMAIN) with 5; lia).
  rewrite <- Hlen. apply written_at_0. rewrite length_take. lia.
Qed.

(** The verdict by length and then by bytes. *)
Lemma check_srv_spec s srv h p w o host :
  mdns_priv_get_global_hostname s = Some h ->
  0 < length h <= MDNS_NAME_MAX_LEN cfg -> 0 < length host <= MDNS_NAME_MAX_LEN cfg ->
  check_srv_collision cfg junk s srv p w o host MDNS_DEFAULT_DOMAIN
  = Ret (if length h <? length host then 1%Z
         else if length host <? length h then (-1)%Z
         else verdict (memcmp (srv_bytes (priority srv) (weight srv) (port srv) h MDNS_DEFAULT_DOMAIN)
                              (srv_bytes p w o host MDNS_DEFAULT_DOMAIN))).
Proof using junk_size.
  intros Es Hh Hhost. pose proof name_max. pose proof max_packet_size.
  unfold check_srv_collision. rewrite Es.
  destruct h as [|c h']; [cbn in Hh; lia|]. set (h := c :: h') in *.
  change (length MDNS_DEFAULT_DOMAIN) with 5.
  destruct (Nat.ltb_spec (length h) (length host)); [rewrite (proj2 (Nat.ltb_lt _ _)) by lia; done|].
  rewrite (proj2 (Nat.ltb_ge (14 + length h) _)) by lia.
  destruct (Nat.ltb_spec (length host) (length h)); [rewrite (proj2 (Nat.ltb_lt _ _)) by lia; done|].
  rewrite !(proj2 (Nat.ltb_ge _ _)) by lia. cbn [orb].
  rewrite srv_data_written by (change (length MDNS_DEFAULT_DOMAIN) with 5; rewrite ?length_take; lia).
  cbn [mbind outcome_bind].
  rewrite srv_data_written by (change (length MDNS_DEFAULT_DOMAIN) with 5; rewrite ?length_take; lia).
  cbn [mbind outcome_bind]. rewrite rd_srv_data by lia. cbn [mbind outcome_bind].
  replace (14 + length h) with (14 + length host) by lia. rewrite rd_srv_data by lia. done.
Qed.

(** Two hosts that defend SRV records for the same name reach opposite
    verdicts, and both see "same data" only when priority, weight, port and
    host name are identical: no conflict leaves both sides thinking they won,
    or both giving way. *)
Lemma srv_tiebreak sa sb a b ha hb :
  mdns_priv_get_global_hostname sa = Some ha -> mdns_priv_get_global_hostname sb = Some hb ->
  0 < length ha <= MDNS_NAME_MAX_LEN cfg -> 0 < length hb <= MDNS_NAME_MAX_LEN cfg ->
  u16_ok (priority a) -> u16_ok (weight a) -> u16_ok (port a) ->
  u16_ok (priority b) -> u16_ok (weight b) -> u16_ok (port b) ->
  exists v,
    check_srv_collision cfg junk sa a (priority b) (weight b) (port b) hb MDNS_DEFAULT_DOMAIN = Ret v
    /\ check_srv_collision cfg junk sb b (priority a) (weight a) (port a) ha MDNS_DEFAULT_DOMAIN
       = Ret (- v)%Z
    /\ (v = 0%Z -> priority a = priority b /\ weight a = weight b /\ port a = port b /\ ha = hb).
Proof using junk_size.
  intros Ea Eb Hla Hlb Hpa Hwa Hoa Hpb Hwb Hob.
  rewrite (check_srv_spec sa a ha), (check_srv_spec sb b hb) by done.
  eexists. split; [done|].
  destruct (Nat.ltb_spec (length ha) (length hb)) as [H1|H1].
  { rewrite (proj2 (Nat.ltb_ge (length hb) (length ha))) by lia. done. }
  destruct (Nat.ltb_spec (length hb) (length ha)) as [H2|H2]; [done|].
  split; [by rewrite memcmp_verdict_opp|].
  intros E%verdict_0%memcmp_Eq; [|rewrite !srv_bytes_length; lia].
  unfold srv_bytes in E.
  apply app_inj_1 in E as [E1 E]; [|done]. apply app_inj_1 in E as [E2 E]; [|done].
  apply app_inj_1 in E as [E3 E]; [|done]. apply app_inj_1 in E as [_ E]; [|done].
  apply app_inj_1 in E as [E4 _]; [|lia].
  split_and!; [by apply be16_bytes_inj..|done].
Qed.

End Srv.

(** * TXT *)

(** The record data of a TXT record: a zero byte when there is no item. *)
Definition txt_wire (l : list mdns_txt_linked_item_t) : list Z :=
  match l with [] => [0%Z] | _ => txt_bytes l end.

Lemma txt_data_len_spec l n : Forall txt_item_ok l ->
  txt_data_len l n = Ret (n + length (txt_bytes l)).
Proof.
  intros Hl. revert n. induction Hl as [|t l Ht _ IH]; intros n; cbn [txt_data_len].
  { cbn. by rewrite Nat.add_0_r. }
  change (txt_bytes (t :: l)) with (txt_entry t ++ txt_bytes l).
  rewrite length_app, entry_length. unfold txt_payload, key_of, value_of.
  unfold txt_item_ok in Ht. destruct (key t) as [k|]; [|done]. destruct Ht as (_ & _ & Hv0 & Hv).
  rewrite IH, length_app. f_equal.
  destruct (value t) as [v|]; cbn [length]; cbn iota in Hv; rewrite ?length_take; [|lia].
  rewrite Nat.min_l by lia. lia.
Qed.

Lemma append_entries_written l : forall p, Forall txt_item_ok l ->
  index p + length (txt_bytes l) < MDNS_MAX_PACKET_SIZE ->
  index p + length (txt_bytes l) <= length (buf p) ->
  append_entries l p = Ret (tt, written p (txt_bytes l)).
Proof.
  induction l as [|t l IH]; intros p Hl Hi Hb.
  { cbn. unfold written. cbn. rewrite Nat.add_0_r, take_drop. by destruct p. }
  apply Forall_cons in Hl as [Ht Hl].
  change (txt_bytes (t :: l)) with (txt_entry t ++ txt_bytes l) in *.
  rewrite length_app in *. cbn [append_entries]. unfold mbind, W_bind.
  rewrite append_entry_written by (done || lia).
  rewrite IH; [|done|cbn [index written]; lia|rewrite written_length by lia; cbn [index written]; lia].
  by rewrite written_app by lia.
Qed.

Definition txt_ok (l : list mdns_txt_linked_item_t) : Prop :=
  Forall txt_item_ok l /\ length (txt_bytes l) < MDNS_MAX_PACKET_SIZE.

Lemma txt_bytes_long l : Forall txt_item_ok l -> l <> [] -> 1 < length (txt_bytes l).
Proof.
  intros Hl Hne. destruct l as [|t l]; [done|]. apply Forall_cons in Hl as [Ht _].
  change (txt_bytes (t :: l)) with (txt_entry t ++ txt_bytes l).
  rewrite length_app, entry_length. pose proof (payload_range _ Ht). lia.
Qed.

(** The verdict by length and then by bytes. *)
Lemma check_txt_spec junk srv l h :
  txt_ok (txt srv) -> txt_ok l -> never_fails h -> length (txt_bytes l) <= length junk ->
  exists h', check_txt_collision junk srv (txt_wire l) (length (txt_wire l)) h
    = Ret (if length (txt_wire (txt srv)) <? length (txt_wire l) then 1%Z
           else if length (txt_wire l) <? length (txt_wire (txt srv)) then (-1)%Z
           else verdict (memcmp (txt_wire (txt srv)) (txt_wire l)), h').
Proof.
  intros [Ho Hom] [Hl Hlm] Hh Hj. unfold check_txt_collision.
  pose proof (txt_bytes_long _ Ho) as Ho1. pose proof (txt_bytes_long _ Hl) as Hl1.
  destruct (txt srv) as [|t o] eqn:Et, l as [|t' l].
  - cbn. eauto.
  - specialize (Hl1 ltac:(done)). cbn [txt_wire length].
    rewrite (proj2 (Nat.leb_gt _ _)), (proj2 (Nat.ltb_lt _ _)) by lia. cbn. eauto.
  - specialize (Ho1 ltac:(done)). cbn [txt_wire]. change (length [0%Z]) with 1.
    rewrite (proj2 (Nat.ltb_ge (length (txt_bytes (t :: o))) 1)) by lia.
    rewrite (proj2 (Nat.ltb_lt 1 (length (txt_bytes (t :: o))))) by lia. cbn. eauto.
  - specialize (Ho1 ltac:(done)). specialize (Hl1 ltac:(done)). cbn [txt_wire].
    set (ours := t :: o) in *. set (theirs := t' :: l) in *.
    rewrite (proj2 (Nat.leb_gt _ 1)), (bool_decide_false (ours = [])) by (done || lia).
    rewrite andb_false_r. cbn [andb]. unfold mbind, H_bind. rewrite txt_data_len_spec by done.
    cbn [hlift Nat.add].
    destruct (Nat.ltb_spec (length (txt_bytes ours)) (length (txt_bytes theirs))) as [?|H1]; [eauto|].
    destruct (Nat.ltb_spec (length (txt_bytes theirs)) (length (txt_bytes ours))) as [?|H2]; [eauto|].
    assert (length (txt_bytes theirs) = length (txt_bytes ours)) as Hlen by lia. rewrite Hlen in *.
    destruct (malloc_never h Hh) as (h1 & -> & _). cbn [negb].
    rewrite append_entries_written; [|done|cbn [index]; lia|cbn [index buf]; rewrite length_take; lia].
    cbn [hlift]. rewrite written_at_0 by (rewrite length_take; lia). cbn [hlift].
    rewrite rd_bytes_ok by lia. rewrite drop_0, take_ge by lia. cbn [hlift]. eauto.
Qed.

(** Two hosts that defend TXT records for the same name reach opposite
    verdicts when their comparison buffers can be allocated, and see "same
    data" only when the wire data are equal. *)
Lemma txt_tiebreak junk a b h :
  txt_ok (txt a) -> txt_ok (txt b) -> never_fails h -> MDNS_MAX_PACKET_SIZE <= length junk ->
  exists v h1 h2,
    check_txt_collision junk a (txt_wire (txt b)) (length (txt_wire (txt b))) h = Ret (v, h1)
    /\ check_txt_collision junk b (txt_wire (txt a)) (length (txt_wire (txt a))) h = Ret ((- v)%Z, h2)
    /\ (v = 0%Z -> txt_wire (txt a) = txt_wire (txt b)).
Proof.
  intros Ha Hb Hh Hj.
  destruct (check_txt_spec junk a (txt b) h) as (h1 & E1); [done|done|done|destruct Hb; lia|].
  destruct (check_txt_spec junk b (txt a) h) as (h2 & E2); [done|done|done|destruct Ha; lia|].
  eexists. exists h1, h2. split; [exact E1|]. rewrite E2.
  destruct (Nat.ltb_spec (length (txt_wire (txt a))) (length (txt_wire (txt b)))) as [H1|H1].
  { rewrite (proj2 (Nat.ltb_ge (length (txt_wire (txt b))) _)) by lia. done. }
  destruct (Nat.ltb_spec (length (txt_wire (txt b))) (length (txt_wire (txt a)))) as [H2|H2]; [done|].
  split; [by rewrite memcmp_verdict_opp|]. intros E%verdict_0. apply memcmp_Eq; [lia|done].
Qed.

(** * Addresses *)

Lemma ip4_bytes_inj x y : u32_ok x -> u32_ok y -> ip4_bytes x = ip4_bytes y -> x = y.
Proof.
  intros Hx Hy [= E0 E1 E2 E3]. by rewrite <- (be32_split x), <- (be32_split y), E0, E1, E2, E3.
Qed.

(** Two hosts with different addresses that claim the same host name reach
    opposite verdicts on the A record, and likewise on the AAAA record, unless
    the address is that of the same host's other interface. *)
Lemma address_tiebreak max na nb i j :
  (forall a b, ip4_info na i = Some a -> ip4_info nb j = Some b ->
     u32_ok a -> u32_ok b -> a <> 0%Z -> b <> 0%Z ->
     ip4_info na (other_interface na i) <> Some b -> ip4_info nb (other_interface nb j) <> Some a ->
     let v := check_a_collision max na b i in
     let w := check_a_collision max nb a j in
     fst w = (- fst v)%Z /\ snd v = false /\ snd w = false /\ (fst v = 0%Z -> a = b))
  /\ (forall a b, ip6_linklocal na i = Some a -> ip6_linklocal nb j = Some b ->
     length a = 16 -> length b = 16 ->
     mdns_utils_ipv6_address_is_zero a = false -> mdns_utils_ipv6_address_is_zero b = false ->
     (forall x, ip6_linklocal na (other_interface na i) = Some x -> memcmp x b <> Eq) ->
     (forall x, ip6_linklocal nb (other_interface nb j) = Some x -> memcmp x a <> Eq) ->
     let v := check_aaaa_collision max na b i in
     let w := check_aaaa_collision max nb a j in
     fst w = (- fst v)%Z /\ snd v = false /\ snd w = false /\ (fst v = 0%Z -> a = b)).
Proof.
  split.
  - intros a b Ea Eb Ha Hb Ha0 Hb0 Hoa Hob. cbn zeta. unfold check_a_collision.
    rewrite (proj2 (Z.eqb_neq a 0) Ha0), (proj2 (Z.eqb_neq b 0) Hb0), Ea, Eb.
    rewrite (memcmp_antisym (ip4_bytes a) (ip4_bytes b)).
    assert (Hot : forall n k x, ip4_info n (other_interface n k) <> Some x ->
      (if other_interface n k =? max then (1%Z, false)
       else match ip4_info n (other_interface n k) with
            | Some o => if negb (x =? o)%Z then (1%Z, false) else (2%Z, true)
            | None => (1%Z, false) end) = (1%Z, false)).
    { intros n k x Hx. case_on_goal; [done|]. destruct (ip4_info n _) as [o|]; [|done].
      destruct (Z.eqb_spec x o); [congruence|done]. }
    destruct (memcmp (ip4_bytes a) (ip4_bytes b)) eqn:E; cbn [CompOpp]; rewrite ?Hot by done; try done.
    split_and!; try done. intros _. by apply ip4_bytes_inj, memcmp_Eq.
  - intros a b Ea Eb Ha Hb Ha0 Hb0 Hoa Hob. cbn zeta. unfold check_aaaa_collision.
    rewrite Ha0, Hb0, Ea, Eb, (memcmp_antisym a b).
    assert (Hot : forall n k x,
      (forall y, ip6_linklocal n (other_interface n k) = Some y -> memcmp y x <> Eq) ->
      (if other_interface n k =? max then (1%Z, false)
       else match ip6_linklocal n (other_interface n k) with
            | Some o => match memcmp o x with Eq => (2%Z, true) | _ => (1%Z, false) end
            | None => (1%Z, false) end) = (1%Z, false)).
    { intros n k x Hx. case_on_goal; [done|]. destruct (ip6_linklocal n _) as [o|]; [|done].
      specialize (Hx o eq_refl). by destruct (memcmp o x). }
    destruct (memcmp a b) eqn:E; cbn [CompOpp]; rewrite ?Hot by done; try done.
    split_and!; try done. intros _. apply memcmp_Eq; [lia|done].
Qed.

(** The two verdicts of a conflict: opposite, and a tie only for the same data. *)
Definition opposed (v w : outcome Z) (same : Prop) : Prop := exists x, v = Ret x /\ w = Ret (- x)%Z /\ (x = 0%Z -> same).

(** The same where the comparison allocates, or says whether the address is ours. *)
Definition opposed_heap (v w : outcome (Z * heap)) (same : Prop) : Prop :=
  exists x h1 h2, v = Ret (x, h1) /\ w = Ret ((- x)%Z, h2) /\ (x = 0%Z -> same).

Definition opposed_address (v w : Z * bool) (same : Prop) : Prop :=
  fst w = (- fst v)%Z /\ snd v = false /\ snd w = false /\ (fst v = 0%Z -> same).

(** C10. Two hosts that defend records for the same name reach opposite verdicts, and
    both see "same data" only when the data are the same: no conflict leaves both
    sides thinking they won, or both giving way.  So it is for SRV records, for TXT
    records when the buffers for the comparison can be allocated, and for A and AAAA
    records unless the address is that of the same host's other interface. *)
Theorem tiebreak_antisymmetric cfg junk na nb i j max h : 9 + 2 * MDNS_NAME_MAX_LEN cfg <= length junk ->
  (forall sa sb a b ha hb,
     mdns_priv_get_global_hostname sa = Some ha -> mdns_priv_get_global_hostname sb = Some hb ->
     0 < length ha <= MDNS_NAME_MAX_LEN cfg -> 0 < length hb <= MDNS_NAME_MAX_LEN cfg ->
     Forall u16_ok [priority a; weight a; port a; priority b; weight b; port b] ->
     opposed (check_srv_collision cfg junk sa a (priority b) (weight b) (port b) hb MDNS_DEFAULT_DOMAIN)
             (check_srv_collision cfg junk sb b (priority a) (weight a) (port a) ha MDNS_DEFAULT_DOMAIN)
             (priority a = priority b /\ weight a = weight b /\ port a = port b /\ ha = hb))
  /\ (forall a b, txt_ok (txt a) -> txt_ok (txt b) -> never_fails h -> MDNS_MAX_PACKET_SIZE <= length junk ->
     opposed_heap (check_txt_collision junk a (txt_wire (txt b)) (length (txt_wire (txt b))) h)
                  (check_txt_collision junk b (txt_wire (txt a)) (length (txt_wire (txt a))) h)
                  (txt_wire (txt a) = txt_wire (txt b)))
  /\ (forall a b, ip4_info na i = Some a -> ip4_info nb j = Some b -> u32_ok a -> u32_ok b -> a <> 0%Z -> b <> 0%Z ->
     ip4_info na (other_interface na i) <> Some b -> ip4_info nb (other_interface nb j) <> Some a ->
     opposed_address (check_a_collision max na b i) (check_a_collision max nb a j) (a = b))
  /\ (forall a b, ip6_linklocal na i = Some a -> ip6_linklocal nb j = Some b -> length a = 16 -> length b = 16 ->
     mdns_utils_ipv6_address_is_zero a = false -> mdns_utils_ipv6_address_is_zero b = false ->
     (forall x, ip6_linklocal na (other_interface na i) = Some x -> memcmp x b <> Eq) ->
     (forall x, ip6_linklocal nb (other_interface nb j) = Some x -> memcmp x a <> Eq) ->
     opposed_address (check_aaaa_collision max na b i) (check_aaaa_collision max nb a j) (a = b)).
Proof.
  intros Hj. split_and!.
  - intros sa sb a b ha hb Ea Eb Hla Hlb Hu. rewrite !Forall_cons in Hu. destruct Hu as (? & ? & ? & ? & ? & ? & _).
    by apply srv_tiebreak.
  - intros a b Ha Hb Hh Hp. by apply txt_tiebreak.
  - apply (address_tiebreak max na nb i j).
  - apply (address_tiebreak max na nb i j).
Qed.

(** * The next name *)

Definition dval (s : cstr) (acc : Z) : Z := fold_left (fun a c => a * 10 + (c - 48))%Z s acc.

Lemma isdigit_range c : isdigit c = true <-> (48 <= c <= 57)%Z.
Proof. unfold isdigit. rewrite andb_true_iff, !Z.leb_le. lia. Qed.

Lemma dval_app s c acc : dval (s ++ [c]) acc = (dval s acc * 10 + (c - 48))%Z.
Proof. unfold dval. by rewrite fold_left_app. Qed.

Lemma take_digits_all s acc : Forall (fun c => isdigit c = true) s -> take_digits s acc = (dval s acc, []).
Proof.
  intros Hs. revert acc. induction Hs as [|c s Hc _ IH]; intros acc; cbn [take_digits]; [done|].
  by rewrite Hc, IH.
Qed.

(** A digit string that is consumed to its end is below the power of ten of its
    length. *)
Lemma take_digits_bound s : forall acc v, (0 <= acc)%Z -> take_digits s acc = (v, []) ->
  Forall (fun c => isdigit c = true) s
  /\ (acc <= v < (acc + 1) * 10 ^ Z.of_nat (length s))%Z.
Proof.
  induction s as [|c s IH]; intros acc v Ha; cbn [take_digits].
  { intros [= ->]. split; [constructor|]. cbn. lia. }
  destruct (isdigit c) eqn:Hc; [|done]. intros E. apply isdigit_range in Hc as Hr.
  apply IH in E as [Hs Hv]; [|lia]. split; [by constructor|].
  cbn [length]. rewrite Nat2Z.inj_succ, Z.pow_succ_r by lia.
  assert (0 < 10 ^ Z.of_nat (length s))%Z by (apply Z.pow_pos_nonneg; lia). nia.
Qed.

Lemma digits_spec fuel : forall n, 0 < fuel -> (0 <= n < 10 ^ Z.of_nat fuel)%Z ->
  Forall (fun c => isdigit c = true) (digits fuel n) /\ dval (digits fuel n) 0 = n
  /\ digits fuel n <> [].
Proof.
  induction fuel as [|fuel IH]; intros n Hf Hn; [lia|]. cbn [digits].
  destruct (Z.ltb_spec n 10).
  { split_and!; [|cbn; lia|done]. constructor; [apply isdigit_range; lia|constructor]. }
  rewrite Nat2Z.inj_succ, Z.pow_succ_r in Hn by lia.
  destruct fuel as [|fuel]; [change (10 ^ Z.of_nat 0)%Z with 1%Z in Hn; lia|].
  destruct (IH (n / 10)%Z) as (Hd & Hv & Hne); [lia| |].
  { split; [apply Z.div_pos; lia|apply Z.div_lt_upper_bound; lia]. }
  pose proof (Z.mod_pos_bound n 10 ltac:(lia)). split_and!.
  - apply Forall_app. split; [done|]. constructor; [apply isdigit_range; lia|constructor].
  - rewrite dval_app, Hv. pose proof (Z.div_mod n 10). lia.
  - by intros [_ [=]]%app_eq_nil.
Qed.

Lemma digits_length fuel : forall n k, k <= fuel -> 0 < k -> (0 <= n < 10 ^ Z.of_nat k)%Z ->
  length (digits fuel n) <= k.
Proof.
  induction fuel as [|fuel IH]; intros n k Hk H0 Hn; [lia|]. cbn [digits].
  destruct (Z.ltb_spec n 10); [cbn; lia|]. rewrite length_app. cbn [length].
  destruct k as [|k]; [lia|]. rewrite Nat2Z.inj_succ, Z.pow_succ_r in Hn by lia.
  destruct k as [|k]; [change (10 ^ Z.of_nat 0)%Z with 1%Z in Hn; lia|].
  assert (length (digits fuel (n / 10)) <= S k); [|lia]. apply IH; [lia|lia|].
  split; [apply Z.div_pos; lia|apply Z.div_lt_upper_bound; lia].
Qed.

Lemma strrchr_some s b a : strrchr_dash s = Some (b, a) ->
  s = b ++ 45%Z :: a /\ Forall (fun c => c <> 45%Z) a.
Proof.
  assert (Hnone : forall s, strrchr_dash s = None -> Forall (fun c => c <> 45%Z) s).
  { induction s0 as [|c s0 IH]; cbn [strrchr_dash]; [constructor|].
    destruct (strrchr_dash s0) as [[? ?]|]; [done|].
    destruct (Z.eqb_spec c 45); [done|]. constructor; auto. }
  revert b a; induction s as [|c s IH]; intros b a; cbn [strrchr_dash]; [done|].
  destruct (strrchr_dash s) as [[b' a']|] eqn:E.
  - intros [= <- <-]. destruct (IH _ _ eq_refl) as [-> Ha]. done.
  - destruct (Z.eqb_spec c 45) as [->|]; [|done]. intros [= <- <-]. split; [done|auto].
Qed.

Lemma strrchr_at b a : Forall (fun c => c <> 45%Z) a -> strrchr_dash (b ++ 45%Z :: a) = Some (b, a).
Proof.
  intros Ha. assert (strrchr_dash a = None) as Hn.
  { induction Ha as [|c a Hc _ IH]; cbn [strrchr_dash]; [done|]. rewrite IH.
    by rewrite (proj2 (Z.eqb_neq c 45) Hc). }
  induction b as [|c b IH]; cbn [app strrchr_dash]; [by rewrite Hn|]. by rewrite IH.
Qed.

Lemma skip_spaces_suffix s : exists p, s = p ++ skip_spaces s.
Proof.
  induction s as [|c s [p IH]]; cbn [skip_spaces]; [by exists []|].
  destruct (isspace c); [|by exists []]. exists (c :: p). cbn. by rewrite <- IH.
Qed.

Lemma digit_not_special c : isdigit c = true ->
  isspace c = false /\ (c =? 45)%Z = false /\ (c =? 43)%Z = false.
Proof.
  rewrite isdigit_range. unfold isspace. intros Hc.
  rewrite !(proj2 (Z.eqb_neq _ _)) by lia. rewrite (proj2 (Z.leb_gt c 13)) by lia.
  by rewrite andb_false_r.
Qed.

Lemma strtol_digits n : (0 <= n <= LONG_MAX)%Z -> strtol (digits 10 n) = (n, []).
Proof.
  unfold LONG_MAX. intros Hn. destruct (digits_spec 10 n) as (Hd & Hv & Hne); [lia|lia|].
  destruct (digits 10 n) as [|c s]; [done|]. pose proof Hd as Hd'.
  apply Forall_cons in Hd' as [Hc _]. destruct (digit_not_special c Hc) as (H1 & H2 & H3).
  unfold strtol. cbn [skip_spaces]. rewrite H1, H2, H3, Hc, take_digits_all, Hv by done.
  unfold LONG_MAX, LONG_MIN. f_equal. lia.
Qed.

(** A number read to the end of a dash-free string: its digits are at the end of
    the string. *)
Lemma strtol_end s v : Forall (fun c => c <> 45%Z) s -> strtol s = (v, []) ->
  (s = [] /\ v = 0%Z)
  \/ exists p u w, s = p ++ u /\ take_digits u 0 = (w, []) /\ v = Z.min LONG_MAX w /\ (0 <= w)%Z.
Proof.
  intros Hs. unfold strtol. destruct (skip_spaces_suffix s) as [p Hp].
  set (t := skip_spaces s) in *. clearbody t.
  assert (Hpos : forall u w, take_digits u 0 = (w, []) ->
    (0 <= w)%Z /\ Z.max LONG_MIN (Z.min LONG_MAX w) = Z.min LONG_MAX w).
  { intros u w Hw. destruct (take_digits_bound u 0 w) as [_ Hb]; [lia|done|].
    unfold LONG_MIN, LONG_MAX. lia. }
  destruct t as [|c t]; [intros [= <- ->]; by left|].
  destruct (Z.eqb_spec c 45) as [->|_].
  { exfalso. rewrite Hp in Hs. apply Forall_app in Hs as [_ Hs]. by apply Forall_cons in Hs as [Hs _]. }
  assert (Hend : forall u, (exists p', s = p' ++ u) ->
    match u with
    | c0 :: _ => if isdigit c0
        then let '(v, rest) := take_digits u 0 in (Z.max LONG_MIN (Z.min LONG_MAX v), rest)
        else (0%Z, s)
    | [] => (0%Z, s)
    end = (v, []) ->
    (s = [] /\ v = 0%Z)
    \/ exists p u w, s = p ++ u /\ take_digits u 0 = (w, []) /\ v = Z.min LONG_MAX w /\ (0 <= w)%Z).
  { intros u [p' Hu]. destruct u as [|d u]; [intros [= <- ->]; by left|].
    destruct (isdigit d); [|intros [= <- ->]; by left].
    destruct (take_digits (d :: u) 0) as [w r] eqn:E. intros [= <- ->].
    destruct (Hpos _ _ E) as [Hw ->]. right. by exists p', (d :: u), w. }
  destruct (c =? 43)%Z; intros E.
  - apply (Hend t); [|exact E]. exists (p ++ [c]). by rewrite <- app_assoc.
  - apply (Hend (c :: t)); [by exists p|exact E].
Qed.

Lemma s32_small z : (- 2 ^ 31 <= z < 2 ^ 31)%Z -> s32 z = z.
Proof.
  intros Hz. unfold s32, u32. destruct (Z.lt_ge_cases z 0).
  - rewrite <- (Z_mod_plus_full z 1), Z.mod_small by lia.
    rewrite (proj2 (Z.ltb_ge _ _)) by lia. lia.
  - rewrite Z.mod_small by lia. by rewrite (proj2 (Z.ltb_lt _ _)) by lia.
Qed.

(** The new suffix fits the one extra byte, and differs from the old one. *)
Lemma next_suffix after v : Forall (fun c => c <> 45%Z) after -> strtol after = (v, []) ->
  (0 <= v <= LONG_MAX)%Z /\ length (print_int (s32 (v + 1))) <= length after + 1
  /\ print_int (s32 (v + 1)) <> after.
Proof.
  intros Ha E. destruct (strtol_end _ _ Ha E) as [[-> ->]|(p & u & w & Hp & Hu & -> & Hw)].
  { change (print_int (s32 (0 + 1))) with [49%Z]. unfold LONG_MAX. split_and!; try (cbn; lia); done. }
  destruct (take_digits_bound u 0 w) as [_ Hb]; [lia|done|].
  assert (length u <= length after) by (rewrite Hp, length_app; lia).
  split; [unfold LONG_MAX in *; lia|].
  destruct (Z.lt_ge_cases w LONG_MAX) as [Hlt|Hge].
  - rewrite Z.min_r by lia. rewrite Z.min_r in E by lia. unfold LONG_MAX in Hlt.
    rewrite s32_small by lia. unfold print_int. rewrite (proj2 (Z.ltb_ge _ _)) by lia.
    split.
    + assert (length (digits 10 (w + 1)) <= Nat.min 10 (length u + 1)); [|lia].
      apply digits_length; [lia|lia|]. split; [lia|].
      destruct (Nat.le_gt_cases 10 (length u + 1)); [rewrite Nat.min_l by lia; cbn; lia|].
      rewrite Nat.min_r, Nat2Z.inj_add, Z.pow_add_r by lia. lia.
    + intros Heq. rewrite <- Heq, strtol_digits in E by (unfold LONG_MAX; lia).
      injection E. lia.
  - rewrite Z.min_l by lia. change (print_int (s32 (LONG_MAX + 1))) with (str "-2147483648").
    split; [|intros <-; by apply Forall_cons in Ha as [Ha _]].
    assert (10 <= length u); [|cbn; lia].
    destruct (Nat.le_gt_cases 10 (length u)) as [|Hlen]; [done|].
    assert (10 ^ Z.of_nat (length u) <= 10 ^ 9)%Z by (apply Z.pow_le_mono_r; lia).
    unfold LONG_MAX in Hge. lia.
Qed.

Lemma numeric_suffix_some s base v : numeric_suffix s = Some (base, v) ->
  exists after, s = base ++ 45%Z :: after /\ Forall (fun c => c <> 45%Z) after
    /\ strtol after = (v, []).
Proof.
  unfold numeric_suffix. destruct (strrchr_dash s) as [[b a]|] eqn:E; [|done].
  apply strrchr_some in E as [-> Ha]. destruct (strtol a) as [w [|]] eqn:Et; [|done].
  intros [= <- <-]. by exists a.
Qed.

(** The names tried after the conflicts: [n] renamings of [s]. *)
Fixpoint mangle_iter (n : nat) (s : cstr) : H (option cstr) :=
  match n with
  | O => mret (Some s)
  | S n => r ← mangle_iter n s; match r with Some s => mangle_name s | None => mret None end
  end.

(** The name without its number, and the number; a name without one counts as the first. *)
Definition numbered (s : cstr) : cstr * Z := match numeric_suffix s with Some r => r | None => (s, 1%Z) end.

Lemma mangle_next s h : never_fails h -> (snd (numbered s) < LONG_MAX)%Z ->
  exists h', mangle_name s h = Ret (Some (fst (numbered s) ++ 45%Z :: digits 10 (snd (numbered s) + 1)), h')
    /\ never_fails h'.
Proof.
  intros Hh Hn. unfold mangle_name, mbind, H_bind. destruct (malloc_never h Hh) as (h1 & -> & Hh1). cbn [negb].
  unfold numbered in *. destruct (numeric_suffix s) as [[base v]|] eqn:E; cbn [fst snd] in *.
  - apply numeric_suffix_some in E as (after & -> & Ha & Hs). destruct (next_suffix _ _ Ha Hs) as (Hv & Hlen & _).
    unfold LONG_MAX in *. rewrite s32_small in * by lia. unfold print_int in *. rewrite (proj2 (Z.ltb_ge _ _)) in * by lia.
    unfold store_str. rewrite (proj2 (Nat.leb_le _ _)) by (rewrite !length_app; cbn [length]; lia). cbn [hlift]. eauto.
  - unfold store_str. rewrite (proj2 (Nat.leb_le _ _)) by (rewrite length_app; cbn; lia). cbn [hlift]. eauto.
Qed.

Lemma numbered_digits base n : (0 <= n <= LONG_MAX)%Z -> numbered (base ++ 45%Z :: digits 10 n) = (base, n).
Proof.
  intros Hn. destruct (digits_spec 10 n) as (Hd & _ & _); [lia|unfold LONG_MAX in *; lia|].
  unfold numbered, numeric_suffix. rewrite strrchr_at, strtol_digits; [done|lia|].
  eapply Forall_impl; [exact Hd|]. cbn beta. intros c Hc%isdigit_range. lia.
Qed.

Lemma numbered_nonneg s : (0 <= snd (numbered s))%Z.
Proof.
  unfold numbered. destruct (numeric_suffix s) as [[base v]|] eqn:E; cbn; [|lia].
  apply numeric_suffix_some in E as (after & _ & Ha & Hs). destruct (next_suffix _ _ Ha Hs). lia.
Qed.

(** C11. The renaming after a lost conflict: for any name and any outcome of the
    allocation the new name fits the block allocated for it, takes at most two
    more bytes and differs from the old one.  With memory, and as long as the number
    stays within a [long], the k-th renaming of a name is the name without its numeric
    suffix (if it has one) followed by a dash and its number (1 if it has none) plus k:
    "foo" becomes "foo-2", "foo-3" and so on, "foo-5" becomes "foo-6", so that no name
    is tried twice. *)
Theorem mangle_name_progress s :
  hspec (mangle_name s) (fun r n => match r with
    | Some s' => n = 1%Z /\ s' <> s /\ length s' <= length s + 2 | None => n = 0%Z end)
  /\ (forall k h, never_fails h -> (snd (numbered s) + Z.of_nat k < LONG_MAX)%Z ->
      exists h', mangle_iter (S k) s h
        = Ret (Some (fst (numbered s) ++ 45%Z :: digits 10 (snd (numbered s) + Z.of_nat (S k))), h') /\ never_fails h').
Proof.
  split.
  - unfold mangle_name. eapply hspec_bind; [apply hspec_malloc|].
    intros [] n ->; cbn [negb]; [|by apply hspec_ret].
    destruct (numeric_suffix s) as [[base v]|] eqn:E.
    + apply numeric_suffix_some in E as (after & -> & Ha & Hs).
      destruct (next_suffix _ _ Ha Hs) as (_ & Hlen & Hne).
      assert (length (base ++ 45%Z :: print_int (s32 (v + 1)))
              <= length (base ++ 45%Z :: after) + 1) as Hl
        by (rewrite !length_app; cbn [length]; lia).
      unfold store_str. rewrite (proj2 (Nat.leb_le _ _)) by lia.
      eapply hspec_bind; [apply (hspec_lift _ (eq (base ++ 45%Z :: print_int (s32 (v + 1))))); done|].
      intros r n [<- ->]. apply hspec_ret. split_and!; [done| |lia].
      intros [=]%app_inv_head. done.
    + unfold store_str. rewrite length_app. cbn [length].
      rewrite (proj2 (Nat.leb_le _ _)) by lia.
      eapply hspec_bind; [apply (hspec_lift _ (eq (s ++ [45; 50]%Z))); done|].
      intros r n [<- ->]. apply hspec_ret. rewrite length_app. cbn [length].
      split_and!; [done| |lia]. intros E'%(f_equal length). rewrite length_app in E'. cbn in E'. lia.
  - intros k. induction k as [|k IH]; intros h Hh Hk.
    + cbn [mangle_iter]. apply (mangle_next s h Hh). lia.
    + destruct (IH h Hh ltac:(lia)) as (h1 & E & Hh1). pose proof (numbered_nonneg s).
      change (mangle_iter (S (S k)) s h)
        with ((r ← mangle_iter (S k) s; match r with Some s => mangle_name s | None => mret None end) h).
      unfold mbind, H_bind. rewrite E. set (v := (snd (numbered s) + Z.of_nat (S k))%Z) in *.
      destruct (mangle_next (fst (numbered s) ++ 45%Z :: digits 10 v) h1 Hh1) as (h2 & -> & Hh2).
      { rewrite numbered_digits by lia. cbn. lia. }
      rewrite numbered_digits by lia. cbn [fst snd]. exists h2. split; [|done].
      by replace (v + 1)%Z with (snd (numbered s) + Z.of_nat (S (S k)))%Z by lia.
Qed.
