(* ===== verification/ConflictExamples.v ===== *)
(** Concrete TXT records and conflicts: instances of the theorems of Txt.v,
    TxtRoundtrip.v and CollisionProofs.v. *)
From S2P Require Import Prelude Names Server Encode Heap Txt TxtRoundtrip Collision CollisionProofs.

Definition board_item : mdns_txt_linked_item_t := mk_txt (Some (str "board")) (Some (str "esp32")) 5.
Definition flag_item : mdns_txt_linked_item_t := mk_txt (Some (str "auth")) None 0.
Definition empty_item : mdns_txt_linked_item_t := mk_txt (Some (str "path")) (Some []) 0.

Definition items : list mdns_txt_linked_item_t := [board_item; flag_item; empty_item].

Ltac str_chars :=
  apply List.Forall_forall; intros x Hx; vm_compute in Hx;
  repeat (destruct Hx as [<-|Hx]; [lia|]); done.

Lemma items_ok : Forall txt_item_ok items.
Proof.
  unfold items. repeat first [apply Forall_nil_2 | apply Forall_cons_2];
  cbn [txt_item_ok key value value_len board_item flag_item empty_item];
  split_and!; first [str_chars | cbn; lia].
Qed.

Definition packet : pkt := mk_pkt (replicate 1460 0%Z) 12.


(** An allocation that fails in the middle of the second item. *)
Lemma txt_create_owns_witness :
  let data := txt_bytes items in
  yields (result_txt_create data (length data) (mk_heap [false; false; false; false; true] 7))
    (fun '(l, h) => (live h - 7)%Z = match l with [] => 0 | _ => 2 + items_blocks l end)%Z.
Proof.
  intros data.
  apply (proj1 (txt_create_owns data (length data) ltac:(vm_compute; reflexivity) (le_n _)
           ltac:(repeat (apply Forall_cons_2; [split; [discriminate|reflexivity]|]); apply Forall_nil_2))
           (mk_heap [false; false; false; false; true] 7)).
Defined.

Definition http (prio : Z) (l : list mdns_txt_linked_item_t) : mdns_service_t :=
  mk_service None (str "_http") (str "_tcp") (Some (str "esp")) prio 0 80 l [].

Definition host_server (h : cstr) : option mdns_server_t :=
  Some (mk_server (Some h) None [] [] (mk_host (Some h) [])).

Lemma items_txt_ok l : Forall txt_item_ok l -> (length (txt_bytes l) <? 1460) = true -> txt_ok l.
Proof. intros Hl Hn. split; [done|]. rewrite max_packet_size. bsimp. lia. Qed.

Definition net_of (ip : Z) : net_view :=
  mk_net_view (fun _ _ => true) (fun _ _ => false) (fun _ => false) (fun _ => 3)
    (fun i => if i =? 0 then Some ip else None) (fun _ => [])
    (fun i => if i =? 0 then Some (replicate 15 0xFE ++ [ip])%Z else None).

(** Two hosts: their services, their items and their addresses. *)
Lemma tiebreak_antisymmetric_witness :
  opposed (check_srv_collision default_config (replicate 1460 0%Z) (host_server (str "esp-a")) (http 1 []) 0 0 80 (str "esp-b") MDNS_DEFAULT_DOMAIN)
          (check_srv_collision default_config (replicate 1460 0%Z) (host_server (str "esp-b")) (http 0 []) 1 0 80 (str "esp-a") MDNS_DEFAULT_DOMAIN)
          (1 = 0 /\ 0 = 0 /\ 80 = 80 /\ str "esp-a" = str "esp-b")%Z
  /\ opposed_heap (check_txt_collision (replicate 1460 0%Z) (http 0 items) (txt_wire [flag_item]) (length (txt_wire [flag_item])) (mk_heap [] 0))
          (check_txt_collision (replicate 1460 0%Z) (http 0 [flag_item]) (txt_wire items) (length (txt_wire items)) (mk_heap [] 0))
          (txt_wire items = txt_wire [flag_item])
  /\ fst (check_a_collision 3 (net_of 0x0200A8C0) 0x0100A8C0 0) = (-1)%Z.
Proof.
  destruct (tiebreak_antisymmetric default_config (replicate 1460 0%Z) (net_of 0x0100A8C0) (net_of 0x0200A8C0) 0 0 3 (mk_heap [] 0))
    as (Hsrv & Htxt & Ha & _); [apply Nat.leb_le; reflexivity|]. split_and!.
  - apply (Hsrv (host_server (str "esp-a")) (host_server (str "esp-b")) (http 1 []) (http 0 []) (str "esp-a") (str "esp-b") eq_refl eq_refl);
      try (cbn; lia). repeat constructor; cbn; lia.
  - apply (Htxt (http 0 items) (http 0 [flag_item])).
    + apply items_txt_ok; [exact items_ok|reflexivity].
    + apply items_txt_ok; [|reflexivity].
      pose proof items_ok as Hi. apply Forall_cons in Hi as [_ Hi]. apply Forall_cons in Hi as [Hi _].
      apply Forall_cons_2; [exact Hi|apply Forall_nil_2].
    + reflexivity.
    + apply Nat.leb_le. vm_compute. reflexivity.
  - destruct (Ha 0x0100A8C0%Z 0x0200A8C0%Z eq_refl eq_refl ltac:(split; reflexivity || discriminate)
      ltac:(split; reflexivity || discriminate) ltac:(discriminate) ltac:(discriminate)
      ltac:(discriminate) ltac:(discriminate)) as [H _]. rewrite H. reflexivity.
Defined.

Lemma mangle_name_progress_witness :
  (exists h', mangle_iter 9 (str "esp") (mk_heap [] 0) = Ret (Some (str "esp-10"), h') /\ never_fails h')
  /\ exists h', mangle_iter 2 (str "foo-5") (mk_heap [] 0) = Ret (Some (str "foo-7"), h') /\ never_fails h'.
Proof.
  split.
  - apply (proj2 (mangle_name_progress (str "esp")) 8 (mk_heap [] 0)); reflexivity.
  - apply (proj2 (mangle_name_progress (str "foo-5")) 1 (mk_heap [] 0)); reflexivity.
Defined.
