(* ===== verification/Answers.v ===== *)
(** Outgoing packets: components/mdns/mdns_send.c, the lists of answers and
    questions of a packet ([mdns_priv_create_answer], [mdns_priv_dealloc_answer],
    [append_host_question] and their relatives), the packets the responder
    builds (probe, announcement, goodbye) and the answer to a parsed packet
    ([mdns_priv_create_answer_from_parsed_packet]).

    Allocations run in the monad of Heap.v.  An array of services is a list of
    service identifiers. *)
From S2P Require Import Prelude Names Server Encode Heap Collision.

(** * Packets as owners of blocks *)

Definition strings_blocks (a b c d : option cstr) : Z :=
  (opt_block a + opt_block b + opt_block c + opt_block d)%Z.

Definition out_question_blocks (q : mdns_out_question_t) : Z :=
  (1 + if oq_own_dynamic_memory q
       then strings_blocks (oq_host q) (oq_service q) (oq_proto q) (oq_domain q) else 0)%Z.

Definition out_questions_blocks (l : list mdns_out_question_t) : Z :=
  foldr (fun q n => out_question_blocks q + n)%Z 0%Z l.

Definition packet_blocks (p : mdns_tx_packet_t) : Z :=
  (1 + out_questions_blocks (tx_questions p) + Z.of_nat (length (tx_answers p))
   + Z.of_nat (length (tx_servers p)) + Z.of_nat (length (tx_additional p)))%Z.

Definition mdns_priv_free_tx_packet (p : mdns_tx_packet_t) : H unit := mfree (packet_blocks p).

(** * Fields *)

Inductive section := Answers | Servers | Additional.

#[export] Instance section_eq_dec : EqDecision section.
Proof. solve_decision. Defined.

Definition get_section (p : mdns_tx_packet_t) (s : section) : list mdns_out_answer_t :=
  match s with Answers => tx_answers p | Servers => tx_servers p | Additional => tx_additional p end.

Definition set_section (p : mdns_tx_packet_t) (s : section) (l : list mdns_out_answer_t)
    : mdns_tx_packet_t :=
  mk_tx_packet (tx_send_at p) (tx_if p) (tx_ip_protocol p) (tx_dst p) (tx_port p) (tx_flags p)
    (tx_distributed p) (tx_questions p)
    (match s with Answers => l | _ => tx_answers p end)
    (match s with Servers => l | _ => tx_servers p end)
    (match s with Additional => l | _ => tx_additional p end) (tx_queued p) (tx_id p).

Definition set_questions (p : mdns_tx_packet_t) (l : list mdns_out_question_t) : mdns_tx_packet_t :=
  mk_tx_packet (tx_send_at p) (tx_if p) (tx_ip_protocol p) (tx_dst p) (tx_port p) (tx_flags p)
    (tx_distributed p) l (tx_answers p) (tx_servers p) (tx_additional p) (tx_queued p) (tx_id p).

Definition set_header (p : mdns_tx_packet_t) (flags : Z) (distributed : bool) (id : Z)
    : mdns_tx_packet_t :=
  mk_tx_packet (tx_send_at p) (tx_if p) (tx_ip_protocol p) (tx_dst p) (tx_port p) flags
    distributed (tx_questions p) (tx_answers p) (tx_servers p) (tx_additional p) (tx_queued p) id.

Definition set_dst (p : mdns_tx_packet_t) (dst : esp_ip_addr_t) (port : Z) : mdns_tx_packet_t :=
  mk_tx_packet (tx_send_at p) (tx_if p) (tx_ip_protocol p) dst port (tx_flags p)
    (tx_distributed p) (tx_questions p) (tx_answers p) (tx_servers p) (tx_additional p)
    (tx_queued p) (tx_id p).

Definition set_flags (p : mdns_tx_packet_t) (flags : Z) : mdns_tx_packet_t :=
  set_header p flags (tx_distributed p) (tx_id p).

(** * Allocation *)

Definition MDNS_GROUP4 : esp_ip_addr_t := IP4 0xFB0000E0.
Definition MDNS_GROUP6 : esp_ip_addr_t := IP6 ([0xFF; 0x02] ++ replicate 13 0 ++ [0xFB])%Z.

Definition mdns_priv_alloc_packet (cfg : config) (tcpip_if : mdns_if_t) (proto : mdns_ip_protocol_t)
    : H (option mdns_tx_packet_t) :=
  ok ← malloc;
  if negb ok then mret None
  else
    let dst :=
      match proto with
      | MDNS_IP_PROTOCOL_V4 => if CONFIG_LWIP_IPV4 cfg then MDNS_GROUP4 else IP4 0
      | MDNS_IP_PROTOCOL_V6 => if CONFIG_LWIP_IPV6 cfg then MDNS_GROUP6 else IP4 0
      end in
    mret (Some (mk_tx_packet 0 tcpip_if proto dst MDNS_SERVICE_PORT 0 false [] [] [] [] false 0)).

(** * Lists of answers *)

Definition same_answer (type : Z) (service : option sid) (host : option host_ref)
    (d : mdns_out_answer_t) : bool :=
  (oa_type d =? type)%Z && bool_decide (oa_service d = service) && bool_decide (oa_host d = host).

(** [mdns_priv_create_answer]: its result and the list. *)
Definition mdns_priv_create_answer (destination : list mdns_out_answer_t) (type : Z)
    (service : option sid) (host : option host_ref) (flush bye : bool)
    : H (bool * list mdns_out_answer_t) :=
  if existsb (same_answer type service host) destination then mret (true, destination)
  else
    ok ← malloc;
    if negb ok then mret (false, destination)
    else mret (true, destination ++ [mk_out_answer type bye flush service host None None None]).

(** The first answer that satisfies [f] leaves the list. *)
Fixpoint remove_first (f : mdns_out_answer_t -> bool) (l : list mdns_out_answer_t)
    : list mdns_out_answer_t :=
  match l with
  | [] => []
  | a :: l => if f a then l else a :: remove_first f l
  end.

(** [mdns_priv_dealloc_answer]; a null service item stands for a null service. *)
Definition mdns_priv_dealloc_answer (destination : list mdns_out_answer_t) (type : Z)
    (service : option sid) : H (list mdns_out_answer_t) :=
  let l := remove_first (fun a => (oa_type a =? type)%Z && bool_decide (oa_service a = service))
             destination in
  _ ← mfree (Z.of_nat (length destination - length l)); mret l.

(** [dealloc_scheduled_service_answers]: every answer for the service. *)
Definition dealloc_scheduled_service_answers (destination : list mdns_out_answer_t) (service : sid)
    : H (list mdns_out_answer_t) :=
  let l := filter (fun a => oa_service a <> Some service) destination in
  _ ← mfree (Z.of_nat (length destination - length l)); mret l.

(** A call of [mdns_priv_create_answer] on one of the lists of a packet, and the
    chains [!create(...) || !create(...)]: the calls up to the first failure. *)
Record request := mk_request {
  r_section : section;
  r_type : Z;
  r_service : option sid;
  r_host : option host_ref;
  r_flush : bool;
  r_bye : bool;
}.

Definition request_one (p : mdns_tx_packet_t) (r : request) : H (bool * mdns_tx_packet_t) :=
  '(ok, l) ← mdns_priv_create_answer (get_section p (r_section r)) (r_type r) (r_service r)
               (r_host r) (r_flush r) (r_bye r);
  mret (ok, set_section p (r_section r) l).

Fixpoint request_all (p : mdns_tx_packet_t) (rs : list request) : H (bool * mdns_tx_packet_t) :=
  match rs with
  | [] => mret (true, p)
  | r :: rs =>
      '(ok, p) ← request_one p r;
      if (ok : bool) then request_all p rs else mret (false, p)
  end.

Section WithServer.
Context (cfg : config) (s : option mdns_server_t).

(** [get_host_item]; comparing with an unset global host name is a bad access. *)
Definition get_host_item (hostname_ : option cstr) : outcome (option host_ref) :=
  match hostname_ with
  | None => Ret (mdns_priv_get_self_host s)
  | Some h =>
      b ← strcasecmp_eq (Some h) (mdns_priv_get_global_hostname s);
      if (b : bool) then Ret (mdns_priv_get_self_host s)
      else
        r ← find_first (fun x => strcasecmp_eq (hostname (snd x)) (Some h)) (mdns_priv_get_hosts s);
        Ret (match r with Some (i, _) => Some (Delegated i) | None => None end)
  end.

Definition is_instance_question (q : mdns_parsed_question_t) : bool :=
  negb (q_sub q) && negb (mdns_utils_str_null_or_empty (q_host q)).

(** The calls of [create_answer_from_service] for a question. *)
Definition service_requests (i : sid) (host : option host_ref) (q : mdns_parsed_question_t)
    (shared send_flush : bool) : list request :=
  let is_delegated := negb (bool_decide (host = mdns_priv_get_self_host s)) in
  let addr_section := if shared || is_delegated then Additional else Answers in
  if (q_type q =? MDNS_TYPE_ANY)%Z && is_instance_question q then
    [mk_request Answers MDNS_TYPE_SRV (Some i) None send_flush false;
     mk_request Answers MDNS_TYPE_TXT (Some i) None send_flush false;
     mk_request Additional MDNS_TYPE_A (Some i) host send_flush false;
     mk_request Additional MDNS_TYPE_AAAA (Some i) host send_flush false]
  else if (q_type q =? MDNS_TYPE_PTR)%Z
          || ((q_type q =? MDNS_TYPE_ANY)%Z && negb (is_instance_question q)) then
    [mk_request Answers MDNS_TYPE_PTR (Some i) None false false;
     mk_request Additional MDNS_TYPE_SRV (Some i) None send_flush false;
     mk_request Additional MDNS_TYPE_TXT (Some i) None send_flush false;
     mk_request addr_section MDNS_TYPE_A (Some i) host send_flush false;
     mk_request addr_section MDNS_TYPE_AAAA (Some i) host send_flush false]
  else if (q_type q =? MDNS_TYPE_SRV)%Z then
    [mk_request Answers MDNS_TYPE_SRV (Some i) None send_flush false;
     mk_request Additional MDNS_TYPE_A (Some i) host send_flush false;
     mk_request Additional MDNS_TYPE_AAAA (Some i) host send_flush false]
  else if (q_type q =? MDNS_TYPE_TXT)%Z then
    [mk_request Answers MDNS_TYPE_TXT (Some i) None send_flush false]
  else if (q_type q =? MDNS_TYPE_SDPTR)%Z then
    [mk_request Answers MDNS_TYPE_SDPTR (Some i) None false false]
  else [].

Definition create_answer_from_service (p : mdns_tx_packet_t) (i : sid) (q : mdns_parsed_question_t)
    (shared send_flush : bool) : H (bool * mdns_tx_packet_t) :=
  srv ← hlift (get_service s i);
  host ← hlift (get_host_item (srv_hostname srv));
  request_all p (service_requests i host q shared send_flush).

(** [append_host] as calls on a list of the packet. *)
Definition host_requests (sec : section) (host : option host_ref) (flush bye : bool) : list request :=
  [mk_request sec MDNS_TYPE_A None host flush bye; mk_request sec MDNS_TYPE_AAAA None host flush bye].

Definition create_answer_from_hostname (p : mdns_tx_packet_t) (h : option cstr) (send_flush : bool)
    : H (bool * mdns_tx_packet_t) :=
  host ← hlift (get_host_item h);
  request_all p (host_requests Answers host send_flush false).

Definition service_match_ptr_question (srv : mdns_service_t) (q : mdns_parsed_question_t)
    : outcome bool :=
  if negb (mdns_utils_service_match srv (q_service q) (q_proto q) None) then Ret false
  else if q_sub q then
    r ← find_first (fun st => strcasecmp_eq (Some st) (q_host q)) (subtype srv);
    Ret (bool_decide (is_Some r))
  else
    match q_host q with
    | Some h => strcasecmp_eq (mdns_utils_get_service_instance_name s srv) (Some h)
    | None => Ret true
    end.

(** [mdns_priv_append_host_list_in_services]; [None] is a null array. *)
Fixpoint append_service_hosts (p : mdns_tx_packet_t) (sec : section) (services : list sid)
    (flush bye : bool) : H (bool * mdns_tx_packet_t) :=
  match services with
  | [] => mret (true, p)
  | i :: services =>
      srv ← hlift (get_service s i);
      host ← hlift (get_host_item (srv_hostname srv));
      '(ok, p) ← request_all p (host_requests sec host flush bye);
      if (ok : bool) then append_service_hosts p sec services flush bye else mret (false, p)
  end.

Definition mdns_priv_append_host_list_in_services (p : mdns_tx_packet_t) (sec : section)
    (services : option (list sid)) (flush bye : bool) : H (bool * mdns_tx_packet_t) :=
  match services with
  | None =>
      host ← hlift (get_host_item (mdns_priv_get_global_hostname s));
      match host with
      | Some _ => request_all p (host_requests sec host flush bye)
      | None => mret (true, p)
      end
  | Some l => append_service_hosts p sec l flush bye
  end.

(** [append_host_list]: the loop moves to the next host before it appends one,
    so it appends the hosts after the first, and then a null host. *)
Definition list_hosts : list (option host_ref) :=
  match mdns_priv_get_hosts s with
  | [] => []
  | _ :: rest => map (fun x => Some (Delegated (fst x))) rest ++ [None]
  end.

Definition append_host_list (p : mdns_tx_packet_t) (sec : section) (flush bye : bool)
    : H (bool * mdns_tx_packet_t) :=
  '(ok, p) ← (if negb (mdns_utils_str_null_or_empty (mdns_priv_get_global_hostname s)) then
                self_host ← hlift (get_host_item (mdns_priv_get_global_hostname s));
                request_all p (host_requests sec self_host flush bye)
              else mret (true, p));
  if negb ok then mret (false, p)
  else request_all p (flat_map (fun h => host_requests sec h flush bye) list_hosts).

(** * Questions of a probe *)

(** Questions are compared by the addresses of their strings: a field of a
    service, the host name of a service, or a string of the server. *)
Inductive strptr :=
| PServiceInstance (i : sid)
| PServiceType (i : sid)
| PServiceProto (i : sid)
| PServiceHost (i : sid)
| PServerInstance
| PServerHostname.

#[export] Instance strptr_eq_dec : EqDecision strptr.
Proof. solve_decision. Defined.

(** The pointer [mdns_utils_get_service_instance_name] returns. *)
Definition instance_ptr (i : sid) (srv : mdns_service_t) : option strptr :=
  if negb (mdns_utils_str_null_or_empty (srv_instance srv)) then Some (PServiceInstance i)
  else if negb (mdns_utils_str_null_or_empty (mdns_priv_get_instance s)) then Some PServerInstance
  else if negb (mdns_utils_str_null_or_empty (mdns_priv_get_global_hostname s))
  then Some PServerHostname
  else None.

(** A question with the addresses of its host, service and protocol. *)
Record probe_question := mk_probe_question {
  pq_host : option strptr;
  pq_service : option strptr;
  pq_proto : option strptr;
  pq_question : mdns_out_question_t;
}.

Definition question_exists (needle : probe_question) (haystack : list probe_question) : bool :=
  existsb (fun q => (oq_type (pq_question q) =? oq_type (pq_question needle))%Z
                    && bool_decide (pq_host q = pq_host needle)
                    && bool_decide (pq_service q = pq_service needle)
                    && bool_decide (pq_proto q = pq_proto needle)) haystack.

Definition append_host_question (questions : list probe_question) (ptr : option strptr)
    (hostname_ : option cstr) (unicast : bool) : H (bool * list probe_question) :=
  ok ← malloc;
  if negb ok then mret (false, questions)
  else
    let q := mk_probe_question ptr None None
               (mk_out_question MDNS_TYPE_ANY unicast hostname_ None None
                  (Some MDNS_DEFAULT_DOMAIN) None false) in
    if question_exists q questions then _ ← mfree 1; mret (true, questions)
    else mret (true, questions ++ [q]).

Definition srv_host_ptr (i : sid) (srv : mdns_service_t) : option strptr :=
  match srv_hostname srv with Some _ => Some (PServiceHost i) | None => None end.

Fixpoint append_service_host_questions (questions : list probe_question) (services : list sid)
    (unicast : bool) : H (bool * list probe_question) :=
  match services with
  | [] => mret (true, questions)
  | i :: services =>
      srv ← hlift (get_service s i);
      '(ok, questions) ← append_host_question questions (srv_host_ptr i srv) (srv_hostname srv) unicast;
      if (ok : bool) then append_service_host_questions questions services unicast
      else mret (false, questions)
  end.

Definition append_host_questions_for_services (questions : list probe_question)
    (services : list sid) (unicast : bool) : H (bool * list probe_question) :=
  '(ok, questions) ←
    (if negb (mdns_utils_str_null_or_empty (mdns_priv_get_global_hostname s))
     then append_host_question questions (Some PServerHostname) (mdns_priv_get_global_hostname s) unicast
     else mret (true, questions));
  if negb ok then mret (false, questions)
  else append_service_host_questions questions services unicast.

(** * Packets of the responder *)

(** The loop over the services of [mdns_priv_create_probe_packet]; the packet's
    questions are kept with their addresses until the packet is finished. *)
Fixpoint probe_services (p : mdns_tx_packet_t) (qs : list probe_question) (services : list sid)
    (first : bool) : H (bool * list probe_question * mdns_tx_packet_t) :=
  match services with
  | [] => mret (true, qs, p)
  | i :: services =>
      ok ← malloc;
      if negb ok then mret (false, qs, p)
      else
        srv ← hlift (get_service s i);
        let host := mdns_utils_get_service_instance_name s srv in
        let q := mk_probe_question (instance_ptr i srv) (Some (PServiceType i)) (Some (PServiceProto i))
                   (mk_out_question MDNS_TYPE_ANY first host (Some (srv_service srv))
                      (Some (srv_proto srv)) (Some MDNS_DEFAULT_DOMAIN) None false) in
        if bool_decide (host = None) || question_exists q qs then
          _ ← mfree 1; probe_services p qs services first
        else
          '(ok, p) ← request_one p (mk_request Servers MDNS_TYPE_SRV (Some i) None false false);
          if (ok : bool) then probe_services p (qs ++ [q]) services first
          else mret (false, qs ++ [q], p)
  end.

Definition with_questions (p : mdns_tx_packet_t) (qs : list probe_question) : mdns_tx_packet_t :=
  set_questions p (map pq_question qs).

Definition mdns_priv_create_probe_packet (tcpip_if : mdns_if_t) (proto : mdns_ip_protocol_t)
    (services : option (list sid)) (first include_ip : bool) : H (option mdns_tx_packet_t) :=
  packet ← mdns_priv_alloc_packet cfg tcpip_if proto;
  match packet with
  | None => mret None
  | Some p =>
      let l := match services with Some l => l | None => [] end in
      let fail (qs : list probe_question) (p : mdns_tx_packet_t) : H (option mdns_tx_packet_t) :=
        _ ← mdns_priv_free_tx_packet (with_questions p qs); mret None in
      '(ok, qs, p) ← probe_services p [] l first;
      if negb ok then fail qs p
      else if include_ip then
        '(ok, qs) ← append_host_questions_for_services qs l first;
        if negb ok then fail qs p
        else
          '(ok, p) ← mdns_priv_append_host_list_in_services p Servers services false false;
          if negb ok then fail qs p else mret (Some (with_questions p qs))
      else mret (Some (with_questions p qs))
  end.

(** The records that announce a service. *)
Definition announce_requests (i : option sid) : list request :=
  [mk_request Answers MDNS_TYPE_SDPTR i None false false;
   mk_request Answers MDNS_TYPE_PTR i None false false;
   mk_request Answers MDNS_TYPE_SRV i None true false;
   mk_request Answers MDNS_TYPE_TXT i None true false].

(** A service pointer taken from an array of service items. *)
Definition check_services (l : list sid) : outcome unit :=
  if forallb (fun i => bool_decide (is_Some (assoc i (mdns_priv_get_services s)))) l
  then Ret tt else BadAccess.

(** [mdns_priv_create_announce_packet]; its loop counter has eight bits, so with
    more than 255 services the loop does not end. *)
Definition mdns_priv_create_announce_packet (tcpip_if : mdns_if_t) (proto : mdns_ip_protocol_t)
    (services : option (list sid)) (include_ip : bool) : H (option mdns_tx_packet_t) :=
  packet ← mdns_priv_alloc_packet cfg tcpip_if proto;
  match packet with
  | None => mret None
  | Some p =>
      let l := match services with Some l => l | None => [] end in
      let p := set_flags p MDNS_FLAGS_QR_AUTHORITATIVE in
      if 255 <? length l then hlift OutOfFuel
      else
        _ ← hlift (check_services l);
        '(ok, p) ← request_all p (flat_map (fun i => announce_requests (Some i)) l);
        if negb ok then _ ← mdns_priv_free_tx_packet p; mret None
        else if include_ip then
          '(ok, p) ← mdns_priv_append_host_list_in_services p Servers services true false;
          if negb ok then _ ← mdns_priv_free_tx_packet p; mret None else mret (Some p)
        else mret (Some p)
  end.

(** The loop over the servers of the probe. *)
Fixpoint announce_servers (p : mdns_tx_packet_t) (servers : list mdns_out_answer_t)
    : H (bool * mdns_tx_packet_t) :=
  match servers with
  | [] => mret (true, p)
  | a :: servers =>
      if (oa_type a =? MDNS_TYPE_SRV)%Z then
        '(ok, p) ← request_all p (announce_requests (oa_service a));
        if negb ok then mret (false, p)
        else
          srv ← hlift (match oa_service a with Some i => get_service s i | None => BadAccess end);
          host ← hlift (get_host_item (srv_hostname srv));
          '(ok, p) ← request_all p (host_requests Answers host true false);
          if (ok : bool) then announce_servers p servers else mret (false, p)
      else if (oa_type a =? MDNS_TYPE_A)%Z || (oa_type a =? MDNS_TYPE_AAAA)%Z then
        '(ok, p) ← request_one p (mk_request Answers (oa_type a) None (oa_host a) true false);
        if (ok : bool) then announce_servers p servers else mret (false, p)
      else announce_servers p servers
  end.

Definition mdns_priv_create_announce_from_probe (probe : mdns_tx_packet_t)
    : H (option mdns_tx_packet_t) :=
  packet ← mdns_priv_alloc_packet cfg (tx_if probe) (tx_ip_protocol probe);
  match packet with
  | None => mret None
  | Some p =>
      '(ok, p) ← announce_servers (set_flags p MDNS_FLAGS_QR_AUTHORITATIVE) (tx_servers probe);
      if negb ok then _ ← mdns_priv_free_tx_packet p; mret None else mret (Some p)
  end.

(** [mdns_priv_send_bye] up to the dispatch: the packet to send at once, which is
    freed after it. *)
Definition mdns_priv_send_bye (tcpip_if : mdns_if_t) (proto : mdns_ip_protocol_t)
    (services : option (list sid)) (include_ip : bool) : H (option mdns_tx_packet_t) :=
  packet ← mdns_priv_alloc_packet cfg tcpip_if proto;
  match packet with
  | None => mret None
  | Some p =>
      let l := match services with Some l => l | None => [] end in
      _ ← hlift (check_services l);
      '(ok, p) ← request_all (set_flags p MDNS_FLAGS_QR_AUTHORITATIVE)
                   (map (fun i => mk_request Answers MDNS_TYPE_PTR (Some i) None true true) l);
      if negb ok then _ ← mdns_priv_free_tx_packet p; mret None
      else
        '(_, p) ← (if include_ip
                   then mdns_priv_append_host_list_in_services p Answers services true true
                   else mret (true, p));
        _ ← mdns_priv_free_tx_packet p;
        mret (Some p)
  end.

(** * Answering a packet *)

Inductive mdns_parsed_record_type_t := MDNS_ANSWER | MDNS_NS | MDNS_EXTRA.

(** The [next] pointers are the lists of the packet. *)
Record mdns_parsed_record_t := mk_parsed_record {
  pr_record_type : mdns_parsed_record_type_t;
  pr_type : Z;
  pr_clas : Z;
  pr_flush : bool;
  pr_ttl : Z;
  pr_host : option cstr;
  pr_service : option cstr;
  pr_proto : option cstr;
  pr_domain : option cstr;
  pr_data_len : Z;
  pr_data : option (list Z);
}.

Record mdns_parsed_packet_t := mk_parsed_packet {
  pp_if : mdns_if_t;
  pp_ip_protocol : mdns_ip_protocol_t;
  pp_src : esp_ip_addr_t;
  pp_src_port : Z;
  pp_multicast : bool;
  pp_authoritative : bool;
  pp_probe : bool;
  pp_discovery : bool;
  pp_distributed : bool;
  pp_questions : list mdns_parsed_question_t;
  pp_records : list mdns_parsed_record_t;
  pp_id : Z;
}.

(** The blocks of the questions and records of a packet. *)
Definition parsed_blocks (q : mdns_parsed_question_t) : Z :=
  strings_blocks (q_host q) (q_service q) (q_proto q) (q_domain q).

Definition parsed_all_blocks (qs : list mdns_parsed_question_t) : Z :=
  foldr (fun q n => 1 + parsed_blocks q + n)%Z 0%Z qs.

Definition record_blocks (r : mdns_parsed_record_t) : Z :=
  (1 + opt_block (pr_host r) + opt_block (pr_service r) + opt_block (pr_proto r))%Z.

Definition records_blocks (rs : list mdns_parsed_record_t) : Z :=
  foldr (fun r n => record_blocks r + n)%Z 0%Z rs.

(** Known-answer suppression: a record of the packet says the querier has this
    service with more than half of its time to live. *)
Definition record_known (srv : mdns_service_t) (r : mdns_parsed_record_t) : outcome bool :=
  m ← (match srv_instance srv, pr_host r with
       | Some _, Some _ =>
           mdns_utils_service_match_instance s srv (pr_host r) (pr_service r) (pr_proto r) None
       | None, None => Ret (mdns_utils_service_match srv (pr_service r) (pr_proto r) None)
       | _, _ => Ret false
       end);
  Ret (m && (MDNS_ANSWER_PTR_TTL / 2 <? pr_ttl r)%Z).

(** The loop over the services for one question; the counter of answered
    questions is [n]. *)
Fixpoint answer_services (p : mdns_tx_packet_t) (services : list (sid * mdns_service_t))
    (records : list mdns_parsed_record_t) (q : mdns_parsed_question_t) (shared send_flush : bool)
    (n : Z) : H (bool * mdns_tx_packet_t * Z) :=
  match services with
  | [] => mret (true, p, n)
  | (i, srv) :: services =>
      m ← hlift (service_match_ptr_question srv q);
      if (m : bool) then
        known ← hlift (find_first (record_known srv) records);
        match known with
        | Some _ => answer_services p services records q shared send_flush n
        | None =>
            '(ok, p) ← create_answer_from_service p i q shared send_flush;
            if (ok : bool) then answer_services p services records q shared send_flush (u32 (n + 1))
            else mret (false, p, n)
        end
      else answer_services p services records q shared send_flush n
  end.

(** The answers to one question: [None] when the question is skipped. *)
Definition answer_question (p : mdns_tx_packet_t) (pp : mdns_parsed_packet_t)
    (q : mdns_parsed_question_t) (shared send_flush : bool) (n : Z)
    : H (option (bool * mdns_tx_packet_t * Z)) :=
  let counted (m : H (bool * mdns_tx_packet_t)) : H (option (bool * mdns_tx_packet_t * Z)) :=
    '(ok, p) ← m; mret (Some (ok, p, if (ok : bool) then u32 (n + 1) else n)) in
  let srv_or_txt := (q_type q =? MDNS_TYPE_SRV)%Z || (q_type q =? MDNS_TYPE_TXT)%Z in
  if q_sub q && srv_or_txt then mret None
  else if srv_or_txt then
    srv ← hlift (mdns_utils_get_service_item_instance s (q_host q) (q_service q) (q_proto q) None);
    match srv with
    | None => mret None
    | Some (i, _) => counted (create_answer_from_service p i q shared send_flush)
    end
  else if negb (bool_decide (q_service q = None)) && negb (bool_decide (q_proto q = None)) then
    r ← answer_services p (mdns_priv_get_services s) (pp_records pp) q shared send_flush n;
    mret (Some r)
  else if (q_type q =? MDNS_TYPE_A)%Z || (q_type q =? MDNS_TYPE_AAAA)%Z then
    counted (create_answer_from_hostname p (q_host q) send_flush)
  else if (q_type q =? MDNS_TYPE_ANY)%Z then
    counted (append_host_list p Answers send_flush false)
  else if CONFIG_MDNS_RESPOND_REVERSE_QUERIES cfg && (q_type q =? MDNS_TYPE_PTR)%Z then
    host ← hlift (get_host_item (q_host q));
    counted (request_one p (mk_request Answers MDNS_TYPE_PTR None host send_flush false))
  else counted (request_one p (mk_request Answers (q_type q) None None send_flush false)).

(** Whether the question is repeated in the answer (one-shot queries). *)
Definition repeats_question (pp : mdns_parsed_packet_t) (q : mdns_parsed_question_t) : bool :=
  negb (pp_src_port pp =? MDNS_SERVICE_PORT)%Z
  && ((q_type q =? MDNS_TYPE_ANY)%Z || (q_type q =? MDNS_TYPE_A)%Z || (q_type q =? MDNS_TYPE_AAAA)%Z
      || (CONFIG_MDNS_RESPOND_REVERSE_QUERIES cfg && (q_type q =? MDNS_TYPE_PTR)%Z)).

(** The question moved into the packet, and what is left of it. *)
Definition moved_question (q : mdns_parsed_question_t) : mdns_out_question_t :=
  mk_out_question (q_type q) (q_unicast q) (q_host q) (q_service q) (q_proto q) (q_domain q)
    (if q_sub q then q_host q else None) true.

Definition emptied_question (q : mdns_parsed_question_t) : mdns_parsed_question_t :=
  mk_question (q_type q) (q_sub q) (q_unicast q) None None None None.

Definition question_shared (pp : mdns_parsed_packet_t) (q : mdns_parsed_question_t) : bool :=
  (q_type q =? MDNS_TYPE_PTR)%Z || (q_type q =? MDNS_TYPE_SDPTR)%Z || negb (pp_probe pp).

(** The state of the loop over the questions. *)
Record answering := mk_answering {
  an_packet : mdns_tx_packet_t;
  an_count : Z;
  an_unicast : bool;
  an_shared : bool;
}.

(** The loop: the questions as it leaves them, and the state at its end, or
    [None] when an allocation failed and the packet was freed. *)
Fixpoint answer_questions (pp : mdns_parsed_packet_t) (st : answering)
    (qs : list mdns_parsed_question_t)
    : H (list mdns_parsed_question_t * option answering) :=
  match qs with
  | [] => mret ([], Some st)
  | q :: qs =>
      let send_flush := (pp_src_port pp =? MDNS_SERVICE_PORT)%Z in
      let shared := question_shared pp q in
      let next (q : mdns_parsed_question_t) (st : answering) :=
        '(rest, r) ← answer_questions pp st qs; mret (q :: rest, r) in
      r ← answer_question (an_packet st) pp q shared send_flush (an_count st);
      match r with
      | None => next q (mk_answering (an_packet st) (an_count st) (an_unicast st) shared)
      | Some (false, p, _) => _ ← mdns_priv_free_tx_packet p; mret (q :: qs, None)
      | Some (true, p, n) =>
          let unicast := an_unicast st || q_unicast q in
          if repeats_question pp q then
            ok ← malloc;
            if negb ok then _ ← mdns_priv_free_tx_packet p; mret (q :: qs, None)
            else
              next (emptied_question q)
                (mk_answering (set_questions p (tx_questions p ++ [moved_question q])) n unicast shared)
          else next q (mk_answering p n unicast shared)
      end
  end.

(** What becomes of the answer: nothing to send, scheduled after some
    milliseconds, or sent at once and freed. *)
Inductive tx_decision :=
| TxNothing
| TxSendAfter (p : mdns_tx_packet_t) (ms : Z)
| TxDispatch (p : mdns_tx_packet_t).

(** [mdns_priv_create_answer_from_parsed_packet], with the static [share_step]. *)
Definition mdns_priv_create_answer_from_parsed_packet (pp : mdns_parsed_packet_t) (share_step : Z)
    : H (list mdns_parsed_question_t * tx_decision * Z) :=
  match pp_questions pp with
  | [] => mret ([], TxNothing, share_step)
  | qs =>
      let send_flush := (pp_src_port pp =? MDNS_SERVICE_PORT)%Z in
      packet ← mdns_priv_alloc_packet cfg (pp_if pp) (pp_ip_protocol pp);
      match packet with
      | None => mret (qs, TxNothing, share_step)
      | Some p =>
          let p := set_header p MDNS_FLAGS_QR_AUTHORITATIVE (pp_distributed pp) (pp_id pp) in
          '(qs, r) ← answer_questions pp (mk_answering p 0 false false) qs;
          match r with
          | None => mret (qs, TxNothing, share_step)
          | Some st =>
              let p := an_packet st in
              if (an_count st =? 0)%Z then
                _ ← mdns_priv_free_tx_packet p; mret (qs, TxNothing, share_step)
              else
                let p := if an_unicast st || negb send_flush
                         then set_dst p (pp_src pp) (pp_src_port pp) else p in
                if an_shared st then
                  mret (qs, TxSendAfter p (25 + share_step * 25), Z.land (share_step + 1) 0x03)
                else
                  _ ← mdns_priv_free_tx_packet p; mret (qs, TxDispatch p, share_step)
          end
      end
  end.

End WithServer.
