(* ===== verification/AnswersProofs.v ===== *)
(** The packets the responder builds own exactly the blocks they leave
    allocated, refer to registered services only, hold no record twice, and
    hold the records they are meant to hold. *)
From S2P Require Import Prelude Names Server Encode EncodeSafe Heap Collision Answers.

(** * Well-formed packets *)

Definition answer_key (a : mdns_out_answer_t) : Z * option sid * option host_ref :=
  (oa_type a, oa_service a, oa_host a).

Definition distinct (l : list mdns_out_answer_t) : Prop := NoDup (map answer_key l).

(** An SRV record names its service. *)
Definition srv_named (a : mdns_out_answer_t) : Prop :=
  oa_type a = MDNS_TYPE_SRV -> is_Some (oa_service a).

(** Every list of answers refers to live services and has no duplicates, and
    the questions can be encoded. *)
Definition packet_wf (s : mdns_server_t) (p : mdns_tx_packet_t) : Prop :=
  tx_packet_ok s p
  /\ forall sec, distinct (get_section p sec) /\ Forall srv_named (get_section p sec).

Definition request_key (r : request) : Z * option sid * option host_ref :=
  (r_type r, r_service r, r_host r).

Definition request_live (s : mdns_server_t) (r : request) : Prop :=
  (forall i, r_service r = Some i -> is_Some (assoc i (s_services s)))
  /\ (r_type r = MDNS_TYPE_SRV -> is_Some (r_service r)).

(** The record a request asks for is in the packet. *)
Definition granted (p : mdns_tx_packet_t) (r : request) : Prop :=
  In (request_key r) (map answer_key (get_section p (r_section r))).

(** Everything but the lists of answers is the same, and those have grown. *)
Definition grows (p p' : mdns_tx_packet_t) : Prop :=
  tx_if p' = tx_if p /\ tx_ip_protocol p' = tx_ip_protocol p /\ tx_questions p' = tx_questions p
  /\ tx_flags p' = tx_flags p /\ tx_port p' = tx_port p /\ tx_queued p' = tx_queued p
  /\ forall sec, prefix (get_section p sec) (get_section p' sec).

#[export] Instance grows_refl : Reflexive grows.
Proof. intros p. by repeat split. Qed.

#[export] Instance grows_trans : Transitive grows.
Proof.
  intros p q r (A1 & A2 & A3 & A4 & A5 & A6 & A7) (B1 & B2 & B3 & B4 & B5 & B6 & B7).
  repeat split; try congruence. intros sec. by transitivity (get_section q sec).
Qed.

Lemma granted_grows p p' r : grows p p' -> granted p r -> granted p' r.
Proof.
  intros (_ & _ & _ & _ & _ & _ & Hg) Hr. unfold granted in *. destruct (Hg (r_section r)) as [k ->].
  rewrite map_app. apply in_or_app. by left.
Qed.

Lemma get_set_section p sec sec' l :
  get_section (set_section p sec l) sec' = if decide (sec = sec') then l else get_section p sec'.
Proof. by destruct sec, sec'. Qed.

Lemma packet_blocks_section p sec l :
  packet_blocks (set_section p sec l)
  = (packet_blocks p + Z.of_nat (length l) - Z.of_nat (length (get_section p sec)))%Z.
Proof.
  unfold packet_blocks. destruct sec;
    cbn [set_section get_section tx_questions tx_answers tx_servers tx_additional]; lia.
Qed.

Lemma same_answer_key type service host a :
  same_answer type service host a = true <-> answer_key a = (type, service, host).
Proof.
  unfold same_answer, answer_key. rewrite !andb_true_iff, Z.eqb_eq, !bool_decide_eq_true.
  split; [by intros [[-> ->] ->]|by intros [= -> -> ->]].
Qed.

Lemma existsb_key type service host l :
  existsb (same_answer type service host) l = true <-> In (type, service, host) (map answer_key l).
Proof.
  rewrite existsb_exists, in_map_iff. split.
  - intros (a & Ha & E%same_answer_key). eauto.
  - intros (a & E & Ha). exists a. split; [done|]. by apply same_answer_key.
Qed.

Section Packets.
Context (nf : bool) (s : mdns_server_t).

(** What a step of the builders does to the packet and to the heap. *)
Definition step_ok (p : mdns_tx_packet_t) (rs : list request) (r : bool * mdns_tx_packet_t) (n : Z)
    : Prop :=
  let '(ok, p') := r in
  n = (packet_blocks p' - packet_blocks p)%Z /\ packet_wf s p' /\ grows p p'
  /\ (ok = true -> Forall (granted p') rs) /\ (nf = true -> ok = true).

Lemma request_one_ok p r : packet_wf s p -> request_live s r ->
  hspecn nf (request_one p r) (step_ok p [r]).
Proof.
  intros [Hok Hd] Hr. unfold request_one, mdns_priv_create_answer.
  set (l := get_section p (r_section r)).
  assert (Hset : set_section p (r_section r) l = p) by (unfold l; destruct p, (r_section r); done).
  destruct (existsb (same_answer _ _ _) l) eqn:E.
  - apply hn_ret_bind, hn_ret. rewrite Hset. cbn [step_ok fst].
    split_and!; try done; [lia|]. intros _. constructor; [|constructor].
    by apply existsb_key in E.
  - eapply hn_bind.
    { eapply hn_bind; [apply hn_malloc|]. intros ok n [-> Hnf].
      instantiate (1 := fun x n => n = (if fst x then 1 else 0)%Z /\ (nf = true -> fst x = true)
        /\ snd x = if fst x then l ++ [mk_out_answer (r_type r) (r_bye r) (r_flush r) (r_service r)
                                         (r_host r) None None None] else l).
      destruct ok; cbn [negb]; by apply hn_ret. }
    intros [ok l'] n (-> & Hnf & Hl'). cbn [fst snd] in Hl', Hnf. subst l'. apply hn_ret. destruct ok.
    2:{ rewrite Hset. cbn [step_ok fst]. split_and!; try done. lia. }
    cbn [step_ok fst]. rewrite packet_blocks_section, length_app. fold l. cbn [length].
    set (a := mk_out_answer _ _ _ _ _ _ _ _). set (p' := set_section _ _ _).
    assert (Hp' : forall sec, get_section p' sec
      = if decide (r_section r = sec) then l ++ [a] else get_section p sec)
      by (intros; apply get_set_section).
    split; [lia|]. split.
    { split.
      - assert (Ha : answer_live s a) by (split; [exact (proj1 Hr)|intros ? [=]]). destruct Hok as [Hq H1 H2 H3].
        unfold p', l. destruct (r_section r); split; cbn; try done; apply Forall_app; auto.
      - intros sec. unfold distinct. rewrite Hp'. case_decide; [|apply Hd].
        split; [|apply Forall_app; split; [apply Hd|]; constructor; [exact (proj2 Hr)|constructor]].
        rewrite map_app. apply NoDup_app. split; [apply Hd|]. split; [|apply NoDup_singleton].
        intros k Hk Hk'. apply list_elem_of_In in Hk, Hk'. cbn in Hk'. destruct Hk' as [<-|[]].
        assert (existsb (same_answer (r_type r) (r_service r) (r_host r)) l = true)
          by (by apply existsb_key). congruence. }
    split.
    { repeat split. intros sec. rewrite Hp'. case_decide as D; [|done].
      rewrite <- D. by exists [a]. }
    split; [|done].
    intros _. constructor; [|constructor]. unfold granted. rewrite Hp', decide_True by done.
    rewrite map_app. apply in_or_app. right. by left.
Qed.

Lemma request_all_ok rs : forall p, packet_wf s p -> Forall (request_live s) rs ->
  hspecn nf (request_all p rs) (step_ok p rs).
Proof.
  induction rs as [|r rs IH]; intros p Hp Hrs; cbn [request_all].
  { apply hn_ret. cbn [step_ok fst]. split_and!; try done. lia. }
  apply Forall_cons in Hrs as [Hr Hrs].
  eapply hn_bind; [by apply request_one_ok|]. intros [ok p1] n (-> & Hp1 & Hg1 & Hok1 & Hnf1).
  destruct ok; [|apply hn_ret; cbn [step_ok fst]; split_and!; try done; lia].
  eapply hn_mono; [by apply IH|]. intros [ok p2] n (-> & Hp2 & Hg2 & Hok2 & Hnf2).
  cbn [step_ok fst]. split_and!; try done; [lia|by transitivity p1|].
  intros ->. constructor; [|by apply Hok2]. specialize (Hok1 eq_refl).
  apply Forall_cons in Hok1 as [Hr1 _]. by eapply granted_grows.
Qed.

End Packets.

(** * Building blocks of the builders *)

(** A server whose delegated hosts all have names. *)
Definition server_live (s : mdns_server_t) : Prop :=
  server_ok s /\ Forall (fun x => is_Some (hostname (snd x))) (s_hosts s).

Lemma find_first_ok {A} (f : A -> outcome bool) l :
  Forall (fun x => yields (f x) (fun _ => True)) l ->
  yields (find_first f l) (fun r => match r with Some x => In x l | None => True end).
Proof.
  induction 1 as [|x l Hx _ IH]; cbn [find_first]; [done|].
  eapply yields_bind; [exact Hx|]. intros [] _; [by left|].
  eapply yields_mono; [exact IH|]. intros [y|]; [by right|done].
Qed.

Lemma blocks_questions p l :
  packet_blocks (set_questions p l)
  = (packet_blocks p - out_questions_blocks (tx_questions p) + out_questions_blocks l)%Z.
Proof.
  unfold packet_blocks. cbn [set_questions tx_questions tx_answers tx_servers tx_additional]. lia.
Qed.

Lemma out_questions_blocks_app l q :
  out_questions_blocks (l ++ [q]) = (out_questions_blocks l + out_question_blocks q)%Z.
Proof. unfold out_questions_blocks. induction l as [|x l IH]; cbn [app foldr] in *; lia. Qed.

Lemma set_header_wf s p f d i : packet_wf s p -> packet_wf s (set_header p f d i).
Proof. intros [[] Hd]. split; [by split|]. intros sec. specialize (Hd sec). by destruct sec. Qed.

Lemma set_questions_wf s p l : packet_wf s p -> Forall question_ok l -> packet_wf s (set_questions p l).
Proof. intros [[] Hd] Hl. split; [by split|]. intros sec. specialize (Hd sec). by destruct sec. Qed.

Section Builders.
Context (nf : bool) (cfg : config) (s : mdns_server_t).
Hypothesis live_s : server_live s.

Definition registered (i : sid) : Prop := is_Some (assoc i (s_services s)).

Lemma get_service_live i : registered i ->
  yields (get_service (Some s) i) (fun srv => service_ok srv /\ assoc i (s_services s) = Some srv).
Proof using live_s.
  intros [srv Hi]. unfold get_service. cbn [mdns_priv_get_services]. rewrite Hi.
  split; [|done]. destruct live_s as [Hs _]. pose proof (server_services _ Hs) as Hsrv.
  rewrite List.Forall_forall in Hsrv. apply (Hsrv (i, srv)). by apply list_elem_of_In, assoc_In.
Qed.

Lemma get_host_item_live h : yields (get_host_item (Some s) h) (fun _ => True).
Proof using live_s.
  destruct live_s as [Hs Hn]. destruct (server_hostname _ Hs) as (g & Hg & _).
  unfold get_host_item. destruct h as [h|]; [|done].
  cbn [mdns_priv_get_global_hostname mbind option_bind]. rewrite Hg. cbn [strcasecmp_eq mbind outcome_bind].
  case_on_goal; [done|]. eapply yields_bind; [apply find_first_ok|by intros [[]|]].
  eapply Forall_impl; [exact Hn|]. intros [i x] [y Hy]. cbn in *. by rewrite Hy.
Qed.

Lemma step_ok_weaken p rs r n : step_ok nf s p rs r n -> step_ok nf s p [] r n.
Proof. destruct r as [ok p']. intros (? & ? & ? & _ & ?). by split_and!. Qed.

Lemma host_requests_live sec host flush bye :
  Forall (request_live s) (host_requests sec host flush bye).
Proof. repeat constructor; cbn; (intros i [=]) || done. Qed.

Lemma create_answer_from_service_ok p i q shared fl : packet_wf s p -> registered i ->
  hspecn nf (create_answer_from_service (Some s) p i q shared fl)
    (fun r n => exists srv host, assoc i (s_services s) = Some srv
       /\ get_host_item (Some s) (srv_hostname srv) = Ret host
       /\ step_ok nf s p (service_requests (Some s) i host q shared fl) r n).
Proof using live_s.
  intros Hp Hi. unfold create_answer_from_service.
  eapply hn_lookup; [by apply get_service_live|]. intros srv [_ Hsrv].
  eapply hn_lookup_eq; [apply get_host_item_live|]. intros host Hhost _.
  eapply hn_mono; [apply request_all_ok; [done|]|by eauto].
  unfold service_requests. repeat case_on_goal; repeat constructor; cbn;
    first [intros j [= <-]; exact Hi | intros j [=] | intros _; by eexists | done].
Qed.

Lemma append_service_hosts_ok l : forall p sec flush bye, packet_wf s p -> Forall registered l ->
  hspecn nf (append_service_hosts (Some s) p sec l flush bye) (step_ok nf s p []).
Proof using live_s.
  induction l as [|i l IH]; intros p sec flush bye Hp Hl; cbn [append_service_hosts].
  { apply hn_ret. cbn [step_ok]. split_and!; try done. lia. }
  apply Forall_cons in Hl as [Hi Hl].
  eapply hn_lookup; [by apply get_service_live|]. intros srv _.
  eapply hn_lookup; [apply get_host_item_live|]. intros host _.
  eapply hn_bind; [apply request_all_ok; [done|apply host_requests_live]|].
  intros [ok p1] n (-> & Hp1 & Hg1 & _ & Hnf1). destruct ok.
  - eapply hn_mono; [by apply IH|]. intros [ok p2] n (-> & Hp2 & Hg2 & _ & Hnf2).
    cbn [step_ok]. split_and!; try done; [lia|by transitivity p1].
  - apply hn_ret. cbn [step_ok]. split_and!; try done. lia.
Qed.

Definition services_live (services : option (list sid)) : Prop :=
  match services with Some l => Forall registered l | None => True end.

Lemma append_host_list_in_services_ok p sec services flush bye :
  packet_wf s p -> services_live services ->
  hspecn nf (mdns_priv_append_host_list_in_services (Some s) p sec services flush bye) (step_ok nf s p []).
Proof using live_s.
  intros Hp Hl. unfold mdns_priv_append_host_list_in_services.
  destruct services as [l|]; [by apply append_service_hosts_ok|].
  eapply hn_lookup; [apply get_host_item_live|]. intros [host|] _.
  - eapply hn_mono; [apply request_all_ok; [done|apply host_requests_live]|].
    intros r n. apply step_ok_weaken.
  - apply hn_ret. cbn [step_ok]. split_and!; try done. lia.
Qed.

Lemma append_host_list_ok p sec flush bye : packet_wf s p ->
  hspecn nf (append_host_list (Some s) p sec flush bye) (step_ok nf s p []).
Proof using live_s.
  intros Hp. unfold append_host_list. eapply hn_bind.
  { instantiate (1 := step_ok nf s p []). case_on_goal.
    - eapply hn_lookup; [apply get_host_item_live|]. intros host _.
      eapply hn_mono; [apply request_all_ok; [done|apply host_requests_live]|].
      intros r n. apply step_ok_weaken.
    - apply hn_ret. cbn [step_ok]. split_and!; try done. lia. }
  intros [ok p1] n (-> & Hp1 & Hg1 & _ & Hnf1). destruct ok; cbn [negb].
  - eapply hn_mono; [apply request_all_ok; [done|]|].
    { apply List.Forall_forall. intros r [h [_ Hr]]%in_flat_map.
      pose proof (host_requests_live sec h flush bye) as Hl. rewrite List.Forall_forall in Hl. auto. }
    intros [ok p2] n (-> & Hp2 & Hg2 & _ & Hnf2).
    cbn [step_ok]. split_and!; try done; [lia|by transitivity p1].
  - apply hn_ret. cbn [step_ok]. split_and!; try done. lia.
Qed.

Lemma alloc_packet_ok i proto :
  hspecn nf (mdns_priv_alloc_packet cfg i proto) (fun r n => match r with
    | Some p => n = 1%Z /\ packet_blocks p = 1%Z /\ packet_wf s p /\ tx_questions p = []
                /\ tx_if p = i /\ tx_ip_protocol p = proto /\ tx_queued p = false
    | None => n = 0%Z /\ nf = false end).
Proof.
  unfold mdns_priv_alloc_packet. eapply hn_bind; [apply hn_malloc|].
  intros [] n [-> Hnf]; cbn [negb]; [|apply hn_ret; auto using nf_failed].
  apply hn_ret. split_and!; try done. split; [by split|]. intros []; split; constructor.
Qed.

(** * Probes *)

Definition probe_question_ok (q : probe_question) : Prop :=
  question_ok (pq_question q) /\ oq_own_dynamic_memory (pq_question q) = false.

Lemma question_fields_ok t u h sv pr d : 
  (forall x, h = Some x -> label_ok x) -> (forall x, sv = Some x -> label_ok x) ->
  (forall x, pr = Some x -> label_ok x) -> (forall x, d = Some x -> label_ok x) ->
  question_ok (mk_out_question t u h sv pr d None false).
Proof. intros. unfold question_ok. repeat constructor; done. Qed.

Lemma default_domain_label x : Some MDNS_DEFAULT_DOMAIN = Some x -> label_ok x.
Proof. intros [= <-]. exact default_domain_ok. Qed.

Lemma instance_name_label srv x : service_ok srv ->
  mdns_utils_get_service_instance_name (Some s) srv = Some x -> label_ok x.
Proof using live_s.
  intros Hsrv. destruct live_s as [Hs _].
  unfold mdns_utils_get_service_instance_name, get_default_instance_name.
  case_on_goal; [apply (srv_instance_ok _ Hsrv)|].
  case_on_goal; [apply (server_instance _ Hs)|]. case_on_goal; [|done].
  destruct (server_hostname _ Hs) as (g & Hg & _ & Hl). cbn. rewrite Hg. by intros [= <-].
Qed.

Lemma blocks_with_questions p qs q :
  oq_own_dynamic_memory (pq_question q) = false ->
  packet_blocks (with_questions p (qs ++ [q])) = (packet_blocks (with_questions p qs) + 1)%Z.
Proof.
  intros Hq. unfold with_questions. rewrite !blocks_questions, map_app.
  cbn [map]. rewrite out_questions_blocks_app. unfold out_question_blocks. rewrite Hq. lia.
Qed.

Lemma blocks_with_grown p p' qs : grows p p' ->
  packet_blocks (with_questions p' qs) = (packet_blocks (with_questions p qs) + packet_blocks p' - packet_blocks p)%Z.
Proof.
  intros (_ & _ & Hq & _). unfold with_questions. rewrite !blocks_questions, Hq. lia.
Qed.

Definition srv_request (i : sid) : request := mk_request Servers MDNS_TYPE_SRV (Some i) None false false.

(** The service a question asks for has its record in the packet. *)
Definition question_backed (p : mdns_tx_packet_t) (q : probe_question) : Prop :=
  forall i, pq_service q = Some (PServiceType i) -> granted p (srv_request i).

(** The state of the probe builder: a packet under construction and its
    questions. *)
Definition probe_ok (qs : list probe_question) (p : mdns_tx_packet_t) : Prop :=
  packet_wf s p /\ Forall probe_question_ok qs /\ Forall (question_backed p) qs.

Lemma backed_grows p p' qs : grows p p' -> Forall (question_backed p) qs -> Forall (question_backed p') qs.
Proof.
  intros Hg Hq. eapply Forall_impl; [exact Hq|]. intros q Hb i Hi.
  eapply granted_grows; [exact Hg|]. by apply Hb.
Qed.

(** Every service has an instance name, the host name if nothing else. *)
Lemma instance_name_some srv : mdns_utils_get_service_instance_name (Some s) srv <> None.
Proof using live_s.
  destruct live_s as [Hs _]. destruct (server_hostname _ Hs) as (g & Hg & Hne & _).
  unfold mdns_utils_get_service_instance_name, get_default_instance_name. cbn. rewrite Hg.
  destruct (srv_instance srv) as [[|]|]; cbn; try done; destruct (s_instance s) as [[|]|]; cbn; try done;
    by destruct g.
Qed.

Lemma question_exists_backed p q qs i :
  pq_service q = Some (PServiceType i) -> Forall (question_backed p) qs ->
  question_exists q qs = true -> granted p (srv_request i).
Proof.
  intros Hq Hb (q' & Hin & E)%existsb_exists. bsimp.
  repeat match goal with H : bool_decide _ = true |- _ => apply bool_decide_eq_true in H end.
  rewrite List.Forall_forall in Hb. apply (Hb q' Hin). congruence.
Qed.

Lemma probe_services_ok l : forall p qs first, probe_ok qs p -> Forall registered l ->
  hspecn nf (probe_services (Some s) p qs l first) (fun '(ok, qs', p') n =>
    packet_wf s p' /\ Forall probe_question_ok qs' /\ grows p p'
    /\ n = (packet_blocks (with_questions p' qs') - packet_blocks (with_questions p qs))%Z
    /\ (ok = true -> Forall (fun i => granted p' (srv_request i)) l) /\ (nf = true -> ok = true)).
Proof using live_s.
  induction l as [|i l IH]; intros p qs first Hpq Hl; cbn [probe_services].
  { apply hn_ret. destruct Hpq as (? & ? & ?). split_and!; try done. lia. }
  apply Forall_cons in Hl as [Hi Hl].
  eapply hn_bind; [apply hn_malloc|]. intros [] n [-> Hnf]; cbn [negb].
  2:{ apply hn_ret. destruct Hpq as (? & ? & ?). split_and!; try done. lia. }
  eapply hn_lookup; [by apply get_service_live|]. intros srv [Hsrv _]. cbn zeta.
  set (q := mk_probe_question _ _ _ _). pose proof Hpq as (Hp & Hqs & Hbk).
  destruct (bool_decide (_ = None) || question_exists q qs) eqn:Hdup.
  { assert (granted p (srv_request i)) as Hgr.
    { apply orb_true_iff in Hdup as [E%bool_decide_eq_true|E]; [by apply instance_name_some in E|].
      by apply (question_exists_backed p q qs i). }
    eapply hn_bind; [apply hn_mfree|]. intros [] n ->.
    eapply hn_mono; [by apply IH|]. intros [[ok qs'] p'] n (? & ? & ? & -> & Hok & Hnf').
    split_and!; try done; [lia|]. intros Hk. constructor; [by eapply granted_grows|auto]. }
  assert (Hq : probe_question_ok q).
  { split; [|done]. apply question_fields_ok.
    - intros x. by apply instance_name_label.
    - intros x [= <-]. apply (srv_service_ok _ Hsrv).
    - intros x [= <-]. apply (srv_proto_ok _ Hsrv).
    - apply default_domain_label. }
  assert (Hqs' : Forall probe_question_ok (qs ++ [q])) by (apply Forall_app; auto).
  pose proof (blocks_with_questions) as Hbw.
  eapply hn_bind; [apply (request_one_ok nf s); [done|split; [intros j [= <-]; exact Hi|by eexists]]|].
  intros [ok p1] n (-> & Hp1 & Hg1 & Hgr & Hnf1). destruct ok.
  - specialize (Hgr eq_refl). apply Forall_cons in Hgr as [Hgr _].
    eapply hn_mono; [apply IH; [|done]|].
    { split_and!; [done|done|]. apply Forall_app. split; [by eapply backed_grows|].
      constructor; [|constructor]. by intros j [= <-]. }
    intros [[ok qs'] p'] n (? & ? & Hg & -> & Hall & Hnf2). split_and!; [done|done|by transitivity p1| | |done].
    + rewrite (Hbw p1 qs q) by apply Hq. rewrite (blocks_with_grown p p1) by done. lia.
    + intros Hk. constructor; [by eapply granted_grows|auto].
  - apply hn_ret. split_and!; try done.
    rewrite (Hbw p1 qs q) by apply Hq. rewrite (blocks_with_grown p p1) by done. lia.
Qed.

Lemma append_host_question_ok qs ptr h unicast p :
  Forall probe_question_ok qs -> (forall x, h = Some x -> label_ok x) ->
  hspecn nf (append_host_question qs ptr h unicast) (fun '(ok, qs') n =>
    Forall probe_question_ok qs'
    /\ n = (packet_blocks (with_questions p qs') - packet_blocks (with_questions p qs))%Z
    /\ (nf = true -> ok = true)).
Proof.
  intros Hqs Hh. unfold append_host_question.
  eapply hn_bind; [apply hn_malloc|]. intros [] n [-> Hnf]; cbn [negb].
  2:{ apply hn_ret. split_and!; try done. lia. }
  set (q := mk_probe_question _ _ _ _). case_on_goal.
  - eapply hn_bind; [apply hn_mfree|]. intros [] n ->. apply hn_ret. split_and!; try done. lia.
  - apply hn_ret. split; [|rewrite blocks_with_questions by done; split; [lia|done]].
    apply Forall_app. split; [done|]. constructor; [|constructor].
    split; [|done]. apply question_fields_ok; try done. apply default_domain_label.
Qed.

Lemma append_service_host_questions_ok l p : forall qs unicast,
  Forall probe_question_ok qs -> Forall registered l ->
  hspecn nf (append_service_host_questions (Some s) qs l unicast) (fun '(ok, qs') n =>
    Forall probe_question_ok qs'
    /\ n = (packet_blocks (with_questions p qs') - packet_blocks (with_questions p qs))%Z
    /\ (nf = true -> ok = true)).
Proof using live_s.
  induction l as [|i l IH]; intros qs unicast Hqs Hl; cbn [append_service_host_questions].
  { apply hn_ret. split_and!; try done. lia. }
  apply Forall_cons in Hl as [Hi Hl].
  eapply hn_lookup; [by apply get_service_live|]. intros srv [Hsrv _].
  eapply hn_bind; [apply (append_host_question_ok _ _ _ _ p); [done|apply (srv_hostname_ok _ Hsrv)]|].
  intros [ok qs1] n (Hqs1 & -> & Hnf1). destruct ok.
  - eapply hn_mono; [by apply IH|]. intros [ok qs'] n (? & -> & ?). split_and!; try done. lia.
  - apply hn_ret. split_and!; try done. lia.
Qed.

Lemma append_host_questions_ok l p qs unicast : Forall probe_question_ok qs -> Forall registered l ->
  hspecn nf (append_host_questions_for_services (Some s) qs l unicast) (fun '(ok, qs') n =>
    Forall probe_question_ok qs'
    /\ n = (packet_blocks (with_questions p qs') - packet_blocks (with_questions p qs))%Z
    /\ (nf = true -> ok = true)).
Proof using live_s.
  intros Hqs Hl. unfold append_host_questions_for_services. eapply hn_bind.
  { instantiate (1 := fun '(ok, qs') n => Forall probe_question_ok qs'
      /\ n = (packet_blocks (with_questions p qs') - packet_blocks (with_questions p qs))%Z
      /\ (nf = true -> ok = true)).
    case_on_goal; [apply append_host_question_ok; [done|]|apply hn_ret; split_and!; try done; lia].
    destruct live_s as [Hs _]. destruct (server_hostname _ Hs) as (g & Hg & _ & Hlab).
    cbn. rewrite Hg. by intros x [= <-]. }
  intros [ok qs1] n (Hqs1 & -> & Hnf1). destruct ok; cbn [negb].
  - eapply hn_mono; [by apply (append_service_host_questions_ok l p)|].
    intros [ok qs'] n (? & -> & ?). split_and!; try done. lia.
  - apply hn_ret. split_and!; try done. lia.
Qed.

(** What a packet builder promises: it gives up only when an allocation failed,
    and then nothing stays allocated; a packet owns what was allocated and can
    be encoded. *)
Definition builds (i : mdns_if_t) (proto : mdns_ip_protocol_t) (r : option mdns_tx_packet_t) (n : Z)
    : Prop :=
  match r with
  | Some p => n = packet_blocks p /\ packet_wf s p /\ tx_if p = i /\ tx_ip_protocol p = proto
              /\ tx_queued p = false
  | None => n = 0%Z /\ nf = false
  end.

(** The error paths: free the packet and return null. *)
Ltac bail_out :=
  eapply hn_bind; [apply hn_mfree|]; intros [] ? ->; apply hn_ret; cbn [builds];
  split_and!; try done; try lia; auto using nf_failed.

(** The probe holds the SRV record of each of its services. *)
Definition probes (services : option (list sid)) (r : option mdns_tx_packet_t) : Prop :=
  match services, r with
  | Some l, Some p => Forall (fun i => granted p (srv_request i)) l
  | _, _ => True
  end.

Lemma probe_packet_builds i proto services first include_ip : services_live services ->
  hspecn nf (mdns_priv_create_probe_packet cfg (Some s) i proto services first include_ip)
    (fun r n => builds i proto r n /\ probes services r).
Proof using live_s.
  intros Hl. unfold mdns_priv_create_probe_packet.
  eapply hn_bind; [apply alloc_packet_ok|].
  intros [p|] n; [|intros [-> Hnf]; apply hn_ret; by destruct services].
  intros (-> & Hb & Hp & Hq & Hi & Hpr & Hqd). cbn zeta.
  set (l := match services with Some l => l | None => [] end).
  assert (Hreg : Forall registered l) by (unfold l; destruct services; [done|constructor]).
  assert (Hnone : probes services None) by (by destruct services).
  assert (Hb0 : packet_blocks (with_questions p []) = 1%Z)
    by (unfold with_questions; rewrite blocks_questions, Hq, Hb; done).
  eapply hn_bind; [apply probe_services_ok; [by split_and!|done]|].
  intros [[ok qs] p1] n (Hp1 & Hqs & Hg1 & -> & Hgr & Hnf1). destruct ok; cbn [negb].
  2:{ bail_out. }
  specialize (Hgr eq_refl).
  assert (Hqok : forall qs', Forall probe_question_ok qs' -> Forall question_ok (map pq_question qs')).
  { intros qs' Hqs'. apply Forall_map. eapply Forall_impl; [exact Hqs'|]. by intros x [? _]. }
  assert (Hdone : forall p2 qs', packet_wf s p2 -> grows p1 p2 -> Forall probe_question_ok qs' ->
    (packet_wf s (with_questions p2 qs') /\ tx_if (with_questions p2 qs') = i
     /\ tx_ip_protocol (with_questions p2 qs') = proto /\ tx_queued (with_questions p2 qs') = false)
    /\ probes services (Some (with_questions p2 qs'))).
  { intros p2 qs' Hp2 Hg2 Hqs'. split.
    - split; [apply set_questions_wf; auto|].
      destruct Hg1 as (A1 & A2 & _ & _ & _ & A3 & _), Hg2 as (B1 & B2 & _ & _ & _ & B3 & _).
      cbn. split_and!; congruence.
    - destruct services; [|done]. eapply Forall_impl; [exact Hgr|].
      intros j Hj. exact (granted_grows _ _ _ Hg2 Hj). }
  destruct include_ip.
  2:{ apply hn_ret. destruct (Hdone p1 qs) as [? ?]; try done. split; [|done].
      cbn [builds]. split; [lia|done]. }
  eapply hn_bind; [by apply (append_host_questions_ok l p1)|].
  intros [ok qs2] n (Hqs2 & -> & Hnf2). destruct ok; cbn [negb].
  2:{ bail_out. }
  eapply hn_bind; [by apply append_host_list_in_services_ok|].
  intros [ok p2] n (-> & Hp2 & Hg2 & _ & Hnf3). pose proof (blocks_with_grown p1 p2 qs2 Hg2) as Hbl.
  destruct ok; cbn [negb].
  - apply hn_ret. destruct (Hdone p2 qs2) as [? ?]; try done. split; [|done].
    cbn [builds]. split; [lia|done].
  - bail_out.
Qed.

(** * Announcements and goodbyes *)

Lemma check_services_live l : Forall registered l -> yields (check_services (Some s) l) (fun _ => True).
Proof.
  intros Hl. unfold check_services. rewrite (proj2 (forallb_forall _ _)); [done|].
  intros i Hi. apply bool_decide_eq_true. rewrite List.Forall_forall in Hl. by apply Hl.
Qed.

Lemma announce_requests_live i : registered i -> Forall (request_live s) (announce_requests (Some i)).
Proof.
  intros Hi. repeat constructor; cbn; first [intros j [= <-]; exact Hi | intros _; by eexists].
Qed.

Lemma set_flags_wf p f : packet_wf s p -> packet_wf s (set_flags p f).
Proof. apply set_header_wf. Qed.

Lemma announce_packet_builds i proto services include_ip : services_live services ->
  match services with Some l => length l <= 255 | None => True end ->
  hspecn nf (mdns_priv_create_announce_packet cfg (Some s) i proto services include_ip)
    (builds i proto).
Proof using live_s.
  intros Hl H255. unfold mdns_priv_create_announce_packet.
  eapply hn_bind; [apply alloc_packet_ok|].
  intros [p|] n; [|intros [-> Hnf]; by apply hn_ret]. intros (-> & Hb & Hp & Hq & Hi & Hpr & Hqd). cbn zeta.
  set (l := match services with Some l => l | None => [] end).
  assert (Hreg : Forall registered l) by (unfold l; destruct services; [done|constructor]).
  assert (length l <= 255) by (unfold l; destruct services; [done|cbn; lia]).
  rewrite (proj2 (Nat.ltb_ge _ _)) by done.
  eapply hn_lookup; [by apply check_services_live|]. intros _ _.
  eapply hn_bind; [apply (request_all_ok nf s)|].
  { by apply set_flags_wf. }
  { apply List.Forall_forall. intros r [j [Hj Hr]]%in_flat_map.
    rewrite List.Forall_forall in Hreg. pose proof (announce_requests_live j (Hreg _ Hj)) as Hlive.
    rewrite List.Forall_forall in Hlive. auto. }
  intros [ok p1] n (-> & Hp1 & Hg1 & _ & Hnf1).
  change (packet_blocks (set_flags p MDNS_FLAGS_QR_AUTHORITATIVE)) with (packet_blocks p).
  destruct Hg1 as (A1 & A2 & _ & _ & _ & A3 & _).
  destruct ok; cbn [negb].
  2:{ bail_out. }
  destruct include_ip; [|apply hn_ret; cbn [builds]; split_and!; [lia|done|rewrite A1; done|rewrite A2; done|rewrite A3; done]].
  eapply hn_bind; [by apply append_host_list_in_services_ok|].
  intros [ok p2] n (-> & Hp2 & (B1 & B2 & _ & _ & _ & B3 & _) & _ & Hnf2). destruct ok; cbn [negb].
  - apply hn_ret. cbn [builds]. split_and!; [lia|done|rewrite B1, A1; done|rewrite B2, A2; done|rewrite B3, A3; done].
  - bail_out.
Qed.

(** The records announced for a record of the probe. *)
Definition announced (p : mdns_tx_packet_t) (a : mdns_out_answer_t) : Prop :=
  (oa_type a = MDNS_TYPE_SRV ->
     Forall (granted p) (announce_requests (oa_service a))
     /\ exists i srv host, oa_service a = Some i /\ assoc i (s_services s) = Some srv
          /\ get_host_item (Some s) (srv_hostname srv) = Ret host
          /\ Forall (granted p) (host_requests Answers host true false))
  /\ (oa_type a = MDNS_TYPE_A \/ oa_type a = MDNS_TYPE_AAAA ->
      granted p (mk_request Answers (oa_type a) None (oa_host a) true false)).

Lemma announced_grows p p' a : grows p p' -> announced p a -> announced p' a.
Proof.
  intros Hg [H1 H2]. assert (Hf : forall rs, Forall (granted p) rs -> Forall (granted p') rs).
  { intros rs Hr. eapply Forall_impl; [exact Hr|]. intros r. by apply granted_grows. }
  split; [|intros Ht; eapply granted_grows; eauto].
  intros Ht. destruct (H1 Ht) as (Ha & i & srv & host & ? & ? & ? & Hh). split; [auto|].
  exists i, srv, host. auto.
Qed.

Lemma announce_servers_ok l : forall p, packet_wf s p ->
  Forall (answer_live s) l -> Forall srv_named l ->
  hspecn nf (announce_servers (Some s) p l) (fun '(ok, p') n =>
    n = (packet_blocks p' - packet_blocks p)%Z /\ packet_wf s p' /\ grows p p'
    /\ (ok = true -> Forall (announced p') l) /\ (nf = true -> ok = true)).
Proof using live_s.
  induction l as [|a l IH]; intros p Hp Hl Hn; cbn [announce_servers].
  { apply hn_ret. split_and!; try done. lia. }
  apply Forall_cons in Hl as [Ha Hl]. apply Forall_cons in Hn as [Hna Hn].
  assert (Hrec : forall p1, packet_wf s p1 -> grows p p1 -> announced p1 a ->
    hspecn nf (announce_servers (Some s) p1 l) (fun '(ok, p') n =>
      n = (packet_blocks p' - packet_blocks p1)%Z /\ packet_wf s p' /\ grows p p'
      /\ (ok = true -> Forall (announced p') (a :: l)) /\ (nf = true -> ok = true))).
  { intros p1 Hp1 Hg1 Han. eapply hn_mono; [by apply IH|].
    intros [ok p2] n (-> & ? & Hg2 & Hok & Hnf). split_and!; try done; [by transitivity p1|].
    intros Hk. constructor; [by eapply announced_grows|auto]. }
  destruct (Z.eqb_spec (oa_type a) MDNS_TYPE_SRV) as [Et|Et].
  - destruct (Hna Et) as [i Hi]. rewrite Hi. assert (Hreg : registered i) by (by apply Ha).
    eapply hn_bind; [apply (request_all_ok nf s); [done|by apply announce_requests_live]|].
    intros [ok p1] n (-> & Hp1 & Hg1 & Hgr1 & Hnf1). destruct ok; cbn [negb].
    2:{ apply hn_ret. split_and!; try done. lia. }
    specialize (Hgr1 eq_refl).
    eapply hn_lookup; [by apply get_service_live|]. intros srv [_ Hsrv].
    destruct (get_host_item (Some s) (srv_hostname srv)) as [host| | |] eqn:Eh;
      [|pose proof (get_host_item_live (srv_hostname srv)) as X; rewrite Eh in X..]; try done.
    eapply hn_lookup; [instantiate (1 := eq host); done|]. intros h' <-.
    eapply hn_bind; [apply (request_all_ok nf s); [done|apply host_requests_live]|].
    intros [ok p2] n (-> & Hp2 & Hg2 & Hgr2 & Hnf2). destruct ok.
    2:{ apply hn_ret. split_and!; try done; [lia|by transitivity p1]. }
    eapply hn_mono; [apply (Hrec p2); [done|by transitivity p1|]|].
    { split; [|rewrite Et; by intros [[=]|[=]]]. intros _. rewrite Hi. split.
      - eapply Forall_impl; [exact Hgr1|]. intros r. by apply granted_grows.
      - exists i, srv, host. split_and!; try done. by apply Hgr2. }
    intros [ok p3] n (-> & ? & ? & ? & ?). split_and!; try done. lia.
  - destruct ((oa_type a =? MDNS_TYPE_A)%Z || (oa_type a =? MDNS_TYPE_AAAA)%Z) eqn:Eaddr.
    + eapply hn_bind; [apply (request_one_ok nf s); [done|by split]|].
      intros [ok p1] n (-> & Hp1 & Hg1 & Hgr1 & Hnf1). destruct ok.
      2:{ apply hn_ret. split_and!; try done. lia. }
      specialize (Hgr1 eq_refl). apply Forall_cons in Hgr1 as [Hgr1 _].
      eapply hn_mono; [apply (Hrec p1); [done|done|]|].
      { split; [by intros ?|]. intros _. exact Hgr1. }
      intros [ok p2] n (-> & ? & ? & ? & ?). split_and!; try done. lia.
    + apply Hrec; try done. split; [by intros ?|].
      intros [E|E]; rewrite E in Eaddr; cbn in Eaddr; done.
Qed.

Lemma announce_from_probe_builds probe : packet_wf s probe ->
  hspecn nf (mdns_priv_create_announce_from_probe cfg (Some s) probe) (fun r n =>
    builds (tx_if probe) (tx_ip_protocol probe) r n
    /\ match r with Some p => Forall (announced p) (tx_servers probe) | None => True end).
Proof using live_s.
  intros Hpr. unfold mdns_priv_create_announce_from_probe.
  eapply hn_bind; [apply alloc_packet_ok|].
  intros [p|] n; [|intros [-> Hnf]; by apply hn_ret]. intros (-> & Hb & Hp & Hq & Hi & Hproto & Hqd).
  eapply hn_bind; [apply announce_servers_ok|].
  { by apply set_flags_wf. }
  { apply (tx_servers_ok _ _ (proj1 Hpr)). }
  { apply (proj2 Hpr Servers). }
  intros [ok p1] n (-> & Hp1 & (A1 & A2 & _ & _ & _ & A3 & _) & Hok & Hnf1).
  change (packet_blocks (set_flags p MDNS_FLAGS_QR_AUTHORITATIVE)) with (packet_blocks p).
  destruct ok; cbn [negb].
  - apply hn_ret. split; [|by apply Hok]. cbn [builds].
    split_and!; [lia|done|rewrite A1; done|rewrite A2; done|rewrite A3; done].
  - bail_out.
Qed.

Lemma send_bye_frees i proto services include_ip : services_live services ->
  hspecn nf (mdns_priv_send_bye cfg (Some s) i proto services include_ip) (fun r n =>
    n = 0%Z /\ match r with
    | Some p => packet_wf s p /\ tx_if p = i
        /\ Forall (fun j => granted p (mk_request Answers MDNS_TYPE_PTR (Some j) None true true))
             (match services with Some l => l | None => [] end)
    | None => nf = false end).
Proof using live_s.
  intros Hl. unfold mdns_priv_send_bye.
  eapply hn_bind; [apply alloc_packet_ok|].
  intros [p|] n; [|intros [-> Hnf]; by apply hn_ret]. intros (-> & Hb & Hp & Hq & Hi & Hpr & Hqd). cbn zeta.
  set (l := match services with Some l => l | None => [] end).
  assert (Hreg : Forall registered l) by (unfold l; destruct services; [done|constructor]).
  eapply hn_lookup; [by apply check_services_live|]. intros _ _.
  eapply hn_bind; [apply (request_all_ok nf s); [by apply set_flags_wf|]|].
  { apply Forall_map. eapply Forall_impl; [exact Hreg|]. intros j Hj. split; [by intros k [= <-]|done]. }
  intros [ok p1] n (-> & Hp1 & Hg1 & Hgr & Hnf1).
  change (packet_blocks (set_flags p MDNS_FLAGS_QR_AUTHORITATIVE)) with (packet_blocks p).
  destruct ok; cbn [negb].
  2:{ bail_out. }
  specialize (Hgr eq_refl). rewrite Forall_map in Hgr.
  eapply hn_bind.
  { instantiate (1 := step_ok nf s p1 []). destruct include_ip; [by apply append_host_list_in_services_ok|].
    apply hn_ret. cbn [step_ok]. split_and!; try done. lia. }
  intros [ok p2] n (-> & Hp2 & Hg2 & _ & Hnf2).
  eapply hn_bind; [apply hn_mfree|]. intros [] n ->. apply hn_ret.
  split; [lia|]. split; [done|]. split.
  - destruct Hg1 as (A1 & _), Hg2 as (B1 & _). rewrite B1, A1. exact Hi.
  - eapply Forall_impl; [exact Hgr|]. intros j Hj. exact (granted_grows _ _ _ Hg2 Hj).
Qed.

End Builders.

(** C12. Every packet the responder builds for probing, announcing and saying
    goodbye, for any pattern of allocation failures: the builder returns
    without following a dangling pointer; it gives up only when an allocation
    failed, and then nothing it allocated is left; the packet it returns owns
    exactly the blocks that are left, has no record twice and refers to
    registered services only, so that it meets the precondition under which
    encoding it is safe.  ([nf] tells heaps on which no allocation fails.) *)
Theorem responder_packets_sound nf cfg s i proto services first include_ip :
  server_live s -> services_live s services ->
  match services with Some l => length l <= 255 | None => True end ->
  hspecn nf (mdns_priv_create_probe_packet cfg (Some s) i proto services first include_ip)
    (builds nf s i proto)
  /\ hspecn nf (mdns_priv_create_announce_packet cfg (Some s) i proto services include_ip)
    (builds nf s i proto)
  /\ hspecn nf (mdns_priv_send_bye cfg (Some s) i proto services include_ip)
    (fun r n => n = 0%Z /\ match r with Some p => packet_wf s p | None => nf = false end).
Proof.
  intros Hs Hl H255. split; [|split].
  - eapply hn_mono; [by apply probe_packet_builds|]. by intros r n [? _].
  - by apply announce_packet_builds.
  - eapply hn_mono; [by apply send_bye_frees|]. intros [p|] n (? & ?); [|done].
    by destruct_and!.
Qed.

(** C13. What is probed is announced: while no allocation fails, probing a list
    of services gives a packet, the announcement made from that packet exists
    too, and it holds for each service its SDPTR, PTR, SRV and TXT records and
    the A and AAAA records of its host. *)
Theorem probe_is_announced cfg s i proto l first include_ip :
  server_live s -> Forall (registered s) l ->
  hspecn true (mdns_priv_create_probe_packet cfg (Some s) i proto (Some l) first include_ip)
    (fun r _ => exists probe, r = Some probe
       /\ hspecn true (mdns_priv_create_announce_from_probe cfg (Some s) probe) (fun r _ =>
            exists p, r = Some p
            /\ Forall (fun j =>
                 Forall (granted p) (announce_requests (Some j))
                 /\ exists srv host, assoc j (s_services s) = Some srv
                    /\ get_host_item (Some s) (srv_hostname srv) = Ret host
                    /\ Forall (granted p) (host_requests Answers host true false)) l)).
Proof.
  intros Hs Hl. eapply hn_mono; [by apply probe_packet_builds|].
  intros [probe|] n [Hb Hpr]; [|by destruct Hb]. destruct Hb as (_ & Hwf & _).
  exists probe. split; [done|].
  eapply hn_mono; [by apply announce_from_probe_builds|].
  intros [p|] k [Hb Han]; [|by destruct Hb]. exists p. split; [done|]. cbn [probes] in Hpr.
  eapply Forall_impl; [exact Hpr|]. intros j Hj.
  apply in_map_iff in Hj as (a & Ha & Hin). injection Ha as Ht Hsv _.
  rewrite List.Forall_forall in Han. destruct (Han a Hin) as [H1 _].
  destruct (H1 Ht) as (Hg & k' & srv & host & Hk & Hsrv & Hh & Hgh).
  rewrite Hsv in Hg. assert (k' = j) as -> by congruence. split; [done|]. by exists srv, host.
Qed.

(** * Answering a packet *)

(** A question as the parser leaves it. *)
Definition parsed_ok (q : mdns_parsed_question_t) : Prop :=
  Forall (fun o => forall x, o = Some x -> label_ok x) [q_host q; q_service q; q_proto q; q_domain q]
  /\ (q_sub q = true -> is_Some (q_host q)).

Lemma moved_question_ok q : parsed_ok q -> question_ok (moved_question q).
Proof.
  intros [Hq _]. rewrite !Forall_cons in Hq. destruct Hq as (H1 & H2 & H3 & H4 & _).
  unfold question_ok, moved_question. cbn. repeat constructor; try done. by destruct (q_sub q).
Qed.

Lemma moved_question_blocks q : out_question_blocks (moved_question q) = (1 + parsed_blocks q)%Z.
Proof. done. Qed.

Lemma emptied_question_blocks q : parsed_blocks (emptied_question q) = 0%Z.
Proof. done. Qed.

Section Answering.
Context (nf : bool) (cfg : config) (s : mdns_server_t).
Hypothesis live_s : server_live s.

Lemma default_instance_some : is_Some (get_default_instance_name (Some s)).
Proof using live_s.
  pose proof (instance_name_some s live_s (mk_service None [] [] None 0 0 0 [] [])) as H.
  unfold mdns_utils_get_service_instance_name in H. cbn [srv_instance mdns_utils_str_null_or_empty negb] in H.
  destruct (get_default_instance_name (Some s)); [by eexists|done].
Qed.

Lemma match_instance_returns srv i sv pr :
  yields (mdns_utils_service_match_instance (Some s) srv i sv pr None) (fun _ => True).
Proof using live_s.
  destruct default_instance_some as [d Hd].
  unfold mdns_utils_service_match_instance. destruct sv, pr; try done. case_on_goal; [done|].
  eapply (yields_bind _ _ (fun _ => True)).
  { unfold mdns_utils_instance_name_match. rewrite Hd. by destruct (srv_instance srv), i. }
  intros [] _; cbn [negb]; [|done]. by case_on_goal.
Qed.

Lemma services_registered : Forall (fun x => registered s (fst x)) (s_services s).
Proof.
  apply List.Forall_forall. intros [i srv] Hin. unfold registered. cbn [fst].
  induction (s_services s) as [|[j x] l IH]; [done|]. cbn [assoc].
  destruct (Pos.eqb_spec i j) as [->|Hne]; [by eexists|].
  destruct Hin as [[= <- <-]|Hin]; [done|auto].
Qed.

Lemma find_service_ok (f : sid * mdns_service_t -> outcome bool) :
  (forall x, yields (f x) (fun _ => True)) ->
  yields (find_first f (s_services s)) (fun r => match r with Some x => registered s (fst x) | None => True end).
Proof.
  intros Hf. eapply yields_mono; [apply find_first_ok; by apply Forall_true|].
  intros [x|]; [|done]. intros Hin. pose proof services_registered as Hr.
  rewrite List.Forall_forall in Hr. auto.
Qed.

Lemma match_ptr_returns srv q : parsed_ok q ->
  yields (service_match_ptr_question (Some s) srv q) (fun _ => True).
Proof using live_s.
  intros [_ Hsub]. unfold service_match_ptr_question. case_on_goal; [done|].
  destruct (q_sub q).
  - destruct (Hsub eq_refl) as [h ->]. eapply yields_bind; [|done].
    apply (find_first_ok _ (subtype srv)). by apply Forall_true.
  - destruct (q_host q) as [h|]; [|done].
    destruct (mdns_utils_get_service_instance_name (Some s) srv) eqn:E; [done|].
    by apply (instance_name_some s live_s) in E.
Qed.

Lemma record_known_returns srv r : yields (record_known (Some s) srv r) (fun _ => True).
Proof using live_s.
  unfold record_known. eapply (yields_bind _ _ (fun _ => True)); [|done].
  destruct (srv_instance srv), (pr_host r); try done. apply match_instance_returns.
Qed.

(** The records a question asks of service [i] are in the packet. *)
Definition answered (p : mdns_tx_packet_t) (q : mdns_parsed_question_t) (shared fl : bool) (i : sid)
    : Prop :=
  exists srv host, assoc i (s_services s) = Some srv
    /\ get_host_item (Some s) (srv_hostname srv) = Ret host
    /\ Forall (granted p) (service_requests (Some s) i host q shared fl).

(** The service matches the question and the querier does not know it yet. *)
Definition wanted (records : list mdns_parsed_record_t) (q : mdns_parsed_question_t)
    (x : sid * mdns_service_t) : Prop :=
  service_match_ptr_question (Some s) (snd x) q = Ret true
  /\ find_first (record_known (Some s) (snd x)) records = Ret None.

(** The lists of answers have grown, for the same interface. *)
Definition more (p p' : mdns_tx_packet_t) : Prop :=
  tx_if p' = tx_if p /\ forall sec, prefix (get_section p sec) (get_section p' sec).

Lemma more_refl p : more p p.
Proof. by split. Qed.

Lemma more_trans p q r : more p q -> more q r -> more p r.
Proof.
  intros [H1 H2] [H3 H4]. split; [congruence|]. intros sec. by transitivity (get_section q sec).
Qed.

Lemma answered_more p p' q shared fl i :
  more p p' -> answered p q shared fl i -> answered p' q shared fl i.
Proof.
  intros [_ Hm] (srv & host & H1 & H2 & H3). exists srv, host. split_and!; try done.
  eapply Forall_impl; [exact H3|]. intros r Hr. unfold granted in *.
  destruct (Hm (r_section r)) as [k ->]. rewrite map_app. apply in_or_app. by left.
Qed.

Lemma grows_more p p' : grows p p' -> more p p'.
Proof. by intros (? & _ & _ & _ & _ & _ & ?). Qed.

(** A step that counts: the packet, and the counter while it does not wrap. *)
Definition counted_ok (p : mdns_tx_packet_t) (k bound : Z) (r : bool * mdns_tx_packet_t * Z) (n : Z)
    : Prop :=
  let '(ok, p', k') := r in
  n = (packet_blocks p' - packet_blocks p)%Z /\ packet_wf s p' /\ grows p p'
  /\ (nf = true -> ok = true)
  /\ (0 <= k -> k + bound < 2 ^ 32 -> k <= k' <= k + bound)%Z.

(** Every wanted service is answered and counted. *)
Definition answers_wanted (l : list (sid * mdns_service_t)) (records : list mdns_parsed_record_t)
    (q : mdns_parsed_question_t) (shared fl : bool) (k : Z) (r : bool * mdns_tx_packet_t * Z) : Prop :=
  let '(ok, p', k') := r in
  ok = true -> Forall (fun x => wanted records q x ->
    answered p' q shared fl (fst x)
    /\ (0 <= k -> k + Z.of_nat (length l) < 2 ^ 32 -> k < k')%Z) l.

Lemma u32_succ k : (0 <= k -> k + 1 < 2 ^ 32 -> u32 (k + 1) = k + 1)%Z.
Proof. intros. unfold u32. rewrite Z.mod_small; lia. Qed.

Lemma answers_wanted_skip l x records q shared fl k r :
  ~ wanted records q x -> answers_wanted l records q shared fl k r ->
  answers_wanted (x :: l) records q shared fl k r.
Proof.
  intros Hx Hr. destruct r as [[ok p'] k']. intros Hk. constructor; [done|].
  eapply Forall_impl; [exact (Hr Hk)|]. cbn. intros y Hy Hw. destruct (Hy Hw) as [? Hc].
  split; [done|]. intros. apply Hc; lia.
Qed.

Lemma answer_services_ok l : forall p records q shared fl k, packet_wf s p -> parsed_ok q ->
  Forall (fun x => registered s (fst x)) l ->
  hspecn nf (answer_services (Some s) p l records q shared fl k) (fun r n =>
    counted_ok p k (Z.of_nat (length l)) r n /\ answers_wanted l records q shared fl k r).
Proof using live_s.
  induction l as [|[i srv] l IH]; intros p records q shared fl k Hp Hq Hl; cbn [answer_services].
  { apply hn_ret. split; [|by intros _]. cbn [counted_ok length]. split_and!; try done; lia. }
  apply Forall_cons in Hl as [Hi Hl].
  assert (Hskip : ~ wanted records q (i, srv) ->
    hspecn nf (answer_services (Some s) p l records q shared fl k) (fun r n =>
      counted_ok p k (Z.of_nat (length ((i, srv) :: l))) r n
      /\ answers_wanted ((i, srv) :: l) records q shared fl k r)).
  { intros Hw. eapply hn_mono; [by apply IH|]. intros r n [Hc Ha].
    split; [|by apply answers_wanted_skip]. destruct r as [[ok p'] k'].
    destruct Hc as (? & ? & ? & ? & Hk). cbn [counted_ok length]. split_and!; try done. lia. }
  eapply hn_lookup_eq; [by apply match_ptr_returns|].
  intros [] Hm _; [|apply Hskip; intros [E _]; cbn in E; congruence].
  eapply hn_lookup_eq; [apply find_first_ok, Forall_true; intros; apply record_known_returns|].
  intros [r|] Hr _; [apply Hskip; intros [_ E]; cbn in E; congruence|].
  eapply hn_bind; [by apply create_answer_from_service_ok|].
  intros [ok p1] n (srv' & host & Hsrv & Hh & -> & Hp1 & Hg1 & Hgr & Hnf1). destruct ok.
  - eapply hn_mono; [by apply IH|]. intros [[ok p2] k'] n [(-> & Hp2 & Hg2 & Hnf2 & Hc) Ha].
    pose proof (u32_succ k) as Hu. cbn [counted_ok answers_wanted length].
    split_and!; try done; [lia|by transitivity p1|lia|].
    intros Hk. constructor.
    + intros _. split; [|cbn [length]; lia]. apply (answered_more p1); [by apply grows_more|].
      exists srv', host. auto.
    + eapply Forall_impl; [exact (Ha Hk)|]. cbn. intros y Hy Hw. destruct (Hy Hw) as [? Hc'].
      split; [done|]. intros. lia.
  - apply hn_ret. cbn [counted_ok answers_wanted length]. split_and!; try done; lia.
Qed.

(** Questions that are answered from the list of services. *)
Definition service_question (q : mdns_parsed_question_t) : bool :=
  negb ((q_type q =? MDNS_TYPE_SRV)%Z || (q_type q =? MDNS_TYPE_TXT)%Z)
  && negb (bool_decide (q_service q = None)) && negb (bool_decide (q_proto q = None)).

(** How much one question can add to the counter. *)
Definition question_bound : Z := Z.of_nat (S (length (s_services s))).

Lemma counted_mono p k b b' r n : (b <= b')%Z -> counted_ok p k b r n -> counted_ok p k b' r n.
Proof.
  destruct r as [[ok p'] k']. intros Hb (? & ? & ? & ? & Hk). cbn [counted_ok]. split_and!; try done. lia.
Qed.

Lemma counted_step p k r n : step_ok nf s p [] r n ->
  counted_ok p k question_bound (fst r, snd r, if fst r then u32 (k + 1) else k) n.
Proof.
  destruct r as [ok p']. intros (? & ? & ? & _ & ?). cbn [counted_ok fst snd].
  split_and!; try done. pose proof (u32_succ k). unfold question_bound. destruct ok; lia.
Qed.

Lemma answer_question_ok p pp q shared fl k : packet_wf s p -> parsed_ok q ->
  hspecn nf (answer_question cfg (Some s) p pp q shared fl k) (fun r n => match r with
    | Some x => counted_ok p k question_bound x n
        /\ (service_question q = true -> answers_wanted (s_services s) (pp_records pp) q shared fl k x)
    | None => n = 0%Z /\ service_question q = false end).
Proof using live_s.
  intros Hp Hq. unfold answer_question.
  assert (Hcount : forall m, service_question q = false -> hspecn nf m (step_ok nf s p []) ->
    hspecn nf ('(ok, p') ← m; mret (Some (ok, p', if (ok : bool) then u32 (k + 1) else k)))
      (fun r n => match r with
       | Some x => counted_ok p k question_bound x n
           /\ (service_question q = true -> answers_wanted (s_services s) (pp_records pp) q shared fl k x)
       | None => n = 0%Z /\ service_question q = false end)).
  { intros m Hsq Hm. eapply hn_bind; [exact Hm|]. intros [ok p1] n Hst.
    apply hn_ret. rewrite Hsq, Z.add_0_r. split; [|done]. by apply (counted_step p k (ok, p1)). }
  assert (Hone : forall r, request_live s r -> hspecn nf (request_one p r) (step_ok nf s p [])).
  { intros r Hr. eapply hn_mono; [by apply (request_one_ok nf s)|]. intros; by eapply step_ok_weaken. }
  unfold service_question in *.
  destruct ((q_type q =? MDNS_TYPE_SRV)%Z || (q_type q =? MDNS_TYPE_TXT)%Z) eqn:Est;
    cbn [negb andb] in *.
  { rewrite andb_true_r. case_on_goal; [by apply hn_ret|]. eapply hn_lookup.
    - apply (find_service_ok (fun x => match q_host q with Some _ => _ | None => _ end)).
      intros x. destruct (q_host q); [apply match_instance_returns|done].
    - intros [[i srv]|] Hi; [|by apply hn_ret]. apply Hcount; [done|].
      eapply hn_mono; [by apply create_answer_from_service_ok|].
      intros r n (srv' & host & _ & _ & Hr). by eapply step_ok_weaken. }
  rewrite andb_false_r.
  destruct (negb (bool_decide (q_service q = None)) && negb (bool_decide (q_proto q = None))) eqn:Esv.
  { eapply hn_bind; [apply answer_services_ok; [done|done|apply services_registered]|].
    intros r n [Hc Ha]. apply hn_ret. rewrite Z.add_0_r. split; [|done].
    eapply counted_mono; [|exact Hc]. unfold question_bound. cbn [mdns_priv_get_services]. lia. }
  specialize (fun m => Hcount m eq_refl).
  case_on_goal.
  { apply Hcount. unfold create_answer_from_hostname.
    eapply hn_lookup; [by apply get_host_item_live|]. intros host _.
    eapply hn_mono; [apply (request_all_ok nf s); [done|apply host_requests_live]|].
    intros; by eapply step_ok_weaken. }
  case_on_goal; [by apply Hcount, append_host_list_ok|].
  case_on_goal.
  { eapply hn_lookup; [by apply get_host_item_live|]. intros host _.
    apply Hcount, Hone. by split. }
  apply Hcount, Hone. split; [done|]. cbn. intros Et. rewrite Et in Est. done.
Qed.

(** Every service wanted by one of the questions is answered. *)
Definition all_answered (pp : mdns_parsed_packet_t) (p : mdns_tx_packet_t)
    (qs : list mdns_parsed_question_t) : Prop :=
  Forall (fun q => service_question q = true ->
    Forall (fun x => wanted (pp_records pp) q x ->
      answered p q (question_shared pp q) (pp_src_port pp =? MDNS_SERVICE_PORT)%Z (fst x))
      (s_services s)) qs.

Definition some_wanted (pp : mdns_parsed_packet_t) (qs : list mdns_parsed_question_t) : Prop :=
  Exists (fun q => service_question q = true /\ Exists (wanted (pp_records pp) q) (s_services s)) qs.

(** What the loop over the questions [qs] makes of its state. *)
Definition loop_ok (pp : mdns_parsed_packet_t) (qs : list mdns_parsed_question_t)
    (st : answering) (r : option answering) : Prop :=
  match r with
  | Some st' => packet_wf s (an_packet st') /\ more (an_packet st) (an_packet st')
      /\ all_answered pp (an_packet st') qs
      /\ let b := (question_bound * Z.of_nat (length qs))%Z in
         (0 <= an_count st -> an_count st + b < 2 ^ 32 ->
          an_count st <= an_count st' <= an_count st + b
          /\ (some_wanted pp qs -> an_count st < an_count st'))%Z
  | None => nf = false
  end.

Lemma loop_step pp q qs st st1 r :
  more (an_packet st) (an_packet st1) ->
  (0 <= an_count st -> an_count st + question_bound < 2 ^ 32 ->
   an_count st <= an_count st1 <= an_count st + question_bound)%Z ->
  (service_question q = true -> Forall (fun x => wanted (pp_records pp) q x ->
      answered (an_packet st1) q (question_shared pp q) (pp_src_port pp =? MDNS_SERVICE_PORT)%Z (fst x)
      /\ (0 <= an_count st -> an_count st + Z.of_nat (length (s_services s)) < 2 ^ 32 ->
          an_count st < an_count st1)%Z) (s_services s)) ->
  loop_ok pp qs st1 r -> loop_ok pp (q :: qs) st r.
Proof.
  intros Hm Hc Hq. destruct r as [st'|]; [|done]. intros (Hwf & Hm' & Ha & Hc').
  split; [done|]. split; [by eapply more_trans|]. split.
  - constructor; [|done]. intros Hsq. eapply Forall_impl; [exact (Hq Hsq)|]. cbn. intros x Hx Hw.
    eapply answered_more; [exact Hm'|]. by apply Hx.
  - cbn zeta in *. cbn [length]. intros H0 H1.
    assert (0 < question_bound)%Z by (unfold question_bound; lia).
    split; [nia|]. intros [[Hsq Hex]|Hex]%Exists_cons.
    + specialize (Hq Hsq). rewrite List.Forall_forall in Hq.
      apply List.Exists_exists in Hex as (x & Hin & Hw).
      destruct (Hq x Hin Hw) as [_ Hlt]. unfold question_bound in *. nia.
    + destruct Hc' as [? Hlt]; [nia..|]. specialize (Hlt Hex). nia.
Qed.

Lemma answer_questions_ok pp qs : forall st, packet_wf s (an_packet st) -> Forall parsed_ok qs ->
  hspecn nf (answer_questions cfg (Some s) pp st qs) (fun '(qs', r) n =>
    n = ((match r with Some st' => packet_blocks (an_packet st') | None => 0 end)
         - packet_blocks (an_packet st) + parsed_all_blocks qs' - parsed_all_blocks qs)%Z
    /\ loop_ok pp qs st r).
Proof using live_s.
  induction qs as [|q qs IH]; intros st Hp Hqs; cbn [answer_questions].
  { apply hn_ret. split; [lia|]. split; [done|]. split; [apply more_refl|]. split; [constructor|].
    cbn. split; [lia|by intros ?%Exists_nil]. }
  apply Forall_cons in Hqs as [Hq Hqs]. cbn zeta.
  assert (Hnext : forall q' st' k, packet_wf s (an_packet st') ->
    (k + packet_blocks (an_packet st)
     = packet_blocks (an_packet st') + parsed_blocks q' - parsed_blocks q)%Z ->
    (forall r, loop_ok pp qs st' r -> loop_ok pp (q :: qs) st r) ->
    hspecn nf ('(rest, r) ← answer_questions cfg (Some s) pp st' qs; mret (q' :: rest, r))
      (fun '(qs', r) n => (k + n)%Z
         = ((match r with Some st' => packet_blocks (an_packet st') | None => 0 end)
            - packet_blocks (an_packet st) + parsed_all_blocks qs' - parsed_all_blocks (q :: qs))%Z
         /\ loop_ok pp (q :: qs) st r)).
  { intros q' st' k Hp' Hk Hst. eapply hn_bind; [by apply IH|].
    intros [rest r] n [-> Hr]. apply hn_ret. split; [|auto].
    change (parsed_all_blocks (q' :: rest)) with (1 + parsed_blocks q' + parsed_all_blocks rest)%Z.
    change (parsed_all_blocks (q :: qs)) with (1 + parsed_blocks q + parsed_all_blocks qs)%Z. lia. }
  eapply hn_bind; [by apply answer_question_ok|]. intros [[[[|] p] k]|] n.
  - intros [(-> & Hp1 & Hg & _ & Hc) Ha]. destruct (repeats_question cfg pp q).
    + eapply hn_bind; [apply hn_malloc|]. intros [] n [-> Hnf]; cbn [negb].
      * eapply hn_mono; [apply (Hnext _ _ (packet_blocks p - packet_blocks (an_packet st) + 1)%Z)|].
        { cbn [an_packet]. apply set_questions_wf; [done|]. apply Forall_app. split.
          - apply (tx_questions_ok _ _ (proj1 Hp1)).
          - constructor; [by apply moved_question_ok|constructor]. }
        { cbn [an_packet]. rewrite blocks_questions, out_questions_blocks_app, moved_question_blocks,
            emptied_question_blocks. lia. }
        { intros r. apply loop_step; cbn [an_packet an_count]; [|done|].
          - destruct (grows_more _ _ Hg) as [Hi Hm]. split; [done|]. intros sec.
            specialize (Hm sec). by destruct sec.
          - intros Hsq. by apply Ha. }
        intros [qs' r] n [? ?]. split; [lia|done].
      * eapply hn_bind; [apply hn_mfree|]. intros [] n ->. apply hn_ret. split; [lia|].
        by apply nf_failed.
    + eapply hn_mono; [apply (Hnext _ _ (packet_blocks p - packet_blocks (an_packet st))%Z)|];
        [done|cbn [an_packet]; lia| |by intros [qs' r] n ?].
      intros r. apply loop_step; [by apply grows_more|done|]. intros Hsq. by apply Ha.
  - intros [(-> & Hp1 & Hg & Hnf & _) _]. eapply hn_bind; [apply hn_mfree|]. intros [] n ->.
    apply hn_ret. split; [lia|]. by apply nf_failed.
  - intros [-> Hsq]. eapply hn_mono; [apply (Hnext _ _ 0%Z)|];
      [done|cbn [an_packet]; lia| |by intros [qs' r] n ?].
    intros r. apply loop_step; cbn [an_packet an_count]; [apply more_refl| |by rewrite Hsq].
    unfold question_bound. lia.
Qed.

(** The blocks a decision keeps. *)
Definition decision_blocks (d : tx_decision) : Z :=
  match d with TxSendAfter p _ => packet_blocks p | _ => 0%Z end.

(** The packet of a decision. *)
Definition decision_packet (d : tx_decision) : option mdns_tx_packet_t :=
  match d with TxNothing => None | TxSendAfter p _ | TxDispatch p => Some p end.

Definition decision_wf (d : tx_decision) : Prop :=
  match decision_packet d with Some p => packet_wf s p | None => True end.

(** A packet goes out where the question came in. *)
Definition decision_on (pp : mdns_parsed_packet_t) (d : tx_decision) : Prop :=
  match decision_packet d with Some p => tx_if p = pp_if pp | None => True end.

(** A decision answers what is wanted. *)
Definition decision_complete (pp : mdns_parsed_packet_t) (d : tx_decision) : Prop :=
  match decision_packet d with
  | Some p => all_answered pp p (pp_questions pp)
  | None => (question_bound * Z.of_nat (length (pp_questions pp)) < 2 ^ 32)%Z ->
            some_wanted pp (pp_questions pp) -> nf = false
  end.

Lemma parsed_packet_answered pp step : Forall parsed_ok (pp_questions pp) ->
  hspecn nf (mdns_priv_create_answer_from_parsed_packet cfg (Some s) pp step) (fun '(qs, d, _) n =>
    decision_wf d /\ decision_complete pp d /\ decision_on pp d
    /\ n = (decision_blocks d + parsed_all_blocks qs - parsed_all_blocks (pp_questions pp))%Z).
Proof using live_s.
  intros Hqs. unfold mdns_priv_create_answer_from_parsed_packet, decision_complete.
  destruct (pp_questions pp) as [|q qs] eqn:Eq.
  { apply hn_ret. split_and!; try done. by intros _ ?%Exists_nil. }
  rewrite <- Eq in *. cbn zeta.
  eapply hn_bind; [apply alloc_packet_ok|].
  intros [p|] n; [|intros [-> ?]; apply hn_ret; split_and!; [done|by intros _ _|done|cbn [decision_blocks]; lia]].
  intros (-> & Hb & Hp & Hq & Hif & _).
  eapply hn_bind; [apply answer_questions_ok; [by apply set_header_wf|done]|].
  intros [qs' r] n [-> Hr]. cbn [an_packet].
  change (packet_blocks (set_header p _ _ _)) with (packet_blocks p).
  destruct r as [st|]; [|apply hn_ret; split_and!; [done|by intros _ _|done|cbn [decision_blocks]; lia]].
  destruct Hr as (Hwf & [Hif' _] & Hall & Hc). cbn [an_count an_packet] in Hc, Hif'.
  destruct (Z.eqb_spec (an_count st) 0) as [E0|E0].
  { eapply hn_bind; [apply hn_mfree|]. intros [] n ->. apply hn_ret.
    split_and!; [done| |done|cbn [decision_blocks]; lia].
    intros Hbnd Hw. destruct Hc as [_ Hlt]; [lia..|]. specialize (Hlt Hw). lia. }
  set (p' := if an_unicast st || _ then _ else _).
  assert (packet_wf s p' /\ packet_blocks p' = packet_blocks (an_packet st)
          /\ more (an_packet st) p') as (Hwf' & Hbl & Hm).
  { unfold p'. case_on_goal; [|split; [done|split; [done|apply more_refl]]]. split; [|split; [done|split; [done|by intros []]]].
    destruct Hwf as [[] Hd]. split; [by split|]. intros sec. specialize (Hd sec). by destruct sec. }
  assert (Hall' : all_answered pp p' (pp_questions pp)).
  { eapply Forall_impl; [exact Hall|]. cbn. intros x Hx Hsq. eapply Forall_impl; [exact (Hx Hsq)|].
    cbn. intros y Hy Hw. eapply answered_more; [exact Hm|auto]. }
  assert (Hon : tx_if p' = pp_if pp).
  { destruct Hm as [-> _]. rewrite Hif'. exact Hif. }
  case_on_goal.
  - apply hn_ret. split_and!; [done|done|exact Hon|]. cbn [decision_blocks]. lia.
  - eapply hn_bind; [apply hn_mfree|]. intros [] n ->. apply hn_ret.
    split_and!; [done|done|exact Hon|]. cbn [decision_blocks]. lia.
Qed.

End Answering.

(** C14. Answering any parsed packet, for any pattern of allocation failures: the
    answer is built without following a null or dangling pointer; a packet to
    be sent refers to registered services only and has no record twice; the
    strings of a repeated question move from the question to the packet and
    are freed once; and on every path what stays allocated is the scheduled
    packet and what is left of the questions. *)
Theorem answer_parsed_packet_sound cfg s pp step :
  server_live s -> Forall parsed_ok (pp_questions pp) ->
  hspec (mdns_priv_create_answer_from_parsed_packet cfg (Some s) pp step) (fun '(qs, d, _) n =>
    decision_wf s d
    /\ n = (decision_blocks d + parsed_all_blocks qs - parsed_all_blocks (pp_questions pp))%Z).
Proof.
  intros Hs Hq. apply hspecn_any. eapply hn_mono; [by apply parsed_packet_answered|].
  intros [[qs d] step'] n (? & _ & _ & ?). auto.
Qed.

(** The records of a service that a PTR question gets: the PTR record as an
    answer, the SRV and TXT records with it. *)
Definition ptr_answered (p : mdns_tx_packet_t) (i : sid) : Prop :=
  In (MDNS_TYPE_PTR, Some i, None) (map answer_key (tx_answers p))
  /\ In (MDNS_TYPE_SRV, Some i, None) (map answer_key (tx_additional p))
  /\ In (MDNS_TYPE_TXT, Some i, None) (map answer_key (tx_additional p)).

Lemma answered_ptr s p q shared fl i : q_type q = MDNS_TYPE_PTR -> answered s p q shared fl i ->
  ptr_answered p i.
Proof.
  intros Ht (srv & host & _ & _ & Hall). unfold service_requests in Hall. rewrite Ht in Hall.
  cbn -[granted mdns_priv_get_self_host] in Hall. rewrite !Forall_cons in Hall.
  destruct Hall as (H1 & H2 & H3 & _). done.
Qed.

(** C15. Questions about services are answered: while no allocation fails, if a
    question of the packet that is answered from the list of services matches
    a registered service that the querier does not already know, a packet is
    sent, and for each question and each such service it holds the records the
    question asks for: for a PTR question the PTR record as an answer and the
    SRV and TXT records with it. *)
Theorem service_questions_answered cfg s pp step h :
  server_live s -> Forall parsed_ok (pp_questions pp) -> never_fails h ->
  some_wanted s pp (pp_questions pp) ->
  (question_bound s * Z.of_nat (length (pp_questions pp)) < 2 ^ 32)%Z ->
  yields (mdns_priv_create_answer_from_parsed_packet cfg (Some s) pp step h) (fun '(_, d, _, _) =>
    exists p, decision_packet d = Some p /\ all_answered s pp p (pp_questions pp)
      /\ forall q i srv, In q (pp_questions pp) -> service_question q = true ->
           q_type q = MDNS_TYPE_PTR -> In (i, srv) (s_services s) ->
           wanted s (pp_records pp) q (i, srv) -> ptr_answered p i).
Proof.
  intros Hs Hq Hh Hw Hb.
  eapply yields_mono.
  { apply hspecn_never; [apply (parsed_packet_answered true cfg s Hs pp step Hq)|done]. }
  intros [[[qs d] step'] h'] (_ & _ & Hc & _). unfold decision_complete in Hc.
  destruct (decision_packet d) as [p|]; [|by specialize (Hc Hb Hw)].
  exists p. split; [done|]. split; [done|]. intros q i srv Hin Hsq Ht Hsrv Hwant.
  unfold all_answered in Hc. rewrite List.Forall_forall in Hc. specialize (Hc q Hin Hsq).
  rewrite List.Forall_forall in Hc. eapply answered_ptr; [exact Ht|]. exact (Hc (i, srv) Hsrv Hwant).
Qed.
