(* ===== verification/AnswersExamples.v ===== *)
(** The packets of the responder on a concrete server, and the goodbye loop that
    leaves out the first delegated host. *)
From S2P Require Import Prelude Names Server Encode EncodeSafe NameExamples Heap Collision Answers AnswersProofs.

Lemma example_server_live : server_live example_server.
Proof. split; [exact example_server_ok|]. constructor; [by eexists|constructor]. Defined.

Lemma responder_packets_sound_witness :
  hspecn false (mdns_priv_create_probe_packet default_config (Some example_server) 0
                  MDNS_IP_PROTOCOL_V4 (Some [1%positive]) true true)
    (builds false example_server 0 MDNS_IP_PROTOCOL_V4).
Proof.
  apply (responder_packets_sound false default_config example_server 0 MDNS_IP_PROTOCOL_V4
           (Some [1%positive]) true true example_server_live).
  - apply Forall_cons_2; [by eexists|apply Forall_nil_2].
  - cbn. lia.
Defined.

Lemma probe_is_announced_witness :
  hspecn true (mdns_priv_create_probe_packet default_config (Some example_server) 0
                 MDNS_IP_PROTOCOL_V4 (Some [1%positive]) true true)
    (fun r _ => exists probe, r = Some probe
       /\ hspecn true (mdns_priv_create_announce_from_probe default_config (Some example_server) probe)
            (fun r _ => exists p, r = Some p
             /\ Forall (fun j =>
                  Forall (granted p) (announce_requests (Some j))
                  /\ exists srv host, assoc j (s_services example_server) = Some srv
                     /\ get_host_item (Some example_server) (srv_hostname srv) = Ret host
                     /\ Forall (granted p) (host_requests Answers host true false)) [1%positive])).
Proof.
  apply (probe_is_announced default_config example_server 0 MDNS_IP_PROTOCOL_V4 [1%positive] true true
           example_server_live).
  apply Forall_cons_2; [by eexists|apply Forall_nil_2].
Defined.

(** A browser's question for web servers, from the mDNS port. *)
Definition http_question : mdns_parsed_question_t :=
  mk_question MDNS_TYPE_PTR false false None (Some (str "_http")) (Some (str "_tcp")) (Some (str "local")).

Definition http_query : mdns_parsed_packet_t :=
  mk_parsed_packet 0 MDNS_IP_PROTOCOL_V4 (IP4 0x0300A8C0) 5353 true false false true false [http_question] [] 0.

(** A one-shot query for every record of the host name. *)
Definition one_shot_query : mdns_parsed_packet_t :=
  mk_parsed_packet 0 MDNS_IP_PROTOCOL_V4 (IP4 0x0300A8C0) 40000 true false false false false
    [mk_question MDNS_TYPE_A false false (Some (str "esp32")) None None (Some (str "local"))] [] 7.

Lemma one_shot_parsed_ok : Forall parsed_ok (pp_questions one_shot_query).
Proof.
  apply Forall_cons_2; [|apply Forall_nil_2]. split; [|done].
  repeat (apply Forall_cons_2; [lab|]). apply Forall_nil_2.
Defined.

Lemma http_parsed_ok : Forall parsed_ok (pp_questions http_query).
Proof.
  apply Forall_cons_2; [|apply Forall_nil_2]. split; [|done].
  repeat (apply Forall_cons_2; [lab|]). apply Forall_nil_2.
Defined.

(** The strings of the repeated question belong to the scheduled packet. *)
Example one_shot_moves :
  match mdns_priv_create_answer_from_parsed_packet default_config (Some example_server)
          one_shot_query 0 (mk_heap [] 10) with
  | Ret ([q], TxSendAfter p 25, 1%Z, h) =>
      q_host q = None /\ map oq_host (tx_questions p) = [Some (str "esp32")]
      /\ tx_port p = 40000%Z /\ tx_id p = 7%Z /\ packet_blocks p = 6%Z /\ live h = 14%Z
  | _ => False
  end.
Proof. vm_compute. repeat split. Qed.

Lemma answer_parsed_packet_sound_witness :
  hspec (mdns_priv_create_answer_from_parsed_packet default_config (Some example_server)
           one_shot_query 0) (fun '(qs, d, _) n =>
    decision_wf example_server d
    /\ n = (decision_blocks d + parsed_all_blocks qs - parsed_all_blocks (pp_questions one_shot_query))%Z).
Proof.
  exact (answer_parsed_packet_sound default_config example_server one_shot_query 0
           example_server_live one_shot_parsed_ok).
Defined.

Lemma service_questions_answered_witness :
  yields (mdns_priv_create_answer_from_parsed_packet default_config (Some example_server)
             http_query 0 (mk_heap [] 0)) (fun '(_, d, _, _) =>
    exists p, decision_packet d = Some p /\ ptr_answered p 1%positive).
Proof.
  eapply yields_mono.
  - apply (service_questions_answered default_config example_server http_query 0 (mk_heap [] 0)
             example_server_live http_parsed_ok eq_refl).
    + apply Exists_cons_hd. split; [reflexivity|]. apply Exists_cons_hd. split; reflexivity.
    + reflexivity.
  - intros [[[qs d] step'] h] (p & Hd & _ & Hptr). exists p. split; [exact Hd|].
    apply (Hptr http_question 1%positive example_service); try reflexivity; [by left|by left|].
    split; reflexivity.
Defined.

(** A server with two delegated hosts. *)
Definition two_hosts : mdns_server_t :=
  mk_server (Some (str "esp32")) None []
    [(1%positive, mk_host (Some (str "alpha")) []); (2%positive, mk_host (Some (str "beta")) [])]
    (mk_host (Some (str "esp32")) []).

(** [append_host_list] is meant to append every delegated host; it appends the
    second one and a null host, and never the first. *)
Lemma append_host_list_skips_first :
  exists p h, append_host_list (Some two_hosts)
      (mk_tx_packet 0 0 MDNS_IP_PROTOCOL_V4 (IP4 0) 5353 0 false [] [] [] [] false 0)
      Answers true false (mk_heap [] 0) = Ret (true, p, h)
    /\ map oa_host (filter (fun a => oa_type a = MDNS_TYPE_A) (tx_answers p))
       = [Some SelfHost; Some (Delegated 2%positive); None].
Proof. do 2 eexists. split; vm_compute; reflexivity. Qed.
