(* ===== verification/Engine.v ===== *)
(** The transmit queue and the protocol control blocks: components/mdns/mdns_pcb.c
    and the scheduling half of mdns_send.c.

    A packet in the queue is a node: its address and its contents.  The engine
    holds what these functions share: the queue [s_tx_queue_head], the table
    [s_pcbs], the action queue, and the environment they ask (clock, random
    numbers, whether a socket is open, whether an action queue or a network
    stack accepts a call).  The packets handed to [mdns_priv_if_write] are
    recorded in [e_sent]; their encoding is the subject of Encode.v. *)
From S2P Require Import Prelude Names Server Encode Heap Collision Answers.

(** * State *)

Inductive mdns_pcb_state_t :=
| PCB_OFF | PCB_DUP | PCB_INIT
| PCB_PROBE_1 | PCB_PROBE_2 | PCB_PROBE_3
| PCB_ANNOUNCE_1 | PCB_ANNOUNCE_2 | PCB_ANNOUNCE_3
| PCB_RUNNING.

#[export] Instance pcb_state_eq_dec : EqDecision mdns_pcb_state_t.
Proof. solve_decision. Defined.

Definition pcb_state_num (st : mdns_pcb_state_t) : nat :=
  match st with
  | PCB_OFF => 0 | PCB_DUP => 1 | PCB_INIT => 2
  | PCB_PROBE_1 => 3 | PCB_PROBE_2 => 4 | PCB_PROBE_3 => 5
  | PCB_ANNOUNCE_1 => 6 | PCB_ANNOUNCE_2 => 7 | PCB_ANNOUNCE_3 => 8
  | PCB_RUNNING => 9
  end.

(** [(mdns_pcb_state_t)((uint8_t)(pcb->state) + 1)]; the code takes the successor
    of [PCB_PROBE_1] to [PCB_ANNOUNCE_2] only. *)
Definition pcb_state_next (st : mdns_pcb_state_t) : mdns_pcb_state_t :=
  match st with
  | PCB_OFF => PCB_DUP | PCB_DUP => PCB_INIT | PCB_INIT => PCB_PROBE_1
  | PCB_PROBE_1 => PCB_PROBE_2 | PCB_PROBE_2 => PCB_PROBE_3 | PCB_PROBE_3 => PCB_ANNOUNCE_1
  | PCB_ANNOUNCE_1 => PCB_ANNOUNCE_2 | PCB_ANNOUNCE_2 => PCB_ANNOUNCE_3
  | PCB_ANNOUNCE_3 | PCB_RUNNING => PCB_RUNNING
  end.

Definition PCB_STATE_IS_PROBING (st : mdns_pcb_state_t) : bool :=
  (pcb_state_num PCB_OFF <? pcb_state_num st) && (pcb_state_num st <? pcb_state_num PCB_ANNOUNCE_1).

Definition PCB_STATE_IS_ANNOUNCING (st : mdns_pcb_state_t) : bool :=
  (pcb_state_num PCB_PROBE_3 <? pcb_state_num st) && (pcb_state_num st <? pcb_state_num PCB_RUNNING).

Record mdns_pcb_t := mk_pcb {
  state : mdns_pcb_state_t;
  probe_services : option (list sid);
  probe_services_len : Z;
  probe_ip : bool;
  probe_running : bool;
  failed_probes : Z;
}.

(** The address of a packet and the packet. *)
Definition tx_node : Type := positive * mdns_tx_packet_t.

Record engine := mk_engine {
  e_server : option mdns_server_t;
  e_heap : heap;
  e_queue : list tx_node;              (** [s_tx_queue_head] *)
  e_pcbs : list mdns_pcb_t;            (** [s_pcbs], row by row *)
  e_pending : list positive;           (** packets of the actions [ACTION_TX_HANDLE] *)
  e_now : Z;                           (** milliseconds, 32 bits *)
  e_ready : mdns_if_t -> mdns_ip_protocol_t -> bool;
  e_duplicate : mdns_if_t -> mdns_if_t;
  e_netif : mdns_if_t -> option positive;
  e_inits : list bool;                 (** whether opening the next sockets works *)
  e_accepts : list bool;               (** whether the action queue takes the next actions *)
  e_random : list Z;
  e_sent : list mdns_tx_packet_t;
}.

Definition set_heap e x := mk_engine (e_server e) x (e_queue e) (e_pcbs e) (e_pending e) (e_now e)
  (e_ready e) (e_duplicate e) (e_netif e) (e_inits e) (e_accepts e) (e_random e) (e_sent e).
Definition set_queue e x := mk_engine (e_server e) (e_heap e) x (e_pcbs e) (e_pending e) (e_now e)
  (e_ready e) (e_duplicate e) (e_netif e) (e_inits e) (e_accepts e) (e_random e) (e_sent e).
Definition set_pcbs e x := mk_engine (e_server e) (e_heap e) (e_queue e) x (e_pending e) (e_now e)
  (e_ready e) (e_duplicate e) (e_netif e) (e_inits e) (e_accepts e) (e_random e) (e_sent e).
Definition set_pending e x := mk_engine (e_server e) (e_heap e) (e_queue e) (e_pcbs e) x (e_now e)
  (e_ready e) (e_duplicate e) (e_netif e) (e_inits e) (e_accepts e) (e_random e) (e_sent e).
Definition set_now e x := mk_engine (e_server e) (e_heap e) (e_queue e) (e_pcbs e) (e_pending e) x
  (e_ready e) (e_duplicate e) (e_netif e) (e_inits e) (e_accepts e) (e_random e) (e_sent e).
Definition set_ready e x y := mk_engine (e_server e) (e_heap e) (e_queue e) (e_pcbs e) (e_pending e)
  (e_now e) x (e_duplicate e) (e_netif e) y (e_accepts e) (e_random e) (e_sent e).
Definition set_netif e x := mk_engine (e_server e) (e_heap e) (e_queue e) (e_pcbs e) (e_pending e)
  (e_now e) (e_ready e) (e_duplicate e) x (e_inits e) (e_accepts e) (e_random e) (e_sent e).
Definition set_accepts e x := mk_engine (e_server e) (e_heap e) (e_queue e) (e_pcbs e) (e_pending e)
  (e_now e) (e_ready e) (e_duplicate e) (e_netif e) (e_inits e) x (e_random e) (e_sent e).
Definition set_random e x := mk_engine (e_server e) (e_heap e) (e_queue e) (e_pcbs e) (e_pending e)
  (e_now e) (e_ready e) (e_duplicate e) (e_netif e) (e_inits e) (e_accepts e) x (e_sent e).
Definition set_sent e x := mk_engine (e_server e) (e_heap e) (e_queue e) (e_pcbs e) (e_pending e)
  (e_now e) (e_ready e) (e_duplicate e) (e_netif e) (e_inits e) (e_accepts e) (e_random e) x.

(** * The monad of the engine *)

Definition E (A : Type) : Type := engine -> outcome (A * engine).

#[export] Instance E_bind : MBind E := fun A B f m e =>
  match m e with
  | Ret (a, e) => f a e
  | Failed => Failed
  | BadAccess => BadAccess
  | OutOfFuel => OutOfFuel
  end.

#[export] Instance E_ret : MRet E := fun A a e => Ret (a, e).

Definition gets {A} (f : engine -> A) : E A := fun e => Ret (f e, e).

Definition modify (f : engine -> engine) : E unit := fun e => Ret (tt, f e).

(** A function that allocates. *)
Definition hop {A} (m : H A) : E A := fun e =>
  match m (e_heap e) with
  | Ret (a, h) => Ret (a, set_heap e h)
  | Failed => Failed
  | BadAccess => BadAccess
  | OutOfFuel => OutOfFuel
  end.

Definition bad {A} : E A := fun _ => BadAccess.

Fixpoint for_each {A} (l : list A) (f : A -> E unit) : E unit :=
  match l with
  | [] => mret tt
  | x :: l => _ ← f x; for_each l f
  end.

(** [s_pcbs[tcpip_if][ip_protocol]]. *)
Definition proto_num (proto : mdns_ip_protocol_t) : nat :=
  match proto with MDNS_IP_PROTOCOL_V4 => 0 | MDNS_IP_PROTOCOL_V6 => 1 end.

Definition pcb_index (tcpip_if : mdns_if_t) (proto : mdns_ip_protocol_t) : nat :=
  2 * tcpip_if + proto_num proto.

Definition get_pcb (tcpip_if : mdns_if_t) (proto : mdns_ip_protocol_t) : E mdns_pcb_t := fun e =>
  match e_pcbs e !! pcb_index tcpip_if proto with Some p => Ret (p, e) | None => BadAccess end.

Definition put_pcb (tcpip_if : mdns_if_t) (proto : mdns_ip_protocol_t) (p : mdns_pcb_t) : E unit :=
  modify (fun e => set_pcbs e (<[pcb_index tcpip_if proto := p]> (e_pcbs e))).

Definition pcb_set_state (p : mdns_pcb_t) (st : mdns_pcb_state_t) : mdns_pcb_t :=
  mk_pcb st (probe_services p) (probe_services_len p) (probe_ip p) (probe_running p) (failed_probes p).

(** [mdns_mem_free(pcb->probe_services)]. *)
Definition array_blocks (p : mdns_pcb_t) : Z := opt_block (probe_services p).

(** * The environment *)

(** [mdns_priv_if_init] of components/mdns/mdns_networking_lwip.c; joining the
    group or opening the socket may fail, and then nothing changes. *)
Definition mdns_priv_if_init (tcpip_if : mdns_if_t) (proto : mdns_ip_protocol_t) : E bool := fun e =>
  if e_ready e tcpip_if proto then Ret (false, e) else
  let '(ok, rest) := next_bool (e_inits e) in
  let ready := fun i p => bool_decide (i = tcpip_if /\ p = proto) || e_ready e i p in
  Ret (ok, set_ready e (if ok then ready else e_ready e) rest).

(** [mdns_priv_if_deinit] always succeeds. *)
Definition mdns_priv_if_deinit (tcpip_if : mdns_if_t) (proto : mdns_ip_protocol_t) : E unit :=
  modify (fun e =>
    set_ready e (fun i p => negb (bool_decide (i = tcpip_if /\ p = proto)) && e_ready e i p) (e_inits e)).

(** [xQueueSend] on the action queue. *)
Definition mdns_priv_queue_action (packet : positive) : E bool := fun e =>
  let '(ok, rest) := next_bool (e_accepts e) in
  let e := set_accepts e rest in
  Ret (ok, if ok then set_pending e (e_pending e ++ [packet]) else e).

Definition esp_random : E Z := fun e =>
  match e_random e with
  | [] => Ret (0%Z, e)
  | r :: rest => Ret (r, set_random e rest)
  end.

Definition mdns_priv_netif_disable (tcpip_if : mdns_if_t) : E unit :=
  modify (fun e => set_netif e (fun i => if i =? tcpip_if then None else e_netif e i)).

(** [mdns_priv_dispatch_tx_packet]. *)
Definition dispatch (p : mdns_tx_packet_t) : E unit := modify (fun e => set_sent e (e_sent e ++ [p])).

(** * The transmit queue *)

Definition set_send_at (p : mdns_tx_packet_t) (t : Z) : mdns_tx_packet_t :=
  mk_tx_packet t (tx_if p) (tx_ip_protocol p) (tx_dst p) (tx_port p) (tx_flags p)
    (tx_distributed p) (tx_questions p) (tx_answers p) (tx_servers p) (tx_additional p) (tx_queued p) (tx_id p).

Definition set_queued (p : mdns_tx_packet_t) (b : bool) : mdns_tx_packet_t :=
  mk_tx_packet (tx_send_at p) (tx_if p) (tx_ip_protocol p) (tx_dst p) (tx_port p) (tx_flags p)
    (tx_distributed p) (tx_questions p) (tx_answers p) (tx_servers p) (tx_additional p) b (tx_id p).

(** In front of the first packet that is sent later. *)
Fixpoint insert_node (n : tx_node) (q : list tx_node) : list tx_node :=
  match q with
  | [] => [n]
  | m :: q => if (tx_send_at (snd n) <? tx_send_at (snd m))%Z then n :: m :: q else m :: insert_node n q
  end.

Definition mdns_priv_send_after (n : tx_node) (ms_after : Z) : E unit :=
  modify (fun e =>
    let n := (fst n, set_send_at (snd n) (u32 (e_now e + ms_after))) in
    set_queue e (insert_node n (e_queue e))).

Definition queue_blocks (q : list tx_node) : Z :=
  foldr (fun n z => packet_blocks (snd n) + z)%Z 0%Z q.

Definition mdns_priv_clear_tx_queue : E unit :=
  q ← gets e_queue;
  _ ← hop (mfree (queue_blocks q));
  modify (fun e => set_queue e []).

Definition on_pcb (tcpip_if : mdns_if_t) (proto : mdns_ip_protocol_t) (n : tx_node) : bool :=
  bool_decide (tx_if (snd n) = tcpip_if) && bool_decide (tx_ip_protocol (snd n) = proto).

Definition mdns_priv_clear_tx_queue_if (tcpip_if : mdns_if_t) (proto : mdns_ip_protocol_t) : E unit :=
  q ← gets e_queue;
  _ ← hop (mfree (queue_blocks (List.filter (on_pcb tcpip_if proto) q)));
  modify (fun e => set_queue e (List.filter (fun n => negb (on_pcb tcpip_if proto n)) q)).

Definition mdns_priv_get_next_packet (tcpip_if : mdns_if_t) (proto : mdns_ip_protocol_t)
    : E (option tx_node) :=
  q ← gets e_queue; mret (List.find (on_pcb tcpip_if proto) q).

(** A packet of the queue changed in place. *)
Definition update_packet (id : positive) (p : mdns_tx_packet_t) : E unit :=
  modify (fun e =>
    set_queue e (map (fun n => if Pos.eqb (fst n) id then (id, p) else n) (e_queue e))).

(** [(int32_t)(p->send_at - now) < 0]. *)
Definition due (now : Z) (p : mdns_tx_packet_t) : bool := (2 ^ 31 <=? u32 (tx_send_at p - now))%Z.

(** The loop over the packets after the first unqueued one. *)
Fixpoint queue_due (q : list tx_node) : E (list tx_node) :=
  match q with
  | [] => mret []
  | (id, p) :: rest =>
      now ← gets e_now;
      if due now p then
        ok ← hop malloc;
        if negb ok then mret q
        else
          taken ← mdns_priv_queue_action id;
          _ ← (if (taken : bool) then mret tt else hop (mfree 1));
          rest ← queue_due rest;
          mret ((id, set_queued p taken) :: rest)
      else mret q
  end.

(** The packets already queued, and the others. *)
Fixpoint split_queued (q : list tx_node) : list tx_node * list tx_node :=
  match q with
  | n :: rest =>
      if tx_queued (snd n) then let '(a, b) := split_queued rest in (n :: a, b) else ([], q)
  | [] => ([], [])
  end.

Definition mdns_priv_send_packets : E unit :=
  q ← gets e_queue;
  let '(queued, rest) := split_queued q in
  rest ← queue_due rest;
  modify (fun e => set_queue e (queued ++ rest)).

Definition mdns_priv_remove_scheduled_answer (tcpip_if : mdns_if_t) (proto : mdns_ip_protocol_t)
    (type : Z) (service : option sid) : E unit :=
  q ← gets e_queue;
  let remove (n : tx_node) : tx_node :=
    if on_pcb tcpip_if proto n && tx_distributed (snd n) then
      (fst n, set_section (snd n) Answers
         (remove_first (fun a => (oa_type a =? type)%Z && bool_decide (oa_service a = service))
            (tx_answers (snd n))))
    else n in
  _ ← hop (mfree (queue_blocks q - queue_blocks (map remove q)));
  modify (fun e => set_queue e (map remove q)).

(** * Protocol control blocks *)

Section Pcb.
(** [addr] is the address the allocator gives to a packet, from the addresses in
    use. *)
Context (cfg : config) (MDNS_MAX_INTERFACES : nat) (addr : list positive -> positive).

Definition link_new (p : mdns_tx_packet_t) (in_use : list positive) (ms_after : Z) : E unit :=
  ids ← gets (fun e => map fst (e_queue e));
  mdns_priv_send_after (addr (in_use ++ ids), p) ms_after.

(** How many services will be probed. *)
Definition services_final_len (pcb : mdns_pcb_t) (services : list sid) : nat :=
  length services
  + if PCB_STATE_IS_PROBING (state pcb) then Z.to_nat (probe_services_len pcb) else 0.

(** The first half of [init_probe_new_service]: the array of the new services and
    of those already probed, [Some None] for the null array, [None] when it
    cannot be allocated.  Writing past the end of the array, and leaving
    entries of it unwritten, are bad accesses. *)
Definition extend_probe_array (pcb : mdns_pcb_t) (services : list sid)
    : E (option (option (list sid))) :=
  let psl := Z.to_nat (probe_services_len pcb) in
  let final_len := services_final_len pcb services in
  if final_len =? 0 then mret (Some None)
  else
    ok ← hop malloc;
    if negb ok then mret None
    else
      match probe_services pcb with
      | Some old =>
          if (final_len <? length services + psl) || (length old <? psl) then bad
          else _ ← hop (mfree 1); mret (Some (Some (services ++ take psl old)))
      | None => if length services <? final_len then bad else mret (Some (Some services))
      end.

Definition init_probe_new_service (tcpip_if : mdns_if_t) (proto : mdns_ip_protocol_t)
    (services : list sid) (ip : bool) : E unit :=
  pcb ← get_pcb tcpip_if proto;
  srv ← gets e_server;
  let final_len := u8 (Z.of_nat (services_final_len pcb services)) in
  array ← extend_probe_array pcb services;
  match array with
  | None => mret tt
  | Some s =>
      let ip := probe_ip pcb || ip in
      _ ← put_pcb tcpip_if proto (mk_pcb (state pcb) None 0 false false (failed_probes pcb));
      packet ← hop (mdns_priv_create_probe_packet cfg srv tcpip_if proto s true ip);
      match packet with
      | None => hop (mfree (opt_block s))
      | Some p =>
          r ← esp_random;
          _ ← link_new p [] ((if (5 <? failed_probes pcb)%Z then 1000 else 120) + Z.land r 0x7F);
          put_pcb tcpip_if proto (mk_pcb PCB_PROBE_1 s final_len ip true (failed_probes pcb))
      end
  end.

Definition mdns_priv_init_pcb_probe (tcpip_if : mdns_if_t) (proto : mdns_ip_protocol_t)
    (services : list sid) (ip : bool) : E unit :=
  _ ← mdns_priv_clear_tx_queue_if tcpip_if proto;
  pcb ← get_pcb tcpip_if proto;
  srv ← gets e_server;
  if mdns_utils_str_null_or_empty (mdns_priv_get_global_hostname srv) then
    put_pcb tcpip_if proto (pcb_set_state pcb PCB_RUNNING)
  else if PCB_STATE_IS_PROBING (state pcb) then
    let psl := Z.to_nat (probe_services_len pcb) in
    match probe_services pcb, services with
    | Some old, _ =>
        if length old <? psl then bad
        else init_probe_new_service tcpip_if proto
               (List.filter (fun j => negb (bool_decide (j ∈ take psl old))) services) ip
    | None, _ :: _ =>
        if psl =? 0 then init_probe_new_service tcpip_if proto services ip else bad
    | None, [] => init_probe_new_service tcpip_if proto services ip
    end
  else init_probe_new_service tcpip_if proto services ip.

(** More services in an announcement that is already scheduled. *)
Definition extend_announcement (srv : option mdns_server_t) (p : mdns_tx_packet_t)
    (services : option (list sid)) (include_ip : bool) : H mdns_tx_packet_t :=
  let l := match services with Some l => l | None => [] end in
  _ ← hlift (check_services srv l);
  '(_, p) ← request_all p (flat_map (fun i => announce_requests (Some i)) l);
  if include_ip then
    a ← mdns_priv_dealloc_answer (tx_additional p) MDNS_TYPE_A None;
    a ← mdns_priv_dealloc_answer a MDNS_TYPE_AAAA None;
    '(_, p) ← mdns_priv_append_host_list_in_services srv (set_section p Additional a) Answers
                services true false;
    mret p
  else mret p.

(** [mdns_priv_pcb_announce]; a null array of services is [None]. *)
Definition mdns_priv_pcb_announce (tcpip_if : mdns_if_t) (proto : mdns_ip_protocol_t)
    (services : option (list sid)) (include_ip : bool) : E unit :=
  let l := match services with Some l => l | None => [] end in
  ready ← gets (fun e => e_ready e tcpip_if proto);
  if (ready : bool) then
    pcb ← get_pcb tcpip_if proto;
    srv ← gets e_server;
    if PCB_STATE_IS_PROBING (state pcb) then mdns_priv_init_pcb_probe tcpip_if proto l include_ip
    else if PCB_STATE_IS_ANNOUNCING (state pcb) then
      next ← mdns_priv_get_next_packet tcpip_if proto;
      match next with
      | None => mret tt
      | Some (id, p) =>
          p ← hop (extend_announcement srv p services include_ip);
          _ ← update_packet id p;
          put_pcb tcpip_if proto (pcb_set_state pcb PCB_ANNOUNCE_1)
      end
    else if decide (state pcb = PCB_RUNNING) then
      if mdns_utils_str_null_or_empty (mdns_priv_get_global_hostname srv) then mret tt
      else
        _ ← put_pcb tcpip_if proto (pcb_set_state pcb PCB_ANNOUNCE_1);
        packet ← hop (mdns_priv_create_announce_packet cfg srv tcpip_if proto services include_ip);
        match packet with
        | None => mret tt
        | Some p => link_new p [] 0
        end
    else mret tt
  else mret tt.

Definition mdns_priv_netif_get_other_interface (tcpip_if : mdns_if_t) : E mdns_if_t :=
  gets (fun e => if tcpip_if <? MDNS_MAX_INTERFACES then e_duplicate e tcpip_if else MDNS_MAX_INTERFACES).

Definition both_protocols : list mdns_ip_protocol_t := [MDNS_IP_PROTOCOL_V4; MDNS_IP_PROTOCOL_V6].

Definition mdns_priv_pcb_is_duplicate (tcpip_if : mdns_if_t) (proto : mdns_ip_protocol_t) : E bool :=
  pcb ← get_pcb tcpip_if proto; mret (bool_decide (state pcb = PCB_DUP)).

Definition mdns_priv_pcb_check_for_duplicates (tcpip_if : mdns_if_t) : E bool :=
  other ← mdns_priv_netif_get_other_interface tcpip_if;
  if other =? MDNS_MAX_INTERFACES then mret false
  else
    a ← mdns_priv_pcb_is_duplicate tcpip_if MDNS_IP_PROTOCOL_V4;
    b ← mdns_priv_pcb_is_duplicate tcpip_if MDNS_IP_PROTOCOL_V6;
    c ← mdns_priv_pcb_is_duplicate other MDNS_IP_PROTOCOL_V4;
    d ← mdns_priv_pcb_is_duplicate other MDNS_IP_PROTOCOL_V6;
    mret ((a : bool) || b || c || d).

Definition deinit_pcb (tcpip_if : mdns_if_t) (proto : mdns_ip_protocol_t) : E unit :=
  _ ← mdns_priv_if_deinit tcpip_if proto;
  pcb ← get_pcb tcpip_if proto;
  _ ← hop (mfree (array_blocks pcb));
  put_pcb tcpip_if proto (mk_pcb PCB_OFF None 0 false false 0).

Definition restart_pcb (tcpip_if : mdns_if_t) (proto : mdns_ip_protocol_t) : E unit :=
  srv ← gets e_server;
  mdns_priv_init_pcb_probe tcpip_if proto (map fst (mdns_priv_get_services srv)) true.

Definition mdns_priv_pcb_enable (tcpip_if : mdns_if_t) (proto : mdns_ip_protocol_t) : E unit :=
  ready ← gets (fun e => e_ready e tcpip_if proto);
  ok ← (if (ready : bool) then mret true else mdns_priv_if_init tcpip_if proto);
  if (ok : bool) then restart_pcb tcpip_if proto
  else
    pcb ← get_pcb tcpip_if proto;
    put_pcb tcpip_if proto (mk_pcb (state pcb) (probe_services pcb) (probe_services_len pcb)
                              (probe_ip pcb) (probe_running pcb) 0).

Definition mdns_priv_pcb_disable (tcpip_if : mdns_if_t) (proto : mdns_ip_protocol_t) : E unit :=
  _ ← mdns_priv_netif_disable tcpip_if;
  ready ← gets (fun e => e_ready e tcpip_if proto);
  _ ← (if (ready : bool) then
         _ ← mdns_priv_clear_tx_queue_if tcpip_if proto;
         _ ← deinit_pcb tcpip_if proto;
         other ← mdns_priv_netif_get_other_interface tcpip_if;
         if other =? MDNS_MAX_INTERFACES then mret tt
         else
           pcb ← get_pcb other proto;
           if decide (state pcb = PCB_DUP) then
             _ ← put_pcb other proto (pcb_set_state pcb PCB_OFF);
             mdns_priv_pcb_enable other proto
           else mret tt
       else mret tt);
  pcb ← get_pcb tcpip_if proto;
  put_pcb tcpip_if proto (pcb_set_state pcb PCB_OFF).

Definition mdns_priv_pcb_set_duplicate (tcpip_if : mdns_if_t) : E unit :=
  other ← mdns_priv_netif_get_other_interface tcpip_if;
  if other =? MDNS_MAX_INTERFACES then mret tt
  else for_each both_protocols (fun proto =>
    other_ready ← gets (fun e => e_ready e other proto);
    if (other_ready : bool) then
      ready ← gets (fun e => e_ready e tcpip_if proto);
      _ ← (if (ready : bool) then
             _ ← mdns_priv_clear_tx_queue_if tcpip_if proto; deinit_pcb tcpip_if proto
           else mret tt);
      pcb ← get_pcb tcpip_if proto;
      _ ← put_pcb tcpip_if proto (pcb_set_state pcb PCB_DUP);
      mdns_priv_pcb_announce other proto None true
    else mret tt).

Definition mdns_priv_pcb_is_off (tcpip_if : mdns_if_t) (proto : mdns_ip_protocol_t) : E bool :=
  pcb ← get_pcb tcpip_if proto; mret (bool_decide (state pcb = PCB_OFF)).

Definition set_unicast (q : mdns_out_question_t) (b : bool) : mdns_out_question_t :=
  mk_out_question (oq_type q) b (oq_host q) (oq_service q) (oq_proto q) (oq_domain q) (oq_subtype q)
    (oq_own_dynamic_memory q).

Definition mdns_priv_pcb_schedule_tx_packet (n : tx_node) : E unit :=
  let '(id, p) := n in
  let i := tx_if p in
  let proto := tx_ip_protocol p in
  pcb ← get_pcb i proto;
  srv ← gets e_server;
  let advance (n : tx_node) (ms : Z) (pcb : mdns_pcb_t) : E unit :=
    _ ← mdns_priv_send_after n ms;
    put_pcb i proto (pcb_set_state pcb (pcb_state_next (state pcb))) in
  match state pcb with
  | PCB_PROBE_1 =>
      advance (id, set_questions p (map (fun q => set_unicast q false) (tx_questions p))) 250%Z pcb
  | PCB_PROBE_2 => advance n 250%Z pcb
  | PCB_PROBE_3 =>
      a ← hop (mdns_priv_create_announce_from_probe cfg srv p);
      match a with
      | None => mdns_priv_send_after n 250
      | Some a =>
          _ ← hop (mfree (array_blocks pcb));
          let pcb := mk_pcb (state pcb) None 0 false false 0 in
          _ ← put_pcb i proto pcb;
          _ ← hop (mdns_priv_free_tx_packet p);
          _ ← link_new a [id] 250;
          put_pcb i proto (pcb_set_state pcb (pcb_state_next (state pcb)))
      end
  | PCB_ANNOUNCE_1 | PCB_ANNOUNCE_2 => advance n 1000%Z pcb
  | PCB_ANNOUNCE_3 =>
      _ ← put_pcb i proto (pcb_set_state pcb PCB_RUNNING); hop (mdns_priv_free_tx_packet p)
  | PCB_OFF | PCB_DUP | PCB_INIT | PCB_RUNNING => hop (mdns_priv_free_tx_packet p)
  end.

Definition handle_packet (n : tx_node) : E unit :=
  off ← mdns_priv_pcb_is_off (tx_if (snd n)) (tx_ip_protocol (snd n));
  if (off : bool) then hop (mdns_priv_free_tx_packet (snd n))
  else _ ← dispatch (snd n); mdns_priv_pcb_schedule_tx_packet n.

Definition send_packet (packet : positive) : E unit :=
  q ← gets e_queue;
  match q with
  | (id, p) :: rest =>
      if Pos.eqb id packet && tx_queued p then
        _ ← modify (fun e => set_queue e rest);
        handle_packet (id, set_queued p false)
      else mret tt
  | [] => mret tt
  end.

(** The service task takes an [ACTION_TX_HANDLE] from the action queue, runs
    [mdns_priv_send_action] and frees the action (mdns_service.c,
    [execute_action]). *)
Definition run_tx_action : E unit :=
  pending ← gets e_pending;
  match pending with
  | [] => mret tt
  | id :: rest =>
      _ ← modify (fun e => set_pending e rest);
      _ ← send_packet id;
      hop (mfree 1)
  end.

(** The array without the service. *)
Definition remove_probed (i : sid) (l : list sid) : list sid :=
  match list_find (fun j => j = i) l with
  | Some (k, _) => take k l ++ drop (S k) l
  | None => l
  end.

(** The items the search for a service looks at. *)
Fixpoint until (i : sid) (l : list sid) : list sid :=
  match l with
  | [] => []
  | j :: l => if Pos.eqb j i then [j] else j :: until i l
  end.

(** Whether to remove the questions. *)
Definition mdns_priv_pcb_check_probing_services (tcpip_if : mdns_if_t) (proto : mdns_ip_protocol_t)
    (service : sid) (removed_answers : bool) : E bool :=
  pcb ← get_pcb tcpip_if proto;
  let psl := Z.to_nat (probe_services_len pcb) in
  if PCB_STATE_IS_PROBING (state pcb) then
    l ← (match probe_services pcb with
         | Some l => if length l <? psl then bad else mret (take psl l)
         | None => if psl =? 0 then mret [] else bad
         end);
    srv ← gets e_server;
    _ ← hop (hlift (check_services srv (until service l)));
    if bool_decide (service ∈ l) then
      if (1 <? probe_services_len pcb)%Z then
        _ ← put_pcb tcpip_if proto
              (mk_pcb (state pcb) (Some (remove_probed service l)) (probe_services_len pcb - 1)
                 (probe_ip pcb) (probe_running pcb) (failed_probes pcb));
        mret true
      else
        _ ← hop (mfree (array_blocks pcb));
        _ ← put_pcb tcpip_if proto
              (if probe_ip pcb
               then mk_pcb (state pcb) None 0 true (probe_running pcb) (failed_probes pcb)
               else mk_pcb PCB_RUNNING None 0 false false (failed_probes pcb));
        mret true
    else mret false
  else if PCB_STATE_IS_ANNOUNCING (state pcb) then
    _ ← (if removed_answers then put_pcb tcpip_if proto (pcb_set_state pcb PCB_RUNNING) else mret tt);
    mret false
  else mret false.

Definition probe_question_for (srv : mdns_service_t) (q : mdns_out_question_t) : bool :=
  (oq_type q =? MDNS_TYPE_ANY)%Z && bool_decide (oq_service q = Some (srv_service srv))
  && bool_decide (oq_proto q = Some (srv_proto srv)).

Fixpoint remove_question (f : mdns_out_question_t -> bool) (l : list mdns_out_question_t)
    : bool * list mdns_out_question_t :=
  match l with
  | [] => (false, [])
  | q :: l => if f q then (true, l) else let '(b, l) := remove_question f l in (b, q :: l)
  end.

(** The loop of [mdns_priv_remove_scheduled_service_packets]: the packets that
    are left. *)
Fixpoint remove_service_packets (service : sid) (srv : mdns_service_t) (q : list tx_node)
    : E (list tx_node) :=
  match q with
  | [] => mret []
  | (id, p) :: rest =>
      let had_answers := negb (bool_decide (tx_answers p = [])) in
      answers ← hop (dealloc_scheduled_service_answers (tx_answers p) service);
      additional ← hop (dealloc_scheduled_service_answers (tx_additional p) service);
      servers ← hop (dealloc_scheduled_service_answers (tx_servers p) service);
      let p := set_section (set_section (set_section p Answers answers) Additional additional)
                 Servers servers in
      ready ← gets (fun e => e_ready e (tx_if p) (tx_ip_protocol p));
      p ← (if (ready : bool) then
             should_remove ← mdns_priv_pcb_check_probing_services (tx_if p) (tx_ip_protocol p) service
                               (had_answers && bool_decide (answers = []));
             if (should_remove : bool) then
               let '(removed, l) := remove_question (probe_question_for srv) (tx_questions p) in
               _ ← hop (mfree (if removed then 1 else 0));
               mret (set_questions p l)
             else mret p
           else mret p);
      let empty := bool_decide (tx_questions p = []) && bool_decide (tx_answers p = [])
                   && bool_decide (tx_additional p = []) && bool_decide (tx_servers p = []) in
      _ ← (if empty then hop (mdns_priv_free_tx_packet p) else mret tt);
      rest ← remove_service_packets service srv rest;
      mret (if empty then rest else (id, p) :: rest)
  end.

Definition mdns_priv_remove_scheduled_service_packets (service : sid) : E unit :=
  srv ← gets e_server;
  s ← hop (hlift (get_service srv service));
  q ← gets e_queue;
  q ← remove_service_packets service s q;
  modify (fun e => set_queue e q).

Definition mdns_priv_pcb_deinit : E unit :=
  for_each (seq 0 MDNS_MAX_INTERFACES) (fun i => for_each both_protocols (deinit_pcb i)).

Definition mdsn_priv_pcb_is_inited (tcpip_if : mdns_if_t) (proto : mdns_ip_protocol_t) : E bool :=
  ready ← gets (fun e => e_ready e tcpip_if proto);
  pcb ← get_pcb tcpip_if proto;
  mret ((ready : bool) && (pcb_state_num PCB_INIT <? pcb_state_num (state pcb))).

Definition mdns_priv_pcb_is_probing (tcpip_if : mdns_if_t) (proto : mdns_ip_protocol_t) : E bool :=
  pcb ← get_pcb tcpip_if proto; mret (probe_running pcb).

Definition mdns_priv_pcb_is_after_probing (tcpip_if : mdns_if_t) (proto : mdns_ip_protocol_t) : E bool :=
  pcb ← get_pcb tcpip_if proto; mret (pcb_state_num PCB_PROBE_3 <? pcb_state_num (state pcb)).

Definition mdns_priv_pcb_set_probe_failed (tcpip_if : mdns_if_t) (proto : mdns_ip_protocol_t) : E unit :=
  pcb ← get_pcb tcpip_if proto;
  put_pcb tcpip_if proto (mk_pcb (state pcb) (probe_services pcb) (probe_services_len pcb)
                            (probe_ip pcb) (probe_running pcb) (u16 (failed_probes pcb + 1))).

Definition mdns_priv_pcb_send_bye_service (services : option (list sid)) (include_ip : bool) : E unit :=
  srv ← gets e_server;
  if mdns_utils_str_null_or_empty (mdns_priv_get_global_hostname srv) then mret tt
  else
    for_each (seq 0 MDNS_MAX_INTERFACES) (fun i => for_each both_protocols (fun proto =>
      ready ← gets (fun e => e_ready e i proto);
      pcb ← get_pcb i proto;
      if (ready : bool) && bool_decide (state pcb = PCB_RUNNING) then
        p ← hop (mdns_priv_send_bye cfg srv i proto services include_ip);
        match p with Some p => dispatch p | None => mret tt end
      else mret tt)).

Definition mdns_priv_probe_all_pcbs (services : list sid) (ip clear_old_probe : bool) : E unit :=
  for_each (seq 0 MDNS_MAX_INTERFACES) (fun i => for_each both_protocols (fun proto =>
    ready ← gets (fun e => e_ready e i proto);
    if (ready : bool) then
      _ ← (if clear_old_probe then
             pcb ← get_pcb i proto;
             _ ← hop (mfree (array_blocks pcb));
             put_pcb i proto (mk_pcb (state pcb) None 0 (probe_ip pcb) false (failed_probes pcb))
           else mret tt);
      mdns_priv_init_pcb_probe i proto services ip
    else mret tt)).

End Pcb.
