(* ===== verification/EngineProofs.v ===== *)
(** Every operation on the transmit queue and the protocol control blocks keeps
    the invariant that ties the queue, the table of control blocks, the sockets
    and the heap together. *)
From S2P Require Import Prelude Names Server Encode EncodeSafe Heap Collision Answers AnswersProofs Engine.

(** Projections of an updated engine. *)
Ltac fields := cbn [e_server e_heap e_queue e_pcbs e_pending e_now e_ready e_duplicate e_netif
  e_inits e_accepts e_random e_sent set_heap set_queue set_pcbs set_pending set_now set_ready
  set_netif set_accepts set_random set_sent fst snd live] in *.

(** * Symbolic execution *)

Lemma e_bind {A B} (m : E A) (f : A -> E B) e P Q :
  yields (m e) P -> (forall a e', P (a, e') -> yields (f a e') Q) -> yields ((m ≫= f) e) Q.
Proof.
  intros Hm Hf. unfold mbind, E_bind. destruct (m e) as [[a e']| | |]; try done. by apply Hf.
Qed.

Lemma e_gets {A B} (g : engine -> A) (f : A -> E B) e Q :
  yields (f (g e) e) Q -> yields ((gets g ≫= f) e) Q.
Proof. done. Qed.

Lemma e_modify {B} (g : engine -> engine) (f : unit -> E B) e Q :
  yields (f tt (g e)) Q -> yields ((modify g ≫= f) e) Q.
Proof. done. Qed.

Lemma e_get_pcb {B} i proto (f : mdns_pcb_t -> E B) e p Q :
  e_pcbs e !! pcb_index i proto = Some p -> yields (f p e) Q -> yields ((get_pcb i proto ≫= f) e) Q.
Proof. intros Hp Hf. unfold mbind, E_bind, get_pcb. by rewrite Hp. Qed.

Lemma esp_random_spec e : yields (esp_random e) (fun '(_, e') => e' = set_random e (tail (e_random e))).
Proof. destruct e as [? ? ? ? ? ? ? ? ? ? ? [|] ?]; done. Qed.

(** A function that allocates changes the heap only. *)
Lemma hop_spec {A} (m : H A) P e : hspec m P ->
  yields (hop m e) (fun '(a, e') => exists h, e' = set_heap e h /\ P a (live h - live (e_heap e))%Z).
Proof.
  intros Hm. specialize (Hm (e_heap e)). unfold hop.
  destruct (m (e_heap e)) as [[a h]| | |]; try done. cbn in *. eauto.
Qed.

Lemma e_hop {A B} (m : H A) (f : A -> E B) e P Q : hspec m P ->
  (forall a h, P a (live h - live (e_heap e))%Z -> yields (f a (set_heap e h)) Q) ->
  yields ((hop m ≫= f) e) Q.
Proof.
  intros Hm Hf. eapply e_bind; [by apply hop_spec|]. intros a e' (h & -> & Hp). by apply Hf.
Qed.

(** And memory lasts if the function lets it. *)
Lemma e_hop_stays {A B} (m : H A) (f : A -> E B) e P Q : hspec m P -> stays m ->
  (forall a h, P a (live h - live (e_heap e))%Z -> (never_fails (e_heap e) -> never_fails h) -> yields (f a (set_heap e h)) Q) ->
  yields ((hop m ≫= f) e) Q.
Proof.
  intros Hm Hs Hf. eapply (e_bind _ _ _ (fun '(a, e') => exists h, e' = set_heap e h
    /\ P a (live h - live (e_heap e))%Z /\ (never_fails (e_heap e) -> never_fails h))).
  - specialize (Hm (e_heap e)). unfold hop. destruct (m (e_heap e)) as [[a h]| | |] eqn:E; try done. exists h.
    split_and!; [done|exact Hm|]. intros Hn. exact (Hs _ _ _ Hn E).
  - intros a e' (h & -> & HP & Hn). by apply Hf.
Qed.

Lemma e_hop_last (m : H unit) e P (Q : unit * engine -> Prop) : hspec m P ->
  (forall h, P tt (live h - live (e_heap e))%Z -> Q (tt, set_heap e h)) -> yields (hop m e) Q.
Proof.
  intros Hm Hf. eapply yields_mono; [by apply hop_spec|]. intros [[] e'] (h & -> & Hp). by apply Hf.
Qed.

(** * Sums of blocks *)

Definition pcbs_blocks (l : list mdns_pcb_t) : Z := foldr (fun p z => array_blocks p + z)%Z 0%Z l.

Lemma pcbs_blocks_insert l k old new : l !! k = Some old ->
  pcbs_blocks (<[k := new]> l) = (pcbs_blocks l - array_blocks old + array_blocks new)%Z.
Proof.
  revert k. induction l as [|p l IH]; intros k Hk; [done|]. destruct k as [|k].
  - injection Hk as ->. cbn. lia.
  - change (array_blocks p + pcbs_blocks (<[k := new]> l)
            = array_blocks p + pcbs_blocks l - array_blocks old + array_blocks new)%Z.
    rewrite (IH k Hk). lia.
Qed.

Lemma queue_blocks_app q q' : queue_blocks (q ++ q') = (queue_blocks q + queue_blocks q')%Z.
Proof. unfold queue_blocks. induction q as [|n q IH]; cbn [app foldr] in *; lia. Qed.

Lemma queue_blocks_filter f q :
  (queue_blocks (List.filter f q) + queue_blocks (List.filter (fun n => negb (f n)) q))%Z = queue_blocks q.
Proof.
  unfold queue_blocks. induction q as [|n q IH]; [done|]. cbn [List.filter]. destruct (f n); cbn [negb foldr] in *; lia.
Qed.

Lemma insert_node_perm n q : insert_node n q ≡ₚ n :: q.
Proof.
  induction q as [|m q IH]; cbn [insert_node]; [done|]. case_match; [done|].
  rewrite IH. apply Permutation_swap.
Qed.

Lemma queue_blocks_perm q q' : q ≡ₚ q' -> queue_blocks q = queue_blocks q'.
Proof. unfold queue_blocks. induction 1; cbn [foldr] in *; lia. Qed.

(** * The invariant *)

(** The services can be counted in eight bits, and their items are distinct. *)
Definition services_counted (s : mdns_server_t) : Prop :=
  length (s_services s) <= 255 /\ base.NoDup (map fst (s_services s)).

Section Invariant.
Context (cfg : config) (MDNS_MAX_INTERFACES : nat) (addr : list positive -> positive).
Context (s : mdns_server_t).
Hypothesis live_s : server_live s.
Hypothesis counted_s : services_counted s.
(** The allocator does not hand out an address in use. *)
Hypothesis addr_new : forall l, addr l ∉ l.

Definition is_probe_state (st : mdns_pcb_state_t) : Prop :=
  st = PCB_PROBE_1 \/ st = PCB_PROBE_2 \/ st = PCB_PROBE_3.

(** An array of services to probe. *)
Definition probe_list (l : list sid) : Prop := base.NoDup l /\ Forall (registered s) l.

(** A control block owns an array only while it probes on an open socket, and the
    array has the length the block says. *)
Definition pcb_ok (ready : bool) (p : mdns_pcb_t) : Prop :=
  match probe_services p with
  | Some l => probe_services_len p = Z.of_nat (length l) /\ l <> [] /\ probe_list l
              /\ is_probe_state (state p) /\ ready = true
  | None => probe_services_len p = 0%Z
  end.

Definition node_ok (n : tx_node) : Prop :=
  packet_wf s (snd n) /\ tx_if (snd n) < MDNS_MAX_INTERFACES.

(** The blocks the engine owns: packets, arrays and pending actions. *)
Definition owned (e : engine) : Z :=
  (queue_blocks (e_queue e) + pcbs_blocks (e_pcbs e) + Z.of_nat (length (e_pending e)))%Z.

Record env_ok (e : engine) : Prop := {
  env_server : e_server e = Some s;
  env_duplicate : forall i, i < MDNS_MAX_INTERFACES -> e_duplicate e i <= MDNS_MAX_INTERFACES;
}.

Definition queue_ok (e : engine) : Prop :=
  base.NoDup (map fst (e_queue e)) /\ Forall node_ok (e_queue e).

Definition pcbs_ok (e : engine) : Prop :=
  forall i proto, i < MDNS_MAX_INTERFACES ->
    exists p, e_pcbs e !! pcb_index i proto = Some p /\ pcb_ok (e_ready e i proto) p.

(** The invariant; [b] is the number of blocks that belong to others. *)
Definition inv (b : Z) (e : engine) : Prop :=
  env_ok e /\ queue_ok e /\ pcbs_ok e /\ live (e_heap e) = (b + owned e)%Z.

(** A state in which the part described by [env_ok] and the sockets are as in [e]. *)
Definition same_env (e e' : engine) : Prop :=
  e_server e' = e_server e /\ e_duplicate e' = e_duplicate e /\ e_ready e' = e_ready e
  /\ e_now e' = e_now e.

Lemma same_env_trans e e1 e2 : same_env e e1 -> same_env e1 e2 -> same_env e e2.
Proof. unfold same_env. intuition congruence. Qed.

Lemma pcb_index_inj i proto i' proto' : pcb_index i proto = pcb_index i' proto' -> i = i' /\ proto = proto'.
Proof. unfold pcb_index. destruct proto, proto'; cbn; intros; split; first [lia|done|exfalso; lia]. Qed.

(** One control block is replaced. *)
Lemma pcbs_ok_put e i proto p q : pcbs_ok e -> e_pcbs e !! pcb_index i proto = Some q ->
  pcb_ok (e_ready e i proto) p ->
  pcbs_ok (set_pcbs e (<[pcb_index i proto := p]> (e_pcbs e))).
Proof.
  intros He Hq Hp j pr Hj. cbn. destruct (decide (pcb_index j pr = pcb_index i proto)) as [E|Hne].
  - apply pcb_index_inj in E as [-> ->]. exists p. split; [|done].
    apply list_lookup_insert_eq. by eapply lookup_lt_Some.
  - rewrite list_lookup_insert_ne by done. by apply He.
Qed.

Lemma inv_put b e i proto p q : inv b e -> e_pcbs e !! pcb_index i proto = Some q ->
  pcb_ok (e_ready e i proto) p ->
  inv (b + array_blocks q - array_blocks p) (set_pcbs e (<[pcb_index i proto := p]> (e_pcbs e))).
Proof.
  intros (Henv & Hq & Hp & Hl) Hlk Hok. split; [by destruct Henv|]. split; [done|].
  split; [by eapply pcbs_ok_put|]. unfold owned in *. fields. rewrite (pcbs_blocks_insert _ _ q) by done.
  lia.
Qed.

(** Only the heap changed. *)
Lemma inv_heap b e h : inv b e -> inv (b + (live h - live (e_heap e))) (set_heap e h).
Proof.
  intros (Henv & Hq & Hp & Hl). split; [by destruct Henv|]. split; [done|]. split; [done|].
  unfold owned in *. fields. lia.
Qed.

Lemma inv_queue b e q : inv b e -> base.NoDup (map fst q) -> Forall node_ok q ->
  inv (b + queue_blocks (e_queue e) - queue_blocks q) (set_queue e q).
Proof.
  intros (Henv & Hq & Hp & Hl) Hn Hw. split; [by destruct Henv|]. split; [done|]. split; [done|].
  unfold owned in *. fields. lia.
Qed.

(** The rest of the environment does not matter. *)
Lemma inv_random b e r : inv b e -> inv b (set_random e r).
Proof. intros ([? ?] & ? & ? & ?). split; [by split|done]. Qed.

Lemma inv_sent b e l : inv b e -> inv b (set_sent e l).
Proof. intros ([? ?] & ? & ? & ?). split; [by split|done]. Qed.

Lemma inv_netif b e f : inv b e -> inv b (set_netif e f).
Proof. intros ([? ?] & ? & ? & ?). split; [by split|done]. Qed.

Lemma inv_now b e t : inv b e -> inv b (set_now e t).
Proof. intros ([? ?] & ? & ? & ?). split; [by split|done]. Qed.

Lemma inv_eq b b' e : inv b e -> b = b' -> inv b' e.
Proof. by intros ? <-. Qed.

Lemma inv_pcb b e i proto : inv b e -> i < MDNS_MAX_INTERFACES ->
  exists p, e_pcbs e !! pcb_index i proto = Some p /\ pcb_ok (e_ready e i proto) p.
Proof. intros (_ & _ & Hp & _). apply Hp. Qed.

(** * The transmit queue *)

(** The operation leaves sockets and control blocks alone. *)
Definition keeps {A} (b : Z) (e : engine) (r : A * engine) : Prop :=
  inv b (snd r) /\ same_env e (snd r) /\ e_pcbs (snd r) = e_pcbs e.

Lemma NoDup_ids_filter f (q : list tx_node) :
  base.NoDup (map fst q) -> base.NoDup (map fst (List.filter f q)).
Proof.
  induction q as [|n q IH]; [done|]. cbn [map List.filter]. intros [Hn Hq]%NoDup_cons.
  destruct (f n); [|auto]. cbn [map]. apply NoDup_cons. split; [|auto].
  intros Hin. apply Hn. apply list_elem_of_In, in_map_iff in Hin as (m & Hm & Hin).
  apply list_elem_of_In, in_map_iff. exists m. split; [done|]. by apply filter_In in Hin as [? _].
Qed.

Lemma Forall_filter_list {A} (P : A -> Prop) f l : Forall P l -> Forall P (List.filter f l).
Proof. rewrite !List.Forall_forall. intros HP x Hx. apply filter_In in Hx as [? _]. auto. Qed.

Lemma clear_tx_queue_if_ok b e i proto : inv b e ->
  yields (mdns_priv_clear_tx_queue_if i proto e) (fun r =>
    keeps b e r /\ Forall (fun n => on_pcb i proto n = false) (e_queue (snd r))).
Proof.
  intros He. unfold mdns_priv_clear_tx_queue_if. apply e_gets.
  eapply e_hop; [apply hspec_mfree|]. intros [] h Hh. cbn beta in Hh.
  split; [|apply List.Forall_forall; intros n Hn; apply filter_In in Hn as [_ Hn]; by apply negb_true_iff].
  split; [|done]. fields.
  pose proof He as (_ & [Hn Hw] & _).
  eapply inv_eq; [apply inv_queue; [by apply inv_heap| |]|].
  - by apply NoDup_ids_filter.
  - by apply Forall_filter_list.
  - fields. pose proof (queue_blocks_filter (on_pcb i proto) (e_queue e)). lia.
Qed.

Lemma clear_tx_queue_ok b e : inv b e -> yields (mdns_priv_clear_tx_queue e) (keeps b e).
Proof.
  intros He. unfold mdns_priv_clear_tx_queue. apply e_gets.
  eapply e_hop; [apply hspec_mfree|]. intros [] h Hh. cbn beta in Hh. split; [|done]. fields.
  eapply inv_eq; [apply inv_queue; [by apply inv_heap|constructor|constructor]|].
  fields. cbn [queue_blocks foldr]. lia.
Qed.

Lemma send_after_ok b e id p ms :
  inv (b + packet_blocks p) e -> node_ok (id, p) -> id ∉ map fst (e_queue e) ->
  yields (mdns_priv_send_after (id, p) ms e) (keeps b e).
Proof.
  intros He Hn Hid. split; [|done]. fields.
  pose proof He as (_ & [Hnd Hw] & _). pose proof (insert_node_perm) as Hperm.
  eapply inv_eq; [apply inv_queue; [exact He| |]|].
  - rewrite (fmap_Permutation fst _ _ (Hperm _ _)). by apply NoDup_cons.
  - rewrite Hperm. apply Forall_cons. split; [|done]. destruct Hn as [[[] Hd] Hi].
    split; [|done]. split; [by split|]. intros sec. specialize (Hd sec). by destruct sec.
  - rewrite (queue_blocks_perm _ _ (Hperm _ _)). unfold queue_blocks. cbn [foldr].
    change (packet_blocks (snd (id, set_send_at p (u32 (e_now e + ms))))) with (packet_blocks p). lia.
Qed.

Lemma link_new_ok b e p in_use ms : inv (b + packet_blocks p) e -> packet_wf s p ->
  tx_if p < MDNS_MAX_INTERFACES -> yields (link_new addr p in_use ms e) (keeps b e).
Proof using addr_new.
  intros He Hp Hi. unfold link_new. apply e_gets. apply send_after_ok; [done|done|].
  intros Hin. eapply (addr_new _). apply elem_of_app. right. exact Hin.
Qed.

(** * Probing *)

Lemma probe_state_is_probing st : is_probe_state st -> PCB_STATE_IS_PROBING st = true.
Proof. by intros [->|[->| ->]]. Qed.

Lemma probe_list_length l : probe_list l -> length l <= 255.
Proof using counted_s.
  intros [Hn Hr]. transitivity (length (s_services s)); [|apply counted_s].
  rewrite <- (length_map fst (s_services s)). apply submseteq_length, NoDup_submseteq; [done|].
  intros j Hj. rewrite List.Forall_forall in Hr. destruct (Hr j) as [x Hx]; [by apply list_elem_of_In|].
  apply list_elem_of_In, in_map_iff. exists (j, x). split; [done|]. by apply list_elem_of_In, assoc_In.
Qed.

(** The new services are not among those already probed. *)
Definition new_services (p : mdns_pcb_t) (services : list sid) : Prop :=
  probe_list services
  /\ match probe_services p with Some l => Forall (fun j => j ∉ l) services | None => True end.

Lemma extend_probe_array_ok b e ready p services :
  inv b e -> pcb_ok ready p -> new_services p services ->
  yields (extend_probe_array p services e) (fun '(r, e') =>
    exists h, e' = set_heap e h
    /\ match r with
       | None => inv b e'
       | Some None => services = [] /\ probe_services p = None /\ inv b e'
       | Some (Some l) => probe_list l /\ l <> [] /\ length l = services_final_len p services
           /\ inv (b + 1 - array_blocks p) e'
       end).
Proof.
  intros He Hp [Hs Hnew]. unfold extend_probe_array.
  assert (Hnone : probe_services p = None -> services_final_len p services = length services).
  { intros E. unfold pcb_ok in Hp. rewrite E in Hp. unfold services_final_len. rewrite Hp.
    destruct (PCB_STATE_IS_PROBING _); cbn; lia. }
  destruct (Nat.eqb_spec (services_final_len p services) 0) as [E0|E0].
  { exists (e_heap e). split; [by destruct e|]. unfold pcb_ok in Hp.
    destruct (probe_services p) as [l|] eqn:El.
    - destruct Hp as (Hlen & Hne & _ & Hst & _). unfold services_final_len in E0.
      rewrite probe_state_is_probing in E0 by done. destruct l; [done|]. cbn in Hlen. lia.
    - split; [|done]. rewrite (Hnone eq_refl) in E0. by destruct services. }
  eapply e_hop; [apply hspec_malloc|]. intros [] h Hh; cbn [negb] in *.
  2:{ exists h. split; [done|]. eapply inv_eq; [by apply inv_heap|]. lia. }
  unfold pcb_ok in Hp. destruct (probe_services p) as [old|] eqn:El.
  - destruct Hp as (Hlen & Hne & [Hn Hr] & Hst & _).
    assert (Hpsl : Z.to_nat (probe_services_len p) = length old) by lia.
    assert (Hfin : services_final_len p services = length services + length old).
    { unfold services_final_len. rewrite probe_state_is_probing by done. lia. }
    rewrite Hpsl, Hfin, !(proj2 (Nat.ltb_ge _ _)) by lia. cbn [orb].
    eapply e_hop; [apply hspec_mfree|]. intros [] h2 Hh2. exists h2. split; [done|].
    rewrite take_ge by done. split_and!.
    + destruct Hs as [Hsn Hsr]. split; [|by apply Forall_app]. apply NoDup_app. split; [done|].
      split; [|done]. intros j Hj. rewrite Forall_forall in Hnew. by apply Hnew.
    + destruct services, old; try done.
    + by rewrite length_app.
    + eapply inv_eq; [apply inv_heap, inv_heap, He|]. unfold array_blocks. rewrite El. fields. cbn [opt_block]. lia.
  - rewrite Hnone, Nat.ltb_irrefl by done. exists h. split; [done|]. split_and!; try done.
    + rewrite Hnone in E0 by done. by destruct services.
    + eapply inv_eq; [by apply inv_heap|]. unfold array_blocks. rewrite El. cbn [opt_block]. lia.
Qed.

(** The outcome of an operation on one control block: sockets, clock and server
    as before. *)
Definition ok_step {A} (b : Z) (e : engine) (r : A * engine) : Prop :=
  inv b (snd r) /\ same_env e (snd r).

Lemma init_probe_new_service_ok b e i proto p services ip :
  inv b e -> i < MDNS_MAX_INTERFACES -> e_ready e i proto = true ->
  e_pcbs e !! pcb_index i proto = Some p -> new_services p services ->
  yields (init_probe_new_service cfg addr i proto services ip e) (ok_step b e).
Proof using live_s counted_s addr_new.
  intros He Hi Hrd Hp Hnew. unfold init_probe_new_service.
  assert (Hok : pcb_ok (e_ready e i proto) p).
  { destruct (inv_pcb b e i proto He Hi) as (p' & Hp' & ?). congruence. }
  eapply e_get_pcb; [exact Hp|]. apply e_gets. rewrite (env_server _ (proj1 He)).
  eapply e_bind; [by apply (extend_probe_array_ok b e (e_ready e i proto))|].
  intros r e1 (h & -> & Hr). destruct r as [arr|]; [|by split].
  assert (Harr : inv (b + opt_block arr - array_blocks p) (set_heap e h)
    /\ services_live s arr
    /\ (forall q, state q = PCB_PROBE_1 -> probe_services q = arr ->
         probe_services_len q = u8 (Z.of_nat (services_final_len p services)) -> pcb_ok true q)).
  { destruct arr as [l|].
    - destruct Hr as (Hl & Hne & Hlen & Hi'). split; [done|]. split; [apply Hl|].
      intros q Hq1 Hq2 Hq3. unfold pcb_ok. rewrite Hq2, Hq3, <- Hlen.
      pose proof (probe_list_length l Hl). rewrite u8_small by lia. split_and!; try done. by left.
    - destruct Hr as (-> & Hnone & Hi'). split.
      + eapply inv_eq; [exact Hi'|]. unfold array_blocks. rewrite Hnone. cbn [opt_block]. lia.
      + split; [done|]. intros q Hq1 Hq2 Hq3. unfold pcb_ok. rewrite Hq2, Hq3.
        unfold services_final_len, pcb_ok in *. rewrite Hnone in Hok. rewrite Hok.
        by destruct (PCB_STATE_IS_PROBING _). }
  clear Hr. destruct Harr as (Hi1 & Hsl & Hq).
  apply e_modify. set (p0 := mk_pcb (state p) None 0 false false (failed_probes p)).
  pose proof (inv_put _ _ i proto p0 p Hi1 Hp eq_refl) as Hi2.
  eapply e_hop.
  { apply hspecn_any, (probe_packet_builds false cfg s live_s i proto arr true); exact Hsl. }
  intros [pkt|] h2 [Hb _]; cbn [builds] in Hb; fields.
  - destruct Hb as (Hn & Hwf & Hif & _).
    apply (inv_heap _ _ h2) in Hi2. fields. eapply e_bind.
    { apply esp_random_spec. }
    intros r e2 ->. fields. eapply e_bind.
    { apply (link_new_ok (b + opt_block arr)); [|done|lia]. eapply inv_eq; [by apply inv_random|].
      unfold array_blocks. cbn [opt_block p0 probe_services]. fields. lia. }
    intros [] e3 (Hi3 & Hs3 & Hp3). fields.
    assert (Hl3 : e_pcbs e3 !! pcb_index i proto = Some p0).
    { rewrite Hp3. fields. apply list_lookup_insert_eq. by eapply lookup_lt_Some. }
    destruct Hs3 as (A1 & A2 & A3 & A4). fields.
    split; [|by split_and!]. eapply inv_eq; [apply inv_put; [exact Hi3|exact Hl3|]|].
    + rewrite A3, Hrd. by apply Hq.
    + unfold array_blocks. cbn [opt_block p0 probe_services]. lia.
  - destruct Hb as (Hn & _). eapply e_hop_last; [apply hspec_mfree|]. intros h3 Hh3. fields.
    split; [|done]. fields. eapply inv_eq; [eapply (inv_heap _ _ h3), (inv_heap _ _ h2), Hi2|].
    unfold array_blocks. cbn [opt_block p0 probe_services]. fields. lia.
Qed.

Lemma init_pcb_probe_ok b e i proto services ip :
  inv b e -> i < MDNS_MAX_INTERFACES -> e_ready e i proto = true -> probe_list services ->
  yields (mdns_priv_init_pcb_probe cfg addr i proto services ip e) (ok_step b e).
Proof using live_s counted_s addr_new.
  intros He Hi Hrd Hs. unfold mdns_priv_init_pcb_probe.
  eapply e_bind; [by apply clear_tx_queue_if_ok|]. intros [] e1 [(He1 & Hsame & _) _]. fields.
  assert (Hrd1 : e_ready e1 i proto = true) by (destruct Hsame as (_ & _ & -> & _); done).
  assert (Hdone : forall services, yields (init_probe_new_service cfg addr i proto services ip e1)
    (ok_step b e1) -> yields (init_probe_new_service cfg addr i proto services ip e1) (ok_step b e)).
  { intros l Hl. eapply yields_mono; [exact Hl|]. intros r [? ?]. split; [done|].
    by eapply same_env_trans. }
  destruct (inv_pcb b e1 i proto He1 Hi) as (p & Hp & Hok).
  eapply e_get_pcb; [exact Hp|]. apply e_gets. rewrite (env_server _ (proj1 He1)).
  destruct live_s as [Hsv _]. destruct (server_hostname _ Hsv) as (g & Hg & Hne & _).
  cbn [mdns_priv_get_global_hostname mbind option_bind]. rewrite Hg.
  replace (mdns_utils_str_null_or_empty (Some g)) with false by (by destruct g).
  assert (Hsimple : probe_services p = None ->
    yields (init_probe_new_service cfg addr i proto services ip e1) (ok_step b e)).
  { intros Hnone. apply Hdone. eapply init_probe_new_service_ok; try done. split; [done|]. by rewrite Hnone. }
  unfold pcb_ok in Hok. destruct (probe_services p) as [old|] eqn:Eo.
  - destruct Hok as (Hlen & _ & _ & Hst & _). rewrite probe_state_is_probing by done.
    rewrite (proj2 (Nat.ltb_ge _ _)) by lia. apply Hdone.
    eapply init_probe_new_service_ok; try done. split.
    + destruct Hs as [Hn Hr]. split; [|by apply Forall_filter_list].
      rewrite <- (map_id (List.filter _ _)). clear -Hn. induction services as [|j l IH]; [done|].
      apply NoDup_cons in Hn as [Hj Hn]. cbn [List.filter]. case_match; [|auto].
      cbn [map]. apply NoDup_cons. split; [|auto]. rewrite map_id.
      intros Hin%list_elem_of_In%filter_In. apply Hj. apply list_elem_of_In. tauto.
    + rewrite Eo. apply List.Forall_forall. intros j Hj. apply filter_In in Hj as [_ Hj].
      apply negb_true_iff, bool_decide_eq_false in Hj. rewrite take_ge in Hj by lia. done.
  - specialize (Hsimple eq_refl). rewrite Hok. case_match; [|done]. by destruct services.
Qed.

(** ** Announcing *)

Lemma find_node i proto q n : List.find (on_pcb i proto) q = Some n -> n ∈ q.
Proof. intros [? _]%find_some. by apply list_elem_of_In. Qed.

Lemma ids_map (f : tx_node -> tx_node) q : (forall n, fst (f n) = fst n) -> map fst (map f q) = map fst q.
Proof. intros Hf. rewrite map_map. by apply map_ext. Qed.

Lemma update_ids id p (q : list tx_node) :
  map fst (map (fun n => if Pos.eqb (fst n) id then (id, p) else n) q) = map fst q.
Proof. apply ids_map. intros n. destruct (Pos.eqb_spec (fst n) id); done. Qed.

Lemma update_blocks id p old (q : list tx_node) : base.NoDup (map fst q) -> (id, old) ∈ q ->
  queue_blocks (map (fun n => if Pos.eqb (fst n) id then (id, p) else n) q)
  = (queue_blocks q - packet_blocks old + packet_blocks p)%Z.
Proof.
  induction q as [|[j x] q IH]; [by intros _ ?%not_elem_of_nil|]. cbn [map fst].
  intros [Hj Hn]%NoDup_cons Hin. unfold queue_blocks in *. cbn [foldr].
  destruct (Pos.eqb_spec j id) as [->|Hne].
  - apply elem_of_cons in Hin as [[= ->]|Hin].
    2:{ destruct Hj. apply list_elem_of_In, in_map_iff. exists (id, old). split; [done|by apply list_elem_of_In]. }
    replace (map _ q) with q; [cbn [snd]; lia|]. symmetry. rewrite <- (map_id q) at 2. apply map_ext_in.
    intros [k y] Hk. cbn [fst]. destruct (Pos.eqb_spec k id) as [->|]; [|done].
    destruct Hj. apply list_elem_of_In, in_map_iff. by exists (id, y).
  - apply elem_of_cons in Hin as [[= -> ->]|Hin]; [done|]. specialize (IH Hn Hin). cbn [snd]. lia.
Qed.

Lemma remove_first_sublist f l : sublist (remove_first f l) l.
Proof. induction l as [|x l IH]; cbn [remove_first]; [done|]. destruct (f x); by constructor. Qed.

(** A packet with fewer answers in a section is still well formed. *)
Lemma section_sublist_wf p sec l : packet_wf s p -> sublist l (get_section p sec) ->
  packet_wf s (set_section p sec l).
Proof.
  intros [[] Hd] Hl. assert (Hin : forall a, a ∈ l -> a ∈ get_section p sec).
  { intros a Ha. by eapply sublist_subseteq. }
  split.
  - destruct sec; split; cbn in *; try done; apply Forall_forall; intros a Ha;
      specialize (Hin a Ha); rewrite Forall_forall in *; auto.
  - intros sec'. rewrite get_set_section. case_decide as D; [|done]. subst sec'. destruct (Hd sec) as [Hn Hs].
    split; [|apply Forall_forall; intros a Ha; rewrite Forall_forall in Hs; auto].
    unfold distinct in *. eapply sublist_NoDup; [exact Hn|]. by apply (fmap_sublist answer_key).
Qed.

Lemma dealloc_answer_spec l t sv :
  hspec (mdns_priv_dealloc_answer l t sv) (fun l' n =>
    sublist l' l /\ n = (Z.of_nat (length l') - Z.of_nat (length l))%Z).
Proof.
  unfold mdns_priv_dealloc_answer. set (f := fun a : mdns_out_answer_t => _ && _).
  pose proof (remove_first_sublist f l) as Hs. pose proof (sublist_length _ _ Hs).
  eapply hspec_bind; [apply hspec_mfree|]. intros [] n ->. apply hspec_ret. split; [done|]. lia.
Qed.

Lemma all_announce_requests l : Forall (registered s) l ->
  Forall (request_live s) (flat_map (fun i => announce_requests (Some i)) l).
Proof.
  intros Hl. apply List.Forall_forall. intros r [j [Hj Hr]]%in_flat_map.
  rewrite List.Forall_forall in Hl. pose proof (announce_requests_live s j (Hl _ Hj)) as Hlive.
  rewrite List.Forall_forall in Hlive. auto.
Qed.

Lemma extend_announcement_spec p services include_ip : packet_wf s p -> services_live s services ->
  hspec (extend_announcement (Some s) p services include_ip) (fun p' n =>
    packet_wf s p' /\ tx_if p' = tx_if p /\ n = (packet_blocks p' - packet_blocks p)%Z).
Proof using live_s.
  intros Hp Hl. unfold extend_announcement. set (l := match services with Some l => l | None => [] end).
  assert (Hreg : Forall (registered s) l) by (unfold l; destruct services; [done|constructor]).
  apply hspecn_any. eapply hn_lookup; [by apply check_services_live|]. intros _ _.
  eapply hn_bind; [apply (request_all_ok false s); [done|by apply all_announce_requests]|].
  intros [ok p1] n (-> & Hp1 & (Hi1 & _) & _). destruct include_ip.
  2:{ apply hn_ret. split_and!; try done. lia. }
  assert (Hde : forall l t, hspecn false (mdns_priv_dealloc_answer l t None) (fun l' n =>
    sublist l' l /\ n = (Z.of_nat (length l') - Z.of_nat (length l))%Z)).
  { intros l' t h _. eapply yields_mono; [apply dealloc_answer_spec|]. by intros [a h'] ?. }
  eapply hn_bind; [apply Hde|]. intros a1 n [Ha1 ->].
  eapply hn_bind; [apply Hde|]. intros a2 n [Ha2 ->].
  eapply hn_bind; [apply append_host_list_in_services_ok; [done| |exact Hl]|].
  { apply section_sublist_wf; [done|]. by transitivity a1. }
  intros [ok2 p2] n (-> & Hp2 & (Hi2 & _) & _). apply hn_ret. split; [done|]. split.
  - rewrite Hi2, <- Hi1. done.
  - rewrite (packet_blocks_section p1 Additional a2). cbn [get_section]. lia.
Qed.

Lemma pcb_state_put b e i proto p st : inv b e -> e_pcbs e !! pcb_index i proto = Some p ->
  i < MDNS_MAX_INTERFACES -> probe_services p = None \/ is_probe_state st ->
  inv b (set_pcbs e (<[pcb_index i proto := pcb_set_state p st]> (e_pcbs e))).
Proof.
  intros He Hp Hi Hst. destruct (inv_pcb b e i proto He Hi) as (p' & Hp' & Hok).
  assert (p' = p) as -> by congruence. eapply inv_eq; [eapply (inv_put b e i proto _ p He Hp)|].
  - unfold pcb_ok in *. cbn. destruct (probe_services p); [|done]. destruct Hst; [done|].
    destruct Hok as (? & ? & ? & ? & ?). by split_and!.
  - unfold array_blocks. cbn. lia.
Qed.

Lemma announce_ok b e i proto services include_ip :
  inv b e -> i < MDNS_MAX_INTERFACES -> services_live s services ->
  match services with Some l => base.NoDup l | None => True end ->
  yields (mdns_priv_pcb_announce cfg addr i proto services include_ip e) (ok_step b e).
Proof using live_s counted_s addr_new.
  intros He Hi Hl Hnd. unfold mdns_priv_pcb_announce. apply e_gets.
  set (l := match services with Some l => l | None => [] end).
  assert (Hlist : probe_list l).
  { unfold l. destruct services; [by split|]. split; constructor. }
  destruct (e_ready e i proto) eqn:Hrd; [|by split].
  destruct (inv_pcb b e i proto He Hi) as (p & Hp & Hok).
  eapply e_get_pcb; [exact Hp|]. apply e_gets. rewrite (env_server _ (proj1 He)).
  destruct (PCB_STATE_IS_PROBING (state p)) eqn:Epr; [by apply init_pcb_probe_ok|].
  assert (Hnone : probe_services p = None).
  { unfold pcb_ok in Hok. destruct (probe_services p); [|done]. destruct Hok as (_ & _ & _ & Hst & _).
    by rewrite probe_state_is_probing in Epr. }
  destruct (PCB_STATE_IS_ANNOUNCING (state p)).
  { unfold mdns_priv_get_next_packet. apply e_gets. cbn beta.
    destruct (List.find (on_pcb i proto) (e_queue e)) as [[id pkt]|] eqn:Ef; [|by split].
    apply find_node in Ef. pose proof He as (_ & [Hids Hw] & _).
    assert (node_ok (id, pkt)) as [Hwf Hif] by (rewrite Forall_forall in Hw; auto).
    eapply e_hop; [by apply extend_announcement_spec|]. intros p' h (Hwf' & Hif' & Hn). apply e_modify.
    fields. split; [|done]. fields.
    pose proof (inv_heap _ _ h He) as He1.
    match goal with |- context [set_queue (set_heap e h) ?x] => set (q' := x) end.
    eapply inv_eq; [eapply (pcb_state_put _ (set_queue (set_heap e h) q') i proto p PCB_ANNOUNCE_1);
      [apply (inv_queue _ _ q' He1)| | |]|]; try done; unfold q'.
    + by rewrite update_ids.
    + apply List.Forall_forall. intros n (m & <- & Hm)%in_map_iff. apply list_elem_of_In in Hm.
      destruct (Pos.eqb (fst m) id); [split; [exact Hwf'|cbn [snd]; lia]|].
      rewrite Forall_forall in Hw. auto.
    + by left.
    + fields. rewrite (update_blocks id p' pkt) by done. lia. }
  destruct (decide (state p = PCB_RUNNING)); [|by split].
  destruct live_s as [Hsv _]. destruct (server_hostname _ Hsv) as (g & Hg & Hne & _).
  cbn [mdns_priv_get_global_hostname mbind option_bind]. rewrite Hg.
  replace (mdns_utils_str_null_or_empty (Some g)) with false by (by destruct g).
  apply e_modify. eapply e_hop.
  { apply hspecn_any, (announce_packet_builds false cfg s live_s i proto services include_ip Hl).
    destruct services; [|done]. by apply probe_list_length. }
  intros [pkt|] h Hb; cbn [builds] in Hb; fields.
  - destruct Hb as (Hn & Hwf & Hif & _).
    assert (He1 : inv b (set_pcbs e (<[pcb_index i proto := pcb_set_state p PCB_ANNOUNCE_1]> (e_pcbs e)))).
    { apply pcb_state_put; auto. }
    eapply yields_mono; [apply (link_new_ok b)|]; [|done|lia|].
    + eapply inv_eq; [eapply (inv_heap _ _ h), He1|]. fields. lia.
    + intros r Hr. split; [apply Hr|]. destruct Hr as (_ & Hs & _). exact Hs.
  - destruct Hb as (Hn & _). split; [|done]. fields.
    eapply inv_eq; [eapply (inv_heap _ _ h), pcb_state_put; eauto|]. fields. lia.
Qed.

(** ** Opening and closing *)

(** The operation keeps the invariant. *)
Definition keeps_inv {A} (b : Z) (r : A * engine) : Prop := inv b (snd r).

Definition ready_elsewhere (i : mdns_if_t) (proto : mdns_ip_protocol_t) (e e' : engine) : Prop :=
  forall j pr, ~ (j = i /\ pr = proto) -> e_ready e' j pr = e_ready e j pr.

Lemma inv_if_init b e i proto : inv b e ->
  yields (mdns_priv_if_init i proto e) (fun '(ok, e') =>
    inv b e' /\ (ok = true -> e_ready e' i proto = true) /\ ready_elsewhere i proto e e').
Proof.
  intros He. unfold mdns_priv_if_init. destruct (e_ready e i proto); [by split_and!|].
  destruct He as (Henv & Hq & Hp & Hl).
  destruct (next_bool (e_inits e)) as [ok rest]. cbn [yields]. split_and!.
  - split; [by destruct Henv|]. split; [done|]. split; [|done]. intros j pr Hj.
    destruct (Hp j pr Hj) as (p & Hlk & Hok). exists p. split; [done|]. fields. destruct ok; [|done].
    case_bool_decide; [|done]. unfold pcb_ok in *. destruct (probe_services p); [|done].
    destruct Hok as (? & ? & ? & ? & ?). by split_and!.
  - intros ->. fields. by rewrite bool_decide_true.
  - intros j pr Hne. fields. destruct ok; [|done]. by rewrite bool_decide_false.
Qed.

Lemma deinit_pcb_ok b e i proto : inv b e -> i < MDNS_MAX_INTERFACES ->
  yields (deinit_pcb i proto e) (fun '(_, e') => inv b e' /\ e_ready e' i proto = false
    /\ exists p, e_pcbs e' !! pcb_index i proto = Some p /\ state p = PCB_OFF
       /\ probe_services p = None).
Proof.
  intros He Hi. destruct (inv_pcb b e i proto He Hi) as (p & Hp & Hok).
  unfold deinit_pcb. apply e_modify. eapply e_get_pcb; [exact Hp|].
  eapply e_hop; [apply hspec_mfree|]. intros [] h Hh. fields.
  destruct He as (Henv & Hq & Hpcb & Hl). set (p0 := mk_pcb PCB_OFF None 0 false false 0).
  assert (Hlt : pcb_index i proto < length (e_pcbs e)) by (by eapply lookup_lt_Some).
  cbn [yields put_pcb modify]. fields. split_and!.
  - split; [by destruct Henv|]. split; [done|]. split.
    + intros j pr Hj. fields. destruct (decide (pcb_index j pr = pcb_index i proto)) as [E|Hne].
      * rewrite E. exists p0. split; [by apply list_lookup_insert_eq|done].
      * rewrite list_lookup_insert_ne by done. destruct (Hpcb j pr Hj) as (q & Hlk & Hq').
        exists q. split; [done|]. rewrite bool_decide_false; [done|]. by intros [-> ->].
    + unfold owned in *. fields. rewrite (pcbs_blocks_insert _ _ p) by done.
      unfold array_blocks in *. cbn [p0 probe_services opt_block]. lia.
  - by rewrite bool_decide_true.
  - exists p0. split; [by apply list_lookup_insert_eq|done].
Qed.

Lemma all_services_probe_list : probe_list (map fst (s_services s)).
Proof using counted_s.
  split; [apply counted_s|]. apply List.Forall_forall. intros j (x & <- & Hx)%in_map_iff.
  pose proof (services_registered s) as Hr. rewrite List.Forall_forall in Hr. by apply Hr.
Qed.

Lemma enable_ok b e i proto : inv b e -> i < MDNS_MAX_INTERFACES ->
  yields (mdns_priv_pcb_enable cfg addr i proto e) (fun '(_, e') =>
    inv b e' /\ ready_elsewhere i proto e e').
Proof using live_s counted_s addr_new.
  intros He Hi. unfold mdns_priv_pcb_enable. apply e_gets. eapply e_bind.
  { instantiate (1 := fun '(ok, e') => inv b e' /\ (ok = true -> e_ready e' i proto = true)
      /\ ready_elsewhere i proto e e').
    destruct (e_ready e i proto) eqn:Hrd; [by split_and!|by apply inv_if_init]. }
  intros [] e1 (He1 & Hrd & Hel).
  - unfold restart_pcb. apply e_gets. rewrite (env_server _ (proj1 He1)).
    eapply yields_mono; [apply (init_pcb_probe_ok b); auto; apply all_services_probe_list|].
    intros [[] e2] [? (_ & _ & Hrd2 & _)]. split; [done|]. intros j pr Hne. fields. rewrite Hrd2. auto.
  - destruct (inv_pcb b e1 i proto He1 Hi) as (p & Hp & Hok). eapply e_get_pcb; [exact Hp|].
    split; [|exact Hel]. eapply inv_eq; [eapply (inv_put b e1 i proto _ p He1 Hp)|].
    + done.
    + unfold array_blocks. cbn. lia.
Qed.

Lemma put_off_ok b e i proto st : inv b e -> i < MDNS_MAX_INTERFACES ->
  (forall p, e_pcbs e !! pcb_index i proto = Some p -> probe_services p = None) ->
  yields ((get_pcb i proto ≫= fun p => put_pcb i proto (pcb_set_state p st)) e) (keeps_inv b).
Proof.
  intros He Hi Hnone. destruct (inv_pcb b e i proto He Hi) as (p & Hp & _).
  eapply e_get_pcb; [exact Hp|]. apply pcb_state_put; auto.
Qed.

Lemma not_ready_none b e i proto p : inv b e -> i < MDNS_MAX_INTERFACES -> e_ready e i proto = false ->
  e_pcbs e !! pcb_index i proto = Some p -> probe_services p = None.
Proof.
  intros He Hi Hr Hp. destruct (inv_pcb b e i proto He Hi) as (p' & Hp' & Hok).
  assert (p' = p) as -> by congruence. unfold pcb_ok in Hok. destruct (probe_services p); [|done].
  destruct Hok as (_ & _ & _ & _ & ?). congruence.
Qed.

Lemma other_if_ok b e i : inv b e ->
  yields (mdns_priv_netif_get_other_interface MDNS_MAX_INTERFACES i e) (fun '(o, e') => e' = e /\ o <= MDNS_MAX_INTERFACES).
Proof.
  intros He. unfold mdns_priv_netif_get_other_interface, gets. cbn [yields]. split; [done|]. destruct (Nat.ltb_spec i MDNS_MAX_INTERFACES); [|lia].
  by apply (env_duplicate _ (proj1 He)).
Qed.

Lemma disable_ok b e i proto : inv b e -> i < MDNS_MAX_INTERFACES ->
  yields (mdns_priv_pcb_disable cfg MDNS_MAX_INTERFACES addr i proto e) (keeps_inv b).
Proof using live_s counted_s addr_new.
  intros He Hi. unfold mdns_priv_pcb_disable. apply e_modify. apply e_gets. fields.
  eapply (inv_netif b e _) in He. eapply e_bind.
  { instantiate (1 := fun '(_, e') => inv b e' /\ e_ready e' i proto = false).
    destruct (e_ready e i proto) eqn:Hrd; [|split; [exact He|exact Hrd]].
    eapply e_bind; [apply (clear_tx_queue_if_ok b); exact He|]. intros [] e1 [(He1 & _) _]. fields.
    eapply e_bind; [by apply (deinit_pcb_ok b)|]. intros [] e2 (He2 & Hr2 & p2 & Hp2 & Hst2 & Hnone).
    eapply e_bind; [by apply (other_if_ok b)|]. intros o e3 [-> Ho].
    destruct (Nat.eqb_spec o MDNS_MAX_INTERFACES); [by split|]. assert (Ho' : o < MDNS_MAX_INTERFACES) by lia.
    destruct (inv_pcb b e2 o proto He2 Ho') as (q & Hq & Hok). eapply e_get_pcb; [exact Hq|].
    destruct (decide (state q = PCB_DUP)) as [Ed|]; [|by split].
    apply e_modify. eapply yields_mono; [apply (enable_ok b); [|done]|].
    { apply pcb_state_put; try done. left. unfold pcb_ok in Hok. destruct (probe_services q); [|done].
      destruct Hok as (_ & _ & _ & [?|[?|?]] & _); congruence. }
    intros [[] e4] [He4 Hel]. split; [done|]. fields. rewrite Hel; [done|].
    intros [<- _]. congruence. }
  intros [] e1 [He1 Hr1]. apply put_off_ok; [done|done|]. intros p Hp. by eapply not_ready_none.
Qed.

Lemma for_each_ok {A} (l : list A) (f : A -> E unit) (P : engine -> Prop) e :
  P e -> (forall x e, In x l -> P e -> yields (f x e) (fun r => P (snd r))) ->
  yields (for_each l f e) (fun r => P (snd r)).
Proof.
  revert e. induction l as [|x l IH]; intros e He Hf; cbn [for_each]; [done|].
  eapply e_bind; [apply Hf; [by left|done]|]. intros [] e1 He1. apply IH; [done|].
  intros y e2 Hy. apply Hf. by right.
Qed.

Lemma set_duplicate_ok b e i : inv b e -> i < MDNS_MAX_INTERFACES ->
  yields (mdns_priv_pcb_set_duplicate cfg MDNS_MAX_INTERFACES addr i e) (keeps_inv b).
Proof using live_s counted_s addr_new.
  intros He Hi. unfold mdns_priv_pcb_set_duplicate.
  eapply e_bind; [by apply (other_if_ok b)|]. intros o e0 [-> Ho].
  destruct (Nat.eqb_spec o MDNS_MAX_INTERFACES); [exact He|].
  assert (Ho' : o < MDNS_MAX_INTERFACES) by lia. apply (for_each_ok _ _ (inv b)); [done|]. clear e He. intros proto e _ He. apply e_gets.
  destruct (e_ready e o proto); [|done]. apply e_gets. eapply e_bind.
  { instantiate (1 := fun '(_, e') => inv b e' /\ e_ready e' i proto = false).
    destruct (e_ready e i proto) eqn:Hrd; [|by split].
    eapply e_bind; [by apply (clear_tx_queue_if_ok b)|]. intros [] e1 [(He1 & _) _]. fields.
    eapply yields_mono; [by apply (deinit_pcb_ok b)|]. by intros [[] e2] (? & ? & _). }
  intros [] e1 [He1 Hr1]. destruct (inv_pcb b e1 i proto He1 Hi) as (p & Hp & _).
  eapply e_get_pcb; [exact Hp|]. apply e_modify.
  eapply yields_mono; [apply (announce_ok b); try done|by intros r [? _]].
  apply pcb_state_put; try done. left. exact (not_ready_none b e1 i proto p He1 Hi Hr1 Hp).
Qed.

Lemma pcb_deinit_ok b e : inv b e -> yields (mdns_priv_pcb_deinit MDNS_MAX_INTERFACES e) (keeps_inv b).
Proof.
  intros He. apply (for_each_ok _ _ (inv b)); [done|]. clear e He. intros i e Hi He.
  apply in_seq in Hi. apply (for_each_ok _ _ (inv b)); [done|]. clear e He. intros proto e _ He.
  eapply yields_mono; [apply (deinit_pcb_ok b); [done|lia]|]. by intros [[] e1] [? _].
Qed.

Lemma probe_all_ok b e services ip clear_old : inv b e -> probe_list services ->
  yields (mdns_priv_probe_all_pcbs cfg MDNS_MAX_INTERFACES addr services ip clear_old e) (keeps_inv b).
Proof using live_s counted_s addr_new.
  intros He Hs. apply (for_each_ok _ _ (inv b)); [done|]. clear e He. intros i e Hi He.
  apply in_seq in Hi. assert (Hi' : i < MDNS_MAX_INTERFACES) by lia.
  apply (for_each_ok _ _ (inv b)); [done|]. clear e He. intros proto e _ He.
  apply e_gets. destruct (e_ready e i proto) eqn:Hrd; [|done]. eapply e_bind.
  { instantiate (1 := fun '(_, e') => inv b e' /\ e_ready e' i proto = true).
    destruct clear_old; [|by split]. destruct (inv_pcb b e i proto He Hi') as (p & Hp & Hok).
    eapply e_get_pcb; [exact Hp|]. eapply e_hop; [apply hspec_mfree|]. intros [] h Hh.
    split; [|done]. eapply inv_eq; [eapply (inv_put _ (set_heap e h) i proto _ p)|].
    - by apply inv_heap.
    - done.
    - done.
    - unfold array_blocks in *. cbn [probe_services opt_block]. lia. }
  intros [] e1 [He1 Hr1]. eapply yields_mono; [by apply (init_pcb_probe_ok b)|]. by intros r [? _].
Qed.

(** ** Sending *)

Lemma map_unicast_wf p : packet_wf s p ->
  packet_wf s (set_questions p (map (fun q => set_unicast q false) (tx_questions p))).
Proof.
  intros Hp. apply set_questions_wf; [done|]. apply Forall_map.
  eapply Forall_impl; [apply (tx_questions_ok _ _ (proj1 Hp))|]. by intros q Hq.
Qed.

Lemma map_unicast_blocks p :
  packet_blocks (set_questions p (map (fun q => set_unicast q false) (tx_questions p))) = packet_blocks p.
Proof.
  rewrite blocks_questions. replace (out_questions_blocks (map _ (tx_questions p)))
    with (out_questions_blocks (tx_questions p)); [lia|].
  unfold out_questions_blocks. induction (tx_questions p) as [|q l IH]; [done|].
  cbn [map foldr] in *. rewrite IH. done.
Qed.

(** Which control blocks are off. *)
Definition off_at (e : engine) (k : nat) : bool :=
  match e_pcbs e !! k with Some p => bool_decide (state p = PCB_OFF) | None => false end.

(** The effect of a packet that is handled: the clock, the actions and which
    control blocks are off stay as they are, and the queue is as it was or has
    one more packet, to be sent a quarter of a second or a second from now. *)
Definition requeued (e e' : engine) : Prop :=
  e_queue e' = e_queue e
  \/ exists n ms, e_queue e' = insert_node n (e_queue e) /\ tx_queued (snd n) = false
       /\ tx_send_at (snd n) = u32 (e_now e + ms) /\ (ms = 250 \/ ms = 1000)%Z.

Definition effect (e e' : engine) : Prop :=
  e_now e' = e_now e /\ e_pending e' = e_pending e /\ e_sent e' = e_sent e
  /\ (forall k, off_at e' k = off_at e k) /\ requeued e e'.

Definition does {A} (b : Z) (e : engine) (r : A * engine) : Prop :=
  keeps_inv b r /\ effect e (snd r).

Lemma effect_refl e : effect e e.
Proof. repeat split. by left. Qed.

(** A change of the heap in front. *)
Lemma effect_heap e h e' : effect (set_heap e h) e' -> effect e e'.
Proof. done. Qed.

Lemma off_insert l k p q j : l !! k = Some q -> bool_decide (state p = PCB_OFF) = bool_decide (state q = PCB_OFF) ->
  match (<[k := p]> l : list mdns_pcb_t) !! j with Some p => bool_decide (state p = PCB_OFF) | None => false end
  = match l !! j with Some p => bool_decide (state p = PCB_OFF) | None => false end.
Proof.
  intros Hq Hs. destruct (decide (j = k)) as [->|Hne]; [|by rewrite list_lookup_insert_ne].
  rewrite Hq, list_lookup_insert_eq by (by eapply lookup_lt_Some). exact Hs.
Qed.

Lemma free_does b e p : inv (b + packet_blocks p) e -> yields (hop (mdns_priv_free_tx_packet p) e) (does b e).
Proof.
  intros He. eapply e_hop_last; [apply hspec_mfree|]. intros h Hh. cbn beta in Hh. split.
  - eapply inv_eq; [by apply inv_heap|]. lia.
  - exact (effect_heap e h _ (effect_refl _)).
Qed.

(** The packet goes back into the queue and the control block moves on. *)
Lemma advance_ok b e i proto pcb id p ms st : inv (b + packet_blocks p) e ->
  i < MDNS_MAX_INTERFACES -> e_pcbs e !! pcb_index i proto = Some pcb ->
  probe_services pcb = None \/ is_probe_state st -> state pcb <> PCB_OFF -> st <> PCB_OFF ->
  node_ok (id, p) -> id ∉ map fst (e_queue e) -> tx_queued p = false -> (ms = 250 \/ ms = 1000)%Z ->
  yields ((mdns_priv_send_after (id, p) ms ≫= fun _ => put_pcb i proto (pcb_set_state pcb st)) e)
    (does b e).
Proof.
  intros He Hi Hp Hst Ho1 Ho2 Hn Hid Hqd Hms. split.
  - apply pcb_state_put; try done. by apply (send_after_ok b e id p ms).
  - fields. repeat split.
    + intros k. unfold off_at. fields. apply (off_insert _ _ _ pcb); [done|].
      by rewrite !bool_decide_false.
    + right. fields. eexists _, ms. split; [reflexivity|]. done.
Qed.

Lemma schedule_ok b e id p : inv (b + packet_blocks p) e -> node_ok (id, p) ->
  id ∉ map fst (e_queue e) -> tx_queued p = false ->
  yields (mdns_priv_pcb_schedule_tx_packet cfg addr (id, p) e) (does b e).
Proof using live_s addr_new.
  intros He Hn Hid Hqd. pose proof Hn as [Hwf Hif]. fields. unfold mdns_priv_pcb_schedule_tx_packet.
  destruct (inv_pcb _ e (tx_if p) (tx_ip_protocol p) He Hif) as (pcb & Hp & Hok).
  eapply e_get_pcb; [exact Hp|]. apply e_gets. rewrite (env_server _ (proj1 He)). cbn zeta.
  assert (Hnone : ~ is_probe_state (state pcb) -> probe_services pcb = None).
  { intros Hst. unfold pcb_ok in Hok. destruct (probe_services pcb); [|done]. by destruct Hok as (_ & _ & _ & ? & _). }
  destruct (state pcb) eqn:Est; try (by apply free_does).
  - eapply advance_ok; try done; auto; try congruence.
    + by rewrite map_unicast_blocks.
    + right. by right; left.
    + split; [by apply map_unicast_wf|done].
  - eapply advance_ok; try done; auto; try congruence. right. by right; right.
  - eapply e_hop; [apply hspecn_any, (announce_from_probe_builds false cfg s live_s p Hwf)|].
    intros [a|] h [Hb _]; cbn [builds] in Hb.
    + destruct Hb as (Hb & Hwa & Hia & _ & Hqa). eapply e_hop; [apply hspec_mfree|]. intros [] h2 Hh2.
      apply e_modify. eapply e_hop; [apply hspec_mfree|]. intros [] h3 Hh3. fields.
      set (pcb0 := mk_pcb PCB_PROBE_3 None 0 false false 0).
      pose proof (inv_heap _ _ h3 (inv_heap _ _ h2 (inv_heap _ _ h He))) as He1.
      pose proof (inv_put _ _ (tx_if p) (tx_ip_protocol p) pcb0 pcb He1 Hp eq_refl) as He2. fields.
      assert (Hbal : (b + packet_blocks p + (live h - live (e_heap e)) + (live h2 - live h)
        + (live h3 - live h2) + array_blocks pcb - array_blocks pcb0 = b + packet_blocks a)%Z).
      { change (array_blocks pcb0) with 0%Z. lia. }
      apply (inv_eq _ _ _ ltac:(exact He2)) in Hbal.
      set (e1 := set_pcbs (set_heap (set_heap (set_heap e h) h2) h3) _) in Hbal.
      assert (Hlk : e_pcbs e1 !! pcb_index (tx_if p) (tx_ip_protocol p) = Some pcb0).
      { apply list_lookup_insert_eq. by eapply lookup_lt_Some. }
      assert (Hdo : forall id', id' ∉ map fst (e_queue e) ->
        yields ((mdns_priv_send_after (id', a) 250 ≫= fun _ => put_pcb (tx_if p) (tx_ip_protocol p)
          (pcb_set_state pcb0 (pcb_state_next PCB_PROBE_3))) e1) (does b e1)).
      { intros id' Hid'. eapply advance_ok; try done; auto. split; [done|]. cbn [snd]. lia. }
      assert (Hnew : addr ([id] ++ map fst (e_queue e)) ∉ map fst (e_queue e)).
      { intros Hin. eapply (addr_new _). apply elem_of_app. right. exact Hin. }
      refine (yields_mono _ _ _ (Hdo _ Hnew) _). intros r [Hk (A1 & A2 & A3 & A4 & A5)]. split; [exact Hk|]. repeat split; try done.
      intros k. rewrite A4. unfold off_at, e1. fields. apply (off_insert _ _ _ pcb); [done|].
      rewrite Est. done.
    + destruct Hb as (Hb & _). split.
      * apply (send_after_ok b (set_heap e h) id p 250); [|done|done].
        eapply inv_eq; [by apply inv_heap|]. lia.
      * repeat split. right. eexists _, 250%Z. split; [reflexivity|]. auto.
  - eapply advance_ok; try done; auto; try congruence. left. apply Hnone. intros [?|[?|?]]; done.
  - eapply advance_ok; try done; auto; try congruence. left. apply Hnone. intros [?|[?|?]]; done.
  - apply e_modify. set (e1 := set_pcbs _ _).
    assert (Hk : forall k, off_at e1 k = off_at e k).
    { intros k. unfold off_at, e1. fields. apply (off_insert _ _ _ pcb); [done|]. rewrite Est. done. }
    eapply yields_mono; [apply (free_does b e1)|].
    { apply pcb_state_put; try done. left. apply Hnone. intros [?|[?|?]]; done. }
    intros r [Hr (A1 & A2 & A3 & A4 & A5)]. split; [exact Hr|]. repeat split; try done.
    intros k. by rewrite A4.
Qed.

(** The packets a node gives to the network when it is handled. *)
Definition node_sends (e : engine) (n : tx_node) : list mdns_tx_packet_t :=
  if off_at e (pcb_index (tx_if (snd n)) (tx_ip_protocol (snd n))) then [] else [snd n].

(** The effect of handling a node. *)
Definition handles {A} (b : Z) (e : engine) (sent : list mdns_tx_packet_t) (r : A * engine) : Prop :=
  keeps_inv b r /\ e_now (snd r) = e_now e /\ e_pending (snd r) = e_pending e
  /\ e_sent (snd r) = e_sent e ++ sent
  /\ (forall k, off_at (snd r) k = off_at e k) /\ requeued e (snd r).

Lemma handle_packet_ok b e id p : inv (b + packet_blocks p) e -> node_ok (id, p) ->
  id ∉ map fst (e_queue e) -> tx_queued p = false ->
  yields (handle_packet cfg addr (id, p) e) (handles b e (node_sends e (id, p))).
Proof using live_s addr_new.
  intros He Hn Hid Hqd. unfold handle_packet, mdns_priv_pcb_is_off, node_sends. fields.
  destruct (inv_pcb _ e (tx_if p) (tx_ip_protocol p) He (proj2 Hn)) as (pcb & Hp & _).
  eapply e_bind; [eapply e_get_pcb; [exact Hp|]|].
  { instantiate (1 := fun r => snd r = e /\ fst r = off_at e (pcb_index (tx_if p) (tx_ip_protocol p))).
    unfold off_at. rewrite Hp. done. }
  intros off e1 [E1 Eoff]. fields. subst e1. rewrite <- Eoff. destruct off.
  - eapply yields_mono; [by apply (free_does b)|]. intros r [Hk (A1 & A2 & A3 & A4 & A5)].
    split; [done|]. rewrite app_nil_r. done.
  - apply e_modify. eapply yields_mono; [apply (schedule_ok b); [by apply inv_sent|done|done|done]|].
    intros r [Hk (A1 & A2 & A3 & A4 & A5)]. done.
Qed.

Lemma send_packet_ok b e id : inv b e ->
  yields (send_packet cfg addr id e) (fun r => match e_queue e with
    | (i, p) :: q =>
        if Pos.eqb i id && tx_queued p
        then handles b (set_queue e q) (node_sends e (i, set_queued p false)) r
        else snd r = e
    | [] => snd r = e
    end).
Proof using live_s addr_new.
  intros He. unfold send_packet. apply e_gets. destruct (e_queue e) as [|[i p] q] eqn:Eq; [done|].
  pose proof He as (_ & [Hids Hw] & _). rewrite Eq in Hids, Hw.
  apply NoDup_cons in Hids as [Hni Hids]. apply Forall_cons in Hw as [Hn Hw].
  case_match; [|done]. apply e_modify. apply (handle_packet_ok b (set_queue e q)).
  - eapply inv_eq; [by apply inv_queue|]. rewrite Eq. unfold queue_blocks. cbn [foldr snd].
    change (packet_blocks (set_queued p false)) with (packet_blocks p). lia.
  - destruct Hn as [[[] Hd] Hi]. split; [|done]. split; [by split|]. intros sec. specialize (Hd sec). by destruct sec.
  - done.
  - done.
Qed.

(** An operation that does what [send_packet] does keeps the invariant. *)
Lemma send_packet_inv b e id : inv b e -> yields (send_packet cfg addr id e) (keeps_inv b).
Proof using live_s addr_new.
  intros He. eapply yields_mono; [by apply (send_packet_ok b)|]. intros r.
  destruct (e_queue e) as [|[i p] q]; [by intros <-|].
  case_match; [by intros [? _]|]. unfold keeps_inv. by intros ->.
Qed.

Lemma run_tx_action_ok b e : inv b e -> yields (run_tx_action cfg addr e) (keeps_inv b).
Proof using live_s addr_new.
  intros He. unfold run_tx_action. apply e_gets. destruct (e_pending e) as [|id rest] eqn:Ep; [done|].
  apply e_modify. eapply e_bind; [apply (send_packet_inv (b + 1))|].
  { destruct He as (Henv & Hq & Hp & Hl). split; [by destruct Henv|]. split; [done|]. split; [done|].
    unfold owned in *. fields. rewrite Ep in Hl. cbn [length] in Hl. lia. }
  intros [] e1 He1. eapply e_hop_last; [apply hspec_mfree|]. intros h Hh. cbn beta in Hh.
  eapply inv_eq; [by apply inv_heap|]. lia.
Qed.

Lemma set_queued_ok id p t : node_ok (id, p) -> node_ok (id, set_queued p t).
Proof.
  intros [[[] Hd] Hi]. split; [|done]. split; [by split|]. intros sec. specialize (Hd sec). by destruct sec.
Qed.

(** The loop of the timer: what it queues it allocates, and it changes no packet
    but for the mark. *)
Lemma queue_due_ok b q : forall e, inv b e -> Forall node_ok q ->
  yields (queue_due q e) (fun '(q', e') => inv b e' /\ e_queue e' = e_queue e
    /\ map fst q' = map fst q /\ Forall node_ok q' /\ queue_blocks q' = queue_blocks q
    /\ e_sent e' = e_sent e /\ exists l, e_pending e' = e_pending e ++ l /\ sublist l (map fst q)).
Proof.
  assert (Hnone : forall q e, inv b e -> Forall node_ok q ->
    inv b e /\ e_queue e = e_queue e /\ map fst q = map fst q /\ Forall node_ok q
    /\ queue_blocks q = queue_blocks q /\ e_sent e = e_sent e
    /\ exists l, e_pending e = e_pending e ++ l /\ sublist l (map fst q)).
  { intros q' e He Hq. split_and!; try done. exists []. split; [by rewrite app_nil_r|apply sublist_nil_l]. }
  induction q as [|[id p] q IH]; intros e He Hq; cbn [queue_due]; [by apply Hnone|].
  pose proof Hq as [Hn Hq']%Forall_cons. apply e_gets. destruct (due (e_now e) p); [|by apply Hnone].
  eapply e_hop; [apply hspec_malloc|]. intros [] h Hh; cbn [negb] in *.
  2:{ apply (Hnone _ (set_heap e h)); [|done]. eapply inv_eq; [by apply inv_heap|]. lia. }
  eapply e_bind.
  { instantiate (1 := fun '(taken, e') => inv (b + if taken then 0 else 1) e' /\ e_queue e' = e_queue e
      /\ e_sent e' = e_sent e /\ e_pending e' = e_pending e ++ if taken then [id] else []).
    unfold mdns_priv_queue_action. fields. destruct (next_bool (e_accepts e)) as [taken rest]. cbn [yields].
    pose proof He as (Henv & Hqk & Hp & Hl).
    destruct taken; (split; [|fields; rewrite ?app_nil_r; done]); (split; [by destruct Henv|split; [done|split; [done|]]]);
      unfold owned in *; fields; rewrite ?length_app; cbn [length]; lia. }
  intros taken e1 (He1 & Hq1 & Hs1 & Hp1). eapply e_bind.
  { instantiate (1 := fun '(_, e') => inv b e' /\ e_queue e' = e_queue e1 /\ e_sent e' = e_sent e1
      /\ e_pending e' = e_pending e1). destruct taken.
    - split; [|done]. eapply inv_eq; [exact He1|]. lia.
    - eapply e_hop_last; [apply hspec_mfree|]. intros h2 Hh2. cbn beta in Hh2. split; [|done].
      eapply inv_eq; [by apply inv_heap|]. lia. }
  intros [] e2 (He2 & Hq2 & Hs2 & Hp2). eapply e_bind; [by apply IH|].
  intros q' e3 (He3 & Hq3 & Hids & Hok & Hbl & Hs3 & l & Hp3 & Hl). cbn [yields mret E_ret].
  split_and!; try done.
  - congruence.
  - cbn [map fst]. by rewrite Hids.
  - constructor; [by apply set_queued_ok|done].
  - unfold queue_blocks in *. cbn [foldr snd]. rewrite Hbl. done.
  - congruence.
  - exists ((if taken then [id] else []) ++ l). split; [by rewrite Hp3, Hp2, Hp1, <- app_assoc|].
    cbn [map fst]. destruct taken; cbn [app]; by constructor.
Qed.

Lemma split_queued_app q : fst (split_queued q) ++ snd (split_queued q) = q.
Proof.
  induction q as [|n q IH]; [done|]. cbn [split_queued]. destruct (tx_queued (snd n)); [|done].
  destruct (split_queued q). cbn in *. by rewrite IH.
Qed.

Lemma send_packets_ok b e : inv b e -> yields (mdns_priv_send_packets e) (keeps_inv b).
Proof.
  intros He. unfold mdns_priv_send_packets. apply e_gets.
  pose proof (split_queued_app (e_queue e)) as Hs. destruct (split_queued (e_queue e)) as [q1 q2].
  cbn [fst snd] in Hs. pose proof He as (_ & [Hids Hw] & _). rewrite <- Hs in Hids, Hw.
  apply Forall_app in Hw as [Hw1 Hw2].
  eapply e_bind; [by apply (queue_due_ok b)|]. intros q' e1 (He1 & Hq & Hi & Hok & Hbl & _).
  eapply inv_eq; [apply inv_queue; [exact He1| |]|].
  - replace (map fst (q1 ++ q')) with (map fst (q1 ++ q2)); [exact Hids|].
    rewrite !map_app. f_equal. symmetry. exact Hi.
  - by apply Forall_app.
  - rewrite Hq, <- Hs, !queue_blocks_app, Hbl. lia.
Qed.

Lemma remove_scheduled_answer_ok b e i proto type service : inv b e ->
  yields (mdns_priv_remove_scheduled_answer i proto type service e) (keeps_inv b).
Proof.
  intros He. unfold mdns_priv_remove_scheduled_answer. apply e_gets. set (f := fun n : tx_node => _).
  eapply e_hop; [apply hspec_mfree|]. intros [] h Hh. fields. pose proof He as (_ & [Hids Hw] & _).
  eapply inv_eq; [apply (inv_queue _ _ (map f (e_queue e)) (inv_heap b e h He))|].
  - rewrite ids_map; [done|]. intros n. unfold f. by case_match.
  - apply Forall_map. eapply Forall_impl; [exact Hw|]. intros n [Hn Hi]. unfold f. case_match; [|done].
    split; [|done]. apply section_sublist_wf; [done|]. apply remove_first_sublist.
  - fields. lia.
Qed.

Lemma set_probe_failed_ok b e i proto : inv b e -> i < MDNS_MAX_INTERFACES ->
  yields (mdns_priv_pcb_set_probe_failed i proto e) (keeps_inv b).
Proof.
  intros He Hi. destruct (inv_pcb b e i proto He Hi) as (p & Hp & Hok). eapply e_get_pcb; [exact Hp|].
  eapply inv_eq; [eapply (inv_put b e i proto _ p He Hp)|]; [done|]. unfold array_blocks. cbn. lia.
Qed.

(** The queue, the control blocks and the sockets are the same, and memory lasts. *)
Definition quiet (e e' : engine) : Prop :=
  e_queue e' = e_queue e /\ e_pcbs e' = e_pcbs e /\ e_ready e' = e_ready e
  /\ (never_fails (e_heap e) -> never_fails (e_heap e')).

(** Goodbyes go straight to the socket. *)
Lemma send_bye_quiet b e0 services include_ip : inv b e0 -> services_live s services ->
  yields (mdns_priv_pcb_send_bye_service cfg MDNS_MAX_INTERFACES services include_ip e0)
    (fun r => keeps_inv b r /\ quiet e0 (snd r)).
Proof using live_s.
  intros He0 Hl. unfold mdns_priv_pcb_send_bye_service. apply e_gets. rewrite (env_server _ (proj1 He0)).
  case_match; [by split|]. set (P e := inv b e /\ quiet e0 e).
  apply (for_each_ok _ _ P); [by split|]. intros i e Hi Hr.
  apply in_seq in Hi. apply (for_each_ok _ _ P); [done|]. clear e Hr. intros proto e _ [He Hr].
  apply e_gets. destruct (inv_pcb b e i proto He ltac:(lia)) as (p & Hp & _).
  eapply e_get_pcb; [exact Hp|]. case_match; [|by split].
  pose proof (stays_hspecn _ _ (send_bye_frees true cfg s live_s i proto services include_ip Hl)) as Hst.
  eapply e_hop_stays; [apply hspecn_any, (send_bye_frees false cfg s live_s i proto services include_ip Hl)|exact Hst|].
  intros [pkt|] h [Hn _] Hnf; (split; [|by destruct Hr as (? & ? & ? & ?); split_and!; auto]); [apply (inv_sent b)|];
    (eapply inv_eq; [exact (inv_heap b e h He)|]; lia).
Qed.

Lemma send_bye_service_ok b e services include_ip : inv b e -> services_live s services ->
  yields (mdns_priv_pcb_send_bye_service cfg MDNS_MAX_INTERFACES services include_ip e) (keeps_inv b).
Proof using live_s. intros He Hl. eapply yields_mono; [by apply send_bye_quiet|]. by intros r [? _]. Qed.

(** ** Removing a service *)

Lemma remove_probed_spec i l : base.NoDup l -> i ∈ l ->
  S (length (remove_probed i l)) = length l /\ sublist (remove_probed i l) l
  /\ i ∉ remove_probed i l.
Proof.
  intros Hn Hi. unfold remove_probed. destruct (list_find (fun j => j = i) l) as [[k j]|] eqn:Ef.
  - apply list_find_Some in Ef as (Hk & -> & _). pose proof (lookup_lt_Some _ _ _ Hk) as Hlt.
    pose proof (take_drop_middle l k i Hk) as Hl. split_and!.
    + rewrite length_app, length_take, length_drop. lia.
    + rewrite <- Hl at 3. apply sublist_app; [done|]. by constructor.
    + rewrite <- Hl in Hn. apply NoDup_app in Hn as (_ & Hd & [Hi' _]%NoDup_cons).
      intros [Hin|Hin]%elem_of_app; [|done]. apply (Hd i Hin). by left.
  - apply list_find_None in Ef. rewrite Forall_forall in Ef. by destruct (Ef i Hi).
Qed.

Lemma sublist_probe_list l l' : sublist l' l -> probe_list l -> probe_list l'.
Proof.
  intros Hs [Hn Hr]. split; [by eapply sublist_NoDup|]. rewrite Forall_forall in *. intros j Hj.
  apply Hr. by eapply sublist_subseteq.
Qed.

Lemma until_incl i l j : In j (until i l) -> In j l.
Proof.
  induction l as [|k l IH]; [done|]. cbn [until]. destruct (Pos.eqb k i); intros [->|H]; [by left|done|by left|].
  right. auto.
Qed.

(** The services in the array of a control block. *)
Definition probed (e : engine) (k : nat) (j : sid) : Prop :=
  exists p l, e_pcbs e !! k = Some p /\ probe_services p = Some l /\ j ∈ l.

(** The arrays only lost services. *)
Definition shrunk (e e' : engine) : Prop := forall k j, probed e' k j -> probed e k j.

Lemma probed_put e i proto p q j k : e_pcbs e !! pcb_index i proto = Some q ->
  probed (set_pcbs e (<[pcb_index i proto := p]> (e_pcbs e))) k j ->
  if decide (k = pcb_index i proto) then exists l, probe_services p = Some l /\ j ∈ l else probed e k j.
Proof.
  intros Hq (p' & l & Hp' & Hl & Hj). fields. case_decide as Hk.
  - subst k. rewrite list_lookup_insert_eq in Hp' by (by eapply lookup_lt_Some). injection Hp' as <-. eauto.
  - rewrite list_lookup_insert_ne in Hp' by done. by exists p', l.
Qed.

(** What the check does to the arrays. *)
Definition dropped (service : sid) (k : nat) (e e' : engine) : Prop := shrunk e e' /\ ~ probed e' k service.

Lemma dropped_put e i proto p q service : e_pcbs e !! pcb_index i proto = Some q ->
  (forall l j, probe_services p = Some l -> j ∈ l -> exists l', probe_services q = Some l' /\ j ∈ l' /\ j <> service) ->
  dropped service (pcb_index i proto) e (set_pcbs e (<[pcb_index i proto := p]> (e_pcbs e))).
Proof.
  intros Hq Hp. split.
  - intros k j Hj. apply (probed_put _ _ _ _ _ _ _ Hq) in Hj. case_decide as Hk; [|done]. subst k.
    destruct Hj as (l & Hl & Hj). destruct (Hp l j Hl Hj) as (l' & Hl' & Hj' & _). by exists q, l'.
  - intros Hs. apply (probed_put _ _ _ _ _ _ _ Hq) in Hs. rewrite decide_True in Hs by done.
    destruct Hs as (l & Hl & Hj). by destruct (Hp l service Hl Hj) as (_ & _ & _ & ?).
Qed.

Lemma dropped_refl e i proto p service : e_pcbs e !! pcb_index i proto = Some p ->
  (forall l, probe_services p = Some l -> service ∉ l) -> dropped service (pcb_index i proto) e e.
Proof.
  intros Hp Hl. split; [by intros k j|]. intros (p' & l & Hp' & Hs & Hj). rewrite Hp in Hp'. injection Hp' as <-. by eapply Hl.
Qed.

Lemma check_probing_ok b e i proto service removed : inv b e -> i < MDNS_MAX_INTERFACES ->
  yields (mdns_priv_pcb_check_probing_services i proto service removed e) (fun '(_, e') =>
    inv b e' /\ same_env e e' /\ e_queue e' = e_queue e /\ dropped service (pcb_index i proto) e e').
Proof.
  intros He Hi. unfold mdns_priv_pcb_check_probing_services.
  destruct (inv_pcb b e i proto He Hi) as (p & Hp & Hok). eapply e_get_pcb; [exact Hp|]. cbn zeta.
  destruct (PCB_STATE_IS_PROBING (state p)) eqn:Epr.
  - eapply e_bind.
    { instantiate (1 := fun '(l, e') => e' = e
        /\ match probe_services p with Some l' => l = l' | None => l = [] end).
      unfold pcb_ok in Hok. destruct (probe_services p) as [l|].
      - destruct Hok as (Hlen & _). rewrite (proj2 (Nat.ltb_ge _ _)) by lia.
        split; [done|]. apply take_ge. lia.
      - rewrite Hok. done. }
    intros l e1 [-> Hl]. apply e_gets. rewrite (env_server _ (proj1 He)). unfold pcb_ok in Hok.
    destruct (probe_services p) as [l'|] eqn:El; subst l.
    + destruct Hok as (Hlen & Hne & Hpl & Hst & Hrd).
      eapply e_hop; [apply hspec_lift, (check_services_live s)|].
      { apply List.Forall_forall. intros j Hj. apply until_incl in Hj.
        destruct Hpl as [_ Hr]. rewrite List.Forall_forall in Hr. by apply Hr. }
      intros a h [_ Hh]. pose proof (inv_heap b e h He) as He1. rewrite Hh, Z.add_0_r in He1.
      case_bool_decide as Hin.
      2:{ split_and!; try done. exact (dropped_refl e i proto p service Hp ltac:(intros l Hl; by assert (l = l') as -> by congruence)). }
      destruct (remove_probed_spec service l' (proj1 Hpl) Hin) as (Hlr & Hsub & Hout).
      destruct (Z.ltb_spec 1 (probe_services_len p)) as [Hmany|Hone].
      * split_and!; try done.
        2:{ apply (dropped_put (set_heap e h) i proto _ p); [done|]. intros l j [= <-] Hj. exists l'. split_and!; try done.
            - by eapply sublist_subseteq.
            - by intros ->. }
        eapply inv_eq; [eapply (inv_put b _ i proto _ p He1 Hp)|].
        -- unfold pcb_ok. cbn [probe_services probe_services_len state]. split_and!; try done; [lia| |].
           ++ intros E. rewrite E in Hlr. cbn in Hlr. lia.
           ++ by eapply sublist_probe_list.
        -- unfold array_blocks. rewrite El. cbn [probe_services opt_block]. lia.
      * eapply e_hop; [apply hspec_mfree|]. intros [] h2 Hh2. cbn beta in Hh2.
        split_and!; try done.
        2:{ apply (dropped_put (set_heap (set_heap e h) h2) i proto _ p); [done|]. by destruct (probe_ip p). }
        pose proof (inv_heap b _ h2 He1) as He2.
        eapply inv_eq; [eapply (inv_put _ _ i proto _ p He2 Hp)|].
        -- by destruct (probe_ip p).
        -- fields. destruct (probe_ip p); unfold array_blocks in *; rewrite El in *;
             cbn [probe_services opt_block] in *; lia.
    + eapply e_hop; [apply hspec_lift, (check_services_live s); constructor|].
      intros a h [_ Hh]. pose proof (inv_heap b e h He) as He1. rewrite Hh, Z.add_0_r in He1.
      rewrite bool_decide_false by apply not_elem_of_nil. split_and!; try done.
      exact (dropped_refl e i proto p service Hp ltac:(intros l Hl; congruence)).
  - assert (Hnone : probe_services p = None).
    { unfold pcb_ok in Hok. destruct (probe_services p); [|done].
      destruct Hok as (_ & _ & _ & Hst & _). by rewrite probe_state_is_probing in Epr. }
    assert (Hkeep : dropped service (pcb_index i proto) e e) by (apply (dropped_refl _ _ _ p); [done|]; intros l Hl; congruence).
    destruct (PCB_STATE_IS_ANNOUNCING (state p)); [|by split_and!]. eapply e_bind.
    { instantiate (1 := fun '(_, e') => inv b e' /\ same_env e e' /\ e_queue e' = e_queue e
        /\ dropped service (pcb_index i proto) e e').
      destruct removed; [|by split_and!]. split_and!; try done.
      - apply pcb_state_put; try done. by left.
      - apply (dropped_put e i proto _ p); [done|]. intros l j Hl. cbn in Hl. congruence. }
    intros [] e1 He1. exact He1.
Qed.

Lemma dealloc_service_spec l service :
  hspec (dealloc_scheduled_service_answers l service) (fun l' n =>
    sublist l' l /\ n = (Z.of_nat (length l') - Z.of_nat (length l))%Z
    /\ Forall (fun a => oa_service a <> Some service) l').
Proof.
  unfold dealloc_scheduled_service_answers. set (l' := filter _ l).
  assert (Hs : sublist l' l) by apply sublist_filter. pose proof (sublist_length _ _ Hs).
  eapply hspec_bind; [apply hspec_mfree|]. intros [] n ->. apply hspec_ret. split_and!; [done|lia|].
  apply Forall_forall. intros a Ha. by apply list_elem_of_filter in Ha as [? _].
Qed.

(** Questions whose strings belong to others: the question is all there is to free. *)
Definition plain (p : mdns_tx_packet_t) : Prop :=
  Forall (fun q => oq_own_dynamic_memory q = false) (tx_questions p).

Lemma remove_question_sublist f l : sublist (snd (remove_question f l)) l.
Proof.
  induction l as [|q l IH]; cbn [remove_question]; [done|]. destruct (f q); [by constructor|].
  destruct (remove_question f l). by constructor.
Qed.

(** A question that owns its strings leaves them behind. *)
Lemma remove_question_blocks f l : exists leak, (0 <= leak)%Z
  /\ (Forall (fun q => oq_own_dynamic_memory q = false) l -> leak = 0%Z)
  /\ (out_questions_blocks (snd (remove_question f l)) + (if fst (remove_question f l) then 1 else 0) + leak
     = out_questions_blocks l)%Z.
Proof.
  unfold out_questions_blocks. induction l as [|q l IH]; [by exists 0%Z|]. cbn [remove_question]. destruct (f q).
  - exists (out_question_blocks q - 1)%Z. cbn [fst snd foldr]. split_and!; [| |lia].
    + unfold out_question_blocks, strings_blocks.
      destruct (oq_own_dynamic_memory q), (oq_host q), (oq_service q), (oq_proto q), (oq_domain q); cbn; lia.
    + intros Hl. apply Forall_cons in Hl as [Hq _]. unfold out_question_blocks. by rewrite Hq.
  - destruct IH as (leak & H0 & Hl & Hs). exists leak. destruct (remove_question f l) as [b l']. cbn [fst snd foldr] in *.
    split_and!; [done| |lia]. intros Hq. apply Forall_cons in Hq as [_ Hq]. auto.
Qed.

(** The answers of one packet. *)
Definition without_service (service : sid) (p : mdns_tx_packet_t) : Prop :=
  forall sec, Forall (fun a => oa_service a <> Some service) (get_section p sec).

(** The packet tells of the service in its authority section. *)
Definition tells (n : tx_node) (k : nat) (j : sid) : Prop :=
  pcb_index (tx_if (snd n)) (tx_ip_protocol (snd n)) = k /\ Exists (fun a => oa_service a = Some j) (tx_servers (snd n)).

(** What is left of a packet for another service. *)
Lemma dealloc_keeps (service j : sid) (l l' : list mdns_out_answer_t) : j <> service ->
  l' = filter (fun a => oa_service a <> Some service) l ->
  Exists (fun a => oa_service a = Some j) l -> Exists (fun a => oa_service a = Some j) l'.
Proof.
  intros Hj -> Hl. apply Exists_exists in Hl as (a & Ha & E). apply Exists_exists. exists a. split; [|done].
  apply list_elem_of_filter. split; [congruence|done].
Qed.

Lemma dealloc_service_eq l service :
  hspec (dealloc_scheduled_service_answers l service) (fun l' _ => l' = filter (fun a => oa_service a <> Some service) l).
Proof.
  unfold dealloc_scheduled_service_answers. eapply hspec_bind; [apply hspec_mfree|]. intros [] n ->. by apply hspec_ret.
Qed.

Lemma dealloc_both l service :
  hspec (dealloc_scheduled_service_answers l service) (fun l' n =>
    sublist l' l /\ n = (Z.of_nat (length l') - Z.of_nat (length l))%Z
    /\ Forall (fun a => oa_service a <> Some service) l' /\ l' = filter (fun a => oa_service a <> Some service) l).
Proof.
  intros h. pose proof (dealloc_service_spec l service h) as H1. pose proof (dealloc_service_eq l service h) as H2.
  destruct (dealloc_scheduled_service_answers l service h) as [[l' h']| | |]; try done. cbn in *. destruct H1 as (? & ? & ?). done.
Qed.

Lemma shrunk_trans e1 e2 e3 : shrunk e1 e2 -> shrunk e2 e3 -> shrunk e1 e3.
Proof. unfold shrunk. auto. Qed.

Lemma remove_service_packets_ok service srv q : forall b e, inv b e -> Forall node_ok q ->
  yields (remove_service_packets service srv q e) (fun '(q', e') =>
    (exists leak, (0 <= leak)%Z /\ (Forall (fun n => plain (snd n)) q -> leak = 0%Z)
       /\ inv (b + queue_blocks q' - queue_blocks q + leak) e')
    /\ same_env e e' /\ e_queue e' = e_queue e
    /\ sublist (map fst q') (map fst q) /\ Forall node_ok q'
    /\ Forall (fun n => without_service service (snd n)) q'
    /\ (Forall (fun n => plain (snd n)) q -> Forall (fun n => plain (snd n)) q')
    /\ shrunk e e'
    /\ (forall k n j, n ∈ q -> tells n k j -> j <> service -> exists n', n' ∈ q' /\ tells n' k j)
    /\ forall n, n ∈ q -> e_ready e (tx_if (snd n)) (tx_ip_protocol (snd n)) = true ->
         ~ probed e' (pcb_index (tx_if (snd n)) (tx_ip_protocol (snd n))) service).
Proof.
  induction q as [|[id p] q IH]; intros b e He Hq; cbn [remove_service_packets].
  { cbn [yields mret E_ret]. split_and!; try done; try by intros ? ? ?.
    - exists 0%Z. split_and!; try done. eapply inv_eq; [exact He|]. lia.
    - intros k n j Hn. by apply elem_of_nil in Hn.
    - intros n Hn. by apply elem_of_nil in Hn. }
  apply Forall_cons in Hq as [[Hwf Hif] Hq]. fields.
  eapply e_hop; [apply (dealloc_both _ service)|]. intros answers h1 (Hs1 & Hn1 & Hd1 & _).
  eapply e_hop; [apply (dealloc_both _ service)|]. intros additional h2 (Hs2 & Hn2 & Hd2 & _).
  eapply e_hop; [apply (dealloc_both _ service)|]. intros servers h3 (Hs3 & Hn3 & Hd3 & Hsv).
  pose proof (inv_heap _ _ h3 (inv_heap _ _ h2 (inv_heap _ _ h1 He))) as He1. fields. cbn zeta.
  set (p1 := set_section _ _ _). apply e_gets. fields.
  assert (Hwf1 : packet_wf s p1).
  { apply section_sublist_wf; [apply section_sublist_wf; [by apply section_sublist_wf|exact Hs2]|exact Hs3]. }
  assert (Hbl1 : packet_blocks p1 = (packet_blocks p + (live h3 - live (e_heap e)))%Z).
  { unfold p1. rewrite !packet_blocks_section. cbn [get_section tx_additional tx_servers set_section]. lia. }
  assert (Hw1 : without_service service p1) by (intros sec; by destruct sec).
  set (k0 := pcb_index (tx_if p) (tx_ip_protocol p)).
  eapply e_bind.
  { instantiate (1 := fun '(p', e') => packet_wf s p' /\ tx_if p' = tx_if p /\ tx_ip_protocol p' = tx_ip_protocol p
      /\ tx_servers p' = servers /\ (plain p -> plain p')
      /\ without_service service p' /\ same_env e e' /\ e_queue e' = e_queue e /\ shrunk e e'
      /\ (e_ready e (tx_if p) (tx_ip_protocol p) = true -> ~ probed e' k0 service)
      /\ exists leak, (0 <= leak)%Z /\ (plain p -> leak = 0%Z)
           /\ inv (b + packet_blocks p' - packet_blocks p + leak) e').
    assert (Hkeep : inv (b + packet_blocks p1 - packet_blocks p) (set_heap (set_heap (set_heap e h1) h2) h3)).
    { eapply inv_eq; [exact He1|]. lia. }
    change (tx_if p1) with (tx_if p). change (tx_ip_protocol p1) with (tx_ip_protocol p).
    destruct (e_ready e (tx_if p) (tx_ip_protocol p)).
    2:{ split_and!; try done; try by intros ? ?. exists 0%Z. split_and!; try done. by rewrite Z.add_0_r. }
    eapply e_bind; [by apply (check_probing_ok _ _ (tx_if p) (tx_ip_protocol p) service _ Hkeep)|].
    intros should e2 (He2 & Henv2 & Hq2 & Hsh2 & Hdr2). fields.
    destruct should.
    2:{ split_and!; try done. exists 0%Z. split_and!; try done. by rewrite Z.add_0_r. }
    pose proof (remove_question_sublist (probe_question_for srv) (tx_questions p)) as Hsub.
    destruct (remove_question_blocks (probe_question_for srv) (tx_questions p)) as (leak & H0 & Hpl & Hbl).
    change (tx_questions p1) with (tx_questions p).
    destruct (remove_question (probe_question_for srv) (tx_questions p)) as [removed l]. cbn [fst snd] in *.
    eapply e_hop; [apply hspec_mfree|]. intros [] h4 Hh4. cbn beta in Hh4. cbn [yields mret E_ret].
    split; [|do 3 (split; [done|]); split; [|split; [|do 4 (split; [done|])]]].
    - apply set_questions_wf; [done|]. pose proof (tx_questions_ok _ _ (proj1 Hwf)) as Hqs.
      rewrite Forall_forall in *. intros x Hx. apply Hqs. by eapply sublist_subseteq.
    - unfold plain. cbn. rewrite !Forall_forall. intros Hp x Hx. apply Hp. by eapply sublist_subseteq.
    - intros sec. specialize (Hw1 sec). by destruct sec.
    - exists leak. split_and!; [done|exact Hpl|]. eapply inv_eq; [by apply inv_heap|]. rewrite blocks_questions.
      change (tx_questions p1) with (tx_questions p). lia. }
  intros p2 e2 (Hwf2 & Hif2 & Hpr2 & Hsv2 & Hpn2 & Hw2 & Henv2 & Hq2 & Hsh2 & Hdr2 & leak & H0 & Hpl & He2). cbn zeta.
  set (empty := bool_decide _ && _ && _ && _). eapply e_bind.
  { instantiate (1 := fun '(_, e') => same_env e2 e' /\ e_queue e' = e_queue e2 /\ e_pcbs e' = e_pcbs e2
      /\ inv (b + (if empty then 0 else packet_blocks p2) - packet_blocks p + leak) e').
    destruct empty; [|by split_and!].
    eapply e_hop_last; [apply hspec_mfree|]. intros h4 Hh4. cbn beta in Hh4. split_and!; try done.
    eapply inv_eq; [by apply inv_heap|]. lia. }
  intros [] e3 (Henv3 & Hq3 & Hp3 & He3). eapply e_bind; [by apply (IH _ e3 He3)|].
  intros q' e4 ((leak' & H0' & Hpl' & He4) & Henv4 & Hq4 & Hids & Hok & Hws & Hpn & Hsh & Ht & Hnp). cbn [yields mret E_ret].
  assert (Hsh3 : shrunk e2 e3) by (intros k j; unfold probed; by rewrite Hp3).
  assert (Henv : same_env e e3) by (by eapply same_env_trans).
  split_and!.
  - exists (leak + leak')%Z. split_and!; [lia| |].
    + intros Hall. apply Forall_cons in Hall as [? ?]. rewrite Hpl, Hpl' by done. done.
    + eapply inv_eq; [exact He4|]. unfold queue_blocks in *. destruct empty; cbn [foldr snd]; lia.
  - by eapply same_env_trans.
  - congruence.
  - destruct empty; cbn [map fst]; by constructor.
  - destruct empty; [done|]. constructor; [split; [done|cbn [snd]; lia]|done].
  - destruct empty; [done|]. by constructor.
  - intros [? ?]%Forall_cons. destruct empty; [auto|]. apply Forall_cons. auto.
  - eapply shrunk_trans; [exact Hsh2|]. by eapply shrunk_trans.
  - intros k n j [->|Hn]%elem_of_cons Hk Hj.
    + destruct Hk as [Hk Hex]. cbn [snd] in *. exists (id, p2).
      assert (Hex2 : Exists (fun a => oa_service a = Some j) (tx_servers p2)) by (rewrite Hsv2; by eapply dealloc_keeps).
      assert (empty = false) as ->.
      { unfold empty. destruct (tx_servers p2); [by inversion Hex2|]. by rewrite !andb_false_r. }
      split; [left|]. split; [|done]. cbn [snd]. by rewrite Hif2, Hpr2.
    + destruct (Ht k n j Hn Hk Hj) as (n' & Hn' & Hk'). exists n'. split; [|done]. destruct empty; [done|]. by right.
  - intros n [->|Hn]%elem_of_cons Hr.
    + cbn [snd] in *. intros Hpb. by apply (Hdr2 Hr), Hsh3, Hsh.
    + apply Hnp; [done|]. destruct Henv as (_ & _ & Hrd & _). by rewrite Hrd.
Qed.

Lemma remove_scheduled_service_packets_ok b e service : inv b e -> registered s service ->
  yields (mdns_priv_remove_scheduled_service_packets service e) (fun r =>
    (exists leak, (0 <= leak)%Z /\ (Forall (fun n => plain (snd n)) (e_queue e) -> leak = 0%Z)
       /\ keeps_inv (b + leak) r)
    /\ Forall (fun n => without_service service (snd n)) (e_queue (snd r))
    /\ (Forall (fun n => plain (snd n)) (e_queue e) -> Forall (fun n => plain (snd n)) (e_queue (snd r)))
    /\ same_env e (snd r)
    /\ shrunk e (snd r)
    /\ (forall k n j, n ∈ e_queue e -> tells n k j -> j <> service -> exists n', n' ∈ e_queue (snd r) /\ tells n' k j)
    /\ forall n, n ∈ e_queue e -> e_ready e (tx_if (snd n)) (tx_ip_protocol (snd n)) = true ->
         ~ probed (snd r) (pcb_index (tx_if (snd n)) (tx_ip_protocol (snd n))) service).
Proof using live_s.
  intros He Hr. unfold mdns_priv_remove_scheduled_service_packets. apply e_gets.
  rewrite (env_server _ (proj1 He)).
  eapply e_hop; [apply hspec_lift, get_service_live; [exact live_s|exact Hr]|]. intros srv h [_ Hh].
  pose proof (inv_heap b e h He) as He1. rewrite Hh, Z.add_0_r in He1. apply e_gets. fields.
  pose proof He as (_ & [Hids Hw] & _).
  eapply e_bind; [by apply (remove_service_packets_ok _ _ _ b)|].
  intros q' e1 ((leak & H0 & Hl & He2) & Henv & Hq & Hs & Hok & Hws & Hpn & Hsh & Ht & Hp). fields. split_and!; try done.
  exists leak. split_and!; [done|done|].
  eapply inv_eq; [apply (inv_queue _ _ q' He2); [by eapply sublist_NoDup|done]|]. rewrite Hq. fields. lia.
Qed.

End Invariant.
