(* ===== verification/EngineSteps.v ===== *)
(** The engine as a state machine: the operations the rest of the component
    performs on it, what can be reached from start, and what holds there. *)
From S2P Require Import Prelude Names Server Encode EncodeSafe Heap Collision Answers AnswersProofs Engine EngineProofs.

(** * Operations *)

Inductive engine_op :=
| OpTimer                                  (** [timer_cb] *)
| OpTxAction                               (** [ACTION_TX_HANDLE] *)
| OpClock (t : Z)                          (** time passes *)
| OpEnable (i : mdns_if_t) (proto : mdns_ip_protocol_t)
| OpDisable (i : mdns_if_t) (proto : mdns_ip_protocol_t)
| OpAnnounce (i : mdns_if_t) (proto : mdns_ip_protocol_t) (services : option (list sid)) (ip : bool)
| OpSetDuplicate (i : mdns_if_t)
| OpProbe (i : mdns_if_t) (proto : mdns_ip_protocol_t) (services : list sid) (ip : bool)
| OpProbeAll (services : list sid) (ip clear_old : bool)
| OpBye (services : option (list sid)) (ip : bool)
| OpProbeFailed (i : mdns_if_t) (proto : mdns_ip_protocol_t)
| OpRemoveAnswer (i : mdns_if_t) (proto : mdns_ip_protocol_t) (type : Z) (service : option sid)
| OpRemoveService (service : sid)
| OpClearQueue
| OpDeinit
| OpAnswer (do_not_reply : bool) (pp : mdns_parsed_packet_t) (step : Z).

Section Steps.
Context (cfg : config) (MDNS_MAX_INTERFACES : nat) (addr : list positive -> positive).

(** The end of [mdns_parse_packet]: the packet is answered unless a conflict was
    found, and its questions and records are freed. *)
Definition answer_packet (do_not_reply : bool) (pp : mdns_parsed_packet_t) (step : Z) : E unit :=
  srv ← gets e_server;
  after ← mdns_priv_pcb_is_after_probing (pp_if pp) (pp_ip_protocol pp);
  qs ← (if negb do_not_reply && (after : bool)
           && (negb (bool_decide (pp_questions pp = [])) || pp_discovery pp) then
          '(qs, d, _) ← hop (mdns_priv_create_answer_from_parsed_packet cfg srv pp step);
          _ ← (match d with
               | TxNothing => mret tt
               | TxSendAfter p ms => link_new addr p [] ms
               | TxDispatch p => dispatch p
               end);
          mret qs
        else mret (pp_questions pp));
  hop (mfree (parsed_all_blocks qs + records_blocks (pp_records pp) + 1)).

Definition run_op (op : engine_op) : E unit :=
  match op with
  | OpTimer => mdns_priv_send_packets
  | OpTxAction => run_tx_action cfg addr
  | OpClock t => modify (fun e => set_now e (u32 t))
  | OpEnable i proto => mdns_priv_pcb_enable cfg addr i proto
  | OpDisable i proto => mdns_priv_pcb_disable cfg MDNS_MAX_INTERFACES addr i proto
  | OpAnnounce i proto services ip => mdns_priv_pcb_announce cfg addr i proto services ip
  | OpSetDuplicate i => mdns_priv_pcb_set_duplicate cfg MDNS_MAX_INTERFACES addr i
  | OpProbe i proto services ip => mdns_priv_init_pcb_probe cfg addr i proto services ip
  | OpProbeAll services ip clear_old =>
      mdns_priv_probe_all_pcbs cfg MDNS_MAX_INTERFACES addr services ip clear_old
  | OpBye services ip => mdns_priv_pcb_send_bye_service cfg MDNS_MAX_INTERFACES services ip
  | OpProbeFailed i proto => mdns_priv_pcb_set_probe_failed i proto
  | OpRemoveAnswer i proto type service => mdns_priv_remove_scheduled_answer i proto type service
  | OpRemoveService service => mdns_priv_remove_scheduled_service_packets service
  | OpClearQueue => mdns_priv_clear_tx_queue
  | OpDeinit => mdns_priv_pcb_deinit MDNS_MAX_INTERFACES
  | OpAnswer do_not_reply pp step => answer_packet do_not_reply pp step
  end.

(** The blocks of others that an operation takes over. *)
Definition op_blocks (op : engine_op) : Z :=
  match op with
  | OpAnswer _ pp _ => (parsed_all_blocks (pp_questions pp) + records_blocks (pp_records pp) + 1)%Z
  | _ => 0%Z
  end.

Context (s : mdns_server_t).

(** When the component performs an operation. *)
Definition op_allowed (e : engine) (op : engine_op) : Prop :=
  match op with
  | OpTimer | OpTxAction | OpClock _ | OpClearQueue | OpDeinit | OpRemoveAnswer _ _ _ _ => True
  | OpEnable i _ | OpDisable i _ | OpSetDuplicate i | OpProbeFailed i _ => i < MDNS_MAX_INTERFACES
  | OpAnnounce i _ services _ => i < MDNS_MAX_INTERFACES /\ services_live s services
      /\ match services with Some l => base.NoDup l | None => True end
  | OpProbe i proto services _ => i < MDNS_MAX_INTERFACES /\ probe_list s services
      /\ e_ready e i proto = true
  | OpProbeAll services _ _ => probe_list s services
  | OpBye services _ => services_live s services
  | OpRemoveService service => registered s service /\ Forall (fun n => plain (snd n)) (e_queue e)
  | OpAnswer _ pp _ => pp_if pp < MDNS_MAX_INTERFACES /\ Forall parsed_ok (pp_questions pp)
  end.

(** From [e], with [b] blocks that belong to others, the component can get to
    [e'] with [b'] such blocks. *)
Inductive reaches (b : Z) (e : engine) : Z -> engine -> Prop :=
| reaches_refl : reaches b e b e
| reaches_step b1 e1 op e2 : reaches b e b1 e1 -> op_allowed e1 op ->
    run_op op e1 = Ret (tt, e2) -> reaches b e (b1 - op_blocks op) e2.

(** The engine before any interface is enabled. *)
Definition started (e : engine) : Prop :=
  e_server e = Some s /\ e_queue e = [] /\ e_pending e = []
  /\ e_pcbs e = replicate (2 * MDNS_MAX_INTERFACES) (mk_pcb PCB_OFF None 0 false false 0)
  /\ forall i, i < MDNS_MAX_INTERFACES -> e_duplicate e i <= MDNS_MAX_INTERFACES.

Lemma started_inv e : started e -> inv MDNS_MAX_INTERFACES s (live (e_heap e)) e.
Proof.
  intros (Hs & Hq & Hp & Hpcb & Hd). split; [by split|]. split; [|split].
  - unfold queue_ok. rewrite Hq. split; constructor.
  - intros i proto Hi. rewrite Hpcb.
    exists (mk_pcb PCB_OFF None 0 false false 0). split; [|done]. apply lookup_replicate_2.
    unfold pcb_index. destruct proto; cbn [proto_num]; lia.
  - unfold owned. rewrite Hq, Hp, Hpcb. cbn [length queue_blocks foldr].
    assert (forall n, pcbs_blocks (replicate n (mk_pcb PCB_OFF None 0 false false 0)) = 0%Z) as ->.
    { unfold pcbs_blocks. induction n as [|n IH]; [done|]. cbn [replicate foldr]. rewrite IH. done. }
    lia.
Qed.

Section Safe.
Hypothesis live_s : server_live s.
Hypothesis counted_s : services_counted s.
Hypothesis addr_new : forall l, addr l ∉ l.

Lemma answer_packet_ok b e do_not_reply pp step : inv MDNS_MAX_INTERFACES s b e ->
  pp_if pp < MDNS_MAX_INTERFACES -> Forall parsed_ok (pp_questions pp) ->
  yields (answer_packet do_not_reply pp step e)
    (keeps_inv MDNS_MAX_INTERFACES s (b - op_blocks (OpAnswer do_not_reply pp step))).
Proof using live_s addr_new.
  intros He Hi Hq. unfold answer_packet. apply e_gets. rewrite (env_server _ _ _ (proj1 He)).
  destruct (inv_pcb _ _ b e (pp_if pp) (pp_ip_protocol pp) He Hi) as (pcb & Hp & _).
  eapply e_bind; [eapply e_get_pcb; [exact Hp|instantiate (1 := fun r => snd r = e); done]|].
  intros after e0 E0. cbn [snd] in E0. subst e0.
  eapply e_bind.
  { instantiate (1 := fun '(qs, e') => inv MDNS_MAX_INTERFACES s
      (b - parsed_all_blocks (pp_questions pp) + parsed_all_blocks qs) e').
    case_match; [|eapply inv_eq; [exact He|lia]].
    eapply e_hop; [apply hspecn_any, (parsed_packet_answered false cfg s live_s pp step Hq)|].
    intros [[qs d] step'] h (Hwf & _ & Hon & Hn).
    set (b' := (b - parsed_all_blocks (pp_questions pp) + parsed_all_blocks qs)%Z).
    assert (He1 : inv MDNS_MAX_INTERFACES s (b' + decision_blocks d) (set_heap e h)).
    { eapply inv_eq; [by apply inv_heap|]. unfold b'. lia. }
    apply (e_bind _ _ _ (keeps_inv MDNS_MAX_INTERFACES s b')); [|intros [] e1 He2; exact He2].
    unfold decision_wf, decision_on in *. destruct d as [|p ms|p]; cbn [decision_packet decision_blocks] in *.
    - eapply inv_eq; [exact He1|]. lia.
    - eapply yields_mono; [apply (link_new_ok MDNS_MAX_INTERFACES addr s addr_new b')|by intros [[] r] [? _]];
        [exact He1|done|lia].
    - apply inv_sent. eapply inv_eq; [exact He1|]. lia. }
  intros qs e1 He2. eapply e_hop_last; [apply hspec_mfree|]. intros h2 Hh2. cbn beta in Hh2.
  eapply inv_eq; [apply inv_heap; exact He2|]. cbn [op_blocks]. lia.
Qed.

Lemma run_op_ok b e op : inv MDNS_MAX_INTERFACES s b e -> op_allowed e op ->
  yields (run_op op e) (keeps_inv MDNS_MAX_INTERFACES s (b - op_blocks op)).
Proof using live_s counted_s addr_new.
  intros He Hop. destruct op; cbn [run_op op_allowed op_blocks] in *; rewrite ?Z.sub_0_r.
  - by apply send_packets_ok.
  - by apply run_tx_action_ok.
  - by apply inv_now.
  - eapply yields_mono; [by apply (enable_ok cfg MDNS_MAX_INTERFACES addr s live_s counted_s addr_new b)|].
    by intros [[] e'] [? _].
  - by apply disable_ok.
  - destruct Hop as (? & ? & ?).
    eapply yields_mono; [by apply (announce_ok cfg MDNS_MAX_INTERFACES addr s live_s counted_s addr_new b)|].
    by intros r [? _].
  - by apply set_duplicate_ok.
  - destruct Hop as (? & ? & ?).
    eapply yields_mono; [by apply (init_pcb_probe_ok cfg MDNS_MAX_INTERFACES addr s live_s counted_s addr_new b)|].
    by intros r [? _].
  - by apply probe_all_ok.
  - by apply send_bye_service_ok.
  - by apply set_probe_failed_ok.
  - by apply remove_scheduled_answer_ok.
  - destruct Hop as [Hreg Hpl].
    eapply yields_mono; [by apply (remove_scheduled_service_packets_ok MDNS_MAX_INTERFACES s live_s b)|].
    intros r [(leak & _ & Hl & Hr) _]. by rewrite (Hl Hpl), Z.add_0_r in Hr.
  - eapply yields_mono; [by apply (clear_tx_queue_ok MDNS_MAX_INTERFACES s b)|]. by intros r [? _].
  - by apply pcb_deinit_ok.
  - destruct Hop as [? ?]. by apply answer_packet_ok.
Qed.

Lemma reaches_inv b e b' e' : inv MDNS_MAX_INTERFACES s b e -> reaches b e b' e' ->
  inv MDNS_MAX_INTERFACES s b' e'.
Proof using live_s counted_s addr_new.
  intros He. induction 1 as [|b1 e1 op e2 _ IH Hop Hrun]; [done|].
  pose proof (run_op_ok b1 e1 op IH Hop) as H. rewrite Hrun in H. exact H.
Qed.

End Safe.
End Steps.

(** C16. The engine is safe: in every state that allowed operations lead to from start,
    for any pattern of allocation failures, refused actions and failing
    sockets, every operation on the transmit queue and the control blocks that
    [op_allowed] admits (a probe of one control block needs an open socket; a service
    is removed only while the queue owns no strings of questions) returns without a bad access, and afterwards the invariant holds again:
    the queue links no packet twice, its packets are well formed, a control
    block has an array of services exactly as long as it says and only while
    it probes on an open socket, and the blocks allocated are those of the
    queue, the arrays and the pending actions, and those of others. *)
Theorem engine_safe cfg max addr s e0 b e op :
  server_live s -> services_counted s -> (forall l, addr l ∉ l) ->
  started max s e0 -> reaches cfg max addr s (live (e_heap e0)) e0 b e -> op_allowed max s e op ->
  exists e', run_op cfg max addr op e = Ret (tt, e') /\ inv max s (b - op_blocks op) e'.
Proof.
  intros Hs Hc Ha H0 Hr Hop.
  assert (He : inv max s b e).
  { eapply (reaches_inv cfg max addr s Hs Hc Ha); [by apply started_inv|done]. }
  pose proof (run_op_ok cfg max addr s Hs Hc Ha b e op He Hop) as H.
  destruct (run_op cfg max addr op e) as [[[] e']| | |]; try done. by exists e'.
Qed.
