(* ===== verification/EngineLive.v ===== *)
(** The transmit queue delivers: a tick of the timer, followed by the actions it
    queued, sends exactly the packets that are due, each once and in order. *)
From Stdlib Require Import Sorting.Sorted.
From S2P Require Import Prelude Names Server Encode EncodeSafe Heap Collision Answers AnswersProofs Engine EngineProofs EngineSteps.

(** * The order of the queue *)

Definition sent_before (n m : tx_node) : Prop := (tx_send_at (snd n) <= tx_send_at (snd m))%Z.

Definition past (t : Z) (n : tx_node) : bool := (tx_send_at (snd n) <? t)%Z.

(** No time involved is near the point where 32 bits wrap around. *)
Definition clock_small (e : engine) : Prop :=
  (0 <= e_now e /\ e_now e + 1000 < 2 ^ 31)%Z
  /\ Forall (fun n => 0 <= tx_send_at (snd n) < 2 ^ 31)%Z (e_queue e).

(** The queue in two halves: packets with a pending action, in the order of the
    actions, and packets without. *)
Record halves (e : engine) (q r : list tx_node) : Prop := {
  halves_queue : e_queue e = q ++ r;
  halves_queued : Forall (fun n => tx_queued (snd n) = true) q;
  halves_past : Forall (fun n => past (e_now e) n = true) q;
  halves_unqueued : Forall (fun n => tx_queued (snd n) = false) r;
  halves_sorted : StronglySorted sent_before (e_queue e);
  halves_actions : sublist (map fst q) (e_pending e);
}.

Definition tx_ordered (e : engine) : Prop := clock_small e /\ exists q r, halves e q r.

Lemma u32_id z : (0 <= z < 2 ^ 32)%Z -> u32 z = z.
Proof. intros. unfold u32. by rewrite Z.mod_small. Qed.

(** [(int32_t)(p->send_at - now) < 0] compares the times. *)
Lemma due_past t n : (0 <= t < 2 ^ 31)%Z -> (0 <= tx_send_at (snd n) < 2 ^ 31)%Z ->
  due t (snd n) = past t n.
Proof.
  intros Ht Hs. unfold due, past. destruct (Z.ltb_spec (tx_send_at (snd n)) t).
  - apply Z.leb_le. unfold u32. rewrite <- (Z.mod_add _ 1) by lia. rewrite Z.mod_small; lia.
  - apply Z.leb_gt. rewrite u32_id; lia.
Qed.

Lemma insert_sorted n q : StronglySorted sent_before q -> StronglySorted sent_before (insert_node n q).
Proof.
  induction 1 as [|m q Hq IH Hm]; cbn [insert_node]; [repeat constructor|].
  destruct (Z.ltb_spec (tx_send_at (snd n)) (tx_send_at (snd m))) as [Hlt|Hge].
  - constructor; [by constructor|]. constructor; [unfold sent_before; lia|].
    eapply Forall_impl; [exact Hm|]. unfold sent_before. intros x Hx. lia.
  - constructor; [exact IH|]. rewrite (insert_node_perm n q). by constructor.
Qed.

(** A packet goes behind those it does not precede. *)
Lemma insert_behind n q r : Forall (fun m => tx_send_at (snd m) <= tx_send_at (snd n))%Z q ->
  insert_node n (q ++ r) = q ++ insert_node n r.
Proof.
  induction 1 as [|m q Hm _ IH]; [done|]. cbn [app insert_node].
  rewrite (proj2 (Z.ltb_ge _ _)) by done. by rewrite IH.
Qed.

Lemma split_queued_halves q r :
  Forall (fun n => tx_queued (snd n) = true) q -> Forall (fun n => tx_queued (snd n) = false) r ->
  split_queued (q ++ r) = (q, r).
Proof.
  induction 1 as [|n q Hn _ IH]; intros Hr.
  - destruct Hr as [|n r Hn _]; [done|]. cbn. by rewrite Hn.
  - cbn [app split_queued]. rewrite Hn, IH by done. done.
Qed.

(** * The timer *)

Definition mark (b : bool) (n : tx_node) : tx_node := (fst n, set_queued (snd n) b).

Lemma e_ret_bind {A B} (a : A) (f : A -> E B) e Q : yields (f a e) Q -> yields ((mret a ≫= f) e) Q.
Proof. done. Qed.

Lemma e_malloc_never {B} (f : bool -> E B) e Q : never_fails (e_heap e) ->
  yields (f true (set_heap e (mk_heap [] (live (e_heap e) + 1)))) Q -> yields ((hop malloc ≫= f) e) Q.
Proof. intros Hn Hf. unfold mbind, E_bind, hop, malloc. by rewrite Hn. Qed.

Lemma e_accept {B} id (f : bool -> E B) e Q : e_accepts e = [] ->
  yields (f true (set_pending (set_accepts e []) (e_pending e ++ [id]))) Q ->
  yields ((mdns_priv_queue_action id ≫= f) e) Q.
Proof. intros Ha Hf. unfold mbind, E_bind, mdns_priv_queue_action. by rewrite Ha. Qed.

(** Behind a packet that is not due, none is. *)
Lemma filter_not_past t n r : Forall (sent_before n) r -> past t n = false ->
  List.filter (past t) r = [] /\ List.filter (fun m => negb (past t m)) r = r.
Proof.
  intros Hr Hn. unfold past in Hn. apply Z.ltb_ge in Hn.
  induction Hr as [|m r Hm _ [IH1 IH2]]; [done|]. cbn [List.filter].
  assert (past t m = false) as -> by (unfold past, sent_before in *; apply Z.ltb_ge; lia).
  cbn [negb]. by rewrite IH1, IH2.
Qed.

Lemma queue_due_all r : forall e, never_fails (e_heap e) -> e_accepts e = [] ->
  (0 <= e_now e < 2 ^ 31)%Z -> Forall (fun n => 0 <= tx_send_at (snd n) < 2 ^ 31)%Z r ->
  StronglySorted sent_before r ->
  yields (queue_due r e) (fun '(r', e') =>
    (exists h, e' = set_pending (set_accepts (set_heap e h) [])
                     (e_pending e ++ map fst (List.filter (past (e_now e)) r)))
    /\ r' = map (mark true) (List.filter (past (e_now e)) r)
            ++ List.filter (fun n => negb (past (e_now e) n)) r).
Proof.
  induction r as [|[id p] r IH]; intros e Hh Ha Ht Hr Hs; cbn [queue_due].
  { split; [exists (e_heap e)|done]. cbn [List.filter map]. rewrite app_nil_r, <- Ha. by destruct e. }
  apply Forall_cons in Hr as [Hp Hr]. apply StronglySorted_inv in Hs as [Hs Hle].
  apply e_gets. assert (due (e_now e) p = past (e_now e) (id, p)) as -> by (by apply (due_past _ (id, p))).
  cbn [List.filter]. destruct (past (e_now e) (id, p)) eqn:Ep; cbn [negb].
  - apply e_malloc_never; [done|]. cbn [negb]. apply e_accept; [done|]. fields.
    apply e_ret_bind. eapply e_bind; [by apply IH|]. intros r' e' [[h ->] ->]. fields.
    cbn [yields mret E_ret]. split; [|done]. exists h. cbn [map fst]. by rewrite <- app_assoc.
  - destruct (filter_not_past (e_now e) (id, p) r Hle Ep) as [-> ->].
    cbn [yields mret E_ret map app]. split; [|done]. exists (e_heap e). rewrite app_nil_r, <- Ha. by destruct e.
Qed.

(** * The actions *)

Fixpoint tx_actions (cfg : config) (addr : list positive -> positive) (n : nat) : E unit :=
  match n with
  | 0 => mret tt
  | S n => _ ← run_tx_action cfg addr; tx_actions cfg addr n
  end.

Section Deliver.
Context (cfg : config) (max : nat) (addr : list positive -> positive) (s : mdns_server_t).
Hypothesis live_s : server_live s.
Hypothesis addr_new : forall l, addr l ∉ l.

(** What running an action does to the queue: if it is for the head, and the head
    is marked, the head is handled; otherwise nothing. *)
Definition action_effect (e : engine) (id : positive) (e' : engine) : Prop :=
  e_now e' = e_now e /\ (forall k, off_at e' k = off_at e k)
  /\ match e_queue e with
     | (i, p) :: q =>
         if Pos.eqb i id && tx_queued p
         then e_sent e' = e_sent e ++ node_sends e (i, set_queued p false) /\ requeued (set_queue e q) e'
         else e_sent e' = e_sent e /\ e_queue e' = e_queue e
     | [] => e_sent e' = e_sent e /\ e_queue e' = e_queue e
     end.

Lemma run_tx_action_effect b e id l : inv max s b e -> e_pending e = id :: l ->
  yields (run_tx_action cfg addr e) (fun '(_, e') =>
    inv max s b e' /\ e_pending e' = l /\ action_effect e id e').
Proof using live_s addr_new.
  intros He Hp. unfold run_tx_action. apply e_gets. rewrite Hp. apply e_modify.
  set (e1 := set_pending e l).
  assert (He1 : inv max s (b + 1) e1).
  { destruct He as (Henv & Hq & Hpc & Hl). split; [by destruct Henv|]. split; [done|]. split; [done|].
    unfold owned, e1 in *. fields. rewrite Hp in Hl. cbn [length] in Hl. lia. }
  eapply e_bind; [by apply (send_packet_ok cfg max addr s live_s addr_new (b + 1))|].
  intros [] e2 H2. eapply e_hop_last; [apply hspec_mfree|]. intros h Hh. cbn beta in Hh.
  assert (Hinv : inv max s (b + 1) e2).
  { unfold e1 in H2. fields. destruct (e_queue e) as [|[i p] q]; [by subst|].
    destruct (Pos.eqb i id && tx_queued p); [apply H2|by subst]. }
  split; [eapply inv_eq; [by apply inv_heap|]; lia|].
  unfold action_effect, e1 in *. fields. destruct (e_queue e) as [|[i p] q] eqn:Eq.
  - subst e2. fields. by rewrite Eq.
  - destruct (Pos.eqb i id && tx_queued p).
    + destruct H2 as (_ & A1 & A2 & A3 & A4 & A5). fields. done.
    + subst e2. fields. by rewrite Eq.
Qed.

Lemma sublist_drop_head {A} (x y : A) l k : sublist (x :: l) (y :: k) -> sublist l k.
Proof.
  intros Hs. apply sublist_cons_l in Hs as (k1 & k2 & Hk & Hs).
  destruct k1 as [|z k1]; injection Hk as -> ->; [done|].
  apply (sublist_inserts_l (k1 ++ [x])) in Hs. by rewrite <- app_assoc in Hs.
Qed.

Lemma sublist_other_head {A} (x y : A) l k : x <> y -> sublist (x :: l) (y :: k) -> sublist (x :: l) k.
Proof.
  intros Hne Hs. apply sublist_cons_l in Hs as (k1 & k2 & Hk & Hs).
  destruct k1 as [|z k1]; injection Hk as -> ->; [done|].
  apply sublist_cons_l. by exists k1, k2.
Qed.

(** Nothing of the right half is due. *)
Definition rest_later (e : engine) (r : list tx_node) : Prop := Forall (fun n => past (e_now e) n = false) r.

(** The same halves with a shorter list of actions. *)
Lemma halves_skip e e' q r : halves e q r -> e_queue e' = e_queue e -> e_now e' = e_now e ->
  sublist (map fst q) (e_pending e') -> halves e' q r.
Proof. intros [] Hq Hn Hs. split; rewrite ?Hq, ?Hn; done. Qed.

Lemma action_halves e id l q r e' : e_pending e = id :: l -> halves e q r -> clock_small e ->
  rest_later e r -> action_effect e id e' -> e_pending e' = l ->
  exists q' r', halves e' q' r' /\ clock_small e' /\ rest_later e' r'
    /\ e_sent e' ++ flat_map (node_sends e) (map (mark false) q')
       = e_sent e ++ flat_map (node_sends e) (map (mark false) q).
Proof.
  intros Hp Hh [Ht Hc] Hl (Hn & _ & Hq) Hp'. pose proof Hh as [Eq Hqd Hpa Huq Hs Hac].
  rewrite Hp in Hac.
  assert (Hsame : sublist (map fst q) l -> e_sent e' = e_sent e /\ e_queue e' = e_queue e ->
    exists q' r', halves e' q' r' /\ clock_small e' /\ rest_later e' r'
    /\ e_sent e' ++ flat_map (node_sends e) (map (mark false) q')
       = e_sent e ++ flat_map (node_sends e) (map (mark false) q)).
  { intros Hsub [Hsent Hqueue]. exists q, r. split_and!.
    - apply (halves_skip e); try done. by rewrite Hp'.
    - split; rewrite ?Hn, ?Hqueue; done.
    - unfold rest_later. by rewrite Hn.
    - by rewrite Hsent. }
  rewrite Eq in Hq. destruct q as [|[i p] q]; cbn [app] in Hq.
  { apply Hsame; [apply sublist_nil_l|]. rewrite Eq. destruct r as [|[j x] r]; [done|].
    apply Forall_cons in Huq as [Hx _]. cbn [snd] in Hx. rewrite Hx, andb_false_r in Hq. done. }
  apply Forall_cons in Hqd as [Hpq Hqd]. cbn [snd] in Hpq. rewrite Hpq, andb_true_r in Hq. cbn [map fst] in Hac.
  destruct (Pos.eqb_spec i id) as [->|Hne].
  2:{ apply Hsame; [by eapply sublist_other_head|by rewrite Eq]. }
  destruct Hq as [Hsent Hre]. apply sublist_drop_head in Hac. apply Forall_cons in Hpa as [_ Hpa].
  rewrite Eq in Hs, Hc. cbn [app] in Hs, Hc. apply StronglySorted_inv in Hs as [Hs _].
  apply Forall_cons in Hc as [_ Hc].
  assert (Hsent' : e_sent e' ++ flat_map (node_sends e) (map (mark false) q)
       = e_sent e ++ flat_map (node_sends e) (map (mark false) ((id, p) :: q))).
  { rewrite Hsent. cbn [map flat_map]. by rewrite <- app_assoc. }
  destruct Hre as [Hqueue|(n & ms & Hqueue & Hnq & Hat & Hms)]; fields.
  { exists q, r. split_and!; try done.
    - split; rewrite ?Hn, ?Hp', ?Hqueue; done.
    - split; rewrite ?Hn, ?Hqueue; done.
    - unfold rest_later. by rewrite Hn. }
  rewrite u32_id in Hat by lia.
  assert (Hlate : past (e_now e) n = false) by (unfold past; apply Z.ltb_ge; lia).
  assert (Hins : insert_node n (q ++ r) = q ++ insert_node n r).
  { apply insert_behind. eapply Forall_impl; [exact Hpa|]. cbn. intros m Hm.
    unfold past in Hm. apply Z.ltb_lt in Hm. lia. }
  exists q, (insert_node n r). split_and!.
  - split; rewrite ?Hn, ?Hp', ?Hqueue; try done.
    + rewrite (insert_node_perm n r). by constructor.
    + by apply insert_sorted.
  - split; rewrite ?Hn; [done|]. rewrite Hqueue, (insert_node_perm n). constructor; [lia|done].
  - unfold rest_later. rewrite Hn, (insert_node_perm n r). by constructor.
  - done.
Qed.

Lemma node_sends_ext e e' n : (forall k, off_at e' k = off_at e k) -> node_sends e' n = node_sends e n.
Proof. intros Hk. unfold node_sends. by rewrite Hk. Qed.

Lemma tx_actions_drain l : forall b e q r, e_pending e = l -> inv max s b e -> clock_small e ->
  halves e q r -> rest_later e r ->
  yields (tx_actions cfg addr (length l) e) (fun '(_, e') =>
    inv max s b e' /\ e_now e' = e_now e /\ e_pending e' = [] /\ clock_small e'
    /\ halves e' [] (e_queue e') /\ rest_later e' (e_queue e')
    /\ e_sent e' = e_sent e ++ flat_map (node_sends e) (map (mark false) q)).
Proof using live_s addr_new.
  induction l as [|id l IH]; intros b e q r Hp He Hc Hh Hl; cbn [length tx_actions].
  - pose proof (halves_actions _ _ _ Hh) as Hs. rewrite Hp in Hs. apply sublist_nil_r in Hs.
    apply map_eq_nil in Hs. subst q. cbn [map flat_map]. rewrite app_nil_r.
    pose proof Hh as []. cbn [app] in *. cbn [yields mret E_ret]. split_and!; try done; by rewrite halves_queue0.
  - eapply e_bind; [by apply (run_tx_action_effect b)|]. intros [] e1 (He1 & Hp1 & Heff).
    destruct (action_halves e id l q r e1) as (q1 & r1 & Hh1 & Hc1 & Hl1 & Hs1); try done.
    eapply yields_mono; [by apply (IH b e1 q1 r1)|].
    intros [[] e2] (He2 & Hn2 & Hp2 & Hc2 & Hh2 & Hl2 & Hs2). destruct Heff as (Hn1 & Hk & _).
    split_and!; try done; [congruence|]. rewrite Hs2, <- Hs1. f_equal.
    apply flat_map_ext. intros n. by apply node_sends_ext.
Qed.

End Deliver.

(** * A tick of the timer *)

Definition times (q : list tx_node) : list Z := map (fun n => tx_send_at (snd n)) q.

Lemma sorted_times q : StronglySorted sent_before q <-> StronglySorted Z.le (times q).
Proof.
  unfold times. induction q as [|n q IH]; [split; constructor|]. cbn [map]. split; intros Hs.
  - apply StronglySorted_inv in Hs as [Hs Hn]. constructor; [by apply IH|]. by apply Forall_map.
  - apply StronglySorted_inv in Hs as [Hs Hn]. constructor; [by apply IH|]. rewrite Forall_map in Hn. exact Hn.
Qed.

Lemma sorted_partition t r : StronglySorted sent_before r ->
  List.filter (past t) r ++ List.filter (fun n => negb (past t n)) r = r.
Proof.
  induction 1 as [|n r _ IH Hn]; [done|]. cbn [List.filter]. destruct (past t n) eqn:En; cbn [negb app].
  - by rewrite IH.
  - by destruct (filter_not_past t n r Hn En) as [-> ->].
Qed.

Lemma mark_times b q : times (map (mark b) q) = times q.
Proof. unfold times. rewrite map_map. by apply map_ext. Qed.

Lemma filter_all {A} (f : A -> bool) l : Forall (fun x => f x = true) l -> List.filter f l = l.
Proof. induction 1 as [|x l Hx _ IH]; [done|]. cbn [List.filter]. by rewrite Hx, IH. Qed.

Lemma timer_tick e q r : halves e q r -> clock_small e -> never_fails (e_heap e) -> e_accepts e = [] ->
  yields (mdns_priv_send_packets e) (fun '(_, e1) =>
    e_now e1 = e_now e /\ e_sent e1 = e_sent e /\ (forall k, off_at e1 k = off_at e k)
    /\ clock_small e1 /\ halves e1 (q ++ map (mark true) (List.filter (past (e_now e)) r))
                            (List.filter (fun n => negb (past (e_now e) n)) r)).
Proof.
  intros [Eq Hqd Hpa Huq Hst Hac] [Ht Hc] Hf Hacc. unfold mdns_priv_send_packets. apply e_gets.
  rewrite Eq, split_queued_halves by done. rewrite Eq in Hst, Hc. apply Forall_app in Hc as [Hc1 Hc2].
  assert (Hsr : StronglySorted sent_before r).
  { clear -Hst. induction q as [|n q IH]; [done|]. apply StronglySorted_inv in Hst as [? _]. auto. }
  eapply e_bind; [apply queue_due_all; [done|done|lia|done|done]|]. intros r' e1 [[h ->] ->].
  cbn [yields modify]. fields. set (d := List.filter (past (e_now e)) r).
  set (o := List.filter (fun n => negb (past (e_now e) n)) r).
  assert (Hr : d ++ o = r) by (by apply sorted_partition).
  assert (Htimes : times (q ++ map (mark true) d ++ o)
                   = times (q ++ r)).
  { rewrite <- Hr. unfold times. rewrite !map_app. f_equal. f_equal. apply mark_times. }
  split_and!; try done.
  - split; [done|]. fields. assert (Hall : Forall (fun z => 0 <= z < 2 ^ 31)%Z
      (times (q ++ map (mark true) d ++ o))).
    { rewrite Htimes. apply Forall_map, Forall_app. done. }
    unfold times in Hall.
    rewrite Forall_map in Hall. exact Hall.
  - split; fields; try done.
    + by rewrite app_assoc.
    + apply Forall_app. split; [done|]. apply Forall_map. apply Forall_true. done.
    + apply Forall_app. split; [done|]. apply Forall_map. apply List.Forall_forall.
      intros n Hn. by apply filter_In in Hn as [_ ?].
    + by apply Forall_filter_list.
    + apply sorted_times. rewrite Htimes. by apply sorted_times.
    + rewrite map_app. apply sublist_app; [done|]. rewrite map_map. done.
Qed.

(** C17. The queue delivers.  In a state where marked packets come first and in
    the order of their pending actions, with the clock away from its wrap
    around, a tick of the timer on which no allocation and no action is
    refused, followed by the pending actions, sends exactly the packets that
    are due, each once and in the order of their times (those of a control
    block that is off are dropped); afterwards nothing in the queue is due or
    marked, and the queue is in such a state again. *)
Theorem due_packets_sent cfg max addr s b e :
  server_live s -> (forall l, addr l ∉ l) -> inv max s b e -> tx_ordered e ->
  never_fails (e_heap e) -> e_accepts e = [] ->
  yields ((_ ← mdns_priv_send_packets; n ← gets (fun e => length (e_pending e)); tx_actions cfg addr n) e)
    (fun '(_, e') => inv max s b e' /\ tx_ordered e' /\ e_pending e' = []
      /\ Forall (fun n => past (e_now e) n = false /\ tx_queued (snd n) = false) (e_queue e')
      /\ e_sent e' = e_sent e
           ++ flat_map (node_sends e) (map (mark false) (List.filter (past (e_now e)) (e_queue e)))).
Proof.
  intros Hs Ha He [Hc (q & r & Hh)] Hf Hacc. pose proof Hh as [Eq Hqd Hpa Huq Hst Hac].
  eapply e_bind.
  { apply yields_and; [by apply (send_packets_ok max s b e He)|by apply (timer_tick e q r)]. }
  intros [] e1 [He1 (Hn1 & Hs1 & Hk1 & Hc1 & Hh1)]. apply e_gets.
  eapply yields_mono; [apply (tx_actions_drain cfg max addr s Hs Ha (e_pending e1) b e1 _ _ eq_refl He1 Hc1 Hh1)|].
  { unfold rest_later. rewrite Hn1. apply List.Forall_forall. intros n Hn. apply filter_In in Hn as [_ Hn].
    by apply negb_true_iff. }
  intros [[] e2] (He2 & Hn2 & Hp2 & Hc2 & Hh2 & Hl2 & Hs2). split_and!; try done.
  - split; [done|]. by exists [], (e_queue e2).
  - unfold rest_later in Hl2. rewrite Hn2, Hn1 in Hl2. pose proof (halves_unqueued _ _ _ Hh2) as Hu.
    rewrite Forall_forall in *. auto.
  - rewrite Hs2, Hs1. f_equal. rewrite (flat_map_ext _ _ (fun n => node_sends_ext e e1 n Hk1)).
    f_equal. rewrite Eq, List.filter_app, !map_app, map_map. f_equal. f_equal. symmetry. by apply filter_all.
Qed.

(** * When the queue stalls *)

(** The head is marked and no action for it is pending. *)
Definition stalled (e : engine) : Prop :=
  match e_queue e with
  | (id, p) :: _ => tx_queued p = true /\ id ∉ e_pending e
  | [] => False
  end.

(** The operations that drive the queue: the clock, the timer and the service
    task. *)
Definition drives (op : engine_op) : Prop :=
  match op with OpClock _ | OpTimer | OpTxAction => True | _ => False end.

Lemma stalled_timer max s b e : inv max s b e -> stalled e ->
  yields (mdns_priv_send_packets e) (fun '(_, e') => inv max s b e' /\ stalled e' /\ e_sent e' = e_sent e).
Proof.
  intros He Hst.
  assert (Heff : yields (mdns_priv_send_packets e) (fun '(_, e') => stalled e' /\ e_sent e' = e_sent e)).
  { unfold mdns_priv_send_packets, stalled in *. apply e_gets. pose proof He as (_ & [Hids Hw] & _).
    destruct (e_queue e) as [|[id p] q]; [done|]. destruct Hst as [Hq Hid]. cbn [split_queued snd].
    rewrite Hq. pose proof (split_queued_app q) as Hs. destruct (split_queued q) as [q1 q2]. cbn [fst snd] in Hs.
    apply Forall_cons in Hw as [_ Hw]. rewrite <- Hs in Hw. apply Forall_app in Hw as [_ Hw].
    eapply e_bind; [by apply (queue_due_ok max s b q2)|].
    intros q' e1 (_ & _ & _ & _ & _ & Hsent & l & Hp & Hl). cbn [yields modify]. fields. cbn [app].
    split; [|done]. split; [done|]. rewrite Hp. intros [?|Hin]%elem_of_app; [done|].
    cbn [map] in Hids. apply NoDup_cons in Hids as [Hn _]. apply Hn. rewrite <- Hs, map_app. apply elem_of_app.
    right. by eapply sublist_subseteq. }
  eapply yields_mono; [apply (yields_and _ _ _ (send_packets_ok max s b e He) Heff)|].
  by intros [[] e'] [? [? ?]].
Qed.

Lemma stalled_action cfg max addr s b e : server_live s -> (forall l, addr l ∉ l) ->
  inv max s b e -> stalled e ->
  yields (run_tx_action cfg addr e) (fun '(_, e') => inv max s b e' /\ stalled e' /\ e_sent e' = e_sent e).
Proof.
  intros Hs Ha He Hst. destruct (e_pending e) as [|id l] eqn:Ep.
  { unfold run_tx_action. apply e_gets. by rewrite Ep. }
  eapply yields_mono; [by apply (run_tx_action_effect cfg max addr s Hs Ha b e id l)|].
  intros [[] e'] (He' & Hp' & _ & _ & Heff). split; [done|]. unfold stalled in *.
  destruct (e_queue e) as [|[i p] q]; [done|]. destruct Hst as [Hq Hi]. rewrite Ep in Hi.
  apply not_elem_of_cons in Hi as [Hne Hi]. rewrite (proj2 (Pos.eqb_neq i id)) in Heff by done.
  destruct Heff as [Hsent Hqueue]. rewrite Hqueue, Hp'. done.
Qed.

