(* ===== verification/EngineStartup.v ===== *)
(** From enabling an interface to the end of its announcements. *)
From S2P Require Import Prelude Names Server Encode EncodeSafe Heap Collision Answers AnswersProofs Engine EngineProofs EngineSteps EngineLive.

(** Time passes, the timer ticks, the service task runs. *)
Definition tick (t : Z) : list engine_op := [OpClock t; OpTimer; OpTxAction].

(** The records of a packet, without its questions and its place in the queue. *)
Definition same_records (p p' : mdns_tx_packet_t) : Prop :=
  forall sec, get_section p' sec = get_section p sec.

Lemma granted_same p p' r : same_records p p' -> granted p r -> granted p' r.
Proof. intros Hs. unfold granted. by rewrite Hs. Qed.

Lemma e_hop_never {A B} (m : H A) (f : A -> E B) e P Q : hspecn true m P -> never_fails (e_heap e) ->
  (forall a h, never_fails h -> P a (live h - live (e_heap e))%Z -> yields (f a (set_heap e h)) Q) ->
  yields ((hop m ≫= f) e) Q.
Proof.
  intros Hm Hn Hf. pose proof (hspecn_never m P (e_heap e) Hm Hn) as Hy.
  unfold mbind, E_bind, hop. destruct (m (e_heap e)) as [[a h]| | |]; try done.
  cbn in Hy. destruct Hy. by apply Hf.
Qed.

Section Startup.
Context (cfg : config) (max : nat) (addr : list positive -> positive) (s : mdns_server_t).
Context (i : mdns_if_t) (proto : mdns_ip_protocol_t).
Hypothesis live_s : server_live s.

(** One packet is under way, on the control block of the interface, and nothing
    is pending. *)
Record solo (st : mdns_pcb_state_t) (p : mdns_tx_packet_t) (e : engine) : Prop := {
  solo_server : e_server e = Some s;
  solo_queue : exists id, e_queue e = [(id, p)];
  solo_pending : e_pending e = [];
  solo_accepts : e_accepts e = [];
  solo_heap : never_fails (e_heap e);
  solo_pcb : exists pcb, e_pcbs e !! pcb_index i proto = Some pcb /\ state pcb = st;
  solo_unqueued : tx_queued p = false;
  solo_if : tx_if p = i;
  solo_proto : tx_ip_protocol p = proto;
  solo_wf : packet_wf s p;
}.

(** The packet is due at [t], and [t] is not near the wrap around. *)
Definition on_time (p : mdns_tx_packet_t) (t : Z) : Prop :=
  (0 <= tx_send_at p < t /\ t + 1000 < 2 ^ 31)%Z.

Lemma send_packets_solo e id p : e_queue e = [(id, p)] -> tx_queued p = false ->
  due (e_now e) p = true -> never_fails (e_heap e) -> e_accepts e = [] ->
  mdns_priv_send_packets e = Ret (tt, set_queue (set_pending (set_accepts (set_heap e
    (mk_heap [] (live (e_heap e) + 1))) []) (e_pending e ++ [id])) [(id, set_queued p true)]).
Proof.
  intros Hq Huq Hd Hh Ha. unfold mdns_priv_send_packets, mbind, E_bind, gets. rewrite Hq.
  cbn [split_queued snd]. rewrite Huq. cbn [queue_due]. unfold mbind, E_bind, gets. rewrite Hd.
  unfold hop, malloc. rewrite Hh. cbn [negb]. unfold mdns_priv_queue_action. fields. by rewrite Ha.
Qed.

(** The timer marks the packet and the service task takes it out. *)
Lemma tick_handles st p e t Q : solo st p e -> on_time p t ->
  (forall id e1, e_server e1 = Some s -> e_queue e1 = [] -> e_pending e1 = [] -> e_accepts e1 = [] ->
     never_fails (e_heap e1) -> e_pcbs e1 = e_pcbs e -> e_now e1 = t -> e_sent e1 = e_sent e ->
     yields (handle_packet cfg addr (id, p) e1) (fun r => never_fails (e_heap (snd r))
       /\ forall h, never_fails h -> Q (tt, set_heap (snd r) h))) ->
  yields (for_each (tick t) (run_op cfg max addr) e) Q.
Proof.
  intros [Hs [id Hq] Hp Ha Hh _ Huq _ _ _] [Ht1 Ht2] Hhandle. cbn [tick for_each run_op].
  assert (Hdue : due t p = true).
  { pose proof (due_past t (id, p)) as Hd. cbn [snd] in Hd. rewrite Hd by lia.
    unfold past. cbn [snd]. apply Z.ltb_lt. lia. }
  apply e_modify. rewrite u32_id by lia.
  change ((mdns_priv_send_packets ≫= ?f) ?x) with (match mdns_priv_send_packets x with
    | Ret (a, e') => f a e' | Failed => Failed | BadAccess => BadAccess | OutOfFuel => OutOfFuel end).
  rewrite (send_packets_solo _ id p) by done. fields. rewrite Hp. cbn [app].
  eapply e_bind; [|intros [] e2 He2; exact He2].
  unfold run_tx_action. apply e_gets. fields. apply e_modify. eapply e_bind.
  { unfold send_packet. apply e_gets. fields. rewrite Pos.eqb_refl. cbn [andb set_queued tx_queued].
    apply e_modify. fields. replace (set_queued (set_queued p true) false) with p.
    - apply Hhandle; done.
    - unfold set_queued. destruct p. cbn in Huq. by rewrite <- Huq. }
  intros [] e2 [Hh2 HQ]. cbn [yields hop mfree]. apply HQ. exact Hh2.
Qed.

(** After the tick: the packet went out, and [p'] is under way in state [st]. *)
Definition goes_on (st : mdns_pcb_state_t) (p' : mdns_tx_packet_t) (at_ : Z) (e e' : engine)
    (sent : mdns_tx_packet_t) : Prop :=
  solo st p' e' /\ tx_send_at p' = at_ /\ e_sent e' = e_sent e ++ [sent].

(** Handling a packet whose control block is on: it is sent and scheduled. *)
Lemma handle_on id p e1 pcb Q : tx_if p = i -> tx_ip_protocol p = proto ->
  e_pcbs e1 !! pcb_index i proto = Some pcb -> state pcb <> PCB_OFF ->
  yields (mdns_priv_pcb_schedule_tx_packet cfg addr (id, p) (set_sent e1 (e_sent e1 ++ [p]))) Q ->
  yields (handle_packet cfg addr (id, p) e1) Q.
Proof.
  intros Hi Hpr Hp Hst HQ. unfold handle_packet, mdns_priv_pcb_is_off. cbn [snd]. rewrite Hi, Hpr.
  unfold mbind at 1, E_bind. unfold mbind at 1, E_bind, get_pcb. rewrite Hp. cbn [mret E_ret].
  rewrite bool_decide_false by done. exact HQ.
Qed.

(** The states in which the same packet is sent again, and when. *)
Definition again (st : mdns_pcb_state_t) : option Z :=
  match st with
  | PCB_PROBE_1 | PCB_PROBE_2 => Some 250%Z
  | PCB_ANNOUNCE_1 | PCB_ANNOUNCE_2 => Some 1000%Z
  | _ => None
  end.

Lemma tick_again st p e t ms : solo st p e -> on_time p t -> again st = Some ms ->
  yields (for_each (tick t) (run_op cfg max addr) e) (fun '(_, e') => exists p',
    goes_on (pcb_state_next st) p' (t + ms) e e' p /\ same_records p p'
    /\ (st = PCB_PROBE_1 -> Forall (fun q => oq_unicast q = false) (tx_questions p'))
    /\ (st <> PCB_PROBE_1 -> tx_questions p' = tx_questions p)).
Proof.
  intros Hsolo Ht Hag. pose proof Hsolo as [_ _ _ _ _ (pcb & Hp & Hst) Huq Hi Hpr Hwf].
  eapply tick_handles; [exact Hsolo|exact Ht|]. intros id e1 Hs1 Hq1 Hpe1 Ha1 Hh1 Hpc1 Hn1 Hse1.
  assert (Hoff : state pcb <> PCB_OFF) by (rewrite Hst; by intros ->).
  eapply (handle_on _ _ _ pcb); [done|done|by rewrite Hpc1|done|].
  set (p' := if decide (st = PCB_PROBE_1)
             then set_questions p (map (fun q => set_unicast q false) (tx_questions p)) else p).
  assert (Hwf' : packet_wf s p') by (unfold p'; case_decide; [by apply map_unicast_wf|done]).
  assert (Hmain : yields ((mdns_priv_send_after (id, p') ms ≫= fun _ =>
      put_pcb i proto (pcb_set_state pcb (pcb_state_next st))) (set_sent e1 (e_sent e1 ++ [p])))
    (fun r => never_fails (e_heap (snd r)) /\ forall h, never_fails h ->
       exists p'', goes_on (pcb_state_next st) p'' (t + ms) e (set_heap (snd r) h) p /\ same_records p p''
       /\ (st = PCB_PROBE_1 -> Forall (fun q => oq_unicast q = false) (tx_questions p''))
       /\ (st <> PCB_PROBE_1 -> tx_questions p'' = tx_questions p))).
  { split; [exact Hh1|]. intros h Hh. exists (set_send_at p' (t + ms)). fields. rewrite Hn1, Hq1.
    assert (Hms : (0 <= ms <= 1000)%Z) by (unfold again in Hag; destruct st; simplify_eq; lia).
    destruct Ht as [Ht1 Ht2]. rewrite (u32_id (t + ms)) by lia.
    split_and!.
    - split; [|split; [done|fields; by rewrite Hse1]]. split; fields; try done.
      + by exists id.
      + exists (pcb_set_state pcb (pcb_state_next st)). split; [|done]. rewrite Hpc1.
        apply list_lookup_insert_eq. by eapply lookup_lt_Some.
      + unfold p'. by case_decide.
      + unfold p'. by case_decide.
      + unfold p'. by case_decide.
      + destruct Hwf' as [[] Hd]. split; [by split|]. intros sec. specialize (Hd sec). by destruct sec.
    - intros sec. unfold p'. case_decide; by destruct sec.
    - intros ->. unfold p'. rewrite decide_True by done. cbn. apply Forall_map, Forall_true. done.
    - intros Hne. unfold p'. by rewrite decide_False. }
  unfold mdns_priv_pcb_schedule_tx_packet. rewrite Hi, Hpr.
  eapply e_get_pcb; [fields; rewrite Hpc1; exact Hp|]. apply e_gets. cbn zeta. rewrite Hst.
  unfold again in Hag. destruct st; simplify_eq; exact Hmain.
Qed.

Lemma e_free_never {B} n (f : unit -> E B) e Q : never_fails (e_heap e) ->
  (forall h, never_fails h -> yields (f tt (set_heap e h)) Q) -> yields ((hop (mfree n) ≫= f) e) Q.
Proof. intros Hh Hf. apply (Hf (mk_heap (fails (e_heap e)) (live (e_heap e) - n))). exact Hh. Qed.

(** After the third probe the announcement is made from it. *)
Lemma tick_announces p e t : solo PCB_PROBE_3 p e -> on_time p t ->
  yields (for_each (tick t) (run_op cfg max addr) e) (fun '(_, e') => exists a,
    goes_on PCB_ANNOUNCE_1 a (t + 250) e e' p /\ Forall (announced s a) (tx_servers p)).
Proof using live_s.
  intros Hsolo Ht. pose proof Hsolo as [_ _ _ _ _ (pcb & Hp & Hst) Huq Hi Hpr Hwf].
  eapply tick_handles; [exact Hsolo|exact Ht|]. intros id e1 Hs1 Hq1 Hpe1 Ha1 Hh1 Hpc1 Hn1 Hse1.
  eapply (handle_on _ _ _ pcb); [done|done|by rewrite Hpc1|by rewrite Hst|].
  unfold mdns_priv_pcb_schedule_tx_packet. rewrite Hi, Hpr.
  eapply e_get_pcb; [fields; rewrite Hpc1; exact Hp|]. apply e_gets. cbn zeta. rewrite Hst. fields. rewrite Hs1.
  eapply e_hop_never; [apply (announce_from_probe_builds true cfg s live_s p Hwf)|exact Hh1|].
  intros [a|] h2 Hh2 [Hb Han]; cbn [builds] in Hb; [|by destruct Hb].
  destruct Hb as (_ & Hwa & Hia & Hpa & Hqa). rewrite Hi in Hia. rewrite Hpr in Hpa.
  apply e_free_never; [exact Hh2|]. intros h3 Hh3. apply e_modify. fields.
  apply e_free_never; [exact Hh3|]. intros h4 Hh4. fields.
  split; [exact Hh4|]. intros h Hh. fields. rewrite Hn1, Hq1. destruct Ht as [Ht1 Ht2].
  rewrite (u32_id (t + 250)) by lia. exists (set_send_at a (t + 250)). split; [|exact Han].
  split; [|split; [done|fields; by rewrite Hse1]]. split; fields; try done.
  - by eexists.
  - exists (mk_pcb PCB_ANNOUNCE_1 None 0 false false 0). split; [|done].
    apply list_lookup_insert_eq. rewrite length_insert, Hpc1. by eapply lookup_lt_Some.
  - destruct Hwa as [[] Hd]. split; [by split|]. intros sec. specialize (Hd sec). by destruct sec.
Qed.

(** The last announcement. *)
Lemma tick_ends p e t : solo PCB_ANNOUNCE_3 p e -> on_time p t ->
  yields (for_each (tick t) (run_op cfg max addr) e) (fun '(_, e') =>
    e_queue e' = [] /\ e_pending e' = [] /\ e_sent e' = e_sent e ++ [p]
    /\ exists pcb, e_pcbs e' !! pcb_index i proto = Some pcb /\ state pcb = PCB_RUNNING).
Proof.
  intros Hsolo Ht. pose proof Hsolo as [_ _ _ _ _ (pcb & Hp & Hst) Huq Hi Hpr Hwf].
  eapply tick_handles; [exact Hsolo|exact Ht|]. intros id e1 Hs1 Hq1 Hpe1 Ha1 Hh1 Hpc1 Hn1 Hse1.
  eapply (handle_on _ _ _ pcb); [done|done|by rewrite Hpc1|by rewrite Hst|].
  unfold mdns_priv_pcb_schedule_tx_packet. rewrite Hi, Hpr.
  eapply e_get_pcb; [fields; rewrite Hpc1; exact Hp|]. apply e_gets. cbn zeta. rewrite Hst. fields.
  apply e_modify. cbn [yields hop mfree mdns_priv_free_tx_packet]. split; [exact Hh1|]. intros h Hh. fields.
  split_and!; [done|done|by rewrite Hse1|]. exists (pcb_set_state pcb PCB_RUNNING). split; [|done].
  apply list_lookup_insert_eq. rewrite Hpc1. by eapply lookup_lt_Some.
Qed.

Lemma e_random {B} (f : Z -> E B) e Q : (forall r rs, yields (f r (set_random e rs)) Q) ->
  yields ((esp_random ≫= f) e) Q.
Proof.
  intros Hf. unfold mbind, E_bind, esp_random. destruct (e_random e) as [|r rs] eqn:Er; [|apply Hf].
  specialize (Hf 0%Z []). rewrite <- Er in Hf. by destruct e.
Qed.

(** The array of a control block that has none. *)
Lemma extend_fresh pcb l e1 : probe_services pcb = None -> probe_services_len pcb = 0%Z ->
  never_fails (e_heap e1) ->
  yields (extend_probe_array pcb l e1) (fun '(r, e') => exists arr h, r = Some arr
    /\ e' = set_heap e1 h /\ never_fails h /\ (arr = Some l \/ l = [] /\ arr = None)).
Proof.
  intros Hps Hlen Hh. unfold extend_probe_array, services_final_len. rewrite Hps, Hlen.
  replace (length l + _) with (length l) by (destruct (PCB_STATE_IS_PROBING (state pcb)); lia).
  destruct (length l =? 0) eqn:El.
  - apply Nat.eqb_eq, length_zero_iff_nil in El as ->. exists None, (e_heap e1).
    split_and!; auto. by destruct e1.
  - apply e_malloc_never; [done|]. cbn [negb]. rewrite Nat.ltb_irrefl. cbn.
    by exists (Some l), (mk_heap [] (live (e_heap e1) + 1)); split_and!; auto.
Qed.

Lemma probe_starts pcb e : e_server e = Some s -> e_queue e = [] -> e_pending e = [] -> e_accepts e = [] ->
  never_fails (e_heap e) -> e_pcbs e !! pcb_index i proto = Some pcb -> state pcb = PCB_OFF ->
  probe_services pcb = None -> probe_services_len pcb = 0%Z -> failed_probes pcb = 0%Z ->
  yields (restart_pcb cfg addr i proto e) (fun '(_, e') => exists p r,
    solo PCB_PROBE_1 p e' /\ tx_send_at p = u32 (e_now e + (120 + Z.land r 0x7F)) /\ e_sent e' = e_sent e
    /\ Forall (fun j => granted p (srv_request j)) (map fst (s_services s))).
Proof using live_s.
  intros Hs Hq Hpe Ha Hh Hp Hst Hps Hlen Hfp. unfold restart_pcb. apply e_gets. rewrite Hs.
  cbn [mdns_priv_get_services]. set (l := map fst (s_services s)).
  unfold mdns_priv_init_pcb_probe. eapply e_bind.
  { instantiate (1 := fun '(_, e1) => exists h, e1 = set_queue (set_heap e h) [] /\ never_fails h).
    unfold mdns_priv_clear_tx_queue_if. apply e_gets. rewrite Hq. apply e_free_never; [done|].
    intros h1 Hh1. by exists h1. }
  intros [] e1 (h1 & -> & Hh1). eapply e_get_pcb; [exact Hp|]. apply e_gets. fields. rewrite Hs.
  destruct live_s as [Hok _]. destruct (server_hostname _ Hok) as (hn & Ehn & Hne & _).
  cbn [mdns_priv_get_global_hostname option_bind mbind]. rewrite Ehn. destruct hn as [|c hn]; [done|].
  cbn [mdns_utils_str_null_or_empty]. rewrite Hst. cbn [PCB_STATE_IS_PROBING].
  unfold init_probe_new_service. eapply e_get_pcb; [exact Hp|]. apply e_gets. fields. rewrite Hs. cbn zeta.
  eapply e_bind; [by apply extend_fresh|]. intros r e2 (arr & h2 & -> & -> & Hh2 & Harr).
  assert (Hreg : services_live s arr).
  { destruct Harr as [->|[_ ->]]; [|done]. apply List.Forall_forall. intros j (x & <- & Hx)%in_map_iff.
    pose proof (services_registered s) as Hr. rewrite List.Forall_forall in Hr. by apply Hr. }
  apply e_modify. eapply e_hop_never;
    [apply (probe_packet_builds true cfg s live_s i proto arr true _ Hreg)|done|].
  intros [p|] h3 Hh3 [Hb Hpr]; cbn [builds] in Hb; [|by destruct Hb].
  destruct Hb as (_ & Hwf & Hi & Hpro & Hqd).
  assert (Hgr : Forall (fun j => granted p (srv_request j)) l).
  { destruct Harr as [->|[-> _]]; [exact Hpr|constructor]. }
  rewrite Hfp. cbn [Z.ltb Z.compare].
  apply e_random. intros r rs. exists (set_send_at p (u32 (e_now e + (120 + Z.land r 0x7F)))), r. fields.
  split; [|by split; [|split]]. split; fields; try done.
  - by eexists.
  - eexists. split; [apply list_lookup_insert_eq; rewrite length_insert; by eapply lookup_lt_Some|done].
  - destruct Hwf as [[] Hd]. split; [by split|]. intros sec. specialize (Hd sec). by destruct sec.
Qed.

(** Enabling the interface puts the first probe under way. *)
Lemma enable_starts e : started max s e -> i < max -> never_fails (e_heap e) ->
  e_accepts e = [] -> e_inits e = [] ->
  yields (mdns_priv_pcb_enable cfg addr i proto e) (fun '(_, e') => exists p r,
    solo PCB_PROBE_1 p e' /\ tx_send_at p = u32 (e_now e + (120 + Z.land r 0x7F)) /\ e_sent e' = e_sent e
    /\ Forall (fun j => granted p (srv_request j)) (map fst (s_services s))).
Proof using live_s.
  intros (Hs & Hq & Hpe & Hpc & _) Hi Hh Ha Hin.
  assert (Hp : e_pcbs e !! pcb_index i proto = Some (mk_pcb PCB_OFF None 0 false false 0)).
  { rewrite Hpc. apply lookup_replicate_2. unfold pcb_index. destruct proto; cbn [proto_num]; lia. }
  unfold mdns_priv_pcb_enable. apply e_gets. destruct (e_ready e i proto) eqn:Hr.
  - apply e_ret_bind. by apply (probe_starts _ _ Hs Hq Hpe Ha Hh Hp).
  - unfold mdns_priv_if_init. unfold mbind, E_bind. rewrite Hr, Hin. cbn [next_bool].
    by apply (probe_starts _ (set_ready e _ []) Hs Hq Hpe Ha Hh Hp).
Qed.

(** The services of the probe are announced by what is made from it. *)
Lemma announced_services p a l : Forall (fun j => granted p (srv_request j)) l ->
  Forall (announced s a) (tx_servers p) ->
  Forall (fun j => Forall (granted a) (announce_requests (Some j))) l.
Proof.
  intros Hl Han. eapply Forall_impl; [exact Hl|]. intros j Hj.
  apply in_map_iff in Hj as (x & Hx & Hin). injection Hx as Ht Hsv _.
  rewrite List.Forall_forall in Han. destruct (Han x Hin) as [H1 _].
  destruct (H1 Ht) as [Hg _]. by rewrite Hsv in Hg.
Qed.

End Startup.

Lemma for_each_app {A} (l k : list A) (f : A -> E unit) e P Q : yields (for_each l f e) P ->
  (forall e', P (tt, e') -> yields (for_each k f e') Q) -> yields (for_each (l ++ k) f e) Q.
Proof.
  revert e. induction l as [|x l IH]; intros e Hl Hk; cbn [app for_each].
  - by apply Hk.
  - cbn [for_each] in Hl. revert Hl. unfold mbind, E_bind.
    destruct (f x e) as [[[] e1]| | |]; try done. intros Hl. by apply IH.
Qed.

(** The times of the ticks are far enough apart for the packet under way to be due. *)
Definition spaced (now : Z) (t1 t2 t3 t4 t5 t6 : Z) : Prop :=
  (0 <= now /\ now + 247 < t1 /\ t1 + 250 < t2 /\ t2 + 250 < t3 /\ t3 + 250 < t4 /\ t4 + 1000 < t5
   /\ t5 + 1000 < t6 /\ t6 + 1000 < 2 ^ 31)%Z.

(** C19. Starting up: an interface of a fresh engine is enabled, then the timer
    ticks and the service task runs six times, each time the packet under way is
    due.  While no allocation fails and the task's queue has room, three probes go
    out, which hold the SRV record of every service and of which only the first
    may ask for unicast answers, then three announcements that hold the SDPTR,
    PTR, SRV and TXT records of every service; then the control block is running
    and nothing is left in the queue. *)
Theorem startup_completes cfg max addr s e i proto t1 t2 t3 t4 t5 t6 :
  server_live s -> started max s e -> i < max -> never_fails (e_heap e) -> e_accepts e = [] ->
  e_inits e = [] -> spaced (e_now e) t1 t2 t3 t4 t5 t6 ->
  yields (for_each (OpEnable i proto :: flat_map tick [t1; t2; t3; t4; t5; t6]) (run_op cfg max addr) e)
    (fun '(_, e') => e_queue e' = [] /\ e_pending e' = []
      /\ (exists pcb, e_pcbs e' !! pcb_index i proto = Some pcb /\ state pcb = PCB_RUNNING)
      /\ exists probes announces, e_sent e' = e_sent e ++ probes ++ announces
         /\ length probes = 3 /\ length announces = 3
         /\ Forall (fun p => Forall (fun j => granted p (srv_request j)) (map fst (s_services s))) probes
         /\ Forall (fun p => Forall (fun q => oq_unicast q = false) (tx_questions p)) (tail probes)
         /\ Forall (fun a => Forall (fun j => Forall (granted a) (announce_requests (Some j)))
                               (map fst (s_services s))) announces).
Proof.
  intros Hl Hst Hi Hh Ha Hin (H0 & H1 & H2 & H3 & H4 & H5 & H6 & H7).
  cbn [for_each run_op]. eapply e_bind; [by apply (enable_starts cfg max addr s i proto Hl)|]. cbn beta.
  intros [] e1 (p1 & r & Hs1 & Hat & Hse1 & Hg1).
  assert (Hr : (0 <= Z.land r 0x7F <= 127)%Z).
  { replace (Z.land r 0x7F) with (r mod 2 ^ 7)%Z by (symmetry; by apply (Z.land_ones r 7)).
    pose proof (Z.mod_pos_bound r (2 ^ 7) eq_refl). lia. }
  rewrite u32_id in Hat by lia. cbn [flat_map].
  eapply for_each_app; [eapply (tick_again cfg max addr s i proto PCB_PROBE_1 p1 e1 t1 250 Hs1); [|done];
    split; lia|].
  intros e2 (p2 & (Hs2 & Hat2 & Hse2) & Hr2 & Hu2 & _). specialize (Hu2 eq_refl).
  eapply for_each_app; [eapply (tick_again cfg max addr s i proto PCB_PROBE_2 p2 e2 t2 250 Hs2); [|done];
    split; lia|].
  intros e3 (p3 & (Hs3 & Hat3 & Hse3) & Hr3 & _ & Hu3). specialize (Hu3 ltac:(done)).
  eapply for_each_app; [eapply (tick_announces cfg max addr s i proto Hl p3 e3 t3 Hs3); split; lia|].
  intros e4 (a1 & (Hs4 & Hat4 & Hse4) & Han).
  eapply for_each_app; [eapply (tick_again cfg max addr s i proto PCB_ANNOUNCE_1 a1 e4 t4 1000 Hs4); [|done];
    split; lia|].
  intros e5 (a2 & (Hs5 & Hat5 & Hse5) & Hr5 & _).
  eapply for_each_app; [eapply (tick_again cfg max addr s i proto PCB_ANNOUNCE_2 a2 e5 t5 1000 Hs5); [|done];
    split; lia|].
  intros e6 (a3 & (Hs6 & Hat6 & Hse6) & Hr6 & _).
  eapply for_each_app; [eapply (tick_ends cfg max addr s i proto a3 e6 t6 Hs6); split; lia|].
  intros e7 (Hq7 & Hp7 & Hse7 & Hpcb). split_and!; [done|done|done|].
  assert (Hg2 : Forall (fun j => granted p2 (srv_request j)) (map fst (s_services s)))
    by (eapply Forall_impl; [exact Hg1|]; intros j; by apply granted_same).
  assert (Hg3 : Forall (fun j => granted p3 (srv_request j)) (map fst (s_services s)))
    by (eapply Forall_impl; [exact Hg2|]; intros j; by apply granted_same).
  assert (Ha1 := announced_services s p3 a1 _ Hg3 Han).
  exists [p1; p2; p3], [a1; a2; a3]. split_and!; try done.
  - rewrite Hse7, Hse6, Hse5, Hse4, Hse3, Hse2, Hse1, <- !app_assoc. done.
  - by repeat constructor.
  - repeat constructor; [done|]. by rewrite Hu3.
  - assert (Hsame : forall a a', same_records a a' -> Forall (fun j => Forall (granted a)
      (announce_requests (Some j))) (map fst (s_services s)) -> Forall (fun j => Forall (granted a')
      (announce_requests (Some j))) (map fst (s_services s))).
    { intros a a' Hs Hg. eapply Forall_impl; [exact Hg|]. intros j Hj. eapply Forall_impl; [exact Hj|].
      intros rq. by apply granted_same. }
    repeat constructor; eauto.
Qed.
