(* ===== verification/EngineExamples.v ===== *)
(** Runs of the engine on a concrete server. *)
From S2P Require Import Prelude Names Server Encode EncodeSafe NameExamples Heap Collision Answers AnswersProofs AnswersExamples Engine EngineProofs EngineSteps EngineLive EngineStartup.

Definition example_engine (fails : list bool) (accepts : list bool) : engine :=
  mk_engine (Some example_server) (mk_heap fails 0) []
    (replicate 4 (mk_pcb PCB_OFF None 0 false false 0)) [] 1000
    (fun _ _ => false) (fun _ => 2) (fun _ => None) [] accepts [] [].

Lemma example_started fails accepts : started 2 example_server (example_engine fails accepts).
Proof. split_and!; done. Qed.

Lemma example_counted : services_counted example_server.
Proof. split; [cbn; lia|]. apply NoDup_singleton. Qed.

Definition run (op : engine_op) : E unit := run_op default_config 2 next_addr op.

Definition run_ops (ops : list engine_op) : E unit := for_each ops run.

Definition V4 : mdns_ip_protocol_t := MDNS_IP_PROTOCOL_V4.

(** From enabling an interface to the end of the announcements: three probes, the
    first of them asking for unicast answers, and three announcements. *)
Definition startup : list engine_op :=
  OpEnable 0 V4 :: flat_map tick [1250; 1550; 1850; 2150; 3200; 4300]%Z.

Example startup_runs :
  match run_ops startup (example_engine [] []) with
  | Ret (_, e) =>
      map state (e_pcbs e) = [PCB_RUNNING; PCB_OFF; PCB_OFF; PCB_OFF] /\ e_queue e = []
      /\ map (fun p => (length (tx_questions p), existsb oq_unicast (tx_questions p), length (tx_answers p)))
           (e_sent e)
         = [(3, true, 0); (3, false, 0); (3, false, 0); (0, false, 6); (0, false, 6); (0, false, 6)]
      /\ live (e_heap e) = 0%Z
  | _ => False
  end.
Proof. vm_compute. repeat split. Qed.

Lemma engine_safe_witness :
  exists e', run (OpEnable 0 V4) (example_engine [false; true] []) = Ret (tt, e')
    /\ inv 2 example_server 0 e'.
Proof.
  destruct (engine_safe default_config 2 next_addr example_server (example_engine [false; true] []) 0
              (example_engine [false; true] []) (OpEnable 0 V4)
              example_server_live example_counted next_addr_new (example_started _ _)
              (reaches_refl _ _ _ _ _ _) ltac:(cbn; lia)) as (e' & H1 & H2).
  exists e'. split; [exact H1|exact H2].
Defined.

(** Runs keep the invariant. *)
Fixpoint allowed_all (e : engine) (ops : list engine_op) : Prop :=
  match ops with
  | [] => True
  | op :: ops => op_allowed 2 example_server e op /\ op_blocks op = 0%Z
      /\ match run op e with Ret (_, e) => allowed_all e ops | _ => False end
  end.

Lemma run_ops_inv ops : forall e, inv 2 example_server 0 e -> allowed_all e ops ->
  yields (run_ops ops e) (fun '(_, e') => inv 2 example_server 0 e').
Proof.
  induction ops as [|op ops IH]; intros e He Hops; [exact He|].
  destruct Hops as (Hop & Hb & Hops).
  pose proof (run_op_ok default_config 2 next_addr example_server example_server_live example_counted
    next_addr_new 0 e op He Hop) as Hrun. rewrite Hb in Hrun.
  change (run_ops (op :: ops) e) with ((_ ← run op; run_ops ops) e). unfold mbind, E_bind.
  unfold run in *. destruct (run_op default_config 2 next_addr op e) as [[[] e1]| | |]; try done.
  by apply IH.
Qed.

Definition after (ops : list engine_op) (e : engine) : engine :=
  match run_ops ops e with Ret (_, e') => e' | _ => e end.

Lemma after_inv ops fails accepts : allowed_all (example_engine fails accepts) ops ->
  inv 2 example_server 0 (after ops (example_engine fails accepts)).
Proof.
  intros Hops. unfold after.
  pose proof (run_ops_inv ops _ (started_inv 2 example_server _ (example_started fails accepts)) Hops) as H.
  by destruct (run_ops ops (example_engine fails accepts)) as [[[] e]| | |].
Qed.

(** Two interfaces whose probes are due. *)
Definition two_probes : list engine_op := [OpEnable 0 V4; OpEnable 1 V4; OpClock 2000].

Definition probing_engine : engine := after two_probes (example_engine [] []).

Lemma probing_inv : inv 2 example_server 0 probing_engine.
Proof. apply after_inv. vm_compute. repeat split; lia. Qed.

Lemma two_unqueued_ordered e : e_now e = 2000%Z ->
  map (fun n : tx_node => (tx_send_at (snd n), tx_queued (snd n))) (e_queue e)
  = [(1120%Z, false); (1120%Z, false)] -> tx_ordered e.
Proof.
  intros Hn Ht. destruct (e_queue e) as [|n [|m [|]]] eqn:Eq; try done.
  injection Ht as Hn1 Hn2 Hm1 Hm2. split.
  - split; [rewrite Hn; lia|]. rewrite Eq. repeat constructor; lia.
  - exists [], [n; m]. split; rewrite ?Eq; try done; try by constructor.
    + repeat constructor; done.
    + constructor; [repeat constructor|]. repeat constructor. unfold sent_before. lia.
    + apply sublist_nil_l.
Qed.

Lemma probing_ordered : tx_ordered probing_engine.
Proof. apply two_unqueued_ordered; vm_compute; reflexivity. Qed.

Lemma due_packets_sent_witness :
  yields ((_ ← mdns_priv_send_packets; n ← gets (fun e => length (e_pending e));
           tx_actions default_config next_addr n) probing_engine)
    (fun '(_, e') => e_pending e' = [] /\ length (e_sent e') = 2).
Proof.
  eapply yields_mono.
  - apply (due_packets_sent default_config 2 next_addr example_server 0 probing_engine example_server_live
             next_addr_new probing_inv probing_ordered); vm_compute; reflexivity.
  - intros [[] e'] (_ & _ & Hp & _ & Hs). split; [exact Hp|]. rewrite Hs. vm_compute. reflexivity.
Defined.

(** * Where the queue stalls *)

(** The action queue refuses the action for the first probe and takes that for
    the second; the second is skipped, because it is not the head; then the
    first interface goes down and its packet is removed. *)
Definition to_stall : list engine_op :=
  two_probes ++ [OpTimer; OpTxAction; OpDisable 0 V4].

Definition stalled_engine : engine := after to_stall (example_engine [] [false]).

Lemma stalled_engine_stalled : stalled stalled_engine.
Proof. vm_compute. split; [reflexivity|]. apply not_elem_of_nil. Qed.

Lemma stalled_engine_inv : inv 2 example_server 0 stalled_engine.
Proof. apply after_inv. vm_compute. repeat split; lia. Qed.


(** * Where an array is overrun *)

(** A conflicting packet that was received before an interface went down is
    handled afterwards, and starts a probe there; the interface goes down
    again before the probe is over, and comes up. *)
Definition to_overrun : list engine_op :=
  [OpEnable 0 V4; OpDisable 0 V4; OpProbe 0 V4 [1%positive] false; OpDisable 0 V4].

(** Enabling the interface then writes behind the end of the new array. *)
Lemma probe_array_overrun :
  (exists e, run_ops to_overrun (example_engine [] []) = Ret (tt, e))
  /\ run (OpEnable 0 V4) (after to_overrun (example_engine [] [])) = BadAccess.
Proof. split; [eexists|]; vm_compute; reflexivity. Qed.

(** * Where a probe is lost *)

(** A conflict restarts the probe while no memory is left for it: the packet is
    gone from the queue, and the control block waits for it in its state. *)
Lemma probe_lost :
  let e := after [OpEnable 0 V4; OpProbe 0 V4 [1%positive] false]
             (example_engine (replicate 11 false ++ [true]) []) in
  map state (e_pcbs e) = [PCB_PROBE_1; PCB_OFF; PCB_OFF; PCB_OFF] /\ e_queue e = [].
Proof. vm_compute. split; reflexivity. Qed.

Lemma startup_completes_witness :
  yields (run_ops startup (example_engine [] [])) (fun '(_, e') => length (e_sent e') = 6 /\ e_queue e' = []).
Proof.
  eapply yields_mono.
  - apply (startup_completes default_config 2 next_addr example_server (example_engine [] []) 0 V4
      1250 1550 1850 2150 3200 4300 example_server_live (example_started [] [])); try done.
    unfold spaced. cbn. lia.
  - intros [[] e'] (Hq & _ & _ & probes & announces & -> & Hp & Ha & _). split; [|done].
    cbn [example_engine e_sent app]. rewrite length_app, Hp, Ha. done.
Defined.
