(* ===== verification/State.v ===== *)
(** State passing for the client side of mDNS (cache, browsing): a monad over a
    state of any type, whose steps may fail the way [outcome] says.

    A component that allocates keeps a heap in its state; the class [HasHeap]
    is what the monad needs to know of it. *)
From S2P Require Import Prelude Heap.

Definition ST (S A : Type) : Type := S -> outcome (A * S).

#[export] Instance ST_bind S : MBind (ST S) := fun A B f m s =>
  match m s with
  | Ret (a, s) => f a s
  | Failed => Failed
  | BadAccess => BadAccess
  | OutOfFuel => OutOfFuel
  end.

#[export] Instance ST_ret S : MRet (ST S) := fun A a s => Ret (a, s).

Definition reads {S A} (f : S -> A) : ST S A := fun s => Ret (f s, s).

Definition writes {S} (f : S -> S) : ST S unit := fun s => Ret (tt, f s).

(** A computation that only reads the state. *)
Definition asks {S A} (f : S -> outcome A) : ST S A := fun s =>
  match f s with
  | Ret a => Ret (a, s)
  | Failed => Failed
  | BadAccess => BadAccess
  | OutOfFuel => OutOfFuel
  end.

Fixpoint iter {S A} (l : list A) (f : A -> ST S unit) : ST S unit :=
  match l with
  | [] => mret tt
  | x :: l => _ ← f x; iter l f
  end.

(** The loops that combine the results of their steps with [&=]. *)
Fixpoint iter_and {S A} (l : list A) (f : A -> ST S bool) : ST S bool :=
  match l with
  | [] => mret true
  | x :: l => b ← f x; c ← iter_and l f; mret (b && c)
  end.

Class HasHeap (S : Type) := {
  heap_of : S -> heap;
  with_heap : S -> heap -> S;
  heap_of_with : forall s h, heap_of (with_heap s h) = h;
}.

Definition alloc {S A} `{HasHeap S} (m : H A) : ST S A := fun s =>
  match m (heap_of s) with
  | Ret (a, h) => Ret (a, with_heap s h)
  | Failed => Failed
  | BadAccess => BadAccess
  | OutOfFuel => OutOfFuel
  end.

(** * Reasoning *)

Lemma st_bind {S A B} (m : ST S A) (f : A -> ST S B) s Q :
  yields (m s) (fun '(a, s') => yields (f a s') Q) -> yields ((m ≫= f) s) Q.
Proof. unfold mbind, ST_bind. by destruct (m s) as [[a s']| | |]. Qed.

Lemma st_seq {S A B} (m : ST S A) (f : A -> ST S B) s P Q :
  yields (m s) P -> (forall a s', P (a, s') -> yields (f a s') Q) -> yields ((m ≫= f) s) Q.
Proof. intros Hm Hf. apply st_bind. eapply yields_mono; [exact Hm|]. intros [a s']. apply Hf. Qed.

Lemma st_ret {S A B} (a : A) (f : A -> ST S B) s Q : yields (f a s) Q -> yields ((mret a ≫= f) s) Q.
Proof. done. Qed.

Lemma st_reads {S A B} (g : S -> A) (f : A -> ST S B) s Q :
  yields (f (g s) s) Q -> yields ((reads g ≫= f) s) Q.
Proof. done. Qed.

Lemma st_writes {S B} (g : S -> S) (f : unit -> ST S B) s Q :
  yields (f tt (g s)) Q -> yields ((writes g ≫= f) s) Q.
Proof. done. Qed.

Lemma st_asks {S A B} (g : S -> outcome A) a (f : A -> ST S B) s Q :
  g s = Ret a -> yields (f a s) Q -> yields ((asks g ≫= f) s) Q.
Proof. intros Hg Hf. unfold mbind, ST_bind, asks. by rewrite Hg. Qed.

Lemma st_asks_spec {S A B} (g : S -> outcome A) (f : A -> ST S B) s P Q :
  yields (g s) P -> (forall a, g s = Ret a -> P a -> yields (f a s) Q) -> yields ((asks g ≫= f) s) Q.
Proof. intros Hg Hf. unfold mbind, ST_bind, asks. destruct (g s); try done. by apply Hf. Qed.

Lemma st_assoc {S A B D} (m : ST S A) (f : A -> ST S B) (g : B -> ST S D) s Q :
  yields ((m ≫= fun a => f a ≫= g) s) Q -> yields (((m ≫= f) ≫= g) s) Q.
Proof. unfold mbind, ST_bind. by destruct (m s) as [[a s']| | |]. Qed.

(** Two steps, of which the first returns the result. *)
Lemma st_seq2 {S A B D} (m : ST S A) (n : ST S B) (f : A -> ST S D) s P Q :
  yields ((a ← m; _ ← n; mret a) s) P -> (forall a s', P (a, s') -> yields (f a s') Q) ->
  yields ((a ← m; _ ← n; f a) s) Q.
Proof.
  unfold mbind, ST_bind, mret, ST_ret. destruct (m s) as [[a s1]| | |]; try done.
  destruct (n s1) as [[x s2]| | |]; try done. intros HP Hf. by apply Hf.
Qed.

Section WithHeap.
Context {S : Type} `{HasHeap S}.

Lemma st_alloc {A B} (m : H A) (f : A -> ST S B) s P R Q : hfull m P R ->
  (forall a h, P a (live h - live (heap_of s))%Z ->
     (never_fails (heap_of s) -> never_fails h /\ R a) -> yields (f a (with_heap s h)) Q) ->
  yields ((alloc m ≫= f) s) Q.
Proof.
  intros Hm Hf. specialize (Hm (heap_of s)). unfold mbind, ST_bind, alloc.
  destruct (m (heap_of s)) as [[a h]| | |]; try done. destruct Hm. by apply Hf.
Qed.

Lemma st_alloc_any {A B} (m : H A) (f : A -> ST S B) s P Q : hspec m P ->
  (forall a h, P a (live h - live (heap_of s))%Z -> yields (f a (with_heap s h)) Q) ->
  yields ((alloc m ≫= f) s) Q.
Proof.
  intros Hm Hf. specialize (Hm (heap_of s)). unfold mbind, ST_bind, alloc.
  destruct (m (heap_of s)) as [[a h]| | |]; try done. by apply Hf.
Qed.

Lemma st_alloc_last (m : H unit) s P R Q : hfull m P R ->
  (forall h, P tt (live h - live (heap_of s))%Z -> (never_fails (heap_of s) -> never_fails h /\ R tt) ->
     Q (tt, with_heap s h)) -> yields (alloc m s) Q.
Proof.
  intros Hm Hf. specialize (Hm (heap_of s)). unfold alloc.
  destruct (m (heap_of s)) as [[[] h]| | |]; try done. destruct Hm. by apply Hf.
Qed.

End WithHeap.

Lemma iter_ok {S A} (l : list A) (f : A -> ST S unit) (P : S -> Prop) s :
  P s -> (forall x s, x ∈ l -> P s -> yields (f x s) (fun r => P (snd r))) ->
  yields (iter l f s) (fun r => P (snd r)).
Proof.
  revert s. induction l as [|x l IH]; intros s Hs Hf; cbn [iter]; [done|].
  eapply st_seq; [apply Hf; [left|done]|]. intros [] s' Hs'. apply IH; [done|].
  intros y s'' Hy. apply Hf. by right.
Qed.

Lemma iter_and_ok {S A} (l : list A) (f : A -> ST S bool) (P : S -> Prop) s :
  P s -> (forall x s, x ∈ l -> P s -> yields (f x s) (fun r => P (snd r))) ->
  yields (iter_and l f s) (fun r => P (snd r)).
Proof.
  revert s. induction l as [|x l IH]; intros s Hs Hf; cbn [iter_and]; [done|].
  eapply st_seq; [apply Hf; [left|done]|]. intros b s' Hs'.
  eapply st_seq; [apply IH; [done|]|]; [|by intros c s'' Hc].
  intros y s'' Hy. apply Hf. by right.
Qed.

(** * Allocating steps *)

Lemma hfull_bind {A B} (m : ST heap A) (f : A -> ST heap B) P R P' R' : hfull m P R ->
  (forall a n, P a n -> hfull (f a) (fun b k => P' b (n + k)%Z) (fun b => R a -> R' b)) -> hfull (m ≫= f) P' R'.
Proof.
  intros Hm Hf h. unfold mbind, ST_bind. specialize (Hm h). destruct (m h) as [[a h1]| | |]; try done.
  destruct Hm as [HP HR]. eapply yields_mono; [apply (Hf a _ HP h1)|]. intros [b h2] [HP' HR'].
  replace (live h1 - live h + (live h2 - live h1))%Z with (live h2 - live h)%Z in HP' by lia.
  split; [done|]. intros Hn. destruct (HR Hn) as [Hn1 Ha]. destruct (HR' Hn1) as [Hn2 Hb]. auto.
Qed.

Lemma hfull_ret {A} (a : A) (P : A -> Z -> Prop) (R : A -> Prop) : P a 0%Z -> R a ->
  hfull (mret a : ST heap A) P R.
Proof. intros HP HR h. cbn. by rewrite Z.sub_diag. Qed.

Lemma hfull_mono {A} (m : H A) (P P' : A -> Z -> Prop) (R R' : A -> Prop) : hfull m P R ->
  (forall a n, P a n -> P' a n) -> (forall a, R a -> R' a) -> hfull m P' R'.
Proof.
  intros Hm HP HR h. eapply yields_mono; [apply Hm|]. intros [a h'] [? Hn]. split; [auto|].
  intros [? ?]%Hn. auto.
Qed.

Lemma hfull_lift {A B} (m : outcome A) a (f : A -> ST heap B) P R : m = Ret a -> hfull (f a) P R ->
  hfull ((hlift m : ST heap A) ≫= f) P R.
Proof. intros -> Hf h. apply Hf. Qed.

(** The same from a given heap. *)
Lemma hfull_step {A B} (m : ST heap A) (f : A -> ST heap B) P R h Q : hfull m P R ->
  (forall a h', P a (live h' - live h)%Z -> (never_fails h -> never_fails h' /\ R a) -> yields (f a h') Q) ->
  yields ((m ≫= f) h) Q.
Proof.
  intros Hm Hf. unfold mbind, ST_bind. specialize (Hm h). destruct (m h) as [[a h']| | |]; try done.
  destruct Hm. by apply Hf.
Qed.

(** The judgement of both kinds of heap, in this monad. *)
Lemma hn_seq {nf A B} (m : ST heap A) (f : A -> ST heap B) P Q : hspecn nf m P ->
  (forall a n, P a n -> hspecn nf (f a) (fun b k => Q b (n + k)%Z)) -> hspecn nf (m ≫= f) Q.
Proof. exact (hn_bind m f P Q). Qed.

Lemma hn_done {nf A} (a : A) (Q : A -> Z -> Prop) : Q a 0%Z -> hspecn nf (mret a : ST heap A) Q.
Proof. exact (hn_ret a Q). Qed.

Lemma st_allocn {S A B} `{HasHeap S} nf (m : H A) (f : A -> ST S B) s P Q : hspecn nf m P ->
  (nf = true -> never_fails (heap_of s)) ->
  (forall a h, P a (live h - live (heap_of s))%Z -> (nf = true -> never_fails h) -> yields (f a (with_heap s h)) Q) ->
  yields ((alloc m ≫= f) s) Q.
Proof.
  intros Hm Hn Hf. specialize (Hm (heap_of s) Hn). unfold mbind, ST_bind, alloc.
  destruct (m (heap_of s)) as [[a h]| | |]; try done. destruct Hm. by apply Hf.
Qed.
