(* ===== verification/Received.v ===== *)
(** Records of a received response as the parser of mdns_receive.c reads them, for
    the parts of the program they are given to. *)
From S2P Require Import Prelude Names Server.

(** A record of a response, as parsed, that is neither ours nor an answer to a
    discovery: the name it is about, and its data.  A PTR and an SRV record hold
    a name. *)
Inductive rx_record :=
| RxPtr (owner target : mdns_name_t) (ttl : Z)
| RxSrv (owner target : mdns_name_t) (priority weight port ttl : Z)
| RxTxt (owner : mdns_name_t) (data : list Z) (ttl : Z)
| RxAddr (owner : mdns_name_t) (ip : esp_ip_addr_t) (ttl : Z).

Definition rx_owner (r : rx_record) : mdns_name_t :=
  match r with RxPtr o _ _ => o | RxSrv o _ _ _ _ _ => o | RxTxt o _ _ => o | RxAddr o _ _ => o end.

Definition rx_type (r : rx_record) : Z :=
  match r with
  | RxPtr _ _ _ => MDNS_TYPE_PTR | RxSrv _ _ _ _ _ _ => MDNS_TYPE_SRV
  | RxTxt _ _ _ => MDNS_TYPE_TXT
  | RxAddr _ (IP4 _) _ => MDNS_TYPE_A | RxAddr _ (IP6 _) _ => MDNS_TYPE_AAAA
  end.

(** What the parser guarantees of a record. *)
Definition rx_ok (r : rx_record) : Prop :=
  match r with RxTxt _ data _ => Forall byte_ok data /\ (Z.of_nat (length data) < 65536)%Z | _ => True end.
