(* ===== verification/Cache.v ===== *)
(** The cache of what other hosts announce: components/mdns/mdns_cache.c, with the
    state of the browses of components/mdns/mdns_browser.c that it serves.

    An entry of the cache holds the addresses and the services of one host seen on
    one interface and protocol; a service holds its PTR, SRV and TXT records and
    its subtypes.  Each record has one node in the list [s_expiry], which points
    back to the entry, the service, the address or the subtype.  Such a pointer
    is an identifier; following it looks the identifier up in the cache, and one
    that is not there is a bad access.  Both IP versions are configured. *)
From S2P Require Import Prelude Names Server Heap Txt State.

(** * Data *)

Abbreviation cid := positive.  (** [mdns_cache_entry_t *] *)
Abbreviation vid := positive.  (** [mdns_service_cache_t *] *)
Abbreviation aid := positive.  (** [mdns_cache_addr_t *] *)
Abbreviation tid := positive.  (** [mdns_cache_subtype_t *] *)
Abbreviation bid := positive.  (** [mdns_browse_t *] *)
Abbreviation netif := (option positive).  (** [esp_netif_t *] *)

Inductive mdns_cache_record_type_t :=
| MDNS_CACHE_RECORD_PTR | MDNS_CACHE_RECORD_SUBTYPE | MDNS_CACHE_RECORD_SRV
| MDNS_CACHE_RECORD_TXT | MDNS_CACHE_RECORD_ADDR.

#[export] Instance record_type_eq_dec : EqDecision mdns_cache_record_type_t.
Proof. solve_decision. Defined.

(** The bit of a record type in a [mdns_cache_record_mask_t]. *)
Definition record_bit (r : mdns_cache_record_type_t) : Z :=
  match r with
  | MDNS_CACHE_RECORD_PTR => Z.shiftl 1 0
  | MDNS_CACHE_RECORD_SUBTYPE => Z.shiftl 1 1
  | MDNS_CACHE_RECORD_SRV => Z.shiftl 1 2
  | MDNS_CACHE_RECORD_TXT => Z.shiftl 1 3
  | MDNS_CACHE_RECORD_ADDR => Z.shiftl 1 4
  end.

Definition MDNS_CACHE_CONSUMER_BROWSE : Z := Z.shiftl 1 0.

Inductive mdns_cache_update_result_t :=
| MDNS_CACHE_NO_CHANGE | MDNS_CACHE_ADDED | MDNS_CACHE_UPDATED | MDNS_CACHE_REMOVED | MDNS_CACHE_ERROR.

#[export] Instance update_result_eq_dec : EqDecision mdns_cache_update_result_t.
Proof. solve_decision. Defined.

Record mdns_cache_expiry_t := mk_expiry {
  ex_queued : bool;
  ex_record : mdns_cache_record_type_t;
  ex_entry : cid;
  ex_service : option vid;
  ex_addr : option aid;
  ex_subtype : option tid;
  ex_expires_at_us : Z;
}.

Record mdns_cache_subtype_t := mk_subtype {
  st_subtype : cstr;
  st_ttl : Z;
  st_pending_sync : bool;
}.

Record mdns_cache_addr_t := mk_addr {
  ca_addr : esp_ip_addr_t;
  ca_ttl : Z;
}.

Record mdns_service_cache_t := mk_service_cache {
  sc_instance_name : option cstr;
  sc_service : option cstr;
  sc_proto : option cstr;
  sc_ptr_present : bool;
  sc_ptr_ttl : Z;
  sc_subtype_list : list (tid * mdns_cache_subtype_t);
  sc_srv_present : bool;
  sc_priority : Z;
  sc_weight : Z;
  sc_port : Z;
  sc_srv_ttl : Z;
  sc_txt_present : bool;
  sc_txt_list : list mdns_txt_linked_item_t;
  sc_txt_ttl : Z;
  sc_sync_records : Z;
  sc_sync_consumers : Z;
}.

Record mdns_cache_entry_t := mk_entry {
  ce_hostname : option cstr;
  ce_esp_netif : netif;
  ce_ip_protocol : mdns_ip_protocol_t;
  ce_addr_list : list (aid * mdns_cache_addr_t);
  ce_service_cache_list : list (vid * mdns_service_cache_t);
}.

Inductive mdns_browse_state_t := BROWSE_OFF | BROWSE_INIT | BROWSE_RUNNING.

#[export] Instance browse_state_eq_dec : EqDecision mdns_browse_state_t.
Proof. solve_decision. Defined.

Record mdns_browse_t := mk_browse {
  b_state : mdns_browse_state_t;
  b_notifier : option positive;
  b_service : option cstr;
  b_proto : option cstr;
  b_subtype : option cstr;
}.

(** The arrays [txt] and [txt_value_len] of [txt_count] items are one list. *)
Record mdns_result_t := mk_result {
  rs_esp_netif : netif;
  rs_ttl : Z;
  rs_ip_protocol : mdns_ip_protocol_t;
  rs_instance_name : option cstr;
  rs_service_type : option cstr;
  rs_proto : option cstr;
  rs_hostname : option cstr;
  rs_port : Z;
  rs_txt : list mdns_txt_linked_item_t;
  rs_addr : list esp_ip_addr_t;
  rs_subtype : option cstr;
}.

Inductive browse_action := ACTION_BROWSE_START | ACTION_BROWSE_END.

#[export] Instance browse_action_eq_dec : EqDecision browse_action.
Proof. solve_decision. Defined.

(** A call of [mdns_priv_query_send] for a browse. *)
Record browse_query := mk_browse_query {
  bq_service : option cstr;
  bq_proto : option cstr;
  bq_subtype : option cstr;
  bq_if : mdns_if_t;
  bq_ip_protocol : mdns_ip_protocol_t;
}.

(** The static variables of both files and what they use of the outside: the heap,
    the clock in microseconds, the actions waiting for the service task and
    whether its queue takes the next ones, the calls of notifiers, the queries. *)
Record client := mk_client {
  c_heap : heap;
  c_now : Z;
  s_cache : list (cid * mdns_cache_entry_t);
  s_expiry : list mdns_cache_expiry_t;
  s_sync_pending : bool;
  s_browse : list (bid * mdns_browse_t);
  c_actions : list (browse_action * bid);
  c_accepts : list bool;
  c_results : list (positive * mdns_result_t);
  c_queries : list browse_query;
}.

Definition set_c_heap (c : client) x := mk_client x (c_now c) (s_cache c) (s_expiry c) (s_sync_pending c)
  (s_browse c) (c_actions c) (c_accepts c) (c_results c) (c_queries c).
Definition set_c_now (c : client) x := mk_client (c_heap c) x (s_cache c) (s_expiry c) (s_sync_pending c)
  (s_browse c) (c_actions c) (c_accepts c) (c_results c) (c_queries c).
Definition set_cache (c : client) x := mk_client (c_heap c) (c_now c) x (s_expiry c) (s_sync_pending c)
  (s_browse c) (c_actions c) (c_accepts c) (c_results c) (c_queries c).
Definition set_expiry (c : client) x := mk_client (c_heap c) (c_now c) (s_cache c) x (s_sync_pending c)
  (s_browse c) (c_actions c) (c_accepts c) (c_results c) (c_queries c).
Definition set_sync_pending (c : client) x := mk_client (c_heap c) (c_now c) (s_cache c) (s_expiry c) x
  (s_browse c) (c_actions c) (c_accepts c) (c_results c) (c_queries c).
Definition set_browse (c : client) x := mk_client (c_heap c) (c_now c) (s_cache c) (s_expiry c)
  (s_sync_pending c) x (c_actions c) (c_accepts c) (c_results c) (c_queries c).
Definition set_actions (c : client) x := mk_client (c_heap c) (c_now c) (s_cache c) (s_expiry c)
  (s_sync_pending c) (s_browse c) x (c_accepts c) (c_results c) (c_queries c).
Definition set_c_accepts (c : client) x := mk_client (c_heap c) (c_now c) (s_cache c) (s_expiry c)
  (s_sync_pending c) (s_browse c) (c_actions c) x (c_results c) (c_queries c).
Definition set_results (c : client) x := mk_client (c_heap c) (c_now c) (s_cache c) (s_expiry c)
  (s_sync_pending c) (s_browse c) (c_actions c) (c_accepts c) x (c_queries c).
Definition set_queries (c : client) x := mk_client (c_heap c) (c_now c) (s_cache c) (s_expiry c)
  (s_sync_pending c) (s_browse c) (c_actions c) (c_accepts c) (c_results c) x.

Definition set_ptr_present (s : mdns_service_cache_t) x := mk_service_cache (sc_instance_name s)
  (sc_service s) (sc_proto s) x (sc_ptr_ttl s) (sc_subtype_list s) (sc_srv_present s) (sc_priority s)
  (sc_weight s) (sc_port s) (sc_srv_ttl s) (sc_txt_present s) (sc_txt_list s) (sc_txt_ttl s)
  (sc_sync_records s) (sc_sync_consumers s).
Definition set_ptr_ttl (s : mdns_service_cache_t) x := mk_service_cache (sc_instance_name s) (sc_service
  s) (sc_proto s) (sc_ptr_present s) x (sc_subtype_list s) (sc_srv_present s) (sc_priority s) (sc_weight
  s) (sc_port s) (sc_srv_ttl s) (sc_txt_present s) (sc_txt_list s) (sc_txt_ttl s) (sc_sync_records s)
  (sc_sync_consumers s).
Definition set_subtype_list (s : mdns_service_cache_t) x := mk_service_cache (sc_instance_name s)
  (sc_service s) (sc_proto s) (sc_ptr_present s) (sc_ptr_ttl s) x (sc_srv_present s) (sc_priority s)
  (sc_weight s) (sc_port s) (sc_srv_ttl s) (sc_txt_present s) (sc_txt_list s) (sc_txt_ttl s)
  (sc_sync_records s) (sc_sync_consumers s).
Definition set_srv_present (s : mdns_service_cache_t) x := mk_service_cache (sc_instance_name s)
  (sc_service s) (sc_proto s) (sc_ptr_present s) (sc_ptr_ttl s) (sc_subtype_list s) x (sc_priority s)
  (sc_weight s) (sc_port s) (sc_srv_ttl s) (sc_txt_present s) (sc_txt_list s) (sc_txt_ttl s)
  (sc_sync_records s) (sc_sync_consumers s).
Definition set_priority (s : mdns_service_cache_t) x := mk_service_cache (sc_instance_name s) (sc_service
  s) (sc_proto s) (sc_ptr_present s) (sc_ptr_ttl s) (sc_subtype_list s) (sc_srv_present s) x (sc_weight
  s) (sc_port s) (sc_srv_ttl s) (sc_txt_present s) (sc_txt_list s) (sc_txt_ttl s) (sc_sync_records s)
  (sc_sync_consumers s).
Definition set_weight (s : mdns_service_cache_t) x := mk_service_cache (sc_instance_name s) (sc_service
  s) (sc_proto s) (sc_ptr_present s) (sc_ptr_ttl s) (sc_subtype_list s) (sc_srv_present s) (sc_priority
  s) x (sc_port s) (sc_srv_ttl s) (sc_txt_present s) (sc_txt_list s) (sc_txt_ttl s) (sc_sync_records s)
  (sc_sync_consumers s).
Definition set_port (s : mdns_service_cache_t) x := mk_service_cache (sc_instance_name s) (sc_service s)
  (sc_proto s) (sc_ptr_present s) (sc_ptr_ttl s) (sc_subtype_list s) (sc_srv_present s) (sc_priority s)
  (sc_weight s) x (sc_srv_ttl s) (sc_txt_present s) (sc_txt_list s) (sc_txt_ttl s) (sc_sync_records s)
  (sc_sync_consumers s).
Definition set_srv_ttl (s : mdns_service_cache_t) x := mk_service_cache (sc_instance_name s) (sc_service
  s) (sc_proto s) (sc_ptr_present s) (sc_ptr_ttl s) (sc_subtype_list s) (sc_srv_present s) (sc_priority
  s) (sc_weight s) (sc_port s) x (sc_txt_present s) (sc_txt_list s) (sc_txt_ttl s) (sc_sync_records s)
  (sc_sync_consumers s).
Definition set_txt_present (s : mdns_service_cache_t) x := mk_service_cache (sc_instance_name s)
  (sc_service s) (sc_proto s) (sc_ptr_present s) (sc_ptr_ttl s) (sc_subtype_list s) (sc_srv_present s)
  (sc_priority s) (sc_weight s) (sc_port s) (sc_srv_ttl s) x (sc_txt_list s) (sc_txt_ttl s)
  (sc_sync_records s) (sc_sync_consumers s).
Definition set_txt_list (s : mdns_service_cache_t) x := mk_service_cache (sc_instance_name s) (sc_service
  s) (sc_proto s) (sc_ptr_present s) (sc_ptr_ttl s) (sc_subtype_list s) (sc_srv_present s) (sc_priority
  s) (sc_weight s) (sc_port s) (sc_srv_ttl s) (sc_txt_present s) x (sc_txt_ttl s) (sc_sync_records s)
  (sc_sync_consumers s).
Definition set_txt_ttl (s : mdns_service_cache_t) x := mk_service_cache (sc_instance_name s) (sc_service
  s) (sc_proto s) (sc_ptr_present s) (sc_ptr_ttl s) (sc_subtype_list s) (sc_srv_present s) (sc_priority
  s) (sc_weight s) (sc_port s) (sc_srv_ttl s) (sc_txt_present s) (sc_txt_list s) x (sc_sync_records s)
  (sc_sync_consumers s).
Definition set_sync_records (s : mdns_service_cache_t) x := mk_service_cache (sc_instance_name s)
  (sc_service s) (sc_proto s) (sc_ptr_present s) (sc_ptr_ttl s) (sc_subtype_list s) (sc_srv_present s)
  (sc_priority s) (sc_weight s) (sc_port s) (sc_srv_ttl s) (sc_txt_present s) (sc_txt_list s) (sc_txt_ttl
  s) x (sc_sync_consumers s).
Definition set_sync_consumers (s : mdns_service_cache_t) x := mk_service_cache (sc_instance_name s)
  (sc_service s) (sc_proto s) (sc_ptr_present s) (sc_ptr_ttl s) (sc_subtype_list s) (sc_srv_present s)
  (sc_priority s) (sc_weight s) (sc_port s) (sc_srv_ttl s) (sc_txt_present s) (sc_txt_list s) (sc_txt_ttl
  s) (sc_sync_records s) x.

Definition set_addr_list (e : mdns_cache_entry_t) x := mk_entry (ce_hostname e) (ce_esp_netif e)
  (ce_ip_protocol e) x (ce_service_cache_list e).
Definition set_service_cache_list (e : mdns_cache_entry_t) x := mk_entry (ce_hostname e) (ce_esp_netif e)
  (ce_ip_protocol e) (ce_addr_list e) x.

Definition set_queued_node (n : mdns_cache_expiry_t) x := mk_expiry x (ex_record n) (ex_entry n)
  (ex_service n) (ex_addr n) (ex_subtype n) (ex_expires_at_us n).
Definition set_node_entry (n : mdns_cache_expiry_t) x := mk_expiry (ex_queued n) (ex_record n) x
  (ex_service n) (ex_addr n) (ex_subtype n) (ex_expires_at_us n).
Definition set_expires (n : mdns_cache_expiry_t) x := mk_expiry (ex_queued n) (ex_record n) (ex_entry n)
  (ex_service n) (ex_addr n) (ex_subtype n) x.
Definition set_rs_ttl (r : mdns_result_t) x := mk_result (rs_esp_netif r) x (rs_ip_protocol r)
  (rs_instance_name r) (rs_service_type r) (rs_proto r) (rs_hostname r) (rs_port r) (rs_txt r) (rs_addr
  r) (rs_subtype r).
Definition set_rs_instance (r : mdns_result_t) x := mk_result (rs_esp_netif r) (rs_ttl r) (rs_ip_protocol
  r) x (rs_service_type r) (rs_proto r) (rs_hostname r) (rs_port r) (rs_txt r) (rs_addr r) (rs_subtype
  r).
Definition set_rs_service (r : mdns_result_t) x := mk_result (rs_esp_netif r) (rs_ttl r) (rs_ip_protocol
  r) (rs_instance_name r) x (rs_proto r) (rs_hostname r) (rs_port r) (rs_txt r) (rs_addr r) (rs_subtype
  r).
Definition set_rs_proto (r : mdns_result_t) x := mk_result (rs_esp_netif r) (rs_ttl r) (rs_ip_protocol r)
  (rs_instance_name r) (rs_service_type r) x (rs_hostname r) (rs_port r) (rs_txt r) (rs_addr r)
  (rs_subtype r).
Definition set_rs_hostname (r : mdns_result_t) x := mk_result (rs_esp_netif r) (rs_ttl r) (rs_ip_protocol
  r) (rs_instance_name r) (rs_service_type r) (rs_proto r) x (rs_port r) (rs_txt r) (rs_addr r)
  (rs_subtype r).
Definition set_rs_port (r : mdns_result_t) x := mk_result (rs_esp_netif r) (rs_ttl r) (rs_ip_protocol r)
  (rs_instance_name r) (rs_service_type r) (rs_proto r) (rs_hostname r) x (rs_txt r) (rs_addr r)
  (rs_subtype r).
Definition set_rs_txt (r : mdns_result_t) x := mk_result (rs_esp_netif r) (rs_ttl r) (rs_ip_protocol r)
  (rs_instance_name r) (rs_service_type r) (rs_proto r) (rs_hostname r) (rs_port r) x (rs_addr r)
  (rs_subtype r).
Definition set_rs_addr (r : mdns_result_t) x := mk_result (rs_esp_netif r) (rs_ttl r) (rs_ip_protocol r)
  (rs_instance_name r) (rs_service_type r) (rs_proto r) (rs_hostname r) (rs_port r) (rs_txt r) x
  (rs_subtype r).
Definition set_rs_subtype (r : mdns_result_t) x := mk_result (rs_esp_netif r) (rs_ttl r) (rs_ip_protocol
  r) (rs_instance_name r) (rs_service_type r) (rs_proto r) (rs_hostname r) (rs_port r) (rs_txt r)
  (rs_addr r) x.

#[export] Instance client_heap : HasHeap client.
Proof. refine {| heap_of := c_heap; with_heap := set_c_heap |}. done. Defined.

(** The effects of this file. *)
Abbreviation C := (ST client).

(** * Pointers *)

Section Assoc.
Context {A : Type}.

(** The object at an address is overwritten. *)
Definition alter_at (k : positive) (f : A -> A) (l : list (positive * A)) : list (positive * A) :=
  map (fun x => if decide (fst x = k) then (fst x, f (snd x)) else x) l.

(** The object at an address is taken out of its list. *)
Fixpoint remove_at (k : positive) (l : list (positive * A)) : list (positive * A) :=
  match l with
  | [] => []
  | x :: l => if decide (fst x = k) then l else x :: remove_at k l
  end.
End Assoc.

Fixpoint find_service (v : vid) (l : list (cid * mdns_cache_entry_t)) : option mdns_service_cache_t :=
  match l with
  | [] => None
  | (_, e) :: l =>
      match assoc v (ce_service_cache_list e) with
      | Some s => Some s
      | None => find_service v l
      end
  end.

Definition get_entry (c : cid) : C mdns_cache_entry_t :=
  asks (fun st => deref (assoc c (s_cache st))).

Definition get_service_cache (v : vid) : C mdns_service_cache_t :=
  asks (fun st => deref (find_service v (s_cache st))).

Definition alter_service (v : vid) (f : mdns_service_cache_t -> mdns_service_cache_t)
    (l : list (cid * mdns_cache_entry_t)) : list (cid * mdns_cache_entry_t) :=
  map (fun x => (fst x, set_service_cache_list (snd x) (alter_at v f (ce_service_cache_list (snd x))))) l.

(** Assignments through a pointer. *)
Definition put_entry (c : cid) (f : mdns_cache_entry_t -> mdns_cache_entry_t) : C unit :=
  _ ← get_entry c; writes (fun st => set_cache st (alter_at c f (s_cache st))).

Definition put_service (v : vid) (f : mdns_service_cache_t -> mdns_service_cache_t) : C unit :=
  _ ← get_service_cache v; writes (fun st => set_cache st (alter_service v f (s_cache st))).

(** The addresses in use, per kind of object. *)
Definition entry_ids (l : list (cid * mdns_cache_entry_t)) : list cid := map fst l.
Definition service_ids (l : list (cid * mdns_cache_entry_t)) : list vid :=
  flat_map (fun x => map fst (ce_service_cache_list (snd x))) l.
Definition addr_ids (l : list (cid * mdns_cache_entry_t)) : list aid :=
  flat_map (fun x => map fst (ce_addr_list (snd x))) l.
Definition subtype_ids (l : list (cid * mdns_cache_entry_t)) : list tid :=
  flat_map (fun x => flat_map (fun y => map fst (sc_subtype_list (snd y))) (ce_service_cache_list (snd x))) l.

(** * The list of expiry nodes *)

Definition MDNS_US_PER_SEC : Z := 1000000.
Definition INT64_MAX : Z := 2 ^ 63 - 1.

Definition calc_expiration_time_us (now ttl : Z) : Z := now + ttl * MDNS_US_PER_SEC.

Definition expiry_new (type : mdns_cache_record_type_t) (entry : cid) (service : option vid)
    (addr : option aid) (subtype : option tid) : C bool :=
  ok ← alloc malloc;
  if negb ok then mret false
  else
    _ ← writes (fun st => set_expiry st
          (mk_expiry false type entry service addr subtype INT64_MAX :: s_expiry st));
    mret true.

(** Whether a node stands for the given record. *)
Definition node_matches (record : mdns_cache_record_type_t) (entry : cid) (service : option vid)
    (addr : option aid) (subtype : option tid) (it : mdns_cache_expiry_t) : bool :=
  bool_decide (ex_record it = record) && bool_decide (ex_entry it = entry)
  && (if decide (record = MDNS_CACHE_RECORD_ADDR) then bool_decide (ex_addr it = addr)
      else bool_decide (ex_service it = service))
  && (negb (bool_decide (record = MDNS_CACHE_RECORD_SUBTYPE)) || bool_decide (ex_subtype it = subtype)).

(** The first loop of [expiry_schedule]: the nodes in front of the first match,
    the match, and those behind it. *)
Fixpoint unlink_first {A} (f : A -> bool) (l : list A) : option (list A * A * list A) :=
  match l with
  | [] => None
  | x :: l =>
      if f x then Some ([], x, l)
      else match unlink_first f l with
           | Some (before, y, after) => Some (x :: before, y, after)
           | None => None
           end
  end.

(** The second loop: the node goes in front of the first that expires no earlier. *)
Fixpoint expiry_insert (node : mdns_cache_expiry_t) (l : list mdns_cache_expiry_t)
    : list mdns_cache_expiry_t :=
  match l with
  | [] => [node]
  | x :: l => if (ex_expires_at_us x <? ex_expires_at_us node)%Z then x :: expiry_insert node l
              else node :: x :: l
  end.

(** The pointers to an address and a subtype come with the object they point to,
    which need not be linked into the cache yet. *)
Definition record_ttl (record : mdns_cache_record_type_t) (service : option vid)
    (addr : option (aid * mdns_cache_addr_t)) (subtype : option (tid * mdns_cache_subtype_t)) : C Z :=
  match record, service, addr, subtype with
  | MDNS_CACHE_RECORD_PTR, Some v, _, _ => s ← get_service_cache v; mret (sc_ptr_ttl s)
  | MDNS_CACHE_RECORD_SRV, Some v, _, _ => s ← get_service_cache v; mret (sc_srv_ttl s)
  | MDNS_CACHE_RECORD_TXT, Some v, _, _ => s ← get_service_cache v; mret (sc_txt_ttl s)
  | MDNS_CACHE_RECORD_ADDR, _, Some a, _ => mret (ca_ttl (snd a))
  | MDNS_CACHE_RECORD_SUBTYPE, _, _, Some t => mret (st_ttl (snd t))
  | _, _, _, _ => asks (fun _ => BadAccess)
  end.

(** The new place of a node that was unlinked from between [before] and [after]. *)
Definition reinsert (now ttl : Z) (before : list mdns_cache_expiry_t) (node : mdns_cache_expiry_t)
    (after : list mdns_cache_expiry_t) : list mdns_cache_expiry_t :=
  let new_expiration_time_us := if (ttl =? 0)%Z then 0%Z else calc_expiration_time_us now ttl in
  let extended := (ex_expires_at_us node <? new_expiration_time_us)%Z && ex_queued node in
  let node := mk_expiry true (ex_record node) (ex_entry node) (ex_service node) (ex_addr node)
                (ex_subtype node) new_expiration_time_us in
  if extended then before ++ expiry_insert node after else expiry_insert node (before ++ after).

Definition expiry_schedule (record : mdns_cache_record_type_t) (entry : cid) (service : option vid)
    (addr : option (aid * mdns_cache_addr_t)) (subtype : option (tid * mdns_cache_subtype_t)) : C unit :=
  if (match record with MDNS_CACHE_RECORD_ADDR => bool_decide (addr = None)
      | _ => bool_decide (service = None) end)
     || bool_decide (record = MDNS_CACHE_RECORD_SUBTYPE /\ subtype = None)
  then mret tt
  else
    l ← reads s_expiry;
    match unlink_first (node_matches record entry service (fst <$> addr) (fst <$> subtype)) l with
    | None => mret tt
    | Some (before, node, after) =>
        ttl ← record_ttl record service addr subtype;
        now ← reads c_now;
        writes (fun st => set_expiry st (reinsert now ttl before node after))
    end.

(** * Lookups *)

(** The new value of a TTL and whether it differs. *)
Definition update_ttl (cached_ttl ttl : Z) : Z * bool :=
  if (cached_ttl =? ttl)%Z then (cached_ttl, false) else (ttl, true).

Definition service_match (cache : mdns_service_cache_t) (instance service proto : option cstr) : bool :=
  mdns_utils_str_case_equal (sc_instance_name cache) instance
  && mdns_utils_str_case_equal (sc_service cache) service
  && mdns_utils_str_case_equal (sc_proto cache) proto.

Definition addr_equal (a b : esp_ip_addr_t) : bool :=
  match a, b with
  | IP6 x, IP6 y => bool_decide (x = y)
  | IP4 x, IP4 y => (x =? y)%Z
  | _, _ => false
  end.

Definition service_cache_is_empty (s : mdns_service_cache_t) : bool :=
  negb (sc_ptr_present s) && negb (sc_srv_present s) && negb (sc_txt_present s)
  && match sc_subtype_list s with [] => true | _ => false end.

Definition entry_matches (hostname : option cstr) (esp_netif : netif) (ip_protocol : mdns_ip_protocol_t)
    (e : mdns_cache_entry_t) : bool :=
  mdns_utils_str_case_equal_nullable (ce_hostname e) hostname
  && bool_decide (ce_esp_netif e = esp_netif) && bool_decide (ce_ip_protocol e = ip_protocol).

Definition cache_find_entry (l : list (cid * mdns_cache_entry_t)) (hostname : option cstr)
    (esp_netif : netif) (ip_protocol : mdns_ip_protocol_t) : option (cid * mdns_cache_entry_t) :=
  List.find (fun x => entry_matches hostname esp_netif ip_protocol (snd x)) l.

(** The owner entry and the service. *)
Fixpoint cache_find_service (l : list (cid * mdns_cache_entry_t)) (esp_netif : netif)
    (ip_protocol : mdns_ip_protocol_t) (instance service proto : option cstr)
    : option (cid * vid * mdns_service_cache_t) :=
  match l with
  | [] => None
  | (c, e) :: l =>
      if bool_decide (ce_esp_netif e = esp_netif) && bool_decide (ce_ip_protocol e = ip_protocol) then
        match List.find (fun x => service_match (snd x) instance service proto) (ce_service_cache_list e) with
        | Some (v, s) => Some (c, v, s)
        | None => cache_find_service l esp_netif ip_protocol instance service proto
        end
      else cache_find_service l esp_netif ip_protocol instance service proto
  end.

Definition mdns_priv_cache_host_has_service (l : list (cid * mdns_cache_entry_t)) (hostname : option cstr)
    (esp_netif : netif) (ip_protocol : mdns_ip_protocol_t) (service proto : option cstr) : bool :=
  match cache_find_entry l hostname esp_netif ip_protocol with
  | None => false
  | Some (_, e) =>
      existsb (fun x => mdns_utils_str_case_equal (sc_service (snd x)) service
                        && mdns_utils_str_case_equal (sc_proto (snd x)) proto) (ce_service_cache_list e)
  end.

Definition service_cache_find_subtype (s : mdns_service_cache_t) (subtype : option cstr)
    : option (tid * mdns_cache_subtype_t) :=
  if mdns_utils_str_null_or_empty subtype then None
  else List.find (fun x => mdns_utils_str_case_equal (Some (st_subtype (snd x))) subtype) (sc_subtype_list s).

(** * Synchronisation marks *)

Definition mark_sync_out (records consumer : Z) (s : mdns_service_cache_t) : mdns_service_cache_t :=
  set_sync_consumers (set_sync_records s (Z.lor (sc_sync_records s) records))
    (Z.lor (sc_sync_consumers s) consumer).

Definition service_cache_mark_sync_out (service : option vid) (result : mdns_cache_update_result_t)
    (records consumer : Z) : C unit :=
  match service with
  | None => mret tt
  | Some v =>
      if bool_decide (result = MDNS_CACHE_ADDED) || bool_decide (result = MDNS_CACHE_UPDATED) then
        _ ← put_service v (mark_sync_out records consumer);
        writes (fun st => set_sync_pending st true)
      else mret tt
  end.

Definition clear_sync_out (consumer : Z) (s : mdns_service_cache_t) : mdns_service_cache_t :=
  let s := set_sync_consumers s (Z.land (sc_sync_consumers s) (Z.lxor 0xFF consumer)) in
  if (sc_sync_consumers s =? 0)%Z then
    set_subtype_list (set_sync_records s 0)
      (map (fun x => (fst x, mk_subtype (st_subtype (snd x)) (st_ttl (snd x)) false)) (sc_subtype_list s))
  else s.

Definition service_cache_clear_sync_out (v : vid) (consumer : Z) : C unit :=
  put_service v (clear_sync_out consumer).

(** * Freeing *)

Definition subtypes_blocks (l : list (tid * mdns_cache_subtype_t)) : Z := (2 * Z.of_nat (length l))%Z.

Definition service_blocks (s : mdns_service_cache_t) : Z :=
  (1 + opt_block (sc_instance_name s) + opt_block (sc_service s) + opt_block (sc_proto s)
   + subtypes_blocks (sc_subtype_list s) + list_blocks (sc_txt_list s))%Z.

Definition services_blocks (l : list (vid * mdns_service_cache_t)) : Z :=
  foldr (fun x n => service_blocks (snd x) + n)%Z 0%Z l.

Definition entry_blocks (e : mdns_cache_entry_t) : Z :=
  (1 + opt_block (ce_hostname e) + Z.of_nat (length (ce_addr_list e))
   + services_blocks (ce_service_cache_list e))%Z.

Definition cache_blocks (l : list (cid * mdns_cache_entry_t)) : Z :=
  foldr (fun x n => entry_blocks (snd x) + n)%Z 0%Z l.

Definition service_entry_free (s : mdns_service_cache_t) : H unit := mfree (service_blocks s).
Definition cache_entry_free (e : mdns_cache_entry_t) : H unit := mfree (entry_blocks e).
Definition mdns_utils_free_txt_linked_list (l : list mdns_txt_linked_item_t) : H unit := mfree (list_blocks l).

Definition cache_remove_entry (c : cid) : C bool :=
  l ← reads s_cache;
  match assoc c l with
  | None => mret false
  | Some e =>
      _ ← writes (fun st => set_cache st (remove_at c l));
      _ ← alloc (cache_entry_free e);
      mret true
  end.

Definition cache_remove_entry_if_empty (c : option cid) : C bool :=
  match c with
  | None => mret false
  | Some c =>
      e ← get_entry c;
      match ce_addr_list e, ce_service_cache_list e with
      | [], [] => cache_remove_entry c
      | _, _ => mret false
      end
  end.

Definition cache_remove_service_if_empty (c : cid) (v : vid) : C unit :=
  s ← get_service_cache v;
  if negb (service_cache_is_empty s) then mret tt
  else
    e ← get_entry c;
    match assoc v (ce_service_cache_list e) with
    | None => mret tt
    | Some s =>
        _ ← put_entry c (fun e => set_service_cache_list e (remove_at v (ce_service_cache_list e)));
        _ ← alloc (service_entry_free s);
        _ ← cache_remove_entry_if_empty (Some c);
        mret tt
    end.

(** * Adding *)

Section Add.
(** The address the allocator returns, given those in use. *)
Context (addr : list positive -> positive).

(** A copy of a string that may be null or empty: [None] when the allocation
    fails, the null pointer when there is nothing to copy. *)
Definition dup_string (s : option cstr) : H (option (option cstr)) :=
  if mdns_utils_str_null_or_empty s then mret (Some None)
  else ok ← malloc; mret (if (ok : bool) then Some s else None).

Definition cache_add_entry (hostname : option cstr) (esp_netif : netif) (ip_protocol : mdns_ip_protocol_t)
    : C (option cid) :=
  ok ← alloc malloc;
  if negb ok then mret None
  else
    h ← alloc (dup_string hostname);
    match h with
    | None => _ ← alloc (mfree 1); mret None
    | Some h =>
        c ← reads (fun st => addr (entry_ids (s_cache st)));
        _ ← writes (fun st => set_cache st ((c, mk_entry h esp_netif ip_protocol [] []) :: s_cache st));
        mret (Some c)
    end.

Definition cache_get_or_add_entry (hostname : option cstr) (esp_netif : netif)
    (ip_protocol : mdns_ip_protocol_t) : C (option cid) :=
  l ← reads s_cache;
  match cache_find_entry l hostname esp_netif ip_protocol with
  | Some (c, _) => mret (Some c)
  | None => cache_add_entry hostname esp_netif ip_protocol
  end.

Definition new_service (instance service proto : option cstr) : mdns_service_cache_t :=
  mk_service_cache instance service proto false 0 [] false 0 0 0 0 false [] 0 0 0.

Definition cache_add_service (c : cid) (instance service proto : option cstr) : C (option vid) :=
  ok ← alloc malloc;
  if negb ok then mret None
  else
    i ← alloc (dup_string instance);
    match i with
    | None => _ ← alloc (service_entry_free (new_service None None None)); mret None
    | Some i =>
        s ← alloc (dup_string service);
        match s with
        | None => _ ← alloc (service_entry_free (new_service i None None)); mret None
        | Some s =>
            p ← alloc (dup_string proto);
            match p with
            | None => _ ← alloc (service_entry_free (new_service i s None)); mret None
            | Some p =>
                v ← reads (fun st => addr (service_ids (s_cache st)));
                _ ← put_entry c (fun e => set_service_cache_list e
                       ((v, new_service i s p) :: ce_service_cache_list e));
                mret (Some v)
            end
        end
    end.

Definition cache_move_service (old_entry new_entry : cid) (cache : vid) : C bool :=
  e ← get_entry old_entry;
  match assoc cache (ce_service_cache_list e) with
  | None => mret false
  | Some s =>
      _ ← put_entry old_entry (fun e => set_service_cache_list e (remove_at cache (ce_service_cache_list e)));
      _ ← put_entry new_entry (fun e => set_service_cache_list e ((cache, s) :: ce_service_cache_list e));
      _ ← writes (fun st => set_expiry st (map (fun it =>
             if decide (ex_service it = Some cache) then set_node_entry it new_entry else it) (s_expiry st)));
      mret true
  end.

(** * Updating records *)

Definition service_cache_update_subtype (c : cid) (v : vid) (subtype : option cstr) (ttl : Z)
    : C mdns_cache_update_result_t :=
  match subtype with
  | None | Some [] => mret MDNS_CACHE_NO_CHANGE
  | Some name =>
      s ← get_service_cache v;
      match List.find (fun x => mdns_utils_str_case_equal (Some (st_subtype (snd x))) subtype)
              (sc_subtype_list s) with
      | Some (t, it) =>
          let '(new_ttl, changed) := update_ttl (st_ttl it) ttl in
          let it := mk_subtype (st_subtype it) new_ttl (st_pending_sync it) in
          _ ← put_service v (fun s => set_subtype_list s (alter_at t (fun _ => it) (sc_subtype_list s)));
          _ ← expiry_schedule MDNS_CACHE_RECORD_SUBTYPE c (Some v) None (Some (t, it));
          if negb changed then mret MDNS_CACHE_NO_CHANGE
          else
            _ ← put_service v (fun s => set_subtype_list s
                   (alter_at t (fun it => mk_subtype (st_subtype it) (st_ttl it) true) (sc_subtype_list s)));
            mret MDNS_CACHE_UPDATED
      | None =>
          ok ← alloc malloc;
          if negb ok then mret MDNS_CACHE_ERROR
          else
            ok ← alloc malloc;
            if negb ok then _ ← alloc (mfree 1); mret MDNS_CACHE_ERROR
            else
              t ← reads (fun st => addr (subtype_ids (s_cache st)));
              ok ← expiry_new MDNS_CACHE_RECORD_SUBTYPE c (Some v) None (Some t);
              if negb ok then _ ← alloc (mfree 2); mret MDNS_CACHE_ERROR
              else
                _ ← expiry_schedule MDNS_CACHE_RECORD_SUBTYPE c (Some v) None
                      (Some (t, mk_subtype name ttl false));
                _ ← put_service v (fun s => set_subtype_list s
                       ((t, mk_subtype name ttl true) :: sc_subtype_list s));
                mret MDNS_CACHE_UPDATED
      end
  end.

(** The service that was found, or a new one under the entry without a host name;
    the last component is [new_service].  On failure [cleanup] is run. *)
Definition obtain_service (found : option (cid * vid * mdns_service_cache_t)) (esp_netif : netif)
    (ip_protocol : mdns_ip_protocol_t) (instance service proto : option cstr) (cleanup : C unit)
    : C (option (cid * vid * bool)) :=
  match found with
  | Some (c, v, _) => mret (Some (c, v, false))
  | None =>
      c ← cache_get_or_add_entry None esp_netif ip_protocol;
      match c with
      | None => _ ← cleanup; mret None
      | Some c =>
          v ← cache_add_service c instance service proto;
          match v with
          | None => _ ← cache_remove_entry_if_empty (Some c); _ ← cleanup; mret None
          | Some v => mret (Some (c, v, true))
          end
      end
  end.

(** The base PTR record. *)
Definition update_base_ptr (c : cid) (v : vid) (ttl : Z) : C mdns_cache_update_result_t :=
  s ← get_service_cache v;
  ok ← (if negb (sc_ptr_present s)
        then expiry_new MDNS_CACHE_RECORD_PTR c (Some v) None None else mret true);
  if negb ok then mret MDNS_CACHE_ERROR
  else
    let '(new_ttl, ttl_changed) := update_ttl (sc_ptr_ttl s) ttl in
    _ ← put_service v (fun s => set_ptr_ttl (set_ptr_present s true) new_ttl);
    _ ← expiry_schedule MDNS_CACHE_RECORD_PTR c (Some v) None None;
    mret (if negb (sc_ptr_present s) || ttl_changed then MDNS_CACHE_UPDATED else MDNS_CACHE_NO_CHANGE).

Definition mdns_priv_cache_update_ptr (esp_netif : netif) (ip_protocol : mdns_ip_protocol_t)
    (instance service proto subtype : option cstr) (ttl : Z) : C mdns_cache_update_result_t :=
  if mdns_utils_str_null_or_empty instance || mdns_utils_str_null_or_empty service
     || mdns_utils_str_null_or_empty proto
  then mret MDNS_CACHE_NO_CHANGE
  else
    found ← reads (fun st => cache_find_service (s_cache st) esp_netif ip_protocol instance service proto);
    let base_ptr_updated := mdns_utils_str_null_or_empty subtype in
    if (ttl =? 0)%Z then
      match found with
      | None => mret MDNS_CACHE_NO_CHANGE
      | Some (c, v, s) =>
          if base_ptr_updated then
            if negb (sc_ptr_present s) then mret MDNS_CACHE_NO_CHANGE
            else
              _ ← put_service v (fun s => set_ptr_ttl s 0);
              _ ← expiry_schedule MDNS_CACHE_RECORD_PTR c (Some v) None None;
              mret MDNS_CACHE_UPDATED
          else
            match service_cache_find_subtype s subtype with
            | None => mret MDNS_CACHE_NO_CHANGE
            | Some (t, it) =>
                let it := mk_subtype (st_subtype it) 0 (st_pending_sync it) in
                _ ← put_service v (fun s => set_subtype_list s (alter_at t (fun _ => it) (sc_subtype_list s)));
                _ ← expiry_schedule MDNS_CACHE_RECORD_SUBTYPE c (Some v) None (Some (t, it));
                mret MDNS_CACHE_UPDATED
            end
      end
    else
      owner ← obtain_service found esp_netif ip_protocol instance service proto (mret tt);
      match owner with
      | None => mret MDNS_CACHE_ERROR
      | Some (c, v, new_service) =>
          result ← (if base_ptr_updated then update_base_ptr c v ttl
                    else service_cache_update_subtype c v subtype ttl);
          if decide (result = MDNS_CACHE_ERROR) then
            _ ← cache_remove_service_if_empty c v; mret MDNS_CACHE_ERROR
          else
            let result := if (new_service : bool) then MDNS_CACHE_ADDED else result in
            _ ← service_cache_mark_sync_out (Some v) result
                  (record_bit (if base_ptr_updated then MDNS_CACHE_RECORD_PTR else MDNS_CACHE_RECORD_SUBTYPE))
                  MDNS_CACHE_CONSUMER_BROWSE;
            mret result
      end.

(** The new contents and whether anything differs. *)
Definition service_cache_srv_update (cache : mdns_service_cache_t) (priority weight port ttl : Z)
    : mdns_service_cache_t * mdns_cache_update_result_t :=
  let '(new_ttl, ttl_changed) := update_ttl (sc_srv_ttl cache) ttl in
  let changed := negb (sc_srv_present cache) || negb (sc_priority cache =? priority)%Z
                 || negb (sc_weight cache =? weight)%Z || negb (sc_port cache =? port)%Z || ttl_changed in
  (set_srv_ttl (set_port (set_weight (set_priority (set_srv_present cache true) priority) weight) port) new_ttl,
   if changed then MDNS_CACHE_UPDATED else MDNS_CACHE_NO_CHANGE).

(** The entry a SRV record of [hostname] goes to. *)
Definition srv_host_entry (owner : option cid) (hostname : option cstr) (esp_netif : netif)
    (ip_protocol : mdns_ip_protocol_t) : C (option cid) :=
  match owner with
  | Some c =>
      e ← get_entry c;
      if mdns_utils_str_case_equal (ce_hostname e) hostname then mret (Some c)
      else cache_get_or_add_entry hostname esp_netif ip_protocol
  | None => cache_get_or_add_entry hostname esp_netif ip_protocol
  end.

(** The service under its host entry: found there, moved there or added there;
    [None] when that fails, after the host entry was removed again. *)
Definition srv_service (found : option (cid * vid)) (host_entry : cid) (instance service proto : option cstr)
    : C (option (vid * mdns_cache_update_result_t)) :=
  match found with
  | None =>
      v ← cache_add_service host_entry instance service proto;
      match v with
      | None => _ ← cache_remove_entry_if_empty (Some host_entry); mret None
      | Some v => mret (Some (v, MDNS_CACHE_ADDED))
      end
  | Some (c, v) =>
      if decide (c = host_entry) then mret (Some (v, MDNS_CACHE_NO_CHANGE))
      else
        moved ← cache_move_service c host_entry v;
        if negb moved then _ ← cache_remove_entry_if_empty (Some host_entry); mret None
        else mret (Some (v, MDNS_CACHE_UPDATED))
  end.

(** The service goes back to where it was. *)
Definition srv_undo (owner : option cid) (host_entry : cid) (v : vid) : C unit :=
  match owner with
  | Some c =>
      _ ← cache_move_service host_entry c v;
      _ ← cache_remove_entry_if_empty (Some host_entry); mret tt
  | None => cache_remove_service_if_empty host_entry v
  end.

(** The rest of [mdns_priv_cache_update_srv], with the service under its host. *)
Definition srv_store (owner : option cid) (host_entry : cid) (v : vid) (result : mdns_cache_update_result_t)
    (priority weight port ttl : Z) : C mdns_cache_update_result_t :=
  s ← get_service_cache v;
  ok ← (if negb (sc_srv_present s)
        then expiry_new MDNS_CACHE_RECORD_SRV host_entry (Some v) None None else mret true);
  if negb ok then _ ← srv_undo owner host_entry v; mret MDNS_CACHE_ERROR
  else
    _ ← cache_remove_entry_if_empty owner;
    s ← get_service_cache v;
    let srv_result := snd (service_cache_srv_update s priority weight port ttl) in
    _ ← put_service v (fun s => fst (service_cache_srv_update s priority weight port ttl));
    _ ← expiry_schedule MDNS_CACHE_RECORD_SRV host_entry (Some v) None None;
    let result := if decide (result = MDNS_CACHE_NO_CHANGE) then srv_result else result in
    _ ← service_cache_mark_sync_out (Some v) result (record_bit MDNS_CACHE_RECORD_SRV)
          MDNS_CACHE_CONSUMER_BROWSE;
    mret result.

Definition mdns_priv_cache_update_srv (esp_netif : netif) (ip_protocol : mdns_ip_protocol_t)
    (hostname instance service proto : option cstr) (priority weight port ttl : Z)
    : C mdns_cache_update_result_t :=
  found ← reads (fun st => cache_find_service (s_cache st) esp_netif ip_protocol instance service proto);
  if (ttl =? 0)%Z then
    match found with
    | None => mret MDNS_CACHE_NO_CHANGE
    | Some (c, v, s) =>
        if negb (sc_srv_present s) then mret MDNS_CACHE_NO_CHANGE
        else
          _ ← put_service v (fun s => set_srv_ttl s 0);
          _ ← expiry_schedule MDNS_CACHE_RECORD_SRV c (Some v) None None;
          mret MDNS_CACHE_UPDATED
    end
  else
    let owner := (fun x => fst (fst x)) <$> found in
    host ← srv_host_entry owner hostname esp_netif ip_protocol;
    match host with
    | None => mret MDNS_CACHE_ERROR
    | Some host_entry =>
        r ← srv_service (fst <$> found) host_entry instance service proto;
        match r with
        | None => mret MDNS_CACHE_ERROR
        | Some (v, result) => srv_store owner host_entry v result priority weight port ttl
        end
    end.

(** [memcmp] of [value_len] bytes, which have to be there. *)
Definition txt_item_equal (a b : mdns_txt_linked_item_t) : outcome bool :=
  if negb (mdns_utils_str_case_equal (key a) (key b)) then Ret false
  else if negb (value_len a =? value_len b)%Z then Ret false
  else
    match value a, value b with
    | None, None => Ret true
    | Some x, Some y =>
        x ← rd_bytes x 0 (Z.to_nat (value_len a));
        y ← rd_bytes y 0 (Z.to_nat (value_len a));
        Ret (bool_decide (x = y))
    | _, _ => Ret false
    end.

Fixpoint txt_list_contains (txt_list : list mdns_txt_linked_item_t) (item : mdns_txt_linked_item_t)
    : outcome bool :=
  match txt_list with
  | [] => Ret false
  | x :: l => b ← txt_item_equal x item; if (b : bool) then Ret true else txt_list_contains l item
  end.

Fixpoint txt_list_all_in (a b : list mdns_txt_linked_item_t) : outcome bool :=
  match a with
  | [] => Ret true
  | it :: a => c ← txt_list_contains b it; if (c : bool) then txt_list_all_in a b else Ret false
  end.

(** Two lists are the same object only if both are null, when their counts agree
    too. *)
Definition txt_list_equal (a b : list mdns_txt_linked_item_t) : outcome bool :=
  if negb (length a =? length b) then Ret false else txt_list_all_in a b.

Definition service_cache_txt_update (v : vid) (new_txt : list mdns_txt_linked_item_t) (ttl : Z)
    : C mdns_cache_update_result_t :=
  s ← get_service_cache v;
  same ← asks (fun _ => txt_list_equal (sc_txt_list s) new_txt);
  if (same : bool) && sc_txt_present s && negb (snd (update_ttl (sc_txt_ttl s) ttl)) then
    _ ← alloc (mdns_utils_free_txt_linked_list new_txt); mret MDNS_CACHE_NO_CHANGE
  else
    _ ← put_service v (fun s => set_txt_list (set_txt_ttl (set_txt_present s true) ttl) new_txt);
    _ ← alloc (mdns_utils_free_txt_linked_list (sc_txt_list s));
    mret MDNS_CACHE_UPDATED.

Definition mdns_priv_cache_update_txt (esp_netif : netif) (ip_protocol : mdns_ip_protocol_t)
    (instance service proto : option cstr) (txt : list mdns_txt_linked_item_t) (ttl : Z)
    : C mdns_cache_update_result_t :=
  found ← reads (fun st => cache_find_service (s_cache st) esp_netif ip_protocol instance service proto);
  if (ttl =? 0)%Z then
    _ ← alloc (mdns_utils_free_txt_linked_list txt);
    match found with
    | None => mret MDNS_CACHE_NO_CHANGE
    | Some (c, v, s) =>
        if negb (sc_txt_present s) then mret MDNS_CACHE_NO_CHANGE
        else
          _ ← put_service v (fun s => set_txt_ttl s 0);
          _ ← expiry_schedule MDNS_CACHE_RECORD_TXT c (Some v) None None;
          mret MDNS_CACHE_UPDATED
    end
  else
    owner ← obtain_service found esp_netif ip_protocol instance service proto
              (alloc (mdns_utils_free_txt_linked_list txt));
    match owner with
    | None => mret MDNS_CACHE_ERROR
    | Some (c, v, new_service) =>
        s ← get_service_cache v;
        ok ← (if negb (sc_txt_present s)
              then expiry_new MDNS_CACHE_RECORD_TXT c (Some v) None None else mret true);
        if negb ok then
          _ ← cache_remove_service_if_empty c v;
          _ ← alloc (mdns_utils_free_txt_linked_list txt);
          mret MDNS_CACHE_ERROR
        else
          result ← service_cache_txt_update v txt ttl;
          _ ← expiry_schedule MDNS_CACHE_RECORD_TXT c (Some v) None None;
          let result := if (new_service : bool) then MDNS_CACHE_ADDED else result in
          _ ← service_cache_mark_sync_out (Some v) result (record_bit MDNS_CACHE_RECORD_TXT)
                MDNS_CACHE_CONSUMER_BROWSE;
          mret result
    end.

(** The services of an entry are marked one after the other. *)
Definition mark_entry_services (c : cid) (result : mdns_cache_update_result_t) : C unit :=
  e ← get_entry c;
  iter (map fst (ce_service_cache_list e)) (fun v =>
    service_cache_mark_sync_out (Some v) result (record_bit MDNS_CACHE_RECORD_ADDR) MDNS_CACHE_CONSUMER_BROWSE).

(** An address the entry does not have yet. *)
Definition add_addr (c : cid) (ip : esp_ip_addr_t) (ttl : Z) : C mdns_cache_update_result_t :=
  ok ← alloc malloc;
  if negb ok then
    _ ← cache_remove_entry_if_empty (Some c); mret MDNS_CACHE_ERROR
  else
    a ← reads (fun st => addr (addr_ids (s_cache st)));
    ok ← expiry_new MDNS_CACHE_RECORD_ADDR c None (Some a) None;
    if negb ok then
      _ ← alloc (mfree 1);
      _ ← cache_remove_entry_if_empty (Some c); mret MDNS_CACHE_ERROR
    else
      _ ← expiry_schedule MDNS_CACHE_RECORD_ADDR c None (Some (a, mk_addr ip ttl)) None;
      _ ← put_entry c (fun e => set_addr_list e ((a, mk_addr ip ttl) :: ce_addr_list e));
      mret MDNS_CACHE_UPDATED.

(** The rest of [cache_update_addr], after the entry was found or added. *)
Definition update_entry_addr (c : cid) (ip : esp_ip_addr_t) (ttl : Z) : C mdns_cache_update_result_t :=
  e ← get_entry c;
  result ← (match List.find (fun x => addr_equal (ca_addr (snd x)) ip) (ce_addr_list e) with
            | Some (a, it) =>
                let '(new_ttl, ttl_changed) := update_ttl (ca_ttl it) ttl in
                let it := mk_addr (ca_addr it) new_ttl in
                _ ← put_entry c (fun e => set_addr_list e (alter_at a (fun _ => it) (ce_addr_list e)));
                _ ← expiry_schedule MDNS_CACHE_RECORD_ADDR c None (Some (a, it)) None;
                mret (if (ttl_changed : bool) then MDNS_CACHE_UPDATED else MDNS_CACHE_NO_CHANGE)
            | None => add_addr c ip ttl
            end);
  if decide (result = MDNS_CACHE_ERROR) then mret MDNS_CACHE_ERROR
  else _ ← mark_entry_services c result; mret result.

Definition cache_update_addr (esp_netif : netif) (ip_protocol : mdns_ip_protocol_t) (hostname : option cstr)
    (ip : esp_ip_addr_t) (ttl : Z) (create_if_absent : bool) : C mdns_cache_update_result_t :=
  if (ttl =? 0)%Z then
    found ← reads (fun st => cache_find_entry (s_cache st) hostname esp_netif ip_protocol);
    match found with
    | None => mret MDNS_CACHE_NO_CHANGE
    | Some (c, e) =>
        match List.find (fun x => addr_equal (ca_addr (snd x)) ip) (ce_addr_list e) with
        | None => mret MDNS_CACHE_NO_CHANGE
        | Some (a, it) =>
            let it := mk_addr (ca_addr it) 0 in
            _ ← put_entry c (fun e => set_addr_list e (alter_at a (fun _ => it) (ce_addr_list e)));
            _ ← expiry_schedule MDNS_CACHE_RECORD_ADDR c None (Some (a, it)) None;
            mret MDNS_CACHE_UPDATED
        end
    end
  else
    entry ← (if create_if_absent then cache_get_or_add_entry hostname esp_netif ip_protocol
             else reads (fun st => fst <$> cache_find_entry (s_cache st) hostname esp_netif ip_protocol));
    match entry with
    | None => mret (if create_if_absent then MDNS_CACHE_ERROR else MDNS_CACHE_NO_CHANGE)
    | Some c => update_entry_addr c ip ttl
    end.

Definition mdns_priv_cache_update_addr (esp_netif : netif) (ip_protocol : mdns_ip_protocol_t)
    (hostname : option cstr) (ip : esp_ip_addr_t) (ttl : Z) : C mdns_cache_update_result_t :=
  cache_update_addr esp_netif ip_protocol hostname ip ttl true.

Definition mdns_priv_cache_clear : C unit :=
  l ← reads s_cache;
  _ ← iter l (fun x => alloc (cache_entry_free (snd x)));
  _ ← writes (fun st => set_cache st []);
  l ← reads s_expiry;
  _ ← iter l (fun _ => alloc (mfree 1));
  writes (fun st => set_sync_pending (set_expiry st []) false).

End Add.
