(* ===== verification/CacheTree.v ===== *)
(** The cache as a tree: what its records are, which names they carry, and how
    the elementary changes of mdns_cache.c act on them. *)
From S2P Require Import Prelude Names Server Heap Txt State Cache.
From Stdlib Require Import Sorting.

(** * Names up to case *)

(** The null pointer and the empty string are the same name. *)
Definition canon (s : option cstr) : list Z :=
  match s with Some s => map tolower s | None => [] end.

Lemma canon_empty s : canon s = [] <-> mdns_utils_str_null_or_empty s = true.
Proof. destruct s as [[|c s]|]; done. Qed.

Lemma case_equal_canon a b :
  mdns_utils_str_case_equal a b = true <-> canon a = canon b /\ canon a <> [].
Proof.
  destruct a as [[|x a]|], b as [[|y b]|]; cbn -[strcaseeq]; try (split; [done|]; by intros []).
  rewrite strcaseeq_iff. cbn. split; [intros H; by split|by intros [H _]].
Qed.

Lemma nullable_canon a b : mdns_utils_str_case_equal_nullable a b = true <-> canon a = canon b.
Proof.
  unfold mdns_utils_str_case_equal_nullable. rewrite orb_true_iff, andb_true_iff, case_equal_canon.
  rewrite <- !canon_empty. split.
  - intros [[-> ->]|[H _]]; done.
  - intros H. destruct (decide (canon a = [])) as [Ha|Ha]; [left; by rewrite <- H|by right].
Qed.

Lemma canon_dup s : canon (if mdns_utils_str_null_or_empty s then None else s) = canon s.
Proof. by destruct s as [[|c s]|]. Qed.

(** * Records *)

(** Host, interface and protocol; and the names of a service seen there. *)
Definition host_key : Type := list Z * netif * mdns_ip_protocol_t.
Definition service_key : Type := netif * mdns_ip_protocol_t * (list Z * list Z * list Z).

Definition key_of_entry (e : mdns_cache_entry_t) : host_key :=
  (canon (ce_hostname e), ce_esp_netif e, ce_ip_protocol e).

Definition key_of_names (n : netif) (p : mdns_ip_protocol_t) (instance service proto : option cstr) : service_key :=
  (n, p, (canon instance, canon service, canon proto)).

Definition key_of_service (e : mdns_cache_entry_t) (s : mdns_service_cache_t) : service_key :=
  key_of_names (ce_esp_netif e) (ce_ip_protocol e) (sc_instance_name s) (sc_service s) (sc_proto s).

(** What a record is about, and what it says. *)
Inductive record_name :=
| NamePtr (k : service_key)
| NameSubtype (k : service_key) (t : list Z)
| NameSrv (k : service_key)
| NameTxt (k : service_key)
| NameAddr (h : host_key) (a : esp_ip_addr_t).

#[export] Instance record_name_eq_dec : EqDecision record_name.
Proof. solve_decision. Defined.

Inductive record_data :=
| DataTtl (ttl : Z)
| DataSrv (host : list Z) (priority weight port ttl : Z)
| DataTxt (txt : list mdns_txt_linked_item_t) (ttl : Z).

#[export] Instance txt_item_eq_dec : EqDecision mdns_txt_linked_item_t.
Proof. solve_decision. Defined.

#[export] Instance record_data_eq_dec : EqDecision record_data.
Proof. solve_decision. Defined.

Definition cache_record : Type := record_name * record_data.

(** The pointers of an expiry node. *)
Definition pointers : Type := mdns_cache_record_type_t * cid * option vid * option aid * option tid.

Definition pointers_of (n : mdns_cache_expiry_t) : pointers :=
  (ex_record n, ex_entry n, ex_service n, ex_addr n, ex_subtype n).

Definition of_service (r : mdns_cache_record_type_t) (c : cid) (v : vid) : pointers := (r, c, Some v, None, None).
Definition of_subtype (c : cid) (v : vid) (t : tid) : pointers :=
  (MDNS_CACHE_RECORD_SUBTYPE, c, Some v, None, Some t).
Definition of_addr (c : cid) (a : aid) : pointers := (MDNS_CACHE_RECORD_ADDR, c, None, Some a, None).

Definition ptr_records (k : service_key) c v (s : mdns_service_cache_t) : list (pointers * cache_record) :=
  if sc_ptr_present s then [(of_service MDNS_CACHE_RECORD_PTR c v, (NamePtr k, DataTtl (sc_ptr_ttl s)))] else [].

Definition srv_records (k : service_key) (host : list Z) c v (s : mdns_service_cache_t)
    : list (pointers * cache_record) :=
  if sc_srv_present s then
    [(of_service MDNS_CACHE_RECORD_SRV c v,
      (NameSrv k, DataSrv host (sc_priority s) (sc_weight s) (sc_port s) (sc_srv_ttl s)))]
  else [].

Definition txt_records (k : service_key) c v (s : mdns_service_cache_t) : list (pointers * cache_record) :=
  if sc_txt_present s then
    [(of_service MDNS_CACHE_RECORD_TXT c v, (NameTxt k, DataTxt (sc_txt_list s) (sc_txt_ttl s)))]
  else [].

Definition subtype_record (k : service_key) c v (t : tid * mdns_cache_subtype_t) : pointers * cache_record :=
  (of_subtype c v (fst t), (NameSubtype k (map tolower (st_subtype (snd t))), DataTtl (st_ttl (snd t)))).

Definition records_of_service (c : cid) (e : mdns_cache_entry_t) (x : vid * mdns_service_cache_t)
    : list (pointers * cache_record) :=
  let k := key_of_service e (snd x) in
  ptr_records k c (fst x) (snd x) ++ srv_records k (canon (ce_hostname e)) c (fst x) (snd x)
  ++ txt_records k c (fst x) (snd x) ++ map (subtype_record k c (fst x)) (sc_subtype_list (snd x)).

Definition addr_record (c : cid) (e : mdns_cache_entry_t) (x : aid * mdns_cache_addr_t) : pointers * cache_record :=
  (of_addr c (fst x), (NameAddr (key_of_entry e) (ca_addr (snd x)), DataTtl (ca_ttl (snd x)))).

Definition records_of_entry (x : cid * mdns_cache_entry_t) : list (pointers * cache_record) :=
  map (addr_record (fst x) (snd x)) (ce_addr_list (snd x))
  ++ flat_map (records_of_service (fst x) (snd x)) (ce_service_cache_list (snd x)).

Definition cache_records (l : list (cid * mdns_cache_entry_t)) : list (pointers * cache_record) :=
  flat_map records_of_entry l.

(** * Addresses *)

Section Assoc.
Context {A : Type}.
Implicit Types l : list (positive * A).

Lemma assoc_split k l a : assoc k l = Some a ->
  exists l1 l2, l = l1 ++ (k, a) :: l2 /\ k ∉ map fst l1.
Proof.
  induction l as [|[k' a'] l IH]; cbn [assoc]; [done|].
  destruct (Pos.eqb_spec k k') as [->|Hne].
  - intros [= ->]. exists [], l. split; [done|]. apply not_elem_of_nil.
  - intros (l1 & l2 & -> & Hn)%IH. exists ((k', a') :: l1), l2. split; [done|].
    cbn. rewrite not_elem_of_cons. done.
Qed.

Lemma assoc_app_ne k l1 l2 : k ∉ map fst l1 -> assoc k (l1 ++ l2) = assoc k l2.
Proof.
  induction l1 as [|[k' a'] l1 IH]; cbn; [done|]. rewrite not_elem_of_cons. intros [Hne Hn].
  destruct (Pos.eqb_spec k k'); [done|]. by apply IH.
Qed.

Lemma assoc_elem_of k l a : base.NoDup (map fst l) -> (k, a) ∈ l <-> assoc k l = Some a.
Proof.
  intros Hnd. split.
  - intros (l1 & l2 & ->)%list_elem_of_split. rewrite assoc_app_ne.
    + cbn. by rewrite Pos.eqb_refl.
    + rewrite map_app, NoDup_app in Hnd. destruct Hnd as (_ & Hd & _). intros Hin. apply (Hd _ Hin). left.
  - intros (l1 & l2 & -> & _)%assoc_split. apply elem_of_app. right. left.
Qed.

Lemma assoc_None k l : assoc k l = None <-> k ∉ map fst l.
Proof.
  induction l as [|[k' a'] l IH]; cbn; [split; [intros _; apply not_elem_of_nil|done]|].
  rewrite not_elem_of_cons, <- IH. destruct (Pos.eqb_spec k k'); [|by intuition]. split; [done|by intros []].
Qed.

Lemma alter_at_fst k f l : map fst (alter_at k f l) = map fst l.
Proof. unfold alter_at. rewrite map_map. apply map_ext. intros x. by case_decide. Qed.

Lemma alter_at_ne k f l : k ∉ map fst l -> alter_at k f l = l.
Proof.
  induction l as [|x l IH]; cbn; [done|]. rewrite not_elem_of_cons. intros [Hne Hn].
  case_decide; [congruence|]. f_equal. by apply IH.
Qed.

Lemma alter_at_split k f a l1 l2 : base.NoDup (map fst (l1 ++ (k, a) :: l2)) ->
  alter_at k f (l1 ++ (k, a) :: l2) = l1 ++ (k, f a) :: l2.
Proof.
  rewrite map_app, NoDup_app. cbn [map fst]. rewrite NoDup_cons. intros (_ & Hd & Hn & _).
  unfold alter_at. rewrite map_app. cbn [map fst]. rewrite decide_True by done.
  f_equal; [apply (alter_at_ne k f)|f_equal; apply (alter_at_ne k f)]; [|done].
  intros Hin. apply (Hd _ Hin). left.
Qed.

Lemma remove_at_split k a l1 l2 : k ∉ map fst l1 -> remove_at k (l1 ++ (k, a) :: l2) = l1 ++ l2.
Proof.
  induction l1 as [|x l1 IH]; cbn; [by rewrite decide_True|]. rewrite not_elem_of_cons. intros [Hne Hn].
  rewrite decide_False by congruence. f_equal. by apply IH.
Qed.

Lemma assoc_alter_at k k' f l :
  assoc k' (alter_at k f l) = if decide (k' = k) then f <$> assoc k' l else assoc k' l.
Proof.
  unfold alter_at. induction l as [|[k0 a0] l IH]; cbn; [by case_decide|].
  destruct (decide (k0 = k)) as [Heq|Hne]; cbn; destruct (Pos.eqb_spec k' k0) as [->|Hne'].
  - by rewrite decide_True.
  - rewrite IH. done.
  - by rewrite decide_False.
  - rewrite IH. done.
Qed.

End Assoc.

(** * Well-formed trees *)

Record service_wf (s : mdns_service_cache_t) : Prop := {
  sw_instance : canon (sc_instance_name s) <> [];
  sw_service : canon (sc_service s) <> [];
  sw_proto : canon (sc_proto s) <> [];
  sw_subtypes : base.NoDup (map (fun t => map tolower (st_subtype (snd t))) (sc_subtype_list s));
  sw_txt : Forall txt_item_wf (sc_txt_list s);
}.

Record entry_wf (e : mdns_cache_entry_t) : Prop := {
  ew_services : Forall (fun x => service_wf (snd x)) (ce_service_cache_list e);
  ew_addrs : base.NoDup (map (fun x => ca_addr (snd x)) (ce_addr_list e));
}.

Definition ids_of_services (x : cid * mdns_cache_entry_t) : list vid := map fst (ce_service_cache_list (snd x)).
Definition ids_of_addrs (x : cid * mdns_cache_entry_t) : list aid := map fst (ce_addr_list (snd x)).
Definition ids_of_subtypes (x : cid * mdns_cache_entry_t) : list tid :=
  flat_map (fun y => map fst (sc_subtype_list (snd y))) (ce_service_cache_list (snd x)).
Definition keys_of_services (x : cid * mdns_cache_entry_t) : list service_key :=
  map (fun y => key_of_service (snd x) (snd y)) (ce_service_cache_list (snd x)).

(** No address and no name occurs twice. *)
Record tree_ok (l : list (cid * mdns_cache_entry_t)) : Prop := {
  t_entries : base.NoDup (entry_ids l);
  t_hosts : base.NoDup (map (fun x => key_of_entry (snd x)) l);
  t_services : base.NoDup (service_ids l);
  t_addrs : base.NoDup (addr_ids l);
  t_subtypes : base.NoDup (subtype_ids l);
  t_names : base.NoDup (flat_map keys_of_services l);
  t_wf : Forall (fun x => entry_wf (snd x)) l;
}.

(** Membership in concatenations. *)
Ltac elems := rewrite ?not_elem_of_app, ?elem_of_app, ?not_elem_of_cons, ?elem_of_cons; tauto.

(** The part of a list that may differ: nothing new but what is nowhere. *)
Definition renews {A} (all old new : list A) : Prop :=
  base.NoDup new /\ forall y, y ∈ new -> y ∈ old \/ y ∉ all.

Lemma NoDup_renews {A} (l1 b b' l2 : list A) : base.NoDup (l1 ++ b ++ l2) -> renews (l1 ++ b ++ l2) b b' ->
  base.NoDup (l1 ++ b' ++ l2).
Proof.
  rewrite !NoDup_app. intros (H1 & H2 & H3 & H4 & H5) [Hb Hnew].
  split_and!; try done.
  - intros x Hx. rewrite elem_of_app. intros [Hb'|Hl2].
    + specialize (Hnew x Hb'). specialize (H2 x Hx). revert Hnew H2 Hx. elems.
    + specialize (H2 x Hx). revert H2. elems.
  - intros x Hx Hl2. specialize (H4 x). specialize (Hnew x Hx). revert H4 Hnew Hl2. elems.
Qed.

Lemma NoDup_flat_map_mid {A B} (g : A -> list B) l1 x l2 :
  base.NoDup (flat_map g (l1 ++ x :: l2)) -> base.NoDup (g x).
Proof. rewrite flat_map_app. cbn. rewrite !NoDup_app. by intros (_ & _ & ? & _). Qed.

Lemma NoDup_flat_map_drop {A B} (g : A -> list B) l1 x l2 :
  base.NoDup (flat_map g (l1 ++ x :: l2)) -> base.NoDup (flat_map g (l1 ++ l2)).
Proof.
  rewrite !flat_map_app. cbn. rewrite !NoDup_app. intros (H1 & H2 & _ & H4 & H5).
  split_and!; try done. intros y Hy Hy2. apply (H2 y Hy). rewrite elem_of_app. by right.
Qed.

Lemma NoDup_flat_map_replace {A B} (g : A -> list B) l1 x x' l2 :
  base.NoDup (flat_map g (l1 ++ x :: l2)) -> renews (flat_map g (l1 ++ x :: l2)) (g x) (g x') ->
  base.NoDup (flat_map g (l1 ++ x' :: l2)).
Proof. rewrite !flat_map_app. cbn. apply NoDup_renews. Qed.

Lemma renews_refl {A} (all l : list A) : base.NoDup l -> renews all l l.
Proof. intros Hl. split; [done|]. auto. Qed.

Lemma renews_cons {A} (all old : list A) x : base.NoDup old -> x ∉ all -> x ∉ old -> renews all old (x :: old).
Proof.
  intros Ho Hx Hx'. split; [by apply NoDup_cons|]. intros y [->|Hy]%elem_of_cons; auto.
Qed.

Lemma renews_sublist {A} (all old new : list A) : base.NoDup old -> new `sublist_of` old -> renews all old new.
Proof.
  intros Ho Hs. split; [by eapply sublist_NoDup|]. intros y Hy. left.
  by eapply elem_of_submseteq, sublist_submseteq.
Qed.

(** One entry of the tree is changed. *)
Record entry_step (l : list (cid * mdns_cache_entry_t)) (e e' : mdns_cache_entry_t) : Prop := {
  es_key : key_of_entry e' = key_of_entry e;
  es_wf : entry_wf e';
  es_services : renews (service_ids l) (map fst (ce_service_cache_list e)) (map fst (ce_service_cache_list e'));
  es_addrs : renews (addr_ids l) (map fst (ce_addr_list e)) (map fst (ce_addr_list e'));
  es_subtypes : forall c, renews (subtype_ids l) (ids_of_subtypes (c, e)) (ids_of_subtypes (c, e'));
  es_names : forall c, renews (flat_map keys_of_services l) (keys_of_services (c, e)) (keys_of_services (c, e'));
}.

Lemma tree_replace l1 c e e' l2 : tree_ok (l1 ++ (c, e) :: l2) -> entry_step (l1 ++ (c, e) :: l2) e e' ->
  tree_ok (l1 ++ (c, e') :: l2).
Proof.
  intros [He Hh Hs Ha Ht Hn Hw] [Hk Hw' Hs' Ha' Ht' Hn']. split.
  - unfold entry_ids in *. rewrite map_app in *. exact He.
  - rewrite map_app in *. cbn [map snd] in *. by rewrite Hk.
  - by apply (NoDup_flat_map_replace _ _ (c, e)).
  - by apply (NoDup_flat_map_replace _ _ (c, e)).
  - apply (NoDup_flat_map_replace ids_of_subtypes _ (c, e)); [done|apply Ht'].
  - apply (NoDup_flat_map_replace _ _ (c, e)); [done|apply Hn'].
  - apply Forall_app in Hw as [Hw1 Hw2]. apply Forall_cons in Hw2 as [_ Hw2].
    apply Forall_app. split; [done|]. by apply Forall_cons.
Qed.

Lemma tree_remove l1 x l2 : tree_ok (l1 ++ x :: l2) -> tree_ok (l1 ++ l2).
Proof.
  intros [He Hh Hs Ha Ht Hn Hw]. split; try by eapply NoDup_flat_map_drop.
  - unfold entry_ids in *. rewrite map_app in *. eapply sublist_NoDup; [exact He|].
    apply sublist_app; [done|]. cbn. by apply sublist_cons.
  - rewrite map_app in *. eapply sublist_NoDup; [exact Hh|].
    apply sublist_app; [done|]. cbn. by apply sublist_cons.
  - rewrite Forall_app, Forall_cons in Hw. apply Forall_app. tauto.
Qed.

Lemma tree_push c h n p l : tree_ok l -> c ∉ entry_ids l ->
  (canon h, n, p) ∉ map (fun x => key_of_entry (snd x)) l -> tree_ok ((c, mk_entry h n p [] []) :: l).
Proof.
  intros [He Hh Hs Ha Ht Hn Hw] Hc Hk. split; try done.
  - by apply NoDup_cons.
  - cbn. by apply NoDup_cons.
  - apply Forall_cons. split; [|done]. split; [done|]. apply NoDup_nil_2.
Qed.

(** * Changing one service *)

Definition same_names (s s' : mdns_service_cache_t) : Prop :=
  sc_instance_name s' = sc_instance_name s /\ sc_service s' = sc_service s /\ sc_proto s' = sc_proto s.

Lemma same_names_key e s s' : same_names s s' -> key_of_service e s' = key_of_service e s.
Proof. intros (H1 & H2 & H3). unfold key_of_service. by rewrite H1, H2, H3. Qed.

(** A service stays well-formed, its new subtypes are new everywhere. *)
Record service_step (l : list (cid * mdns_cache_entry_t)) (s s' : mdns_service_cache_t) : Prop := {
  ss_names : same_names s s';
  ss_wf : service_wf s';
  ss_subtypes : renews (subtype_ids l) (map fst (sc_subtype_list s)) (map fst (sc_subtype_list s'));
}.

Lemma elem_of_flat_map {A B} (g : A -> list B) l y : y ∈ flat_map g l <-> exists x, x ∈ l /\ y ∈ g x.
Proof.
  rewrite list_elem_of_In, in_flat_map. split; intros (x & H1 & H2); exists x;
    rewrite ?list_elem_of_In in *; done.
Qed.

Lemma entry_step_service l1 c e l2 s1 v s s' s2 : let l := l1 ++ (c, e) :: l2 in
  tree_ok l -> ce_service_cache_list e = s1 ++ (v, s) :: s2 -> service_step l s s' ->
  entry_step l e (set_service_cache_list e (s1 ++ (v, s') :: s2)).
Proof.
  intros l Hl He [Hn Hw Ht].
  assert (Hew : entry_wf e).
  { pose proof (t_wf _ Hl) as Hwf. unfold l in Hwf. rewrite Forall_app, Forall_cons in Hwf. tauto. }
  destruct Hew as [Hs Ha]. rewrite He in Hs.
  assert (Hids : map fst (s1 ++ (v, s') :: s2) = map fst (s1 ++ (v, s) :: s2)) by by rewrite !map_app.
  split; cbn [set_service_cache_list ce_service_cache_list ce_addr_list].
  - done.
  - split; [|done]. cbn. rewrite Forall_app, Forall_cons in Hs |- *. tauto.
  - rewrite He, Hids. apply renews_refl.
    pose proof (NoDup_flat_map_mid _ _ _ _ (t_services _ Hl)) as H. cbn [snd] in H. by rewrite He in H.
  - apply renews_refl. exact (NoDup_flat_map_mid _ _ _ _ (t_addrs _ Hl)).
  - intros c0. unfold ids_of_subtypes. cbn [snd ce_service_cache_list set_service_cache_list]. rewrite He.
    pose proof (NoDup_flat_map_mid _ _ _ _ (t_subtypes _ Hl)) as H. cbn [snd] in H. rewrite He in H.
    rewrite !flat_map_app in *. cbn [flat_map snd] in *.
    assert (Hsub : forall y, y ∈ flat_map (fun y => map fst (sc_subtype_list (snd y))) s1
              ++ map fst (sc_subtype_list s) ++ flat_map (fun y => map fst (sc_subtype_list (snd y))) s2 ->
              y ∈ subtype_ids l).
    { intros y Hy. unfold subtype_ids, l. rewrite flat_map_app. cbn [flat_map snd]. rewrite He, flat_map_app.
      cbn [flat_map snd]. revert Hy. elems. }
    destruct Ht as [Ht1 Ht2]. split.
    + apply (NoDup_renews _ _ _ _ H). split; [done|]. intros y Hy. destruct (Ht2 y Hy); auto.
    + intros y. specialize (Ht2 y). elems.
  - intros c0. unfold keys_of_services. cbn [snd ce_service_cache_list set_service_cache_list].
    replace (map _ (s1 ++ (v, s') :: s2)) with (keys_of_services (c0, e)).
    + apply renews_refl. exact (NoDup_flat_map_mid _ _ _ _ (t_names _ Hl)).
    + transitivity (map (fun y => key_of_service e (snd y)) (s1 ++ (v, s') :: s2)); [|done].
      unfold keys_of_services. cbn [snd]. rewrite He, !map_app. cbn [map snd].
      by rewrite (same_names_key e s s').
Qed.

(** The entry that owns a service. *)
Definition owns (l : list (cid * mdns_cache_entry_t)) c e v s : Prop :=
  assoc c l = Some e /\ assoc v (ce_service_cache_list e) = Some s.

Lemma tree_entry_split l c e : tree_ok l -> assoc c l = Some e ->
  exists l1 l2, l = (l1 ++ (c, e) :: l2) /\ (forall f, alter_at c f l = (l1 ++ (c, f e) :: l2))
    /\ remove_at c l = (l1 ++ l2).
Proof.
  intros Hl (l1 & l2 & -> & Hn)%assoc_split. exists l1, l2. split; [done|]. split.
  - intros f. apply alter_at_split. exact (t_entries _ Hl).
  - by apply remove_at_split.
Qed.

Lemma service_not_elsewhere l1 c e l2 v : tree_ok (l1 ++ (c, e) :: l2) ->
  v ∈ map fst (ce_service_cache_list e) -> (v ∉ service_ids l1) /\ (v ∉ service_ids l2).
Proof.
  intros Hl Hv. pose proof (t_services _ Hl) as H. unfold service_ids in *. rewrite flat_map_app in H.
  cbn [flat_map snd] in H. rewrite !NoDup_app in H. destruct H as (_ & H1 & _ & H2 & _).
  split; intros Hin; [apply (H1 v Hin), elem_of_app; by left|by apply (H2 v)].
Qed.

Lemma alter_service_ne v f l : v ∉ service_ids l -> alter_service v f l = l.
Proof.
  induction l as [|[c e] l IH]; cbn [alter_service map service_ids flat_map]; [done|].
  rewrite not_elem_of_app. intros [H1 H2]. f_equal; [|by apply IH]. cbn [fst snd] in *.
  rewrite alter_at_ne by done. by destruct e.
Qed.

Lemma find_service_ne v l : v ∉ service_ids l -> find_service v l = None.
Proof.
  induction l as [|[c e] l IH]; cbn [find_service service_ids flat_map]; [done|].
  rewrite not_elem_of_app. intros [H1 H2]. cbn [snd] in H1. apply assoc_None in H1. rewrite H1. by apply IH.
Qed.

Lemma find_service_app v l l' :
  find_service v (l ++ l') = match find_service v l with Some s => Some s | None => find_service v l' end.
Proof. induction l as [|[c e] l IH]; cbn; [done|]. by destruct (assoc v (ce_service_cache_list e)). Qed.

Lemma owns_split l c e v s : tree_ok l -> owns l c e v s ->
  exists l1 l2 s1 s2, l = (l1 ++ (c, e) :: l2) /\ ce_service_cache_list e = (s1 ++ (v, s) :: s2)
    /\ (v ∉ map fst s1)
    /\ forall f, alter_service v f l = (l1 ++ (c, set_service_cache_list e (s1 ++ (v, f s) :: s2)) :: l2).
Proof.
  intros Hl [Hc Hv]. destruct (tree_entry_split _ _ _ Hl Hc) as (l1 & l2 & -> & _ & _).
  destruct (assoc_split _ _ _ Hv) as (s1 & s2 & He & Hn). exists l1, l2, s1, s2. split_and!; try done.
  intros f. assert (Hin : v ∈ map fst (ce_service_cache_list e)).
  { rewrite He, map_app. cbn. elems. }
  destruct (service_not_elsewhere _ _ _ _ _ Hl Hin) as [H1 H2].
  transitivity (alter_service v f l1 ++ (c, set_service_cache_list e (alter_at v f (ce_service_cache_list e)))
    :: alter_service v f l2); [unfold alter_service; by rewrite map_app|].
  rewrite !alter_service_ne by done. rewrite He, alter_at_split; [done|].
  pose proof (NoDup_flat_map_mid _ _ _ _ (t_services _ Hl)) as H. cbn [snd] in H. by rewrite He in H.
Qed.

Lemma owns_find l c e v s : tree_ok l -> owns l c e v s -> find_service v l = Some s.
Proof.
  intros Hl Ho. destruct (owns_split _ _ _ _ _ Hl Ho) as (l1 & l2 & s1 & s2 & -> & He & Hn & _).
  destruct (service_not_elsewhere _ _ _ _ v Hl) as [H1 _]; [rewrite He, map_app; cbn; elems|].
  rewrite find_service_app, find_service_ne by done. cbn. destruct Ho as [_ ->]. done.
Qed.

Lemma find_owns l v s : tree_ok l -> find_service v l = Some s -> exists c e, owns l c e v s.
Proof.
  intros Hl Hf. assert (exists c e, (c, e) ∈ l /\ assoc v (ce_service_cache_list e) = Some s) as (c & e & Hin & Hv).
  { clear Hl. induction l as [|[c e] l IH]; cbn in Hf; [done|].
    destruct (assoc v (ce_service_cache_list e)) eqn:Ea.
    - exists c, e. split; [left|congruence].
    - destruct (IH Hf) as (c' & e' & ? & ?). exists c', e'. split; [by right|done]. }
  exists c, e. split; [|done]. apply assoc_elem_of; [exact (t_entries _ Hl)|done].
Qed.

Lemma records_of_entry_services c e x :
  records_of_entry (c, set_service_cache_list e x)
  = map (addr_record c e) (ce_addr_list e) ++ flat_map (records_of_service c e) x.
Proof. done. Qed.

Lemma perm_focus {A} (a b s1 r s2 l2 : list A) :
  a ++ (b ++ s1 ++ r ++ s2) ++ l2 ≡ₚ r ++ a ++ b ++ s1 ++ s2 ++ l2.
Proof.
  transitivity ((a ++ b ++ s1) ++ r ++ (s2 ++ l2)); [by rewrite <- !app_assoc|].
  rewrite Permutation_app_swap_app. by rewrite <- !app_assoc.
Qed.

Lemma cache_blocks_app l l' : cache_blocks (l ++ l') = (cache_blocks l + cache_blocks l')%Z.
Proof. unfold cache_blocks. induction l as [|x l IH]; cbn [app foldr]; lia. Qed.

Lemma cache_blocks_cons x l : cache_blocks (x :: l) = (entry_blocks (snd x) + cache_blocks l)%Z.
Proof. done. Qed.

Lemma services_blocks_app l l' : services_blocks (l ++ l') = (services_blocks l + services_blocks l')%Z.
Proof. unfold services_blocks. induction l as [|x l IH]; cbn [app foldr]; lia. Qed.

(** The records and the blocks of the rest of the tree. *)
Lemma service_focus l c e v s : tree_ok l -> owns l c e v s ->
  exists recs blocks, cache_records l ≡ₚ records_of_service c e (v, s) ++ recs
    /\ cache_blocks l = (service_blocks s + blocks)%Z
    /\ forall f, cache_records (alter_service v f l) ≡ₚ records_of_service c e (v, f s) ++ recs
         /\ cache_blocks (alter_service v f l) = (service_blocks (f s) + blocks)%Z
         /\ (service_step l s (f s) -> tree_ok (alter_service v f l)).
Proof.
  intros Hl Ho. destruct (owns_split _ _ _ _ _ Hl Ho) as (l1 & l2 & s1 & s2 & -> & He & Hn & Halt).
  assert (Hsame : set_service_cache_list e (ce_service_cache_list e) = e) by (by destruct e).
  assert (Hrec : forall s', cache_records (l1 ++ (c, set_service_cache_list e (s1 ++ (v, s') :: s2)) :: l2)
    ≡ₚ records_of_service c e (v, s') ++ (cache_records l1 ++ map (addr_record c e) (ce_addr_list e)
       ++ flat_map (records_of_service c e) s1 ++ flat_map (records_of_service c e) s2 ++ cache_records l2)).
  { intros s'. unfold cache_records. rewrite flat_map_app. cbn [flat_map].
    rewrite records_of_entry_services, flat_map_app. cbn [flat_map]. apply perm_focus. }
  assert (Hblk : forall s', cache_blocks (l1 ++ (c, set_service_cache_list e (s1 ++ (v, s') :: s2)) :: l2)
    = (service_blocks s' + (cache_blocks l1 + cache_blocks l2 + (1 + opt_block (ce_hostname e)
       + Z.of_nat (length (ce_addr_list e)) + services_blocks s1 + services_blocks s2)))%Z).
  { intros s'. rewrite cache_blocks_app. cbn [cache_blocks foldr snd]. fold (cache_blocks l2).
    unfold entry_blocks. cbn [set_service_cache_list ce_hostname ce_addr_list ce_service_cache_list].
    rewrite services_blocks_app. cbn [services_blocks foldr snd]. fold (services_blocks s2). lia. }
  eexists _, _. split_and!.
  - rewrite <- (Hrec s), <- He, Hsame. done.
  - rewrite <- (Hblk s), <- He, Hsame. done.
  - intros f. rewrite Halt. split_and!; [apply Hrec|apply Hblk|]. intros Hst.
    apply (tree_replace _ _ e); [done|]. by apply (entry_step_service _ _ _ _ _ _ s).
Qed.

(** * Changing one entry *)

Lemma entry_focus l c e : tree_ok l -> assoc c l = Some e ->
  exists recs blocks, cache_records l ≡ₚ records_of_entry (c, e) ++ recs
    /\ cache_blocks l = (entry_blocks e + blocks)%Z
    /\ (forall f, cache_records (alter_at c f l) ≡ₚ records_of_entry (c, f e) ++ recs
         /\ cache_blocks (alter_at c f l) = (entry_blocks (f e) + blocks)%Z
         /\ (entry_step l e (f e) -> tree_ok (alter_at c f l)))
    /\ cache_records (remove_at c l) ≡ₚ recs /\ cache_blocks (remove_at c l) = blocks
    /\ tree_ok (remove_at c l).
Proof.
  intros Hl Hc. destruct (tree_entry_split _ _ _ Hl Hc) as (l1 & l2 & -> & Halt & Hrem).
  assert (Hrec : forall x, cache_records (l1 ++ x :: l2) ≡ₚ records_of_entry x ++ cache_records (l1 ++ l2)).
  { intros x. unfold cache_records. rewrite !flat_map_app. cbn [flat_map]. apply Permutation_app_swap_app. }
  assert (Hblk : forall x, cache_blocks (l1 ++ x :: l2) = (entry_blocks (snd x) + cache_blocks (l1 ++ l2))%Z).
  { intros x. rewrite !cache_blocks_app, cache_blocks_cons. lia. }
  exists (cache_records (l1 ++ l2)), (cache_blocks (l1 ++ l2)). rewrite Hrem.
  split_and!; [apply Hrec|apply Hblk| |done|done|by eapply tree_remove].
  intros f. rewrite Halt. split_and!; [apply Hrec|apply Hblk|]. by apply tree_replace.
Qed.

Section InEntry.
Context (l : list (cid * mdns_cache_entry_t)) (c : cid) (e : mdns_cache_entry_t).
Hypothesis l_ok : tree_ok l.
Hypothesis in_l : assoc c l = Some e.

Lemma in_entry_flat {A} (g : cid * mdns_cache_entry_t -> list A) : base.NoDup (flat_map g l) ->
  base.NoDup (g (c, e)) /\ forall y, y ∈ g (c, e) -> y ∈ flat_map g l.
Proof using in_l.
  intros Hn. destruct (assoc_split _ _ _ in_l) as (l1 & l2 & E & _). clear l_ok. subst l. split.
  - by eapply NoDup_flat_map_mid.
  - intros y Hy. rewrite flat_map_app. cbn [flat_map]. elems.
Qed.

Lemma in_entry_wf : entry_wf e.
Proof using l_ok in_l.
  destruct (assoc_split _ _ _ in_l) as (l1 & l2 & E & _). pose proof (t_wf _ l_ok) as Hw.
  rewrite E, Forall_app, Forall_cons in Hw. tauto.
Qed.

Lemma services_NoDup : base.NoDup (map fst (ce_service_cache_list e)).
Proof using l_ok in_l. apply (in_entry_flat ids_of_services), (t_services _ l_ok). Qed.

Lemma addrs_NoDup : base.NoDup (map fst (ce_addr_list e)).
Proof using l_ok in_l. apply (in_entry_flat ids_of_addrs), (t_addrs _ l_ok). Qed.

Lemma entry_step_push v s : v ∉ service_ids l -> key_of_service e s ∉ flat_map keys_of_services l ->
  service_wf s -> base.NoDup (map fst (sc_subtype_list s)) ->
  (forall t, t ∈ map fst (sc_subtype_list s) -> t ∉ subtype_ids l) ->
  entry_step l e (set_service_cache_list e ((v, s) :: ce_service_cache_list e)).
Proof using l_ok in_l.
  intros Hv Hk Hs Hnd Ht. pose proof in_entry_wf as [Hws Hwa].
  destruct (in_entry_flat ids_of_subtypes (t_subtypes _ l_ok)) as [Hst Hst'].
  destruct (in_entry_flat keys_of_services (t_names _ l_ok)) as [Hnm Hnm'].
  split; cbn [set_service_cache_list ce_service_cache_list ce_addr_list].
  - done.
  - split; [|done]. by apply Forall_cons.
  - cbn [map fst]. apply renews_cons; [apply services_NoDup|done|].
    intros Hin. apply Hv. exact (proj2 (in_entry_flat ids_of_services (t_services _ l_ok)) v Hin).
  - apply renews_refl, addrs_NoDup.
  - intros c0. unfold ids_of_subtypes. cbn [snd set_service_cache_list ce_service_cache_list flat_map].
    split.
    + apply NoDup_app. split_and!; [done| |exact Hst]. intros t H1 H2. apply (Ht t H1). by apply Hst'.
    + intros t [H1|H1]%elem_of_app; [right; by apply Ht|by left].
  - intros c0. apply renews_cons; [done|done|]. intros Hin. apply Hk, Hnm', Hin.
Qed.

Lemma flat_map_sublist {A B} (g : A -> list B) k k' : k' `sublist_of` k -> flat_map g k' `sublist_of` flat_map g k.
Proof.
  induction 1 as [|x k' k _ IH|x k' k _ IH]; cbn; [done|by apply sublist_app|].
  by apply sublist_inserts_l.
Qed.

Lemma map_sublist {A B} (g : A -> B) k k' : k' `sublist_of` k -> map g k' `sublist_of` map g k.
Proof. induction 1; cbn; by constructor. Qed.

Lemma remove_at_sublist {A} v (k : list (positive * A)) : remove_at v k `sublist_of` k.
Proof. induction k as [|x k IH]; cbn; [done|]. case_decide; [by apply sublist_cons|by apply sublist_skip]. Qed.

Lemma entry_step_remove v :
  entry_step l e (set_service_cache_list e (remove_at v (ce_service_cache_list e))).
Proof using l_ok in_l.
  pose proof in_entry_wf as [Hws Hwa]. pose proof (remove_at_sublist v (ce_service_cache_list e)) as Hsub.
  split; cbn [set_service_cache_list ce_service_cache_list ce_addr_list].
  - done.
  - split; [|done]. cbn. rewrite list.Forall_forall in *. intros x Hx. apply Hws.
    by eapply elem_of_submseteq, sublist_submseteq.
  - apply renews_sublist; [apply services_NoDup|]. by apply map_sublist.
  - apply renews_refl, addrs_NoDup.
  - intros c0. apply renews_sublist; [apply (in_entry_flat ids_of_subtypes), (t_subtypes _ l_ok)|].
    by apply flat_map_sublist.
  - intros c0. apply renews_sublist; [apply (in_entry_flat keys_of_services), (t_names _ l_ok)|].
    unfold keys_of_services. cbn [snd set_service_cache_list ce_service_cache_list].
    by apply (map_sublist (fun y => key_of_service e (snd y))).
Qed.

Lemma entry_step_addrs al : renews (addr_ids l) (map fst (ce_addr_list e)) (map fst al) ->
  base.NoDup (map (fun x => ca_addr (snd x)) al) -> entry_step l e (set_addr_list e al).
Proof using l_ok in_l.
  intros Hr Hn. pose proof in_entry_wf as [Hws Hwa].
  split; cbn [set_addr_list ce_service_cache_list ce_addr_list]; try done.
  - apply renews_refl, services_NoDup.
  - intros c0. apply renews_refl, (in_entry_flat ids_of_subtypes), (t_subtypes _ l_ok).
  - intros c0. apply renews_refl, (in_entry_flat keys_of_services), (t_names _ l_ok).
Qed.

End InEntry.

(** * Which records a tree has *)

Lemma NoDup_flat_map_inj {A B} (g : A -> list B) l x y z :
  base.NoDup (flat_map g l) -> x ∈ l -> y ∈ l -> z ∈ g x -> z ∈ g y -> x = y.
Proof.
  induction l as [|w l IH]; cbn [flat_map]; [intros _ Hx; by apply not_elem_of_nil in Hx|].
  rewrite NoDup_app. intros (_ & H1 & H2) Hx Hy Hzx Hzy.
  apply elem_of_cons in Hx as [->|Hx]; apply elem_of_cons in Hy as [->|Hy]; auto; exfalso.
  - apply (H1 z Hzx), elem_of_flat_map. eauto.
  - apply (H1 z Hzy), elem_of_flat_map. eauto.
Qed.

Lemma NoDup_map_inj {A B} (h : A -> B) l x y : base.NoDup (map h l) -> x ∈ l -> y ∈ l -> h x = h y -> x = y.
Proof.
  induction l as [|w l IH]; cbn [map]; [intros _ Hx; by apply not_elem_of_nil in Hx|].
  rewrite NoDup_cons. intros [H1 H2] Hx Hy E.
  apply elem_of_cons in Hx as [->|Hx]; apply elem_of_cons in Hy as [->|Hy]; auto; exfalso; apply H1.
  - rewrite E. by apply list_elem_of_fmap_2.
  - rewrite <- E. by apply list_elem_of_fmap_2.
Qed.

(** A service in the tree. *)
Definition in_tree (l : list (cid * mdns_cache_entry_t)) c e v s : Prop :=
  (c, e) ∈ l /\ (v, s) ∈ ce_service_cache_list e.

Lemma owns_in l c e v s : tree_ok l -> owns l c e v s <-> in_tree l c e v s.
Proof.
  intros Hl. unfold owns, in_tree. rewrite <- (assoc_elem_of c l e) by apply (t_entries _ Hl). split.
  - intros [H1 H2]. split; [done|]. apply assoc_elem_of; [|done].
    eapply services_NoDup; [done|]. apply assoc_elem_of; [apply (t_entries _ Hl)|done].
  - intros [H1 H2]. split; [done|]. apply assoc_elem_of; [|done].
    eapply services_NoDup; [done|]. apply assoc_elem_of; [apply (t_entries _ Hl)|done].
Qed.

Lemma in_tree_entry l c e v s : tree_ok l -> in_tree l c e v s -> assoc c l = Some e.
Proof. intros Hl Hi. by apply (owns_in l c e v s Hl) in Hi as [? _]. Qed.

Lemma in_tree_id l c e v s c' e' s' : tree_ok l -> in_tree l c e v s -> in_tree l c' e' v s' ->
  c = c' /\ e = e' /\ s = s'.
Proof.
  intros Hl [H1 H2] [H3 H4].
  assert (Heq : (c, e) = (c', e')).
  { eapply (NoDup_flat_map_inj ids_of_services l _ _ v); [apply (t_services _ Hl)|done|done| |];
      [by apply (list_elem_of_fmap_2 fst _ (v, s))|by apply (list_elem_of_fmap_2 fst _ (v, s'))]. }
  injection Heq as -> ->. split_and!; try done.
  assert (Hs : (v, s) = (v, s')) by (eapply NoDup_map_inj; [by eapply services_NoDup, in_tree_entry|..]; done).
  by injection Hs.
Qed.

Lemma in_tree_key l c e v s c' e' v' s' : tree_ok l -> in_tree l c e v s -> in_tree l c' e' v' s' ->
  key_of_service e s = key_of_service e' s' -> v = v'.
Proof.
  intros Hl Hi1 Hi2 Hk. pose proof Hi1 as [H1 H2]. pose proof Hi2 as [H3 H4].
  assert (Heq : (c, e) = (c', e')).
  { eapply (NoDup_flat_map_inj keys_of_services l _ _ (key_of_service e s)); [apply (t_names _ Hl)|done|done| |].
    - by apply (list_elem_of_fmap_2 (fun y => key_of_service e (snd y)) _ (v, s)).
    - rewrite Hk. by apply (list_elem_of_fmap_2 (fun y => key_of_service e' (snd y)) _ (v', s')). }
  injection Heq as -> ->.
  assert (Hs : (v, s) = (v', s')); [|by injection Hs].
  eapply (NoDup_map_inj (fun y => key_of_service e' (snd y))); [|done|done|done].
  apply (in_entry_flat l c' e' (in_tree_entry _ _ _ _ _ Hl Hi1) keys_of_services), (t_names _ Hl).
Qed.

Lemma entry_host_key l c e c' e' : tree_ok l -> (c, e) ∈ l -> (c', e') ∈ l -> key_of_entry e = key_of_entry e' ->
  c = c' /\ e = e'.
Proof.
  intros Hl H1 H2 Hk. assert (Heq : (c, e) = (c', e')); [|by injection Heq].
  by eapply NoDup_map_inj; [apply (t_hosts _ Hl)|..].
Qed.

(** The service a name is about. *)
Definition service_of_name (n : record_name) : option service_key :=
  match n with
  | NamePtr k | NameSubtype k _ | NameSrv k | NameTxt k => Some k
  | NameAddr _ _ => None
  end.

(** The records of a service carry its pointers and its names. *)
Lemma service_record_inv c e v s p r : (p, r) ∈ records_of_service c e (v, s) ->
  service_of_name (fst r) = Some (key_of_service e s)
  /\ ((p = of_service MDNS_CACHE_RECORD_PTR c v /\ sc_ptr_present s = true
       /\ r = (NamePtr (key_of_service e s), DataTtl (sc_ptr_ttl s)))
      \/ (p = of_service MDNS_CACHE_RECORD_SRV c v /\ sc_srv_present s = true
          /\ r = (NameSrv (key_of_service e s), DataSrv (canon (ce_hostname e)) (sc_priority s) (sc_weight s)
                   (sc_port s) (sc_srv_ttl s)))
      \/ (p = of_service MDNS_CACHE_RECORD_TXT c v /\ sc_txt_present s = true
          /\ r = (NameTxt (key_of_service e s), DataTxt (sc_txt_list s) (sc_txt_ttl s)))
      \/ (exists t it, p = of_subtype c v t /\ (t, it) ∈ sc_subtype_list s
          /\ r = (NameSubtype (key_of_service e s) (map tolower (st_subtype it)), DataTtl (st_ttl it)))).
Proof.
  unfold records_of_service. cbn [fst snd]. rewrite !elem_of_app.
  unfold ptr_records, srv_records, txt_records. intros [H|[H|[H|H]]].
  - destruct (sc_ptr_present s); [|by apply not_elem_of_nil in H].
    apply list_elem_of_singleton in H as [= -> ->]. auto 10.
  - destruct (sc_srv_present s); [|by apply not_elem_of_nil in H].
    apply list_elem_of_singleton in H as [= -> ->]. auto 10.
  - destruct (sc_txt_present s); [|by apply not_elem_of_nil in H].
    apply list_elem_of_singleton in H as [= -> ->]. auto 10.
  - apply list_elem_of_fmap in H as ([t it] & [= -> ->] & H). split; [done|]. do 3 right. eauto.
Qed.

Lemma cache_record_inv l p r : (p, r) ∈ cache_records l ->
  (exists c e a x, (c, e) ∈ l /\ (a, x) ∈ ce_addr_list e /\ (p, r) = addr_record c e (a, x))
  \/ (exists c e v s, in_tree l c e v s /\ (p, r) ∈ records_of_service c e (v, s)).
Proof.
  unfold cache_records. intros ([c e] & Hin & H)%elem_of_flat_map. unfold records_of_entry in H. cbn [fst snd] in H.
  apply elem_of_app in H as [H|H].
  - apply list_elem_of_fmap in H as ([a x] & -> & Ha). left. eauto 10.
  - apply elem_of_flat_map in H as ([v s] & Hv & H). right. exists c, e, v, s. by split; [split|].
Qed.

Lemma service_record_in l c e v s p r : in_tree l c e v s -> (p, r) ∈ records_of_service c e (v, s) ->
  (p, r) ∈ cache_records l.
Proof.
  intros [Hc Hv] Hr. unfold cache_records. apply elem_of_flat_map. exists (c, e). split; [done|].
  unfold records_of_entry. apply elem_of_app. right. apply elem_of_flat_map. by exists (v, s).
Qed.

Lemma addr_record_in l c e x : (c, e) ∈ l -> x ∈ ce_addr_list e -> addr_record c e x ∈ cache_records l.
Proof.
  intros Hc Hx. unfold cache_records. apply elem_of_flat_map. exists (c, e). split; [done|].
  unfold records_of_entry. apply elem_of_app. left. by apply list_elem_of_fmap_2.
Qed.
