(* ===== verification/CacheExpiry.v ===== *)
(** The list of expiry nodes: [expiry_schedule] keeps it ordered by expiry time,
    and its shortcut of starting behind the old place of a node makes no
    difference. *)
From S2P Require Import Prelude Names Server Heap Txt State Cache CacheTree.
From Stdlib Require Import Sorting.

Definition expires_le (n m : mdns_cache_expiry_t) : Prop := (ex_expires_at_us n <= ex_expires_at_us m)%Z.

Definition expiry_sorted (l : list mdns_cache_expiry_t) : Prop := StronglySorted expires_le l.

(** The shapes a node can have. *)
Definition pointers_wf (p : pointers) : Prop :=
  match p with
  | (MDNS_CACHE_RECORD_ADDR, _, None, Some _, None) => True
  | (MDNS_CACHE_RECORD_SUBTYPE, _, Some _, None, Some _) => True
  | (MDNS_CACHE_RECORD_PTR, _, Some _, None, None) => True
  | (MDNS_CACHE_RECORD_SRV, _, Some _, None, None) => True
  | (MDNS_CACHE_RECORD_TXT, _, Some _, None, None) => True
  | _ => False
  end.

Lemma node_matches_iff r c v a t n : pointers_wf (r, c, v, a, t) -> pointers_wf (pointers_of n) ->
  node_matches r c v a t n = true <-> pointers_of n = (r, c, v, a, t).
Proof.
  intros Hp Hn. unfold node_matches, pointers_of in *.
  destruct n as [q r' c' v' a' t' x]. cbn [ex_record ex_entry ex_service ex_addr ex_subtype] in *.
  rewrite !andb_true_iff, orb_true_iff, negb_true_iff. rewrite !bool_decide_eq_true, bool_decide_eq_false.
  split.
  - intros [[[-> ->] H1] H2]. destruct r, v as [v|], a as [a|], t as [t|]; try done;
      destruct v' as [v'|], a' as [a'|], t' as [t'|]; try done;
      cbn in H1; apply bool_decide_eq_true in H1; simplify_eq; try done.
    destruct H2 as [H2|H2]; [done|by simplify_eq].
  - intros [= -> -> -> -> ->]. split_and!; try done.
    + case_decide; by apply bool_decide_eq_true.
    + destruct (decide (r = MDNS_CACHE_RECORD_SUBTYPE)); [by right|by left].
Qed.

(** * Insertion *)

Lemma expiry_insert_perm n l : expiry_insert n l ≡ₚ n :: l.
Proof.
  induction l as [|x l IH]; cbn [expiry_insert]; [done|]. case_on_goal; [|done].
  rewrite IH. apply Permutation_swap.
Qed.

Lemma expiry_insert_sorted n l : expiry_sorted l -> expiry_sorted (expiry_insert n l).
Proof.
  unfold expiry_sorted. induction 1 as [|x l Hl IH Hx]; cbn [expiry_insert]; [by repeat constructor|].
  case_on_goal; bsimp.
  - constructor; [done|]. rewrite expiry_insert_perm. constructor; [unfold expires_le; lia|done].
  - constructor; [by constructor|]. constructor; [unfold expires_le; lia|].
    eapply Forall_impl; [exact Hx|]. unfold expires_le. intros y. lia.
Qed.

(** Behind nodes that expire earlier, insertion goes on. *)
Lemma expiry_insert_app n l l' : Forall (fun x => (ex_expires_at_us x < ex_expires_at_us n)%Z) l ->
  expiry_insert n (l ++ l') = l ++ expiry_insert n l'.
Proof.
  induction 1 as [|x l Hx _ IH]; cbn [app expiry_insert]; [done|].
  case_on_goal; bsimp; [by rewrite IH|lia].
Qed.

Definition reschedule (t : Z) (p : pointers) : mdns_cache_expiry_t :=
  let '(r, c, v, a, s) := p in mk_expiry true r c v a s t.

Lemma reschedule_pointers t p : pointers_of (reschedule t p) = p.
Proof. by destruct p as [[[[r c] v] a] s]. Qed.

Lemma reschedule_expires t p : ex_expires_at_us (reschedule t p) = t.
Proof. by destruct p as [[[[r c] v] a] s]. Qed.

Definition expiry_time (now ttl : Z) : Z := if (ttl =? 0)%Z then 0%Z else calc_expiration_time_us now ttl.

(** The shortcut gives what insertion from the head gives. *)
Lemma reinsert_insert now ttl before n after :
  (ex_queued n = true -> expiry_sorted (before ++ n :: after)) ->
  reinsert now ttl before n after
  = expiry_insert (reschedule (expiry_time now ttl) (pointers_of n)) (before ++ after).
Proof.
  intros Hs. unfold reinsert, expiry_time. cbn zeta. set (t := if (ttl =? 0)%Z then _ else _).
  change (mk_expiry true _ _ _ _ _ t) with (reschedule t (pointers_of n)).
  destruct ((ex_expires_at_us n <? t)%Z && ex_queued n) eqn:E; [|done]. apply andb_true_iff in E as [Ht Hq]. apply Z.ltb_lt in Ht.
  rewrite expiry_insert_app; [done|]. rewrite reschedule_expires.
  specialize (Hs Hq). clear -Hs Ht. induction before as [|x before IH]; [constructor|].
  apply StronglySorted_inv in Hs as [Hs Hx]. constructor; [|by apply IH].
  rewrite Forall_app, Forall_cons in Hx. destruct Hx as (_ & Hx & _). unfold expires_le in Hx. lia.
Qed.

(** * The first loop *)

Lemma unlink_first_Some {A} (f : A -> bool) l before x after :
  unlink_first f l = Some (before, x, after) ->
  l = before ++ x :: after /\ f x = true /\ Forall (fun y => f y = false) before.
Proof.
  revert before. induction l as [|y l IH]; intros before; cbn [unlink_first]; [done|].
  destruct (f y) eqn:Ef.
  - intros [= <- <- <-]. by split_and!.
  - destruct (unlink_first f l) as [[[b z] a]|]; [|done]. intros [= <- <- <-].
    destruct (IH b eq_refl) as (-> & Hf & Hb). split_and!; [done|done|by constructor].
Qed.

Lemma unlink_first_None {A} (f : A -> bool) l : unlink_first f l = None -> Forall (fun y => f y = false) l.
Proof.
  induction l as [|y l IH]; cbn [unlink_first]; [done|]. destruct (f y) eqn:Ef; [done|].
  destruct (unlink_first f l) as [[[b z] a]|]; [done|]. intros _. constructor; auto.
Qed.

(** The nodes other than that of a record. *)
Definition others (p : pointers) (l : list mdns_cache_expiry_t) : list mdns_cache_expiry_t :=
  filter (fun n => pointers_of n <> p) l.

Lemma others_none p l : p ∉ map pointers_of l -> others p l = l.
Proof.
  unfold others. induction l as [|n l IH]; cbn [map]; [done|]. rewrite not_elem_of_cons. intros [Hn Hl].
  rewrite filter_cons_True by congruence. by rewrite IH.
Qed.

Lemma others_split p l1 n l2 : pointers_of n = p -> base.NoDup (map pointers_of (l1 ++ n :: l2)) ->
  others p (l1 ++ n :: l2) = l1 ++ l2.
Proof.
  intros Hp. rewrite map_app. cbn [map]. rewrite NoDup_app, NoDup_cons. intros (_ & H1 & H2 & _).
  unfold others. rewrite filter_app, filter_cons_False by auto. rewrite <- Hp.
  f_equal; apply others_none; [|done]. intros Hin. apply (H1 _ Hin). left.
Qed.

(** The list is in order, but for a node just made that is about to be scheduled. *)
Definition schedulable (p : pointers) (l : list mdns_cache_expiry_t) : Prop :=
  Forall (fun n => pointers_wf (pointers_of n)) l /\ base.NoDup (map pointers_of l) /\ p ∈ map pointers_of l
  /\ (expiry_sorted l \/ exists n l', l = n :: l' /\ pointers_of n = p /\ ex_queued n = false /\ expiry_sorted l').

Lemma schedulable_sorted p l : schedulable p l -> expiry_sorted (others p l).
Proof.
  intros (_ & Hn & _ & [Hs|(n & l' & -> & Hp & _ & Hs)]).
  - clear Hn. unfold others, expiry_sorted in *. induction Hs as [|x l _ IH Hx]; [constructor|].
    rewrite filter_cons. case_decide; [|done]. constructor; [done|].
    rewrite list.Forall_forall in *. intros y [_ Hy]%list_elem_of_filter. by apply Hx.
  - pose proof (others_split p [] n l' Hp Hn) as He. cbn [app] in He. by rewrite He.
Qed.

(** Where the TTL of a record is read. *)
Definition ttl_of (st : client) (r : mdns_cache_record_type_t) (v : option vid)
    (a : option (aid * mdns_cache_addr_t)) (t : option (tid * mdns_cache_subtype_t)) : option Z :=
  match r with
  | MDNS_CACHE_RECORD_PTR => s ← (v ≫= fun v => find_service v (s_cache st)); Some (sc_ptr_ttl s)
  | MDNS_CACHE_RECORD_SRV => s ← (v ≫= fun v => find_service v (s_cache st)); Some (sc_srv_ttl s)
  | MDNS_CACHE_RECORD_TXT => s ← (v ≫= fun v => find_service v (s_cache st)); Some (sc_txt_ttl s)
  | MDNS_CACHE_RECORD_SUBTYPE => (fun x => st_ttl (snd x)) <$> t
  | MDNS_CACHE_RECORD_ADDR => (fun x => ca_ttl (snd x)) <$> a
  end.

Lemma record_ttl_eq st r c v a t ttl : pointers_wf (r, c, v, fst <$> a, fst <$> t) ->
  ttl_of st r v a t = Some ttl -> record_ttl r v a t st = Ret (ttl, st).
Proof.
  intros Hp Ht. unfold record_ttl, get_service_cache, mbind, ST_bind, asks.
  destruct r, v as [v|], a as [a|], t as [t|]; try done;
    try (destruct (find_service v (s_cache st)) eqn:E; cbn in Ht; rewrite E in Ht; [|done]);
    cbn in Ht; injection Ht as <-; cbn; done.
Qed.

Lemma expiry_schedule_spec st r c v a t ttl :
  let p := (r, c, v, fst <$> a, fst <$> t) in
  pointers_wf p -> schedulable p (s_expiry st) -> ttl_of st r v a t = Some ttl ->
  let l' := expiry_insert (reschedule (expiry_time (c_now st) ttl) p) (others p (s_expiry st)) in
  expiry_schedule r c v a t st = Ret (tt, set_expiry st l') /\ expiry_sorted l'.
Proof.
  intros p Hp Hs Ht l'. split; [|by apply expiry_insert_sorted, schedulable_sorted].
  pose proof Hs as (Hwf & Hnd & Hin & Hord). unfold expiry_schedule.
  replace (_ || _) with false by (clear -Hp; destruct r, v, a, t; done). cbn match.
  unfold mbind, ST_bind, reads.
  destruct (unlink_first _ (s_expiry st)) as [[[before n] after]|] eqn:Eu.
  - apply unlink_first_Some in Eu as (El & Hn & Hb). rewrite (record_ttl_eq st r c v a t ttl) by done.
    rewrite El in Hwf. rewrite Forall_app, Forall_cons in Hwf. destruct Hwf as (Hwb & Hwn & _).
    apply node_matches_iff in Hn; [|done|done]. unfold writes. unfold l'.
    rewrite El, others_split by (done || by rewrite El in Hnd). rewrite reinsert_insert; [by rewrite Hn|].
    intros Hq. rewrite <- El. destruct Hord as [Ho|(n' & l0 & E0 & Hp' & Hq' & _)]; [done|].
    exfalso. rewrite E0 in El, Hnd. destruct before as [|x before]; simplify_eq/=; [congruence|].
    apply NoDup_cons in Hnd as [Hnd _]. apply Hnd. rewrite map_app. cbn [map]. rewrite Hn, Hp'. elems.
  - exfalso. apply unlink_first_None in Eu. apply list_elem_of_fmap in Hin as (n & Hpn & Hin).
    rewrite list.Forall_forall in Eu, Hwf. specialize (Eu n Hin). specialize (Hwf n Hin).
    apply not_true_iff_false in Eu. apply Eu. by apply node_matches_iff.
Qed.

(** C20. Scheduling a record is insertion into the ordered list: the node of the
    record leaves its old place and goes in front of the first node that does
    not expire earlier.  Looking for that place behind the old one, when the
    lifetime is extended, gives the same list as looking from the head; the
    list stays ordered, and nothing else changes. *)
Theorem expiry_schedule_inserts st r c v a t ttl :
  let p := (r, c, v, fst <$> a, fst <$> t) in
  pointers_wf p -> schedulable p (s_expiry st) -> ttl_of st r v a t = Some ttl ->
  let l' := expiry_insert (reschedule (expiry_time (c_now st) ttl) p) (others p (s_expiry st)) in
  expiry_schedule r c v a t st = Ret (tt, set_expiry st l') /\ expiry_sorted l'.
Proof. exact (expiry_schedule_spec st r c v a t ttl). Qed.
