(* ===== verification/CacheRefine.v ===== *)
(** The cache as a set of records with expiry times: the abstract state, the
    relation between it and the state of mdns_cache.c, and what the elementary
    steps do to it. *)
From S2P Require Import Prelude Names Server Heap Txt State Cache CacheTree CacheExpiry.
From Stdlib Require Import Sorting.

(** * The abstract cache *)

(** Records, each with the time at which it expires; the order has no meaning. *)
Abbreviation abstract_cache := (list (cache_record * Z)).

Definition name_is (n : record_name) (x : cache_record * Z) : Prop := fst (fst x) = n.

#[export] Instance name_is_dec n x : Decision (name_is n x).
Proof. unfold name_is. apply _. Defined.

(** A record replaces the one of the same name. *)
Definition cache_put (r : cache_record) (t : Z) (A : abstract_cache) : abstract_cache :=
  (r, t) :: filter (fun x => ~ name_is (fst r) x) A.

(** What has expired is gone. *)
Definition cache_purge (now : Z) (A : abstract_cache) : abstract_cache := filter (fun x => (now < snd x)%Z) A.

Definition cache_get (n : record_name) (A : abstract_cache) : option record_data :=
  (fun x => snd (fst x)) <$> List.find (fun x => bool_decide (name_is n x)) A.

(** Whether anything is known of a service. *)
Definition known (k : service_key) (A : abstract_cache) : bool :=
  existsb (fun x => bool_decide (service_of_name (fst (fst x)) = Some k)) A.

(** A record of a service is received with a TTL that is not 0, or with 0. *)
Definition abstract_refresh (k : service_key) (n : record_name) (d : record_data) (t : Z) (A : abstract_cache)
    : mdns_cache_update_result_t * abstract_cache :=
  (if known k A then if decide (cache_get n A = Some d) then MDNS_CACHE_NO_CHANGE else MDNS_CACHE_UPDATED
   else MDNS_CACHE_ADDED,
   cache_put (n, d) t A).

Definition without_ttl (d : record_data) : record_data :=
  match d with
  | DataTtl _ => DataTtl 0
  | DataSrv host priority weight port _ => DataSrv host priority weight port 0
  | DataTxt txt _ => DataTxt txt 0
  end.

Definition abstract_goodbye (n : record_name) (A : abstract_cache)
    : mdns_cache_update_result_t * abstract_cache :=
  match cache_get n A with
  | None => (MDNS_CACHE_NO_CHANGE, A)
  | Some d => (MDNS_CACHE_UPDATED, cache_put (n, without_ttl d) 0 A)
  end.

Definition abstract_record (k : service_key) (n : record_name) (d : record_data) (now ttl : Z)
    (A : abstract_cache) : mdns_cache_update_result_t * abstract_cache :=
  if (ttl =? 0)%Z then abstract_goodbye n A else abstract_refresh k n d (calc_expiration_time_us now ttl) A.

Definition abstract_update_ptr (now : Z) (esp_netif : netif) (ip_protocol : mdns_ip_protocol_t)
    (instance service proto subtype : option cstr) (ttl : Z) (A : abstract_cache)
    : mdns_cache_update_result_t * abstract_cache :=
  if mdns_utils_str_null_or_empty instance || mdns_utils_str_null_or_empty service
     || mdns_utils_str_null_or_empty proto
  then (MDNS_CACHE_NO_CHANGE, A)
  else
    let k := key_of_names esp_netif ip_protocol instance service proto in
    let n := if mdns_utils_str_null_or_empty subtype then NamePtr k else NameSubtype k (canon subtype) in
    abstract_record k n (DataTtl ttl) now ttl A.

(** * The relation *)

(** The same with the pointers of the nodes. *)
Definition pointed : Type := pointers * cache_record * Z.
Definition ptr_of (x : pointed) : pointers := fst (fst x).
Definition rec_of (x : pointed) : cache_record := snd (fst x).
Definition name_of (x : pointed) : record_name := fst (rec_of x).
Definition node_of (x : pointed) : pointers * Z := (ptr_of x, snd x).

Definition abstracted (X : list pointed) : abstract_cache := map (fun x => (rec_of x, snd x)) X.

(** Nothing is empty but, while an operation is under way, the entry and the
    service it is working on. *)
Definition entry_full (xe : option cid) (xs : option vid) (x : cid * mdns_cache_entry_t) : Prop :=
  (Some (fst x) <> xe -> ce_addr_list (snd x) <> [] \/ ce_service_cache_list (snd x) <> [])
  /\ Forall (fun y => Some (fst y) <> xs -> service_cache_is_empty (snd y) = false) (ce_service_cache_list (snd x)).

Definition tree_full (xe : option cid) (xs : option vid) (l : list (cid * mdns_cache_entry_t)) : Prop :=
  Forall (entry_full xe xs) l.

Definition node_time (n : mdns_cache_expiry_t) : pointers * Z := (pointers_of n, ex_expires_at_us n).

Record represents (xe : option cid) (xs : option vid) (b : Z) (X : list pointed) (st : client) : Prop := {
  r_tree : tree_ok (s_cache st);
  r_full : tree_full xe xs (s_cache st);
  r_records : map fst X ≡ₚ cache_records (s_cache st);
  r_nodes : map node_of X ≡ₚ map node_time (s_expiry st);
  r_pointers : base.NoDup (map ptr_of X);
  r_names : base.NoDup (map name_of X);
  r_sorted : expiry_sorted (s_expiry st);
  r_queued : Forall (fun n => ex_queued n = true) (s_expiry st);
  r_heap : live (c_heap st) = (b + cache_blocks (s_cache st) + Z.of_nat (length (s_expiry st)))%Z;
}.

#[export] Instance represents_perm xe xs b : Proper ((≡ₚ) ==> (=) ==> iff) (represents xe xs b).
Proof.
  assert (Hone : forall X Y st, X ≡ₚ Y -> represents xe xs b X st -> represents xe xs b Y st).
  { intros X Y st HXY []. split; try done.
    - rewrite <- HXY. done.
    - by rewrite <- HXY.
    - by rewrite <- HXY.
    - by rewrite <- HXY. }
  intros X Y HXY st ? <-. split; by apply Hone.
Qed.

Lemma node_pointers l : map fst (map node_time l) = map pointers_of l.
Proof. rewrite map_map. done. Qed.

Lemma map_fst_ptr (X : list pointed) : map fst (map fst X) = map ptr_of X.
Proof. rewrite map_map. done. Qed.

Lemma map_fst_name (X : list pointed) : map (fun x => fst (snd x)) (map fst X) = map name_of X.
Proof. rewrite map_map. done. Qed.

Section Facts.
Context (xe : option cid) (xs : option vid) (b : Z) (X : list pointed) (st : client).
Hypothesis HX : represents xe xs b X st.

Lemma expiry_pointers : map pointers_of (s_expiry st) ≡ₚ map ptr_of X.
Proof using HX.
  pose proof (Permutation_map fst (r_nodes _ _ _ _ _ HX)) as Hp. rewrite node_pointers in Hp.
  rewrite map_map in Hp. by rewrite <- Hp.
Qed.

Lemma expiry_NoDup : base.NoDup (map pointers_of (s_expiry st)).
Proof using HX. rewrite expiry_pointers. apply (r_pointers _ _ _ _ _ HX). Qed.

Lemma pointed_record p r : (p, r) ∈ cache_records (s_cache st) <-> exists t, (p, r, t) ∈ X.
Proof using HX.
  rewrite <- (r_records _ _ _ _ _ HX), list_elem_of_fmap. split.
  - intros ([[p' r'] t] & [= -> ->] & H). eauto.
  - intros [t H]. by exists (p, r, t).
Qed.

(** Names and pointers say the same. *)
Lemma record_unique p r p' r' : (p, r) ∈ cache_records (s_cache st) -> (p', r') ∈ cache_records (s_cache st) ->
  (p = p' <-> fst r = fst r') /\ (p = p' -> r = r').
Proof using HX.
  rewrite !pointed_record. intros [t H] [t' H'].
  assert (Hp : p = p' -> (p, r, t) = (p', r', t')).
  { intros E. by eapply (NoDup_map_inj ptr_of); [apply (r_pointers _ _ _ _ _ HX)|..]. }
  assert (Hn : fst r = fst r' -> (p, r, t) = (p', r', t')).
  { intros E. by eapply (NoDup_map_inj name_of); [apply (r_names _ _ _ _ _ HX)|..]. }
  split_and!; [split|]; intros E; [by injection (Hp E) as _ -> _|by injection (Hn E)|by injection (Hp E)].
Qed.

Lemma pointers_are_wf : Forall (fun n => pointers_wf (pointers_of n)) (s_expiry st).
Proof using HX.
  apply list.Forall_forall. intros n Hn.
  assert (Hp : pointers_of n ∈ map ptr_of X) by (rewrite <- expiry_pointers; by apply list_elem_of_fmap_2).
  apply list_elem_of_fmap in Hp as ([[p r] t] & E & Hp). cbn in E. rewrite E.
  assert (Hr : (p, r) ∈ cache_records (s_cache st)) by (apply pointed_record; eauto).
  apply cache_record_inv in Hr as [(c & e & a & x & _ & _ & [= -> _])|(c & e & v & s & _ & Hr)]; [done|].
  apply service_record_inv in Hr as [_ [(-> & _)|[(-> & _)|[(-> & _)|(t' & it & -> & _)]]]]; done.
Qed.

(** A record that is there can be scheduled. *)
Lemma record_schedulable p r : (p, r) ∈ cache_records (s_cache st) -> schedulable p (s_expiry st).
Proof using HX.
  intros [t Ht]%pointed_record. split_and!; [apply pointers_are_wf|apply expiry_NoDup| |left; apply (r_sorted _ _ _ _ _ HX)].
  rewrite expiry_pointers. by apply (list_elem_of_fmap_2 ptr_of _ (p, r, t)).
Qed.

(** So can a new one whose node was put in front. *)
Lemma new_schedulable n p : pointers_wf p -> pointers_of n = p -> ex_queued n = false ->
  p ∉ map fst (cache_records (s_cache st)) -> schedulable p (n :: s_expiry st).
Proof using HX.
  intros Hp Hn Hq Hnew. rewrite <- (r_records _ _ _ _ _ HX), map_fst_ptr, <- expiry_pointers in Hnew.
  split_and!.
  - constructor; [by rewrite Hn|apply pointers_are_wf].
  - cbn. rewrite Hn. apply NoDup_cons. split; [done|apply expiry_NoDup].
  - cbn. rewrite Hn. left.
  - right. exists n, (s_expiry st). split_and!; try done. apply (r_sorted _ _ _ _ _ HX).
Qed.

(** Another way of writing the same state. *)
Lemma represents_same xe' xs' st' : tree_ok (s_cache st') -> tree_full xe' xs' (s_cache st') ->
  cache_records (s_cache st') ≡ₚ cache_records (s_cache st) -> s_expiry st' = s_expiry st ->
  (live (c_heap st') - cache_blocks (s_cache st') = live (c_heap st) - cache_blocks (s_cache st))%Z ->
  represents xe' xs' b X st'.
Proof using HX.
  intros Ht Hf Hr He Hh. destruct HX as [_ _ Hrec Hnod Hp Hn Hs Hq Hheap]. split; try done.
  - by rewrite Hr.
  - by rewrite He.
  - by rewrite He.
  - by rewrite He.
  - rewrite He. lia.
Qed.

Definition not_at (p : pointers) (X : list pointed) : list pointed := filter (fun x => ptr_of x <> p) X.

Lemma filter_map_comm {A B} (h : A -> B) (P : B -> Prop) `{!forall x, Decision (P x)} (l : list A) :
  map h (filter (fun x => P (h x)) l) = filter P (map h l).
Proof.
  induction l as [|x l IH]; [done|]. cbn [map]. rewrite !filter_cons. by case_decide; cbn [map]; rewrite IH.
Qed.

Lemma not_at_nodes p : map node_of (not_at p X) ≡ₚ map node_time (others p (s_expiry st)).
Proof using HX.
  transitivity (filter (fun y : pointers * Z => fst y <> p) (map node_of X)).
  { by rewrite <- (filter_map_comm node_of (fun y => fst y <> p)). }
  rewrite (r_nodes _ _ _ _ _ HX). by rewrite <- (filter_map_comm node_time (fun y => fst y <> p)).
Qed.

Lemma not_at_records p old recs : cache_records (s_cache st) ≡ₚ old ++ recs ->
  Forall (fun y => fst y = p) old -> p ∉ map fst recs -> map fst (not_at p X) ≡ₚ recs.
Proof using HX.
  intros Hr Hold Hp. transitivity (filter (fun y : pointers * cache_record => fst y <> p) (map fst X)).
  { by rewrite <- (filter_map_comm fst (fun y => fst y <> p)). }
  rewrite (r_records _ _ _ _ _ HX), Hr, filter_app.
  replace (filter _ old) with (@nil (pointers * cache_record)).
  - cbn [app]. assert (E : filter (fun y : pointers * cache_record => fst y <> p) recs = recs); [|by rewrite E].
    clear -Hp. induction recs as [|y recs IH]; [done|]. cbn [map] in Hp. rewrite not_elem_of_cons in Hp.
    rewrite filter_cons_True by (destruct Hp; congruence). by rewrite IH by tauto.
  - clear -Hold. induction Hold as [|y old Hy _ IH]; [done|]. by rewrite filter_cons_False by auto.
Qed.

Lemma not_at_sub p {B} (h : pointed -> B) : base.NoDup (map h X) -> base.NoDup (map h (not_at p X)).
Proof. intros Hn. eapply sublist_NoDup; [exact Hn|]. apply map_sublist. unfold not_at. apply sublist_filter. Qed.

Lemma others_queued p : Forall (fun n => ex_queued n = true) (others p (s_expiry st)).
Proof using HX.
  pose proof (r_queued _ _ _ _ _ HX) as Hq. rewrite list.Forall_forall in *.
  intros n [_ Hn]%list_elem_of_filter. by apply Hq.
Qed.

(** The names that belong to other pointers. *)
Lemma abstracted_not_at p n :
  (forall x, x ∈ X -> ptr_of x = p <-> name_of x = n) ->
  abstracted (not_at p X) = filter (fun x => ~ name_is n x) (abstracted X).
Proof.
  intros Hiff. clear HX. induction X as [|x X' IH]; [done|].
  assert (IH' := IH ltac:(intros y Hy; apply Hiff; by right)). clear IH.
  destruct (Hiff x) as [H1 H2]; [left|]. unfold abstracted, not_at in *. cbn [map].
  destruct (decide (ptr_of x = p)) as [Hd|Hd].
  - rewrite filter_cons_False by auto. rewrite filter_cons_False by (intros Hn; apply Hn, H1, Hd). exact IH'.
  - rewrite filter_cons_True by auto. rewrite filter_cons_True by (intros Hn; apply Hd, H2, Hn).
    cbn [map]. f_equal. exact IH'.
Qed.

End Facts.

(** * Looking up *)

Lemma cache_get_iff n d A : base.NoDup (map (fun x => fst (fst x)) A) ->
  cache_get n A = Some d <-> exists t, (n, d, t) ∈ A.
Proof.
  intros Hnd. unfold cache_get. destruct (List.find (fun x => bool_decide (name_is n x)) A) as [[[n' d'] t']|] eqn:Ef.
  - apply List.find_some in Ef as [Hin Hn]. apply bool_decide_eq_true in Hn. cbv in Hn. subst n'.
    rewrite <- list_elem_of_In in Hin. split; [intros [= <-]; eauto|]. intros [t Ht].
    assert ((n, d, t) = (n, d', t')) as [= -> _]; [|done].
    by eapply (NoDup_map_inj (fun x => fst (fst x))).
  - split; [done|]. intros [t Ht]. pose proof (List.find_none _ _ Ef (n, d, t)) as Hm.
    rewrite <- list_elem_of_In in Hm. specialize (Hm Ht). by apply bool_decide_eq_false in Hm.
Qed.

Lemma known_iff k A : known k A = true <-> exists x, x ∈ A /\ service_of_name (fst (fst x)) = Some k.
Proof.
  unfold known. rewrite existsb_exists. setoid_rewrite <- list_elem_of_In. setoid_rewrite bool_decide_eq_true. done.
Qed.

Section Lookup.
Context (xe : option cid) (xs : option vid) (b : Z) (X : list pointed) (st : client).
Hypothesis HX : represents xe xs b X st.

Lemma abstracted_names : base.NoDup (map (fun x => fst (fst x)) (abstracted X)).
Proof using HX. unfold abstracted. rewrite map_map. apply (r_names _ _ _ _ _ HX). Qed.

Lemma abstracted_elem r : (exists t, (r, t) ∈ abstracted X) <-> exists p, (p, r) ∈ cache_records (s_cache st).
Proof using HX.
  setoid_rewrite (pointed_record _ _ _ _ _ HX). unfold abstracted. split.
  - intros (t & ([[p r'] t'] & [= -> ->] & Hin)%list_elem_of_fmap). eauto.
  - intros (p & t & Hin). exists t. by apply (list_elem_of_fmap_2 (fun x => (rec_of x, snd x)) _ (p, r, t)).
Qed.

Lemma get_record n d : cache_get n (abstracted X) = Some d <-> exists p, (p, (n, d)) ∈ cache_records (s_cache st).
Proof using HX. rewrite cache_get_iff by apply abstracted_names. apply abstracted_elem. Qed.

Lemma known_record k :
  known k (abstracted X) = true
  <-> exists p r, (p, r) ∈ cache_records (s_cache st) /\ service_of_name (fst r) = Some k.
Proof using HX.
  rewrite known_iff. split.
  - intros ([r t] & Hin & Hk). assert (He : exists t, (r, t) ∈ abstracted X) by eauto.
    apply abstracted_elem in He as [p Hp]. eauto.
  - intros (p & r & Hin & Hk). assert (He : exists t, (r, t) ∈ abstracted X) by (apply abstracted_elem; eauto).
    destruct He as [t Ht]. by exists (r, t).
Qed.

End Lookup.

(** * Writing and removing a record *)

(** Its name was nowhere else. *)
Lemma abstracted_put xe xs b X st p (r : cache_record) t old recs : represents xe xs b X st ->
  cache_records (s_cache st) ≡ₚ old ++ recs -> Forall (fun y => fst y = p /\ fst (snd y) = fst r) old ->
  p ∉ map fst recs -> fst r ∉ map (fun y => fst (snd y)) recs ->
  abstracted ((p, r, t) :: not_at p X) = cache_put r t (abstracted X).
Proof.
  intros HX Hr Hold Hp Hn.
  unfold cache_put. cbn [abstracted map rec_of fst snd]. f_equal. apply abstracted_not_at.
  intros x Hx. assert (Hin : fst x ∈ old ++ recs).
  { rewrite <- Hr, <- (r_records _ _ _ _ _ HX). by apply list_elem_of_fmap_2. }
  apply elem_of_app in Hin as [Hin|Hin].
  + rewrite list.Forall_forall in Hold. destruct (Hold _ Hin). unfold ptr_of, name_of, rec_of. naive_solver.
  + split; intros E; exfalso; [apply Hp|apply Hn]; rewrite <- E.
    * exact (list_elem_of_fmap_2 fst _ _ Hin).
    * exact (list_elem_of_fmap_2 (fun y => fst (snd y)) _ _ Hin).
Qed.

(** The record at [p], if there is one, is replaced by [r] and expires at [t]. *)
Lemma represents_put xe xs b X st xe' xs' b' st' p r t old recs :
  represents xe xs b X st -> tree_ok (s_cache st') -> tree_full xe' xs' (s_cache st') ->
  cache_records (s_cache st) ≡ₚ old ++ recs -> Forall (fun y => fst y = p /\ fst (snd y) = fst r) old ->
  cache_records (s_cache st') ≡ₚ (p, r) :: recs ->
  p ∉ map fst recs -> fst r ∉ map (fun y => fst (snd y)) recs ->
  s_expiry st' = expiry_insert (reschedule t p) (others p (s_expiry st)) ->
  live (c_heap st') = (b' + cache_blocks (s_cache st') + Z.of_nat (length (s_expiry st')))%Z ->
  represents xe' xs' b' ((p, r, t) :: not_at p X) st'
  /\ abstracted ((p, r, t) :: not_at p X) = cache_put r t (abstracted X).
Proof.
  intros HX Ht Hf Hr Hold Hr' Hp Hn He Hh.
  assert (Hrecs : map fst (not_at p X) ≡ₚ recs).
  { eapply not_at_records; [done|done| |done]. eapply Forall_impl; [exact Hold|]. by intros y [? _]. }
  split.
  - split; try done.
    + cbn [map fst]. by rewrite Hr', Hrecs.
    + rewrite He, expiry_insert_perm. cbn [map]. rewrite (not_at_nodes _ _ _ _ _ HX). f_equiv.
      unfold node_of, node_time. cbn. by rewrite reschedule_pointers, reschedule_expires.
    + cbn [map]. apply NoDup_cons. split; [|apply not_at_sub, (r_pointers _ _ _ _ _ HX)].
      change (ptr_of (p, r, t)) with p. by rewrite <- map_fst_ptr, Hrecs.
    + cbn [map]. apply NoDup_cons. split; [|apply not_at_sub, (r_names _ _ _ _ _ HX)].
      change (name_of (p, r, t)) with (fst r). by rewrite <- map_fst_name, Hrecs.
    + rewrite He. apply expiry_insert_sorted. pose proof (r_sorted _ _ _ _ _ HX) as Hs.
      unfold others, expiry_sorted in *. clear -Hs. induction Hs as [|x l _ IH Hx]; [constructor|].
      rewrite filter_cons. case_decide; [|done]. constructor; [done|].
      rewrite list.Forall_forall in *. intros y [_ Hy]%list_elem_of_filter. by apply Hx.
    + rewrite He, expiry_insert_perm. constructor; [by destruct p as [[[[]]]]|].
      by eapply others_queued.
  - by eapply abstracted_put.
Qed.

(** The node at the head and its record go. *)
Lemma represents_drop xe xs b X st xe' xs' b' st' n rest r recs :
  represents xe xs b X st -> tree_ok (s_cache st') -> tree_full xe' xs' (s_cache st') ->
  s_expiry st = n :: rest -> s_expiry st' = rest ->
  cache_records (s_cache st) ≡ₚ (pointers_of n, r) :: recs -> cache_records (s_cache st') ≡ₚ recs ->
  live (c_heap st') = (b' + cache_blocks (s_cache st') + Z.of_nat (length rest))%Z ->
  exists X', X ≡ₚ (pointers_of n, r, ex_expires_at_us n) :: X' /\ represents xe' xs' b' X' st'.
Proof.
  intros HX Ht Hf He He' Hr Hr' Hh.
  assert (Hin : (pointers_of n, r) ∈ cache_records (s_cache st)) by (rewrite Hr; left).
  apply (pointed_record _ _ _ _ _ HX) in Hin as [t Hin].
  assert (Ht' : t = ex_expires_at_us n).
  { assert (Hnode : (pointers_of n, t) ∈ map node_time (s_expiry st)).
    { rewrite <- (r_nodes _ _ _ _ _ HX). by apply (list_elem_of_fmap_2 node_of _ (pointers_of n, r, t)). }
    apply list_elem_of_fmap in Hnode as (n' & E & Hn').
    assert (En : pointers_of n = pointers_of n') by exact (f_equal fst E).
    rewrite (f_equal snd E : t = ex_expires_at_us n'). f_equal. symmetry. eapply (NoDup_map_inj pointers_of); [by eapply expiry_NoDup| |exact Hn'|done].
    rewrite He. left. }
  subst t. apply list_elem_of_split in Hin as (X1 & X2 & ->). exists (X1 ++ X2).
  split; [by rewrite <- Permutation_middle|]. rewrite <- Permutation_middle in HX.
  destruct HX as [_ _ Hrec Hnod Hp Hn Hs Hq Hheap]. cbn [map] in *. rewrite He in *. cbn [map] in *. split; try done.
  - rewrite Hr', Hr in *. by apply Permutation_cons_inv in Hrec.
  - rewrite He'. by apply Permutation_cons_inv in Hnod.
  - by apply NoDup_cons in Hp as [_ ?].
  - by apply NoDup_cons in Hn as [_ ?].
  - rewrite He'. by apply StronglySorted_inv in Hs as [? _].
  - rewrite He'. by apply Forall_cons in Hq as [_ ?].
  - by rewrite He'.
Qed.
