(* ===== verification/CacheOps.v ===== *)
(** The helpers of mdns_cache.c against the abstract cache: adding, moving and
    removing entries and services changes no record. *)
From S2P Require Import Prelude Names Server Heap Txt State Cache CacheTree CacheExpiry CacheRefine.
From Stdlib Require Import Sorting.

(** Everything but the cache, its expiry list, its marks and the heap; memory that
    never runs out stays so. *)
Record quiet (st st' : client) : Prop := {
  q_now : c_now st' = c_now st;
  q_browse : s_browse st' = s_browse st;
  q_actions : c_actions st' = c_actions st;
  q_accepts : c_accepts st' = c_accepts st;
  q_results : c_results st' = c_results st;
  q_queries : c_queries st' = c_queries st;
  q_never : never_fails (c_heap st) -> never_fails (c_heap st');
}.

#[export] Instance quiet_refl : Reflexive quiet.
Proof. by intros st. Qed.

#[export] Instance quiet_trans : Transitive quiet.
Proof. intros x y z [] []. split; try congruence. auto. Qed.

(** Projections of updated states. *)
Ltac cfields := cbn [heap_of with_heap client_heap set_c_heap set_c_now set_cache set_expiry set_sync_pending
  set_browse set_actions set_c_accepts set_results set_queries c_heap c_now s_cache s_expiry s_sync_pending
  s_browse c_actions c_accepts c_results c_queries fst snd] in *.

Ltac by_quiet := split; cfields; try congruence; try tauto.

Lemma quiet_set_cache st st' l : quiet st st' -> quiet st (set_cache st' l).
Proof. by intros []. Qed.

(** * Steps *)

Lemma w_get_entry {A} c e (k : mdns_cache_entry_t -> C A) st Q :
  assoc c (s_cache st) = Some e -> yields (k e st) Q -> yields ((get_entry c ≫= k) st) Q.
Proof. intros Hc Hk. eapply st_asks; [|exact Hk]. by rewrite Hc. Qed.

Lemma w_get_service {A} v s (k : mdns_service_cache_t -> C A) st Q :
  find_service v (s_cache st) = Some s -> yields (k s st) Q -> yields ((get_service_cache v ≫= k) st) Q.
Proof. intros Hc Hk. eapply st_asks; [|exact Hk]. by rewrite Hc. Qed.

Lemma put_entry_eq c e f st : assoc c (s_cache st) = Some e ->
  put_entry c f st = Ret (tt, set_cache st (alter_at c f (s_cache st))).
Proof. intros Hc. unfold put_entry, get_entry, mbind, ST_bind, asks. by rewrite Hc. Qed.

Lemma put_service_eq v s f st : find_service v (s_cache st) = Some s ->
  put_service v f st = Ret (tt, set_cache st (alter_service v f (s_cache st))).
Proof. intros Hc. unfold put_service, get_service_cache, mbind, ST_bind, asks. by rewrite Hc. Qed.

Lemma w_put_entry {A} c e f (k : unit -> C A) st Q : assoc c (s_cache st) = Some e ->
  yields (k tt (set_cache st (alter_at c f (s_cache st)))) Q -> yields ((put_entry c f ≫= k) st) Q.
Proof. intros Hc Hk. unfold mbind, ST_bind. by erewrite put_entry_eq. Qed.

Lemma w_put_service {A} v s f (k : unit -> C A) st Q : find_service v (s_cache st) = Some s ->
  yields (k tt (set_cache st (alter_service v f (s_cache st)))) Q -> yields ((put_service v f ≫= k) st) Q.
Proof. intros Hc Hk. unfold mbind, ST_bind. by erewrite put_service_eq. Qed.

Lemma find_alter_service v f l : find_service v (alter_service v f l) = f <$> find_service v l.
Proof.
  unfold alter_service. induction l as [|[c e] l IH]; cbn [map find_service fst snd]; [done|].
  cbn [set_service_cache_list ce_service_cache_list]. rewrite assoc_alter_at, decide_True by done.
  by destruct (assoc v (ce_service_cache_list e)).
Qed.

Lemma assoc_alter_service c v f l :
  assoc c (alter_service v f l)
  = (fun e => set_service_cache_list e (alter_at v f (ce_service_cache_list e))) <$> assoc c l.
Proof.
  unfold alter_service. induction l as [|[c' e] l IH]; cbn [map assoc fst snd]; [done|].
  by destruct (Pos.eqb_spec c c').
Qed.

Lemma owns_alter l c e v s f : owns l c e v s ->
  owns (alter_service v f l) c (set_service_cache_list e (alter_at v f (ce_service_cache_list e))) v (f s).
Proof.
  intros [Hc Hv]. split; [by rewrite assoc_alter_service, Hc|].
  cbn [set_service_cache_list ce_service_cache_list]. by rewrite assoc_alter_at, decide_True, Hv.
Qed.

(** * Nothing stays empty *)

Lemma tree_full_weaken xe xs l : tree_full None None l -> tree_full xe xs l.
Proof.
  unfold tree_full. intros Hf. eapply Forall_impl; [exact Hf|]. intros x [H1 H2]. split.
  - intros _. by apply H1.
  - eapply Forall_impl; [exact H2|]. intros y Hy _. by apply Hy.
Qed.

Lemma alter_at_nil {A} v (f : A -> A) l : alter_at v f l = [] <-> l = [].
Proof. by destruct l. Qed.

Lemma full_alter_same xe xs v f l :
  (forall s, service_cache_is_empty (f s) = service_cache_is_empty s) -> tree_full xe xs l ->
  tree_full xe xs (alter_service v f l).
Proof.
  intros Hf Hl. unfold tree_full, alter_service in *. apply Forall_map. eapply Forall_impl; [exact Hl|].
  intros [c e] [H1 H2]. split; cbn [fst snd set_service_cache_list ce_addr_list ce_service_cache_list] in *.
  - by rewrite alter_at_nil.
  - unfold alter_at. apply Forall_map. eapply Forall_impl; [exact H2|]. intros [v' s'] Hy. cbn.
    destruct (decide (v' = v)); cbn; [by rewrite Hf|done].
Qed.

(** The service under way got a record. *)
Lemma full_alter xe xs c e v s f l : tree_ok l -> owns l c e v s -> tree_full xe xs l ->
  (xe = None \/ xe = Some c) -> (xs = None \/ xs = Some v) -> service_cache_is_empty (f s) = false ->
  tree_full None None (alter_service v f l).
Proof.
  intros Hl Ho Hf Hxe Hxs Hs. unfold tree_full, alter_service in *. apply Forall_map.
  rewrite list.Forall_forall in *. intros [c' e'] Hin. specialize (Hf _ Hin) as [H1 H2].
  split; cbn [fst snd set_service_cache_list ce_addr_list ce_service_cache_list] in *.
  - rewrite alter_at_nil. intros _. destruct (decide (Some c' = xe)) as [Heq|Hne]; [|by apply H1].
    destruct Hxe as [->| ->]; [done|]. injection Heq as ->. right. intros Hnil.
    pose proof Ho as [Hc Hv]. apply (assoc_elem_of c l e' (t_entries _ Hl)) in Hin.
    rewrite Hin in Hc. injection Hc as ->. by rewrite Hnil in Hv.
  - unfold alter_at. apply Forall_map. rewrite list.Forall_forall in *. intros [v' s'] Hv'. cbn.
    destruct (decide (v' = v)) as [->|Hne]; cbn; intros _.
    + apply (owns_in l c e v s Hl) in Ho. destruct (in_tree_id l c e v s c' e' s' Hl Ho) as (_ & _ & <-); [|done].
      by split.
    + apply (H2 _ Hv'). cbn. destruct Hxs as [->| ->]; congruence.
Qed.

Lemma alter_service_id v l : alter_service v (fun s => s) l = l.
Proof.
  unfold alter_service. induction l as [|[c e] l IH]; [done|]. cbn [map fst snd]. f_equal; [|exact IH].
  unfold alter_at. rewrite map_ext with (g := id), map_id; [by destruct e|]. intros x. case_decide; by destruct x.
Qed.

(** It has one already. *)
Lemma full_nonempty xe xs c e v s l : tree_ok l -> owns l c e v s -> tree_full xe xs l ->
  (xe = None \/ xe = Some c) -> (xs = None \/ xs = Some v) -> service_cache_is_empty s = false ->
  tree_full None None l.
Proof.
  intros Hl Ho Hf Hxe Hxs Hs. rewrite <- (alter_service_id v l). by eapply (full_alter xe xs c e v s).
Qed.

Lemma represents_weaken xe xs b X st : represents None None b X st -> represents xe xs b X st.
Proof. intros []. split; try done. by apply tree_full_weaken. Qed.

Lemma set_heap_same (st : client) h : live h = live (c_heap st) ->
  forall xe xs b X, represents xe xs b X st -> represents xe xs b X (set_c_heap st h).
Proof. intros Hh xe xs b X []. split; try done. cfields. lia. Qed.

(** * The helpers *)

Lemma dup_string_spec s : hfull (dup_string s) (fun r n =>
  match r with
  | None => n = 0%Z
  | Some x => x = (if mdns_utils_str_null_or_empty s then None else s) /\ n = opt_block x
  end) is_Some.
Proof.
  intros h. unfold dup_string. destruct (mdns_utils_str_null_or_empty s) eqn:E.
  - cbn. rewrite Z.sub_diag. split; [done|]. intros Hh. split; [exact Hh|by eexists].
  - unfold mbind, ST_bind, mret, ST_ret. pose proof (hfull_malloc h) as Hm. destruct (malloc h) as [[ok h']| | |]; try done.
    destruct ok; cbn in *; destruct Hm as [Hn Hr].
    + split; [split; [done|]|]; [by destruct s as [[|]|]|]. intros Hh. split; [by apply Hr|by eexists].
    + split; [done|]. intros Hh. by destruct (Hr Hh).
Qed.

(** A new node, in front and not in order yet. *)
Definition with_new_node (st : client) (h : heap) (p : pointers) : client :=
  let '(r, c, v, a, t) := p in
  set_expiry (set_c_heap st h) (mk_expiry false r c v a t INT64_MAX :: s_expiry st).

Lemma w_expiry_new {A} r c v a t (k : bool -> C A) st Q :
  (forall h, live h = live (c_heap st) -> ~ never_fails (c_heap st) -> yields (k false (set_c_heap st h)) Q) ->
  (forall h, live h = (live (c_heap st) + 1)%Z -> (never_fails (c_heap st) -> never_fails h) ->
     yields (k true (with_new_node st h (r, c, v, a, t))) Q) ->
  yields ((expiry_new r c v a t ≫= k) st) Q.
Proof.
  intros Hno Hyes. unfold expiry_new. apply st_assoc. eapply st_alloc; [apply hfull_malloc|].
  intros ok h Hh Hn. cbn beta in Hh. destruct ok; cbn [negb]; cfields.
  - apply st_assoc, st_writes, st_ret. apply Hyes; [cfields; lia|tauto].
  - apply st_ret. apply Hno; [lia|]. intros Hf. by destruct (Hn Hf).
Qed.

Section Ops.
Context (addr : list positive -> positive).
(** The allocator does not hand out an address in use. *)
Hypothesis addr_new : forall l, addr l ∉ l.

Lemma find_entry_None l h n p : cache_find_entry l h n p = None ->
  (canon h, n, p) ∉ map (fun x => key_of_entry (snd x)) l.
Proof.
  unfold cache_find_entry. intros Hf (x & Hk & Hx)%list_elem_of_fmap.
  pose proof (List.find_none _ _ Hf x) as Hm. rewrite <- list_elem_of_In in Hm. specialize (Hm Hx). cbn in Hm.
  apply not_true_iff_false in Hm. apply Hm. unfold entry_matches. injection Hk as Hh Hn Hp.
  rewrite !andb_true_iff, nullable_canon, !bool_decide_eq_true. by split_and!.
Qed.

Lemma find_entry_Some l h n p c e : tree_ok l -> cache_find_entry l h n p = Some (c, e) ->
  assoc c l = Some e /\ key_of_entry e = (canon h, n, p).
Proof.
  intros Hl Hf. unfold cache_find_entry in Hf. apply List.find_some in Hf as [Hin Hm].
  rewrite <- list_elem_of_In in Hin. split; [apply assoc_elem_of; [apply (t_entries _ Hl)|done]|].
  cbn in Hm. unfold entry_matches in Hm. rewrite !andb_true_iff, nullable_canon, !bool_decide_eq_true in Hm.
  destruct Hm as [[Hh Hn] Hp]. unfold key_of_entry. by rewrite Hh, Hn, Hp.
Qed.

(** The entry of a host, new if there was none. *)
Definition added_entry (l l' : list (cid * mdns_cache_entry_t)) (c : cid) : Prop :=
  l' = l \/ exists h n p, (c ∉ entry_ids l) /\ l' = (c, mk_entry h n p [] []) :: l.

Lemma get_or_add_entry_spec b X st hn n p : represents None None b X st ->
  yields (cache_get_or_add_entry addr hn n p st) (fun '(r, st') => quiet st st' /\ s_expiry st' = s_expiry st /\
    match r with
    | None => represents None None b X st' /\ ~ never_fails (c_heap st)
    | Some c => represents (Some c) None b X st' /\ added_entry (s_cache st) (s_cache st') c
        /\ exists e, assoc c (s_cache st') = Some e /\ key_of_entry e = (canon hn, n, p)
    end).
Proof using addr_new.
  intros HX. unfold cache_get_or_add_entry. apply st_reads.
  destruct (cache_find_entry (s_cache st) hn n p) as [[c e]|] eqn:Ef.
  - apply find_entry_Some in Ef as [Hc Hk]; [|apply (r_tree _ _ _ _ _ HX)].
    split_and!; [done|done|by apply represents_weaken|by left|eauto].
  - apply find_entry_None in Ef. unfold cache_add_entry. eapply st_alloc; [apply hfull_malloc|].
    intros [] h Hh Hn; cbn beta in Hh; cbn [negb]; cfields.
    2:{ split_and!; [by_quiet|done| |by intros [_ ?]%Hn]. apply set_heap_same; [lia|done]. }
    eapply st_alloc; [apply dup_string_spec|]. intros [hs|] h2 Hh2 Hn2; cbn beta match in Hh2; cfields.
    2:{ eapply st_alloc; [apply hfull_mfree|]. intros [] h3 Hh3 Hn3. cbn beta in Hh3. cfields.
        assert (Hf : ~ never_fails (c_heap st)) by (intros [Hf _]%Hn; by destruct (Hn2 Hf) as [_ [? ?]]).
        split_and!; [by_quiet|done| |done]. cbn. change (represents None None b X (set_c_heap st h3)).
        apply set_heap_same; [lia|done]. }
    destruct Hh2 as [-> Hh2]. apply st_reads, st_writes. set (c := addr _). set (hs := if mdns_utils_str_null_or_empty hn then None else hn) in *.
    assert (Hc : c ∉ entry_ids (s_cache st)) by apply addr_new.
    split_and!; [by_quiet|done| |right; eauto 6|].
    + cbn. eapply represents_same; [exact HX|..]; cfields; [| | |done|].
      * apply tree_push; [apply (r_tree _ _ _ _ _ HX)|done|]. unfold hs. by rewrite canon_dup.
      * apply Forall_cons. split; [by split|]. apply tree_full_weaken, (r_full _ _ _ _ _ HX).
      * done.
      * rewrite cache_blocks_cons. unfold entry_blocks. cbn. lia.
    + eexists. cbn. rewrite Pos.eqb_refl. split; [done|].
      unfold key_of_entry, hs. cbn. by rewrite canon_dup.
Qed.

(** Only the service list of an entry changes, and its new part has no record. *)
Lemma represents_entry xe xs xe' xs' b X st st' c e f :
  represents xe xs b X st -> assoc c (s_cache st) = Some e -> entry_step (s_cache st) e (f e) ->
  records_of_entry (c, f e) ≡ₚ records_of_entry (c, e) ->
  s_cache st' = alter_at c f (s_cache st) -> s_expiry st' = s_expiry st ->
  (live (c_heap st') = live (c_heap st) + entry_blocks (f e) - entry_blocks e)%Z ->
  tree_full xe' xs' (s_cache st') -> represents xe' xs' b X st'.
Proof.
  intros HX Hc Hst Hrec Hcache Hexp Hheap Hfull.
  destruct (entry_focus _ _ _ (r_tree _ _ _ _ _ HX) Hc) as (recs & blocks & Hr & Hb & Hf & _).
  destruct (Hf f) as (Hr' & Hb' & Ht). eapply represents_same; [exact HX| |done| |done|].
  - rewrite Hcache. by apply Ht.
  - rewrite Hcache, Hr', Hr. by rewrite Hrec.
  - rewrite Hcache, Hb', Hb. lia.
Qed.

Lemma alter_entry_full xe xs xe' xs' c e f l : tree_ok l -> assoc c l = Some e -> tree_full xe xs l ->
  (xe = None \/ xe = Some c) -> (forall v, xs = Some v -> xs' = Some v
     \/ forall x, x ∈ l -> fst x <> c -> v ∉ map fst (ce_service_cache_list (snd x))) ->
  (Some c <> xe' -> ce_addr_list (f e) <> [] \/ ce_service_cache_list (f e) <> []) ->
  Forall (fun y => Some (fst y) <> xs' -> service_cache_is_empty (snd y) = false) (ce_service_cache_list (f e)) ->
  tree_full xe' xs' (alter_at c f l).
Proof.
  intros Hl Hc Hf Hxe Hxs H1 H2. destruct (tree_entry_split _ _ _ Hl Hc) as (l1 & l2 & -> & Halt & _).
  rewrite Halt. unfold tree_full in *. rewrite Forall_app, Forall_cons in *. destruct Hf as (Hf1 & _ & Hf2).
  assert (Hother : forall l3, (forall x, x ∈ l3 -> x ∈ l1 ++ (c, e) :: l2 /\ fst x <> c) ->
    Forall (entry_full xe xs) l3 -> Forall (entry_full xe' xs') l3).
  { intros l3 Hin. rewrite !list.Forall_forall. intros Hl3 x Hx. destruct (Hl3 x Hx) as [G1 G2].
    destruct (Hin x Hx) as [Hx1 Hx2]. split.
    - intros _. apply G1. destruct Hxe as [->| ->]; congruence.
    - rewrite list.Forall_forall in *. intros y Hy Hny. apply (G2 y Hy). intros Heq.
      destruct (Hxs _ (eq_sym Heq)) as [->|Hno]; [done|]. apply (Hno x Hx1 Hx2). by apply list_elem_of_fmap_2. }
  pose proof (t_entries _ Hl) as Hnd. unfold entry_ids in Hnd. rewrite map_app in Hnd. cbn [map fst] in Hnd.
  rewrite NoDup_app, NoDup_cons in Hnd. destruct Hnd as (_ & Hd1 & Hd2 & _). split_and!.
  - apply Hother; [|done]. intros x Hx. split; [elems|]. intros Heq.
    apply (Hd1 _ (list_elem_of_fmap_2 fst _ _ Hx)). rewrite Heq. left.
  - by split.
  - apply Hother; [|done]. intros x Hx. split; [elems|]. intros Heq. apply Hd2. rewrite <- Heq.
    by apply list_elem_of_fmap_2.
Qed.

Lemma new_service_wf i s p : canon i <> [] -> canon s <> [] -> canon p <> [] -> service_wf (new_service i s p).
Proof. intros. split; cbn; try done. apply NoDup_nil_2. Qed.

Lemma canon_not_empty s : canon s <> [] -> (if mdns_utils_str_null_or_empty s then None else s) = s.
Proof. by destruct s as [[|]|]. Qed.

Lemma add_service_spec xe b X st c e i s p : represents xe None b X st -> (xe = None \/ xe = Some c) ->
  assoc c (s_cache st) = Some e -> canon i <> [] -> canon s <> [] -> canon p <> [] ->
  key_of_names (ce_esp_netif e) (ce_ip_protocol e) i s p ∉ flat_map keys_of_services (s_cache st) ->
  yields (cache_add_service addr c i s p st) (fun '(r, st') => quiet st st' /\ s_expiry st' = s_expiry st /\
    match r with
    | None => represents xe None b X st' /\ s_cache st' = s_cache st /\ ~ never_fails (c_heap st)
    | Some v => represents None (Some v) b X st' /\ (v ∉ service_ids (s_cache st))
        /\ s_cache st' = alter_at c (fun e => set_service_cache_list e
              ((v, new_service i s p) :: ce_service_cache_list e)) (s_cache st)
    end).
Proof using addr_new.
  intros HX Hxe Hc Hi Hs Hp Hk. unfold cache_add_service.
  eapply st_alloc; [apply hfull_malloc|]. intros [] h Hh Hn; cbn beta in Hh; cbn [negb]; cfields.
  2:{ split_and!; [by_quiet|done| |done|by intros [_ ?]%Hn]. apply set_heap_same; [lia|done]. }
  assert (Hfail : forall h k, live h = (live (c_heap st) + k)%Z -> ~ never_fails (c_heap st) ->
    forall x, k = service_blocks x ->
    yields ((_ ← alloc (service_entry_free x); mret (@None vid)) (set_c_heap st h)) (fun '(r, st') =>
      quiet st st' /\ s_expiry st' = s_expiry st /\
      match r with
      | None => represents xe None b X st' /\ s_cache st' = s_cache st /\ ~ never_fails (c_heap st)
      | Some v => represents None (Some v) b X st' /\ (v ∉ service_ids (s_cache st))
          /\ s_cache st' = alter_at c (fun e => set_service_cache_list e
                ((v, new_service i s p) :: ce_service_cache_list e)) (s_cache st)
      end)).
  { intros h0 k Hh0 Hf x Hx. eapply st_alloc; [apply hfull_mfree|]. intros [] h3 Hh3 Hn3. cbn beta in Hh3. cfields.
    split_and!; [by_quiet|done| |done|done]. change (represents xe None b X (set_c_heap st h3)).
    apply set_heap_same; [lia|done]. }
  eapply st_alloc; [apply dup_string_spec|]. intros [i'|] h1 Hh1 Hn1; cbn beta match in Hh1; cfields.
  2:{ apply (Hfail h1 1%Z); [lia| |done]. intros Hf. by destruct (Hn1 (proj1 (Hn Hf))) as [_ [? ?]]. }
  destruct Hh1 as [-> Hh1]. rewrite canon_not_empty in * by done.
  eapply st_alloc; [apply dup_string_spec|]. intros [s'|] h2 Hh2 Hn2; cbn beta match in Hh2; cfields.
  2:{ apply (Hfail h2 (1 + opt_block i)%Z); [lia|intros Hf; by destruct (Hn2 (proj1 (Hn1 (proj1 (Hn Hf))))) as [_ [? ?]]|]. unfold service_blocks, subtypes_blocks. cbn. lia. }
  destruct Hh2 as [-> Hh2]. rewrite (canon_not_empty s) in * by done.
  eapply st_alloc; [apply dup_string_spec|]. intros [p'|] h3 Hh3 Hn3; cbn beta match in Hh3; cfields.
  2:{ apply (Hfail h3 (1 + opt_block i + opt_block s)%Z);
        [lia|intros Hf; by destruct (Hn3 (proj1 (Hn2 (proj1 (Hn1 (proj1 (Hn Hf))))))) as [_ [? ?]]|]. unfold service_blocks, subtypes_blocks. cbn. lia. }
  destruct Hh3 as [-> Hh3]. rewrite (canon_not_empty p) in * by done.
  apply st_reads. cfields. set (v := addr _). assert (Hv : v ∉ service_ids (s_cache st)) by apply addr_new.
  eapply w_put_entry; [exact Hc|]. cfields. cbn [yields mret ST_ret].
  split_and!; [by_quiet|done| |done|done].
  pose proof (r_tree _ _ _ _ _ HX) as Hl.
  eapply (represents_entry _ _ _ _ _ _ _ _ c e); [exact HX|exact Hc| | |done|done| |].
  - apply (entry_step_push (s_cache st) c e Hl Hc); [done|done|by apply new_service_wf|apply NoDup_nil_2|].
    intros t Ht. by apply not_elem_of_nil in Ht.
  - cbn beta. by rewrite records_of_entry_services.
  - cfields. unfold entry_blocks. cbn [set_service_cache_list ce_hostname ce_addr_list ce_service_cache_list].
    cbn [services_blocks foldr snd]. fold (services_blocks (ce_service_cache_list e)).
    unfold service_blocks, subtypes_blocks. cbn. lia.
  - cfields. eapply (alter_entry_full xe None); [done|exact Hc|apply (r_full _ _ _ _ _ HX)|done|done|by right|].
    apply Forall_cons. split; [by intros ?|]. pose proof (r_full _ _ _ _ _ HX) as Hf.
    unfold tree_full in Hf. rewrite list.Forall_forall in Hf.
    destruct (Hf (c, e)) as [_ Hsv]; [by apply assoc_elem_of; [apply (t_entries _ Hl)|]|].
    eapply Forall_impl; [exact Hsv|]. intros y Hy _. by apply Hy.
Qed.

(** An entry is taken out if it holds nothing. *)
Definition entry_empty (e : mdns_cache_entry_t) : bool :=
  match ce_addr_list e, ce_service_cache_list e with [], [] => true | _, _ => false end.

Definition prune (c : cid) (e : mdns_cache_entry_t) (l : list (cid * mdns_cache_entry_t)) :=
  if entry_empty e then remove_at c l else l.

Definition pruned_blocks (e : mdns_cache_entry_t) : Z := if entry_empty e then entry_blocks e else 0.

Lemma w_prune {A} c e (k : bool -> C A) st Q : assoc c (s_cache st) = Some e ->
  (forall r h, live h = (live (c_heap st) - pruned_blocks e)%Z ->
     (never_fails (c_heap st) -> never_fails h) ->
     yields (k r (set_cache (set_c_heap st h) (prune c e (s_cache st)))) Q) ->
  yields ((cache_remove_entry_if_empty (Some c) ≫= k) st) Q.
Proof.
  intros Hc Hk. unfold cache_remove_entry_if_empty. apply st_assoc. eapply w_get_entry; [exact Hc|].
  unfold prune, pruned_blocks, entry_empty in Hk.
  assert (Hno : yields (k false st) Q -> yields (((mret false : C bool) ≫= k) st) Q) by done.
  destruct (ce_addr_list e), (ce_service_cache_list e); try (apply Hno;
    replace st with (set_cache (set_c_heap st (c_heap st)) (s_cache st)) by (by destruct st); apply Hk; [lia|done]).
  unfold cache_remove_entry. apply st_assoc, st_reads. rewrite Hc. apply st_assoc, st_writes.
  apply st_assoc. eapply st_alloc; [apply hfull_mfree|]. intros [] h Hh Hn. cbn beta in Hh. cfields.
  apply st_ret. apply (Hk true h); [lia|tauto].
Qed.

Section Prune.
Context (l : list (cid * mdns_cache_entry_t)) (c : cid) (e : mdns_cache_entry_t).
Hypothesis l_ok : tree_ok l.
Hypothesis in_l : assoc c l = Some e.

Lemma entry_empty_iff : entry_empty e = true <-> ce_addr_list e = [] /\ ce_service_cache_list e = [].
Proof. clear in_l. unfold entry_empty. destruct (ce_addr_list e), (ce_service_cache_list e); by intuition. Qed.

Lemma prune_ok : tree_ok (prune c e l).
Proof using l_ok in_l.
  unfold prune. destruct (entry_empty e); [|done].
  by destruct (entry_focus l c e l_ok in_l) as (? & ? & _ & _ & _ & _ & _ & ?).
Qed.

Lemma prune_records : cache_records (prune c e l) ≡ₚ cache_records l.
Proof using l_ok in_l.
  unfold prune. destruct (entry_empty e) eqn:E; [|done]. apply entry_empty_iff in E as [Ha Hs].
  destruct (entry_focus l c e l_ok in_l) as (? & ? & -> & _ & _ & -> & _).
  unfold records_of_entry. cbn [fst snd]. by rewrite Ha, Hs.
Qed.

Lemma prune_blocks : cache_blocks (prune c e l) = (cache_blocks l - pruned_blocks e)%Z.
Proof using l_ok in_l.
  unfold prune, pruned_blocks. destruct (entry_empty e); [|lia].
  destruct (entry_focus l c e l_ok in_l) as (? & ? & _ & -> & _ & _ & -> & _). lia.
Qed.

Lemma remove_at_elem {A} k (l0 : list (positive * A)) x : base.NoDup (map fst l0) ->
  x ∈ remove_at k l0 <-> x ∈ l0 /\ fst x <> k.
Proof.
  induction l0 as [|y l0 IH]; cbn [remove_at map]; [intros _; split; [intros H|intros [H _]]; by apply not_elem_of_nil in H|].
  rewrite NoDup_cons. intros [Hn Hnd]. case_decide as Hd.
  - split.
    + intros Hx. split; [by right|]. intros He. apply Hn. rewrite Hd, <- He. by apply list_elem_of_fmap_2.
    + intros [Hx Hne]. apply elem_of_cons in Hx as [->|Hx]; [done|done].
  - rewrite !elem_of_cons, IH by done. split; [intros [->|[? ?]]; auto|]. intros [[->|?] ?]; auto.
Qed.

Lemma prune_full xe xs : (xe = None \/ xe = Some c) -> tree_full xe xs l -> tree_full None xs (prune c e l).
Proof using l_ok in_l.
  intros Hxe Hf. unfold tree_full, prune in *. rewrite !list.Forall_forall in *.
  assert (Hin : (c, e) ∈ l) by (apply assoc_elem_of; [apply (t_entries _ l_ok)|done]).
  destruct (entry_empty e) eqn:E; intros x Hx.
  - apply remove_at_elem in Hx as [Hx Hne]; [|apply (t_entries _ l_ok)]. destruct (Hf x Hx) as [H1 H2].
    split; [|done]. intros _. apply H1. destruct Hxe as [->| ->]; congruence.
  - destruct (Hf x Hx) as [H1 H2]. split; [|done]. intros _. destruct (decide (fst x = c)) as [Hc|Hc].
    + assert (x = (c, e)) as -> by (by eapply (NoDup_map_inj fst); [apply (t_entries _ l_ok)|..]).
      cbn. unfold entry_empty in E. destruct (ce_addr_list e), (ce_service_cache_list e); try done; auto.
    + apply H1. destruct Hxe as [->| ->]; congruence.
Qed.

Lemma prune_owns c' e' v s : owns l c' e' v s -> owns (prune c e l) c' e' v s.
Proof using l_ok in_l.
  intros Ho. unfold prune. destruct (entry_empty e) eqn:E; [|done]. apply entry_empty_iff in E as [_ Hs].
  destruct Ho as [Hc Hv]. split; [|done]. apply assoc_elem_of.
  - eapply sublist_NoDup; [apply (t_entries _ l_ok)|]. apply map_sublist, remove_at_sublist.
  - apply remove_at_elem; [apply (t_entries _ l_ok)|]. split; [by apply assoc_elem_of; [apply (t_entries _ l_ok)|]|].
    cbn. intros ->. rewrite in_l in Hc. injection Hc as ->. by rewrite Hs in Hv.
Qed.

End Prune.

Lemma prune_represents xe b X st c e h : represents xe None b X st -> (xe = None \/ xe = Some c) ->
  assoc c (s_cache st) = Some e -> live h = (live (c_heap st) - pruned_blocks e)%Z ->
  represents None None b X (set_cache (set_c_heap st h) (prune c e (s_cache st))).
Proof.
  intros HX Hxe Hc Hh. pose proof (r_tree _ _ _ _ _ HX) as Hl. eapply represents_same; [exact HX|..]; cfields.
  - by apply prune_ok.
  - eapply prune_full; [done|done|exact Hxe|apply (r_full _ _ _ _ _ HX)].
  - by apply prune_records.
  - done.
  - rewrite prune_blocks by done. lia.
Qed.

Lemma prune_spec xe b X st c e : represents xe None b X st -> (xe = None \/ xe = Some c) ->
  assoc c (s_cache st) = Some e ->
  yields (cache_remove_entry_if_empty (Some c) st) (fun '(_, st') =>
    quiet st st' /\ s_expiry st' = s_expiry st /\ represents None None b X st').
Proof.
  intros HX Hxe Hc.
  enough (Hw : yields ((cache_remove_entry_if_empty (Some c) ≫= mret) st) (fun '(_, st') =>
    quiet st st' /\ s_expiry st' = s_expiry st /\ represents None None b X st')).
  { revert Hw. unfold mbind, ST_bind. by destruct (cache_remove_entry_if_empty (Some c) st) as [[]| | |]. }
  eapply w_prune; [exact Hc|]. intros r h Hh Hn. split_and!; [by_quiet|done|]. by eapply prune_represents.
Qed.

(** A service without a record is taken out, and its entry with it when nothing
    else is there. *)
Lemma remove_service_spec xe xs b X st c e v s : represents xe xs b X st ->
  (xe = None \/ xe = Some c) -> (xs = None \/ xs = Some v) -> owns (s_cache st) c e v s ->
  yields (cache_remove_service_if_empty c v st) (fun '(_, st') =>
    quiet st st' /\ s_expiry st' = s_expiry st /\ represents None None b X st').
Proof.
  intros HX Hxe Hxs Ho. pose proof (r_tree _ _ _ _ _ HX) as Hl. pose proof Ho as [Hc Hv].
  unfold cache_remove_service_if_empty. eapply w_get_service; [by eapply owns_find|].
  destruct (service_cache_is_empty s) eqn:Es; cbn [negb].
  2:{ split_and!; [done|done|]. eapply represents_same; [exact HX|done| |done|done|done].
      eapply full_nonempty; [done|exact Ho|apply (r_full _ _ _ _ _ HX)|done..]. }
  eapply w_get_entry; [exact Hc|]. rewrite Hv. eapply w_put_entry; [exact Hc|].
  eapply st_alloc; [apply hfull_mfree|]. intros [] h Hh Hn0. cbn beta in Hh. cfields.
  set (f := fun e0 => set_service_cache_list e0 (remove_at v (ce_service_cache_list e0))) in *.
  assert (Hrec : records_of_service c e (v, s) = []).
  { unfold service_cache_is_empty in Es. rewrite !andb_true_iff, !negb_true_iff in Es.
    destruct Es as [[[E1 E2] E3] E4]. unfold records_of_service, ptr_records, srv_records, txt_records. cbn [fst snd].
    rewrite E1, E2, E3. by destruct (sc_subtype_list s). }
  destruct (assoc_split _ _ _ Hv) as (s1 & s2 & He & Hn).
  assert (Hrem : ce_service_cache_list (f e) = s1 ++ s2) by (cbn; rewrite He; by apply remove_at_split).
  assert (HX1 : represents (Some c) None b X (set_c_heap (set_cache st (alter_at c f (s_cache st))) h)).
  { eapply (represents_entry _ _ _ _ _ _ _ _ c e); [exact HX|exact Hc| | |done|done| |]; cfields.
    - by apply (entry_step_remove (s_cache st) c e).
    - unfold records_of_entry. cbn [fst snd]. rewrite Hrem, He, !flat_map_app. cbn [flat_map].
      change (records_of_service c (f e)) with (records_of_service c e). by rewrite Hrec.
    - unfold entry_blocks. rewrite Hrem, He, !services_blocks_app. cbn [services_blocks foldr snd].
      fold (services_blocks s2). change (ce_hostname (f e)) with (ce_hostname e).
      change (ce_addr_list (f e)) with (ce_addr_list e). lia.
    - eapply (alter_entry_full xe xs); [done|exact Hc|apply (r_full _ _ _ _ _ HX)|done| |done|].
      + intros v' Hv'. right. intros x Hx Hne Hin. destruct Hxs as [Hxs|Hxs]; [congruence|].
        rewrite Hxs in Hv'. injection Hv' as <-. apply list_elem_of_fmap in Hin as ([v' s'] & Heq & Hin).
        cbn in Heq. subst v'. destruct x as [c' e']. apply Hne. cbn.
        destruct (in_tree_id (s_cache st) c' e' v s' c e s Hl) as (-> & _); [done| |done].
        by apply (owns_in _ _ _ _ _ Hl).
      + rewrite Hrem. pose proof (r_full _ _ _ _ _ HX) as Hf. unfold tree_full in Hf.
        rewrite list.Forall_forall in Hf.
        destruct (Hf (c, e)) as [_ Hsv]; [by apply assoc_elem_of; [apply (t_entries _ Hl)|]|]. cbn [snd] in Hsv.
        pose proof (services_NoDup _ _ _ Hl Hc) as Hnd. rewrite He in Hsv, Hnd.
        rewrite map_app, NoDup_app in Hnd. cbn [map fst] in Hnd. rewrite NoDup_cons in Hnd.
        destruct Hnd as (_ & Hd1 & Hd2 & _). rewrite Forall_app, Forall_cons in Hsv. destruct Hsv as (Hs1 & _ & Hs2).
        apply Forall_app. rewrite list.Forall_forall in Hs1, Hs2.
        split; apply list.Forall_forall; intros y Hy _; [apply (Hs1 y Hy)|apply (Hs2 y Hy)];
          intros Heq; destruct Hxs as [->| ->]; try done; injection Heq as Heq.
        * apply (Hd1 (fst y)); [by apply list_elem_of_fmap_2|]. rewrite Heq. left.
        * apply Hd2. rewrite <- Heq. by apply list_elem_of_fmap_2. }
  assert (Hc1 : assoc c (alter_at c f (s_cache st)) = Some (f e)) by (by rewrite assoc_alter_at, decide_True, Hc).
  eapply st_seq; [eapply (prune_spec (Some c)); [exact HX1|by right|exact Hc1]|].
  intros r st' (Hq & He' & HX'). cbn [yields mret ST_ret]. split_and!; [|exact He'|exact HX'].
  etransitivity; [|exact Hq]. by_quiet.
Qed.
End Ops.

(** * Marks *)

(** Only marks differ. *)
Record neutral (s s' : mdns_service_cache_t) : Prop := {
  n_names : same_names s s';
  n_ptr : sc_ptr_present s' = sc_ptr_present s /\ sc_ptr_ttl s' = sc_ptr_ttl s;
  n_srv : sc_srv_present s' = sc_srv_present s /\ sc_priority s' = sc_priority s /\ sc_weight s' = sc_weight s
          /\ sc_port s' = sc_port s /\ sc_srv_ttl s' = sc_srv_ttl s;
  n_txt : sc_txt_present s' = sc_txt_present s /\ sc_txt_list s' = sc_txt_list s /\ sc_txt_ttl s' = sc_txt_ttl s;
  n_subtypes : map (fun t => (fst t, st_subtype (snd t), st_ttl (snd t))) (sc_subtype_list s')
               = map (fun t => (fst t, st_subtype (snd t), st_ttl (snd t))) (sc_subtype_list s);
}.

Lemma mark_neutral r c s : neutral s (mark_sync_out r c s).
Proof. by split. Qed.

Lemma clear_neutral c s : neutral s (clear_sync_out c s).
Proof.
  unfold clear_sync_out. cbn zeta. case_on_goal; split; try done. cbn. rewrite map_map. done.
Qed.

Section Neutral.
Context (s s' : mdns_service_cache_t).
Hypothesis Hn : neutral s s'.

Lemma subtypes_map {B} (h : tid * cstr * Z -> B) (g : tid * mdns_cache_subtype_t -> B) :
  (forall t, g t = h (fst t, st_subtype (snd t), st_ttl (snd t))) ->
  map g (sc_subtype_list s') = map g (sc_subtype_list s).
Proof using Hn.
  intros Hg. transitivity (map h (map (fun t => (fst t, st_subtype (snd t), st_ttl (snd t))) (sc_subtype_list s'))).
  - rewrite map_map. by apply map_ext.
  - rewrite (n_subtypes _ _ Hn), map_map. apply map_ext. intros t. by rewrite Hg.
Qed.

Lemma neutral_records c e v : records_of_service c e (v, s') = records_of_service c e (v, s).
Proof using Hn.
  destruct Hn as [Hnm [H1 H2] (H3 & H4 & H5 & H6 & H7) (H8 & H9 & H10) _].
  unfold records_of_service. cbn [fst snd]. rewrite (same_names_key e s s' Hnm).
  unfold ptr_records, srv_records, txt_records. rewrite H1, H2, H3, H4, H5, H6, H7, H8, H9, H10.
  by rewrite (subtypes_map (fun x => (of_subtype c v (fst (fst x)),
    (NameSubtype (key_of_service e s) (map tolower (snd (fst x))), DataTtl (snd x))))).
Qed.

Lemma neutral_empty : service_cache_is_empty s' = service_cache_is_empty s.
Proof using Hn.
  destruct Hn as [_ [H1 _] [H2 _] [H3 _] Hs]. unfold service_cache_is_empty. rewrite H1, H2, H3. f_equal.
  by destruct (sc_subtype_list s), (sc_subtype_list s').
Qed.

Lemma neutral_blocks : service_blocks s' = service_blocks s.
Proof using Hn.
  destruct Hn as [(H1 & H2 & H3) _ _ (_ & Ht & _) Hs]. unfold service_blocks, subtypes_blocks.
  apply (f_equal length) in Hs. rewrite !length_map in Hs. by rewrite H1, H2, H3, Ht, Hs.
Qed.

Lemma neutral_step l : base.NoDup (map fst (sc_subtype_list s)) -> service_wf s -> service_step l s s'.
Proof using Hn.
  intros Hnd [H1 H2 H3 H4 H5]. pose proof Hn as [(Ni & Ns & Np) _ _ (_ & Ht & _) _]. split.
  - apply (n_names _ _ Hn).
  - split; rewrite ?Ni, ?Ns, ?Np, ?Ht; try done.
    by rewrite (subtypes_map (fun x => map tolower (snd (fst x)))).
  - rewrite (subtypes_map (fun x => fst (fst x))) by done. by apply renews_refl.
Qed.

End Neutral.

Lemma represents_ext xe xs b X st st' : s_cache st' = s_cache st -> s_expiry st' = s_expiry st ->
  live (c_heap st') = live (c_heap st) -> represents xe xs b X st -> represents xe xs b X st'.
Proof. intros Hc He Hh []. split; rewrite ?Hc, ?He; try done. lia. Qed.

Lemma owns_wf l c e v s : tree_ok l -> owns l c e v s ->
  service_wf s /\ base.NoDup (map fst (sc_subtype_list s)) /\ forall t, t ∈ map fst (sc_subtype_list s) -> t ∈ subtype_ids l.
Proof.
  intros Hl Ho. pose proof Ho as [Hc _]. apply (owns_in _ _ _ _ _ Hl) in Ho as [_ Hv].
  pose proof (in_entry_wf l c e Hl Hc) as [Hw _]. rewrite list.Forall_forall in Hw.
  destruct (in_entry_flat l c e Hc ids_of_subtypes (t_subtypes _ Hl)) as [Hnd Hin].
  unfold ids_of_subtypes in Hnd, Hin. cbn [snd] in *. split; [apply (Hw _ Hv)|]. split.
  - apply list_elem_of_split in Hv as (s1 & s2 & E). rewrite E in Hnd. by apply NoDup_flat_map_mid in Hnd.
  - intros t Ht. apply Hin, elem_of_flat_map. exists (v, s). done.
Qed.

Lemma represents_neutral xe xs b X st v f : represents xe xs b X st -> is_Some (find_service v (s_cache st)) ->
  (forall s, neutral s (f s)) -> represents xe xs b X (set_cache st (alter_service v f (s_cache st))).
Proof.
  intros HX [s Hs] Hf. pose proof (r_tree _ _ _ _ _ HX) as Hl.
  destruct (find_owns _ _ _ Hl Hs) as (c & e & Ho).
  destruct (service_focus _ _ _ _ _ Hl Ho) as (recs & blocks & Hr & Hb & Hall).
  destruct (Hall f) as (Hr' & Hb' & Ht'). destruct (owns_wf _ _ _ _ _ Hl Ho) as (Hw & Hnd & _).
  eapply represents_same; [exact HX|..]; cfields; [| | |done|].
  - by apply Ht', neutral_step.
  - apply full_alter_same; [|apply (r_full _ _ _ _ _ HX)]. intros s'. by apply neutral_empty.
  - rewrite Hr', Hr. by rewrite (neutral_records s (f s)).
  - rewrite Hb', Hb, (neutral_blocks s (f s)) by done. lia.
Qed.

Lemma mark_spec xe xs b X st v r bits cons : represents xe xs b X st -> is_Some (find_service v (s_cache st)) ->
  yields (service_cache_mark_sync_out (Some v) r bits cons st) (fun '(_, st') =>
    quiet st st' /\ s_expiry st' = s_expiry st /\ represents xe xs b X st'
    /\ (forall x, is_Some (find_service x (s_cache st)) -> is_Some (find_service x (s_cache st')))
    /\ (forall c, is_Some (assoc c (s_cache st)) -> is_Some (assoc c (s_cache st')))).
Proof.
  intros HX [s Hs]. unfold service_cache_mark_sync_out. case_on_goal; [|done].
  eapply w_put_service; [exact Hs|]. split_and!; [by_quiet|done| | |].
  3:{ intros c [e He]. cfields. rewrite assoc_alter_service, He. by eexists. }
  - eapply represents_ext; [..|eapply (represents_neutral xe xs b X st v (mark_sync_out bits cons) HX);
      [by eexists|intros ?; apply mark_neutral]]; done.
  - intros x [sx Hx]. cfields. destruct (decide (x = v)) as [->|Hne].
    + rewrite find_alter_service, Hx. by eexists.
    + exists sx. clear -Hx Hne. unfold alter_service. induction (s_cache st) as [|[c e] l IH]; [done|].
      cbn [map find_service fst snd set_service_cache_list ce_service_cache_list] in *.
      rewrite assoc_alter_at, decide_False by done. destruct (assoc x (ce_service_cache_list e)); auto.
Qed.
