(* ===== verification/CacheUpdate.v ===== *)
(** Writing a record: the update functions of mdns_cache.c against the abstract
    cache. *)
From S2P Require Import Prelude Names Server Heap Txt State Cache CacheTree CacheExpiry CacheRefine CacheOps.
From Stdlib Require Import Sorting.

(** * Which records belong to a service *)

Definition service_ptr (p : pointers) : option vid := snd (fst (fst p)).

Lemma record_by_pointer l c e v s p r : tree_ok l -> in_tree l c e v s -> (p, r) ∈ cache_records l ->
  service_ptr p = Some v -> (p, r) ∈ records_of_service c e (v, s).
Proof.
  intros Hl Hi Hr Hp.
  apply cache_record_inv in Hr as [(c' & e' & a & x & _ & _ & [= -> _])|(c' & e' & v' & s' & Hi' & Hr)]; [done|].
  assert (v' = v) as ->.
  { apply service_record_inv in Hr as [_ [(-> & _)|[(-> & _)|[(-> & _)|(t & it & -> & _)]]]]; cbn in Hp; congruence. }
  by destruct (in_tree_id l c e v s c' e' s' Hl Hi Hi') as (-> & -> & ->).
Qed.

Lemma record_by_name l c e v s p r : tree_ok l -> in_tree l c e v s -> (p, r) ∈ cache_records l ->
  service_of_name (fst r) = Some (key_of_service e s) -> (p, r) ∈ records_of_service c e (v, s).
Proof.
  intros Hl Hi Hr Hn.
  apply cache_record_inv in Hr as [(c' & e' & a & x & _ & _ & [= _ ->])|(c' & e' & v' & s' & Hi' & Hr)]; [done|].
  pose proof (service_record_inv _ _ _ _ _ _ Hr) as [Hk _]. rewrite Hn in Hk.
  pose proof (in_tree_key l c e v s c' e' v' s' Hl Hi Hi' ltac:(congruence)) as ->.
  by destruct (in_tree_id l c e v' s c' e' s' Hl Hi Hi') as (-> & -> & ->).
Qed.

Lemma records_NoDup xe xs b X st : represents xe xs b X st ->
  base.NoDup (map fst (cache_records (s_cache st)))
  /\ base.NoDup (map (fun y => fst (snd y)) (cache_records (s_cache st))).
Proof.
  intros HX. rewrite <- (r_records _ _ _ _ _ HX), map_fst_ptr, map_fst_name.
  split; [apply (r_pointers _ _ _ _ _ HX)|apply (r_names _ _ _ _ _ HX)].
Qed.

(** The pointers and the name of a record that is replaced are nowhere else;
    those of a new one are nowhere. *)
Lemma fresh_rest xe xs b X st old recs p (r : cache_record) : represents xe xs b X st ->
  cache_records (s_cache st) ≡ₚ old ++ recs ->
  ((exists r0, old = [(p, r0)] /\ fst r0 = fst r)
   \/ old = [] /\ (forall r', (p, r') ∉ cache_records (s_cache st))
      /\ (forall p' r', (p', r') ∈ cache_records (s_cache st) -> fst r' <> fst r)) ->
  (p ∉ map fst recs) /\ (fst r ∉ map (fun y => fst (snd y)) recs).
Proof.
  intros HX Hr [(r0 & -> & Hn)|(-> & H1 & H2)].
  - destruct (records_NoDup _ _ _ _ _ HX) as [Hp Hnm]. rewrite Hr in Hp, Hnm. cbn [app map fst snd] in *.
    apply NoDup_cons in Hp as [Hp _]. apply NoDup_cons in Hnm as [Hnm _]. by rewrite <- Hn.
  - cbn [app] in Hr. split.
    + intros ([p' r'] & -> & Hin)%list_elem_of_fmap. apply (H1 r'). by rewrite Hr.
    + intros ([p' r'] & Heq & Hin)%list_elem_of_fmap. apply (H2 p' r'); [by rewrite Hr|done].
Qed.

(** * Scheduling a record that was written *)

(** The node list before scheduling: that of [st0], or that with a new node. *)
Definition node_ready (p : pointers) (st0 st2 : client) (old : list (pointers * cache_record)) : Prop :=
  (s_expiry st2 = s_expiry st0 /\ old <> [])
  \/ (old = [] /\ exists h, s_expiry st2 = s_expiry (with_new_node st0 h p)).

Lemma w_schedule {A} xe xs b X st0 st2 rt c v a t (r : cache_record) ttl old recs (k : unit -> C A) Q :
  let p := (rt, c, v, fst <$> a, fst <$> t) in
  represents xe xs b X st0 -> pointers_wf p -> node_ready p st0 st2 old ->
  cache_records (s_cache st0) ≡ₚ old ++ recs ->
  Forall (fun y => fst y = p /\ fst (snd y) = fst r) old ->
  (p ∉ map fst recs) /\ (fst r ∉ map (fun y => fst (snd y)) recs) ->
  ttl_of st2 rt v a t = Some ttl ->
  (forall st3 X', s_cache st3 = s_cache st2 -> quiet st2 st3 -> s_sync_pending st3 = s_sync_pending st2 ->
     s_expiry st3 = expiry_insert (reschedule (expiry_time (c_now st2) ttl) p) (others p (s_expiry st0)) ->
     live (c_heap st3) = live (c_heap st2) -> length (s_expiry st3) = length (s_expiry st2) ->
     abstracted X' = cache_put r (expiry_time (c_now st2) ttl) (abstracted X) ->
     (forall st4 xe' xs' b', s_expiry st4 = s_expiry st3 -> tree_ok (s_cache st4) ->
      tree_full xe' xs' (s_cache st4) -> cache_records (s_cache st4) ≡ₚ (p, r) :: recs ->
      live (c_heap st4) = (b' + cache_blocks (s_cache st4) + Z.of_nat (length (s_expiry st4)))%Z ->
      represents xe' xs' b' X' st4) ->
     yields (k tt st3) Q) ->
  yields ((expiry_schedule rt c v a t ≫= k) st2) Q.
Proof.
  intros p HX Hp Hready Hrec Hold Hfresh Httl Hk.
  assert (Hnew : old = [] -> p ∉ map fst (cache_records (s_cache st0))).
  { intros ->. rewrite Hrec. apply Hfresh. }
  assert (Hsched : schedulable p (s_expiry st2) /\ others p (s_expiry st2) = others p (s_expiry st0)
                   /\ S (length (others p (s_expiry st2))) = length (s_expiry st2)).
  { destruct Hready as [[-> Hne]|[Ho [h ->]]].
    - destruct old as [|[p0 r0] old]; [done|]. apply Forall_cons in Hold as [[Hp0 _] Hold]. cbn in Hp0. subst p0.
      assert (Hin : (p, r0) ∈ cache_records (s_cache st0)) by (rewrite Hrec; left).
      pose proof (record_schedulable _ _ _ _ _ HX p r0 Hin) as Hs. split_and!; [done|done|].
      destruct Hs as (_ & Hnd & Hin' & _). apply list_elem_of_fmap in Hin' as (n & Hn & Hin').
      apply list_elem_of_split in Hin' as (l1 & l2 & E). rewrite E in *.
      rewrite others_split by done. rewrite !length_app. cbn. lia.
    - specialize (Hnew Ho). set (n := mk_expiry false rt c v (fst <$> a) (fst <$> t) INT64_MAX).
      change (s_expiry (with_new_node st0 h p)) with (n :: s_expiry st0).
      assert (Ho0 : others p (s_expiry st0) = s_expiry st0).
      { apply others_none. rewrite (expiry_pointers _ _ _ _ _ HX), <- map_fst_ptr.
        by rewrite (r_records _ _ _ _ _ HX). }
      assert (Hon : others p (n :: s_expiry st0) = s_expiry st0).
      { unfold others. rewrite filter_cons_False by auto. exact Ho0. }
      split_and!; [by eapply new_schedulable|by rewrite Hon, Ho0|by rewrite Hon]. }
  destruct Hsched as (Hsched & Hoth & Hlen).
  destruct (expiry_schedule_spec st2 rt c v a t ttl Hp Hsched Httl) as [Heq _]. fold p in Heq.
  unfold mbind, ST_bind. rewrite Heq. set (l' := expiry_insert _ _).
  assert (Hlen' : length l' = length (s_expiry st2)).
  { unfold l'. rewrite expiry_insert_perm. exact Hlen. }
  apply (Hk (set_expiry st2 l') ((p, r, expiry_time (c_now st2) ttl) :: not_at p X)); try done.
  - unfold l'. cfields. by rewrite Hoth.
  - destruct Hfresh. by eapply abstracted_put.
  - intros st4 xe' xs' b' He Ht Hf Hr Hh. destruct Hfresh as [F1 F2].
    refine (proj1 (represents_put xe xs b X st0 xe' xs' b' st4 p r _ old recs
      HX Ht Hf Hrec Hold Hr F1 F2 _ Hh)).
    rewrite He. unfold l'. cbn [set_expiry s_expiry]. by rewrite Hoth.
Qed.

(** * Finding a service *)

Definition named (i s p : option cstr) : Prop := canon i <> [] /\ canon s <> [] /\ canon p <> [].

Lemma cache_find_in l n p i s pr c v sv : cache_find_service l n p i s pr = Some (c, v, sv) ->
  exists e, in_tree l c e v sv /\ key_of_service e sv = key_of_names n p i s pr.
Proof.
  induction l as [|[c' e'] l IH]; cbn [cache_find_service]; [done|].
  assert (Hlater : cache_find_service l n p i s pr = Some (c, v, sv) ->
    exists e, in_tree ((c', e') :: l) c e v sv /\ key_of_service e sv = key_of_names n p i s pr).
  { intros (e & [H1 H2] & H3)%IH. exists e. split; [|done]. split; [by right|done]. }
  destruct (bool_decide (ce_esp_netif e' = n) && _) eqn:E; [|done].
  rewrite andb_true_iff, !bool_decide_eq_true in E. destruct E as [Hn Hp].
  destruct (List.find _ (ce_service_cache_list e')) as [[v' s']|] eqn:Ef; [|done].
  intros [= -> -> ->]. apply List.find_some in Ef as [Hin Hm]. rewrite <- list_elem_of_In in Hin.
  exists e'. split; [split; [left|done]|]. cbn in Hm. unfold service_match in Hm.
  rewrite !andb_true_iff, !case_equal_canon in Hm. destruct Hm as [[[H1 _] [H2 _]] [H3 _]].
  unfold key_of_service, key_of_names. by rewrite H1, H2, H3, Hn, Hp.
Qed.

Lemma cache_find_Some l n p i s pr c v sv : tree_ok l -> cache_find_service l n p i s pr = Some (c, v, sv) ->
  exists e, owns l c e v sv /\ key_of_service e sv = key_of_names n p i s pr.
Proof.
  intros Hl (e & Hi & Hk)%cache_find_in. exists e. split; [|done]. by apply owns_in.
Qed.

Lemma cache_find_None l n p i s pr : cache_find_service l n p i s pr = None -> named i s pr ->
  key_of_names n p i s pr ∉ flat_map keys_of_services l.
Proof.
  intros Hf (Hi & Hs & Hp). induction l as [|[c e] l IH]; cbn [cache_find_service flat_map] in *;
    [apply not_elem_of_nil|]. rewrite not_elem_of_app.
  destruct (bool_decide (ce_esp_netif e = n) && _) eqn:E.
  - destruct (List.find _ _) as [[]|] eqn:Ef; [done|]. split; [|by apply IH].
    intros ([v sv] & Hk & Hin)%list_elem_of_fmap. pose proof (List.find_none _ _ Ef (v, sv)) as Hm.
    rewrite <- list_elem_of_In in Hm. specialize (Hm Hin). cbn in Hm. apply not_true_iff_false in Hm. apply Hm.
    unfold key_of_service, key_of_names in Hk. cbn in Hk. injection Hk as _ _ H1 H2 H3.
    unfold service_match. rewrite !andb_true_iff, !case_equal_canon. by rewrite <- H1, <- H2, <- H3.
  - split; [|by apply IH]. intros ([v sv] & Hk & Hin)%list_elem_of_fmap.
    unfold key_of_service, key_of_names in Hk. cbn in Hk. injection Hk as H1 H2 _ _ _.
    apply andb_false_iff in E as [E|E]; apply bool_decide_eq_false in E; congruence.
Qed.

Section Updates.
Context (addr : list positive -> positive).
Hypothesis addr_new : forall l, addr l ∉ l.

(** What an operation that ends in a failure cleans up: blocks held outside. *)
Definition frees (k : Z) (m : C unit) : Prop := forall st xe xs b X, represents xe xs b X st ->
  yields (m st) (fun '(_, st') => quiet st st' /\ s_expiry st' = s_expiry st /\ represents xe xs (b - k) X st').

Lemma frees_nothing : frees 0 (mret tt).
Proof. intros st xe xs b X HX. by rewrite Z.sub_0_r. Qed.

Lemma frees_txt l : frees (list_blocks l) (alloc (mdns_utils_free_txt_linked_list l)).
Proof.
  intros st xe xs b X HX. eapply st_alloc_last; [apply hfull_mfree|]. intros h Hh Hn. cbn beta in Hh. cfields.
  split_and!; [by_quiet|done|]. destruct HX. split; try done. cfields. lia.
Qed.

Lemma obtain_service_spec k cleanup b X st n p i s pr : frees k cleanup -> represents None None b X st ->
  named i s pr ->
  yields (obtain_service addr (cache_find_service (s_cache st) n p i s pr) n p i s pr cleanup st)
    (fun '(o, st') => quiet st st' /\ s_expiry st' = s_expiry st /\
      match o with
      | None => represents None None (b - k) X st' /\ ~ never_fails (c_heap st)
      | Some (c, v, new) => exists xs e sv, represents None xs b X st' /\ (xs = None \/ xs = Some v)
          /\ owns (s_cache st') c e v sv /\ key_of_service e sv = key_of_names n p i s pr
          /\ (new = true -> sv = new_service i s pr /\ cache_find_service (s_cache st) n p i s pr = None)
          /\ (new = false -> cache_find_service (s_cache st) n p i s pr = Some (c, v, sv))
      end).
Proof using addr_new.
  intros Hfree HX Hnm. pose proof (r_tree _ _ _ _ _ HX) as Hl. unfold obtain_service.
  destruct (cache_find_service (s_cache st) n p i s pr) as [[[c v] sv]|] eqn:Ef.
  { destruct (cache_find_Some _ _ _ _ _ _ _ _ _ Hl Ef) as (e & Ho & Hk).
    split_and!; [done|done|]. exists None, e, sv. split_and!; auto. done. }
  pose proof (cache_find_None _ _ _ _ _ _ Ef Hnm) as Hnone. destruct Hnm as (Hi & Hs & Hp).
  eapply st_seq; [by apply get_or_add_entry_spec|]. intros [c|] st1; cbn beta iota; intros (Hq1 & He1 & H1).
  2:{ destruct H1 as [HX1 Hf]. eapply st_seq; [by apply Hfree|]. intros [] st2 (Hq2 & He2 & H2).
      cbn [yields mret ST_ret]. split_and!; [by etransitivity|congruence|done|done]. }
  destruct H1 as (HX1 & Hadd & e & Hc & Hk). cbn in Hk. injection Hk as Hhost Hnet Hproto.
  assert (Hkeys : flat_map keys_of_services (s_cache st1) = flat_map keys_of_services (s_cache st)).
  { destruct Hadd as [->|(h & n' & p' & _ & ->)]; done. }
  eapply st_seq; [apply (add_service_spec addr addr_new (Some c) b X st1 c e i s pr); try done; [by right|]|].
  { rewrite Hkeys. unfold key_of_names in *. by rewrite Hnet, Hproto. }
  intros [v|] st2; cbn beta iota; intros (Hq2 & He2 & H2).
  - destruct H2 as (HX2 & Hv & Hcache). split_and!; [by etransitivity|congruence|].
    exists (Some v), (set_service_cache_list e ((v, new_service i s pr) :: ce_service_cache_list e)), (new_service i s pr).
    split_and!; [done|by right| |unfold key_of_service; cbn; by rewrite Hnet, Hproto|done|done].
    split; [by rewrite Hcache, assoc_alter_at, decide_True, Hc|]. cbn. by rewrite Pos.eqb_refl.
  - destruct H2 as (HX2 & Hcache & Hf). eapply st_seq.
    { eapply (prune_spec (Some c)); [exact HX2|by right|rewrite Hcache; exact Hc]. }
    intros r st3 (Hq3 & He3 & HX3). eapply st_seq; [by apply Hfree|]. intros [] st4 (Hq4 & He4 & HX4).
    cbn [yields mret ST_ret]. split_and!; [|congruence|done|intros Hn; by apply Hf, (q_never _ _ Hq1)]. etransitivity; [exact Hq1|].
    etransitivity; [exact Hq2|]. by etransitivity.
Qed.

Lemma update_ttl_fst old ttl : fst (update_ttl old ttl) = ttl.
Proof. unfold update_ttl. case_on_goal; bsimp; done. Qed.


(** * Writing a record of a service *)

Lemma empty_records c e v s : service_cache_is_empty s = true <-> records_of_service c e (v, s) = [].
Proof.
  unfold service_cache_is_empty, records_of_service, ptr_records, srv_records, txt_records. cbn [fst snd].
  destruct (sc_ptr_present s), (sc_srv_present s), (sc_txt_present s), (sc_subtype_list s); done.
Qed.

(** The record [r] at the pointers [p] replaces [old] among those of a service. *)
Record slot c e v s (p : pointers) (r : cache_record) (old rest : list (pointers * cache_record)) : Prop := {
  sl_split : records_of_service c e (v, s) ≡ₚ old ++ rest;
  sl_ptr : service_ptr p = Some v;
  sl_name : service_of_name (fst r) = Some (key_of_service e s);
  sl_old : (exists r0, old = [(p, r0)] /\ fst r0 = fst r)
    \/ old = [] /\ forall p' r', (p', r') ∈ records_of_service c e (v, s) -> p' <> p /\ fst r' <> fst r;
}.

Lemma slot_old c e v s p r old rest : slot c e v s p r old rest ->
  Forall (fun y => fst y = p /\ fst (snd y) = fst r) old.
Proof. intros [_ _ _ [(r0 & -> & Hr)|[-> _]]]; [by repeat constructor|done]. Qed.

Lemma slot_rest xe xs b X st c e v s p r old rest : represents xe xs b X st -> owns (s_cache st) c e v s ->
  slot c e v s p r old rest ->
  exists recs blocks, cache_records (s_cache st) ≡ₚ old ++ recs
    /\ ((p ∉ map fst recs) /\ (fst r ∉ map (fun y => fst (snd y)) recs))
    /\ cache_blocks (s_cache st) = (service_blocks s + blocks)%Z
    /\ forall f, cache_blocks (alter_service v f (s_cache st)) = (service_blocks (f s) + blocks)%Z
         /\ (records_of_service c e (v, f s) ≡ₚ (p, r) :: rest ->
             cache_records (alter_service v f (s_cache st)) ≡ₚ (p, r) :: recs)
         /\ (service_step (s_cache st) s (f s) -> tree_ok (alter_service v f (s_cache st))).
Proof.
  intros HX Ho [Hsplit Hp Hn Hold]. pose proof (r_tree _ _ _ _ _ HX) as Hl.
  destruct (service_focus _ _ _ _ _ Hl Ho) as (recs & blocks & Hr & Hb & Hf).
  assert (Hall : cache_records (s_cache st) ≡ₚ old ++ rest ++ recs) by (by rewrite Hr, Hsplit, app_assoc).
  exists (rest ++ recs), blocks. split; [done|]. split; [|split; [done|]].
  - eapply fresh_rest; [exact HX|exact Hall|]. destruct Hold as [?|[-> Hnew]]; [by left|right].
    pose proof (proj1 (owns_in _ _ _ _ _ Hl) Ho) as Hi. split_and!; [done| |].
    + intros r' Hr'. by destruct (Hnew p r' (record_by_pointer _ _ _ _ _ _ _ Hl Hi Hr' Hp)).
    + intros p' r' Hr' Heq. rewrite <- Heq in Hn.
      by destruct (Hnew p' r' (record_by_name _ _ _ _ _ _ _ Hl Hi Hr' Hn)).
  - intros f. destruct (Hf f) as (Hr' & Hb' & Ht'). split_and!; [done| |done].
    intros Hnew. by rewrite Hr', Hnew.
Qed.

(** What the abstract cache knows of the record is what is replaced. *)
Lemma slot_get xe xs b X st c e v s p r old rest : represents xe xs b X st -> owns (s_cache st) c e v s ->
  slot c e v s p r old rest -> cache_get (fst r) (abstracted X) = (fun y => snd (snd y)) <$> head old.
Proof.
  intros HX Ho Hslot. destruct (slot_rest _ _ _ _ _ _ _ _ _ _ _ _ _ HX Ho Hslot) as (recs & _ & Hr & [_ Hn] & _).
  apply option_eq. intros d. rewrite (get_record _ _ _ _ _ HX). setoid_rewrite Hr.
  assert (Hno : forall p', (p', (fst r, d)) ∉ recs).
  { intros p' Hin. apply Hn. by apply (list_elem_of_fmap_2 (fun y => fst (snd y)) _ (p', (fst r, d))). }
  destruct (sl_old _ _ _ _ _ _ _ _ Hslot) as [([n0 d0] & -> & Hn0)|[-> _]]; cbn in *.
  - split.
    + intros [p' Hin]. apply elem_of_cons in Hin as [[= -> _ ->]|Hin]; [done|by apply Hno in Hin].
    + intros [= <-]. exists p. rewrite <- Hn0. left.
  - split; [intros [p' Hin]; by apply Hno in Hin|done].
Qed.

(** The service was written and its node, old or new, is scheduled. *)
Lemma w_write {A} xs b X st0 st2 c e v s f rt t r old rest ttl b' (k : unit -> C A) Q :
  let p := (rt, c, Some v, None, fst <$> t) in
  represents None xs b X st0 -> (xs = None \/ xs = Some v) -> owns (s_cache st0) c e v s ->
  slot c e v s p r old rest -> records_of_service c e (v, f s) ≡ₚ (p, r) :: rest ->
  service_step (s_cache st0) s (f s) -> pointers_wf p -> node_ready p st0 st2 old -> quiet st0 st2 ->
  s_cache st2 = alter_service v f (s_cache st0) -> ttl_of st2 rt (Some v) None t = Some ttl ->
  live (c_heap st2) = (b' + cache_blocks (s_cache st2) + Z.of_nat (length (s_expiry st2)))%Z ->
  (forall st3 X', quiet st0 st3 -> s_cache st3 = s_cache st2 -> represents None None b' X' st3 ->
     abstracted X' = cache_put r (expiry_time (c_now st0) ttl) (abstracted X) -> yields (k tt st3) Q) ->
  yields ((expiry_schedule rt c (Some v) None t ≫= k) st2) Q.
Proof.
  intros p HX Hxs Ho Hslot Hnew Hstep Hp Hready Hq Hc Httl Hh Hk.
  destruct (slot_rest _ _ _ _ _ _ _ _ _ _ _ _ _ HX Ho Hslot) as (recs & blocks & Hr & Hfresh & Hb & Hf).
  destruct (Hf f) as (Hb' & Hr' & Ht').
  eapply (w_schedule None xs b X st0 st2 rt c (Some v) None t r ttl old recs); try done; [by eapply slot_old|].
  intros st3 X' Hc3 Hq3 _ He3 Hh3 Hlen Habs Hrep. rewrite (q_now _ _ Hq) in Habs. rewrite Hc in Hc3.
  apply (Hk st3 X'); [by etransitivity|congruence| |done]. apply Hrep; rewrite ?Hc3; try done.
  - by apply Ht'.
  - eapply full_alter; [apply (r_tree _ _ _ _ _ HX)|exact Ho|apply (r_full _ _ _ _ _ HX)|by left|done|].
    apply not_true_iff_false. rewrite (empty_records c e v). intros E. rewrite E in Hnew.
    by apply Permutation_nil_cons in Hnew.
  - by apply Hr'.
  - rewrite Hh3, Hlen, Hh, Hc. done.
Qed.

(** ** The three records a service has once *)

Lemma ptr_slot c e v s ttl : exists rest,
  slot c e v s (of_service MDNS_CACHE_RECORD_PTR c v) (NamePtr (key_of_service e s), DataTtl ttl)
    (ptr_records (key_of_service e s) c v s) rest
  /\ records_of_service c e (v, set_ptr_ttl (set_ptr_present s true) ttl)
     ≡ₚ (of_service MDNS_CACHE_RECORD_PTR c v, (NamePtr (key_of_service e s), DataTtl ttl)) :: rest.
Proof.
  eexists. split; [split; [unfold records_of_service; cbn [fst snd]; reflexivity|done|done|]|reflexivity].
  unfold ptr_records. destruct (sc_ptr_present s) eqn:E; [left; eauto|right]. split; [done|].
  intros p r [_ [(_ & ? & _)|[(-> & _ & ->)|[(-> & _ & ->)|(t & it & -> & _ & ->)]]]]%service_record_inv;
      [congruence|done..].
Qed.

Lemma srv_slot c e v s pr w po ttl : exists rest,
  let r := (NameSrv (key_of_service e s), DataSrv (canon (ce_hostname e)) pr w po ttl) in
  slot c e v s (of_service MDNS_CACHE_RECORD_SRV c v) r
    (srv_records (key_of_service e s) (canon (ce_hostname e)) c v s) rest
  /\ records_of_service c e (v, set_srv_ttl (set_port (set_weight (set_priority (set_srv_present s true) pr) w) po) ttl)
     ≡ₚ (of_service MDNS_CACHE_RECORD_SRV c v, r) :: rest.
Proof.
  eexists. cbn zeta. split; [split; [|done|done|]|].
  - unfold records_of_service. cbn [fst snd]. rewrite Permutation_app_swap_app. reflexivity.
  - unfold srv_records. destruct (sc_srv_present s) eqn:E; [left; eauto|right]. split; [done|].
    intros p r [_ [(-> & _ & ->)|[(_ & ? & _)|[(-> & _ & ->)|(t & it & -> & _ & ->)]]]]%service_record_inv;
      [done|congruence|done..].
  - unfold records_of_service. cbn [fst snd]. by rewrite Permutation_app_swap_app.
Qed.

Lemma txt_slot c e v s txt ttl : exists rest,
  slot c e v s (of_service MDNS_CACHE_RECORD_TXT c v) (NameTxt (key_of_service e s), DataTxt txt ttl)
    (txt_records (key_of_service e s) c v s) rest
  /\ records_of_service c e (v, set_txt_list (set_txt_ttl (set_txt_present s true) ttl) txt)
     ≡ₚ (of_service MDNS_CACHE_RECORD_TXT c v, (NameTxt (key_of_service e s), DataTxt txt ttl)) :: rest.
Proof.
  assert (Hperm : forall s', records_of_service c e (v, s') ≡ₚ txt_records (key_of_service e s') c v s'
    ++ ptr_records (key_of_service e s') c v s' ++ srv_records (key_of_service e s') (canon (ce_hostname e)) c v s'
    ++ map (subtype_record (key_of_service e s') c v) (sc_subtype_list s')).
  { intros s'. unfold records_of_service. cbn [fst snd].
    rewrite (Permutation_app_swap_app (srv_records _ _ _ _ _)). apply Permutation_app_swap_app. }
  eexists. split; [split; [apply Hperm|done|done|]|by rewrite Hperm].
  unfold txt_records. destruct (sc_txt_present s) eqn:E; [left; eauto|right]. split; [done|].
  intros p r [_ [(-> & _ & ->)|[(-> & _ & ->)|[(_ & ? & _)|(t & it & -> & _ & ->)]]]]%service_record_inv;
      [done|done|congruence|done].
Qed.

(** A node is made for a record that was not there. *)
Lemma w_node {A} rt c v (present : bool) old (k : bool -> C A) st Q :
  let p := of_service rt c v in
  (present = true <-> old <> []) ->
  (forall h, live h = live (c_heap st) -> ~ never_fails (c_heap st) -> present = false ->
     yields (k false (set_c_heap st h)) Q) ->
  (forall st2, node_ready p st st2 old -> quiet st st2 -> s_cache st2 = s_cache st ->
     (live (c_heap st2) - Z.of_nat (length (s_expiry st2)) = live (c_heap st) - Z.of_nat (length (s_expiry st)))%Z ->
     yields (k true st2) Q) ->
  yields (((if negb present then expiry_new rt c (Some v) None None else mret true) ≫= k) st) Q.
Proof.
  intros p Hpr Hno Hyes. destruct present; cbn [negb].
  - apply st_ret, Hyes; try done. left. split; [done|by apply Hpr].
  - eapply w_expiry_new; [intros h Hh Hn; by apply Hno|]. intros h Hh Hn. apply Hyes; [|by_quiet|done|cbn [with_new_node]; cfields; cbn [length]; lia].
    right. split; [|by exists h]. destruct old; [done|]. by destruct Hpr as [_ Hpr]; specialize (Hpr ltac:(done)).
Qed.

(** What writing a record of a service ends in. *)
Definition wrote (xs : option vid) (b : Z) (X : list pointed) (st : client) (v : vid) (r : cache_record) (ttl : Z)
    (x : mdns_cache_update_result_t * client) : Prop :=
  quiet st (snd x)
  /\ ((fst x = MDNS_CACHE_ERROR /\ ~ never_fails (c_heap st) /\ s_cache (snd x) = s_cache st
       /\ represents None xs b X (snd x))
      \/ (fst x = (if decide (cache_get (fst r) (abstracted X) = Some (snd r))
                   then MDNS_CACHE_NO_CHANGE else MDNS_CACHE_UPDATED)
          /\ is_Some (find_service v (s_cache (snd x)))
          /\ exists X', represents None None b X' (snd x)
             /\ abstracted X' = cache_put r (expiry_time (c_now st) ttl) (abstracted X))).

(** * PTR records *)

Lemma owns_alter_find l c e v s f : tree_ok l -> owns l c e v s -> find_service v (alter_service v f l) = Some (f s).
Proof. intros Hl Ho. by rewrite find_alter_service, (owns_find _ _ _ _ _ Hl Ho). Qed.

Lemma names_step l s s' : same_names s s' -> sc_subtype_list s' = sc_subtype_list s ->
  Forall txt_item_wf (sc_txt_list s') -> service_wf s -> base.NoDup (map fst (sc_subtype_list s)) ->
  service_step l s s'.
Proof.
  intros Hn Hs Ht [] Hnd. pose proof Hn as (Hi & Hsv & Hp). split; [done| |rewrite Hs; by apply renews_refl].
  split; congruence.
Qed.

Lemma update_base_ptr_spec xs b X st c e v s ttl : represents None xs b X st -> (xs = None \/ xs = Some v) ->
  owns (s_cache st) c e v s ->
  yields (update_base_ptr c v ttl st) (wrote xs b X st v (NamePtr (key_of_service e s), DataTtl ttl) ttl).
Proof.
  intros HX Hxs Ho. pose proof (r_tree _ _ _ _ _ HX) as Hl. unfold update_base_ptr.
  eapply w_get_service; [by eapply owns_find|]. destruct (ptr_slot c e v s ttl) as (rest & Hslot & Hnew).
  destruct (owns_wf _ _ _ _ _ Hl Ho) as (Hw & Hnd & _).
  eapply (w_node _ _ _ _ (ptr_records (key_of_service e s) c v s)); [unfold ptr_records; destruct (sc_ptr_present s); naive_solver|..].
  { intros h Hh Hf _. cbn [negb]. split; [by_quiet|]. left. split_and!; try done. by apply set_heap_same. }
  intros st2 Hready Hq Hc Hlive. cbn [negb]. rewrite (surjective_pairing (update_ttl _ _)), update_ttl_fst.
  eapply w_put_service; [rewrite Hc; by eapply owns_find|]. set (f := fun s => set_ptr_ttl (set_ptr_present s true) ttl) in *.
  eapply (w_write xs b X st _ c e v s f _ None _ _ rest ttl b); try done.
  - apply names_step; try done. apply Hw.
  - by apply quiet_set_cache.
  - cfields. by rewrite Hc.
  - cfields. cbn. rewrite Hc, (owns_alter_find _ _ _ _ _ _ Hl Ho). done.
  - cfields. rewrite Hc. destruct (service_focus _ _ _ _ _ Hl Ho) as (? & blocks & _ & Hb & Hf).
    destruct (Hf f) as (_ & -> & _). pose proof (r_heap _ _ _ _ _ HX).
    change (service_blocks (f s)) with (service_blocks s). lia.
  - intros st3 X' Hq3 Hc3 HX3 Habs. cfields. split; [done|]. right. cbn [fst snd].
    split_and!; [|rewrite Hc3, Hc, (owns_alter_find _ _ _ _ _ _ Hl Ho); by eexists|eauto].
    pose proof (slot_get _ _ _ _ _ _ _ _ _ _ _ _ _ HX Ho Hslot) as Hget. cbn [fst] in Hget. rewrite Hget.
    unfold ptr_records, update_ttl. destruct (sc_ptr_present s), (sc_ptr_ttl s =? ttl)%Z eqn:Et; cbn;
      case_decide as Hd; try done; exfalso; bsimp; [by subst|by injection Hd].
Qed.

(** ** Subtypes *)

Lemma perm_last_mid {A} (a b1 b2 : list A) x : a ++ b1 ++ x :: b2 ≡ₚ x :: a ++ b1 ++ b2.
Proof. by rewrite <- Permutation_middle, <- Permutation_middle. Qed.

Lemma subtype_slot c e v s t it it' : (t, it) ∈ sc_subtype_list s -> base.NoDup (map fst (sc_subtype_list s)) ->
  st_subtype it' = st_subtype it ->
  let r := (NameSubtype (key_of_service e s) (map tolower (st_subtype it)), DataTtl (st_ttl it')) in
  exists rest,
    slot c e v s (of_subtype c v t) r [subtype_record (key_of_service e s) c v (t, it)] rest
    /\ records_of_service c e (v, set_subtype_list s (alter_at t (fun _ => it') (sc_subtype_list s)))
       ≡ₚ (of_subtype c v t, r) :: rest.
Proof.
  intros (l1 & l2 & E)%list_elem_of_split Hnd Hit r. rewrite E in Hnd.
  set (k := key_of_service e s) in *.
  set (a := ptr_records k c v s ++ srv_records k (canon (ce_hostname e)) c v s ++ txt_records k c v s).
  assert (Hperm : forall x, records_of_service c e (v, set_subtype_list s (l1 ++ (t, x) :: l2))
    ≡ₚ subtype_record k c v (t, x) :: a ++ map (subtype_record k c v) l1 ++ map (subtype_record k c v) l2).
  { intros x. rewrite <- perm_last_mid. unfold a. rewrite <- !app_assoc.
    unfold records_of_service. cbn [fst snd sc_subtype_list set_subtype_list]. by rewrite map_app. }
  exists (a ++ map (subtype_record k c v) l1 ++ map (subtype_record k c v) l2). split.
  - split; [|done|done|left; eauto]. cbn [app]. rewrite <- (Hperm it), <- E. by destruct s.
  - rewrite E, alter_at_split by done. rewrite Hperm. unfold subtype_record. cbn [fst snd]. by rewrite Hit.
Qed.

Lemma new_subtype_slot c e v s t it : (t ∉ map fst (sc_subtype_list s)) ->
  (map tolower (st_subtype it) ∉ map (fun x => map tolower (st_subtype (snd x))) (sc_subtype_list s)) ->
  let r := (NameSubtype (key_of_service e s) (map tolower (st_subtype it)), DataTtl (st_ttl it)) in
  slot c e v s (of_subtype c v t) r [] (records_of_service c e (v, s))
  /\ records_of_service c e (v, set_subtype_list s ((t, it) :: sc_subtype_list s))
     ≡ₚ (of_subtype c v t, r) :: records_of_service c e (v, s).
Proof.
  intros Ht Hn r. split.
  - split; [done|done|done|]. right. split; [done|].
    intros p' r' [_ [(-> & _ & ->)|[(-> & _ & ->)|[(-> & _ & ->)|(t' & it' & -> & Hin & ->)]]]]%service_record_inv;
      try done. split; intros [= Heq].
    + apply Ht. rewrite <- Heq. exact (list_elem_of_fmap_2 fst _ _ Hin).
    + apply Hn. rewrite <- Heq. exact (list_elem_of_fmap_2 (fun x => map tolower (st_subtype (snd x))) _ _ Hin).
  - unfold records_of_service. cbn [fst snd set_subtype_list sc_subtype_list map].
    pose proof (perm_last_mid (ptr_records (key_of_service e s) c v s ++ srv_records (key_of_service e s) (canon (ce_hostname e)) c v s)
      (txt_records (key_of_service e s) c v s) (map (subtype_record (key_of_service e s) c v) (sc_subtype_list s))
      (of_subtype c v t, r)) as Hp. rewrite <- !app_assoc in Hp. exact Hp.
Qed.

Lemma find_subtype_Some (l : list (tid * mdns_cache_subtype_t)) (sub : option cstr) t it :
  List.find (fun x => mdns_utils_str_case_equal (Some (st_subtype (snd x))) sub) l = Some (t, it) ->
  (t, it) ∈ l /\ map tolower (st_subtype it) = canon sub.
Proof.
  intros [Hin Hm]%List.find_some. rewrite <- list_elem_of_In in Hin. by apply case_equal_canon in Hm as [? _].
Qed.

Lemma find_subtype_None (l : list (tid * mdns_cache_subtype_t)) (sub : option cstr) : canon sub <> [] ->
  List.find (fun x => mdns_utils_str_case_equal (Some (st_subtype (snd x))) sub) l = None ->
  canon sub ∉ map (fun x => map tolower (st_subtype (snd x))) l.
Proof.
  intros Hs Hf (x & Hk & Hx)%list_elem_of_fmap. pose proof (List.find_none _ _ Hf x) as Hm.
  rewrite <- list_elem_of_In in Hm. specialize (Hm Hx). apply not_true_iff_false in Hm.
  apply Hm, case_equal_canon. cbn [canon]. by rewrite <- Hk.
Qed.

(** The subtype records of a service change, its other contents stay. *)
Lemma subtypes_step l s x : service_wf s ->
  base.NoDup (map (fun t => map tolower (st_subtype (snd t))) x) ->
  renews (subtype_ids l) (map fst (sc_subtype_list s)) (map fst x) -> service_step l s (set_subtype_list s x).
Proof. intros [] Hn Hr. by split. Qed.

Lemma alter_names t it' (l : list (tid * mdns_cache_subtype_t)) :
  (forall it, (t, it) ∈ l -> st_subtype it' = st_subtype it) ->
  map (fun x => map tolower (st_subtype (snd x))) (alter_at t (fun _ => it') l)
  = map (fun x => map tolower (st_subtype (snd x))) l.
Proof.
  intros Hit. unfold alter_at. rewrite map_map. apply map_ext_in. intros [t' it] Hin%list_elem_of_In. cbn.
  case_decide; [|done]. subst t'. cbn. by rewrite (Hit it).
Qed.

(** A mark on a subtype is no change. *)
Lemma pending_neutral t s : neutral s (set_subtype_list s
  (alter_at t (fun it => mk_subtype (st_subtype it) (st_ttl it) true) (sc_subtype_list s))).
Proof.
  split; try done. cbn. unfold alter_at. rewrite map_map. apply map_ext. intros [t' it]. cbn. by case_decide.
Qed.

Lemma update_subtype_old xs b X st c e v s t it sub ttl : represents None xs b X st -> (xs = None \/ xs = Some v) ->
  owns (s_cache st) c e v s -> (t, it) ∈ sc_subtype_list s -> map tolower (st_subtype it) = canon sub ->
  let it' := mk_subtype (st_subtype it) ttl (st_pending_sync it) in
  forall A (k : unit -> C A) Q,
  (forall st3 X', quiet st st3 -> is_Some (find_service v (s_cache st3)) -> represents None None b X' st3 ->
     abstracted X' = cache_put (NameSubtype (key_of_service e s) (canon sub), DataTtl ttl)
                       (expiry_time (c_now st) ttl) (abstracted X) ->
     cache_get (NameSubtype (key_of_service e s) (canon sub)) (abstracted X) = Some (DataTtl (st_ttl it)) ->
     yields (k tt st3) Q) ->
  yields ((_ ← put_service v (fun s => set_subtype_list s (alter_at t (fun _ => it') (sc_subtype_list s)));
           u ← expiry_schedule MDNS_CACHE_RECORD_SUBTYPE c (Some v) None (Some (t, it')); k u) st) Q.
Proof.
  intros HX Hxs Ho Hin Hsub it' A k Q Hk. pose proof (r_tree _ _ _ _ _ HX) as Hl.
  destruct (owns_wf _ _ _ _ _ Hl Ho) as (Hw & Hnd & _).
  eapply w_put_service; [by eapply owns_find|]. set (f := fun s0 => set_subtype_list s0 _) in *.
  destruct (subtype_slot c e v s t it it' Hin Hnd eq_refl) as (rest & Hslot & Hnew).
  pose proof (slot_get _ _ _ _ _ _ _ _ _ _ _ _ _ HX Ho Hslot) as Hget. cbn [fst snd head] in Hget.
  eapply (w_write xs b X st _ c e v s f _ (Some (t, it')) _ _ rest ttl b); try done.
  - apply subtypes_step; [done| |rewrite alter_at_fst; by apply renews_refl].
    rewrite alter_names; [apply Hw|]. intros it0 Hin0. cbn. f_equal.
    assert (Heq : (t, it) = (t, it0)) by (by eapply (NoDup_map_inj fst)). by injection Heq as ->.
  - by left.
  - cfields. destruct (service_focus _ _ _ _ _ Hl Ho) as (? & blocks & _ & Hb & Hf).
    destruct (Hf f) as (_ & -> & _). pose proof (r_heap _ _ _ _ _ HX).
    unfold service_blocks, subtypes_blocks, alter_at in *. cbn [f set_subtype_list sc_subtype_list sc_instance_name sc_service sc_proto sc_txt_list].
    rewrite length_map. lia.
  - intros st3 X' Hq3 Hc3 HX3 Habs. cfields. apply (Hk st3 X'); try done.
    + rewrite Hc3, (owns_alter_find _ _ _ _ _ _ Hl Ho). by eexists.
    + by rewrite <- Hsub.
    + by rewrite <- Hsub, Hget.
Qed.

Lemma update_subtype_spec xs b X st c e v s sub ttl : represents None xs b X st -> (xs = None \/ xs = Some v) ->
  owns (s_cache st) c e v s -> canon sub <> [] ->
  yields (service_cache_update_subtype addr c v sub ttl st)
    (wrote xs b X st v (NameSubtype (key_of_service e s) (canon sub), DataTtl ttl) ttl).
Proof using addr_new.
  intros HX Hxs Ho Hsub. pose proof (r_tree _ _ _ _ _ HX) as Hl. unfold service_cache_update_subtype.
  destruct sub as [[|ch name]|]; try done. set (sub := Some (ch :: name)) in *.
  eapply w_get_service; [by eapply owns_find|]. destruct (owns_wf _ _ _ _ _ Hl Ho) as (Hw & Hnd & Hids).
  destruct (List.find _ _) as [[t it]|] eqn:Ef.
  - apply find_subtype_Some in Ef as [Hin Heq]. rewrite (surjective_pairing (update_ttl _ _)), update_ttl_fst.
    eapply update_subtype_old; [exact HX|done|exact Ho|exact Hin|exact Heq|].
    intros st3 X' Hq3 [s3 Hs3] HX3 Habs Hget. unfold update_ttl. destruct (st_ttl it =? ttl)%Z eqn:Et; cbn [snd negb].
    + split; [done|]. right. cbn [fst snd]. rewrite Hget, decide_True by (bsimp; by subst). eauto.
    + eapply w_put_service; [exact Hs3|]. split; [by apply quiet_set_cache|]. right. cbn [fst snd].
      rewrite Hget, decide_False by (intros [= ?]; bsimp; done). split_and!; [done| |].
      * cfields. rewrite find_alter_service, Hs3. by eexists.
      * exists X'. split; [|done]. apply represents_neutral; [done|by eexists|]. intros. apply pending_neutral.
  - apply find_subtype_None in Ef; [|done]. eapply st_alloc; [apply hfull_malloc|].
    intros [] h Hh Hn; cbn beta in Hh; cbn [negb]; cfields.
    2:{ split; [by_quiet|]. left. cbn [fst snd]. split_and!; [done|by intros [_ ?]%Hn|done|]. apply set_heap_same; [lia|done]. }
    eapply st_alloc; [apply hfull_malloc|]. intros [] h2 Hh2 Hn2; cbn beta in Hh2; cbn [negb]; cfields.
    2:{ eapply st_alloc; [apply hfull_mfree|]. intros [] h3 Hh3 Hn3. cbn beta in Hh3. cfields.
        split; [by_quiet|]. left. cbn [fst snd]. split_and!; [done|by intros [[_ ?]%Hn2 _]%Hn|done|].
        change (represents None xs b X (set_c_heap st h3)). apply set_heap_same; [lia|done]. }
    apply st_reads. cfields. set (t := addr _). assert (Ht : t ∉ subtype_ids (s_cache st)) by apply addr_new.
    eapply w_expiry_new; intros h3 Hh3 Hn3; cbn [negb]; cfields.
    { eapply st_alloc; [apply hfull_mfree|]. intros [] h4 Hh4 Hn4. cbn beta in Hh4. cfields.
      split; [by_quiet|]. left. cbn [fst snd].
      split_and!; [done|intros [[? _]%Hn2 _]%Hn; by apply Hn3|done|].
      change (represents None xs b X (set_c_heap st h4)). apply set_heap_same; [lia|done]. }
    destruct (new_subtype_slot c e v s t (mk_subtype (ch :: name) ttl true)) as [Hslot Hnew];
      [by intros ?%Hids|exact Ef|]. cbn [st_subtype st_ttl] in *.
    change (map tolower (ch :: name)) with (canon sub) in *.
    destruct (slot_rest _ _ _ _ _ _ _ _ _ _ _ _ _ HX Ho Hslot) as (recs & blocks & Hr & Hfresh & Hb & Hf).
    set (f := fun s0 => set_subtype_list s0 ((t, mk_subtype (ch :: name) ttl true) :: sc_subtype_list s0)).
    destruct (Hf f) as (Hb' & Hr' & Ht').
    eapply (w_schedule None xs b X st _ _ _ _ None (Some (t, mk_subtype (ch :: name) ttl false)) _ ttl [] recs); try done.
    { right. split; [done|by exists h3]. }
    intros st3 X' Hc3 Hq3 _ He3 Hh3' Hlen Habs Hrep. cbn [with_new_node] in *. cfields.
    assert (Hfs : find_service v (s_cache st3) = Some s) by (rewrite Hc3; by eapply owns_find).
    eapply w_put_service; [exact Hfs|]. split.
    { apply quiet_set_cache. etransitivity; [|exact Hq3]. by_quiet. }
    right. pose proof (slot_get _ _ _ _ _ _ _ _ _ _ _ _ _ HX Ho Hslot) as Hget. cbn [fst snd] in *.
    rewrite Hget. cbn [head fmap option_fmap option_map].
    rewrite decide_False by done. split_and!; [done| |].
    + cfields. rewrite find_alter_service, Hfs. by eexists.
    + exists X'. split; [|done]. fold f. rewrite Hc3. apply Hrep; cfields.
      * done.
      * apply Ht', subtypes_step; [done| |by apply renews_cons; [|done|intros ?%Hids]].
        cbn [map snd st_subtype]. apply NoDup_cons. split; [exact Ef|apply Hw].
      * eapply full_alter; [exact Hl|exact Ho|apply (r_full _ _ _ _ _ HX)|by left|done|].
        apply andb_false_r.
      * by apply Hr'.
      * rewrite Hb', Hh3', Hlen. pose proof (r_heap _ _ _ _ _ HX). cbn [length].
        unfold service_blocks, subtypes_blocks in *.
        cbn [f set_subtype_list sc_subtype_list sc_instance_name sc_service sc_proto sc_txt_list length]. lia.
Qed.

(** ** The operation *)

(** The result and the new state are those of [spec], or memory ran out, an error
    is reported and nothing is different. *)
Definition refines (st : client) (b : Z) (X : list pointed) (spec : mdns_cache_update_result_t * abstract_cache)
    (x : mdns_cache_update_result_t * client) : Prop :=
  quiet st (snd x) /\ exists X', represents None None b X' (snd x)
    /\ ((fst x, abstracted X') = spec
        \/ (fst x = MDNS_CACHE_ERROR /\ ~ never_fails (c_heap st) /\ abstracted X' = abstracted X)).

Lemma refines_same st b X : represents None None b X st ->
  refines st b X (MDNS_CACHE_NO_CHANGE, abstracted X) (MDNS_CACHE_NO_CHANGE, st).
Proof. intros HX. split; [done|]. exists X. split; [done|by left]. Qed.

Lemma found_known b X st n p i s pr : represents None None b X st -> named i s pr ->
  known (key_of_names n p i s pr) (abstracted X)
  = match cache_find_service (s_cache st) n p i s pr with Some _ => true | None => false end.
Proof.
  intros HX Hnm. pose proof (r_tree _ _ _ _ _ HX) as Hl.
  destruct (cache_find_service (s_cache st) n p i s pr) as [[[c v] sv]|] eqn:Ef.
  - apply (known_record _ _ _ _ _ HX). destruct (cache_find_Some _ _ _ _ _ _ _ _ _ Hl Ef) as (e & Ho & Hk).
    apply (owns_in _ _ _ _ _ Hl) in Ho. destruct (records_of_service c e (v, sv)) as [|[p' r'] rs] eqn:Er.
    + apply empty_records in Er. pose proof (r_full _ _ _ _ _ HX) as Hf. unfold tree_full in Hf.
      rewrite list.Forall_forall in Hf. destruct Ho as [Hc Hv]. destruct (Hf _ Hc) as [_ Hsv].
      rewrite list.Forall_forall in Hsv. specialize (Hsv _ Hv ltac:(done)). cbn in Hsv. congruence.
    + assert (Hin : (p', r') ∈ records_of_service c e (v, sv)) by (rewrite Er; left).
      exists p', r'. split; [by eapply service_record_in|]. rewrite <- Hk. by apply service_record_inv in Hin as [? _].
  - apply not_true_iff_false. rewrite (known_record _ _ _ _ _ HX). intros (p' & r' & Hin & Hk).
    apply (cache_find_None _ _ _ _ _ _ Ef Hnm).
    apply cache_record_inv in Hin as [(c & e & a & x & _ & _ & [= _ ->])|(c & e & v & sv & [Hc Hv] & Hr)]; [done|].
    apply service_record_inv in Hr as [Hk' _]. rewrite Hk in Hk'.
    assert (Hkk : key_of_names n p i s pr = key_of_service e sv) by congruence. rewrite Hkk.
    apply elem_of_flat_map. exists (c, e). split; [done|].
    exact (list_elem_of_fmap_2 (fun y => key_of_service e (snd y)) _ _ Hv).
Qed.

Lemma goodbye_write b X st c e v s rt f r old rest : represents None None b X st -> owns (s_cache st) c e v s ->
  slot c e v s (of_service rt c v) r old rest -> old <> [] -> records_of_service c e (v, f s) ≡ₚ (of_service rt c v, r) :: rest ->
  service_step (s_cache st) s (f s) -> service_blocks (f s) = service_blocks s ->
  pointers_wf (of_service rt c v) ->
  (forall st2, find_service v (s_cache st2) = Some (f s) -> ttl_of st2 rt (Some v) None None = Some 0%Z) ->
  yields ((_ ← put_service v f; _ ← expiry_schedule rt c (Some v) None None; mret MDNS_CACHE_UPDATED) st)
    (refines st b X (MDNS_CACHE_UPDATED, cache_put r 0 (abstracted X))).
Proof.
  intros HX Ho Hslot Hold Hnew Hstep Hbl Hp Httl. pose proof (r_tree _ _ _ _ _ HX) as Hl.
  eapply w_put_service; [by eapply owns_find|].
  eapply (w_write None b X st _ c e v s f rt None r old rest 0 b); try done.
  - by left.
  - by left.
  - apply Httl. cfields. by eapply owns_alter_find.
  - cfields. destruct (service_focus _ _ _ _ _ Hl Ho) as (? & blocks & _ & Hb & Hf).
    destruct (Hf f) as (_ & -> & _). pose proof (r_heap _ _ _ _ _ HX). lia.
  - intros st3 X' Hq3 Hc3 HX3 Habs. split; [done|]. exists X'. split; [done|]. left. cbn. by rewrite Habs.
Qed.

Lemma ptr_present_same s : sc_ptr_present s = true -> set_ptr_ttl s 0 = set_ptr_ttl (set_ptr_present s true) 0.
Proof. by destruct s; cbn; intros ->. Qed.

Lemma named_iff i s p : mdns_utils_str_null_or_empty i || mdns_utils_str_null_or_empty s
  || mdns_utils_str_null_or_empty p = false <-> named i s p.
Proof.
  rewrite !orb_false_iff, <- !not_true_iff_false, <- !canon_empty. unfold named. tauto.
Qed.

(** The end of an update: what was taken for a record that could not be written is
    given back, otherwise the service is marked. *)
Lemma finish_spec b X st st0 c e v s xs r ttl (new : bool) bits cons :
  represents None xs b X st -> (xs = None \/ xs = Some v) -> owns (s_cache st) c e v s ->
  service_of_name (fst r) = Some (key_of_service e s) ->
  (new = true <-> known (key_of_service e s) (abstracted X) = false) -> quiet st0 st ->
  forall res st', wrote xs b X st v r ttl (res, st') ->
  yields ((if decide (res = MDNS_CACHE_ERROR) then
             _ ← cache_remove_service_if_empty c v; mret MDNS_CACHE_ERROR
           else
             let result := if new then MDNS_CACHE_ADDED else res in
             _ ← service_cache_mark_sync_out (Some v) result bits cons; mret result) st')
    (refines st0 b X (abstract_refresh (key_of_service e s) (fst r) (snd r) (expiry_time (c_now st0) ttl) (abstracted X))).
Proof.
  intros HX Hxs Ho Hr Hnew Hq0 res st' (Hq & H). cbn [fst snd] in *.
  destruct H as [(-> & Hf & Hc & HX')|(-> & Hfs & X' & HX' & Habs)].
  - rewrite decide_True by done. eapply st_seq.
    { eapply (remove_service_spec None xs); [exact HX'|by left|done|rewrite Hc; exact Ho]. }
    intros [] st2 (Hq2 & _ & HX2). split; [etransitivity; [exact Hq0|]; by etransitivity|].
    exists X. split; [done|]. right. cbn. split_and!; [done| |done]. intros Hn. by apply Hf, (q_never _ _ Hq0).
  - rewrite decide_False by (by case_decide). cbn zeta. eapply st_seq; [by apply mark_spec|].
    intros [] st2 (Hq2 & _ & HX2 & _). split; [etransitivity; [exact Hq0|]; by etransitivity|].
    exists X'. split; [done|]. left. cbn. unfold abstract_refresh. rewrite Habs, (q_now _ _ Hq0). destruct r as [n d]. cbn [fst snd].
    f_equal. destruct new, (known _ _); intuition done.
Qed.

Lemma get_known n k d A : service_of_name n = Some k -> cache_get n A = Some d -> known k A = true.
Proof.
  intros Hk. unfold cache_get. destruct (List.find (fun x => bool_decide (name_is n x)) A) as [x|] eqn:Ef; [|done].
  intros _. apply List.find_some in Ef as [Hin Hn]. apply bool_decide_eq_true in Hn. apply known_iff.
  exists x. split; [by apply list_elem_of_In|]. by rewrite Hn.
Qed.

Lemma get_unknown n k A : service_of_name n = Some k -> known k A = false -> cache_get n A = None.
Proof.
  intros Hk Hn. destruct (cache_get n A) as [d|] eqn:E; [|done]. apply (get_known n k) in E; [|done]. congruence.
Qed.

Lemma get_service_record xe xs b X st c e v s n d : represents xe xs b X st -> owns (s_cache st) c e v s ->
  service_of_name n = Some (key_of_service e s) -> cache_get n (abstracted X) = Some d ->
  exists p, (p, (n, d)) ∈ records_of_service c e (v, s).
Proof.
  intros HX Ho Hn [p Hp]%(get_record _ _ _ _ _ HX). exists p. pose proof (r_tree _ _ _ _ _ HX) as Hl.
  eapply record_by_name; [done|by apply owns_in|done|done].
Qed.

Lemma ptr_goodbye b X st c e v s : represents None None b X st -> owns (s_cache st) c e v s ->
  yields ((if negb (sc_ptr_present s) then mret MDNS_CACHE_NO_CHANGE
           else
             _ ← put_service v (fun s => set_ptr_ttl s 0);
             _ ← expiry_schedule MDNS_CACHE_RECORD_PTR c (Some v) None None;
             mret MDNS_CACHE_UPDATED) st)
    (refines st b X (abstract_goodbye (NamePtr (key_of_service e s)) (abstracted X))).
Proof.
  intros HX Ho. pose proof (r_tree _ _ _ _ _ HX) as Hl. destruct (ptr_slot c e v s 0) as (rest & Hslot & Hnew).
  pose proof (slot_get _ _ _ _ _ _ _ _ _ _ _ _ _ HX Ho Hslot) as Hget. cbn [fst] in Hget.
  unfold abstract_goodbye. rewrite Hget. unfold ptr_records in *. destruct (sc_ptr_present s) eqn:E; cbn [negb].
  - destruct (owns_wf _ _ _ _ _ Hl Ho) as (Hw & Hnd & _).
    eapply goodbye_write; try done; cbn beta.
    + by rewrite ptr_present_same.
    + apply names_step; try done. apply Hw.
    + intros st2 Hf. cbn. by rewrite Hf.
  - by apply refines_same.
Qed.

Lemma subtype_goodbye b X st c e v s sub : represents None None b X st -> owns (s_cache st) c e v s ->
  canon sub <> [] ->
  yields (match service_cache_find_subtype s sub with
          | None => mret MDNS_CACHE_NO_CHANGE
          | Some (t, it) =>
              let it := mk_subtype (st_subtype it) 0 (st_pending_sync it) in
              _ ← put_service v (fun s => set_subtype_list s (alter_at t (fun _ => it) (sc_subtype_list s)));
              _ ← expiry_schedule MDNS_CACHE_RECORD_SUBTYPE c (Some v) None (Some (t, it));
              mret MDNS_CACHE_UPDATED
          end st)
    (refines st b X (abstract_goodbye (NameSubtype (key_of_service e s) (canon sub)) (abstracted X))).
Proof.
  intros HX Ho Hsub. unfold service_cache_find_subtype, abstract_goodbye.
  destruct (mdns_utils_str_null_or_empty sub) eqn:Es; [by apply canon_empty in Es|].
  destruct (List.find _ _) as [[t it]|] eqn:Ef.
  - apply find_subtype_Some in Ef as [Hin Heq].
    eapply update_subtype_old; [exact HX|by left|exact Ho|exact Hin|exact Heq|].
    intros st3 X' Hq3 _ HX3 Habs ->. split; [done|]. exists X'. split; [done|]. left. cbn. by rewrite Habs.
  - apply find_subtype_None in Ef; [|done].
    destruct (cache_get _ _) as [d|] eqn:Eg; [|by apply refines_same]. exfalso.
    destruct (get_service_record _ _ _ _ _ _ _ _ _ (NameSubtype _ _) d HX Ho eq_refl Eg) as [p Hp].
    apply service_record_inv in Hp as [_ [(_ & _ & ?)|[(_ & _ & ?)|[(_ & _ & ?)|(t & it & _ & Hin & [= Hn _])]]]]; try done.
    apply Ef. rewrite Hn. exact (list_elem_of_fmap_2 (fun x => map tolower (st_subtype (snd x))) _ _ Hin).
Qed.

Lemma cache_update_ptr_spec b X st esp_netif ip_protocol instance service proto subtype ttl :
  represents None None b X st ->
  yields (mdns_priv_cache_update_ptr addr esp_netif ip_protocol instance service proto subtype ttl st)
    (refines st b X (abstract_update_ptr (c_now st) esp_netif ip_protocol instance service proto subtype ttl
                       (abstracted X))).
Proof using addr_new.
  intros HX. unfold mdns_priv_cache_update_ptr, abstract_update_ptr, abstract_record.
  destruct (_ || mdns_utils_str_null_or_empty proto) eqn:En; [by apply refines_same|].
  apply named_iff in En. apply st_reads. cbn zeta. pose proof (r_tree _ _ _ _ _ HX) as Hl.
  pose proof (found_known b X st esp_netif ip_protocol _ _ _ HX En) as Hk.
  pose proof (obtain_service_spec 0 (mret tt) b X st esp_netif ip_protocol _ _ _ frees_nothing HX En) as Hobtain.
  destruct (ttl =? 0)%Z eqn:Et.
  - destruct (cache_find_service _ _ _ _ _ _) as [[[c v] s]|] eqn:Ef.
    + destruct (cache_find_Some _ _ _ _ _ _ _ _ _ Hl Ef) as (e & Ho & <-).
      destruct (mdns_utils_str_null_or_empty subtype) eqn:Es; [by apply ptr_goodbye|].
      apply subtype_goodbye; [done|done|]. rewrite canon_empty. congruence.
    + unfold abstract_goodbye. erewrite get_unknown; [by apply refines_same| |exact Hk].
      by destruct (mdns_utils_str_null_or_empty subtype).
  - eapply st_seq; [exact Hobtain|]. clear Hobtain. intros o st1; cbn beta iota. intros (Hq1 & _ & H1).
    destruct o as [[[c v] new]|].
    2:{ destruct H1 as [HX1 Hf]. rewrite Z.sub_0_r in HX1. split; [done|]. exists X. split; [done|by right]. }
    destruct H1 as (xs & e & s & HX1 & Hxs & Ho & Hkey & Hnew & Hold).
    assert (Hfin : forall r bits, service_of_name (fst r) = Some (key_of_service e s) ->
      forall m, yields (m st1) (wrote xs b X st1 v r ttl) ->
      yields ((result ← m;
               if decide (result = MDNS_CACHE_ERROR) then
                 _ ← cache_remove_service_if_empty c v; mret MDNS_CACHE_ERROR
               else
                 let result := if new then MDNS_CACHE_ADDED else result in
                 _ ← service_cache_mark_sync_out (Some v) result bits MDNS_CACHE_CONSUMER_BROWSE; mret result) st1)
        (refines st b X (abstract_refresh (key_of_service e s) (fst r) (snd r) (expiry_time (c_now st) ttl) (abstracted X)))).
    { intros r bits Hr m Hm. eapply st_seq; [exact Hm|]. intros res st2 Hw.
      eapply (finish_spec b X st1 st c e v s xs r ttl new bits _ HX1 Hxs Ho Hr); [|done|exact Hw].
      rewrite Hkey, Hk. destruct new; [by destruct (Hnew eq_refl) as [_ ->]|by rewrite Hold]. }
    rewrite <- Hkey. replace (calc_expiration_time_us (c_now st) ttl) with (expiry_time (c_now st) ttl)
      by (unfold expiry_time; by rewrite Et).
    destruct (mdns_utils_str_null_or_empty subtype) eqn:Es.
    + apply (Hfin (_, DataTtl ttl)); [done|]. by apply update_base_ptr_spec.
    + apply (Hfin (_, DataTtl ttl)); [done|]. apply update_subtype_spec; try done. rewrite canon_empty. congruence.
Qed.

End Updates.
