(* ===== verification/CacheTxt.v ===== *)
(** TXT records in the cache: when two lists of items are the same, and
    [mdns_priv_cache_update_txt] against the abstract cache. *)
From S2P Require Import Prelude Names Server Heap Txt State Cache CacheTree CacheExpiry CacheRefine CacheOps CacheUpdate.
From Stdlib Require Import Sorting.

(** * Comparing items *)

Definition txt_item_same (a b : mdns_txt_linked_item_t) : bool :=
  mdns_utils_str_case_equal (key a) (key b) && (value_len a =? value_len b)%Z
  && match value a, value b with
     | None, None => true
     | Some x, Some y => bool_decide (take (Z.to_nat (value_len a)) x = take (Z.to_nat (value_len a)) y)
     | _, _ => false
     end.

(** As many items, and those of [a] are among those of [b]. *)
Definition txt_same (a b : list mdns_txt_linked_item_t) : bool :=
  (length a =? length b) && forallb (fun it => existsb (fun x => txt_item_same x it) b) a.

Lemma txt_item_equal_same a b : txt_item_wf a -> txt_item_wf b -> txt_item_equal a b = Ret (txt_item_same a b).
Proof.
  intros (_ & Ha & Hva) (_ & Hb & Hvb). unfold txt_item_equal, txt_item_same.
  destruct (mdns_utils_str_case_equal (key a) (key b)); cbn [negb andb]; [|done].
  destruct (value_len a =? value_len b)%Z eqn:E; cbn [negb andb]; [|done]. apply Z.eqb_eq in E.
  destruct (value a) as [x|], (value b) as [y|]; try done.
  rewrite !rd_bytes_ok by lia. cbn. by rewrite !drop_0.
Qed.

Lemma txt_list_contains_same l it : Forall txt_item_wf l -> txt_item_wf it ->
  txt_list_contains l it = Ret (existsb (fun x => txt_item_same x it) l).
Proof.
  intros Hl Hit. induction Hl as [|x l Hx _ IH]; cbn [txt_list_contains existsb]; [done|].
  rewrite txt_item_equal_same by done. cbn. by destruct (txt_item_same x it).
Qed.

Lemma txt_list_equal_same a b : Forall txt_item_wf a -> Forall txt_item_wf b ->
  txt_list_equal a b = Ret (txt_same a b).
Proof.
  intros Ha Hb. unfold txt_list_equal, txt_same. destruct (length a =? length b); cbn [negb andb]; [|done].
  induction Ha as [|x a Hx _ IH]; cbn [txt_list_all_in forallb]; [done|].
  rewrite txt_list_contains_same by done. cbn. by destruct (existsb _ b).
Qed.

(** * The operation *)

Definition abstract_update_txt (now : Z) (esp_netif : netif) (ip_protocol : mdns_ip_protocol_t)
    (instance service proto : option cstr) (txt : list mdns_txt_linked_item_t) (ttl : Z) (A : abstract_cache)
    : mdns_cache_update_result_t * abstract_cache :=
  let k := key_of_names esp_netif ip_protocol instance service proto in
  let t := calc_expiration_time_us now ttl in
  if (ttl =? 0)%Z then abstract_goodbye (NameTxt k) A
  else
    match cache_get (NameTxt k) A with
    | Some (DataTxt old old_ttl) =>
        if txt_same old txt && (old_ttl =? ttl)%Z
        then (MDNS_CACHE_NO_CHANGE, cache_put (NameTxt k, DataTxt old ttl) t A)
        else (MDNS_CACHE_UPDATED, cache_put (NameTxt k, DataTxt txt ttl) t A)
    | _ => (if known k A then MDNS_CACHE_UPDATED else MDNS_CACHE_ADDED,
            cache_put (NameTxt k, DataTxt txt ttl) t A)
    end.

Section UpdateTxt.
Context (addr : list positive -> positive).
Hypothesis addr_new : forall l, addr l ∉ l.

Lemma txt_present_same s : sc_txt_present s = true ->
  set_txt_ttl s 0 = set_txt_list (set_txt_ttl (set_txt_present s true) 0) (sc_txt_list s).
Proof. by destruct s; cbn; intros ->. Qed.

Lemma txt_goodbye b X st c e v s : represents None None b X st -> owns (s_cache st) c e v s ->
  yields ((if negb (sc_txt_present s) then mret MDNS_CACHE_NO_CHANGE
           else
             _ ← put_service v (fun s => set_txt_ttl s 0);
             _ ← expiry_schedule MDNS_CACHE_RECORD_TXT c (Some v) None None;
             mret MDNS_CACHE_UPDATED) st)
    (refines st b X (abstract_goodbye (NameTxt (key_of_service e s)) (abstracted X))).
Proof.
  intros HX Ho. pose proof (r_tree _ _ _ _ _ HX) as Hl.
  destruct (txt_slot c e v s (sc_txt_list s) 0) as (rest & Hslot & Hnew).
  pose proof (slot_get _ _ _ _ _ _ _ _ _ _ _ _ _ HX Ho Hslot) as Hget. cbn [fst] in Hget.
  unfold abstract_goodbye. rewrite Hget. unfold txt_records in *. destruct (sc_txt_present s) eqn:E; cbn [negb].
  - destruct (owns_wf _ _ _ _ _ Hl Ho) as (Hw & Hnd & _).
    eapply goodbye_write; try done; cbn beta.
    + by rewrite txt_present_same.
    + apply names_step; try done. apply Hw.
    + intros st2 Hf. cbn. by rewrite Hf.
  - by apply refines_same.
Qed.

(** The list is taken over or freed; either way the service owns one list. *)
Lemma txt_update_spec xs b X st st2 c e v s txt ttl : represents None xs (b + list_blocks txt) X st ->
  (xs = None \/ xs = Some v) -> owns (s_cache st) c e v s -> Forall txt_item_wf txt ->
  node_ready (of_service MDNS_CACHE_RECORD_TXT c v) st st2 (txt_records (key_of_service e s) c v s) ->
  quiet st st2 -> s_cache st2 = s_cache st ->
  (live (c_heap st2) - Z.of_nat (length (s_expiry st2)) = live (c_heap st) - Z.of_nat (length (s_expiry st)))%Z ->
  yields ((result ← service_cache_txt_update v txt ttl;
           _ ← expiry_schedule MDNS_CACHE_RECORD_TXT c (Some v) None None; mret result) st2)
    (fun '(res, st') => quiet st st' /\ is_Some (find_service v (s_cache st')) /\ exists X', represents None None b X' st'
      /\ let keep := sc_txt_present s && txt_same (sc_txt_list s) txt && (sc_txt_ttl s =? ttl)%Z in
         res = (if keep then MDNS_CACHE_NO_CHANGE else MDNS_CACHE_UPDATED)
         /\ abstracted X' = cache_put (NameTxt (key_of_service e s), DataTxt (if keep then sc_txt_list s else txt) ttl)
                              (expiry_time (c_now st) ttl) (abstracted X)).
Proof.
  intros HX Hxs Ho Hwf Hready Hq Hc Hlive. pose proof (r_tree _ _ _ _ _ HX) as Hl.
  destruct (owns_wf _ _ _ _ _ Hl Ho) as (Hw & Hnd & _). unfold service_cache_txt_update.
  pose proof (owns_find _ _ _ _ _ Hl Ho) as Hfs. rewrite <- Hc in Hfs.
  apply st_assoc. eapply w_get_service; [exact Hfs|]. apply st_assoc. eapply st_asks.
  { apply txt_list_equal_same; [apply Hw|done]. }
  destruct (service_focus _ _ _ _ _ Hl Ho) as (? & blocks & _ & Hb & Hf). pose proof (r_heap _ _ _ _ _ HX) as Hheap.
  rewrite (andb_comm (txt_same _ _)). unfold update_ttl.
  replace (negb (snd (if (sc_txt_ttl s =? ttl)%Z then _ else _))) with (sc_txt_ttl s =? ttl)%Z
    by (by destruct (sc_txt_ttl s =? ttl)%Z).
  destruct (sc_txt_present s && txt_same (sc_txt_list s) txt && (sc_txt_ttl s =? ttl)%Z) eqn:Ek.
  - rewrite !andb_true_iff, Z.eqb_eq in Ek. destruct Ek as [[Hp _] Ht].
    destruct (txt_slot c e v s (sc_txt_list s) ttl) as (rest & Hslot & Hnew).
    apply st_assoc. eapply st_alloc; [apply hfull_mfree|]. intros [] h Hh Hn. cbn beta in Hh. cfields. apply st_ret.
    eapply (w_write xs _ X st _ c e v s (fun s => s) _ None _ _ rest ttl b); try done; cfields.
    + rewrite <- Hnew. by destruct s; cbn in Hp, Ht |- *; subst.
    + apply names_step; try done. apply Hw.
    + etransitivity; [exact Hq|by_quiet].
    + by rewrite alter_service_id.
    + cbn. rewrite Hfs. cbn. by rewrite Ht.
    + rewrite Hc. lia.
    + intros st3 X' Hq3 Hc3 HX3 Habs. split_and!; [done|rewrite Hc3, Hfs; by eexists|]. exists X'. by split_and!.
  - destruct (txt_slot c e v s txt ttl) as (rest & Hslot & Hnew).
    apply st_assoc. eapply w_put_service; [exact Hfs|]. set (f := fun s0 => set_txt_list _ txt) in *.
    apply st_assoc. eapply st_alloc; [apply hfull_mfree|]. intros [] h Hh Hn. cbn beta in Hh. cfields. apply st_ret.
    eapply (w_write xs _ X st _ c e v s f _ None _ _ rest ttl b); try done; cfields.
    + by apply names_step.
    + etransitivity; [exact Hq|by_quiet].
    + by rewrite Hc.
    + cbn. rewrite Hc. by rewrite (owns_alter_find _ _ _ _ _ _ Hl Ho).
    + rewrite Hc. destruct (Hf f) as (_ & -> & _).
      assert (service_blocks (f s) = service_blocks s - list_blocks (sc_txt_list s) + list_blocks txt)%Z
        by (unfold service_blocks, f; cbn [sc_txt_list set_txt_list sc_instance_name sc_service sc_proto sc_subtype_list
              set_txt_ttl set_txt_present]; lia).
      lia.
    + intros st3 X' Hq3 Hc3 HX3 Habs. split_and!; [done| |exists X'; by split_and!].
      rewrite Hc3, Hc, (owns_alter_find _ _ _ _ _ _ Hl Ho). by eexists.
Qed.

Lemma cache_update_txt_spec b X st esp_netif ip_protocol instance service proto txt ttl :
  represents None None (b + list_blocks txt) X st -> named instance service proto -> Forall txt_item_wf txt ->
  yields (mdns_priv_cache_update_txt addr esp_netif ip_protocol instance service proto txt ttl st)
    (refines st b X (abstract_update_txt (c_now st) esp_netif ip_protocol instance service proto txt ttl
                       (abstracted X))).
Proof using addr_new.
  intros HX Hnm Hwf. unfold mdns_priv_cache_update_txt, abstract_update_txt.
  apply st_reads. cbn zeta. pose proof (r_tree _ _ _ _ _ HX) as Hl.
  pose proof (found_known _ X st esp_netif ip_protocol _ _ _ HX Hnm) as Hk.
  pose proof (obtain_service_spec addr addr_new _ _ _ X st esp_netif ip_protocol _ _ _ (frees_txt txt) HX Hnm) as Hobtain.
  destruct (ttl =? 0)%Z eqn:Et.
  - eapply st_alloc; [apply hfull_mfree|]. intros [] h Hh Hn. cbn beta in Hh. cfields.
    assert (HX' : represents None None b X (set_c_heap st h)).
    { destruct HX. split; try done. cfields. lia. }
    assert (Hback : forall x spec, refines (set_c_heap st h) b X spec x -> refines st b X spec x).
    { intros x spec [Hq (X' & HX2 & Hs)]. split; [etransitivity; [|exact Hq]; by_quiet|]. exists X'. split; [done|].
      destruct Hs as [?|(? & Hf & ?)]; [by left|right]. split_and!; [done| |done]. intros Hn0. by apply Hf, Hn. }
    destruct (cache_find_service _ _ _ _ _ _) as [[[c v] s]|] eqn:Ef.
    + destruct (cache_find_Some _ _ _ _ _ _ _ _ _ Hl Ef) as (e & Ho & <-).
      eapply yields_mono; [by apply (txt_goodbye b X (set_c_heap st h))|]. intros x. apply Hback.
    + unfold abstract_goodbye. erewrite get_unknown; [|done|exact Hk]. by apply Hback, refines_same.
  - eapply st_seq; [exact Hobtain|]. clear Hobtain. intros o st1; cbn beta iota. intros (Hq1 & _ & H1).
    destruct o as [[[c v] new]|].
    2:{ destruct H1 as [HX1 Hf]. replace (b + list_blocks txt - list_blocks txt)%Z with b in HX1 by lia.
        split; [done|]. exists X. split; [done|by right]. }
    destruct H1 as (xs & e & s & HX1 & Hxs & Ho & Hkey & Hnew & Hold). rewrite <- Hkey in *.
    destruct (txt_slot c e v s txt ttl) as (rest & Hslot & _).
    pose proof (slot_get _ _ _ _ _ _ _ _ _ _ _ _ _ HX1 Ho Hslot) as Hget. cbn [fst] in Hget. clear rest Hslot.
    pose proof (r_tree _ _ _ _ _ HX1) as Hl1.
    eapply w_get_service; [by eapply owns_find|].
    eapply (w_node _ _ _ _ (txt_records (key_of_service e s) c v s));
      [unfold txt_records; destruct (sc_txt_present s); naive_solver|..].
    { intros h Hh Hf _. cbn [negb]. eapply st_seq.
      { eapply (remove_service_spec None xs); [by eapply set_heap_same|by left|done|exact Ho]. }
      intros [] st2 (Hq2 & _ & HX2). eapply st_alloc; [apply hfull_mfree|]. intros [] h2 Hh2 Hn2. cbn beta in Hh2. cfields.
      split; [etransitivity; [exact Hq1|]; etransitivity; [|etransitivity; [exact Hq2|]]; by_quiet|].
      exists X. split; [destruct HX2; split; try done; cfields; lia|]. right. cbn.
      split_and!; [done| |done]. intros Hn0. by apply Hf, (q_never _ _ Hq1). }
    intros st2 Hready Hq2 Hc2 Hlive. cbn [negb].
    eapply st_seq2; [by eapply txt_update_spec|]. intros res st3 (Hq3 & Hfs & X' & HX3 & -> & Habs).
    cbn zeta. eapply st_seq; [by apply mark_spec|]. intros [] st4 (Hq4 & _ & HX4 & _).
    split; [etransitivity; [exact Hq1|]; by etransitivity|]. exists X'. split; [done|]. left. cbn [fst snd].
    rewrite Habs, Hget. unfold txt_records, expiry_time. rewrite (q_now _ _ Hq1), Et.
    assert (Hn : new = negb (known (key_of_service e s) (abstracted X))).
    { rewrite Hk. destruct new; [by destruct (Hnew eq_refl) as [_ ->]|by rewrite Hold]. }
    destruct (sc_txt_present s) eqn:Ep; cbn [andb head fmap option_fmap option_map snd].
    + assert (new = false) as ->.
      { destruct new; [|done]. destruct (Hnew eq_refl) as [-> _]. done. }
      by destruct (txt_same _ _ && _).
    + rewrite Hn. by destruct (known _ _).
Qed.

End UpdateTxt.
