(* ===== verification/CacheAddr.v ===== *)
(** Addresses in the cache: [cache_update_addr] against the abstract cache. *)
From S2P Require Import Prelude Names Server Heap Txt State Cache CacheTree CacheExpiry CacheRefine CacheOps CacheUpdate.
From Stdlib Require Import Sorting.

Definition abstract_update_addr (now : Z) (esp_netif : netif) (ip_protocol : mdns_ip_protocol_t)
    (hostname : option cstr) (ip : esp_ip_addr_t) (ttl : Z) (A : abstract_cache)
    : mdns_cache_update_result_t * abstract_cache :=
  let n := NameAddr (canon hostname, esp_netif, ip_protocol) ip in
  if (ttl =? 0)%Z then abstract_goodbye n A
  else
    (if decide (cache_get n A = Some (DataTtl ttl)) then MDNS_CACHE_NO_CHANGE else MDNS_CACHE_UPDATED,
     cache_put (n, DataTtl ttl) (calc_expiration_time_us now ttl) A).

(** * The addresses of an entry *)

Lemma addr_equal_iff a b : addr_equal a b = true <-> a = b.
Proof.
  destruct a as [x|x], b as [y|y]; cbn; rewrite ?bool_decide_eq_true, ?Z.eqb_eq; split; congruence.
Qed.

Definition addr_find (ip : esp_ip_addr_t) (e : mdns_cache_entry_t) : option (aid * mdns_cache_addr_t) :=
  List.find (fun x => addr_equal (ca_addr (snd x)) ip) (ce_addr_list e).

Lemma addr_find_Some ip e a it : addr_find ip e = Some (a, it) -> (a, it) ∈ ce_addr_list e /\ ca_addr it = ip.
Proof. intros [Hin Hm]%List.find_some. rewrite <- list_elem_of_In in Hin. by apply addr_equal_iff in Hm. Qed.

Lemma addr_find_None ip e a it : addr_find ip e = None -> (a, it) ∈ ce_addr_list e -> ca_addr it <> ip.
Proof.
  intros Hf Hin Heq. pose proof (List.find_none _ _ Hf (a, it)) as Hm. rewrite <- list_elem_of_In in Hm.
  specialize (Hm Hin). cbn [snd] in Hm. apply not_true_iff_false in Hm. by apply Hm, addr_equal_iff.
Qed.

Section Get.
Context (xe : option cid) (xs : option vid) (b : Z) (X : list pointed) (st : client).
Hypothesis HX : represents xe xs b X st.

Lemma get_addr h ip d : cache_get (NameAddr h ip) (abstracted X) = Some d ->
  exists c e a it, (c, e) ∈ s_cache st /\ key_of_entry e = h /\ (a, it) ∈ ce_addr_list e /\ ca_addr it = ip
    /\ d = DataTtl (ca_ttl it).
Proof using HX.
  intros [p Hp]%(get_record _ _ _ _ _ HX).
  apply cache_record_inv in Hp as [(c & e & a & it & Hc & Ha & Heq)|(c & e & v & s & _ & Hr)].
  - unfold addr_record in Heq. cbn [fst snd] in Heq. exists c, e, a, it.
    split_and!; try done; congruence.
  - apply service_record_inv in Hr as [Hn _]. done.
Qed.

Lemma get_addr_entry c e ip : assoc c (s_cache st) = Some e ->
  cache_get (NameAddr (key_of_entry e) ip) (abstracted X) = (fun x => DataTtl (ca_ttl (snd x))) <$> addr_find ip e.
Proof using HX.
  intros Hc. pose proof (r_tree _ _ _ _ _ HX) as Hl.
  assert (Hin : (c, e) ∈ s_cache st) by (by apply assoc_elem_of; [apply (t_entries _ Hl)|]).
  destruct (addr_find ip e) as [[a it]|] eqn:Ef; cbn.
  - apply addr_find_Some in Ef as [Ha <-]. apply (get_record _ _ _ _ _ HX). exists (of_addr c a).
    exact (addr_record_in _ _ _ _ Hin Ha).
  - destruct (cache_get _ _) as [d|] eqn:Eg; [|done]. exfalso.
    apply get_addr in Eg as (c' & e' & a & it & Hc' & Hk & Ha & Hip & _).
    destruct (entry_host_key _ _ _ _ _ Hl Hc' Hin Hk) as [-> ->]. by apply (addr_find_None _ _ _ _ Ef Ha).
Qed.

Lemma get_addr_none hn n p ip : cache_find_entry (s_cache st) hn n p = None ->
  cache_get (NameAddr (canon hn, n, p) ip) (abstracted X) = None.
Proof using HX.
  intros Hf%find_entry_None. destruct (cache_get _ _) as [d|] eqn:Eg; [|done]. exfalso.
  apply get_addr in Eg as (c & e & a & it & Hc & Hk & _). apply Hf. rewrite <- Hk.
  exact (list_elem_of_fmap_2 (fun x => key_of_entry (snd x)) _ _ Hc).
Qed.

End Get.

(** * Writing an address *)

Lemma addr_split c e a it it' : (a, it) ∈ ce_addr_list e -> base.NoDup (map fst (ce_addr_list e)) ->
  exists rest, records_of_entry (c, e) ≡ₚ addr_record c e (a, it) :: rest
    /\ records_of_entry (c, set_addr_list e (alter_at a (fun _ => it') (ce_addr_list e)))
       ≡ₚ addr_record c e (a, it') :: rest.
Proof.
  intros (l1 & l2 & E)%list_elem_of_split Hnd. rewrite E in Hnd.
  exists (map (addr_record c e) l1 ++ map (addr_record c e) l2
     ++ flat_map (records_of_service c e) (ce_service_cache_list e)).
  assert (Hperm : forall x, records_of_entry (c, set_addr_list e (l1 ++ (a, x) :: l2))
    ≡ₚ addr_record c e (a, x) :: map (addr_record c e) l1 ++ map (addr_record c e) l2
       ++ flat_map (records_of_service c e) (ce_service_cache_list e)).
  { intros x. unfold records_of_entry. cbn [fst snd set_addr_list ce_addr_list ce_service_cache_list].
    change (addr_record c (set_addr_list e (l1 ++ (a, x) :: l2))) with (addr_record c e).
    change (records_of_service c (set_addr_list e (l1 ++ (a, x) :: l2))) with (records_of_service c e).
    rewrite map_app, <- app_assoc. cbn [map app]. by rewrite <- Permutation_middle. }
  split.
  - rewrite <- (Hperm it), <- E. by destruct e.
  - by rewrite E, alter_at_split, Hperm.
Qed.

Lemma addrs_length a f (l : list (aid * mdns_cache_addr_t)) : length (alter_at a f l) = length l.
Proof. apply length_map. Qed.

Lemma alter_addrs a it it' (l : list (aid * mdns_cache_addr_t)) : base.NoDup (map fst l) -> (a, it) ∈ l ->
  ca_addr it' = ca_addr it ->
  map (fun x => ca_addr (snd x)) (alter_at a (fun _ => it') l) = map (fun x => ca_addr (snd x)) l.
Proof.
  intros Hnd Hin Heq. unfold alter_at. rewrite map_map. apply map_ext_in. intros [a' x] Hx%list_elem_of_In. cbn.
  case_decide; [|done]. subst a'. cbn. rewrite Heq. f_equal.
  assert (Hp : (a, it) = (a, x)) by (by eapply (NoDup_map_inj fst)). by injection Hp.
Qed.

(** An entry that got or has an address is not empty. *)
Lemma full_addrs xe c e f l : tree_ok l -> assoc c l = Some e -> tree_full xe None l -> (xe = None \/ xe = Some c) ->
  ce_addr_list (f e) <> [] -> ce_service_cache_list (f e) = ce_service_cache_list e ->
  tree_full None None (alter_at c f l).
Proof.
  intros Hl Hc Hf Hxe Ha Hs. eapply (alter_entry_full xe None); [done|exact Hc|done|done|done|by left|].
  rewrite Hs. unfold tree_full in Hf. rewrite list.Forall_forall in Hf.
  by destruct (Hf (c, e)) as [_ ?]; [by apply assoc_elem_of; [apply (t_entries _ Hl)|]|].
Qed.

(** An address that is there gets a new TTL. *)
Lemma addr_old xe b X st c e a it ttl : represents xe None b X st -> (xe = None \/ xe = Some c) ->
  assoc c (s_cache st) = Some e -> (a, it) ∈ ce_addr_list e ->
  let it' := mk_addr (ca_addr it) ttl in
  forall A (k : unit -> C A) Q,
  (forall st3 X', quiet st st3 -> is_Some (assoc c (s_cache st3)) -> represents None None b X' st3 ->
     abstracted X' = cache_put (NameAddr (key_of_entry e) (ca_addr it), DataTtl ttl)
                       (expiry_time (c_now st) ttl) (abstracted X) -> yields (k tt st3) Q) ->
  yields ((_ ← put_entry c (fun e => set_addr_list e (alter_at a (fun _ => it') (ce_addr_list e)));
           u ← expiry_schedule MDNS_CACHE_RECORD_ADDR c None (Some (a, it')) None; k u) st) Q.
Proof.
  intros HX Hxe Hc Hin it' A k Q Hk. pose proof (r_tree _ _ _ _ _ HX) as Hl.
  pose proof (addrs_NoDup _ _ _ Hl Hc) as Hnd. destruct (addr_split c e a it it' Hin Hnd) as (rest & Hr & Hr').
  destruct (entry_focus _ _ _ Hl Hc) as (recs & blocks & Hrecs & Hb & Hf & _).
  eapply w_put_entry; [exact Hc|]. set (f := fun e0 => set_addr_list e0 _) in *. destruct (Hf f) as (Hrecs' & Hb' & Ht').
  eapply (w_schedule xe None b X st _ _ _ None (Some (a, it')) None
    (NameAddr (key_of_entry e) (ca_addr it), DataTtl ttl) ttl [addr_record c e (a, it)] (rest ++ recs)); try done.
  - left. split; [done|]. done.
  - by rewrite Hrecs, Hr.
  - by repeat constructor.
  - eapply (fresh_rest _ _ _ _ _ [addr_record c e (a, it)]); [exact HX|by rewrite Hrecs, Hr|]. left. eauto.
  - intros st3 X' Hc3 Hq3 _ He3 Hh3 Hlen Habs Hrep. cfields. apply (Hk st3 X'); [|rewrite Hc3, assoc_alter_at, decide_True, Hc; by eexists| |done].
    { etransitivity; [|exact Hq3]. by apply quiet_set_cache. }
    apply Hrep; [done|rewrite Hc3..].
    + apply Ht', entry_step_addrs with (c := c); [done|done|rewrite alter_at_fst; by apply renews_refl|].
      rewrite (alter_addrs a it) by done. apply (in_entry_wf _ _ _ Hl Hc).
    + eapply (full_addrs xe); [done|exact Hc|apply (r_full _ _ _ _ _ HX)|done| |done].
      cbn. rewrite alter_at_nil. intros E. rewrite E in Hin. by apply not_elem_of_nil in Hin.
    + rewrite Hrecs'. unfold f. by rewrite Hr'.
    + rewrite Hh3, Hlen, Hb'. pose proof (r_heap _ _ _ _ _ HX) as Hheap.
      assert (entry_blocks (f e) = entry_blocks e); [|lia].
      unfold entry_blocks. cbn [f set_addr_list ce_hostname ce_addr_list ce_service_cache_list]. by rewrite addrs_length.
Qed.

(** What writing an address ends in. *)
Definition wrote_addr (b : Z) (X : list pointed) (st : client) (c : cid) (r : cache_record) (ttl : Z)
    (x : mdns_cache_update_result_t * client) : Prop :=
  quiet st (snd x)
  /\ ((fst x = MDNS_CACHE_ERROR /\ ~ never_fails (c_heap st) /\ represents None None b X (snd x))
      \/ (fst x = (if decide (cache_get (fst r) (abstracted X) = Some (snd r))
                   then MDNS_CACHE_NO_CHANGE else MDNS_CACHE_UPDATED)
          /\ is_Some (assoc c (s_cache (snd x)))
          /\ exists X', represents None None b X' (snd x)
             /\ abstracted X' = cache_put r (expiry_time (c_now st) ttl) (abstracted X))).

Section UpdateAddr.
Context (addr : list positive -> positive).
Hypothesis addr_new : forall l, addr l ∉ l.

Lemma addr_fresh xe xs b X st c e a ip : represents xe xs b X st -> assoc c (s_cache st) = Some e ->
  addr_find ip e = None -> (a ∉ addr_ids (s_cache st)) ->
  (of_addr c a ∉ map fst (cache_records (s_cache st)))
  /\ (NameAddr (key_of_entry e) ip ∉ map (fun y => fst (snd y)) (cache_records (s_cache st))).
Proof.
  intros HX Hc Hf Ha. eapply (fresh_rest _ _ _ _ _ [] _ _ (NameAddr (key_of_entry e) ip, DataTtl 0) HX); [done|].
  right. split_and!; [done| |].
  - intros r [(c' & e' & a' & x & Hin & Ha' & [= _ -> _])|(c' & e' & v & s & _ & Hr)]%cache_record_inv.
    + apply Ha, elem_of_flat_map. exists (c', e'). split; [done|]. exact (list_elem_of_fmap_2 fst _ _ Ha').
    + by apply service_record_inv in Hr as [_ [(? & _)|[(? & _)|[(? & _)|(? & ? & ? & _)]]]].
  - intros p [n d] Hin Hn. cbn in Hn. subst n. pose proof (get_addr_entry _ _ _ _ _ HX c e ip Hc) as Hg.
    rewrite Hf in Hg. cbn in Hg.
    assert (Hs : cache_get (NameAddr (key_of_entry e) ip) (abstracted X) = Some d) by (apply (get_record _ _ _ _ _ HX); eauto).
    congruence.
Qed.

Lemma addr_new_spec xe b X st c e ip ttl : represents xe None b X st -> (xe = None \/ xe = Some c) ->
  assoc c (s_cache st) = Some e -> addr_find ip e = None ->
  yields (add_addr addr c ip ttl st)
    (wrote_addr b X st c (NameAddr (key_of_entry e) ip, DataTtl ttl) ttl).
Proof using addr_new.
  intros HX Hxe Hc Hf. pose proof (r_tree _ _ _ _ _ HX) as Hl. unfold add_addr.
  assert (Hfail : forall h, live h = live (c_heap st) -> ~ never_fails (c_heap st) ->
    yields ((_ ← cache_remove_entry_if_empty (Some c); mret MDNS_CACHE_ERROR) (set_c_heap st h))
      (wrote_addr b X st c (NameAddr (key_of_entry e) ip, DataTtl ttl) ttl)).
  { intros h Hh Hn. eapply st_seq; [eapply (prune_spec xe); [by apply set_heap_same|done|exact Hc]|].
    intros r st2 (Hq2 & _ & HX2). split; [etransitivity; [|exact Hq2]; by_quiet|]. by left. }
  eapply st_alloc; [apply hfull_malloc|]. intros [] h Hh Hn; cbn beta in Hh; cbn [negb]; cfields.
  2:{ apply Hfail; [lia|by intros [_ ?]%Hn]. }
  apply st_reads. cfields. set (a := addr _). assert (Ha : a ∉ addr_ids (s_cache st)) by apply addr_new.
  eapply w_expiry_new; intros h2 Hh2 Hn2; cbn [negb]; cfields.
  { eapply st_alloc; [apply hfull_mfree|]. intros [] h3 Hh3 Hn3. cbn beta in Hh3. cfields.
    apply (Hfail h3); [lia|]. intros Hn0. by apply Hn2, Hn. }
  destruct (entry_focus _ _ _ Hl Hc) as (recs & blocks & Hrecs & Hb & Hall & _).
  set (f := fun e0 => set_addr_list e0 ((a, mk_addr ip ttl) :: ce_addr_list e0)).
  destruct (Hall f) as (Hrecs' & Hb' & Ht').
  eapply (w_schedule xe None b X st _ _ _ None (Some (a, mk_addr ip ttl)) None
    (NameAddr (key_of_entry e) ip, DataTtl ttl) ttl [] (cache_records (s_cache st))); try done.
  - right. split; [done|by exists h2].
  - by eapply addr_fresh.
  - intros st3 X' Hc3 Hq3 _ He3 Hh3 Hlen Habs Hrep. cbn [with_new_node] in *. cfields.
    assert (Hc' : assoc c (s_cache st3) = Some e) by (by rewrite Hc3).
    eapply w_put_entry; [exact Hc'|]. split; [apply quiet_set_cache; etransitivity; [|exact Hq3]; by_quiet|].
    right. cbn [fst snd]. rewrite (get_addr_entry _ _ _ _ _ HX c e ip Hc), Hf. cbn [fmap option_fmap option_map].
    rewrite decide_False by done. split_and!; [done|cfields; rewrite assoc_alter_at, decide_True, Hc' by done; by eexists|].
    exists X'. split; [|done]. fold f. apply Hrep; cfields; [done|rewrite Hc3..].
    + apply Ht', entry_step_addrs with (c := c); [done|done| |].
      * apply renews_cons; [by eapply addrs_NoDup|done|]. intros Hin. apply Ha, elem_of_flat_map.
        exists (c, e). split; [by apply assoc_elem_of; [apply (t_entries _ Hl)|]|done].
      * cbn [map snd ca_addr]. apply NoDup_cons. split; [|apply (in_entry_wf _ _ _ Hl Hc)].
        intros ([a' it'] & Heq & Hin)%list_elem_of_fmap. by apply (addr_find_None _ _ _ _ Hf Hin).
    + by eapply (full_addrs xe); [done|exact Hc|apply (r_full _ _ _ _ _ HX)|..].
    + rewrite Hrecs', Hrecs. done.
    + rewrite Hh3, Hlen, Hb'. pose proof (r_heap _ _ _ _ _ HX) as Hheap. cbn [length].
      assert (entry_blocks (f e) = entry_blocks e + 1)%Z; [|lia].
      unfold entry_blocks. cbn [f set_addr_list ce_hostname ce_addr_list ce_service_cache_list length]. lia.
Qed.

Lemma mark_entry_spec xe b X st c res : represents xe None b X st -> is_Some (assoc c (s_cache st)) ->
  yields (mark_entry_services c res st) (fun '(_, st') => quiet st st' /\ represents xe None b X st'
    /\ s_expiry st' = s_expiry st /\ is_Some (assoc c (s_cache st'))).
Proof.
  intros HX [e Hc]. pose proof (r_tree _ _ _ _ _ HX) as Hl. unfold mark_entry_services.
  eapply w_get_entry; [exact Hc|].
  eapply yields_mono; [apply (iter_ok _ _ (fun st' => (quiet st st' /\ represents xe None b X st'
     /\ s_expiry st' = s_expiry st /\ is_Some (assoc c (s_cache st')))
     /\ forall v, v ∈ map fst (ce_service_cache_list e) -> is_Some (find_service v (s_cache st'))))|].
  - split; [split_and!; try done; by eexists|]. intros v (x & -> & Hx)%list_elem_of_fmap. exists (snd x). eapply owns_find; [done|].
    apply owns_in; [done|]. split; [apply assoc_elem_of; [apply (t_entries _ Hl)|done]|by destruct x].
  - intros v st' Hv [(Hq & HX' & He & Hc') Hall]. eapply yields_mono; [apply mark_spec; [exact HX'|by apply Hall]|].
    intros [[] st2] (Hq2 & He2 & HX2 & Hfs & Hcs). cbn [snd]. split; [split_and!; [by etransitivity|done|congruence|auto]|]. auto.
  - by intros [[] st'] [? _].
Qed.

(** The part after the entry was found or made. *)
Lemma addr_write_spec xe b X st c e ip ttl : represents xe None b X st -> (xe = None \/ xe = Some c) ->
  assoc c (s_cache st) = Some e -> (ttl =? 0)%Z = false ->
  yields (update_entry_addr addr c ip ttl st)
    (refines st b X
       (if decide (cache_get (NameAddr (key_of_entry e) ip) (abstracted X) = Some (DataTtl ttl))
        then MDNS_CACHE_NO_CHANGE else MDNS_CACHE_UPDATED,
        cache_put (NameAddr (key_of_entry e) ip, DataTtl ttl) (calc_expiration_time_us (c_now st) ttl) (abstracted X))).
Proof using addr_new.
  intros HX Hxe Hc Ht. unfold update_entry_addr. eapply w_get_entry; [exact Hc|].
  assert (Htime : calc_expiration_time_us (c_now st) ttl = expiry_time (c_now st) ttl) by (unfold expiry_time; by rewrite Ht).
  rewrite Htime. eapply st_seq with (P := wrote_addr b X st c (NameAddr (key_of_entry e) ip, DataTtl ttl) ttl).
  - fold (addr_find ip e). destruct (addr_find ip e) as [[a it]|] eqn:Ef; [|by eapply addr_new_spec].
    pose proof (addr_find_Some _ _ _ _ Ef) as [Hin <-].
    rewrite (surjective_pairing (update_ttl _ _)), update_ttl_fst.
    eapply addr_old; [exact HX|done|exact Hc|exact Hin|]. intros st3 X' Hq3 Hc3 HX3 Habs.
    split; [done|]. right. cbn [fst snd]. rewrite (get_addr_entry _ _ _ _ _ HX c e _ Hc), Ef. cbn [fmap option_fmap option_map snd].
    split_and!; [|done|eauto]. unfold update_ttl.
    destruct (ca_ttl it =? ttl)%Z eqn:Et; bsimp; [by rewrite decide_True by congruence|].
    rewrite decide_False; [done|]. by intros [= ?].
  - intros res st2 (Hq2 & [(Heq & Hn & HX2)|(Heq & Hc2 & X' & HX2 & Habs)]); cbn [fst snd] in *; subst res.
    + rewrite decide_True by done. split; [done|]. exists X. split; [done|by right].
    + rewrite decide_False by (by case_decide). eapply st_seq; [by apply mark_entry_spec|].
      intros [] st3 (Hq3 & HX3 & _). split; [by etransitivity|]. exists X'. split; [done|]. left. cbn. by rewrite Habs.
Qed.

Lemma cache_update_addr_spec b X st esp_netif ip_protocol hostname ip ttl create :
  represents None None b X st ->
  yields (cache_update_addr addr esp_netif ip_protocol hostname ip ttl create st) (fun x =>
    refines st b X (abstract_update_addr (c_now st) esp_netif ip_protocol hostname ip ttl (abstracted X)) x
    \/ (create = false /\ (forall ip', cache_get (NameAddr (canon hostname, esp_netif, ip_protocol) ip') (abstracted X) = None)
        /\ refines st b X (MDNS_CACHE_NO_CHANGE, abstracted X) x)).
Proof using addr_new.
  intros HX. pose proof (r_tree _ _ _ _ _ HX) as Hl. unfold cache_update_addr, abstract_update_addr. cbn zeta.
  destruct (ttl =? 0)%Z eqn:Et.
  - apply st_reads. eapply yields_mono; [|intros x Hx; left; exact Hx]. unfold abstract_goodbye.
    destruct (cache_find_entry _ _ _ _) as [[c e]|] eqn:Ef.
    2:{ rewrite (get_addr_none _ _ _ _ _ HX) by done. by apply refines_same. }
    apply find_entry_Some in Ef as [Hc <-]; [|done]. rewrite (get_addr_entry _ _ _ _ _ HX c e ip Hc).
    fold (addr_find ip e). destruct (addr_find ip e) as [[a it]|] eqn:Ea; [|by apply refines_same].
    apply addr_find_Some in Ea as [Hin <-].
    eapply addr_old; [exact HX|by left|exact Hc|exact Hin|]. intros st3 X' Hq3 _ HX3 Habs.
    split; [done|]. exists X'. split; [done|]. left. cbn. by rewrite Habs.
  - assert (Hrest : forall xe st1 c e, represents xe None b X st1 -> (xe = None \/ xe = Some c) ->
      assoc c (s_cache st1) = Some e -> key_of_entry e = (canon hostname, esp_netif, ip_protocol) -> quiet st st1 ->
      forall m, yields (m st1) (refines st1 b X
        (if decide (cache_get (NameAddr (key_of_entry e) ip) (abstracted X) = Some (DataTtl ttl))
         then MDNS_CACHE_NO_CHANGE else MDNS_CACHE_UPDATED,
         cache_put (NameAddr (key_of_entry e) ip, DataTtl ttl) (calc_expiration_time_us (c_now st1) ttl) (abstracted X))) ->
      yields (m st1) (fun x => refines st b X
        (if decide (cache_get (NameAddr (canon hostname, esp_netif, ip_protocol) ip) (abstracted X) = Some (DataTtl ttl))
         then MDNS_CACHE_NO_CHANGE else MDNS_CACHE_UPDATED,
         cache_put (NameAddr (canon hostname, esp_netif, ip_protocol) ip, DataTtl ttl)
           (calc_expiration_time_us (c_now st) ttl) (abstracted X)) x
        \/ (create = false /\ (forall ip', cache_get (NameAddr (canon hostname, esp_netif, ip_protocol) ip') (abstracted X) = None)
            /\ refines st b X (MDNS_CACHE_NO_CHANGE, abstracted X) x))).
    { intros xe st1 c e HX1 Hxe Hc1 Hk Hq m Hm. eapply yields_mono; [exact Hm|]. intros x [Hq2 (X' & HX2 & Hs)]. left.
      split; [by etransitivity|]. exists X'. split; [done|]. rewrite Hk, (q_now _ _ Hq) in Hs.
      destruct Hs as [Hs|(? & Hn & ?)]; [by left|right]. split_and!; [done| |done]. intros Hn0. by apply Hn, (q_never _ _ Hq). }
    destruct create.
    + eapply st_seq; [by apply get_or_add_entry_spec|]. intros [c|] st1; cbn beta iota.
      2:{ intros (Hq & _ & HX1 & Hn). left. split; [done|]. exists X. split; [done|by right]. }
      intros (Hq & _ & HX1 & _ & e & Hc1 & Hk). eapply Hrest; try done; [by right|].
      by eapply (addr_write_spec (Some c)); [|right|..].
    + apply st_reads. destruct (cache_find_entry (s_cache st) hostname esp_netif ip_protocol) as [[c e]|] eqn:Ef; cbn.
      2:{ right. split_and!; [done| |by apply refines_same]. intros ip'. by apply (get_addr_none _ _ _ _ _ HX). }
      apply find_entry_Some in Ef as [Hc Hk]; [|done]. eapply Hrest; try done; [by left|].
      by eapply (addr_write_spec None); [|left|..].
Qed.

End UpdateAddr.
