(* ===== verification/CacheSrv.v ===== *)
(** SRV records in the cache: a service moves to the entry of its host
    ([cache_move_service]), and [mdns_priv_cache_update_srv] against the abstract
    cache. *)
From S2P Require Import Prelude Names Server Heap Txt State Cache CacheTree CacheExpiry CacheRefine CacheOps CacheUpdate.
From Stdlib Require Import Sorting.

(** * What moving does to records *)

(** The nodes of the service point to its new entry; its SRV record names the new
    host. *)
Definition retarget (v : vid) (c' : cid) (p : pointers) : pointers :=
  let '(r, c, s, a, t) := p in if decide (s = Some v) then (r, c', s, a, t) else p.

Definition rehost (k : service_key) (h : list Z) (r : cache_record) : cache_record :=
  match r with
  | (NameSrv k', DataSrv h' pr w po ttl) => (NameSrv k', DataSrv (if decide (k' = k) then h else h') pr w po ttl)
  | _ => r
  end.

Definition move_record v c' k h (y : pointers * cache_record) : pointers * cache_record :=
  (retarget v c' (fst y), rehost k h (snd y)).

Definition move_pointed v c' k h (x : pointed) : pointed := (move_record v c' k h (fst x), snd x).

Lemma rehost_name k h r : fst (rehost k h r) = fst r.
Proof. by destruct r as [[] []]. Qed.

Lemma rehost_id k h (r : cache_record) : fst r <> NameSrv k -> rehost k h r = r.
Proof. destruct r as [[] []]; cbn; try done. case_decide; congruence. Qed.

Lemma retarget_id v c' p : service_ptr p <> Some v -> retarget v c' p = p.
Proof. destruct p as [[[[r c] s] a] t]. cbn. intros Hs. by rewrite decide_False. Qed.

Lemma move_records c e c' e' v s : key_of_service e' s = key_of_service e s ->
  map (move_record v c' (key_of_service e s) (canon (ce_hostname e'))) (records_of_service c e (v, s))
  = records_of_service c' e' (v, s).
Proof.
  intros Hk. unfold records_of_service. cbn [fst snd]. rewrite Hk, !map_app. f_equal; [|f_equal; [|f_equal]].
  - unfold ptr_records. destruct (sc_ptr_present s); [|done]. cbn. unfold move_record. cbn. by rewrite decide_True.
  - unfold srv_records. destruct (sc_srv_present s); [|done]. cbn. unfold move_record. cbn. by rewrite !decide_True.
  - unfold txt_records. destruct (sc_txt_present s); [|done]. cbn. unfold move_record. cbn. by rewrite decide_True.
  - rewrite map_map. apply map_ext. intros t. unfold move_record. cbn. by rewrite decide_True.
Qed.

Lemma move_abstracted v c' k h X :
  abstracted (map (move_pointed v c' k h) X) = map (fun x => (rehost k h (fst x), snd x)) (abstracted X).
Proof. unfold abstracted. rewrite !map_map. done. Qed.

Lemma rehost_put k h d t A :
  cache_put (NameSrv k, d) t (map (fun x => (rehost k h (fst x), snd x)) A) = cache_put (NameSrv k, d) t A.
Proof.
  unfold cache_put. cbn [fst]. f_equal. induction A as [|[r t'] A IH]; [done|]. cbn [map fst snd].
  pose proof (rehost_name k h r) as Hr. destruct (decide (fst r = NameSrv k)) as [Hd|Hd].
  - rewrite !filter_cons_False; [exact IH|unfold name_is; cbn; tauto|unfold name_is; cbn; rewrite Hr; tauto].
  - rewrite !filter_cons_True; [by rewrite rehost_id, IH|unfold name_is; cbn; tauto|unfold name_is; cbn; by rewrite Hr].
Qed.

Lemma rehost_same k h (A : abstract_cache) : cache_get (NameSrv k) A = None ->
  map (fun x => (rehost k h (fst x), snd x)) A = A.
Proof.
  unfold cache_get. destruct (List.find (fun x => bool_decide (name_is (NameSrv k) x)) A) eqn:Ef; [done|]. intros _.
  rewrite <- (map_id A) at 2. apply map_ext_in. intros [r t] Hin. cbn. f_equal. apply rehost_id.
  intros Hn. pose proof (List.find_none _ _ Ef _ Hin) as Hm. by apply bool_decide_eq_false in Hm.
Qed.

Lemma rehost_get k h n (A : abstract_cache) :
  cache_get n (map (fun x => (rehost k h (fst x), snd x)) A) = None -> cache_get n A = None.
Proof.
  unfold cache_get. induction A as [|[r t] A IH]; [done|]. cbn [map fst snd List.find].
  assert (Hb : bool_decide (name_is n (rehost k h r, t)) = bool_decide (name_is n (r, t))).
  { apply bool_decide_ext. unfold name_is. cbn [fst]. pose proof (rehost_name k h r). split; congruence. }
  rewrite Hb. by destruct (bool_decide (name_is n (r, t))).
Qed.

(** * The tree *)

Lemma perm_take {A B} (g : A -> list B) la x x' lb z : g x ≡ₚ z ++ g x' ->
  flat_map g (la ++ x :: lb) ≡ₚ z ++ flat_map g (la ++ x' :: lb).
Proof.
  intros Hg. rewrite !flat_map_app. cbn [flat_map]. rewrite Hg, <- !app_assoc. apply Permutation_app_swap_app.
Qed.

Definition take_service (v : vid) (e : mdns_cache_entry_t) : mdns_cache_entry_t :=
  set_service_cache_list e (remove_at v (ce_service_cache_list e)).
Definition give_service (v : vid) (s : mdns_service_cache_t) (e : mdns_cache_entry_t) : mdns_cache_entry_t :=
  set_service_cache_list e ((v, s) :: ce_service_cache_list e).

Section Taken.
Context (l : list (cid * mdns_cache_entry_t)) (c : cid) (e : mdns_cache_entry_t) (v : vid) (s : mdns_service_cache_t).
Hypothesis l_ok : tree_ok l.
Hypothesis Ho : owns l c e v s.

(** Nothing of the service is left. *)
Lemma taken_fresh : let l1 := alter_at c (take_service v) l in
  tree_ok l1 /\ (v ∉ service_ids l1) /\ (key_of_service e s ∉ flat_map keys_of_services l1)
  /\ (forall t, t ∈ map fst (sc_subtype_list s) -> t ∉ subtype_ids l1)
  /\ cache_records l ≡ₚ records_of_service c e (v, s) ++ cache_records l1
  /\ cache_blocks l = (service_blocks s + cache_blocks l1)%Z.
Proof using l_ok Ho.
  destruct Ho as [Hc Hv]. destruct (entry_focus _ _ _ l_ok Hc) as (? & ? & _ & _ & Hf & _).
  destruct (Hf (take_service v)) as (_ & _ & Ht). specialize (Ht (entry_step_remove _ _ _ l_ok Hc v)).
  destruct (tree_entry_split _ _ _ l_ok Hc) as (la & lb & El & Halt & _). rewrite (Halt (take_service v)) in *.
  destruct (assoc_split _ _ _ Hv) as (s1 & s2 & Es & Hn).
  assert (Htk : ce_service_cache_list (take_service v e) = s1 ++ s2) by (cbn; rewrite Es; by apply remove_at_split).
  assert (Hperm : forall B (g : vid * mdns_service_cache_t -> list B),
    flat_map g (ce_service_cache_list e) ≡ₚ g (v, s) ++ flat_map g (ce_service_cache_list (take_service v e))).
  { intros B g. rewrite Htk, Es, !flat_map_app. cbn [flat_map]. apply Permutation_app_swap_app. }
  assert (Hmap : forall B (g : vid * mdns_service_cache_t -> B),
    map g (ce_service_cache_list e) ≡ₚ [g (v, s)] ++ map g (ce_service_cache_list (take_service v e))).
  { intros B g. rewrite Htk, Es, !map_app. cbn [map]. by rewrite <- Permutation_middle. }
  pose proof (t_services _ l_ok) as H1. pose proof (t_names _ l_ok) as H2. pose proof (t_subtypes _ l_ok) as H3.
  unfold service_ids in *. unfold subtype_ids in *. rewrite El in H1, H2, H3 |- *. split_and!; [done|..].
  - rewrite (perm_take _ la _ (c, take_service v e) lb [v]) in H1; [by apply NoDup_cons in H1 as [? _]|].
    exact (Hmap _ fst).
  - rewrite (perm_take _ la _ (c, take_service v e) lb [key_of_service e s]) in H2; [by apply NoDup_cons in H2 as [? _]|].
    exact (Hmap _ (fun y => key_of_service e (snd y))).
  - rewrite (perm_take _ la _ (c, take_service v e) lb (map fst (sc_subtype_list s))) in H3.
    + apply NoDup_app in H3 as (_ & H3 & _). exact H3.
    + exact (Hperm _ (fun y => map fst (sc_subtype_list (snd y)))).
  - apply perm_take. unfold records_of_entry. cbn [fst snd].
    change (addr_record c (take_service v e)) with (addr_record c e).
    change (records_of_service c (take_service v e)) with (records_of_service c e).
    change (ce_addr_list (take_service v e)) with (ce_addr_list e).
    rewrite (Hperm _ (records_of_service c e)). apply Permutation_app_swap_app.
  - rewrite !cache_blocks_app, !cache_blocks_cons. cbn [snd]. unfold entry_blocks.
    change (ce_hostname (take_service v e)) with (ce_hostname e).
    change (ce_addr_list (take_service v e)) with (ce_addr_list e).
    rewrite Htk, Es, !services_blocks_app. cbn [services_blocks foldr snd]. fold (services_blocks s2). lia.
Qed.

End Taken.

Lemma map_sorted (g : mdns_cache_expiry_t -> mdns_cache_expiry_t) l :
  (forall n, ex_expires_at_us (g n) = ex_expires_at_us n) -> expiry_sorted l -> expiry_sorted (map g l).
Proof.
  intros Hg. unfold expiry_sorted. induction 1 as [|n l _ IH Hn]; cbn; constructor; [done|].
  apply Forall_map. eapply Forall_impl; [exact Hn|]. unfold expires_le. intros m. by rewrite !Hg.
Qed.

(** * Moving a service *)

Definition rehomed (v : vid) (c' : cid) (it : mdns_cache_expiry_t) : mdns_cache_expiry_t :=
  if decide (ex_service it = Some v) then set_node_entry it c' else it.

Section Move.
Context (xe : option cid) (b : Z) (X : list pointed) (st : client).
Context (c c' : cid) (e e' : mdns_cache_entry_t) (v : vid) (s : mdns_service_cache_t).
Hypothesis HX : represents xe None b X st.
Hypothesis Ho : owns (s_cache st) c e v s.
Hypothesis move_target : assoc c' (alter_at c (take_service v) (s_cache st)) = Some e'.
Hypothesis Hxe : xe = None \/ xe = Some c'.
Hypothesis Hkey : key_of_service e' s = key_of_service e s.

Let l := s_cache st.
Let l1 := alter_at c (take_service v) l.
Let l2 := alter_at c' (give_service v s) l1.
Let k := key_of_service e s.
Let h := canon (ce_hostname e').

Lemma move_ok : tree_ok l.
Proof using HX. apply (r_tree _ _ _ _ _ HX). Qed.

Lemma moved_tree : tree_ok l2 /\ cache_blocks l2 = cache_blocks l
  /\ exists recs, cache_records l ≡ₚ records_of_service c e (v, s) ++ recs
     /\ cache_records l2 ≡ₚ records_of_service c' e' (v, s) ++ recs.
Proof using HX Ho move_target Hkey.
  destruct (taken_fresh l c e v s move_ok Ho) as (Hl1 & Hv & Hk & Ht & Hr & Hb). fold l1 in Hl1, Hv, Hk, Ht, Hr, Hb.
  destruct (owns_wf _ _ _ _ _ move_ok Ho) as (Hw & Hnd & _).
  destruct (entry_focus l1 c' e' Hl1 move_target) as (recs & blocks & Hr1 & Hb1 & Hf & _).
  destruct (Hf (give_service v s)) as (Hr2 & Hb2 & Ht2). fold l2 in Hr2, Hb2, Ht2. split_and!.
  - apply Ht2. apply (entry_step_push l1 c' e'); try done. by rewrite Hkey.
  - rewrite Hb, Hb1, Hb2. unfold entry_blocks. cbn [give_service set_service_cache_list ce_hostname ce_addr_list
      ce_service_cache_list services_blocks foldr snd]. fold (services_blocks (ce_service_cache_list e')). lia.
  - exists (cache_records l1). split; [exact Hr|]. rewrite Hr2, Hr1. unfold records_of_entry. cbn [fst snd].
    change (addr_record c' (give_service v s e')) with (addr_record c' e').
    change (records_of_service c' (give_service v s e')) with (records_of_service c' e').
    cbn [give_service set_service_cache_list ce_addr_list ce_service_cache_list flat_map].
    rewrite (Permutation_app_swap_app (map _ _)), <- !app_assoc. done.
Qed.

Lemma moved_full : tree_full (Some c) None l2.
Proof using HX Ho move_target Hxe.
  pose proof (r_full _ _ _ _ _ HX) as Hf. pose proof move_ok as Hl. fold l in Hf. unfold tree_full in *.
  unfold l2, l1, alter_at. rewrite map_map. apply Forall_map. rewrite list.Forall_forall in *.
  intros [c0 e0] Hin. destruct (Hf _ Hin) as [H1 H2]. cbn [fst snd] in *.
  assert (Hsub : forall e1, Forall (fun y => service_cache_is_empty (snd y) = false) (ce_service_cache_list e1) ->
    Forall (fun y : vid * mdns_service_cache_t => Some (fst y) <> None -> service_cache_is_empty (snd y) = false)
      (ce_service_cache_list e1)).
  { intros e1 He. eapply Forall_impl; [exact He|]. done. }
  assert (H2' : Forall (fun y => service_cache_is_empty (snd y) = false) (ce_service_cache_list e0)).
  { eapply Forall_impl; [exact H2|]. intros y Hy. by apply Hy. }
  assert (Hrm : forall y, y ∈ remove_at v (ce_service_cache_list e0) -> service_cache_is_empty (snd y) = false).
  { intros y Hy. rewrite list.Forall_forall in H2'. apply H2'.
    eapply elem_of_submseteq; [exact Hy|]. apply sublist_submseteq, remove_at_sublist. }
  assert (Hvs : service_cache_is_empty s = false).
  { destruct (proj1 (owns_in _ _ _ _ _ Hl) Ho) as [Hce Hvs]. destruct (Hf _ Hce) as [_ Hs].
    rewrite list.Forall_forall in Hs. by apply (Hs _ Hvs). }
  destruct (decide (c0 = c)) as [->|Hc0]; cbn [fst snd]; (destruct (decide _) as [->|Hc0']; cbn [fst snd]).
  - split; [intros _; by right|]. apply Hsub. cbn. constructor; [done|]. by apply list.Forall_forall.
  - split; [by intros []|]. apply Hsub. cbn. by apply list.Forall_forall.
  - split; [intros _; by right|]. apply Hsub. cbn. by constructor.
  - split; [|by apply Hsub]. intros _. apply H1. destruct Hxe as [->| ->]; congruence.
Qed.

Lemma moved_records : map (move_record v c' k h) (cache_records l) ≡ₚ cache_records l2.
Proof using HX Ho move_target Hkey Hxe.
  destruct moved_tree as (_ & _ & recs & Hr & ->). rewrite Hr, map_app. unfold k, h. rewrite move_records by done.
  f_equiv. enough (E : map (move_record v c' k h) recs = recs) by (fold k h; by rewrite E).
  rewrite <- (map_id recs) at 2. apply map_ext_in. intros [p r] Hin%list_elem_of_In. unfold move_record. cbn [fst snd].
  pose proof move_ok as Hl. pose proof (proj1 (owns_in _ _ _ _ _ Hl) Ho) as Hi.
  assert (Hall : (p, r) ∈ cache_records l) by (rewrite Hr; elems).
  destruct (records_NoDup _ _ _ _ _ HX) as [Hp Hn]. fold l in Hp, Hn. rewrite Hr, map_app, NoDup_app in Hp.
  destruct Hp as (_ & Hp & _).
  assert (Hnot : (p, r) ∉ records_of_service c e (v, s)).
  { intros H. apply (Hp p); [exact (list_elem_of_fmap_2 fst _ _ H)|exact (list_elem_of_fmap_2 fst _ _ Hin)]. }
  rewrite retarget_id, rehost_id; [done| |].
  - intros E. apply Hnot. eapply record_by_name; try done. by rewrite E.
  - intros E. apply Hnot. by eapply record_by_pointer.
Qed.

Lemma moved_pointers x y : x ∈ map ptr_of X -> y ∈ map ptr_of X -> retarget v c' x = retarget v c' y -> x = y.
Proof using HX Ho.
  pose proof move_ok as Hl. pose proof (proj1 (owns_in _ _ _ _ _ Hl) Ho) as Hi.
  assert (Hentry : forall p, p ∈ map ptr_of X -> service_ptr p = Some v -> snd (fst (fst (fst p))) = c).
  { intros p ([[p' r] t] & -> & Hin)%list_elem_of_fmap Hp. cbn [ptr_of fst] in *.
    assert (Hr : (p', r) ∈ cache_records l) by (apply (pointed_record _ _ _ _ _ HX); eauto).
    pose proof (record_by_pointer _ _ _ _ _ _ _ Hl Hi Hr Hp) as Hs.
    by apply service_record_inv in Hs as [_ [(-> & _)|[(-> & _)|[(-> & _)|(? & ? & -> & _)]]]]. }
  intros Hx Hy. pose proof (Hentry x Hx) as Ex. pose proof (Hentry y Hy) as Ey.
  destruct x as [[[[r1 c1] s1] a1] t1], y as [[[[r2 c2] s2] a2] t2]. cbn in *.
  repeat case_decide; subst; intros Heq; try congruence.
  rewrite Ex, Ey by done. congruence.
Qed.

Lemma move_spec : yields (cache_move_service c c' v st) (fun '(r, st') => r = true /\ quiet st st'
  /\ s_cache st' = l2 /\ represents (Some c) None b (map (move_pointed v c' k h) X) st').
Proof using HX Ho move_target Hxe Hkey.
  unfold cache_move_service. destruct Ho as [Hc Hv]. eapply w_get_entry; [exact Hc|]. rewrite Hv.
  eapply w_put_entry; [exact Hc|]. eapply w_put_entry; [cfields; apply move_target|]. apply st_writes. cfields.
  cbn [yields mret ST_ret]. split_and!; [done|by_quiet|done|]. change (map _ (s_expiry st)) with (map (rehomed v c') (s_expiry st)).
  destruct moved_tree as (Ht & Hb & _). destruct HX as [Hl Hf Hr Hn Hp Hnm Hs Hq Hh].
  split; cfields; fold l in Hl, Hf, Hr, Hh; fold l1 l2.
  - exact Ht.
  - apply moved_full.
  - etransitivity; [|exact moved_records]. rewrite <- Hr, !map_map. done.
  - transitivity (map (fun y => (retarget v c' (fst y), snd y)) (map node_of X)); [by rewrite !map_map|].
    rewrite Hn, !map_map. erewrite map_ext; [done|]. intros it. unfold node_time, rehomed.
    destruct it as [q r0 c0 s0 a0 t0 x0]. cbn. by case_decide.
  - assert (E : map ptr_of (map (move_pointed v c' k h) X) = map (retarget v c') (map ptr_of X)) by (by rewrite !map_map).
    rewrite E. apply NoDup_fmap_2_strong; [apply moved_pointers|done].
  - assert (E : map name_of (map (move_pointed v c' k h) X) = map name_of X).
    { rewrite map_map. apply map_ext. intros [[p r] t]. unfold name_of, rec_of. cbn. apply rehost_name. }
    by rewrite E.
  - apply map_sorted; [|done]. intros it. unfold rehomed. by case_decide.
  - apply Forall_map. eapply Forall_impl; [exact Hq|]. intros it Hit. unfold rehomed. by case_decide.
  - rewrite length_map. change (alter_at c' _ _) with l2. rewrite Hb. exact Hh.
Qed.

Lemma move_owns : owns l2 c' (give_service v s e') v s /\ exists e0, assoc c l2 = Some e0
  /\ ce_esp_netif e0 = ce_esp_netif e /\ ce_ip_protocol e0 = ce_ip_protocol e.
Proof using Ho move_target.
  destruct Ho as [Hc _]. unfold l2. split; [split|].
  - by rewrite assoc_alter_at, decide_True, (move_target : assoc c' l1 = Some e').
  - cbn. by rewrite Pos.eqb_refl.
  - assert (Hc1 : assoc c l1 = Some (take_service v e))
      by (unfold l1; rewrite assoc_alter_at, decide_True by done; by rewrite (Hc : assoc c l = Some e)).
    rewrite assoc_alter_at, Hc1. case_decide; by eexists.
Qed.

End Move.

(** * The operation *)

Definition abstract_update_srv (now : Z) (esp_netif : netif) (ip_protocol : mdns_ip_protocol_t)
    (hostname instance service proto : option cstr) (priority weight port ttl : Z) (A : abstract_cache)
    : mdns_cache_update_result_t * abstract_cache :=
  let k := key_of_names esp_netif ip_protocol instance service proto in
  abstract_record k (NameSrv k) (DataSrv (canon hostname) priority weight port ttl) now ttl A.

Lemma srv_present_same s : sc_srv_present s = true ->
  set_srv_ttl s 0
  = set_srv_ttl (set_port (set_weight (set_priority (set_srv_present s true) (sc_priority s)) (sc_weight s)) (sc_port s)) 0.
Proof. by destruct s; cbn; intros ->. Qed.

Lemma srv_goodbye b X st c e v s : represents None None b X st -> owns (s_cache st) c e v s ->
  yields ((if negb (sc_srv_present s) then mret MDNS_CACHE_NO_CHANGE
           else
             _ ← put_service v (fun s => set_srv_ttl s 0);
             _ ← expiry_schedule MDNS_CACHE_RECORD_SRV c (Some v) None None;
             mret MDNS_CACHE_UPDATED) st)
    (refines st b X (abstract_goodbye (NameSrv (key_of_service e s)) (abstracted X))).
Proof.
  intros HX Ho. pose proof (r_tree _ _ _ _ _ HX) as Hl.
  destruct (srv_slot c e v s (sc_priority s) (sc_weight s) (sc_port s) 0) as (rest & Hslot & Hnew).
  pose proof (slot_get _ _ _ _ _ _ _ _ _ _ _ _ _ HX Ho Hslot) as Hget. cbn [fst] in Hget.
  unfold abstract_goodbye. rewrite Hget. unfold srv_records in *. destruct (sc_srv_present s) eqn:E; cbn [negb].
  - destruct (owns_wf _ _ _ _ _ Hl Ho) as (Hw & Hnd & _).
    eapply goodbye_write; try done; cbn beta.
    + by rewrite srv_present_same.
    + apply names_step; try done. apply Hw.
    + intros st2 Hf. cbn. by rewrite Hf.
  - by apply refines_same.
Qed.

(** The SRV record is written. *)
Lemma srv_write {A} xs b X st0 st2 c e v s pr w po ttl (k : unit -> C A) Q :
  represents None xs b X st0 -> (xs = None \/ xs = Some v) -> owns (s_cache st0) c e v s ->
  node_ready (of_service MDNS_CACHE_RECORD_SRV c v) st0 st2
    (srv_records (key_of_service e s) (canon (ce_hostname e)) c v s) ->
  quiet st0 st2 -> s_cache st2 = s_cache st0 ->
  (live (c_heap st2) - Z.of_nat (length (s_expiry st2)) = live (c_heap st0) - Z.of_nat (length (s_expiry st0)))%Z ->
  (forall st3 X', quiet st0 st3 -> is_Some (find_service v (s_cache st3)) -> represents None None b X' st3 ->
     abstracted X' = cache_put (NameSrv (key_of_service e s), DataSrv (canon (ce_hostname e)) pr w po ttl)
                       (expiry_time (c_now st0) ttl) (abstracted X) -> yields (k tt st3) Q) ->
  yields ((_ ← put_service v (fun s => fst (service_cache_srv_update s pr w po ttl));
           u ← expiry_schedule MDNS_CACHE_RECORD_SRV c (Some v) None None; k u) st2) Q.
Proof.
  intros HX Hxs Ho Hready Hq Hc Hlive Hk. pose proof (r_tree _ _ _ _ _ HX) as Hl.
  destruct (owns_wf _ _ _ _ _ Hl Ho) as (Hw & Hnd & _).
  destruct (srv_slot c e v s pr w po ttl) as (rest & Hslot & Hnew).
  eapply w_put_service; [rewrite Hc; by eapply owns_find|]. set (f := fun s0 => fst _).
  assert (Hfs : f s = set_srv_ttl (set_port (set_weight (set_priority (set_srv_present s true) pr) w) po) ttl).
  { unfold f, service_cache_srv_update. rewrite (surjective_pairing (update_ttl _ _)), update_ttl_fst. done. }
  eapply (w_write xs b X st0 _ c e v s f _ None _ _ rest ttl b); try done; cfields.
  - by rewrite Hfs.
  - rewrite Hfs. apply names_step; try done. apply Hw.
  - by apply quiet_set_cache.
  - by rewrite Hc.
  - cbn. rewrite Hc, (owns_alter_find _ _ _ _ _ _ Hl Ho), Hfs. done.
  - rewrite Hc. destruct (service_focus _ _ _ _ _ Hl Ho) as (? & blocks & _ & Hb & Hf).
    destruct (Hf f) as (_ & -> & _). pose proof (r_heap _ _ _ _ _ HX). rewrite Hfs.
    change (service_blocks (set_srv_ttl _ _)) with (service_blocks s). lia.
  - intros st3 X' Hq3 Hc3 HX3 Habs. apply (Hk st3 X'); try done.
    rewrite Hc3, Hc, (owns_alter_find _ _ _ _ _ _ Hl Ho). by eexists.
Qed.

Section UpdateSrv.
Context (addr : list positive -> positive).
Hypothesis addr_new : forall l, addr l ∉ l.

Lemma added_owns l l' h c e v s : added_entry l l' h -> owns l c e v s -> owns l' c e v s.
Proof.
  intros [->|(hn & n & p & Hh & ->)] [Hc Hv]; [done|]. split; [|done]. cbn.
  destruct (Pos.eqb_spec c h) as [->|]; [|done]. exfalso. apply Hh. apply assoc_split in Hc as (l1 & l2 & -> & _).
  unfold entry_ids. rewrite map_app. cbn. elems.
Qed.

Lemma added_keys l l' h : added_entry l l' h -> flat_map keys_of_services l' = flat_map keys_of_services l.
Proof. by intros [->|(hn & n & p & _ & ->)]. Qed.

Lemma host_entry_spec b X st (owner : option (cid * mdns_cache_entry_t)) hn n p : represents None None b X st ->
  (forall c e, owner = Some (c, e) -> assoc c (s_cache st) = Some e /\ ce_esp_netif e = n /\ ce_ip_protocol e = p) ->
  yields (srv_host_entry addr (fst <$> owner) hn n p st) (fun '(r, st') => quiet st st' /\
    match r with
    | None => represents None None b X st' /\ ~ never_fails (c_heap st)
    | Some h => represents (Some h) None b X st' /\ added_entry (s_cache st) (s_cache st') h
        /\ exists e, assoc h (s_cache st') = Some e /\ key_of_entry e = (canon hn, n, p)
    end).
Proof using addr_new.
  intros HX Howner. unfold srv_host_entry.
  assert (Hadd : yields (cache_get_or_add_entry addr hn n p st) (fun '(r, st') => quiet st st' /\
    match r with
    | None => represents None None b X st' /\ ~ never_fails (c_heap st)
    | Some h => represents (Some h) None b X st' /\ added_entry (s_cache st) (s_cache st') h
        /\ exists e, assoc h (s_cache st') = Some e /\ key_of_entry e = (canon hn, n, p)
    end)).
  { eapply yields_mono; [by apply get_or_add_entry_spec|]. intros [r st'] (Hq & _ & H). by split. }
  destruct owner as [[c e]|]; cbn [fmap option_fmap option_map fst]; [|exact Hadd].
  destruct (Howner c e eq_refl) as (Hc & Hn & Hp). eapply w_get_entry; [exact Hc|].
  destruct (mdns_utils_str_case_equal (ce_hostname e) hn) eqn:Eh; [|exact Hadd].
  apply case_equal_canon in Eh as [Eh _]. split; [done|]. split_and!; [by apply represents_weaken|by left|].
  exists e. split; [done|]. unfold key_of_entry. by rewrite Eh, Hn, Hp.
Qed.

(** The service is under its host; the entry it came from is still there. *)
Record placed (k : service_key) (hk : host_key) (owner : option cid) b X h v res st (e1 : mdns_cache_entry_t)
    (s1 : mdns_service_cache_t) (X1 : list pointed) : Prop := {
  pl_owns : owns (s_cache st) h e1 v s1;
  pl_host : key_of_entry e1 = hk;
  pl_key : key_of_service e1 s1 = k;
  pl_put : forall d t, cache_put (NameSrv k, d) t (abstracted X1) = cache_put (NameSrv k, d) t (abstracted X);
  pl_same : cache_get (NameSrv k) (abstracted X1) = None -> abstracted X1 = abstracted X;
  pl_owner : match owner with
    | None => represents None (Some v) b X1 st
    | Some c => represents (Some c) None b X1 st /\ exists e, assoc c (s_cache st) = Some e
        /\ ce_esp_netif e = snd (fst hk) /\ ce_ip_protocol e = snd hk
    end;
  pl_res : match res with
    | MDNS_CACHE_ADDED => owner = None
    | MDNS_CACHE_NO_CHANGE => is_Some owner /\ X1 = X
    | MDNS_CACHE_UPDATED => is_Some owner
        /\ forall pr w po ttl, cache_get (NameSrv k) (abstracted X) <> Some (DataSrv (fst (fst hk)) pr w po ttl)
    | _ => False
    end;
}.

Lemma place_spec b X st h eh i s pr n p hn (found : option (cid * vid * mdns_service_cache_t)) :
  let k := key_of_names n p i s pr in
  represents (Some h) None b X st -> assoc h (s_cache st) = Some eh -> key_of_entry eh = (canon hn, n, p) ->
  named i s pr ->
  match found with
  | None => k ∉ flat_map keys_of_services (s_cache st)
  | Some (c, v, s) => exists e, owns (s_cache st) c e v s /\ key_of_service e s = k
  end ->
  yields (srv_service addr (fst <$> found) h i s pr st) (fun '(r, st') => quiet st st' /\
    match r with
    | None => represents None None b X st' /\ ~ never_fails (c_heap st)
    | Some (v, res) => exists e1 s1 X1,
        placed k (canon hn, n, p) ((fun x => fst (fst x)) <$> found) b X h v res st' e1 s1 X1
    end).
Proof using addr_new.
  intros k HX Hh Hhk Hnm Hfound. pose proof (r_tree _ _ _ _ _ HX) as Hl. pose proof Hhk as Hhk'.
  injection Hhk' as Hhost Hnet Hproto. unfold srv_service.
  destruct found as [[[c v] sv]|]; cbn [fmap option_fmap option_map fst].
  - destruct Hfound as (e & Ho & Hk). pose proof (proj1 Ho) as Hc. case_decide as Heq.
    + subst c. rewrite Hh in Hc. injection Hc as <-. split; [done|]. exists eh, sv, X. split; try done. split; [done|eauto].
    + assert (Ht : assoc h (alter_at c (take_service v) (s_cache st)) = Some eh).
      { rewrite assoc_alter_at, decide_False; [done|]. congruence. }
      assert (Hk' : key_of_service eh sv = key_of_service e sv).
      { rewrite Hk. unfold k, key_of_service, key_of_names in *. rewrite Hnet, Hproto.
        injection Hk as _ _ -> -> ->. done. }
      eapply st_seq; [by apply (move_spec (Some h) b X st c h e eh v sv HX Ho Ht ltac:(by right) Hk')|].
      intros r st' (-> & Hq & Hcache & HX'). cbn [negb yields mret ST_ret]. split; [done|].
      destruct (move_owns st c h e eh v sv Ho Ht) as [Ho' (e0 & Hc' & Hn0 & Hp0)].
      rewrite <- Hcache in Ho', Hc'. rewrite Hk in HX'. eexists _, _, _. split; [exact Ho'|done|..].
      * change (key_of_service (give_service v sv eh) sv) with (key_of_service eh sv). congruence.
      * intros d t. by rewrite move_abstracted, rehost_put.
      * rewrite move_abstracted. intros Hnone%rehost_get. by rewrite rehost_same.
      * split; [done|]. exists e0. unfold k, key_of_service, key_of_names in Hk. injection Hk as Hkn Hkp _ _ _. cbn. by rewrite Hn0, Hp0.
      * split; [by eexists|]. intros pr0 w po ttl Hg. cbn [fst] in Hg.
        destruct (get_service_record _ _ _ _ _ _ _ _ _ (NameSrv k) (DataSrv (canon hn) pr0 w po ttl) HX Ho) as [p0 Hrec0];
          [by rewrite Hk|exact Hg|].
        apply service_record_inv in Hrec0 as [_ [(_ & _ & ?)|[(_ & _ & Hr)|[(_ & _ & ?)|(? & ? & _ & _ & ?)]]]]; try done.
        assert (Hhost' : canon hn = canon (ce_hostname e)) by (clear -Hr; congruence). apply Heq.
        destruct (entry_host_key (s_cache st) c e h eh Hl) as [-> _]; [..|done].
        -- by apply assoc_elem_of; [apply (t_entries _ Hl)|].
        -- by apply assoc_elem_of; [apply (t_entries _ Hl)|].
        -- unfold k, key_of_service, key_of_names in Hk. rewrite Hhk. unfold key_of_entry. congruence.
  - destruct Hnm as (Hi & Hs & Hp). eapply st_seq.
    { apply (add_service_spec addr addr_new (Some h) b X st h eh i s pr HX); try done; [by right|].
      rewrite Hnet, Hproto. exact Hfound. }
    intros [v|] st1; cbn beta iota; intros (Hq1 & He1 & H1).
    + destruct H1 as (HX1 & Hv & Hcache). split; [done|]. exists (give_service v (new_service i s pr) eh), (new_service i s pr), X. split; try done.
      * split; [|cbn; by rewrite Pos.eqb_refl]. by rewrite Hcache, assoc_alter_at, decide_True, Hh.
      * unfold key_of_service, k, key_of_names. cbn. by rewrite Hnet, Hproto.
    + destruct H1 as (HX1 & Hcache & Hf). eapply st_seq.
      { eapply (prune_spec (Some h)); [exact HX1|by right|rewrite Hcache; exact Hh]. }
      intros r st2 (Hq2 & _ & HX2). cbn [yields mret ST_ret]. split_and!; [by etransitivity|done|done].
Qed.

(** Without an SRV record, going back restores the records. *)
Lemma undo_spec k hk owner b X h v res st e1 s1 X1 : placed k hk owner b X h v res st e1 s1 X1 ->
  sc_srv_present s1 = false ->
  yields (srv_undo owner h v st) (fun '(_, st') => quiet st st' /\ exists X',
    represents None None b X' st' /\ abstracted X' = abstracted X1).
Proof.
  intros [Ho Hhk Hk _ _ Hown Hres] Hsrv. unfold srv_undo. destruct owner as [c|].
  - destruct Hown as [HX (ec & Hec & Hn & Hp)]. pose proof (r_tree _ _ _ _ _ HX) as Hl.
    assert (Ht : exists e', assoc c (alter_at h (take_service v) (s_cache st)) = Some e'
      /\ ce_esp_netif e' = ce_esp_netif ec /\ ce_ip_protocol e' = ce_ip_protocol ec).
    { rewrite assoc_alter_at, Hec. case_decide; eexists; by split_and!. }
    destruct Ht as (e' & Ht & Hn' & Hp').
    assert (Hk' : key_of_service e' s1 = key_of_service e1 s1).
    { unfold key_of_service. unfold key_of_entry in Hhk. rewrite Hn', Hp', Hn, Hp, <- Hhk. done. }
    eapply st_seq; [by apply (move_spec (Some c) b X1 st h c e1 e' v s1 HX Ho Ht ltac:(by right) Hk')|].
    intros r st' (_ & Hq & Hcache & HX'). destruct (move_owns st h c e1 e' v s1 Ho Ht) as [_ (eh & Heh & _)].
    rewrite <- Hcache in Heh. eapply st_seq; [eapply (prune_spec (Some h)); [exact HX'|by right|exact Heh]|].
    intros r2 st2 (Hq2 & _ & HX2). split; [by etransitivity|]. eexists. split; [exact HX2|].
    rewrite move_abstracted. apply rehost_same.
    destruct (srv_slot h e1 v s1 0 0 0 0) as (rest & Hslot & _).
    pose proof (slot_get _ _ _ _ _ _ _ _ _ _ _ _ _ HX Ho Hslot) as Hget. cbn [fst] in Hget. rewrite Hget.
    unfold srv_records. by rewrite Hsrv.
  - eapply yields_mono; [eapply (remove_service_spec None (Some v)); [exact Hown|by left|by right|exact Ho]|].
    intros [[] st'] (Hq & _ & HX). split; [done|]. by exists X1.
Qed.

Lemma srv_result_iff c e v s pr w po ttl :
  snd (service_cache_srv_update s pr w po ttl)
  = if decide ((fun y : pointers * cache_record => snd (snd y))
        <$> head (srv_records (key_of_service e s) (canon (ce_hostname e)) c v s)
        = Some (DataSrv (canon (ce_hostname e)) pr w po ttl))
    then MDNS_CACHE_NO_CHANGE else MDNS_CACHE_UPDATED.
Proof.
  unfold service_cache_srv_update, srv_records, update_ttl.
  destruct (sc_srv_present s), (sc_priority s =? pr)%Z eqn:E1, (sc_weight s =? w)%Z eqn:E2, (sc_port s =? po)%Z eqn:E3,
    (sc_srv_ttl s =? ttl)%Z eqn:E4; cbn; case_decide as Hd; try done; exfalso; bsimp; try congruence.
Qed.

Lemma placed_heap k hk owner b X h v res st e1 s1 X1 hp : live hp = live (c_heap st) ->
  placed k hk owner b X h v res st e1 s1 X1 -> placed k hk owner b X h v res (set_c_heap st hp) e1 s1 X1.
Proof.
  intros Hh [Ho Hhk Hk Hput Hsame Hown Hres]. split; try done. destruct owner as [c|].
  - destruct Hown as [HX Hc]. split; [by apply set_heap_same|done].
  - by apply set_heap_same.
Qed.

Section Store.
Context (k : service_key) (hk : host_key) (owner : option cid) (b : Z) (X : list pointed) (h : cid) (v : vid).
Context (res : mdns_cache_update_result_t) (st0 st : client) (e1 : mdns_cache_entry_t).
Context (s1 : mdns_service_cache_t) (X1 : list pointed) (pr w po ttl : Z).
Hypothesis Hplaced : placed k hk owner b X h v res st e1 s1 X1.
Hypothesis Hquiet : quiet st0 st.
Hypothesis Hknown : known k (abstracted X) = match owner with Some _ => true | None => false end.

(** The result, when the record was written. *)
Lemma store_result :
  ((if decide (res = MDNS_CACHE_NO_CHANGE) then snd (service_cache_srv_update s1 pr w po ttl) else res),
   cache_put (NameSrv k, DataSrv (fst (fst hk)) pr w po ttl) (expiry_time (c_now st0) ttl) (abstracted X1))
  = abstract_refresh k (NameSrv k) (DataSrv (fst (fst hk)) pr w po ttl) (expiry_time (c_now st0) ttl) (abstracted X).
Proof using Hplaced Hknown.
  destruct Hplaced as [Ho Hhk Hk Hput _ Hown Hres]. unfold abstract_refresh. rewrite Hput, Hknown. f_equal.
  destruct res; try done; cbn.
  - destruct Hres as [[c ->] ->]. destruct Hown as [HX _].
    destruct (srv_slot h e1 v s1 pr w po ttl) as (rest & Hslot & _).
    pose proof (slot_get _ _ _ _ _ _ _ _ _ _ _ _ _ HX Ho Hslot) as Hget. cbn [fst] in Hget. rewrite Hk in Hget.
    rewrite Hget, (srv_result_iff h e1 v), Hk. unfold key_of_entry in Hhk. rewrite <- Hhk. done.
  - by rewrite Hres.
  - destruct Hres as [[c ->] Hne]. by rewrite !decide_False by (apply Hne || done).
Qed.

Lemma store_spec :
  yields (srv_store owner h v res pr w po ttl st)
    (refines st0 b X (abstract_refresh k (NameSrv k) (DataSrv (fst (fst hk)) pr w po ttl)
                        (expiry_time (c_now st0) ttl) (abstracted X))).
Proof using Hplaced Hquiet Hknown.
  pose proof Hplaced as [Ho Hhk Hk Hput Hsame Hown Hres].
  assert (HX : exists xe xs, represents xe xs b X1 st) by (destruct owner; [destruct Hown|]; eauto).
  destruct HX as (xe & xs0 & HX). pose proof (r_tree _ _ _ _ _ HX) as Hl.
  destruct (srv_slot h e1 v s1 pr w po ttl) as (rest & Hslot & _).
  pose proof (slot_get _ _ _ _ _ _ _ _ _ _ _ _ _ HX Ho Hslot) as Hget. cbn [fst] in Hget.
  unfold srv_store. eapply w_get_service; [by eapply owns_find|].
  eapply (w_node _ _ _ _ (srv_records (key_of_service e1 s1) (canon (ce_hostname e1)) h v s1));
    [unfold srv_records; destruct (sc_srv_present s1); naive_solver|..].
  { intros hp Hh Hf Hpr. cbn [negb]. eapply st_seq.
    { eapply (undo_spec k hk owner b X h v res); [by apply placed_heap|done]. }
    intros [] st' (Hq & X' & HX' & Habs). split; [etransitivity; [exact Hquiet|]; etransitivity; [|exact Hq]; by_quiet|].
    exists X'. split; [done|]. right. cbn [fst]. split_and!; [done| |].
    - intros Hn. by apply Hf, (q_never _ _ Hquiet).
    - rewrite Habs. apply Hsame. rewrite <- Hk, Hget. unfold srv_records. by rewrite Hpr. }
  intros st2 Hready Hq2 Hc2 Hlive. cbn [negb].
  match goal with |- yields ((_ ≫= ?m) _) _ => set (go := m) end.
  assert (Hgo : forall r xs sb s2, represents None xs b X1 sb -> (xs = None \/ xs = Some v) ->
    owns (s_cache sb) h e1 v s1 -> s_expiry sb = s_expiry st -> s_expiry s2 = s_expiry st2 -> quiet st sb -> quiet sb s2 ->
    s_cache s2 = s_cache sb ->
    (live (c_heap s2) - Z.of_nat (length (s_expiry s2)) = live (c_heap sb) - Z.of_nat (length (s_expiry sb)))%Z ->
    yields (go r s2) (refines st0 b X (abstract_refresh k (NameSrv k) (DataSrv (fst (fst hk)) pr w po ttl)
                        (expiry_time (c_now st0) ttl) (abstracted X)))).
  { intros r xs sb s2 HXb Hxs Hob Heb He2 Hqb Hqs Hcs Hlv. unfold go.
    eapply w_get_service; [rewrite Hcs; eapply owns_find; [apply (r_tree _ _ _ _ _ HXb)|exact Hob]|]. cbn zeta.
    eapply (srv_write xs b X1 sb); [done|done|exact Hob| |done|done|done|].
    { destruct Hready as [[He Hne]|(Ho0 & hp & He)]; [left; split; [congruence|done]|].
      right. split; [done|]. exists hp. rewrite He2, He. unfold with_new_node. destruct (of_service _ h v) as [[[[]]]].
      cfields. by rewrite Heb. }
    intros st3 X' Hq3 Hfs HX3 Habs. eapply st_seq; [by apply mark_spec|]. intros [] st4 (Hq4 & _ & HX4 & _).
    assert (Hqq : quiet st0 sb) by (by etransitivity).
    split; [etransitivity; [exact Hqq|]; by etransitivity|]. exists X'. split; [done|]. left. cbn [fst].
    rewrite Habs, (q_now _ _ Hqq), Hk. rewrite <- store_result. unfold key_of_entry in Hhk. by rewrite <- Hhk. }
  destruct owner as [c|].
  - destruct Hown as [HXc (ec & Hec & _)]. eapply w_prune; [rewrite Hc2; exact Hec|]. intros r hp Hh Hn.
    set (h0 := mk_heap (fails (c_heap st)) (live (c_heap st) - pruned_blocks ec)).
    apply (Hgo _ None (set_cache (set_c_heap st h0) (prune c ec (s_cache st)))); cfields; try done.
    + eapply prune_represents; [exact HXc|by right|exact Hec|done].
    + by left.
    + by eapply prune_owns.
    + destruct Hq2. split; cfields; try congruence. auto.
    + by rewrite Hc2.
    + cbn [h0 live]. lia.
  - apply st_ret. apply (Hgo _ (Some v) st); try done. by right.
Qed.

End Store.

Lemma cache_update_srv_spec b X st esp_netif ip_protocol hostname instance service proto priority weight port ttl :
  represents None None b X st -> named instance service proto ->
  yields (mdns_priv_cache_update_srv addr esp_netif ip_protocol hostname instance service proto priority weight port ttl st)
    (refines st b X (abstract_update_srv (c_now st) esp_netif ip_protocol hostname instance service proto
                       priority weight port ttl (abstracted X))).
Proof using addr_new.
  intros HX Hnm. unfold mdns_priv_cache_update_srv, abstract_update_srv, abstract_record. apply st_reads. cbn zeta.
  pose proof (r_tree _ _ _ _ _ HX) as Hl.
  pose proof (found_known _ X st esp_netif ip_protocol _ _ _ HX Hnm) as Hk.
  destruct (ttl =? 0)%Z eqn:Et.
  { destruct (cache_find_service _ _ _ _ _ _) as [[[c v] s]|] eqn:Ef.
    - destruct (cache_find_Some _ _ _ _ _ _ _ _ _ Hl Ef) as (e & Ho & <-). by apply srv_goodbye.
    - unfold abstract_goodbye. erewrite get_unknown; [|done|exact Hk]. by apply refines_same. }
  set (found := cache_find_service _ _ _ _ _ _) in *. set (k := key_of_names _ _ _ _ _) in *.
  assert (Hfound : forall c v s, found = Some (c, v, s) -> exists e, owns (s_cache st) c e v s /\ key_of_service e s = k)
    by (intros c v s Hf; by eapply cache_find_Some).
  set (owner := match found with
    | Some (c, _, _) => (fun e => (c, e)) <$> assoc c (s_cache st) | None => None end).
  assert (Howner : fst <$> owner = (fun x => fst (fst x)) <$> found).
  { unfold owner. destruct found as [[[c v] s]|]; [|done]. destruct (Hfound c v s eq_refl) as (e & [Hc _] & _).
    by rewrite Hc. }
  rewrite <- Howner. eapply st_seq; [apply (host_entry_spec b X st owner); [done|]|].
  { intros c e Heq. unfold owner in Heq. destruct found as [[[c' v] s]|]; [|done].
    destruct (Hfound c' v s eq_refl) as (e' & [Hc Hv] & Hk'). rewrite Hc in Heq. injection Heq as <- <-.
    unfold k, key_of_service, key_of_names in Hk'. injection Hk' as ? ? _ _ _. done. }
  intros [h|] st1; cbn beta iota.
  2:{ intros (Hq & HX1 & Hn). split; [done|]. exists X. split; [done|by right]. }
  intros (Hq1 & HX1 & Hadd & eh & Hh & Hhk).
  eapply st_seq; [apply (place_spec b X st1 h eh _ _ _ _ _ hostname found HX1 Hh Hhk Hnm)|].
  { destruct found as [[[c v] s]|] eqn:Ef.
    - destruct (Hfound c v s eq_refl) as (e & Ho & Hk'). exists e. split; [by eapply added_owns|done].
    - rewrite (added_keys _ _ _ Hadd). by apply cache_find_None. }
  intros [[v res]|] st2; cbn beta iota.
  2:{ intros (Hq & HX2 & Hn). split; [by etransitivity|]. exists X. split; [done|]. right.
      split_and!; [done| |done]. intros Hn0. by apply Hn, (q_never _ _ Hq1). }
  intros (Hq2 & e1 & s1 & X1 & Hpl). rewrite <- Howner in Hpl.
  replace (calc_expiration_time_us (c_now st) ttl) with (expiry_time (c_now st) ttl) by (unfold expiry_time; by rewrite Et).
  eapply (store_spec k (canon hostname, esp_netif, ip_protocol)); [exact Hpl|by etransitivity|].
  rewrite Hk. unfold owner. destruct found as [[[c v'] s]|]; [|done].
  destruct (Hfound c v' s eq_refl) as (e & [Hc _] & _). by rewrite Hc.
Qed.

End UpdateSrv.
