(* ===== verification/CacheReceive.v ===== *)
(** The records of a packet, each one received into the cache. *)
From S2P Require Import Prelude Names Server Heap Txt State Cache CacheTree CacheExpiry CacheRefine CacheOps CacheUpdate CacheTxt CacheAddr CacheSrv.

(** A record that is received, with what the cache is called with. *)
Inductive received_record :=
| ReceivedPtr (instance service proto subtype : option cstr) (ttl : Z)
| ReceivedTxt (instance service proto : option cstr) (txt : list mdns_txt_linked_item_t) (ttl : Z)
| ReceivedAddr (hostname : option cstr) (ip : esp_ip_addr_t) (ttl : Z)
| ReceivedSrv (hostname instance service proto : option cstr) (priority weight port ttl : Z).

(** The list of TXT items is handed over with its blocks. *)
Definition handed_over (r : received_record) : Z := match r with ReceivedTxt _ _ _ txt _ => list_blocks txt | _ => 0 end.

(** What the parser guarantees: SRV and TXT records name an instance of a service. *)
Definition record_named (r : received_record) : Prop :=
  match r with
  | ReceivedTxt instance service proto txt _ => named instance service proto /\ Forall txt_item_wf txt
  | ReceivedSrv _ instance service proto _ _ _ _ => named instance service proto
  | _ => True
  end.

Section Receive.
Context (addr : list positive -> positive).
Hypothesis addr_new : forall l, addr l ∉ l.

(** The call for a record, and what it stands for. *)
Definition cache_update (esp_netif : netif) (ip_protocol : mdns_ip_protocol_t) (r : received_record)
    : C mdns_cache_update_result_t :=
  match r with
  | ReceivedPtr instance service proto subtype ttl =>
      mdns_priv_cache_update_ptr addr esp_netif ip_protocol instance service proto subtype ttl
  | ReceivedTxt instance service proto txt ttl =>
      mdns_priv_cache_update_txt addr esp_netif ip_protocol instance service proto txt ttl
  | ReceivedAddr hostname ip ttl => mdns_priv_cache_update_addr addr esp_netif ip_protocol hostname ip ttl
  | ReceivedSrv hostname instance service proto priority weight port ttl =>
      mdns_priv_cache_update_srv addr esp_netif ip_protocol hostname instance service proto priority weight port ttl
  end.

Definition abstract_update (now : Z) (esp_netif : netif) (ip_protocol : mdns_ip_protocol_t) (r : received_record) (A : abstract_cache)
    : mdns_cache_update_result_t * abstract_cache :=
  match r with
  | ReceivedPtr instance service proto subtype ttl =>
      abstract_update_ptr now esp_netif ip_protocol instance service proto subtype ttl A
  | ReceivedTxt instance service proto txt ttl => abstract_update_txt now esp_netif ip_protocol instance service proto txt ttl A
  | ReceivedAddr hostname ip ttl => abstract_update_addr now esp_netif ip_protocol hostname ip ttl A
  | ReceivedSrv hostname instance service proto priority weight port ttl =>
      abstract_update_srv now esp_netif ip_protocol hostname instance service proto priority weight port ttl A
  end.

(** C21.  Receiving a PTR, TXT, SRV or address record does to the records of the cache
    what the abstract cache says, with the same result: a record with a TTL replaces
    the one of its name and expires that much later, one with TTL 0 is left to expire
    at once if it is there; a service moves to the host its SRV record names, wherever
    it was before; a list of TXT items is taken over, or freed when the cache has the
    same one already.  When memory runs out the result is an error and no record has
    changed.  Nothing leaks. *)
Theorem cache_update_refines b X st esp_netif ip_protocol r :
  represents None None (b + handed_over r) X st -> record_named r ->
  yields (cache_update esp_netif ip_protocol r st)
    (refines st b X (abstract_update (c_now st) esp_netif ip_protocol r (abstracted X))).
Proof using addr_new.
  intros HX Hn. destruct r; cbn [cache_update abstract_update handed_over record_named] in *; rewrite ?Z.add_0_r in HX.
  - by apply cache_update_ptr_spec.
  - destruct Hn. by apply cache_update_txt_spec.
  - eapply yields_mono; [by apply cache_update_addr_spec|]. by intros x [Hx|[? _]].
  - by apply cache_update_srv_spec.
Qed.

End Receive.
