(* ===== verification/Browse.v ===== *)
(** Browsing: components/mdns/mdns_browser.c, and the part of mdns_cache.c that
    reports to it (removal of expired records, trimming, synchronisation, the
    projection of a cached service to a result).

    A notifier is an identifier, and its calls are recorded with the result they
    get; the result itself is freed when the call returns. *)
From S2P Require Import Prelude Names Server Heap Txt State Cache.

(** * The projection of a cached service *)

Definition result_blocks (r : mdns_result_t) : Z :=
  (1 + opt_block (rs_hostname r) + opt_block (rs_instance_name r) + opt_block (rs_service_type r)
   + opt_block (rs_proto r) + opt_block (rs_subtype r)
   + match rs_txt r with [] => 0 | l => 2 + items_blocks l end + Z.of_nat (length (rs_addr r)))%Z.

Definition mdns_priv_query_results_free (r : mdns_result_t) : H unit := mfree (result_blocks r).

(** The copying loop; [acc] holds the items copied so far, [None] is the label
    [cleanup], behind which their strings are freed. *)
Fixpoint project_items (l acc : list mdns_txt_linked_item_t) : H (option (list mdns_txt_linked_item_t)) :=
  match l with
  | [] => mret (Some acc)
  | t :: l =>
      match key t with
      | None => hlift BadAccess
      | Some k =>
          ok ← malloc;
          if negb ok then _ ← mfree (items_blocks acc); mret None
          else
            match value t with
            | None =>
                if negb (value_len t =? 0)%Z then _ ← mfree (1 + items_blocks acc); mret None
                else project_items l (acc ++ [mk_txt (Some k) None (value_len t)])
            | Some v =>
                ok ← malloc;
                if negb ok then _ ← mfree (1 + items_blocks acc); mret None
                else
                  bs ← hlift (rd_bytes v 0 (Z.to_nat (value_len t)));
                  project_items l (acc ++ [mk_txt (Some k) (Some (bs ++ [0%Z])) (value_len t)])
            end
      end
  end.

Definition project_txt (txt_list : list mdns_txt_linked_item_t) : H (option (list mdns_txt_linked_item_t)) :=
  match txt_list with
  | [] => mret (Some [])
  | _ =>
      txt_items ← malloc;
      if negb txt_items then mret None
      else
        value_len ← malloc;
        if negb value_len then _ ← mfree 1; mret None
        else
          r ← project_items txt_list [];
          match r with
          | None => _ ← mfree 2; mret None
          | Some l => mret (Some l)
          end
  end.

Fixpoint project_addr (l : list (aid * mdns_cache_addr_t)) (acc : list esp_ip_addr_t)
    : H (option (list esp_ip_addr_t)) :=
  match l with
  | [] => mret (Some acc)
  | x :: l =>
      ok ← malloc;
      if negb ok then _ ← mfree (Z.of_nat (length acc)); mret None
      else project_addr l (acc ++ [ca_addr (snd x)])
  end.

(** [None] is [ESP_ERR_NO_MEM]. *)
Definition mdns_priv_service_cache_to_result (entry : mdns_cache_entry_t) (service : mdns_service_cache_t)
    : H (option mdns_result_t) :=
  let error (r : mdns_result_t) : H (option mdns_result_t) :=
    _ ← mdns_priv_query_results_free r; mret None in
  ok ← malloc;
  if negb ok then mret None
  else
    let r := mk_result (ce_esp_netif entry) (sc_ptr_ttl service) (ce_ip_protocol entry)
               None None None None 0 [] [] None in
    i ← dup_string (sc_instance_name service);
    match i with
    | None => error r
    | Some i =>
      let r := set_rs_instance r i in
      s ← dup_string (sc_service service);
      match s with
      | None => error r
      | Some s =>
        let r := set_rs_service r s in
        p ← dup_string (sc_proto service);
        match p with
        | None => error r
        | Some p =>
          let r := set_rs_proto r p in
          srv ← (if sc_srv_present service then
                   h ← (match ce_hostname entry with
                        | None => mret (Some None)
                        | Some h => ok ← malloc; mret (if (ok : bool) then Some (Some h) else None)
                        end);
                   match h with
                   | None => mret (r, false)
                   | Some h =>
                       let r := set_rs_port (set_rs_hostname r h) (sc_port service) in
                       a ← project_addr (ce_addr_list entry) [];
                       match a with
                       | None => mret (r, false)
                       | Some a => mret (set_rs_addr r a, true)
                       end
                   end
                 else mret (r, true));
          let '(r, ok) := srv in
          if negb ok then error r
          else if sc_txt_present service then
            t ← project_txt (sc_txt_list service);
            match t with
            | None => error r
            | Some t => mret (Some (set_rs_txt r t))
            end
          else mret (Some r)
        end
      end
    end.

(** * Matching *)

Definition browse_matches_identity (b : mdns_browse_t) (service proto : option cstr) : bool :=
  mdns_utils_str_case_equal (b_service b) service && mdns_utils_str_case_equal (b_proto b) proto.

Definition browse_matches_identity_with_subtype (b : mdns_browse_t) (service proto subtype : option cstr) : bool :=
  browse_matches_identity b service proto && mdns_utils_str_case_equal_nullable (b_subtype b) subtype.

Definition get_non_off_browse_item (l : list (bid * mdns_browse_t)) (service proto subtype : option cstr)
    : option (bid * mdns_browse_t) :=
  List.find (fun x => negb (bool_decide (b_state (snd x) = BROWSE_OFF))
                      && browse_matches_identity_with_subtype (snd x) service proto subtype) l.

Definition is_running (b : mdns_browse_t) : bool := bool_decide (b_state b = BROWSE_RUNNING).

Definition mdns_priv_browse_has_service (l : list (bid * mdns_browse_t)) (service proto : option cstr) : bool :=
  existsb (fun x => is_running (snd x) && browse_matches_identity (snd x) service proto) l.

Definition mdns_priv_browse_has_subtype (l : list (bid * mdns_browse_t)) (service proto subtype : option cstr)
    : bool :=
  existsb (fun x => is_running (snd x) && browse_matches_identity_with_subtype (snd x) service proto subtype) l.

Definition browse_matches_service_cache (b : mdns_browse_t) (s : mdns_service_cache_t) : bool :=
  is_running b && bool_decide (is_Some (b_notifier b))
  && mdns_utils_str_case_equal (b_service b) (sc_service s)
  && mdns_utils_str_case_equal (b_proto b) (sc_proto s).

(** Whether it matches, and the subtype found. *)
Definition browse_matches_service_cache_with_subtype (b : mdns_browse_t) (s : mdns_service_cache_t)
    : bool * option mdns_cache_subtype_t :=
  if negb (browse_matches_service_cache b s) then (false, None)
  else if mdns_utils_str_null_or_empty (b_subtype b) then (sc_ptr_present s, None)
  else
    let subtype_node := snd <$> service_cache_find_subtype s (b_subtype b) in
    (bool_decide (is_Some subtype_node), subtype_node).

(** * Notifying *)

Definition call_notifier (b : mdns_browse_t) (r : mdns_result_t) : C unit :=
  match b_notifier b with
  | Some f => writes (fun st => set_results st (c_results st ++ [(f, r)]))
  | None => mret tt
  end.

Definition browse_build_and_notify_temp_result (b : mdns_browse_t) (entry : mdns_cache_entry_t)
    (service : mdns_service_cache_t) (subtype : option mdns_cache_subtype_t) (goodbye : bool) : C bool :=
  r ← alloc (mdns_priv_service_cache_to_result entry service);
  match r with
  | None => mret false
  | Some r =>
      r ← (if mdns_utils_str_null_or_empty (b_subtype b) then mret (Some r)
           else
             let r := match subtype with Some t => set_rs_ttl r (st_ttl t) | None => r end in
             ok ← alloc malloc;
             if negb ok then _ ← alloc (mdns_priv_query_results_free r); mret None
             else mret (Some (set_rs_subtype r (b_subtype b))));
      match r with
      | None => mret false
      | Some r =>
          let r := if goodbye then set_rs_ttl r 0 else r in
          _ ← call_notifier b r;
          _ ← alloc (mdns_priv_query_results_free r);
          mret true
      end
  end.

Definition MDNS_CACHE_RECORD_BROWSE_SHARED : Z :=
  Z.lor (Z.lor (record_bit MDNS_CACHE_RECORD_SRV) (record_bit MDNS_CACHE_RECORD_TXT))
    (record_bit MDNS_CACHE_RECORD_ADDR).

Definition browse_need_update (b : mdns_browse_t) (subtype : option mdns_cache_subtype_t) (records : Z) : bool :=
  if negb (Z.land records MDNS_CACHE_RECORD_BROWSE_SHARED =? 0)%Z then true
  else if mdns_utils_str_null_or_empty (b_subtype b) then
    negb (Z.land records (record_bit MDNS_CACHE_RECORD_PTR) =? 0)%Z
  else if (Z.land records (record_bit MDNS_CACHE_RECORD_SUBTYPE) =? 0)%Z then false
  else match subtype with Some t => st_pending_sync t | None => false end.

Definition mdns_priv_browse_update_from_service_cache (entry : mdns_cache_entry_t)
    (service : mdns_service_cache_t) (records : Z) : C bool :=
  l ← reads s_browse;
  iter_and l (fun x =>
    let '(matches, subtype) := browse_matches_service_cache_with_subtype (snd x) service in
    if negb matches then mret true
    else if negb (browse_need_update (snd x) subtype records) then mret true
    else browse_build_and_notify_temp_result (snd x) entry service subtype false).

Definition mdns_priv_browse_notify_from_service_cache (entry : mdns_cache_entry_t)
    (service : mdns_service_cache_t) (b : mdns_browse_t) : C bool :=
  let '(matches, subtype) := browse_matches_service_cache_with_subtype b service in
  if negb matches then mret true
  else browse_build_and_notify_temp_result b entry service subtype false.

Definition mdns_priv_browse_notify_ptr_goodbye_from_service_cache (entry : mdns_cache_entry_t)
    (service : mdns_service_cache_t) (subtype : option cstr) : C bool :=
  l ← reads s_browse;
  iter_and l (fun x =>
    if negb (browse_matches_service_cache (snd x) service) then mret true
    else if negb (mdns_utils_str_case_equal_nullable (b_subtype (snd x)) subtype) then mret true
    else browse_build_and_notify_temp_result (snd x) entry service None true).

(** The nested loops over the entries and their services. *)
Definition all_services (l : list (cid * mdns_cache_entry_t)) : list (cid * vid) :=
  flat_map (fun x => map (fun y => (fst x, fst y)) (ce_service_cache_list (snd x))) l.

Definition mdns_priv_cache_process_sync : C unit :=
  pending ← reads s_sync_pending;
  if negb pending then mret tt
  else
    _ ← writes (fun st => set_sync_pending st false);
    l ← reads (fun st => all_services (s_cache st));
    iter l (fun x =>
      e ← get_entry (fst x);
      s ← get_service_cache (snd x);
      if (Z.land (sc_sync_consumers s) MDNS_CACHE_CONSUMER_BROWSE =? 0)%Z then mret tt
      else
        _ ← mdns_priv_browse_update_from_service_cache e s (sc_sync_records s);
        service_cache_clear_sync_out (snd x) MDNS_CACHE_CONSUMER_BROWSE).

Definition mdns_priv_cache_notify_browse (b : mdns_browse_t) : C bool :=
  l ← reads (fun st => all_services (s_cache st));
  iter_and l (fun x =>
    e ← get_entry (fst x);
    s ← get_service_cache (snd x);
    mdns_priv_browse_notify_from_service_cache e s b).

(** * Expiry *)

(** The end of an iteration, for a node that points to a service. *)
Definition expired_service (n : mdns_cache_expiry_t) : C unit :=
  match ex_service n with
  | None => mret tt
  | Some v =>
      s ← get_service_cache v;
      if service_cache_is_empty s then cache_remove_service_if_empty (ex_entry n) v
      else
        match ex_record n with
        | MDNS_CACHE_RECORD_PTR | MDNS_CACHE_RECORD_SUBTYPE => mret tt
        | r => service_cache_mark_sync_out (Some v) MDNS_CACHE_UPDATED (record_bit r) MDNS_CACHE_CONSUMER_BROWSE
        end
  end.

(** The [switch], without the node itself. *)
Definition expire_record (n : mdns_cache_expiry_t) : C unit :=
  match ex_record n, ex_service n, ex_addr n, ex_subtype n with
  | MDNS_CACHE_RECORD_PTR, Some v, _, _ =>
      _ ← put_service v (fun s => set_ptr_ttl (set_ptr_present s false) 0);
      e ← get_entry (ex_entry n);
      s ← get_service_cache v;
      _ ← mdns_priv_browse_notify_ptr_goodbye_from_service_cache e s None;
      expired_service n
  | MDNS_CACHE_RECORD_SUBTYPE, Some v, _, Some t =>
      e ← get_entry (ex_entry n);
      s ← get_service_cache v;
      it ← asks (fun _ => deref (assoc t (sc_subtype_list s)));
      _ ← mdns_priv_browse_notify_ptr_goodbye_from_service_cache e s (Some (st_subtype it));
      _ ← put_service v (fun s => set_subtype_list s (remove_at t (sc_subtype_list s)));
      _ ← alloc (mfree 2);
      expired_service n
  | MDNS_CACHE_RECORD_SRV, Some v, _, _ =>
      _ ← put_service v (fun s =>
            set_srv_ttl (set_port (set_weight (set_priority (set_srv_present s false) 0) 0) 0) 0);
      expired_service n
  | MDNS_CACHE_RECORD_TXT, Some v, _, _ =>
      s ← get_service_cache v;
      _ ← alloc (mdns_utils_free_txt_linked_list (sc_txt_list s));
      _ ← put_service v (fun s => set_txt_ttl (set_txt_list (set_txt_present s false) []) 0);
      expired_service n
  | MDNS_CACHE_RECORD_ADDR, _, Some a, _ =>
      e ← get_entry (ex_entry n);
      _ ← asks (fun _ => deref (assoc a (ce_addr_list e)));
      _ ← put_entry (ex_entry n) (fun e => set_addr_list e (remove_at a (ce_addr_list e)));
      _ ← alloc (mfree 1);
      _ ← mark_entry_services (ex_entry n) MDNS_CACHE_UPDATED;
      _ ← cache_remove_entry_if_empty (Some (ex_entry n));
      expired_service n
  | _, _, _, _ => mret tt
  end.

Fixpoint remove_expired (fuel : nat) (now_us : Z) : C unit :=
  match fuel with
  | O => asks (fun _ => OutOfFuel)
  | S fuel =>
      l ← reads s_expiry;
      match l with
      | [] => mret tt
      | n :: rest =>
          if (now_us <? ex_expires_at_us n)%Z then mret tt
          else
            _ ← writes (fun st => set_expiry st rest);
            _ ← expire_record n;
            _ ← alloc (mfree 1);
            remove_expired fuel now_us
      end
  end.

(** Each iteration takes a node out of the list and none is added. *)
Definition mdns_priv_cache_remove_expired_records (now_us : Z) : C unit :=
  n ← reads (fun st => length (s_expiry st));
  remove_expired (S n) now_us.

Definition cache_service_has_consumer (l : list (bid * mdns_browse_t)) (s : mdns_service_cache_t) : bool :=
  mdns_priv_browse_has_service l (sc_service s) (sc_proto s).

Definition cache_record_has_consumer (st : client) (n : mdns_cache_expiry_t) : outcome bool :=
  match ex_record n, ex_service n with
  | MDNS_CACHE_RECORD_PTR, Some v =>
      match ex_subtype n with
      | Some _ => Ret false
      | None =>
          s ← deref (find_service v (s_cache st));
          Ret (mdns_priv_browse_has_subtype (s_browse st) (sc_service s) (sc_proto s) None)
      end
  | MDNS_CACHE_RECORD_SUBTYPE, Some v =>
      match ex_subtype n with
      | None => Ret false
      | Some t =>
          s ← deref (find_service v (s_cache st));
          it ← deref (assoc t (sc_subtype_list s));
          Ret (mdns_priv_browse_has_subtype (s_browse st) (sc_service s) (sc_proto s) (Some (st_subtype it)))
      end
  | MDNS_CACHE_RECORD_ADDR, _ =>
      e ← deref (assoc (ex_entry n) (s_cache st));
      Ret (existsb (fun x => cache_service_has_consumer (s_browse st) (snd x)) (ce_service_cache_list e))
  | _, Some v =>
      s ← deref (find_service v (s_cache st));
      Ret (cache_service_has_consumer (s_browse st) s)
  | _, None => Ret false
  end.

Definition MDNS_CACHE_UNSUBSCRIBED_GRACE_SEC : Z := 300.

(** The list is the nodes in front of [insert_link], then [moved], which were put
    there, then [kept], then the nodes not scanned yet. *)
Fixpoint trim_scan (st : client) (deadline : Z) (moved kept l : list mdns_cache_expiry_t)
    : outcome (list mdns_cache_expiry_t) :=
  match l with
  | [] => Ret (moved ++ kept)
  | n :: l =>
      b ← cache_record_has_consumer st n;
      if (b : bool) then trim_scan st deadline moved (kept ++ [n]) l
      else trim_scan st deadline (set_expires n deadline :: moved) kept l
  end.

Fixpoint split_deadline (deadline : Z) (l : list mdns_cache_expiry_t)
    : list mdns_cache_expiry_t * list mdns_cache_expiry_t :=
  match l with
  | [] => ([], [])
  | n :: l' => if (ex_expires_at_us n <=? deadline)%Z
               then let '(a, b) := split_deadline deadline l' in (n :: a, b)
               else ([], l)
  end.

Definition mdns_priv_cache_trim_unsubscribed_records (now_us : Z) : C unit :=
  let deadline := (now_us + MDNS_CACHE_UNSUBSCRIBED_GRACE_SEC * MDNS_US_PER_SEC)%Z in
  l ← reads s_expiry;
  let '(before, l) := split_deadline deadline l in
  l ← asks (fun st => trim_scan st deadline [] [] l);
  writes (fun st => set_expiry st (before ++ l)).

Section Update.
Context (addr : list positive -> positive).

Definition mdns_priv_cache_update_existing_addr (esp_netif : netif) (ip_protocol : mdns_ip_protocol_t)
    (hostname : option cstr) (ip : esp_ip_addr_t) (ttl : Z) : C mdns_cache_update_result_t :=
  found ← reads (fun st => cache_find_entry (s_cache st) hostname esp_netif ip_protocol);
  match found with
  | None => mret MDNS_CACHE_NO_CHANGE
  | Some (_, e) =>
      l ← reads s_browse;
      if existsb (fun x => mdns_priv_browse_has_service l (sc_service (snd x)) (sc_proto (snd x)))
           (ce_service_cache_list e)
      then cache_update_addr addr esp_netif ip_protocol hostname ip ttl false
      else mret MDNS_CACHE_NO_CHANGE
  end.

End Update.

(** * The browse interface *)

Section Interface.
Context (cfg : config) (MDNS_MAX_INTERFACES : nat) (addr : list positive -> positive).

Definition browse_blocks (b : mdns_browse_t) : Z :=
  (1 + opt_block (b_service b) + opt_block (b_proto b) + opt_block (b_subtype b))%Z.

Definition browse_item_free (b : mdns_browse_t) : H unit := mfree (browse_blocks b).

Definition send_browse_action (type : browse_action) (b : bid) : C bool :=
  ok ← alloc malloc;
  if negb ok then mret false
  else
    accepts ← reads c_accepts;
    let '(ok, rest) := next_bool accepts in
    _ ← writes (fun st => set_c_accepts st rest);
    if (ok : bool) then _ ← writes (fun st => set_actions st (c_actions st ++ [(type, b)])); mret true
    else _ ← alloc (mfree 1); mret false.

Definition browse_send (b : mdns_browse_t) (interface : mdns_if_t) (ip_protocol : mdns_ip_protocol_t) : C unit :=
  writes (fun st => set_queries st (c_queries st
    ++ [mk_browse_query (b_service b) (b_proto b) (b_subtype b) interface ip_protocol])).

Definition mdns_priv_browse_send_by_ip_protocol (mdns_if : mdns_if_t) (ip_protocol : mdns_ip_protocol_t) : C unit :=
  l ← reads s_browse;
  iter l (fun x => if is_running (snd x) then browse_send (snd x) mdns_if ip_protocol else mret tt).

Definition mdns_priv_browse_free : C unit :=
  l ← reads s_browse;
  _ ← iter l (fun x => alloc (browse_item_free (snd x)));
  writes (fun st => set_browse st []).

Definition browse_finish (b : bid) : C unit :=
  l ← reads s_browse;
  match assoc b l with
  | None => mret tt
  | Some it =>
      _ ← writes (fun st => set_browse st (remove_at b l));
      _ ← alloc (browse_item_free it);
      now ← reads c_now;
      mdns_priv_cache_trim_unsubscribed_records now
  end.

(** [mdns_mem_strndup] of at most [MDNS_NAME_BUF_LEN - 1] characters. *)
Definition dup_name (s : option cstr) : H (option (option cstr)) :=
  r ← dup_string s;
  mret (option_map (option_map (take (MDNS_NAME_BUF_LEN cfg - 1))) r).

Definition browse_init (service proto subtype : option cstr) (notifier : option positive)
    : H (option mdns_browse_t) :=
  ok ← malloc;
  if negb ok then mret None
  else
    s ← dup_name service;
    match s with
    | None => _ ← browse_item_free (mk_browse BROWSE_INIT None None None None); mret None
    | Some s =>
        p ← dup_name proto;
        match p with
        | None => _ ← browse_item_free (mk_browse BROWSE_INIT None s None None); mret None
        | Some p =>
            t ← dup_name subtype;
            match t with
            | None => _ ← browse_item_free (mk_browse BROWSE_INIT None s p None); mret None
            | Some t => mret (Some (mk_browse BROWSE_INIT notifier s p t))
            end
        end
    end.

Definition set_browse_state (st : mdns_browse_state_t) (b : mdns_browse_t) : mdns_browse_t :=
  mk_browse st (b_notifier b) (b_service b) (b_proto b) (b_subtype b).

Definition put_browse_state (b : bid) (x : mdns_browse_state_t) : C unit :=
  writes (fun st => set_browse st (alter_at b (set_browse_state x) (s_browse st))).

Definition browse_start (b : bid) : C unit :=
  it ← asks (fun st => deref (assoc b (s_browse st)));
  if negb (bool_decide (b_state it = BROWSE_INIT)) then mret tt
  else
    _ ← put_browse_state b BROWSE_RUNNING;
    let it := set_browse_state BROWSE_RUNNING it in
    _ ← mdns_priv_cache_notify_browse it;
    iter (seq 0 MDNS_MAX_INTERFACES) (fun i =>
      iter [MDNS_IP_PROTOCOL_V4; MDNS_IP_PROTOCOL_V6] (fun p => browse_send it i p)).

Definition mdns_priv_browse_action (a : browse_action * bid) : C unit :=
  match a with
  | (ACTION_BROWSE_START, b) => browse_start b
  | (ACTION_BROWSE_END, b) => browse_finish b
  end.

(** The first consumer of a record. *)
Definition mdns_priv_browse_find_consumer (st : client) (name : mdns_name_t) (type : Z) (esp_netif : netif)
    (ip_protocol : mdns_ip_protocol_t) : option (bid * mdns_browse_t) :=
  let consumes (b : mdns_browse_t) : bool :=
    if (type =? MDNS_TYPE_PTR)%Z then
      mdns_utils_str_case_equal (Some (service name)) (b_service b)
      && mdns_utils_str_case_equal (Some (proto name)) (b_proto b)
      && (if negb (sub name =? 0) then mdns_utils_str_case_equal (Some (host name)) (b_subtype b)
          else mdns_utils_str_null_or_empty (b_subtype b))
    else if (type =? MDNS_TYPE_SRV)%Z || (type =? MDNS_TYPE_TXT)%Z then
      mdns_utils_str_case_equal (Some (service name)) (b_service b)
      && mdns_utils_str_case_equal (Some (proto name)) (b_proto b)
    else if (type =? MDNS_TYPE_A)%Z || (type =? MDNS_TYPE_AAAA)%Z then
      mdns_priv_cache_host_has_service (s_cache st) (Some (host name)) esp_netif ip_protocol
        (b_service b) (b_proto b)
    else false in
  List.find (fun x => is_running (snd x) && consumes (snd x)) (s_browse st).

Definition MDNS_SUBTYPE_MAX_LEN : nat := 63.

Definition subtype_too_long (subtype : option cstr) : bool :=
  match subtype with Some t => MDNS_SUBTYPE_MAX_LEN <? length t | None => false end.

Definition mdns_browse_new_with_subtype (is_server_init : bool) (service proto subtype : option cstr)
    (notifier : option positive) : C (option bid) :=
  if negb is_server_init || mdns_utils_str_null_or_empty service || mdns_utils_str_null_or_empty proto
  then mret None
  else if subtype_too_long subtype then mret None
  else
    browse ← alloc (browse_init service proto subtype notifier);
    match browse with
    | None => mret None
    | Some browse =>
        l ← reads s_browse;
        match get_non_off_browse_item l service proto subtype with
        | Some _ => _ ← alloc (browse_item_free browse); mret None
        | None =>
            let b := addr (map fst l) in
            ok ← send_browse_action ACTION_BROWSE_START b;
            if negb ok then _ ← alloc (browse_item_free browse); mret None
            else
              _ ← writes (fun st => set_browse st ((b, browse) :: s_browse st));
              mret (Some b)
        end
    end.

Definition mdns_browse_new (is_server_init : bool) (service proto : option cstr) (notifier : option positive)
    : C (option bid) :=
  mdns_browse_new_with_subtype is_server_init service proto None notifier.

Inductive delete_result := DELETE_OK | DELETE_FAIL | DELETE_NO_MEM.

Definition mdns_browse_delete_with_subtype (is_server_init : bool) (service proto subtype : option cstr)
    : C delete_result :=
  if negb is_server_init || mdns_utils_str_null_or_empty service || mdns_utils_str_null_or_empty proto
  then mret DELETE_FAIL
  else if subtype_too_long subtype then mret DELETE_FAIL
  else
    l ← reads s_browse;
    match get_non_off_browse_item l service proto subtype with
    | None => mret DELETE_FAIL
    | Some (b, it) =>
        _ ← put_browse_state b BROWSE_OFF;
        ok ← send_browse_action ACTION_BROWSE_END b;
        if negb ok then _ ← put_browse_state b (b_state it); mret DELETE_NO_MEM
        else mret DELETE_OK
    end.

Definition mdns_browse_delete (is_server_init : bool) (service proto : option cstr) : C delete_result :=
  mdns_browse_delete_with_subtype is_server_init service proto None.

(** One turn of [service_task]: the action it received, if any, then the cache. *)
Definition service_turn (received : bool) : C unit :=
  a ← reads c_actions;
  _ ← (match a with
       | x :: rest =>
           if received then
             _ ← writes (fun st => set_actions st rest);
             _ ← mdns_priv_browse_action x;
             alloc (mfree 1)
           else mret tt
       | [] => mret tt
       end);
  now ← reads c_now;
  _ ← mdns_priv_cache_remove_expired_records now;
  mdns_priv_cache_process_sync.

End Interface.
