(* ===== verification/BrowseNotify.v ===== *)
(** What a browse is told: the result that [mdns_priv_service_cache_to_result]
    builds from a cached service, and the calls of the notifiers. *)
From S2P Require Import Prelude Names Server Heap Txt State Cache CacheTree CacheExpiry CacheRefine CacheOps CacheUpdate Browse.

(** * The projection *)

(** A copy, the value with a zero behind it. *)
Definition copied_item (t : mdns_txt_linked_item_t) : mdns_txt_linked_item_t :=
  mk_txt (key t) ((fun v => take (Z.to_nat (value_len t)) v ++ [0%Z]) <$> value t) (value_len t).

(** The SRV fields and the addresses are there with the SRV record, the items with
    the TXT record. *)
Definition projected (e : mdns_cache_entry_t) (s : mdns_service_cache_t) : mdns_result_t :=
  mk_result (ce_esp_netif e) (sc_ptr_ttl s) (ce_ip_protocol e) (sc_instance_name s) (sc_service s) (sc_proto s)
    (if sc_srv_present s then ce_hostname e else None) (if sc_srv_present s then sc_port s else 0%Z)
    (if sc_txt_present s then map copied_item (sc_txt_list s) else [])
    (if sc_srv_present s then map (fun a => ca_addr (snd a)) (ce_addr_list e) else []) None.

Lemma project_items_spec l acc : Forall txt_item_wf l ->
  hfull (project_items l acc)
    (fun r n => match r with
                | None => n = - items_blocks acc
                | Some x => x = acc ++ map copied_item l /\ n = items_blocks x - items_blocks acc
                end)%Z is_Some.
Proof.
  intros Hl. revert acc. induction Hl as [|t l ([k Hk] & Hlen & Hv) _ IH]; intros acc; cbn [project_items].
  { apply hfull_ret; [|by eexists]. cbn. rewrite app_nil_r. split; [done|lia]. }
  rewrite Hk. eapply hfull_bind; [apply hfull_malloc|]. intros [] n ->; cbn [negb].
  2:{ eapply hfull_bind; [apply hfull_mfree|]. intros [] n ->. apply hfull_ret; [lia|done]. }
  assert (Hstep : forall t' k, t' = copied_item t -> k = item_blocks t' ->
    hfull (project_items l (acc ++ [t'])) (fun r m => match r with
      | None => (k + m)%Z = (- items_blocks acc)%Z
      | Some x => x = acc ++ map copied_item (t :: l) /\ (k + m)%Z = (items_blocks x - items_blocks acc)%Z
      end) is_Some).
  { intros t' k' -> ->. eapply hfull_mono; [apply IH| |done]. intros [x|] m; rewrite items_blocks_app; [|lia].
    intros [-> Hm]. rewrite <- app_assoc in *. cbn [app map] in *. split; [done|]. lia. }
  destruct (value t) as [v|] eqn:Ev.
  - eapply hfull_bind; [apply hfull_malloc|]. intros [] n ->; cbn [negb].
    2:{ eapply hfull_bind; [apply hfull_mfree|]. intros [] n ->. apply hfull_ret; [lia|done]. }
    eapply hfull_lift; [apply rd_bytes_ok; cbn; lia|]. rewrite drop_0.
    eapply hfull_mono; [apply (Hstep _ 2%Z)| |].
    + unfold copied_item. by rewrite Hk, Ev.
    + done.
    + intros [x|] m; cbn; lia || (intros [-> ?]; split; [done|lia]).
    + done.
  - rewrite Hv. cbn [Z.eqb negb]. eapply hfull_mono; [apply (Hstep _ 1%Z)| |].
    + unfold copied_item. by rewrite Hk, Ev, Hv.
    + done.
    + by intros [x|] m.
    + done.
Qed.

Lemma project_txt_spec l : Forall txt_item_wf l ->
  hfull (project_txt l)
    (fun r n => match r with
                | None => n = 0
                | Some x => x = map copied_item l /\ n = match x with [] => 0 | x => 2 + items_blocks x end
                end)%Z is_Some.
Proof.
  intros Hl. unfold project_txt. destruct l as [|t l]; [by apply hfull_ret; [|eexists]|].
  eapply hfull_bind; [apply hfull_malloc|]. intros [] n ->; cbn [negb]; [|by apply hfull_ret].
  eapply hfull_bind; [apply hfull_malloc|]. intros [] n ->; cbn [negb].
  2:{ eapply hfull_bind; [apply hfull_mfree|]. intros [] n ->. by apply hfull_ret. }
  eapply hfull_bind; [by apply project_items_spec|]. intros [x|] n; cbn beta iota.
  - intros [-> ->]. apply hfull_ret; [|by eexists]. split; [done|]. cbn. lia.
  - intros ->. eapply hfull_bind; [apply hfull_mfree|]. intros [] n ->. apply hfull_ret; [cbn; lia|].
    intros _ [? ?]. done.
Qed.

Lemma project_addr_spec l acc :
  hfull (project_addr l acc)
    (fun r n => match r with
                | None => n = - Z.of_nat (length acc)
                | Some x => x = acc ++ map (fun a => ca_addr (snd a)) l /\ n = Z.of_nat (length l)
                end)%Z is_Some.
Proof.
  revert acc. induction l as [|x l IH]; intros acc; cbn [project_addr].
  { apply hfull_ret; [|by eexists]. cbn. by rewrite app_nil_r. }
  eapply hfull_bind; [apply hfull_malloc|]. intros [] n ->; cbn [negb].
  2:{ eapply hfull_bind; [apply hfull_mfree|]. intros [] n ->. apply hfull_ret; [lia|done]. }
  eapply hfull_mono; [apply IH| |done]. intros [r|] n; rewrite ?length_app; cbn [length map]; [|lia].
  intros [-> ->]. rewrite <- app_assoc. split; [done|lia].
Qed.

Ltac rfields := unfold result_blocks in *; cbn [set_rs_ttl set_rs_instance set_rs_service set_rs_proto set_rs_hostname
  set_rs_port set_rs_txt set_rs_addr set_rs_subtype rs_hostname rs_instance_name rs_service_type rs_proto rs_subtype
  rs_txt rs_addr opt_block length fst snd] in *.

Section ToResult.
Context (e : mdns_cache_entry_t) (s : mdns_service_cache_t) (h0 : heap).

(** What the call ends in, from the heap [h0]. *)
Definition built (x : option mdns_result_t * heap) : Prop :=
  match fst x with
  | None => live (snd x) = live h0
  | Some r => r = projected e s /\ live (snd x) = (live h0 + result_blocks r)%Z
  end /\ (never_fails h0 -> never_fails (snd x) /\ is_Some (fst x)).

(** The label [cleanup]: what was built is freed. *)
Lemma error_spec r h : live h = (live h0 + result_blocks r)%Z -> ~ never_fails h0 ->
  yields ((mdns_priv_query_results_free r ≫= fun _ => mret None : ST heap (option mdns_result_t)) h) built.
Proof.
  intros Hh Hn. eapply hfull_step; [apply hfull_mfree|]. intros [] h' Hh' _. cbn beta in Hh'.
  split; [cbn; lia|]. tauto.
Qed.

End ToResult.

Lemma to_result_spec e s : service_wf s ->
  hfull (mdns_priv_service_cache_to_result e s)
    (fun r n => match r with None => n = 0 | Some r => r = projected e s /\ n = result_blocks r end)%Z is_Some.
Proof.
  intros [Hi Hs Hp _ Ht] h0. eapply (yields_mono _ (built e s h0)).
  2:{ intros [[r|] h] [H1 H2]; cbn in *; (split; [|done]); [destruct H1; split; [done|]|]; lia. }
  unfold mdns_priv_service_cache_to_result. cbn zeta.
  eapply hfull_step; [apply hfull_malloc|]. intros [] h1 Hh1 Hn1; cbn beta in Hh1; cbn [negb].
  2:{ split; [cbn; lia|]. intros Hn. by destruct (Hn1 Hn). }
  eapply hfull_step; [apply dup_string_spec|]. intros [i|] h2 Hh2 Hn2; cbn beta iota in Hh2.
  2:{ apply error_spec; [rfields; lia|]. intros Hn. destruct (Hn2 (proj1 (Hn1 Hn))) as [_ [? ?]]. done. }
  destruct Hh2 as [-> Hh2]. rewrite canon_not_empty in * by done.
  assert (Hf2 : never_fails h0 -> never_fails h2) by tauto. clear Hn1 Hn2.
  eapply hfull_step; [apply dup_string_spec|]. intros [sv|] h3 Hh3 Hn3; cbn beta iota in Hh3.
  2:{ apply error_spec; [rfields; lia|]. intros Hn. destruct (Hn3 (Hf2 Hn)) as [_ [? ?]]. done. }
  destruct Hh3 as [-> Hh3]. rewrite (canon_not_empty (sc_service s)) in * by done.
  assert (Hf3 : never_fails h0 -> never_fails h3) by tauto. clear Hf2 Hn3.
  eapply hfull_step; [apply dup_string_spec|]. intros [p|] h4 Hh4 Hn4; cbn beta iota in Hh4.
  2:{ apply error_spec; [rfields; lia|]. intros Hn. destruct (Hn4 (Hf3 Hn)) as [_ [? ?]]. done. }
  destruct Hh4 as [-> Hh4]. rewrite (canon_not_empty (sc_proto s)) in * by done.
  assert (Hf4 : never_fails h0 -> never_fails h4) by tauto. clear Hf3 Hn4.
  set (r0 := set_rs_proto _ _).
  set (r1 := if sc_srv_present s then set_rs_addr (set_rs_port (set_rs_hostname r0 (ce_hostname e)) (sc_port s))
               (map (fun a => ca_addr (snd a)) (ce_addr_list e)) else r0).
  assert (Hr0 : live h4 = (live h0 + result_blocks r0)%Z) by (unfold r0; rfields; lia).
  eapply st_seq with (P := fun x => live (snd x) = (live h0 + result_blocks (fst (fst x)))%Z
    /\ (snd (fst x) = true -> fst (fst x) = r1) /\ (never_fails h0 -> never_fails (snd x) /\ snd (fst x) = true)).
  { unfold r1. destruct (sc_srv_present s); [|split_and!; [done|done|tauto]].
    eapply st_seq with (P := fun x => match fst x with
      | None => live (snd x) = live h4 /\ ~ never_fails h0
      | Some hn => hn = ce_hostname e /\ live (snd x) = (live h4 + opt_block hn)%Z /\ (never_fails h0 -> never_fails (snd x))
      end).
    { destruct (ce_hostname e) as [hn|]; [|by split_and!; [|cbn; lia|]].
      eapply hfull_step; [apply hfull_malloc|]. intros [] h5 Hh5 Hn5; cbn beta in Hh5; cbn [yields mret ST_ret fst snd].
      - split_and!; [done|cbn; lia|tauto].
      - split; [lia|]. intros Hn. by destruct (Hn5 (Hf4 Hn)). }
    intros [hn|] h5; cbn [fst snd].
    2:{ intros [Hh5 Hn]. split_and!; [cbn; lia|done|done]. }
    intros (-> & Hh5 & Hn5). eapply hfull_step; [apply project_addr_spec|].
    intros [al|] h6 Hh6 Hn6; cbn beta iota in Hh6; cbn [yields mret ST_ret fst snd length app] in *.
    - destruct Hh6 as [-> Hh6]. split_and!; [unfold r0 in *; rfields; rewrite length_map; lia|done|].
      intros Hn. split; [by apply Hn6, Hn5|done].
    - split_and!; [unfold r0 in *; rfields; lia|done|]. intros Hn. by destruct (Hn6 (Hn5 Hn)) as [_ [? ?]]. }
  intros [r ok] h5 (Hh5 & Hr & Hn5). cbn [fst snd] in *. destruct ok; cbn [negb].
  2:{ apply error_spec; [done|]. intros Hn. by destruct (Hn5 Hn). }
  specialize (Hr eq_refl) as ->. destruct (sc_txt_present s) eqn:Et.
  - eapply hfull_step; [by apply project_txt_spec|]. intros [t|] h6 Hh6 Hn6; cbn beta iota in Hh6.
    + destruct Hh6 as [-> Hh6]. split; [|cbn; intros Hn; split; [by apply Hn6, Hn5|by eexists]]. cbn [fst snd]. split.
      * unfold projected, r1, r0. rewrite Et. by destruct (sc_srv_present s).
      * assert (Hz : rs_txt r1 = []) by (unfold r1; by destruct (sc_srv_present s)).
        unfold result_blocks in *. rewrite Hz in Hh5. cbn [set_rs_txt rs_hostname rs_instance_name rs_service_type rs_proto
          rs_subtype rs_txt rs_addr]. destruct (map copied_item (sc_txt_list s)); lia.
    + apply error_spec; [lia|]. intros Hn. by destruct (Hn6 (proj1 (Hn5 Hn))) as [_ [? ?]].
  - split; [|cbn; split; [tauto|by eexists]]. cbn [fst snd]. split; [|done].
    unfold projected, r1, r0. rewrite Et. by destruct (sc_srv_present s).
Qed.

(** * Notifying *)

Definition notification (b : mdns_browse_t) (e : mdns_cache_entry_t) (s : mdns_service_cache_t)
    (subtype : option mdns_cache_subtype_t) (goodbye : bool) : mdns_result_t :=
  let r := projected e s in
  let r := if mdns_utils_str_null_or_empty (b_subtype b) then r
           else set_rs_subtype (match subtype with Some t => set_rs_ttl r (st_ttl t) | None => r end) (b_subtype b) in
  if goodbye then set_rs_ttl r 0 else r.

(** Notifiers were called and nothing else happened: what was built was freed. *)
Record told (st : client) (rs : list (positive * mdns_result_t)) (st' : client) : Prop := {
  tl_state : st' = set_results (set_c_heap st (c_heap st')) (c_results st ++ rs);
  tl_heap : live (c_heap st') = live (c_heap st);
  tl_never : never_fails (c_heap st) -> never_fails (c_heap st');
}.

Lemma told_nothing st : told st [] st.
Proof. split; [|done|done]. rewrite app_nil_r. by destruct st. Qed.

Lemma told_heap st h : live h = live (c_heap st) -> (never_fails (c_heap st) -> never_fails h) ->
  told st [] (set_c_heap st h).
Proof. intros Hh Hn. split; [|done|done]. rewrite app_nil_r. by destruct st. Qed.

Lemma told_app st st1 st2 rs1 rs2 : told st rs1 st1 -> told st1 rs2 st2 -> told st (rs1 ++ rs2) st2.
Proof.
  intros [E1 H1 N1] [E2 H2 N2]. split; [|congruence|tauto]. rewrite E2, E1. cfields. by rewrite app_assoc.
Qed.

Lemma told_represents xe xs b X st rs st' : told st rs st' -> represents xe xs b X st -> represents xe xs b X st'.
Proof. intros [-> Hh _] HX. by eapply represents_ext; [..|exact HX]. Qed.

Lemma build_and_notify_spec b e s subtype goodbye f st : service_wf s -> b_notifier b = Some f ->
  yields (browse_build_and_notify_temp_result b e s subtype goodbye st) (fun '(ok, st') =>
    (ok = true /\ told st [(f, notification b e s subtype goodbye)] st')
    \/ (ok = false /\ ~ never_fails (c_heap st) /\ told st [] st')).
Proof.
  intros Hs Hf. unfold browse_build_and_notify_temp_result.
  eapply st_alloc; [by apply to_result_spec|]. intros [r|] h Hh Hn; cbn beta iota in Hh; cfields.
  2:{ right. split_and!; [done|by intros [_ [? ?]]%Hn|]. apply told_heap; [lia|tauto]. }
  destruct Hh as [-> Hh]. unfold notification. cbn zeta.
  set (r1 := if mdns_utils_str_null_or_empty (b_subtype b) then projected e s else _).
  assert (Hfin : forall h1, live h1 = (live (c_heap st) + result_blocks r1)%Z -> (never_fails (c_heap st) -> never_fails h1) ->
    let r2 := if goodbye then set_rs_ttl r1 0 else r1 in
    yields ((_ ← call_notifier b r2; _ ← alloc (mdns_priv_query_results_free r2); mret true) (set_c_heap st h1))
      (fun '(ok, st') => (ok = true /\ told st [(f, r2)] st') \/ (ok = false /\ ~ never_fails (c_heap st) /\ told st [] st'))).
  { intros h1 Hh1 Hn1 r2. unfold call_notifier. rewrite Hf. apply st_writes.
    eapply st_alloc; [apply hfull_mfree|]. intros [] h2 Hh2 Hn2. cbn beta in Hh2. cfields.
    left. split; [done|]. split; cfields; [done| |tauto].
    assert (result_blocks r2 = result_blocks r1) by (unfold r2; by destruct goodbye). lia. }
  destruct (mdns_utils_str_null_or_empty (b_subtype b)) eqn:Es.
  - apply st_ret. apply (Hfin h); [unfold r1; lia|tauto].
  - apply st_assoc. eapply st_alloc; [apply hfull_malloc|]. intros [] h1 Hh1 Hn1; cbn beta in Hh1; cbn [negb]; cfields.
    + apply st_ret. cbn beta iota. change (set_c_heap (set_c_heap st h) h1) with (set_c_heap st h1).
      apply (Hfin h1); [|tauto]. unfold r1.
      assert (Hb : opt_block (b_subtype b) = 1%Z) by (by destruct (b_subtype b) as [[|]|]).
      assert (Hn0 : rs_subtype (projected e s) = None) by done.
      destruct subtype; unfold result_blocks in *; cbn [set_rs_subtype set_rs_ttl rs_hostname rs_instance_name rs_service_type
        rs_proto rs_subtype rs_txt rs_addr] in *; rewrite Hb; rewrite Hn0 in Hh; cbn [opt_block] in Hh; lia.
    + apply st_assoc. eapply st_alloc; [apply hfull_mfree|]. intros [] h2 Hh2 Hn2. cbn beta in Hh2. cfields. apply st_ret.
      right. split_and!; [done|by intros [[_ ?]%Hn1 _]%Hn|]. change (told st [] (set_c_heap st h2)).
      apply told_heap; [|tauto].
      assert (Hb : result_blocks (match subtype with Some t => set_rs_ttl (projected e s) (st_ttl t) | None => projected e s end)
                   = result_blocks (projected e s)) by (by destruct subtype). lia.
Qed.

(** A loop whose steps notify. *)
Lemma iter_told {A} (I : client -> Prop) (l : list A) g (exp : A -> list (positive * mdns_result_t)) st : I st ->
  (forall st rs st', told st rs st' -> I st -> I st') ->
  (forall x st, x ∈ l -> I st -> yields (g x st) (fun '(ok, st') =>
     (ok = true /\ told st (exp x) st') \/ (ok = false /\ ~ never_fails (c_heap st) /\ told st [] st'))) ->
  yields (iter_and l g st) (fun '(ok, st') => exists rs, told st rs st' /\ rs `sublist_of` flat_map exp l
     /\ (never_fails (c_heap st) -> ok = true /\ rs = flat_map exp l)).
Proof.
  intros HI Htold. revert st HI. induction l as [|x l IH]; intros st HI Hg; cbn [iter_and].
  { exists []. split_and!; [apply told_nothing|done|done]. }
  eapply st_seq; [apply Hg; [left|done]|]. intros ok1 st1 H1.
  assert (HI1 : I st1) by (destruct H1 as [[_ H1]|(_ & _ & H1)]; by eapply Htold).
  eapply st_seq; [apply (IH st1 HI1); intros y st' Hy; apply Hg; by right|]. intros ok2 st2 (rs & Ht & Hs & Hn).
  cbn [yields mret ST_ret flat_map]. destruct H1 as [[-> H1]|(-> & Hf & H1)].
  - exists (exp x ++ rs). split_and!; [by eapply told_app|by apply sublist_app|].
    intros Hn0. destruct (Hn (tl_never _ _ _ H1 Hn0)) as [-> ->]. done.
  - exists rs. split_and!; [exact (told_app _ _ _ _ _ H1 Ht)|by apply sublist_inserts_l|done].
Qed.

(** Who is told what, by the three functions the cache calls. *)
Definition tell (b : mdns_browse_t) (r : mdns_result_t) : list (positive * mdns_result_t) :=
  match b_notifier b with Some f => [(f, r)] | None => [] end.

Definition goodbye_to (e : mdns_cache_entry_t) (s : mdns_service_cache_t) (subtype : option cstr)
    (x : bid * mdns_browse_t) : list (positive * mdns_result_t) :=
  if browse_matches_service_cache (snd x) s && mdns_utils_str_case_equal_nullable (b_subtype (snd x)) subtype
  then tell (snd x) (notification (snd x) e s None true) else [].

Definition found_for (e : mdns_cache_entry_t) (s : mdns_service_cache_t) (b : mdns_browse_t)
    : list (positive * mdns_result_t) :=
  let '(matches, subtype) := browse_matches_service_cache_with_subtype b s in
  if matches : bool then tell b (notification b e s subtype false) else [].

Definition update_for (e : mdns_cache_entry_t) (s : mdns_service_cache_t) (records : Z) (x : bid * mdns_browse_t)
    : list (positive * mdns_result_t) :=
  if browse_need_update (snd x) (snd (browse_matches_service_cache_with_subtype (snd x) s)) records
  then found_for e s (snd x) else [].

Lemma matches_notifier b s : browse_matches_service_cache b s = true -> exists f, b_notifier b = Some f.
Proof.
  unfold browse_matches_service_cache. rewrite !andb_true_iff, bool_decide_eq_true. by intros [[[_ Hn] _] _].
Qed.

Lemma matches_subtype b s t : browse_matches_service_cache_with_subtype b s = (true, t) ->
  browse_matches_service_cache b s = true.
Proof.
  unfold browse_matches_service_cache_with_subtype. by destruct (browse_matches_service_cache b s).
Qed.

(** Who is told [rs] at most, and exactly that if memory does not run out. *)
Definition tells (st : client) (rs : list (positive * mdns_result_t)) (x : bool * client) : Prop :=
  exists rs', told st rs' (snd x) /\ rs' `sublist_of` rs
    /\ (never_fails (c_heap st) -> fst x = true /\ rs' = rs).

Lemma tells_one st rs ok st' :
  (ok = true /\ told st rs st') \/ (ok = false /\ ~ never_fails (c_heap st) /\ told st [] st') -> tells st rs (ok, st').
Proof.
  intros [[-> Ht]|(-> & Hn & Ht)]; [exists rs|exists []]; (split_and!; [done| |]); cbn; try done. apply sublist_nil_l.
Qed.

Lemma notify_from_spec e s b st : service_wf s ->
  yields (mdns_priv_browse_notify_from_service_cache e s b st) (fun '(ok, st') =>
    (ok = true /\ told st (found_for e s b) st') \/ (ok = false /\ ~ never_fails (c_heap st) /\ told st [] st')).
Proof.
  intros Hs. unfold mdns_priv_browse_notify_from_service_cache, found_for.
  destruct (browse_matches_service_cache_with_subtype b s) as [[] t] eqn:Em; cbn [negb].
  - destruct (matches_notifier b s (matches_subtype _ _ _ Em)) as [f Hf]. unfold tell. rewrite Hf.
    by apply build_and_notify_spec.
  - left. split; [done|apply told_nothing].
Qed.

Lemma update_from_spec e s records st : service_wf s ->
  yields (mdns_priv_browse_update_from_service_cache e s records st)
    (tells st (flat_map (update_for e s records) (s_browse st))).
Proof.
  intros Hs. unfold mdns_priv_browse_update_from_service_cache. apply st_reads.
  eapply yields_mono; [apply (iter_told (fun _ => True) _ _ (update_for e s records)); [done|done|]|by intros [ok st']].
  intros [b br] st1 _ _. cbn [snd]. unfold update_for. cbn [snd].
  pose proof (notify_from_spec e s br st1 Hs) as Hn. unfold mdns_priv_browse_notify_from_service_cache in Hn.
  destruct (browse_matches_service_cache_with_subtype br s) as [m t] eqn:Em; cbn [snd].
  destruct m; cbn [negb].
  - destruct (browse_need_update br t records); cbn [negb]; [exact Hn|]. left. split; [done|apply told_nothing].
  - unfold found_for. rewrite Em. left. split; [done|]. destruct (browse_need_update br t records); apply told_nothing.
Qed.

Lemma goodbye_from_spec e s subtype st : service_wf s ->
  yields (mdns_priv_browse_notify_ptr_goodbye_from_service_cache e s subtype st)
    (tells st (flat_map (goodbye_to e s subtype) (s_browse st))).
Proof.
  intros Hs. unfold mdns_priv_browse_notify_ptr_goodbye_from_service_cache. apply st_reads.
  eapply yields_mono; [apply (iter_told (fun _ => True) _ _ (goodbye_to e s subtype)); [done|done|]|by intros [ok st']].
  intros [b br] st1 _ _. cbn [snd]. unfold goodbye_to. cbn [snd].
  destruct (browse_matches_service_cache br s) eqn:Em; cbn [negb andb]; [|left; split; [done|apply told_nothing]].
  destruct (mdns_utils_str_case_equal_nullable (b_subtype br) subtype); cbn [negb]; [|left; split; [done|apply told_nothing]].
  destruct (matches_notifier br s Em) as [f Hf]. unfold tell. rewrite Hf. by apply build_and_notify_spec.
Qed.
