(* ===== verification/CacheExpire.v ===== *)
(** Expired records: [mdns_priv_cache_remove_expired_records] empties the head of
    the expiry list and tells the browses whose PTR records are gone. *)
From S2P Require Import Prelude Names Server Heap Txt State Cache CacheTree CacheExpiry CacheRefine CacheOps CacheUpdate CacheAddr Browse BrowseNotify.
From Stdlib Require Import Sorting.

(** Everything but the cache, its marks, the heap and the calls of notifiers,
    which are added to. *)
Record calm (st : client) (rs : list (positive * mdns_result_t)) (st' : client) : Prop := {
  cm_now : c_now st' = c_now st;
  cm_browse : s_browse st' = s_browse st;
  cm_actions : c_actions st' = c_actions st;
  cm_accepts : c_accepts st' = c_accepts st;
  cm_queries : c_queries st' = c_queries st;
  cm_results : c_results st' = c_results st ++ rs;
  cm_never : never_fails (c_heap st) -> never_fails (c_heap st');
}.

Lemma calm_quiet st st' : quiet st st' -> calm st [] st'.
Proof. intros []. split; try done. by rewrite app_nil_r. Qed.

Lemma calm_told st rs st' : told st rs st' -> calm st rs st'.
Proof. intros [E _ Hn]. rewrite E in *. by split. Qed.

Lemma calm_trans st st1 st2 rs1 rs2 : calm st rs1 st1 -> calm st1 rs2 st2 -> calm st (rs1 ++ rs2) st2.
Proof.
  intros [] []. split; try congruence; [|tauto]. rewrite cm_results1, cm_results0. by rewrite app_assoc.
Qed.

Lemma calm_then st st1 st2 rs : calm st rs st1 -> quiet st1 st2 -> calm st rs st2.
Proof. intros H1 H2%calm_quiet. rewrite <- (app_nil_r rs). by eapply calm_trans. Qed.

(** * Who has to be told *)

Definition result_key (r : mdns_result_t) : service_key :=
  key_of_names (rs_esp_netif r) (rs_ip_protocol r) (rs_instance_name r) (rs_service_type r) (rs_proto r).

(** A running browse for the service type of a PTR record, with its subtype. *)
Definition listens (b : mdns_browse_t) (n : record_name) : Prop :=
  is_running b = true
  /\ match n with
     | NamePtr (_, _, (_, s, p)) => canon (b_service b) = s /\ canon (b_proto b) = p /\ canon (b_subtype b) = []
     | NameSubtype (_, _, (_, s, p)) t => canon (b_service b) = s /\ canon (b_proto b) = p /\ canon (b_subtype b) = t
     | _ => False
     end.

(** The notifier got a result with TTL 0 for the service. *)
Definition said_goodbye (f : positive) (n : record_name) (rs : list (positive * mdns_result_t)) : Prop :=
  exists r, (f, r) ∈ rs /\ rs_ttl r = 0%Z /\ service_of_name n = Some (result_key r).

Lemma notification_goodbye b e s t : rs_ttl (notification b e s t true) = 0%Z
  /\ result_key (notification b e s t true) = key_of_service e s.
Proof.
  unfold notification. cbn zeta. split; [done|].
  destruct (mdns_utils_str_null_or_empty (b_subtype b)); [done|]. by destruct t.
Qed.

Lemma goodbye_reaches e s subtype n x f (l : list (bid * mdns_browse_t)) : service_wf s ->
  (n = NamePtr (key_of_service e s) /\ canon subtype = []
   \/ n = NameSubtype (key_of_service e s) (canon subtype)) ->
  x ∈ l -> b_notifier (snd x) = Some f -> listens (snd x) n ->
  said_goodbye f n (flat_map (goodbye_to e s subtype) l).
Proof.
  intros [Hi Hs Hp _ _] Hn Hx Hf [Hr Hl]. exists (notification (snd x) e s None true).
  destruct (notification_goodbye (snd x) e s None) as [Ht Hk]. rewrite Hk. split_and!; [|done|by destruct Hn as [[-> _]| ->]].
  apply elem_of_flat_map. exists x. split; [done|]. unfold goodbye_to, tell. rewrite Hf.
  assert (Hl' : canon (b_service (snd x)) = canon (sc_service s) /\ canon (b_proto (snd x)) = canon (sc_proto s)
                /\ canon (b_subtype (snd x)) = canon subtype).
  { destruct Hn as [[-> Hsub]| ->]; cbn in Hl; [by rewrite Hsub|done]. }
  destruct Hl' as (L1 & L2 & L3).
  replace (_ && _) with true; [left|]. symmetry. apply andb_true_iff. split; [|by apply nullable_canon].
  unfold browse_matches_service_cache. rewrite !andb_true_iff, bool_decide_eq_true, !case_equal_canon, Hf.
  rewrite L1, L2. split_and!; try done; by eexists.
Qed.

(** * Removing the record of a service *)

Lemma full_alter_under v f l : tree_full None None l -> tree_full None (Some v) (alter_service v f l).
Proof.
  intros Hl. unfold tree_full, alter_service in *. apply Forall_map. eapply Forall_impl; [exact Hl|].
  intros [c e] [H1 H2]. split; cbn [fst snd set_service_cache_list ce_addr_list ce_service_cache_list] in *.
  - by rewrite alter_at_nil.
  - unfold alter_at. apply Forall_map. eapply Forall_impl; [exact H2|]. intros [v' s'] Hy. cbn.
    destruct (decide (v' = v)) as [->|]; cbn; [done|]. intros _. by apply Hy.
Qed.

(** ** Which records are left *)

Lemma ptr_drop c e v s : sc_ptr_present s = true -> exists rs,
  records_of_service c e (v, s) ≡ₚ (of_service MDNS_CACHE_RECORD_PTR c v,
    (NamePtr (key_of_service e s), DataTtl (sc_ptr_ttl s))) :: rs
  /\ records_of_service c e (v, set_ptr_ttl (set_ptr_present s false) 0) ≡ₚ rs.
Proof.
  intros Hp. unfold records_of_service, ptr_records at 1. cbn [fst snd]. rewrite Hp. cbn [app]. eexists. split; reflexivity.
Qed.

Lemma srv_drop c e v s : sc_srv_present s = true -> exists rs,
  records_of_service c e (v, s) ≡ₚ (of_service MDNS_CACHE_RECORD_SRV c v,
    (NameSrv (key_of_service e s), DataSrv (canon (ce_hostname e)) (sc_priority s) (sc_weight s) (sc_port s) (sc_srv_ttl s))) :: rs
  /\ records_of_service c e (v, set_srv_ttl (set_port (set_weight (set_priority (set_srv_present s false) 0) 0) 0) 0) ≡ₚ rs.
Proof.
  intros Hp. unfold records_of_service, srv_records at 1. cbn [fst snd]. rewrite Hp.
  eexists. split; [rewrite Permutation_app_swap_app; cbn [app]; reflexivity|reflexivity].
Qed.

Lemma txt_drop c e v s : sc_txt_present s = true -> exists rs,
  records_of_service c e (v, s) ≡ₚ (of_service MDNS_CACHE_RECORD_TXT c v,
    (NameTxt (key_of_service e s), DataTxt (sc_txt_list s) (sc_txt_ttl s))) :: rs
  /\ records_of_service c e (v, set_txt_ttl (set_txt_list (set_txt_present s false) []) 0) ≡ₚ rs.
Proof.
  intros Hp. unfold records_of_service, txt_records at 1. cbn [fst snd]. rewrite Hp. eexists. split; [|reflexivity].
  rewrite (Permutation_app_swap_app (srv_records _ _ _ _ _)), Permutation_app_swap_app. cbn [app]. reflexivity.
Qed.

Lemma subtype_drop c e v s t it : (t, it) ∈ sc_subtype_list s -> base.NoDup (map fst (sc_subtype_list s)) -> exists rs,
  records_of_service c e (v, s) ≡ₚ subtype_record (key_of_service e s) c v (t, it) :: rs
  /\ records_of_service c e (v, set_subtype_list s (remove_at t (sc_subtype_list s))) ≡ₚ rs.
Proof.
  intros (l1 & l2 & E)%list_elem_of_split Hnd. rewrite E in *.
  rewrite map_app, NoDup_app in Hnd. destruct Hnd as (_ & Hd & _).
  assert (Hrm : remove_at t (l1 ++ (t, it) :: l2) = l1 ++ l2).
  { apply remove_at_split. intros H. apply (Hd t H). left. }
  rewrite Hrm. set (k := key_of_service e s).
  set (a := ptr_records k c v s ++ srv_records k (canon (ce_hostname e)) c v s ++ txt_records k c v s).
  exists (a ++ map (subtype_record k c v) l1 ++ map (subtype_record k c v) l2). split.
  - rewrite <- perm_last_mid. unfold a, records_of_service. cbn [fst snd]. rewrite E, map_app, <- !app_assoc. done.
  - unfold a, records_of_service. cbn [fst snd set_subtype_list sc_subtype_list]. rewrite map_app, <- !app_assoc. done.
Qed.

Lemma addr_drop c e a it : (a, it) ∈ ce_addr_list e -> base.NoDup (map fst (ce_addr_list e)) -> exists rs,
  records_of_entry (c, e) ≡ₚ addr_record c e (a, it) :: rs
  /\ records_of_entry (c, set_addr_list e (remove_at a (ce_addr_list e))) ≡ₚ rs.
Proof.
  intros (l1 & l2 & E)%list_elem_of_split Hnd. rewrite E in Hnd.
  rewrite map_app, NoDup_app in Hnd. destruct Hnd as (_ & Hd & _).
  assert (Hrm : remove_at a (ce_addr_list e) = l1 ++ l2).
  { rewrite E. apply remove_at_split. intros H. apply (Hd a H). left. }
  exists (map (addr_record c e) l1 ++ map (addr_record c e) l2 ++ flat_map (records_of_service c e) (ce_service_cache_list e)).
  unfold records_of_entry. cbn [fst snd set_addr_list ce_addr_list ce_service_cache_list]. split.
  - rewrite E, map_app. cbn [map]. rewrite <- !app_assoc. cbn [app]. by rewrite <- Permutation_middle.
  - rewrite Hrm, map_app, <- app_assoc. done.
Qed.

Section Expire.
Context (b : Z) (X : list pointed) (st : client) (n : mdns_cache_expiry_t) (rest : list mdns_cache_expiry_t).
Hypothesis HX : represents None None b X st.
Hypothesis Hn : s_expiry st = n :: rest.

(** The node is unlinked, its record is gone, the node is still to be freed. *)
Definition gone (xe : option cid) (xs : option vid) (r : cache_record) (st' : client) : Prop :=
  exists X', X ≡ₚ (pointers_of n, r, ex_expires_at_us n) :: X' /\ represents xe xs (b + 1) X' st'.

Lemma service_gone c e v s f r rs st2 : owns (s_cache st) c e v s ->
  records_of_service c e (v, s) ≡ₚ (pointers_of n, r) :: rs -> records_of_service c e (v, f s) ≡ₚ rs ->
  service_step (s_cache st) s (f s) -> s_cache st2 = alter_service v f (s_cache st) -> s_expiry st2 = rest ->
  (live (c_heap st2) = live (c_heap st) + service_blocks (f s) - service_blocks s)%Z ->
  gone None (Some v) r st2.
Proof using HX Hn.
  intros Ho Hr Hr' Hstep Hc He Hh. pose proof (r_tree _ _ _ _ _ HX) as Hl.
  destruct (service_focus _ _ _ _ _ Hl Ho) as (recs & blocks & Hrecs & Hb & Hf). destruct (Hf f) as (Hrecs' & Hb' & Ht).
  eapply (represents_drop None None b X st None (Some v) (b + 1) st2 n rest r (rs ++ recs)); try done.
  - rewrite Hc. by apply Ht.
  - rewrite Hc. apply full_alter_under, (r_full _ _ _ _ _ HX).
  - by rewrite Hrecs, Hr.
  - by rewrite Hc, Hrecs', Hr'.
  - rewrite Hc, Hb'. pose proof (r_heap _ _ _ _ _ HX) as Hheap. rewrite Hn in Hheap. cbn [length] in Hheap. lia.
Qed.

Lemma expired_service_spec r v s st2 : gone None (Some v) r st2 -> ex_service n = Some v ->
  owns (s_cache st2) (ex_entry n) s v (default (new_service None None None) (find_service v (s_cache st2))) ->
  yields (expired_service n st2) (fun '(_, st') => quiet st2 st' /\ s_expiry st' = s_expiry st2 /\ gone None None r st').
Proof using.
  intros (X' & Hperm & HX2) Hv Ho. pose proof (r_tree _ _ _ _ _ HX2) as Hl.
  pose proof (owns_find _ _ _ _ _ Hl Ho) as Hf. destruct (find_service v (s_cache st2)) as [sv|] eqn:Es; [|done]. cbn [default] in Ho.
  unfold expired_service. rewrite Hv. eapply w_get_service; [exact Es|]. destruct (service_cache_is_empty sv) eqn:Ee.
  - eapply yields_mono; [eapply (remove_service_spec None (Some v)); [exact HX2|by left|by right|exact Ho]|].
    intros [[] st'] (Hq & He & HX'). split_and!; [done|done|]. by exists X'.
  - assert (HX3 : represents None None (b + 1) X' st2).
    { eapply represents_same; [exact HX2|done| |done|done|done].
      eapply full_nonempty; [done|exact Ho|apply (r_full _ _ _ _ _ HX2)|by left|by right|done]. }
    assert (Hmark : forall bits, yields (service_cache_mark_sync_out (Some v) MDNS_CACHE_UPDATED bits MDNS_CACHE_CONSUMER_BROWSE st2)
      (fun '(_, st') => quiet st2 st' /\ s_expiry st' = s_expiry st2 /\ gone None None r st')).
    { intros bits. eapply yields_mono; [apply mark_spec; [exact HX3|by eexists]|].
      intros [[] st'] (Hq & He & HX' & _). split_and!; [done|done|]. by exists X'. }
    destruct (ex_record n); try apply Hmark; (split_and!; [done|done|by exists X']).
Qed.

(** What one iteration does. *)
Definition expired (st' : client) : Prop := exists r rs, calm st rs st' /\ s_expiry st' = rest /\ gone None None r st'
  /\ (never_fails (c_heap st) -> forall x f, x ∈ s_browse st -> b_notifier (snd x) = Some f ->
        listens (snd x) (fst r) -> said_goodbye f (fst r) rs).

Lemma node_record : exists r, (pointers_of n, r) ∈ cache_records (s_cache st).
Proof using HX Hn.
  assert (Hp : pointers_of n ∈ map ptr_of X).
  { rewrite <- (expiry_pointers _ _ _ _ _ HX), Hn. left. }
  apply list_elem_of_fmap in Hp as ([[p r] t] & E & Hp). exists r. apply (pointed_record _ _ _ _ _ HX).
  cbn in E. rewrite E. eauto.
Qed.

(** The part all records of a service have in common: the record is gone in [st2],
    after browses were told [rs]. *)
Lemma finish_service r rs st2 c e v s f : calm st rs st2 -> gone None (Some v) r st2 -> s_expiry st2 = rest ->
  owns (s_cache st) c e v s -> s_cache st2 = alter_service v f (s_cache st) ->
  ex_entry n = c -> ex_service n = Some v ->
  (never_fails (c_heap st) -> forall x f, x ∈ s_browse st -> b_notifier (snd x) = Some f ->
        listens (snd x) (fst r) -> said_goodbye f (fst r) rs) ->
  yields (expired_service n st2) (fun x => expired (snd x)).
Proof using.
  intros Hcalm Hgone He Ho Hc Hent Hsv Hbye.
  pose proof (owns_alter _ _ _ _ _ f Ho) as Ho2. rewrite <- Hc, <- Hent in Ho2.
  assert (Hfs : find_service v (s_cache st2) = Some (f s)).
  { destruct Hgone as (X' & _ & HX2). eapply owns_find; [apply (r_tree _ _ _ _ _ HX2)|exact Ho2]. }
  eapply yields_mono; [eapply expired_service_spec; [exact Hgone|done|rewrite Hfs; exact Ho2]|].
  intros [[] st'] (Hq & He' & Hg). exists r, rs. cbn [snd]. split_and!; [by eapply calm_then|congruence|done|done].
Qed.

Let st1 := set_expiry st rest.

Lemma silent (r : cache_record) rs : match fst r with NamePtr _ | NameSubtype _ _ => False | _ => True end ->
  never_fails (c_heap st) -> forall x f, x ∈ s_browse st -> b_notifier (snd x) = Some f ->
  listens (snd x) (fst r) -> said_goodbye f (fst r) rs.
Proof using. intros Hr _ x f _ _ [_ Hl]. by destruct (fst r). Qed.

Lemma expire_ptr c e v s : owns (s_cache st) c e v s -> pointers_of n = of_service MDNS_CACHE_RECORD_PTR c v ->
  sc_ptr_present s = true -> yields (expire_record n st1) (fun x => expired (snd x)).
Proof using HX Hn.
  intros Ho Hp Hpr. pose proof (r_tree _ _ _ _ _ HX) as Hl. pose proof Hp as [= E1 E2 E3 E4 E5].
  destruct (owns_wf _ _ _ _ _ Hl Ho) as (Hw & Hnd & _).
  unfold expire_record, st1. rewrite E1, E3. eapply w_put_service; [by eapply owns_find|].
  set (f := fun s0 => set_ptr_ttl (set_ptr_present s0 false) 0) in *.
  pose proof (owns_alter _ _ _ _ _ f Ho) as Ho2. set (e2 := set_service_cache_list e _) in Ho2.
  assert (Hstep : service_step (s_cache st) s (f s)) by (apply names_step; try done; apply Hw).
  eapply w_get_entry; [rewrite E2; apply Ho2|]. eapply w_get_service; [cfields; by eapply owns_alter_find|].
  eapply st_seq; [apply goodbye_from_spec, (ss_wf _ _ _ Hstep)|]. intros ok st3 (rs & Ht & _ & Hall). cbn [fst snd] in *.
  destruct (ptr_drop c e v s Hpr) as (recs & Hr & Hr'). pose proof Ht as [Hst Hh _]. cfields.
  eapply (finish_service _ rs st3 c e v s f); try done.
  - destruct (calm_told _ _ _ Ht). by split.
  - eapply (service_gone c e v s f); try done; [by rewrite Hp|by rewrite Hst|by rewrite Hst|].
    change (service_blocks (f s)) with (service_blocks s). lia.
  - by rewrite Hst.
  - by rewrite Hst.
  - intros Hnf x g Hx Hg Hlis. destruct (Hall Hnf) as [_ ->].
    eapply (goodbye_reaches e2 (f s) None); [apply (ss_wf _ _ _ Hstep)|left; by split|exact Hx|done|done].
Qed.

Lemma expire_subtype c e v s t it : owns (s_cache st) c e v s -> pointers_of n = of_subtype c v t ->
  (t, it) ∈ sc_subtype_list s -> yields (expire_record n st1) (fun x => expired (snd x)).
Proof using HX Hn.
  intros Ho Hp Hin. pose proof (r_tree _ _ _ _ _ HX) as Hl. pose proof Hp as [= E1 E2 E3 E4 E5].
  destruct (owns_wf _ _ _ _ _ Hl Ho) as (Hw & Hnd & _).
  unfold expire_record, st1. rewrite E1, E3, E5. eapply w_get_entry; [rewrite E2; apply Ho|].
  eapply w_get_service; [by eapply owns_find|].
  eapply st_asks; [by rewrite (proj1 (assoc_elem_of t (sc_subtype_list s) it Hnd) Hin)|].
  eapply st_seq; [by apply goodbye_from_spec|]. intros ok st3 (rs & Ht & _ & Hall). cbn [fst snd] in *.
  pose proof Ht as [Hst Hh Hnv]. cfields.
  assert (Hfs : find_service v (s_cache st3) = Some s) by (rewrite Hst; by eapply owns_find).
  eapply w_put_service; [exact Hfs|]. set (f := fun s0 => set_subtype_list s0 (remove_at t (sc_subtype_list s0))) in *.
  eapply st_alloc; [apply hfull_mfree|]. intros [] h Hh4 Hn4. cbn beta in Hh4. cfields.
  destruct (subtype_drop c e v s t it Hin Hnd) as (recs & Hr & Hr').
  eapply (finish_service _ rs _ c e v s f); try done; cfields.
  - eapply calm_then; [destruct (calm_told _ _ _ Ht); by split|]. by_quiet.
  - eapply (service_gone c e v s f); try done; cfields; [by rewrite Hp| |by rewrite Hst|by rewrite Hst|].
    + apply subtypes_step; [done| |].
      * eapply sublist_NoDup; [apply Hw|]. apply map_sublist, remove_at_sublist.
      * apply renews_sublist; [done|]. apply map_sublist, remove_at_sublist.
    + assert (length (remove_at t (sc_subtype_list s)) + 1 = length (sc_subtype_list s)).
      { apply list_elem_of_split in Hin as (l1 & l2 & E). rewrite E in *. rewrite map_app, NoDup_app in Hnd.
        destruct Hnd as (_ & Hd & _). rewrite remove_at_split by (intros H; apply (Hd t H); left).
        rewrite !length_app. cbn [length]. lia. }
      unfold service_blocks, subtypes_blocks. cbn [f set_subtype_list sc_subtype_list sc_instance_name sc_service sc_proto sc_txt_list]. lia.
  - by rewrite Hst.
  - by rewrite Hst.
  - intros Hnf x g Hx Hg Hlis. destruct (Hall Hnf) as [_ ->].
    eapply (goodbye_reaches e s (Some (st_subtype it))); [done|by right|exact Hx|done|done].
Qed.

Lemma expire_srv c e v s : owns (s_cache st) c e v s -> pointers_of n = of_service MDNS_CACHE_RECORD_SRV c v ->
  sc_srv_present s = true -> yields (expire_record n st1) (fun x => expired (snd x)).
Proof using HX Hn.
  intros Ho Hp Hpr. pose proof (r_tree _ _ _ _ _ HX) as Hl. pose proof Hp as [= E1 E2 E3 E4 E5].
  destruct (owns_wf _ _ _ _ _ Hl Ho) as (Hw & Hnd & _).
  unfold expire_record, st1. rewrite E1, E3. eapply w_put_service; [by eapply owns_find|].
  set (f := fun s0 => set_srv_ttl _ 0) in *. destruct (srv_drop c e v s Hpr) as (recs & Hr & Hr').
  eapply (finish_service _ [] _ c e v s f); try done; cfields.
  - apply calm_quiet. by_quiet.
  - eapply (service_gone c e v s f); try done; [by rewrite Hp| |].
    + apply names_step; try done; apply Hw.
    + cfields. change (service_blocks (f s)) with (service_blocks s). lia.
  - by apply silent.
Qed.

Lemma expire_txt c e v s : owns (s_cache st) c e v s -> pointers_of n = of_service MDNS_CACHE_RECORD_TXT c v ->
  sc_txt_present s = true -> yields (expire_record n st1) (fun x => expired (snd x)).
Proof using HX Hn.
  intros Ho Hp Hpr. pose proof (r_tree _ _ _ _ _ HX) as Hl. pose proof Hp as [= E1 E2 E3 E4 E5].
  destruct (owns_wf _ _ _ _ _ Hl Ho) as (Hw & Hnd & _).
  unfold expire_record, st1. rewrite E1, E3. eapply w_get_service; [by eapply owns_find|].
  eapply st_alloc; [apply hfull_mfree|]. intros [] h Hh Hnv. cbn beta in Hh. cfields.
  eapply w_put_service; [by eapply owns_find|].
  set (f := fun s0 => set_txt_ttl _ 0) in *. destruct (txt_drop c e v s Hpr) as (recs & Hr & Hr').
  eapply (finish_service _ [] _ c e v s f); try done; cfields.
  - apply calm_quiet. by_quiet.
  - eapply (service_gone c e v s f); try done; [by rewrite Hp| |].
    + apply names_step; try done.
    + cfields. unfold service_blocks. cbn [f set_txt_ttl set_txt_list set_txt_present sc_subtype_list sc_instance_name
        sc_service sc_proto sc_txt_list list_blocks foldr]. lia.
  - by apply silent.
Qed.

Lemma expire_addr c e a it : assoc c (s_cache st) = Some e -> pointers_of n = of_addr c a ->
  (a, it) ∈ ce_addr_list e -> yields (expire_record n st1) (fun x => expired (snd x)).
Proof using HX Hn.
  intros Hc Hp Hin. pose proof (r_tree _ _ _ _ _ HX) as Hl. pose proof Hp as [= E1 E2 E3 E4 E5].
  pose proof (addrs_NoDup _ _ _ Hl Hc) as Hnd. destruct (addr_drop c e a it Hin Hnd) as (recs & Hr & Hr').
  destruct (entry_focus _ _ _ Hl Hc) as (rst & blocks & Hrecs & Hb & Hf & _).
  unfold expire_record, st1. rewrite E1, E2, E4. eapply w_get_entry; [exact Hc|].
  eapply st_asks; [by rewrite (proj1 (assoc_elem_of a (ce_addr_list e) it Hnd) Hin)|].
  eapply w_put_entry; [exact Hc|]. set (f := fun e0 => set_addr_list e0 _) in *. destruct (Hf f) as (Hrecs' & Hb' & Ht').
  eapply st_alloc; [apply hfull_mfree|]. intros [] h Hh Hnv. cbn beta in Hh. cfields.
  set (st2 := set_c_heap (set_cache (set_expiry st rest) (alter_at c f (s_cache st))) h).
  assert (Hlen : length (remove_at a (ce_addr_list e)) + 1 = length (ce_addr_list e)).
  { apply list_elem_of_split in Hin as (l1 & l2 & E). rewrite E in *. rewrite map_app, NoDup_app in Hnd.
    destruct Hnd as (_ & Hd & _). rewrite remove_at_split by (intros H; apply (Hd a H); left).
    rewrite !length_app. cbn [length]. lia. }
  assert (Hgone : gone (Some c) None (NameAddr (key_of_entry e) (ca_addr it), DataTtl (ca_ttl it)) st2).
  { eapply (represents_drop None None b X st (Some c) None (b + 1) st2 n rest _ (recs ++ rst)); try done.
    - apply Ht', entry_step_addrs with (c := c); [done|done| |].
      + apply renews_sublist; [done|]. apply map_sublist, remove_at_sublist.
      + eapply sublist_NoDup; [apply (in_entry_wf _ _ _ Hl Hc)|]. apply map_sublist, remove_at_sublist.
    - eapply (alter_entry_full None None); [done|exact Hc|apply (r_full _ _ _ _ _ HX)|by left|done|done|].
      pose proof (r_full _ _ _ _ _ HX) as Hfl. unfold tree_full in Hfl. rewrite list.Forall_forall in Hfl.
      by destruct (Hfl (c, e)) as [_ ?]; [by apply assoc_elem_of; [apply (t_entries _ Hl)|]|].
    - by rewrite Hrecs, Hr, Hp.
    - unfold st2. cfields. rewrite Hrecs'. unfold f. by rewrite Hr'.
    - unfold st2. cfields. rewrite Hb'. pose proof (r_heap _ _ _ _ _ HX) as Hheap. rewrite Hn in Hheap. cbn [length] in Hheap.
      assert (entry_blocks (f e) = entry_blocks e - 1)%Z; [|lia].
      unfold entry_blocks. cbn [f set_addr_list ce_hostname ce_addr_list ce_service_cache_list]. lia. }
  destruct Hgone as (X' & Hperm & HX2).
  eapply st_seq; [eapply mark_entry_spec; [exact HX2|unfold st2; cfields; rewrite assoc_alter_at, decide_True, Hc by done; by eexists]|].
  intros [] st3 (Hq3 & HX3 & He3 & [e3 Hc3]).
  eapply st_seq; [eapply (prune_spec (Some c)); [exact HX3|by right|exact Hc3]|].
  intros r4 st4 (Hq4 & He4 & HX4). unfold expired_service. rewrite E3. cbn [yields mret ST_ret snd].
  eexists _, []. split_and!.
  - apply calm_quiet. etransitivity; [|etransitivity; [exact Hq3|exact Hq4]]. unfold st2. by_quiet.
  - by rewrite He4, He3.
  - exists X'. split; [exact Hperm|exact HX4].
  - by apply silent.
Qed.

Lemma expire_record_spec : yields (expire_record n st1) (fun x => expired (snd x)).
Proof using HX Hn.
  pose proof (r_tree _ _ _ _ _ HX) as Hl. destruct node_record as [r Hr].
  apply cache_record_inv in Hr as [(c & e & a & it & Hc & Ha & Heq)|(c & e & v & s & Hi & Hr)].
  - eapply (expire_addr c e a it); [by apply assoc_elem_of; [apply (t_entries _ Hl)|]| |done]. exact (f_equal fst Heq).
  - pose proof (proj2 (owns_in _ _ _ _ _ Hl) Hi) as Ho.
    apply service_record_inv in Hr as [_ [(? & ? & _)|[(? & ? & _)|[(? & ? & _)|(t & it & ? & ? & _)]]]].
    + by eapply expire_ptr.
    + by eapply expire_srv.
    + by eapply expire_txt.
    + by eapply expire_subtype.
Qed.

End Expire.

(** * The loop *)

Lemma purge_all_later now l : expiry_sorted l -> match l with n :: _ => (now < ex_expires_at_us n)%Z | [] => True end ->
  Forall (fun n => (now < ex_expires_at_us n)%Z) l.
Proof.
  intros Hs Hn. destruct Hs as [|n l _ Hl]; [done|]. constructor; [done|]. eapply Forall_impl; [exact Hl|].
  unfold expires_le. intros m. lia.
Qed.

Lemma purge_none xe xs b X st now : represents xe xs b X st ->
  Forall (fun n => (now < ex_expires_at_us n)%Z) (s_expiry st) ->
  cache_purge now (abstracted X) = abstracted X /\ forall x, x ∈ X -> (now < snd x)%Z.
Proof.
  intros HX Hl. assert (Hall : forall x, x ∈ X -> (now < snd x)%Z).
  { intros x Hx. assert (Hin : node_of x ∈ map node_time (s_expiry st)).
    { rewrite <- (r_nodes _ _ _ _ _ HX). by apply list_elem_of_fmap_2. }
    apply list_elem_of_fmap in Hin as (n & E & Hin). rewrite list.Forall_forall in Hl. specialize (Hl n Hin).
    injection E as _ E. lia. }
  split; [|done]. clear -Hall. unfold cache_purge, abstracted. induction X as [|x X IH]; [done|]. cbn [map].
  rewrite filter_cons_True by (cbn; apply Hall; left). f_equal. apply IH. intros y Hy. apply Hall. by right.
Qed.

Lemma remove_expired_spec fuel b X st now : represents None None b X st -> length (s_expiry st) < fuel ->
  yields (remove_expired fuel now st) (fun '(_, st') => exists X' rs, calm st rs st' /\ represents None None b X' st'
    /\ abstracted X' ≡ₚ cache_purge now (abstracted X)
    /\ (never_fails (c_heap st) -> forall p x f, p ∈ X -> (snd p <= now)%Z -> x ∈ s_browse st ->
          b_notifier (snd x) = Some f -> listens (snd x) (name_of p) -> said_goodbye f (name_of p) rs)).
Proof.
  revert X st. induction fuel as [|fuel IH]; intros X st HX Hfuel; [lia|]. cbn [remove_expired]. apply st_reads.
  assert (Hstop : match s_expiry st with n :: _ => (now < ex_expires_at_us n)%Z | [] => True end ->
    exists X' rs, calm st rs st /\ represents None None b X' st /\ abstracted X' ≡ₚ cache_purge now (abstracted X)
    /\ (never_fails (c_heap st) -> forall p x f, p ∈ X -> (snd p <= now)%Z -> x ∈ s_browse st ->
          b_notifier (snd x) = Some f -> listens (snd x) (name_of p) -> said_goodbye f (name_of p) rs)).
  { intros Hhd. destruct (purge_none _ _ _ _ _ now HX) as [Hp Hlt]; [by apply purge_all_later; [apply (r_sorted _ _ _ _ _ HX)|]|].
    exists X, []. split_and!; [by apply calm_quiet|done|by rewrite Hp|]. intros _ p x f Hin Hle. specialize (Hlt p Hin). lia. }
  destruct (s_expiry st) as [|n rest] eqn:En; [by apply Hstop|].
  destruct (now <? ex_expires_at_us n)%Z eqn:Et; bsimp; [by apply Hstop|]. clear Hstop.
  apply st_writes. eapply st_seq; [exact (expire_record_spec b X st n rest HX En)|].
  intros [] st2 (r & rs & Hcalm & He & (X' & Hperm & HX2) & Hbye). cbn [snd] in *.
  eapply st_alloc; [apply hfull_mfree|]. intros [] h Hh Hnv. cbn beta in Hh. cfields.
  assert (HX3 : represents None None b X' (set_c_heap st2 h)).
  { destruct HX2. split; try done. cfields. lia. }
  eapply yields_mono; [apply (IH X' _ HX3); cfields; rewrite He; cbn [length] in Hfuel; lia|].
  intros [[] st3] (X3 & rs3 & Hcalm3 & HX4 & Hab & Hbye3). exists X3, (rs ++ rs3). cfields.
  assert (Hc2 : calm st rs (set_c_heap st2 h)) by (destruct Hcalm; split; cfields; try done; tauto).
  split_and!; [by eapply calm_trans|done| |].
  - rewrite Hab. assert (Habs : abstracted X ≡ₚ (r, ex_expires_at_us n) :: abstracted X') by (unfold abstracted; by rewrite Hperm).
    unfold cache_purge. rewrite Habs, filter_cons_False; [done|]. cbn. lia.
  - intros Hnf p x f Hp Hle Hx Hf Hl. rewrite Hperm in Hp. apply elem_of_cons in Hp as [->|Hp].
    + destruct (Hbye Hnf x f Hx Hf Hl) as (r0 & Hin & Hr0). exists r0. split; [elems|done].
    + destruct (Hbye3 (cm_never _ _ _ Hc2 Hnf) p x f Hp Hle) as (r0 & Hin & Hr0); try done.
      { by rewrite (cm_browse _ _ _ Hcalm). }
      exists r0. split; [elems|done].
Qed.

(** C22.  Removing expired records ends, and what is left of the abstract cache is
    what has not expired; nothing leaks, and what is left of the representation is
    as it should be. *)
Theorem remove_expired_refines b X st now : represents None None b X st ->
  yields (mdns_priv_cache_remove_expired_records now st) (fun '(_, st') => exists X',
    represents None None b X' st' /\ abstracted X' ≡ₚ cache_purge now (abstracted X)).
Proof.
  intros HX. unfold mdns_priv_cache_remove_expired_records. apply st_reads.
  eapply yields_mono; [by apply remove_expired_spec; [|lia]|]. intros [[] st'] (X' & rs & _ & HX' & Hab & _). eauto.
Qed.

(** C23.  As long as there is memory, every running browse for the service type of
    a PTR record that expires, or for the subtype of a subtype record that does, is
    told so: its notifier is called with a result of TTL 0 that names the service. *)
Theorem expired_ptr_told b X st now p x f : represents None None b X st -> never_fails (c_heap st) ->
  p ∈ X -> (snd p <= now)%Z -> x ∈ s_browse st -> b_notifier (snd x) = Some f -> listens (snd x) (name_of p) ->
  yields (mdns_priv_cache_remove_expired_records now st) (fun '(_, st') => exists rs,
    c_results st' = c_results st ++ rs /\ said_goodbye f (name_of p) rs).
Proof.
  intros HX Hnf Hp Hle Hx Hf Hl. unfold mdns_priv_cache_remove_expired_records. apply st_reads.
  eapply yields_mono; [by apply remove_expired_spec; [|lia]|]. intros [[] st'] (X' & rs & Hcalm & _ & _ & Hbye).
  exists rs. split; [apply Hcalm|by eapply Hbye].
Qed.
