(* ===== verification/CacheTrim.v ===== *)
(** Records nobody browses for: [mdns_priv_cache_trim_unsubscribed_records] leaves
    them five minutes. *)
From S2P Require Import Prelude Names Server Heap Txt State Cache CacheTree CacheExpiry CacheRefine CacheOps CacheUpdate CacheAddr Browse BrowseNotify CacheExpire.
From Stdlib Require Import Sorting.

Lemma eq_Permutation {A} (l l' : list A) : l = l' -> l ≡ₚ l'.
Proof. by intros ->. Qed.

(** * Consumers *)

(** Whether a record with these pointers has a consumer. *)
Definition wanted (st : client) (p : pointers) : bool :=
  match cache_record_has_consumer st (reschedule 0 p) with Ret b => b | _ => false end.

Lemma consumer_pointers st n : cache_record_has_consumer st n = cache_record_has_consumer st (reschedule 0 (pointers_of n)).
Proof. by destruct n. Qed.

(** The pointers of a record can be followed. *)
Lemma consumer_yields xe xs b X st n : represents xe xs b X st -> n ∈ s_expiry st ->
  cache_record_has_consumer st n = Ret (wanted st (pointers_of n)).
Proof.
  intros HX Hn. unfold wanted. rewrite <- consumer_pointers.
  enough (Hy : exists w, cache_record_has_consumer st n = Ret w) by (destruct Hy as [w ->]; done).
  pose proof (r_tree _ _ _ _ _ HX) as Hl.
  assert (Hp : pointers_of n ∈ map ptr_of X).
  { rewrite <- (expiry_pointers _ _ _ _ _ HX). by apply list_elem_of_fmap_2. }
  apply list_elem_of_fmap in Hp as ([[p r] t] & E & Hp).
  assert (Hr : (pointers_of n, r) ∈ cache_records (s_cache st)) by (apply (pointed_record _ _ _ _ _ HX); rewrite E; eauto).
  unfold cache_record_has_consumer.
  apply cache_record_inv in Hr as [(c & e & a & it & Hc & Ha & Heq)|(c & e & v & s & Hi & Hr)].
  - apply (f_equal fst) in Heq. injection Heq as E1 E2 E3 E4 E5. rewrite E1, E2.
    apply assoc_elem_of in Hc; [|apply (t_entries _ Hl)]. rewrite Hc. cbn. eauto.
  - pose proof (proj2 (owns_in _ _ _ _ _ Hl) Hi) as Ho. pose proof (owns_find _ _ _ _ _ Hl Ho) as Hf.
    apply service_record_inv in Hr as [_ [(Hpt & _)|[(Hpt & _)|[(Hpt & _)|(t' & it & Hpt & Hin & _)]]]];
      injection Hpt as E1 E2 E3 E4 E5; rewrite E1, E3, ?E5, Hf; cbn; eauto.
    destruct (owns_wf _ _ _ _ _ Hl Ho) as (_ & Hnd & _). apply assoc_elem_of in Hin; [|done]. rewrite Hin. cbn. eauto.
Qed.

(** * The scan *)

Lemma split_deadline_spec d l : let '(a, z) := split_deadline d l in
  l = a ++ z /\ Forall (fun n => (ex_expires_at_us n <= d)%Z) a
  /\ match z with n :: _ => (d < ex_expires_at_us n)%Z | [] => True end.
Proof.
  induction l as [|n l IH]; cbn [split_deadline]; [done|]. destruct (ex_expires_at_us n <=? d)%Z eqn:E; bsimp.
  - destruct (split_deadline d l) as [a z]. destruct IH as (-> & Ha & Hz). split_and!; [done|by constructor|done].
  - split_and!; [done|done|lia].
Qed.

(** The new time of a record. *)
Definition trimmed (st : client) (d : Z) (n : mdns_cache_expiry_t) : mdns_cache_expiry_t :=
  if wanted st (pointers_of n) then n else set_expires n (Z.min (ex_expires_at_us n) d).

Lemma trim_scan_spec st d moved kept l :
  Forall (fun n => (d < ex_expires_at_us n)%Z) l ->
  (forall n, n ∈ l -> cache_record_has_consumer st n = Ret (wanted st (pointers_of n))) ->
  exists m k, trim_scan st d moved kept l = Ret ((rev m ++ moved) ++ kept ++ k)
    /\ m ++ k ≡ₚ map (trimmed st d) l /\ Forall (fun n => ex_expires_at_us n = d) m /\ k `sublist_of` l.
Proof.
  revert moved kept. induction l as [|n l IH]; intros moved kept Hl Hc; cbn [trim_scan].
  { exists [], []. rewrite !app_nil_r. by split_and!. }
  apply Forall_cons in Hl as [Hn Hl]. rewrite (Hc n) by left.
  assert (Hc' : forall m, m ∈ l -> cache_record_has_consumer st m = Ret (wanted st (pointers_of m))) by (intros; apply Hc; by right).
  assert (Ht : trimmed st d n = if wanted st (pointers_of n) then n else set_expires n d).
  { unfold trimmed. destruct (wanted st (pointers_of n)); [done|]. by rewrite Z.min_r by lia. }
  cbn [map]. rewrite Ht. cbn. destruct (wanted st (pointers_of n)).
  - destruct (IH moved (kept ++ [n]) Hl Hc') as (m & k & -> & Hp & Hm & Hk). exists m, (n :: k).
    split_and!; [by rewrite <- !app_assoc| |done|by apply sublist_skip]. by rewrite <- Permutation_middle, Hp.
  - destruct (IH (set_expires n d :: moved) kept Hl Hc') as (m & k & -> & Hp & Hm & Hk). exists (set_expires n d :: m), k.
    split_and!; [cbn [rev]; by rewrite <- !app_assoc|cbn [app]; by rewrite Hp|by constructor|by apply sublist_cons].
Qed.

Lemma sorted_app l1 l2 : expiry_sorted l1 -> expiry_sorted l2 ->
  (forall x y, x ∈ l1 -> y ∈ l2 -> expires_le x y) -> expiry_sorted (l1 ++ l2).
Proof.
  unfold expiry_sorted. intros H1 H2 H12. induction H1 as [|x l _ IH Hx]; [done|]. cbn. constructor.
  - apply IH. intros y z Hy Hz. apply H12; [by right|done].
  - apply Forall_app. split; [done|]. apply list.Forall_forall. intros y Hy. apply H12; [left|done].
Qed.

Lemma sorted_app_inv l1 l2 : expiry_sorted (l1 ++ l2) -> expiry_sorted l1 /\ expiry_sorted l2.
Proof.
  unfold expiry_sorted. induction l1 as [|x l1 IH]; cbn; [split; [constructor|done]|].
  intros [Hs Hx]%StronglySorted_inv. destruct (IH Hs). split; [constructor; [done|]|done].
  by apply Forall_app in Hx as [? _].
Qed.

Lemma sorted_sublist l l' : l' `sublist_of` l -> expiry_sorted l -> expiry_sorted l'.
Proof.
  unfold expiry_sorted. induction 1 as [|x l' l Hsub IH|x l' l Hsub IH]; [done|..]; intros [Hs Hx]%StronglySorted_inv.
  - constructor; [by apply IH|]. rewrite list.Forall_forall in *. intros y Hy. apply Hx.
    by eapply elem_of_submseteq, sublist_submseteq.
  - by apply IH.
Qed.

Lemma sorted_equal d l : Forall (fun n => ex_expires_at_us n = d) l -> expiry_sorted l.
Proof.
  unfold expiry_sorted. induction 1 as [|x l Hx Hl IH]; constructor; [done|]. eapply Forall_impl; [exact Hl|].
  unfold expires_le. intros y Hy. cbn in *. lia.
Qed.

(** * The operation *)

Definition trim_time (st : client) (d : Z) (x : pointed) : pointed :=
  (fst x, if wanted st (ptr_of x) then snd x else Z.min (snd x) d).

Lemma trimmed_time st d n : node_time (trimmed st d n)
  = (fst (node_time n), if wanted st (fst (node_time n)) then snd (node_time n) else Z.min (snd (node_time n)) d).
Proof. unfold trimmed, node_time. cbn [fst snd]. by destruct (wanted st (pointers_of n)), n. Qed.

Lemma trim_list xe xs b X st d : represents xe xs b X st ->
  exists l, (let '(before, z) := split_deadline d (s_expiry st) in
             t ← trim_scan st d [] [] z; Ret (before ++ t)) = Ret l
    /\ l ≡ₚ map (trimmed st d) (s_expiry st) /\ expiry_sorted l.
Proof.
  intros HX. pose proof (split_deadline_spec d (s_expiry st)) as Hs.
  destruct (split_deadline d (s_expiry st)) as [a z]. destruct Hs as (El & Ha & Hz).
  pose proof (r_sorted _ _ _ _ _ HX) as Hsort. rewrite El in Hsort. apply sorted_app_inv in Hsort as [Hsa Hsz].
  pose proof (purge_all_later d z Hsz Hz) as Hzl.
  destruct (trim_scan_spec st d [] [] z Hzl) as (m & k & -> & Hp & Hm & Hk).
  { intros n Hn. eapply consumer_yields; [exact HX|]. rewrite El. elems. }
  exists (a ++ rev m ++ k). cbn. rewrite app_nil_r. split_and!; [done| |].
  - rewrite El, map_app, <- Hp, <- Permutation_rev. f_equiv.
    rewrite <- (map_id a) at 1. erewrite map_ext_in; [done|]. intros n Hn%list_elem_of_In.
    rewrite list.Forall_forall in Ha. specialize (Ha n Hn). unfold trimmed. destruct (wanted st (pointers_of n)); [done|].
    rewrite Z.min_l by done. by destruct n.
  - assert (Hkd : forall y, y ∈ k -> (d < ex_expires_at_us y)%Z).
    { intros y Hy. rewrite list.Forall_forall in Hzl. apply Hzl. by eapply elem_of_submseteq, sublist_submseteq. }
    assert (Hmd : forall y, y ∈ rev m -> ex_expires_at_us y = d).
    { intros y Hy. rewrite list.Forall_forall in Hm. apply Hm. by rewrite <- (Permutation_rev m) in Hy. }
    rewrite list.Forall_forall in Ha. apply sorted_app; [done|apply sorted_app| ].
    + eapply sorted_equal, list.Forall_forall. exact Hmd.
    + by eapply sorted_sublist.
    + intros x y Hx Hy. unfold expires_le. rewrite (Hmd x Hx). specialize (Hkd y Hy). lia.
    + intros x y Hx Hy. unfold expires_le. specialize (Ha x Hx). apply elem_of_app in Hy as [Hy|Hy];
        [rewrite (Hmd y Hy); lia|specialize (Hkd y Hy); lia].
Qed.

Lemma trim_unsubscribed_spec b X st now :
  let d := (now + MDNS_CACHE_UNSUBSCRIBED_GRACE_SEC * MDNS_US_PER_SEC)%Z in
  represents None None b X st ->
  yields (mdns_priv_cache_trim_unsubscribed_records now st) (fun '(_, st') =>
    (exists l, st' = set_expiry st l) /\ represents None None b (map (trim_time st d) X) st').
Proof.
  intros d HX. unfold mdns_priv_cache_trim_unsubscribed_records. fold d. apply st_reads.
  destruct (trim_list _ _ _ _ _ d HX) as (l & El & Hp & Hs).
  destruct (split_deadline d (s_expiry st)) as [a z]. destruct (trim_scan st d [] [] z) as [t| | |] eqn:Et; try done.
  injection El as El. eapply st_asks; [exact Et|]. cbn [yields writes]. rewrite El. split; [by eexists|].
  destruct HX as [Ht Hf Hr Hn Hpt Hnm _ Hq Hh]. split; cfields; try done.
  - assert (E : map fst (map (trim_time st d) X) = map fst X) by (by rewrite map_map). by rewrite E.
  - rewrite Hp, (map_map (trimmed st d) node_time).
    transitivity (map (fun y : pointers * Z => (fst y, if wanted st (fst y) then snd y else Z.min (snd y) d)) (map node_of X)).
    { by rewrite !map_map. }
    rewrite Hn, map_map. apply eq_Permutation, map_ext. intros n. by rewrite trimmed_time.
  - assert (E : map ptr_of (map (trim_time st d) X) = map ptr_of X) by (by rewrite map_map). by rewrite E.
  - assert (E : map name_of (map (trim_time st d) X) = map name_of X) by (by rewrite map_map). by rewrite E.
  - rewrite Hp. apply Forall_map. eapply Forall_impl; [exact Hq|]. intros n Hqn. unfold trimmed. by case_on_goal.
  - rewrite Hp, length_map. exact Hh.
Qed.

(** C24.  When a browse ends, each cached record that no running browse consumes
    any more expires after the grace period at the latest; the times of the others
    stay, and the list of nodes stays in order. *)
Theorem trim_unsubscribed_limits b X st now :
  let d := (now + MDNS_CACHE_UNSUBSCRIBED_GRACE_SEC * MDNS_US_PER_SEC)%Z in
  represents None None b X st ->
  yields (mdns_priv_cache_trim_unsubscribed_records now st) (fun '(_, st') =>
    (exists l, st' = set_expiry st l) /\ represents None None b (map (trim_time st d) X) st').
Proof. apply trim_unsubscribed_spec. Qed.
