(* ===== verification/BrowseSync.v ===== *)
(** Synchronisation: [mdns_priv_cache_process_sync] reports the changes marked in
    the cache to the browses that need them, and clears the marks;
    [mdns_priv_cache_notify_browse] tells a new browse what is cached already. *)
From S2P Require Import Prelude Names Server Heap Txt State Cache CacheTree CacheExpiry CacheRefine CacheOps CacheUpdate CacheAddr Browse BrowseNotify CacheExpire.

(** * Services of the cache *)

Lemma all_services_in l x : tree_ok l -> x ∈ all_services l -> exists e s, owns l (fst x) e (snd x) s.
Proof.
  intros Hl ([c e] & Hc & ([v s] & -> & Hv)%list_elem_of_fmap)%elem_of_flat_map. cbn [fst snd] in *.
  exists e, s. apply owns_in; [done|]. by split.
Qed.

Lemma all_services_ids l : map snd (all_services l) = service_ids l.
Proof.
  unfold all_services, service_ids. induction l as [|[c e] l IH]; [done|]. cbn [flat_map fst snd].
  rewrite map_app, IH, map_map. done.
Qed.

Definition marked (s : mdns_service_cache_t) : bool :=
  negb (Z.land (sc_sync_consumers s) MDNS_CACHE_CONSUMER_BROWSE =? 0)%Z.

Lemma clear_unmarks s : marked (clear_sync_out MDNS_CACHE_CONSUMER_BROWSE s) = false.
Proof.
  unfold marked, clear_sync_out. cbn zeta.
  assert (E : Z.land (Z.land (sc_sync_consumers s) (Z.lxor 0xFF MDNS_CACHE_CONSUMER_BROWSE)) MDNS_CACHE_CONSUMER_BROWSE = 0%Z).
  { rewrite <- Z.land_assoc. apply Z.land_0_r. }
  apply negb_false_iff, Z.eqb_eq. cbn [sc_sync_consumers set_sync_consumers]. case_on_goal; exact E.
Qed.

Lemma find_alter_ne v v' f l : v' <> v -> find_service v' (alter_service v f l) = find_service v' l.
Proof.
  intros Hne. unfold alter_service. induction l as [|[c e] l IH]; [done|].
  cbn [map find_service fst snd set_service_cache_list ce_service_cache_list].
  rewrite assoc_alter_at, decide_False by done. by destruct (assoc v' (ce_service_cache_list e)).
Qed.

(** * What is pending *)

Definition pending_for (st : client) (x : cid * vid) : list (positive * mdns_result_t) :=
  match assoc (fst x) (s_cache st), find_service (snd x) (s_cache st) with
  | Some e, Some s =>
      if marked s then flat_map (update_for e s (sc_sync_records s)) (s_browse st) else []
  | _, _ => []
  end.

Definition pending (st : client) : list (positive * mdns_result_t) :=
  flat_map (pending_for st) (all_services (s_cache st)).

(** A service that was not touched has the same updates pending. *)
Lemma pending_other st st' v f x : s_browse st' = s_browse st -> s_cache st' = alter_service v f (s_cache st) ->
  snd x <> v -> pending_for st' x = pending_for st x.
Proof.
  intros Hb Hc Hne. unfold pending_for. rewrite Hc, Hb, assoc_alter_service.
  rewrite find_alter_ne by done. by destruct (assoc (fst x) (s_cache st)), (find_service (snd x) (s_cache st)).
Qed.

Definition sync_one (x : cid * vid) : C unit :=
  e ← get_entry (fst x);
  s ← get_service_cache (snd x);
  if (Z.land (sc_sync_consumers s) MDNS_CACHE_CONSUMER_BROWSE =? 0)%Z then mret tt
  else
    _ ← mdns_priv_browse_update_from_service_cache e s (sc_sync_records s);
    service_cache_clear_sync_out (snd x) MDNS_CACHE_CONSUMER_BROWSE.

(** The rest of the cache is as it was. *)
Definition untouched (v : vid) (st st' : client) : Prop :=
  s_cache st' = s_cache st
  \/ s_cache st' = alter_service v (clear_sync_out MDNS_CACHE_CONSUMER_BROWSE) (s_cache st).

Lemma sync_one_spec b X st x e s : represents None None b X st -> owns (s_cache st) (fst x) e (snd x) s ->
  yields (sync_one x st) (fun '(_, st') => exists rs, calm st rs st' /\ represents None None b X st'
    /\ s_expiry st' = s_expiry st /\ s_sync_pending st' = s_sync_pending st /\ untouched (snd x) st st'
    /\ (forall s', find_service (snd x) (s_cache st') = Some s' -> marked s' = false)
    /\ rs `sublist_of` pending_for st x /\ (never_fails (c_heap st) -> rs = pending_for st x)).
Proof.
  intros HX Ho. pose proof (r_tree _ _ _ _ _ HX) as Hl. pose proof (owns_find _ _ _ _ _ Hl Ho) as Hfs.
  destruct Ho as [Hc Hv]. unfold sync_one, pending_for. rewrite Hc, Hfs.
  eapply w_get_entry; [exact Hc|]. eapply w_get_service; [exact Hfs|]. unfold marked.
  destruct (Z.land (sc_sync_consumers s) MDNS_CACHE_CONSUMER_BROWSE =? 0)%Z eqn:Em; cbn [negb].
  { exists []. split_and!; try done; [by apply calm_quiet|by left|]. intros s' Hs'. rewrite Hfs in Hs'. injection Hs' as <-.
    by rewrite Em. }
  destruct (owns_wf _ _ _ _ _ Hl (conj Hc Hv)) as (Hw & _).
  eapply st_seq; [by apply update_from_spec|]. intros ok st1 (rs & Ht & Hsub & Hall). cbn [fst snd] in *.
  pose proof (told_represents _ _ _ _ _ _ _ Ht HX) as HX1. pose proof Ht as [Hst Hh Hn].
  assert (Hc1 : s_cache st1 = s_cache st) by (by rewrite Hst).
  assert (Hfs1 : find_service (snd x) (s_cache st1) = Some s) by (by rewrite Hc1).
  unfold service_cache_clear_sync_out. rewrite (put_service_eq _ s) by done. cbn [yields].
  exists rs. split_and!.
  - eapply calm_then; [by apply calm_told|]. by split.
  - apply represents_neutral; [done|by eexists|]. intros. apply clear_neutral.
  - by rewrite Hst.
  - by rewrite Hst.
  - right. cfields. by rewrite Hc1.
  - cfields. intros s'. rewrite find_alter_service, Hfs1. intros [= <-]. apply clear_unmarks.
  - done.
  - intros Hnf. by apply Hall.
Qed.

(** * The loop *)

Lemma untouched_owns v st st' x e s : untouched v st st' -> owns (s_cache st) (fst x) e (snd x) s ->
  exists e' s', owns (s_cache st') (fst x) e' (snd x) s'.
Proof.
  intros [->| ->] [Hc Hv]; [exists e, s; by split|].
  destruct (decide (snd x = v)) as [Heq|Hne]; eexists _, _;
    (split; [rewrite assoc_alter_service, Hc; done|]); cbn; rewrite assoc_alter_at, Hv.
  - by rewrite decide_True.
  - by rewrite decide_False.
Qed.

Lemma untouched_find v st st' v' : untouched v st st' -> v' <> v ->
  find_service v' (s_cache st') = find_service v' (s_cache st).
Proof. intros [->| ->] Hne; [done|by apply find_alter_ne]. Qed.

Lemma untouched_pending v st st' x : untouched v st st' -> s_browse st' = s_browse st -> snd x <> v ->
  pending_for st' x = pending_for st x.
Proof.
  intros [Hc|Hc] Hb Hne; [unfold pending_for; by rewrite Hc, Hb|by eapply pending_other].
Qed.

(** What a run over [l] leaves and reports. *)
Record synced (l : list (cid * vid)) b X (st st' : client) (rs : list (positive * mdns_result_t)) : Prop := {
  sy_calm : calm st rs st';
  sy_rep : represents None None b X st';
  sy_flag : s_sync_pending st' = s_sync_pending st;
  sy_done : forall x s, x ∈ l -> find_service (snd x) (s_cache st') = Some s -> marked s = false;
  sy_rest : forall v, v ∉ map snd l -> find_service v (s_cache st') = find_service v (s_cache st);
  sy_some : rs `sublist_of` flat_map (pending_for st) l;
  sy_all : never_fails (c_heap st) -> rs = flat_map (pending_for st) l;
}.

Lemma sync_loop b X l st : represents None None b X st -> base.NoDup (map snd l) ->
  (forall x, x ∈ l -> exists e s, owns (s_cache st) (fst x) e (snd x) s) ->
  yields (iter l sync_one st) (fun '(_, st') => exists rs, synced l b X st st' rs).
Proof.
  revert st. induction l as [|x l IH]; intros st HX Hnd Hall; cbn [iter].
  { exists []. split; try done; [by apply calm_quiet|]. intros x s Hx. by apply not_elem_of_nil in Hx. }
  cbn [map] in Hnd. apply NoDup_cons in Hnd as [Hx Hnd].
  destruct (Hall x) as (e & s & Ho); [left|]. eapply st_seq; [by eapply sync_one_spec|].
  intros [] st1 (rs1 & Hc1 & HX1 & _ & Hf1 & Hu & Hm1 & Hs1 & Hn1).
  assert (Hne : forall y, y ∈ l -> snd y <> snd x).
  { intros y Hy Heq. apply Hx. rewrite <- Heq. by apply list_elem_of_fmap_2. }
  eapply yields_mono; [apply (IH st1 HX1 Hnd)|].
  { intros y Hy. destruct (Hall y) as (e' & s' & Ho'); [by right|]. by eapply untouched_owns. }
  intros [[] st2] (rs2 & [Hc2 HX2 Hf2 Hd2 Hr2 Hs2 Ha2]).
  assert (Hpend : flat_map (pending_for st1) l = flat_map (pending_for st) l).
  { clear -Hu Hc1 Hne. induction l as [|y l IH]; [done|]. cbn [flat_map].
    rewrite (untouched_pending (snd x) st st1 y Hu (cm_browse _ _ _ Hc1)) by (apply Hne; left).
    f_equal. apply IH. intros z Hz. apply Hne. by right. }
  rewrite Hpend in Hs2, Ha2. exists (rs1 ++ rs2). split; [by eapply calm_trans|done|congruence| | | |].
  - intros y s' [->|Hy]%elem_of_cons Hs'; [|by eapply Hd2]. rewrite (Hr2 _ Hx) in Hs'. by apply Hm1.
  - cbn [map]. intros v [Hv1 Hv2]%not_elem_of_cons. rewrite (Hr2 _ Hv2). by eapply untouched_find.
  - cbn [flat_map]. by apply sublist_app.
  - intros Hnf. cbn [flat_map]. rewrite (Hn1 Hnf), (Ha2 (cm_never _ _ _ Hc1 Hnf)). done.
Qed.

Lemma process_sync_spec b X st : represents None None b X st ->
  yields (mdns_priv_cache_process_sync st) (fun '(_, st') => exists rs, calm st rs st' /\ represents None None b X st'
    /\ s_sync_pending st' = false
    /\ (s_sync_pending st = true -> forall v s, find_service v (s_cache st') = Some s -> marked s = false)
    /\ (never_fails (c_heap st) -> rs = if s_sync_pending st then pending st else [])).
Proof.
  intros HX. unfold mdns_priv_cache_process_sync. apply st_reads. destruct (s_sync_pending st) eqn:Ep; cbn [negb].
  2:{ exists []. split_and!; try done. by apply calm_quiet. }
  apply st_writes, st_reads. cfields. pose proof (r_tree _ _ _ _ _ HX) as Hl.
  set (st0 := set_sync_pending st false).
  eapply yields_mono; [apply (sync_loop b X (all_services (s_cache st)) st0)|].
  - by eapply represents_ext; [..|exact HX].
  - rewrite all_services_ids. apply (t_services _ Hl).
  - intros x Hx. by apply all_services_in.
  - intros [[] st'] (rs & [Hc HX' Hf Hd Hr _ Ha]). exists rs. split_and!; try done.
    + destruct Hc. by split.
    + intros _ v s Hs. destruct (decide (v ∈ map snd (all_services (s_cache st)))) as [Hv|Hv].
      * apply list_elem_of_fmap in Hv as (x & -> & Hx). by eapply Hd.
      * exfalso. apply Hv. rewrite all_services_ids. destruct (find_owns _ _ _ (r_tree _ _ _ _ _ HX') Hs) as (c & e & Ho).
        rewrite (Hr v Hv) in Hs. destruct (find_owns _ _ _ Hl Hs) as (c0 & e0 & Ho0).
        apply (owns_in _ _ _ _ _ Hl) in Ho0 as [Hc0 Hv0]. apply elem_of_flat_map. exists (c0, e0). split; [done|].
        exact (list_elem_of_fmap_2 fst _ _ Hv0).
Qed.

(** C25.  Synchronisation tells every running browse about every service with a
    pending change that concerns it, once and nothing else: the calls are exactly
    those pending, afterwards no service is marked.  The cache itself stays. *)
Theorem process_sync_reports b X st : represents None None b X st -> never_fails (c_heap st) ->
  s_sync_pending st = true ->
  yields (mdns_priv_cache_process_sync st) (fun '(_, st') =>
    c_results st' = c_results st ++ pending st /\ represents None None b X st'
    /\ s_sync_pending st' = false
    /\ forall v s, find_service v (s_cache st') = Some s -> marked s = false).
Proof.
  intros HX Hnf Hp. eapply yields_mono; [by apply process_sync_spec|].
  intros [[] st'] (rs & Hc & HX' & Hf & Hd & Hr). rewrite Hp in Hr. specialize (Hr Hnf) as ->.
  split_and!; [apply Hc|done|done|exact (Hd Hp)].
Qed.

(** * A new browse *)

(** What the cache knows for a browse. *)
Definition cached_for (st : client) (b : mdns_browse_t) : list (positive * mdns_result_t) :=
  flat_map (fun x => match assoc (fst x) (s_cache st), find_service (snd x) (s_cache st) with
                     | Some e, Some s => found_for e s b
                     | _, _ => []
                     end) (all_services (s_cache st)).

Lemma notify_browse_spec xe xs n X st b : represents xe xs n X st ->
  yields (mdns_priv_cache_notify_browse b st) (tells st (cached_for st b)).
Proof.
  intros HX. pose proof (r_tree _ _ _ _ _ HX) as Hl. unfold mdns_priv_cache_notify_browse, cached_for. apply st_reads.
  eapply yields_mono; [apply (iter_told (fun st' => s_cache st' = s_cache st)); [done| |]|by intros [ok st']].
  - intros st1 rs st2 [E _ _] Hc. by rewrite E.
  - intros x st1 Hx Hc. destruct (all_services_in _ _ Hl Hx) as (e & s & Ho).
    pose proof (owns_find _ _ _ _ _ Hl Ho) as Hf. pose proof (proj1 Ho) as He. rewrite He, Hf.
    eapply w_get_entry; [by rewrite Hc|]. eapply w_get_service; [by rewrite Hc|].
    apply notify_from_spec. by destruct (owns_wf _ _ _ _ _ Hl Ho).
Qed.
