(* ===== verification/Client.v ===== *)
(** The client side as a whole: what a received packet does to the cache (the
    browse part of [mdns_parse_packet]), the calls of the browse interface, the
    turns of the service task; and the invariant that all of them keep. *)
From S2P Require Import Prelude Names Server Heap Txt State Received Cache CacheTree CacheExpiry CacheRefine CacheOps CacheUpdate CacheTxt CacheAddr CacheSrv Browse BrowseNotify CacheExpire CacheTrim BrowseSync.

(** * Receiving *)

Section Receive.
Context (cfg : config) (addr : list positive -> positive).

(** [mdns_rx_staged_ip_t]. *)
Record staged_ip := mk_staged { sg_hostname : cstr; sg_ip : esp_ip_addr_t; sg_ttl : Z }.

Definition rx_staged_ip_add (staged : list staged_ip) (hostname : cstr) (ip : esp_ip_addr_t) (ttl : Z)
    : H (list staged_ip) :=
  if mdns_utils_str_null_or_empty (Some hostname) then mret staged
  else
    ok ← malloc;
    mret (if (ok : bool) then mk_staged (take (MDNS_NAME_BUF_LEN cfg - 1) hostname) ip ttl :: staged else staged).

Definition rx_staged_ips_apply (esp_netif : netif) (ip_protocol : mdns_ip_protocol_t) (staged : list staged_ip)
    : C unit :=
  match esp_netif with
  | None => mret tt
  | Some _ =>
      iter staged (fun it =>
        _ ← mdns_priv_cache_update_existing_addr addr esp_netif ip_protocol (Some (sg_hostname it)) (sg_ip it) (sg_ttl it);
        mret tt)
  end.

Definition rx_staged_ip_free (staged : list staged_ip) : H unit := mfree (Z.of_nat (length staged)).

(** The guard in front of the updates. *)
Definition rx_usable (instance : cstr) (b : mdns_browse_t) : bool :=
  negb (mdns_utils_str_null_or_empty (Some instance)) && negb (mdns_utils_str_null_or_empty (b_service b))
  && negb (mdns_utils_str_null_or_empty (b_proto b)).

Definition rx_cache_ptr (esp_netif : netif) (ip_protocol : mdns_ip_protocol_t) (b : mdns_browse_t)
    (target : mdns_name_t) (ttl : Z) : C unit :=
  if rx_usable (host target) b then
    _ ← mdns_priv_cache_update_ptr addr esp_netif ip_protocol (Some (host target)) (b_service b) (b_proto b)
          (b_subtype b) ttl;
    mret tt
  else mret tt.

Definition rx_cache_srv (esp_netif : netif) (ip_protocol : mdns_ip_protocol_t) (b : mdns_browse_t)
    (owner target : mdns_name_t) (priority weight port ttl : Z) : C unit :=
  if rx_usable (host owner) b then
    _ ← mdns_priv_cache_update_srv addr esp_netif ip_protocol (Some (host target)) (Some (host owner))
          (b_service b) (b_proto b) priority weight port ttl;
    mret tt
  else mret tt.

Definition rx_cache_txt (esp_netif : netif) (ip_protocol : mdns_ip_protocol_t) (b : mdns_browse_t)
    (owner : mdns_name_t) (data : list Z) (ttl : Z) : C unit :=
  if rx_usable (host owner) b then
    txt ← alloc (result_txt_linked_list_create data (length data));
    match txt with
    | Some txt =>
        _ ← mdns_priv_cache_update_txt addr esp_netif ip_protocol (Some (host owner)) (b_service b) (b_proto b)
              txt ttl;
        mret tt
    | None => mret tt
    end
  else mret tt.

Definition rx_cache_addr (has_consumer : bool) (staged : list staged_ip) (owner : mdns_name_t) (ip : esp_ip_addr_t)
    (ttl : Z) : C (list staged_ip) :=
  if has_consumer then alloc (rx_staged_ip_add staged (host owner) ip ttl) else mret staged.

(** One record: the state of the loop is whether the packet has a consumer and the
    staged addresses. *)
Definition rx_cache_record (esp_netif : netif) (ip_protocol : mdns_ip_protocol_t) (loop : bool * list staged_ip)
    (r : rx_record) : C (bool * list staged_ip) :=
  let '(has_consumer, staged) := loop in
  found ← reads (fun st => mdns_priv_browse_find_consumer st (rx_owner r) (rx_type r) esp_netif ip_protocol);
  let has_consumer := has_consumer || bool_decide (is_Some found) in
  match r, found with
  | RxPtr owner target ttl, Some (_, b) =>
      _ ← rx_cache_ptr esp_netif ip_protocol b target ttl; mret (has_consumer, staged)
  | RxSrv owner target priority weight port ttl, Some (_, b) =>
      _ ← rx_cache_srv esp_netif ip_protocol b owner target priority weight port ttl; mret (has_consumer, staged)
  | RxTxt owner data ttl, Some (_, b) =>
      _ ← rx_cache_txt esp_netif ip_protocol b owner data ttl; mret (has_consumer, staged)
  | RxAddr owner ip ttl, _ =>
      staged ← rx_cache_addr has_consumer staged owner ip ttl; mret (has_consumer, staged)
  | _, None => mret (has_consumer, staged)
  end.

Fixpoint rx_cache_records (esp_netif : netif) (ip_protocol : mdns_ip_protocol_t) (loop : bool * list staged_ip)
    (l : list rx_record) : C (bool * list staged_ip) :=
  match l with
  | [] => mret loop
  | r :: l => loop ← rx_cache_record esp_netif ip_protocol loop r; rx_cache_records esp_netif ip_protocol loop l
  end.

(** A packet: the records in order, then the staged addresses. *)
Definition rx_cache_packet (esp_netif : netif) (ip_protocol : mdns_ip_protocol_t) (l : list rx_record) : C unit :=
  loop ← rx_cache_records esp_netif ip_protocol (false, []) l;
  _ ← rx_staged_ips_apply esp_netif ip_protocol (snd loop);
  alloc (rx_staged_ip_free (snd loop)).

End Receive.

(** * Operations *)

Inductive client_op :=
| OpPacket (esp_netif : netif) (ip_protocol : mdns_ip_protocol_t) (l : list rx_record)
| OpNew (service proto subtype : option cstr) (notifier : option positive)
| OpDelete (service proto subtype : option cstr)
| OpTurn (received : bool)
| OpSend (mdns_if : mdns_if_t) (ip_protocol : mdns_ip_protocol_t)
| OpWait (us : Z).

Section Run.
Context (cfg : config) (MDNS_MAX_INTERFACES : nat) (addr : list positive -> positive).

Definition perform (op : client_op) : C unit :=
  match op with
  | OpPacket n p l => rx_cache_packet cfg addr n p l
  | OpNew s p t f => _ ← mdns_browse_new_with_subtype cfg addr true s p t f; mret tt
  | OpDelete s p t => _ ← mdns_browse_delete_with_subtype true s p t; mret tt
  | OpTurn received => service_turn MDNS_MAX_INTERFACES received
  | OpSend i p => mdns_priv_browse_send_by_ip_protocol i p
  | OpWait us => writes (fun st => set_c_now st (c_now st + us))
  end.

Definition run (ops : list client_op) : C unit := iter ops perform.

End Run.

(** The part of [mdns_free] that concerns the client: the actions that are left are
    freed, then the browses and the cache. *)
Definition client_free : C unit :=
  l ← reads c_actions;
  _ ← iter l (fun _ => alloc (mfree 1));
  _ ← writes (fun st => set_actions st []);
  _ ← mdns_priv_browse_free;
  mdns_priv_cache_clear.

Definition client_init (h : heap) (now : Z) (accepts : list bool) : client :=
  mk_client h now [] [] false [] [] accepts [] [].

Definition op_ok (op : client_op) : Prop := match op with OpPacket _ _ l => Forall rx_ok l | _ => True end.

(** * The invariant *)

Definition browses_blocks (l : list (bid * mdns_browse_t)) : Z :=
  foldr (fun x n => browse_blocks (snd x) + n)%Z 0%Z l.

Definition actions_of (b : bid) (l : list (browse_action * bid)) : list browse_action :=
  map fst (filter (fun a => snd a = b) l).

(** The actions waiting for a browse, by its state. *)
Definition queued_for (s : mdns_browse_state_t) (l : list browse_action) : Prop :=
  match s with
  | BROWSE_INIT => l = [ACTION_BROWSE_START]
  | BROWSE_RUNNING => l = []
  | BROWSE_OFF => l = [ACTION_BROWSE_END] \/ l = [ACTION_BROWSE_START; ACTION_BROWSE_END]
  end.

Record browses_ok (l : list (bid * mdns_browse_t)) (acts : list (browse_action * bid)) : Prop := {
  bo_ids : base.NoDup (map fst l);
  bo_queue : Forall (fun x => queued_for (b_state (snd x)) (actions_of (fst x) acts)) l;
  bo_live : Forall (fun a => snd a ∈ map fst l) acts;
}.

(** Blocks held besides the cache: before the client was set up, by the browses and
    by the actions. *)
Definition owed (base : Z) (st : client) : Z :=
  (base + browses_blocks (s_browse st) + Z.of_nat (length (c_actions st)))%Z.

(** [k] more blocks are held by the operation under way. *)
Definition holds (base k : Z) (st : client) : Prop :=
  (exists X, represents None None (owed base st + k) X st) /\ browses_ok (s_browse st) (c_actions st).

Definition client_ok (base : Z) (st : client) : Prop := holds base 0 st.
