(* ===== verification/ClientProofs.v ===== *)
(** The invariant of the client is kept by everything that happens: no operation
    fails, whatever allocations do, and nothing is leaked. *)
From S2P Require Import Prelude Names Server Heap Txt State Received Cache CacheTree CacheExpiry CacheRefine CacheOps CacheUpdate CacheTxt CacheAddr CacheSrv Browse BrowseNotify CacheExpire CacheTrim BrowseSync Client.

(** * Frames *)

Lemma holds_frame base k st st' : s_browse st' = s_browse st -> c_actions st' = c_actions st ->
  (exists X, represents None None (owed base st + k) X st') -> holds base k st -> holds base k st'.
Proof.
  intros Hb Ha HX [_ Hok]. split; [|by rewrite Hb, Ha]. unfold owed in *. by rewrite Hb, Ha.
Qed.

Lemma holds_refines base k j st X spec x : holds base k st -> refines st (owed base st + j) X spec x -> holds base j (snd x).
Proof.
  intros [_ Hok] [Hq (X' & HX' & _)]. split; [|by rewrite (q_browse _ _ Hq), (q_actions _ _ Hq)].
  exists X'. unfold owed in *. by rewrite (q_browse _ _ Hq), (q_actions _ _ Hq).
Qed.

Lemma holds_calm base k st rs st' : holds base k st -> calm st rs st' ->
  (exists X, represents None None (owed base st + k) X st') -> holds base k st'.
Proof.
  intros H Hc HX. eapply holds_frame; [apply (cm_browse _ _ _ Hc)|apply (cm_actions _ _ _ Hc)|exact HX|exact H].
Qed.

(** A part of the heap changes hands. *)
Lemma holds_heap base k st h : holds base k st ->
  holds base (k + (live h - live (c_heap st))) (set_c_heap st h).
Proof.
  intros [[X HX] Hok]. split; [|done]. exists X. unfold owed in *. cfields. destruct HX. split; try done. cfields. lia.
Qed.

Lemma holds_ext base k k' st st' : holds base k st -> k' = k -> s_browse st' = s_browse st ->
  c_actions st' = c_actions st -> s_cache st' = s_cache st -> s_expiry st' = s_expiry st -> c_heap st' = c_heap st ->
  holds base k' st'.
Proof.
  intros H -> Hb Ha Hc He Hh. pose proof H as [[X HX] _]. eapply holds_frame; [done|done| |exact H].
  exists X. by eapply represents_ext; [done|done|rewrite Hh|].
Qed.

(** * Receiving *)

Section Proofs.
Context (cfg : config) (MDNS_MAX_INTERFACES : nat) (addr : list positive -> positive).
Hypothesis addr_new : forall l, addr l ∉ l.
Context (base : Z).

Lemma existing_addr_ok k st n p hn ip ttl : holds base k st ->
  yields (mdns_priv_cache_update_existing_addr addr n p hn ip ttl st) (fun x => holds base k (snd x)).
Proof using addr_new.
  intros H. pose proof H as [[X HX] _]. unfold mdns_priv_cache_update_existing_addr. apply st_reads.
  destruct (cache_find_entry _ _ _ _) as [[c e]|]; [|done]. apply st_reads. case_on_goal; [|done].
  eapply yields_mono; [by apply cache_update_addr_spec|].
  intros x [Hr|(_ & _ & Hr)]; by eapply holds_refines.
Qed.

Lemma usable_named instance b : rx_usable instance b = true -> named (Some instance) (b_service b) (b_proto b).
Proof.
  unfold rx_usable. rewrite !andb_true_iff, !negb_true_iff. intros [[H1 H2] H3]. apply named_iff.
  by rewrite H1, H2, H3.
Qed.

Lemma txt_linked_wf data : Forall byte_ok data -> (Z.of_nat (length data) < 65536)%Z ->
  hspec (result_txt_linked_list_create data (length data))
    (fun r n => match r with Some l => n = list_blocks l /\ Forall txt_item_wf l | None => n = 0%Z end).
Proof.
  intros Hb Hl. unfold result_txt_linked_list_create.
  eapply hspec_bind; [by apply hspec_lift, get_txt_items_count_ok|]. intros num n [_ ->].
  case_on_goal; [by apply hspec_ret|]. case_on_goal; [by apply hspec_ret|].
  eapply hspec_mono; [apply link_items_ok; done || lia|]. intros [l|] n; [intros [-> ?]; split; [|done]|intros ->]; cbn; lia.
Qed.

Lemma rx_addr_ok st has staged owner ip ttl : holds base (Z.of_nat (length staged)) st ->
  yields (rx_cache_addr cfg has staged owner ip ttl st) (fun x => holds base (Z.of_nat (length (fst x))) (snd x)).
Proof.
  intros H. unfold rx_cache_addr. destruct has; [|done]. unfold alloc.
  assert (Hs : hspec (rx_staged_ip_add cfg staged (host owner) ip ttl)
                 (fun l n => Z.of_nat (length l) = (Z.of_nat (length staged) + n)%Z)).
  { unfold rx_staged_ip_add. case_on_goal; [apply hspec_ret; lia|]. intros h. unfold mbind, ST_bind, mret, ST_ret.
    pose proof (hspec_malloc h) as Hm. destruct (malloc h) as [[ok h']| | |]; try done. destruct ok; cbn in *; lia. }
  specialize (Hs (c_heap st)). cfields. destruct (rx_staged_ip_add _ _ _ _ _ _) as [[l h]| | |]; try done.
  cbn in Hs |- *. eapply holds_ext; [exact (holds_heap _ _ _ h H)|lia|done..].
Qed.

Lemma rx_ptr_ok k st n p b target ttl : holds base k st ->
  yields (rx_cache_ptr addr n p b target ttl st) (fun x => holds base k (snd x)).
Proof using addr_new.
  intros H. pose proof H as [[X HX] _]. unfold rx_cache_ptr. case_on_goal; [|done].
  eapply st_seq; [by apply cache_update_ptr_spec|]. intros res st1 Hx. exact (holds_refines _ _ _ _ _ _ _ H Hx).
Qed.

Lemma rx_srv_ok k st n p b owner target priority weight port ttl : holds base k st ->
  yields (rx_cache_srv addr n p b owner target priority weight port ttl st) (fun x => holds base k (snd x)).
Proof using addr_new.
  intros H. pose proof H as [[X HX] _]. unfold rx_cache_srv. destruct (rx_usable _ _) eqn:Hu; [|done].
  eapply st_seq; [apply cache_update_srv_spec; [done|exact HX|by apply usable_named]|].
  intros res st1 Hx. exact (holds_refines _ _ _ _ _ _ _ H Hx).
Qed.

Lemma rx_txt_ok k st n p b owner data ttl : holds base k st ->
  Forall byte_ok data -> (Z.of_nat (length data) < 65536)%Z ->
  yields (rx_cache_txt addr n p b owner data ttl st) (fun x => holds base k (snd x)).
Proof using addr_new.
  intros H Hb Hl. unfold rx_cache_txt. destruct (rx_usable _ _) eqn:Hu; [|done].
  eapply st_alloc_any; [by apply txt_linked_wf|].
  intros [txt|] h Hh; cbn beta iota in Hh; cfields.
  - destruct Hh as [Hh Hw]. pose proof (holds_heap _ _ _ h H) as Hh2. pose proof Hh2 as [[X' HX'] _].
    rewrite Z.add_assoc, Hh in HX'.
    eapply st_seq; [apply cache_update_txt_spec; [done|exact HX'|by apply usable_named|done]|].
    intros res st1 Hx. exact (holds_refines _ _ _ _ _ _ _ Hh2 Hx).
  - eapply holds_ext; [exact (holds_heap _ _ _ h H)|lia|done..].
Qed.

Lemma rx_record_ok st n p has staged r : holds base (Z.of_nat (length staged)) st -> rx_ok r ->
  yields (rx_cache_record cfg addr n p (has, staged) r st)
    (fun x => holds base (Z.of_nat (length (snd (fst x)))) (snd x)).
Proof using addr_new.
  intros H Hr. unfold rx_cache_record. apply st_reads.
  destruct r as [owner target ttl|owner target pr w po ttl|owner data ttl|owner ip ttl];
    (destruct (mdns_priv_browse_find_consumer _ _ _ _ _) as [[b br]|]; [|try done]).
  - eapply st_seq; [by apply rx_ptr_ok|]. by intros [] st'.
  - eapply st_seq; [by apply rx_srv_ok|]. by intros [] st'.
  - destruct Hr. eapply st_seq; [by apply rx_txt_ok|]. by intros [] st'.
  - eapply st_seq; [by apply rx_addr_ok|]. by intros l st'.
  - eapply st_seq; [by apply rx_addr_ok|]. by intros l st'.
Qed.

Lemma rx_records_ok n p l : forall st has staged, holds base (Z.of_nat (length staged)) st -> Forall rx_ok l ->
  yields (rx_cache_records cfg addr n p (has, staged) l st)
    (fun x => holds base (Z.of_nat (length (snd (fst x)))) (snd x)).
Proof using addr_new.
  induction l as [|r l IH]; intros st has staged H Hl; cbn [rx_cache_records]; [done|].
  apply Forall_cons in Hl as [Hr Hl]. eapply st_seq; [by apply rx_record_ok|].
  intros [has' staged'] st' H'. by apply IH.
Qed.

Lemma rx_packet_ok st n p l : client_ok base st -> Forall rx_ok l ->
  yields (rx_cache_packet cfg addr n p l st) (fun x => client_ok base (snd x)).
Proof using addr_new.
  intros H Hl. unfold rx_cache_packet. eapply st_seq; [by apply rx_records_ok|].
  intros [has staged] st1 H1. cbn [snd fst] in *.
  eapply st_seq with (P := fun x => holds base (Z.of_nat (length staged)) (snd x)).
  - unfold rx_staged_ips_apply. destruct n as [n|]; [|done]. apply iter_ok; [done|].
    intros it st2 _ H2. eapply st_seq; [by apply existing_addr_ok|]. by intros res st3.
  - intros [] st2 H2. cbn [snd] in H2. eapply st_alloc_last; [apply hfull_mfree|]. intros h Hh _. cbn beta in Hh.
    cfields. eapply holds_ext; [exact (holds_heap _ _ _ h H2)|lia|done..].
Qed.

(** * The list of browses *)

Lemma actions_of_app b l l' : actions_of b (l ++ l') = actions_of b l ++ actions_of b l'.
Proof. unfold actions_of. by rewrite filter_app, map_app. Qed.

Lemma actions_of_cons b a b' l : actions_of b ((a, b') :: l) = (if decide (b' = b) then [a] else []) ++ actions_of b l.
Proof. unfold actions_of. rewrite filter_cons. cbn [snd]. by case_decide. Qed.

Lemma actions_of_none b l : Forall (fun a => snd a <> b) l -> actions_of b l = [].
Proof.
  induction 1 as [|[a b'] l Hb _ IH]; [done|]. rewrite actions_of_cons, IH. by rewrite decide_False.
Qed.

Lemma browses_blocks_app l l' : browses_blocks (l ++ l') = (browses_blocks l + browses_blocks l')%Z.
Proof. unfold browses_blocks. induction l as [|x l IH]; cbn [app foldr]; [done|]. rewrite IH. lia. Qed.

Lemma alter_browse_blocks b x l : browses_blocks (alter_at b (set_browse_state x) l) = browses_blocks l.
Proof.
  unfold browses_blocks, alter_at. induction l as [|[b' it] l IH]; cbn [map foldr]; [done|]. rewrite IH.
  by case_decide.
Qed.

(** The state of one browse and the actions waiting for it change. *)
Lemma browses_put b x l acts acts' it : browses_ok l acts -> assoc b l = Some it ->
  queued_for x (actions_of b acts') ->
  (forall b', b' <> b -> actions_of b' acts' = actions_of b' acts) ->
  Forall (fun a => snd a ∈ map fst l) acts' ->
  browses_ok (alter_at b (set_browse_state x) l) acts'.
Proof.
  intros [Hid Hq _] Hb Hx Hother Hlive. split; rewrite ?alter_at_fst; [done| |done].
  unfold alter_at. apply Forall_map. eapply Forall_impl; [exact Hq|]. intros [b' it'] Hq'. cbn [fst snd] in *.
  case_decide as Hd; cbn [fst snd set_browse_state b_state]; [by subst|]. by rewrite Hother.
Qed.

Lemma browses_remove b l acts acts' : browses_ok l acts -> actions_of b acts' = [] ->
  (forall b', b' <> b -> actions_of b' acts' = actions_of b' acts) ->
  Forall (fun a => snd a ∈ map fst l) acts' -> browses_ok (remove_at b l) acts'.
Proof.
  intros [Hid Hq _] Hb Hother Hlive. split.
  - eapply sublist_NoDup; [exact Hid|]. apply map_sublist, remove_at_sublist.
  - rewrite list.Forall_forall in *. intros x [Hx Hne]%remove_at_elem; [|done]. rewrite Hother by done. by apply Hq.
  - rewrite list.Forall_forall in *. intros [a b'] Ha. cbn [snd]. specialize (Hlive _ Ha). cbn [snd] in Hlive.
    apply list_elem_of_fmap in Hlive as ([b0 it] & Heq & Hin). cbn in Heq. subst b0.
    assert (Hne : b' <> b).
    { intros ->. assert (Hin' : a ∈ actions_of b acts').
      { unfold actions_of. apply list_elem_of_fmap. exists (a, b). split; [done|]. by apply list_elem_of_filter. }
      rewrite Hb in Hin'. by apply not_elem_of_nil in Hin'. }
    apply list_elem_of_fmap. exists (b', it). split; [done|]. by apply remove_at_elem.
Qed.

Lemma removed_blocks b l it : base.NoDup (map fst l) -> assoc b l = Some it ->
  browses_blocks (remove_at b l) = (browses_blocks l - browse_blocks it)%Z.
Proof.
  intros _ (l1 & l2 & -> & Hn)%assoc_split. rewrite remove_at_split by done.
  rewrite !browses_blocks_app. cbn [browses_blocks foldr snd]. fold (browses_blocks l2). lia.
Qed.

(** * The service task *)

Lemma told_holds k st rs st' : holds base k st -> told st rs st' -> holds base k st'.
Proof.
  intros H Ht. eapply holds_calm; [exact H|by apply calm_told|]. destruct H as [[X HX] _]. exists X.
  by eapply told_represents.
Qed.

(** An action was taken from the queue and is not freed yet. *)
Definition popped (a : browse_action) (b : bid) (st : client) : Prop :=
  (exists X, represents None None (owed base st + 1) X st) /\ browses_ok (s_browse st) ((a, b) :: c_actions st).

Section Popped.
Context (a : browse_action) (b : bid) (st : client).
Hypothesis Hpop : popped a b st.

Lemma popped_browse : exists it, assoc b (s_browse st) = Some it
  /\ queued_for (b_state it) (a :: actions_of b (c_actions st)).
Proof using Hpop.
  destruct Hpop as [_ [Hid Hq Hlive]]. apply Forall_cons in Hlive as [Hb _]. cbn [snd] in Hb.
  apply list_elem_of_fmap in Hb as ([b0 it] & Heq & Hin). cbn in Heq. subst b0.
  exists it. split; [by apply assoc_elem_of|]. rewrite list.Forall_forall in Hq. specialize (Hq _ Hin).
  cbn [fst snd] in Hq. by rewrite actions_of_cons, decide_True in Hq.
Qed.

Lemma popped_other b' : b' <> b -> actions_of b' (c_actions st) = actions_of b' ((a, b) :: c_actions st).
Proof using. intros Hne. by rewrite actions_of_cons, decide_False. Qed.

Lemma popped_live : Forall (fun x => snd x ∈ map fst (s_browse st)) (c_actions st).
Proof using Hpop. destruct Hpop as [_ [_ _ Hlive]]. by apply Forall_cons in Hlive as [_ ?]. Qed.

(** The state of the browse is as before. *)
Lemma popped_holds it : assoc b (s_browse st) = Some it -> queued_for (b_state it) (actions_of b (c_actions st)) ->
  holds base 1 st.
Proof using Hpop.
  intros Hb Hq. destruct Hpop as [HX [Hid Hqs _]]. split; [done|]. split; [done| |apply popped_live].
  rewrite list.Forall_forall in *. intros [b' it'] Hin. cbn [fst snd]. destruct (decide (b' = b)) as [->|Hne].
  - apply assoc_elem_of in Hin; [|done]. rewrite Hb in Hin. by injection Hin as <-.
  - rewrite popped_other by done. by apply (Hqs (b', it')).
Qed.

End Popped.

Lemma send_queries_ok k st it l : holds base k st ->
  yields (iter l (fun i => iter [MDNS_IP_PROTOCOL_V4; MDNS_IP_PROTOCOL_V6] (fun p => browse_send it i p)) st)
    (fun x => holds base k (snd x)).
Proof.
  intros H. apply iter_ok; [done|]. intros i st1 _ H1. apply iter_ok; [done|]. intros p st2 _ H2.
  by eapply holds_ext; [exact H2|..].
Qed.

Lemma start_ok st b : popped ACTION_BROWSE_START b st ->
  yields (browse_start MDNS_MAX_INTERFACES b st) (fun x => holds base 1 (snd x)).
Proof.
  intros Hpop. destruct (popped_browse _ _ _ Hpop) as (it & Hb & Hq). unfold browse_start.
  eapply st_asks; [by rewrite Hb|]. destruct (b_state it) eqn:Es; cbn [queued_for] in Hq.
  - rewrite bool_decide_eq_false_2 by done. cbn [negb yields mret ST_ret snd].
    eapply popped_holds; [exact Hpop|exact Hb|]. rewrite Es. destruct Hq as [?|[= Hq]]; [done|by left].
  - rewrite bool_decide_eq_true_2 by done. cbn [negb]. injection Hq as Hq. unfold put_browse_state. apply st_writes.
    set (st1 := set_browse st _). assert (H1 : holds base 1 st1).
    { pose proof (popped_live _ _ _ Hpop) as Hlive. destruct Hpop as [[X HX] Hok]. split.
      - exists X. unfold owed, st1. cfields. rewrite alter_browse_blocks. by eapply represents_ext; [..|exact HX].
      - unfold st1. cfields. eapply browses_put; [exact Hok|exact Hb|done|intros; by apply popped_other|done]. }
    pose proof H1 as [[X1 HX1] _]. eapply st_seq; [by eapply notify_browse_spec|].
    intros ok st2 (rs & Ht & _). cbn [snd] in Ht. apply send_queries_ok. by eapply told_holds.
  - done.
Qed.

Lemma trim_ok k st now : holds base k st ->
  yields (mdns_priv_cache_trim_unsubscribed_records now st) (fun x => holds base k (snd x)).
Proof.
  intros H. pose proof H as [[X HX] _]. eapply yields_mono; [by apply trim_unsubscribed_spec|].
  intros [[] st'] [[l ->] HX']. by eapply holds_frame; [| |eexists|exact H].
Qed.

Lemma finish_ok st b : popped ACTION_BROWSE_END b st ->
  yields (browse_finish b st) (fun x => holds base 1 (snd x)).
Proof.
  intros Hpop. destruct (popped_browse _ _ _ Hpop) as (it & Hb & Hq). unfold browse_finish. apply st_reads. rewrite Hb.
  apply st_writes. eapply st_alloc; [apply hfull_mfree|]. intros [] h Hh _. cbn beta in Hh. cfields. apply st_reads. cfields.
  apply trim_ok. pose proof (popped_live _ _ _ Hpop) as Hlive. destruct Hpop as [[X HX] Hok].
  assert (Hnil : actions_of b (c_actions st) = []).
  { destruct (b_state it); cbn in Hq; [destruct Hq as [[= ?]|?]; done|done|done]. }
  split.
  - exists X. unfold owed in *. cfields. rewrite (removed_blocks b _ it) by (by destruct Hok || done).
    destruct HX. split; try done. cfields. lia.
  - cfields. eapply browses_remove; [exact Hok|done|intros; by apply popped_other|done].
Qed.

Lemma turn_ok st received : client_ok base st ->
  yields (service_turn MDNS_MAX_INTERFACES received st) (fun x => client_ok base (snd x)).
Proof.
  intros H. unfold service_turn. apply st_reads.
  eapply st_seq with (P := fun x => client_ok base (snd x)).
  - destruct (c_actions st) as [|[a b] rest] eqn:Ea; [done|]. destruct received; [|done]. apply st_writes.
    set (st1 := set_actions st rest).
    assert (Hpop : popped a b st1).
    { destruct H as [[X HX] Hok]. rewrite Ea in Hok. split; [|done]. exists X. unfold owed, st1 in *. cfields.
      rewrite Ea in HX. cbn [length] in HX. destruct HX. split; try done. cfields. lia. }
    eapply st_seq with (P := fun x => holds base 1 (snd x)).
    { destruct a; cbn [mdns_priv_browse_action]; [by apply start_ok|by apply finish_ok]. }
    intros [] st2 H2. cbn [snd] in H2. eapply st_alloc_last; [apply hfull_mfree|]. intros h Hh _. cbn beta in Hh. cfields.
    eapply holds_ext; [exact (holds_heap _ _ _ h H2)|lia|done..].
  - intros [] st1 H1. cbn [snd] in H1. apply st_reads. pose proof H1 as [[X HX] _].
    eapply st_seq; [unfold mdns_priv_cache_remove_expired_records; apply st_reads; by apply remove_expired_spec; [|lia]|].
    intros [] st2 (X2 & rs & Hc & HX2 & _).
    assert (H2 : client_ok base st2) by (eapply holds_calm; [exact H1|exact Hc|by exists X2]).
    eapply yields_mono; [by apply process_sync_spec|]. intros [[] st3] (rs3 & Hc3 & HX3 & _). cbn [snd].
    pose proof H2 as [[X2' HX2'] _].
    eapply holds_calm; [exact H2|exact Hc3|]. unfold owed in *. exists X2.
    rewrite (cm_browse _ _ _ Hc), (cm_actions _ _ _ Hc). exact HX3.
Qed.

(** * The interface *)

Lemma dup_name_ok s : hspec (dup_name cfg s) (fun r n =>
  match r with None => n = 0%Z | Some x => n = opt_block x end).
Proof.
  intros h. unfold dup_name, mbind, ST_bind, mret, ST_ret. pose proof (dup_string_spec s h) as Hd.
  destruct (dup_string s h) as [[[x|] h']| | |]; try done; destruct Hd as [Hd _]; [|done].
  destruct Hd as [_ Hd]. cbn [option_map]. by destruct x.
Qed.

Lemma browse_init_ok s p t f : hspec (browse_init cfg s p t f) (fun r n =>
  match r with None => n = 0%Z | Some b => n = browse_blocks b /\ b_state b = BROWSE_INIT end).
Proof.
  intros h0. unfold browse_init.
  assert (Hstep : forall (A B : Type) (m : ST heap A) (g : A -> ST heap B) P h Q, hspec m P ->
    (forall a h', P a (live h' - live h)%Z -> yields (g a h') Q) -> yields ((m ≫= g) h) Q).
  { intros A B m g P h Q Hm Hg. unfold mbind, ST_bind. specialize (Hm h). destruct (m h) as [[a h']| | |]; try done. by apply Hg. }
  eapply Hstep; [apply hspec_malloc|]. intros [] h1 Hh1; cbn beta in Hh1; cbn [negb]; [|cbn; lia].
  eapply Hstep; [apply dup_name_ok|]. intros [s'|] h2 Hh2; cbn beta iota in Hh2.
  2:{ eapply Hstep; [apply hspec_mfree|]. intros [] h3 Hh3. unfold browse_blocks in Hh3. cbn [b_service b_proto b_subtype opt_block] in Hh3. cbn. lia. }
  eapply Hstep; [apply dup_name_ok|]. intros [p'|] h3 Hh3; cbn beta iota in Hh3.
  2:{ eapply Hstep; [apply hspec_mfree|]. intros [] h4 Hh4. unfold browse_blocks in Hh4. cbn [b_service b_proto b_subtype opt_block] in Hh4. cbn. lia. }
  eapply Hstep; [apply dup_name_ok|]. intros [t'|] h4 Hh4; cbn beta iota in Hh4.
  2:{ eapply Hstep; [apply hspec_mfree|]. intros [] h5 Hh5. unfold browse_blocks in Hh5. cbn [b_service b_proto b_subtype opt_block] in Hh5. cbn. lia. }
  cbn [yields mret ST_ret]. split; [|done]. unfold browse_blocks. cbn [b_service b_proto b_subtype]. lia.
Qed.

(** An action is queued or not; its block is accounted for. *)
Lemma send_action_ok k st type b X : represents None None (owed base st + k) X st ->
  yields (send_browse_action type b st) (fun '(ok, st') => s_browse st' = s_browse st
    /\ c_actions st' = c_actions st ++ (if ok then [(type, b)] else [])
    /\ represents None None (owed base st' + k) X st').
Proof.
  intros HX. unfold send_browse_action. eapply st_alloc; [apply hfull_malloc|]. intros [] h Hh _; cbn beta in Hh; cbn [negb]; cfields.
  2:{ cbn [yields mret ST_ret]. cfields. rewrite app_nil_r. split_and!; try done. apply set_heap_same; [lia|exact HX]. }
  apply st_reads. destruct (next_bool _) as [ok rest]. apply st_writes. destruct ok.
  - apply st_writes. cbn [yields mret ST_ret]. cfields. split_and!; try done. unfold owed in *. cfields.
    rewrite length_app. cbn [length]. destruct HX. split; try done. cfields. lia.
  - eapply st_alloc; [apply hfull_mfree|]. intros [] h2 Hh2 _. cbn beta in Hh2. cbn [yields mret ST_ret]. cfields.
    rewrite app_nil_r. split_and!; try done. unfold owed in *. cfields. destruct HX. split; try done. cfields. lia.
Qed.

Lemma new_ok st s p t f : client_ok base st ->
  yields (mdns_browse_new_with_subtype cfg addr true s p t f st) (fun x => client_ok base (snd x)).
Proof using addr_new.
  intros H. unfold mdns_browse_new_with_subtype. case_on_goal; [done|]. case_on_goal; [done|].
  eapply st_alloc_any; [apply browse_init_ok|]. intros [br|] h Hh; cbn beta iota in Hh; cfields.
  2:{ eapply holds_ext; [exact (holds_heap _ _ _ h H)|lia|done..]. }
  destruct Hh as [Hh Hst]. pose proof (holds_heap _ _ _ h H) as H1. rewrite Hh, Z.add_0_l in H1.
  assert (Hfree : forall st', holds base (browse_blocks br) st' ->
    yields ((_ ← alloc (browse_item_free br); mret (@None bid)) st') (fun x => client_ok base (snd x))).
  { intros st' H'. eapply st_alloc; [apply hfull_mfree|]. intros [] h' Hh' _. cbn beta in Hh'. cfields.
    cbn [yields mret ST_ret snd]. eapply holds_ext; [exact (holds_heap _ _ _ h' H')|lia|done..]. }
  apply st_reads. destruct (get_non_off_browse_item _ _ _ _) as [x|]; [by apply Hfree|].
  cfields. set (b := addr _). assert (Hb : b ∉ map fst (s_browse st)) by apply addr_new.
  pose proof H1 as [[X HX] Hok]. eapply st_seq; [exact (send_action_ok (browse_blocks br) _ ACTION_BROWSE_START b X HX)|].
  intros ok st2 (Hbr & Hact & HX2). cfields. destruct ok; cbn [negb].
  2:{ apply Hfree. rewrite app_nil_r in Hact. split; [by exists X|by rewrite Hbr, Hact]. }
  apply st_writes. cbn [yields mret ST_ret snd]. split.
  - exists X. unfold owed in *. cfields. rewrite Hbr. cbn [browses_blocks foldr snd]. fold (browses_blocks (s_browse st)).
    rewrite Hbr in HX2. destruct HX2. split; try done. cfields. lia.
  - cfields. rewrite Hbr, Hact. destruct Hok as [Hid Hq Hlive]. cfields. split.
    + cbn [map fst]. by apply NoDup_cons.
    + constructor.
      * cbn [fst snd]. rewrite Hst. cbn. rewrite actions_of_app, actions_of_cons, decide_True by done.
        rewrite actions_of_none; [done|]. eapply Forall_impl; [exact Hlive|]. intros [a b'] Hin Heq. cbn in *. by subst.
      * rewrite list.Forall_forall in *. intros [b' it] Hin. cbn [fst snd]. rewrite actions_of_app, actions_of_cons.
        rewrite decide_False; [cbn; rewrite app_nil_r; by apply (Hq (b', it))|].
        intros ->. apply Hb. exact (list_elem_of_fmap_2 fst _ _ Hin).
    + apply Forall_app. split; [|constructor; [left|done]]. eapply Forall_impl; [exact Hlive|]. intros x Hx. by right.
Qed.

Lemma delete_ok st s p t : client_ok base st ->
  yields (mdns_browse_delete_with_subtype true s p t st) (fun x => client_ok base (snd x)).
Proof.
  intros H. unfold mdns_browse_delete_with_subtype. case_on_goal; [done|]. case_on_goal; [done|]. apply st_reads.
  destruct (get_non_off_browse_item _ _ _ _) as [[b it]|] eqn:Eg; [|done]. unfold put_browse_state. apply st_writes.
  apply List.find_some in Eg as [Hin Hm]. rewrite <- list_elem_of_In in Hin. cbn [snd] in Hm.
  rewrite andb_true_iff, negb_true_iff, bool_decide_eq_false in Hm. destruct Hm as [Hoff _].
  pose proof H as [[X HX] Hok]. rewrite Z.add_0_r in HX. pose proof Hok as [Hid Hq Hlive].
  pose proof (proj1 (assoc_elem_of _ _ _ Hid) Hin) as Hb. set (st1 := set_browse st _).
  assert (HX1 : represents None None (owed base st1 + 0) X st1).
  { unfold owed, st1 in *. cfields. rewrite alter_browse_blocks, Z.add_0_r. by eapply represents_ext; [..|exact HX]. }
  assert (Hqb : queued_for (b_state it) (actions_of b (c_actions st))).
  { rewrite list.Forall_forall in Hq. exact (Hq _ Hin). }
  eapply st_seq; [exact (send_action_ok 0 st1 ACTION_BROWSE_END b X HX1)|].
  intros ok st2 (Hbr & Hact & HX2). unfold st1 in Hbr, Hact. cfields. destruct ok; cbn [negb].
  - cbn [yields mret ST_ret snd]. split; [by exists X|]. rewrite Hbr, Hact.
    eapply browses_put; [exact Hok|exact Hb| | |].
    + rewrite actions_of_app, actions_of_cons, decide_True by done. cbn.
      destruct (b_state it); cbn in Hqb; [done|rewrite Hqb; by right|rewrite Hqb; by left].
    + intros b' Hne. rewrite actions_of_app, actions_of_cons, decide_False by done. cbn. by rewrite app_nil_r.
    + apply Forall_app. split; [done|]. constructor; [|done]. exact (list_elem_of_fmap_2 fst _ _ Hin).
  - apply st_writes. cbn [yields mret ST_ret snd]. rewrite app_nil_r in Hact. split.
    + exists X. unfold owed in *. cfields. rewrite alter_browse_blocks. by eapply represents_ext; [..|exact HX2].
    + cfields. rewrite Hbr, Hact.
      assert (Hback : alter_at b (set_browse_state (b_state it)) (alter_at b (set_browse_state BROWSE_OFF) (s_browse st)) = s_browse st).
      { unfold alter_at. rewrite map_map. rewrite <- (map_id (s_browse st)) at 2. apply map_ext_in.
        intros [b' it'] Hin'%list_elem_of_In. cbn [fst snd]. destruct (decide (b' = b)) as [->|Hne]; cbn [fst snd].
        - rewrite decide_True by done. assert (Heq : (b, it') = (b, it)) by (by eapply (NoDup_map_inj fst)).
          injection Heq as ->. by destruct it.
        - by rewrite decide_False. }
      by rewrite Hback.
Qed.

Lemma perform_ok st op : client_ok base st -> op_ok op ->
  yields (perform cfg MDNS_MAX_INTERFACES addr op st) (fun x => client_ok base (snd x)).
Proof using addr_new.
  intros H Hop. destruct op as [n p l|s p t f|s p t|received|i p|us]; cbn [perform].
  - by apply rx_packet_ok.
  - eapply st_seq; [by apply new_ok|]. by intros r st' H'.
  - eapply st_seq; [by apply delete_ok|]. by intros r st' H'.
  - by apply turn_ok.
  - unfold mdns_priv_browse_send_by_ip_protocol. apply st_reads. apply iter_ok; [done|].
    intros x st1 _ H1. case_on_goal; [|done]. by eapply holds_ext; [exact H1|..].
  - by eapply holds_ext; [exact H|..].
Qed.

Lemma represents_empty h now accepts : base = live h ->
  represents None None (owed base (client_init h now accepts) + 0) [] (client_init h now accepts).
Proof.
  intros ->. split; cbn [client_init s_cache s_expiry]; try done; try apply NoDup_nil_2; try by constructor.
  - by split; try apply NoDup_nil_2.
  -   unfold owed. cbn [client_init s_browse c_actions c_heap s_cache s_expiry browses_blocks foldr cache_blocks length]. lia.
Qed.

Lemma run_ok ops h now accepts : base = live h -> Forall op_ok ops ->
  yields (run cfg MDNS_MAX_INTERFACES addr ops (client_init h now accepts)) (fun x => client_ok base (snd x)).
Proof using addr_new.
  intros Hbase Hops. apply iter_ok.
  - split.
    + exists []. by apply represents_empty.
    + split; [apply NoDup_nil_2|done|done].
  - intros op st Hin H. apply perform_ok; [done|]. rewrite list.Forall_forall in Hops. by apply Hops.
Qed.

(** Freeing every element of a list. *)
Lemma iter_mfree {A} (size : A -> Z) l st :
  iter l (fun x => alloc (mfree (size x))) st
  = Ret (tt, set_c_heap st (mk_heap (fails (c_heap st)) (live (c_heap st) - foldr (fun x n => size x + n) 0 l))%Z).
Proof.
  revert st. induction l as [|x l IH]; intros st; cbn [iter foldr].
  - destruct st as [h now ca ex sy br ac acc re qu], h. cbn. unfold mret, ST_ret, set_c_heap. cfields. cbn. by rewrite Z.sub_0_r.
  - unfold mbind, ST_bind, alloc, mfree. cfields. rewrite IH. destruct st. unfold set_c_heap. cfields. cbn.
    do 4 f_equal. lia.
Qed.

(** C26.  Whatever packets arrive, however browses are added and deleted, whenever
    the service task runs and whichever allocations and queue operations fail: no
    step reads through a dangling pointer or does not end, the cache, its expiry
    list and the queue of actions stay consistent, and the blocks in use are those
    of the cache, the browses and the waiting actions. *)
Theorem client_safe ops h now accepts : base = live h -> Forall op_ok ops ->
  yields (run cfg MDNS_MAX_INTERFACES addr ops (client_init h now accepts)) (fun x => client_ok base (snd x)).
Proof using addr_new. apply run_ok. Qed.

(** C27.  Shutting down after any such history gives back every block the client
    ever allocated and leaves nothing in the cache, the expiry list, the browses
    and the queue. *)
Theorem client_free_all ops h now accepts : base = live h -> Forall op_ok ops ->
  yields ((_ ← run cfg MDNS_MAX_INTERFACES addr ops; client_free) (client_init h now accepts)) (fun x =>
    live (c_heap (snd x)) = base /\ s_cache (snd x) = [] /\ s_expiry (snd x) = [] /\ s_browse (snd x) = []
    /\ c_actions (snd x) = [] /\ s_sync_pending (snd x) = false).
Proof using addr_new.
  intros Hbase Hops. eapply st_seq; [by apply run_ok|]. intros [] st [[X HX] _]. cbn [snd] in HX.
  pose proof (r_heap _ _ _ _ _ HX) as Hh. unfold owed in Hh.
  unfold client_free, mdns_priv_browse_free, mdns_priv_cache_clear, browse_item_free, cache_entry_free.
  unfold mbind, ST_bind, reads, writes.
  rewrite (iter_mfree (fun _ => 1%Z)). cfields. rewrite (iter_mfree (fun x => browse_blocks (snd x))). cfields.
  rewrite (iter_mfree (fun x => entry_blocks (snd x))). cfields. rewrite (iter_mfree (fun _ => 1%Z)). cfields.
  cbn [yields snd]. cfields. split_and!; try done. cbn [live]. fold (browses_blocks (s_browse st)) (cache_blocks (s_cache st)).
  assert (Hone : forall {A} (l : list A), foldr (fun _ n => 1 + n)%Z 0%Z l = Z.of_nat (length l)).
  { intros A l. induction l as [|x l IH]; cbn [foldr length]; [done|]. rewrite IH. lia. }
  rewrite !Hone. lia.
Qed.

End Proofs.
