(* ===== verification/CacheExamples.v ===== *)
(** Runs of the cache and of a browse on a concrete network: one neighbour, whose
    web service is found, updated and lost again. *)
From S2P Require Import Prelude Names Server Encode EncodeSafe Roundtrip NameExamples Heap Txt State Received Cache CacheTree CacheExpiry CacheRefine CacheOps CacheUpdate CacheTxt CacheAddr CacheSrv CacheReceive Browse BrowseNotify CacheExpire CacheTrim BrowseSync Client ClientProofs.
From Stdlib Require Import Sorting.

Definition wlan : netif := Some 1%positive.
Definition over_v4 : mdns_ip_protocol_t := MDNS_IP_PROTOCOL_V4.

Definition printer : cstr := str "printer".
Definition http : cstr := str "_http".
Definition tcp : cstr := str "_tcp".

Definition service_type : mdns_name_t := mk_name [] http tcp (str "local") 3 0 false.
Definition service_name : mdns_name_t := mk_name printer http tcp (str "local") 4 0 false.
Definition host_name : mdns_name_t := mk_name (str "host") [] [] (str "local") 2 0 false.

(** What the neighbour announces, with a lifetime in seconds. *)
Definition announcement (ttl : Z) : client_op :=
  OpPacket wlan over_v4
    [RxPtr service_type service_name ttl;
     RxSrv service_name host_name 0 0 80 ttl;
     RxTxt service_name (5%Z :: str "a=bcd") ttl;
     RxAddr host_name (IP4 16885952) ttl].

Definition browsing : list client_op := [OpNew (Some http) (Some tcp) None (Some 7%positive); OpTurn true].

Definition told (x : positive * mdns_result_t) : Z * Z * list esp_ip_addr_t * nat :=
  (rs_ttl (snd x), rs_port (snd x), rs_addr (snd x), length (rs_txt (snd x))).

Definition play (fails : list bool) (ops : list client_op) : outcome (unit * client) :=
  run default_config 2 next_addr ops (client_init (mk_heap fails 0) 0 []).

(** The browse is told of the service as soon as it is there, and of its end; then
    nothing is left. *)
Example service_comes_and_goes :
  match play [] (browsing ++ [announcement 120; OpTurn false; OpWait 200000000; OpTurn false;
                              OpDelete (Some http) (Some tcp) None; OpTurn true]) with
  | Ret (_, st) =>
      map told (c_results st) = [(120, 80, [IP4 16885952], 1%nat); (0, 0, [], 0%nat)]%Z
      /\ s_cache st = [] /\ s_expiry st = [] /\ s_browse st = [] /\ live (c_heap st) = 0%Z
  | _ => False
  end.
Proof. vm_compute. repeat split. Qed.

(** The same packet twice changes nothing and is not reported twice. *)
Example known_records_are_quiet :
  match play [] (browsing ++ [announcement 120; OpTurn false; announcement 120; OpTurn false]) with
  | Ret (_, st) => length (c_results st) = 1
  | _ => False
  end.
Proof. vm_compute. reflexivity. Qed.

(** A goodbye is an announcement with TTL 0. *)
Example goodbye_is_reported :
  match play [] (browsing ++ [announcement 120; OpTurn false; announcement 0; OpTurn false]) with
  | Ret (_, st) => map told (c_results st) = [(120, 80, [IP4 16885952], 1%nat); (0, 0, [], 0%nat)]%Z /\ s_cache st = []
  | _ => False
  end.
Proof. vm_compute. repeat split. Qed.

(** * The theorems at this network *)

(** The state after the announcement, before the service task runs. *)
Definition announced : client := Eval vm_compute in
  match play [] (browsing ++ [announcement 120]) with Ret (_, st) => st | _ => client_init (mk_heap [] 0) 0 [] end.

Definition announced_records : list pointed := map (fun x => (x, 120000000%Z)) (cache_records (s_cache announced)).

Lemma all_equal_sorted l : Forall (fun n => ex_expires_at_us n = 120000000%Z) l -> expiry_sorted l.
Proof.
  unfold expiry_sorted. induction 1 as [|n l Hn Hl IH]; constructor; [done|]. eapply Forall_impl; [exact Hl|].
  intros m Hm. cbv beta in Hm. unfold expires_le. lia.
Qed.

Lemma announced_represented : represents None None 3 announced_records announced.
Proof.
  split.
  - split; try (apply (bool_decide_eq_true_1 _); vm_compute; reflexivity).
    constructor; [|done]. split; [|apply (bool_decide_eq_true_1 _); vm_compute; reflexivity].
    constructor; [|done]. split; try done; [apply NoDup_nil_2|]. constructor; [|done].
    split_and!; [by eexists|done|cbn; lia].
  - constructor; [|done]. split; [intros _; by left|]. by constructor.
  - done.
  - apply (bool_decide_eq_true_1 _). vm_compute. reflexivity.
  - apply (bool_decide_eq_true_1 _). vm_compute. reflexivity.
  - apply (bool_decide_eq_true_1 _). vm_compute. reflexivity.
  - apply all_equal_sorted. by repeat constructor.
  - by repeat constructor.
  - reflexivity.
Qed.

Definition printers_ptr : pointers := of_service MDNS_CACHE_RECORD_PTR 3 2.

Lemma expiry_schedule_inserts_witness :
  expiry_schedule MDNS_CACHE_RECORD_PTR 3 (Some 2%positive) None None announced
  = Ret (tt, set_expiry announced
      (expiry_insert (reschedule 120000000 printers_ptr) (others printers_ptr (s_expiry announced))))
  /\ expiry_sorted (expiry_insert (reschedule 120000000 printers_ptr) (others printers_ptr (s_expiry announced))).
Proof.
  apply (expiry_schedule_inserts announced MDNS_CACHE_RECORD_PTR 3 (Some 2%positive) None None 120); [done| |done].
  split_and!; [by repeat constructor| | |left; apply all_equal_sorted; by repeat constructor];
    apply (bool_decide_eq_true_1 _); vm_compute; reflexivity.
Defined.

(** Another instance of the same service type. *)
Definition scanner : option cstr := Some (str "scanner").

Lemma scanner_named : named scanner (Some http) (Some tcp).
Proof. done. Qed.

Definition some_txt : list mdns_txt_linked_item_t := [mk_txt (Some (str "a")) None 0].

(** Another service, its items, an address, and the service on another host. *)
Definition some_records : list received_record :=
  [ReceivedPtr scanner (Some http) (Some tcp) None 60; ReceivedTxt (Some printer) (Some http) (Some tcp) some_txt 60;
   ReceivedAddr (Some (str "host")) (IP4 1) 60;
   ReceivedSrv (Some (str "other")) (Some printer) (Some http) (Some tcp) 0 0 8080 60].

Lemma cache_update_refines_witness : Forall (fun r =>
  yields (cache_update next_addr wlan over_v4 r announced)
    (refines announced (3 - handed_over r) announced_records
       (abstract_update 0 wlan over_v4 r (abstracted announced_records)))) some_records.
Proof.
  apply Forall_forall. intros r Hr. apply (cache_update_refines next_addr next_addr_new).
  - replace (3 - handed_over r + handed_over r)%Z with 3%Z by lia. exact announced_represented.
  - unfold some_records in Hr. repeat (apply elem_of_cons in Hr as [-> |Hr]; [cbn|]); [done| |done|done|by apply elem_of_nil in Hr].
    split; [done|]. constructor; [|done]. split_and!; [by eexists|done|done].
Defined.

Lemma remove_expired_refines_witness :
  yields (mdns_priv_cache_remove_expired_records 120000000 announced) (fun '(_, st') => exists X',
    represents None None 3 X' st' /\ abstracted X' ≡ₚ cache_purge 120000000 (abstracted announced_records)).
Proof. apply remove_expired_refines, announced_represented. Defined.

Definition printers_record : pointed :=
  (printers_ptr, (NamePtr (key_of_names wlan over_v4 (Some printer) (Some http) (Some tcp)), DataTtl 120), 120000000%Z).

Lemma expired_ptr_told_witness :
  yields (mdns_priv_cache_remove_expired_records 120000000 announced) (fun '(_, st') => exists rs,
    c_results st' = c_results announced ++ rs /\ said_goodbye 7 (name_of printers_record) rs).
Proof.
  apply (expired_ptr_told 3 announced_records announced 120000000 printers_record
           (2%positive, mk_browse BROWSE_RUNNING (Some 7%positive) (Some http) (Some tcp) None) 7);
    [exact announced_represented|done|right; left|done|left|done|split; [done|by split_and!]].
Defined.

Lemma trim_unsubscribed_limits_witness :
  yields (mdns_priv_cache_trim_unsubscribed_records 0 announced) (fun '(_, st') =>
    (exists l, st' = set_expiry announced l)
    /\ represents None None 3 (map (trim_time announced 300000000) announced_records) st').
Proof. apply (trim_unsubscribed_limits 3 announced_records announced 0), announced_represented. Defined.

Lemma process_sync_reports_witness :
  yields (mdns_priv_cache_process_sync announced) (fun '(_, st') =>
    c_results st' = c_results announced ++ pending announced /\ represents None None 3 announced_records st'
    /\ s_sync_pending st' = false
    /\ forall v s, find_service v (s_cache st') = Some s -> marked s = false).
Proof. apply process_sync_reports; [exact announced_represented|done|done]. Defined.

Lemma announcement_ok ttl : op_ok (announcement ttl).
Proof.
  repeat (constructor; [first [exact I|split; [apply bytes_okb_ok; reflexivity|cbn; lia]]|]). constructor.
Qed.

(** Allocations fail now and then. *)
Lemma client_safe_witness :
  yields (run default_config 2 next_addr (browsing ++ [announcement 120; OpTurn false])
            (client_init (mk_heap [false; true; false; false; true] 0) 0 [true; false]))
    (fun x => client_ok 0 (snd x)).
Proof.
  apply (client_safe default_config 2 next_addr next_addr_new 0); [done|].
  cbn [browsing app]. repeat (constructor; [first [exact (announcement_ok _)|exact I]|]). constructor.
Defined.

Lemma client_free_all_witness :
  yields ((_ ← run default_config 2 next_addr (browsing ++ [announcement 120; OpTurn false]); client_free)
            (client_init (mk_heap [false; true; false; false; true] 0) 0 [true; false]))
    (fun x => live (c_heap (snd x)) = 0%Z /\ s_cache (snd x) = [] /\ s_expiry (snd x) = [] /\ s_browse (snd x) = []
              /\ c_actions (snd x) = [] /\ s_sync_pending (snd x) = false).
Proof.
  apply (client_free_all default_config 2 next_addr next_addr_new 0); [done|].
  cbn [browsing app]. repeat (constructor; [first [exact (announcement_ok _)|exact I]|]). constructor.
Defined.
