(* ===== verification/Query.v ===== *)
(** Queries: components/mdns/mdns_querier.c, and what the parser of mdns_receive.c
    adds to the results of a running search.

    A search is allocated by the call that starts it, linked into [s_search_once]
    by the service task, and freed by the caller when it is over; actions in the
    queue refer to it by its address.  So the objects that are allocated and the
    list of running searches are kept apart, and following a pointer to an object
    that was freed is a bad access.  The semaphore [done_semaphore] is a flag of
    the search.  A result list belongs to the search until the caller gets it. *)
From S2P Require Import Prelude Names Server Encode Heap Txt Answers State Received Cache Browse.

(** * Data *)

Abbreviation qid := positive.  (** [mdns_search_once_t *] *)

Inductive mdns_search_once_state_t := SEARCH_OFF | SEARCH_INIT | SEARCH_RUNNING.

#[export] Instance search_state_eq_dec : EqDecision mdns_search_once_state_t.
Proof. solve_decision. Defined.

Record mdns_search_once_t := mk_search {
  sr_state : mdns_search_once_state_t;
  sr_started_at : Z;
  sr_sent_at : Z;
  sr_timeout : Z;
  sr_notifier : option positive;
  sr_done_semaphore : bool;
  sr_type : Z;
  sr_unicast : bool;
  sr_max_results : Z;
  sr_num_results : Z;
  sr_instance : option cstr;
  sr_service : option cstr;
  sr_proto : option cstr;
  sr_subtype : option cstr;
  sr_result : list mdns_result_t;
}.

Definition set_sr_state (s : mdns_search_once_t) x := mk_search x (sr_started_at s) (sr_sent_at s) (sr_timeout s)
  (sr_notifier s) (sr_done_semaphore s) (sr_type s) (sr_unicast s) (sr_max_results s) (sr_num_results s)
  (sr_instance s) (sr_service s) (sr_proto s) (sr_subtype s) (sr_result s).
Definition set_sent_at (s : mdns_search_once_t) x := mk_search (sr_state s) (sr_started_at s) x (sr_timeout s)
  (sr_notifier s) (sr_done_semaphore s) (sr_type s) (sr_unicast s) (sr_max_results s) (sr_num_results s)
  (sr_instance s) (sr_service s) (sr_proto s) (sr_subtype s) (sr_result s).
Definition set_notifier (s : mdns_search_once_t) x := mk_search (sr_state s) (sr_started_at s) (sr_sent_at s)
  (sr_timeout s) x (sr_done_semaphore s) (sr_type s) (sr_unicast s) (sr_max_results s) (sr_num_results s)
  (sr_instance s) (sr_service s) (sr_proto s) (sr_subtype s) (sr_result s).
Definition set_done (s : mdns_search_once_t) x := mk_search (sr_state s) (sr_started_at s) (sr_sent_at s)
  (sr_timeout s) (sr_notifier s) x (sr_type s) (sr_unicast s) (sr_max_results s) (sr_num_results s)
  (sr_instance s) (sr_service s) (sr_proto s) (sr_subtype s) (sr_result s).
Definition set_sr_results (s : mdns_search_once_t) n x := mk_search (sr_state s) (sr_started_at s) (sr_sent_at s)
  (sr_timeout s) (sr_notifier s) (sr_done_semaphore s) (sr_type s) (sr_unicast s) (sr_max_results s) n
  (sr_instance s) (sr_service s) (sr_proto s) (sr_subtype s) x.

Inductive search_action := ACTION_SEARCH_ADD | ACTION_SEARCH_SEND | ACTION_SEARCH_END.

#[export] Instance search_action_eq_dec : EqDecision search_action.
Proof. solve_decision. Defined.

(** The static variables of the file and its surroundings: the heap, the clock in
    milliseconds, the objects allocated, the actions waiting for the service task
    and whether its queue takes the next ones, the control blocks that are
    initialised; the calls of notifiers with the search as it was then, the
    packets sent, the result lists that are no longer a search's and the tasks
    that wait in [mdns_query_generic]. *)
Record querier := mk_querier {
  q_heap : heap;
  q_now : Z;
  q_searches : list (qid * mdns_search_once_t);
  s_search_once : list qid;
  q_actions : list (search_action * qid);
  q_accepts : list bool;
  q_inited : mdns_if_t -> mdns_ip_protocol_t -> bool;
  q_notified : list (positive * mdns_search_once_t);
  q_sent : list mdns_tx_packet_t;
  q_given : list (list mdns_result_t);
  q_waiting : list qid;
}.

Definition set_q_heap (q : querier) x := mk_querier x (q_now q) (q_searches q) (s_search_once q) (q_actions q)
  (q_accepts q) (q_inited q) (q_notified q) (q_sent q) (q_given q) (q_waiting q).
Definition set_q_now (q : querier) x := mk_querier (q_heap q) x (q_searches q) (s_search_once q) (q_actions q)
  (q_accepts q) (q_inited q) (q_notified q) (q_sent q) (q_given q) (q_waiting q).
Definition set_searches (q : querier) x := mk_querier (q_heap q) (q_now q) x (s_search_once q) (q_actions q)
  (q_accepts q) (q_inited q) (q_notified q) (q_sent q) (q_given q) (q_waiting q).
Definition set_search_once (q : querier) x := mk_querier (q_heap q) (q_now q) (q_searches q) x (q_actions q)
  (q_accepts q) (q_inited q) (q_notified q) (q_sent q) (q_given q) (q_waiting q).
Definition set_q_actions (q : querier) x := mk_querier (q_heap q) (q_now q) (q_searches q) (s_search_once q) x
  (q_accepts q) (q_inited q) (q_notified q) (q_sent q) (q_given q) (q_waiting q).
Definition set_q_accepts (q : querier) x := mk_querier (q_heap q) (q_now q) (q_searches q) (s_search_once q)
  (q_actions q) x (q_inited q) (q_notified q) (q_sent q) (q_given q) (q_waiting q).
Definition set_q_inited (q : querier) x := mk_querier (q_heap q) (q_now q) (q_searches q) (s_search_once q)
  (q_actions q) (q_accepts q) x (q_notified q) (q_sent q) (q_given q) (q_waiting q).
Definition set_q_notified (q : querier) x := mk_querier (q_heap q) (q_now q) (q_searches q) (s_search_once q)
  (q_actions q) (q_accepts q) (q_inited q) x (q_sent q) (q_given q) (q_waiting q).
Definition set_q_sent (q : querier) x := mk_querier (q_heap q) (q_now q) (q_searches q) (s_search_once q)
  (q_actions q) (q_accepts q) (q_inited q) (q_notified q) x (q_given q) (q_waiting q).
Definition set_q_given (q : querier) x := mk_querier (q_heap q) (q_now q) (q_searches q) (s_search_once q)
  (q_actions q) (q_accepts q) (q_inited q) (q_notified q) (q_sent q) x (q_waiting q).
Definition set_q_waiting (q : querier) x := mk_querier (q_heap q) (q_now q) (q_searches q) (s_search_once q)
  (q_actions q) (q_accepts q) (q_inited q) (q_notified q) (q_sent q) (q_given q) x.

#[export] Instance querier_heap : HasHeap querier.
Proof. refine {| heap_of := q_heap; with_heap := set_q_heap |}. done. Defined.

(** The effects of this file. *)
Abbreviation Q := (ST querier).

Definition get_search (x : qid) : Q mdns_search_once_t := asks (fun st => deref (assoc x (q_searches st))).

(** Assignments through a pointer. *)
Definition put_search (x : qid) (f : mdns_search_once_t -> mdns_search_once_t) : Q unit :=
  _ ← get_search x; writes (fun st => set_searches st (alter_at x f (q_searches st))).

(** A function that changes one search, with what it allocates. *)
Definition on_search {A} (x : qid) (f : mdns_search_once_t -> H (A * mdns_search_once_t)) : Q A :=
  s ← get_search x;
  r ← alloc (f s);
  _ ← put_search x (fun _ => snd r);
  mret (fst r).

(** * The list of searches *)

(** The loop that looks for a search reads the links in front of it. *)
Fixpoint search_in (objs : list (qid * mdns_search_once_t)) (search : qid) (l : list qid) : outcome bool :=
  match l with
  | [] => Ret false
  | s :: l => if decide (s = search) then Ret true else _ ← deref (assoc s objs); search_in objs search l
  end.

Definition search_is_in_list (search : qid) : Q bool :=
  asks (fun st => search_in (q_searches st) search (s_search_once st)).

(** [queueDetach]. *)
Fixpoint detach (objs : list (qid * mdns_search_once_t)) (search : qid) (l : list qid) : outcome (list qid) :=
  match l with
  | [] => Ret []
  | s :: l =>
      _ ← deref (assoc s objs);
      if decide (s = search) then Ret l else l ← detach objs search l; Ret (s :: l)
  end.

Definition queue_detach (search : qid) : Q unit :=
  l ← asks (fun st => detach (q_searches st) search (s_search_once st));
  writes (fun st => set_search_once st l).

Definition search_finish (search : qid) : Q unit :=
  b ← search_is_in_list search;
  if negb b then mret tt
  else
    _ ← put_search search (fun s => set_sr_state s SEARCH_OFF);
    _ ← queue_detach search;
    s ← get_search search;
    _ ← (match sr_notifier s with
         | Some notifier =>
             _ ← put_search search (fun s => set_notifier s None);
             s ← get_search search;
             writes (fun st => set_q_notified st (q_notified st ++ [(notifier, s)]))
         | None => mret tt
         end);
    put_search search (fun s => set_done s true).

Definition search_add (search : qid) : Q unit :=
  _ ← get_search search;
  writes (fun st => set_search_once st (search :: s_search_once st)).

(** The strings and the object with its semaphore. *)
Definition search_blocks (s : mdns_search_once_t) : Z :=
  (2 + opt_block (sr_instance s) + opt_block (sr_service s) + opt_block (sr_proto s))%Z.

Definition results_blocks (l : list mdns_result_t) : Z := foldr (fun r n => result_blocks r + n)%Z 0%Z l.

(** Frees the search except the results, which are the caller's from then on,
    whether it has asked for them or not. *)
Definition search_free (search : qid) : Q unit :=
  s ← get_search search;
  _ ← writes (fun st => set_searches st (remove_at search (q_searches st)));
  _ ← alloc (mfree (search_blocks s));
  match sr_result s with
  | [] => mret tt
  | l => writes (fun st => set_q_given st (l :: q_given st))
  end.

Definition mdns_priv_search_once_free (search : qid) : Q unit :=
  _ ← queue_detach search;
  s ← get_search search;
  _ ← writes (fun st => set_searches st (remove_at search (q_searches st)));
  alloc (mfree (search_blocks s + results_blocks (sr_result s))).

(** * Packets *)

Section Packets.
Context (cfg : config) (netif_of : mdns_if_t -> netif).
(** The field [host] of an answer is not initialised; this is what is there. *)
Context (junk : nat -> option host_ref).

(** The name in front of the first dot and the one behind it. *)
Fixpoint split_service (s : cstr) : option (cstr * cstr) :=
  match s with
  | [] => None
  | b :: s => if (b =? 46)%Z then Some ([], s)
              else match split_service s with Some (h, t) => Some (b :: h, t) | None => None end
  end.

(** A service name of two labels, when it is one. *)
Definition multi_label (service : option cstr) : option (cstr * cstr) :=
  match service with
  | None => None
  | Some s =>
      match split_service s with
      | Some (h, t) =>
          if (0 <? length h) && (length h <? MDNS_NAME_BUF_LEN cfg) && (length t <? MDNS_NAME_BUF_LEN cfg)
             && (0 <? length t)
          then Some (h, t) else None
      | None => None
      end
  end.

(** The question; [None] when memory runs out. *)
Definition search_question (search : mdns_search_once_t) : H (option mdns_out_question_t) :=
  ok ← malloc;
  if negb ok then mret None
  else
    match multi_label (sr_service search) with
    | None =>
        mret (Some (mk_out_question (sr_type search) (sr_unicast search) (sr_instance search) (sr_service search)
                      (sr_proto search) (Some MDNS_DEFAULT_DOMAIN) (sr_subtype search) false))
    | Some (h, t) =>
        host_part ← malloc;
        service_part ← malloc;
        let with_proto := negb (mdns_utils_str_null_or_empty (sr_proto search)) in
        proto_part ← (if with_proto then malloc else mret false);
        domain_part ← malloc;
        if negb host_part || negb service_part || negb domain_part || (with_proto && negb proto_part) then
          _ ← mfree (Z.b2z host_part + Z.b2z service_part + Z.b2z proto_part + Z.b2z domain_part);
          _ ← mfree 1;
          mret None
        else
          mret (Some (mk_out_question (sr_type search) (sr_unicast search) (Some h) (Some t)
                        (if with_proto then sr_proto search else None) (Some MDNS_DEFAULT_DOMAIN)
                        (sr_subtype search) true))
    end.

(** Whether a result is complete and belongs to the interface. *)
Definition known_result (esp_netif : netif) (ip_protocol : mdns_ip_protocol_t) (r : mdns_result_t) : bool :=
  bool_decide (rs_esp_netif r = esp_netif) && bool_decide (rs_ip_protocol r = ip_protocol)
  && bool_decide (is_Some (rs_instance_name r)) && bool_decide (is_Some (rs_hostname r))
  && match rs_addr r with [] => false | _ => true end.

(** The answers the search knows already. *)
Fixpoint known_answers (search : mdns_search_once_t) (p : mdns_tx_packet_t) (l : list mdns_result_t)
    : H (option mdns_tx_packet_t) :=
  match l with
  | [] => mret (Some p)
  | r :: l =>
      ok ← malloc;
      if negb ok then _ ← mdns_priv_free_tx_packet p; mret None
      else
        known_answers search
          (set_section p Answers (tx_answers p
             ++ [mk_out_answer MDNS_TYPE_PTR false false None (junk (length (tx_answers p))) (rs_instance_name r)
                   (sr_service search) (sr_proto search)])) l
  end.

Definition create_search_packet (search : mdns_search_once_t) (tcpip_if : mdns_if_t)
    (ip_protocol : mdns_ip_protocol_t) : H (option mdns_tx_packet_t) :=
  p ← mdns_priv_alloc_packet cfg tcpip_if ip_protocol;
  match p with
  | None => mret None
  | Some p =>
      q ← search_question search;
      match q with
      | None => _ ← mdns_priv_free_tx_packet p; mret None
      | Some q =>
          let p := set_questions p (tx_questions p ++ [q]) in
          if (sr_type search =? MDNS_TYPE_PTR)%Z
          then known_answers search p (filter (fun r => known_result (netif_of tcpip_if) ip_protocol r = true)
                                         (sr_result search))
          else mret (Some p)
      end
  end.

Definition mdns_priv_query_send (search : mdns_search_once_t) (tcpip_if : mdns_if_t)
    (ip_protocol : mdns_ip_protocol_t) : Q unit :=
  inited ← reads (fun st => q_inited st tcpip_if ip_protocol);
  if negb inited then mret tt
  else
    p ← alloc (create_search_packet search tcpip_if ip_protocol);
    match p with
    | None => mret tt
    | Some p =>
        _ ← writes (fun st => set_q_sent st (q_sent st ++ [p]));
        alloc (mdns_priv_free_tx_packet p)
    end.

Context (MDNS_MAX_INTERFACES : nat).

Definition search_send (search : qid) : Q unit :=
  found ← search_is_in_list search;
  if negb found then mret tt
  else
    iter (seq 0 MDNS_MAX_INTERFACES) (fun i =>
      iter [MDNS_IP_PROTOCOL_V4; MDNS_IP_PROTOCOL_V6] (fun j =>
        s ← get_search search; mdns_priv_query_send s i j)).

(** [mdns_priv_query_action] with [ACTION_RUN]. *)
Definition mdns_priv_query_action (a : search_action * qid) : Q unit :=
  match a with
  | (ACTION_SEARCH_ADD, s) => search_add s
  | (ACTION_SEARCH_SEND, s) => search_send s
  | (ACTION_SEARCH_END, s) => search_finish s
  end.

End Packets.

(** * Actions and the timer *)

Definition send_search_action (type : search_action) (search : qid) : Q bool :=
  ok ← alloc malloc;
  if negb ok then mret false
  else
    accepts ← reads q_accepts;
    let '(ok, rest) := next_bool accepts in
    _ ← writes (fun st => set_q_accepts st rest);
    if (ok : bool) then _ ← writes (fun st => set_q_actions st (q_actions st ++ [(type, search)])); mret true
    else _ ← alloc (mfree 1); mret false.

(** One iteration of the loop over the searches. *)
Definition start_stop_one (now : Z) (x : qid) : Q unit :=
  s ← get_search x;
  if bool_decide (sr_state s = SEARCH_OFF) then mret tt
  else if (u32 (sr_started_at s + sr_timeout s) <? now)%Z then
    _ ← put_search x (fun s => set_sr_state s SEARCH_OFF);
    ok ← send_search_action ACTION_SEARCH_END x;
    if (ok : bool) then mret tt else put_search x (fun s => set_sr_state s SEARCH_RUNNING)
  else if bool_decide (sr_state s = SEARCH_INIT) || (1000 <? u32 (now - sr_sent_at s))%Z then
    _ ← put_search x (fun s => set_sent_at (set_sr_state s SEARCH_RUNNING) now);
    ok ← send_search_action ACTION_SEARCH_SEND x;
    if (ok : bool) then mret tt else put_search x (fun s => set_sent_at s (u32 (sr_sent_at s - 1000)))
  else mret tt.

Definition mdns_priv_query_start_stop : Q unit :=
  l ← reads s_search_once;
  now ← reads q_now;
  iter l (start_stop_one now).

(** The searches that have all their results end. *)
Definition query_done_one (x : qid) : Q unit :=
  s ← get_search x;
  if negb (sr_max_results s =? 0)%Z && (sr_max_results s <=? sr_num_results s)%Z then search_finish x
  else mret tt.

Definition mdns_priv_query_done : Q unit :=
  l ← reads s_search_once;
  iter l query_done_one.

(** * Finding the search a record is for *)

Section Find.
Context (cfg : config).

(** One iteration; the strings are those the code passes to [strcasecmp]. *)
Definition search_matches (s : mdns_search_once_t) (name : mdns_name_t) (type : Z) (esp_netif : netif)
    (ip_protocol : mdns_ip_protocol_t) : outcome bool :=
  let wants t := (sr_type s =? t)%Z in
  if bool_decide (sr_state s = SEARCH_OFF) then Ret false
  else if (type =? MDNS_TYPE_A)%Z || (type =? MDNS_TYPE_AAAA)%Z then
    if wants MDNS_TYPE_ANY && bool_decide (is_Some (sr_service s))
       || negb (wants MDNS_TYPE_ANY) && negb (wants type) && negb (wants MDNS_TYPE_PTR) && negb (wants MDNS_TYPE_SRV)
    then Ret false
    else if negb (wants MDNS_TYPE_PTR) && negb (wants MDNS_TYPE_SRV) then
      i ← deref (sr_instance s); Ret (strcaseeq (host name) i)
    else
      Ret (existsb (fun r => bool_decide (rs_esp_netif r = esp_netif) && bool_decide (rs_ip_protocol r = ip_protocol)
                             && negb (mdns_utils_str_null_or_empty (rs_hostname r))
                             && match rs_hostname r with Some h => strcaseeq (host name) h | None => false end)
             (sr_result s))
  else if (type =? MDNS_TYPE_SRV)%Z || (type =? MDNS_TYPE_TXT)%Z then
    if wants MDNS_TYPE_ANY && negb (bool_decide (is_Some (sr_service s)))
       || negb (wants MDNS_TYPE_ANY) && negb (wants type) && negb (wants MDNS_TYPE_PTR)
    then Ret false
    else
      sv ← deref (sr_service s);
      if negb (strcaseeq (service name) sv) then Ret false
      else
        pr ← deref (sr_proto s);
        if negb (strcaseeq (proto name) pr) then Ret false
        else if negb (wants MDNS_TYPE_PTR) then
          Ret (match sr_instance s with Some i => strcaseeq (host name) i | None => false end)
        else Ret true
  else if (type =? MDNS_TYPE_PTR)%Z && wants MDNS_TYPE_PTR then
    match host name, sr_service s with
    | _ :: _, Some sv =>
        if bool_decide (is_Some (split_service sv)) then
          let compound := take (MDNS_NAME_BUF_LEN cfg * 2 - 1) (host name ++ 46%Z :: service name) in
          if strcaseeq compound sv then pr ← deref (sr_proto s); Ret (strcaseeq (proto name) pr) else Ret false
        else
          Ret (match sr_proto s with Some pr => strcaseeq (service name) sv && strcaseeq (proto name) pr | None => false end)
    | _, Some sv =>
        Ret (match sr_proto s with Some pr => strcaseeq (service name) sv && strcaseeq (proto name) pr | None => false end)
    | _, None => Ret false
    end
  else Ret false.

(** The first match in a part of the list, and what follows it. *)
Fixpoint query_find_from (objs : list (qid * mdns_search_once_t)) (l : list qid) (name : mdns_name_t) (type : Z)
    (esp_netif : netif) (ip_protocol : mdns_ip_protocol_t) : outcome (option (qid * list qid)) :=
  match l with
  | [] => Ret None
  | x :: l =>
      s ← deref (assoc x objs);
      b ← search_matches s name type esp_netif ip_protocol;
      if (b : bool) then Ret (Some (x, l)) else query_find_from objs l name type esp_netif ip_protocol
  end.

Definition mdns_priv_query_find_from (l : list qid) (name : mdns_name_t) (type : Z) (esp_netif : netif)
    (ip_protocol : mdns_ip_protocol_t) : Q (option (qid * list qid)) :=
  asks (fun st => query_find_from (q_searches st) l name type esp_netif ip_protocol).

Definition mdns_priv_query_find (name : mdns_name_t) (type : Z) (esp_netif : netif)
    (ip_protocol : mdns_ip_protocol_t) : Q (option (qid * list qid)) :=
  l ← reads s_search_once;
  mdns_priv_query_find_from l name type esp_netif ip_protocol.

End Find.

(** * Results *)

Definition result_here (esp_netif : netif) (ip_protocol : mdns_ip_protocol_t) (r : mdns_result_t) : bool :=
  bool_decide (rs_esp_netif r = esp_netif) && bool_decide (rs_ip_protocol r = ip_protocol).

(** A string of the result that is neither null nor empty, compared without case. *)
Definition same_string (s : cstr) (field : option cstr) : bool :=
  negb (mdns_utils_str_null_or_empty field) && match field with Some t => strcaseeq s t | None => false end.

Fixpoint find_index {A} (f : A -> bool) (l : list A) : option nat :=
  match l with
  | [] => None
  | x :: l => if f x then Some 0 else S <$> find_index f l
  end.

Definition alter_result (i : nat) (f : mdns_result_t -> mdns_result_t) (s : mdns_search_once_t)
    : mdns_search_once_t :=
  set_sr_results s (sr_num_results s) (alter f i (sr_result s)).

Definition mdns_priv_query_update_result_ttl (ttl : Z) (r : mdns_result_t) : mdns_result_t :=
  set_rs_ttl r (if (rs_ttl r <? ttl)%Z then rs_ttl r else ttl).

(** Whether the search takes another result. *)
Definition takes_result (s : mdns_search_once_t) : bool :=
  (sr_max_results s =? 0)%Z || (sr_num_results s <? sr_max_results s)%Z.

Definition add_result (r : mdns_result_t) (s : mdns_search_once_t) : mdns_search_once_t :=
  set_sr_results s (u8 (sr_num_results s + 1)) (r :: sr_result s).

Definition mdns_mem_strdup (s : cstr) : H (option cstr) :=
  ok ← malloc; mret (if (ok : bool) then Some s else None).

(** The blocks of the two arrays and the items. *)
Definition txt_blocks (txt : list mdns_txt_linked_item_t) : Z :=
  match txt with [] => 0 | l => 2 + items_blocks l end%Z.

Definition mdns_priv_query_result_add_txt (search : mdns_search_once_t) (txt : list mdns_txt_linked_item_t)
    (esp_netif : netif) (ip_protocol : mdns_ip_protocol_t) (ttl : Z) : H (unit * mdns_search_once_t) :=
  match find_index (result_here esp_netif ip_protocol) (sr_result search) with
  | Some i =>
      match rs_txt <$> sr_result search !! i with
      | Some [] =>
          mret (tt, alter_result i (fun r => mdns_priv_query_update_result_ttl ttl (set_rs_txt r txt)) search)
      | _ => _ ← mfree (txt_blocks txt); mret (tt, search)
      end
  | None =>
      if takes_result search then
        ok ← malloc;
        if negb ok then _ ← mfree (txt_blocks txt); mret (tt, search)
        else mret (tt, add_result (mk_result esp_netif ttl ip_protocol None None None None 0 txt [] None) search)
      else _ ← mfree (txt_blocks txt); mret (tt, search)
  end.

Definition mdns_priv_result_addr_create_ip : H bool := malloc.

Definition result_add_ip (r : mdns_result_t) (ip : esp_ip_addr_t) : H mdns_result_t :=
  if existsb (fun a => addr_equal a ip) (rs_addr r) then mret r
  else
    ok ← mdns_priv_result_addr_create_ip;
    mret (if (ok : bool) then set_rs_addr r (ip :: rs_addr r) else r).

(** The address goes to one of the results. *)
Definition add_ip_at (search : mdns_search_once_t) (i : nat) (ip : esp_ip_addr_t) (ttl : Z)
    : H (unit * mdns_search_once_t) :=
  match sr_result search !! i with
  | None => mret (tt, search)
  | Some r =>
      r ← result_add_ip r ip;
      mret (tt, alter_result i (fun _ => mdns_priv_query_update_result_ttl ttl r) search)
  end.

Definition is_v4 (ip : esp_ip_addr_t) : bool := match ip with IP4 _ => true | IP6 _ => false end.

Definition mdns_priv_query_result_add_ip (search : mdns_search_once_t) (hostname : cstr) (ip : esp_ip_addr_t)
    (esp_netif : netif) (ip_protocol : mdns_ip_protocol_t) (ttl : Z) : H (unit * mdns_search_once_t) :=
  if (sr_type search =? MDNS_TYPE_A)%Z && is_v4 ip || (sr_type search =? MDNS_TYPE_AAAA)%Z && negb (is_v4 ip)
     || (sr_type search =? MDNS_TYPE_ANY)%Z
  then
    match find_index (result_here esp_netif ip_protocol) (sr_result search) with
    | Some i => add_ip_at search i ip ttl
    | None =>
        if takes_result search then
          ok ← malloc;
          if negb ok then mret (tt, search)
          else
            ok ← mdns_priv_result_addr_create_ip;
            if negb ok then _ ← mfree 1; mret (tt, search)
            else
              h ← mdns_mem_strdup hostname;
              mret (tt, add_result (mk_result esp_netif ttl ip_protocol None None None h 0 [] [ip] None) search)
        else mret (tt, search)
    end
  else if (sr_type search =? MDNS_TYPE_PTR)%Z || (sr_type search =? MDNS_TYPE_SRV)%Z then
    match find_index (fun r => result_here esp_netif ip_protocol r && same_string hostname (rs_hostname r))
            (sr_result search) with
    | Some i => add_ip_at search i ip ttl
    | None => mret (tt, search)
    end
  else mret (tt, search).

Definition mdns_priv_query_result_add_srv (search : mdns_search_once_t) (hostname : cstr) (port : Z)
    (esp_netif : netif) (ip_protocol : mdns_ip_protocol_t) (ttl : Z) : H (unit * mdns_search_once_t) :=
  match find_index (fun r => result_here esp_netif ip_protocol r && same_string hostname (rs_hostname r))
          (sr_result search) with
  | Some i => mret (tt, alter_result i (mdns_priv_query_update_result_ttl ttl) search)
  | None =>
      if takes_result search then
        ok ← malloc;
        if negb ok then mret (tt, search)
        else
          h ← mdns_mem_strdup hostname;
          match h with
          | None => _ ← mfree 1; mret (tt, search)
          | Some h =>
              i ← (match sr_instance search with Some i => mdns_mem_strdup i | None => mret None end);
              sv ← hlift (deref (sr_service search));
              sv ← mdns_mem_strdup sv;
              pr ← hlift (deref (sr_proto search));
              pr ← mdns_mem_strdup pr;
              mret (tt, add_result (mk_result esp_netif ttl ip_protocol i sv pr (Some h) port [] [] None) search)
          end
      else mret (tt, search)
  end.

(** The result is a pointer to the result found or added: its place in the list. *)
Definition mdns_priv_query_result_add_ptr (search : mdns_search_once_t) (instance service_type proto : cstr)
    (esp_netif : netif) (ip_protocol : mdns_ip_protocol_t) (ttl : Z) : H (option nat * mdns_search_once_t) :=
  match find_index (fun r => result_here esp_netif ip_protocol r && same_string instance (rs_instance_name r))
          (sr_result search) with
  | Some i => mret (Some i, alter_result i (mdns_priv_query_update_result_ttl ttl) search)
  | None =>
      if takes_result search then
        ok ← malloc;
        if negb ok then mret (None, search)
        else
          i ← mdns_mem_strdup instance;
          sv ← mdns_mem_strdup service_type;
          pr ← mdns_mem_strdup proto;
          match i with
          | None => _ ← mfree 1; mret (None, search)
          | Some i =>
              mret (Some 0, add_result (mk_result esp_netif ttl ip_protocol (Some i) sv pr None 0 [] [] None) search)
          end
      else mret (None, search)
  end.

(** * Records of a response *)

Section Receive.
Context (cfg : config).

(** The result of a PTR search that a SRV or TXT record belongs to, compared with
    case, or a new one. *)
Definition ptr_result (search : mdns_search_once_t) (name : mdns_name_t) (esp_netif : netif)
    (ip_protocol : mdns_ip_protocol_t) (ttl : Z) : H (option nat * mdns_search_once_t) :=
  match find_index (fun r => result_here esp_netif ip_protocol r && bool_decide (rs_instance_name r = Some (host name)))
          (sr_result search) with
  | Some i => mret (Some i, search)
  | None => mdns_priv_query_result_add_ptr search (host name) (service name) (proto name) esp_netif ip_protocol ttl
  end.

Definition rx_search_ptr (search : mdns_search_once_t) (target : mdns_name_t) (esp_netif : netif)
    (ip_protocol : mdns_ip_protocol_t) (ttl : Z) : H (unit * mdns_search_once_t) :=
  r ← mdns_priv_query_result_add_ptr search (host target) (service target) (proto target) esp_netif ip_protocol ttl;
  mret (tt, snd r).

Definition rx_search_srv (search : mdns_search_once_t) (owner target : mdns_name_t) (port : Z) (esp_netif : netif)
    (ip_protocol : mdns_ip_protocol_t) (ttl : Z) : H (unit * mdns_search_once_t) :=
  if (sr_type search =? MDNS_TYPE_PTR)%Z then
    r ← ptr_result search owner esp_netif ip_protocol ttl;
    let '(i, search) := r in
    match i with
    | None => mret (tt, search)
    | Some i =>
        match rs_hostname <$> sr_result search !! i with
        | Some None =>
            h ← mdns_mem_strdup (host target);
            mret (tt, alter_result i (fun r => set_rs_hostname (set_rs_port r port) h) search)
        | _ => mret (tt, search)
        end
    end
  else mdns_priv_query_result_add_srv search (host target) port esp_netif ip_protocol ttl.

Definition rx_search_txt (search : mdns_search_once_t) (owner : mdns_name_t) (data : list Z) (esp_netif : netif)
    (ip_protocol : mdns_ip_protocol_t) (ttl : Z) : H (unit * mdns_search_once_t) :=
  if (sr_type search =? MDNS_TYPE_PTR)%Z then
    r ← ptr_result search owner esp_netif ip_protocol ttl;
    let '(i, search) := r in
    match i with
    | None => mret (tt, search)
    | Some i =>
        match rs_txt <$> sr_result search !! i with
        | Some [] =>
            txt ← result_txt_create data (length data);
            match txt with
            | [] => mret (tt, search)
            | _ => mret (tt, alter_result i (fun r => set_rs_txt r txt) search)
            end
        | _ => mret (tt, search)
        end
    end
  else
    txt ← result_txt_create data (length data);
    match txt with
    | [] => mret (tt, search)
    | _ => mdns_priv_query_result_add_txt search txt esp_netif ip_protocol ttl
    end.

(** An address goes to every search that wants it. *)
Fixpoint rx_search_addr (fuel : nat) (found : option (qid * list qid)) (owner : mdns_name_t) (ip : esp_ip_addr_t)
    (type : Z) (esp_netif : netif) (ip_protocol : mdns_ip_protocol_t) (ttl : Z) : Q unit :=
  match found, fuel with
  | None, _ => mret tt
  | Some _, O => asks (fun _ => OutOfFuel)
  | Some (x, next), S fuel =>
      _ ← on_search x (fun s => mdns_priv_query_result_add_ip s (host owner) ip esp_netif ip_protocol ttl);
      found ← mdns_priv_query_find_from cfg next owner type esp_netif ip_protocol;
      rx_search_addr fuel found owner ip type esp_netif ip_protocol ttl
  end.

Definition rx_search_record (esp_netif : netif) (ip_protocol : mdns_ip_protocol_t) (r : rx_record) : Q unit :=
  found ← mdns_priv_query_find cfg (rx_owner r) (rx_type r) esp_netif ip_protocol;
  match r, found with
  | _, None => mret tt
  | RxPtr owner target ttl, Some (x, _) =>
      on_search x (fun s => rx_search_ptr s target esp_netif ip_protocol ttl)
  | RxSrv owner target priority weight port ttl, Some (x, _) =>
      on_search x (fun s => rx_search_srv s owner target port esp_netif ip_protocol ttl)
  | RxTxt owner data ttl, Some (x, _) =>
      on_search x (fun s => rx_search_txt s owner data esp_netif ip_protocol ttl)
  | RxAddr owner ip ttl, Some (x, next) =>
      rx_search_addr (S (length next)) found owner ip (rx_type r) esp_netif ip_protocol ttl
  end.

(** A packet: its records in order, then the searches that are complete. *)
Definition rx_search_packet (esp_netif : netif) (ip_protocol : mdns_ip_protocol_t) (authoritative : bool)
    (l : list rx_record) : Q unit :=
  _ ← iter l (rx_search_record esp_netif ip_protocol);
  if authoritative then mdns_priv_query_done else mret tt.

End Receive.

(** * The interface *)

Section Interface.
Context (cfg : config) (addr : list positive -> positive).

(** [search_init] with a copy of each name; [None] when memory runs out. *)
Definition search_init (name service proto : option cstr) (type : Z) (unicast : bool) (timeout max_results : Z)
    (notifier : option positive) (now : Z) : H (option mdns_search_once_t) :=
  ok ← malloc;
  if negb ok then mret None
  else
    semaphore ← malloc;
    if negb semaphore then _ ← mfree 1; mret None
    else
      let search i s p := mk_search SEARCH_INIT now 0 timeout notifier false type unicast (u8 max_results) 0 i s p None [] in
      i ← dup_name cfg name;
      match i with
      | None => _ ← mfree (search_blocks (search None None None)); mret None
      | Some i =>
          s ← dup_name cfg service;
          match s with
          | None => _ ← mfree (search_blocks (search i None None)); mret None
          | Some s =>
              p ← dup_name cfg proto;
              match p with
              | None => _ ← mfree (search_blocks (search i s None)); mret None
              | Some p => mret (Some (search i s p))
              end
          end
      end.

(** The part [mdns_query_async_new] and [mdns_query_generic] share: the search is
    made and given to the service task. *)
Definition query_start (name service proto : option cstr) (type : Z) (unicast : bool) (timeout max_results : Z)
    (notifier : option positive) : Q (option qid) :=
  now ← reads q_now;
  search ← alloc (search_init name service proto type unicast timeout max_results notifier now);
  match search with
  | None => mret None
  | Some search =>
      x ← reads (fun st => addr (map fst (q_searches st)));
      _ ← writes (fun st => set_searches st ((x, search) :: q_searches st));
      ok ← send_search_action ACTION_SEARCH_ADD x;
      if negb ok then _ ← search_free x; mret None
      else mret (Some x)
  end.

(** The arguments the functions refuse. *)
Definition query_refused (service proto : option cstr) (timeout : Z) : bool :=
  (timeout =? 0)%Z
  || negb (Bool.eqb (mdns_utils_str_null_or_empty service) (mdns_utils_str_null_or_empty proto)).

Definition mdns_query_async_new (is_server_init : bool) (name service proto : option cstr) (type timeout max_results : Z)
    (notifier : option positive) : Q (option qid) :=
  if negb is_server_init || query_refused service proto timeout then mret None
  else query_start name service proto type (negb (type =? MDNS_TYPE_PTR)%Z) timeout max_results notifier.

(** [ESP_ERR_INVALID_STATE] while the search is running. *)
Definition mdns_query_async_delete (search : qid) : Q bool :=
  s ← get_search search;
  if negb (bool_decide (sr_state s = SEARCH_OFF)) then mret false
  else
    _ ← queue_detach search;
    _ ← put_search search (fun s => set_notifier s None);
    _ ← search_free search;
    mret true.

(** When the semaphore was given: the results and their number.  The list is the
    caller's now; the pointer that stays in the search is not followed any more,
    and the model takes the list out of the search. *)
Definition mdns_query_async_get_results (search : qid) : Q (option (list mdns_result_t * Z)) :=
  s ← get_search search;
  if negb (sr_done_semaphore s) then mret None
  else
    _ ← put_search search (fun s => set_sr_results (set_done s false) (sr_num_results s) []);
    _ ← writes (fun st => set_q_given st (match sr_result s with [] => q_given st | l => l :: q_given st end));
    mret (Some (sr_result s, sr_num_results s)).

(** A list of results that was handed out. *)
Definition mdns_query_results_free (i : nat) : Q unit :=
  l ← reads (fun st => q_given st !! i);
  match l with
  | None => mret tt
  | Some l =>
      _ ← alloc (mfree (results_blocks l));
      writes (fun st => set_q_given st (delete i (q_given st)))
  end.

Inductive query_error := QUERY_INVALID_STATE | QUERY_INVALID_ARG | QUERY_NO_MEM.

(** [mdns_query_generic] up to where it waits for the semaphore. *)
Definition mdns_query_generic (is_server_init : bool) (name service proto : option cstr) (type : Z) (unicast : bool)
    (timeout max_results : Z) : Q (query_error + qid) :=
  if negb is_server_init then mret (inl QUERY_INVALID_STATE)
  else if query_refused service proto timeout then mret (inl QUERY_INVALID_ARG)
  else
    x ← query_start name service proto type unicast timeout max_results None;
    match x with
    | None => mret (inl QUERY_NO_MEM)
    | Some x => _ ← writes (fun st => set_q_waiting st (x :: q_waiting st)); mret (inr x)
    end.

(** The rest of it, once the semaphore was given. *)
Definition query_generic_return (search : qid) : Q (option (list mdns_result_t)) :=
  s ← get_search search;
  if negb (sr_done_semaphore s) then mret None
  else
    _ ← put_search search (fun s => set_done s false);
    _ ← writes (fun st => set_q_waiting st (filter (fun x => x <> search) (q_waiting st)));
    _ ← search_free search;
    mret (Some (sr_result s)).

Definition mdns_query (is_server_init : bool) (name service proto : option cstr) (type timeout max_results : Z)
    : Q (query_error + qid) :=
  mdns_query_generic is_server_init name service proto type (negb (type =? MDNS_TYPE_PTR)%Z) timeout max_results.

Definition mdns_query_ptr (is_server_init : bool) (service proto : option cstr) (timeout max_results : Z)
    : Q (query_error + qid) :=
  if mdns_utils_str_null_or_empty service || mdns_utils_str_null_or_empty proto then mret (inl QUERY_INVALID_ARG)
  else mdns_query is_server_init None service proto MDNS_TYPE_PTR timeout max_results.

Definition mdns_query_srv (is_server_init : bool) (instance service proto : option cstr) (timeout : Z)
    : Q (query_error + qid) :=
  if mdns_utils_str_null_or_empty instance || mdns_utils_str_null_or_empty service
     || mdns_utils_str_null_or_empty proto
  then mret (inl QUERY_INVALID_ARG)
  else mdns_query is_server_init instance service proto MDNS_TYPE_SRV timeout 1.

Definition mdns_query_txt (is_server_init : bool) (instance service proto : option cstr) (timeout : Z)
    : Q (query_error + qid) :=
  if mdns_utils_str_null_or_empty instance || mdns_utils_str_null_or_empty service
     || mdns_utils_str_null_or_empty proto
  then mret (inl QUERY_INVALID_ARG)
  else mdns_query is_server_init instance service proto MDNS_TYPE_TXT timeout 1.

Definition mdns_query_a (is_server_init : bool) (name : option cstr) (timeout : Z) : Q (query_error + qid) :=
  if mdns_utils_str_null_or_empty name then mret (inl QUERY_INVALID_ARG)
  else mdns_query is_server_init name None None MDNS_TYPE_A timeout 1.

Definition mdns_query_aaaa (is_server_init : bool) (name : option cstr) (timeout : Z) : Q (query_error + qid) :=
  if mdns_utils_str_null_or_empty name then mret (inl QUERY_INVALID_ARG)
  else mdns_query is_server_init name None None MDNS_TYPE_AAAA timeout 1.

(** The loops of [mdns_query_a] and [mdns_query_aaaa] over the addresses. *)
Definition first_address (v4 : bool) (l : list mdns_result_t) : option esp_ip_addr_t :=
  match l with
  | [] => None
  | r :: _ => List.find (fun a => Bool.eqb (is_v4 a) v4) (rs_addr r)
  end.

(** The rest of both, once the query returns: the address, and the results are
    freed. *)
Definition query_address_return (v4 : bool) (search : qid) : Q (option (option esp_ip_addr_t)) :=
  r ← query_generic_return search;
  match r with
  | None => mret None
  | Some [] => mret (Some None)
  | Some l => _ ← mdns_query_results_free 0; mret (Some (first_address v4 l))
  end.

End Interface.

(** * Shutting down *)

(** [mdns_priv_query_action] with [ACTION_CLEANUP]. *)
Definition query_action_cleanup (a : search_action * qid) : Q unit :=
  if bool_decide (fst a = ACTION_SEARCH_ADD) then search_free (snd a)
  else
    in_list ← search_is_in_list (snd a);
    if (in_list : bool) then search_free (snd a) else mret tt.

Fixpoint query_free_loop (l : list qid) : Q unit :=
  match l with
  | [] => mret tt
  | x :: l =>
      s ← get_search x;
      _ ← writes (fun st => set_searches (set_search_once st l) (remove_at x (q_searches st)));
      _ ← alloc (mfree (search_blocks s + results_blocks (sr_result s)));
      query_free_loop l
  end.

Definition mdns_priv_query_free : Q unit :=
  l ← reads s_search_once;
  query_free_loop l.

(** The part of [mdns_free] that concerns searches. *)
Definition querier_free : Q unit :=
  l ← reads q_actions;
  _ ← iter l (fun a => _ ← query_action_cleanup a; alloc (mfree 1));
  _ ← writes (fun st => set_q_actions st []);
  mdns_priv_query_free.
