(* ===== verification/QueryProofs.v ===== *)
(** Searches: what the functions that collect results do to one search. *)
From S2P Require Import Prelude Names Server Encode Heap Txt Answers State Received Cache CacheTree Browse Query.

(** * One search *)

Lemma result_blocks_eq r : result_blocks r
  = (1 + opt_block (rs_hostname r) + opt_block (rs_instance_name r) + opt_block (rs_service_type r)
     + opt_block (rs_proto r) + opt_block (rs_subtype r) + txt_blocks (rs_txt r) + Z.of_nat (length (rs_addr r)))%Z.
Proof. unfold result_blocks, txt_blocks. by destruct (rs_txt r). Qed.

(** The blocks of a result and of one that was changed. *)
Ltac count_blocks := rewrite ?result_blocks_eq; cbn [mdns_priv_query_update_result_ttl set_rs_ttl set_rs_addr set_rs_txt
  set_rs_hostname set_rs_port set_rs_instance rs_addr rs_hostname rs_instance_name rs_service_type rs_proto rs_subtype
  rs_txt opt_block length txt_blocks];
  repeat match goal with E : rs_txt _ = _ |- _ => rewrite E; clear E | E : rs_hostname _ = _ |- _ => rewrite E; clear E end;
  cbn [txt_blocks opt_block]; try lia.

(** Only the results differ. *)
Definition same_search (s s' : mdns_search_once_t) : Prop := s' = set_sr_results s (sr_num_results s') (sr_result s').

Lemma same_search_refl s : same_search s s.
Proof. by destruct s. Qed.

Lemma same_search_trans s1 s2 s3 : same_search s1 s2 -> same_search s2 s3 -> same_search s1 s3.
Proof. unfold same_search. intros -> ->. done. Qed.

Lemma same_search_set s n l : same_search s (set_sr_results s n l).
Proof. done. Qed.

(** The counter counts, at its width, and the limit is kept. *)
Definition counted (s : mdns_search_once_t) : Prop :=
  sr_num_results s = u8 (Z.of_nat (length (sr_result s))) /\ (0 <= sr_max_results s < 256)%Z
  /\ (sr_max_results s = 0%Z \/ (Z.of_nat (length (sr_result s)) <= sr_max_results s)%Z).

Section Steps.
Context (nf : bool).

(** A function on a search leaves the blocks of its results; it may leak more,
    but not when there is memory. *)
Definition collects (s s' : mdns_search_once_t) (n : Z) : Prop := exists leak,
  (0 <= leak)%Z /\ (nf = true -> leak = 0%Z)
  /\ n = (results_blocks (sr_result s') - results_blocks (sr_result s) + leak)%Z
  /\ same_search s s' /\ (counted s -> counted s').

Lemma collects_refl s n : n = 0%Z -> collects s s n.
Proof. intros ->. exists 0%Z. split_and!; try done; [lia|apply same_search_refl]. Qed.

Lemma collects_trans s1 s2 s3 n m : collects s1 s2 n -> collects s2 s3 m -> collects s1 s3 (n + m).
Proof.
  intros (k1 & H1 & N1 & -> & S1 & C1) (k2 & H2 & N2 & -> & S2 & C2). exists (k1 + k2)%Z. split_and!; try lia.
  - intros Hn. rewrite N1, N2 by done. done.
  - by eapply same_search_trans.
  - auto.
Qed.

Lemma results_blocks_alter i f l r : l !! i = Some r ->
  results_blocks (alter f i l) = (results_blocks l + result_blocks (f r) - result_blocks r)%Z.
Proof.
  revert i. induction l as [|x l IH]; intros [|i] Hi; try done.
  - injection Hi as ->. cbn. lia.
  - change (result_blocks x + results_blocks (alter f i l) = result_blocks x + results_blocks l
            + result_blocks (f r) - result_blocks r)%Z. rewrite (IH i) by done. lia.
Qed.

Lemma counted_alter i f s : counted s -> counted (alter_result i f s).
Proof. unfold counted, alter_result. cbn. by rewrite length_alter. Qed.

(** A result changes. *)
Lemma collects_alter s i f r n : sr_result s !! i = Some r -> n = (result_blocks (f r) - result_blocks r)%Z ->
  collects s (alter_result i f s) n.
Proof.
  intros Hi ->. exists 0%Z. unfold alter_result at 1. cbn [sr_result set_sr_results].
  rewrite (results_blocks_alter i f _ r Hi). split_and!; try done; try lia. apply counted_alter.
Qed.

(** A result is added. *)
Lemma collects_add s r n : takes_result s = true -> n = result_blocks r -> collects s (add_result r s) n.
Proof.
  intros Ht ->. exists 0%Z. unfold add_result at 1. cbn [sr_result set_sr_results results_blocks foldr].
  fold (results_blocks (sr_result s)). split_and!; try done; try lia.
  intros (Hn & Hm & Hl). unfold counted, add_result. cbn [sr_result set_sr_results sr_num_results sr_max_results length].
  unfold takes_result in Ht. rewrite orb_true_iff, Z.eqb_eq, Z.ltb_lt in Ht. unfold u8 in *. split_and!; try lia.
  - rewrite Hn, Zplus_mod_idemp_l. f_equal. lia.
  - destruct Hl as [Hl|Hl]; [by left|]. destruct Ht as [Ht|Ht]; [by left|right].
    rewrite Z.mod_small in Hn by lia. lia.
Qed.

(** Memory is lost when there was too little of it. *)
Lemma collects_leak s n : (0 <= n)%Z -> (nf = true -> n = 0%Z) -> collects s s n.
Proof. intros Hn Hf. exists n. split_and!; try done; [lia|apply same_search_refl]. Qed.

Lemma hn_strdup s : hspecn nf (mdns_mem_strdup s)
  (fun r n => n = opt_block r /\ (nf = true -> r = Some s) /\ (r = None \/ r = Some s)).
Proof.
  unfold mdns_mem_strdup. eapply hn_seq; [apply hn_malloc|]. intros [] n [-> Hn]; apply hn_done; cbn; split_and!; try done; eauto.
  intros Ht. by specialize (Hn Ht).
Qed.

Lemma find_index_Some {A} (f : A -> bool) l i : find_index f l = Some i -> exists x, l !! i = Some x /\ f x = true.
Proof.
  revert i. induction l as [|x l IH]; intros i; cbn [find_index]; [done|]. destruct (f x) eqn:Ef.
  - intros [= <-]. by exists x.
  - destruct (find_index f l) as [j|]; [|done]. intros [= <-]. by apply IH.
Qed.

Lemma find_index_None {A} (f : A -> bool) l : find_index f l = None -> Forall (fun x => f x = false) l.
Proof.
  induction l as [|x l IH]; cbn [find_index]; [done|]. destruct (f x) eqn:Ef; [done|].
  destruct (find_index f l); [done|]. intros _. constructor; auto.
Qed.

(** Adding to the results never leaks but where [collects_leak] is used. *)
Lemma add_txt_collects s txt n p ttl : txt <> [] ->
  hspecn nf (mdns_priv_query_result_add_txt s txt n p ttl) (fun r k => collects s (snd r) (txt_blocks txt + k)).
Proof.
  intros Hne. unfold mdns_priv_query_result_add_txt.
  assert (Hfree : hspecn nf (_ ← (mfree (txt_blocks txt) : ST heap unit); mret (tt, s))
            (fun r k => collects s (snd r) (txt_blocks txt + k))).
  { eapply hn_seq; [apply hn_mfree|]. intros [] k ->. apply hn_done, collects_refl. lia. }
  destruct (find_index _ _) as [i|] eqn:Ei.
  - apply find_index_Some in Ei as (r & Hi & _). rewrite Hi. cbn. destruct (rs_txt r) as [|t l] eqn:Et; [|exact Hfree].
    apply hn_done. eapply collects_alter; [exact Hi|]. count_blocks.
  - destruct (takes_result s) eqn:Et; [|exact Hfree]. eapply hn_seq; [apply hn_malloc|].
    intros [] k [-> Hk]; cbn [negb].
    + apply hn_done. apply collects_add; [done|]. count_blocks.
    + eapply hn_seq; [apply hn_mfree|]. intros [] k' ->. apply hn_done, collects_refl. lia.
Qed.

Lemma add_ip_at_collects s i ip ttl : hspecn nf (add_ip_at s i ip ttl) (fun r k => collects s (snd r) k).
Proof.
  unfold add_ip_at, result_add_ip, mdns_priv_result_addr_create_ip. destruct (sr_result s !! i) as [r|] eqn:Ei.
  2:{ apply hn_done. by apply collects_refl. }
  eapply hn_seq with (P := fun r' k => k = (result_blocks r' - result_blocks r)%Z).
  - case_on_goal; [apply hn_done; lia|]. eapply hn_seq; [apply hn_malloc|]. intros [] k [-> _]; apply hn_done.
    + count_blocks.
    + lia.
  - intros r' k ->. apply hn_done. eapply collects_alter; [exact Ei|]. count_blocks.
Qed.

Lemma add_ip_collects s h ip n p ttl :
  hspecn nf (mdns_priv_query_result_add_ip s h ip n p ttl) (fun r k => collects s (snd r) k).
Proof.
  unfold mdns_priv_query_result_add_ip, mdns_priv_result_addr_create_ip.
  assert (Hret : hspecn nf (mret (tt, s) : ST heap _) (fun r k => collects s (snd r) k)) by (by apply hn_done, collects_refl).
  case_on_goal.
  - destruct (find_index _ _) as [i|]; [apply add_ip_at_collects|]. destruct (takes_result s) eqn:Et; [|exact Hret].
    eapply hn_seq; [apply hn_malloc|]. intros [] k [-> Hk]; cbn [negb]; [|by apply hn_done, collects_refl].
    eapply hn_seq; [apply hn_malloc|]. intros [] k [-> Hk']; cbn [negb].
    + eapply hn_seq; [apply hn_strdup|]. intros hn k (-> & _). apply hn_done, collects_add; [done|].
      count_blocks.
    + eapply hn_seq; [apply hn_mfree|]. intros [] k' ->. apply hn_done, collects_refl. lia.
  - case_on_goal; [|exact Hret]. case_on_goal; [apply add_ip_at_collects|exact Hret].
Qed.

Lemma add_srv_collects s h port n p ttl : is_Some (sr_service s) -> is_Some (sr_proto s) ->
  hspecn nf (mdns_priv_query_result_add_srv s h port n p ttl) (fun r k => collects s (snd r) k).
Proof.
  intros [sv Hsv] [pr Hpr]. unfold mdns_priv_query_result_add_srv. destruct (find_index _ _) as [i|] eqn:Ei.
  - apply find_index_Some in Ei as (r & Hi & _). apply hn_done. eapply collects_alter; [exact Hi|].
    count_blocks.
  - destruct (takes_result s) eqn:Et; [|by apply hn_done, collects_refl].
    eapply hn_seq; [apply hn_malloc|]. intros [] k [-> Hk]; cbn [negb]; [|by apply hn_done, collects_refl].
    eapply hn_seq; [apply hn_strdup|]. intros [hn|] k (-> & _).
    + eapply hn_seq with (P := fun i k => k = opt_block i).
      { destruct (sr_instance s); [|by apply hn_done]. eapply hn_mono; [apply hn_strdup|]. by intros i k (-> & _). }
      intros i k ->. rewrite Hsv, Hpr. apply (hn_seq (hlift (Ret sv)) _ (fun a k => a = sv /\ k = 0%Z)).
      { by apply (hn_done sv). }
      intros ? k [-> ->]. eapply hn_seq; [apply hn_strdup|]. intros o k (-> & _).
      apply (hn_seq (hlift (Ret pr)) _ (fun a k => a = pr /\ k = 0%Z)).
      { by apply (hn_done pr). }
      intros ? k [-> ->]. eapply hn_seq; [apply hn_strdup|]. intros o' k (-> & _).
      apply hn_done, collects_add; [done|]. count_blocks.
    + eapply hn_seq; [apply hn_mfree|]. intros [] k ->. apply hn_done, collects_refl. cbn. lia.
Qed.

(** A string that could be copied is lost when the instance name could not. *)
Lemma add_ptr_collects s i sv pr n p ttl :
  hspecn nf (mdns_priv_query_result_add_ptr s i sv pr n p ttl)
    (fun r k => collects s (snd r) k /\ forall j, fst r = Some j -> is_Some (sr_result (snd r) !! j)).
Proof.
  unfold mdns_priv_query_result_add_ptr. destruct (find_index _ _) as [j|] eqn:Ei.
  - apply find_index_Some in Ei as (r & Hi & _). apply hn_done. split.
    + eapply collects_alter; [exact Hi|]. count_blocks.
    + intros ? [= <-]. cbn. rewrite list_lookup_alter_eq, Hi. by eexists.
  - destruct (takes_result s) eqn:Et; [|by apply hn_done; split; [apply collects_refl|]].
    eapply hn_seq; [apply hn_malloc|]. intros [] k [-> Hk]; cbn [negb]; [|by apply hn_done; split; [apply collects_refl|]].
    eapply hn_seq; [apply hn_strdup|]. intros o k (-> & Ho & _).
    eapply hn_seq; [apply hn_strdup|]. intros o1 k (-> & _).
    eapply hn_seq; [apply hn_strdup|]. intros o2 k (-> & _). destruct o as [i'|].
    + apply hn_done. split; [|intros ? [= <-]; by eexists]. apply collects_add; [done|].
      count_blocks.
    + eapply hn_seq; [apply hn_mfree|]. intros [] k ->. apply hn_done. split; [|done].
      apply collects_leak; [cbn; destruct o1, o2; cbn; lia|]. intros Hn. by specialize (Ho Hn).
Qed.

Lemma ptr_result_collects s name n p ttl :
  hspecn nf (ptr_result s name n p ttl)
    (fun r k => collects s (snd r) k /\ forall j, fst r = Some j -> is_Some (sr_result (snd r) !! j)).
Proof.
  unfold ptr_result. destruct (find_index _ _) as [i|] eqn:Ei; [|apply add_ptr_collects].
  apply find_index_Some in Ei as (r & Hi & _). apply hn_done. split; [by apply collects_refl|].
  intros ? [= <-]. cbn. rewrite Hi. by eexists.
Qed.

(** * Records *)

Lemma rx_ptr_collects s target n p ttl :
  hspecn nf (rx_search_ptr s target n p ttl) (fun r k => collects s (snd r) k).
Proof.
  unfold rx_search_ptr. eapply hn_seq; [apply add_ptr_collects|]. intros r k [Hc _]. apply hn_done. cbn. by rewrite Z.add_0_r.
Qed.

Lemma rx_srv_collects s owner target port n p ttl : is_Some (sr_service s) -> is_Some (sr_proto s) ->
  hspecn nf (rx_search_srv s owner target port n p ttl) (fun r k => collects s (snd r) k).
Proof.
  intros Hs Hp. unfold rx_search_srv. case_on_goal; [|by apply add_srv_collects].
  eapply hn_seq; [apply ptr_result_collects|]. intros [o s'] k [Hc Hj]. cbn [fst snd] in *.
  destruct o as [i|]; [|apply hn_done; by rewrite Z.add_0_r].
  destruct (Hj i eq_refl) as [r Hr]. rewrite Hr. cbn. destruct (rs_hostname r) eqn:Eh; [apply hn_done; by rewrite Z.add_0_r|].
  eapply hn_seq; [apply hn_strdup|]. intros h k' (-> & _). apply hn_done.
  eapply collects_trans; [exact Hc|]. eapply collects_alter; [exact Hr|].
  count_blocks.
Qed.

Lemma rx_txt_collects s owner data n p ttl : Forall byte_ok data -> (Z.of_nat (length data) < 65536)%Z ->
  hspecn nf (rx_search_txt s owner data n p ttl) (fun r k => collects s (snd r) k).
Proof.
  intros Hb Hl.
  assert (Htxt : hspecn nf (result_txt_create data (length data)) (fun l k => k = txt_blocks l))
    by (apply hspecn_stays; [by apply txt_array_owned|apply txt_create_stays]).
  unfold rx_search_txt. case_on_goal.
  - eapply hn_seq; [apply ptr_result_collects|]. intros [o s'] k [Hc Hj]. cbn [fst snd] in *.
    destruct o as [i|]; [|apply hn_done; by rewrite Z.add_0_r].
    destruct (Hj i eq_refl) as [r Hr]. rewrite Hr. cbn. destruct (rs_txt r) eqn:Et; [|apply hn_done; by rewrite Z.add_0_r].
    eapply hn_seq; [exact Htxt|]. intros [|t l] k' ->; apply hn_done.
    + cbn. by rewrite Z.add_0_r.
    + eapply collects_trans; [exact Hc|]. eapply collects_alter; [exact Hr|].
      count_blocks.
  - eapply hn_seq; [exact Htxt|]. intros [|t l] k ->; [by apply hn_done, collects_refl|].
    eapply hn_mono; [by apply add_txt_collects|]. done.
Qed.

End Steps.
