(* ===== verification/QuerySafe.v ===== *)
(** Searches as a whole: the calls of the application, the timer, the service task
    and received packets in any order, and the invariant they keep. *)
From S2P Require Import Prelude Names Server Encode Heap Txt Answers AnswersProofs State Received Cache CacheTree Browse Query QueryProofs.

(** * Operations *)

Inductive query_op :=
| QNew (name service proto : option cstr) (type timeout max_results : Z) (notifier : option positive)
| QQuery (name service proto : option cstr) (type : Z) (unicast : bool) (timeout max_results : Z)
| QReturn (x : qid)
| QAddress (v4 : bool) (x : qid)
| QDelete (x : qid)
| QResults (x : qid)
| QFree (i : nat)
| QTick
| QTurn
| QPacket (esp_netif : netif) (ip_protocol : mdns_ip_protocol_t) (authoritative : bool) (l : list rx_record)
| QPcbs (inited : mdns_if_t -> mdns_ip_protocol_t -> bool)
| QWait (ms : Z).

Section Run.
Context (cfg : config) (netif_of : mdns_if_t -> netif) (junk : nat -> option host_ref) (MDNS_MAX_INTERFACES : nat).
Context (addr : list positive -> positive).

(** The service task takes the first action, if there is one. *)
Definition query_turn : Q unit :=
  l ← reads q_actions;
  match l with
  | [] => mret tt
  | a :: rest =>
      _ ← writes (fun st => set_q_actions st rest);
      _ ← mdns_priv_query_action cfg netif_of junk MDNS_MAX_INTERFACES a;
      alloc (mfree 1)
  end.

Definition perform_query (op : query_op) : Q unit :=
  match op with
  | QNew n s p t ms max f => _ ← mdns_query_async_new cfg addr true n s p t ms max f; mret tt
  | QQuery n s p t u ms max => _ ← mdns_query_generic cfg addr true n s p t u ms max; mret tt
  | QReturn x => _ ← query_generic_return x; mret tt
  | QAddress v4 x => _ ← query_address_return v4 x; mret tt
  | QDelete x => _ ← mdns_query_async_delete x; mret tt
  | QResults x => _ ← mdns_query_async_get_results x; mret tt
  | QFree i => mdns_query_results_free i
  | QTick => mdns_priv_query_start_stop
  | QTurn => query_turn
  | QPacket n p a l => rx_search_packet cfg n p a l
  | QPcbs f => writes (fun st => set_q_inited st f)
  | QWait ms => writes (fun st => set_q_now st (u32 (q_now st + ms)))
  end.

End Run.

(** * The invariant *)

(** The names a search has, by its type. *)
Definition search_wf (s : mdns_search_once_t) : Prop :=
  (sr_type s = MDNS_TYPE_A \/ sr_type s = MDNS_TYPE_AAAA -> is_Some (sr_instance s))
  /\ (sr_type s = MDNS_TYPE_PTR \/ sr_type s = MDNS_TYPE_SRV \/ sr_type s = MDNS_TYPE_TXT -> is_Some (sr_service s))
  /\ (sr_type s = MDNS_TYPE_ANY -> sr_service s = None -> is_Some (sr_instance s))
  /\ (is_Some (sr_service s) -> is_Some (sr_proto s)).

(** An action that adds a search is the last one for it. *)
Fixpoint adds_last (acts : list (search_action * qid)) : Prop :=
  match acts with
  | [] => True
  | (a, x) :: rest => (a = ACTION_SEARCH_ADD -> x ∉ map snd rest) /\ adds_last rest
  end.

Abbreviation objects := (list (qid * mdns_search_once_t)).

(** Searches, list, actions and waiting tasks fit together: a search that runs is
    in the list or about to be added; in the list, one is off exactly when the
    action that ends it is waiting; a task that waits will be woken. *)
Record searches_ok (objs : objects) (l : list qid) (acts : list (search_action * qid)) (waiting : list qid) : Prop := {
  so_ids : base.NoDup (map fst objs);
  so_list : base.NoDup l;
  so_alloc : forall x, x ∈ l -> is_Some (assoc x objs);
  so_wf : forall x s, assoc x objs = Some s -> search_wf s;
  so_counted : forall x s, assoc x objs = Some s -> sr_state s <> SEARCH_OFF \/ x ∈ l -> counted s;
  so_adds : adds_last acts;
  so_add : forall x, (ACTION_SEARCH_ADD, x) ∈ acts ->
    (x ∉ l) /\ exists s, assoc x objs = Some s /\ sr_state s = SEARCH_INIT;
  so_end : forall x s, x ∈ l -> assoc x objs = Some s -> ((ACTION_SEARCH_END, x) ∈ acts <-> sr_state s = SEARCH_OFF);
  so_runs : forall x s, assoc x objs = Some s -> sr_state s <> SEARCH_OFF -> x ∈ l \/ (ACTION_SEARCH_ADD, x) ∈ acts;
  so_done : forall x s, assoc x objs = Some s -> sr_done_semaphore s = true -> sr_state s = SEARCH_OFF /\ (x ∉ l);
  so_waiting : forall x, x ∈ waiting -> exists s, assoc x objs = Some s
    /\ (sr_done_semaphore s = true \/ x ∈ l \/ (ACTION_SEARCH_ADD, x) ∈ acts);
}.

Definition own_blocks (s : mdns_search_once_t) : Z := (search_blocks s + results_blocks (sr_result s))%Z.

Definition objs_blocks (objs : objects) : Z := foldr (fun x n => own_blocks (snd x) + n)%Z 0%Z objs.

Definition given_blocks (l : list (list mdns_result_t)) : Z := foldr (fun x n => results_blocks x + n)%Z 0%Z l.

(** The search has the results it was started for, or its time is over. *)
Definition over (now : Z) (s : mdns_search_once_t) : Prop :=
  (sr_max_results s <> 0 /\ sr_max_results s <= sr_num_results s)%Z
  \/ (u32 (sr_started_at s + sr_timeout s) < now)%Z.

Section Invariant.
(** Whether allocations never fail, and whether the clock does not wrap around. *)
Context (nf steady : bool) (base : Z).

(** [k] more blocks are held by the operation under way. *)
Record query_holds (k : Z) (st : querier) : Prop := {
  qo_ok : searches_ok (q_searches st) (s_search_once st) (q_actions st) (q_waiting st);
  qo_nf : nf = true -> never_fails (q_heap st);
  qo_heap : exists leak, (0 <= leak)%Z /\ (nf = true -> leak = 0%Z)
    /\ live (q_heap st) = (base + objs_blocks (q_searches st) + given_blocks (q_given st)
                           + Z.of_nat (length (q_actions st)) + k + leak)%Z;
  qo_over : steady = true -> forall x s, assoc x (q_searches st) = Some s -> sr_state s = SEARCH_OFF ->
    over (q_now st) s;
  qo_told : steady = true -> Forall (fun x => over (q_now st) (snd x) /\ sr_state (snd x) = SEARCH_OFF) (q_notified st);
}.

Definition query_ok (st : querier) : Prop := query_holds 0 st.

Definition filled (s : option cstr) : Prop := mdns_utils_str_null_or_empty s = false.

(** What the documentation asks of the arguments: a host name for address queries,
    a service for the others. *)
Definition args_ok (name service : option cstr) (type : Z) : Prop :=
  (type = MDNS_TYPE_A \/ type = MDNS_TYPE_AAAA -> filled name)
  /\ (type = MDNS_TYPE_PTR \/ type = MDNS_TYPE_SRV \/ type = MDNS_TYPE_TXT -> filled service)
  /\ (type = MDNS_TYPE_ANY -> filled service \/ filled name).

(** What an operation relies on: a handle is used while it is valid, and not while
    its owner waits in [mdns_query_generic]. *)
Definition query_op_ok (st : querier) (op : query_op) : Prop :=
  match op with
  | QNew n s p t ms max f => args_ok n s t
  | QQuery n s p t u ms max => args_ok n s t
  | QReturn x | QAddress _ x => x ∈ q_waiting st
  | QDelete x | QResults x => is_Some (assoc x (q_searches st)) /\ x ∉ q_waiting st
  | QPacket n p a l => Forall rx_ok l
  | QWait ms => steady = true -> (0 <= ms)%Z /\ (0 <= q_now st + ms < 2 ^ 32)%Z
  | _ => True
  end.

End Invariant.

(** * Lists of actions *)

Lemma adds_last_snoc acts a x : adds_last acts -> (ACTION_SEARCH_ADD, x) ∉ acts -> adds_last (acts ++ [(a, x)]).
Proof.
  induction acts as [|[b y] acts IH]; cbn [adds_last app].
  - intros _ _. split; [intros _; apply not_elem_of_nil|done].
  - intros [Hy Hl] Hx. rewrite not_elem_of_cons in Hx. destruct Hx as [Hne Hx]. split; [|by apply IH].
    intros ->. specialize (Hy eq_refl). rewrite map_app. cbn [map snd]. rewrite not_elem_of_app, list_elem_of_singleton.
    split; [done|]. intros ->. by apply Hne.
Qed.

(** * Objects *)

Lemma assoc_cons {A} x k (a : A) l : assoc x ((k, a) :: l) = if decide (x = k) then Some a else assoc x l.
Proof. cbn. destruct (Pos.eqb_spec x k); case_decide; congruence. Qed.

Lemma assoc_remove_at {A} k x (l : list (positive * A)) : base.NoDup (map fst l) ->
  assoc x (remove_at k l) = if decide (x = k) then None else assoc x l.
Proof.
  induction l as [|[k' a] l IH]; cbn [map remove_at fst]; [by case_decide|]. intros [Hn Hl]%NoDup_cons.
  rewrite assoc_cons. destruct (decide (k' = k)) as [->|Hne].
  - case_decide as Hx; [|done]. subst x. by apply assoc_None.
  - rewrite assoc_cons, IH by done. repeat case_decide; congruence.
Qed.

Lemma assoc_put {A} x y (f : A -> A) l a : assoc x l = Some a ->
  assoc y (alter_at x f l) = if decide (y = x) then Some (f a) else assoc y l.
Proof. intros Hx. rewrite assoc_alter_at. case_decide as Hy; [|done]. subst y. by rewrite Hx. Qed.

Lemma objs_blocks_app l l' : objs_blocks (l ++ l') = (objs_blocks l + objs_blocks l')%Z.
Proof. unfold objs_blocks. induction l as [|x l IH]; cbn [app foldr]; [done|]. rewrite IH. lia. Qed.

Lemma objs_blocks_put x f objs s : base.NoDup (map fst objs) -> assoc x objs = Some s ->
  objs_blocks (alter_at x f objs) = (objs_blocks objs + own_blocks (f s) - own_blocks s)%Z.
Proof.
  intros Hn Hx. destruct (assoc_split _ _ _ Hx) as (l1 & l2 & -> & _). rewrite alter_at_split by done.
  rewrite !objs_blocks_app. cbn [objs_blocks foldr snd]. fold (objs_blocks l2). lia.
Qed.

Lemma objs_blocks_remove x objs s : assoc x objs = Some s ->
  objs_blocks (remove_at x objs) = (objs_blocks objs - own_blocks s)%Z.
Proof.
  intros Hx. destruct (assoc_split _ _ _ Hx) as (l1 & l2 & -> & Hn). rewrite remove_at_split by done.
  rewrite !objs_blocks_app. cbn [objs_blocks foldr snd]. fold (objs_blocks l2). lia.
Qed.

Lemma remove_at_NoDup {A} x (l : list (positive * A)) : base.NoDup (map fst l) -> base.NoDup (map fst (remove_at x l)).
Proof. intros Hn. eapply sublist_NoDup; [exact Hn|]. apply map_sublist, remove_at_sublist. Qed.

(** * Transitions *)

Section Transitions.
Context (objs : objects) (l : list qid) (acts : list (search_action * qid)) (waiting : list qid).
Hypothesis Hok : searches_ok objs l acts waiting.

(** One search changes, but not its place in the order of things. *)
Lemma so_put x s f : assoc x objs = Some s -> sr_state (f s) = sr_state s ->
  (sr_done_semaphore (f s) = sr_done_semaphore s \/ (x ∉ waiting) /\ sr_done_semaphore (f s) = false) ->
  search_wf (f s) -> (sr_state s <> SEARCH_OFF \/ x ∈ l -> counted (f s)) ->
  searches_ok (alter_at x f objs) l acts waiting.
Proof using Hok.
  intros Hx Hst Hd Hwf Hc. destruct Hok. split; try done.
  - by rewrite alter_at_fst.
  - intros y Hy. rewrite (assoc_put _ _ _ _ _ Hx). case_decide; eauto.
  - intros y t. rewrite (assoc_put _ _ _ _ _ Hx). case_decide; [intros [= <-]|]; eauto.
  - intros y t. rewrite (assoc_put _ _ _ _ _ Hx). case_decide as Hy; [|eauto]. intros [= <-]. subst y. rewrite Hst. auto.
  - intros y Hy. destruct (so_add0 y Hy) as (Hn & t & Ht & Hi). split; [done|]. rewrite (assoc_put _ _ _ _ _ Hx).
    case_decide as Hyx; [|eauto]. subst y. exists (f s). split; [done|]. congruence.
  - intros y t Hy. rewrite (assoc_put _ _ _ _ _ Hx). case_decide as Hyx; [|eauto]. intros [= <-]. subst y. rewrite Hst. eauto.
  - intros y t. rewrite (assoc_put _ _ _ _ _ Hx). case_decide as Hyx; [|eauto]. intros [= <-]. subst y. rewrite Hst. eauto.
  - intros y t. rewrite (assoc_put _ _ _ _ _ Hx). case_decide as Hyx; [|eauto]. intros [= <-]. subst y. rewrite Hst.
    destruct Hd as [->|[_ ->]]; [eauto|done].
  - intros y Hy. destruct (so_waiting0 y Hy) as (t & Ht & Hw). rewrite (assoc_put _ _ _ _ _ Hx).
    case_decide as Hyx; [|eauto]. subst y. exists (f s). split; [done|]. assert (t = s) as -> by congruence.
    destruct Hd as [->|[Hnw _]]; done.
Qed.

(** Nothing is queued twice for one that runs. *)
Lemma listed_not_added x : x ∈ l -> (ACTION_SEARCH_ADD, x) ∉ acts.
Proof using Hok. intros Hx Ha. by destruct (so_add _ _ _ _ Hok x Ha) as [? _]. Qed.

Lemma so_send x : x ∈ l -> searches_ok objs l (acts ++ [(ACTION_SEARCH_SEND, x)]) waiting.
Proof using Hok.
  intros Hx. pose proof (listed_not_added x Hx) as Hn. destruct Hok. split; try done.
  - by apply adds_last_snoc.
  - intros y. rewrite elem_of_app, list_elem_of_singleton. intros [Hy|[=]]. by apply so_add0.
  - intros y t Hy Ht. rewrite elem_of_app, list_elem_of_singleton, <- (so_end0 y t Hy Ht). split; [intros [?|[=]]|]; auto.
  - intros y t Ht Hr. destruct (so_runs0 y t Ht Hr); [by left|right; elems].
  - intros y Hy. destruct (so_waiting0 y Hy) as (t & Ht & [?|[?|?]]); exists t; (split; [done|]); [auto|auto|].
    right. right. elems.
Qed.

(** The timer finds that the time of a search is over. *)
Lemma so_stop x s : x ∈ l -> assoc x objs = Some s -> sr_state s <> SEARCH_OFF ->
  searches_ok (alter_at x (fun s => set_sr_state s SEARCH_OFF) objs) l (acts ++ [(ACTION_SEARCH_END, x)]) waiting.
Proof using Hok.
  intros Hl Hx Hs. pose proof (listed_not_added x Hl) as Hn. destruct Hok. split; try done.
  - by rewrite alter_at_fst.
  - intros y Hy. rewrite (assoc_put _ _ _ _ _ Hx). case_decide; eauto.
  - intros y t. rewrite (assoc_put _ _ _ _ _ Hx). case_decide; [intros [= <-]; exact (so_wf0 x s Hx)|eauto].
  - intros y t. rewrite (assoc_put _ _ _ _ _ Hx). case_decide as Hy; [|eauto]. intros [= <-] _. exact (so_counted0 x s Hx (or_introl Hs)).
  - by apply adds_last_snoc.
  - intros y. rewrite elem_of_app, list_elem_of_singleton. intros [Hy|[=]]. destruct (so_add0 y Hy) as (? & t & Ht & Hi).
    split; [done|]. rewrite (assoc_put _ _ _ _ _ Hx). case_decide; [congruence|eauto].
  - intros y t Hy. rewrite (assoc_put _ _ _ _ _ Hx). rewrite elem_of_app, list_elem_of_singleton. case_decide as Hyx.
    + intros [= <-]. subst y. cbn. split; [done|auto].
    + intros Ht. rewrite (so_end0 y t Hy Ht). split; [intros [?|[=]]; congruence|auto].
  - intros y t. rewrite (assoc_put _ _ _ _ _ Hx). case_decide; [by intros [= <-]|]. intros Ht Hr.
    destruct (so_runs0 y t Ht Hr); [by left|right; elems].
  - intros y t. rewrite (assoc_put _ _ _ _ _ Hx). case_decide as Hy; [|eauto]. intros [= <-] Hd. subst y. cbn in Hd.
    by destruct (so_done0 x s Hx Hd).
  - intros y Hy. destruct (so_waiting0 y Hy) as (t & Ht & Hw). rewrite (assoc_put _ _ _ _ _ Hx).
    case_decide as Hyx; [subst y; eexists; split; [done|]; auto|]. exists t. split; [done|].
    destruct Hw as [?|[?|?]]; [auto|auto|]. right. right. elems.
Qed.

(** A running search is found to be running. *)
Lemma so_run x s f : x ∈ l -> assoc x objs = Some s -> sr_state s <> SEARCH_OFF -> sr_state (f s) <> SEARCH_OFF ->
  sr_done_semaphore (f s) = sr_done_semaphore s -> search_wf (f s) -> counted (f s) ->
  searches_ok (alter_at x f objs) l acts waiting.
Proof using Hok.
  intros Hl Hx Hs Hf Hd Hwf Hc. pose proof (listed_not_added x Hl) as Hn. destruct Hok. split; try done.
  - by rewrite alter_at_fst.
  - intros y Hy. rewrite (assoc_put _ _ _ _ _ Hx). case_decide; eauto.
  - intros y t. rewrite (assoc_put _ _ _ _ _ Hx). case_decide; [intros [= <-]|]; eauto.
  - intros y t. rewrite (assoc_put _ _ _ _ _ Hx). case_decide as Hy; [|eauto]. by intros [= <-] _.
  - intros y Hy. destruct (so_add0 y Hy) as (? & t & Ht & Hi). split; [done|]. rewrite (assoc_put _ _ _ _ _ Hx).
    case_decide; [congruence|eauto].
  - intros y t Hy. rewrite (assoc_put _ _ _ _ _ Hx). case_decide as Hyx; [|eauto]. intros [= <-]. subst y.
    rewrite (so_end0 x s Hl Hx). by split.
  - intros y t. rewrite (assoc_put _ _ _ _ _ Hx). case_decide as Hy; [|eauto]. intros [= <-] _. subst y. by left.
  - intros y t. rewrite (assoc_put _ _ _ _ _ Hx). case_decide as Hy; [|eauto]. intros [= <-] Hdn. subst y. rewrite Hd in Hdn.
    by destruct (so_done0 x s Hx Hdn).
  - intros y Hy. destruct (so_waiting0 y Hy) as (t & Ht & Hw). rewrite (assoc_put _ _ _ _ _ Hx).
    case_decide as Hyx; [|eauto]. subst y. exists (f s). split; [done|]. assert (t = s) as -> by congruence.
    rewrite Hd. auto.
Qed.

Definition without (x : qid) (k : list qid) : list qid := filter (fun y => y <> x) k.

Lemma elem_without x y k : y ∈ without x k <-> y <> x /\ y ∈ k.
Proof. unfold without. by rewrite list_elem_of_filter. Qed.

(** A search that runs ends, with its task woken. *)
Lemma so_finish x s f : x ∈ l -> assoc x objs = Some s -> sr_state (f s) = SEARCH_OFF ->
  sr_done_semaphore (f s) = true -> search_wf (f s) ->
  searches_ok (alter_at x f objs) (without x l) acts waiting.
Proof using Hok.
  intros Hl Hx Hf Hd Hwf. pose proof (listed_not_added x Hl) as Hn. destruct Hok. split; try done.
  - by rewrite alter_at_fst.
  - by apply NoDup_filter.
  - intros y [Hne Hy]%elem_without. rewrite (assoc_put _ _ _ _ _ Hx). case_decide; eauto.
  - intros y t. rewrite (assoc_put _ _ _ _ _ Hx). case_decide; [intros [= <-]|]; eauto.
  - intros y t. rewrite (assoc_put _ _ _ _ _ Hx), elem_without. case_decide as Hy; [|naive_solver]. intros [= <-] Hc.
    naive_solver.
  - intros y Hy. destruct (so_add0 y Hy) as (? & t & Ht & Hi). split; [rewrite elem_without; tauto|].
    rewrite (assoc_put _ _ _ _ _ Hx). case_decide; [congruence|eauto].
  - intros y t [Hne Hy]%elem_without. rewrite (assoc_put _ _ _ _ _ Hx). case_decide; [done|eauto].
  - intros y t. rewrite (assoc_put _ _ _ _ _ Hx), elem_without. case_decide as Hy; [by intros [= <-]|].
    intros Ht Hr. destruct (so_runs0 y t Ht Hr); auto.
  - intros y t. rewrite (assoc_put _ _ _ _ _ Hx), elem_without. case_decide as Hy.
    + intros [= <-] _. split; [done|tauto].
    + intros Ht Hdn. destruct (so_done0 y t Ht Hdn). tauto.
  - intros y Hy. destruct (so_waiting0 y Hy) as (t & Ht & Hw). rewrite (assoc_put _ _ _ _ _ Hx).
    case_decide as Hyx; [exists (f s); auto|]. exists t. split; [done|]. rewrite elem_without. tauto.
Qed.

(** A new search, with the action that adds it. *)
Lemma so_new x s w : assoc x objs = None -> sr_state s = SEARCH_INIT -> sr_done_semaphore s = false ->
  search_wf s -> counted s -> (forall y, y ∈ w -> y = x \/ y ∈ waiting) ->
  searches_ok ((x, s) :: objs) l (acts ++ [(ACTION_SEARCH_ADD, x)]) w.
Proof using Hok.
  intros Hx Hi Hd Hwf Hc Hw. destruct Hok.
  assert (Hold : forall y t, assoc y objs = Some t -> assoc y ((x, s) :: objs) = Some t).
  { intros y t Ht. rewrite assoc_cons. case_decide; [congruence|done]. }
  assert (Hxl : x ∉ l) by (intros [t Ht]%so_alloc0; congruence). split.
  - cbn. apply NoDup_cons. split; [by apply assoc_None|done].
  - done.
  - intros y Hy. destruct (so_alloc0 y Hy) as [t Ht]. rewrite (Hold y t Ht). by eexists.
  - intros y t. rewrite assoc_cons. case_decide; [by intros [= <-]|eauto].
  - intros y t. rewrite assoc_cons. case_decide; [by intros [= <-]|eauto].
  - apply adds_last_snoc; [done|]. intros Ha. destruct (so_add0 x Ha) as (_ & t & Ht & _). congruence.
  - intros y. rewrite elem_of_app, list_elem_of_singleton. intros [Hy|[= ->]].
    + destruct (so_add0 y Hy) as (? & t & Ht & ?). split; [done|]. exists t. split; [by apply Hold|done].
    + split; [done|]. exists s. rewrite assoc_cons. by rewrite decide_True.
  - intros y t Hy. rewrite assoc_cons, elem_of_app, list_elem_of_singleton. case_decide; [congruence|]. intros Ht.
    rewrite <- (so_end0 y t Hy Ht). split; [intros [?|[=]]|]; auto.
  - intros y t. rewrite assoc_cons, elem_of_app, list_elem_of_singleton. case_decide; [subst y; auto|].
    intros Ht Hr. destruct (so_runs0 y t Ht Hr); auto.
  - intros y t. rewrite assoc_cons. case_decide; [intros [= <-]; congruence|eauto].
  - intros y Hy. destruct (Hw y Hy) as [->|Hy'].
    + exists s. rewrite assoc_cons. rewrite decide_True by done. split; [done|]. right. right. elems.
    + destruct (so_waiting0 y Hy') as (t & Ht & Hr). exists t. split; [by apply Hold|]. rewrite elem_of_app. tauto.
Qed.

(** A search that is over goes. *)
Lemma so_free x s w : assoc x objs = Some s -> sr_state s = SEARCH_OFF -> (forall y, y ∈ w -> y <> x /\ y ∈ waiting) ->
  searches_ok (remove_at x objs) (without x l) acts w.
Proof using Hok.
  intros Hx Hs Hw. destruct Hok. assert (Hrem := fun y => assoc_remove_at x y objs so_ids0). split.
  - by apply remove_at_NoDup.
  - by apply NoDup_filter.
  - intros y [Hne Hy]%elem_without. rewrite Hrem. by case_decide; eauto.
  - intros y t. rewrite Hrem. case_decide; [done|eauto].
  - intros y t. rewrite Hrem, elem_without. case_decide; [done|]. intros Ht Hr. apply (so_counted0 y t Ht). tauto.
  - done.
  - intros y Hy. destruct (so_add0 y Hy) as (? & t & Ht & ?). split; [rewrite elem_without; tauto|].
    exists t. rewrite Hrem. case_decide; [congruence|done].
  - intros y t [Hne Hy]%elem_without. rewrite Hrem. case_decide; [done|eauto].
  - intros y t. rewrite Hrem, elem_without. case_decide; [done|]. intros Ht Hr. destruct (so_runs0 y t Ht Hr); auto.
  - intros y t. rewrite Hrem, elem_without. case_decide; [done|]. intros Ht Hd. destruct (so_done0 y t Ht Hd). tauto.
  - intros y Hy. destruct (Hw y Hy) as [Hne Hy']. destruct (so_waiting0 y Hy') as (t & Ht & Hr).
    exists t. rewrite Hrem, elem_without. case_decide; [done|]. split; [done|]. tauto.
Qed.

End Transitions.

(** The service task takes an action. *)
Section Pop.
Context (objs : objects) (l : list qid) (acts : list (search_action * qid)) (waiting : list qid).

Lemma so_pop_add x : searches_ok objs l ((ACTION_SEARCH_ADD, x) :: acts) waiting ->
  searches_ok objs (x :: l) acts waiting.
Proof.
  intros []. destruct so_adds0 as [Hx Hadds]. specialize (Hx eq_refl).
  destruct (so_add0 x ltac:(left)) as (Hxl & s & Hs & Hi).
  assert (Hnot : forall a, (a, x) ∉ acts) by (intros a Ha; apply Hx; exact (list_elem_of_fmap_2 snd _ _ Ha)).
  split; try done.
  - by apply NoDup_cons.
  - intros y [->|Hy]%elem_of_cons; [by eexists|eauto].
  - intros y t Ht Hr. apply (so_counted0 y t Ht). rewrite elem_of_cons in Hr. destruct Hr as [?|[->|?]]; [auto| |auto].
    left. congruence.
  - intros y Hy. destruct (so_add0 y ltac:(by right)) as (Hyl & t & Ht & ?). split; [|eauto].
    rewrite not_elem_of_cons. split; [|done]. intros ->. by eapply Hnot.
  - intros y t [->|Hy]%elem_of_cons Ht.
    + split; [intros Ha; exfalso; by eapply Hnot|congruence].
    + rewrite <- (so_end0 y t Hy Ht), elem_of_cons. split; [auto|]. by intros [[=]|?].
  - intros y t Ht Hr. destruct (so_runs0 y t Ht Hr) as [?|[[= ->]|?]%elem_of_cons]; [left; by right|left; by left|auto].
  - intros y t Ht Hd. destruct (so_done0 y t Ht Hd). split; [done|]. rewrite not_elem_of_cons. split; [|done].
    intros ->. congruence.
  - intros y Hy. destruct (so_waiting0 y Hy) as (t & Ht & [?|[?|[[= ->]|?]%elem_of_cons]]); exists t; (split; [done|]); auto.
    + right. left. by right.
    + right. left. by left.
Qed.

Lemma so_pop_other a x : searches_ok objs l ((a, x) :: acts) waiting -> a <> ACTION_SEARCH_ADD ->
  (a = ACTION_SEARCH_END -> x ∉ l) -> searches_ok objs l acts waiting.
Proof.
  intros [] Ha Hx. destruct so_adds0 as [_ Hadds]. split; try done.
  - intros y Hy. apply so_add0. by right.
  - intros y t Hy Ht. rewrite <- (so_end0 y t Hy Ht), elem_of_cons. split; [auto|]. intros [[= <- ->]|?]; [|done].
    by specialize (Hx eq_refl).
  - intros y t Ht Hr. destruct (so_runs0 y t Ht Hr) as [?|[[= <- _]|?]%elem_of_cons]; auto. done.
  - intros y Hy. destruct (so_waiting0 y Hy) as (t & Ht & [?|[?|[[= <- _]|?]%elem_of_cons]]); exists t; (split; [done|]); auto.
Qed.

End Pop.
