(* ===== verification/QueryRun.v ===== *)
(** Every operation on searches keeps the invariant. *)
From S2P Require Import Prelude Names Server Encode Heap Txt Answers AnswersProofs State Received Cache CacheTree Browse Query QueryProofs QuerySafe.

(** Projections of updated states. *)
Ltac qfields := cbn [heap_of with_heap querier_heap set_q_heap set_q_now set_searches set_search_once set_q_actions
  set_q_accepts set_q_inited set_q_notified set_q_sent set_q_given set_q_waiting q_heap q_now q_searches s_search_once
  q_actions q_accepts q_inited q_notified q_sent q_given q_waiting fst snd] in *.

(** * Steps *)

Lemma q_get {A} x s (k : mdns_search_once_t -> Q A) st P :
  assoc x (q_searches st) = Some s -> yields (k s st) P -> yields ((get_search x ≫= k) st) P.
Proof. intros Hx Hk. eapply st_asks; [|exact Hk]. by rewrite Hx. Qed.

Lemma q_put {A} x s f (k : unit -> Q A) st P : assoc x (q_searches st) = Some s ->
  yields (k tt (set_searches st (alter_at x f (q_searches st)))) P -> yields ((put_search x f ≫= k) st) P.
Proof. intros Hx Hk. unfold put_search. apply st_assoc. eapply q_get; [exact Hx|]. by apply st_writes. Qed.

Lemma q_put_last x s f st (P : unit * querier -> Prop) : assoc x (q_searches st) = Some s ->
  P (tt, set_searches st (alter_at x f (q_searches st))) -> yields (put_search x f st) P.
Proof. intros Hx HP. unfold put_search. by eapply q_get. Qed.

Lemma search_in_eq objs x l : (forall y, y ∈ l -> is_Some (assoc y objs)) ->
  search_in objs x l = Ret (bool_decide (x ∈ l)).
Proof.
  induction l as [|y l IH]; intros Hl; cbn [search_in].
  - rewrite bool_decide_eq_false_2; [done|apply not_elem_of_nil].
  - destruct (decide (y = x)) as [->|Hy]; [rewrite bool_decide_eq_true_2; [done|left]|].
    destruct (Hl y) as [s Hs]; [left|]. rewrite Hs. cbn. rewrite IH by (intros z Hz; apply Hl; by right).
    f_equal. apply bool_decide_ext. rewrite elem_of_cons. split; [auto|]. by intros [->|?].
Qed.

Lemma without_none x l : x ∉ l -> without x l = l.
Proof.
  unfold without. induction l as [|y l IH]; [done|]. rewrite not_elem_of_cons. intros [Hy Hl].
  rewrite filter_cons_True by auto. by rewrite IH.
Qed.

Lemma detach_eq objs x l : (forall y, y ∈ l -> is_Some (assoc y objs)) -> base.NoDup l ->
  detach objs x l = Ret (without x l).
Proof.
  induction l as [|y l IH]; intros Hl Hd; cbn [detach]; [done|]. apply NoDup_cons in Hd as [Hn Hd].
  destruct (Hl y) as [s Hs]; [left|]. rewrite Hs. cbn [deref mbind outcome_bind]. unfold without. rewrite filter_cons.
  destruct (decide (y = x)) as [->|Hy].
  - rewrite decide_False by auto. by rewrite <- (without_none x l Hn) at 1.
  - rewrite decide_True by done. rewrite IH by (done || intros z Hz; apply Hl; by right). done.
Qed.

Lemma alter_at_alter {A} x (f g : A -> A) l : alter_at x g (alter_at x f l) = alter_at x (fun a => g (f a)) l.
Proof.
  unfold alter_at. rewrite map_map. apply map_ext. intros [k a]. cbn [fst snd].
  destruct (decide (k = x)); cbn [fst snd]; by repeat case_decide.
Qed.

Lemma alter_at_at {A} x (f g : A -> A) l a : base.NoDup (map fst l) -> assoc x l = Some a -> f a = g a ->
  alter_at x f l = alter_at x g l.
Proof.
  intros Hn Hx Hfg. destruct (assoc_split _ _ _ Hx) as (l1 & l2 & -> & _). rewrite !alter_at_split by done. by rewrite Hfg.
Qed.

(** * Ending a search *)

Definition ended (s : mdns_search_once_t) : mdns_search_once_t :=
  set_done (set_notifier (set_sr_state s SEARCH_OFF) None) true.

Definition finished (x : qid) (s : mdns_search_once_t) (st : querier) : querier :=
  set_searches (set_search_once (set_q_notified st
      (q_notified st ++ match sr_notifier s with
                        | Some f => [(f, set_notifier (set_sr_state s SEARCH_OFF) None)]
                        | None => []
                        end)) (without x (s_search_once st)))
    (alter_at x ended (q_searches st)).

Lemma bind_eq {S A B} (m : ST S A) (f : A -> ST S B) st a st' : m st = Ret (a, st') -> (m ≫= f) st = f a st'.
Proof. unfold mbind, ST_bind. by intros ->. Qed.

Lemma get_eq x s st : assoc x (q_searches st) = Some s -> get_search x st = Ret (s, st).
Proof. unfold get_search, asks. by intros ->. Qed.

Lemma put_eq x s f st : assoc x (q_searches st) = Some s ->
  put_search x f st = Ret (tt, set_searches st (alter_at x f (q_searches st))).
Proof. intros Hx. unfold put_search. by rewrite (bind_eq _ _ _ _ _ (get_eq x s st Hx)). Qed.

Lemma search_finish_eq x s st acts waiting : searches_ok (q_searches st) (s_search_once st) acts waiting ->
  x ∈ s_search_once st -> assoc x (q_searches st) = Some s -> search_finish x st = Ret (tt, finished x s st).
Proof.
  intros [Hids Hl Hal _ _ _ _ _ _ _ _] Hin Hx. unfold search_finish.
  assert (Hin' : search_is_in_list x st = Ret (true, st)).
  { unfold search_is_in_list, asks. by rewrite search_in_eq, bool_decide_eq_true_2 by done. }
  rewrite (bind_eq _ _ _ _ _ Hin'). cbn [negb]. rewrite (bind_eq _ _ _ _ _ (put_eq x s _ st Hx)).
  set (st1 := set_searches st _). assert (H1 : assoc x (q_searches st1) = Some (set_sr_state s SEARCH_OFF)).
  { unfold st1. qfields. by rewrite (assoc_put x x _ _ _ Hx), decide_True. }
  assert (Hd : queue_detach x st1 = Ret (tt, set_search_once st1 (without x (s_search_once st)))).
  { unfold queue_detach, mbind, ST_bind, asks. rewrite detach_eq; [done| |done].
    intros y Hy. unfold st1. qfields. rewrite (assoc_put _ _ _ _ _ Hx). case_decide; eauto. }
  rewrite (bind_eq _ _ _ _ _ Hd). rewrite (bind_eq _ _ _ _ _ (get_eq x _ (set_search_once st1 (without x (s_search_once st))) H1)).
  cbn [sr_notifier set_sr_state]. destruct (sr_notifier s) as [f|] eqn:Ef.
  - set (st2 := set_search_once st1 _). assert (H2 : assoc x (q_searches st2) = Some (set_sr_state s SEARCH_OFF)) by done.
    set (st3 := set_searches st2 (alter_at x (fun s => set_notifier s None) (q_searches st2))).
    assert (H3 : assoc x (q_searches st3) = Some (set_notifier (set_sr_state s SEARCH_OFF) None)).
    { unfold st3. qfields. by rewrite (assoc_put x x _ _ _ H2), decide_True. }
    assert (Hn : (_ ← put_search x (fun s => set_notifier s None); s ← get_search x;
        writes (fun st => set_q_notified st (q_notified st ++ [(f, s)]))) st2
      = Ret (tt, set_q_notified st3 (q_notified st ++ [(f, set_notifier (set_sr_state s SEARCH_OFF) None)]))).
    { rewrite (bind_eq _ _ _ _ _ (put_eq x _ _ st2 H2)). by rewrite (bind_eq _ _ _ _ _ (get_eq x _ st3 H3)). }
    rewrite (bind_eq _ _ _ _ _ Hn). erewrite put_eq by exact H3. unfold finished, st3, st2, st1. rewrite Ef.
    unfold set_searches, set_search_once, set_q_notified. qfields. by rewrite !alter_at_alter.
  - change (put_search x (fun s => set_done s true) (set_search_once st1 (without x (s_search_once st))) = Ret (tt, finished x s st)). erewrite put_eq by exact H1. unfold finished, st1. rewrite Ef.
    unfold set_searches, set_search_once, set_q_notified. qfields. rewrite alter_at_alter, app_nil_r. do 3 f_equal.
    eapply alter_at_at; [done|exact Hx|]. unfold ended, set_notifier. by rewrite <- Ef.
Qed.

Lemma own_blocks_ended s : own_blocks (ended s) = own_blocks s.
Proof. done. Qed.

Section Proofs.
Context (cfg : config) (netif_of : mdns_if_t -> netif) (junk : nat -> option host_ref) (MDNS_MAX_INTERFACES : nat).
Context (addr : list positive -> positive).
Hypothesis addr_new : forall l, addr l ∉ l.
Context (nf steady : bool) (base : Z).

Abbreviation holds := (query_holds nf steady base).

(** One search was changed. *)
Lemma over_put st x s f : (steady = true -> forall y t, assoc y (q_searches st) = Some t -> sr_state t = SEARCH_OFF ->
    over (q_now st) t) -> assoc x (q_searches st) = Some s ->
  (steady = true -> sr_state (f s) = SEARCH_OFF -> over (q_now st) (f s)) ->
  steady = true -> forall y t, assoc y (alter_at x f (q_searches st)) = Some t -> sr_state t = SEARCH_OFF ->
    over (q_now st) t.
Proof.
  intros Ho Hx Hf Hs y t. rewrite (assoc_put _ _ _ _ _ Hx). case_decide; [intros [= <-]|]; eauto.
Qed.

Lemma holds_put k k' st x s f : holds k st -> assoc x (q_searches st) = Some s ->
  searches_ok (alter_at x f (q_searches st)) (s_search_once st) (q_actions st) (q_waiting st) ->
  (own_blocks (f s) + k' = own_blocks s + k)%Z ->
  (steady = true -> sr_state (f s) = SEARCH_OFF -> over (q_now st) (f s)) ->
  holds k' (set_searches st (alter_at x f (q_searches st))).
Proof.
  intros [Hok Hn (leak & Hl1 & Hl2 & Hl3) Ho Ht] Hx Hok' Hb Hov. split; qfields; try done.
  - exists leak. split_and!; try done. rewrite (objs_blocks_put _ _ _ _ (so_ids _ _ _ _ Hok) Hx). lia.
  - by eapply over_put.
Qed.

(** Only the heap was changed. *)
Lemma qholds_heap k st h d leak : holds k st -> (nf = true -> never_fails h) -> (0 <= leak)%Z -> (nf = true -> leak = 0%Z) ->
  (live h - live (q_heap st) = d + leak)%Z -> holds (k + d) (set_q_heap st h).
Proof.
  intros [Hok Hn (leak' & Hl1 & Hl2 & Hl3) Ho Ht] Hnf H0 Hl Hd. split; qfields; try done.
  exists (leak' + leak)%Z. split_and!; [lia| |lia]. intros Hf. rewrite Hl, Hl2 by done. done.
Qed.

Lemma holds_alloc {A B} k st (m : H A) (f : A -> Q B) P R d : holds k st -> hspecn nf m P ->
  (forall a n, P a n -> n = d a) ->
  (forall a h, P a (d a) -> holds (k + d a) (set_q_heap st h) -> yields (f a (set_q_heap st h)) R) ->
  yields ((alloc m ≫= f) st) R.
Proof.
  intros H Hm Hd Hf. eapply st_allocn; [exact Hm|apply (qo_nf _ _ _ _ _ H)|]. intros a h HP Hn. qfields.
  apply Hf; [by rewrite <- (Hd _ _ HP)|]. eapply (qholds_heap _ _ _ _ 0); [exact H|exact Hn|lia|done|].
  rewrite <- (Hd _ _ HP). lia.
Qed.

Lemma holds_finished k st x s : holds k st -> x ∈ s_search_once st -> assoc x (q_searches st) = Some s ->
  (steady = true -> over (q_now st) s) -> holds k (finished x s st).
Proof.
  intros H Hin Hx Hov. pose proof H as [Hok Hn (leak & Hl1 & Hl2 & Hl3) Ho Ht]. unfold finished. split; qfields; try done.
  - eapply so_finish; try done. exact (so_wf _ _ _ _ Hok x s Hx).
  - exists leak. split_and!; try done. rewrite (objs_blocks_put _ _ _ _ (so_ids _ _ _ _ Hok) Hx), own_blocks_ended. lia.
  - eapply over_put; [exact Ho|exact Hx|]. intros Hs _. exact (Hov Hs).
  - intros Hs. apply Forall_app. split; [by apply Ht|]. destruct (sr_notifier s); [|constructor].
    constructor; [|constructor]. split; [exact (Hov Hs)|done].
Qed.

Lemma search_finish_spec k st x : holds k st ->
  (steady = true -> forall s, x ∈ s_search_once st -> assoc x (q_searches st) = Some s -> over (q_now st) s) ->
  yields (search_finish x st) (fun r => holds k (snd r)).
Proof.
  intros H Hov. pose proof (qo_ok _ _ _ _ _ H) as Hok. destruct (decide (x ∈ s_search_once st)) as [Hin|Hin].
  - destruct (so_alloc _ _ _ _ Hok x Hin) as [s Hs]. rewrite (search_finish_eq x s st _ _ Hok) by done.
    apply holds_finished; auto.
  - unfold search_finish, search_is_in_list, mbind, ST_bind, asks. rewrite search_in_eq by apply (so_alloc _ _ _ _ Hok).
    by rewrite bool_decide_eq_false_2.
Qed.

(** * Packets *)

Definition opt_blocks {A} (size : A -> Z) (x : option A) : Z := match x with Some a => size a | None => 0%Z end.

Lemma search_question_owned s : hspecn nf (search_question cfg s) (fun q k => k = opt_blocks out_question_blocks q).
Proof.
  unfold search_question. eapply hn_seq; [apply hn_malloc|]. intros [] k [-> _]; cbn [negb]; [|by apply hn_done].
  destruct (multi_label cfg (sr_service s)) as [[h t]|]; [|by apply hn_done].
  eapply hn_seq; [apply hn_malloc|]. intros b1 k [-> _]. eapply hn_seq; [apply hn_malloc|]. intros b2 k [-> _]. cbn zeta.
  set (w := negb (mdns_utils_str_null_or_empty (sr_proto s))).
  eapply hn_seq with (P := fun (b : bool) (k : Z) => k = (if b then 1 else 0)%Z /\ (w = false -> b = false)).
  { destruct w; [|by apply hn_done]. eapply hn_mono; [apply hn_malloc|]. by intros b k [-> _]. }
  intros b3 k [-> Hb3]. eapply hn_seq; [apply hn_malloc|]. intros b4 k [-> _].
  destruct (negb b1 || negb b2 || negb b4 || w && negb b3) eqn:E.
  - eapply hn_seq; [apply hn_mfree|]. intros [] k ->. eapply hn_seq; [apply hn_mfree|]. intros [] k ->.
    apply hn_done. destruct b1, b2, b3, b4; cbn; lia.
  - apply hn_done. destruct b1, b2, b4; try done. unfold out_question_blocks, strings_blocks.
    cbn [opt_blocks oq_own_dynamic_memory oq_host oq_service oq_proto oq_domain opt_block].
    unfold w in *. destruct (sr_proto s) as [[|]|]; cbn in *; try (rewrite Hb3 by done); try done.
    by destruct b3.
Qed.

Lemma known_answers_owned s l : forall p,
  hspecn nf (known_answers junk s p l) (fun r k => (packet_blocks p + k)%Z = opt_blocks packet_blocks r).
Proof.
  induction l as [|r l IH]; intros p; cbn [known_answers]; [apply hn_done; cbn; lia|].
  eapply hn_seq; [apply hn_malloc|]. intros [] k [-> _]; cbn [negb].
  - eapply hn_mono; [apply IH|]. intros o k Hk. rewrite <- Hk. unfold packet_blocks.
    cbn [set_section tx_answers tx_servers tx_additional tx_questions]. rewrite length_app. cbn [length]. lia.
  - eapply hn_seq; [apply hn_mfree|]. intros [] k ->. apply hn_done. cbn. lia.
Qed.

Lemma search_packet_owned s i p : hspecn nf (create_search_packet cfg netif_of junk s i p)
  (fun r k => k = opt_blocks packet_blocks r).
Proof.
  unfold create_search_packet.
  eapply hn_seq with (P := fun (r : option mdns_tx_packet_t) (k : Z) => k = opt_blocks packet_blocks r /\ forall x, r = Some x -> tx_questions x = []).
  { unfold mdns_priv_alloc_packet. eapply hn_seq; [apply hn_malloc|]. intros [] k [-> _]; apply hn_done; [|done].
    split; [done|]. by intros x [= <-]. }
  intros [x|] k [-> Hx]; [|by apply hn_done]. specialize (Hx x eq_refl).
  eapply hn_seq; [apply search_question_owned|]. intros [q|] k ->.
  - cbn zeta. assert (Hb : (packet_blocks x + out_question_blocks q)%Z = packet_blocks (set_questions x (tx_questions x ++ [q]))).
    { unfold packet_blocks. cbn [set_questions tx_questions tx_answers tx_servers tx_additional]. rewrite Hx. cbn. lia. }
    case_on_goal.
    + eapply hn_mono; [apply known_answers_owned|]. intros o k Hk. rewrite <- Hk, <- Hb. cbn. lia.
    + apply hn_done. cbn [opt_blocks]. rewrite <- Hb. lia.
  - eapply hn_seq; [apply hn_mfree|]. intros [] k ->. apply hn_done. cbn. lia.
Qed.

Lemma qholds_frame k st st' : holds k st -> q_heap st' = q_heap st -> q_now st' = q_now st -> q_searches st' = q_searches st ->
  s_search_once st' = s_search_once st -> q_actions st' = q_actions st -> q_notified st' = q_notified st ->
  q_given st' = q_given st -> q_waiting st' = q_waiting st -> holds k st'.
Proof.
  intros [] Hh Hn Hs Hl Ha Ht Hg Hw. split; rewrite ?Hh, ?Hn, ?Hs, ?Hl, ?Ha, ?Ht, ?Hg, ?Hw; done.
Qed.

Lemma holds_k k k' st : holds k st -> k' = k -> holds k' st.
Proof. by intros H ->. Qed.

Lemma mfree_holds k st n : holds (k + n) st -> yields (alloc (mfree n) st) (fun r => holds k (snd r)).
Proof.
  intros H. cbn. eapply holds_k; [eapply (qholds_heap _ _ _ (- n) 0); [exact H|apply (qo_nf _ _ _ _ _ H)|done|done|]|]; cbn; lia.
Qed.

(** Only packets were sent. *)
Definition only_sent (st st' : querier) : Prop :=
  q_searches st' = q_searches st /\ s_search_once st' = s_search_once st /\ q_actions st' = q_actions st
  /\ q_notified st' = q_notified st /\ q_accepts st' = q_accepts st /\ q_now st' = q_now st.

Lemma query_send_spec k st s i p : holds k st ->
  yields (mdns_priv_query_send cfg netif_of junk s i p st) (fun r => holds k (snd r) /\ only_sent st (snd r)).
Proof.
  intros H. unfold mdns_priv_query_send. apply st_reads. case_on_goal; [done|].
  eapply (holds_alloc _ _ _ _ _ _ (opt_blocks packet_blocks)); [exact H|apply search_packet_owned|done|].
  intros [x|] h _ H1; cbn [opt_blocks] in H1.
  - apply st_writes. cbn. split; [|done].
    apply (holds_k (k + packet_blocks x + - packet_blocks x)); [|lia].
    apply (qholds_heap _ _ _ _ 0); [eapply qholds_frame; [exact H1|done..]|apply (qo_nf _ _ _ _ _ H1)|done|done|]. cbn. lia.
  - cbn. split; [|done]. by rewrite Z.add_0_r in H1.
Qed.

Lemma search_send_spec k st x : holds k st ->
  yields (search_send cfg netif_of junk MDNS_MAX_INTERFACES x st) (fun r => holds k (snd r) /\ only_sent st (snd r)).
Proof.
  intros H. unfold search_send, search_is_in_list. pose proof (qo_ok _ _ _ _ _ H) as Hok.
  eapply st_asks; [apply search_in_eq, (so_alloc _ _ _ _ Hok)|].
  destruct (decide (x ∈ s_search_once st)) as [Hin|Hin]; [|by rewrite bool_decide_eq_false_2].
  rewrite bool_decide_eq_true_2 by done. cbn [negb].
  apply (iter_ok _ _ (fun st' => holds k st' /\ only_sent st st')); [done|].
  intros i st1 _ H1. apply (iter_ok _ _ (fun st' => holds k st' /\ only_sent st st')); [done|].
  intros p st2 _ [H2 Hs2]. destruct (so_alloc _ _ _ _ Hok x Hin) as [s Hs].
  eapply q_get; [by rewrite (proj1 Hs2)|]. eapply yields_mono; [by apply query_send_spec|].
  intros r [Hr Hs']. split; [done|]. unfold only_sent in *. intuition congruence.
Qed.

(** * Actions *)

(** What changed, put together. *)
Lemma holds_step k k' st st' leak : holds k st ->
  searches_ok (q_searches st') (s_search_once st') (q_actions st') (q_waiting st') ->
  (nf = true -> never_fails (q_heap st')) -> q_now st' = q_now st -> q_notified st' = q_notified st ->
  (0 <= leak)%Z -> (nf = true -> leak = 0%Z) ->
  (live (q_heap st') - live (q_heap st) = objs_blocks (q_searches st') - objs_blocks (q_searches st)
     + (given_blocks (q_given st') - given_blocks (q_given st))
     + (Z.of_nat (length (q_actions st')) - Z.of_nat (length (q_actions st))) + k' - k + leak)%Z ->
  (steady = true -> forall x s, assoc x (q_searches st') = Some s -> sr_state s = SEARCH_OFF -> over (q_now st) s) ->
  holds k' st'.
Proof.
  intros [Hok Hn (l & Hl1 & Hl2 & Hl3) Ho Ht] Hok' Hn' Hnow Hnot H0 Hl Hd Hov. split; rewrite ?Hnow, ?Hnot; try done.
  exists (l + leak)%Z. split_and!; [lia| |lia]. intros Hf. rewrite Hl, Hl2 by done. done.
Qed.

Definition queued (st : querier) (h : heap) (rest : list bool) (a : list (search_action * qid)) : querier :=
  set_q_actions (set_q_accepts (set_q_heap st h) rest) (q_actions st ++ a).

Lemma send_action_spec {A} a x st (f : bool -> Q A) R : (nf = true -> never_fails (q_heap st)) ->
  (forall ok h rest, (nf = true -> never_fails h) -> live h = (live (q_heap st) + Z.b2z ok)%Z ->
     (nf = true -> q_accepts st = [] -> ok = true /\ rest = []) ->
     yields (f ok (queued st h rest (if ok then [(a, x)] else []))) R) ->
  yields ((send_search_action a x ≫= f) st) R.
Proof.
  intros Hn Hf. unfold send_search_action. apply st_assoc. eapply st_allocn; [apply hn_malloc|exact Hn|].
  intros [] h [Hh Hok] Hn'; qfields; cbn [negb].
  - apply st_assoc, st_reads. destruct (next_bool (q_accepts st)) as [ok rest] eqn:En. qfields. rewrite En.
    apply st_assoc, st_writes. destruct ok; qfields.
    + apply st_assoc, st_writes. apply (Hf true h rest); [done|cbn; lia|]. intros _ Ha. rewrite Ha in En. by injection En as <-.
    + apply st_assoc. eapply st_allocn; [apply hn_mfree|exact Hn'|]. intros [] h' Hh' Hn''. qfields.
      specialize (Hf false h' rest Hn''). unfold queued in Hf. qfields. rewrite app_nil_r in Hf. apply Hf; [cbn; lia|].
      intros _ Ha. by rewrite Ha in En.
  - specialize (Hf false h (q_accepts st) Hn'). unfold queued in Hf. qfields. rewrite app_nil_r in Hf.
    destruct st. apply Hf; [cbn in *; lia|]. intros Ht _. by specialize (Hok Ht).
Qed.

Lemma over_alter k st x s f : holds k st -> assoc x (q_searches st) = Some s ->
  (steady = true -> sr_state (f s) = SEARCH_OFF -> over (q_now st) (f s)) ->
  steady = true -> forall y t, assoc y (alter_at x f (q_searches st)) = Some t -> sr_state t = SEARCH_OFF ->
    over (q_now st) t.
Proof. intros H. eapply over_put. apply (qo_over _ _ _ _ _ H). Qed.

(** A search that was changed, and the action. *)
Lemma holds_queued k st x s f h rest acts : holds k st -> assoc x (q_searches st) = Some s ->
  searches_ok (alter_at x f (q_searches st)) (s_search_once st) (q_actions st ++ acts) (q_waiting st) ->
  own_blocks (f s) = own_blocks s -> (nf = true -> never_fails h) ->
  live h = (live (q_heap st) + Z.of_nat (length acts))%Z ->
  (steady = true -> sr_state (f s) = SEARCH_OFF -> over (q_now st) (f s)) ->
  holds k (set_searches (queued st h rest acts) (alter_at x f (q_searches st))).
Proof.
  intros H Hx Hok Hb Hn Hh Hov. eapply (holds_step k k st _ 0); [exact H|exact Hok|exact Hn|done|done|done|done| |].
  - unfold queued. qfields. rewrite length_app, (objs_blocks_put _ _ _ _ (so_ids _ _ _ _ (qo_ok _ _ _ _ _ H)) Hx). lia.
  - by eapply over_alter.
Qed.

Lemma start_stop_one_spec k st x : holds k st -> x ∈ s_search_once st ->
  yields (start_stop_one (q_now st) x st) (fun r => holds k (snd r) /\ s_search_once (snd r) = s_search_once st
    /\ q_now (snd r) = q_now st).
Proof.
  intros H Hin. pose proof (qo_ok _ _ _ _ _ H) as Hok. destruct (so_alloc _ _ _ _ Hok x Hin) as [s Hs].
  pose proof (so_wf _ _ _ _ Hok x s Hs) as Hwf. unfold start_stop_one. eapply q_get; [exact Hs|].
  destruct (decide (sr_state s = SEARCH_OFF)) as [Hoff|Hrun]; [by rewrite bool_decide_eq_true_2|].
  rewrite bool_decide_eq_false_2 by done. pose proof (so_counted _ _ _ _ Hok x s Hs (or_introl Hrun)) as Hc.
  assert (Hnodup := so_ids _ _ _ _ Hok).
  case_on_goal.
  { eapply q_put; [exact Hs|]. apply send_action_spec; [apply (qo_nf _ _ _ _ _ H)|]. intros ok h rest Hn Hh _.
    destruct ok.
    - split; [|done]. eapply (holds_queued k st x s (fun s => set_sr_state s SEARCH_OFF) h rest [_]); try done.
      + by eapply so_stop.
      + intros _ _. right. cbn. lia.
    - eapply q_put_last; [unfold queued; qfields; by rewrite (assoc_put x x _ _ _ Hs), decide_True|].
      split; [|done]. unfold queued. qfields. rewrite alter_at_alter.
      eapply (holds_queued k st x s _ h rest []); try done.
      rewrite app_nil_r. eapply so_run; try done. }
  case_on_goal; [|done]. eapply q_put; [exact Hs|]. apply send_action_spec; [apply (qo_nf _ _ _ _ _ H)|].
  intros ok h rest Hn Hh _.
  assert (Hrun' : searches_ok (alter_at x (fun s => set_sent_at (set_sr_state s SEARCH_RUNNING) (q_now st)) (q_searches st))
      (s_search_once st) (q_actions st) (q_waiting st)) by (eapply so_run; done).
  destruct ok.
  - split; [|done].
    eapply (holds_queued k st x s (fun s => set_sent_at (set_sr_state s SEARCH_RUNNING) (q_now st)) h rest [_]); try done.
    by apply so_send.
  - eapply q_put_last; [unfold queued; qfields; by rewrite (assoc_put x x _ _ _ Hs), decide_True|].
    split; [|done]. unfold queued. qfields. rewrite alter_at_alter.
    eapply (holds_queued k st x s _ h rest []); try done.
    rewrite app_nil_r. eapply so_run; try done.
Qed.

Lemma start_stop_spec k st : holds k st -> yields (mdns_priv_query_start_stop st) (fun r => holds k (snd r)).
Proof.
  intros H. unfold mdns_priv_query_start_stop. apply st_reads, st_reads.
  eapply yields_mono; [apply (iter_ok _ _ (fun st1 => holds k st1 /\ s_search_once st1 = s_search_once st /\ q_now st1 = q_now st)); [done|]|by intros r [? _]].
  intros x st1 Hx (H1 & Hl & Hnow). rewrite <- Hnow. rewrite <- Hl in Hx.
  eapply yields_mono; [by apply start_stop_one_spec|]. intros r (? & ? & ?). split_and!; congruence.
Qed.

(** * The service task *)

(** The block of the action belongs to the task. *)
Lemma holds_pop k st a rest : holds k st -> q_actions st = a :: rest ->
  searches_ok (q_searches st) (s_search_once st) rest (q_waiting st) -> holds (k + 1) (set_q_actions st rest).
Proof.
  intros H Ha Hok. eapply (holds_step k _ st _ 0); [exact H|exact Hok|apply (qo_nf _ _ _ _ _ H)|done|done|done|done| |apply (qo_over _ _ _ _ _ H)].
  qfields. rewrite Ha. cbn [length]. lia.
Qed.

Lemma query_action_spec k st a rest : holds k st -> q_actions st = a :: rest ->
  yields (mdns_priv_query_action cfg netif_of junk MDNS_MAX_INTERFACES a (set_q_actions st rest))
    (fun r => holds (k + 1) (snd r)).
Proof.
  intros H Ha. pose proof (qo_ok _ _ _ _ _ H) as Hok. rewrite Ha in Hok. destruct a as [[] x]; cbn [mdns_priv_query_action].
  - destruct (so_add _ _ _ _ Hok x ltac:(left)) as (_ & s & Hs & _). unfold search_add. eapply q_get; [exact Hs|].
    apply so_pop_add in Hok. eapply (holds_step k _ st _ 0); [exact H|exact Hok|apply (qo_nf _ _ _ _ _ H)|done|done|done|done| |apply (qo_over _ _ _ _ _ H)].
    qfields. rewrite Ha. cbn [length]. lia.
  - eapply yields_mono; [apply search_send_spec; eapply holds_pop; [done..|]; by eapply so_pop_other|]. by intros r [? _].
  - destruct (decide (x ∈ s_search_once st)) as [Hin|Hin].
    + destruct (so_alloc _ _ _ _ Hok x Hin) as [s Hs]. rewrite (search_finish_eq x s (set_q_actions st rest) _ _ Hok) by done.
      assert (Hoff : sr_state s = SEARCH_OFF) by (apply (so_end _ _ _ _ Hok x s Hin Hs); left).
      pose proof (holds_finished k st x s H Hin Hs (fun Ht => qo_over _ _ _ _ _ H Ht x s Hs Hoff)) as Hf.
      apply (holds_pop k (finished x s st) _ rest Hf Ha). pose proof (qo_ok _ _ _ _ _ Hf) as Hokf.
      change (q_actions (finished x s st)) with (q_actions st) in Hokf. rewrite Ha in Hokf.
      eapply so_pop_other; [exact Hokf|done|]. intros _. cbn. rewrite elem_without. tauto.
    + apply search_finish_spec; [|by intros _ ? ?]. eapply holds_pop; [done..|]. by eapply so_pop_other.
Qed.

Lemma query_turn_spec k st : holds k st ->
  yields (query_turn cfg netif_of junk MDNS_MAX_INTERFACES st) (fun r => holds k (snd r)).
Proof.
  intros H. unfold query_turn. apply st_reads. destruct (q_actions st) as [|a rest] eqn:Ha; [done|].
  apply st_writes. eapply st_seq; [by apply (query_action_spec k)|]. intros [] st' H'. by apply mfree_holds.
Qed.

(** * Packets received *)

Lemma query_done_spec k st : holds k st -> yields (mdns_priv_query_done st) (fun r => holds k (snd r)).
Proof.
  intros H. unfold mdns_priv_query_done. apply st_reads.
  eapply yields_mono; [apply (iter_ok _ _ (fun st1 => holds k st1 /\ forall y, y ∈ s_search_once st -> is_Some (assoc y (q_searches st1))))|by intros r [? _]].
  { split; [done|]. apply (so_alloc _ _ _ _ (qo_ok _ _ _ _ _ H)). }
  intros x st1 Hx [H1 Hal]. destruct (Hal x Hx) as [s Hs]. unfold query_done_one. eapply q_get; [exact Hs|].
  case_on_goal; [|done]. destruct (decide (x ∈ s_search_once st1)) as [Hin|Hin].
  - pose proof (qo_ok _ _ _ _ _ H1) as Hok. rewrite (search_finish_eq x s st1 _ _ Hok) by done. split.
    + apply holds_finished; [done..|]. intros _. left. lia.
    + intros y Hy. cbn. rewrite (assoc_put _ _ _ _ _ Hs). case_decide; eauto.
  - unfold search_finish, search_is_in_list. eapply st_asks; [apply search_in_eq, (so_alloc _ _ _ _ (qo_ok _ _ _ _ _ H1))|].
    by rewrite bool_decide_eq_false_2.
Qed.

Lemma search_matches_spec s name type n p : search_wf s ->
  yields (search_matches cfg s name type n p)
    (fun b => b = true -> sr_state s <> SEARCH_OFF
       /\ (type = MDNS_TYPE_SRV -> is_Some (sr_service s) /\ is_Some (sr_proto s))).
Proof.
  intros (Hi & Hs & Ha & Hp). unfold search_matches, MDNS_TYPE_SRV, MDNS_TYPE_TXT, MDNS_TYPE_A, MDNS_TYPE_AAAA, MDNS_TYPE_PTR, MDNS_TYPE_ANY in *.
  destruct (decide (sr_state s = SEARCH_OFF)) as [Hoff|Hrun]; [by rewrite bool_decide_eq_true_2|].
  rewrite bool_decide_eq_false_2 by done. case_on_goal.
  { case_on_goal; [done|]. case_on_goal; [|by intros; split; [|lia]].
    assert (is_Some (sr_instance s)) as [i ->].
    { destruct (sr_service s) eqn:Es; [apply Hi|destruct (decide (sr_type s = 255)%Z); [by apply Ha|apply Hi]]; cbn in *; lia. }
    by intros; split; [|lia]. }
  case_on_goal.
  { case_on_goal; [done|]. assert (Hsv : is_Some (sr_service s)).
    { destruct (sr_service s) eqn:Es; [by eexists|]. cbn in *. apply Hs. lia. }
    destruct (Hp Hsv) as [pr Hpr]. destruct Hsv as [sv Hsv]. rewrite Hsv, Hpr. cbn [deref mbind outcome_bind].
    case_on_goal; [done|]. case_on_goal; [done|]. case_on_goal; cbn; eauto. }
  case_on_goal; [|done]. destruct (host name), (sr_service s) as [sv|]; try (intros; split; [done|lia]).
  case_on_goal; [|intros; split; [done|lia]]. case_on_goal; [|done]. destruct (Hp ltac:(by eexists)) as [pr ->].
  intros. split; [done|lia].
Qed.

Lemma same_search_wf s s' : same_search s s' -> search_wf s -> search_wf s'.
Proof. unfold same_search, search_wf. by intros ->. Qed.

Lemma on_search_spec {A} k st x s (f : mdns_search_once_t -> H (A * mdns_search_once_t)) : holds k st ->
  assoc x (q_searches st) = Some s -> sr_state s <> SEARCH_OFF ->
  hspecn nf (f s) (fun r n => collects nf s (snd r) n) ->
  yields (on_search x f st) (fun r => holds k (snd r) /\ s_search_once (snd r) = s_search_once st).
Proof.
  intros H Hx Hrun Hf. pose proof (qo_ok _ _ _ _ _ H) as Hok. unfold on_search. eapply q_get; [exact Hx|].
  eapply st_allocn; [exact Hf|apply (qo_nf _ _ _ _ _ H)|]. intros [a s'] h Hc Hn. qfields. eapply q_put; [exact Hx|].
  split; [|done]. destruct Hc as (leak & H0 & Hl & Hd & Hsame & Hcount).
  assert (Hfields : sr_state s' = sr_state s /\ sr_done_semaphore s' = sr_done_semaphore s /\ search_blocks s' = search_blocks s).
  { rewrite Hsame. done. }
  destruct Hfields as (Hst & Hdone & Hblocks).
  eapply (holds_step k k st _ leak); [exact H| |exact Hn|done|done|done|done| |].
  - apply (so_put _ _ _ _ Hok x s); auto.
    + eapply same_search_wf; [exact Hsame|]. exact (so_wf _ _ _ _ Hok x s Hx).
    + intros Hr. apply Hcount. exact (so_counted _ _ _ _ Hok x s Hx Hr).
  - qfields. rewrite (objs_blocks_put _ _ _ _ (so_ids _ _ _ _ Hok) Hx). unfold own_blocks. rewrite Hblocks. lia.
  - qfields. eapply over_alter; [exact H|exact Hx|]. intros _ Hoff. by rewrite Hst in Hoff.
Qed.

Lemma query_find_spec objs l name type n p : (forall y, y ∈ l -> is_Some (assoc y objs)) ->
  (forall y s, assoc y objs = Some s -> search_wf s) ->
  yields (query_find_from cfg objs l name type n p) (fun r => forall x rest, r = Some (x, rest) ->
    (exists s, assoc x objs = Some s /\ sr_state s <> SEARCH_OFF
       /\ (type = MDNS_TYPE_SRV -> is_Some (sr_service s) /\ is_Some (sr_proto s)))
    /\ (length rest < length l /\ forall y, y ∈ rest -> y ∈ l)).
Proof.
  intros Hl Hwf. induction l as [|y l IH]; cbn [query_find_from]; [done|].
  destruct (Hl y ltac:(left)) as [s Hs]. rewrite Hs. cbn [deref mbind outcome_bind].
  pose proof (search_matches_spec s name type n p (Hwf y s Hs)) as Hm.
  destruct (search_matches cfg s name type n p) as [[]| | |]; try done.
  - intros x rest [= <- <-]. split; [exists s; split; [done|by apply Hm]|]. split; [cbn; lia|]. intros z Hz. by right.
  - eapply yields_mono; [apply IH; intros z Hz; apply Hl; by right|]. intros r Hr x rest Hx.
    destruct (Hr x rest Hx) as (Hf & Hlen & Hin). split; [done|]. split; [cbn; lia|]. intros z Hz. right. auto.
Qed.

(** The search a record was found for. *)
Definition found_ok (st : querier) (type : Z) (found : option (qid * list qid)) : Prop :=
  forall x rest, found = Some (x, rest) ->
    (exists s, assoc x (q_searches st) = Some s /\ sr_state s <> SEARCH_OFF
       /\ (type = MDNS_TYPE_SRV -> is_Some (sr_service s) /\ is_Some (sr_proto s)))
    /\ forall y, y ∈ rest -> y ∈ s_search_once st.

Lemma find_from_spec {A} k st l name type n p (f : option (qid * list qid) -> Q A) R : holds k st ->
  (forall y, y ∈ l -> y ∈ s_search_once st) ->
  (forall found, found_ok st type found -> (forall x rest, found = Some (x, rest) -> length rest < length l) ->
     yields (f found st) R) ->
  yields ((mdns_priv_query_find_from cfg l name type n p ≫= f) st) R.
Proof.
  intros H Hl Hf. pose proof (qo_ok _ _ _ _ _ H) as Hok. unfold mdns_priv_query_find_from.
  eapply st_asks_spec; [apply query_find_spec|].
  - intros y Hy. apply (so_alloc _ _ _ _ Hok). auto.
  - apply (so_wf _ _ _ _ Hok).
  - intros found _ Hfound. apply Hf; intros x rest Hx; destruct (Hfound x rest Hx) as (? & ? & ?); [|done].
    split; [done|]. auto.
Qed.

Lemma rx_addr_spec k owner ip type n p ttl fuel : forall st found, holds k st -> found_ok st type found ->
  (forall x rest, found = Some (x, rest) -> length rest < fuel) ->
  yields (rx_search_addr cfg fuel found owner ip type n p ttl st) (fun r => holds k (snd r)).
Proof.
  induction fuel as [|fuel IH]; intros st [[x rest]|] H Hf Hfuel; cbn [rx_search_addr]; try done.
  { specialize (Hfuel x rest eq_refl). lia. }
  specialize (Hfuel x rest eq_refl). destruct (Hf x rest eq_refl) as [(s & Hs & Hrun & _) Hrest].
  eapply st_seq; [eapply (on_search_spec k st x s); [done..|apply add_ip_collects]|]. intros [] st1 [H1 Hl]. cbn [snd] in *.
  eapply find_from_spec; [exact H1|by rewrite Hl|]. intros found Hfound Hlen. apply IH; [done..|].
  intros y rest' Hy. specialize (Hlen y rest' Hy). lia.
Qed.

Lemma rx_record_spec k st n p r : holds k st -> rx_ok r ->
  yields (rx_search_record cfg n p r st) (fun r => holds k (snd r)).
Proof.
  intros H Hr. unfold rx_search_record, mdns_priv_query_find. apply st_assoc, st_reads.
  eapply find_from_spec; [exact H|done|]. intros found Hfound Hlen. destruct found as [[x rest]|]; [|by destruct r].
  destruct (Hfound x rest eq_refl) as [(s & Hs & Hrun & Hsrv) Hrest].
  assert (Hon : forall f : mdns_search_once_t -> Heap.H (unit * mdns_search_once_t),
    hspecn nf (f s) (fun r n => collects nf s (snd r) n) -> yields (on_search x f st) (fun r => holds k (snd r))).
  { intros f Hf. eapply yields_mono; [by eapply (on_search_spec k st x s)|]. by intros ? [? _]. }
  destruct r as [owner target ttl|owner target pr w port ttl|owner data ttl|owner ip ttl]; cbn [rx_owner rx_type] in *.
  - apply Hon, rx_ptr_collects.
  - apply Hon. destruct (Hsrv eq_refl). by apply rx_srv_collects.
  - destruct Hr. by apply Hon, rx_txt_collects.
  - apply rx_addr_spec; [done..|]. intros ? ? [= <- <-]. lia.
Qed.

Lemma rx_packet_spec k st n p a l : holds k st -> Forall rx_ok l ->
  yields (rx_search_packet cfg n p a l st) (fun r => holds k (snd r)).
Proof.
  intros H Hl. unfold rx_search_packet.
  eapply st_seq; [apply (iter_ok _ _ (holds k)); [done|]|].
  - intros r st1 Hr H1. rewrite Forall_forall in Hl. by apply rx_record_spec; [|apply Hl].
  - intros [] st1 H1. destruct a; [by apply query_done_spec|done].
Qed.

(** * Starting *)

Lemma dup_name_owned s : hspecn nf (dup_name cfg s) (fun r n =>
  (r = None -> n = 0%Z)
  /\ forall x, r = Some x -> n = opt_block x /\ (is_Some x <-> mdns_utils_str_null_or_empty s = false)).
Proof.
  unfold dup_name, dup_string. destruct (mdns_utils_str_null_or_empty s) eqn:Es.
  - eapply hn_seq; [by apply (hn_done (Some None) (fun r n => r = Some None /\ n = 0%Z))|]. intros ? n [-> ->]. apply hn_done.
    split; [done|]. intros x [= <-]. split; [done|]. split; [by intros [? [=]]|done].
  - eapply (hn_seq _ _ (fun (r : option (option cstr)) n => r = None /\ n = 0%Z \/ r = Some s /\ n = 1%Z)).
    { eapply hn_seq; [apply hn_malloc|]. intros ok n [-> _]. apply hn_done. destruct ok; auto. }
    intros ? n [[-> ->]|[-> ->]]; apply hn_done; [by split|]. split; [done|]. intros x [= <-].
    destruct s as [s|]; [|done]. cbn. split; [done|]. split; [done|by eexists].
Qed.

(** The search that is made. *)
Definition new_search (st : querier) (s : mdns_search_once_t) (type timeout max : Z) (notifier : option positive) : Prop :=
  sr_state s = SEARCH_INIT /\ sr_done_semaphore s = false /\ sr_result s = [] /\ sr_num_results s = 0%Z
  /\ sr_max_results s = u8 max /\ sr_type s = type /\ sr_started_at s = q_now st /\ sr_timeout s = timeout
  /\ sr_notifier s = notifier.

Lemma search_init_spec st name service proto type u timeout max notifier :
  args_ok name service type -> query_refused service proto timeout = false ->
  hspecn nf (search_init cfg name service proto type u timeout max notifier (q_now st)) (fun r n =>
    n = opt_blocks own_blocks r
    /\ forall s, r = Some s -> search_wf s /\ new_search st s type timeout max notifier).
Proof.
  intros (Ha & Hs & Hany) Href. unfold search_init.
  eapply hn_seq; [apply hn_malloc|]. intros [] n [-> _]; cbn [negb]; [|by apply hn_done].
  eapply hn_seq; [apply hn_malloc|]. intros [] n [-> _]; cbn [negb].
  2:{ eapply hn_seq; [apply hn_mfree|]. intros [] n ->. by apply hn_done. }
  eapply hn_seq; [apply dup_name_owned|]. intros [i|] n [Hn Hi]; cbn zeta.
  2:{ eapply hn_seq; [apply hn_mfree|]. intros [] m ->. apply hn_done. rewrite Hn by done. done. }
  destruct (Hi i eq_refl) as [-> Hi']. eapply hn_seq; [apply dup_name_owned|]. intros [sv|] n [Hn' Hsv].
  2:{ eapply hn_seq; [apply hn_mfree|]. intros [] m ->. apply hn_done. rewrite Hn' by done. split; [|done]. unfold search_blocks; cbn; lia. }
  destruct (Hsv sv eq_refl) as [-> Hsv']. eapply hn_seq; [apply dup_name_owned|]. intros [pr|] n [Hn'' Hpr].
  2:{ eapply hn_seq; [apply hn_mfree|]. intros [] m ->. apply hn_done. rewrite Hn'' by done. split; [|done]. unfold search_blocks; cbn; lia. }
  destruct (Hpr pr eq_refl) as [-> Hpr']. apply hn_done. split; [unfold own_blocks, search_blocks; cbn; lia|]. intros s [= <-]. split; [|done].
  unfold query_refused in Href. unfold search_wf, filled in *. cbn [sr_type sr_instance sr_service sr_proto].
  rewrite Hi', Hsv', Hpr'. apply orb_false_iff in Href as [_ Href%negb_false_iff%eqb_prop]. split_and!; [done|done| |congruence].
  intros Ht Hnone. destruct (Hany Ht) as [Hf|Hf]; [|done]. apply Hsv' in Hf as [x Hx]. congruence.
Qed.

Lemma new_search_counted st s type timeout max notifier : new_search st s type timeout max notifier -> counted s.
Proof.
  intros (_ & _ & Hr & Hn & Hm & _). unfold counted. rewrite Hr, Hn, Hm. unfold u8. cbn [length]. pose proof (Z.mod_pos_bound max (2 ^ 8) eq_refl). split_and!; [done|lia..].
Qed.

(** The search is made and its action queued, or there is no trace of it. *)
Lemma query_start_spec k st name service proto type u timeout max notifier :
  holds k st -> args_ok name service type -> query_refused service proto timeout = false ->
  yields (query_start cfg addr name service proto type u timeout max notifier st) (fun '(r, st') => holds k st'
    /\ (nf = true -> q_accepts st = [] -> q_accepts st' = [])
    /\ q_waiting st' = q_waiting st
    /\ forall x, r = Some x -> (ACTION_SEARCH_ADD, x) ∈ q_actions st').
Proof.
  intros H Hargs Href. pose proof (qo_ok _ _ _ _ _ H) as Hok. unfold query_start. apply st_reads.
  eapply st_allocn; [by apply search_init_spec|apply (qo_nf _ _ _ _ _ H)|]. intros [s|] h [Hh Hs] Hn; qfields; cbn [opt_blocks] in Hh.
  2:{ split_and!; try done. eapply holds_k; [eapply (qholds_heap k st h 0 0); [done..|lia]|lia]. }
  destruct (Hs s eq_refl) as [Hwf Hnew]. apply st_reads, st_writes. qfields. set (x := addr (map fst (q_searches st))).
  assert (Hx : assoc x (q_searches st) = None) by apply assoc_None, addr_new.
  apply send_action_spec; [done|]. intros ok h2 rest Hn2 Hh2 Hacc. qfields. destruct ok; cbn [negb].
  - cbn. split_and!; [| |done|].
    + eapply (holds_step k k st _ 0); [exact H| |exact Hn2|done|done|done|done| |].
      * unfold queued. qfields. apply (so_new _ _ _ _ Hok); try done; try apply Hnew; [by eapply new_search_counted|by auto].
      * unfold queued. qfields. rewrite length_app. cbn [objs_blocks foldr snd length]. fold (objs_blocks (q_searches st)). cbn in Hh2. lia.
      * intros Ht y t. unfold queued. qfields. rewrite assoc_cons. case_decide; [|apply (qo_over _ _ _ _ _ H Ht)].
        intros [= <-]. destruct Hnew as [-> _]. done.
    + intros Ht Ha. by destruct (Hacc Ht Ha).
    + intros y [= <-]. unfold queued. qfields. elems.
  - unfold search_free. unfold queued. qfields. rewrite app_nil_r.
    assert (Hres : sr_result s = []) by apply Hnew.
    apply st_assoc. eapply (q_get x s); [qfields; by rewrite assoc_cons, decide_True|].
    apply st_assoc, st_writes, st_assoc. eapply st_allocn; [apply hn_mfree|exact Hn2|]. intros [] h3 Hh3 Hn3. qfields.
    rewrite Hres. cbn. rewrite decide_True by done. split_and!; [|by intros Ht Ha; destruct (Hacc Ht Ha)|done|done].
    eapply (holds_step k k st _ 0); [exact H|exact Hok|exact Hn3|done|done|done|done| |apply (qo_over _ _ _ _ _ H)].
    unfold own_blocks in Hh. rewrite Hres in Hh. qfields. cbn in *. lia.
Qed.

Lemma async_new_spec k st name service proto type timeout max notifier : holds k st -> args_ok name service type ->
  yields (mdns_query_async_new cfg addr true name service proto type timeout max notifier st) (fun r => holds k (snd r)).
Proof.
  intros H Hargs. unfold mdns_query_async_new. cbn [negb orb]. destruct (query_refused service proto timeout) eqn:Er; [done|].
  eapply yields_mono; [by apply (query_start_spec k)|]. by intros [r st'] [? _].
Qed.

Lemma so_wait objs l acts w x : searches_ok objs l acts w -> (ACTION_SEARCH_ADD, x) ∈ acts -> searches_ok objs l acts (x :: w).
Proof.
  intros Hok Hx. pose proof Hok as []. split; try done. intros y [->|Hy]%elem_of_cons; [|auto]. destruct (QuerySafe.so_add _ _ _ _ Hok x Hx) as (_ & s & Hs & _). eauto.
Qed.

Lemma generic_spec k st name service proto type u timeout max : holds k st -> args_ok name service type ->
  yields (mdns_query_generic cfg addr true name service proto type u timeout max st) (fun r => holds k (snd r)).
Proof.
  intros H Hargs. unfold mdns_query_generic. cbn [negb]. destruct (query_refused service proto timeout) eqn:Er; [done|].
  eapply st_seq; [by apply (query_start_spec k)|]. intros [x|] st' (H' & _ & _ & Hx); [|done]. apply st_writes.
  eapply (holds_step k k st' _ 0); [exact H'| |apply (qo_nf _ _ _ _ _ H')|done|done|done|done|qfields; lia|apply (qo_over _ _ _ _ _ H')].
  apply so_wait; [apply (qo_ok _ _ _ _ _ H')|auto].
Qed.

(** * Freeing *)

Lemma remove_alter {A} x (f : A -> A) l a : base.NoDup (map fst l) -> assoc x l = Some a ->
  remove_at x (alter_at x f l) = remove_at x l.
Proof.
  intros Hn Hx. destruct (assoc_split _ _ _ Hx) as (l1 & l2 & -> & Hl1). by rewrite alter_at_split, !remove_at_split by done.
Qed.

(** What [search_free] leaves. *)
Definition freed (x : qid) (s : mdns_search_once_t) (st : querier) (h : heap) : querier :=
  set_q_given (set_q_heap (set_searches st (remove_at x (q_searches st))) h)
    match sr_result s with [] => q_given st | l => l :: q_given st end.

Lemma search_free_spec {A} x s st (f : unit -> Q A) R : assoc x (q_searches st) = Some s ->
  (forall h, (nf = true -> never_fails (q_heap st) -> never_fails h) -> live h = (live (q_heap st) - search_blocks s)%Z ->
     yields (f tt (freed x s st h)) R) ->
  yields ((search_free x ≫= f) st) R.
Proof.
  intros Hx Hf. unfold search_free. apply st_assoc. eapply q_get; [exact Hx|]. apply st_assoc, st_writes, st_assoc, st_bind.
  cbn [alloc mfree yields heap_of with_heap querier_heap]. specialize (Hf (mk_heap (fails (q_heap st)) (live (q_heap st) - search_blocks s)) ltac:(done) eq_refl).
  unfold freed in Hf. by destruct (sr_result s).
Qed.

Lemma holds_freed k st0 st x s : holds k st0 -> assoc x (q_searches st0) = Some s -> sr_state s = SEARCH_OFF ->
  q_searches st = remove_at x (q_searches st0) ->
  q_given st = match sr_result s with [] => q_given st0 | l => l :: q_given st0 end ->
  s_search_once st = without x (s_search_once st0) -> q_actions st = q_actions st0 -> q_now st = q_now st0 ->
  q_notified st = q_notified st0 -> (forall y, y ∈ q_waiting st -> y <> x /\ y ∈ q_waiting st0) ->
  (nf = true -> never_fails (q_heap st)) -> live (q_heap st) = (live (q_heap st0) - search_blocks s)%Z ->
  holds k st.
Proof.
  intros H Hx Hoff Hs Hg Hl Ha Hnow Hnot Hw Hn Hh. pose proof (qo_ok _ _ _ _ _ H) as Hok.
  assert (Hgb : given_blocks (q_given st) = (given_blocks (q_given st0) + results_blocks (sr_result s))%Z).
  { rewrite Hg. destruct (sr_result s) as [|r l]; [cbn; lia|]. cbn [given_blocks foldr]. fold (given_blocks (q_given st0)). lia. }
  eapply (holds_step k k st0 _ 0); [exact H| |exact Hn|exact Hnow|exact Hnot|done|done| |].
  - rewrite Hs, Hl, Ha. by eapply so_free.
  - rewrite Hgb, Hs, Ha, (objs_blocks_remove _ _ _ Hx). unfold own_blocks. lia.
  - rewrite Hs. intros Ht y t. rewrite (assoc_remove_at x y _ (so_ids _ _ _ _ Hok)).
    case_decide; [done|]. apply (qo_over _ _ _ _ _ H Ht).
Qed.

Lemma async_delete_spec k st x : holds k st -> is_Some (assoc x (q_searches st)) -> x ∉ q_waiting st ->
  yields (mdns_query_async_delete x st) (fun r => holds k (snd r)).
Proof.
  intros H [s Hs] Hw. pose proof (qo_ok _ _ _ _ _ H) as Hok. unfold mdns_query_async_delete. eapply q_get; [exact Hs|].
  destruct (decide (sr_state s = SEARCH_OFF)) as [Hoff|]; [|by rewrite bool_decide_eq_false_2].
  rewrite bool_decide_eq_true_2 by done. cbn [negb]. unfold queue_detach. apply st_assoc.
  eapply st_asks; [apply detach_eq; [apply (so_alloc _ _ _ _ Hok)|apply (so_list _ _ _ _ Hok)]|].
  apply st_writes. eapply q_put; [exact Hs|]. eapply (search_free_spec x (set_notifier s None)).
  { qfields. by rewrite (assoc_put x x _ _ _ Hs), decide_True. }
  intros h Hn Hh. unfold freed. qfields.
  eapply (holds_freed k st _ x s); try done.
  - qfields. by eapply remove_alter; [apply (so_ids _ _ _ _ Hok)|].
  - qfields. intros y Hy. split; [by intros ->|done].
  - intros Ht. apply Hn; [done|]. apply (qo_nf _ _ _ _ _ H Ht).
Qed.

Lemma generic_return_spec k st x : holds k st -> x ∈ q_waiting st ->
  yields (query_generic_return x st) (fun r => holds k (snd r)).
Proof.
  intros H Hw. pose proof (qo_ok _ _ _ _ _ H) as Hok. destruct (so_waiting _ _ _ _ Hok x Hw) as (s & Hs & _).
  unfold query_generic_return. eapply q_get; [exact Hs|]. destruct (sr_done_semaphore s) eqn:Ed; [|done]. cbn [negb].
  destruct (so_done _ _ _ _ Hok x s Hs Ed) as [Hoff Hout].
  eapply q_put; [exact Hs|]. apply st_writes. eapply (search_free_spec x (set_done s false)).
  { qfields. by rewrite (assoc_put x x _ _ _ Hs), decide_True. }
  intros h Hn Hh. unfold freed. qfields. eapply (holds_freed k st _ x s); try done.
  - qfields. by eapply remove_alter; [apply (so_ids _ _ _ _ Hok)|].
  - qfields. symmetry. by apply without_none.
  - qfields. intros y Hy. by apply list_elem_of_filter in Hy.
  - intros Ht. apply Hn; [done|]. apply (qo_nf _ _ _ _ _ H Ht).
Qed.

Lemma get_results_spec k st x : holds k st -> is_Some (assoc x (q_searches st)) -> x ∉ q_waiting st ->
  yields (mdns_query_async_get_results x st) (fun r => holds k (snd r)).
Proof.
  intros H [s Hs] Hw. pose proof (qo_ok _ _ _ _ _ H) as Hok. unfold mdns_query_async_get_results. eapply q_get; [exact Hs|].
  destruct (sr_done_semaphore s) eqn:Ed; [|done]. cbn [negb]. destruct (so_done _ _ _ _ Hok x s Hs Ed) as [Hoff Hout].
  eapply q_put; [exact Hs|]. apply st_writes.
  eapply (holds_step k k st _ 0); [exact H| |apply (qo_nf _ _ _ _ _ H)|done|done|done|done| |].
  - eapply so_put; try done; [by right|exact (so_wf _ _ _ _ Hok x s Hs)|by intros [?|?]].
  - qfields. rewrite (objs_blocks_put _ _ _ _ (so_ids _ _ _ _ Hok) Hs). unfold own_blocks. cbn [sr_result set_sr_results].
    change (search_blocks (set_sr_results _ _ _)) with (search_blocks s).
    destruct (sr_result s) as [|r l]; cbn [given_blocks foldr results_blocks]; [lia|]. fold (given_blocks (q_given st)). lia.
  - qfields. eapply over_alter; [exact H|exact Hs|]. intros Ht _. exact (qo_over _ _ _ _ _ H Ht x s Hs Hoff).
Qed.

Lemma results_free_spec k st i : holds k st -> yields (mdns_query_results_free i st) (fun r => holds k (snd r)).
Proof.
  intros H. unfold mdns_query_results_free. apply st_reads. destruct (q_given st !! i) as [l|] eqn:Ei; [|done].
  eapply st_allocn; [apply hn_mfree|apply (qo_nf _ _ _ _ _ H)|]. intros [] h Hh Hn. qfields.
  eapply (holds_step k k st _ 0); [exact H|apply (qo_ok _ _ _ _ _ H)|exact Hn|done|done|done|done| |apply (qo_over _ _ _ _ _ H)].
  qfields. assert (given_blocks (q_given st) = results_blocks l + given_blocks (delete i (q_given st)))%Z; [|lia].
  clear -Ei. revert i Ei. induction (q_given st) as [|y g IH]; intros [|i] Ei; try done.
  - by injection Ei as ->.
  - change (results_blocks y + given_blocks g = results_blocks l + (results_blocks y + given_blocks (delete i g)))%Z.
    rewrite (IH i Ei). lia.
Qed.

Lemma address_return_spec k st v4 x : holds k st -> x ∈ q_waiting st ->
  yields (query_address_return v4 x st) (fun r => holds k (snd r)).
Proof.
  intros H Hw. unfold query_address_return. eapply st_seq; [by apply generic_return_spec|].
  intros [[|r l]|] st' H'; [done| |done]. eapply st_seq; [by apply results_free_spec|]. by intros [] st2 H2.
Qed.

(** * All of it *)

Lemma over_later now now' s : (now <= now')%Z -> over now s -> over now' s.
Proof. unfold over. intros Hle [?|?]; [by left|right; lia]. Qed.

Lemma wait_spec k st ms : holds k st -> (steady = true -> 0 <= ms /\ 0 <= q_now st + ms < 2 ^ 32)%Z ->
  holds k (set_q_now st (u32 (q_now st + ms))).
Proof.
  intros H Hms. destruct H as [Hok Hn Hh Ho Ht]. split; qfields; try done.
  - intros Hs x s Hx Hoff. destruct (Hms Hs). eapply over_later; [|by eapply Ho]. unfold u32. rewrite Z.mod_small; lia.
  - intros Hs. eapply Forall_impl; [by apply Ht|]. intros [f s] [Hov ?]. split; [|done]. destruct (Hms Hs).
    eapply over_later; [|exact Hov]. unfold u32. rewrite Z.mod_small; lia.
Qed.

Lemma perform_query_spec st op : query_ok nf steady base st -> query_op_ok steady st op ->
  yields (perform_query cfg netif_of junk MDNS_MAX_INTERFACES addr op st) (fun r => query_ok nf steady base (snd r)).
Proof.
  intros H Hop. unfold query_ok in *. destruct op; cbn [perform_query query_op_ok] in *.
  - eapply st_seq; [by apply async_new_spec|]. by intros r st' H'.
  - eapply st_seq; [by apply generic_spec|]. by intros r st' H'.
  - eapply st_seq; [by apply generic_return_spec|]. by intros r st' H'.
  - eapply st_seq; [by apply address_return_spec|]. by intros r st' H'.
  - destruct Hop. eapply st_seq; [by apply async_delete_spec|]. by intros r st' H'.
  - destruct Hop. eapply st_seq; [by apply get_results_spec|]. by intros r st' H'.
  - by apply results_free_spec.
  - by apply start_stop_spec.
  - by apply query_turn_spec.
  - by apply rx_packet_spec.
  - cbn. eapply qholds_frame; [exact H|done..].
  - cbn. by apply wait_spec.
Qed.

End Proofs.
