(* ===== verification/QueryLive.v ===== *)
(** Searches: the states that can be reached, when a search ends, and that it does. *)
From S2P Require Import Prelude Names Server Encode Heap Txt Answers AnswersProofs State Received Cache CacheTree Browse Query QueryProofs QuerySafe QueryRun.

(** The querier before the first search. *)
Definition querier_init (h : heap) (now : Z) (accepts : list bool) (inited : mdns_if_t -> mdns_ip_protocol_t -> bool) : querier :=
  mk_querier h now [] [] [] accepts inited [] [] [] [].

Section Reach.
Context (cfg : config) (netif_of : mdns_if_t -> netif) (junk : nat -> option host_ref) (MDNS_MAX_INTERFACES : nat).
Context (addr : list positive -> positive).
Hypothesis addr_new : forall l, addr l ∉ l.

Abbreviation perform := (perform_query cfg netif_of junk MDNS_MAX_INTERFACES addr).

Section Step.
Context (nf steady : bool) (base : Z).

(** The states that any order of operations leads to. *)
Inductive query_reaches : querier -> Prop :=
| reaches_init h now accepts inited : live h = base -> (nf = true -> never_fails h) ->
    query_reaches (querier_init h now accepts inited)
| reaches_step st op st' : query_reaches st -> query_op_ok steady st op -> perform op st = Ret (tt, st') ->
    query_reaches st'.

Lemma init_ok h now accepts inited : live h = base -> (nf = true -> never_fails h) ->
  query_ok nf steady base (querier_init h now accepts inited).
Proof.
  intros Hh Hn. split; cbn [querier_init q_heap q_now q_searches s_search_once q_actions q_notified q_given q_waiting]; try done.
  - split; try done; try apply NoDup_nil_2; by intros ? ?%elem_of_nil.
  - exists 0%Z. split_and!; try done. cbn. lia.
Qed.

Lemma reaches_ok st : query_reaches st -> query_ok nf steady base st.
Proof using addr_new.
  induction 1 as [h now accepts inited Hh Hn|st op st' _ IH Hop Hrun]; [by apply init_ok|].
  pose proof (perform_query_spec cfg netif_of junk MDNS_MAX_INTERFACES addr addr_new nf steady base st op IH Hop) as Hp.
  by rewrite Hrun in Hp.
Qed.

End Step.

(** C28.  However searches are started, deleted and read out, whatever packets
    arrive, whenever the timer and the service task run and whichever allocations
    and queue operations fail: every step returns, never follows a pointer to a
    search that was freed, and keeps searches, list, actions, waiting tasks and
    heap consistent; blocks are lost only when an allocation failed. *)
Theorem query_safe nf steady base st op : query_reaches nf steady base st -> query_op_ok steady st op ->
  query_ok nf steady base st /\ exists st', perform op st = Ret (tt, st') /\ query_reaches nf steady base st'
    /\ query_ok nf steady base st'.
Proof using addr_new.
  intros Hst Hop. pose proof (reaches_ok _ _ _ _ Hst) as Hok. split; [done|].
  pose proof (perform_query_spec cfg netif_of junk MDNS_MAX_INTERFACES addr addr_new nf steady base st op Hok Hop) as Hp.
  destruct (perform op st) as [[[] st']| | |] eqn:E; try done. exists st'. split; [done|]. split; [|exact Hp].
  by eapply reaches_step.
Qed.

(** The search has the results it was started for. *)
Definition has_enough (s : mdns_search_once_t) : Prop := (sr_max_results s <> 0 /\ sr_max_results s <= sr_num_results s)%Z.

(** The end of its time is before the wrap-around of the clock. *)
Definition ends_in_range (s : mdns_search_once_t) : Prop := (0 <= sr_started_at s + sr_timeout s < 2 ^ 32)%Z.

(** It has them, or its time is over: the time itself when it ends before the clock
    wraps around, and else the time modulo 2^32, which is what the code compares. *)
Definition may_end (now : Z) (s : mdns_search_once_t) : Prop :=
  over now s /\ (ends_in_range s -> has_enough s \/ (sr_started_at s + sr_timeout s < now)%Z).

Lemma over_may_end now s : over now s -> may_end now s.
Proof.
  intros Ho. split; [exact Ho|]. unfold ends_in_range. intros Hr. destruct Ho as [?|Ho]; [by left|]. right.
  unfold u32 in Ho. by rewrite Z.mod_small in Ho.
Qed.

(** C29.  In every state that is reached while the clock does not wrap around, for a search
    whose time (start plus timeout) ends before 2^32 ms: its results are handed out
    only when it has as many as it was started for, or its time is over; the same
    holds of every call of a notifier.  For a search whose time ends later, the time
    that has to be over is the one the code computes, modulo 2^32. *)
Theorem results_when_over nf base st x l n st' : query_reaches nf true base st ->
  mdns_query_async_get_results x st = Ret (Some (l, n), st') ->
  (exists s, assoc x (q_searches st) = Some s /\ may_end (q_now st) s /\ l = sr_result s /\ (x ∉ s_search_once st))
  /\ Forall (fun t => may_end (q_now st) (snd t)) (q_notified st).
Proof using addr_new.
  intros Hst Hrun. pose proof (reaches_ok _ _ _ _ Hst) as [Hok _ _ Ho Ht]. split.
  - unfold mdns_query_async_get_results, get_search, mbind, ST_bind, asks in Hrun.
    destruct (assoc x (q_searches st)) as [s|] eqn:Hs; [|done]. cbn [deref] in Hrun.
    destruct (sr_done_semaphore s) eqn:Ed; [|done]. destruct (so_done _ _ _ _ Hok x s Hs Ed) as [Hoff Hout].
    exists s. split_and!; try done; [by apply over_may_end, (Ho eq_refl x s)|]. revert Hrun.
    unfold put_search, get_search, mbind, ST_bind, asks, writes, mret, ST_ret. cbn [negb]. rewrite Hs. cbn. by intros [= <- _ _].
  - eapply Forall_impl; [by apply Ht|]. intros t [? _]. by apply over_may_end.
Qed.

(** * A search that is due ends *)

Section Live.
Context (base : Z) (steady : bool).
Abbreviation ok := (query_ok true steady base).

Lemma alter_at_id {A} x (l : list (positive * A)) : alter_at x (fun a => a) l = l.
Proof.
  unfold alter_at. induction l as [|[y a] l IH]; cbn [map fst snd]; [done|]. rewrite IH. by case_decide.
Qed.

(** What the timer does to one search when the queue takes its actions. *)
Definition ticked (now : Z) (y : qid) (st st' : querier) : Prop :=
  q_accepts st' = [] /\ s_search_once st' = s_search_once st /\ q_now st' = q_now st /\ q_notified st' = q_notified st
  /\ length (q_actions st') <= S (length (q_actions st))
  /\ exists f, q_searches st' = alter_at y f (q_searches st)
      /\ forall s, assoc y (q_searches st) = Some s ->
           sr_notifier (f s) = sr_notifier s /\ sr_started_at (f s) = sr_started_at s /\ sr_timeout (f s) = sr_timeout s
           /\ (sr_state s = SEARCH_OFF \/ (u32 (sr_started_at s + sr_timeout s) < now)%Z -> sr_state (f s) = SEARCH_OFF).

Lemma start_stop_one_ticked st y : ok st -> q_accepts st = [] -> y ∈ s_search_once st ->
  yields (start_stop_one (q_now st) y st) (fun r => ok (snd r) /\ ticked (q_now st) y st (snd r)).
Proof.
  intros H Ha Hy. apply yields_and.
  { eapply yields_mono; [by apply (start_stop_one_spec true steady base 0)|]. by intros r [? _]. }
  destruct (so_alloc _ _ _ _ (qo_ok _ _ _ _ _ H) y Hy) as [s Hs]. unfold start_stop_one. eapply q_get; [exact Hs|].
  assert (Hstay : (sr_state s = SEARCH_OFF \/ (u32 (sr_started_at s + sr_timeout s) < q_now st)%Z -> sr_state s = SEARCH_OFF) ->
    ticked (q_now st) y st st).
  { intros Hoff. unfold ticked. split_and!; try done; [lia|]. exists (fun s => s). rewrite alter_at_id. split; [done|].
    intros t Ht. assert (t = s) as -> by congruence. done. }
  assert (Hsend : forall a f, (sr_notifier (f s) = sr_notifier s /\ sr_started_at (f s) = sr_started_at s /\ sr_timeout (f s) = sr_timeout s
      /\ (sr_state s = SEARCH_OFF \/ (u32 (sr_started_at s + sr_timeout s) < q_now st)%Z -> sr_state (f s) = SEARCH_OFF)) ->
    forall k : bool -> Q unit, k true = mret tt ->
    yields ((put_search y f ≫= fun _ => send_search_action a y ≫= k) st) (fun r => ticked (q_now st) y st (snd r))).
  { intros a f Hf k Hk. eapply q_put; [exact Hs|]. eapply (send_action_spec true); [apply (qo_nf _ _ _ _ _ H)|].
    intros ok h rest _ _ Hok. destruct (Hok eq_refl Ha) as [-> ->]. rewrite Hk. unfold ticked, queued. cbn. qfields.
    split_and!; try done; [rewrite length_app; cbn; lia|]. exists f. split; [done|]. intros t Ht.
    assert (t = s) as -> by congruence. done. }
  destruct (decide (sr_state s = SEARCH_OFF)) as [Hoff|Hrun]; [rewrite bool_decide_eq_true_2 by done; by apply Hstay|].
  rewrite bool_decide_eq_false_2 by done. case_on_goal; [by apply Hsend|]. case_on_goal.
  - apply Hsend; [|done]. split_and!; try done. intros [?|?]; [done|lia].
  - apply Hstay. intros [?|?]; [done|lia].
Qed.

(** The time of [x] is over, and its notifier was not called. *)
Definition due (x : qid) (f : option positive) (st : querier) : Prop :=
  x ∈ s_search_once st /\ exists s, assoc x (q_searches st) = Some s /\ sr_notifier s = f
    /\ (u32 (sr_started_at s + sr_timeout s) < q_now st)%Z.

Definition is_off (x : qid) (st : querier) : Prop := exists s, assoc x (q_searches st) = Some s /\ sr_state s = SEARCH_OFF.

Lemma ticked_due st st' now x y f : ticked now y st st' -> due x f st -> due x f st'.
Proof.
  intros (_ & Hl & Hn & _ & _ & g & Hg & Hkeep) (Hin & s & Hs & Hf & Hd). split; [by rewrite Hl|]. rewrite Hg, Hn, assoc_alter_at.
  case_decide as Hxy; [|eauto]. subst y. destruct (Hkeep s Hs) as (H1 & H2 & H3 & _). rewrite Hs. exists (g s).
  rewrite H1, H2, H3. done.
Qed.

Lemma ticked_off st st' y x f : ticked (q_now st) y st st' -> due x f st -> is_off x st \/ x = y -> is_off x st'.
Proof.
  intros (_ & _ & _ & _ & _ & g & Hg & Hkeep) (_ & s & Hs & _ & Hd) Hoff. unfold is_off. rewrite Hg, assoc_alter_at.
  case_decide as Hxy; [|destruct Hoff; [done|congruence]]. subst y. destruct (Hkeep s Hs) as (_ & _ & _ & H4). rewrite Hs. exists (g s).
  split; [done|]. apply H4. by right.
Qed.

Lemma timer_ends x f l st : forall n, ok st -> q_accepts st = [] -> (forall y, y ∈ l -> y ∈ s_search_once st) -> due x f st ->
  length (q_actions st) + length l <= n ->
  yields (iter l (start_stop_one (q_now st)) st) (fun r => ok (snd r) /\ due x f (snd r)
    /\ length (q_actions (snd r)) <= n /\ (is_off x st \/ x ∈ l -> is_off x (snd r))).
Proof.
  revert st. induction l as [|y l IH]; intros st n H Ha Hl Hd Hlen; cbn [iter length] in *.
  - cbn. split_and!; try done; [lia|]. by intros [?|?%elem_of_nil].
  - eapply st_seq; [apply start_stop_one_ticked; [done..|]; apply Hl; left|]. intros [] st1 [H1 Ht]. cbn [snd] in *.
    pose proof Ht as (Ha1 & Hl1 & Hn1 & _ & Hlen1 & _). rewrite <- Hn1.
    eapply yields_mono; [apply (IH st1 n)|]; try done.
    + rewrite Hl1. intros z Hz. apply Hl. by right.
    + by eapply ticked_due.
    + lia.
    + intros r (? & ? & ? & Hoff). split_and!; try done. intros Hx. apply Hoff.
      destruct Hx as [Hx|[->|Hx]%elem_of_cons]; [left|left|by right]; eapply ticked_off; eauto.
Qed.

(** [x] has ended, or the action that ends it is waiting. *)
Definition has_ended (x : qid) (f : option positive) (st : querier) : Prop :=
  (exists s, assoc x (q_searches st) = Some s /\ sr_done_semaphore s = true) /\ (x ∉ s_search_once st)
  /\ forall g, f = Some g -> exists s, (g, s) ∈ q_notified st.

Definition ending (x : qid) (f : option positive) (st : querier) : Prop :=
  has_ended x f st
  \/ x ∈ s_search_once st /\ (ACTION_SEARCH_END, x) ∈ q_actions st
     /\ exists s, assoc x (q_searches st) = Some s /\ sr_notifier s = f.

(** What an action does. *)
Definition acted (a : search_action * qid) (st st' : querier) : Prop :=
  match a with
  | (ACTION_SEARCH_ADD, y) => q_searches st' = q_searches st /\ s_search_once st' = y :: s_search_once st
      /\ q_notified st' = q_notified st
  | (ACTION_SEARCH_SEND, _) => q_searches st' = q_searches st /\ s_search_once st' = s_search_once st
      /\ q_notified st' = q_notified st
  | (ACTION_SEARCH_END, y) =>
      if decide (y ∈ s_search_once st) then
        exists s, assoc y (q_searches st) = Some s /\ q_searches st' = alter_at y ended (q_searches st)
          /\ s_search_once st' = without y (s_search_once st) /\ exists l, q_notified st' = q_notified st ++ l
          /\ forall g, sr_notifier s = Some g -> exists t, (g, t) ∈ l
      else q_searches st' = q_searches st /\ s_search_once st' = s_search_once st /\ q_notified st' = q_notified st
  end.

Lemma action_acted st a rest : ok st -> q_actions st = a :: rest ->
  yields (mdns_priv_query_action cfg netif_of junk MDNS_MAX_INTERFACES a (set_q_actions st rest))
    (fun r => acted a st (snd r) /\ q_actions (snd r) = rest).
Proof.
  intros H Ha. pose proof (qo_ok _ _ _ _ _ H) as Hok. rewrite Ha in Hok. destruct a as [[] x]; cbn [mdns_priv_query_action acted].
  - destruct (so_add _ _ _ _ Hok x ltac:(left)) as (_ & s & Hs & _). unfold search_add. by eapply q_get.
  - eapply yields_mono; [apply (search_send_spec cfg netif_of junk MDNS_MAX_INTERFACES true steady base 1)|].
    + apply (holds_pop true steady base 0 st _ rest H Ha). by eapply so_pop_other.
    + intros r (_ & Hs & Hl & Hac & Hn & _). by split_and!.
  - destruct (decide (x ∈ s_search_once st)) as [Hin|Hin].
    + destruct (so_alloc _ _ _ _ Hok x Hin) as [s Hs].
      rewrite (search_finish_eq x s (set_q_actions st rest) _ _ Hok) by done. unfold finished. cbn. qfields. split; [|done].
      exists s. split_and!; try done. eexists. split; [done|]. intros g ->. eexists. left.
    + unfold search_finish, search_is_in_list. eapply st_asks; [apply search_in_eq, (so_alloc _ _ _ _ Hok)|].
      by rewrite bool_decide_eq_false_2.
Qed.

Lemma acted_ending st st' a rest x f : ok st -> q_actions st = a :: rest -> q_actions st' = rest -> acted a st st' ->
  ending x f st -> ending x f st'.
Proof.
  intros H Ha Ha' Hact He. pose proof (qo_ok _ _ _ _ _ H) as Hok. rewrite Ha in Hok. destruct a as [[] y]; cbn [acted] in Hact.
  - destruct Hact as (Hs & Hl & Hn). destruct (so_add _ _ _ _ Hok y ltac:(left)) as (Hyl & t & Ht & Hi).
    destruct He as [((s & Hx & Hd) & Hout & Htold)|(Hin & Hend & Hx)]; [left|right].
    + split_and!; [rewrite Hs; eauto| |by rewrite Hn]. rewrite Hl, not_elem_of_cons. split; [|done]. intros ->.
      assert (t = s) as -> by congruence. destruct (so_done _ _ _ _ Hok y s Hx Hd). congruence.
    + rewrite Hs, Hl, Ha'. rewrite Ha in Hend. apply elem_of_cons in Hend as [[=]|Hend]. split_and!; try done. by right.
  - destruct Hact as (Hs & Hl & Hn). destruct He as [He|(Hin & Hend & Hx)]; [left|right].
    + unfold has_ended in *. by rewrite Hs, Hl, Hn.
    + rewrite Hs, Hl, Ha'. rewrite Ha in Hend. by apply elem_of_cons in Hend as [[=]|Hend].
  - destruct (decide (y ∈ s_search_once st)) as [Hy|Hy].
    + destruct Hact as (s & Hs & Hobjs & Hl & l & Hn & Htell).
      destruct He as [((t & Hx & Hd) & Hout & Htold)|(Hin & Hend & t & Hx & Hf)].
      * left. split_and!.
        -- rewrite Hobjs, (assoc_put _ _ _ _ _ Hs). case_decide; eauto.
        -- rewrite Hl, elem_without. tauto.
        -- intros g Hg. destruct (Htold g Hg) as [u Hu]. exists u. rewrite Hn. elems.
      * destruct (decide (x = y)) as [->|Hne]; [left|right].
        -- split_and!.
           ++ rewrite Hobjs, (assoc_put _ _ _ _ _ Hs), decide_True by done. eauto.
           ++ rewrite Hl, elem_without. tauto.
           ++ intros g Hg. destruct (Htell g) as [u Hu]; [congruence|]. exists u. rewrite Hn. elems.
        -- rewrite Hl, Ha', elem_without, Hobjs, (assoc_put _ _ _ _ _ Hs), decide_False by done.
           rewrite Ha in Hend. apply elem_of_cons in Hend as [[=]|Hend]; [done|]. split_and!; eauto.
    + destruct Hact as (Hs & Hl & Hn). destruct He as [He|(Hin & Hend & Hx)]; [left|right].
      * unfold has_ended in *. by rewrite Hs, Hl, Hn.
      * rewrite Hs, Hl, Ha'. rewrite Ha in Hend. apply elem_of_cons in Hend as [[= ->]|Hend]; done.
Qed.

(** The task works through its queue. *)
Lemma turns_end x f : forall n st, ok st -> ending x f st -> length (q_actions st) <= n ->
  yields (iter (repeat QTurn n) perform st) (fun r => ok (snd r) /\ has_ended x f (snd r)).
Proof using addr_new.
  induction n as [|n IH]; intros st H He Hn; cbn [repeat iter].
  - split; [done|]. destruct He as [He|(_ & Hend & _)]; [done|]. destruct (q_actions st); [by apply elem_of_nil in Hend|cbn in Hn; lia].
  - eapply (st_seq _ _ _ (fun r => ok (snd r) /\ ending x f (snd r) /\ length (q_actions (snd r)) <= n)).
    + apply yields_and; [by apply (perform_query_spec cfg netif_of junk MDNS_MAX_INTERFACES addr addr_new true steady base)|].
      cbn [perform_query]. unfold query_turn. apply st_reads. destruct (q_actions st) as [|a rest] eqn:Ha.
      * cbn. split; [done|]. rewrite Ha. cbn. lia.
      * apply st_writes. eapply st_seq; [by apply action_acted|]. intros [] st1 [Hact Ha1]. cbn. cbn [snd] in *. split.
        -- exact (acted_ending st st1 a rest x f H Ha Ha1 Hact He).
        -- qfields. rewrite Ha1. cbn in Hn. lia.
    + intros [] st1 (H1 & He1 & Hn1). by apply IH.
Qed.

End Live.

(** C30.  With memory and room in the queue, a search whose time is over ends: after
    the next tick of the timer, and when the task has worked through its queue,
    the search is out of the list, its semaphore is given and its notifier was
    called. *)
Theorem search_ends steady base st x s : query_reaches true steady base st -> q_accepts st = [] ->
  x ∈ s_search_once st -> assoc x (q_searches st) = Some s -> (u32 (sr_started_at s + sr_timeout s) < q_now st)%Z ->
  yields (iter (QTick :: repeat QTurn (length (q_actions st) + length (s_search_once st))) perform st) (fun r =>
    query_ok true steady base (snd r) /\ has_ended x (sr_notifier s) (snd r)).
Proof using addr_new.
  intros Hst Ha Hin Hs Hd. pose proof (reaches_ok _ _ _ _ Hst) as H. cbn [iter perform_query].
  unfold mdns_priv_query_start_stop. apply st_assoc, st_reads, st_assoc, st_reads.
  eapply st_seq; [apply (timer_ends base steady x (sr_notifier s)); [done..| |exact (le_n _)]|].
  { split; [done|]. by exists s. }
  intros [] st1 (H1 & (Hin1 & t & Ht & Hf & _) & Hlen & Hoff). cbn [snd] in *. apply (turns_end base steady); [done| |done].
  right. split_and!; [done| |by exists t]. destruct (Hoff (or_intror Hin)) as (u & Hu & Ho).
  by apply (so_end _ _ _ _ (qo_ok _ _ _ _ _ H1) x u Hin1 Hu).
Qed.

End Reach.
