(* ===== verification/QueryCollect.v ===== *)
(** Searches: a service that answers a search for its type is found. *)
From S2P Require Import Prelude Names Server Encode Heap Txt TxtRoundtrip Answers AnswersProofs State Received Cache CacheTree Browse Query QueryProofs QuerySafe QueryRun.

(** * The functions that collect, with memory *)

Lemma hn_malloc_true : hspecn true malloc (fun ok _ => ok = true).
Proof. eapply hn_mono; [apply hn_malloc|]. intros [] n [_ Hn]; [done|]. by specialize (Hn eq_refl). Qed.

Lemma strdup_true s : hspecn true (mdns_mem_strdup s) (fun r _ => r = Some s).
Proof. eapply hn_mono; [apply hn_strdup|]. intros r n (_ & Hr & _). by apply Hr. Qed.

Lemma find_index_first {A} (f : A -> bool) x l : f x = true -> find_index f (x :: l) = Some 0.
Proof. cbn. by intros ->. Qed.

Lemma find_index_absent {A} (f : A -> bool) l : Forall (fun x => f x = false) l -> find_index f l = None.
Proof. induction 1 as [|x l Hx _ IH]; cbn; [done|]. by rewrite Hx, IH. Qed.

Section Collect.
Context (esp_netif : netif) (ip_protocol : mdns_ip_protocol_t).

Lemma result_here_new ttl i sv pr h port txt ips st :
  result_here esp_netif ip_protocol (mk_result esp_netif ttl ip_protocol i sv pr h port txt ips st) = true.
Proof. unfold result_here. cbn. by rewrite !bool_decide_eq_true_2. Qed.

Lemma same_string_refl s : s <> [] -> same_string s (Some s) = true.
Proof. intros Hs. unfold same_string. rewrite strcaseeq_refl. by destruct s. Qed.

(** A result for a name that has none yet. *)
Lemma add_ptr_new s i sv pr ttl : takes_result s = true ->
  Forall (fun r => result_here esp_netif ip_protocol r && same_string i (rs_instance_name r) = false) (sr_result s) ->
  hspecn true (mdns_priv_query_result_add_ptr s i sv pr esp_netif ip_protocol ttl) (fun r _ =>
    snd r = add_result (mk_result esp_netif ttl ip_protocol (Some i) (Some sv) (Some pr) None 0 [] [] None) s).
Proof.
  intros Ht Hnew. unfold mdns_priv_query_result_add_ptr. rewrite find_index_absent, Ht by done.
  eapply hn_seq; [apply hn_malloc_true|]. intros ? ? ->. cbn [negb].
  eapply hn_seq; [apply strdup_true|]. intros ? ? ->. eapply hn_seq; [apply strdup_true|]. intros ? ? ->.
  eapply hn_seq; [apply strdup_true|]. intros ? ? ->. by apply hn_done.
Qed.

(** The first result is the one of the owner. *)
Lemma ptr_result_first s owner r l ttl : sr_result s = r :: l -> result_here esp_netif ip_protocol r = true ->
  rs_instance_name r = Some (host owner) ->
  hspecn true (ptr_result s owner esp_netif ip_protocol ttl) (fun x _ => x = (Some 0, s)).
Proof.
  intros Hs Hh Hi. unfold ptr_result. rewrite Hs, find_index_first; [by apply hn_done|].
  by rewrite Hh, bool_decide_eq_true_2.
Qed.

Lemma rx_srv_first s owner target port r l ttl : sr_type s = MDNS_TYPE_PTR -> sr_result s = r :: l ->
  result_here esp_netif ip_protocol r = true -> rs_instance_name r = Some (host owner) -> rs_hostname r = None ->
  hspecn true (rx_search_srv s owner target port esp_netif ip_protocol ttl) (fun x _ =>
    snd x = set_sr_results s (sr_num_results s) (set_rs_hostname (set_rs_port r port) (Some (host target)) :: l)).
Proof.
  intros Ht Hs Hh Hi Hn. unfold rx_search_srv. rewrite Ht, Z.eqb_refl.
  eapply hn_seq; [by eapply ptr_result_first|]. intros ? ? ->. cbn [fst snd]. rewrite Hs. cbn. rewrite Hn.
  eapply hn_seq; [apply strdup_true|]. intros ? ? ->. apply hn_done. cbn. unfold alter_result. by rewrite Hs.
Qed.

Lemma rx_txt_first s owner items r l ttl : sr_type s = MDNS_TYPE_PTR -> sr_result s = r :: l ->
  result_here esp_netif ip_protocol r = true -> rs_instance_name r = Some (host owner) -> rs_txt r = [] ->
  items <> [] -> Forall txt_item_ok items -> (Z.of_nat (length (txt_bytes items)) < 65536)%Z ->
  hspecn true (rx_search_txt s owner (txt_bytes items) esp_netif ip_protocol ttl) (fun x _ =>
    snd x = set_sr_results s (sr_num_results s) (set_rs_txt r (map received items) :: l)).
Proof.
  intros Ht Hs Hh Hi Hn Hne Hok H16. unfold rx_search_txt. rewrite Ht, Z.eqb_refl.
  eapply hn_seq; [by eapply ptr_result_first|]. intros ? ? ->. cbn [fst snd]. rewrite Hs. cbn. rewrite Hn.
  assert (Hat : items_at (txt_bytes items) (length (txt_bytes items)) 0 items).
  { split_and!; [done| |done]. exists []. by rewrite app_nil_r, drop_0. }
  eapply (hn_seq _ _ (fun x _ => x = map received items)).
  { intros h Hnf. specialize (Hnf eq_refl). destruct (txt_create_wire _ _ H16 items h Hne Hat Hnf) as [h' E]. rewrite E. split; [|done].
    intros _. exact (txt_create_stays _ _ _ _ _ Hnf E). }
  intros ? ? ->. destruct items as [|t items]; [done|]. apply hn_done. cbn. unfold alter_result. by rewrite Hs.
Qed.

(** The address of the host of the first result. *)
Lemma add_ip_first s h ip r l ttl : sr_type s = MDNS_TYPE_PTR -> sr_result s = r :: l -> h <> [] ->
  result_here esp_netif ip_protocol r = true -> rs_hostname r = Some h -> rs_addr r = [] ->
  hspecn true (mdns_priv_query_result_add_ip s h ip esp_netif ip_protocol ttl) (fun x _ =>
    snd x = set_sr_results s (sr_num_results s) (mdns_priv_query_update_result_ttl ttl (set_rs_addr r [ip]) :: l)).
Proof.
  intros Ht Hs Hne Hh Hn Ha. unfold mdns_priv_query_result_add_ip. rewrite Ht. cbn [orb andb Z.eqb Pos.eqb MDNS_TYPE_PTR MDNS_TYPE_A MDNS_TYPE_AAAA MDNS_TYPE_ANY].
  rewrite Hs, find_index_first; [|by rewrite Hh, Hn, same_string_refl]. unfold add_ip_at. rewrite Hs. cbn [lookup list_lookup].
  unfold result_add_ip, mdns_priv_result_addr_create_ip. rewrite Ha. cbn [existsb].
  eapply (hn_seq _ _ (fun x _ => x = set_rs_addr r [ip])).
  { eapply hn_seq; [apply hn_malloc_true|]. intros ? ? ->. by apply hn_done. }
  intros ? ? ->. apply hn_done. cbn [snd]. unfold alter_result. by rewrite Hs.
Qed.

End Collect.

(** * A packet *)

(** The name is that of the service searched for. *)
Definition same_service (name : mdns_name_t) (s : mdns_search_once_t) : Prop :=
  exists sv pr, sr_service s = Some sv /\ sr_proto s = Some pr /\ split_service sv = None
    /\ strcaseeq (service name) sv = true /\ strcaseeq (proto name) pr = true.

(** What a responder sends for a service: its instance, host, port and items, and
    the address of the host. *)
Definition service_records (owner inst hostn : mdns_name_t) (priority weight port : Z)
    (items : list mdns_txt_linked_item_t) (ip : esp_ip_addr_t) (ttl ttl_srv ttl_txt ttl_ip : Z) : list rx_record :=
  [RxPtr owner inst ttl; RxSrv inst hostn priority weight port ttl_srv; RxTxt inst (txt_bytes items) ttl_txt;
   RxAddr hostn ip ttl_ip].

Section Packet.
Context (cfg : config) (steady : bool) (base : Z) (n : netif) (p : mdns_ip_protocol_t).

(** The only search in the list is [s]. *)
Definition only_search (x : qid) (s : mdns_search_once_t) (st : querier) : Prop :=
  query_ok true steady base st /\ s_search_once st = [x] /\ assoc x (q_searches st) = Some s.

Lemma search_matches_service s name type : sr_type s = MDNS_TYPE_PTR -> sr_state s <> SEARCH_OFF -> same_service name s ->
  type = MDNS_TYPE_PTR \/ type = MDNS_TYPE_SRV \/ type = MDNS_TYPE_TXT -> search_matches cfg s name type n p = Ret true.
Proof.
  intros Ht Hrun (sv & pr & Hsv & Hpr & Hsplit & Es & Ep) Hty. unfold search_matches. rewrite bool_decide_eq_false_2 by done.
  rewrite Ht, Hsv, Hpr. unfold deref. cbn [mbind outcome_bind]. rewrite Es, Ep, Hsplit.
  destruct Hty as [->|[->| ->]]; cbn; [|done|done]. by destruct (host name).
Qed.

Lemma search_matches_addr s name type r l : sr_type s = MDNS_TYPE_PTR -> sr_state s <> SEARCH_OFF -> sr_result s = r :: l ->
  result_here n p r = true -> host name <> [] -> rs_hostname r = Some (host name) ->
  type = MDNS_TYPE_A \/ type = MDNS_TYPE_AAAA -> search_matches cfg s name type n p = Ret true.
Proof.
  intros Ht Hrun Hs Hh Hne Hn Hty. unfold search_matches. rewrite bool_decide_eq_false_2 by done. rewrite Ht, Hs.
  assert (Hex : existsb (fun r => bool_decide (rs_esp_netif r = n) && bool_decide (rs_ip_protocol r = p)
                             && negb (mdns_utils_str_null_or_empty (rs_hostname r))
                             && match rs_hostname r with Some h => strcaseeq (host name) h | None => false end) (r :: l) = true).
  { cbn [existsb]. unfold result_here in Hh. rewrite Hh, Hn, strcaseeq_refl. by destruct (host name). }
  rewrite Hex. by destruct Hty as [->| ->].
Qed.

(** One record for the only search. *)
Lemma record_step x s s' r st : only_search x s st -> sr_state s <> SEARCH_OFF -> rx_ok r ->
  search_matches cfg s (rx_owner r) (rx_type r) n p = Ret true ->
  hspecn true (match r with
    | RxPtr owner target ttl => rx_search_ptr s target n p ttl
    | RxSrv owner target pri w port ttl => rx_search_srv s owner target port n p ttl
    | RxTxt owner data ttl => rx_search_txt s owner data n p ttl
    | RxAddr owner ip ttl => mdns_priv_query_result_add_ip s (host owner) ip n p ttl
    end) (fun y _ => snd y = s') ->
  yields (rx_search_record cfg n p r st) (fun y => only_search x s' (snd y)).
Proof.
  intros (H & Hl & Hs) Hrun Hok Hm Hf. pose proof (qo_nf _ _ _ _ _ H) as Hnf.
  assert (Hon : forall f : mdns_search_once_t -> Heap.H (unit * mdns_search_once_t), hspecn true (f s) (fun y _ => snd y = s') ->
    yields (on_search x f st) (fun y => s_search_once (snd y) = [x] /\ assoc x (q_searches (snd y)) = Some s')).
  { intros f Hfs. unfold on_search. eapply q_get; [exact Hs|]. eapply st_allocn; [exact Hfs|exact Hnf|]. intros [a s2] h Hs2 _.
    cbn [snd] in Hs2. subst s2. eapply q_put; [exact Hs|]. split; [exact Hl|].
    change (assoc x (alter_at x (fun _ => s') (q_searches st)) = Some s'). by rewrite (assoc_put x x _ _ _ Hs), decide_True. }
  unfold only_search. apply yields_and; [by apply (rx_record_spec cfg true steady base 0)|].
  unfold rx_search_record, mdns_priv_query_find, mdns_priv_query_find_from. apply st_assoc, st_reads.
  rewrite Hl. eapply st_asks; [cbn [query_find_from]; rewrite Hs; cbn [deref mbind outcome_bind]; rewrite Hm; done|].
  destruct r as [owner target ttl|owner target pr w port ttl|owner data ttl|owner ip ttl]; [by apply Hon..|].
  cbn [rx_search_addr length]. eapply st_seq; [by apply Hon|]. intros [] st1 [Hl1 Hs1]. cbn [snd] in *. by eapply st_asks.
Qed.

(** The search ends when it has all its results, and keeps them. *)
Lemma done_step x s st : only_search x s st ->
  yields (mdns_priv_query_done st) (fun y => exists s', assoc x (q_searches (snd y)) = Some s' /\ sr_result s' = sr_result s
    /\ ((sr_max_results s <> 0 /\ sr_max_results s <= sr_num_results s)%Z -> sr_done_semaphore s' = true)).
Proof.
  intros (H & Hl & Hs). unfold mdns_priv_query_done. apply st_reads. rewrite Hl. cbn [iter]. unfold query_done_one.
  apply st_assoc. eapply q_get; [exact Hs|]. case_on_goal.
  - erewrite bind_eq; [|eapply (search_finish_eq x s st); [apply (qo_ok _ _ _ _ _ H)|rewrite Hl; left|exact Hs]].
    exists (ended s). split; [|done]. change (assoc x (alter_at x ended (q_searches st)) = Some (ended s)).
    by rewrite (assoc_put x x _ _ _ Hs), decide_True.
  - exists s. split_and!; [done|done|]. lia.
Qed.

(** C31.  With memory, a search for a service type finds the service that answers:
    when the only search running takes another result and has none of that
    instance, the records of the service, with at least one item, in one packet make
    one result with its name, host,
    port, items and address, in front of the others; if that was the last one
    wanted and the packet is a response, the search ends. *)
Theorem service_found x s st owner inst hostn priority weight port items ip ttl ttl_srv ttl_txt ttl_ip a :
  query_ok true steady base st -> s_search_once st = [x] -> assoc x (q_searches st) = Some s ->
  sr_type s = MDNS_TYPE_PTR -> sr_state s <> SEARCH_OFF -> takes_result s = true ->
  same_service owner s -> same_service inst s -> host inst <> [] -> host hostn <> [] ->
  Forall (fun r => result_here n p r && same_string (host inst) (rs_instance_name r) = false) (sr_result s) ->
  items <> [] -> Forall txt_item_ok items -> Forall byte_ok (txt_bytes items) -> (Z.of_nat (length (txt_bytes items)) < 65536)%Z ->
  yields (rx_search_packet cfg n p a (service_records owner inst hostn priority weight port items ip ttl ttl_srv ttl_txt ttl_ip) st)
    (fun y => exists s', assoc x (q_searches (snd y)) = Some s'
      /\ sr_result s' = mk_result n (if (ttl <? ttl_ip)%Z then ttl else ttl_ip) p (Some (host inst)) (Some (service inst))
                          (Some (proto inst)) (Some (host hostn)) port (map received items) [ip] None :: sr_result s
      /\ (a = true -> (sr_max_results s <> 0 /\ sr_max_results s <= u8 (sr_num_results s + 1))%Z ->
          sr_done_semaphore s' = true)).
Proof.
  intros H Hl Hs Hty Hrun Ht Ho Hi Hin Hhn Hnew Hne Hok Hb H16. unfold rx_search_packet, service_records. cbn [iter].
  apply st_assoc. eapply st_seq.
  { eapply (record_step x s _ (RxPtr owner inst ttl)); [done|done|done|apply search_matches_service; auto|].
    unfold rx_search_ptr. eapply hn_seq; [by apply add_ptr_new|]. intros ? ? E. apply hn_done. exact E. }
  intros [] st1 H1. apply st_assoc. eapply st_seq.
  { eapply (record_step x _ _ (RxSrv inst hostn priority weight port ttl_srv)); [exact H1|done|done|apply search_matches_service; auto|].
    eapply rx_srv_first; [done|reflexivity|apply result_here_new|done|done]. }
  intros [] st2 H2. apply st_assoc. eapply st_seq.
  { eapply (record_step x _ _ (RxTxt inst (txt_bytes items) ttl_txt)); [exact H2|done|done|apply search_matches_service; auto|].
    eapply rx_txt_first; [done|reflexivity|apply result_here_new|done..]. }
  intros [] st3 H3. apply st_assoc. eapply st_seq.
  { eapply (record_step x _ _ (RxAddr hostn ip ttl_ip)); [exact H3|done|done| |].
    - eapply search_matches_addr; [done|done|reflexivity|apply result_here_new|done|done|]. destruct ip; auto.
    - eapply add_ip_first; [done|reflexivity|done|apply result_here_new|done|done]. }
  intros [] st4 H4. cbn [snd] in H4. apply st_ret. destruct a.
  - eapply yields_mono; [by eapply done_step|]. intros y (s' & Hs' & Hr & Hd). exists s'. split_and!; [done|by rewrite Hr|].
    intros _ Hm. by apply Hd.
  - eexists. split_and!; [apply H4|done|done].
Qed.

End Packet.
