(* ===== verification/QueryExamples.v ===== *)
(** Runs of searches: for a web service that one neighbour offers, from the call to
    the result, and what goes wrong at the edges. *)
From S2P Require Import Prelude Names Server Encode Heap Txt TxtRoundtrip Answers State Received Cache CacheTree Browse Client CacheExamples Query QueryProofs QuerySafe QueryRun QueryLive QueryCollect.

Definition one_interface (i : mdns_if_t) (p : mdns_ip_protocol_t) : bool :=
  bool_decide (i = 0) && bool_decide (p = MDNS_IP_PROTOCOL_V4).

Definition no_host (k : nat) : option host_ref := None.

Abbreviation does := (perform_query default_config (fun _ => wlan) no_host 2 next_addr).

Definition ask (timeout max_results : Z) : query_op :=
  QNew None (Some http) (Some tcp) MDNS_TYPE_PTR timeout max_results (Some 7%positive).

Definition a_bcd : mdns_txt_linked_item_t := mk_txt (Some (str "a")) (Some (str "bcd")) 3.

(** The neighbour's response. *)
Definition response : query_op :=
  QPacket wlan over_v4 true
    (service_records service_type service_name host_name 0 0 80 [a_bcd] (IP4 16885952) 120 120 4500 60).

Definition start (fails accepts : list bool) : querier := querier_init (mk_heap fails 0) 1000 accepts one_interface.

Definition search_run (fails accepts : list bool) (ops : list query_op) : outcome (unit * querier) :=
  iter ops does (start fails accepts).

(** The search that [next_addr] places first. *)
Definition first_search : qid := next_addr [].

(** One question goes out, the response ends the search, and nothing is left once
    the results are freed. *)
Example service_is_found :
  match search_run [] [] [ask 3000 1; QTurn; QTick; QTurn; response; QResults first_search; QDelete first_search] with
  | Ret (_, st) => length (q_sent st) = 1 /\ map fst (q_notified st) = [7%positive] /\ q_searches st = []
      /\ map (map (fun r => (rs_instance_name r, rs_hostname r, rs_port r, rs_ttl r))) (q_given st)
         = [[(Some printer, Some (str "host"), 80%Z, 60%Z)]]
      /\ live (q_heap st) = (results_blocks (concat (q_given st)))
  | _ => False
  end.
Proof. vm_compute. repeat split. Qed.

(** Without a response the search ends when its time is over. *)
Example nothing_is_found :
  match search_run [] [] [ask 3000 1; QTurn; QTick; QTurn; QWait 3001; QTick; QTurn; QResults first_search; QDelete first_search] with
  | Ret (_, st) => map fst (q_notified st) = [7%positive] /\ q_searches st = [] /\ q_given st = [] /\ live (q_heap st) = 0%Z
  | _ => False
  end.
Proof. vm_compute. repeat split. Qed.

(** * States reached *)

Definition state_of (m : outcome (unit * querier)) : querier :=
  match m with Ret (_, st) => st | _ => start [] [] end.

Abbreviation reached := (query_reaches default_config (fun _ => wlan) no_host 2 next_addr).

Lemma reached_one nf steady base st op : reached nf steady base st -> query_op_ok steady st op ->
  is_Some (match does op st with Ret x => Some x | _ => None end) -> reached nf steady base (state_of (does op st)).
Proof.
  intros Hst Hop [x Hx]. destruct (does op st) as [[[] st']| | |] eqn:E; try done. cbn. by eapply reaches_step.
Qed.

Lemma args_ask : args_ok None (Some http) MDNS_TYPE_PTR.
Proof. split_and!; [by intros [?|?]|done|done]. Qed.

(** Asked, and in the list. *)
Definition asked (fails accepts : list bool) : querier :=
  state_of (does QTurn (state_of (does (ask 3000 1) (start fails accepts)))).

Lemma asked_reached nf fails : (nf = true -> fails = []) -> fails = [] \/ fails = repeat false 8 ++ [true] ->
  reached nf true 0 (asked fails []).
Proof.
  intros Hn Hf. apply reached_one; [apply reached_one; [apply reaches_init; [done|exact Hn]|exact args_ask|]|exact I|];
    destruct Hf as [-> | ->]; vm_compute; by eexists.
Qed.

Lemma bytes_a_bcd : Forall byte_ok (txt_bytes [a_bcd]).
Proof. vm_compute txt_bytes. repeat (constructor; [unfold byte_ok; lia|]). constructor. Qed.

Lemma response_ok : Forall rx_ok (service_records service_type service_name host_name 0 0 80 [a_bcd] (IP4 16885952) 120 120 4500 60).
Proof. repeat (constructor; [first [exact I|split; [exact bytes_a_bcd|vm_compute; reflexivity]]|]). constructor. Qed.

Lemma query_safe_witness :
  exists st', does response (asked (repeat false 8 ++ [true]) []) = Ret (tt, st')
    /\ query_ok false true 0 st'.
Proof.
  destruct (query_safe default_config (fun _ => wlan) no_host 2 next_addr next_addr_new false true 0
              (asked (repeat false 8 ++ [true]) []) response) as [_ (st' & Hrun & _ & Hok)].
  - apply asked_reached; [done|by right].
  - exact response_ok.
  - by exists st'.
Defined.

(** Time passes, and the search ends. *)
Definition later : querier := state_of (does (QWait 3001) (asked [] [])).

Lemma later_reached : reached true true 0 later.
Proof.
  apply reached_one; [by apply asked_reached; [|left]| |by eexists]. intros _. vm_compute. split_and!; done.
Qed.

Lemma search_ends_witness :
  yields (iter (QTick :: repeat QTurn 1) does later)
    (fun r => query_ok true true 0 (snd r) /\ has_ended first_search (Some 7%positive) (snd r)).
Proof.
  destruct (assoc first_search (q_searches later)) as [s|] eqn:Hs; [|by vm_compute in Hs].
  assert (Hnot : sr_notifier s = Some 7%positive) by (vm_compute in Hs; by injection Hs as <-).
  rewrite <- Hnot. apply (search_ends default_config (fun _ => wlan) no_host 2 next_addr next_addr_new true 0 later first_search s).
  - exact later_reached.
  - vm_compute. reflexivity.
  - vm_compute. left.
  - exact Hs.
  - vm_compute in Hs. injection Hs as <-. vm_compute. reflexivity.
Defined.

(** Found, and read out. *)
Definition found : querier := state_of (does response (asked [] [])).

Lemma found_reached : reached true true 0 found.
Proof. apply reached_one; [by apply asked_reached; [|left]|exact response_ok|vm_compute; by eexists]. Qed.

Lemma results_when_over_witness :
  exists l n st', mdns_query_async_get_results first_search found = Ret (Some (l, n), st') /\ n = 1%Z
    /\ (exists s, assoc first_search (q_searches found) = Some s
          /\ (has_enough s \/ sr_started_at s + sr_timeout s < q_now found)%Z /\ l = sr_result s)
    /\ Forall (fun t => over (q_now found) (snd t)) (q_notified found).
Proof.
  destruct (mdns_query_async_get_results first_search found) as [[[[l n]|] st']| | |] eqn:E; try by vm_compute in E.
  exists l, n, st'. destruct (results_when_over default_config (fun _ => wlan) no_host 2 next_addr next_addr_new true 0
    found first_search l n st' found_reached E) as [(s & Hs & Ho & Hl & _) Hn].
  split_and!; [done| | |].
  - vm_compute in E. by injection E as _ <- _.
  - exists s. split_and!; [done| |done]. apply Ho. vm_compute in Hs. injection Hs as <-. by vm_compute.
  - eapply Forall_impl; [exact Hn|]. by intros t [? _].
Defined.

Lemma service_found_witness :
  yields (rx_search_packet default_config wlan over_v4 true
      (service_records service_type service_name host_name 0 0 80 [a_bcd] (IP4 16885952) 120 120 4500 60) (asked [] []))
    (fun y => exists s', assoc first_search (q_searches (snd y)) = Some s'
      /\ sr_result s' = [mk_result wlan 60 over_v4 (Some printer) (Some http) (Some tcp) (Some (str "host")) 80
                           [received a_bcd] [IP4 16885952] None]
      /\ sr_done_semaphore s' = true).
Proof.
  destruct (assoc first_search (q_searches (asked [] []))) as [s|] eqn:Hs; [|by vm_compute in Hs].
  eapply yields_mono.
  - apply (service_found default_config true 0 wlan over_v4 first_search s (asked [] []) service_type service_name host_name
             0 0 80 [a_bcd] (IP4 16885952) 120 120 4500 60 true).
    + apply (reaches_ok default_config (fun _ => wlan) no_host 2 next_addr next_addr_new). by apply asked_reached; [|left].
    + vm_compute. reflexivity.
    + exact Hs.
    + vm_compute in Hs. by injection Hs as <-.
    + vm_compute in Hs. by injection Hs as <-.
    + vm_compute in Hs. by injection Hs as <-.
    + vm_compute in Hs. injection Hs as <-. by exists http, tcp.
    + vm_compute in Hs. injection Hs as <-. by exists http, tcp.
    + done.
    + done.
    + vm_compute in Hs. injection Hs as <-. constructor.
    + done.
    + constructor; [|constructor]. repeat (split || constructor); vm_compute; try done; lia.
    + exact bytes_a_bcd.
    + vm_compute. reflexivity.
  - vm_compute in Hs. injection Hs as <-. intros y (s' & H1 & H2 & H3). exists s'. split_and!; [done|exact H2|].
    apply H3; [done|]. vm_compute. by split.
Defined.

(** * Defects *)

(** The copies of the service type and the protocol are lost when the copy of the
    instance name cannot be made. *)
Example instance_copy_fails_leaks :
  match assoc first_search (q_searches (asked [] [])) with
  | Some s => match mdns_priv_query_result_add_ptr s printer http tcp wlan over_v4 120 (mk_heap [false; true] 0) with
              | Ret ((None, s'), h) => s' = s /\ live h = 2%Z
              | _ => False
              end
  | None => False
  end.
Proof. vm_compute. repeat split. Qed.

(** Stopping while the action that ends a search is queued: the search is freed
    with the action, and then followed in the list. *)
Example stop_frees_twice :
  (_ ← iter [ask 3000 1; QTurn; QWait 3001; QTick] does; querier_free) (start [] []) = BadAccess.
Proof. vm_compute. reflexivity. Qed.

(** A search started shortly before the clock wraps around ends at the next tick. *)
Example wrap_ends_at_once :
  match iter [ask 3000 1; QTurn; QTick; QTurn] does (querier_init (mk_heap [] 0) (2 ^ 32 - 100) [] one_interface) with
  | Ret (_, st) => map fst (q_notified st) = [7%positive] /\ s_search_once st = [] /\ q_sent st = []
  | _ => False
  end.
Proof. vm_compute. repeat split. Qed.

(** A limit of 256 results is no limit. *)
Example limit_256_is_none :
  match search_run [] [] [ask 3000 256; QTurn] with
  | Ret (_, st) => map (fun x => sr_max_results (snd x)) (q_searches st) = [0%Z]
  | _ => False
  end.
Proof. vm_compute. reflexivity. Qed.
