(* ===== verification/Responder.v ===== *)
(** The responder: components/mdns/mdns_responder.c, and the goodbye for subtypes of
    mdns_send.c.

    The server of the engine is [s_server]; what its functions do to the transmit
    queue and the control blocks are operations of the engine.  A function that
    returns a pointer to a string or list keeps it; the strings of questions in
    queued packets are copies here, where the code has pointers into the data of
    the responder. *)
From S2P Require Import Prelude Names Encode Heap Txt Collision Answers Engine State Received Cache Browse Query Server.

(** * State *)

(** Actions for the service task, with the strings and lists they own. *)
Inductive responder_action :=
| ACTION_HOSTNAME_SET (h : cstr)
| ACTION_INSTANCE_SET (instance : cstr)
| ACTION_DELEGATE_HOSTNAME_ADD (h : cstr) (addresses : list esp_ip_addr_t)
| ACTION_DELEGATE_HOSTNAME_SET_ADDR (h : cstr) (addresses : list esp_ip_addr_t)
| ACTION_DELEGATE_HOSTNAME_REMOVE (h : cstr).

(** A result of a lookup.  [None] for the TXT items is what a failed copy leaves: a
    count of items, no items, and a freed array. *)
Record lookup_result := mk_lookup {
  lr_ttl : Z;
  lr_instance : option cstr;
  lr_service : cstr;
  lr_proto : cstr;
  lr_hostname : cstr;
  lr_port : Z;
  lr_txt : option (list mdns_txt_linked_item_t);
  lr_addr : list esp_ip_addr_t;
}.

(** The engine with [s_server] and the heap; the callbacks for changes of the host
    name, a function and its argument; their calls; the actions queued and whether
    the queue takes the next ones; [action_sema]; the static buffer of goodbyes
    for subtypes, and those sent; the results of lookups. *)
Record responder := mk_responder {
  r_engine : engine;
  hostname_changed_cbs : list (positive * positive);
  r_called : list (positive * positive * option cstr);
  r_actions : list responder_action;
  r_accepts : list bool;
  action_sema : bool;
  r_pkt : list Z;
  r_raw : list (mdns_if_t * mdns_ip_protocol_t * list Z);
  r_results : list (list lookup_result);
}.

Definition set_engine (r : responder) x := mk_responder x (hostname_changed_cbs r) (r_called r) (r_actions r)
  (r_accepts r) (action_sema r) (r_pkt r) (r_raw r) (r_results r).
Definition set_cbs (r : responder) x := mk_responder (r_engine r) x (r_called r) (r_actions r) (r_accepts r)
  (action_sema r) (r_pkt r) (r_raw r) (r_results r).
Definition set_called (r : responder) x := mk_responder (r_engine r) (hostname_changed_cbs r) x (r_actions r)
  (r_accepts r) (action_sema r) (r_pkt r) (r_raw r) (r_results r).
Definition set_r_actions (r : responder) x := mk_responder (r_engine r) (hostname_changed_cbs r) (r_called r) x
  (r_accepts r) (action_sema r) (r_pkt r) (r_raw r) (r_results r).
Definition set_r_accepts (r : responder) x := mk_responder (r_engine r) (hostname_changed_cbs r) (r_called r)
  (r_actions r) x (action_sema r) (r_pkt r) (r_raw r) (r_results r).
Definition set_sema (r : responder) x := mk_responder (r_engine r) (hostname_changed_cbs r) (r_called r)
  (r_actions r) (r_accepts r) x (r_pkt r) (r_raw r) (r_results r).
Definition set_raw (r : responder) b x := mk_responder (r_engine r) (hostname_changed_cbs r) (r_called r) (r_actions r)
  (r_accepts r) (action_sema r) b x (r_results r).
Definition set_lookups (r : responder) x := mk_responder (r_engine r) (hostname_changed_cbs r) (r_called r)
  (r_actions r) (r_accepts r) (action_sema r) (r_pkt r) (r_raw r) x.

Definition set_server (e : engine) x := mk_engine x (e_heap e) (e_queue e) (e_pcbs e) (e_pending e) (e_now e)
  (e_ready e) (e_duplicate e) (e_netif e) (e_inits e) (e_accepts e) (e_random e) (e_sent e).

#[export] Instance responder_heap : HasHeap responder.
Proof.
  refine {| heap_of := fun r => e_heap (r_engine r); with_heap := fun r h => set_engine r (set_heap (r_engine r) h) |}.
  done.
Defined.

(** The effects of this file. *)
Abbreviation R := (ST responder).

(** An operation of the engine. *)
Definition eng {A} (m : E A) : R A := fun r =>
  match m (r_engine r) with
  | Ret (a, e) => Ret (a, set_engine r e)
  | Failed => Failed
  | BadAccess => BadAccess
  | OutOfFuel => OutOfFuel
  end.

(** [s_server], followed. *)
Definition server : R mdns_server_t := asks (fun r => deref (e_server (r_engine r))).

Definition mdns_priv_is_server_init : R bool := reads (fun r => bool_decide (is_Some (e_server (r_engine r)))).

(** Assignments to fields of [s_server]. *)
Definition put_server (f : mdns_server_t -> mdns_server_t) : R unit :=
  s ← server; writes (fun r => set_engine r (set_server (r_engine r) (Some (f s)))).

Definition with_hostname (s : mdns_server_t) x :=
  mk_server x (s_instance s) (s_services s) (s_hosts s) (mk_host x (address_list (s_self_host s))).
Definition with_instance (s : mdns_server_t) x :=
  mk_server (s_hostname s) x (s_services s) (s_hosts s) (s_self_host s).
Definition with_services (s : mdns_server_t) x :=
  mk_server (s_hostname s) (s_instance s) x (s_hosts s) (s_self_host s).
Definition with_hosts (s : mdns_server_t) x :=
  mk_server (s_hostname s) (s_instance s) (s_services s) x (s_self_host s).

Definition set_srv_instance (s : mdns_service_t) x := mk_service x (srv_service s) (srv_proto s) (srv_hostname s)
  (priority s) (weight s) (port s) (txt s) (subtype s).
Definition set_srv_hostname (s : mdns_service_t) x := mk_service (srv_instance s) (srv_service s) (srv_proto s) x
  (priority s) (weight s) (port s) (txt s) (subtype s).
Definition set_srv_port (s : mdns_service_t) x := mk_service (srv_instance s) (srv_service s) (srv_proto s)
  (srv_hostname s) (priority s) (weight s) x (txt s) (subtype s).
Definition set_srv_txt (s : mdns_service_t) x := mk_service (srv_instance s) (srv_service s) (srv_proto s)
  (srv_hostname s) (priority s) (weight s) (port s) x (subtype s).
Definition set_srv_subtype (s : mdns_service_t) x := mk_service (srv_instance s) (srv_service s) (srv_proto s)
  (srv_hostname s) (priority s) (weight s) (port s) (txt s) x.

(** A service, followed and changed in place. *)
Definition service_at (i : sid) : R mdns_service_t :=
  s ← server; asks (fun _ => deref (assoc i (s_services s))).

Definition put_srv (i : sid) (f : mdns_service_t -> mdns_service_t) : R unit :=
  _ ← service_at i; put_server (fun s => with_services s (alter_at i f (s_services s))).

(** * Blocks *)

Definition subs_blocks (l : list cstr) : Z := (2 * Z.of_nat (length l))%Z.

(** What [free_service] frees. *)
Definition srv_blocks (s : mdns_service_t) : Z :=
  (3 + opt_block (srv_instance s) + opt_block (srv_hostname s) + list_blocks (txt s) + subs_blocks (subtype s))%Z.

Definition free_service (s : mdns_service_t) : R unit := alloc (mfree (srv_blocks s)).

Definition mdns_utils_free_address_list (l : list esp_ip_addr_t) : R unit := alloc (mfree (Z.of_nat (length l))).

(** A delegated host with its name. *)
Definition host_blocks (h : mdns_host_item_t) : Z :=
  (1 + opt_block (hostname h) + Z.of_nat (length (address_list h)))%Z.

Definition action_blocks (a : responder_action) : Z :=
  match a with
  | ACTION_HOSTNAME_SET _ | ACTION_INSTANCE_SET _ | ACTION_DELEGATE_HOSTNAME_REMOVE _ => 1
  | ACTION_DELEGATE_HOSTNAME_ADD _ l | ACTION_DELEGATE_HOSTNAME_SET_ADDR _ l => 1 + Z.of_nat (length l)
  end%Z.

Definition lookup_blocks (l : lookup_result) : Z :=
  (4 + opt_block (lr_instance l) + txt_blocks (default [] (lr_txt l)) + Z.of_nat (length (lr_addr l)))%Z.

(** * Copies *)

Definition mdns_mem_strndup (s : cstr) (n : nat) : H (option cstr) :=
  ok ← malloc; mret (if (ok : bool) then Some (take n s) else None).

Fixpoint mdns_utils_copy_address_list_from (head : list esp_ip_addr_t) (l : list esp_ip_addr_t)
    : H (list esp_ip_addr_t) :=
  match l with
  | [] => mret head
  | a :: l =>
      ok ← malloc;
      if negb ok then _ ← mfree (Z.of_nat (length head)); mret []
      else mdns_utils_copy_address_list_from (head ++ [a]) l
  end.

Definition mdns_utils_copy_address_list (l : list esp_ip_addr_t) : H (list esp_ip_addr_t) :=
  mdns_utils_copy_address_list_from [] l.

(** An item of the array given by the caller, either kind of [mdns_txt_item_type_t]:
    a string, or bytes with their number. *)
Inductive txt_arg :=
| MDNS_TXT_ITEM (k : option cstr) (v : option cstr)
| MDNS_TXT_ITEM_WITH_VALUE_LEN (k : option cstr) (v : option (list Z)) (len : Z).

Definition arg_key (a : txt_arg) : option cstr :=
  match a with MDNS_TXT_ITEM k _ | MDNS_TXT_ITEM_WITH_VALUE_LEN k _ _ => k end.

Definition arg_value (a : txt_arg) : option (list Z) :=
  match a with MDNS_TXT_ITEM _ v | MDNS_TXT_ITEM_WITH_VALUE_LEN _ v _ => v end.

Definition arg_value_len (a : txt_arg) : Z :=
  match a with
  | MDNS_TXT_ITEM _ (Some v) => u8 (Z.of_nat (length v))
  | MDNS_TXT_ITEM_WITH_VALUE_LEN _ (Some _) len => len
  | _ => 0%Z
  end.

(** A copy of [len] bytes of a value, with a zero behind them. *)
Definition copy_value (v : list Z) (len : Z) : H (option (list Z)) :=
  ok ← malloc;
  if negb ok then mret None
  else bs ← hlift (rd_bytes v 0 (Z.to_nat len)); mret (Some (bs ++ [0%Z])).

(** One item; [None] when memory runs out. *)
Definition allocate_txt_item (a : txt_arg) : H (option mdns_txt_linked_item_t) :=
  ok ← malloc;
  if negb ok then mret None
  else
    k ← hlift (deref (arg_key a));
    k ← mdns_mem_strdup k;
    match k with
    | None => _ ← mfree 1; mret None
    | Some k =>
        match arg_value a with
        | None => mret (Some (mk_txt (Some k) None 0))
        | Some v =>
            c ← copy_value v (arg_value_len a);
            match c with
            | None => _ ← mfree 2; mret None
            | Some c => mret (Some (mk_txt (Some k) (Some c) (arg_value_len a)))
            end
        end
    end.

(** The loop of [allocate_txt_base]: the last item comes first, and the first one
    that cannot be allocated ends it. *)
Fixpoint allocate_txt_from (args : option (list txt_arg)) (i n : nat) (new_txt : list mdns_txt_linked_item_t)
    : H (list mdns_txt_linked_item_t) :=
  match n with
  | O => mret new_txt
  | S n =>
      l ← hlift (deref args);
      a ← hlift (deref (l !! i));
      item ← allocate_txt_item a;
      match item with
      | None => mret new_txt
      | Some item => allocate_txt_from args (S i) n (item :: new_txt)
      end
  end.

Definition allocate_txt_base (num_items : nat) (args : option (list txt_arg)) : H (list mdns_txt_linked_item_t) :=
  allocate_txt_from args 0 num_items [].

Section Responder.
Context (cfg : config) (MDNS_MAX_INTERFACES MDNS_MAX_SERVICES : nat) (addr : list positive -> positive).

(** * Starting and stopping *)

Definition new_server : mdns_server_t := mk_server None None [] [] (mk_host None []).

Inductive esp_err := ESP_OK | ESP_ERR_INVALID_ARG | ESP_ERR_INVALID_STATE | ESP_ERR_NO_MEM | ESP_ERR_NOT_FOUND.

(** When the semaphore cannot be created the block is freed, but [s_server] keeps
    its address. *)
Definition mdns_priv_responder_init : R esp_err :=
  ok ← alloc malloc;
  if negb ok then
    _ ← writes (fun r => set_engine r (set_server (r_engine r) None)); mret ESP_ERR_NO_MEM
  else
    _ ← writes (fun r => set_engine r (set_server (r_engine r) (Some new_server)));
    sema ← alloc malloc;
    if negb sema then _ ← alloc (mfree 1); mret ESP_ERR_NO_MEM
    else mret ESP_OK.

Definition hosts_blocks (l : list (hid * mdns_host_item_t)) : Z := foldr (fun x n => host_blocks (snd x) + n)%Z 0%Z l.

Definition free_delegated_hostnames : R unit :=
  s ← server;
  _ ← alloc (mfree (hosts_blocks (s_hosts s)));
  put_server (fun s => with_hosts s []).

Definition free_hostname_changed_callbacks : R unit :=
  l ← reads hostname_changed_cbs;
  _ ← alloc (mfree (Z.of_nat (length l)));
  writes (fun r => set_cbs r []).

(** The semaphore is freed before [s_server] is compared with null. *)
Definition mdns_priv_responder_free : R unit :=
  s ← server;
  _ ← alloc (mfree 1);
  _ ← alloc (mfree (opt_block (s_hostname s)));
  _ ← alloc (mfree (opt_block (s_instance s)));
  _ ← free_delegated_hostnames;
  _ ← free_hostname_changed_callbacks;
  _ ← alloc (mfree 1);
  writes (fun r => set_engine r (set_server (r_engine r) None)).

(** * Names *)

(** Whether the host name changes: the callbacks are called then. *)
Definition hostname_changed (old new : option cstr) : bool :=
  match old, new with
  | Some a, Some b => negb (bool_decide (a = b))
  | None, None => false
  | _, _ => true
  end.

Definition mdns_priv_set_global_hostname (h : option cstr) : R unit :=
  init ← mdns_priv_is_server_init;
  if negb init then mret tt
  else
    s ← server;
    _ ← alloc (mfree (opt_block (s_hostname s)));
    _ ← put_server (fun s => with_hostname s h);
    if hostname_changed (s_hostname s) h then
      writes (fun r => set_called r (r_called r ++ map (fun c => (c, h)) (hostname_changed_cbs r)))
    else mret tt.

Definition mdns_priv_set_instance (i : option cstr) : R unit :=
  init ← mdns_priv_is_server_init;
  if negb init then mret tt
  else
    s ← server;
    _ ← alloc (mfree (opt_block (s_instance s)));
    put_server (fun s => with_instance s i).

(** * What goes to the engine *)

Definition can_add_more_services : R bool :=
  s ← server; mret (length (s_services s) <? MDNS_MAX_SERVICES).

Definition announce_all_pcbs (services : list sid) (include_ip : bool) : R unit :=
  iter (seq 0 MDNS_MAX_INTERFACES) (fun i => iter both_protocols (fun proto =>
    eng (mdns_priv_pcb_announce cfg addr i proto (Some services) include_ip))).

Abbreviation bye := (mdns_priv_pcb_send_bye_service cfg MDNS_MAX_INTERFACES).

Definition send_final_bye (include_ip : bool) : R unit :=
  s ← server;
  match s_services s with
  | [] => mret tt
  | l => eng (bye (Some (map fst l)) include_ip)
  end.

(** The services that have no instance name of their own. *)
Definition no_instance (s : mdns_server_t) : list sid :=
  map fst (filter (fun x => srv_instance (snd x) = None) (s_services s)).

Definition send_bye_all_pcbs_no_instance (include_ip : bool) : R unit :=
  s ← server;
  match no_instance s with
  | [] => mret tt
  | l => eng (bye (Some l) include_ip)
  end.

Definition mdns_priv_restart_all_pcbs_no_instance : R unit :=
  s ← server;
  match no_instance s with
  | [] => mret tt
  | l => eng (mdns_priv_probe_all_pcbs cfg MDNS_MAX_INTERFACES addr l false true)
  end.

Definition mdns_priv_restart_all_pcbs : R unit :=
  _ ← eng mdns_priv_clear_tx_queue;
  s ← server;
  eng (mdns_priv_probe_all_pcbs cfg MDNS_MAX_INTERFACES addr (map fst (s_services s)) true true).

(** One interface of [mdns_priv_send_bye_subtype]; [false] ends its loops. *)
Definition send_bye_subtype_one (i : sid) (instance_name : option cstr) (subtypes : list cstr) (tcpip_if : mdns_if_t)
    (proto : mdns_ip_protocol_t) : R bool :=
  ready ← reads (fun r => e_ready (r_engine r) tcpip_if proto);
  if negb ready then mret true
  else
    packet ← alloc (mdns_priv_alloc_packet cfg tcpip_if proto);
    match packet with
    | None => mret false
    | Some p =>
        srv ← service_at i;
        r ← alloc (mdns_priv_create_answer (tx_answers p) MDNS_TYPE_PTR (Some i) None true true);
        let p := set_section p Answers (snd r) in
        if negb (fst r) then _ ← alloc (mdns_priv_free_tx_packet p); mret false
        else
          pk ← asks (fun r =>
            b ← wr_bytes (r_pkt r) 0 (replicate MDNS_HEAD_LEN 0%Z);
            '(_, pk) ←
              (_ ← set_u16 2 MDNS_FLAGS_QR_AUTHORITATIVE;
               _ ← set_u16 0 (tx_id p);
               count ← append_subtypes cfg instance_name subtypes (srv_service srv) (srv_proto srv) true true 0;
               set_u16 6 count) (mk_pkt b MDNS_HEAD_LEN);
            Ret pk);
          _ ← writes (fun r => set_raw r (buf pk) (r_raw r ++ [(tcpip_if, proto, take (index pk) (buf pk))]));
          _ ← alloc (mdns_priv_free_tx_packet p);
          mret true
    end.

Fixpoint while_true {A} (l : list A) (f : A -> R bool) : R unit :=
  match l with
  | [] => mret tt
  | x :: l => b ← f x; if (b : bool) then while_true l f else mret tt
  end.

Definition mdns_priv_send_bye_subtype (i : sid) (instance_name : option cstr) (subtypes : list cstr) : R unit :=
  while_true (list_prod (seq 0 MDNS_MAX_INTERFACES) both_protocols)
    (fun '(tcpip_if, proto) => send_bye_subtype_one i instance_name subtypes tcpip_if proto).

(** * Services *)

(** [create_service_base]; [None] when memory runs out.  An instance name that
    cannot be copied is left out. *)
Definition create_service_base (service proto : cstr) (h : option cstr) (port_ : Z) (instance : option cstr)
    (num_items : nat) (args : option (list txt_arg)) : H (option mdns_service_t) :=
  ok ← malloc;
  if negb ok then mret None
  else
    new_txt ← allocate_txt_base num_items args;
    if negb (num_items =? 0) && bool_decide (new_txt = []) then _ ← mfree 1; mret None
    else
      let dup s := mdns_mem_strndup s (MDNS_NAME_BUF_LEN cfg - 1) in
      let dup_opt s := match s with Some s => dup s | None => mret None end in
      i ← dup_opt instance;
      h' ← dup_opt h;
      let txts := list_blocks new_txt in
      if bool_decide (is_Some h) && negb (bool_decide (is_Some h')) then
        _ ← mfree (1 + txts + opt_block i); mret None
      else
        sv ← dup service;
        match sv with
        | None => _ ← mfree (1 + txts + opt_block i + opt_block h'); mret None
        | Some sv =>
            pr ← dup proto;
            match pr with
            | None => _ ← mfree (2 + txts + opt_block i + opt_block h'); mret None
            | Some pr => mret (Some (mk_service i sv pr h' 0 0 port_ new_txt []))
            end
        end.

(** The host of the caller, or our own. *)
Definition host_or_ours (host : option cstr) : R (option cstr) :=
  match host with
  | Some h => mret (Some h)
  | None => s ← server; mret (s_hostname s)
  end.

Definition find_srv (instance service proto h : option cstr) : R (option (sid * mdns_service_t)) :=
  asks (fun r => mdns_utils_get_service_item_instance (e_server (r_engine r)) instance service proto h).

Definition mdns_service_add_for_host_base (instance service proto host : option cstr) (port_ : Z)
    (args : option (list txt_arg)) (num_items : nat) : R esp_err :=
  srv ← reads (fun r => e_server (r_engine r));
  match srv, service, proto with
  | Some s, Some ((_ :: _) as sv), Some ((_ :: _) as pr) =>
      match s_hostname s with
      | None => mret ESP_ERR_INVALID_ARG
      | Some _ =>
          h ← host_or_ours host;
          room ← can_add_more_services;
          if negb room then mret ESP_ERR_NO_MEM
          else
            item ← find_srv instance service proto h;
            match item with
            | Some _ => mret ESP_ERR_INVALID_ARG
            | None =>
                s ← alloc (create_service_base sv pr h port_ instance num_items args);
                match s with
                | None => mret ESP_ERR_NO_MEM
                | Some s =>
                    ok ← alloc malloc;
                    if negb ok then _ ← free_service s; mret ESP_ERR_NO_MEM
                    else
                      l ← server;
                      let i := addr (map fst (s_services l)) in
                      _ ← put_server (fun l => with_services l ((i, s) :: s_services l));
                      _ ← eng (mdns_priv_probe_all_pcbs cfg MDNS_MAX_INTERFACES addr [i] false false);
                      mret ESP_OK
                end
            end
      end
  | _, _, _ => mret ESP_ERR_INVALID_ARG
  end.

(** [mdns_service_add_for_host] and [mdns_service_add_for_host_with_explicit_txt_item_value_len]
    differ in the kind of the items only. *)
Definition mdns_service_add_for_host := mdns_service_add_for_host_base.

Definition mdns_service_add (instance service proto : option cstr) (port_ : Z) (args : option (list txt_arg))
    (num_items : nat) : R esp_err :=
  init ← mdns_priv_is_server_init;
  if negb init then mret ESP_ERR_INVALID_STATE
  else mdns_service_add_for_host instance service proto None port_ args num_items.

Definition mdns_service_exists (service proto h : option cstr) : R bool :=
  asks (fun r =>
    x ← mdns_utils_get_service_item (e_server (r_engine r)) service proto h; Ret (bool_decide (is_Some x))).

Definition mdns_service_exists_with_instance (instance service proto h : option cstr) : R bool :=
  x ← find_srv instance service proto h; mret (bool_decide (is_Some x)).

(** The checks the functions on a service begin with, and the service. *)
Definition on_service (instance service proto h : option cstr) (args_ok : bool) (f : sid * mdns_service_t -> R esp_err)
    : R esp_err :=
  srv ← reads (fun r => e_server (r_engine r));
  let empty := match srv with Some s => match s_services s with [] => true | _ => false end | None => true end in
  if empty || mdns_utils_str_null_or_empty service || mdns_utils_str_null_or_empty proto || negb args_ok
  then mret ESP_ERR_INVALID_ARG
  else
    item ← find_srv instance service proto h;
    match item with
    | None => mret ESP_ERR_NOT_FOUND
    | Some x => f x
    end.

Definition mdns_service_port_set_for_host (instance service proto host : option cstr) (port_ : Z) : R esp_err :=
  h ← host_or_ours host;
  on_service instance service proto h (negb (port_ =? 0)%Z) (fun '(i, _) =>
    _ ← put_srv i (fun s => set_srv_port s port_);
    _ ← announce_all_pcbs [i] true;
    mret ESP_OK).

Definition if_started (m : R esp_err) : R esp_err :=
  init ← mdns_priv_is_server_init;
  if negb init then mret ESP_ERR_INVALID_STATE else m.

Definition mdns_service_port_set (service proto : option cstr) (port_ : Z) : R esp_err :=
  if_started (mdns_service_port_set_for_host None service proto None port_).

Definition mdns_service_txt_set_for_host_base (instance service proto host : option cstr) (args : option (list txt_arg))
    (num_items : nat) : R esp_err :=
  h ← host_or_ours host;
  on_service instance service proto h ((num_items =? 0) || bool_decide (is_Some args)) (fun '(i, _) =>
    new_txt ← alloc (allocate_txt_base num_items args);
    if negb (num_items =? 0) && bool_decide (new_txt = []) then mret ESP_ERR_NO_MEM
    else
      s ← service_at i;
      _ ← put_srv i (fun s => set_srv_txt s []);
      _ ← alloc (mfree (list_blocks (txt s)));
      _ ← put_srv i (fun s => set_srv_txt s new_txt);
      _ ← announce_all_pcbs [i] false;
      mret ESP_OK).

Definition mdns_service_txt_set (service proto : option cstr) (args : option (list txt_arg)) (num_items : nat) : R esp_err :=
  if_started (mdns_service_txt_set_for_host_base None service proto None args num_items).

(** The first item with the key, found by [strcmp]. *)
Fixpoint find_key (k : cstr) (l : list mdns_txt_linked_item_t) : outcome (option nat) :=
  match l with
  | [] => Ret None
  | t :: l =>
      k' ← deref (key t);
      if bool_decide (k' = k) then Ret (Some 0) else i ← find_key k l; Ret (option_map S i)
  end.

Definition mdns_service_txt_item_set_for_host_with_explicit_value_len (instance service proto host : option cstr)
    (k : option cstr) (value_arg : option (list Z)) (len : Z) : R esp_err :=
  h ← host_or_ours host;
  on_service instance service proto h
    (negb (mdns_utils_str_null_or_empty k) && negb (negb (bool_decide (is_Some value_arg)) && negb (len =? 0)%Z))
    (fun '(i, _) =>
    k ← asks (fun _ => deref k);
    v ← (match value_arg with
         | None => mret (Some (None, 0%Z))
         | Some v => c ← alloc (copy_value v len); mret (match c with Some c => Some (Some c, len) | None => None end)
         end);
    match v with
    | None => mret ESP_ERR_NO_MEM
    | Some (v, len) =>
        s ← service_at i;
        found ← asks (fun _ => find_key k (txt s));
        match found with
        | Some j =>
            _ ← alloc (mfree (match txt s !! j with Some t => opt_block (value t) | None => 0 end));
            _ ← put_srv i (fun s => set_srv_txt s (alter (fun t => mk_txt (key t) v len) j (txt s)));
            _ ← announce_all_pcbs [i] false;
            mret ESP_OK
        | None =>
            ok ← alloc malloc;
            if negb ok then _ ← alloc (mfree (opt_block v)); mret ESP_ERR_NO_MEM
            else
              new_key ← alloc (mdns_mem_strdup k);
              match new_key with
              | None => _ ← alloc (mfree (1 + opt_block v)); mret ESP_ERR_NO_MEM
              | Some new_key =>
                  _ ← put_srv i (fun s => set_srv_txt s (mk_txt (Some new_key) v len :: txt s));
                  _ ← announce_all_pcbs [i] false;
                  mret ESP_OK
              end
        end
    end).

(** With a string for a value, whose length is taken first. *)
Definition mdns_service_txt_item_set_for_host (instance service proto host k value_arg : option cstr) : R esp_err :=
  v ← asks (fun _ => deref value_arg);
  mdns_service_txt_item_set_for_host_with_explicit_value_len instance service proto host k (Some v)
    (u8 (Z.of_nat (length v))).

Definition mdns_service_txt_item_set (service proto k value_arg : option cstr) : R esp_err :=
  if_started (mdns_service_txt_item_set_for_host None service proto None k value_arg).

Definition mdns_service_txt_item_set_with_explicit_value_len (service proto k : option cstr) (value_arg : option (list Z))
    (len : Z) : R esp_err :=
  if_started (mdns_service_txt_item_set_for_host_with_explicit_value_len None service proto None k value_arg len).

Definition mdns_service_txt_item_remove_for_host (instance service proto host k : option cstr) : R esp_err :=
  h ← host_or_ours host;
  on_service instance service proto h (negb (mdns_utils_str_null_or_empty k)) (fun '(i, _) =>
    k ← asks (fun _ => deref k);
    s ← service_at i;
    match txt s with
    | [] => mret ESP_OK
    | _ =>
        found ← asks (fun _ => find_key k (txt s));
        _ ← (match found with
             | None => mret tt
             | Some j =>
                 _ ← put_srv i (fun s => set_srv_txt s (delete j (txt s)));
                 alloc (mfree (match txt s !! j with Some t => 1 + item_blocks t | None => 0 end))
             end);
        _ ← announce_all_pcbs [i] false;
        mret ESP_OK
    end).

Definition mdns_service_txt_item_remove (service proto k : option cstr) : R esp_err :=
  if_started (mdns_service_txt_item_remove_for_host None service proto None k).

(** * Subtypes *)

(** [false] is [ESP_ERR_NOT_FOUND]. *)
Definition service_subtype_remove_for_host (i : sid) (st : cstr) : R bool :=
  s ← service_at i;
  match list_find (fun x => x = st) (subtype s) with
  | None => mret false
  | Some (j, _) =>
      _ ← put_srv i (fun s => set_srv_subtype s (delete j (subtype s)));
      _ ← alloc (mfree 2);
      mret true
  end.

Definition mdns_service_subtype_remove_for_host (instance_name service proto h st : option cstr) : R esp_err :=
  on_service instance_name service proto h (negb (mdns_utils_str_null_or_empty st)) (fun '(i, _) =>
    st ← asks (fun _ => deref st);
    found ← service_subtype_remove_for_host i st;
    if negb found then mret ESP_ERR_NOT_FOUND
    else
      ok ← alloc malloc;
      if negb ok then mret ESP_ERR_NO_MEM
      else
        c ← alloc (mdns_mem_strdup st);
        match c with
        | None => _ ← alloc (mfree 1); mret ESP_ERR_NO_MEM
        | Some c =>
            _ ← mdns_priv_send_bye_subtype i instance_name [c];
            _ ← alloc (mfree (subs_blocks [c]));
            mret ESP_OK
        end).

Definition service_subtype_add_for_host (i : sid) (st : cstr) : R esp_err :=
  s ← service_at i;
  if bool_decide (st ∈ subtype s) then mret ESP_ERR_INVALID_ARG
  else
    ok ← alloc malloc;
    if negb ok then mret ESP_ERR_NO_MEM
    else
      c ← alloc (mdns_mem_strdup st);
      match c with
      | None => _ ← alloc (mfree 1); mret ESP_ERR_NO_MEM
      | Some c => _ ← put_srv i (fun s => set_srv_subtype s (c :: subtype s)); mret ESP_OK
      end.

(** The loop that adds: the first error, with the items added before it. *)
Fixpoint add_subtypes (i : sid) (done : list cstr) (l : list cstr) : R (esp_err * list cstr) :=
  match l with
  | [] => mret (ESP_OK, done)
  | st :: l =>
      r ← service_subtype_add_for_host i st;
      match r with
      | ESP_OK => add_subtypes i (done ++ [st]) l
      | e => mret (e, done)
      end
  end.

(** The end of the functions that add: announce, or take back what was added. *)
Definition subtypes_added (i : sid) (r : esp_err * list cstr) (announce : bool) : R esp_err :=
  match r with
  | (ESP_OK, _) => _ ← (if announce then announce_all_pcbs [i] false else mret tt); mret ESP_OK
  | (ESP_ERR_NO_MEM, done) =>
      _ ← iter done (fun st => _ ← service_subtype_remove_for_host i st; mret tt);
      mret ESP_ERR_NO_MEM
  | (e, _) => mret e
  end.

Definition mdns_service_subtype_add_multiple_items_for_host (instance_name service proto h : option cstr)
    (subtypes : list cstr) : R esp_err :=
  on_service instance_name service proto h (negb (bool_decide (subtypes = []))) (fun '(i, _) =>
    r ← add_subtypes i [] subtypes;
    subtypes_added i r true).

Definition mdns_service_subtype_add_for_host (instance_name service proto h : option cstr) (st : cstr) : R esp_err :=
  mdns_service_subtype_add_multiple_items_for_host instance_name service proto h [st].

(** The subtypes that are not in the update leave the service. *)
Definition service_find_subtype_needed_sendbye (i : sid) (subtypes : list cstr) : R (list cstr) :=
  s ← service_at i;
  _ ← put_srv i (fun s => set_srv_subtype s (filter (fun x => x ∈ subtypes) (subtype s)));
  mret (filter (fun x => x ∉ subtypes) (subtype s)).

Definition free_service_subtype (i : sid) : R unit :=
  s ← service_at i;
  _ ← alloc (mfree (subs_blocks (subtype s)));
  put_srv i (fun s => set_srv_subtype s []).

Definition mdns_service_subtype_update_multiple_items_for_host (instance_name service proto h : option cstr)
    (subtypes : list cstr) : R esp_err :=
  on_service instance_name service proto h true (fun '(i, _) =>
    goodbye ← service_find_subtype_needed_sendbye i subtypes;
    _ ← (match goodbye with [] => mret tt | l => mdns_priv_send_bye_subtype i instance_name l end);
    _ ← alloc (mfree (subs_blocks goodbye));
    _ ← free_service_subtype i;
    r ← add_subtypes i [] subtypes;
    subtypes_added i r (negb (bool_decide (subtypes = [])))).

(** * Renaming and removing *)

Definition mdns_service_instance_name_set_for_host (instance_old service proto host instance : option cstr) : R esp_err :=
  h ← host_or_ours host;
  on_service instance_old service proto h
    (negb (mdns_utils_str_null_or_empty instance)
     && match instance with Some x => length x <=? MDNS_NAME_BUF_LEN cfg - 1 | None => false end)
    (fun '(i, _) =>
    instance ← asks (fun _ => deref instance);
    s ← service_at i;
    _ ← (match srv_instance s with
         | Some _ => _ ← eng (bye (Some [i]) false); alloc (mfree 1)
         | None => mret tt
         end);
    c ← alloc (mdns_mem_strndup instance (MDNS_NAME_BUF_LEN cfg - 1));
    _ ← put_srv i (fun s => set_srv_instance s c);
    match c with
    | None => mret ESP_ERR_NO_MEM
    | Some _ =>
        _ ← eng (mdns_priv_probe_all_pcbs cfg MDNS_MAX_INTERFACES addr [i] false false);
        mret ESP_OK
    end).

Definition mdns_service_instance_name_set (service proto instance : option cstr) : R esp_err :=
  if_started (mdns_service_instance_name_set_for_host None service proto None instance).

(** A service is unlinked, its goodbye sent, its packets removed from the queue, and
    freed.  The goodbye and the queue still follow it when it is out of the list:
    here it leaves the list last. *)
Definition drop_service (i : sid) : R unit :=
  s ← service_at i;
  _ ← eng (bye (Some [i]) false);
  _ ← eng (mdns_priv_remove_scheduled_service_packets i);
  _ ← put_server (fun l => with_services l (remove_at i (s_services l)));
  _ ← free_service s;
  alloc (mfree 1).

(** The service that is removed: the first match, by the instance if one is given. *)
Definition first_match (instance service proto h : option cstr) : R (option (sid * mdns_service_t)) :=
  match instance with
  | Some _ => asks (fun r =>
      find_first (fun x => mdns_utils_service_match_instance (e_server (r_engine r)) (snd x) instance service proto h)
        (mdns_priv_get_services (e_server (r_engine r))))
  | None => asks (fun r => mdns_utils_get_service_item (e_server (r_engine r)) service proto h)
  end.

Definition mdns_service_remove_for_host (instance service proto host : option cstr) : R esp_err :=
  h ← host_or_ours host;
  on_service instance service proto h true (fun _ =>
    a ← first_match instance service proto h;
    _ ← (match a with Some (i, _) => drop_service i | None => mret tt end);
    mret ESP_OK).

Definition mdns_service_remove (service proto : option cstr) : R esp_err :=
  if_started (mdns_service_remove_for_host None service proto None).

(** The services leave the list first; their packets are removed one by one. *)
Definition mdns_service_remove_all : R esp_err :=
  init ← mdns_priv_is_server_init;
  if negb init then mret ESP_ERR_INVALID_ARG
  else
    s ← server;
    match s_services s with
    | [] => mret ESP_OK
    | l =>
        _ ← send_final_bye false;
        _ ← iter (map fst l) (fun i =>
          s ← service_at i;
          _ ← eng (mdns_priv_remove_scheduled_service_packets i);
          _ ← put_server (fun l => with_services l (remove_at i (s_services l)));
          _ ← free_service s;
          alloc (mfree 1));
        mret ESP_OK
    end.

(** * Delegated hosts *)

(** [false] when the host is known or memory runs out. *)
Definition mdns_priv_delegate_hostname_add (h : cstr) (addresses : list esp_ip_addr_t) : R bool :=
  ours ← asks (fun r => mdns_utils_hostname_is_ours (e_server (r_engine r)) h);
  if (ours : bool) then mret false
  else
    ok ← alloc malloc;
    if negb ok then mret false
    else
      s ← server;
      let i := addr (map fst (s_hosts s)) in
      _ ← put_server (fun s => with_hosts s ((i, mk_host (Some h) addresses) :: s_hosts s));
      mret true.

Definition find_host (h : cstr) : R (option (hid * mdns_host_item_t)) :=
  s ← server;
  asks (fun _ => find_first (fun x => strcasecmp_eq (Some h) (hostname (snd x))) (s_hosts s)).

Definition delegate_hostname_set_address (h : cstr) (addresses : list esp_ip_addr_t) : R bool :=
  s ← server;
  if negb (mdns_utils_str_null_or_empty (s_hostname s))
     && match s_hostname s with Some g => strcaseeq h g | None => false end
  then mret false
  else
    found ← find_host h;
    match found with
    | None => mret false
    | Some (i, x) =>
        _ ← mdns_utils_free_address_list (address_list x);
        _ ← put_server (fun s => with_hosts s (alter_at i (fun x => mk_host (hostname x) addresses) (s_hosts s)));
        mret true
    end.

Definition delegate_hostname_remove (h : cstr) : R unit :=
  s ← server;
  _ ← iter (map fst (s_services s)) (fun i =>
    srv ← service_at i;
    hit ← asks (fun _ => strcasecmp_eq (srv_hostname srv) (Some h));
    if (hit : bool) then drop_service i else mret tt);
  found ← find_host h;
  match found with
  | None => mret tt
  | Some (i, x) =>
      _ ← put_server (fun s => with_hosts s (remove_at i (s_hosts s)));
      alloc (mfree (host_blocks x))
  end.

(** The services of our own host follow its new name; a copy that fails leaves the
    service without one. *)
Definition mdns_priv_remap_self_service_hostname (old new : option cstr) : R unit :=
  s ← server;
  iter (map fst (s_services s)) (fun i =>
    srv ← service_at i;
    match srv_hostname srv with
    | None => mret tt
    | Some h =>
        old ← asks (fun _ => deref old);
        if negb (bool_decide (h = old)) then mret tt
        else
          _ ← alloc (mfree 1);
          new ← asks (fun _ => deref new);
          c ← alloc (mdns_mem_strdup new);
          put_srv i (fun s => set_srv_hostname s c)
    end).

(** * Actions *)

Definition give_action_sema : R unit := writes (fun r => set_sema r true).

(** [mdns_priv_responder_action] with [ACTION_RUN]. *)
Definition mdns_priv_responder_action (a : responder_action) : R unit :=
  match a with
  | ACTION_HOSTNAME_SET h =>
      _ ← send_bye_all_pcbs_no_instance true;
      s ← server;
      _ ← mdns_priv_remap_self_service_hostname (s_hostname s) (Some h);
      _ ← mdns_priv_set_global_hostname (Some h);
      _ ← mdns_priv_restart_all_pcbs;
      give_action_sema
  | ACTION_INSTANCE_SET i =>
      _ ← send_bye_all_pcbs_no_instance false;
      s ← server;
      _ ← alloc (mfree (opt_block (s_instance s)));
      _ ← put_server (fun s => with_instance s (Some i));
      mdns_priv_restart_all_pcbs_no_instance
  | ACTION_DELEGATE_HOSTNAME_ADD h l =>
      ok ← mdns_priv_delegate_hostname_add h l;
      _ ← (if (ok : bool) then mret tt else _ ← alloc (mfree 1); mdns_utils_free_address_list l);
      give_action_sema
  | ACTION_DELEGATE_HOSTNAME_SET_ADDR h l =>
      ok ← delegate_hostname_set_address h l;
      _ ← (if (ok : bool) then mret tt else mdns_utils_free_address_list l);
      alloc (mfree 1)
  | ACTION_DELEGATE_HOSTNAME_REMOVE h =>
      _ ← delegate_hostname_remove h;
      alloc (mfree 1)
  end.

(** With [ACTION_CLEANUP]: what the action owns. *)
Definition responder_action_cleanup (a : responder_action) : R unit := alloc (mfree (action_blocks a)).

(** The service task takes the first action and frees it. *)
Definition responder_turn : R unit :=
  l ← reads r_actions;
  match l with
  | [] => mret tt
  | a :: rest =>
      _ ← writes (fun r => set_r_actions r rest);
      _ ← mdns_priv_responder_action a;
      alloc (mfree 1)
  end.

(** [mdns_priv_queue_action]. *)
Definition queue_action (a : responder_action) : R bool :=
  accepts ← reads r_accepts;
  let '(ok, rest) := next_bool accepts in
  _ ← writes (fun r => set_r_accepts r rest);
  if (ok : bool) then _ ← writes (fun r => set_r_actions r (r_actions r ++ [a])); mret true
  else mret false.

(** The part the functions that queue an action share: the name is checked and
    copied, and the action made from it.  When the queue refuses the action, the
    name and the action are freed. *)
Definition send_name_action (name : option cstr) (make : cstr -> R responder_action) (invalid : esp_err) : R esp_err :=
  match name with
  | Some ((_ :: _) as n) =>
      if MDNS_NAME_BUF_LEN cfg - 1 <? length n then mret invalid
      else
        c ← alloc (mdns_mem_strndup n (MDNS_NAME_BUF_LEN cfg - 1));
        match c with
        | None => mret ESP_ERR_NO_MEM
        | Some c =>
            ok ← alloc malloc;
            if negb ok then _ ← alloc (mfree 1); mret ESP_ERR_NO_MEM
            else
              a ← make c;
              taken ← queue_action a;
              if (taken : bool) then mret ESP_OK
              else _ ← alloc (mfree 2); mret ESP_ERR_NO_MEM
        end
  | _ => mret invalid
  end.

(** [mdns_hostname_set] up to where it waits for [action_sema]. *)
Definition mdns_hostname_set (h : option cstr) : R esp_err :=
  init ← mdns_priv_is_server_init;
  if negb init then mret ESP_ERR_INVALID_ARG
  else send_name_action h (fun c => mret (ACTION_HOSTNAME_SET c)) ESP_ERR_INVALID_ARG.

(** The wait: it ends when the semaphore was given. *)
Definition take_action_sema : R bool :=
  b ← reads action_sema;
  _ ← writes (fun r => set_sema r false);
  mret b.

Definition mdns_delegate_hostname_add (h : option cstr) (addresses : list esp_ip_addr_t) : R esp_err :=
  if_started (send_name_action h (fun c =>
    l ← alloc (mdns_utils_copy_address_list addresses); mret (ACTION_DELEGATE_HOSTNAME_ADD c l)) ESP_ERR_INVALID_ARG).

Definition mdns_delegate_hostname_set_address (h : option cstr) (addresses : list esp_ip_addr_t) : R esp_err :=
  if_started (send_name_action h (fun c =>
    l ← alloc (mdns_utils_copy_address_list addresses); mret (ACTION_DELEGATE_HOSTNAME_SET_ADDR c l)) ESP_ERR_INVALID_ARG).

Definition mdns_delegate_hostname_remove (h : option cstr) : R esp_err :=
  if_started (send_name_action h (fun c => mret (ACTION_DELEGATE_HOSTNAME_REMOVE c)) ESP_ERR_INVALID_ARG).

Definition mdns_instance_name_set (instance : option cstr) : R esp_err :=
  if_started (
    s ← server;
    match s_hostname s with
    | None => mret ESP_ERR_INVALID_ARG
    | Some _ => send_name_action instance (fun c => mret (ACTION_INSTANCE_SET c)) ESP_ERR_INVALID_ARG
    end).

Definition mdns_register_hostname_changed_callback (cb : option positive) (arg : positive) : R esp_err :=
  if_started (
    match cb with
    | None => mret ESP_ERR_INVALID_ARG
    | Some cb =>
        l ← reads hostname_changed_cbs;
        if bool_decide ((cb, arg) ∈ l) then mret ESP_OK
        else
          ok ← alloc malloc;
          if negb ok then mret ESP_ERR_NO_MEM
          else _ ← writes (fun r => set_cbs r ((cb, arg) :: hostname_changed_cbs r)); mret ESP_OK
    end).

(** The name that is copied to the caller's buffer, if there is one. *)
Definition mdns_hostname_get (buffer : bool) : R (esp_err + cstr) :=
  if negb buffer then mret (inl ESP_ERR_INVALID_ARG) else
  srv ← reads (fun r => e_server (r_engine r));
  match srv ≫= s_hostname with
  | None => mret (inl ESP_ERR_INVALID_STATE)
  | Some h => mret (inr (take (MDNS_NAME_BUF_LEN cfg - 1) h))
  end.

Definition mdns_hostname_exists (h : cstr) : R bool :=
  asks (fun r => mdns_utils_hostname_is_ours (e_server (r_engine r)) h).

(** * Lookups *)

(** The items one by one; on failure those copied are freed, with both arrays. *)
Fixpoint copy_items (done l : list mdns_txt_linked_item_t) : H (option (list mdns_txt_linked_item_t)) :=
  match l with
  | [] => mret (Some done)
  | t :: l =>
      k ← hlift (deref (key t));
      ok ← malloc;
      if negb ok then _ ← mfree (2 + items_blocks done); mret None
      else
        match value t with
        | None => copy_items (done ++ [mk_txt (Some k) None (value_len t)]) l
        | Some v =>
            c ← copy_value v (value_len t);
            match c with
            | None => _ ← mfree (3 + items_blocks done); mret None
            | Some c => copy_items (done ++ [mk_txt (Some k) (Some c) (value_len t)]) l
            end
        end
  end.

(** [None] when memory runs out; the count of items and the pointer to the freed
    array stay in the result then.  When only the second array cannot be allocated,
    the loop that frees reads past the end of the first one. *)
Definition copy_txt_items (items : list mdns_txt_linked_item_t) : H (option (list mdns_txt_linked_item_t)) :=
  match items with
  | [] => mret (Some [])
  | _ =>
      ret ← malloc;
      lens ← malloc;
      if (ret : bool) then if (lens : bool) then copy_items [] items else hlift BadAccess
      else _ ← mfree (Z.b2z lens); mret None
  end.

Definition copy_delegated_host_address_list (h : cstr) : R (list esp_ip_addr_t) :=
  found ← find_host h;
  match found with
  | None => mret []
  | Some (_, x) => alloc (mdns_utils_copy_address_list (address_list x))
  end.

Definition service_has_subtype (s : mdns_service_t) (st : option cstr) : bool :=
  match st with None => true | Some st => existsb (fun x => strcaseeq x st) (subtype s) end.

(** The results: [mdns_priv_query_results_free] follows the items that a failed
    copy did not make. *)
Definition lookup_free (l : list lookup_result) : R unit :=
  iter l (fun x => _ ← asks (fun _ => deref (lr_txt x)); alloc (mfree (lookup_blocks x))).

(** Whether the service is asked for. *)
Definition lookup_matches (srv : mdns_server_t) (s : mdns_service_t) (instance : option cstr) (service proto : cstr)
    (st : option cstr) (selfhost : bool) : outcome bool :=
  match srv_hostname s with
  | None => Ret false
  | Some h =>
      let ours := negb (mdns_utils_str_null_or_empty (s_hostname srv))
                  && match s_hostname srv with Some g => strcaseeq g h | None => false end in
      if Bool.eqb selfhost ours && strcaseeq (srv_service s) service && strcaseeq (srv_proto s) proto
         && service_has_subtype s st
      then if mdns_utils_str_null_or_empty instance then Ret true
           else mdns_utils_instance_name_match (Some srv) (srv_instance s) instance
      else Ret false
  end.

(** The strings of a result; [None] with the blocks held when memory runs out. *)
Definition lookup_strings (s : mdns_service_t) : H (option (option cstr * cstr * cstr * cstr)) :=
  let dup s := mdns_mem_strndup s (MDNS_NAME_BUF_LEN cfg - 1) in
  i ← (match srv_instance s with Some i => dup i | None => mret None end);
  if bool_decide (is_Some (srv_instance s)) && negb (bool_decide (is_Some i)) then _ ← mfree 1; mret None
  else
    sv ← dup (srv_service s);
    match sv with
    | None => _ ← mfree (1 + opt_block i); mret None
    | Some sv =>
        pr ← dup (srv_proto s);
        match pr with
        | None => _ ← mfree (2 + opt_block i); mret None
        | Some pr =>
            h ← hlift (deref (srv_hostname s));
            h ← dup h;
            match h with
            | None => _ ← mfree (3 + opt_block i); mret None
            | Some h => mret (Some (i, sv, pr, h))
            end
        end
    end.

(** One result; [None] when the lookup fails with it, and what it holds is freed. *)
Definition lookup_item (s : mdns_service_t) (with_instance selfhost : bool) : R (option lookup_result) :=
  ok ← alloc malloc;
  if negb ok then mret None
  else
    strings ← alloc (lookup_strings s);
    match strings with
    | None => mret None
    | Some (i, sv, pr, h) =>
        items ← alloc (copy_txt_items (txt s));
        addrs ← (if selfhost then mret [] else copy_delegated_host_address_list h);
        let x := mk_lookup (if with_instance then MDNS_ANSWER_SRV_TTL else MDNS_ANSWER_PTR_TTL) i sv pr h (port s) items
                   addrs in
        if negb selfhost && bool_decide (addrs = []) then _ ← lookup_free [x]; mret None
        else mret (Some x)
    end.

(** The loop over the services; the results are freed when one fails. *)
Fixpoint lookup_from (instance : option cstr) (service proto : cstr) (st : option cstr) (max_results : nat)
    (selfhost : bool) (results : list lookup_result) (num_results : nat) (l : list (sid * mdns_service_t))
    : R (list lookup_result) :=
  match l with
  | [] => mret results
  | (_, s) :: l =>
      srv ← server;
      hit ← asks (fun _ => lookup_matches srv s instance service proto st selfhost);
      if negb hit then lookup_from instance service proto st max_results selfhost results num_results l
      else
        x ← lookup_item s (negb (mdns_utils_str_null_or_empty instance)) selfhost;
        match x with
        | None => _ ← lookup_free results; mret []
        | Some x =>
            let num_results := if num_results <? max_results then S num_results else num_results in
            if max_results <=? num_results then mret (x :: results)
            else lookup_from instance service proto st max_results selfhost (x :: results) num_results l
        end
  end.

Definition lookup_service (instance service proto st : option cstr) (max_results : nat) (selfhost : bool)
    : R (list lookup_result) :=
  match service, proto with
  | Some ((_ :: _) as sv), Some ((_ :: _) as pr) =>
      s ← server;
      lookup_from instance sv pr st max_results selfhost [] 0 (s_services s)
  | _, _ => mret []
  end.

(** The four functions of the interface: with a subtype or without, for services of
    our own host or of delegated ones. *)
Definition mdns_lookup (selfhost : bool) (instance service proto : option cstr) (st : option (option cstr))
    (max_results : nat) : R esp_err :=
  if_started (
    if mdns_utils_str_null_or_empty service || mdns_utils_str_null_or_empty proto
       || match st with Some st => mdns_utils_str_null_or_empty st | None => false end
    then mret ESP_ERR_INVALID_ARG
    else
      l ← lookup_service instance service proto (match st with Some st => st | None => None end) max_results selfhost;
      _ ← writes (fun r => set_lookups r (l :: r_results r));
      mret ESP_OK).

Definition mdns_lookup_selfhosted_service (instance service proto : option cstr) := mdns_lookup true instance service proto None.
Definition mdns_lookup_delegated_service (instance service proto : option cstr) := mdns_lookup false instance service proto None.
Definition mdns_lookup_selfhosted_service_with_subtype (instance service proto st : option cstr) :=
  mdns_lookup true instance service proto (Some st).
Definition mdns_lookup_delegated_service_with_subtype (instance service proto st : option cstr) :=
  mdns_lookup false instance service proto (Some st).

(** A list of results goes back to [mdns_query_results_free]. *)
Definition lookup_results_free (i : nat) : R unit :=
  l ← reads (fun r => r_results r !! i);
  match l with
  | None => mret tt
  | Some l => _ ← lookup_free l; writes (fun r => set_lookups r (delete i (r_results r)))
  end.

End Responder.
