(* ===== verification/ResponderProofs.v ===== *)
(** The responder keeps its registry: an invariant that ties the registered services
    and hosts, the transmit queue, the control blocks and the heap together, and a
    program logic in which the functions of mdns_responder.c are verified. *)
From S2P Require Import Prelude Names Encode EncodeSafe Heap Txt Collision Answers AnswersProofs Engine EngineProofs EngineSteps State Received Cache CacheTree Browse Query QuerySafe Server Responder.

(** * Blocks *)

Definition services_blocks (l : list (sid * mdns_service_t)) : Z :=
  foldr (fun x n => 1 + srv_blocks (snd x) + n)%Z 0%Z l.

(** [s_server], its semaphore and what hangs on it. *)
Definition server_blocks (s : mdns_server_t) : Z :=
  (2 + opt_block (s_hostname s) + opt_block (s_instance s) + services_blocks (s_services s) + hosts_blocks (s_hosts s))%Z.

Definition actions_blocks (l : list responder_action) : Z := foldr (fun a n => 1 + action_blocks a + n)%Z 0%Z l.

Definition lookups_blocks (l : list lookup_result) : Z := foldr (fun x n => lookup_blocks x + n)%Z 0%Z l.

(** What the responder holds besides. *)
Definition rest_blocks (r : responder) : Z :=
  (Z.of_nat (length (hostname_changed_cbs r)) + actions_blocks (r_actions r)
   + foldr (fun l n => lookups_blocks l + n) 0 (r_results r))%Z.

Lemma registry_blocks_app l l' : services_blocks (l ++ l') = (services_blocks l + services_blocks l')%Z.
Proof. unfold services_blocks. induction l as [|x l IH]; cbn [app foldr]; [done|]. rewrite IH. lia. Qed.

Lemma services_blocks_put i f l x : base.NoDup (map fst l) -> assoc i l = Some x ->
  services_blocks (alter_at i f l) = (services_blocks l + srv_blocks (f x) - srv_blocks x)%Z.
Proof.
  intros Hn Hx. destruct (assoc_split _ _ _ Hx) as (l1 & l2 & -> & _). rewrite alter_at_split by done.
  rewrite !registry_blocks_app. cbn [services_blocks foldr snd]. fold (services_blocks l2). lia.
Qed.

Lemma services_blocks_remove i l x : assoc i l = Some x ->
  services_blocks (remove_at i l) = (services_blocks l - srv_blocks x - 1)%Z.
Proof.
  intros Hx. destruct (assoc_split _ _ _ Hx) as (l1 & l2 & -> & Hn). rewrite remove_at_split by done.
  rewrite !registry_blocks_app. cbn [services_blocks foldr snd]. fold (services_blocks l2). lia.
Qed.

Lemma hosts_blocks_app l l' : hosts_blocks (l ++ l') = (hosts_blocks l + hosts_blocks l')%Z.
Proof. unfold hosts_blocks. induction l as [|x l IH]; cbn [app foldr]; [done|]. rewrite IH. lia. Qed.

Lemma hosts_blocks_put i f l x : base.NoDup (map fst l) -> assoc i l = Some x ->
  hosts_blocks (alter_at i f l) = (hosts_blocks l + host_blocks (f x) - host_blocks x)%Z.
Proof.
  intros Hn Hx. destruct (assoc_split _ _ _ Hx) as (l1 & l2 & -> & _). rewrite alter_at_split by done.
  rewrite !hosts_blocks_app. cbn [hosts_blocks foldr snd]. fold (hosts_blocks l2). lia.
Qed.

Lemma hosts_blocks_remove i l x : assoc i l = Some x ->
  hosts_blocks (remove_at i l) = (hosts_blocks l - host_blocks x)%Z.
Proof.
  intros Hx. destruct (assoc_split _ _ _ Hx) as (l1 & l2 & -> & Hn). rewrite remove_at_split by done.
  rewrite !hosts_blocks_app. cbn [hosts_blocks foldr snd]. fold (hosts_blocks l2). lia.
Qed.

(** * Lists of objects *)

Lemma Forall_alter_at {A} (P : A -> Prop) i f (l : list (positive * A)) x : base.NoDup (map fst l) -> assoc i l = Some x ->
  P (f x) -> Forall (fun y => P (snd y)) l -> Forall (fun y => P (snd y)) (alter_at i f l).
Proof.
  intros Hn Hx Hp Hl. destruct (assoc_split _ _ _ Hx) as (l1 & l2 & -> & _). rewrite alter_at_split by done.
  rewrite Forall_app, Forall_cons in *. naive_solver.
Qed.

Lemma Forall_remove {A} (P : A -> Prop) i (l : list (positive * A)) :
  Forall (fun y => P (snd y)) l -> Forall (fun y => P (snd y)) (remove_at i l).
Proof. rewrite !Forall_forall. intros Hl x Hx. apply Hl. by eapply sublist_subseteq; [apply remove_at_sublist|]. Qed.

Lemma Forall_assoc {A} (P : A -> Prop) i (l : list (positive * A)) x :
  Forall (fun y => P (snd y)) l -> assoc i l = Some x -> P x.
Proof. intros Hl Hx. destruct (assoc_split _ _ _ Hx) as (l1 & l2 & -> & _). rewrite Forall_app, Forall_cons in Hl. naive_solver. Qed.

Lemma alter_same {A} i (f : A -> A) (l : list (positive * A)) x : base.NoDup (map fst l) -> assoc i l = Some x ->
  f x = x -> alter_at i f l = l.
Proof.
  intros Hn Hx Hf. destruct (assoc_split _ _ _ Hx) as (l1 & l2 & -> & _). rewrite alter_at_split by done. by rewrite Hf.
Qed.

Lemma alter_twice {A} i (f g : A -> A) (l : list (positive * A)) :
  alter_at i g (alter_at i f l) = alter_at i (fun x => g (f x)) l.
Proof.
  unfold alter_at. rewrite map_map. apply map_ext. intros x.
  destruct (decide (fst x = i)) as [E|E]; cbn [fst snd]; [by rewrite decide_True|by rewrite decide_False].
Qed.

Lemma alter_ext {A} i (f g : A -> A) (l : list (positive * A)) x : base.NoDup (map fst l) -> assoc i l = Some x ->
  f x = g x -> alter_at i f l = alter_at i g l.
Proof.
  intros Hn Hx Hf. destruct (assoc_split _ _ _ Hx) as (l1 & l2 & -> & _). by rewrite !alter_at_split, Hf by done.
Qed.

(** * The invariant *)

(** The items of a service have keys. *)
Definition keyed (x : mdns_service_t) : Prop := Forall (fun t => is_Some (key t)) (txt x).

Record registry_ok (s : mdns_server_t) : Prop := {
  ro_live : server_live s;
  ro_counted : services_counted s;
  ro_hosts : base.NoDup (map fst (s_hosts s));
  ro_keyed : Forall (fun x => keyed (snd x)) (s_services s);
}.

Definition action_ok (a : responder_action) : Prop :=
  match a with
  | ACTION_HOSTNAME_SET h => h <> [] /\ cstr_ok h
  | ACTION_INSTANCE_SET i => cstr_ok i
  | ACTION_DELEGATE_HOSTNAME_ADD h l | ACTION_DELEGATE_HOSTNAME_SET_ADDR h l => cstr_ok h /\ Forall addr_ok l
  | ACTION_DELEGATE_HOSTNAME_REMOVE _ => True
  end.

(** The static buffer with the bytes after it that may be read. *)
Definition buffer_ok (b : list Z) : Prop := MDNS_MAX_PACKET_SIZE + overread <= length b /\ Forall byte_ok b.

Section Proofs.
Context (cfg : config) (MDNS_MAX_INTERFACES MDNS_MAX_SERVICES : nat) (addr : list positive -> positive).
Hypothesis addr_new : forall l, addr l ∉ l.
Abbreviation max := MDNS_MAX_INTERFACES.

(** [b] is the number of blocks that belong to others. *)
Record r_ok (b : Z) (s : mdns_server_t) (r : responder) : Prop := {
  r_registry : registry_ok s;
  r_inv : inv max s (b + server_blocks s + rest_blocks r) (r_engine r);
  r_buffer : buffer_ok (r_pkt r);
  r_actions_ok : Forall action_ok (r_actions r);
  r_results_ok : Forall (Forall (fun x => is_Some (lr_txt x))) (r_results r);
}.

(** Every service in the array of a control block is told of by a packet in the
    queue, and the queue owns no strings of questions. *)
Definition covered (e : engine) : Prop :=
  (forall k j, probed e k j -> exists n, n ∈ e_queue e /\ tells n k j) /\ Forall (fun n => plain (snd n)) (e_queue e).

(** What is known of the state besides; [Never rs]: no allocation fails, and [rs] are
    the results handed out. *)
Inductive mode := Any | Never (rs : list (list lookup_result)) | Covered.

Definition in_mode (d : mode) (r : responder) : Prop :=
  match d with
  | Any => True
  | Never rs => never_fails (e_heap (r_engine r)) /\ r_results r = rs
  | Covered => covered (r_engine r)
  end.

Definition nf (d : mode) : bool := match d with Never _ => true | _ => false end.

(** From any state with registry [s] of which [d] is known, [m] returns, and for its result,
    the registry and the blocks of others afterwards [Q] holds, and [d'] is known. *)
Definition rsafe_to (d d' : mode) (b : Z) (s : mdns_server_t) {A} (m : R A) (Q : A -> Z -> mdns_server_t -> Prop) : Prop :=
  forall r, r_ok b s r -> in_mode d r ->
    yields (m r) (fun '(a, r') => exists b' s', r_ok b' s' r' /\ in_mode d' r' /\ Q a b' s').

Abbreviation rsafe d := (rsafe_to d d).

(** * Rules *)

Lemma r_ok_eq b b' s r : r_ok b s r -> b = b' -> r_ok b' s r.
Proof. by intros ? <-. Qed.

Lemma r_server b s r : r_ok b s r -> e_server (r_engine r) = Some s.
Proof. intros Hr. apply (env_server _ _ _ (proj1 (r_inv _ _ _ Hr))). Qed.

Lemma rs_ret {A} d b s (a : A) (Q : A -> Z -> mdns_server_t -> Prop) : Q a b s -> rsafe d b s (mret a) Q.
Proof. intros HQ r Hr Hd. by exists b, s. Qed.

Lemma rs_ret_to {A} d d' b s (a : A) (Q : A -> Z -> mdns_server_t -> Prop) : (forall r, in_mode d r -> in_mode d' r) ->
  Q a b s -> rsafe_to d d' b s (mret a) Q.
Proof. intros Hd HQ r Hr Hr'. exists b, s. auto. Qed.

Lemma rs_ret_any {A} d b s (a : A) (Q : A -> Z -> mdns_server_t -> Prop) : Q a b s -> rsafe_to d Any b s (mret a) Q.
Proof. by apply rs_ret_to. Qed.

Lemma rs_ret_bind {A B d'} d b s (a : A) (f : A -> R B) Q : rsafe_to d d' b s (f a) Q -> rsafe_to d d' b s (mret a ≫= f) Q.
Proof. by intros Hf. Qed.

Lemma rs_bind_to {A B} d d1 d' b s (m : R A) (f : A -> R B) P Q : rsafe_to d d1 b s m P ->
  (forall a b' s', P a b' s' -> rsafe_to d1 d' b' s' (f a) Q) -> rsafe_to d d' b s (m ≫= f) Q.
Proof.
  intros Hm Hf r Hr Hd. eapply st_seq; [by apply Hm|]. intros a r' (b' & s' & Hr' & Hd' & HP). by apply (Hf a b' s').
Qed.

Lemma rs_bind {A B d'} d b s (m : R A) (f : A -> R B) P Q : rsafe d b s m P ->
  (forall a b' s', P a b' s' -> rsafe_to d d' b' s' (f a) Q) -> rsafe_to d d' b s (m ≫= f) Q.
Proof. apply rs_bind_to. Qed.

Lemma rs_weaken {A d'} d b s (m : R A) Q : rsafe_to d d' b s m Q -> rsafe_to d Any b s m Q.
Proof. intros H r Hr Hd. eapply yields_mono; [by apply H|]. intros [a r'] (b' & s' & ? & _ & ?). by exists b', s'. Qed.

Lemma rs_mono {A d'} d b s (m : R A) P Q : rsafe_to d d' b s m P -> (forall a b' s', P a b' s' -> Q a b' s') -> rsafe_to d d' b s m Q.
Proof.
  intros Hm HQ r Hr Hd. eapply yields_mono; [by apply Hm|]. intros [a r'] (b' & s' & Hr' & Hd' & HP). exists b', s'. auto.
Qed.

(** What was known may be forgotten. *)
Lemma rs_forget {A} d d' b s (m : R A) Q : rsafe_to Any d' b s m Q -> rsafe_to d d' b s m Q.
Proof. intros H r Hr _. by apply H. Qed.

Lemma rs_ok {A d'} d b s (m : R A) Q : (registry_ok s -> rsafe_to d d' b s m Q) -> rsafe_to d d' b s m Q.
Proof. intros H r Hr Hd. apply H; [|done|done]. apply (r_registry _ _ _ Hr). Qed.

(** A function of the registry only. *)
Lemma rs_pure {A B d'} d b s (g : responder -> outcome A) (G : option mdns_server_t -> outcome A) (f : A -> R B) P Q :
  (forall r, g r = G (e_server (r_engine r))) -> yields (G (Some s)) P ->
  (forall a, G (Some s) = Ret a -> P a -> rsafe_to d d' b s (f a) Q) -> rsafe_to d d' b s (asks g ≫= f) Q.
Proof.
  intros Hg HG Hf r Hr Hd. eapply (st_asks_spec _ _ _ P).
  - rewrite Hg, (r_server _ _ _ Hr). done.
  - intros a Ha HP. rewrite Hg, (r_server _ _ _ Hr) in Ha. by apply (Hf a Ha HP).
Qed.

Lemma rs_server {B d'} d b s (f : mdns_server_t -> R B) Q : rsafe_to d d' b s (f s) Q -> rsafe_to d d' b s (server ≫= f) Q.
Proof.
  intros Hf. unfold server. eapply (rs_pure _ _ _ _ deref _ (eq s)); [done|done|]. by intros a _ <-.
Qed.

Lemma rs_reads {A B d'} d b s (g : responder -> A) (G : option mdns_server_t -> A) (f : A -> R B) Q :
  (forall r, g r = G (e_server (r_engine r))) -> rsafe_to d d' b s (f (G (Some s))) Q -> rsafe_to d d' b s (reads g ≫= f) Q.
Proof.
  intros Hg Hf r Hr Hd. apply st_reads. rewrite Hg, (r_server _ _ _ Hr). by apply Hf.
Qed.

Lemma rs_get {A B d'} d b s (g : responder -> A) (f : A -> R B) Q :
  (forall r, r_ok b s r -> rsafe_to d d' b s (f (g r)) Q) -> rsafe_to d d' b s (reads g ≫= f) Q.
Proof. intros Hf r Hr Hd. apply st_reads. by apply (Hf r). Qed.

Lemma rs_deref {A B d'} d b s (o : option A) x (f : A -> R B) Q : o = Some x -> rsafe_to d d' b s (f x) Q ->
  rsafe_to d d' b s (asks (fun _ => deref o) ≫= f) Q.
Proof. intros -> Hf. eapply (rs_pure _ _ _ _ (fun _ => Ret x) _ (eq x)); [done|done|]. by intros a _ <-. Qed.

Lemma rs_service {B d'} d b s i x (f : mdns_service_t -> R B) Q : assoc i (s_services s) = Some x ->
  rsafe_to d d' b s (f x) Q -> rsafe_to d d' b s (service_at i ≫= f) Q.
Proof.
  intros Hx Hf r Hr Hd. unfold service_at. apply st_assoc. revert r Hr Hd. apply rs_server. by eapply rs_deref.
Qed.

Lemma r_ok_engine b b' s r e' : r_ok b s r -> inv max s (b' + server_blocks s + rest_blocks r) e' ->
  r_ok b' s (set_engine r e').
Proof. by intros []. Qed.

Lemma rs_alloc {A B d'} d b s (m : H A) (f : A -> R B) P Q : hspecn (nf d) m P ->
  (forall a n, P a n -> rsafe_to d d' (b + n) s (f a) Q) -> rsafe_to d d' b s (alloc m ≫= f) Q.
Proof.
  intros Hm Hf r Hr Hd. eapply (st_allocn (nf d)); [exact Hm|destruct d; try done; intros _; apply Hd|].
  intros a h HP Hh. eapply Hf; [exact HP| |].
  - eapply r_ok_engine; [exact Hr|]. eapply inv_eq; [apply inv_heap, (r_inv _ _ _ Hr)|]. cbn. lia.
  - destruct d; [done|split; [by apply Hh|apply Hd]|exact Hd].
Qed.

Lemma rs_free {B d'} d b s n (f : unit -> R B) Q : rsafe_to d d' (b - n) s (f tt) Q -> rsafe_to d d' b s (alloc (mfree n) ≫= f) Q.
Proof. intros Hf. eapply rs_alloc; [apply hn_mfree|]. intros [] k ->. by rewrite Z.add_opp_r. Qed.

Lemma rs_malloc {B d'} d b s (f : bool -> R B) Q : rsafe_to d d' (b + 1) s (f true) Q ->
  (nf d = false -> rsafe_to d d' b s (f false) Q) -> rsafe_to d d' b s (alloc malloc ≫= f) Q.
Proof.
  intros Ht Hf. eapply rs_alloc; [apply hn_malloc|]. intros [] n [-> Hn]; [done|]. rewrite Z.add_0_r. auto with mdns.
Qed.

Lemma rs_last_free d b s n (Q : unit -> Z -> mdns_server_t -> Prop) : Q tt (b - n)%Z s -> rsafe d b s (alloc (mfree n)) Q.
Proof.
  intros HQ r Hr Hd. cbn. exists (b - n)%Z, s. split_and!; [|by destruct d|done].
  eapply r_ok_engine; [exact Hr|]. eapply inv_eq; [exact (inv_heap _ _ _ _ _ (r_inv _ _ _ Hr))|]. cbn. lia.
Qed.

(** The services the queue and the control blocks point to. *)
Definition used (e : engine) (j : sid) : Prop :=
  (exists k, probed e k j) \/ exists n, n ∈ e_queue e /\ ~ without_service j (snd n).

(** The registry changes, and with it the pointers that are valid: those the queue
    and the control blocks hold still are. *)
Lemma inv_server_used s s' b e : inv max s b e -> (forall j, used e j -> registered s j -> registered s' j) ->
  inv max s' b (set_server e (Some s')).
Proof.
  intros (Henv & [Hn Hq] & Hp & Hl) Hreg. split; [by destruct Henv|]. split; [|split; [|exact Hl]].
  - split; [done|]. rewrite Forall_forall in *. intros n Hin. destruct (Hq n Hin) as [[[] Hd] Hi]. split; [|done]. split; [|done].
    assert (Hal : forall sec, Forall (answer_live s) (get_section (snd n) sec) -> Forall (answer_live s') (get_section (snd n) sec)).
    { intros sec Hal. rewrite Forall_forall in *. intros a Ha. destruct (Hal a Ha) as [Hr Hc]. split; [|done].
      intros j Hj. apply Hreg; [|by apply Hr]. right. exists n. split; [done|]. intros Hw. specialize (Hw sec).
      rewrite Forall_forall in Hw. by apply (Hw a Ha). }
    split; [done|exact (Hal Answers tx_answers_ok)|exact (Hal Servers tx_servers_ok)|exact (Hal Additional tx_additional_ok)].
  - intros i proto Hi. destruct (Hp i proto Hi) as (p & Hlk & Hok). exists p. split; [done|].
    unfold pcb_ok in *. destruct (probe_services p) as [l|] eqn:El; [|done]. destruct Hok as (? & ? & [? Hl'] & ? & ?).
    split_and!; try done. split; [done|]. rewrite Forall_forall in *. intros j Hj. apply Hreg; [|by apply Hl'].
    left. by exists (pcb_index i proto), p, l.
Qed.

Lemma inv_server s s' b e : inv max s b e -> (forall j, registered s j -> registered s' j) ->
  inv max s' b (set_server e (Some s')).
Proof. intros He Hreg. eapply inv_server_used; [exact He|]. auto. Qed.

Lemma rs_put {B d'} d b s g (f : unit -> R B) Q :
  registry_ok (g s) -> (forall j, registered s j -> registered (g s) j) ->
  rsafe_to d d' (b + server_blocks s - server_blocks (g s)) (g s) (f tt) Q -> rsafe_to d d' b s (put_server g ≫= f) Q.
Proof.
  intros Hok Hreg Hf r Hr Hd. unfold put_server. apply st_assoc. revert r Hr Hd. apply rs_server.
  intros r Hr Hd. apply st_writes. apply Hf; [|by destruct d]. destruct Hr as [? Hi ? ? ?]. split; try done.
  eapply inv_eq; [eapply inv_server; [exact Hi|done]|].
  change (rest_blocks (set_engine r (set_server (r_engine r) (Some (g s))))) with (rest_blocks r). lia.
Qed.

(** An operation of the engine. *)
Lemma rs_eng {A B} b s (m : E A) (f : A -> R B) Q :
  (forall b e, registry_ok s -> inv max s b e -> yields (m e) (keeps_inv max s b)) ->
  (forall a, rsafe Any b s (f a) Q) -> rsafe Any b s (eng m ≫= f) Q.
Proof.
  intros Hm Hf r Hr _. eapply (st_seq _ _ _ (fun '(_, r') => r_ok b s r')).
  - unfold eng. pose proof (Hm _ _ (r_registry _ _ _ Hr) (r_inv _ _ _ Hr)) as H. destruct (m (r_engine r)) as [[a e']| | |]; try done.
    by eapply r_ok_engine.
  - intros a r' Hr'. by apply Hf.
Qed.

(** The other fields. *)
Lemma rs_writes {B d'} d b b' s g (f : unit -> R B) Q :
  (forall r, r_engine (g r) = r_engine r /\ r_results (g r) = r_results r) -> (forall r, r_ok b s r -> r_ok b' s (g r)) ->
  rsafe_to d d' b' s (f tt) Q -> rsafe_to d d' b s (writes g ≫= f) Q.
Proof.
  intros He Hg Hf r Hr Hd. apply st_writes. apply Hf; [by apply Hg|]. destruct (He r) as [E1 E2].
  destruct d; cbn in *; by rewrite ?E1, ?E2.
Qed.

Lemma rs_tail {A d'} d b s (m : R A) Q : rsafe_to d d' b s (m ≫= mret) Q -> rsafe_to d d' b s m Q.
Proof. intros H r Hr Hd. specialize (H r Hr Hd). unfold mbind, ST_bind in H. by destruct (m r) as [[a r']| | |]. Qed.

Lemma rs_assoc {A B D d'} d b s (m : R A) (f : A -> R B) (g : B -> R D) Q :
  rsafe_to d d' b s (m ≫= fun a => f a ≫= g) Q -> rsafe_to d d' b s ((m ≫= f) ≫= g) Q.
Proof. intros H r Hr Hd. by apply st_assoc, H. Qed.

Lemma rs_iter {A} d b s (l : list A) (f : A -> R unit) : (forall x, x ∈ l -> rsafe d b s (f x) (fun _ b' s' => b' = b /\ s' = s)) ->
  rsafe d b s (iter l f) (fun _ b' s' => b' = b /\ s' = s).
Proof.
  induction l as [|x l IH]; intros Hf; cbn [iter]; [by apply rs_ret|].
  eapply rs_bind; [apply Hf; left|]. intros [] b' s' [-> ->]. apply IH. intros y Hy. apply Hf. by right.
Qed.

(** * One service changes *)

Lemma with_service_ok s i g x : registry_ok s -> assoc i (s_services s) = Some x -> service_ok (g x) -> keyed (g x) ->
  registry_ok (with_services s (alter_at i g (s_services s))).
Proof.
  intros [[[] Hh] [Hl Hn] Hd Hk] Hx Hs Hg. split; [split; [split|]|split| |]; try done; cbn [s_services with_services].
  - by eapply (Forall_alter_at service_ok).
  - unfold alter_at. by rewrite length_map.
  - by rewrite alter_at_fst.
  - by eapply (Forall_alter_at keyed).
Qed.

Lemma registered_alter s i g j : registered s j -> registered (with_services s (alter_at i g (s_services s))) j.
Proof. unfold registered. cbn. rewrite assoc_alter_at. case_decide; [|done]. by rewrite fmap_is_Some. Qed.

Lemma with_service_blocks s i g x : registry_ok s -> assoc i (s_services s) = Some x ->
  (server_blocks (with_services s (alter_at i g (s_services s)))
   = server_blocks s + srv_blocks (g x) - srv_blocks x)%Z.
Proof.
  intros Hs Hx. unfold server_blocks. cbn [s_services with_services s_hostname s_instance s_hosts]. rewrite (services_blocks_put _ _ _ x); [lia|apply (ro_counted _ Hs)|done].
Qed.

Lemma rs_put_service {B d'} d b s i g x (f : unit -> R B) Q : registry_ok s -> assoc i (s_services s) = Some x ->
  service_ok (g x) -> keyed (g x) ->
  rsafe_to d d' (b + srv_blocks x - srv_blocks (g x)) (with_services s (alter_at i g (s_services s))) (f tt) Q ->
  rsafe_to d d' b s (put_srv i g ≫= f) Q.
Proof.
  intros Hs Hx Hok Hk Hf. unfold put_srv. apply rs_assoc. eapply rs_service; [exact Hx|]. apply rs_put.
  - by eapply with_service_ok.
  - intros j. apply registered_alter.
  - rewrite (with_service_blocks _ _ _ x) by done.
    by replace (b + server_blocks s - (server_blocks s + srv_blocks (g x) - srv_blocks x))%Z
      with (b + srv_blocks x - srv_blocks (g x))%Z by lia.
Qed.

End Proofs.
