(* ===== verification/ResponderCopies.v ===== *)
(** What the responder copies from its callers: strings, TXT items, address lists,
    services.  On failure nothing is kept, or a prefix is. *)
From S2P Require Import Prelude Names Encode EncodeSafe Heap Txt Collision Answers AnswersProofs Engine EngineProofs State Received Cache CacheTree Browse Query Server Responder ResponderProofs.

(** * Arguments *)

(** An item of the caller: it has a key, and its value is at least as long as it says. *)
Definition arg_ok (a : txt_arg) : Prop :=
  (exists k, arg_key a = Some k /\ cstr_ok k)
  /\ forall v, arg_value a = Some v -> Forall byte_ok v /\ Z.to_nat (arg_value_len a) <= length v.

(** The item that is linked for it. *)
Definition item_of (a : txt_arg) : mdns_txt_linked_item_t :=
  mk_txt (arg_key a) ((fun v => take (Z.to_nat (arg_value_len a)) v ++ [0%Z]) <$> arg_value a) (arg_value_len a).

(** The array the caller gives has as many items as it says. *)
Definition args_ok (args : option (list txt_arg)) (n : nat) : Prop :=
  match args with
  | Some l => n <= length l /\ Forall arg_ok l
  | None => n = 0
  end.

(** The list made from the array when [m] of its items could be allocated. *)
Definition items_of (args : option (list txt_arg)) (m : nat) : list mdns_txt_linked_item_t :=
  rev (map item_of (take m (default [] args))).

Lemma take_bytes n v : Forall byte_ok v -> Forall byte_ok (take n v ++ [0%Z]).
Proof. intros Hv. apply Forall_app. split; [by apply Forall_take|]. repeat constructor; lia. Qed.

Lemma item_of_ok a : arg_ok a -> txt_item_ok (item_of a) /\ is_Some (key (item_of a)).
Proof.
  intros [(k & Hk & Hok) Hv]. split; [|cbn; rewrite Hk; eauto]. split.
  - cbn. rewrite Hk. by intros ? [= <-].
  - cbn. intros v (w & Hw & ->)%fmap_Some. destruct (Hv w Hw) as [Hb Hl]. split; [by apply take_bytes|].
    rewrite length_app, length_take. cbn. lia.
Qed.

Lemma list_blocks_cons t l : list_blocks (t :: l) = (1 + item_blocks t + list_blocks l)%Z.
Proof. done. Qed.

(** * Copies *)

Section Copies.
Context {nf : bool}.

Lemma hn_strndup s n : hspecn nf (mdns_mem_strndup s n) (fun r k =>
  (r = Some (take n s) /\ k = 1%Z) \/ (r = None /\ k = 0%Z /\ nf = false)).
Proof.
  unfold mdns_mem_strndup. eapply hn_bind; [apply hn_malloc|]. intros [] k [-> Hn]; apply hn_ret; [left|right];
    split_and!; auto with mdns.
Qed.

Lemma hn_dup s : hspecn nf (mdns_mem_strdup s) (fun r k =>
  (r = Some s /\ k = 1%Z) \/ (r = None /\ k = 0%Z /\ nf = false)).
Proof.
  unfold mdns_mem_strdup. eapply hn_bind; [apply hn_malloc|]. intros [] k [-> Hn]; apply hn_ret; [left|right];
    split_and!; auto with mdns.
Qed.

Lemma hn_copy_value v len : Z.to_nat len <= length v -> hspecn nf (copy_value v len) (fun r k =>
  (r = Some (take (Z.to_nat len) v ++ [0%Z]) /\ k = 1%Z) \/ (r = None /\ k = 0%Z /\ nf = false)).
Proof.
  intros Hl. unfold copy_value. eapply hn_bind; [apply hn_malloc|]. intros [] k [-> Hn]; cbn [negb].
  - eapply hn_lookup; [by apply rd_bytes_yields|]. intros bs ->. apply hn_ret. by left.
  - apply hn_ret. right. split_and!; auto with mdns.
Qed.

Lemma allocate_txt_item_ok a : arg_ok a -> hspecn nf (allocate_txt_item a) (fun r k =>
  (r = Some (item_of a) /\ k = (1 + item_blocks (item_of a))%Z) \/ (r = None /\ k = 0%Z /\ nf = false)).
Proof.
  intros [(x & Hk & _) Hv]. unfold allocate_txt_item, item_of, item_blocks. cbn [key value]. rewrite Hk.
  eapply hn_bind; [apply hn_malloc|]. intros [] k [-> Hn]; cbn [negb].
  2:{ apply hn_ret. right. split_and!; auto with mdns. }
  eapply (hn_lookup _ _ (eq x)); [done|]. intros ? <-.
  eapply hn_bind; [apply hn_dup|]. intros [y|] k [[[=] ->]|([=] & -> & ->)]; subst.
  2:{ eapply hn_bind; [apply hn_mfree|]. intros [] k ->. apply hn_ret. by right. }
  destruct (arg_value a) as [v|] eqn:Ev.
  - destruct (Hv v eq_refl) as [_ Hl]. eapply hn_bind; [by apply hn_copy_value|].
    intros [c|] k [[[=] ->]|([=] & -> & ->)]; subst.
    + apply hn_ret. left. split; [done|]. cbn. lia.
    + eapply hn_bind; [apply hn_mfree|]. intros [] k ->. apply hn_ret. right. split_and!; try done; lia.
  - apply hn_ret. left. split; [|cbn; lia]. by destruct a as [? []|? [] ?].
Qed.

Lemma allocate_txt_from_ok l n : Forall arg_ok l -> forall i acc, i + n <= length l ->
  hspecn nf (allocate_txt_from (Some l) i n acc) (fun r k => exists m, m <= n
    /\ r = rev (map item_of (take m (drop i l))) ++ acc /\ k = (list_blocks r - list_blocks acc)%Z
    /\ (nf = true -> m = n)).
Proof.
  intros Hl. induction n as [|n IH]; intros i acc Hi; cbn [allocate_txt_from].
  { apply hn_ret. exists 0. split_and!; try done. lia. }
  destruct (lookup_lt_is_Some_2 l i ltac:(lia)) as [a Ha].
  eapply (hn_lookup _ _ (eq l)); [done|]. intros ? <-.
  eapply (hn_lookup _ _ (eq a)); [by rewrite Ha|]. intros ? <-.
  rewrite Forall_lookup in Hl. eapply hn_bind; [by apply allocate_txt_item_ok, (Hl i)|].
  intros [t|] k [[[=] ->]|([=] & -> & ->)]; subst.
  - eapply hn_mono; [apply (IH (S i)); lia|]. intros r k (m & Hm & -> & -> & Hn). exists (S m). split_and!.
    + lia.
    + rewrite (drop_S _ _ _ Ha). cbn [take map rev]. by rewrite <- app_assoc.
    + rewrite list_blocks_cons. lia.
    + intros E. by rewrite (Hn E).
  - apply hn_ret. exists 0. split_and!; try done; lia.
Qed.

Lemma allocate_txt_ok args n : args_ok args n ->
  hspecn nf (allocate_txt_base n args) (fun r k => exists m, m <= n /\ r = items_of args m /\ k = list_blocks r
    /\ (nf = true -> m = n)).
Proof.
  intros Hl. unfold allocate_txt_base, items_of. destruct args as [l|]; cbn in Hl.
  - destruct Hl as [Hn Hl]. eapply hn_mono; [apply (allocate_txt_from_ok l n Hl 0 []); done|].
    intros r k (m & Hm & -> & -> & ?). exists m. rewrite app_nil_r, drop_0. cbn. split_and!; try done. lia.
  - subst n. apply hn_ret. by exists 0.
Qed.

Lemma items_of_ok args n m : args_ok args n -> Forall txt_item_ok (items_of args m)
  /\ Forall (fun t => is_Some (key t)) (items_of args m).
Proof.
  intros Hl. assert (Hargs : Forall arg_ok (take m (default [] args))).
  { destruct args as [l|]; cbn in *; [apply Forall_take, Hl|]. rewrite take_nil. constructor. }
  unfold items_of. split; apply List.Forall_rev, Forall_map, (Forall_impl _ _ _ Hargs); intros a Ha; by apply item_of_ok.
Qed.

Lemma items_of_nil args n m : args_ok args n -> m <= n -> items_of args m = [] -> m = 0.
Proof.
  intros Hl Hm Hi. apply (f_equal length) in Hi. unfold items_of in Hi.
  rewrite length_rev, length_map, length_take in Hi. cbn in Hi. destruct args; cbn in *; lia.
Qed.

(** * A new service *)

Context (cfg : config).

(** As much of a string as a label can hold. *)
Abbreviation cut := (take (MDNS_NAME_BUF_LEN cfg - 1)).

(** The service the caller describes, when [m] of its items could be allocated, and
    with the instance name if that could be copied. *)
Definition new_service (service proto : cstr) (h : option cstr) (port_ : Z) (instance : option cstr)
    (args : option (list txt_arg)) (m : nat) : mdns_service_t :=
  mk_service instance (cut service) (cut proto) (cut <$> h) 0 0 port_ (items_of args m) [].

Lemma hn_opt_dup (o : option cstr) :
  hspecn nf (match o with Some s => mdns_mem_strndup s (MDNS_NAME_BUF_LEN cfg - 1) | None => mret None end) (fun r k =>
    k = opt_block r /\ (r = cut <$> o \/ (r = None /\ is_Some o /\ nf = false))).
Proof.
  destruct o as [s|]; [|apply hn_ret; by split; [|left]]. eapply hn_mono; [apply hn_strndup|].
  intros r k [[-> ->]|(-> & -> & ->)]; (split; [done|]); [by left|right; eauto].
Qed.

Lemma create_service_ok service proto h port_ instance n args : args_ok args n ->
  hspecn nf (create_service_base cfg service proto h port_ instance n args) (fun r k =>
    (exists m i, r = Some (new_service service proto h port_ i args m) /\ m <= n /\ (n <> 0 -> m <> 0)
       /\ (nf = true -> m = n)
       /\ (i = cut <$> instance \/ (i = None /\ nf = false))
       /\ k = srv_blocks (new_service service proto h port_ i args m))
    \/ (r = None /\ k = 0%Z /\ nf = false)).
Proof.
  intros Hargs. unfold create_service_base. eapply hn_bind; [apply hn_malloc|]. intros [] k [-> Hn]; cbn [negb].
  2:{ apply hn_ret. right. split_and!; auto with mdns. }
  eapply hn_bind; [by apply allocate_txt_ok|]. intros l k (m & Hm & -> & -> & Hnm).
  destruct (negb (n =? 0) && bool_decide (items_of args m = [])) eqn:Enil.
  { apply andb_true_iff in Enil as [E1%negb_true_iff%Nat.eqb_neq E2%bool_decide_eq_true].
    pose proof (items_of_nil _ _ _ Hargs Hm E2) as ->. rewrite E2.
    eapply hn_bind; [apply hn_mfree|]. intros [] k ->. apply hn_ret. right. split_and!; try done.
    destruct nf; [|done]. by specialize (Hnm eq_refl). }
  assert (Hm0 : n <> 0 -> m <> 0).
  { intros E1 ->. apply andb_false_iff in Enil as [E|E]; [|by apply bool_decide_eq_false in E].
    apply negb_false_iff, Nat.eqb_eq in E. done. }
  eapply hn_bind; [apply hn_opt_dup|]. intros i k [-> Hi].
  eapply hn_bind; [apply hn_opt_dup|]. intros h' k [-> Hh].
  destruct (bool_decide (is_Some h) && negb (bool_decide (is_Some h'))) eqn:Eh.
  { eapply hn_bind; [apply hn_mfree|]. intros [] k ->. apply hn_ret. right. split_and!; [done| |].
    - apply andb_true_iff in Eh as [_ Eh%negb_true_iff%bool_decide_eq_false]. destruct h'; [by destruct Eh|]. cbn. lia.
    - destruct Hh as [->|(_ & _ & ?)]; [|done]. destruct h; done. }
  assert (h' = cut <$> h) as ->.
  { destruct Hh as [->|(-> & [x ->] & _)]; [done|]. done. }
  assert (Hi' : i = cut <$> instance \/ (i = None /\ nf = false)) by (destruct Hi as [->|(-> & _ & ->)]; auto).
  eapply hn_bind; [apply hn_strndup|]. intros sv k [[-> ->]|(-> & -> & ->)].
  2:{ eapply hn_bind; [apply hn_mfree|]. intros [] k ->. apply hn_ret. right. split_and!; try done. lia. }
  eapply hn_bind; [apply hn_strndup|]. intros pr k [[-> ->]|(-> & -> & ->)].
  2:{ eapply hn_bind; [apply hn_mfree|]. intros [] k ->. apply hn_ret. right. split_and!; try done. lia. }
  apply hn_ret. left. exists m, i. split_and!; try done.
  unfold srv_blocks, new_service, subs_blocks. cbn [srv_instance srv_hostname txt subtype length]. lia.
Qed.

Lemma cut_ok s : cstr_ok s -> cstr_ok (cut s).
Proof. apply Forall_take. Qed.

Lemma new_service_ok service proto h port_ instance args n m :
  cstr_ok service -> cstr_ok proto -> (forall x, h = Some x -> cstr_ok x) -> (forall x, instance = Some x -> cstr_ok x) ->
  args_ok args n -> service_ok (new_service service proto h port_ instance args m) /\ keyed (new_service service proto h port_ instance args m).
Proof.
  intros Hs Hp Hh Hi Ha. destruct (items_of_ok args n m Ha) as [H1 H2]. split; [|done].
  split; cbn; try done; try by apply cut_ok. intros x (y & -> & ->)%fmap_Some. apply cut_ok. auto.
Qed.

(** * Addresses *)

Lemma copy_address_list_ok l : hspecn nf (mdns_utils_copy_address_list l) (fun r k =>
  k = Z.of_nat (length r) /\ (r = l \/ (r = [] /\ nf = false))).
Proof.
  unfold mdns_utils_copy_address_list.
  assert (Hgen : forall l head, hspecn nf (mdns_utils_copy_address_list_from head l) (fun r k =>
    k = (Z.of_nat (length r) - Z.of_nat (length head))%Z /\ (r = head ++ l \/ (r = [] /\ nf = false)))).
  { clear l. induction l as [|a l IH]; intros head; cbn [mdns_utils_copy_address_list_from].
    { apply hn_ret. rewrite app_nil_r. split; [lia|by left]. }
    eapply hn_bind; [apply hn_malloc|]. intros [] k [-> Hn]; cbn [negb].
    - eapply hn_mono; [apply IH|]. intros r k [-> [->|[-> ->]]]; (split; [rewrite ?length_app; cbn; lia|]); [left|by right].
      by rewrite <- app_assoc.
    - eapply hn_bind; [apply hn_mfree|]. intros [] k ->. apply hn_ret. split; [cbn; lia|]. right. auto with mdns. }
  eapply hn_mono; [apply Hgen|]. intros r k [-> Hr]. split; [cbn; lia|done].
Qed.

End Copies.
