(* ===== verification/ResponderServices.v ===== *)
(** The functions on services: what each does to the registry, whatever allocations
    fail, and that the blocks are accounted for. *)
From S2P Require Import Prelude Names Encode EncodeSafe Heap Txt Collision Answers AnswersProofs Engine EngineProofs EngineSteps State Received Cache CacheTree Browse Query QuerySafe Server Responder ResponderProofs ResponderCopies.

(** Every service has a host name. *)
Definition named (s : mdns_server_t) : Prop := Forall (fun x => is_Some (srv_hostname (snd x))) (s_services s).

(** When a service can be looked for by its instance. *)
Definition findable (s : mdns_server_t) (instance h : option cstr) : Prop :=
  instance = None \/ mdns_utils_str_null_or_empty h = true \/ named s.

(** The host the caller means. *)
Definition host_for (s : mdns_server_t) (host : option cstr) : option cstr :=
  match host with Some h => Some h | None => s_hostname s end.

(** The service the caller means. *)
Definition selects (s : mdns_server_t) (instance service proto h : option cstr) (i : sid) : Prop :=
  exists x, mdns_utils_get_service_item_instance (Some s) instance service proto h = Ret (Some (i, x)).

(** The registry with one service changed. *)
Definition upd (s : mdns_server_t) (i : sid) (g : mdns_service_t -> mdns_service_t) : mdns_server_t :=
  with_services s (alter_at i g (s_services s)).

Lemma default_instance s : server_ok s -> exists g, get_default_instance_name (Some s) = Some g.
Proof.
  intros [(h & Eh & Hne & _) _ _ _ _]. unfold get_default_instance_name, mdns_priv_get_instance, mdns_priv_get_global_hostname.
  cbn [mbind option_bind]. rewrite Eh. destruct h as [|c h]; [done|]. case_match; cbn; eauto.
  destruct (s_instance s) as [i|]; [eauto|done].
Qed.

Lemma instance_name_match_ok s lhs rhs : server_ok s -> yields (mdns_utils_instance_name_match (Some s) lhs rhs) (fun _ => True).
Proof.
  intros Hs. destruct (default_instance s Hs) as [g Hg]. unfold mdns_utils_instance_name_match. rewrite Hg.
  destruct lhs, rhs; done.
Qed.

Lemma match_instance_ok s x instance service proto h : server_ok s ->
  mdns_utils_str_null_or_empty h = true \/ is_Some (srv_hostname x) ->
  yields (mdns_utils_service_match_instance (Some s) x instance service proto h) (fun _ => True).
Proof.
  intros Hs Hx. unfold mdns_utils_service_match_instance. destruct service, proto; try done.
  case_match; [done|]. eapply yields_bind; [by apply instance_name_match_ok|]. intros [] _; [|done]. cbn [negb].
  case_match; [done|]. destruct (mdns_utils_str_null_or_empty h) eqn:E; [done|]. destruct Hx as [?|[y ->]]; [done|].
  by destruct h.
Qed.

Lemma assoc_in s i x : services_counted s -> In (i, x) (s_services s) -> assoc i (s_services s) = Some x.
Proof. intros [_ Hn] Hin. apply (assoc_elem_of _ _ _ Hn). by apply list_elem_of_In. Qed.

Lemma registered_found s instance service proto h : registry_ok s -> findable s instance h ->
  yields (mdns_utils_get_service_item_instance (Some s) instance service proto h) (fun r =>
    match r with Some (i, x) => assoc i (s_services s) = Some x | None => True end).
Proof.
  intros Hs Hf. unfold mdns_utils_get_service_item_instance. eapply yields_mono; [apply find_first_ok|].
  - apply Forall_forall. intros [i x] Hx. destruct instance; [|done]. apply match_instance_ok; [apply (ro_live _ Hs)|].
    destruct Hf as [?|[?|Hn]]; [done|by left|right]. unfold named in Hn. rewrite Forall_forall in Hn. by apply (Hn (i, x)).
  - intros [[i x]|] Hin; [|done]. apply assoc_in; [apply (ro_counted _ Hs)|done].
Qed.

(** What is left alone. *)
Definition only_services (s s' : mdns_server_t) : Prop := s' = with_services s (s_services s').

Section Services.
Context (cfg : config) (MDNS_MAX_INTERFACES MDNS_MAX_SERVICES : nat) (addr : list positive -> positive).
Hypothesis addr_new : forall l, addr l ∉ l.
Abbreviation max := MDNS_MAX_INTERFACES.
Abbreviation rsafe_to := (rsafe_to MDNS_MAX_INTERFACES).
Abbreviation rsafe d := (rsafe_to d d).

(** The blocks of a changed service. *)
Ltac sblocks := unfold srv_blocks in *; cbn [srv_instance srv_service srv_proto srv_hostname priority weight port txt
  subtype set_srv_instance set_srv_hostname set_srv_port set_srv_txt set_srv_subtype opt_block] in *; try lia.

(** * Shared steps *)

Lemma rs_host {B d'} d b s host (f : option cstr -> R B) Q : rsafe_to d d' b s (f (host_for s host)) Q ->
  rsafe_to d d' b s (host_or_ours host ≫= f) Q.
Proof. intros Hf. destruct host as [h|]; [exact Hf|]. cbn [host_or_ours]. apply rs_assoc, rs_server. exact Hf. Qed.

Lemma rs_on_service_to d d' b s instance service proto h args f (Q : esp_err -> Z -> mdns_server_t -> Prop) :
  (forall r, in_mode d r -> in_mode d' r) ->
  findable s instance h -> Q ESP_ERR_INVALID_ARG b s -> Q ESP_ERR_NOT_FOUND b s ->
  (forall i x, registry_ok s -> args = true -> selects s instance service proto h i -> assoc i (s_services s) = Some x ->
     rsafe_to d d' b s (f (i, x)) Q) ->
  rsafe_to d d' b s (on_service instance service proto h args f) Q.
Proof.
  intros Hd Hf H1 H2 Hok. apply rs_ok. intros Hs. unfold on_service. apply (rs_reads _ _ _ _ _ (fun o => o)); [done|].
  destruct (_ || negb args) eqn:E; [by apply rs_ret_to|]. apply orb_false_iff in E as [_ E%negb_false_iff].
  unfold find_srv.
  eapply (rs_pure _ _ _ _ _ (fun o => mdns_utils_get_service_item_instance o instance service proto h)); [done|by apply registered_found|].
  intros [[i x]|] Hi Hx; [|by apply rs_ret_to].
  apply Hok; try done. by exists x.
Qed.

Lemma rs_on_service d b s instance service proto h args f (Q : esp_err -> Z -> mdns_server_t -> Prop) :
  findable s instance h -> Q ESP_ERR_INVALID_ARG b s -> Q ESP_ERR_NOT_FOUND b s ->
  (forall i x, registry_ok s -> args = true -> selects s instance service proto h i -> assoc i (s_services s) = Some x ->
     rsafe d b s (f (i, x)) Q) ->
  rsafe d b s (on_service instance service proto h args f) Q.
Proof. by apply rs_on_service_to. Qed.

(** A goodbye, a new probe or an announcement for a registered service. *)
Lemma rs_announce {B} b s i ip (f : unit -> R B) Q : registered s i -> rsafe Any b s (f tt) Q ->
  rsafe Any b s (announce_all_pcbs cfg max addr [i] ip ≫= f) Q.
Proof using addr_new.
  intros Hi Hf. unfold announce_all_pcbs.
  apply (rs_bind _ _ _ _ _ _ (fun _ b' s' => b' = b /\ s' = s)); [|by intros [] b' s' [-> ->]].
  apply rs_iter. intros k Hk. apply elem_of_seq in Hk. apply rs_iter. intros proto _. apply rs_tail.
  apply rs_eng; [|intros []; by apply rs_ret]. intros b0 e Hs He.
  eapply yields_mono; [apply (announce_ok cfg max addr s (ro_live _ Hs) (ro_counted _ Hs) addr_new b0)|by intros r [? _]];
    [done|lia|by constructor|apply NoDup_singleton].
Qed.

Lemma rs_probe {B} b s l ip old (f : unit -> R B) Q : base.NoDup l -> Forall (registered s) l -> rsafe Any b s (f tt) Q ->
  rsafe Any b s (eng (mdns_priv_probe_all_pcbs cfg max addr l ip old) ≫= f) Q.
Proof using addr_new.
  intros Hn Hl Hf. apply rs_eng; [|by intros []]. intros b0 e Hs He.
  by apply (probe_all_ok cfg max addr s (ro_live _ Hs) (ro_counted _ Hs) addr_new).
Qed.

Lemma covered_quiet e e' : quiet e e' -> covered e -> covered e'.
Proof.
  intros (Hq & Hp & _) [Hc Hl]. split; [|by rewrite Hq]. intros k j Hj. rewrite Hq. apply Hc.
  destruct Hj as (p & l & Hlk & ?). exists p, l. by rewrite <- Hp.
Qed.

(** A goodbye leaves what is known of the state. *)
Lemma in_mode_quiet d r e' : quiet (r_engine r) e' -> in_mode d r -> in_mode d (set_engine r e').
Proof.
  intros Hq. destruct d as [| |]; [done| |by apply covered_quiet]. intros [Hn ?]. split; [|done]. by apply Hq.
Qed.

Lemma rs_bye {B d'} d b s l ip (f : unit -> R B) Q : Forall (registered s) l -> rsafe_to d d' b s (f tt) Q ->
  rsafe_to d d' b s (eng (mdns_priv_pcb_send_bye_service cfg max (Some l) ip) ≫= f) Q.
Proof.
  intros Hl Hf r Hr Hd. pose proof (r_inv _ _ _ _ Hr) as He.
  pose proof (send_bye_quiet cfg max s (ro_live _ (r_registry _ _ _ _ Hr)) _ _ (Some l) ip He Hl) as H.
  eapply (st_seq _ _ _ (fun '(_, r') => r_ok max b s r' /\ in_mode d r')).
  - unfold eng. destruct (mdns_priv_pcb_send_bye_service _ _ _ _ _) as [[[] e']| | |]; try done. destruct H as [Hi Hq].
    split; [by eapply r_ok_engine|]. by eapply in_mode_quiet.
  - intros [] r' [Hr' Hd']. by apply Hf.
Qed.

Lemma registered_assoc s i x : assoc i (s_services s) = Some x -> registered s i.
Proof. unfold registered. by intros ->. Qed.

Lemma upd_assoc s i g x : assoc i (s_services s) = Some x -> assoc i (s_services (upd s i g)) = Some (g x).
Proof. intros Hx. unfold upd, with_services. cbn [s_services]. rewrite assoc_alter_at, decide_True by done. by rewrite Hx. Qed.

Lemma upd_twice s i f g : upd (upd s i f) i g = upd s i (fun x => g (f x)).
Proof. unfold upd, with_services. cbn [s_services s_hostname s_instance s_hosts s_self_host]. by rewrite alter_twice. Qed.

Lemma upd_ext s i f g x : registry_ok s -> assoc i (s_services s) = Some x -> f x = g x -> upd s i f = upd s i g.
Proof. intros Hs Hx Hf. unfold upd. by rewrite (alter_ext i f g _ x (proj2 (ro_counted _ Hs)) Hx Hf). Qed.

Lemma upd_same s i f x : registry_ok s -> assoc i (s_services s) = Some x -> f x = x -> upd s i f = s.
Proof.
  intros Hs Hx Hf. unfold upd. rewrite (alter_same i f _ x (proj2 (ro_counted _ Hs)) Hx Hf). by destruct s.
Qed.

Lemma rs_upd {B} d b s i g x (f : unit -> R B) Q : registry_ok s -> assoc i (s_services s) = Some x ->
  service_ok (g x) -> keyed (g x) ->
  (registry_ok (upd s i g) -> assoc i (s_services (upd s i g)) = Some (g x) ->
   rsafe d (b + srv_blocks x - srv_blocks (g x)) (upd s i g) (f tt) Q) ->
  rsafe d b s (put_srv i g ≫= f) Q.
Proof.
  intros Hs Hx Hok Hk Hf. eapply rs_put_service; try done. apply Hf; [|by apply upd_assoc].
  by eapply with_service_ok.
Qed.

Lemma service_is_ok s i x : registry_ok s -> assoc i (s_services s) = Some x -> service_ok x /\ keyed x.
Proof.
  intros [[[] _] _ _ Hk] Hx. split; [by eapply (Forall_assoc service_ok)|by eapply (Forall_assoc keyed)].
Qed.

(** * Ports *)

Lemma port_set_ok b s instance service proto host port_ : findable s instance (host_for s host) ->
  rsafe Any b s (mdns_service_port_set_for_host cfg max addr instance service proto host port_) (fun e b' s' => b' = b
    /\ match e with
       | ESP_OK => exists i, selects s instance service proto (host_for s host) i /\ s' = upd s i (fun x => set_srv_port x port_)
       | _ => s' = s
       end).
Proof using addr_new.
  intros Hf. unfold mdns_service_port_set_for_host. apply rs_host. apply rs_on_service; [done|done|done|].
  intros i x Hs _ Hsel Hx. destruct (service_is_ok s i x Hs Hx) as [[] Hk].
  eapply rs_upd; [done|exact Hx|by split|done|]. intros Hs' Hx'.
  apply rs_announce; [by eapply registered_assoc|]. apply rs_ret. split; [sblocks|]. eauto.
Qed.

(** * Adding *)

Abbreviation cut := (take (MDNS_NAME_BUF_LEN cfg - 1)).

(** The caller's strings are strings. *)
Definition str_ok (o : option cstr) : Prop := forall x, o = Some x -> cstr_ok x.

(** A service was added: it is new, it has the fields given, cut to the length of a
    label, and its items.  When an allocation failed, the instance name may be missing
    and some of the items, but not all. *)
Definition added (memory : Prop) (s s' : mdns_server_t) (instance service proto host : option cstr) (port_ : Z)
    (args : option (list txt_arg)) (n : nat) : Prop :=
  mdns_utils_get_service_item_instance (Some s) instance service proto (host_for s host) = Ret None
  /\ length (s_services s) < MDNS_MAX_SERVICES
  /\ exists i sv pr inst m, (i ∉ map fst (s_services s)) /\ service = Some sv /\ proto = Some pr /\ sv <> [] /\ pr <> []
     /\ (inst = (cut <$> instance) \/ inst = None) /\ m <= n /\ (n <> 0 -> m <> 0)
     /\ (memory -> inst = (cut <$> instance) /\ m = n)
     /\ s' = with_services s ((i, new_service cfg sv pr (host_for s host) port_ inst args m) :: s_services s).

Lemma with_new_ok s i x : registry_ok s -> length (s_services s) < 255 -> i ∉ map fst (s_services s) ->
  service_ok x -> keyed x -> registry_ok (with_services s ((i, x) :: s_services s)).
Proof.
  intros [[[] Hh] [Hl Hn] Hd Hk] Hlen Hi Hx Hkx. split; [split; [split|]|split| |]; try done; cbn [s_services with_services].
  - by constructor.
  - cbn. by constructor.
  - by constructor.
Qed.

Lemma registered_cons s i x j : registered s j -> registered (with_services s ((i, x) :: s_services s)) j.
Proof. unfold registered. cbn. by destruct (Pos.eqb_spec j i). Qed.

Lemma host_for_ok s host : registry_ok s -> str_ok host -> str_ok (host_for s host).
Proof.
  intros Hs Hh. destruct host as [h|]; [done|]. destruct (ro_live _ Hs) as [[(g & Hg & _ & Hok)] _]. intros x Hx.
  cbn in Hx. by assert (x = g) as -> by congruence.
Qed.

Lemma host_for_some s host : registry_ok s -> is_Some (host_for s host).
Proof.
  intros Hs. destruct host as [h|]; [eauto|]. destruct (ro_live _ Hs) as [[(g & Hg & _)] _]. cbn. by rewrite Hg.
Qed.

Lemma add_ok d b s instance service proto host port_ args n : MDNS_MAX_SERVICES <= 255 ->
  findable s instance (host_for s host) -> Forall str_ok [instance; service; proto; host] -> args_ok args n ->
  rsafe_to d Any b s (mdns_service_add_for_host_base cfg max MDNS_MAX_SERVICES addr instance service proto host port_ args n)
    (fun e b' s' => b' = b
       /\ match e with ESP_OK => added (nf d = true) s s' instance service proto host port_ args n | _ => s' = s end).
Proof using addr_new.
  intros Hmax Hf Hstr Hargs. rewrite !Forall_cons in Hstr. destruct Hstr as (Hi & Hsv & Hpr & Hho & _).
  apply rs_ok. intros Hs. unfold mdns_service_add_for_host_base.
  apply (rs_reads _ _ _ _ _ (fun o => o)); [done|].
  destruct service as [[|c sv]|]; try by apply rs_ret_any. destruct proto as [[|c' pr]|]; try by apply rs_ret_any.
  destruct (ro_live _ Hs) as [[(g & Hg & _)] _]. rewrite Hg. apply rs_host. unfold can_add_more_services.
  apply rs_assoc, rs_server. cbn [mbind]. change (rsafe_to d Any b s (mret ?x ≫= ?f) ?Q) with (rsafe_to d Any b s (f x) Q).
  destruct (length (s_services s) <? MDNS_MAX_SERVICES) eqn:Hroom; [|by apply rs_ret_any]. apply Nat.ltb_lt in Hroom. cbn [negb].
  unfold find_srv.
  eapply (rs_pure _ _ _ _ _ (fun o => mdns_utils_get_service_item_instance o instance _ _ (host_for s host)));
    [done|by apply registered_found|].
  intros [y|] Hnone _; [by apply rs_ret_any|].
  eapply rs_alloc; [by apply create_service_ok|]. intros r k [(m & inst & -> & Hm & Hm0 & Hnm & Hinst & ->)|(-> & -> & _)].
  2:{ apply rs_ret_any. split; [lia|done]. }
  set (x := new_service cfg _ _ _ _ _ _ _).
  assert (Hx : service_ok x /\ keyed x).
  { eapply new_service_ok; [exact (Hsv _ eq_refl)|exact (Hpr _ eq_refl)|by apply host_for_ok| |exact Hargs].
    intros z Hz. destruct Hinst as [->|[-> _]]; [|done]. apply fmap_Some in Hz as (w & -> & ->). apply cut_ok. by apply Hi. }
  destruct Hx as [Hx Hk]. apply rs_malloc; cbn [negb].
  2:{ intros _. apply rs_free. apply rs_ret_any. split; [lia|done]. }
  apply rs_forget, rs_server. set (i := addr (map fst (s_services s))). pose proof (addr_new (map fst (s_services s))) as Hnew.
  apply rs_put.
  - apply with_new_ok; try done. lia.
  - intros j. apply registered_cons.
  - apply rs_probe.
    + apply NoDup_singleton.
    + constructor; [|constructor]. unfold registered. cbn. by rewrite Pos.eqb_refl.
    + apply rs_ret. split.
      { unfold server_blocks. cbn [s_services with_services s_hostname s_instance s_hosts].
        change (services_blocks ((i, x) :: s_services s)) with (1 + srv_blocks x + services_blocks (s_services s))%Z. lia. }
      split; [done|]. split; [done|]. exists i, (c :: sv), (c' :: pr), inst, m. split_and!; try done.
      * destruct Hinst as [?|[? _]]; auto.
      * intros Hd. split; [|auto]. destruct Hinst as [?|[_ ?]]; [done|congruence].
Qed.

(** * TXT items *)

Lemma set_txt_ok x l : service_ok x -> Forall txt_item_ok l -> service_ok (set_srv_txt x l).
Proof. by intros []. Qed.

Lemma txt_set_ok d b s instance service proto host args n : findable s instance (host_for s host) -> args_ok args n ->
  rsafe_to d Any b s (mdns_service_txt_set_for_host_base cfg max addr instance service proto host args n) (fun e b' s' => b' = b
    /\ match e with
       | ESP_OK => exists i m, selects s instance service proto (host_for s host) i /\ m <= n /\ (n <> 0 -> m <> 0)
           /\ (nf d = true -> m = n)
           /\ s' = upd s i (fun x => set_srv_txt x (items_of args m))
       | _ => s' = s
       end).
Proof using addr_new.
  intros Hf Hargs. unfold mdns_service_txt_set_for_host_base. apply rs_host. apply rs_on_service_to; [done|done|done|done|].
  intros i x Hs _ Hsel Hx. destruct (service_is_ok s i x Hs Hx) as [Hok Hk].
  eapply rs_alloc; [by apply allocate_txt_ok|]. intros l k (m & Hm & -> & -> & Hnm).
  destruct (items_of_ok args n m Hargs) as [H1 H2].
  destruct (negb (n =? 0) && bool_decide (items_of args m = [])) eqn:Enil.
  { apply andb_true_iff in Enil as [_ E2%bool_decide_eq_true]. apply rs_ret_any. rewrite E2. split; [cbn; lia|done]. }
  assert (Hm0 : n <> 0 -> m <> 0).
  { intros E1 ->. apply andb_false_iff in Enil as [E|E]; [|by apply bool_decide_eq_false in E].
    apply negb_false_iff, Nat.eqb_eq in E. done. }
  apply rs_forget. eapply rs_service; [exact Hx|]. eapply rs_upd; [done|exact Hx|apply set_txt_ok; [done|constructor]|constructor|]. intros Hs1 Hx1.
  apply rs_free. eapply rs_upd; [done|exact Hx1|apply set_txt_ok; [apply set_txt_ok; [done|constructor]|done]|exact H2|]. intros Hs2 Hx2.
  apply rs_announce; [by eapply registered_assoc|]. apply rs_ret. split.
  - sblocks.
  - exists i, m. rewrite upd_twice. done.
Qed.

(** The first item with the key of [t] becomes [t]; if there is none, [t] comes first. *)
Fixpoint replaced (t : mdns_txt_linked_item_t) (l : list mdns_txt_linked_item_t) : option (list mdns_txt_linked_item_t) :=
  match l with
  | [] => None
  | u :: l => if decide (key u = key t) then Some (t :: l) else cons u <$> replaced t l
  end.

Definition put_item (t : mdns_txt_linked_item_t) (l : list mdns_txt_linked_item_t) := default (t :: l) (replaced t l).

(** The first item with the key goes. *)
Fixpoint without_key (k : cstr) (l : list mdns_txt_linked_item_t) : list mdns_txt_linked_item_t :=
  match l with
  | [] => []
  | u :: l => if decide (key u = Some k) then l else u :: without_key k l
  end.

Lemma find_key_spec k l : Forall (fun t => is_Some (key t)) l -> yields (find_key k l) (fun r =>
  match r with
  | Some j => exists t, l !! j = Some t /\ key t = Some k /\ delete j l = without_key k l
      /\ forall v len, replaced (mk_txt (Some k) v len) l = Some (alter (fun u => mk_txt (key u) v len) j l)
  | None => without_key k l = l /\ forall v len, replaced (mk_txt (Some k) v len) l = None
  end).
Proof.
  induction 1 as [|t l [k' Hk] _ IH]; cbn [find_key]; [done|]. rewrite Hk. cbn [deref mbind outcome_bind].
  cbn [without_key replaced key]. rewrite Hk. case_bool_decide as E.
  - subst k'. exists t. rewrite decide_True by done. split_and!; try done. intros v len. rewrite decide_True by done. cbn. by rewrite Hk.
  - eapply yields_bind; [exact IH|]. intros [j|] Hj; cbn [option_map yields].
    + destruct Hj as (u & Hu & Hku & Hd & Hr). exists u. rewrite decide_False by congruence. split_and!; try done.
      * change (delete (S j) (t :: l)) with (t :: delete j l). by rewrite Hd.
      * intros v len. rewrite decide_False by congruence. by rewrite Hr.
    + destruct Hj as [Hw Hr]. rewrite decide_False by congruence. split; [by rewrite Hw|].
      intros v len. rewrite decide_False by congruence. by rewrite Hr.
Qed.

Lemma list_blocks_alter l j t v len : l !! j = Some t ->
  (list_blocks (alter (fun u => mk_txt (key u) v len) j l) = list_blocks l - opt_block (value t) + opt_block v)%Z.
Proof.
  revert j. induction l as [|u l IH]; intros j Hj; [done|]. destruct j as [|j]; cbn in Hj.
  - injection Hj as ->. cbn [alter list_alter]. rewrite !list_blocks_cons. unfold item_blocks. cbn [key value]. destruct (value t), v; cbn; lia.
  - change (alter ?f (S j) (u :: l)) with (u :: alter f j l). rewrite !list_blocks_cons, (IH j Hj). lia.
Qed.

Lemma list_blocks_delete l j t : l !! j = Some t -> (list_blocks (delete j l) = list_blocks l - (1 + item_blocks t))%Z.
Proof.
  revert j. induction l as [|u l IH]; intros j Hj; [done|]. destruct j as [|j]; cbn in Hj.
  - injection Hj as ->. cbn [delete list_delete]. rewrite list_blocks_cons. lia.
  - change (delete (S j) (u :: l)) with (u :: delete j l). rewrite !list_blocks_cons, (IH j Hj). lia.
Qed.

(** A property of the items that the changed ones have. *)
Lemma Forall_alter_item (P : mdns_txt_linked_item_t -> Prop) l j f : Forall P l -> (forall t, P t -> P (f t)) ->
  Forall P (alter f j l).
Proof. intros Hl Hf. apply Forall_alter; [done|]. intros t _. apply Hf. Qed.

(** The value that is stored. *)
Definition stored (v : option (list Z)) (len : Z) : option (list Z) := (fun v => take (Z.to_nat len) v ++ [0%Z]) <$> v.
Definition stored_len (v : option (list Z)) (len : Z) : Z := match v with Some _ => len | None => 0%Z end.

Definition value_ok (v : option (list Z)) (len : Z) : Prop :=
  forall x, v = Some x -> Forall byte_ok x /\ Z.to_nat len <= length x.

Lemma stored_ok v len : value_ok v len -> forall w, stored v len = Some w ->
  Forall byte_ok w /\ Z.to_nat (stored_len v len) <= length w.
Proof.
  intros Hv w (x & -> & ->)%fmap_Some. destruct (Hv x eq_refl) as [Hb Hl]. split; [by apply take_bytes|].
  rewrite length_app, length_take. cbn. lia.
Qed.

Lemma put_item_ok b s i x t (Q : esp_err -> Z -> mdns_server_t -> Prop) : registry_ok s -> assoc i (s_services s) = Some x ->
  txt_item_ok t -> Q ESP_ERR_NO_MEM b s -> Q ESP_OK b (upd s i (fun x => set_srv_txt x (put_item t (txt x)))) ->
  forall k, key t = Some k ->
  rsafe Any (b + opt_block (value t)) s (
    s ← service_at i;
    found ← asks (fun _ => find_key k (txt s));
    match found with
    | Some j =>
        _ ← alloc (mfree (match txt s !! j with Some t => opt_block (value t) | None => 0 end));
        _ ← put_srv i (fun s => set_srv_txt s (alter (fun u => mk_txt (key u) (value t) (value_len t)) j (txt s)));
        _ ← announce_all_pcbs cfg max addr [i] false;
        mret ESP_OK
    | None =>
        ok ← alloc malloc;
        if negb ok then _ ← alloc (mfree (opt_block (value t))); mret ESP_ERR_NO_MEM
        else
          new_key ← alloc (mdns_mem_strdup k);
          match new_key with
          | None => _ ← alloc (mfree (1 + opt_block (value t))); mret ESP_ERR_NO_MEM
          | Some new_key =>
              _ ← put_srv i (fun s => set_srv_txt s (mk_txt (Some new_key) (value t) (value_len t) :: txt s));
              _ ← announce_all_pcbs cfg max addr [i] false;
              mret ESP_OK
          end
    end) Q.
Proof using addr_new.
  intros Hs Hx Ht Hno Hyes k Hk. destruct (service_is_ok s i x Hs Hx) as [Hok Hky]. pose proof (srv_txt_ok _ Hok) as Hts.
  destruct t as [kt vt lt]. cbn [key value value_len] in *. subst kt. set (t := mk_txt (Some k) vt lt) in *.
  eapply rs_service; [exact Hx|]. eapply (rs_pure _ _ _ _ _ (fun _ => find_key k (txt x))); [done|by apply find_key_spec|].
  intros [j|] _ Hj.
  - destruct Hj as (u & Hu & Hku & _ & Hr). rewrite Hu. apply rs_free.
    eapply rs_upd; [done|exact Hx| | |].
    + apply set_txt_ok; [done|]. apply Forall_alter_item; [done|]. intros y [Hy _]. split; [done|apply Ht].
    + apply Forall_alter_item; [done|]. by intros y Hy.
    + intros Hs' Hx'. apply rs_announce; [by eapply registered_assoc|]. apply rs_ret.
      rewrite (upd_ext s i _ (fun x => set_srv_txt x (put_item t (txt x))) x Hs Hx) by (unfold put_item, t; by rewrite Hr).
      match goal with |- Q _ ?z _ => replace z with b; [done|] end. sblocks. rewrite (list_blocks_alter _ _ u) by done. lia.
  - destruct Hj as [_ Hr]. apply rs_malloc; cbn [negb].
    2:{ intros _. apply rs_free. apply rs_ret. by replace (b + opt_block vt - opt_block vt)%Z with b by lia. }
    eapply rs_alloc; [apply hn_dup|]. intros c n [[-> ->]|(-> & -> & _)].
    2:{ apply rs_free. apply rs_ret. by replace (b + opt_block vt + 1 + 0 - (1 + opt_block vt))%Z with b by lia. }
    eapply rs_upd; [done|exact Hx| | |].
    + apply set_txt_ok; [done|]. constructor; [done|done].
    + constructor; [by eexists|done].
    + intros Hs' Hx'. apply rs_announce; [by eapply registered_assoc|]. apply rs_ret.
      rewrite (upd_ext s i _ (fun x => set_srv_txt x (put_item t (txt x))) x Hs Hx) by (unfold put_item, t; by rewrite Hr).
      match goal with |- Q _ ?z _ => replace z with b; [done|] end.
      sblocks. rewrite list_blocks_cons. unfold item_blocks. cbn [key value]. destruct vt; cbn; lia.
Qed.

Lemma txt_item_set_ok b s instance service proto host k v len : findable s instance (host_for s host) -> str_ok k ->
  value_ok v len ->
  rsafe Any b s (mdns_service_txt_item_set_for_host_with_explicit_value_len cfg max addr instance service proto host k v len)
    (fun e b' s' => b' = b
    /\ match e with
       | ESP_OK => exists i, selects s instance service proto (host_for s host) i
           /\ s' = upd s i (fun x => set_srv_txt x (put_item (mk_txt k (stored v len) (stored_len v len)) (txt x)))
       | _ => s' = s
       end).
Proof using addr_new.
  intros Hf Hk Hv. unfold mdns_service_txt_item_set_for_host_with_explicit_value_len. apply rs_host.
  apply rs_on_service; [done|done|done|]. intros i x Hs Hargs Hsel Hx.
  apply andb_true_iff in Hargs as [Hkey _]. destruct k as [k|]; [|done]. eapply rs_deref; [done|].
  set (t := mk_txt (Some k) (stored v len) (stored_len v len)).
  assert (Ht : txt_item_ok t).
  { split; [by intros ? [= <-]; apply Hk|]. by apply stored_ok. }
  eapply (rs_bind _ _ _ _ _ _ (fun r b' s' => s' = s /\ ((r = None /\ b' = b)
    \/ (r = Some (stored v len, stored_len v len) /\ b' = (b + opt_block (stored v len))%Z)))).
  { destruct v as [v|].
    - destruct (Hv v eq_refl) as [_ Hl]. eapply rs_alloc; [by apply hn_copy_value|].
      intros c n [[-> ->]|(-> & -> & _)]; apply rs_ret; (split; [done|]); [by right|left; split; [done|lia]].
    - apply rs_ret. split; [done|]. right. split; [done|]. cbn. lia. }
  intros r b' s' [-> [[-> ->]|[-> ->]]]; [by apply rs_ret|].
  eapply (put_item_ok b s i x t); try done. split; [done|]. by exists i.
Qed.

Lemma without_key_incl k l t : t ∈ without_key k l -> t ∈ l.
Proof.
  induction l as [|u l IH]; cbn; [done|]. case_decide; [by right|]. intros [->|?]%elem_of_cons; [left|right; auto].
Qed.

Lemma txt_item_remove_ok b s instance service proto host k : findable s instance (host_for s host) ->
  rsafe Any b s (mdns_service_txt_item_remove_for_host cfg max addr instance service proto host k) (fun e b' s' => b' = b
    /\ match e with
       | ESP_OK => exists i k', selects s instance service proto (host_for s host) i /\ k = Some k'
           /\ s' = upd s i (fun x => set_srv_txt x (without_key k' (txt x)))
       | _ => s' = s
       end).
Proof using addr_new.
  intros Hf. unfold mdns_service_txt_item_remove_for_host. apply rs_host.
  apply rs_on_service; [done|done|done|]. intros i x Hs Hkey Hsel Hx.
  destruct k as [k|]; [|done]. eapply rs_deref; [done|]. eapply rs_service; [exact Hx|].
  destruct (service_is_ok s i x Hs Hx) as [Hok Hky]. pose proof (srv_txt_ok _ Hok) as Hts.
  assert (Hsame : without_key k (txt x) = txt x -> s = upd s i (fun x => set_srv_txt x (without_key k (txt x)))).
  { intros E. symmetry. eapply (upd_same s i _ x); [done|done|]. rewrite E. by destruct x. }
  destruct (txt x) as [|t0 l0] eqn:El.
  { apply rs_ret. split; [done|]. exists i, k. split_and!; try done. by apply Hsame. }
  rewrite <- El in *. eapply (rs_pure _ _ _ _ _ (fun _ => find_key k (txt x))); [done|by apply find_key_spec|].
  intros [j|] _ Hj.
  - destruct Hj as (u & Hu & _ & Hd & _). rewrite Hu. apply rs_assoc. eapply rs_upd; [done|exact Hx| | |].
    + apply set_txt_ok; [done|]. rewrite Hd. rewrite Forall_forall in *. intros y Hy. by apply Hts, (without_key_incl k).
    + unfold keyed in *. cbn [txt set_srv_txt]. rewrite Hd. rewrite Forall_forall in *. intros y Hy. by apply Hky, (without_key_incl k).
    + intros Hs' Hx'. apply rs_free. apply rs_announce; [by eapply registered_assoc|]. apply rs_ret. split.
      * sblocks. rewrite (list_blocks_delete _ _ u) by done. lia.
      * exists i, k. split_and!; try done. apply (upd_ext s i _ _ x); try done. by rewrite Hd.
  - destruct Hj as [Hw _]. apply rs_announce; [by eapply registered_assoc|]. apply rs_ret. split; [done|].
    exists i, k. split_and!; try done. by apply Hsame.
Qed.

(** * Goodbyes for subtypes *)

Lemma create_answer_blocks nf l type service host flush bye :
  hspecn nf (mdns_priv_create_answer l type service host flush bye) (fun r n =>
    n = (Z.of_nat (length (snd r)) - Z.of_nat (length l))%Z).
Proof.
  unfold mdns_priv_create_answer. case_match; [apply hn_ret; cbn; lia|]. eapply hn_bind; [apply hn_malloc|].
  intros [] n [-> _]; apply hn_ret; cbn [negb snd]; rewrite ?length_app; cbn [length]; lia.
Qed.

(** The packet is written inside the static buffer. *)
Lemma subtype_packet_ok st_buf id instance subtypes service proto : buffer_ok st_buf -> label_ok instance ->
  Forall label_ok subtypes -> label_ok service -> label_ok proto ->
  yields (
    b ← wr_bytes st_buf 0 (replicate MDNS_HEAD_LEN 0%Z);
    '(_, pk) ←
      (_ ← set_u16 2 MDNS_FLAGS_QR_AUTHORITATIVE;
       _ ← set_u16 0 id;
       count ← append_subtypes cfg (Some instance) subtypes service proto true true 0;
       set_u16 6 count) (mk_pkt b MDNS_HEAD_LEN);
    Ret pk) (fun pk => buffer_ok (buf pk)).
Proof.
  intros [Hlen Hb] Hi Hst Hsv Hpr. pose proof max_packet_size as Hmax. set (p0 := mk_pkt st_buf 0).
  assert (Hp0 : pkt_ok p0) by (split; simpl; auto; lia).
  destruct (wr_bytes_frame p0 0 (replicate MDNS_HEAD_LEN 0%Z) MDNS_HEAD_LEN) as (b & E & Hp1 & Hf1); auto.
  { apply Forall_replicate. unfold byte_ok. lia. }
  { rewrite length_replicate, Hmax. unfold MDNS_HEAD_LEN. lia. }
  { rewrite Hmax. unfold MDNS_HEAD_LEN. simpl. lia. }
  change st_buf with (buf p0). rewrite E. cbn [mbind outcome_bind].
  match goal with |- context [@mbind _ _ _ _ _ (?m (mk_pkt b MDNS_HEAD_LEN))] =>
    assert (Hm : wpre m (mk_pkt b MDNS_HEAD_LEN) (fun _ _ => True)) end.
  { do 2 wbind. eapply wsafe_bind; [apply append_subtypes_safe; [done|done|done|done|lia]|done|]. intros. by apply set_u16_safe. }
  destruct Hm as ([] & p' & -> & Hp' & _). cbn [yields]. destruct Hp'. by split.
Qed.

Lemma bye_subtype_one_ok b s i x instance subtypes tcpip_if proto : assoc i (s_services s) = Some x -> cstr_ok instance ->
  Forall cstr_ok subtypes ->
  rsafe Any b s (send_bye_subtype_one cfg i (Some instance) subtypes tcpip_if proto) (fun _ b' s' => b' = b /\ s' = s).
Proof.
  intros Hx Hi Hst. apply rs_ok. intros Hs. destruct (service_is_ok s i x Hs Hx) as [Hok _].
  unfold send_bye_subtype_one. apply rs_get. intros r0 _. destruct (e_ready _ _ _); [|by apply rs_ret]. cbn [negb].
  eapply rs_alloc; [apply (alloc_packet_ok false cfg s)|]. intros [p|] n Hp.
  2:{ destruct Hp as [-> _]. apply rs_ret. split; [lia|done]. }
  destruct Hp as (-> & Hbl & _). eapply rs_service; [exact Hx|].
  eapply rs_alloc; [apply create_answer_blocks|]. intros [ok l] n Hn. cbn [fst snd] in *.
  pose proof (packet_blocks_section p Answers l) as Hsec. change (get_section p Answers) with (tx_answers p) in Hsec.
  destruct ok; cbn [negb].
  2:{ unfold mdns_priv_free_tx_packet. apply rs_free. apply rs_ret. split; [lia|done]. }
  intros r Hr Hd. eapply st_asks_spec; [apply subtype_packet_ok; [apply (r_buffer _ _ _ _ Hr)|done|done|apply (srv_service_ok _ Hok)|apply (srv_proto_ok _ Hok)]|].
  intros pk _ Hpk. revert r Hr Hd. eapply rs_writes; [done|intros r []; by split|].
  unfold mdns_priv_free_tx_packet. apply rs_free. apply rs_ret. split; [lia|done].
Qed.

Lemma bye_subtype_ok b s i x instance subtypes : assoc i (s_services s) = Some x -> cstr_ok instance ->
  Forall cstr_ok subtypes ->
  rsafe Any b s (mdns_priv_send_bye_subtype cfg max i (Some instance) subtypes) (fun _ b' s' => b' = b /\ s' = s).
Proof.
  intros Hx Hi Hst. unfold mdns_priv_send_bye_subtype. induction (list_prod _ _) as [|[tcpip_if proto] l IH]; cbn [while_true].
  - by apply rs_ret.
  - eapply rs_bind; [by eapply bye_subtype_one_ok|]. intros [] b' s' [-> ->]; [exact IH|by apply rs_ret].
Qed.

(** * Subtypes *)

(** The registry with the subtypes of one service replaced. *)
Definition with_subtypes (s : mdns_server_t) (i : sid) (l : list cstr) : mdns_server_t := upd s i (fun x => set_srv_subtype x l).

Fixpoint drop_first (st : cstr) (l : list cstr) : list cstr :=
  match l with
  | [] => []
  | u :: l => if decide (u = st) then l else u :: drop_first st l
  end.

Lemma list_find_drop st l : match list_find (fun x => x = st) l with
  | Some (j, _) => st ∈ l /\ delete j l = drop_first st l /\ length (drop_first st l) = length l - 1
  | None => (st ∉ l)
  end.
Proof.
  induction l as [|u l IH]; [apply not_elem_of_nil|]. cbn [list_find drop_first]. destruct (decide (u = st)) as [->|Hne].
  - split_and!; [left|done|cbn; lia].
  - destruct (list_find _ l) as [[j y]|]; cbn [fmap option_fmap option_map prod_map].
    + destruct IH as (H1 & H2 & H3). split_and!; [by right| |].
      * exact (f_equal (cons u) H2).
      * cbn [length]. rewrite H3. destruct l; [by apply elem_of_nil in H1|cbn; lia].
    + rewrite not_elem_of_cons. by split.
Qed.

Lemma drop_first_app st l1 l2 : st ∉ l1 -> drop_first st (l1 ++ st :: l2) = l1 ++ l2.
Proof.
  induction l1 as [|u l1 IH]; cbn; [by rewrite decide_True|]. rewrite not_elem_of_cons. intros [? ?].
  rewrite decide_False by done. by rewrite IH.
Qed.

Lemma drop_first_incl st l y : y ∈ drop_first st l -> y ∈ l.
Proof. induction l as [|u l IH]; cbn; [done|]. case_decide; [by right|]. intros [->|?]%elem_of_cons; [left|right; auto]. Qed.

Lemma set_subtypes_ok x l : service_ok x -> Forall cstr_ok l -> service_ok (set_srv_subtype x l).
Proof. by intros []. Qed.

Lemma with_subtypes_assoc s i x l : assoc i (s_services s) = Some x ->
  assoc i (s_services (with_subtypes s i l)) = Some (set_srv_subtype x l).
Proof. intros Hx. exact (upd_assoc s i (fun x => set_srv_subtype x l) x Hx). Qed.

Lemma rs_subtypes {B} d b s i g x (f : unit -> R B) Q : registry_ok s -> assoc i (s_services s) = Some x ->
  Forall cstr_ok (g (subtype x)) ->
  (registry_ok (with_subtypes s i (g (subtype x))) ->
   assoc i (s_services (with_subtypes s i (g (subtype x)))) = Some (set_srv_subtype x (g (subtype x))) ->
   rsafe d (b + subs_blocks (subtype x) - subs_blocks (g (subtype x))) (with_subtypes s i (g (subtype x))) (f tt) Q) ->
  rsafe d b s (put_srv i (fun s => set_srv_subtype s (g (subtype s))) ≫= f) Q.
Proof.
  intros Hs Hx Hok Hf. destruct (service_is_ok s i x Hs Hx) as [Hxo Hk].
  eapply rs_upd; [done|exact Hx|by apply set_subtypes_ok|exact Hk|]. intros Hs' _.
  assert (E : upd s i (fun s => set_srv_subtype s (g (subtype s))) = with_subtypes s i (g (subtype x))) by (by eapply upd_ext).
  rewrite E in *. replace (b + srv_blocks x - srv_blocks _)%Z
    with (b + subs_blocks (subtype x) - subs_blocks (g (subtype x)))%Z by sblocks.
  apply Hf; [done|]. by apply with_subtypes_assoc.
Qed.

Lemma with_subtypes_twice s i l l' : with_subtypes (with_subtypes s i l) i l' = with_subtypes s i l'.
Proof. unfold with_subtypes. by rewrite upd_twice. Qed.

Lemma with_subtypes_same s i x : registry_ok s -> assoc i (s_services s) = Some x -> with_subtypes s i (subtype x) = s.
Proof. intros Hs Hx. eapply upd_same; [done|done|]. by destruct x. Qed.

Lemma subtype_drop_ok d b s i x st : registry_ok s -> assoc i (s_services s) = Some x ->
  rsafe d b s (service_subtype_remove_for_host i st) (fun r b' s' => b' = b
    /\ ((r = true /\ st ∈ subtype x /\ s' = with_subtypes s i (drop_first st (subtype x)))
        \/ (r = false /\ (st ∉ subtype x) /\ s' = s))).
Proof.
  intros Hs Hx. destruct (service_is_ok s i x Hs Hx) as [Hok _]. pose proof (srv_subtype_ok _ Hok) as Hsts.
  unfold service_subtype_remove_for_host. eapply rs_service; [exact Hx|].
  pose proof (list_find_drop st (subtype x)) as Hl. destruct (list_find _ (subtype x)) as [[j y]|].
  2:{ apply rs_ret. split; [done|by right]. }
  destruct Hl as (Hin & Hd & Hlen). eapply (rs_subtypes _ _ _ _ (fun l => delete j l)); [done|exact Hx| |].
  - rewrite Hd. rewrite Forall_forall in *. intros z Hz. by eapply Hsts, drop_first_incl.
  - rewrite Hd. intros Hs' Hx'. apply rs_free. apply rs_ret. split; [|by left]. unfold subs_blocks. rewrite Hlen.
    destruct (subtype x); [by apply elem_of_nil in Hin|cbn; lia].
Qed.

Lemma subtype_remove_ok b s instance service proto h st : findable s (Some instance) h -> cstr_ok instance -> str_ok st ->
  rsafe Any b s (mdns_service_subtype_remove_for_host cfg max (Some instance) service proto h st) (fun e b' s' => b' = b
    /\ match e with
       | ESP_OK | ESP_ERR_NO_MEM => exists i x st', selects s (Some instance) service proto h i
           /\ assoc i (s_services s) = Some x /\ st = Some st' /\ st' ∈ subtype x
           /\ s' = with_subtypes s i (drop_first st' (subtype x))
       | _ => s' = s
       end).
Proof.
  intros Hf Hi Hst. unfold mdns_service_subtype_remove_for_host. apply rs_on_service; [done|done|done|].
  intros i x Hs Hargs Hsel Hx. destruct st as [st|]; [|done]. eapply rs_deref; [done|].
  eapply rs_bind; [by eapply subtype_drop_ok|]. intros found b' s' [-> [(-> & Hin & ->)|(-> & _ & ->)]]; cbn [negb].
  2:{ by apply rs_ret. }
  assert (Hdone : exists i0 x0 st', selects s (Some instance) service proto h i0 /\ assoc i0 (s_services s) = Some x0
    /\ Some st = Some st' /\ st' ∈ subtype x0 /\ with_subtypes s i (drop_first st (subtype x)) = with_subtypes s i0 (drop_first st' (subtype x0))).
  { by exists i, x, st. }
  apply rs_malloc; cbn [negb]; [|intros _; by apply rs_ret].
  eapply rs_alloc; [apply hn_dup|]. intros c n [[-> ->]|(-> & -> & _)].
  2:{ apply rs_free. apply rs_ret. split; [lia|done]. }
  eapply rs_bind; [eapply bye_subtype_ok; [by apply with_subtypes_assoc|done|constructor; [by apply Hst|done]]|].
  intros [] b' s' [-> ->]. apply rs_free. apply rs_ret. split; [unfold subs_blocks; cbn [length]; lia|done].
Qed.

Lemma subtype_add_one_ok d b s i x st : registry_ok s -> assoc i (s_services s) = Some x -> cstr_ok st ->
  rsafe d b s (service_subtype_add_for_host i st) (fun e b' s' => b' = b
    /\ ((e = ESP_OK /\ (st ∉ subtype x) /\ s' = with_subtypes s i (st :: subtype x))
        \/ (e = ESP_ERR_INVALID_ARG /\ st ∈ subtype x /\ s' = s) \/ (e = ESP_ERR_NO_MEM /\ s' = s))).
Proof.
  intros Hs Hx Hst. destruct (service_is_ok s i x Hs Hx) as [Hok _]. pose proof (srv_subtype_ok _ Hok) as Hsts.
  unfold service_subtype_add_for_host. eapply rs_service; [exact Hx|].
  destruct (decide (st ∈ subtype x)) as [Hin|Hin].
  { rewrite bool_decide_true by done. apply rs_ret. auto 6. }
  rewrite bool_decide_false by done. apply rs_malloc; cbn [negb]; [|intros _; apply rs_ret; auto 6].
  eapply rs_alloc; [apply hn_dup|]. intros c n [[-> ->]|(-> & -> & _)].
  2:{ apply rs_free. apply rs_ret. split; [lia|auto]. }
  eapply (rs_subtypes _ _ _ _ (fun l => st :: l)); [done|exact Hx|by constructor|]. intros _ _. apply rs_ret.
  split; [unfold subs_blocks; cbn [length]; lia|]. by left.
Qed.

(** What was added before the loop ended. *)
Definition adds (e : esp_err) (old l l1 : list cstr) : Prop :=
  base.NoDup l1 /\ (forall y, y ∈ l1 -> y ∉ old) /\ exists l2, l = l1 ++ l2
  /\ match e with
     | ESP_OK => l2 = []
     | ESP_ERR_INVALID_ARG => exists st l3, l2 = st :: l3 /\ st ∈ rev l1 ++ old
     | ESP_ERR_NO_MEM => True
     | _ => False
     end.

Lemma adds_cons e st old l l1 : st ∉ old -> adds e (st :: old) l l1 -> adds e old (st :: l) (st :: l1).
Proof.
  intros Hst (Hn & Hd & l2 & -> & He). split_and!.
  - apply NoDup_cons. split; [|done]. intros Hin. apply (Hd st Hin). left.
  - intros y [->|Hy]%elem_of_cons; [done|]. specialize (Hd y Hy). rewrite not_elem_of_cons in Hd. by destruct Hd.
  - exists l2. split; [done|]. destruct e; try done. destruct He as (y & l3 & -> & Hy). exists y, l3. split; [done|].
    cbn [rev]. rewrite <- app_assoc. exact Hy.
Qed.

Lemma add_subtypes_ok d l : forall b s i x before, registry_ok s -> assoc i (s_services s) = Some x -> Forall cstr_ok l ->
  rsafe d b s (add_subtypes i before l) (fun '(e, all) b' s' => b' = b /\ registry_ok s' /\ exists l1, all = before ++ l1
    /\ adds e (subtype x) l l1 /\ s' = with_subtypes s i (rev l1 ++ subtype x)).
Proof.
  induction l as [|st l IH]; intros b s i x before Hs Hx Hl; cbn [add_subtypes].
  { apply rs_ret. split_and!; try done. exists []. rewrite app_nil_r. split_and!; [done| |].
    - split_and!; [constructor|by intros y ?%elem_of_nil|by exists []].
    - cbn. symmetry. by apply with_subtypes_same. }
  apply Forall_cons in Hl as [Hst Hl]. eapply rs_bind; [by eapply subtype_add_one_ok|].
  intros e b' s' [-> Hcase]. apply rs_ok. intros Hs'.
  assert (Hstop : forall e, adds e (subtype x) (st :: l) [] -> s' = s ->
    rsafe d b s' (mret (e, before)) (fun '(e, all) b' s' => b' = b /\ registry_ok s' /\ exists l1, all = before ++ l1
      /\ adds e (subtype x) (st :: l) l1 /\ s' = with_subtypes s i (rev l1 ++ subtype x))).
  { intros e' He ->. apply rs_ret. split_and!; try done. exists []. rewrite app_nil_r. split_and!; try done.
    cbn. symmetry. by apply with_subtypes_same. }
  assert (H0 : base.NoDup (@nil cstr) /\ forall y, y ∈ @nil cstr -> y ∉ subtype x)
    by (split; [constructor|by intros y ?%elem_of_nil]).
  destruct Hcase as [(-> & Hin & ->)|[(-> & Hin & E)|(-> & E)]].
  - eapply rs_mono; [eapply (IH b _ i _ (before ++ [st])); [done|by apply with_subtypes_assoc|done]|].
    intros [e all] b' s' (-> & Hs2 & l1 & -> & Ha & ->). split_and!; try done. exists (st :: l1).
    rewrite <- app_assoc. split_and!; [done|by apply adds_cons|].
    rewrite with_subtypes_twice. cbn [subtype set_srv_subtype rev]. by rewrite <- app_assoc.
  - apply Hstop; [|done]. split_and!; [apply H0..|]. exists (st :: l). split; [done|]. by exists st, l.
  - apply Hstop; [|done]. split_and!; [apply H0..|]. by exists (st :: l).
Qed.

(** Taking back what was added restores the subtypes. *)
Lemma take_back_ok d i old l1 : forall b s x, registry_ok s -> assoc i (s_services s) = Some x -> subtype x = rev l1 ++ old ->
  base.NoDup l1 -> (forall y, y ∈ l1 -> y ∉ old) ->
  rsafe d b s (iter l1 (fun st => _ ← service_subtype_remove_for_host i st; mret tt)) (fun _ b' s' => b' = b
    /\ s' = with_subtypes s i old).
Proof.
  induction l1 as [|st l1 IH]; intros b s x Hs Hx Hl Hn Hd; cbn [iter].
  { apply rs_ret. split; [done|]. cbn in Hl. subst old. symmetry. by apply with_subtypes_same. }
  apply NoDup_cons in Hn as [Hst Hn]. apply rs_assoc. eapply rs_bind; [by apply (subtype_drop_ok d b s i x st)|].
  assert (Hin : st ∈ subtype x) by (rewrite Hl; cbn [rev]; rewrite !elem_of_app; left; right; left).
  intros r b' s' [-> [(-> & _ & ->)|(_ & Hout & _)]]; [|done].
  assert (Hdrop : drop_first st (subtype x) = rev l1 ++ old).
  { rewrite Hl. cbn [rev]. rewrite <- app_assoc. apply drop_first_app. by rewrite list_elem_of_In, <- in_rev, <- list_elem_of_In. }
  rewrite Hdrop. apply rs_ok. intros Hs'. apply (rs_mono _ _ _ _ _ (fun _ b' s' => b' = b /\ s' = with_subtypes (with_subtypes s i (rev l1 ++ old)) i old)).
  - eapply (IH b _ (set_srv_subtype x (rev l1 ++ old))); try done; [by apply with_subtypes_assoc|].
    intros y Hy. apply Hd. by right.
  - intros _ b' s' [-> ->]. by rewrite with_subtypes_twice.
Qed.

(** The two functions that add: on [ESP_ERR_NO_MEM] the subtypes are [old] again. *)
Lemma subtypes_added_ok b s i x old l announce : registry_ok s -> assoc i (s_services s) = Some x -> subtype x = old ->
  Forall cstr_ok l ->
  rsafe Any b s (r ← add_subtypes i [] l; subtypes_added cfg max addr i r announce) (fun e b' s' => b' = b
    /\ match e with
       | ESP_OK => adds ESP_OK old l l /\ s' = with_subtypes s i (rev l ++ old)
       | ESP_ERR_INVALID_ARG => exists l1, adds e old l l1 /\ s' = with_subtypes s i (rev l1 ++ old)
       | ESP_ERR_NO_MEM => s' = s
       | _ => False
       end).
Proof using addr_new.
  intros Hs Hx <- Hl. eapply rs_bind; [by eapply (add_subtypes_ok Any l b s i x [])|].
  intros [e all] b' s' (-> & Hs' & l1 & -> & Ha & ->). cbn [app].
  pose proof (with_subtypes_assoc s i x (rev l1 ++ subtype x) Hx) as Hx'.
  destruct e; cbn [subtypes_added].
  - pose proof Ha as (_ & _ & l2 & E & ->). rewrite app_nil_r in E. subst l1.
    eapply (rs_bind _ _ _ _ _ _ (fun _ b' s' => b' = b /\ s' = with_subtypes s i (rev l ++ subtype x))).
    + destruct announce; [|by apply rs_ret]. apply rs_tail, rs_announce; [by eapply registered_assoc|by apply rs_ret].
    + intros [] b' s' [-> ->]. by apply rs_ret.
  - apply rs_ret. split; [done|]. by exists l1.
  - by destruct Ha as (_ & _ & ? & _ & []).
  - destruct Ha as (Hn & Hd & _). eapply rs_bind; [by eapply (take_back_ok Any i (subtype x) l1)|].
    intros [] b' s' [-> ->]. apply rs_ret. split; [done|]. rewrite with_subtypes_twice. by apply with_subtypes_same.
  - by destruct Ha as (_ & _ & ? & _ & []).
Qed.

Lemma subtype_add_ok b s instance service proto h l : findable s instance h -> Forall cstr_ok l ->
  rsafe Any b s (mdns_service_subtype_add_multiple_items_for_host cfg max addr instance service proto h l) (fun e b' s' => b' = b
    /\ match e with
       | ESP_OK => exists i x, selects s instance service proto h i /\ assoc i (s_services s) = Some x
           /\ adds ESP_OK (subtype x) l l /\ s' = with_subtypes s i (rev l ++ subtype x)
       | ESP_ERR_INVALID_ARG => s' = s \/ exists i x l1, selects s instance service proto h i
           /\ assoc i (s_services s) = Some x /\ adds e (subtype x) l l1 /\ s' = with_subtypes s i (rev l1 ++ subtype x)
       | _ => s' = s
       end).
Proof using addr_new.
  intros Hf Hl. unfold mdns_service_subtype_add_multiple_items_for_host. apply rs_on_service; [done|by split; [|left]|done|].
  intros i x Hs Hargs Hsel Hx. eapply rs_mono; [by eapply subtypes_added_ok|]. intros e b' s' [-> He]. split; [done|].
  destruct e; try done.
  - destruct He. by exists i, x.
  - destruct He as (l1 & Ha & ->). right. by exists i, x, l1.
Qed.

Lemma filter_blocks (l subtypes : list cstr) :
  (subs_blocks (filter (fun x => x ∈ subtypes) l) + subs_blocks (filter (fun x => x ∉ subtypes) l))%Z = subs_blocks l.
Proof.
  unfold subs_blocks. induction l as [|u l IH]; [done|]. rewrite !filter_cons.
  destruct (decide (u ∈ subtypes)), (decide (u ∉ subtypes)); try done; cbn [length]; lia.
Qed.

Lemma Forall_filter_in (P : cstr -> Prop) (Q : cstr -> Prop) `{!forall x, Decision (Q x)} l : Forall P l -> Forall P (filter Q l).
Proof. rewrite !Forall_forall. intros Hl y Hy. apply Hl. by apply list_elem_of_filter in Hy as [_ ?]. Qed.

Lemma subtype_update_ok b s instance service proto h l : findable s (Some instance) h -> cstr_ok instance -> Forall cstr_ok l ->
  rsafe Any b s (mdns_service_subtype_update_multiple_items_for_host cfg max addr (Some instance) service proto h l)
    (fun e b' s' => b' = b
    /\ match e with
       | ESP_OK => exists i, selects s (Some instance) service proto h i /\ base.NoDup l /\ s' = with_subtypes s i (rev l)
       | ESP_ERR_NO_MEM => exists i, selects s (Some instance) service proto h i /\ s' = with_subtypes s i []
       | ESP_ERR_INVALID_ARG => s' = s \/ exists i l1, selects s (Some instance) service proto h i
           /\ adds e [] l l1 /\ s' = with_subtypes s i (rev l1)
       | _ => s' = s
       end).
Proof using addr_new.
  intros Hf Hi Hl. unfold mdns_service_subtype_update_multiple_items_for_host.
  apply rs_on_service; [done|by split; [|left]|done|]. intros i x Hs _ Hsel Hx.
  destruct (service_is_ok s i x Hs Hx) as [Hok _]. pose proof (srv_subtype_ok _ Hok) as Hsts.
  unfold service_find_subtype_needed_sendbye. apply rs_assoc. eapply rs_service; [exact Hx|]. apply rs_assoc.
  eapply (rs_subtypes _ _ _ _ (filter (fun x => x ∈ l))); [done|exact Hx|by apply Forall_filter_in|]. intros Hs1 Hx1.
  set (s1 := with_subtypes s i _) in *. set (gone := filter (fun x => x ∉ l) (subtype x)).
  change (rsafe Any ?b s1 (mret ?y ≫= ?f) ?Q) with (rsafe Any b s1 (f y) Q). cbn beta.
  set (b1 := (b + subs_blocks (subtype x) - _)%Z).
  assert (Hb1 : b1 = (b + subs_blocks gone)%Z) by (unfold b1, gone; pose proof (filter_blocks (subtype x) l); lia).
  apply (rs_bind _ _ _ _ _ _ (fun _ b' s' => b' = b1 /\ s' = s1)).
  { assert (Hg : Forall cstr_ok gone) by (by apply Forall_filter_in). destruct gone as [|c gone]; [by apply rs_ret|].
    by eapply bye_subtype_ok. }
  intros [] b' s' [-> ->]. apply rs_free. unfold free_service_subtype. apply rs_assoc. eapply rs_service; [exact Hx1|].
  apply rs_assoc, rs_free. eapply (rs_subtypes _ _ _ _ (fun _ => [])); [done|exact Hx1|constructor|]. intros Hs2 Hx2.
  replace (b1 - _ - _ + _ - _)%Z with b by (unfold subs_blocks at 4; cbn [length]; lia).
  assert (E2 : with_subtypes s1 i [] = with_subtypes s i []) by apply with_subtypes_twice. rewrite E2 in *.
  eapply rs_mono; [by eapply (subtypes_added_ok b _ i _ [])|]. intros e b' s' [-> He]. split; [done|].
  destruct e; try done.
  - destruct He as [(Hn & _) ->]. exists i. rewrite app_nil_r, with_subtypes_twice. done.
  - destruct He as (l1 & Ha & ->). right. exists i, l1. rewrite app_nil_r, with_subtypes_twice. done.
  - subst s'. by exists i.
Qed.

(** * Instance names *)

Lemma instance_set_ok b s instance_old service proto host instance : findable s instance_old (host_for s host) -> str_ok instance ->
  rsafe Any b s (mdns_service_instance_name_set_for_host cfg max addr instance_old service proto host instance)
    (fun e b' s' => b' = b
    /\ match e with
       | ESP_OK => exists i, selects s instance_old service proto (host_for s host) i /\ s' = upd s i (fun x => set_srv_instance x instance)
       | ESP_ERR_NO_MEM => exists i, selects s instance_old service proto (host_for s host) i /\ s' = upd s i (fun x => set_srv_instance x None)
       | _ => s' = s
       end).
Proof using addr_new.
  intros Hf Hi. unfold mdns_service_instance_name_set_for_host. apply rs_host. apply rs_on_service; [done|done|done|].
  intros i x Hs Hargs Hsel Hx. apply andb_true_iff in Hargs as [_ Hlen]. destruct instance as [inst|]; [|done].
  apply Nat.leb_le in Hlen. eapply rs_deref; [done|]. eapply rs_service; [exact Hx|].
  destruct (service_is_ok s i x Hs Hx) as [Hok Hk]. pose proof (registered_assoc s i x Hx) as Hreg.
  apply (rs_bind _ _ _ _ _ _ (fun _ b' s' => b' = (b - opt_block (srv_instance x))%Z /\ s' = s)).
  { destruct (srv_instance x); [|apply rs_ret; cbn; split; [lia|done]].
    apply rs_bye; [by constructor|]. by apply rs_last_free. }
  intros [] b' s' [-> ->]. eapply rs_alloc; [apply hn_strndup|]. intros c n Hc.
  assert (Hset : forall c, str_ok c -> service_ok (set_srv_instance x c)) by (intros c' Hc'; by destruct Hok).
  destruct Hc as [[-> ->]|(-> & -> & _)].
  - rewrite take_ge by lia. eapply rs_upd; [done|exact Hx|by apply Hset|exact Hk|]. intros Hs' Hx'.
    apply rs_probe; [apply NoDup_singleton|constructor; [by eapply registered_assoc|constructor]|].
    apply rs_ret. split; [sblocks|]. by exists i.
  - eapply rs_upd; [done|exact Hx|by apply Hset|exact Hk|]. intros Hs' Hx'.
    apply rs_ret. split; [sblocks|]. by exists i.
Qed.

End Services.
