(* ===== verification/ResponderRemove.v ===== *)
(** Removing services and delegated hosts: what is removed is nowhere pointed to
    any more. *)
From S2P Require Import Prelude Names Encode EncodeSafe Heap Txt Collision Answers AnswersProofs Engine EngineProofs EngineSteps State Received Cache CacheTree Browse Query QuerySafe Server Responder ResponderProofs ResponderCopies ResponderServices.

(** The registry without a service. *)
Definition without (s : mdns_server_t) (i : sid) : mdns_server_t := with_services s (remove_at i (s_services s)).

Lemma without_ok s i : registry_ok s -> registry_ok (without s i).
Proof.
  intros [[[] Hh] [Hl Hn] Hd Hk]. split; [split; [split|]|split| |]; try done; cbn [s_services with_services without].
  - by apply (Forall_remove service_ok).
  - exact (Nat.le_trans _ _ _ (sublist_length _ _ (remove_at_sublist i (s_services s))) Hl).
  - by apply remove_at_NoDup.
  - by apply (Forall_remove keyed).
Qed.

Lemma without_registered s i j : registry_ok s -> j <> i -> registered s j -> registered (without s i) j.
Proof.
  intros Hs Hne. unfold registered, without, with_services. cbn [s_services].
  rewrite assoc_remove_at by apply (ro_counted _ Hs). by rewrite decide_False.
Qed.

Lemma without_blocks s i x : assoc i (s_services s) = Some x ->
  (server_blocks (without s i) = server_blocks s - srv_blocks x - 1)%Z.
Proof.
  intros Hx. unfold server_blocks, without, with_services. cbn [s_services s_hostname s_instance s_hosts].
  rewrite (services_blocks_remove _ _ x) by done. lia.
Qed.

Section Remove.
Context (cfg : config) (MDNS_MAX_INTERFACES : nat).
Abbreviation max := MDNS_MAX_INTERFACES.
Abbreviation rsafe_to := (rsafe_to MDNS_MAX_INTERFACES).
Abbreviation rsafe d := (rsafe_to d d).

(** A control block that probes has an open socket. *)
Lemma probed_ready s b e i proto j : inv max s b e -> i < max -> probed e (pcb_index i proto) j -> e_ready e i proto = true.
Proof.
  intros He Hi (p & l & Hp & Hl & _). destruct (inv_pcb _ _ _ _ i proto He Hi) as (p' & Hp' & Hok).
  assert (p' = p) as -> by congruence. unfold pcb_ok in Hok. rewrite Hl in Hok. by destruct Hok as (_ & _ & _ & _ & ?).
Qed.

(** When the packets of a covered service are gone, no array has it. *)
Lemma gone_everywhere s b e e' i : inv max s b e -> covered e -> shrunk e e' ->
  (forall n, n ∈ e_queue e -> e_ready e (tx_if (snd n)) (tx_ip_protocol (snd n)) = true ->
     ~ probed e' (pcb_index (tx_if (snd n)) (tx_ip_protocol (snd n))) i) ->
  forall k, ~ probed e' k i.
Proof.
  intros He [Hc _] Hsh Hn k Hk. destruct (Hc k i (Hsh _ _ Hk)) as (n & Hin & [Hkn _]). subst k.
  eapply Hn; [exact Hin| |exact Hk]. eapply probed_ready; [exact He| |by apply Hsh].
  destruct He as (_ & [_ Hq] & _). rewrite Forall_forall in Hq. apply (Hq n Hin).
Qed.

Lemma rs_unlink {B} b s i x (f : unit -> R B) Q : registry_ok s -> assoc i (s_services s) = Some x ->
  (registry_ok (without s i) -> rsafe Covered (b + srv_blocks x + 1) (without s i) (f tt) Q) ->
  rsafe Covered b s (eng (mdns_priv_remove_scheduled_service_packets i) ≫= fun _ =>
    put_server (fun l => with_services l (remove_at i (s_services l))) ≫= f) Q.
Proof.
  intros Hs Hx Hf r Hr Hd. pose proof (r_inv _ _ _ _ Hr) as He. cbn [in_mode] in Hd.
  pose proof (remove_scheduled_service_packets_ok max s (ro_live _ Hs) _ _ i He (registered_assoc s i x Hx)) as H.
  eapply (st_seq _ _ _ (fun '(_, r') => r_ok max b s r' /\ covered (r_engine r') /\ forall k, used (r_engine r') k -> k <> i)).
  - unfold eng. destruct (mdns_priv_remove_scheduled_service_packets i (r_engine r)) as [[[] e']| | |]; try done.
    destruct H as ((leak & _ & H0 & Hi) & Hw & Hpl & _ & Hsh & Ht & Hn). fold (snd (tt, e')) in Hn. cbn [snd] in *.
    pose proof (gone_everywhere s _ _ e' i He Hd Hsh Hn) as Hgone. destruct Hd as [Hc Hplain].
    rewrite (H0 Hplain), Z.add_0_r in Hi.
    assert (Hne : forall k j, probed e' k j -> j <> i) by (intros k j Hj ->; by apply (Hgone k)).
    split_and!.
    + by eapply r_ok_engine.
    + split; [|by apply Hpl]. intros k j Hj. destruct (Hc k j (Hsh _ _ Hj)) as (n & Hin & Htn). by eapply Ht; [| |eapply Hne].
    + intros j [[k Hj]|(n & Hin & Hnw)]; [by eapply Hne|]. intros ->. apply Hnw. rewrite Forall_forall in Hw. by apply Hw.
  - intros [] r' (Hr' & Hc' & Hu). pose proof (r_server _ _ _ _ Hr') as Es.
    unfold put_server. apply st_assoc. unfold server. eapply st_asks; [by rewrite Es|]. apply st_writes.
    fold (without s i). apply Hf; [by apply without_ok| |exact Hc']. destruct Hr' as [? Hi ? ? ?]. split; try done.
    { by apply without_ok. }
    eapply inv_eq; [eapply (inv_server_used max s); [exact Hi|]|].
    + intros j Hj. apply without_registered; [done|by apply Hu].
    + rewrite (without_blocks s i x) by done.
      change (rest_blocks (set_engine r' (set_server (r_engine r') (Some (without s i))))) with (rest_blocks r'). lia.
Qed.

Lemma drop_service_ok b s i x : registry_ok s -> assoc i (s_services s) = Some x ->
  rsafe Covered b s (drop_service cfg max i) (fun _ b' s' => b' = b /\ s' = without s i).
Proof.
  intros Hs Hx. unfold drop_service. eapply rs_service; [exact Hx|].
  apply rs_bye; [constructor; [by eapply registered_assoc|constructor]|].
  eapply rs_unlink; [done|exact Hx|]. intros Hs'. unfold free_service. apply rs_free. apply rs_last_free. split; [lia|done].
Qed.

Lemma remove_ok b s instance service proto host : findable s instance (host_for s host) ->
  rsafe Covered b s (mdns_service_remove_for_host cfg max instance service proto host) (fun e b' s' => b' = b
    /\ match e with
       | ESP_OK => exists i, selects s instance service proto (host_for s host) i /\ s' = without s i
       | _ => s' = s
       end).
Proof.
  intros Hf. unfold mdns_service_remove_for_host. apply rs_host. apply rs_on_service; [done|done|done|].
  intros i x Hs _ [x' Hsel] Hx.
  assert (Hfirst : forall B (f : option (sid * mdns_service_t) -> R B) Q, rsafe Covered b s (f (Some (i, x'))) Q ->
    rsafe Covered b s (first_match instance service proto (host_for s host) ≫= f) Q).
  { intros B f Q Hk. unfold first_match. destruct instance as [inst|].
    - eapply (rs_pure _ _ _ _ _ (fun o => mdns_utils_get_service_item_instance o (Some inst) service proto (host_for s host)) _ (eq (Some (i, x'))));
        [done|by rewrite Hsel|by intros ? _ <-].
    - eapply (rs_pure _ _ _ _ _ (fun o => mdns_utils_get_service_item_instance o None service proto (host_for s host)) _ (eq (Some (i, x'))));
        [done|by rewrite Hsel|by intros ? _ <-]. }
  apply Hfirst. eapply rs_bind; [by eapply drop_service_ok|]. intros [] b' s' [-> ->]. apply rs_ret. split; [done|].
  exists i. split; [by exists x'|done].
Qed.

(** * All services *)

Lemma remove_each_ok l : forall b s, registry_ok s -> s_services s = l ->
  rsafe Covered b s (iter (map fst l) (fun i =>
    s ← service_at i;
    _ ← eng (mdns_priv_remove_scheduled_service_packets i);
    _ ← put_server (fun l => with_services l (remove_at i (s_services l)));
    _ ← free_service s;
    alloc (mfree 1))) (fun _ b' s' => b' = b /\ s' = with_services s []).
Proof.
  induction l as [|[i x] l IH]; intros b s Hs Hl; cbn [map iter fst].
  { apply rs_ret. split; [done|]. destruct s. cbn in *. by subst. }
  assert (Hx : assoc i (s_services s) = Some x) by (rewrite Hl; cbn; by rewrite Pos.eqb_refl).
  assert (Hw : without s i = with_services s l) by (unfold without; rewrite Hl; cbn [remove_at fst]; by rewrite decide_True).
  apply (rs_bind _ _ _ _ _ _ (fun _ b' s' => b' = b /\ s' = without s i)).
  - eapply rs_service; [exact Hx|]. eapply rs_unlink; [done|exact Hx|]. intros _. unfold free_service.
    apply rs_free. apply rs_last_free. split; [lia|done].
  - intros [] b' s' [-> ->]. apply rs_ok. intros Hs'. rewrite Hw in *. eapply rs_mono; [by apply IH|].
    intros [] b' s' [-> ->]. done.
Qed.

Lemma remove_all_ok b s : rsafe Covered b s (mdns_service_remove_all cfg max) (fun e b' s' =>
  b' = b /\ e = ESP_OK /\ s' = with_services s []).
Proof.
  apply rs_ok. intros Hs. unfold mdns_service_remove_all, mdns_priv_is_server_init.
  apply (rs_reads _ _ _ _ _ (fun o => bool_decide (is_Some o))); [done|]. rewrite bool_decide_true by eauto. cbn [negb].
  apply rs_server. destruct (s_services s) as [|y l] eqn:El.
  { apply rs_ret. split_and!; try done. destruct s. cbn in *. by subst. }
  rewrite <- El. apply (rs_bind _ _ _ _ _ _ (fun _ b' s' => b' = b /\ s' = s)).
  { unfold send_final_bye. apply rs_server. rewrite El, <- El. apply rs_tail. apply rs_bye; [|by apply rs_ret].
    apply (all_services_probe_list s (ro_counted _ Hs)). }
  intros [] b' s' [-> ->]. eapply rs_bind; [by apply remove_each_ok|]. intros [] b' s' [-> ->]. by apply rs_ret.
Qed.

End Remove.
