(* ===== verification/ResponderHosts.v ===== *)
(** Host names, instance names and delegated hosts: the actions of the responder in
    the service task, and the calls that queue them. *)
From S2P Require Import Prelude Names Encode EncodeSafe Heap Txt Collision Answers AnswersProofs Engine EngineProofs EngineSteps State Received Cache CacheTree Browse Query QuerySafe Server Responder ResponderProofs ResponderCopies ResponderServices ResponderRemove.

(** * What the actions do to the registry *)

(** A service of the host [old], as it is after the remapping: it has the new name,
    or none when that could not be copied. *)
Definition renamed (memory : Prop) (old new : cstr) (x x' : mdns_service_t) : Prop :=
  if decide (srv_hostname x = Some old) then x' = set_srv_hostname x (Some new) \/ (~ memory /\ x' = set_srv_hostname x None) else x' = x.

Definition remapped (memory : Prop) (old new : cstr) (s s' : mdns_server_t) : Prop :=
  exists l, s' = with_services s l /\ Forall2 (fun y y' => fst y' = fst y /\ renamed memory old new (snd y) (snd y')) (s_services s) l.

Definition on_host (h : cstr) (x : mdns_service_t) : bool :=
  match srv_hostname x with Some g => strcaseeq g h | None => false end.

Definition host_named (h : cstr) (x : mdns_host_item_t) : bool :=
  match hostname x with Some g => strcaseeq h g | None => false end.

(** The first delegated host with the name. *)
Definition host_at (s : mdns_server_t) (h : cstr) : option (hid * mdns_host_item_t) :=
  List.find (fun y => host_named h (snd y)) (s_hosts s).

Definition ours (s : mdns_server_t) (h : cstr) : bool :=
  match s_hostname s with Some g => strcaseeq h g | None => false end.

(** [memory]: no allocation fails. *)
Definition action_does (memory : Prop) (a : responder_action) (s s' : mdns_server_t) : Prop :=
  match a with
  | ACTION_HOSTNAME_SET h => exists old s1, s_hostname s = Some old /\ remapped memory old h s s1 /\ s' = with_hostname s1 (Some h)
  | ACTION_INSTANCE_SET i => s' = with_instance s (Some i)
  | ACTION_DELEGATE_HOSTNAME_ADD h l =>
      if ours s h || bool_decide (is_Some (host_at s h)) then s' = s
      else (~ memory /\ s' = s)
        \/ exists i, (i ∉ map fst (s_hosts s)) /\ s' = with_hosts s ((i, mk_host (Some h) l) :: s_hosts s)
  | ACTION_DELEGATE_HOSTNAME_SET_ADDR h l => s' =
      match host_at s h with
      | Some (i, x) => if ours s h then s else with_hosts s (alter_at i (fun x => mk_host (hostname x) l) (s_hosts s))
      | None => s
      end
  | ACTION_DELEGATE_HOSTNAME_REMOVE h => s' =
      let s1 := with_services s (List.filter (fun y => negb (on_host h (snd y))) (s_services s)) in
      match host_at s h with
      | Some (i, _) => with_hosts s1 (remove_at i (s_hosts s))
      | None => s1
      end
  end.

(** * Registries *)

Lemma with_hosts_ok s l : registry_ok s -> base.NoDup (map fst l) ->
  Forall (fun x => host_ok (snd x) /\ is_Some (hostname (snd x))) l -> registry_ok (with_hosts s l).
Proof.
  intros [[[] Hh] [Hl Hn] Hd Hk] Hnd Hf. apply Forall_and in Hf as [H1 H2]. by split; [split; [split|]|split| |].
Qed.

Lemma with_instance_ok s i : registry_ok s -> cstr_ok i -> registry_ok (with_instance s (Some i)).
Proof. intros [[[] Hh] [Hl Hn] Hd Hk] Hi. split; [split; [split|]|split| |]; try done. by intros ? [= <-]. Qed.

Lemma with_hostname_ok s h : registry_ok s -> h <> [] -> cstr_ok h -> registry_ok (with_hostname s (Some h)).
Proof.
  intros [[[] Hh] [Hl Hn] Hd Hk] Hne Hi. split; [split; [split|]|split| |]; try done.
  - by exists h.
  - split; [|done]. destruct server_self as [[? ?] _]. split; [by intros ? [= <-]|done].
Qed.

Lemma hosts_ok s : registry_ok s -> Forall (fun x => host_ok (snd x) /\ is_Some (hostname (snd x))) (s_hosts s).
Proof. intros [[[] Hh] _ _ _]. apply Forall_and. done. Qed.

Lemma our_hostname s : registry_ok s -> exists g, s_hostname s = Some g /\ g <> [] /\ cstr_ok g.
Proof. intros Hs. destruct (ro_live _ Hs) as [[Hh] _]. exact Hh. Qed.

(** Searching the hosts. *)
Lemma find_host_eq s h : registry_ok s ->
  find_first (fun x => strcasecmp_eq (Some h) (hostname (snd x))) (s_hosts s) = Ret (host_at s h).
Proof.
  intros Hs. unfold host_at. pose proof (hosts_ok s Hs) as Hf. induction Hf as [|[i x] l [_ [g Hg]] _ IH]; [done|].
  cbn [find_first List.find snd host_named]. unfold host_named. cbn [snd] in *. rewrite Hg. cbn [strcasecmp_eq mbind outcome_bind].
  destruct (strcaseeq h g); [done|exact IH].
Qed.

Lemma host_at_assoc s h i x : registry_ok s -> host_at s h = Some (i, x) -> assoc i (s_hosts s) = Some x.
Proof.
  intros Hs Hh. apply find_some in Hh as [Hin _]. apply (assoc_elem_of _ _ _ (ro_hosts _ Hs)). by apply list_elem_of_In.
Qed.

Lemma ours_eq s h : registry_ok s ->
  negb (mdns_utils_str_null_or_empty (s_hostname s)) && match s_hostname s with Some g => strcaseeq h g | None => false end
  = ours s h.
Proof. intros Hs. destruct (our_hostname s Hs) as (g & Hg & Hne & _). unfold ours. rewrite Hg. by destruct g. Qed.

Lemma is_ours_eq s h : registry_ok s ->
  mdns_utils_hostname_is_ours (Some s) h = Ret (ours s h || bool_decide (is_Some (host_at s h))).
Proof.
  intros Hs. unfold mdns_utils_hostname_is_ours. cbn [mdns_priv_get_global_hostname mbind option_bind mdns_priv_get_hosts].
  rewrite (ours_eq s h Hs). destruct (ours s h); [done|]. by rewrite (find_host_eq s h Hs).
Qed.

Section Hosts.
Context (cfg : config) (MDNS_MAX_INTERFACES : nat) (addr : list positive -> positive).
Hypothesis addr_new : forall l, addr l ∉ l.
Abbreviation max := MDNS_MAX_INTERFACES.
Abbreviation rsafe_to := (rsafe_to MDNS_MAX_INTERFACES).
Abbreviation rsafe d := (rsafe_to d d).

Lemma rs_find_host {B} d b s h (f : option (hid * mdns_host_item_t) -> R B) Q : registry_ok s ->
  rsafe d b s (f (host_at s h)) Q -> rsafe d b s (find_host h ≫= f) Q.
Proof.
  intros Hs Hf. unfold find_host. apply rs_assoc, rs_server.
  eapply (rs_pure _ _ _ _ _ (fun _ => Ret (host_at s h)) _ (eq (host_at s h))); [intros r; by apply find_host_eq|done|].
  by intros ? _ <-.
Qed.

(** Hosts are not pointed to by the parts that must stay valid. *)
Lemma rs_put_hosts {B} d b s l (f : unit -> R B) Q : registry_ok (with_hosts s l) ->
  rsafe d (b + hosts_blocks (s_hosts s) - hosts_blocks l) (with_hosts s l) (f tt) Q ->
  forall g, g s = with_hosts s l -> rsafe d b s (put_server g ≫= f) Q.
Proof.
  intros Hok Hf g Hg. apply rs_put; rewrite Hg; [done|done|].
  by replace (b + server_blocks s - server_blocks (with_hosts s l))%Z with (b + hosts_blocks (s_hosts s) - hosts_blocks l)%Z
    by (unfold server_blocks, with_hosts; cbn [s_hostname s_instance s_services s_hosts]; lia).
Qed.

Lemma rs_sema d b s (Q : unit -> Z -> mdns_server_t -> Prop) : Q tt b s -> rsafe d b s give_action_sema Q.
Proof. intros HQ. apply rs_tail. eapply rs_writes; [done|intros r []; by split|by apply rs_ret]. Qed.

(** * Delegated hosts *)

Lemma delegate_add_ok d b s h l : cstr_ok h -> Forall addr_ok l -> registry_ok s ->
  rsafe d (b + (1 + Z.of_nat (length l))) s (mdns_priv_responder_action cfg max addr (ACTION_DELEGATE_HOSTNAME_ADD h l))
    (fun _ b' s' => b' = b /\ action_does (nf d = true) (ACTION_DELEGATE_HOSTNAME_ADD h l) s s').
Proof using addr_new.
  intros Hh Hl Hs. cbn [mdns_priv_responder_action].
  set (P := fun b' s' => b' = b /\ action_does (nf d = true) (ACTION_DELEGATE_HOSTNAME_ADD h l) s s').
  apply (rs_bind _ _ _ _ _ _ (fun (r : bool) b' s' => if r then P b' s' else b' = (b + (1 + Z.of_nat (length l)))%Z /\ s' = s
    /\ action_does (nf d = true) (ACTION_DELEGATE_HOSTNAME_ADD h l) s s)).
  - unfold mdns_priv_delegate_hostname_add.
    eapply (rs_pure _ _ _ _ _ (fun o => mdns_utils_hostname_is_ours o h) _ (eq _)); [done|by rewrite is_ours_eq|].
    intros o _ <-. destruct (ours s h) eqn:Eo; [apply rs_ret; split_and!; try done; cbn; by rewrite Eo|].
    destruct (host_at s h) as [y|] eqn:Eh; [apply rs_ret; split_and!; try done; cbn; by rewrite Eo, Eh|].
    cbn [orb]. rewrite bool_decide_false by by intros [? ?]. apply rs_malloc; cbn [negb]; [|intros Hnf; apply rs_ret; split_and!; try done; cbn; rewrite Eo, Eh; left; by rewrite Hnf].
    apply rs_server. set (i := addr (map fst (s_hosts s))). pose proof (addr_new (map fst (s_hosts s))) as Hnew.
    eapply rs_put_hosts; [| |done].
    + apply with_hosts_ok; [done|cbn; constructor; [done|apply (ro_hosts _ Hs)]|]. constructor; [|by apply hosts_ok].
      split; [|by eexists]. split; [by intros ? [= <-]|done].
    + apply rs_ret. split; [cbn [hosts_blocks foldr snd]; fold (hosts_blocks (s_hosts s)); unfold host_blocks; cbn; lia|].
      cbn [action_does]. rewrite Eo, Eh. right. by exists i.
  - intros [] b' s' H.
    + apply rs_ret_bind, rs_sema. exact H.
    + destruct H as (-> & -> & Hno). apply rs_assoc, rs_free. unfold mdns_utils_free_address_list. apply rs_free. apply rs_sema.
      split; [lia|exact Hno].
Qed.

Lemma set_address_ok memory b s h l : cstr_ok h -> Forall addr_ok l -> registry_ok s ->
  rsafe Any (b + (1 + Z.of_nat (length l))) s (mdns_priv_responder_action cfg max addr (ACTION_DELEGATE_HOSTNAME_SET_ADDR h l))
    (fun _ b' s' => b' = b /\ action_does memory (ACTION_DELEGATE_HOSTNAME_SET_ADDR h l) s s').
Proof.
  intros Hh Hl Hs. cbn [mdns_priv_responder_action action_does].
  set (s2 := match host_at s h with Some (i, _) => _ | None => s end).
  set (b1 := (b + (1 + Z.of_nat (length l)))%Z).
  apply (rs_bind _ _ _ _ _ _ (fun (r : bool) b' s' => if r then b' = (b + 1)%Z /\ s' = s2 else b' = b1 /\ s' = s /\ s2 = s)).
  - unfold delegate_hostname_set_address. apply rs_server. rewrite (ours_eq s h Hs). unfold s2.
    destruct (ours s h) eqn:Eo; [apply rs_ret; split_and!; try done; by destruct (host_at s h) as [[? ?]|]|].
    apply rs_find_host; [done|]. destruct (host_at s h) as [[i x]|] eqn:Eh; [|by apply rs_ret].
    pose proof (host_at_assoc s h i x Hs Eh) as Hx. unfold mdns_utils_free_address_list. apply rs_free.
    destruct (Forall_assoc (fun x => host_ok x /\ is_Some (hostname x)) _ _ _ (hosts_ok s Hs) Hx) as [[Hn Ha] Hsome].
    eapply rs_put_hosts; [| |done].
    + apply with_hosts_ok; [done|rewrite alter_at_fst; apply (ro_hosts _ Hs)|].
      eapply (Forall_alter_at (fun x => host_ok x /\ is_Some (hostname x))); [apply (ro_hosts _ Hs)|exact Hx| |by apply hosts_ok].
      split; [by split|done].
    + apply rs_ret. split; [|done]. rewrite (hosts_blocks_put _ _ _ x) by (apply (ro_hosts _ Hs) || done).
      unfold host_blocks, b1. cbn [hostname address_list]. lia.
  - intros [] b' s' H.
    + destruct H as [-> ->]. apply rs_ret_bind, rs_last_free. split; [lia|done].
    + destruct H as (-> & -> & E). unfold mdns_utils_free_address_list. apply rs_free. apply rs_last_free. unfold b1. split; [lia|done].
Qed.

(** The loop over the services that removes those of the host. *)
Lemma remove_on_host_ok h l2 : forall b s l1, registry_ok s -> named s -> s_services s = l1 ++ l2 ->
  rsafe Covered b s (iter (map fst l2) (fun i =>
    srv ← service_at i;
    hit ← asks (fun _ => strcasecmp_eq (srv_hostname srv) (Some h));
    if (hit : bool) then drop_service cfg max i else mret tt))
  (fun _ b' s' => b' = b /\ s' = with_services s (l1 ++ List.filter (fun y => negb (on_host h (snd y))) l2)).
Proof.
  induction l2 as [|[i x] l2 IH]; intros b s l1 Hs Hn Hl; cbn [map iter fst List.filter snd].
  { apply rs_ret. split; [done|]. rewrite <- Hl. by destruct s. }
  pose proof (proj2 (ro_counted _ Hs)) as Hnd. rewrite Hl, map_app, NoDup_app in Hnd. destruct Hnd as (_ & Hd & _).
  assert (Hi : i ∉ map fst l1) by (intros Hin; apply (Hd i Hin); left).
  assert (Hx : assoc i (s_services s) = Some x) by (rewrite Hl, assoc_app_ne by done; cbn; by rewrite Pos.eqb_refl).
  pose proof Hn as Hn0. unfold named in Hn0. rewrite Hl, Forall_app, Forall_cons in Hn0. destruct Hn0 as (_ & [g Hg] & _).
  cbn [snd] in Hg. unfold on_host. rewrite Hg.
  apply (rs_bind _ _ _ _ _ _ (fun _ b' s' => b' = b /\ s' = if strcaseeq g h then without s i else s)).
  - eapply rs_service; [exact Hx|].
    eapply (rs_pure _ _ _ _ _ (fun _ => Ret (strcaseeq g h)) _ (eq (strcaseeq g h))); [by rewrite Hg|done|]. intros ? _ <-.
    destruct (strcaseeq g h); [by eapply drop_service_ok|by apply rs_ret].
  - intros [] b' s' [-> ->]. apply rs_ok. intros Hs'. destruct (strcaseeq g h); cbn [negb].
    + assert (Hw : s_services (without s i) = l1 ++ l2)
        by (unfold without, with_services; cbn [s_services]; by rewrite Hl, remove_at_split).
      eapply rs_mono; [apply (IH b (without s i) l1 Hs'); [|done]|].
      * unfold named in *. by apply (Forall_remove (fun x => is_Some (srv_hostname x))).
      * intros _ b' s' [-> ->]. done.
    + eapply rs_mono; [apply (IH b s (l1 ++ [(i, x)]) Hs' Hn); by rewrite <- app_assoc|].
      intros _ b' s' [-> ->]. by rewrite <- app_assoc.
Qed.

Lemma host_remove_ok memory b s h : registry_ok s -> named s ->
  rsafe Covered (b + 1) s (mdns_priv_responder_action cfg max addr (ACTION_DELEGATE_HOSTNAME_REMOVE h))
    (fun _ b' s' => b' = b /\ action_does memory (ACTION_DELEGATE_HOSTNAME_REMOVE h) s s').
Proof.
  intros Hs Hn. cbn [mdns_priv_responder_action action_does]. unfold delegate_hostname_remove. apply rs_assoc, rs_server.
  apply rs_assoc. eapply rs_bind; [by apply (remove_on_host_ok h (s_services s) (b + 1) s [])|].
  intros [] b' s' [-> ->]. cbn [app]. set (s1 := with_services s _). apply rs_ok. intros Hs1. apply rs_assoc.
  apply rs_find_host; [done|]. change (host_at s1 h) with (host_at s h).
  destruct (host_at s h) as [[i x]|] eqn:Eh; [|apply rs_ret_bind, rs_last_free; split; [lia|done]].
  pose proof (host_at_assoc s h i x Hs Eh) as Hx. apply rs_assoc.
  eapply rs_put_hosts; [| |done].
  - apply with_hosts_ok; [done|apply remove_at_NoDup, (ro_hosts _ Hs)|].
    apply (Forall_remove (fun x => host_ok x /\ is_Some (hostname x))), (hosts_ok s Hs).
  - apply rs_free. apply rs_last_free. split; [|done]. change (s_hosts s1) with (s_hosts s).
    rewrite (hosts_blocks_remove _ _ x) by done. lia.
Qed.

(** * Names *)

Lemma renamed_ok memory old new x x' : renamed memory old new x x' -> service_ok x -> keyed x -> cstr_ok new -> service_ok x' /\ keyed x'.
Proof.
  unfold renamed. case_decide; [|by intros ->]. intros Hx [] Hk Hn. destruct Hx as [->|[_ ->]]; (split; [|done]); split; try done.
  by intros ? [= <-].
Qed.

Lemma remap_ok d old new l2 : cstr_ok new -> forall b s l1, registry_ok s -> s_services s = l1 ++ l2 ->
  rsafe d b s (iter (map fst l2) (fun i =>
    srv ← service_at i;
    match srv_hostname srv with
    | None => mret tt
    | Some h =>
        old ← asks (fun _ => deref (Some old));
        if negb (bool_decide (h = old)) then mret tt
        else
          _ ← alloc (mfree 1);
          new ← asks (fun _ => deref (Some new));
          c ← alloc (mdns_mem_strdup new);
          put_srv i (fun s => set_srv_hostname s c)
    end)) (fun _ b' s' => b' = b /\ exists l, s' = with_services s (l1 ++ l)
      /\ Forall2 (fun y y' => fst y' = fst y /\ renamed (nf d = true) old new (snd y) (snd y')) l2 l).
Proof.
  intros Hnew. induction l2 as [|[i x] l2 IH]; intros b s l1 Hs Hl; cbn [map iter fst].
  { apply rs_ret. split; [done|]. exists []. split; [|constructor]. rewrite <- Hl. by destruct s. }
  pose proof (proj2 (ro_counted _ Hs)) as Hnd0. pose proof Hnd0 as Hnd. rewrite Hl, map_app, NoDup_app in Hnd. destruct Hnd as (_ & Hd & _).
  assert (Hi : i ∉ map fst l1) by (intros Hin; apply (Hd i Hin); left).
  assert (Hx : assoc i (s_services s) = Some x) by (rewrite Hl, assoc_app_ne by done; cbn; by rewrite Pos.eqb_refl).
  destruct (service_is_ok s i x Hs Hx) as [Hok Hk].
  apply (rs_bind _ _ _ _ _ _ (fun _ b' s' => b' = b /\ exists x', renamed (nf d = true) old new x x' /\ s' = with_services s (l1 ++ (i, x') :: l2))).
  - assert (Hsame : renamed (nf d = true) old new x x -> rsafe d b s (mret tt) (fun _ b' s' => b' = b
        /\ exists x', renamed (nf d = true) old new x x' /\ s' = with_services s (l1 ++ (i, x') :: l2))).
    { intros Hr. apply rs_ret. split; [done|]. exists x. split; [done|]. rewrite <- Hl. by destruct s. }
    eapply rs_service; [exact Hx|]. destruct (srv_hostname x) as [h|] eqn:Eh.
    2:{ apply Hsame. unfold renamed. by rewrite Eh, decide_False. }
    eapply rs_deref; [done|]. case_bool_decide as E; cbn [negb].
    2:{ apply Hsame. unfold renamed. rewrite Eh, decide_False by congruence. done. }
    subst h. apply rs_free. eapply rs_deref; [done|]. eapply rs_alloc; [apply hn_dup|]. intros c n Hc.
    assert (Hr : renamed (nf d = true) old new x (set_srv_hostname x c)).
    { unfold renamed. rewrite decide_True by done. destruct Hc as [[-> _]|(-> & _ & Hnf)]; [by left|right]. split; [|done]. rewrite Hnf. done. }
    destruct (renamed_ok _ _ _ _ _ Hr Hok Hk Hnew) as [Hok' Hk'].
    apply rs_tail. eapply rs_upd; [done|exact Hx|done|done|]. intros _ _. apply rs_ret. split.
    + unfold srv_blocks. cbn [set_srv_hostname srv_instance srv_hostname txt subtype]. rewrite Eh. cbn [opt_block].
      destruct Hc as [[-> ->]|(-> & -> & _)]; cbn [opt_block]; lia.
    + exists (set_srv_hostname x c). split; [done|]. unfold upd. rewrite Hl in *. by rewrite (alter_at_split i _ x) by done.
  - intros [] b' s' (-> & x' & Hr & ->). apply rs_ok. intros Hs'.
    eapply rs_mono; [apply (IH b _ (l1 ++ [(i, x')]) Hs'); cbn; by rewrite <- app_assoc|].
    intros _ b' s' (-> & l & -> & Hf). split; [done|]. exists ((i, x') :: l). rewrite <- app_assoc. split; [done|].
    constructor; [done|exact Hf].
Qed.

Lemma no_instance_registered s : Forall (registered s) (no_instance s) /\ (registry_ok s -> base.NoDup (no_instance s)).
Proof.
  unfold no_instance. split.
  - apply Forall_forall. intros j Hj. apply list_elem_of_In, in_map_iff in Hj as ([k x] & <- & Hin).
    apply list_elem_of_In, list_elem_of_filter in Hin as [_ Hin].
    pose proof (services_registered s) as Hr. rewrite List.Forall_forall in Hr. apply (Hr (k, x)). by apply list_elem_of_In.
  - intros Hs. eapply sublist_NoDup; [exact (proj2 (ro_counted _ Hs))|]. apply map_sublist, sublist_filter.
Qed.

Lemma bye_no_instance_ok {B d'} d b s ip (f : unit -> R B) Q : rsafe_to d d' b s (f tt) Q ->
  rsafe_to d d' b s (send_bye_all_pcbs_no_instance cfg max ip ≫= f) Q.
Proof.
  intros Hf. unfold send_bye_all_pcbs_no_instance. apply rs_assoc, rs_server.
  destruct (no_instance_registered s) as [Hr _]. destruct (no_instance s) as [|j l]; [exact Hf|]. by apply rs_bye.
Qed.

Lemma restart_all_ok {B} b s (f : unit -> R B) Q : rsafe Any b s (f tt) Q ->
  rsafe Any b s (mdns_priv_restart_all_pcbs cfg max addr ≫= f) Q.
Proof using addr_new.
  intros Hf. unfold mdns_priv_restart_all_pcbs. apply rs_assoc. apply rs_eng.
  { intros b0 e _ He. eapply yields_mono; [by apply (clear_tx_queue_ok max s b0)|]. by intros r [? _]. }
  intros []. apply rs_assoc, rs_server. apply rs_ok. intros Hs.
  destruct (all_services_probe_list s (ro_counted _ Hs)) as [Hn Hl]. by apply rs_probe.
Qed.

Lemma set_global_ok {B} b s h (f : unit -> R B) Q : registry_ok s -> h <> [] -> cstr_ok h ->
  rsafe Any b (with_hostname s (Some h)) (f tt) Q ->
  rsafe Any (b + 1) s (mdns_priv_set_global_hostname (Some h) ≫= f) Q.
Proof.
  intros Hs Hne Hh Hf. unfold mdns_priv_set_global_hostname, mdns_priv_is_server_init. apply rs_assoc.
  apply (rs_reads _ _ _ _ _ (fun o => bool_decide (is_Some o))); [done|]. rewrite bool_decide_true by eauto. cbn [negb].
  apply rs_assoc, rs_server. apply rs_assoc, rs_free. apply rs_assoc. destruct (our_hostname s Hs) as (g & Hg & _). rewrite Hg. cbn [opt_block].
  apply rs_put; [by apply with_hostname_ok|done|].
  replace (b + 1 - 1 + server_blocks s - server_blocks (with_hostname s (Some h)))%Z with b
    by (unfold server_blocks, with_hostname; cbn [s_hostname s_instance s_services s_hosts]; rewrite Hg; cbn [opt_block]; lia).
  destruct (hostname_changed _ _); [|exact Hf]. eapply rs_writes; [done|intros r []; by split|done].
Qed.

Lemma hostname_set_ok d b s h : registry_ok s -> h <> [] -> cstr_ok h ->
  rsafe_to d Any (b + 1) s (mdns_priv_responder_action cfg max addr (ACTION_HOSTNAME_SET h))
    (fun _ b' s' => b' = b /\ action_does (nf d = true) (ACTION_HOSTNAME_SET h) s s').
Proof using addr_new.
  intros Hs Hne Hh. cbn [mdns_priv_responder_action action_does]. apply bye_no_instance_ok, rs_server.
  destruct (our_hostname s Hs) as (g & Hg & _). rewrite Hg. unfold mdns_priv_remap_self_service_hostname. apply rs_assoc, rs_server.
  eapply rs_bind; [by apply (remap_ok d g h (s_services s) Hh (b + 1) s [])|]. intros [] b' s' (-> & l & -> & Hl). cbn [app].
  apply rs_forget, rs_ok. intros Hs1. apply set_global_ok; try done. apply restart_all_ok. apply rs_sema. split; [done|].
  exists g, (with_services s l). split_and!; try done. by exists l.
Qed.

Lemma instance_action_ok memory b s i : registry_ok s -> cstr_ok i ->
  rsafe Any (b + 1) s (mdns_priv_responder_action cfg max addr (ACTION_INSTANCE_SET i))
    (fun _ b' s' => b' = b /\ action_does memory (ACTION_INSTANCE_SET i) s s').
Proof using addr_new.
  intros Hs Hi. cbn [mdns_priv_responder_action action_does]. apply bye_no_instance_ok, rs_server. apply rs_free.
  apply rs_put; [by apply with_instance_ok|done|].
  replace (b + 1 - opt_block (s_instance s) + server_blocks s - server_blocks (with_instance s (Some i)))%Z with b
    by (unfold server_blocks, with_instance; cbn [s_hostname s_instance s_services s_hosts opt_block]; lia).
  unfold mdns_priv_restart_all_pcbs_no_instance. apply rs_server. set (s1 := with_instance s (Some i)).
  destruct (no_instance_registered s1) as [Hr Hn]. specialize (Hn (with_instance_ok s i Hs Hi)).
  destruct (no_instance s1) as [|j l]; [by apply rs_ret|]. apply rs_tail. apply rs_probe; [done|done|done|by apply rs_ret].
Qed.

(** * The service task *)

(** Removing a host needs every service to have one, and no service being probed
    that the queue does not tell of. *)
Definition turn_mode (l : list responder_action) : mode :=
  match l with ACTION_DELEGATE_HOSTNAME_REMOVE _ :: _ => Covered | _ => Any end.

(** Whatever is known, if it is what the removal of a host needs. *)
Lemma action_run_ok d b s a l : registry_ok s -> action_ok a -> (turn_mode (a :: l) = Covered -> d = Covered /\ named s) ->
  rsafe_to d Any (b + action_blocks a) s (mdns_priv_responder_action cfg max addr a)
    (fun _ b' s' => b' = b /\ action_does (nf d = true) a s s').
Proof using addr_new.
  intros Hs Ha Hn. destruct a; cbn [action_blocks action_ok turn_mode] in *.
  - destruct Ha. by apply hostname_set_ok.
  - apply rs_forget. by apply instance_action_ok.
  - destruct Ha. eapply rs_weaken. by apply delegate_add_ok.
  - destruct Ha. apply rs_forget. by apply set_address_ok.
  - destruct (Hn eq_refl) as [-> ?]. eapply rs_weaken. by apply host_remove_ok.
Qed.

Lemma action_turn_ok d b s r : r_ok max b s r -> in_mode d r -> (turn_mode (r_actions r) = Covered -> d = Covered /\ named s) ->
  yields (responder_turn cfg max addr r) (fun '(_, r') => exists s', r_ok max b s' r'
    /\ match r_actions r with a :: _ => action_does (nf d = true) a s s' | [] => s' = s end).
Proof using addr_new.
  intros Hr Hd Hn. unfold responder_turn. apply st_reads. destruct (r_actions r) as [|a l] eqn:El.
  { cbn. by exists s. }
  apply st_writes. pose proof (r_registry _ _ _ _ Hr) as Hs.
  assert (Ha : Forall action_ok (a :: l)) by (rewrite <- El; apply (r_actions_ok _ _ _ _ Hr)). apply Forall_cons in Ha as [Ha Hl].
  set (r1 := set_r_actions r l).
  assert (Hr1 : r_ok max (b + 1 + action_blocks a) s r1).
  { destruct Hr as [? Hi ? ? ?]. split; try done. eapply inv_eq; [exact Hi|]. unfold rest_blocks, r1.
    cbn [hostname_changed_cbs r_actions r_results set_r_actions]. rewrite El. cbn [actions_blocks foldr]. unfold actions_blocks. lia. }
  assert (Hd1 : in_mode d r1) by (destruct d; exact Hd).
  pose proof (rs_bind_to max _ _ Any _ _ _ (fun _ => alloc (mfree 1)) _ (fun _ b' s' => b' = b /\ action_does (nf d = true) a s s')
    (action_run_ok d (b + 1) s a l Hs Ha Hn)) as H.
  eapply yields_mono; [apply H; [|exact Hr1|exact Hd1]|].
  - intros [] b' s' [-> Hdo]. apply rs_last_free. split; [lia|done].
  - intros [[] r'] (b' & s' & Hr' & _ & -> & Hdo). by exists s'.
Qed.

(** * Queueing *)

(** What a call that queues an action leaves: the registry as it was, and the blocks of
    others; when the queue refuses an action, up to [k] blocks are lost. *)
Definition queues (b : Z) (s : mdns_server_t) (k : Z) (e : esp_err) (b' : Z) (s' : mdns_server_t) : Prop :=
  s' = s /\ (b <= b' <= b + k)%Z /\ (e <> ESP_ERR_NO_MEM -> b' = b).

Lemma rs_queue {B} d b s a (f : bool -> R B) Q : action_ok a -> rsafe d b s (f true) Q ->
  rsafe d (b + 1 + action_blocks a) s (f false) Q -> rsafe d (b + 1 + action_blocks a) s (queue_action a ≫= f) Q.
Proof.
  intros Ha Ht Hf. unfold queue_action. apply rs_assoc, rs_get. intros r0 _. destruct (next_bool _) as [ok rest].
  apply rs_assoc. eapply (rs_writes _ _ _ (b + 1 + action_blocks a)); [done|intros r []; by split|].
  destruct ok; [|exact Hf]. apply rs_assoc. eapply rs_writes; [done| |exact Ht]. intros r [? Hi ? Hl ?]. split; try done.
  - eapply inv_eq; [exact Hi|]. unfold rest_blocks. cbn [hostname_changed_cbs r_actions r_results set_r_actions].
    unfold actions_blocks. rewrite foldr_app. cbn [foldr].
    assert (Hs : forall l z, foldr (fun a n => 1 + action_blocks a + n)%Z z l = (foldr (fun a n => 1 + action_blocks a + n) 0 l + z)%Z).
    { clear. intros l z. induction l as [|x l IH]; cbn [foldr]; [lia|]. rewrite IH. lia. }
    rewrite (Hs (r_actions r) (1 + action_blocks a + 0)%Z). lia.
  - cbn. apply Forall_app. split; [done|]. by constructor.
Qed.

Lemma send_name_ok b s name make k invalid : str_ok name -> invalid <> ESP_ERR_NO_MEM ->
  (forall c b, c <> [] -> cstr_ok c -> rsafe Any b s (make c) (fun a b' s' => s' = s /\ action_ok a
     /\ b' = (b + action_blocks a - 1)%Z /\ (1 <= action_blocks a <= 1 + k)%Z)) ->
  (0 <= k)%Z -> rsafe Any b s (send_name_action cfg name make invalid) (queues b s k).
Proof.
  intros Hname Hinv Hmake Hk. unfold send_name_action.
  assert (Hsame : forall e, rsafe Any b s (mret e) (queues b s k)) by (intros e; apply rs_ret; split_and!; [done|lia|lia|done]).
  destruct name as [[|c n]|]; try apply Hsame. destruct (Nat.ltb_spec (MDNS_NAME_BUF_LEN cfg - 1) (length (c :: n))) as [|Hlen]; [apply Hsame|].
  eapply rs_alloc; [apply hn_strndup|]. rewrite take_ge by done. intros r m [[-> ->]|(-> & -> & _)].
  2:{ rewrite Z.add_0_r. apply Hsame. }
  apply rs_malloc; cbn [negb].
  2:{ intros _. apply rs_free. replace (b + 1 - 1)%Z with b by lia. apply Hsame. }
  eapply rs_bind; [apply Hmake; [done|by apply Hname]|]. intros a b' s' (-> & Ha & -> & Hb).
  replace (b + 1 + 1 + action_blocks a - 1)%Z with (b + 1 + action_blocks a)%Z by lia.
  apply rs_queue; [done|apply Hsame|]. apply rs_free. apply rs_ret. split_and!; [done|lia|lia|done].
Qed.

Lemma rs_started b s (m : R esp_err) Q : rsafe Any b s m Q -> rsafe Any b s (if_started m) Q.
Proof.
  intros Hm. unfold if_started, mdns_priv_is_server_init.
  apply (rs_reads _ _ _ _ _ (fun o => bool_decide (is_Some o))); [done|]. by rewrite bool_decide_true by eauto.
Qed.

Lemma call_hostname_ok b s h : str_ok h -> rsafe Any b s (mdns_hostname_set cfg h) (queues b s 0).
Proof.
  intros Hh. unfold mdns_hostname_set, mdns_priv_is_server_init.
  apply (rs_reads _ _ _ _ _ (fun o => bool_decide (is_Some o))); [done|]. rewrite bool_decide_true by eauto. cbn [negb].
  apply send_name_ok; try done. intros c b0 Hne Hc. apply rs_ret. cbn. split_and!; try done; lia.
Qed.

Lemma call_instance_ok b s i : str_ok i -> rsafe Any b s (mdns_instance_name_set cfg i) (queues b s 0).
Proof.
  intros Hi. apply rs_started. apply rs_server. apply rs_ok. intros Hs. destruct (our_hostname s Hs) as (g & Hg & _). rewrite Hg.
  apply send_name_ok; try done. intros c b0 Hne Hc. apply rs_ret. cbn. split_and!; try done; lia.
Qed.

Lemma call_remove_host_ok b s h : str_ok h -> rsafe Any b s (mdns_delegate_hostname_remove cfg h) (queues b s 0).
Proof.
  intros Hh. apply rs_started. apply send_name_ok; try done. intros c b0 Hne Hc. apply rs_ret. cbn. split_and!; try done; lia.
Qed.

(** A list that could not be copied is sent empty. *)
Lemma copied_list_ok b s l c (make : cstr -> list esp_ip_addr_t -> responder_action) : Forall addr_ok l -> cstr_ok c ->
  (forall l, Forall addr_ok l -> action_ok (make c l)) -> (forall l, action_blocks (make c l) = (1 + Z.of_nat (length l))%Z) ->
  rsafe Any b s (l ← alloc (mdns_utils_copy_address_list l); mret (make c l)) (fun a b' s' => s' = s /\ action_ok a
     /\ b' = (b + action_blocks a - 1)%Z /\ (1 <= action_blocks a <= 1 + Z.of_nat (length l))%Z).
Proof.
  intros Hl Hc Hok Hb. eapply rs_alloc; [apply copy_address_list_ok|]. intros l' n [-> Hl']. apply rs_ret. rewrite Hb.
  assert (Forall addr_ok l' /\ length l' <= length l) as [H1 H2]
    by (destruct Hl' as [->|[-> _]]; split; [done|done|constructor|cbn; lia]).
  split_and!; [done|by apply Hok|lia..].
Qed.

Lemma call_add_host_ok b s h l : str_ok h -> Forall addr_ok l ->
  rsafe Any b s (mdns_delegate_hostname_add cfg h l) (queues b s (Z.of_nat (length l))).
Proof.
  intros Hh Hl. apply rs_started. apply send_name_ok; [done|done| |lia]. intros c b0 Hne Hc. by apply copied_list_ok.
Qed.

Lemma call_set_address_ok b s h l : str_ok h -> Forall addr_ok l ->
  rsafe Any b s (mdns_delegate_hostname_set_address cfg h l) (queues b s (Z.of_nat (length l))).
Proof.
  intros Hh Hl. apply rs_started. apply send_name_ok; [done|done| |lia]. intros c b0 Hne Hc. by apply copied_list_ok.
Qed.

(** * Callbacks *)

Lemma register_callback_ok b s cb arg :
  rsafe Any b s (mdns_register_hostname_changed_callback cb arg) (fun _ b' s' => b' = b /\ s' = s).
Proof.
  apply rs_started. destruct cb as [cb|]; [|by apply rs_ret]. apply rs_get. intros r0 _. case_match; [by apply rs_ret|].
  apply rs_malloc; cbn [negb]; [|intros _; by apply rs_ret]. eapply rs_writes; [done| |by apply rs_ret].
  intros r [? Hi ? ? ?]. split; try done. eapply inv_eq; [exact Hi|]. unfold rest_blocks.
  cbn [hostname_changed_cbs r_actions r_results set_cbs length]. lia.
Qed.

End Hosts.
