(* ===== verification/ResponderLookup.v ===== *)
(** Looking up one's own services: the results are copies of the services that match,
    and freeing them gives back every block. *)
From S2P Require Import Prelude Names Encode EncodeSafe Heap Txt Collision Answers AnswersProofs Engine EngineProofs EngineSteps State Received Cache CacheTree Browse Query QuerySafe Server Responder ResponderProofs ResponderCopies ResponderServices ResponderRemove ResponderHosts.

(** * What a lookup returns *)

(** The copy of an item. *)
Definition copied_item (t : mdns_txt_linked_item_t) : mdns_txt_linked_item_t :=
  mk_txt (key t) (stored (value t) (value_len t)) (value_len t).

(** Whether the service is asked for. *)
Definition hit (s : mdns_server_t) (instance : option cstr) (service proto : cstr) (st : option cstr) (selfhost : bool)
    (y : sid * mdns_service_t) : bool :=
  match lookup_matches s (snd y) instance service proto st selfhost with Ret b => b | _ => false end.

(** The addresses that go with a result: none for our own host. *)
Definition addresses_for (s : mdns_server_t) (h : cstr) (selfhost : bool) : list esp_ip_addr_t :=
  if selfhost then [] else match host_at s h with Some (_, x) => address_list x | None => [] end.

Section Lookup.
Context (cfg : config) (MDNS_MAX_INTERFACES : nat).
Abbreviation max := MDNS_MAX_INTERFACES.
Abbreviation rsafe_to := (rsafe_to MDNS_MAX_INTERFACES).
Abbreviation rsafe d := (rsafe_to d d).
Abbreviation cut := (take (MDNS_NAME_BUF_LEN cfg - 1)).

(** The result for a service. *)
Definition result_for (s : mdns_server_t) (with_instance selfhost : bool) (x : mdns_service_t) : lookup_result :=
  mk_lookup (if with_instance then MDNS_ANSWER_SRV_TTL else MDNS_ANSWER_PTR_TTL) (cut <$> srv_instance x)
    (cut (srv_service x)) (cut (srv_proto x)) (cut (default [] (srv_hostname x))) (port x)
    (Some (map copied_item (txt x))) (addresses_for s (cut (default [] (srv_hostname x))) selfhost).

(** The results of a lookup, last match first: at most [max_results], but one at
    least.  If a delegated host has no addresses, there are no results. *)
Definition lookup_results (s : mdns_server_t) (instance : option cstr) (service proto : cstr) (st : option cstr)
    (max_results : nat) (selfhost : bool) : list lookup_result :=
  let hits := take (Nat.max 1 max_results) (List.filter (hit s instance service proto st selfhost) (s_services s)) in
  let l := map (fun y => result_for s (negb (mdns_utils_str_null_or_empty instance)) selfhost (snd y)) hits in
  if negb selfhost && existsb (fun x => bool_decide (lr_addr x = [])) l then [] else rev l.

(** * Copies *)

Lemma copy_items_ok l : forall done, Forall txt_item_ok l -> Forall (fun t => is_Some (key t)) l ->
  hspecn true (copy_items done l) (fun r n => r = Some (done ++ map copied_item l)
    /\ n = items_blocks (map copied_item l)).
Proof.
  induction l as [|t l IH]; intros done Hok Hk; cbn [copy_items map].
  { apply hn_ret. by rewrite app_nil_r. }
  apply Forall_cons in Hok as [[_ Hv] Hok]. apply Forall_cons in Hk as [[k Hkt] Hk].
  eapply (hn_lookup _ _ (eq k)); [by rewrite Hkt|]. intros ? <-. eapply hn_bind; [apply hn_malloc|].
  intros ok n [-> Hn]. rewrite (Hn eq_refl). cbn [negb].
  assert (Hb : items_blocks (copied_item t :: map copied_item l) = (1 + opt_block (value t) + items_blocks (map copied_item l))%Z).
  { cbn [items_blocks foldr]. fold (items_blocks (map copied_item l)). unfold item_blocks. cbn [key value copied_item]. rewrite Hkt. unfold stored. destruct (value t); cbn; lia. }
  assert (Ht : copied_item t = mk_txt (Some k) (stored (value t) (value_len t)) (value_len t)) by (unfold copied_item; by rewrite Hkt).
  rewrite Ht in *. unfold stored in *. destruct (value t) as [v|].
  - destruct (Hv v eq_refl) as [_ Hl]. eapply hn_bind; [by apply hn_copy_value|].
    intros c n [[-> ->]|(_ & _ & ?)]; [|done]. eapply hn_mono; [by apply IH|]. intros r n [-> ->]. rewrite <- app_assoc.
    split; [done|]. cbn [fmap option_fmap option_map opt_block] in *. lia.
  - eapply hn_mono; [by apply IH|]. intros r n [-> ->]. rewrite <- app_assoc. split; [done|].
    cbn [fmap option_fmap option_map opt_block] in *. lia.
Qed.

Lemma copy_txt_ok l : Forall txt_item_ok l -> Forall (fun t => is_Some (key t)) l ->
  hspecn true (copy_txt_items l) (fun r n => r = Some (map copied_item l) /\ n = txt_blocks (map copied_item l)).
Proof.
  intros Hok Hk. unfold copy_txt_items. destruct l as [|t l]; [by apply hn_ret|].
  eapply hn_bind; [apply hn_malloc|]. intros ok n [-> Hn]. rewrite (Hn eq_refl).
  eapply hn_bind; [apply hn_malloc|]. intros ok2 n [-> Hn2]. rewrite (Hn2 eq_refl).
  eapply hn_mono; [by apply copy_items_ok|]. intros r n [-> ->]. split; [done|]. cbn [txt_blocks map]. lia.
Qed.

Lemma lookup_strings_ok x h : srv_hostname x = Some h ->
  hspecn true (lookup_strings cfg x) (fun r n =>
    r = Some (cut <$> srv_instance x, cut (srv_service x), cut (srv_proto x), cut h) /\ n = (3 + opt_block (srv_instance x))%Z).
Proof.
  intros Hh. unfold lookup_strings. eapply hn_bind; [apply hn_opt_dup|]. intros i n [-> Hi].
  destruct Hi as [->|(_ & _ & ?)]; [|done].
  assert (bool_decide (is_Some (srv_instance x)) && negb (bool_decide (is_Some (cut <$> srv_instance x))) = false) as ->
    by (by destruct (srv_instance x)).
  eapply hn_bind; [apply hn_strndup|]. intros sv n [[-> ->]|(_ & _ & ?)]; [|done].
  eapply hn_bind; [apply hn_strndup|]. intros pr n [[-> ->]|(_ & _ & ?)]; [|done].
  eapply (hn_lookup _ _ (eq h)); [by rewrite Hh|]. intros ? <-.
  eapply hn_bind; [apply hn_strndup|]. intros h' n [[-> ->]|(_ & _ & ?)]; [|done].
  apply hn_ret. split; [done|]. destruct (srv_instance x); cbn; lia.
Qed.

(** * Freeing *)

Lemma lookup_free_ok d l : forall b s, Forall (fun x => is_Some (lr_txt x)) l ->
  rsafe d (b + lookups_blocks l) s (lookup_free l) (fun _ b' s' => b' = b /\ s' = s).
Proof.
  unfold lookup_free. induction l as [|x l IH]; intros b s Hl; cbn [iter].
  { apply rs_ret. cbn. split; [lia|done]. }
  apply Forall_cons in Hl as [[t Ht] Hl]. apply rs_assoc. eapply rs_deref; [exact Ht|]. apply rs_free.
  replace (b + lookups_blocks (x :: l) - lookup_blocks x)%Z with (b + lookups_blocks l)%Z
    by (unfold lookups_blocks; cbn [foldr]; lia). by apply IH.
Qed.

Lemma results_delete l i x : l !! i = Some x ->
  (foldr (fun l n => lookups_blocks l + n) 0 l = foldr (fun l n => lookups_blocks l + n) 0 (delete i l) + lookups_blocks x)%Z.
Proof.
  revert i. induction l as [|y l IH]; intros i Hi; [done|]. destruct i as [|i]; cbn in Hi.
  - injection Hi as ->. cbn [delete list_delete foldr]. lia.
  - change (delete (S i) (y :: l)) with (y :: delete i l). cbn [foldr]. rewrite (IH i Hi). lia.
Qed.

Lemma results_free_ok b s r i : r_ok max b s r ->
  yields (lookup_results_free i r) (fun '(_, r') => r_ok max b s r' /\ r_results r' = delete i (r_results r)).
Proof.
  intros Hr. unfold lookup_results_free. apply st_reads. destruct (r_results r !! i) as [l|] eqn:Ei.
  2:{ cbn. split; [done|]. apply lookup_ge_None in Ei. rewrite delete_take_drop, take_ge, drop_ge by lia. by rewrite app_nil_r. }
  pose proof (r_results_ok _ _ _ _ Hr) as Hok. rewrite Forall_lookup in Hok. specialize (Hok i l Ei).
  assert (H : yields ((_ ← lookup_free l; mret tt) r) (fun '(_, r') => r_ok max (b - lookups_blocks l) s r' /\ r_results r' = r_results r)).
  { clear Ei. revert b r Hr. unfold lookup_free. induction Hok as [|x l [t Ht] _ IH]; intros b r Hr; cbn [iter].
    - cbn. split; [|done]. eapply r_ok_eq; [exact Hr|]. cbn. lia.
    - apply st_assoc, st_assoc. eapply st_asks; [by rewrite Ht|]. eapply st_seq.
      { eapply (st_alloc_last (mfree (lookup_blocks x)) r _ _ (fun '(_, r') => r_ok max (b - lookup_blocks x) s r' /\ r_results r' = r_results r));
          [apply hfull_mfree|]. intros h Hh _. cbn beta in Hh. split; [|done].
        eapply r_ok_engine; [exact Hr|]. eapply inv_eq; [exact (inv_heap _ _ _ _ h (r_inv _ _ _ _ Hr))|]. cbn in Hh. lia. }
      intros [] r' [Hr' Hs']. eapply yields_mono; [apply (IH _ _ Hr')|]. intros [[] r''] [Hr'' Hs'']. split; [|congruence].
      eapply r_ok_eq; [exact Hr''|]. unfold lookups_blocks. cbn [foldr]. lia. }
  eapply (st_seq _ _ _ (fun '(_, r') => r_ok max (b - lookups_blocks l) s r' /\ r_results r' = r_results r)).
  { unfold mbind, ST_bind in H. by destruct (lookup_free l r) as [[[] r']| | |]. }
  intros [] r' [Hr' Hs']. cbn. rewrite Hs'. split; [|done]. destruct Hr' as [? Hi ? ? Hl]. rewrite Hs' in Hl. split; try done.
  - eapply inv_eq; [exact Hi|]. unfold rest_blocks. cbn [hostname_changed_cbs r_actions r_results set_lookups].
    rewrite Hs', (results_delete _ i l Ei). lia.
  - cbn. by apply Forall_delete.
Qed.

(** * Matching *)

Lemma lookup_matches_ok s x instance service proto st selfhost : registry_ok s ->
  yields (lookup_matches s x instance service proto st selfhost) (fun b => b = true -> is_Some (srv_hostname x)).
Proof.
  intros Hs. unfold lookup_matches. destruct (srv_hostname x) as [h|]; [|done]. destruct (_ && service_has_subtype x st); [|done].
  destruct (mdns_utils_str_null_or_empty instance); [cbn; eauto|].
  eapply yields_mono; [apply instance_name_match_ok, (ro_live _ Hs)|]. by eauto.
Qed.

Lemma rs_hit {B} d b s i x instance service proto st selfhost (f : bool -> R B) Q : registry_ok s ->
  rsafe d b s (f (hit s instance service proto st selfhost (i, x))) Q ->
  rsafe d b s (asks (fun _ => lookup_matches s x instance service proto st selfhost) ≫= f) Q.
Proof.
  intros Hs Hf. eapply (rs_pure _ _ _ _ _ (fun _ => lookup_matches s x instance service proto st selfhost)); [done|by apply lookup_matches_ok|].
  intros a Ha _. unfold hit in Hf. cbn [snd] in Hf. by rewrite Ha in Hf.
Qed.

Lemma hit_host s instance service proto st selfhost i x : registry_ok s ->
  hit s instance service proto st selfhost (i, x) = true -> is_Some (srv_hostname x).
Proof.
  intros Hs. unfold hit. cbn [snd]. pose proof (lookup_matches_ok s x instance service proto st selfhost Hs) as H.
  destruct (lookup_matches _ _ _ _ _ _ _); done.
Qed.

(** * One result *)

Lemma lookup_item_ok rs b s x wi selfhost : registry_ok s -> service_ok x -> keyed x -> is_Some (srv_hostname x) ->
  rsafe (Never rs) b s (lookup_item cfg x wi selfhost) (fun r b' s' => s' = s
    /\ let y := result_for s wi selfhost x in
       if negb selfhost && bool_decide (lr_addr y = []) then r = None /\ b' = b
       else r = Some y /\ b' = (b + lookup_blocks y)%Z).
Proof.
  intros Hs Hx Hk [h Hh]. unfold lookup_item. apply rs_malloc; [|done]. cbn [negb].
  eapply rs_alloc; [by apply lookup_strings_ok|]. intros r n [-> ->].
  eapply rs_alloc; [apply copy_txt_ok; [apply (srv_txt_ok _ Hx)|exact Hk]|]. intros r n [-> ->].
  set (y := result_for s wi selfhost x). set (b1 := (b + 1 + _ + _)%Z).
  apply (rs_bind _ _ _ _ _ _ (fun l b' s' => s' = s /\ l = lr_addr y /\ b' = (b1 + Z.of_nat (length (lr_addr y)))%Z)).
  - unfold y, result_for, addresses_for. cbn [lr_addr]. replace (default [] (srv_hostname x)) with h by (by rewrite Hh). destruct selfhost.
    + apply rs_ret. split_and!; try done. cbn [length]. lia.
    + unfold copy_delegated_host_address_list. apply rs_find_host; [done|].
      destruct (host_at s (cut h)) as [[i z]|]; [|apply rs_ret; split_and!; try done; cbn [length]; lia].
      apply rs_tail. eapply rs_alloc; [apply copy_address_list_ok|]. intros l n [-> [->|[_ ?]]]; [|done]. by apply rs_ret.
  - intros l b' s' (-> & -> & ->).
    assert (Ey : mk_lookup (if wi then MDNS_ANSWER_SRV_TTL else MDNS_ANSWER_PTR_TTL) (cut <$> srv_instance x) (cut (srv_service x))
      (cut (srv_proto x)) (cut h) (port x) (Some (map copied_item (txt x))) (lr_addr y) = y).
    { unfold y, result_for. rewrite Hh. done. }
    rewrite Ey.
    assert (Hb : (b1 + Z.of_nat (length (lr_addr y)))%Z = (b + lookup_blocks y)%Z).
    { unfold b1, lookup_blocks, y, result_for. cbn [lr_instance lr_txt lr_addr default]. destruct (srv_instance x); cbn; lia. }
    rewrite Hb. destruct (negb selfhost && bool_decide (lr_addr y = [])); [|by apply rs_ret].
    replace (b + lookup_blocks y)%Z with (b + lookups_blocks [y])%Z by (cbn; lia).
    eapply rs_bind; [apply lookup_free_ok; constructor; [by eexists|done]|]. intros [] b' s' [-> ->]. by apply rs_ret.
Qed.

Lemma lookups_cons y l : lookups_blocks (y :: l) = (lookup_blocks y + lookups_blocks l)%Z.
Proof. done. Qed.

(** * The loop *)

Lemma lookup_from_ok rs s instance service proto st max_results selfhost : registry_ok s ->
  forall l b results num, Forall (fun y => service_ok (snd y) /\ keyed (snd y)) l ->
  Forall (fun x => is_Some (lr_txt x)) results -> num < Nat.max 1 max_results ->
  let ys := map (fun y => result_for s (negb (mdns_utils_str_null_or_empty instance)) selfhost (snd y))
              (take (Nat.max 1 max_results - num) (List.filter (hit s instance service proto st selfhost) l)) in
  let out := if negb selfhost && existsb (fun x => bool_decide (lr_addr x = [])) ys then [] else rev ys ++ results in
  rsafe (Never rs) (b + lookups_blocks results) s
    (lookup_from cfg instance service proto st max_results selfhost results num l)
    (fun r b' s' => s' = s /\ r = out /\ b' = (b + lookups_blocks r)%Z /\ Forall (fun x => is_Some (lr_txt x)) r).
Proof.
  intros Hs. induction l as [|[i x] l IH]; intros b results num Hl Hres Hnum; cbn [lookup_from List.filter].
  { rewrite take_nil. cbn [map existsb rev app]. rewrite andb_false_r. by apply rs_ret. }
  apply Forall_cons in Hl as [[Hx Hk] Hl]. apply rs_server. apply rs_hit with (i := i); [done|].
  destruct (hit s instance service proto st selfhost (i, x)) eqn:Eh; cbn [negb].
  2:{ by apply IH. }
  pose proof (hit_host _ _ _ _ _ _ _ _ Hs Eh) as Hh.
  destruct (Nat.max 1 max_results - num) as [|left] eqn:El; [lia|]. cbn [take map existsb rev snd].
  set (y := result_for s _ selfhost x). eapply rs_bind; [by apply lookup_item_ok|]. cbn zeta. fold y.
  intros r b' s' [-> Hr]. destruct selfhost; cbn [negb andb] in *.
  2: destruct (bool_decide (lr_addr y = [])) eqn:Ea.
  2:{ destruct Hr as [-> ->]. cbn [orb]. eapply rs_bind; [by apply lookup_free_ok|]. intros [] b' s' [-> ->]. apply rs_ret.
      split_and!; try done. cbn. lia. }
  all: destruct Hr as [-> ->].
  all: replace (b + lookups_blocks results + lookup_blocks y)%Z with (b + lookups_blocks (y :: results))%Z by (rewrite lookups_cons; lia).
  all: assert (Hres' : Forall (fun x => is_Some (lr_txt x)) (y :: results)) by (constructor; [by eexists|done]).
  all: destruct (Nat.leb_spec max_results (if num <? max_results then S num else num)) as [Hle|Hgt].
  1,3: assert (left = 0) as -> by (destruct (Nat.ltb_spec num max_results); lia); rewrite take_0; cbn [map existsb rev app orb];
       apply rs_ret; by split_and!.
  all: destruct (Nat.ltb_spec num max_results); [|lia].
  all: assert (left = Nat.max 1 max_results - S num) as -> by lia.
  all: eapply rs_mono; [apply (IH b (y :: results) (S num)); [done|done|lia]|].
  all: intros r b' s' (-> & -> & -> & Hf); cbn [negb andb orb] in *.
  all: rewrite <- app_assoc; by split_and!.
Qed.

Lemma lookup_ok b s r selfhost instance service proto st max_results : r_ok max b s r -> never_fails (e_heap (r_engine r)) ->
  yields (mdns_lookup cfg selfhost instance service proto st max_results r) (fun '(e, r') => r_ok max b s r'
    /\ match e with
       | ESP_OK => exists sv pr, service = Some sv /\ proto = Some pr
           /\ r_results r' = lookup_results s instance sv pr (match st with Some st => st | None => None end) max_results selfhost :: r_results r
       | _ => r_results r' = r_results r
       end).
Proof.
  intros Hr Hn. pose proof (r_registry _ _ _ _ Hr) as Hs. unfold mdns_lookup, if_started, mdns_priv_is_server_init.
  apply st_reads. rewrite (r_server _ _ _ _ Hr), bool_decide_true by eauto. cbn [negb].
  destruct (_ || _ || _) eqn:E; [by cbn|]. apply orb_false_iff in E as [[E1 E2]%orb_false_iff _].
  destruct service as [[|c sv]|]; try done. destruct proto as [[|c' pr]|]; try done. cbn [lookup_service].
  set (st' := match st with Some st => st | None => None end).
  assert (H : rsafe (Never (r_results r)) b s (lookup_service cfg instance (Some (c :: sv)) (Some (c' :: pr)) st' max_results selfhost)
    (fun l b' s' => s' = s /\ l = lookup_results s instance (c :: sv) (c' :: pr) st' max_results selfhost
       /\ b' = (b + lookups_blocks l)%Z /\ Forall (fun x => is_Some (lr_txt x)) l)).
  { cbn [lookup_service]. apply rs_server.
    pose proof (fun Hl H1 H2 => lookup_from_ok (r_results r) s instance (c :: sv) (c' :: pr) st' max_results selfhost Hs (s_services s) b [] 0 Hl H1 H2) as H.
    replace (b + lookups_blocks [])%Z with b in H by (cbn; lia).
    eapply rs_mono; [apply H; [|constructor|lia]|].
    - apply Forall_and. destruct Hs as [[[] _] _ _ Hk]. done.
    - intros l b' s' (-> & -> & -> & Hf). rewrite app_nil_r, Nat.sub_0_r in *. by split_and!. }
  eapply st_seq; [by apply H|]. intros l r' (b' & s' & Hr' & [_ Hres] & -> & -> & -> & Hf). cbn.
  split; [|rewrite Hres; eauto]. destruct Hr' as [? Hi ? ? ?]. split; try done.
  - eapply inv_eq; [exact Hi|]. unfold rest_blocks. cbn [hostname_changed_cbs r_actions r_results set_lookups foldr]. lia.
  - by constructor.
Qed.

End Lookup.
