(* ===== verification/ResponderRun.v ===== *)
(** The responder as a state machine: the calls of the application, the service task
    and the engine in any order; what holds in every state, and what each operation
    does to the registry. *)
From S2P Require Import Prelude Names Encode EncodeSafe Heap Txt Collision Answers AnswersProofs Engine EngineProofs EngineSteps State Received Cache CacheTree Browse Query QuerySafe Server Responder ResponderProofs ResponderCopies ResponderServices ResponderRemove ResponderHosts ResponderLookup.

(** * Operations *)

Inductive responder_op :=
| RAdd (instance service proto host : option cstr) (port_ : Z) (args : option (list txt_arg)) (n : nat)
| RPort (instance service proto host : option cstr) (port_ : Z)
| RTxt (instance service proto host : option cstr) (args : option (list txt_arg)) (n : nat)
| RTxtItem (instance service proto host k : option cstr) (v : option (list Z)) (len : Z)
| RTxtRemove (instance service proto host k : option cstr)
| RSubtypeAdd (instance service proto h : option cstr) (l : list cstr)
| RSubtypeRemove (instance service proto h st : option cstr)
| RSubtypeUpdate (instance service proto h : option cstr) (l : list cstr)
| RInstance (instance_old service proto host instance : option cstr)
| RRemove (instance service proto host : option cstr)
| RRemoveAll
| RHostname (h : option cstr)
| RInstanceName (i : option cstr)
| RDelegateAdd (h : option cstr) (l : list esp_ip_addr_t)
| RDelegateSet (h : option cstr) (l : list esp_ip_addr_t)
| RDelegateRemove (h : option cstr)
| RCallback (cb : option positive) (arg : positive)
| RLookup (selfhost : bool) (instance service proto : option cstr) (st : option (option cstr)) (max_results : nat)
| RFree (i : nat)
| RTurn
| REngine (op : engine_op).

Section Run.
Context (cfg : config) (MDNS_MAX_INTERFACES MDNS_MAX_SERVICES : nat) (addr : list positive -> positive).
Abbreviation max := MDNS_MAX_INTERFACES.

Definition run (op : responder_op) : R esp_err :=
  match op with
  | RAdd i sv pr h p args n => mdns_service_add_for_host cfg max MDNS_MAX_SERVICES addr i sv pr h p args n
  | RPort i sv pr h p => mdns_service_port_set_for_host cfg max addr i sv pr h p
  | RTxt i sv pr h args n => mdns_service_txt_set_for_host_base cfg max addr i sv pr h args n
  | RTxtItem i sv pr h k v len => mdns_service_txt_item_set_for_host_with_explicit_value_len cfg max addr i sv pr h k v len
  | RTxtRemove i sv pr h k => mdns_service_txt_item_remove_for_host cfg max addr i sv pr h k
  | RSubtypeAdd i sv pr h l => mdns_service_subtype_add_multiple_items_for_host cfg max addr i sv pr h l
  | RSubtypeRemove i sv pr h st => mdns_service_subtype_remove_for_host cfg max i sv pr h st
  | RSubtypeUpdate i sv pr h l => mdns_service_subtype_update_multiple_items_for_host cfg max addr i sv pr h l
  | RInstance i sv pr h new => mdns_service_instance_name_set_for_host cfg max addr i sv pr h new
  | RRemove i sv pr h => mdns_service_remove_for_host cfg max i sv pr h
  | RRemoveAll => mdns_service_remove_all cfg max
  | RHostname h => mdns_hostname_set cfg h
  | RInstanceName i => mdns_instance_name_set cfg i
  | RDelegateAdd h l => mdns_delegate_hostname_add cfg h l
  | RDelegateSet h l => mdns_delegate_hostname_set_address cfg h l
  | RDelegateRemove h => mdns_delegate_hostname_remove cfg h
  | RCallback cb arg => mdns_register_hostname_changed_callback cb arg
  | RLookup self i sv pr st n => mdns_lookup cfg self i sv pr st n
  | RFree i => _ ← lookup_results_free i; mret ESP_OK
  | RTurn => _ ← responder_turn cfg max addr; mret ESP_OK
  | REngine op => _ ← eng (run_op cfg max addr op); mret ESP_OK
  end.

(** What a caller has to give, and what the state has to be: strings are strings, the
    arrays as long as said; a service is looked for by its instance, and a host removed,
    only while every service has a host name; removals while the queue tells of every
    service that is probed; lookups while memory lasts. *)
Definition r_allowed (s : mdns_server_t) (r : responder) (op : responder_op) : Prop :=
  match op with
  | RAdd i sv pr h _ args n => findable s i (host_for s h) /\ Forall str_ok [i; sv; pr; h] /\ args_ok args n
  | RPort i _ _ h _ | RTxtRemove i _ _ h _ => findable s i (host_for s h)
  | RTxt i _ _ h args n => findable s i (host_for s h) /\ args_ok args n
  | RTxtItem i _ _ h k v len => findable s i (host_for s h) /\ str_ok k /\ value_ok v len
  | RSubtypeAdd i _ _ h l => findable s i h /\ Forall cstr_ok l
  | RSubtypeRemove i _ _ h st => findable s i h /\ is_Some i /\ str_ok i /\ str_ok st
  | RSubtypeUpdate i _ _ h l => findable s i h /\ is_Some i /\ str_ok i /\ Forall cstr_ok l
  | RInstance i _ _ h new => findable s i (host_for s h) /\ str_ok new
  | RRemove i _ _ h => findable s i (host_for s h) /\ covered (r_engine r)
  | RRemoveAll => covered (r_engine r)
  | RHostname h | RInstanceName h | RDelegateRemove h => str_ok h
  | RDelegateAdd h l | RDelegateSet h l => str_ok h /\ Forall addr_ok l
  | RCallback _ _ | RFree _ => True
  | RLookup _ _ _ _ _ _ => never_fails (e_heap (r_engine r))
  | RTurn => turn_mode (r_actions r) = Covered -> covered (r_engine r) /\ named s
  | REngine op => op_allowed max s (r_engine r) op
  end.

(** * What the operations do *)

(** No allocation fails. *)
Definition memory (r : responder) : Prop := never_fails (e_heap (r_engine r)).

(** One service, the one the caller means, changes. *)
Definition changes (s s' : mdns_server_t) (instance service proto h : option cstr) (g : mdns_service_t -> mdns_service_t) : Prop :=
  exists i, selects s instance service proto h i /\ s' = upd s i g.

(** A prefix of the subtypes is added, up to the first one the service already has when
    that is the error, and all of them when there is none. *)
Definition subtypes_extend (e : esp_err) (s s' : mdns_server_t) (instance service proto h : option cstr)
    (old : mdns_service_t -> list cstr) (l : list cstr) : Prop :=
  exists j x l1, selects s instance service proto h j /\ assoc j (s_services s) = Some x /\ adds e (old x) l l1
    /\ s' = upd s j (fun y => set_srv_subtype y (rev l1 ++ old x)).

(** What each operation does to the registry and to the results handed out, given the
    error it returns.  Where a failing allocation leaves a choice, it is none while
    memory lasts. *)
Definition did (op : responder_op) (e : esp_err) (s : mdns_server_t) (r : responder) (s' : mdns_server_t) (r' : responder) : Prop :=
  match op with
  | RAdd i sv pr h p args n =>
      match e with ESP_OK => added cfg MDNS_MAX_SERVICES (memory r) s s' i sv pr h p args n | _ => s' = s end
  | RPort i sv pr h p =>
      match e with ESP_OK => changes s s' i sv pr (host_for s h) (fun x => set_srv_port x p) | _ => s' = s end
  | RTxt i sv pr h args n =>
      match e with
      | ESP_OK => exists m, m <= n /\ (n <> 0 -> m <> 0) /\ (memory r -> m = n)
          /\ changes s s' i sv pr (host_for s h) (fun x => set_srv_txt x (items_of args m))
      | _ => s' = s
      end
  | RTxtItem i sv pr h k v len =>
      match e with
      | ESP_OK => changes s s' i sv pr (host_for s h)
          (fun x => set_srv_txt x (put_item (mk_txt k (stored v len) (stored_len v len)) (txt x)))
      | _ => s' = s
      end
  | RTxtRemove i sv pr h k =>
      match e with
      | ESP_OK => exists k', k = Some k' /\ changes s s' i sv pr (host_for s h) (fun x => set_srv_txt x (without_key k' (txt x)))
      | _ => s' = s
      end
  | RSubtypeAdd i sv pr h l =>
      match e with
      | ESP_OK => subtypes_extend e s s' i sv pr h subtype l
      | ESP_ERR_INVALID_ARG => s' = s \/ subtypes_extend e s s' i sv pr h subtype l
      | _ => s' = s
      end
  | RSubtypeRemove i sv pr h st =>
      match e with
      | ESP_OK | ESP_ERR_NO_MEM => exists st', st = Some st'
          /\ changes s s' i sv pr h (fun x => set_srv_subtype x (drop_first st' (subtype x)))
      | _ => s' = s
      end
  | RSubtypeUpdate i sv pr h l =>
      match e with
      | ESP_OK => base.NoDup l /\ changes s s' i sv pr h (fun x => set_srv_subtype x (rev l))
      | ESP_ERR_NO_MEM => changes s s' i sv pr h (fun x => set_srv_subtype x [])
      | ESP_ERR_INVALID_ARG => s' = s \/ subtypes_extend e s s' i sv pr h (fun _ => []) l
      | _ => s' = s
      end
  | RInstance i sv pr h new =>
      match e with
      | ESP_OK => changes s s' i sv pr (host_for s h) (fun x => set_srv_instance x new)
      | ESP_ERR_NO_MEM => changes s s' i sv pr (host_for s h) (fun x => set_srv_instance x None)
      | _ => s' = s
      end
  | RRemove i sv pr h =>
      match e with ESP_OK => exists j, selects s i sv pr (host_for s h) j /\ s' = without s j | _ => s' = s end
  | RRemoveAll => e = ESP_OK /\ s' = with_services s []
  | RLookup self i sv pr st n => s' = s
      /\ match e with
         | ESP_OK => exists sv' pr', sv = Some sv' /\ pr = Some pr'
             /\ r_results r' = lookup_results cfg s i sv' pr' (match st with Some st => st | None => None end) n self :: r_results r
         | _ => r_results r' = r_results r
         end
  | RFree i => s' = s /\ r_results r' = delete i (r_results r)
  | RTurn => match r_actions r with a :: _ => action_does (memory r) a s s' | [] => s' = s end
  | RHostname _ | RInstanceName _ | RDelegateAdd _ _ | RDelegateSet _ _ | RDelegateRemove _ | RCallback _ _ | REngine _ => s' = s
  end.

(** The blocks that are neither the engine's nor the responder's. *)
Definition others (r : responder) : Z :=
  match e_server (r_engine r) with
  | Some s => (live (e_heap (r_engine r)) - owned (r_engine r) - server_blocks s - rest_blocks r)%Z
  | None => 0%Z
  end.

(** How an operation changes their number: it does not, but for a packet that is taken
    over from the receiver; and the addresses of a delegated host that are lost when the
    queue refuses the action. *)
Definition accounts (op : responder_op) (e : esp_err) (b b' : Z) : Prop :=
  match op with
  | RDelegateAdd _ l | RDelegateSet _ l => (b <= b' <= b + Z.of_nat (length l))%Z /\ (e <> ESP_ERR_NO_MEM -> b' = b)
  | REngine op => b' = (b - op_blocks op)%Z
  | _ => b' = b
  end.

Lemma r_ok_others b s r : r_ok max b s r -> others r = b.
Proof.
  intros Hr. unfold others. rewrite (r_server _ _ _ _ Hr). destruct (r_inv _ _ _ _ Hr) as (_ & _ & _ & Hl). lia.
Qed.

(** The outcome of an operation. *)
Definition op_done (op : responder_op) (b : Z) (s : mdns_server_t) (r : responder) (x : esp_err * responder) : Prop :=
  exists b' s', r_ok max b' s' (snd x) /\ accounts op (fst x) b b' /\ did op (fst x) s r s' (snd x).

(** From the program logic. *)
Lemma op_from d {d'} op b s r m Q : rsafe_to max d d' b s m Q -> r_ok max b s r -> in_mode d r ->
  (forall e b' s' r', Q e b' s' -> accounts op e b b' /\ did op e s r s' r') ->
  yields (m r) (op_done op b s r).
Proof.
  intros Hm Hr Hd HQ. eapply yields_mono; [by apply Hm|]. intros [e r'] (b' & s' & Hr' & _ & Hq).
  exists b', s'. destruct (HQ e b' s' r' Hq). done.
Qed.

(** What is known of the memory. *)
Definition known (r : responder) : mode :=
  match fails (e_heap (r_engine r)) with [] => Never (r_results r) | _ => Any end.

Lemma known_in r : in_mode (known r) r.
Proof. unfold known. destruct (fails _) eqn:E; [|done]. split; [exact E|done]. Qed.

Lemma known_nf r : memory r -> nf (known r) = true.
Proof. unfold memory, never_fails, known. by intros ->. Qed.

Lemma known_memory r : nf (known r) = true -> memory r.
Proof. unfold memory, never_fails, known. by destruct (fails _). Qed.

Lemma action_does_known d a s s' r : (memory r <-> nf d = true) \/ (exists h, a = ACTION_DELEGATE_HOSTNAME_REMOVE h) ->
  action_does (nf d = true) a s s' -> action_does (memory r) a s s'.
Proof.
  intros [Hm|[h ->]]; [|done]. destruct a; cbn [action_does]; try done.
  - intros (old & s1 & Ho & (l & -> & Hl) & ->). exists old, (with_services s l). split_and!; try done. exists l. split; [done|].
    eapply Forall2_impl; [exact Hl|]. intros y y' [Hy Hr]. split; [done|]. unfold renamed in *. case_decide; [|done].
    destruct Hr as [?|[? ?]]; [by left|right]. by rewrite Hm.
  - case_match; [done|]. rewrite Hm. done.
Qed.

Hypothesis addr_new : forall l, addr l ∉ l.
Hypothesis services_fit : MDNS_MAX_SERVICES <= 255.

Lemma subtypes_change s s' i x instance service proto h l g : registry_ok s -> selects s instance service proto h i ->
  assoc i (s_services s) = Some x -> g (subtype x) = l -> s' = with_subtypes s i l ->
  changes s s' instance service proto h (fun x => set_srv_subtype x (g (subtype x))).
Proof.
  intros Hs Hsel Hx <- ->. exists i. split; [done|]. apply (upd_ext s i _ _ x); done.
Qed.

Lemma services_op_ok op b s r : r_ok max b s r -> r_allowed s r op ->
  match op with RAdd _ _ _ _ _ _ _ | RPort _ _ _ _ _ | RTxt _ _ _ _ _ _ | RTxtItem _ _ _ _ _ _ _ | RTxtRemove _ _ _ _ _
              | RInstance _ _ _ _ _ | RRemove _ _ _ _ | RRemoveAll => True | _ => False end ->
  yields (run op r) (op_done op b s r).
Proof using addr_new services_fit.
  intros Hr Ha Hop. destruct op; try done; cbn [run r_allowed] in *.
  - destruct Ha as (Hf & Hstr & Hargs). eapply (op_from (known r)); [by apply add_ok|done|apply known_in|].
    intros e b' s' r' [-> He]. split; [done|]. destruct e; try done. destruct He as (Hn & Hlen & i & sv & pr & inst & m & He).
    destruct_and!. split; [done|]. split; [done|]. exists i, sv, pr, inst, m. split_and!; try done. eauto using known_nf.
  - eapply (op_from Any); [by apply port_set_ok|done|done|]. intros e b' s' r' [-> He]. split; [done|]. by destruct e.
  - destruct Ha as (Hf & Hargs). eapply (op_from (known r)); [by apply txt_set_ok|done|apply known_in|].
    intros e b' s' r' [-> He]. split; [done|]. destruct e; try done. destruct He as (i & m & Hsel & Hm & Hm0 & Hnf & ->).
    exists m. split_and!; try done; [eauto using known_nf|]. by exists i.
  - destruct Ha as (Hf & Hk & Hv). eapply (op_from Any); [by apply txt_item_set_ok|done|done|].
    intros e b' s' r' [-> He]. split; [done|]. by destruct e.
  - eapply (op_from Any); [by apply txt_item_remove_ok|done|done|]. intros e b' s' r' [-> He]. split; [done|].
    destruct e; try done. destruct He as (i & k' & Hsel & -> & ->). exists k'. split; [done|]. by exists i.
  - destruct Ha as (Hf & Hn). eapply (op_from Any); [by apply instance_set_ok|done|done|].
    intros e b' s' r' [-> He]. split; [done|]. by destruct e.
  - destruct Ha as (Hf & Hc). eapply (op_from Covered); [by apply remove_ok|done|done|].
    intros e b' s' r' [-> He]. split; [done|]. by destruct e.
  - eapply (op_from Covered); [by apply remove_all_ok|done|done|]. by intros e b' s' r' (-> & -> & ->).
Qed.

Lemma subtypes_op_ok op b s r : r_ok max b s r -> r_allowed s r op ->
  match op with RSubtypeAdd _ _ _ _ _ | RSubtypeRemove _ _ _ _ _ | RSubtypeUpdate _ _ _ _ _ => True | _ => False end ->
  yields (run op r) (op_done op b s r).
Proof using addr_new.
  intros Hr Ha Hop. pose proof (r_registry _ _ _ _ Hr) as Hs. destruct op; try done; cbn [run r_allowed] in *.
  - destruct Ha as (Hf & Hl). eapply (op_from Any); [by apply subtype_add_ok|done|done|].
    intros e b' s' r' [-> He]. split; [done|]. destruct e; try done. destruct He as (i & x & He). by exists i, x, l.
  - destruct Ha as (Hf & [inst ->] & Hi & Hst). eapply (op_from Any); [by apply subtype_remove_ok; [|apply Hi|]|done|done|].
    intros e b' s' r' [-> He]. split; [done|].
    destruct e; try done; destruct He as (i & x & st' & Hsel & Hx & -> & _ & ->); exists st'; (split; [done|]);
      by eapply (subtypes_change _ _ i x _ _ _ _ _ (drop_first st')).
  - destruct Ha as (Hf & [inst ->] & Hi & Hl). eapply (op_from Any); [apply subtype_update_ok; [done|done|by apply Hi|done]|done|done|].
    intros e b' s' r' [-> He]. split; [done|]. destruct e; try done.
    + destruct He as (i & Hsel & Hn & ->). split; [done|]. by exists i.
    + destruct He as [->|(i & l1 & Hsel & Had & ->)]; [by left|right]. destruct Hsel as [x Hx].
      pose proof (registered_found s (Some inst) service proto h Hs Hf) as Hy. rewrite Hx in Hy.
      exists i, x, l1. split_and!; [by exists x|exact Hy|exact Had|]. by rewrite app_nil_r.
Qed.

Lemma calls_op_ok op b s r : r_ok max b s r -> r_allowed s r op ->
  match op with RHostname _ | RInstanceName _ | RDelegateAdd _ _ | RDelegateSet _ _ | RDelegateRemove _ | RCallback _ _ => True | _ => False end ->
  yields (run op r) (op_done op b s r).
Proof.
  intros Hr Ha Hop. destruct op; try done; cbn [run r_allowed] in *.
  - eapply (op_from Any); [by apply call_hostname_ok|done|done|]. intros e b' s' r' (-> & Hb & _). split; [|done]. cbn. lia.
  - eapply (op_from Any); [by apply call_instance_ok|done|done|]. intros e b' s' r' (-> & Hb & _). split; [|done]. cbn. lia.
  - destruct Ha. eapply (op_from Any); [by apply call_add_host_ok|done|done|]. intros e b' s' r' (-> & Hb & Hn). by split.
  - destruct Ha. eapply (op_from Any); [by apply call_set_address_ok|done|done|]. intros e b' s' r' (-> & Hb & Hn). by split.
  - eapply (op_from Any); [by apply call_remove_host_ok|done|done|]. intros e b' s' r' (-> & Hb & _). split; [|done]. cbn. lia.
  - eapply (op_from Any); [by apply register_callback_ok|done|done|]. by intros e b' s' r' (-> & ->).
Qed.

(** Every operation that is allowed returns, keeps the invariant, accounts for the
    blocks and does to the registry what it says. *)
Lemma op_ok op b s r : r_ok max b s r -> r_allowed s r op -> yields (run op r) (op_done op b s r).
Proof using addr_new services_fit.
  intros Hr Ha. destruct op; try (by apply services_op_ok); try (by apply subtypes_op_ok); try (by apply calls_op_ok);
    cbn [run r_allowed] in *.
  - eapply yields_mono; [by apply (lookup_ok cfg max b s)|]. intros [e r'] [Hr' He]. exists b, s. by split_and!.
  - eapply st_seq; [by apply (results_free_ok max b s)|]. intros [] r' [Hr' He]. cbn. exists b, s. by split_and!.
  - set (d := match turn_mode (r_actions r) with Covered => Covered | _ => known r end).
    eapply st_seq; [apply (action_turn_ok cfg max addr addr_new d b s r Hr)|].
    + unfold d. destruct (turn_mode (r_actions r)) eqn:E; [apply known_in|apply known_in|by apply Ha].
    + unfold d. intros E. rewrite E. split; [done|]. by apply Ha.
    + intros [] r' (s' & Hr' & Hdo). cbn. exists b, s'. split_and!; [done|done|]. cbn [did]. destruct (r_actions r) as [|a l]; [done|].
      eapply (action_does_known d); [|exact Hdo]. unfold d. destruct a; cbn [turn_mode]; try (left; split; [apply known_nf|apply known_memory]).
      right. by eexists.
  - eapply (st_seq _ _ _ (fun '(_, r') => r_ok max (b - op_blocks op) s r')).
    + pose proof (r_registry _ _ _ _ Hr) as Hs.
      pose proof (run_op_ok cfg max addr s (ro_live _ Hs) (ro_counted _ Hs) addr_new _ _ op (r_inv _ _ _ _ Hr) Ha) as H.
      unfold eng. destruct (run_op cfg max addr op (r_engine r)) as [[[] e']| | |]; try done.
      eapply r_ok_engine; [exact Hr|]. eapply inv_eq; [exact H|]. lia.
    + intros [] r' Hr'. cbn. exists (b - op_blocks op)%Z, s. by split_and!.
Qed.

(** * Runs *)

(** The responder as it is when the first interface comes up: the host name is set, and
    services and hosts may be registered. *)
Definition responder_started (s : mdns_server_t) (r : responder) : Prop :=
  started max s (r_engine r) /\ registry_ok s /\ buffer_ok (r_pkt r)
  /\ Forall action_ok (r_actions r) /\ Forall (Forall (fun x => is_Some (lr_txt x))) (r_results r).

Lemma responder_started_ok s r : responder_started s r -> r_ok max (others r) s r.
Proof.
  intros (Hst & Hreg & Hb & Hact & Hres). split; try done.
  destruct (started_inv max s _ Hst) as (He & Hq & Hp & Hl). split_and!; try apply Hq; try done.
  unfold others. rewrite (env_server _ _ _ He). lia.
Qed.

Inductive r_reaches (r : responder) : responder -> Prop :=
| r_reaches_refl : r_reaches r r
| r_reaches_step s1 r1 op e r2 : r_reaches r r1 -> e_server (r_engine r1) = Some s1 -> r_allowed s1 r1 op ->
    run op r1 = Ret (e, r2) -> r_reaches r r2.

Lemma r_reaches_ok s0 r0 r : responder_started s0 r0 -> r_reaches r0 r -> exists s, r_ok max (others r) s r.
Proof using addr_new services_fit.
  intros H0. induction 1 as [|s1 r1 op e r2 _ [s Hs] Hs1 Ha Hrun].
  - exists s0. by apply responder_started_ok.
  - rewrite (r_server _ _ _ _ Hs) in Hs1. injection Hs1 as <-. pose proof (op_ok op _ s r1 Hs Ha) as H. rewrite Hrun in H.
    destruct H as (b' & s' & Hr & _). exists s'. cbn [snd] in Hr. by rewrite (r_ok_others _ _ _ Hr).
Qed.

End Run.


