(* ===== verification/ResponderExamples.v ===== *)
(** Runs of the responder on a concrete registry, the witnesses of its theorems, and
    the places where it does not do what its documentation says. *)
From S2P Require Import Prelude Names Encode EncodeSafe NameExamples Heap Txt Collision Answers AnswersProofs AnswersExamples Engine EngineProofs EngineSteps State Received Cache CacheTree Browse Query QuerySafe Server Responder ResponderProofs ResponderCopies ResponderServices ResponderRemove ResponderHosts ResponderLookup ResponderRun.

(** The static buffer, with what may be read behind it. *)
Definition static_pkt : list Z := replicate 1715 0%Z.

(** A responder with the example's services and hosts, and nothing else allocated. *)
Definition rstart (fails accepts : list bool) : responder :=
  mk_responder
    (mk_engine (Some example_server) (mk_heap fails (server_blocks example_server)) []
       (replicate 4 (mk_pcb PCB_OFF None 0 false false 0)) [] 1000
       (fun _ _ => false) (fun _ => 2) (fun _ => None) [] [] [] [])
    [] [] [] accepts false static_pkt [] [].

Definition rrun (op : responder_op) : R esp_err := run default_config 2 10 next_addr op.

Fixpoint rruns (ops : list responder_op) : R (list esp_err) :=
  match ops with
  | [] => mret []
  | op :: ops => e ← rrun op; l ← rruns ops; mret (e :: l)
  end.

Fixpoint rafter (ops : list responder_op) (r : responder) : responder :=
  match ops with
  | [] => r
  | op :: ops => match rrun op r with Ret (_, r') => rafter ops r' | _ => r end
  end.

Definition some (s : String.string) : option cstr := Some (str s).

(** A printer on our own host. *)
Definition add_printer : responder_op :=
  RAdd (some "Printer") (some "_ipp") (some "_tcp") None 631
    (Some [MDNS_TXT_ITEM (some "rp") (some "queue"); MDNS_TXT_ITEM_WITH_VALUE_LEN (some "raw") (Some [1; 2; 3]%Z) 2]) 2.

Definition remove_printer : responder_op := RRemove None (some "_ipp") (some "_tcp") None.

Definition find_printer : responder_op := RLookup true None (some "_ipp") (some "_tcp") None 5.

Definition up : responder_op := REngine (OpEnable 0 MDNS_IP_PROTOCOL_V4).

Definition outcome_of {A} (m : outcome (A * responder)) : option A := match m with Ret (a, _) => Some a | _ => None end.

(** A printer comes and goes; the results of both lookups stay with the caller, and
    everything else is freed. *)
Example printer_comes_and_goes :
  let r := rafter [up; add_printer; find_printer; remove_printer; find_printer] (rstart [] []) in
  outcome_of (rruns [up; add_printer; find_printer; remove_printer; find_printer] (rstart [] []))
    = Some [ESP_OK; ESP_OK; ESP_OK; ESP_OK; ESP_OK]
  /\ map (map (fun x => (lr_instance x, lr_port x, option_map (map value) (lr_txt x)))) (r_results r)
     = [[]; [(some "Printer", 631%Z, Some [Some [1; 2; 0]%Z; Some (str "queue" ++ [0%Z])])]]
  /\ option_map s_services (e_server (r_engine r)) = Some (s_services example_server)
  /\ others r = 0%Z.
Proof. vm_compute. repeat split. Qed.

(** The host is renamed: its services follow. *)
Example services_follow_the_host :
  let r := rafter [RHostname (some "new"); RTurn] (rstart [] []) in
  option_map (fun s => (s_hostname s, map (fun y => srv_hostname (snd y)) (s_services s))) (e_server (r_engine r))
    = Some (some "new", [some "new"]).
Proof. vm_compute. reflexivity. Qed.

(** * Witnesses *)

Lemma example_registry : registry_ok example_server.
Proof.
  split; [exact example_server_live| | |].
  - split; [cbn; lia|apply NoDup_singleton].
  - apply NoDup_singleton.
  - repeat constructor; by eexists.
Qed.

Lemma rstart_started fails accepts : responder_started 2 example_server (rstart fails accepts).
Proof.
  split; [|split; [exact example_registry|split; [|by split; constructor]]].
  - split_and!; done.
  - split.
    + cbn [r_pkt rstart]. unfold static_pkt. rewrite length_replicate, max_packet_size.
      with_strategy transparent [overread] unfold overread. lia.
    + apply Forall_replicate. unfold byte_ok. lia.
Qed.

(** A queue that tells of every service that is probed. *)
Definition coveredb (e : engine) : bool :=
  forallb (fun k =>
    match e_pcbs e !! k with
    | Some p => forallb (fun j =>
        existsb (fun n : tx_node => (pcb_index (tx_if (snd n)) (tx_ip_protocol (snd n)) =? k)
          && existsb (fun a => bool_decide (oa_service a = Some j)) (tx_servers (snd n))) (e_queue e))
        (default [] (probe_services p))
    | None => true
    end) (seq 0 (length (e_pcbs e)))
  && forallb (fun n : tx_node => forallb (fun q => negb (oq_own_dynamic_memory q)) (tx_questions (snd n))) (e_queue e).

Lemma coveredb_ok e : coveredb e = true -> covered e.
Proof.
  unfold coveredb. rewrite andb_true_iff, !forallb_forall. intros [H1 H2]. split.
  - intros k j (p & l & Hp & Hl & Hj). specialize (H1 k). rewrite Hp in H1. rewrite Hl in H1. cbn in H1.
    assert (Hk : In k (seq 0 (length (e_pcbs e)))) by (apply in_seq; apply lookup_lt_Some in Hp; lia).
    specialize (H1 Hk). rewrite forallb_forall in H1. specialize (H1 j ltac:(by apply list_elem_of_In)).
    apply existsb_exists in H1 as (n & Hn & [Hnk%Nat.eqb_eq Ha]%andb_true_iff). exists n. split; [by apply list_elem_of_In|].
    split; [done|]. apply existsb_exists in Ha as (a & Hin & Hs%bool_decide_eq_true). apply Exists_exists. exists a.
    split; [by apply list_elem_of_In|done].
  - apply Forall_forall. intros n Hn. specialize (H2 n ltac:(by apply list_elem_of_In)). rewrite forallb_forall in H2.
    apply Forall_forall. intros q Hq. specialize (H2 q ltac:(by apply list_elem_of_In)). by apply negb_true_iff.
Qed.

(** The printer is added while an interface probes. *)
Definition upped : responder := rafter [up] (rstart [] []).
Definition printing : responder := rafter [add_printer] upped.

Definition server_of (r : responder) : mdns_server_t := default example_server (e_server (r_engine r)).

Lemma str_is_ok x : cstr_okb (str x) = true -> str_ok (some x).
Proof. intros Hx y [= <-]. by apply cstr_okb_ok. Qed.

Definition returns (op : responder_op) (r : responder) : bool := match rrun op r with Ret _ => true | _ => false end.

Lemma reached_by r0 r s op : r_reaches default_config 2 10 next_addr r0 r -> e_server (r_engine r) = Some s ->
  r_allowed 2 s r op -> returns op r = true -> r_reaches default_config 2 10 next_addr r0 (rafter [op] r).
Proof.
  intros Hr Hs Ha Ho. unfold returns in Ho. cbn [rafter]. destruct (rrun op r) as [[e r']| | |] eqn:E; try done.
  by eapply r_reaches_step.
Qed.

Lemma up_reached : r_reaches default_config 2 10 next_addr (rstart [] []) upped.
Proof.
  apply (reached_by _ _ example_server); [apply r_reaches_refl|reflexivity|cbn; lia|vm_compute; reflexivity].
Qed.

Lemma upped_server : e_server (r_engine upped) = Some example_server.
Proof. vm_compute. reflexivity. Qed.

Lemma add_allowed : r_allowed 2 example_server upped add_printer.
Proof.
  split_and!.
  - right. right. repeat constructor. by eexists.
  - repeat (apply Forall_cons; split); [by apply str_is_ok..|done|constructor].
  - split; [cbn; lia|]. constructor; [|constructor; [|constructor]];
      (split; [eexists; split; [reflexivity|by apply cstr_okb_ok]|]);
      intros v [= <-]; (split; [|vm_compute; lia]);
      (eapply Forall_impl; [by apply cstr_okb_ok|]); unfold byte_ok; cbn; lia.
Qed.

Lemma printing_reached : r_reaches default_config 2 10 next_addr (rstart [] []) printing.
Proof.
  apply (reached_by _ _ example_server); [exact up_reached|exact upped_server|exact add_allowed|vm_compute; reflexivity].
Qed.

Lemma printing_covered : covered (r_engine printing).
Proof. apply coveredb_ok. vm_compute. reflexivity. Qed.

Lemma printing_server : e_server (r_engine printing) = Some (server_of printing).
Proof. vm_compute. reflexivity. Qed.


Lemma find_printer_returns : outcome_of (run default_config 2 10 next_addr find_printer printing) = Some ESP_OK.
Proof. vm_compute. reflexivity. Qed.

Lemma find_printer_allowed : r_allowed 2 (server_of printing) printing find_printer.
Proof. vm_compute. reflexivity. Qed.

Lemma printer_results : lookup_results default_config (server_of printing) None (str "_ipp") (str "_tcp") None 5 true :: r_results printing
  = [[mk_lookup 4500 (some "Printer") (str "_ipp") (str "_tcp") (str "esp32") 631
        (Some [mk_txt (some "raw") (Some [1; 2; 0]%Z) 2; mk_txt (some "rp") (Some (str "queue" ++ [0%Z])) 5]) []]].
Proof. vm_compute. reflexivity. Qed.


(** * Where it goes wrong *)

(** A fault at the [n]th allocation. *)
Definition fails_at (n : nat) : list bool := repeat false n ++ [true].

(** Removing or updating subtypes without an instance name, which the documentation
    allows: the goodbye follows the null pointer. *)
Example subtype_without_instance :
  outcome_of (rruns [up; RSubtypeRemove None (some "_http") (some "_tcp") None (some "_web")] (rstart [] [])) = None
  /\ rruns [up; RSubtypeRemove None (some "_http") (some "_tcp") None (some "_web")] (rstart [] []) = BadAccess.
Proof. vm_compute. split; reflexivity. Qed.

(** The queue refuses a delegated host: its addresses are lost. *)
Example refused_host_leaks :
  others (rafter [RDelegateAdd (some "d2") [IP4 1; IP4 2]] (rstart [] [false])) = 2%Z.
Proof. vm_compute. reflexivity. Qed.

(** A lookup of a service with TXT items when the array of lengths cannot be allocated;
    and when it is the array of items, the result cannot be freed. *)
Example lookup_out_of_memory :
  rruns [RLookup true None (some "_http") (some "_tcp") None 5] (rstart (fails_at 5) []) = BadAccess
  /\ rruns [RLookup true None (some "_http") (some "_tcp") None 5; RFree 0] (rstart (fails_at 4) []) = BadAccess.
Proof. vm_compute. split; reflexivity. Qed.

(** The new host name cannot be copied for a service: looking for that service by its
    instance follows a null pointer. *)
Example unnamed_service :
  rruns [RHostname (some "new"); RTurn; RPort (some "new") (some "_http") (some "_tcp") None 81] (rstart (fails_at 2) []) = BadAccess.
Proof. vm_compute. reflexivity. Qed.

(** The array of the probe cannot be extended for a new service: its packet is gone, the
    array stays, and the removal of a service in it, which goes by the packets, leaves it
    there; the next service added makes the engine follow it. *)
Example removed_service_is_probed :
  rruns [up; add_printer; RRemove None (some "_http") (some "_tcp") None;
         RAdd (some "Other") (some "_x") (some "_tcp") None 1 None 0] (rstart (fails_at 20) []) = BadAccess.
Proof. vm_compute. reflexivity. Qed.

(** A new instance name that cannot be copied takes the old one with it. *)
Example instance_name_lost :
  let r := rafter [RInstance None (some "_http") (some "_tcp") None (some "A"); RInstance None (some "_http") (some "_tcp") None (some "B")]
             (rstart (fails_at 1) []) in
  option_map (fun s => map (fun y => srv_instance (snd y)) (s_services s)) (e_server (r_engine r)) = Some [None].
Proof. vm_compute. reflexivity. Qed.
