(* ===== verification/WsData.v ===== *)
(** Data of the websocket client: components/esp_websocket_client/esp_websocket_client.c
    and its header, and the surroundings the client runs in.

    The client object, its configuration and its buffers are records; a pointer
    that may be null is an option, and the object itself is an option too, so that
    using it after it was freed is a bad access; null handles, which the interface
    refuses, are not passed.  Transports are named by numbers
    and looked up among those that exist.

    What the client does not decide is given by the surroundings [ws_world]: the
    answers of the transport, in the order in which they are asked for; the time
    that passes between two readings of the clock; what the application's event
    handler does with each event; which allocations fail.  What the client does to
    its surroundings is logged there. *)
From S2P Require Import Prelude Heap State.

(** * Constants *)

Definition WEBSOCKET_TCP_DEFAULT_PORT : Z := 80.
Definition WEBSOCKET_SSL_DEFAULT_PORT : Z := 443.
Definition WEBSOCKET_BUFFER_SIZE_BYTE : Z := 1024.
Definition WEBSOCKET_RECONNECT_TIMEOUT_MS : Z := 10000.
Definition WEBSOCKET_TASK_CORE_ID : Z := 0x7FFFFFFF.
Definition WEBSOCKET_TASK_PRIORITY : Z := 5.
Definition WEBSOCKET_TASK_STACK : Z := 4096.
Definition WEBSOCKET_NETWORK_TIMEOUT_MS : Z := 10000.
Definition WEBSOCKET_PING_INTERVAL_SEC : Z := 10.
Definition WEBSOCKET_PINGPONG_TIMEOUT_SEC : Z := 120.
Definition WEBSOCKET_KEEP_ALIVE_IDLE : Z := 5.
Definition WEBSOCKET_KEEP_ALIVE_INTERVAL : Z := 5.
Definition WEBSOCKET_KEEP_ALIVE_COUNT : Z := 3.

Definition WS_OVER_TCP_SCHEME : cstr := str "ws".
Definition WS_OVER_TLS_SCHEME : cstr := str "wss".
Definition WS_HTTP_BASIC_AUTH : cstr := str "Basic ".
Definition WS_HTTP_REDIRECT (code : Z) : bool := (300 <=? code)%Z && (code <? 400)%Z.

Definition STOPPED_BIT : Z := 1.
Definition CLOSE_FRAME_SENT_BIT : Z := 2.
Definition REQUESTED_STOP_BIT : Z := 4.
Definition WAKEUP_BIT : Z := 8.

(** [ws_transport_opcodes_t]. *)
Definition WS_TRANSPORT_OPCODES_CONT : Z := 0.
Definition WS_TRANSPORT_OPCODES_TEXT : Z := 1.
Definition WS_TRANSPORT_OPCODES_BINARY : Z := 2.
Definition WS_TRANSPORT_OPCODES_CLOSE : Z := 8.
Definition WS_TRANSPORT_OPCODES_PING : Z := 9.
Definition WS_TRANSPORT_OPCODES_PONG : Z := 10.
Definition WS_TRANSPORT_OPCODES_FIN : Z := 128.
Definition WS_TRANSPORT_OPCODES_NONE : Z := 256.

(** [esp_err_t] as far as the client returns it. *)
Inductive ws_err := ESP_OK | ESP_FAIL | ESP_ERR_NO_MEM | ESP_ERR_INVALID_ARG | ESP_ERR_INVALID_STATE.

#[export] Instance ws_err_eq_dec : EqDecision ws_err.
Proof. solve_decision. Defined.

(** * Configuration *)

Abbreviation tid := nat.  (** [esp_transport_handle_t] *)

Inductive esp_websocket_transport_t :=
| WEBSOCKET_TRANSPORT_UNKNOWN
| WEBSOCKET_TRANSPORT_OVER_TCP
| WEBSOCKET_TRANSPORT_OVER_SSL.

#[export] Instance ws_transport_eq_dec : EqDecision esp_websocket_transport_t.
Proof. solve_decision. Defined.

(** The TLS part of the configuration: pointers of the application that are
    handed on to the transport.  A certificate with length 0 is a C string. *)
Record tls_config := mk_tls_config {
  tls_use_global_ca_store : bool;
  tls_cert : option (list Z);
  tls_cert_len : nat;
  tls_client_cert : option (list Z);
  tls_client_cert_len : nat;
  tls_client_key : option (list Z);
  tls_client_key_len : nat;
  tls_skip_cert_common_name_check : bool;
  tls_cert_common_name : option cstr;
  tls_crt_bundle_attach : bool;
}.

(** [esp_websocket_client_config_t]. *)
Record esp_websocket_client_config_t := mk_ws_user_config {
  uc_uri : option cstr;
  uc_host : option cstr;
  uc_port : Z;
  uc_username : option cstr;
  uc_password : option cstr;
  uc_path : option cstr;
  uc_disable_auto_reconnect : bool;
  uc_enable_close_reconnect : bool;
  uc_user_context : Z;
  uc_task_core_id_set : bool;
  uc_task_core_id : Z;
  uc_task_prio : Z;
  uc_task_name : option cstr;
  uc_task_stack : Z;
  uc_buffer_size : Z;
  uc_tls : tls_config;
  uc_transport : esp_websocket_transport_t;
  uc_subprotocol : option cstr;
  uc_user_agent : option cstr;
  uc_headers : option cstr;
  uc_pingpong_timeout_sec : Z;
  uc_disable_pingpong_discon : bool;
  uc_keep_alive_enable : bool;
  uc_keep_alive_idle : Z;
  uc_keep_alive_interval : Z;
  uc_keep_alive_count : Z;
  uc_reconnect_timeout_ms : Z;
  uc_network_timeout_ms : Z;
  uc_ping_interval_sec : Z;
  uc_if_name : option (list Z);
  uc_ext_transport : option tid;
}.

(** [websocket_config_storage_t]; the strings are blocks of the client. *)
Record websocket_config_storage_t := mk_ws_config {
  cf_task_core_id : Z;
  cf_task_name : option cstr;
  cf_task_stack : Z;
  cf_task_prio : Z;
  cf_uri : option cstr;
  cf_host : option cstr;
  cf_path : option cstr;
  cf_scheme : option cstr;
  cf_username : option cstr;
  cf_password : option cstr;
  cf_auth : option cstr;
  cf_port : Z;
  cf_auto_reconnect : bool;
  cf_close_reconnect : bool;
  cf_user_context : Z;
  cf_network_timeout_ms : Z;
  cf_subprotocol : option cstr;
  cf_user_agent : option cstr;
  cf_headers : option cstr;
  cf_pingpong_timeout_sec : Z;
  cf_ping_interval_sec : Z;
  cf_tls : tls_config;
  cf_ext_transport : option tid;
}.

Definition set_cf_task_core_id (c : websocket_config_storage_t) x := mk_ws_config x (cf_task_name c)
  (cf_task_stack c) (cf_task_prio c) (cf_uri c) (cf_host c) (cf_path c) (cf_scheme c) (cf_username c)
  (cf_password c) (cf_auth c) (cf_port c) (cf_auto_reconnect c) (cf_close_reconnect c) (cf_user_context
  c) (cf_network_timeout_ms c) (cf_subprotocol c) (cf_user_agent c) (cf_headers c)
  (cf_pingpong_timeout_sec c) (cf_ping_interval_sec c) (cf_tls c) (cf_ext_transport c).
Definition set_cf_task_name (c : websocket_config_storage_t) x := mk_ws_config (cf_task_core_id c) x
  (cf_task_stack c) (cf_task_prio c) (cf_uri c) (cf_host c) (cf_path c) (cf_scheme c) (cf_username c)
  (cf_password c) (cf_auth c) (cf_port c) (cf_auto_reconnect c) (cf_close_reconnect c) (cf_user_context
  c) (cf_network_timeout_ms c) (cf_subprotocol c) (cf_user_agent c) (cf_headers c)
  (cf_pingpong_timeout_sec c) (cf_ping_interval_sec c) (cf_tls c) (cf_ext_transport c).
Definition set_cf_task_stack (c : websocket_config_storage_t) x := mk_ws_config (cf_task_core_id c)
  (cf_task_name c) x (cf_task_prio c) (cf_uri c) (cf_host c) (cf_path c) (cf_scheme c) (cf_username c)
  (cf_password c) (cf_auth c) (cf_port c) (cf_auto_reconnect c) (cf_close_reconnect c) (cf_user_context
  c) (cf_network_timeout_ms c) (cf_subprotocol c) (cf_user_agent c) (cf_headers c)
  (cf_pingpong_timeout_sec c) (cf_ping_interval_sec c) (cf_tls c) (cf_ext_transport c).
Definition set_cf_task_prio (c : websocket_config_storage_t) x := mk_ws_config (cf_task_core_id c)
  (cf_task_name c) (cf_task_stack c) x (cf_uri c) (cf_host c) (cf_path c) (cf_scheme c) (cf_username c)
  (cf_password c) (cf_auth c) (cf_port c) (cf_auto_reconnect c) (cf_close_reconnect c) (cf_user_context
  c) (cf_network_timeout_ms c) (cf_subprotocol c) (cf_user_agent c) (cf_headers c)
  (cf_pingpong_timeout_sec c) (cf_ping_interval_sec c) (cf_tls c) (cf_ext_transport c).
Definition set_cf_uri (c : websocket_config_storage_t) x := mk_ws_config (cf_task_core_id c)
  (cf_task_name c) (cf_task_stack c) (cf_task_prio c) x (cf_host c) (cf_path c) (cf_scheme c)
  (cf_username c) (cf_password c) (cf_auth c) (cf_port c) (cf_auto_reconnect c) (cf_close_reconnect c)
  (cf_user_context c) (cf_network_timeout_ms c) (cf_subprotocol c) (cf_user_agent c) (cf_headers c)
  (cf_pingpong_timeout_sec c) (cf_ping_interval_sec c) (cf_tls c) (cf_ext_transport c).
Definition set_cf_host (c : websocket_config_storage_t) x := mk_ws_config (cf_task_core_id c)
  (cf_task_name c) (cf_task_stack c) (cf_task_prio c) (cf_uri c) x (cf_path c) (cf_scheme c) (cf_username
  c) (cf_password c) (cf_auth c) (cf_port c) (cf_auto_reconnect c) (cf_close_reconnect c)
  (cf_user_context c) (cf_network_timeout_ms c) (cf_subprotocol c) (cf_user_agent c) (cf_headers c)
  (cf_pingpong_timeout_sec c) (cf_ping_interval_sec c) (cf_tls c) (cf_ext_transport c).
Definition set_cf_path (c : websocket_config_storage_t) x := mk_ws_config (cf_task_core_id c)
  (cf_task_name c) (cf_task_stack c) (cf_task_prio c) (cf_uri c) (cf_host c) x (cf_scheme c) (cf_username
  c) (cf_password c) (cf_auth c) (cf_port c) (cf_auto_reconnect c) (cf_close_reconnect c)
  (cf_user_context c) (cf_network_timeout_ms c) (cf_subprotocol c) (cf_user_agent c) (cf_headers c)
  (cf_pingpong_timeout_sec c) (cf_ping_interval_sec c) (cf_tls c) (cf_ext_transport c).
Definition set_cf_scheme (c : websocket_config_storage_t) x := mk_ws_config (cf_task_core_id c)
  (cf_task_name c) (cf_task_stack c) (cf_task_prio c) (cf_uri c) (cf_host c) (cf_path c) x (cf_username
  c) (cf_password c) (cf_auth c) (cf_port c) (cf_auto_reconnect c) (cf_close_reconnect c)
  (cf_user_context c) (cf_network_timeout_ms c) (cf_subprotocol c) (cf_user_agent c) (cf_headers c)
  (cf_pingpong_timeout_sec c) (cf_ping_interval_sec c) (cf_tls c) (cf_ext_transport c).
Definition set_cf_username (c : websocket_config_storage_t) x := mk_ws_config (cf_task_core_id c)
  (cf_task_name c) (cf_task_stack c) (cf_task_prio c) (cf_uri c) (cf_host c) (cf_path c) (cf_scheme c) x
  (cf_password c) (cf_auth c) (cf_port c) (cf_auto_reconnect c) (cf_close_reconnect c) (cf_user_context
  c) (cf_network_timeout_ms c) (cf_subprotocol c) (cf_user_agent c) (cf_headers c)
  (cf_pingpong_timeout_sec c) (cf_ping_interval_sec c) (cf_tls c) (cf_ext_transport c).
Definition set_cf_password (c : websocket_config_storage_t) x := mk_ws_config (cf_task_core_id c)
  (cf_task_name c) (cf_task_stack c) (cf_task_prio c) (cf_uri c) (cf_host c) (cf_path c) (cf_scheme c)
  (cf_username c) x (cf_auth c) (cf_port c) (cf_auto_reconnect c) (cf_close_reconnect c) (cf_user_context
  c) (cf_network_timeout_ms c) (cf_subprotocol c) (cf_user_agent c) (cf_headers c)
  (cf_pingpong_timeout_sec c) (cf_ping_interval_sec c) (cf_tls c) (cf_ext_transport c).
Definition set_cf_auth (c : websocket_config_storage_t) x := mk_ws_config (cf_task_core_id c)
  (cf_task_name c) (cf_task_stack c) (cf_task_prio c) (cf_uri c) (cf_host c) (cf_path c) (cf_scheme c)
  (cf_username c) (cf_password c) x (cf_port c) (cf_auto_reconnect c) (cf_close_reconnect c)
  (cf_user_context c) (cf_network_timeout_ms c) (cf_subprotocol c) (cf_user_agent c) (cf_headers c)
  (cf_pingpong_timeout_sec c) (cf_ping_interval_sec c) (cf_tls c) (cf_ext_transport c).
Definition set_cf_port (c : websocket_config_storage_t) x := mk_ws_config (cf_task_core_id c)
  (cf_task_name c) (cf_task_stack c) (cf_task_prio c) (cf_uri c) (cf_host c) (cf_path c) (cf_scheme c)
  (cf_username c) (cf_password c) (cf_auth c) x (cf_auto_reconnect c) (cf_close_reconnect c)
  (cf_user_context c) (cf_network_timeout_ms c) (cf_subprotocol c) (cf_user_agent c) (cf_headers c)
  (cf_pingpong_timeout_sec c) (cf_ping_interval_sec c) (cf_tls c) (cf_ext_transport c).
Definition set_cf_auto_reconnect (c : websocket_config_storage_t) x := mk_ws_config (cf_task_core_id c)
  (cf_task_name c) (cf_task_stack c) (cf_task_prio c) (cf_uri c) (cf_host c) (cf_path c) (cf_scheme c)
  (cf_username c) (cf_password c) (cf_auth c) (cf_port c) x (cf_close_reconnect c) (cf_user_context c)
  (cf_network_timeout_ms c) (cf_subprotocol c) (cf_user_agent c) (cf_headers c) (cf_pingpong_timeout_sec
  c) (cf_ping_interval_sec c) (cf_tls c) (cf_ext_transport c).
Definition set_cf_close_reconnect (c : websocket_config_storage_t) x := mk_ws_config (cf_task_core_id c)
  (cf_task_name c) (cf_task_stack c) (cf_task_prio c) (cf_uri c) (cf_host c) (cf_path c) (cf_scheme c)
  (cf_username c) (cf_password c) (cf_auth c) (cf_port c) (cf_auto_reconnect c) x (cf_user_context c)
  (cf_network_timeout_ms c) (cf_subprotocol c) (cf_user_agent c) (cf_headers c) (cf_pingpong_timeout_sec
  c) (cf_ping_interval_sec c) (cf_tls c) (cf_ext_transport c).
Definition set_cf_user_context (c : websocket_config_storage_t) x := mk_ws_config (cf_task_core_id c)
  (cf_task_name c) (cf_task_stack c) (cf_task_prio c) (cf_uri c) (cf_host c) (cf_path c) (cf_scheme c)
  (cf_username c) (cf_password c) (cf_auth c) (cf_port c) (cf_auto_reconnect c) (cf_close_reconnect c) x
  (cf_network_timeout_ms c) (cf_subprotocol c) (cf_user_agent c) (cf_headers c) (cf_pingpong_timeout_sec
  c) (cf_ping_interval_sec c) (cf_tls c) (cf_ext_transport c).
Definition set_cf_network_timeout_ms (c : websocket_config_storage_t) x := mk_ws_config (cf_task_core_id
  c) (cf_task_name c) (cf_task_stack c) (cf_task_prio c) (cf_uri c) (cf_host c) (cf_path c) (cf_scheme c)
  (cf_username c) (cf_password c) (cf_auth c) (cf_port c) (cf_auto_reconnect c) (cf_close_reconnect c)
  (cf_user_context c) x (cf_subprotocol c) (cf_user_agent c) (cf_headers c) (cf_pingpong_timeout_sec c)
  (cf_ping_interval_sec c) (cf_tls c) (cf_ext_transport c).
Definition set_cf_subprotocol (c : websocket_config_storage_t) x := mk_ws_config (cf_task_core_id c)
  (cf_task_name c) (cf_task_stack c) (cf_task_prio c) (cf_uri c) (cf_host c) (cf_path c) (cf_scheme c)
  (cf_username c) (cf_password c) (cf_auth c) (cf_port c) (cf_auto_reconnect c) (cf_close_reconnect c)
  (cf_user_context c) (cf_network_timeout_ms c) x (cf_user_agent c) (cf_headers c)
  (cf_pingpong_timeout_sec c) (cf_ping_interval_sec c) (cf_tls c) (cf_ext_transport c).
Definition set_cf_user_agent (c : websocket_config_storage_t) x := mk_ws_config (cf_task_core_id c)
  (cf_task_name c) (cf_task_stack c) (cf_task_prio c) (cf_uri c) (cf_host c) (cf_path c) (cf_scheme c)
  (cf_username c) (cf_password c) (cf_auth c) (cf_port c) (cf_auto_reconnect c) (cf_close_reconnect c)
  (cf_user_context c) (cf_network_timeout_ms c) (cf_subprotocol c) x (cf_headers c)
  (cf_pingpong_timeout_sec c) (cf_ping_interval_sec c) (cf_tls c) (cf_ext_transport c).
Definition set_cf_headers (c : websocket_config_storage_t) x := mk_ws_config (cf_task_core_id c)
  (cf_task_name c) (cf_task_stack c) (cf_task_prio c) (cf_uri c) (cf_host c) (cf_path c) (cf_scheme c)
  (cf_username c) (cf_password c) (cf_auth c) (cf_port c) (cf_auto_reconnect c) (cf_close_reconnect c)
  (cf_user_context c) (cf_network_timeout_ms c) (cf_subprotocol c) (cf_user_agent c) x
  (cf_pingpong_timeout_sec c) (cf_ping_interval_sec c) (cf_tls c) (cf_ext_transport c).
Definition set_cf_pingpong_timeout_sec (c : websocket_config_storage_t) x := mk_ws_config
  (cf_task_core_id c) (cf_task_name c) (cf_task_stack c) (cf_task_prio c) (cf_uri c) (cf_host c) (cf_path
  c) (cf_scheme c) (cf_username c) (cf_password c) (cf_auth c) (cf_port c) (cf_auto_reconnect c)
  (cf_close_reconnect c) (cf_user_context c) (cf_network_timeout_ms c) (cf_subprotocol c) (cf_user_agent
  c) (cf_headers c) x (cf_ping_interval_sec c) (cf_tls c) (cf_ext_transport c).
Definition set_cf_ping_interval_sec (c : websocket_config_storage_t) x := mk_ws_config (cf_task_core_id
  c) (cf_task_name c) (cf_task_stack c) (cf_task_prio c) (cf_uri c) (cf_host c) (cf_path c) (cf_scheme c)
  (cf_username c) (cf_password c) (cf_auth c) (cf_port c) (cf_auto_reconnect c) (cf_close_reconnect c)
  (cf_user_context c) (cf_network_timeout_ms c) (cf_subprotocol c) (cf_user_agent c) (cf_headers c)
  (cf_pingpong_timeout_sec c) x (cf_tls c) (cf_ext_transport c).
Definition set_cf_tls (c : websocket_config_storage_t) x := mk_ws_config (cf_task_core_id c)
  (cf_task_name c) (cf_task_stack c) (cf_task_prio c) (cf_uri c) (cf_host c) (cf_path c) (cf_scheme c)
  (cf_username c) (cf_password c) (cf_auth c) (cf_port c) (cf_auto_reconnect c) (cf_close_reconnect c)
  (cf_user_context c) (cf_network_timeout_ms c) (cf_subprotocol c) (cf_user_agent c) (cf_headers c)
  (cf_pingpong_timeout_sec c) (cf_ping_interval_sec c) x (cf_ext_transport c).
Definition set_cf_ext_transport (c : websocket_config_storage_t) x := mk_ws_config (cf_task_core_id c)
  (cf_task_name c) (cf_task_stack c) (cf_task_prio c) (cf_uri c) (cf_host c) (cf_path c) (cf_scheme c)
  (cf_username c) (cf_password c) (cf_auth c) (cf_port c) (cf_auto_reconnect c) (cf_close_reconnect c)
  (cf_user_context c) (cf_network_timeout_ms c) (cf_subprotocol c) (cf_user_agent c) (cf_headers c)
  (cf_pingpong_timeout_sec c) (cf_ping_interval_sec c) (cf_tls c) x.

(** * The client *)

Inductive websocket_client_state_t :=
| WEBSOCKET_STATE_ERROR
| WEBSOCKET_STATE_UNKNOW
| WEBSOCKET_STATE_INIT
| WEBSOCKET_STATE_CONNECTED
| WEBSOCKET_STATE_WAIT_TIMEOUT
| WEBSOCKET_STATE_CLOSING.

#[export] Instance ws_state_eq_dec : EqDecision websocket_client_state_t.
Proof. solve_decision. Defined.

(** The comparisons [state < WEBSOCKET_STATE_INIT] and [state >= WEBSOCKET_STATE_INIT]. *)
Definition before_init (s : websocket_client_state_t) : bool :=
  match s with WEBSOCKET_STATE_ERROR | WEBSOCKET_STATE_UNKNOW => true | _ => false end.

Inductive esp_websocket_event_id_t :=
| WEBSOCKET_EVENT_ERROR
| WEBSOCKET_EVENT_HEADER_RECEIVED
| WEBSOCKET_EVENT_CONNECTED
| WEBSOCKET_EVENT_DISCONNECTED
| WEBSOCKET_EVENT_DATA
| WEBSOCKET_EVENT_CLOSED
| WEBSOCKET_EVENT_BEFORE_CONNECT
| WEBSOCKET_EVENT_BEGIN
| WEBSOCKET_EVENT_FINISH.

#[export] Instance ws_event_eq_dec : EqDecision esp_websocket_event_id_t.
Proof. solve_decision. Defined.

Inductive esp_websocket_error_type_t :=
| WEBSOCKET_ERROR_TYPE_NONE
| WEBSOCKET_ERROR_TYPE_TCP_TRANSPORT
| WEBSOCKET_ERROR_TYPE_PONG_TIMEOUT
| WEBSOCKET_ERROR_TYPE_HANDSHAKE
| WEBSOCKET_ERROR_TYPE_SERVER_CLOSE.

#[export] Instance ws_error_type_eq_dec : EqDecision esp_websocket_error_type_t.
Proof. solve_decision. Defined.

(** [struct esp_websocket_client].  Handles of the event loop, the task and the mutex
    are flags; the buffer of error messages is its size. *)
Record ws_client := mk_ws_client {
  ws_event_handle : bool;
  ws_task_handle : bool;
  ws_error_type : esp_websocket_error_type_t;
  ws_handshake_status : Z;
  ws_tls_errors : Z * Z;
  ws_transport_list : option (list (cstr * tid));
  ws_transport : option tid;
  ws_config : option websocket_config_storage_t;
  ws_state : websocket_client_state_t;
  ws_keepalive_tick_ms : Z;
  ws_reconnect_tick_ms : Z;
  ws_ping_tick_ms : Z;
  ws_pingpong_tick_ms : Z;
  ws_wait_timeout_ms : Z;
  ws_run : bool;
  ws_wait_for_pong_resp : bool;
  ws_selected_for_destroying : bool;
  ws_status_bits : option Z;
  ws_lock : bool;
  ws_errormsg_size : nat;
  ws_errormsg_buffer : option nat;
  ws_rx_buffer : option (list Z);
  ws_tx_buffer : option (list Z);
  ws_buffer_size : nat;
  ws_last_fin : bool;
  ws_last_opcode : Z;
  ws_payload_len : nat;
  ws_payload_offset : nat;
  ws_close_status_code : Z;
  ws_keep_alive_cfg : option (Z * Z * Z);
  ws_if_name : option (list Z);
}.

Definition set_ws_event_handle (c : ws_client) x := mk_ws_client x (ws_task_handle c) (ws_error_type c)
  (ws_handshake_status c) (ws_tls_errors c) (ws_transport_list c) (ws_transport c) (ws_config c)
  (ws_state c) (ws_keepalive_tick_ms c) (ws_reconnect_tick_ms c) (ws_ping_tick_ms c) (ws_pingpong_tick_ms
  c) (ws_wait_timeout_ms c) (ws_run c) (ws_wait_for_pong_resp c) (ws_selected_for_destroying c)
  (ws_status_bits c) (ws_lock c) (ws_errormsg_size c) (ws_errormsg_buffer c) (ws_rx_buffer c)
  (ws_tx_buffer c) (ws_buffer_size c) (ws_last_fin c) (ws_last_opcode c) (ws_payload_len c)
  (ws_payload_offset c) (ws_close_status_code c) (ws_keep_alive_cfg c) (ws_if_name c).
Definition set_ws_task_handle (c : ws_client) x := mk_ws_client (ws_event_handle c) x (ws_error_type c)
  (ws_handshake_status c) (ws_tls_errors c) (ws_transport_list c) (ws_transport c) (ws_config c)
  (ws_state c) (ws_keepalive_tick_ms c) (ws_reconnect_tick_ms c) (ws_ping_tick_ms c) (ws_pingpong_tick_ms
  c) (ws_wait_timeout_ms c) (ws_run c) (ws_wait_for_pong_resp c) (ws_selected_for_destroying c)
  (ws_status_bits c) (ws_lock c) (ws_errormsg_size c) (ws_errormsg_buffer c) (ws_rx_buffer c)
  (ws_tx_buffer c) (ws_buffer_size c) (ws_last_fin c) (ws_last_opcode c) (ws_payload_len c)
  (ws_payload_offset c) (ws_close_status_code c) (ws_keep_alive_cfg c) (ws_if_name c).
Definition set_ws_error_type (c : ws_client) x := mk_ws_client (ws_event_handle c) (ws_task_handle c) x
  (ws_handshake_status c) (ws_tls_errors c) (ws_transport_list c) (ws_transport c) (ws_config c)
  (ws_state c) (ws_keepalive_tick_ms c) (ws_reconnect_tick_ms c) (ws_ping_tick_ms c) (ws_pingpong_tick_ms
  c) (ws_wait_timeout_ms c) (ws_run c) (ws_wait_for_pong_resp c) (ws_selected_for_destroying c)
  (ws_status_bits c) (ws_lock c) (ws_errormsg_size c) (ws_errormsg_buffer c) (ws_rx_buffer c)
  (ws_tx_buffer c) (ws_buffer_size c) (ws_last_fin c) (ws_last_opcode c) (ws_payload_len c)
  (ws_payload_offset c) (ws_close_status_code c) (ws_keep_alive_cfg c) (ws_if_name c).
Definition set_ws_handshake_status (c : ws_client) x := mk_ws_client (ws_event_handle c) (ws_task_handle
  c) (ws_error_type c) x (ws_tls_errors c) (ws_transport_list c) (ws_transport c) (ws_config c) (ws_state
  c) (ws_keepalive_tick_ms c) (ws_reconnect_tick_ms c) (ws_ping_tick_ms c) (ws_pingpong_tick_ms c)
  (ws_wait_timeout_ms c) (ws_run c) (ws_wait_for_pong_resp c) (ws_selected_for_destroying c)
  (ws_status_bits c) (ws_lock c) (ws_errormsg_size c) (ws_errormsg_buffer c) (ws_rx_buffer c)
  (ws_tx_buffer c) (ws_buffer_size c) (ws_last_fin c) (ws_last_opcode c) (ws_payload_len c)
  (ws_payload_offset c) (ws_close_status_code c) (ws_keep_alive_cfg c) (ws_if_name c).
Definition set_ws_tls_errors (c : ws_client) x := mk_ws_client (ws_event_handle c) (ws_task_handle c)
  (ws_error_type c) (ws_handshake_status c) x (ws_transport_list c) (ws_transport c) (ws_config c)
  (ws_state c) (ws_keepalive_tick_ms c) (ws_reconnect_tick_ms c) (ws_ping_tick_ms c) (ws_pingpong_tick_ms
  c) (ws_wait_timeout_ms c) (ws_run c) (ws_wait_for_pong_resp c) (ws_selected_for_destroying c)
  (ws_status_bits c) (ws_lock c) (ws_errormsg_size c) (ws_errormsg_buffer c) (ws_rx_buffer c)
  (ws_tx_buffer c) (ws_buffer_size c) (ws_last_fin c) (ws_last_opcode c) (ws_payload_len c)
  (ws_payload_offset c) (ws_close_status_code c) (ws_keep_alive_cfg c) (ws_if_name c).
Definition set_ws_transport_list (c : ws_client) x := mk_ws_client (ws_event_handle c) (ws_task_handle c)
  (ws_error_type c) (ws_handshake_status c) (ws_tls_errors c) x (ws_transport c) (ws_config c) (ws_state
  c) (ws_keepalive_tick_ms c) (ws_reconnect_tick_ms c) (ws_ping_tick_ms c) (ws_pingpong_tick_ms c)
  (ws_wait_timeout_ms c) (ws_run c) (ws_wait_for_pong_resp c) (ws_selected_for_destroying c)
  (ws_status_bits c) (ws_lock c) (ws_errormsg_size c) (ws_errormsg_buffer c) (ws_rx_buffer c)
  (ws_tx_buffer c) (ws_buffer_size c) (ws_last_fin c) (ws_last_opcode c) (ws_payload_len c)
  (ws_payload_offset c) (ws_close_status_code c) (ws_keep_alive_cfg c) (ws_if_name c).
Definition set_ws_transport (c : ws_client) x := mk_ws_client (ws_event_handle c) (ws_task_handle c)
  (ws_error_type c) (ws_handshake_status c) (ws_tls_errors c) (ws_transport_list c) x (ws_config c)
  (ws_state c) (ws_keepalive_tick_ms c) (ws_reconnect_tick_ms c) (ws_ping_tick_ms c) (ws_pingpong_tick_ms
  c) (ws_wait_timeout_ms c) (ws_run c) (ws_wait_for_pong_resp c) (ws_selected_for_destroying c)
  (ws_status_bits c) (ws_lock c) (ws_errormsg_size c) (ws_errormsg_buffer c) (ws_rx_buffer c)
  (ws_tx_buffer c) (ws_buffer_size c) (ws_last_fin c) (ws_last_opcode c) (ws_payload_len c)
  (ws_payload_offset c) (ws_close_status_code c) (ws_keep_alive_cfg c) (ws_if_name c).
Definition set_ws_config (c : ws_client) x := mk_ws_client (ws_event_handle c) (ws_task_handle c)
  (ws_error_type c) (ws_handshake_status c) (ws_tls_errors c) (ws_transport_list c) (ws_transport c) x
  (ws_state c) (ws_keepalive_tick_ms c) (ws_reconnect_tick_ms c) (ws_ping_tick_ms c) (ws_pingpong_tick_ms
  c) (ws_wait_timeout_ms c) (ws_run c) (ws_wait_for_pong_resp c) (ws_selected_for_destroying c)
  (ws_status_bits c) (ws_lock c) (ws_errormsg_size c) (ws_errormsg_buffer c) (ws_rx_buffer c)
  (ws_tx_buffer c) (ws_buffer_size c) (ws_last_fin c) (ws_last_opcode c) (ws_payload_len c)
  (ws_payload_offset c) (ws_close_status_code c) (ws_keep_alive_cfg c) (ws_if_name c).
Definition set_ws_state (c : ws_client) x := mk_ws_client (ws_event_handle c) (ws_task_handle c)
  (ws_error_type c) (ws_handshake_status c) (ws_tls_errors c) (ws_transport_list c) (ws_transport c)
  (ws_config c) x (ws_keepalive_tick_ms c) (ws_reconnect_tick_ms c) (ws_ping_tick_ms c)
  (ws_pingpong_tick_ms c) (ws_wait_timeout_ms c) (ws_run c) (ws_wait_for_pong_resp c)
  (ws_selected_for_destroying c) (ws_status_bits c) (ws_lock c) (ws_errormsg_size c) (ws_errormsg_buffer
  c) (ws_rx_buffer c) (ws_tx_buffer c) (ws_buffer_size c) (ws_last_fin c) (ws_last_opcode c)
  (ws_payload_len c) (ws_payload_offset c) (ws_close_status_code c) (ws_keep_alive_cfg c) (ws_if_name c).
Definition set_ws_keepalive_tick_ms (c : ws_client) x := mk_ws_client (ws_event_handle c) (ws_task_handle
  c) (ws_error_type c) (ws_handshake_status c) (ws_tls_errors c) (ws_transport_list c) (ws_transport c)
  (ws_config c) (ws_state c) x (ws_reconnect_tick_ms c) (ws_ping_tick_ms c) (ws_pingpong_tick_ms c)
  (ws_wait_timeout_ms c) (ws_run c) (ws_wait_for_pong_resp c) (ws_selected_for_destroying c)
  (ws_status_bits c) (ws_lock c) (ws_errormsg_size c) (ws_errormsg_buffer c) (ws_rx_buffer c)
  (ws_tx_buffer c) (ws_buffer_size c) (ws_last_fin c) (ws_last_opcode c) (ws_payload_len c)
  (ws_payload_offset c) (ws_close_status_code c) (ws_keep_alive_cfg c) (ws_if_name c).
Definition set_ws_reconnect_tick_ms (c : ws_client) x := mk_ws_client (ws_event_handle c) (ws_task_handle
  c) (ws_error_type c) (ws_handshake_status c) (ws_tls_errors c) (ws_transport_list c) (ws_transport c)
  (ws_config c) (ws_state c) (ws_keepalive_tick_ms c) x (ws_ping_tick_ms c) (ws_pingpong_tick_ms c)
  (ws_wait_timeout_ms c) (ws_run c) (ws_wait_for_pong_resp c) (ws_selected_for_destroying c)
  (ws_status_bits c) (ws_lock c) (ws_errormsg_size c) (ws_errormsg_buffer c) (ws_rx_buffer c)
  (ws_tx_buffer c) (ws_buffer_size c) (ws_last_fin c) (ws_last_opcode c) (ws_payload_len c)
  (ws_payload_offset c) (ws_close_status_code c) (ws_keep_alive_cfg c) (ws_if_name c).
Definition set_ws_ping_tick_ms (c : ws_client) x := mk_ws_client (ws_event_handle c) (ws_task_handle c)
  (ws_error_type c) (ws_handshake_status c) (ws_tls_errors c) (ws_transport_list c) (ws_transport c)
  (ws_config c) (ws_state c) (ws_keepalive_tick_ms c) (ws_reconnect_tick_ms c) x (ws_pingpong_tick_ms c)
  (ws_wait_timeout_ms c) (ws_run c) (ws_wait_for_pong_resp c) (ws_selected_for_destroying c)
  (ws_status_bits c) (ws_lock c) (ws_errormsg_size c) (ws_errormsg_buffer c) (ws_rx_buffer c)
  (ws_tx_buffer c) (ws_buffer_size c) (ws_last_fin c) (ws_last_opcode c) (ws_payload_len c)
  (ws_payload_offset c) (ws_close_status_code c) (ws_keep_alive_cfg c) (ws_if_name c).
Definition set_ws_pingpong_tick_ms (c : ws_client) x := mk_ws_client (ws_event_handle c) (ws_task_handle
  c) (ws_error_type c) (ws_handshake_status c) (ws_tls_errors c) (ws_transport_list c) (ws_transport c)
  (ws_config c) (ws_state c) (ws_keepalive_tick_ms c) (ws_reconnect_tick_ms c) (ws_ping_tick_ms c) x
  (ws_wait_timeout_ms c) (ws_run c) (ws_wait_for_pong_resp c) (ws_selected_for_destroying c)
  (ws_status_bits c) (ws_lock c) (ws_errormsg_size c) (ws_errormsg_buffer c) (ws_rx_buffer c)
  (ws_tx_buffer c) (ws_buffer_size c) (ws_last_fin c) (ws_last_opcode c) (ws_payload_len c)
  (ws_payload_offset c) (ws_close_status_code c) (ws_keep_alive_cfg c) (ws_if_name c).
Definition set_ws_wait_timeout_ms (c : ws_client) x := mk_ws_client (ws_event_handle c) (ws_task_handle
  c) (ws_error_type c) (ws_handshake_status c) (ws_tls_errors c) (ws_transport_list c) (ws_transport c)
  (ws_config c) (ws_state c) (ws_keepalive_tick_ms c) (ws_reconnect_tick_ms c) (ws_ping_tick_ms c)
  (ws_pingpong_tick_ms c) x (ws_run c) (ws_wait_for_pong_resp c) (ws_selected_for_destroying c)
  (ws_status_bits c) (ws_lock c) (ws_errormsg_size c) (ws_errormsg_buffer c) (ws_rx_buffer c)
  (ws_tx_buffer c) (ws_buffer_size c) (ws_last_fin c) (ws_last_opcode c) (ws_payload_len c)
  (ws_payload_offset c) (ws_close_status_code c) (ws_keep_alive_cfg c) (ws_if_name c).
Definition set_ws_run (c : ws_client) x := mk_ws_client (ws_event_handle c) (ws_task_handle c)
  (ws_error_type c) (ws_handshake_status c) (ws_tls_errors c) (ws_transport_list c) (ws_transport c)
  (ws_config c) (ws_state c) (ws_keepalive_tick_ms c) (ws_reconnect_tick_ms c) (ws_ping_tick_ms c)
  (ws_pingpong_tick_ms c) (ws_wait_timeout_ms c) x (ws_wait_for_pong_resp c) (ws_selected_for_destroying
  c) (ws_status_bits c) (ws_lock c) (ws_errormsg_size c) (ws_errormsg_buffer c) (ws_rx_buffer c)
  (ws_tx_buffer c) (ws_buffer_size c) (ws_last_fin c) (ws_last_opcode c) (ws_payload_len c)
  (ws_payload_offset c) (ws_close_status_code c) (ws_keep_alive_cfg c) (ws_if_name c).
Definition set_ws_wait_for_pong_resp (c : ws_client) x := mk_ws_client (ws_event_handle c)
  (ws_task_handle c) (ws_error_type c) (ws_handshake_status c) (ws_tls_errors c) (ws_transport_list c)
  (ws_transport c) (ws_config c) (ws_state c) (ws_keepalive_tick_ms c) (ws_reconnect_tick_ms c)
  (ws_ping_tick_ms c) (ws_pingpong_tick_ms c) (ws_wait_timeout_ms c) (ws_run c) x
  (ws_selected_for_destroying c) (ws_status_bits c) (ws_lock c) (ws_errormsg_size c) (ws_errormsg_buffer
  c) (ws_rx_buffer c) (ws_tx_buffer c) (ws_buffer_size c) (ws_last_fin c) (ws_last_opcode c)
  (ws_payload_len c) (ws_payload_offset c) (ws_close_status_code c) (ws_keep_alive_cfg c) (ws_if_name c).
Definition set_ws_selected_for_destroying (c : ws_client) x := mk_ws_client (ws_event_handle c)
  (ws_task_handle c) (ws_error_type c) (ws_handshake_status c) (ws_tls_errors c) (ws_transport_list c)
  (ws_transport c) (ws_config c) (ws_state c) (ws_keepalive_tick_ms c) (ws_reconnect_tick_ms c)
  (ws_ping_tick_ms c) (ws_pingpong_tick_ms c) (ws_wait_timeout_ms c) (ws_run c) (ws_wait_for_pong_resp c)
  x (ws_status_bits c) (ws_lock c) (ws_errormsg_size c) (ws_errormsg_buffer c) (ws_rx_buffer c)
  (ws_tx_buffer c) (ws_buffer_size c) (ws_last_fin c) (ws_last_opcode c) (ws_payload_len c)
  (ws_payload_offset c) (ws_close_status_code c) (ws_keep_alive_cfg c) (ws_if_name c).
Definition set_ws_status_bits (c : ws_client) x := mk_ws_client (ws_event_handle c) (ws_task_handle c)
  (ws_error_type c) (ws_handshake_status c) (ws_tls_errors c) (ws_transport_list c) (ws_transport c)
  (ws_config c) (ws_state c) (ws_keepalive_tick_ms c) (ws_reconnect_tick_ms c) (ws_ping_tick_ms c)
  (ws_pingpong_tick_ms c) (ws_wait_timeout_ms c) (ws_run c) (ws_wait_for_pong_resp c)
  (ws_selected_for_destroying c) x (ws_lock c) (ws_errormsg_size c) (ws_errormsg_buffer c) (ws_rx_buffer
  c) (ws_tx_buffer c) (ws_buffer_size c) (ws_last_fin c) (ws_last_opcode c) (ws_payload_len c)
  (ws_payload_offset c) (ws_close_status_code c) (ws_keep_alive_cfg c) (ws_if_name c).
Definition set_ws_lock (c : ws_client) x := mk_ws_client (ws_event_handle c) (ws_task_handle c)
  (ws_error_type c) (ws_handshake_status c) (ws_tls_errors c) (ws_transport_list c) (ws_transport c)
  (ws_config c) (ws_state c) (ws_keepalive_tick_ms c) (ws_reconnect_tick_ms c) (ws_ping_tick_ms c)
  (ws_pingpong_tick_ms c) (ws_wait_timeout_ms c) (ws_run c) (ws_wait_for_pong_resp c)
  (ws_selected_for_destroying c) (ws_status_bits c) x (ws_errormsg_size c) (ws_errormsg_buffer c)
  (ws_rx_buffer c) (ws_tx_buffer c) (ws_buffer_size c) (ws_last_fin c) (ws_last_opcode c) (ws_payload_len
  c) (ws_payload_offset c) (ws_close_status_code c) (ws_keep_alive_cfg c) (ws_if_name c).
Definition set_ws_errormsg_size (c : ws_client) x := mk_ws_client (ws_event_handle c) (ws_task_handle c)
  (ws_error_type c) (ws_handshake_status c) (ws_tls_errors c) (ws_transport_list c) (ws_transport c)
  (ws_config c) (ws_state c) (ws_keepalive_tick_ms c) (ws_reconnect_tick_ms c) (ws_ping_tick_ms c)
  (ws_pingpong_tick_ms c) (ws_wait_timeout_ms c) (ws_run c) (ws_wait_for_pong_resp c)
  (ws_selected_for_destroying c) (ws_status_bits c) (ws_lock c) x (ws_errormsg_buffer c) (ws_rx_buffer c)
  (ws_tx_buffer c) (ws_buffer_size c) (ws_last_fin c) (ws_last_opcode c) (ws_payload_len c)
  (ws_payload_offset c) (ws_close_status_code c) (ws_keep_alive_cfg c) (ws_if_name c).
Definition set_ws_errormsg_buffer (c : ws_client) x := mk_ws_client (ws_event_handle c) (ws_task_handle
  c) (ws_error_type c) (ws_handshake_status c) (ws_tls_errors c) (ws_transport_list c) (ws_transport c)
  (ws_config c) (ws_state c) (ws_keepalive_tick_ms c) (ws_reconnect_tick_ms c) (ws_ping_tick_ms c)
  (ws_pingpong_tick_ms c) (ws_wait_timeout_ms c) (ws_run c) (ws_wait_for_pong_resp c)
  (ws_selected_for_destroying c) (ws_status_bits c) (ws_lock c) (ws_errormsg_size c) x (ws_rx_buffer c)
  (ws_tx_buffer c) (ws_buffer_size c) (ws_last_fin c) (ws_last_opcode c) (ws_payload_len c)
  (ws_payload_offset c) (ws_close_status_code c) (ws_keep_alive_cfg c) (ws_if_name c).
Definition set_ws_rx_buffer (c : ws_client) x := mk_ws_client (ws_event_handle c) (ws_task_handle c)
  (ws_error_type c) (ws_handshake_status c) (ws_tls_errors c) (ws_transport_list c) (ws_transport c)
  (ws_config c) (ws_state c) (ws_keepalive_tick_ms c) (ws_reconnect_tick_ms c) (ws_ping_tick_ms c)
  (ws_pingpong_tick_ms c) (ws_wait_timeout_ms c) (ws_run c) (ws_wait_for_pong_resp c)
  (ws_selected_for_destroying c) (ws_status_bits c) (ws_lock c) (ws_errormsg_size c) (ws_errormsg_buffer
  c) x (ws_tx_buffer c) (ws_buffer_size c) (ws_last_fin c) (ws_last_opcode c) (ws_payload_len c)
  (ws_payload_offset c) (ws_close_status_code c) (ws_keep_alive_cfg c) (ws_if_name c).
Definition set_ws_tx_buffer (c : ws_client) x := mk_ws_client (ws_event_handle c) (ws_task_handle c)
  (ws_error_type c) (ws_handshake_status c) (ws_tls_errors c) (ws_transport_list c) (ws_transport c)
  (ws_config c) (ws_state c) (ws_keepalive_tick_ms c) (ws_reconnect_tick_ms c) (ws_ping_tick_ms c)
  (ws_pingpong_tick_ms c) (ws_wait_timeout_ms c) (ws_run c) (ws_wait_for_pong_resp c)
  (ws_selected_for_destroying c) (ws_status_bits c) (ws_lock c) (ws_errormsg_size c) (ws_errormsg_buffer
  c) (ws_rx_buffer c) x (ws_buffer_size c) (ws_last_fin c) (ws_last_opcode c) (ws_payload_len c)
  (ws_payload_offset c) (ws_close_status_code c) (ws_keep_alive_cfg c) (ws_if_name c).
Definition set_ws_buffer_size (c : ws_client) x := mk_ws_client (ws_event_handle c) (ws_task_handle c)
  (ws_error_type c) (ws_handshake_status c) (ws_tls_errors c) (ws_transport_list c) (ws_transport c)
  (ws_config c) (ws_state c) (ws_keepalive_tick_ms c) (ws_reconnect_tick_ms c) (ws_ping_tick_ms c)
  (ws_pingpong_tick_ms c) (ws_wait_timeout_ms c) (ws_run c) (ws_wait_for_pong_resp c)
  (ws_selected_for_destroying c) (ws_status_bits c) (ws_lock c) (ws_errormsg_size c) (ws_errormsg_buffer
  c) (ws_rx_buffer c) (ws_tx_buffer c) x (ws_last_fin c) (ws_last_opcode c) (ws_payload_len c)
  (ws_payload_offset c) (ws_close_status_code c) (ws_keep_alive_cfg c) (ws_if_name c).
Definition set_ws_last_fin (c : ws_client) x := mk_ws_client (ws_event_handle c) (ws_task_handle c)
  (ws_error_type c) (ws_handshake_status c) (ws_tls_errors c) (ws_transport_list c) (ws_transport c)
  (ws_config c) (ws_state c) (ws_keepalive_tick_ms c) (ws_reconnect_tick_ms c) (ws_ping_tick_ms c)
  (ws_pingpong_tick_ms c) (ws_wait_timeout_ms c) (ws_run c) (ws_wait_for_pong_resp c)
  (ws_selected_for_destroying c) (ws_status_bits c) (ws_lock c) (ws_errormsg_size c) (ws_errormsg_buffer
  c) (ws_rx_buffer c) (ws_tx_buffer c) (ws_buffer_size c) x (ws_last_opcode c) (ws_payload_len c)
  (ws_payload_offset c) (ws_close_status_code c) (ws_keep_alive_cfg c) (ws_if_name c).
Definition set_ws_last_opcode (c : ws_client) x := mk_ws_client (ws_event_handle c) (ws_task_handle c)
  (ws_error_type c) (ws_handshake_status c) (ws_tls_errors c) (ws_transport_list c) (ws_transport c)
  (ws_config c) (ws_state c) (ws_keepalive_tick_ms c) (ws_reconnect_tick_ms c) (ws_ping_tick_ms c)
  (ws_pingpong_tick_ms c) (ws_wait_timeout_ms c) (ws_run c) (ws_wait_for_pong_resp c)
  (ws_selected_for_destroying c) (ws_status_bits c) (ws_lock c) (ws_errormsg_size c) (ws_errormsg_buffer
  c) (ws_rx_buffer c) (ws_tx_buffer c) (ws_buffer_size c) (ws_last_fin c) x (ws_payload_len c)
  (ws_payload_offset c) (ws_close_status_code c) (ws_keep_alive_cfg c) (ws_if_name c).
Definition set_ws_payload_len (c : ws_client) x := mk_ws_client (ws_event_handle c) (ws_task_handle c)
  (ws_error_type c) (ws_handshake_status c) (ws_tls_errors c) (ws_transport_list c) (ws_transport c)
  (ws_config c) (ws_state c) (ws_keepalive_tick_ms c) (ws_reconnect_tick_ms c) (ws_ping_tick_ms c)
  (ws_pingpong_tick_ms c) (ws_wait_timeout_ms c) (ws_run c) (ws_wait_for_pong_resp c)
  (ws_selected_for_destroying c) (ws_status_bits c) (ws_lock c) (ws_errormsg_size c) (ws_errormsg_buffer
  c) (ws_rx_buffer c) (ws_tx_buffer c) (ws_buffer_size c) (ws_last_fin c) (ws_last_opcode c) x
  (ws_payload_offset c) (ws_close_status_code c) (ws_keep_alive_cfg c) (ws_if_name c).
Definition set_ws_payload_offset (c : ws_client) x := mk_ws_client (ws_event_handle c) (ws_task_handle c)
  (ws_error_type c) (ws_handshake_status c) (ws_tls_errors c) (ws_transport_list c) (ws_transport c)
  (ws_config c) (ws_state c) (ws_keepalive_tick_ms c) (ws_reconnect_tick_ms c) (ws_ping_tick_ms c)
  (ws_pingpong_tick_ms c) (ws_wait_timeout_ms c) (ws_run c) (ws_wait_for_pong_resp c)
  (ws_selected_for_destroying c) (ws_status_bits c) (ws_lock c) (ws_errormsg_size c) (ws_errormsg_buffer
  c) (ws_rx_buffer c) (ws_tx_buffer c) (ws_buffer_size c) (ws_last_fin c) (ws_last_opcode c)
  (ws_payload_len c) x (ws_close_status_code c) (ws_keep_alive_cfg c) (ws_if_name c).
Definition set_ws_close_status_code (c : ws_client) x := mk_ws_client (ws_event_handle c) (ws_task_handle
  c) (ws_error_type c) (ws_handshake_status c) (ws_tls_errors c) (ws_transport_list c) (ws_transport c)
  (ws_config c) (ws_state c) (ws_keepalive_tick_ms c) (ws_reconnect_tick_ms c) (ws_ping_tick_ms c)
  (ws_pingpong_tick_ms c) (ws_wait_timeout_ms c) (ws_run c) (ws_wait_for_pong_resp c)
  (ws_selected_for_destroying c) (ws_status_bits c) (ws_lock c) (ws_errormsg_size c) (ws_errormsg_buffer
  c) (ws_rx_buffer c) (ws_tx_buffer c) (ws_buffer_size c) (ws_last_fin c) (ws_last_opcode c)
  (ws_payload_len c) (ws_payload_offset c) x (ws_keep_alive_cfg c) (ws_if_name c).
Definition set_ws_keep_alive_cfg (c : ws_client) x := mk_ws_client (ws_event_handle c) (ws_task_handle c)
  (ws_error_type c) (ws_handshake_status c) (ws_tls_errors c) (ws_transport_list c) (ws_transport c)
  (ws_config c) (ws_state c) (ws_keepalive_tick_ms c) (ws_reconnect_tick_ms c) (ws_ping_tick_ms c)
  (ws_pingpong_tick_ms c) (ws_wait_timeout_ms c) (ws_run c) (ws_wait_for_pong_resp c)
  (ws_selected_for_destroying c) (ws_status_bits c) (ws_lock c) (ws_errormsg_size c) (ws_errormsg_buffer
  c) (ws_rx_buffer c) (ws_tx_buffer c) (ws_buffer_size c) (ws_last_fin c) (ws_last_opcode c)
  (ws_payload_len c) (ws_payload_offset c) (ws_close_status_code c) x (ws_if_name c).
Definition set_ws_if_name (c : ws_client) x := mk_ws_client (ws_event_handle c) (ws_task_handle c)
  (ws_error_type c) (ws_handshake_status c) (ws_tls_errors c) (ws_transport_list c) (ws_transport c)
  (ws_config c) (ws_state c) (ws_keepalive_tick_ms c) (ws_reconnect_tick_ms c) (ws_ping_tick_ms c)
  (ws_pingpong_tick_ms c) (ws_wait_timeout_ms c) (ws_run c) (ws_wait_for_pong_resp c)
  (ws_selected_for_destroying c) (ws_status_bits c) (ws_lock c) (ws_errormsg_size c) (ws_errormsg_buffer
  c) (ws_rx_buffer c) (ws_tx_buffer c) (ws_buffer_size c) (ws_last_fin c) (ws_last_opcode c)
  (ws_payload_len c) (ws_payload_offset c) (ws_close_status_code c) (ws_keep_alive_cfg c) x.

(** * The surroundings *)

(** What the client sets on a transport, in the order in which it does. *)
Inductive transport_setting :=
| SetDefaultPort (port : Z)
| SetKeepAlive (idle interval count : Z)
| SetInterface (ifname : list Z)
| SetGlobalCaStore
| SetCert (pem : list Z)
| SetCertDer (der : list Z)
| SetClientCert (pem : list Z)
| SetClientCertDer (der : list Z)
| SetClientKey (pem : list Z)
| SetClientKeyDer (der : list Z)
| SetCrtBundle
| SetSkipCommonName
| SetCommonName (name : cstr)
| SetParent (t : tid)
| SetWsConfig (path sub_protocol user_agent headers auth : option cstr)
| SetWsHeaders (headers : cstr).

(** [esp_transport_connect]: its result, the header lines of the response, the
    status of the upgrade request and the URI of a redirection. *)
Record connect_answer := mk_connect_answer {
  ca_result : Z;
  ca_headers : list cstr;
  ca_status : Z;
  ca_redir : option cstr;
}.

(** [esp_transport_read]: an error, or bytes and what the transport then says of
    the frame they belong to. *)
Inductive read_answer :=
| ReadError (rlen : Z)
| ReadData (bytes : list Z) (payload_len : nat) (fin : bool) (opcode : Z).

(** What an event handler may do: send, and change the two intervals. *)
Inductive handler_op :=
| HandlerSend (opcode : Z) (data : option (list Z)) (len : Z)
| HandlerSetPingInterval (sec : Z)
| HandlerSetReconnectTimeout (ms : Z).

(** The reports made with [esp_websocket_client_error]. *)
Inductive ws_error_report :=
| ReportRead (rlen : Z)
| ReportWrite (ret : Z)
| ReportConnect (result status : Z)
| ReportPoll (read_select : Z)
| ReportNoPong (sec : Z).

(** [esp_websocket_event_data_t]; the pointer to the data is the data it points to. *)
Record esp_websocket_event_data_t := mk_ws_event {
  ev_data : option (list Z);
  ev_data_len : nat;
  ev_fin : bool;
  ev_op_code : Z;
  ev_user_context : Z;
  ev_payload_len : nat;
  ev_payload_offset : nat;
  ev_close_status_code : Z;
  ev_error_type : esp_websocket_error_type_t;
  ev_handshake_status : Z;
  ev_tls : option (Z * Z * Z * Z);
}.

(** Events posted, frames handed to the transport with its answer, connections
    opened and closed. *)
Inductive ws_out :=
| OutEvent (event : esp_websocket_event_id_t) (data : esp_websocket_event_data_t)
| OutFrame (opcode : Z) (payload : list Z) (wlen : Z)
| OutConnect (host : option cstr) (port : Z)
| OutClose.

Record ws_world := mk_ws_world {
  w_client : option ws_client;
  w_heap : heap;
  w_clock : Z;
  w_steps : list N;
  w_transports : list (tid * list transport_setting);
  w_connects : list connect_answer;
  w_polls : list Z;
  w_reads : list read_answer;
  w_writes : list Z;
  w_tls : list (Z * Z * Z * Z);
  w_reactions : list (list handler_op);
  w_log : list ws_out;
}.

Definition set_w_client (w : ws_world) x := mk_ws_world x (w_heap w) (w_clock w) (w_steps w)
  (w_transports w) (w_connects w) (w_polls w) (w_reads w) (w_writes w) (w_tls w) (w_reactions w) (w_log
  w).
Definition set_w_heap (w : ws_world) x := mk_ws_world (w_client w) x (w_clock w) (w_steps w)
  (w_transports w) (w_connects w) (w_polls w) (w_reads w) (w_writes w) (w_tls w) (w_reactions w) (w_log
  w).
Definition set_w_clock (w : ws_world) x := mk_ws_world (w_client w) (w_heap w) x (w_steps w)
  (w_transports w) (w_connects w) (w_polls w) (w_reads w) (w_writes w) (w_tls w) (w_reactions w) (w_log
  w).
Definition set_w_steps (w : ws_world) x := mk_ws_world (w_client w) (w_heap w) (w_clock w) x
  (w_transports w) (w_connects w) (w_polls w) (w_reads w) (w_writes w) (w_tls w) (w_reactions w) (w_log
  w).
Definition set_w_transports (w : ws_world) x := mk_ws_world (w_client w) (w_heap w) (w_clock w) (w_steps
  w) x (w_connects w) (w_polls w) (w_reads w) (w_writes w) (w_tls w) (w_reactions w) (w_log w).
Definition set_w_connects (w : ws_world) x := mk_ws_world (w_client w) (w_heap w) (w_clock w) (w_steps w)
  (w_transports w) x (w_polls w) (w_reads w) (w_writes w) (w_tls w) (w_reactions w) (w_log w).
Definition set_w_polls (w : ws_world) x := mk_ws_world (w_client w) (w_heap w) (w_clock w) (w_steps w)
  (w_transports w) (w_connects w) x (w_reads w) (w_writes w) (w_tls w) (w_reactions w) (w_log w).
Definition set_w_reads (w : ws_world) x := mk_ws_world (w_client w) (w_heap w) (w_clock w) (w_steps w)
  (w_transports w) (w_connects w) (w_polls w) x (w_writes w) (w_tls w) (w_reactions w) (w_log w).
Definition set_w_writes (w : ws_world) x := mk_ws_world (w_client w) (w_heap w) (w_clock w) (w_steps w)
  (w_transports w) (w_connects w) (w_polls w) (w_reads w) x (w_tls w) (w_reactions w) (w_log w).
Definition set_w_tls (w : ws_world) x := mk_ws_world (w_client w) (w_heap w) (w_clock w) (w_steps w)
  (w_transports w) (w_connects w) (w_polls w) (w_reads w) (w_writes w) x (w_reactions w) (w_log w).
Definition set_w_reactions (w : ws_world) x := mk_ws_world (w_client w) (w_heap w) (w_clock w) (w_steps
  w) (w_transports w) (w_connects w) (w_polls w) (w_reads w) (w_writes w) (w_tls w) x (w_log w).
Definition set_w_log (w : ws_world) x := mk_ws_world (w_client w) (w_heap w) (w_clock w) (w_steps w)
  (w_transports w) (w_connects w) (w_polls w) (w_reads w) (w_writes w) (w_tls w) (w_reactions w) x.

#[export] Instance ws_world_heap : HasHeap ws_world.
Proof. refine {| heap_of := w_heap; with_heap := set_w_heap |}. done. Defined.
