(* ===== verification/Ws.v ===== *)
(** The websocket client, components/esp_websocket_client/esp_websocket_client.c: buffers,
    events, sending and receiving, and the closing of a connection.

    The client is built without a separate lock for sending, which is the default
    (ESP_WS_CLIENT_SEPARATE_TX_LOCK off); the other options that change what the
    client does are in [ws_options].  Functions of other components are in
    [ws_externals] when their result depends on their arguments alone. *)
From S2P Require Import Prelude Heap State WsData.

Definition u64 (z : Z) : Z := z mod 2 ^ 64.

(** ESP_WS_CLIENT_ENABLE_DYNAMIC_BUFFER, WS_TRANSPORT_REDIRECT_HEADER_SUPPORT,
    WS_TRANSPORT_HEADER_CALLBACK_SUPPORT, MBEDTLS_CERTIFICATE_BUNDLE and configTICK_RATE_HZ. *)
Class ws_options := {
  enable_dynamic_buffer : bool;
  redirect_header_support : bool;
  header_callback_support : bool;
  certificate_bundle : bool;
  tick_rate_hz : Z;
}.

(** [struct http_parser_url]: offset and length of each part. *)
Record http_parser_url := mk_url {
  uf_schema : nat * nat;
  uf_host : nat * nat;
  uf_port : nat * nat;
  uf_path : nat * nat;
  uf_query : nat * nat;
  uf_userinfo : nat * nat;
}.

(** [http_parser_parse_url] (none when it fails), [esp_crypto_base64_encode],
    [esp_transport_list_get_transport] and the text [vsnprintf] makes of a report. *)
Class ws_externals := {
  http_parser_parse_url : cstr -> option http_parser_url;
  base64_encode : cstr -> cstr;
  transport_list_get : list (cstr * tid) -> cstr -> option tid;
  format_report : ws_error_report -> option cstr;
}.

Abbreviation W := (ST ws_world).

(** * Access to the client and its surroundings *)

Definition get : W ws_client := asks (fun w => deref (w_client w)).

Definition upd (f : ws_client -> ws_client) : W unit :=
  c ← get; writes (fun w => set_w_client w (Some (f c))).

Definition get_cfg : W websocket_config_storage_t := c ← get; asks (fun _ => deref (ws_config c)).

Definition upd_cfg (f : websocket_config_storage_t -> websocket_config_storage_t) : W unit :=
  cfg ← get_cfg; upd (fun c => set_ws_config c (Some (f cfg))).

Definition out (o : ws_out) : W unit := writes (fun w => set_w_log w (w_log w ++ [o])).

(** The next answer of the surroundings, or [d] when none is left. *)
Definition next {A} (d : A) (get : ws_world -> list A) (put : ws_world -> list A -> ws_world) : W A := fun w =>
  match get w with
  | [] => Ret (d, w)
  | a :: l => Ret (a, put w l)
  end.

(** A call that may fail and allocates nothing that stays. *)
Definition attempt : H bool := fun h =>
  match fails h with
  | b :: f => Ret (negb b, mk_heap f (live h))
  | [] => Ret (true, h)
  end.

(** [esp_timer_get_time() / 1000]: some time may have passed. *)
Definition _tick_get_ms : W Z :=
  d ← next 0%N w_steps set_w_steps;
  _ ← writes (fun w => set_w_clock w (w_clock w + Z.of_N d)%Z);
  reads w_clock.

(** The event group of the client. *)
Definition get_bits : W Z := c ← get; asks (fun _ => deref (ws_status_bits c)).

Definition set_bits (b : Z) : W unit := x ← get_bits; upd (fun c => set_ws_status_bits c (Some (Z.lor x b))).

Definition clear_bits (b : Z) : W unit := x ← get_bits; upd (fun c => set_ws_status_bits c (Some (Z.ldiff x b))).

Definition has_bit (x b : Z) : bool := negb (Z.land x b =? 0)%Z.

(** The lock is there to be taken. *)
Definition take_lock : W unit := c ← get; asks (fun _ => if ws_lock c then Ret tt else BadAccess).

(** The transport is used: it must exist. *)
Definition use_transport (t : option tid) : W tid :=
  asks (fun w => i ← deref t; if decide (i ∈ map fst (w_transports w)) then Ret i else BadAccess).

(** A call that tolerates a null transport. *)
Definition may_use_transport (t : option tid) : W unit :=
  match t with None => mret tt | Some _ => _ ← use_transport t; mret tt end.

Definition esp_transport_close (t : option tid) : W unit :=
  match t with None => mret tt | Some _ => _ ← use_transport t; out OutClose end.

Definition esp_transport_poll_read (t : option tid) : W Z :=
  _ ← use_transport t; next 0%Z w_polls set_w_polls.

(** [esp_transport_read] into a buffer of [n] bytes. *)
Definition esp_transport_read (t : option tid) (n : nat) : W read_answer :=
  _ ← use_transport t;
  r ← next (ReadError (-1)) w_reads set_w_reads;
  mret (match r with
        | ReadError e => ReadError (Z.min e (-1))
        | ReadData bytes plen fin op => ReadData (take n bytes) plen fin op
        end).

(** [esp_transport_ws_send_raw]: a frame is accepted as a whole unless the
    surroundings say otherwise; never more than it holds. *)
Definition esp_transport_ws_send_raw (t : option tid) (opcode : Z) (payload : list Z) : W Z :=
  _ ← use_transport t;
  r ← next (Z.of_nat (length payload)) w_writes set_w_writes;
  let wlen := Z.min r (Z.of_nat (length payload)) in
  _ ← out (OutFrame opcode payload wlen);
  mret wlen.

(** * Buffers *)

Section Client.
Context {options : ws_options} {externals : ws_externals}.

Definition opt_free {A} (p : option A) : W unit := alloc (mfree (opt_block p)).

(** The pointer to a new block, null when there is no memory. *)
Definition when_ok {A} (a : A) (ok : bool) : option A := if ok then Some a else None.

Definition new_block {A} (a : A) : W (option A) := ok ← alloc malloc; mret (when_ok a ok).

(** [calloc(1, size)]. *)
Definition calloc (size : nat) : W (option (list Z)) := new_block (replicate size 0%Z).

Definition esp_websocket_new_buf (is_tx : bool) : W ws_err :=
  if negb enable_dynamic_buffer then mret ESP_OK
  else
    c ← get;
    if is_tx then
      _ ← opt_free (ws_tx_buffer c);
      b ← calloc (ws_buffer_size c);
      _ ← upd (fun c => set_ws_tx_buffer c b);
      mret (match b with Some _ => ESP_OK | None => ESP_ERR_NO_MEM end)
    else
      _ ← opt_free (ws_rx_buffer c);
      b ← calloc (ws_buffer_size c);
      _ ← upd (fun c => set_ws_rx_buffer c b);
      mret (match b with Some _ => ESP_OK | None => ESP_ERR_NO_MEM end).

Definition esp_websocket_free_buf (is_tx : bool) : W unit :=
  if negb enable_dynamic_buffer then mret tt
  else
    c ← get;
    if is_tx then _ ← opt_free (ws_tx_buffer c); upd (fun c => set_ws_tx_buffer c None)
    else _ ← opt_free (ws_rx_buffer c); upd (fun c => set_ws_rx_buffer c None).

(** * Intervals *)

Definition esp_websocket_client_get_ping_interval_sec : W Z :=
  c ← get; mret (match ws_config c with None => 0%Z | Some cfg => cf_ping_interval_sec cfg end).

Definition esp_websocket_client_set_ping_interval_sec (sec : Z) : W ws_err :=
  c ← get;
  match ws_config c with
  | None => mret ESP_ERR_INVALID_STATE
  | Some _ =>
      _ ← upd_cfg (fun cfg => set_cf_ping_interval_sec cfg
                     (if (sec =? 0)%Z then WEBSOCKET_PING_INTERVAL_SEC else sec));
      mret ESP_OK
  end.

Definition esp_websocket_client_get_reconnect_timeout : W Z :=
  cfg ← get_cfg; c ← get;
  mret (if cf_auto_reconnect cfg then ws_wait_timeout_ms c else (-1)%Z).

Definition esp_websocket_client_set_reconnect_timeout (ms : Z) : W ws_err :=
  if (ms <=? 0)%Z then mret ESP_ERR_INVALID_ARG
  else
    cfg ← get_cfg;
    if negb (cf_auto_reconnect cfg) then mret ESP_ERR_INVALID_STATE
    else
      _ ← upd (fun c => set_ws_wait_timeout_ms c ms);
      c ← get;
      _ ← (match ws_status_bits c with None => mret tt | Some _ => set_bits WAKEUP_BIT end);
      mret ESP_OK.

(** * Events *)

(** [event_data] as it is filled in by [esp_websocket_client_dispatch_event]. *)
Definition make_event (data : option (list Z)) (data_len : nat) : W esp_websocket_event_data_t :=
  c ← get; cfg ← get_cfg;
  let ev := mk_ws_event data data_len (ws_last_fin c) (u8 (ws_last_opcode c)) (cf_user_context cfg)
              (ws_payload_len c) (ws_payload_offset c) (ws_close_status_code c)
              (ws_error_type c) (ws_handshake_status c) in
  if decide (ws_error_type c = WEBSOCKET_ERROR_TYPE_TCP_TRANSPORT) then
    _ ← may_use_transport (ws_transport c);
    e ← next (0, 0, 0, 0)%Z w_tls set_w_tls;
    let '(last_err, stack_err, flags, errno) := (e : Z * Z * Z * Z) in
    _ ← upd (fun c => set_ws_tls_errors c (stack_err, flags));
    mret (ev (Some (last_err, stack_err, flags, errno)))
  else mret (ev None).

(** The handler is an argument: what it does, and what that leads to, is defined
    below. *)
Section Dispatching.
Variable dispatch_event : esp_websocket_event_id_t -> option (list Z) -> nat -> W ws_err.

(** The lock is held by the caller. *)
Definition esp_websocket_client_abort_connection (error_type : esp_websocket_error_type_t) : W ws_err :=
  c ← get;
  if before_init (ws_state c) then mret ESP_FAIL
  else
    _ ← (if decide (ws_state c = WEBSOCKET_STATE_CLOSING \/ ws_state c = WEBSOCKET_STATE_UNKNOW
                    \/ ws_state c = WEBSOCKET_STATE_WAIT_TIMEOUT) then mret tt
         else
           _ ← esp_transport_close (ws_transport c);
           cfg ← get_cfg;
           _ ← (if negb (cf_auto_reconnect cfg) then
                  upd (fun c => set_ws_state (set_ws_run c false) WEBSOCKET_STATE_UNKNOW)
                else
                  t ← _tick_get_ms;
                  upd (fun c => set_ws_state (set_ws_reconnect_tick_ms c t) WEBSOCKET_STATE_WAIT_TIMEOUT));
           _ ← upd (fun c => set_ws_error_type c error_type);
           _ ← dispatch_event WEBSOCKET_EVENT_DISCONNECTED None 0;
           mret tt);
    c ← get;
    _ ← (match ws_errormsg_buffer c with
         | Some _ =>
             _ ← opt_free (ws_errormsg_buffer c);
             upd (fun c => set_ws_errormsg_size (set_ws_errormsg_buffer c None) 0)
         | None => mret tt
         end);
    mret ESP_OK.

(** [needed_size > errormsg_size]: a larger buffer is allocated. *)
Definition grow_errormsg (needed_size : nat) : W bool :=
  c ← get;
  if negb (ws_errormsg_size c <? needed_size) then mret true
  else
    _ ← opt_free (ws_errormsg_buffer c);
    b ← new_block needed_size;
    _ ← upd (fun c => set_ws_errormsg_buffer c b);
    match b with
    | None => _ ← upd (fun c => set_ws_errormsg_size c 0); mret false
    | Some _ => _ ← upd (fun c => set_ws_errormsg_size c needed_size); mret true
    end.

Definition esp_websocket_client_error (r : ws_error_report) : W ws_err :=
  match format_report r with
  | None => mret ESP_FAIL
  | Some text =>
      ok ← grow_errormsg (length text + 1);
      if negb ok then mret ESP_ERR_NO_MEM
      else
        c ← get;
        size ← asks (fun _ => deref (ws_errormsg_buffer c));
        _ ← asks (fun _ => if ws_errormsg_size c <=? size then Ret tt else BadAccess);
        _ ← dispatch_event WEBSOCKET_EVENT_ERROR (Some (take (ws_errormsg_size c - 1) text)) (length text);
        mret ESP_OK
  end.

(** * Sending *)

(** What the loop sends next: at most a buffer, with FIN only on the last part. *)
Definition next_part (buffer_size need_write : nat) (contained_fin : bool) (opcode : Z) : nat * Z :=
  if buffer_size <? need_write then (buffer_size, Z.ldiff opcode WS_TRANSPORT_OPCODES_FIN)
  else if contained_fin then (need_write, Z.lor opcode WS_TRANSPORT_OPCODES_FIN)
  else (need_write, opcode).

(** [memcpy(client->tx_buffer, data + widx, n)]; the result is what is then sent. *)
Definition fill_tx (data : list Z) (widx n : nat) : W (list Z) :=
  c ← get;
  b ← asks (fun _ => deref (ws_tx_buffer c));
  bs ← asks (fun _ => rd_bytes data widx n);
  b ← asks (fun _ => wr_bytes b 0 bs);
  _ ← upd (fun c => set_ws_tx_buffer c (Some b));
  asks (fun _ => rd_bytes b 0 n).

Fixpoint send_loop (fuel : nat) (data : list Z) (len : nat) (contained_fin : bool) (opcode : Z)
    (widx need_write : nat) : W Z :=
  match fuel with
  | O => fun _ => OutOfFuel
  | S fuel =>
      if negb ((widx <? len) || negb (opcode =? 0)%Z) then
        _ ← esp_websocket_free_buf true; mret (Z.of_nat widx)
      else
        c ← get;
        let '(need_write, opcode) := next_part (ws_buffer_size c) need_write contained_fin opcode in
        part ← fill_tx data widx need_write;
        wlen ← esp_transport_ws_send_raw (ws_transport c) opcode part;
        if (wlen <? 0)%Z || (wlen =? 0)%Z && negb (need_write =? 0) then
          _ ← esp_websocket_free_buf true;
          _ ← esp_websocket_client_error (ReportWrite wlen);
          _ ← esp_websocket_client_abort_connection WEBSOCKET_ERROR_TYPE_TCP_TRANSPORT;
          mret wlen
        else send_loop fuel data len contained_fin 0 (widx + Z.to_nat wlen) (len - (widx + Z.to_nat wlen))
  end.

(** The part of [esp_websocket_client_send_with_exact_opcode] from the lock on;
    [locked] says whether the lock was taken within the timeout. *)
Definition send_locked (locked : bool) (opcode : Z) (data : option (list Z)) (len : Z) : W Z :=
  _ ← take_lock;
  if negb locked then mret (-1)%Z
  else
    e ← esp_websocket_new_buf true;
    if decide (e <> ESP_OK) then mret (-1)%Z
    else send_loop (S (S (Z.to_nat len))) (default [] data) (Z.to_nat len)
           (has_bit opcode WS_TRANSPORT_OPCODES_FIN) opcode 0 (Z.to_nat len).

Definition esp_websocket_client_is_connected : W bool :=
  c ← get; mret (bool_decide (ws_state c = WEBSOCKET_STATE_CONNECTED)).

(** The checks in front of it. *)
Definition send_checks (data : option (list Z)) (len : Z) : W bool :=
  if (len <? 0)%Z || (match data with None => (0 <? len)%Z | Some _ => false end) then mret false
  else
    b ← esp_websocket_client_is_connected;
    if negb b then mret false
    else c ← get; mret (match ws_transport c with None => false | Some _ => true end).

Definition esp_websocket_client_send_with_exact_opcode (locked : bool) (opcode : Z) (data : option (list Z))
    (len : Z) : W Z :=
  ok ← send_checks data len;
  if negb ok then mret (-1)%Z else send_locked locked opcode data len.

(** What an event handler does. *)
Definition handle (op : handler_op) : W unit :=
  match op with
  | HandlerSend opcode data len => _ ← esp_websocket_client_send_with_exact_opcode true opcode data len; mret tt
  | HandlerSetPingInterval sec => _ ← esp_websocket_client_set_ping_interval_sec sec; mret tt
  | HandlerSetReconnectTimeout ms => _ ← esp_websocket_client_set_reconnect_timeout ms; mret tt
  end.

End Dispatching.

(** [esp_websocket_client_dispatch_event].  The handler may send, and a failing send posts
    events again: [fuel] bounds the nesting. *)
Fixpoint dispatch (fuel : nat) (event : esp_websocket_event_id_t) (data : option (list Z)) (data_len : nat)
    : W ws_err :=
  match fuel with
  | O => fun _ => OutOfFuel
  | S fuel =>
      ev ← make_event data data_len;
      c ← get;
      _ ← asks (fun _ => if ws_event_handle c then Ret tt else BadAccess);
      ok ← alloc attempt;
      if negb ok then mret ESP_ERR_NO_MEM
      else
        _ ← out (OutEvent event ev);
        ops ← next [] w_reactions set_w_reactions;
        _ ← iter ops (handle (dispatch fuel));
        mret ESP_OK
  end.

(** Each level of nesting takes a reaction of the handler. *)
Definition esp_websocket_client_dispatch_event (event : esp_websocket_event_id_t) (data : option (list Z))
    (data_len : nat) : W ws_err :=
  n ← reads (fun w => length (w_reactions w)); dispatch (S n) event data data_len.

Abbreviation client_error := (esp_websocket_client_error esp_websocket_client_dispatch_event).
Abbreviation abort_connection := (esp_websocket_client_abort_connection esp_websocket_client_dispatch_event).
Abbreviation send_exact := (esp_websocket_client_send_with_exact_opcode esp_websocket_client_dispatch_event).

Definition esp_websocket_client_send_with_opcode (locked : bool) (opcode : Z) (data : option (list Z)) (len : Z) : W Z :=
  send_exact locked (Z.lor opcode WS_TRANSPORT_OPCODES_FIN) data len.

(** The calls of the application; [locked] as above. *)
Definition esp_websocket_client_send_text locked data len :=
  esp_websocket_client_send_with_opcode locked WS_TRANSPORT_OPCODES_TEXT data len.

Definition esp_websocket_client_send_text_partial locked data len :=
  send_exact locked WS_TRANSPORT_OPCODES_TEXT data len.

Definition esp_websocket_client_send_cont_msg locked data len :=
  send_exact locked WS_TRANSPORT_OPCODES_CONT data len.

Definition esp_websocket_client_send_bin locked data len :=
  esp_websocket_client_send_with_opcode locked WS_TRANSPORT_OPCODES_BINARY data len.

Definition esp_websocket_client_send_bin_partial locked data len :=
  send_exact locked WS_TRANSPORT_OPCODES_BINARY data len.

Definition esp_websocket_client_send_fin locked := send_exact locked WS_TRANSPORT_OPCODES_FIN None 0.

(** [*code_network_order = htons(code); memcpy(close_status_data + 2, additional_data, total_len - 2)]. *)
Definition close_body (code : Z) (additional_data : option (list Z)) (total_len : Z) : outcome (list Z) :=
  bs ← rd_bytes (default [] additional_data) 0 (Z.to_nat (total_len - 2));
  b ← wr_bytes (replicate (Z.to_nat total_len) 0%Z) 0 [u8 (Z.shiftr code 8); u8 code];
  wr_bytes b 2 bs.

(** The lock is waited for without a limit. *)
Definition esp_websocket_client_send_close (code : Z) (additional_data : option (list Z)) (total_len : Z) : W Z :=
  if (2 <=? total_len)%Z then
    b ← calloc (Z.to_nat total_len);
    match b with
    | None => mret (-1)%Z
    | Some _ =>
        body ← asks (fun _ => close_body code additional_data total_len);
        ret ← esp_websocket_client_send_with_opcode true WS_TRANSPORT_OPCODES_CLOSE (Some body) total_len;
        _ ← alloc (mfree 1);
        mret ret
    end
  else esp_websocket_client_send_with_opcode true WS_TRANSPORT_OPCODES_CLOSE None total_len.

(** * Receiving *)

(** The state after which a frame is not read on. *)
Definition aborted (s : websocket_client_state_t) : bool :=
  match s with WEBSOCKET_STATE_UNKNOW | WEBSOCKET_STATE_WAIT_TIMEOUT => true | _ => false end.

(** The [do] loop of [esp_websocket_client_recv]: none when the frame was read to
    its end. *)
Fixpoint recv_loop (fuel : nat) : W (option ws_err) :=
  match fuel with
  | O => fun _ => OutOfFuel
  | S fuel =>
      c ← get;
      rx ← asks (fun _ => deref (ws_rx_buffer c));
      r ← esp_transport_read (ws_transport c) (ws_buffer_size c);
      match r with
      | ReadError rlen =>
          _ ← esp_websocket_free_buf false;
          _ ← client_error (ReportRead rlen);
          mret (Some ESP_FAIL)
      | ReadData bytes plen fin op =>
          rx ← asks (fun _ => wr_bytes rx 0 bytes);
          _ ← upd (fun c => set_ws_last_opcode (set_ws_last_fin (set_ws_payload_len (set_ws_rx_buffer c (Some rx))
                              plen) fin) op);
          if (length bytes =? 0) && (op =? WS_TRANSPORT_OPCODES_NONE)%Z then
            _ ← esp_websocket_free_buf false; mret (Some ESP_OK)
          else
            _ ← esp_websocket_client_dispatch_event WEBSOCKET_EVENT_DATA (Some (take (length bytes) rx)) (length bytes);
            c ← get;
            if aborted (ws_state c) then _ ← esp_websocket_free_buf false; mret (Some ESP_OK)
            else
              _ ← upd (fun c => set_ws_payload_offset c (ws_payload_offset c + length bytes));
              c ← get;
              if ws_payload_offset c <? ws_payload_len c then recv_loop fuel else mret None
      end
  end.

(** What follows the last part of a frame. *)
Definition frame_received : W unit :=
  c ← get;
  if (ws_last_opcode c =? WS_TRANSPORT_OPCODES_PING)%Z then
    data ← (if ws_payload_len c =? 0 then mret []
            else rx ← asks (fun _ => deref (ws_rx_buffer c));
                 asks (fun _ => rd_bytes rx 0 (ws_payload_len c)));
    _ ← esp_transport_ws_send_raw (ws_transport c)
          (Z.lor WS_TRANSPORT_OPCODES_PONG WS_TRANSPORT_OPCODES_FIN) data;
    mret tt
  else if (ws_last_opcode c =? WS_TRANSPORT_OPCODES_PONG)%Z then
    upd (fun c => set_ws_wait_for_pong_resp c false)
  else if (ws_last_opcode c =? WS_TRANSPORT_OPCODES_CLOSE)%Z then
    _ ← upd (fun c => set_ws_close_status_code c 0);
    _ ← (if 2 <=? ws_payload_len c then
           rx ← asks (fun _ => deref (ws_rx_buffer c));
           hi ← asks (fun _ => rd rx 0);
           lo ← asks (fun _ => rd rx 1);
           upd (fun c => set_ws_close_status_code c (be16 hi lo))
         else mret tt);
    upd (fun c => set_ws_state c WEBSOCKET_STATE_CLOSING)
  else mret tt.

Definition esp_websocket_client_recv : W ws_err :=
  _ ← upd (fun c => set_ws_payload_offset c 0);
  e ← esp_websocket_new_buf false;
  if decide (e <> ESP_OK) then mret ESP_FAIL
  else
    n ← reads (fun w => length (w_reads w));
    r ← recv_loop (S n);
    match r with
    | Some e => mret e
    | None => _ ← frame_received; _ ← esp_websocket_free_buf false; mret ESP_OK
    end.

(** * Headers *)

Definition esp_websocket_client_set_headers (headers : cstr) : W ws_err :=
  c ← get;
  if decide (ws_state c <> WEBSOCKET_STATE_CONNECTED) then mret ESP_ERR_INVALID_ARG
  else
    _ ← take_lock;
    i ← use_transport (ws_transport c);
    ok ← alloc attempt;
    if negb ok then mret ESP_ERR_NO_MEM
    else
      _ ← writes (fun w => set_w_transports w
            (map (fun x => if decide (fst x = i) then (fst x, snd x ++ [SetWsHeaders headers]) else x) (w_transports w)));
      mret ESP_OK.

(** [snprintf(p, len, "%s: %s\r\n", key, value)] into [len] bytes, terminated. *)
Definition header_line (key value : cstr) (len : nat) : list Z :=
  take (len - 1) (key ++ str ": " ++ value ++ [13; 10]%Z) ++ [0%Z].

(** The blocks come from [malloc]; all of their bytes up to the terminator are written. *)
Definition esp_websocket_client_append_header (key value : cstr) : W ws_err :=
  cfg ← get_cfg;
  let len := length key + length value + 5 in
  match cf_headers cfg with
  | None =>
      b ← calloc len;
      match b with
      | None => mret ESP_ERR_NO_MEM
      | Some b =>
          b ← asks (fun _ => wr_bytes b 0 (header_line key value len));
          _ ← upd_cfg (fun cfg => set_cf_headers cfg (Some (cstr_of b)));
          mret ESP_OK
      end
  | Some old =>
      let current_len := length old in
      b ← calloc (current_len + len);
      match b with
      | None => mret ESP_ERR_NO_MEM
      | Some b =>
          b ← asks (fun _ => wr_bytes b 0 (old ++ [0%Z]));
          b ← asks (fun _ => wr_bytes b current_len (header_line key value len));
          _ ← opt_free (cf_headers cfg);
          _ ← upd_cfg (fun cfg => set_cf_headers cfg (Some (cstr_of b)));
          mret ESP_OK
      end
  end.

End Client.
