(* ===== verification/WsConfig.v ===== *)
(** The websocket client's configuration and life cycle: the URI, the copies of the
    application's strings, the transports, creation and destruction of the client
    (components/esp_websocket_client/esp_websocket_client.c). *)
From S2P Require Import Prelude Heap State WsData Ws.

(** * Strings *)

(** [strchr(s, ':')]: what is in front of it, and what is behind it if there is one. *)
Fixpoint split_colon (s : cstr) : cstr * option cstr :=
  match s with
  | [] => ([], None)
  | c :: s => if (c =? 58)%Z then ([], Some s) else let '(a, b) := split_colon s in (c :: a, b)
  end.

Section Config.
Context {options : ws_options} {externals : ws_externals}.

(** * The URI *)

(** A string of the configuration is replaced: the old one is freed first. *)
Definition replace_str (fld : websocket_config_storage_t -> option cstr)
    (put : websocket_config_storage_t -> option cstr -> websocket_config_storage_t) (s : cstr) : W bool :=
  cfg ← get_cfg;
  _ ← opt_free (fld cfg);
  p ← new_block s;
  _ ← upd_cfg (fun cfg => put cfg p);
  mret (match p with Some _ => true | None => false end).

(** ["%.*s"] of a part of the URI. *)
Definition url_part (uri : cstr) (f : nat * nat) : outcome cstr := rd_bytes uri (fst f) (snd f).

(** A part that is not empty replaces a string. *)
Definition replace_part (uri : cstr) (f : nat * nat) fld put : W bool :=
  if snd f =? 0 then mret true
  else s ← asks (fun _ => url_part uri f); replace_str fld put s.

(** Path and query. *)
Definition url_path (uri : cstr) (u : http_parser_url) : outcome cstr :=
  if snd (uf_query u) =? 0 then url_part uri (uf_path u)
  else if snd (uf_path u) =? 0 then q ← url_part uri (uf_query u); Ret (str "/?" ++ q)
  else p ← url_part uri (uf_path u); q ← url_part uri (uf_query u); Ret (p ++ str "?" ++ q).

(** The part of [esp_websocket_client_set_uri] that splits [user:password]. *)
Definition set_userinfo (info : cstr) : W ws_err :=
  b ← new_block info;
  match b with
  | None => mret ESP_ERR_NO_MEM
  | Some _ =>
      let '(user, pass) := split_colon info in
      ok ← (match pass with
            | None => mret true
            | Some pass => replace_str cf_password set_cf_password pass
            end);
      if negb ok then mret ESP_ERR_NO_MEM
      else
        ok ← replace_str cf_username set_cf_username user;
        if negb ok then mret ESP_ERR_NO_MEM
        else _ ← alloc (mfree 1); mret ESP_OK
  end.

Definition esp_websocket_client_set_uri (uri : option cstr) : W ws_err :=
  match uri with
  | None => mret ESP_ERR_INVALID_ARG
  | Some uri =>
      match http_parser_parse_url uri with
      | None => mret ESP_FAIL
      | Some u =>
          ok ← replace_part uri (uf_schema u) cf_scheme set_cf_scheme;
          if negb ok then mret ESP_ERR_NO_MEM
          else
            ok ← replace_part uri (uf_host u) cf_host set_cf_host;
            if negb ok then mret ESP_ERR_NO_MEM
            else
              ok ← (if (snd (uf_path u) =? 0) && (snd (uf_query u) =? 0) then mret true
                    else s ← asks (fun _ => url_path uri u); replace_str cf_path set_cf_path s);
              if negb ok then mret ESP_ERR_NO_MEM
              else
                _ ← (if fst (uf_port u) =? 0 then mret tt
                     else s ← asks (fun _ => rd_bytes uri (fst (uf_port u)) (length uri - fst (uf_port u)));
                          upd_cfg (fun cfg => set_cf_port cfg (fst (strtol s))));
                if snd (uf_userinfo u) =? 0 then mret ESP_OK
                else s ← asks (fun _ => url_part uri (uf_userinfo u)); set_userinfo s
      end
  end.

(** * Copies of the application's configuration *)

(** [asprintf("%s:%s")] and the block of the digest. *)
Definition http_auth_basic (username password : cstr) : W (option cstr) :=
  i ← new_block (username ++ str ":" ++ password);
  match i with
  | None => mret None
  | Some user_info =>
      d ← new_block (WS_HTTP_BASIC_AUTH ++ base64_encode user_info);
      _ ← alloc (mfree 1);
      mret d
  end.

(** A string the application may have set. *)
Definition copy_str (s : option cstr) fld put : W bool :=
  match s with None => mret true | Some s => replace_str fld put s end.

(** The host is copied before the old one is freed. *)
Definition copy_host (s : option cstr) : W bool :=
  match s with
  | None => mret true
  | Some s =>
      p ← new_block s;
      match p with
      | None => mret false
      | Some _ =>
          cfg ← get_cfg;
          _ ← opt_free (cf_host cfg);
          _ ← upd_cfg (fun cfg => set_cf_host cfg p);
          mret true
      end
  end.

Definition set_auth : W bool :=
  cfg ← get_cfg;
  match cf_username cfg, cf_password cfg with
  | Some user, Some pass =>
      _ ← opt_free (cf_auth cfg);
      a ← http_auth_basic user pass;
      _ ← upd_cfg (fun cfg => set_cf_auth cfg a);
      mret (match a with Some _ => true | None => false end)
  | _, _ => mret true
  end.

(** Steps of which each may end the function with ESP_ERR_NO_MEM. *)
Fixpoint all_or_no_mem (l : list (W bool)) : W ws_err :=
  match l with
  | [] => mret ESP_OK
  | m :: l => ok ← m; if negb ok then mret ESP_ERR_NO_MEM else all_or_no_mem l
  end.

(** The settings at the end of [esp_websocket_client_set_config]. *)
Definition set_intervals (config : esp_websocket_client_config_t) (cfg : websocket_config_storage_t)
    : websocket_config_storage_t :=
  let cfg := set_cf_user_context cfg (uc_user_context config) in
  let cfg := set_cf_auto_reconnect cfg (negb (uc_disable_auto_reconnect config)) in
  let cfg := set_cf_close_reconnect cfg (uc_enable_close_reconnect config) in
  let cfg := set_cf_pingpong_timeout_sec cfg
    (if uc_disable_pingpong_discon config then 0%Z
     else if (uc_pingpong_timeout_sec config =? 0)%Z then WEBSOCKET_PINGPONG_TIMEOUT_SEC
     else uc_pingpong_timeout_sec config) in
  let cfg := set_cf_network_timeout_ms cfg
    (if (uc_network_timeout_ms config <=? 0)%Z then WEBSOCKET_NETWORK_TIMEOUT_MS else uc_network_timeout_ms config) in
  set_cf_ping_interval_sec cfg
    (if (uc_ping_interval_sec config =? 0)%Z then WEBSOCKET_PING_INTERVAL_SEC else uc_ping_interval_sec config).

Definition esp_websocket_client_set_config (config : esp_websocket_client_config_t) : W ws_err :=
  _ ← upd_cfg (fun cfg =>
        let cfg := set_cf_task_core_id cfg
          (if uc_task_core_id_set config then uc_task_core_id config else WEBSOCKET_TASK_CORE_ID) in
        let cfg := set_cf_task_prio cfg
          (if (uc_task_prio config <=? 0)%Z then WEBSOCKET_TASK_PRIORITY else uc_task_prio config) in
        let cfg := set_cf_task_name cfg (uc_task_name config) in
        set_cf_task_stack cfg (if (uc_task_stack config =? 0)%Z then WEBSOCKET_TASK_STACK else uc_task_stack config));
  e ← all_or_no_mem
    [copy_host (uc_host config);
     (_ ← (if (uc_port config =? 0)%Z then mret tt else upd_cfg (fun cfg => set_cf_port cfg (uc_port config))); mret true);
     copy_str (uc_username config) cf_username set_cf_username;
     copy_str (uc_password config) cf_password set_cf_password;
     set_auth;
     copy_str (uc_uri config) cf_uri set_cf_uri;
     copy_str (uc_path config) cf_path set_cf_path;
     copy_str (uc_subprotocol config) cf_subprotocol set_cf_subprotocol;
     copy_str (uc_user_agent config) cf_user_agent set_cf_user_agent;
     copy_str (uc_headers config) cf_headers set_cf_headers];
  if decide (e <> ESP_OK) then mret e
  else _ ← upd_cfg (set_intervals config); mret ESP_OK.

(** * Transports *)

(** A new transport; its number is not in use. *)
Definition new_transport (l : list transport_setting) : W (option tid) :=
  p ← new_block tt;
  match p with
  | None => mret None
  | Some _ =>
      i ← reads (fun w => S (foldr Nat.max 0 (map fst (w_transports w))));
      _ ← writes (fun w => set_w_transports w (w_transports w ++ [(i, l)]));
      mret (Some i)
  end.

Definition add_setting (t : tid) (s : transport_setting) : W unit :=
  _ ← use_transport (Some t);
  writes (fun w => set_w_transports w
    (map (fun x => if decide (fst x = t) then (fst x, snd x ++ [s]) else x) (w_transports w))).

Definition set_if (b : bool) (t : tid) (s : transport_setting) : W unit :=
  if b then add_setting t s else mret tt.

(** [esp_transport_list_add], which may fail; the client does not look at its result. *)
Definition esp_transport_list_add (t : tid) (tag : cstr) : W unit :=
  ok ← alloc attempt;
  if negb ok then mret tt
  else upd (fun c => set_ws_transport_list c (option_map (fun l => l ++ [(tag, t)]) (ws_transport_list c))).

(** [esp_transport_list_destroy] frees the list and the transports in it. *)
Definition esp_transport_list_destroy (l : list (cstr * tid)) : W unit :=
  _ ← asks (fun w => if decide (Forall (fun x => snd x ∈ map fst (w_transports w)) l) then Ret tt else BadAccess);
  _ ← writes (fun w => set_w_transports w (filter (fun x => fst x ∉ map snd l) (w_transports w)));
  alloc (mfree (1 + Z.of_nat (length l))).

(** The last default port that was set; -1 for a null transport. *)
Definition default_port_of (l : list transport_setting) : Z :=
  foldl (fun p s => match s with SetDefaultPort q => q | _ => p end) 0%Z l.

Definition settings_of (t : tid) (l : list (tid * list transport_setting)) : option (list transport_setting) :=
  snd <$> List.find (fun x => fst x =? t) l.

Definition esp_transport_get_default_port (t : option tid) : W Z :=
  match t with
  | None => mret (-1)%Z
  | Some i => asks (fun w => l ← deref (settings_of i (w_transports w)); Ret (default_port_of l))
  end.

Definition set_websocket_transport_optional_settings (scheme : cstr) : W ws_err :=
  c ← get; cfg ← get_cfg;
  l ← asks (fun _ => deref (ws_transport_list c));
  match transport_list_get l scheme with
  | None => mret ESP_ERR_INVALID_ARG
  | Some trans =>
      ok ← alloc attempt;
      if negb ok then mret ESP_ERR_NO_MEM
      else
        _ ← add_setting trans (SetWsConfig (cf_path cfg) (cf_subprotocol cfg) (cf_user_agent cfg) (cf_headers cfg)
                                 (cf_auth cfg));
        mret ESP_OK
  end.

(** Keep-alive and the interface, on either kind of transport. *)
Definition set_link_options (t : tid) : W unit :=
  c ← get;
  _ ← (match ws_keep_alive_cfg c with
       | Some (idle, interval, count) => add_setting t (SetKeepAlive idle interval count)
       | None => mret tt
       end);
  match ws_if_name c with Some n => add_setting t (SetInterface n) | None => mret tt end.

(** A certificate or key: a C string when no length was given. *)
Definition set_credential (t : tid) (data : option (list Z)) (len : nat) (pem der : list Z -> transport_setting) : W unit :=
  match data with
  | None => mret tt
  | Some d =>
      if len =? 0 then add_setting t (pem (cstr_of d))
      else bs ← asks (fun _ => rd_bytes d 0 len); add_setting t (der bs)
  end.

Definition set_tls_options (t : tid) (tls : tls_config) : W unit :=
  _ ← (if tls_use_global_ca_store tls then add_setting t SetGlobalCaStore
       else set_credential t (tls_cert tls) (tls_cert_len tls) SetCert SetCertDer);
  _ ← set_credential t (tls_client_cert tls) (tls_client_cert_len tls) SetClientCert SetClientCertDer;
  _ ← set_credential t (tls_client_key tls) (tls_client_key_len tls) SetClientKey SetClientKeyDer;
  _ ← set_if (tls_crt_bundle_attach tls && certificate_bundle) t SetCrtBundle;
  _ ← set_if (tls_skip_cert_common_name_check tls) t SetSkipCommonName;
  match tls_cert_common_name tls with Some n => add_setting t (SetCommonName n) | None => mret tt end.

(** The websocket transport on top of [parent]. *)
Definition add_ws_transport (parent : tid) (port : Z) (scheme : cstr) : W ws_err :=
  ws ← new_transport [SetParent parent];
  match ws with
  | None => mret ESP_ERR_NO_MEM
  | Some ws =>
      _ ← add_setting ws (SetDefaultPort port);
      _ ← esp_transport_list_add ws scheme;
      e ← set_websocket_transport_optional_settings scheme;
      mret (if decide (e <> ESP_OK) then ESP_FAIL else ESP_OK)
  end.

Definition esp_websocket_client_create_transport : W ws_err :=
  c ← get; cfg ← get_cfg;
  match cf_scheme cfg with
  | None => mret ESP_FAIL
  | Some scheme =>
      _ ← (match ws_transport_list c with
           | Some l => _ ← esp_transport_list_destroy l; upd (fun c => set_ws_transport_list c None)
           | None => mret tt
           end);
      l ← new_block [];
      _ ← upd (fun c => set_ws_transport_list c l);
      match l with
      | None => mret ESP_ERR_NO_MEM
      | Some _ =>
          if strcaseeq scheme WS_OVER_TCP_SCHEME then
            tcp ← new_transport [];
            match tcp with
            | None => mret ESP_ERR_NO_MEM
            | Some tcp =>
                _ ← add_setting tcp (SetDefaultPort WEBSOCKET_TCP_DEFAULT_PORT);
                _ ← esp_transport_list_add tcp (str "_tcp");
                _ ← set_link_options tcp;
                add_ws_transport tcp WEBSOCKET_TCP_DEFAULT_PORT WS_OVER_TCP_SCHEME
            end
          else if strcaseeq scheme WS_OVER_TLS_SCHEME then
            ssl ← new_transport [];
            match ssl with
            | None => mret ESP_ERR_NO_MEM
            | Some ssl =>
                _ ← add_setting ssl (SetDefaultPort WEBSOCKET_SSL_DEFAULT_PORT);
                _ ← esp_transport_list_add ssl (str "_ssl");
                _ ← (_ ← set_link_options ssl; set_tls_options ssl (cf_tls cfg));
                add_ws_transport ssl WEBSOCKET_SSL_DEFAULT_PORT WS_OVER_TLS_SCHEME
            end
          else mret ESP_FAIL
      end
  end.

(** * Creation and destruction *)

(** The blocks of the configuration's strings. *)
Definition config_blocks (cfg : websocket_config_storage_t) : Z :=
  opt_block (cf_host cfg) + opt_block (cf_uri cfg) + opt_block (cf_path cfg) + opt_block (cf_scheme cfg)
  + opt_block (cf_username cfg) + opt_block (cf_password cfg) + opt_block (cf_auth cfg)
  + opt_block (cf_subprotocol cfg) + opt_block (cf_user_agent cfg) + opt_block (cf_headers cfg).

Definition esp_websocket_client_destroy_config : W ws_err :=
  c ← get;
  match ws_config c with
  | None => mret ESP_ERR_INVALID_ARG
  | Some cfg =>
      _ ← alloc (mfree (config_blocks cfg));
      _ ← alloc (mfree 1);
      _ ← upd (fun c => set_ws_config c None);
      mret ESP_OK
  end.

(** An object whose handle may be null is deleted. *)
Definition delete_if (b : bool) : W unit := if b then alloc (mfree 1) else mret tt.

Definition destroy_and_free_resources : W unit :=
  c ← get;
  _ ← delete_if (ws_event_handle c);
  _ ← opt_free (ws_if_name c);
  _ ← esp_websocket_client_destroy_config;
  _ ← (match ws_transport_list c with Some l => esp_transport_list_destroy l | None => mret tt end);
  _ ← delete_if (ws_lock c);
  _ ← opt_free (ws_tx_buffer c);
  _ ← opt_free (ws_rx_buffer c);
  _ ← opt_free (ws_errormsg_buffer c);
  _ ← opt_free (ws_status_bits c);
  _ ← alloc (mfree 1);
  writes (fun w => set_w_client w None).

(** What [heap_caps_calloc] makes of the client and its configuration. *)
Definition zero_tls : tls_config := mk_tls_config false None 0 None 0 None 0 false None false.

Definition zero_config : websocket_config_storage_t :=
  mk_ws_config 0 None 0 0 None None None None None None None 0 false false 0 0 None None None 0 0 zero_tls None.

Definition zero_client : ws_client :=
  mk_ws_client false false WEBSOCKET_ERROR_TYPE_NONE 0 (0, 0)%Z None None None WEBSOCKET_STATE_UNKNOW 0 0 0 0 0
    false false false None false 0 None None None 0 false 0 0 0 0 None None.

Definition or_default (x d : Z) : Z := if (x =? 0)%Z then d else x.

(** [asprintf(&client->config->scheme, ...)]. *)
Definition set_scheme (s : cstr) : W bool :=
  p ← new_block s;
  _ ← upd_cfg (fun cfg => set_cf_scheme cfg p);
  mret (match p with Some _ => true | None => false end).

(** A handle or buffer is created and stored. *)
Definition create (put : ws_client -> ws_client) : W bool :=
  p ← new_block tt;
  match p with
  | None => mret false
  | Some _ => _ ← upd put; mret true
  end.

(** The steps of [esp_websocket_client_init] after the event loop; each may lead to
    [_websocket_init_fail]. *)
Fixpoint all_or_fail (l : list (W bool)) : W bool :=
  match l with
  | [] => mret true
  | m :: l => ok ← m; if negb ok then mret false else all_or_fail l
  end.

Definition do_ (m : W unit) : W bool := _ ← m; mret true.

Definition init_buffer_size (config : esp_websocket_client_config_t) : nat :=
  Z.to_nat (if (uc_buffer_size config <=? 0)%Z then WEBSOCKET_BUFFER_SIZE_BYTE else uc_buffer_size config).

Definition init_steps (config : esp_websocket_client_config_t) : list (W bool) :=
  [do_ (if uc_keep_alive_enable config then
          upd (fun c => set_ws_keep_alive_cfg c
                 (Some (or_default (uc_keep_alive_idle config) WEBSOCKET_KEEP_ALIVE_IDLE,
                        or_default (uc_keep_alive_interval config) WEBSOCKET_KEEP_ALIVE_INTERVAL,
                        or_default (uc_keep_alive_count config) WEBSOCKET_KEEP_ALIVE_COUNT)))
        else mret tt);
   (match uc_if_name config with
    | None => mret true
    | Some n => create (fun c => set_ws_if_name c (Some n))
    end);
   create (fun c => set_ws_lock c true);
   create (fun c => set_ws_config c (Some zero_config));
   (match uc_transport config with
    | WEBSOCKET_TRANSPORT_OVER_TCP => set_scheme WS_OVER_TCP_SCHEME
    | WEBSOCKET_TRANSPORT_OVER_SSL => set_scheme WS_OVER_TLS_SCHEME
    | WEBSOCKET_TRANSPORT_UNKNOWN => mret true
    end);
   do_ (upd (fun c => set_ws_wait_timeout_ms c
               (if negb (uc_disable_auto_reconnect config) && (uc_reconnect_timeout_ms config <=? 0)%Z
                then WEBSOCKET_RECONNECT_TIMEOUT_MS else uc_reconnect_timeout_ms config)));
   mret (negb (match tls_cert_common_name (uc_tls config) with Some _ => true | None => false end
               && tls_skip_cert_common_name_check (uc_tls config)));
   do_ (upd_cfg (fun cfg => set_cf_ext_transport (set_cf_tls cfg (uc_tls config)) (uc_ext_transport config)));
   (match uc_uri config with
    | None => mret true
    | Some uri => e ← esp_websocket_client_set_uri (Some uri); mret (bool_decide (e = ESP_OK))
    end);
   (e ← esp_websocket_client_set_config config; mret (bool_decide (e = ESP_OK)));
   (cfg ← get_cfg; match cf_scheme cfg with None => set_scheme WS_OVER_TCP_SCHEME | Some _ => mret true end);
   (t1 ← _tick_get_ms; t2 ← _tick_get_ms; t3 ← _tick_get_ms;
    do_ (upd (fun c => set_ws_selected_for_destroying (set_ws_wait_for_pong_resp (set_ws_ping_tick_ms
           (set_ws_reconnect_tick_ms (set_ws_keepalive_tick_ms c t1) t2) t3) false) false)));
   do_ (upd (fun c => set_ws_errormsg_size (set_ws_errormsg_buffer c None) 0));
   (if enable_dynamic_buffer then mret true
    else create (fun c => set_ws_rx_buffer c (Some (replicate (init_buffer_size config) 0%Z))));
   (if enable_dynamic_buffer then mret true
    else create (fun c => set_ws_tx_buffer c (Some (replicate (init_buffer_size config) 0%Z))));
   create (fun c => set_ws_status_bits c (Some 0%Z));
   do_ (set_bits STOPPED_BIT);
   do_ (upd (fun c => set_ws_buffer_size c (init_buffer_size config)))].

(** The handle is the client of the world; false is the null pointer.  When a step
    fails, [esp_websocket_client_destroy] has no task to wait for: there is no event
    group yet. *)
Definition esp_websocket_client_init (config : esp_websocket_client_config_t) : W bool :=
  p ← new_block tt;
  match p with
  | None => mret false
  | Some _ =>
      _ ← writes (fun w => set_w_client w (Some zero_client));
      ok ← create (fun c => set_ws_event_handle c true);
      if negb ok then
        _ ← alloc (mfree 1); _ ← writes (fun w => set_w_client w None); mret false
      else
        ok ← all_or_fail (init_steps config);
        if negb ok then _ ← destroy_and_free_resources; mret false
        else mret true
  end.

End Config.
