(* ===== verification/WsTask.v ===== *)
(** The task of the websocket client and the calls that start, stop and close it
    (components/esp_websocket_client/esp_websocket_client.c), as a machine whose steps interleave.

    The task holds the lock while it is in the [switch] of its loop and while it
    receives; a step of the task is what it does between two points at which it
    does not hold the lock.  The calls of the application that block are split at
    the point where they wait, and a send of another task between its checks and
    the lock. *)
From S2P Require Import Prelude Heap State WsData Ws WsConfig.

(** Where the task is: not running; created but not yet scheduled; in front of
    [while (client->run)]; behind the [switch]; back from [esp_transport_poll_read]; waiting
    to reconnect, until the given time; back from
    [esp_transport_ws_poll_connection_closed]; behind the loop. *)
Inductive task_pc :=
| TaskNone
| TaskCreated
| TaskTop
| TaskAfter
| TaskPolled (read_select : Z)
| TaskWaiting (until : Z)
| TaskClosed
| TaskFinish.

#[export] Instance task_pc_eq_dec : EqDecision task_pc.
Proof. solve_decision. Defined.

(** What a call of the application waits for: [STOPPED_BIT], in [esp_websocket_client_stop]
    and the end of a close that was too slow; the same before destroying; the same
    with a timeout, in a close. *)
Inductive user_pc := UserIdle | UserInStop | UserInDestroy | UserInClose.

#[export] Instance user_pc_eq_dec : EqDecision user_pc.
Proof. solve_decision. Defined.

(** Sends that passed their checks and wait for the lock: opcode, data, length. *)
Abbreviation pending_send := (Z * option (list Z) * Z)%type.

Record ws_machine := mk_ws_machine {
  m_world : ws_world;
  m_task : task_pc;
  m_user : user_pc;
  m_sends : list pending_send;
}.

Section Task.
Context {options : ws_options} {externals : ws_externals}.

Abbreviation dispatch_event := esp_websocket_client_dispatch_event.
Abbreviation client_error := (esp_websocket_client_error esp_websocket_client_dispatch_event).
Abbreviation abort_connection := (esp_websocket_client_abort_connection esp_websocket_client_dispatch_event).

(** Up to the loop of [esp_websocket_client_task]. *)
Definition task_begin : W unit :=
  _ ← upd (fun c => set_ws_run c true);
  c ← get; cfg ← get_cfg;
  _ ← (match ws_transport c, cf_ext_transport cfg with
       | None, None =>
           scheme ← asks (fun _ => deref (cf_scheme cfg));
           l ← asks (fun _ => deref (ws_transport_list c));
           upd (fun c => set_ws_transport c (transport_list_get l scheme))
       | _, _ => mret tt
       end);
  c ← get;
  _ ← (match ws_transport c with None => upd (fun c => set_ws_run c false) | Some _ => mret tt end);
  cfg ← get_cfg;
  _ ← (if (cf_port cfg =? 0)%Z then
         p ← esp_transport_get_default_port (ws_transport c); upd_cfg (fun cfg => set_cf_port cfg p)
       else mret tt);
  _ ← upd (fun c => set_ws_state c WEBSOCKET_STATE_INIT);
  _ ← clear_bits (Z.lor STOPPED_BIT CLOSE_FRAME_SENT_BIT);
  _ ← dispatch_event WEBSOCKET_EVENT_BEGIN None 0;
  mret tt.

(** [websocket_header_hook], for each header line of the response. *)
Definition websocket_header_hook (line : cstr) : W unit :=
  _ ← dispatch_event WEBSOCKET_EVENT_HEADER_RECEIVED (Some line) (length line); mret tt.

Definition esp_transport_connect : W connect_answer :=
  c ← get; cfg ← get_cfg;
  _ ← use_transport (ws_transport c);
  _ ← out (OutConnect (cf_host cfg) (cf_port cfg));
  a ← next (mk_connect_answer (-1) [] 0 None) w_connects set_w_connects;
  _ ← (if header_callback_support then iter (ca_headers a) websocket_header_hook else mret tt);
  mret a.

(** The connection is redirected: the URI is replaced. *)
Definition follow_redirect (redir : cstr) : W unit :=
  cfg ← get_cfg;
  _ ← opt_free (cf_uri cfg);
  u ← new_block redir;
  _ ← upd_cfg (fun cfg => set_cf_port (set_cf_uri cfg u) 0);
  _ ← esp_websocket_client_set_uri u;
  cfg ← get_cfg; c ← get;
  _ ← (if (cf_port cfg =? 0)%Z then
         p ← esp_transport_get_default_port (ws_transport c); upd_cfg (fun cfg => set_cf_port cfg p)
       else mret tt);
  upd (fun c => set_ws_state c WEBSOCKET_STATE_INIT).

(** After data was received the lock is given and taken again; nothing but the end of
    the step follows, so that what other tasks do in between can as well come after it. *)
Definition connected : W unit :=
  _ ← upd (fun c =>
        let c := set_ws_state c WEBSOCKET_STATE_CONNECTED in
        let c := set_ws_wait_for_pong_resp c false in
        let c := set_ws_error_type c WEBSOCKET_ERROR_TYPE_NONE in
        let c := set_ws_payload_offset (set_ws_payload_len c 0) 0 in
        let c := set_ws_last_opcode (set_ws_last_fin c false) WS_TRANSPORT_OPCODES_NONE in
        set_ws_close_status_code c 0);
  _ ← clear_bits CLOSE_FRAME_SENT_BIT;
  _ ← dispatch_event WEBSOCKET_EVENT_CONNECTED None 0;
  c ← get;
  r ← esp_transport_poll_read (ws_transport c);
  if (0 <? r)%Z then
    e ← esp_websocket_client_recv;
    if decide (e = ESP_FAIL) then _ ← abort_connection WEBSOCKET_ERROR_TYPE_TCP_TRANSPORT; mret tt
    else mret tt
  else mret tt.

Definition case_init : W unit :=
  c ← get;
  match ws_transport c with
  | None => upd (fun c => set_ws_run c false)
  | Some _ =>
      _ ← dispatch_event WEBSOCKET_EVENT_BEFORE_CONNECT None 0;
      a ← esp_transport_connect;
      if (ca_result a <? 0)%Z then
        _ ← upd (fun c => set_ws_handshake_status c (ca_status a));
        _ ← client_error (ReportConnect (ca_result a) (ca_status a));
        _ ← abort_connection WEBSOCKET_ERROR_TYPE_TCP_TRANSPORT;
        mret tt
      else
        match (if redirect_header_support && WS_HTTP_REDIRECT (ca_result a) then ca_redir a else None) with
        | Some redir => follow_redirect redir
        | None => connected
        end
  end.

(** The products with 1000 are an [int] and a [size_t]. *)
Definition send_ping : W unit :=
  t ← _tick_get_ms; c ← get; cfg ← get_cfg;
  if (u32 (cf_ping_interval_sec cfg * 1000) <? u64 (t - ws_ping_tick_ms c))%Z then
    t ← _tick_get_ms;
    _ ← upd (fun c => set_ws_ping_tick_ms c t);
    _ ← esp_transport_ws_send_raw (ws_transport c)
          (Z.lor WS_TRANSPORT_OPCODES_PING WS_TRANSPORT_OPCODES_FIN) [];
    c ← get;
    if negb (ws_wait_for_pong_resp c) && negb (cf_pingpong_timeout_sec cfg =? 0)%Z then
      t ← _tick_get_ms;
      upd (fun c => set_ws_wait_for_pong_resp (set_ws_pingpong_tick_ms c t) true)
    else mret tt
  else mret tt.

Definition check_pong : W unit :=
  t ← _tick_get_ms; c ← get; cfg ← get_cfg;
  if (u64 (s32 (cf_pingpong_timeout_sec cfg * 1000)) <? u64 (t - ws_pingpong_tick_ms c))%Z && ws_wait_for_pong_resp c then
    _ ← client_error (ReportNoPong (cf_pingpong_timeout_sec cfg));
    _ ← abort_connection WEBSOCKET_ERROR_TYPE_PONG_TIMEOUT;
    mret tt
  else mret tt.

Definition case_connected : W unit :=
  b ← get_bits;
  if has_bit b CLOSE_FRAME_SENT_BIT then mret tt
  else _ ← send_ping; check_pong.

Definition case_wait_timeout : W unit :=
  c ← get;
  let go := (t ← _tick_get_ms;
             upd (fun c => set_ws_reconnect_tick_ms (set_ws_state c WEBSOCKET_STATE_INIT) t)) in
  if (ws_wait_timeout_ms c <=? 0)%Z then go
  else
    t ← _tick_get_ms;
    if (ws_wait_timeout_ms c <=? u64 (t - ws_reconnect_tick_ms c))%Z then go else mret tt.

Definition case_closing : W unit :=
  b ← get_bits;
  if has_bit b CLOSE_FRAME_SENT_BIT then mret tt
  else
    c ← get;
    _ ← esp_transport_ws_send_raw (ws_transport c)
          (Z.lor WS_TRANSPORT_OPCODES_CLOSE WS_TRANSPORT_OPCODES_FIN) [];
    set_bits CLOSE_FRAME_SENT_BIT.

(** The [switch]. *)
Definition task_switch : W unit :=
  _ ← take_lock;
  c ← get;
  match ws_state c with
  | WEBSOCKET_STATE_INIT => case_init
  | WEBSOCKET_STATE_CONNECTED => case_connected
  | WEBSOCKET_STATE_WAIT_TIMEOUT => case_wait_timeout
  | WEBSOCKET_STATE_CLOSING => case_closing
  | _ => mret tt
  end.

(** [pdMS_TO_TICKS], at least one tick, as milliseconds. *)
Definition wait_ms (remaining_ms : Z) : Z :=
  let ticks := u32 (u32 remaining_ms * tick_rate_hz / 1000) in
  ((if (ticks =? 0)%Z then 1 else ticks) * 1000 / tick_rate_hz)%Z.

(** What follows the [switch], up to the next point at which the task blocks. *)
Definition task_after : W task_pc :=
  c ← get;
  match ws_state c with
  | WEBSOCKET_STATE_CONNECTED =>
      r ← esp_transport_poll_read (ws_transport c); mret (TaskPolled r)
  | WEBSOCKET_STATE_WAIT_TIMEOUT =>
      _ ← clear_bits WAKEUP_BIT;
      if ws_run c && (0 <? ws_wait_timeout_ms c)%Z then
        t ← _tick_get_ms;
        let elapsed := u64 (t - ws_reconnect_tick_ms c) in
        if (elapsed <? ws_wait_timeout_ms c)%Z
        then mret (TaskWaiting (t + wait_ms (ws_wait_timeout_ms c - elapsed)))
        else mret TaskTop
      else mret TaskTop
  | WEBSOCKET_STATE_CLOSING =>
      b ← get_bits;
      if has_bit b CLOSE_FRAME_SENT_BIT then _ ← use_transport (ws_transport c); mret TaskClosed
      else mret TaskTop
  | _ => mret TaskTop
  end.

Definition task_polled (read_select : Z) : W unit :=
  if (read_select =? 0)%Z then mret tt
  else
    _ ← take_lock;
    if (read_select <? 0)%Z then
      _ ← client_error (ReportPoll read_select);
      _ ← abort_connection WEBSOCKET_ERROR_TYPE_TCP_TRANSPORT;
      mret tt
    else
      e ← esp_websocket_client_recv;
      if decide (e = ESP_FAIL) then _ ← abort_connection WEBSOCKET_ERROR_TYPE_TCP_TRANSPORT; mret tt
      else mret tt.

(** The connection was closed by both sides: reconnect or end. *)
Definition task_closed : W task_pc :=
  cfg ← get_cfg;
  if cf_close_reconnect cfg then
    _ ← take_lock;
    _ ← upd (fun c => set_ws_error_type (set_ws_state c WEBSOCKET_STATE_WAIT_TIMEOUT)
                        WEBSOCKET_ERROR_TYPE_SERVER_CLOSE);
    c ← get;
    _ ← esp_transport_close (ws_transport c);
    _ ← dispatch_event WEBSOCKET_EVENT_CLOSED None 0;
    t ← _tick_get_ms;
    _ ← upd (fun c => set_ws_reconnect_tick_ms c t);
    _ ← clear_bits (Z.lor STOPPED_BIT CLOSE_FRAME_SENT_BIT);
    mret TaskTop
  else
    _ ← upd (fun c => set_ws_state (set_ws_run c false) WEBSOCKET_STATE_UNKNOW);
    _ ← dispatch_event WEBSOCKET_EVENT_CLOSED None 0;
    mret TaskFinish.

(** Behind the loop. *)
Definition task_finish : W unit :=
  _ ← dispatch_event WEBSOCKET_EVENT_FINISH None 0;
  c ← get;
  _ ← esp_transport_close (ws_transport c);
  _ ← upd (fun c => set_ws_state c WEBSOCKET_STATE_UNKNOW);
  if ws_selected_for_destroying c then destroy_and_free_resources else set_bits STOPPED_BIT.

(** * Calls of the application *)

Definition esp_websocket_client_start : W ws_err :=
  c ← get;
  if negb (before_init (ws_state c)) then mret ESP_FAIL
  else
    cfg ← get_cfg;
    _ ← upd (fun c => set_ws_transport c (cf_ext_transport cfg));
    e ← (match cf_ext_transport cfg with
         | Some _ => mret ESP_OK
         | None => esp_websocket_client_create_transport
         end);
    if decide (e <> ESP_OK) then mret ESP_FAIL
    else
      _ ← clear_bits (Z.lor (Z.lor STOPPED_BIT CLOSE_FRAME_SENT_BIT) (Z.lor REQUESTED_STOP_BIT WAKEUP_BIT));
      _ ← upd (fun c => set_ws_task_handle c false);
      ok ← alloc attempt;
      if negb ok then _ ← set_bits STOPPED_BIT; mret ESP_FAIL
      else _ ← upd (fun c => set_ws_task_handle c true); mret ESP_OK.

(** [stop_wait_task] up to the point where it waits for the task. *)
Definition request_stop : W unit :=
  _ ← upd (fun c => set_ws_run c false);
  set_bits REQUESTED_STOP_BIT.

(** And from there on. *)
Definition stopped : W unit := upd (fun c => set_ws_state c WEBSOCKET_STATE_UNKNOW).

(** Whether the call goes on to wait. *)
Definition esp_websocket_client_stop : W bool :=
  b ← get_bits;
  if has_bit b STOPPED_BIT then mret false
  else _ ← request_stop; mret true.

Definition esp_websocket_client_destroy_on_exit : W ws_err :=
  _ ← upd (fun c => set_ws_selected_for_destroying c true); mret ESP_OK.

(** [esp_websocket_client_destroy]: whether it has to wait for the task first. *)
Definition esp_websocket_client_destroy : W bool :=
  c ← get;
  match ws_status_bits c with
  | Some b =>
      if has_bit b STOPPED_BIT then _ ← destroy_and_free_resources; mret false
      else _ ← request_stop; mret true
  | None => _ ← destroy_and_free_resources; mret false
  end.

(** [esp_websocket_client_close_with_optional_body] up to the point where it waits for the
    task: the error it returns at once, or none. *)
Definition esp_websocket_client_close_with_optional_body (body : option (Z * option (list Z) * Z)) : W (option ws_err) :=
  c ← get;
  if negb (ws_run c) then mret (Some ESP_FAIL)
  else
    ret ← (match body with
           | Some (code, data, len) => esp_websocket_client_send_close code data (len + 2)
           | None => esp_websocket_client_send_close 0 None 0
           end);
    if (ret <? 0)%Z then mret (Some ESP_FAIL)
    else
      _ ← set_bits CLOSE_FRAME_SENT_BIT;
      cfg ← get_cfg;
      mret (if cf_auto_reconnect cfg && cf_close_reconnect cfg then Some ESP_OK else None).

Definition esp_websocket_client_close_with_code (code : Z) (data : option (list Z)) (len : Z) : W (option ws_err) :=
  esp_websocket_client_close_with_optional_body (Some (code, data, len)).

Definition esp_websocket_client_close : W (option ws_err) := esp_websocket_client_close_with_optional_body None.

(** * The machine *)

Inductive ws_label :=
| LTask                      (** the task goes on to its next point *)
| LTime (d : N)              (** time passes *)
| LWake                      (** the call that waits sees [STOPPED_BIT] *)
| LTimeout                   (** the timeout of a close is over *)
| LStart
| LStop
| LClose
| LCloseWithCode (code : Z) (data : option (list Z)) (len : Z)
| LDestroy
| LDestroyOnExit
| LSetUri (uri : cstr)
| LAppendHeader (key value : cstr)
| LSetHeaders (headers : cstr)
| LSetPingInterval (sec : Z)
| LSetReconnectTimeout (ms : Z)
| LSend (opcode : Z) (data : option (list Z)) (len : Z)
| LSendGo (i : nat) (locked : bool).

(** One step of the task. *)
Definition task_step (pc : task_pc) : W task_pc :=
  match pc with
  | TaskNone => mret TaskNone
  | TaskCreated => _ ← task_begin; mret TaskTop
  | TaskTop => c ← get; if ws_run c then _ ← task_switch; mret TaskAfter else mret TaskFinish
  | TaskAfter => task_after
  | TaskPolled r => _ ← task_polled r; mret TaskTop
  | TaskWaiting _ => mret TaskTop
  | TaskClosed => task_closed
  | TaskFinish => _ ← task_finish; mret TaskNone
  end.

(** What a label does to the world, the task, the call that waits and the sends. *)
Definition ws_effect (l : ws_label) (pc : task_pc) (u : user_pc) (sends : list pending_send)
    : W (task_pc * user_pc * list pending_send) :=
  match l with
  | LTask => pc ← task_step pc; mret (pc, u, sends)
  | LTime d => _ ← writes (fun w => set_w_clock w (w_clock w + Z.of_N d)%Z); mret (pc, u, sends)
  | LWake =>
      match u with
      | UserInStop => _ ← stopped; mret (pc, UserIdle, sends)
      | UserInDestroy => _ ← stopped; _ ← destroy_and_free_resources; mret (pc, UserIdle, sends)
      | _ => mret (pc, UserIdle, sends)
      end
  | LTimeout => _ ← request_stop; mret (pc, UserInStop, sends)
  | LStart =>
      e ← esp_websocket_client_start;
      mret (if decide (e = ESP_OK) then TaskCreated else pc, u, sends)
  | LStop => b ← esp_websocket_client_stop; mret (pc, if b : bool then UserInStop else u, sends)
  | LClose =>
      e ← esp_websocket_client_close;
      mret (pc, match e with None => UserInClose | Some _ => u end, sends)
  | LCloseWithCode code data len =>
      e ← esp_websocket_client_close_with_code code data len;
      mret (pc, match e with None => UserInClose | Some _ => u end, sends)
  | LDestroy => b ← esp_websocket_client_destroy; mret (pc, if b : bool then UserInDestroy else u, sends)
  | LDestroyOnExit => _ ← esp_websocket_client_destroy_on_exit; mret (pc, u, sends)
  | LSetUri uri => _ ← esp_websocket_client_set_uri (Some uri); mret (pc, u, sends)
  | LAppendHeader key value => _ ← esp_websocket_client_append_header key value; mret (pc, u, sends)
  | LSetHeaders headers => _ ← esp_websocket_client_set_headers headers; mret (pc, u, sends)
  | LSetPingInterval sec => _ ← esp_websocket_client_set_ping_interval_sec sec; mret (pc, u, sends)
  | LSetReconnectTimeout ms => _ ← esp_websocket_client_set_reconnect_timeout ms; mret (pc, u, sends)
  | LSend opcode data len =>
      ok ← send_checks data len;
      mret (pc, u, if ok : bool then sends ++ [(opcode, data, len)] else sends)
  | LSendGo i locked =>
      match sends !! i with
      | None => mret (pc, u, sends)
      | Some (opcode, data, len) =>
          _ ← send_locked esp_websocket_client_dispatch_event locked opcode data len;
          mret (pc, u, delete i sends)
      end
  end.

Definition ws_step (l : ws_label) (m : ws_machine) : outcome ws_machine :=
  '(pc, u, sends, w) ← ws_effect l (m_task m) (m_user m) (m_sends m) (m_world m);
  Ret (mk_ws_machine w pc u sends).

(** The bits of the event group that are set. *)
Definition bit_set (b : Z) (w : ws_world) : bool :=
  match w_client w with
  | Some c => match ws_status_bits c with Some x => has_bit x b | None => false end
  | None => false
  end.

(** What can happen next: a task that waits goes on when it is woken or its time is
    over, and so does a call. *)
Definition possible (l : ws_label) (m : ws_machine) : bool :=
  match l with
  | LTask =>
      match m_task m with
      | TaskNone => false
      | TaskWaiting t => bit_set (Z.lor REQUESTED_STOP_BIT WAKEUP_BIT) (m_world m) || (t <=? w_clock (m_world m))%Z
      | _ => true
      end
  | LTime _ => true
  | LWake => bool_decide (m_user m <> UserIdle) && bit_set STOPPED_BIT (m_world m)
  | LTimeout => bool_decide (m_user m = UserInClose)
  | LSendGo i _ => i <? length (m_sends m)
  | _ => true
  end.

(** What the header asks of the application: the client is not used after it was
    destroyed or while it destroys itself; a send does not outlast the client;
    calls that start, stop or close do not overlap; the URI and the headers are
    changed, and the client is started, only while it is stopped. *)
Definition permitted (l : ws_label) (m : ws_machine) : bool :=
  let idle := bool_decide (m_user m = UserIdle) in
  let stopped := bool_decide (m_task m = TaskNone) in
  let mine := match w_client (m_world m) with
              | Some c => (negb (ws_selected_for_destroying c) || stopped) && bool_decide (m_user m <> UserInDestroy)
              | None => false
              end in
  let no_sends := bool_decide (m_sends m = []) in
  match l with
  | LTask | LTime _ | LWake | LTimeout | LSendGo _ _ => true
  | LStart => mine && idle && stopped && no_sends
  | LStop | LClose => mine && idle
  | LCloseWithCode _ data len => mine && idle && (Z.to_nat len <=? length (default [] data))
  | LDestroy => mine && idle && no_sends
  | LDestroyOnExit => mine && idle && no_sends
  | LSetUri _ | LAppendHeader _ _ => mine && idle && stopped
  | LSetHeaders _ | LSetPingInterval _ | LSetReconnectTimeout _ => mine
  | LSend _ data len => mine && match data with Some d => Z.to_nat len <=? length d | None => true end
  end.

End Task.
