(* ===== verification/WsProofs.v ===== *)
(** The websocket client keeps its object, its buffers, its transports and the heap
    consistent: the invariant, and the functions of Ws.v under it. *)
From S2P Require Import Prelude Heap State WsData Ws WsConfig.

(** * Blocks *)

Definition flag (b : bool) : Z := if b then 1%Z else 0%Z.

Definition list_blocks (l : option (list (cstr * tid))) : Z :=
  match l with Some l => (1 + Z.of_nat (length l))%Z | None => 0%Z end.

Definition stored_blocks (cfg : option websocket_config_storage_t) : Z :=
  match cfg with Some cfg => (1 + config_blocks cfg)%Z | None => 0%Z end.

Definition client_blocks (c : ws_client) : Z :=
  (1 + flag (ws_event_handle c) + opt_block (ws_if_name c) + stored_blocks (ws_config c)
   + list_blocks (ws_transport_list c) + flag (ws_lock c) + opt_block (ws_tx_buffer c) + opt_block (ws_rx_buffer c)
   + opt_block (ws_errormsg_buffer c) + opt_block (ws_status_bits c))%Z.

Definition blocks_of (c : option ws_client) : Z := match c with Some c => client_blocks c | None => 0%Z end.

(** * The invariant *)

(** A frame that has to be answered or looked into fits into the buffer. *)
Definition frame_fits (bs : nat) (r : read_answer) : Prop :=
  match r with
  | ReadError _ => True
  | ReadData _ plen _ op =>
      (op = WS_TRANSPORT_OPCODES_PING -> plen <= bs) /\ (op = WS_TRANSPORT_OPCODES_CLOSE -> 2 <= plen -> 2 <= bs)
  end.

(** States in which the client uses its transport. *)
Definition uses_transport (s : websocket_client_state_t) : bool :=
  match s with
  | WEBSOCKET_STATE_CONNECTED | WEBSOCKET_STATE_WAIT_TIMEOUT | WEBSOCKET_STATE_CLOSING => true
  | _ => false
  end.

(** The application gave certificates of the lengths it says. *)
Definition credential_ok (d : option (list Z)) (len : nat) : Prop :=
  match d with Some d => len <= length d | None => True end.

Definition tls_ok (t : tls_config) : Prop := credential_ok (tls_cert t) (tls_cert_len t)
  /\ credential_ok (tls_client_cert t) (tls_client_cert_len t) /\ credential_ok (tls_client_key t) (tls_client_key_len t).

(** What of the configuration belongs to the application. *)
Definition fixed (cfg : websocket_config_storage_t) := (cf_ext_transport cfg, cf_tls cfg).

Definition buffer_ok (dynamic : bool) (bs : nat) (b : option (list Z)) : Prop :=
  match b with Some b => length b = bs | None => dynamic = true end.

Record client_ok (dynamic : bool) (keys : list tid) (c : ws_client) (cfg : websocket_config_storage_t) : Prop := {
  ok_config : ws_config c = Some cfg;
  ok_event : ws_event_handle c = true;
  ok_lock : ws_lock c = true;
  ok_bits : is_Some (ws_status_bits c);
  ok_size : 0 < ws_buffer_size c;
  ok_rx : buffer_ok dynamic (ws_buffer_size c) (ws_rx_buffer c);
  ok_tx : buffer_ok dynamic (ws_buffer_size c) (ws_tx_buffer c);
  ok_msg : match ws_errormsg_buffer c with Some n => n = ws_errormsg_size c | None => ws_errormsg_size c = 0 end;
  ok_transport : forall i, ws_transport c = Some i -> i ∈ keys;
  ok_list : forall l, ws_transport_list c = Some l -> Forall (fun x => snd x ∈ keys) l;
  ok_ext : forall i, cf_ext_transport cfg = Some i -> i ∈ keys;
  ok_ext_list : forall i l, cf_ext_transport cfg = Some i -> ws_transport_list c = Some l -> i ∉ map snd l;
  ok_tls : tls_ok (cf_tls cfg);
  ok_state : uses_transport (ws_state c) = true -> is_Some (ws_transport c);
}.

(** The blocks of the client and [k] more are allocated; what is missing was lost
    when an allocation failed. *)
Definition balanced (nf : bool) (base k : Z) (w : ws_world) : Prop :=
  (nf = true -> never_fails (w_heap w)) /\
  exists leak, (0 <= leak)%Z /\ (nf = true -> leak = 0%Z)
    /\ (live (w_heap w) = base + blocks_of (w_client w) + k + leak)%Z.

Definition keys (w : ws_world) : list tid := map fst (w_transports w).

(** An event handler sends no more than the data it has. *)
Definition handler_ok (op : handler_op) : Prop :=
  match op with
  | HandlerSend _ (Some data) len => Z.to_nat len <= length data
  | _ => True
  end.

(** The world with its client [c]. *)
Record ws_at (dynamic nf : bool) (base k : Z) (w : ws_world) (c : ws_client) (cfg : websocket_config_storage_t) : Prop := {
  at_client : w_client w = Some c;
  at_ok : client_ok dynamic (keys w) c cfg;
  at_fits : Forall (frame_fits (ws_buffer_size c)) (w_reads w);
  at_handlers : Forall (Forall handler_ok) (w_reactions w);
  at_heap : balanced nf base k w;
}.

(** A bit of the event group. *)
Definition bit_of (b : Z) (c : ws_client) : bool :=
  match ws_status_bits c with Some x => has_bit x b | None => false end.

(** What no step of the running client changes, and what only goes one way. *)
Record ws_keeps (w w' : ws_world) (c c' : ws_client) : Prop := {
  kp_size : ws_buffer_size c' = ws_buffer_size c;
  kp_transport : ws_transport c' = ws_transport c;
  kp_list : ws_transport_list c' = ws_transport_list c;
  kp_selected : ws_selected_for_destroying c' = ws_selected_for_destroying c;
  kp_run : ws_run c' = true -> ws_run c = true;
  kp_stopped : bit_of STOPPED_BIT c' = bit_of STOPPED_BIT c;
  kp_requested : bit_of REQUESTED_STOP_BIT c' = bit_of REQUESTED_STOP_BIT c;
  kp_keys : keys w' = keys w;
  kp_clock : (w_clock w <= w_clock w')%Z;
  kp_reactions : length (w_reactions w') <= length (w_reactions w);
  kp_reads : length (w_reads w') <= length (w_reads w);
}.

Lemma keeps_refl w c : ws_keeps w w c c.
Proof. split; (done || lia). Qed.

Lemma keeps_trans w1 w2 w3 c1 c2 c3 : ws_keeps w1 w2 c1 c2 -> ws_keeps w2 w3 c2 c3 -> ws_keeps w1 w3 c1 c3.
Proof. intros [] []. split; try congruence; try lia. auto. Qed.

(** Projections and updates of the client, computed. *)
Ltac ws_flat := cbv [
  ws_event_handle ws_task_handle ws_error_type ws_handshake_status ws_tls_errors ws_transport_list
  ws_transport ws_config ws_state ws_keepalive_tick_ms ws_reconnect_tick_ms ws_ping_tick_ms
  ws_pingpong_tick_ms ws_wait_timeout_ms ws_run ws_wait_for_pong_resp ws_selected_for_destroying
  ws_status_bits ws_lock ws_errormsg_size ws_errormsg_buffer ws_rx_buffer ws_tx_buffer ws_buffer_size
  ws_last_fin ws_last_opcode ws_payload_len ws_payload_offset ws_close_status_code ws_keep_alive_cfg
  ws_if_name set_ws_event_handle set_ws_task_handle set_ws_error_type set_ws_handshake_status
  set_ws_tls_errors set_ws_transport_list set_ws_transport set_ws_config set_ws_state set_ws_keepalive_tick_ms
  set_ws_reconnect_tick_ms set_ws_ping_tick_ms set_ws_pingpong_tick_ms set_ws_wait_timeout_ms set_ws_run
  set_ws_wait_for_pong_resp set_ws_selected_for_destroying set_ws_status_bits set_ws_lock set_ws_errormsg_size
  set_ws_errormsg_buffer set_ws_rx_buffer set_ws_tx_buffer set_ws_buffer_size set_ws_last_fin
  set_ws_last_opcode set_ws_payload_len set_ws_payload_offset set_ws_close_status_code set_ws_keep_alive_cfg
  set_ws_if_name
  zero_client].

(** * Bits *)

Lemma has_bit_pow x n : (0 <= n)%Z -> has_bit x (2 ^ n) = Z.testbit x n.
Proof.
  intros Hn. unfold has_bit. destruct (Z.testbit x n) eqn:E.
  - apply negb_true_iff, Z.eqb_neq. intros H0. apply (f_equal (fun z => Z.testbit z n)) in H0.
    by rewrite Z.land_spec, E, Z.pow2_bits_true, Z.bits_0 in H0.
  - apply negb_false_iff, Z.eqb_eq, Z.bits_inj'. intros m Hm. rewrite Z.land_spec, Z.bits_0, Z.pow2_bits_eqb by done.
    destruct (Z.eqb_spec n m) as [<-|?]; [by rewrite E|]. by rewrite andb_false_r.
Qed.

Lemma bit_stopped x : has_bit x STOPPED_BIT = Z.testbit x 0.
Proof. apply (has_bit_pow x 0). lia. Qed.

Lemma bit_sent x : has_bit x CLOSE_FRAME_SENT_BIT = Z.testbit x 1.
Proof. apply (has_bit_pow x 1). lia. Qed.

Lemma bit_requested x : has_bit x REQUESTED_STOP_BIT = Z.testbit x 2.
Proof. apply (has_bit_pow x 2). lia. Qed.

(** * Steps *)

Section Steps.
Context {options : ws_options} {externals : ws_externals} (nf : bool) (base : Z).

Abbreviation dyn := enable_dynamic_buffer.
Abbreviation ok_at := (ws_at dyn nf base).

(** The step ends with the invariant, and with [P] of its result. *)
Definition ends {A} (k : Z) (w : ws_world) (c : ws_client) (P : A -> ws_world -> ws_client -> Prop) (r : A * ws_world) : Prop :=
  exists c' cfg', ok_at k (snd r) c' cfg' /\ ws_keeps w (snd r) c c' /\ P (fst r) (snd r) c'.

Abbreviation any := (fun _ _ _ => True).

Lemma ends_here {A} k w c cfg (P : A -> ws_world -> ws_client -> Prop) a : ok_at k w c cfg -> P a w c -> ends k w c P (a, w).
Proof. intros H HP. exists c, cfg. split_and!; first [apply keeps_refl|done]. Qed.

Lemma ends_from {A} k k' w w1 c c1 (P : A -> ws_world -> ws_client -> Prop) (m : outcome (A * ws_world)) :
  ws_keeps w w1 c c1 -> yields m (ends k' w1 c1 P) -> k' = k -> yields m (ends k w c P).
Proof.
  intros K Hm ->. eapply yields_mono; [exact Hm|]. intros r (c' & cfg' & H & K' & HP). exists c', cfg'.
  split_and!; try done. by eapply keeps_trans.
Qed.

(** Composition: from the middle on, the end is counted from there. *)
Lemma ends_bind {A B} k k1 w c (P : A -> ws_world -> ws_client -> Prop) (Q : B -> ws_world -> ws_client -> Prop)
    (m : W A) (f : A -> W B) :
  yields (m w) (ends k1 w c P) ->
  (forall a w1 c1 cfg1, ok_at k1 w1 c1 cfg1 -> ws_keeps w w1 c c1 -> P a w1 c1 -> yields (f a w1) (ends k w1 c1 Q)) ->
  yields ((m ≫= f) w) (ends k w c Q).
Proof.
  intros Hm Hf. eapply st_seq; [exact Hm|]. intros a w1 (c1 & cfg1 & H1 & K1 & HP). cbn [fst snd] in *.
  eapply ends_from; [exact K1|by eapply Hf|done].
Qed.

Lemma ends_mono {A} k w c (P Q : A -> ws_world -> ws_client -> Prop) m : yields m (ends k w c P) ->
  (forall a w' c', P a w' c' -> Q a w' c') -> yields m (ends k w c Q).
Proof.
  intros Hm HPQ. eapply yields_mono; [exact Hm|]. intros r (c' & cfg' & ? & ? & ?). exists c', cfg'. auto.
Qed.

Lemma w_get {B} k w c cfg (f : ws_client -> W B) Q : ok_at k w c cfg -> yields (f c w) Q -> yields ((get ≫= f) w) Q.
Proof. intros [Hc _ _ _ _] Hf. eapply st_asks; [by rewrite Hc|done]. Qed.

Lemma w_get_cfg {B} k w c cfg (f : websocket_config_storage_t -> W B) Q : ok_at k w c cfg ->
  yields (f cfg w) Q -> yields ((get_cfg ≫= f) w) Q.
Proof.
  intros H Hf. unfold get_cfg. apply st_assoc. eapply w_get; [exact H|]. eapply st_asks; [|exact Hf].
  by rewrite (ok_config _ _ _ _ (at_ok _ _ _ _ _ _ _ H)).
Qed.

Lemma w_upd {B} k w c cfg g (f : unit -> W B) Q : ok_at k w c cfg ->
  yields (f tt (set_w_client w (Some (g c)))) Q -> yields ((upd g ≫= f) w) Q.
Proof. intros H Hf. unfold upd. apply st_assoc. eapply w_get; [exact H|]. by apply st_writes. Qed.

Lemma w_upd_last k w c cfg g Q : ok_at k w c cfg -> Q (tt, set_w_client w (Some (g c))) -> yields (upd g w) Q.
Proof. intros H HQ. unfold upd. eapply w_get; [exact H|]. exact HQ. Qed.

(** ** Changes of the client *)

Lemma at_upd k k' w c cfg c' cfg' : ok_at k w c cfg -> client_ok dyn (keys w) c' cfg' ->
  ws_buffer_size c' = ws_buffer_size c -> (k' = k + client_blocks c - client_blocks c')%Z ->
  ok_at k' (set_w_client w (Some c')) c' cfg'.
Proof.
  intros [Hc Hok Hf Hh (Hn & leak & H0 & Hl & Hlive)] Hok' Hs ->. split; try done.
  - by rewrite Hs.
  - split; [done|]. exists leak. split_and!; try done. rewrite Hc in Hlive. cbn in *. lia.
Qed.

(** What of the client the invariant is about, but for its state. *)
Definition core (c : ws_client) :=
  (ws_event_handle c, ws_transport_list c, ws_transport c, ws_config c, ws_status_bits c, ws_lock c,
   (ws_errormsg_size c, ws_errormsg_buffer c, ws_rx_buffer c, ws_tx_buffer c, ws_buffer_size c, ws_if_name c),
   ws_selected_for_destroying c).

Lemma core_ok ks c c' cfg : core c' = core c -> (uses_transport (ws_state c') = true -> is_Some (ws_transport c)) ->
  client_ok dyn ks c cfg -> client_ok dyn ks c' cfg /\ client_blocks c' = client_blocks c.
Proof.
  intros [= E1 E2 E3 E4 E5 E6 E7 E8 E9 E10 E11 E12 E13] Hs []. unfold client_blocks. rewrite E1, E2, E4, E5, E6, E8, E9, E10, E12.
  split; [|done]. split; rewrite ?E1, ?E2, ?E3, ?E4, ?E5, ?E6, ?E7, ?E8, ?E9, ?E10, ?E11; auto.
Qed.

Lemma quiet_upd k w c cfg c' : ok_at k w c cfg -> core c' = core c -> (ws_run c' = true -> ws_run c = true) ->
  (uses_transport (ws_state c') = true -> is_Some (ws_transport c)) ->
  ok_at k (set_w_client w (Some c')) c' cfg /\ ws_keeps w (set_w_client w (Some c')) c c'.
Proof.
  intros H Hcore Hrun Hs. destruct (core_ok _ _ _ _ Hcore Hs (at_ok _ _ _ _ _ _ _ H)) as [Hok Hb].
  pose proof Hcore as [= E1 E2 E3 E4 E5 E6 E7 E8 E9 E10 E11 E12 E13]. split.
  - eapply at_upd; [exact H|exact Hok|done|lia].
  - split; try done; unfold bit_of; by rewrite ?E5.
Qed.

(** An assignment to fields the invariant is not about. *)
Lemma w_quiet {B} k w c cfg g (f : unit -> W B) (Q : B -> ws_world -> ws_client -> Prop) : ok_at k w c cfg ->
  core (g c) = core c -> (ws_run (g c) = true -> ws_run c = true) ->
  (uses_transport (ws_state (g c)) = true -> is_Some (ws_transport c)) ->
  (forall w1, w1 = set_w_client w (Some (g c)) -> ok_at k w1 (g c) cfg -> ws_keeps w w1 c (g c) ->
     yields (f tt w1) (ends k w1 (g c) Q)) ->
  yields ((upd g ≫= f) w) (ends k w c Q).
Proof.
  intros H Hc Hr Hs Hf. eapply w_upd; [exact H|]. destruct (quiet_upd _ _ _ _ _ H Hc Hr Hs) as [H1 K1].
  eapply ends_from; [exact K1|by apply Hf|done].
Qed.

Lemma w_quiet_last k w c cfg g (Q : unit -> ws_world -> ws_client -> Prop) : ok_at k w c cfg ->
  core (g c) = core c -> (ws_run (g c) = true -> ws_run c = true) ->
  (uses_transport (ws_state (g c)) = true -> is_Some (ws_transport c)) ->
  Q tt (set_w_client w (Some (g c))) (g c) -> yields (upd g w) (ends k w c Q).
Proof.
  intros H Hc Hr Hs HQ. eapply w_upd_last; [exact H|]. destruct (quiet_upd _ _ _ _ _ H Hc Hr Hs) as [H1 K1].
  exists (g c), cfg. done.
Qed.

(** ** Changes of the surroundings *)

(** Only answers, the clock and the log differ. *)
Record ws_same (w w' : ws_world) : Prop := {
  sm_client : w_client w' = w_client w;
  sm_heap : w_heap w' = w_heap w;
  sm_keys : keys w' = keys w;
  sm_reads : w_reads w' = w_reads w;
  sm_clock : (w_clock w <= w_clock w')%Z;
  sm_reactions : w_reactions w' `suffix_of` w_reactions w;
}.

Lemma at_same k w w' c cfg : ok_at k w c cfg -> ws_same w w' -> ok_at k w' c cfg /\ ws_keeps w w' c c.
Proof.
  intros [Hc Hok Hf Hh Hb] [E1 E2 E3 E4 E5 E6]. split.
  - split; rewrite ?E1, ?E3, ?E4; try done; [|unfold balanced; by rewrite E1, E2].
    destruct E6 as [l E6]. rewrite E6 in Hh. by apply Forall_app in Hh as [_ ?].
  - split; try done; [by apply suffix_length|by rewrite E4].
Qed.

Lemma w_same {A} k w c cfg (m : W A) (P : A -> Prop) : ok_at k w c cfg ->
  yields (m w) (fun r => ws_same w (snd r) /\ P (fst r)) -> yields (m w) (ends k w c (fun a _ _ => P a)).
Proof.
  intros H Hm. eapply yields_mono; [exact Hm|]. intros [a w'] [Hs HP]. destruct (at_same _ _ _ _ _ H Hs).
  by exists c, cfg.
Qed.

Lemma out_same o w : yields (out o w) (fun r => ws_same w (snd r) /\ True).
Proof. cbn. split; [|done]. split; cbn; first [done|lia|by apply suffix_nil]. Qed.

Lemma tick_same w : yields (_tick_get_ms w) (fun r => ws_same w (snd r) /\ fst r = w_clock (snd r)).
Proof.
  unfold _tick_get_ms, mbind, ST_bind, next, writes, reads. destruct (w_steps w) as [|d l]; cbn;
    (split; [|done]); split; cbn; first [done|lia].
Qed.

Lemma next_same {A} (d : A) get put w : (forall w l, ws_same w (put w l)) ->
  yields (next d get put w) (fun r => ws_same w (snd r) /\ (fst r ∈ get w \/ fst r = d)).
Proof.
  intros Hput. unfold next. destruct (get w) as [|a l]; cbn.
  - split; [|by right]. split; first [done|lia].
  - split; [apply Hput|]. left. apply list_elem_of_here.
Qed.

(** ** Allocation *)

Lemma heap_at k k' w h c cfg : ok_at k w c cfg -> (nf = true -> never_fails h) ->
  (exists leak, (0 <= leak)%Z /\ (nf = true -> leak = 0%Z) /\ (live h - live (w_heap w) = k' - k + leak)%Z) ->
  ok_at k' (set_w_heap w h) c cfg /\ ws_keeps w (set_w_heap w h) c c.
Proof.
  intros [Hc Hok Hf Hh (Hn & leak & H0 & Hl & Hlive)] Hn' (leak' & H0' & Hl' & Hd). split.
  - split; try done. split; [done|]. exists (leak + leak')%Z. split_and!; [lia| |cbn in *; lia].
    intros E. rewrite Hl, Hl' by done. done.
  - split; cbn; first [done|lia].
Qed.

Lemma w_free k k' w c cfg n : ok_at k w c cfg -> k' = (k - n)%Z ->
  yields (alloc (mfree n) w) (ends k' w c (fun _ _ c' => c' = c)).
Proof.
  intros H ->. cbn. destruct (heap_at k (k - n) w (mk_heap (fails (w_heap w)) (live (w_heap w) - n)) c cfg H) as [H1 K1].
  - apply (at_heap _ _ _ _ _ _ _ H).
  - exists 0%Z. cbn. split_and!; (done || lia).
  - by exists c, cfg.
Qed.

Lemma w_malloc k w c cfg : ok_at k w c cfg ->
  yields (alloc malloc w) (fun r => exists k', (k' = k + flag (fst r))%Z /\ (nf = true -> fst r = true)
    /\ ok_at k' (snd r) c cfg /\ ws_keeps w (snd r) c c).
Proof.
  intros H. pose proof (at_heap _ _ _ _ _ _ _ H) as [Hn _]. unfold alloc, malloc. cbn [heap_of ws_world_heap].
  assert (Hgo : forall b f, (nf = true -> f = [] /\ b = true) -> forall h, h = mk_heap f (live (w_heap w) + flag b) ->
    exists k', (k' = k + flag b)%Z /\ (nf = true -> b = true) /\ ok_at k' (set_w_heap w h) c cfg
      /\ ws_keeps w (set_w_heap w h) c c).
  { intros b f Hb h ->. exists (k + flag b)%Z. split; [done|]. split; [by intros [? ?]%Hb|].
    apply (heap_at k); [done|by intros [? ?]%Hb|]. exists 0%Z. cbn. split_and!; (done || lia). }
  destruct (fails (w_heap w)) as [|[] f] eqn:E; cbn [yields].
  - apply (Hgo true []); done.
  - apply (Hgo false f); [intros Hnf%Hn; congruence|]. cbn. by rewrite Z.add_0_r.
  - apply (Hgo true f); [intros Hnf%Hn; congruence|done].
Qed.

Lemma w_new {A} k w c cfg (a : A) : ok_at k w c cfg ->
  yields (new_block a w) (fun r => exists k', (k' = k + opt_block (fst r))%Z /\ (fst r = Some a \/ fst r = None /\ nf = false)
    /\ ok_at k' (snd r) c cfg /\ ws_keeps w (snd r) c c).
Proof.
  intros H. unfold new_block. eapply st_seq; [apply (w_malloc _ _ _ _ H)|]. intros ok w1 (k' & Hk & Hok & H1 & K1).
  cbn in *. exists k'. destruct ok; cbn [when_ok opt_block flag] in *; split_and!; auto. right. split; [done|].
  by apply nf_failed.
Qed.

Lemma w_attempt k w c cfg : ok_at k w c cfg -> yields (alloc attempt w) (ends k w c (fun ok _ c' => (nf = true -> ok = true) /\ c' = c)).
Proof.
  intros H. pose proof (at_heap _ _ _ _ _ _ _ H) as [Hn _]. unfold alloc, attempt. cbn [heap_of ws_world_heap].
  destruct (fails (w_heap w)) as [|b f] eqn:E; cbn [yields].
  - destruct (heap_at k k w (w_heap w) c cfg H Hn) as [H1 K1]; [exists 0%Z; split_and!; (done || lia)|].
    by exists c, cfg.
  - destruct (heap_at k k w (mk_heap f (live (w_heap w))) c cfg H) as [H1 K1].
    + intros Hnf%Hn. unfold never_fails in Hnf. congruence.
    + exists 0%Z. cbn. split_and!; (done || lia).
    + exists c, cfg. split_and!; try done. cbn. intros Hnf%Hn. unfold never_fails in Hnf. congruence.
Qed.

End Steps.
