(* ===== verification/WsSafe.v ===== *)
(** The functions of Ws.v keep the invariant of the websocket client: buffers, events,
    sending with handlers that send again, receiving. *)
From S2P Require Import Prelude Heap State WsData Ws WsConfig WsProofs.

Section Safe.
Context {options : ws_options} {externals : ws_externals} (nf : bool) (base : Z).

Abbreviation dyn := enable_dynamic_buffer.
Abbreviation ok_at := (ws_at dyn nf base).
Abbreviation fin := (ends nf base).
Abbreviation any := (fun _ _ _ => True).

(** What is being received: it stays what it is while events are handled. *)
Definition rx_view (c : ws_client) :=
  (ws_rx_buffer c, ws_last_opcode c, ws_payload_len c, ws_payload_offset c, ws_last_fin c).

Definition rx_is {A} v : A -> ws_world -> ws_client -> Prop := fun _ _ c => rx_view c = v.

(** What the start of the task looks at. *)
Definition ready_view (c : ws_client) :=
  (ws_state c, (fun cfg => (cf_scheme cfg, cf_ext_transport cfg)) <$> ws_config c).

Definition views_are {A} (c0 : ws_client) : A -> ws_world -> ws_client -> Prop :=
  fun _ _ c => rx_view c = rx_view c0 /\ ready_view c = ready_view c0.

(** ** Projections *)

Lemma at_is_ok k w c cfg : ok_at k w c cfg -> client_ok dyn (keys w) c cfg.
Proof. by intros []. Qed.

Lemma w_ends {A} k w c cfg (a : A) (P : A -> ws_world -> ws_client -> Prop) : ok_at k w c cfg -> P a w c ->
  yields ((mret a : W A) w) (fin k w c P).
Proof. intros H HP. by eapply ends_here. Qed.

(** ** Transports and bits *)

Lemma w_use {B} k w c cfg i (f : tid -> W B) Q : ok_at k w c cfg -> i ∈ keys w -> yields (f i w) Q ->
  yields ((use_transport (Some i) ≫= f) w) Q.
Proof. intros H Hi Hf. eapply st_asks; [|exact Hf]. cbn. by rewrite decide_True. Qed.

(** The client's own transport. *)
Lemma w_use_own {B} k w c cfg (f : tid -> W B) Q : ok_at k w c cfg -> is_Some (ws_transport c) ->
  (forall i, ws_transport c = Some i -> yields (f i w) Q) -> yields ((use_transport (ws_transport c) ≫= f) w) Q.
Proof.
  intros H [i Hi] Hf. rewrite Hi. eapply w_use; [exact H| |by apply Hf].
  by apply (ok_transport _ _ _ _ (at_is_ok _ _ _ _ H)).
Qed.

Lemma close_spec k w c cfg : ok_at k w c cfg -> yields (esp_transport_close (ws_transport c) w) (fin k w c (fun _ w' c' => c' = c /\ w_reads w' = w_reads w)).
Proof.
  intros H. unfold esp_transport_close. destruct (ws_transport c) as [i|] eqn:E; [|by eapply w_ends].
  rewrite <- E. eapply w_use_own; [exact H|by rewrite E|]. intros i' _.
  destruct (at_same nf base k w (set_w_log w (w_log w ++ [OutClose])) c cfg H) as [H1 K1]; [split; cbn; first [done|lia]|].
  exists c, cfg. done.
Qed.

Lemma may_use_spec k w c cfg : ok_at k w c cfg ->
  yields (may_use_transport (ws_transport c) w) (fun r => r = (tt, w)).
Proof.
  intros H. unfold may_use_transport. destruct (ws_transport c) as [i|] eqn:E; [|done].
  rewrite <- E. eapply w_use_own; [exact H|by rewrite E|]. done.
Qed.

(** An answer of the surroundings. *)
Lemma next_spec {A} k w c cfg (d : A) get put : ok_at k w c cfg ->
  (forall l, l `suffix_of` get w -> ws_same w (put w l)) ->
  yields (next d get put w) (fin k w c (fun a _ c' => (a ∈ get w \/ a = d) /\ c' = c)).
Proof.
  intros H Hput. unfold next. destruct (get w) as [|a l]; cbn [yields].
  - eapply ends_here; [exact H|]. auto.
  - destruct (at_same nf base k w (put w l) c cfg H) as [H1 K1]; [apply Hput; by exists [a]|]. exists c, cfg.
    split_and!; try done. left. apply list_elem_of_here.
Qed.

Lemma out_spec k w c cfg o : ok_at k w c cfg -> yields (out o w) (fin k w c (fun _ _ c' => c' = c)).
Proof.
  intros H. destruct (at_same nf base k w (set_w_log w (w_log w ++ [o])) c cfg H) as [H1 K1]; [split; cbn; first [done|lia]|].
  by exists c, cfg.
Qed.

Lemma tick_spec k w c cfg : ok_at k w c cfg -> yields (_tick_get_ms w) (fin k w c (fun t w' c' => t = w_clock w' /\ c' = c)).
Proof.
  intros H. eapply yields_mono; [apply tick_same|]. intros [t w'] [Hs Ht]. destruct (at_same _ _ _ _ _ _ _ H Hs).
  exists c, cfg. done.
Qed.

Lemma poll_spec k w c cfg : ok_at k w c cfg -> is_Some (ws_transport c) ->
  yields (esp_transport_poll_read (ws_transport c) w) (fin k w c any).
Proof.
  intros H Ht. eapply w_use_own; [exact H|done|]. intros i _. eapply ends_mono; [eapply next_spec; [exact H|]|done].
  intros l _. split; cbn; first [done|lia].
Qed.

Lemma send_raw_spec k w c cfg op p : ok_at k w c cfg -> is_Some (ws_transport c) ->
  yields (esp_transport_ws_send_raw (ws_transport c) op p w)
    (fin k w c (fun wlen _ c' => (wlen <= Z.of_nat (length p))%Z /\ c' = c)).
Proof.
  intros H Ht. eapply w_use_own; [exact H|done|]. intros i _.
  eapply ends_bind; [eapply next_spec; [exact H|]; intros l _; split; cbn; first [done|lia]|].
  intros r w1 c1 cfg1 H1 _ [_ ->]. eapply ends_bind; [by eapply out_spec|]. intros [] w2 c2 cfg2 H2 _ ->.
  eapply w_ends; [exact H2|]. split; [lia|done].
Qed.

Lemma w_bits {B} k w c cfg (f : Z -> W B) Q : ok_at k w c cfg ->
  (forall b, ws_status_bits c = Some b -> yields (f b w) Q) -> yields ((get_bits ≫= f) w) Q.
Proof.
  intros H Hf. unfold get_bits. apply st_assoc. eapply w_get; [exact H|].
  destruct (ok_bits _ _ _ _ (at_is_ok _ _ _ _ H)) as [b Hb]. eapply st_asks; [by rewrite Hb|by apply Hf].
Qed.

(** The event group changes, but not the two bits that are kept. *)
Lemma bits_upd k w c cfg b x : ok_at k w c cfg -> ws_status_bits c = Some b ->
  has_bit x STOPPED_BIT = has_bit b STOPPED_BIT -> has_bit x REQUESTED_STOP_BIT = has_bit b REQUESTED_STOP_BIT ->
  let c' := set_ws_status_bits c (Some x) in
  ok_at k (set_w_client w (Some c')) c' cfg /\ ws_keeps w (set_w_client w (Some c')) c c'.
Proof.
  intros H Hb Hs Hr c'. pose proof (at_is_ok _ _ _ _ H) as []. split.
  - eapply at_upd; [exact H| |done|]; [split; done|]. unfold client_blocks, c'. cbn. rewrite Hb. cbn. lia.
  - split; try done; unfold bit_of, c'; cbn; by rewrite Hb.
Qed.

Lemma set_bits_spec k w c cfg b : ok_at k w c cfg -> b = CLOSE_FRAME_SENT_BIT \/ b = WAKEUP_BIT ->
  yields (set_bits b w) (fin k w c (views_are c)).
Proof.
  intros H Hb. unfold set_bits. eapply w_bits; [exact H|]. intros x Hx. eapply w_upd_last; [exact H|].
  destruct (bits_upd k w c cfg x (Z.lor x b) H Hx) as [H1 K1].
  - rewrite !bit_stopped, Z.lor_spec. by destruct Hb as [-> | ->]; rewrite orb_false_r.
  - rewrite !bit_requested, Z.lor_spec. by destruct Hb as [-> | ->]; rewrite orb_false_r.
  - exists (set_ws_status_bits c (Some (Z.lor x b))), cfg. done.
Qed.

Lemma take_lock_spec {B} k w c cfg (f : unit -> W B) Q : ok_at k w c cfg -> yields (f tt w) Q ->
  yields ((take_lock ≫= f) w) Q.
Proof.
  intros H Hf. unfold take_lock. apply st_assoc. eapply w_get; [exact H|]. eapply st_asks; [|exact Hf].
  by rewrite (ok_lock _ _ _ _ (at_is_ok _ _ _ _ H)).
Qed.

(** The configuration is replaced. *)
Lemma cfg_upd k k' w c cfg cfg' : ok_at k w c cfg -> fixed cfg' = fixed cfg ->
  (k' = k + config_blocks cfg - config_blocks cfg')%Z ->
  let c' := set_ws_config c (Some cfg') in
  ok_at k' (set_w_client w (Some c')) c' cfg' /\ ws_keeps w (set_w_client w (Some c')) c c'.
Proof.
  intros H [= He Htls] -> c'. pose proof (at_is_ok _ _ _ _ H) as [E]. split; [|by split].
  eapply (at_upd nf base k); [exact H| |done|].
  - split; try done; by rewrite ?He, ?Htls.
  - unfold client_blocks, c'. cbn. rewrite E. cbn. lia.
Qed.

Lemma upd_cfg_spec k k' w c cfg g : ok_at k w c cfg -> fixed (g cfg) = fixed cfg ->
  (k' = k + config_blocks cfg - config_blocks (g cfg))%Z ->
  yields (upd_cfg g w) (fin k' w c (fun _ w' c' => c' = set_ws_config c (Some (g cfg)))).
Proof.
  intros H He Hk. unfold upd_cfg. eapply w_get_cfg; [exact H|]. eapply w_upd_last; [exact H|].
  destruct (cfg_upd k k' w c cfg (g cfg) H He Hk) as [H1 K1]. by exists (set_ws_config c (Some (g cfg))), (g cfg).
Qed.

(** ** Buffers *)

Lemma opt_free_spec {A} k k' w c cfg (p : option A) : ok_at k w c cfg -> k' = (k - opt_block p)%Z ->
  yields (opt_free p w) (fin k' w c (fun _ w' c' => c' = c)).
Proof.
  intros H ->. cbn. edestruct (heap_at nf base k (k - opt_block p) w) as [H1 K1]; [exact H| | |exists c, cfg; done].
  - apply (at_heap _ _ _ _ _ _ _ H).
  - exists 0%Z. cbn. split_and!; (done || lia).
Qed.

Lemma new_block_spec {A} k w c cfg (a : A) : ok_at k w c cfg ->
  yields (new_block a w) (fun r => (fst r = Some a \/ fst r = None /\ nf = false)
    /\ ok_at (k + opt_block (fst r)) (snd r) c cfg /\ ws_keeps w (snd r) c c).
Proof. intros H. eapply yields_mono; [apply (w_new nf base k w c cfg a H)|]. intros r (k' & -> & ? & ? & ?). done. Qed.

(** One buffer is replaced. *)
Lemma tx_upd k w c cfg b : ok_at k w c cfg -> buffer_ok dyn (ws_buffer_size c) b ->
  let c' := set_ws_tx_buffer c b in
  ok_at (k + opt_block (ws_tx_buffer c) - opt_block b) (set_w_client w (Some c')) c' cfg
  /\ ws_keeps w (set_w_client w (Some c')) c c'.
Proof.
  intros H Hb c'. pose proof (at_is_ok _ _ _ _ H) as []. split; [|split; done].
  eapply at_upd; [exact H|split; done|done|]. unfold client_blocks. cbn. lia.
Qed.

Lemma rx_upd k w c cfg b : ok_at k w c cfg -> buffer_ok dyn (ws_buffer_size c) b ->
  let c' := set_ws_rx_buffer c b in
  ok_at (k + opt_block (ws_rx_buffer c) - opt_block b) (set_w_client w (Some c')) c' cfg
  /\ ws_keeps w (set_w_client w (Some c')) c c'.
Proof.
  intros H Hb c'. pose proof (at_is_ok _ _ _ _ H) as []. split; [|split; done].
  eapply at_upd; [exact H|split; done|done|]. unfold client_blocks. cbn. lia.
Qed.

(** The rest of the client when one buffer is replaced. *)
Definition same_but_tx (c c' : ws_client) : Prop := c' = set_ws_tx_buffer c (ws_tx_buffer c').
Definition same_but_rx (c c' : ws_client) : Prop := c' = set_ws_rx_buffer c (ws_rx_buffer c').

Lemma same_tx c c' : same_but_tx c c' -> rx_view c' = rx_view c /\ ws_transport c' = ws_transport c
  /\ ws_state c' = ws_state c.
Proof. by intros ->. Qed.

Lemma same_rx c c' : same_but_rx c c' -> ws_transport c' = ws_transport c /\ ws_state c' = ws_state c
  /\ ws_buffer_size c' = ws_buffer_size c /\ ws_last_opcode c' = ws_last_opcode c /\ ws_payload_len c' = ws_payload_len c.
Proof. by intros ->. Qed.

Lemma new_tx_spec k w c cfg : ok_at k w c cfg ->
  yields (esp_websocket_new_buf true w) (fin k w c (fun e _ c' => same_but_tx c c' /\ (e = ESP_OK -> is_Some (ws_tx_buffer c'))
    /\ (nf = true -> e = ESP_OK))).
Proof.
  intros H. unfold esp_websocket_new_buf. pose proof (ok_tx _ _ _ _ (at_is_ok _ _ _ _ H)) as Htx. case_on_goal; bsimp.
  - eapply w_ends; [exact H|]. split; [by destruct c|]. split; [|done]. intros _. destruct (ws_tx_buffer c); [done|]. cbn in Htx. congruence.
  - eapply w_get; [exact H|]. eapply ends_bind; [by eapply opt_free_spec|]. intros [] w1 c1 cfg1 H1 _ ->.
    eapply st_seq; [by eapply new_block_spec|]. intros b w2 (Hb & H2 & K2). cbn [fst snd] in *.
    eapply ends_from; [exact K2| |done]. eapply w_upd; [exact H2|].
    destruct (tx_upd _ _ _ _ b H2) as [H3 K3].
    { destruct Hb as [-> |[-> _]]; cbn; [apply length_replicate|done]. }
    eapply ends_from; [exact K3| |].
    + eapply w_ends; [exact H3|]. split; [by destruct c|]. destruct Hb as [-> |[-> Hn]]; [done|]. split; [done|congruence].
    + lia.
Qed.

Lemma new_rx_spec k w c cfg : ok_at k w c cfg ->
  yields (esp_websocket_new_buf false w) (fin k w c (fun e _ c' => same_but_rx c c' /\ (e = ESP_OK -> is_Some (ws_rx_buffer c'))
    /\ (nf = true -> e = ESP_OK))).
Proof.
  intros H. unfold esp_websocket_new_buf. pose proof (ok_rx _ _ _ _ (at_is_ok _ _ _ _ H)) as Hrx. case_on_goal; bsimp.
  - eapply w_ends; [exact H|]. split; [by destruct c|]. split; [|done]. intros _. destruct (ws_rx_buffer c); [done|]. cbn in Hrx. congruence.
  - eapply w_get; [exact H|]. eapply ends_bind; [by eapply opt_free_spec|]. intros [] w1 c1 cfg1 H1 _ ->.
    eapply st_seq; [by eapply new_block_spec|]. intros b w2 (Hb & H2 & K2). cbn [fst snd] in *.
    eapply ends_from; [exact K2| |done]. eapply w_upd; [exact H2|].
    destruct (rx_upd _ _ _ _ b H2) as [H3 K3].
    { destruct Hb as [-> |[-> _]]; cbn; [apply length_replicate|done]. }
    eapply ends_from; [exact K3| |].
    + eapply w_ends; [exact H3|]. split; [by destruct c|]. destruct Hb as [-> |[-> Hn]]; [done|]. split; [done|congruence].
    + lia.
Qed.

Lemma free_tx_spec k w c cfg : ok_at k w c cfg ->
  yields (esp_websocket_free_buf true w) (fin k w c (fun _ _ c' => same_but_tx c c')).
Proof.
  intros H. unfold esp_websocket_free_buf. case_on_goal; bsimp; [eapply w_ends; [exact H|]; by destruct c|].
  eapply w_get; [exact H|]. eapply ends_bind; [by eapply opt_free_spec|]. intros [] w1 c1 cfg1 H1 _ ->.
  eapply w_upd_last; [exact H1|]. destruct (tx_upd _ _ _ _ None H1) as [H2 K2]; [done|].
  exists (set_ws_tx_buffer c None), cfg1. cbn in *. split_and!; try done.
  by replace k with (k - opt_block (ws_tx_buffer c) + opt_block (ws_tx_buffer c) - 0)%Z by lia.
Qed.

Lemma free_rx_spec k w c cfg : ok_at k w c cfg ->
  yields (esp_websocket_free_buf false w) (fin k w c (fun _ _ c' => same_but_rx c c')).
Proof.
  intros H. unfold esp_websocket_free_buf. case_on_goal; bsimp; [eapply w_ends; [exact H|]; by destruct c|].
  eapply w_get; [exact H|]. eapply ends_bind; [by eapply opt_free_spec|]. intros [] w1 c1 cfg1 H1 _ ->.
  eapply w_upd_last; [exact H1|]. destruct (rx_upd _ _ _ _ None H1) as [H2 K2]; [done|].
  exists (set_ws_rx_buffer c None), cfg1. cbn in *. split_and!; try done.
  by replace k with (k - opt_block (ws_rx_buffer c) + opt_block (ws_rx_buffer c) - 0)%Z by lia.
Qed.

(** The buffer of error messages is replaced. *)
Lemma msg_upd k w c cfg b n : ok_at k w c cfg -> match b with Some m => m = n | None => n = 0 end ->
  let c' := set_ws_errormsg_size (set_ws_errormsg_buffer c b) n in
  ok_at (k + opt_block (ws_errormsg_buffer c) - opt_block b) (set_w_client w (Some c')) c' cfg
  /\ ws_keeps w (set_w_client w (Some c')) c c'.
Proof.
  intros H Hb c'. pose proof (at_is_ok _ _ _ _ H) as []. split; [|split; done].
  eapply at_upd; [exact H|split; done|done|]. unfold client_blocks. cbn. lia.
Qed.

Lemma grow_spec k w c cfg n : ok_at k w c cfg -> 0 < n ->
  yields (grow_errormsg n w) (fin k w c (fun ok _ c' => rx_view c' = rx_view c
    /\ (ok = true -> is_Some (ws_errormsg_buffer c')))).
Proof.
  intros H Hn. unfold grow_errormsg. eapply w_get; [exact H|].
  pose proof (ok_msg _ _ _ _ (at_is_ok _ _ _ _ H)) as Hm. case_on_goal; bsimp.
  - eapply w_ends; [exact H|]. split; [done|]. intros _. destruct (ws_errormsg_buffer c); [done|lia].
  - eapply ends_bind; [by eapply opt_free_spec|]. intros [] w1 c1 cfg1 H1 _ ->.
    eapply st_seq; [by eapply new_block_spec|]. intros b w2 (Hb & H2 & K2). cbn [fst snd] in *.
    eapply ends_from; [exact K2| |done]. eapply w_upd; [exact H2|]. unfold upd, get, mbind, ST_bind, asks, writes.
    destruct Hb as [-> |[-> _]]; cbn [w_client set_w_client deref].
    + destruct (msg_upd _ _ _ _ (Some n) n H2) as [H3 K3]; [done|]. eexists _, cfg1. cbn in *. split_and!; try done.
      by replace k with (k - opt_block (ws_errormsg_buffer c) + 1 + opt_block (ws_errormsg_buffer c) - 1)%Z by lia.
    + destruct (msg_upd _ _ _ _ None 0 H2) as [H3 K3]; [done|]. eexists _, cfg1. cbn in *. split_and!; try done.
      by replace k with (k - opt_block (ws_errormsg_buffer c) + 0 + opt_block (ws_errormsg_buffer c) - 0)%Z by lia.
Qed.

(** ** Events *)

Lemma make_event_spec k w c cfg d n : ok_at k w c cfg -> yields (make_event d n w) (fin k w c (rx_is (rx_view c))).
Proof.
  intros H. unfold make_event. eapply w_get; [exact H|]. eapply w_get_cfg; [exact H|]. case_decide; [|by eapply w_ends].
  eapply st_seq; [by eapply may_use_spec|]. intros [] w1 [= ->].
  eapply ends_bind; [eapply next_spec; [exact H|]; intros l _; split; cbn; first [done|lia]|].
  intros [[[last stack] flags] errno] w1 c1 cfg1 H1 _ [_ ->]. eapply w_quiet; [exact H1|done|done| |].
  - apply (ok_state _ _ _ _ (at_is_ok _ _ _ _ H1)).
  - intros w2 _ H2 _. by eapply w_ends.
Qed.

Section Dispatching.
Variables (disp : esp_websocket_event_id_t -> option (list Z) -> nat -> W ws_err) (N : nat).
Hypothesis disp_ok : forall k w c cfg ev d n, ok_at k w c cfg -> length (w_reactions w) <= N ->
  yields (disp ev d n w) (fin k w c (rx_is (rx_view c))).

Lemma abort_spec k w c cfg e : ok_at k w c cfg -> length (w_reactions w) <= N -> is_Some (ws_transport c) ->
  yields (esp_websocket_client_abort_connection disp e w) (fin k w c (rx_is (rx_view c))).
Proof.
  intros H HN Ht. unfold esp_websocket_client_abort_connection. eapply w_get; [exact H|].
  destruct (before_init (ws_state c)) eqn:Eb; [by eapply w_ends|].
  eapply (ends_bind nf base k k _ _ (rx_is (rx_view c))).
  - case_decide as Hst; [by eapply w_ends|].
    eapply ends_bind; [by eapply close_spec|]. intros [] w1 c1 cfg1 H1 K1 [-> _].
    eapply w_get_cfg; [exact H1|].
    eapply (ends_bind nf base k k _ _ (rx_is (rx_view c))).
    + destruct (negb (cf_auto_reconnect cfg1)); [by eapply w_quiet_last|].
      eapply ends_bind; [by eapply tick_spec|]. intros t w2 c2 cfg2 H2 K2 [_ ->]. by eapply w_quiet_last.
    + intros [] w2 c2 cfg2 H2 K2 <-. pose proof (kp_reactions _ _ _ _ K1) as R1. pose proof (kp_reactions _ _ _ _ K2) as R2.
      eapply w_quiet; [exact H2|done|done|apply (ok_state _ _ _ _ (at_is_ok _ _ _ _ H2))|].
      intros w3 E3 H3 K3. pose proof (kp_reactions _ _ _ _ K3) as R3.
      eapply ends_bind; [eapply disp_ok; [exact H3|lia]|]. intros a w4 c4 cfg4 H4 K4 Hrx. by eapply w_ends.
  - intros [] w1 c1 cfg1 H1 K1 <-. eapply w_get; [exact H1|]. destruct (ws_errormsg_buffer c1) as [m|] eqn:Em.
    + eapply (ends_bind nf base k k _ _ (rx_is (rx_view c1))); [|intros [] w2 c2 cfg2 H2 K2 <-; by eapply w_ends].
      rewrite <- Em. eapply ends_bind; [by eapply opt_free_spec|]. intros [] w2 c2 cfg2 H2 K2 ->.
      eapply w_upd_last; [exact H2|]. destruct (msg_upd _ _ _ _ None 0 H2) as [H3 K3]; [done|].
      eexists _, cfg2. cbn in *. split_and!; try done.
      by replace k with (k - opt_block (ws_errormsg_buffer c1) + opt_block (ws_errormsg_buffer c1) - 0)%Z by lia.
    + eapply st_ret. by eapply w_ends.
Qed.

Lemma ws_error_spec k w c cfg r : ok_at k w c cfg -> length (w_reactions w) <= N ->
  yields (esp_websocket_client_error disp r w) (fin k w c (rx_is (rx_view c))).
Proof.
  intros H HN. unfold esp_websocket_client_error. destruct (format_report r) as [text|]; [|by eapply w_ends].
  eapply ends_bind; [eapply grow_spec; [exact H|lia]|]. intros ok w1 c1 cfg1 H1 K1 [<- Hok].
  pose proof (kp_reactions _ _ _ _ K1) as R1. destruct ok; cbn [negb]; [|by eapply w_ends].
  destruct (Hok eq_refl) as [m Hm]. eapply w_get; [exact H1|]. eapply st_asks; [by rewrite Hm|].
  pose proof (ok_msg _ _ _ _ (at_is_ok _ _ _ _ H1)) as Hm'. rewrite Hm in Hm'. eapply st_asks.
  { rewrite (proj2 (Nat.leb_le _ _)); [done|lia]. }
  eapply ends_bind; [eapply disp_ok; [exact H1|lia]|]. intros e w2 c2 cfg2 H2 K2 Hrx. by eapply w_ends.
Qed.

(** ** Sending *)

Lemma next_part_le bs need fin op : fst (next_part bs need fin op) <= need /\ fst (next_part bs need fin op) <= bs
  /\ (0 < bs -> 0 < need -> 0 < fst (next_part bs need fin op)).
Proof. unfold next_part. repeat case_on_goal; bsimp; cbn; lia. Qed.

Lemma fill_tx_spec k w c cfg data i n : ok_at k w c cfg -> is_Some (ws_tx_buffer c) -> i + n <= length data ->
  n <= ws_buffer_size c ->
  yields (fill_tx data i n w) (fin k w c (fun part _ c' => part = take n (drop i data) /\ same_but_tx c c'
    /\ is_Some (ws_tx_buffer c'))).
Proof.
  intros H [b Hb] Hi Hn. unfold fill_tx. eapply w_get; [exact H|]. eapply st_asks; [by rewrite Hb|].
  eapply st_asks; [by apply rd_bytes_ok|]. set (bs := take n (drop i data)).
  assert (Hl : length bs = n) by (unfold bs; rewrite length_take, length_drop; lia).
  pose proof (ok_tx _ _ _ _ (at_is_ok _ _ _ _ H)) as Hb'. rewrite Hb in Hb'. cbn in Hb'.
  eapply st_asks; [apply wr_bytes_ok; lia|]. rewrite Hl, take_0. cbn [app Nat.add].
  eapply w_upd; [exact H|]. destruct (tx_upd k w c cfg (Some (bs ++ drop n b)) H) as [H1 K1].
  { cbn. rewrite length_app, length_drop. lia. }
  rewrite Hb in H1. cbn [opt_block] in H1.
  eapply ends_from; [exact K1| |].
  - unfold asks. rewrite rd_bytes_ok by (rewrite length_app, length_drop; lia). rewrite drop_0. cbn [yields].
    rewrite take_app_le, take_ge by lia. eapply ends_here; [exact H1|]. cbn. split_and!; try done.
  - lia.
Qed.

Lemma send_loop_spec fuel data len cf : forall op i need k w c cfg, ok_at k w c cfg -> length (w_reactions w) <= N ->
  is_Some (ws_transport c) -> is_Some (ws_tx_buffer c) -> len <= length data -> i <= len ->
  need = len - i -> (if (op =? 0)%Z then 0 else 1) + need < fuel ->
  yields (send_loop disp fuel data len cf op i need w) (fin k w c (rx_is (rx_view c))).
Proof.
  induction fuel as [|fuel IH]; intros op i need k w c cfg H HN Ht Htx Hlen Hi -> Hf; [lia|]. cbn [send_loop].
  destruct (negb ((i <? len) || negb (op =? 0)%Z)) eqn:Eend.
  { eapply ends_bind; [by eapply free_tx_spec|]. intros [] w1 c1 cfg1 H1 K1 [<- _]%same_tx. by eapply w_ends. }
  eapply w_get; [exact H|].
  pose proof (next_part_le (ws_buffer_size c) (len - i) cf op) as (Hp1 & Hp2 & Hp3).
  destruct (next_part (ws_buffer_size c) (len - i) cf op) as [n op']. cbn [fst] in *.
  pose proof (ok_size _ _ _ _ (at_is_ok _ _ _ _ H)) as Hbs.
  eapply ends_bind; [eapply (fill_tx_spec k w c cfg data i n); [exact H|done|lia|lia]|].
  intros part w1 c1 cfg1 H1 K1 (-> & [<- [Et1 _]]%same_tx & Htx1). pose proof (kp_reactions _ _ _ _ K1) as R1.
  rewrite <- Et1 in Ht |- *.
  eapply ends_bind; [by eapply send_raw_spec|]. intros wlen w2 c2 cfg2 H2 K2 [Hw ->]. pose proof (kp_reactions _ _ _ _ K2) as R2.
  rewrite length_take, length_drop in Hw.
  destruct ((wlen <? 0)%Z || (wlen =? 0)%Z && negb (n =? 0)) eqn:Ew.
  - eapply ends_bind; [by eapply free_tx_spec|]. intros [] w3 c3 cfg3 H3 K3 [<- [Et3 _]]%same_tx. pose proof (kp_reactions _ _ _ _ K3) as R3.
    eapply ends_bind; [eapply ws_error_spec; [exact H3|lia]|]. intros e w4 c4 cfg4 H4 K4 <-. pose proof (kp_reactions _ _ _ _ K4) as R4.
    eapply ends_bind; [eapply abort_spec; [exact H4|lia|]|].
    { by rewrite (kp_transport _ _ _ _ K4), Et3. }
    intros e' w5 c5 cfg5 H5 K5 <-. by eapply w_ends.
  - apply orb_false_iff in Ew as [Hneg Hz]. bsimp.
    assert (Hpos : (0 < wlen)%Z \/ n = 0 /\ wlen = 0%Z).
    { apply andb_false_iff in Hz as [Hz|Hz]; bsimp; lia. }
    eapply IH; [exact H2|lia|done|done|done|lia|lia|]. cbn.
    destruct (Z.eqb_spec op 0) as [->|Hop]; cbv iota in Hf; [|lia].
    cbn [negb] in Eend. rewrite orb_false_r in Eend. bsimp. assert (0 < n) by (apply Hp3; lia). lia.
Qed.

Lemma send_locked_spec k w c cfg locked op data len : ok_at k w c cfg -> length (w_reactions w) <= N ->
  is_Some (ws_transport c) -> Z.to_nat len <= length (default [] data) ->
  yields (send_locked disp locked op data len w) (fin k w c (rx_is (rx_view c))).
Proof.
  intros H HN Ht Hlen. unfold send_locked. eapply take_lock_spec; [exact H|]. destruct locked; [|by eapply w_ends].
  eapply ends_bind; [by eapply new_tx_spec|]. intros e w1 c1 cfg1 H1 K1 ([<- [Et _]]%same_tx & Htx & _).
  pose proof (kp_reactions _ _ _ _ K1) as R1. cbn [negb]. case_decide as He; [by eapply w_ends|].
  eapply send_loop_spec; [exact H1|lia|by rewrite Et| |done|lia|lia|by case_on_goal; lia].
  apply Htx. destruct (decide (e = ESP_OK)); [done|]. by destruct He.
Qed.

Lemma send_checks_spec k w c cfg data len : ok_at k w c cfg ->
  yields (send_checks data len w) (fun r => snd r = w /\ (fst r = true -> is_Some (ws_transport c)
    /\ ws_state c = WEBSOCKET_STATE_CONNECTED /\ (0 <= len)%Z
    /\ (data = None -> len = 0%Z))).
Proof.
  intros H. unfold send_checks. case_on_goal; [by cbn|]. bsimp. unfold esp_websocket_client_is_connected.
  apply st_assoc. eapply w_get; [exact H|]. apply st_ret.
  destruct (bool_decide_reflect (ws_state c = WEBSOCKET_STATE_CONNECTED)) as [Hs|Hs]; cbn [negb]; [|by cbn].
  eapply w_get; [exact H|]. cbn. split; [done|]. destruct (ws_transport c); [|done]. intros _. split_and!; try done.
  intros ->. bsimp. lia.
Qed.

Lemma send_exact_spec k w c cfg locked op data len : ok_at k w c cfg -> length (w_reactions w) <= N ->
  match data with Some d => Z.to_nat len <= length d | None => True end ->
  yields (esp_websocket_client_send_with_exact_opcode disp locked op data len w) (fin k w c (rx_is (rx_view c))).
Proof.
  intros H HN Hd. unfold esp_websocket_client_send_with_exact_opcode.
  eapply st_seq; [by eapply send_checks_spec|]. intros ok w1 [E Hok]. cbn [fst snd] in E, Hok. subst w1.
  destruct ok; cbn [negb]; [|by eapply w_ends]. destruct (Hok eq_refl) as (Ht & _ & Hl & Hn).
  eapply send_locked_spec; try done. destruct data; [done|]. cbn. rewrite Hn by done. done.
Qed.

(** ** Handlers *)

Lemma set_ping_spec k w c cfg sec : ok_at k w c cfg ->
  yields (esp_websocket_client_set_ping_interval_sec sec w) (fin k w c (views_are c)).
Proof.
  intros H. unfold esp_websocket_client_set_ping_interval_sec. eapply w_get; [exact H|].
  pose proof (ok_config _ _ _ _ (at_is_ok _ _ _ _ H)) as E. rewrite E.
  eapply (ends_bind nf base k k); [eapply upd_cfg_spec; [exact H|done|unfold config_blocks; cbn; lia]|].
  intros [] w1 c1 cfg1 H1 K1 ->. eapply w_ends; [exact H1|]. split; [done|]. unfold ready_view. cbn. by rewrite E.
Qed.

Lemma set_reconnect_spec k w c cfg ms : ok_at k w c cfg ->
  yields (esp_websocket_client_set_reconnect_timeout ms w) (fin k w c (views_are c)).
Proof.
  intros H. unfold esp_websocket_client_set_reconnect_timeout. case_on_goal; [by eapply w_ends|].
  eapply w_get_cfg; [exact H|]. case_on_goal; [by eapply w_ends|].
  eapply w_quiet; [exact H|done|done|apply (ok_state _ _ _ _ (at_is_ok _ _ _ _ H))|]. intros w1 _ H1 K1.
  eapply w_get; [exact H1|]. eapply (ends_bind nf base k k _ _ (views_are c)).
  - destruct (ws_status_bits (set_ws_wait_timeout_ms c ms)); [|by eapply w_ends].
    apply (set_bits_spec k w1 (set_ws_wait_timeout_ms c ms) cfg); auto.
  - intros [] w2 c2 cfg2 H2 K2 Hrx. by eapply w_ends.
Qed.

Lemma handle_spec k w c cfg op : ok_at k w c cfg -> length (w_reactions w) <= N -> handler_ok op ->
  yields (handle disp op w) (fin k w c (rx_is (rx_view c))).
Proof.
  intros H HN Hop. destruct op as [op data len|sec|ms]; cbn [handle].
  - eapply ends_bind; [eapply send_exact_spec; [exact H|done|]|]; [by destruct data|].
    intros e w1 c1 cfg1 H1 K1 Hrx. by eapply w_ends.
  - eapply ends_bind; [by eapply set_ping_spec|]. intros e w1 c1 cfg1 H1 K1 [Hrx _]. by eapply w_ends.
  - eapply ends_bind; [by eapply set_reconnect_spec|]. intros e w1 c1 cfg1 H1 K1 [Hrx _]. by eapply w_ends.
Qed.

Lemma handle_all_spec l : forall k w c cfg, ok_at k w c cfg -> length (w_reactions w) <= N -> Forall handler_ok l ->
  yields (iter l (handle disp) w) (fin k w c (rx_is (rx_view c))).
Proof.
  induction l as [|op l IH]; intros k w c cfg H HN Hl; cbn [iter]; [by eapply w_ends|].
  apply Forall_cons in Hl as [Hop Hl]. eapply ends_bind; [by eapply handle_spec|].
  intros [] w1 c1 cfg1 H1 K1 <-. pose proof (kp_reactions _ _ _ _ K1) as R1. eapply IH; [exact H1|lia|done].
Qed.

End Dispatching.

(** ** All events *)

Lemma dispatch_spec fuel : forall k w c cfg ev d n, ok_at k w c cfg -> length (w_reactions w) < fuel ->
  yields (dispatch fuel ev d n w) (fin k w c (rx_is (rx_view c))).
Proof.
  induction fuel as [|fuel IH]; intros k w c cfg ev d n H Hf; [lia|]. cbn [dispatch].
  eapply ends_bind; [by eapply make_event_spec|]. intros e w1 c1 cfg1 H1 K1 <-. pose proof (kp_reactions _ _ _ _ K1) as R1.
  eapply w_get; [exact H1|]. eapply st_asks; [by rewrite (ok_event _ _ _ _ (at_is_ok _ _ _ _ H1))|].
  eapply ends_bind; [by eapply w_attempt|]. intros ok w2 c2 cfg2 H2 K2 [_ ->]. pose proof (kp_reactions _ _ _ _ K2) as R2.
  destruct ok; cbn [negb]; [|by eapply w_ends].
  eapply ends_bind; [by eapply out_spec|]. intros [] w3 c3 cfg3 H3 K3 ->. pose proof (kp_reactions _ _ _ _ K3) as R3.
  eapply (ends_bind nf base k k _ _ (fun ops w' c' => c' = c1 /\ Forall handler_ok ops
            /\ (ops = [] \/ length (w_reactions w') < length (w_reactions w3)))).
  - unfold next. pose proof (at_handlers _ _ _ _ _ _ _ H3) as Hh.
    destruct (w_reactions w3) as [|ops l] eqn:E; cbn [yields]; [eapply ends_here; [exact H3|]; auto|].
    destruct (at_same nf base k w3 (set_w_reactions w3 l) c1 cfg3 H3) as [H4 K4].
    { split; cbn; try done. rewrite E. by exists [ops]. }
    exists c1, cfg3. split_and!; try done; [by apply Forall_cons in Hh as [? _]|]. right. cbn. lia.
  - intros ops w4 c4 cfg4 H4 K4 (-> & Hops & Hlen). pose proof (kp_reactions _ _ _ _ K4) as R4.
    eapply (ends_bind nf base k k _ _ (rx_is (rx_view c1))).
    + destruct Hlen as [-> |Hlen]; [cbn [iter]; by eapply w_ends|].
      eapply (handle_all_spec (dispatch fuel) (fuel - 1)); [|exact H4|lia|done].
      intros k' w' c' cfg' ev' d' n' H' Hn'. eapply IH; [exact H'|lia].
    + intros [] w5 c5 cfg5 H5 K5 Hrx. by eapply w_ends.
Qed.

Lemma event_spec k w c cfg ev d n : ok_at k w c cfg ->
  yields (esp_websocket_client_dispatch_event ev d n w) (fin k w c (rx_is (rx_view c))).
Proof. intros H. unfold esp_websocket_client_dispatch_event. apply st_reads. eapply dispatch_spec; [exact H|lia]. Qed.

Abbreviation disp := esp_websocket_client_dispatch_event.

Lemma client_error_spec k w c cfg r : ok_at k w c cfg ->
  yields (esp_websocket_client_error disp r w) (fin k w c (rx_is (rx_view c))).
Proof. intros H. eapply (ws_error_spec disp (length (w_reactions w))); [|exact H|done]. intros; by eapply event_spec. Qed.

Lemma abort_connection_spec k w c cfg e : ok_at k w c cfg -> is_Some (ws_transport c) ->
  yields (esp_websocket_client_abort_connection disp e w) (fin k w c (rx_is (rx_view c))).
Proof. intros H Ht. eapply (abort_spec disp (length (w_reactions w))); [|exact H|done|done]. intros; by eapply event_spec. Qed.

Lemma send_now_spec k w c cfg locked op data len : ok_at k w c cfg -> is_Some (ws_transport c) ->
  Z.to_nat len <= length (default [] data) ->
  yields (send_locked disp locked op data len w) (fin k w c (rx_is (rx_view c))).
Proof.
  intros H Ht Hl. eapply (send_locked_spec disp (length (w_reactions w))); [|exact H|done|done|done].
  intros; by eapply event_spec.
Qed.

Lemma send_spec k w c cfg locked op data len : ok_at k w c cfg ->
  match data with Some d => Z.to_nat len <= length d | None => True end ->
  yields (esp_websocket_client_send_with_exact_opcode disp locked op data len w) (fin k w c (rx_is (rx_view c))).
Proof.
  intros H Hd. eapply (send_exact_spec disp (length (w_reactions w))); [|exact H|done|done].
  intros; by eapply event_spec.
Qed.

Lemma close_body_ok code data len : (2 <= len)%Z -> Z.to_nat (len - 2) <= length (default [] data) ->
  yields (close_body code data len) (fun b => length b = Z.to_nat len).
Proof.
  intros Hl Hd. unfold close_body. rewrite rd_bytes_ok by (cbn; lia). cbn [mbind outcome_bind].
  set (b0 := replicate (Z.to_nat len) 0%Z). assert (Hb0 : length b0 = Z.to_nat len) by apply length_replicate.
  rewrite wr_bytes_ok by (cbn; lia). cbn [mbind outcome_bind]. rewrite drop_0, take_0. cbn [app length Nat.add].
  rewrite wr_bytes_ok; cbn [yields]; repeat rewrite ?length_app, ?length_take, ?length_drop; cbn [length]; rewrite ?length_drop; lia.
Qed.

Lemma send_close_spec k w c cfg code data len : ok_at k w c cfg -> Z.to_nat (len - 2) <= length (default [] data) ->
  yields (esp_websocket_client_send_close code data len w) (fin k w c (rx_is (rx_view c))).
Proof.
  intros H Hd. unfold esp_websocket_client_send_close, esp_websocket_client_send_with_opcode. case_on_goal; bsimp.
  - eapply st_seq; [by eapply new_block_spec|]. intros b w1 (Hb & H1 & K1). cbn [fst snd] in *.
    eapply ends_from; [exact K1| |done]. destruct Hb as [-> |[-> _]]; cbn [opt_block] in H1.
    + eapply st_asks_spec; [by apply close_body_ok|]. intros body _ Hbody. cbn beta in Hbody.
      eapply ends_bind; [eapply send_spec; [exact H1|lia]|]. intros ret w2 c2 cfg2 H2 K2 <-.
      eapply (ends_bind nf base k k); [eapply w_free; [exact H2|lia]|].
      intros [] w3 c3 cfg3 H3 K3 ->. by eapply w_ends.
    + eapply w_ends; [|done]. by rewrite Z.add_0_r in H1.
  - by eapply send_spec.
Qed.

(** ** Receiving *)

(** An answer of the transport is used up. *)
Lemma reads_at k w c cfg r l : ok_at k w c cfg -> w_reads w = r :: l ->
  ok_at k (set_w_reads w l) c cfg /\ ws_keeps w (set_w_reads w l) c c.
Proof.
  intros [Hc Hok Hf Hh Hb] E. rewrite E in Hf. apply Forall_cons in Hf as [_ Hf]. split; [by split|]. split; try done.
  cbn. rewrite E. cbn. lia.
Qed.

(** A part of a frame is in the buffer. *)
Definition part_read (c : ws_client) (rx : list Z) (plen : nat) (fn : bool) (op : Z) : ws_client :=
  set_ws_last_opcode (set_ws_last_fin (set_ws_payload_len (set_ws_rx_buffer c (Some rx)) plen) fn) op.

Lemma part_read_at k w c cfg rx rx1 plen fn op : ok_at k w c cfg -> ws_rx_buffer c = Some rx -> length rx1 = ws_buffer_size c ->
  let c2 := part_read c rx1 plen fn op in
  ok_at k (set_w_client w (Some c2)) c2 cfg /\ ws_keeps w (set_w_client w (Some c2)) c c2.
Proof.
  intros H Hrx Hl c2. pose proof (at_is_ok _ _ _ _ H) as []. split; [|by split].
  eapply (at_upd nf base k); [exact H|by split|done|]. unfold client_blocks, c2. cbn. rewrite Hrx. cbn. lia.
Qed.

(** One answer of the transport: at most a buffer. *)
Lemma read_spec k w c cfg : ok_at k w c cfg -> is_Some (ws_transport c) ->
  yields (esp_transport_read (ws_transport c) (ws_buffer_size c) w) (fin k w c (fun r w' c' => c' = c
    /\ frame_fits (ws_buffer_size c) r
    /\ match r with
       | ReadError e => (e < 0)%Z
       | ReadData bytes _ _ _ => length bytes <= ws_buffer_size c /\ S (length (w_reads w')) = length (w_reads w)
       end)).
Proof.
  intros H Ht. eapply w_use_own; [exact H|done|]. intros i _. unfold next.
  pose proof (at_fits _ _ _ _ _ _ _ H) as Hfits. destruct (w_reads w) as [|r l] eqn:E.
  - unfold mbind, ST_bind, mret, ST_ret. rewrite E. cbn [yields]. eapply ends_here; [exact H|]. split_and!; [done|done|lia].
  - apply Forall_cons in Hfits as [Hr Hl]. unfold mbind, ST_bind, mret, ST_ret. rewrite E. cbn [yields].
    destruct (reads_at k w c cfg r l H E) as [H1 K1]. exists c, cfg. split; [done|]. split; [done|]. cbn [fst snd]. split; [done|].
    destruct r as [e|bytes plen f op]; cbn; [split; [done|lia]|].
    split; [done|]. rewrite length_take. lia.
Qed.

(** What the last part of a frame leaves for [frame_received]. *)
Definition received_ok (c : ws_client) : Prop := is_Some (ws_rx_buffer c)
  /\ (ws_last_opcode c = WS_TRANSPORT_OPCODES_PING -> ws_payload_len c <= ws_buffer_size c)
  /\ (ws_last_opcode c = WS_TRANSPORT_OPCODES_CLOSE -> 2 <= ws_payload_len c -> 2 <= ws_buffer_size c).

Lemma recv_loop_spec fuel : forall k w c cfg, ok_at k w c cfg -> length (w_reads w) < fuel -> is_Some (ws_transport c) ->
  is_Some (ws_rx_buffer c) ->
  yields (recv_loop fuel w) (fin k w c (fun r _ c' => r = None -> received_ok c')).
Proof.
  induction fuel as [|fuel IH]; intros k w c cfg H Hf Ht [rx Hrx]; [lia|]. cbn [recv_loop].
  eapply w_get; [exact H|]. eapply st_asks; [by rewrite Hrx|].
  eapply ends_bind; [by eapply read_spec|]. intros r w1 c1 cfg1 H1 K1 (-> & Hfit & Hr).
  pose proof (ok_rx _ _ _ _ (at_is_ok _ _ _ _ H1)) as Hl. rewrite Hrx in Hl. cbn in Hl.
  destruct r as [e|bytes plen fn op].
  - eapply ends_bind; [by eapply free_rx_spec|]. intros [] w2 c2 cfg2 H2 K2 _.
    eapply ends_bind; [by eapply client_error_spec|]. intros e' w3 c3 cfg3 H3 K3 _. by eapply w_ends.
  - destruct Hr as [Hb Hreads]. eapply st_asks; [apply wr_bytes_ok; lia|]. cbn [Nat.add].
    set (rx1 := take 0 rx ++ bytes ++ drop (length bytes) rx).
    assert (Hrx1 : length rx1 = ws_buffer_size c) by (unfold rx1; rewrite !length_app, length_take, length_drop; lia).
    eapply w_upd; [exact H1|]. destruct (part_read_at k w1 c cfg1 rx rx1 plen fn op H1 Hrx Hrx1) as [H2 K2].
    eapply ends_from; [exact K2| |done]. fold (part_read c rx1 plen fn op). set (c2 := part_read c rx1 plen fn op) in *.
    set (w2 := set_w_client w1 (Some c2)) in *.
    case_on_goal.
    + eapply ends_bind; [by eapply free_rx_spec|]. intros [] w3 c3 cfg3 H3 K3 _. by eapply w_ends.
    + eapply ends_bind; [by eapply event_spec|]. intros e w3 c3 cfg3 H3 K3 Hv.
      pose proof (kp_reads _ _ _ _ K3) as R3. pose proof (kp_size _ _ _ _ K3) as S3. pose proof (kp_transport _ _ _ _ K3) as T3.
      injection Hv as Ev1 Ev2 Ev3 Ev4 Ev5. eapply w_get; [exact H3|]. destruct (aborted (ws_state c3)).
      * eapply ends_bind; [by eapply free_rx_spec|]. intros [] w4 c4 cfg4 H4 K4 _. by eapply w_ends.
      * eapply w_quiet; [exact H3|done|done|apply (ok_state _ _ _ _ (at_is_ok _ _ _ _ H3))|].
        intros w4 -> H4 K4. eapply w_get; [exact H4|]. case_on_goal.
        -- eapply IH; [exact H4| |cbn; by rewrite T3|cbn; by rewrite Ev1]. cbn. cbn in R3. lia.
        -- eapply w_ends; [exact H4|]. intros _. unfold received_ok. cbn. rewrite Ev1, Ev2, Ev3, S3.
           destruct Hfit as [Hp Hc]. split; [done|]. split; auto.
Qed.

Lemma frame_received_spec k w c cfg : ok_at k w c cfg -> is_Some (ws_transport c) -> received_ok c ->
  yields (frame_received w) (fin k w c (fun _ _ _ => True)).
Proof.
  intros H Ht ([rx Hrx] & Hping & Hclose). unfold frame_received. eapply w_get; [exact H|].
  pose proof (ok_rx _ _ _ _ (at_is_ok _ _ _ _ H)) as Hl. rewrite Hrx in Hl. cbn in Hl.
  pose proof (ok_state _ _ _ _ (at_is_ok _ _ _ _ H)) as Hst. case_on_goal; bsimp.
  - eapply (st_seq _ _ _ (fun r => snd r = w)).
    + case_on_goal; [done|]. eapply st_asks; [by rewrite Hrx|]. unfold asks. rewrite rd_bytes_ok; [done|]. specialize (Hping Heqb). lia.
    + intros data w1 E. cbn [snd] in E. subst w1. eapply ends_bind; [by eapply send_raw_spec|].
      intros n w1 c1 cfg1 H1 K1 _. by eapply w_ends.
  - case_on_goal; [by eapply w_quiet_last|]. case_on_goal; bsimp; [|by eapply w_ends].
    eapply w_quiet; [exact H|done|done|done|]. intros w1 _ H1 K1.
    eapply (ends_bind nf base k k _ _ (fun _ _ c' => is_Some (ws_transport c'))).
    + case_on_goal; [|by eapply w_ends]. bsimp. cbn in *. specialize (Hclose Heqb1 Heqb2).
      eapply st_asks; [by rewrite Hrx|]. eapply st_asks_spec; [apply rd_yields; lia|]. intros hi _ _.
      eapply st_asks_spec; [apply rd_yields; lia|]. intros lo _ _. by eapply w_quiet_last.
    + intros [] w2 c2 cfg2 H2 K2 Ht2. by eapply w_quiet_last.
Qed.

Lemma recv_spec k w c cfg : ok_at k w c cfg -> is_Some (ws_transport c) ->
  yields (esp_websocket_client_recv w) (fin k w c (fun _ _ _ => True)).
Proof.
  intros H Ht. unfold esp_websocket_client_recv.
  eapply w_quiet; [exact H|done|done|apply (ok_state _ _ _ _ (at_is_ok _ _ _ _ H))|]. intros w1 _ H1 K1.
  eapply ends_bind; [by eapply new_rx_spec|]. intros e w2 c2 cfg2 H2 K2 ([Et _]%same_rx & Hrx & _).
  case_decide as He; [by eapply w_ends|]. apply st_reads.
  eapply ends_bind; [eapply recv_loop_spec; [exact H2|lia|by rewrite Et|]|].
  { apply Hrx. destruct (decide (e = ESP_OK)); [done|]. by destruct He. }
  intros r w3 c3 cfg3 H3 K3 Hrec. destruct r as [e'|]; [by eapply w_ends|].
  eapply ends_bind; [eapply frame_received_spec; [exact H3| |by apply Hrec]|].
  { by rewrite (kp_transport _ _ _ _ K3), Et. }
  intros [] w4 c4 cfg4 H4 K4 _. eapply ends_bind; [by eapply free_rx_spec|].
  intros [] w5 c5 cfg5 H5 K5 _. by eapply w_ends.
Qed.

End Safe.
