(* ===== verification/WsConfigProofs.v ===== *)
(** The configuration of the websocket client: what setting a URI does to it, and that
    the copies of the application's strings are never lost or freed twice.

    These functions also run on a client that is still being made, so their
    invariant asks only for the configuration and the count of blocks. *)
From S2P Require Import Prelude Heap State WsData Ws WsConfig WsProofs WsSafe.

(** What the client relies on: [http_parser_parse_url] reports parts of the string it
    was given, and [esp_transport_list_get_transport] finds a transport of the list by its
    tag, whatever the case of its letters. *)
Class ws_laws {externals : ws_externals} := {
  url_in_range : forall uri u, http_parser_parse_url uri = Some u ->
    Forall (fun f => fst f + snd f <= length uri)
      [uf_schema u; uf_host u; uf_port u; uf_path u; uf_query u; uf_userinfo u];
  list_get_in : forall l s i, transport_list_get l s = Some i -> i ∈ map snd l;
  list_get_tag : forall l s tag i, strcaseeq s tag = true -> base.NoDup (map snd l) -> (tag, i) ∈ l ->
    (forall tag' j, (tag', j) ∈ l -> strcaseeq s tag' = true -> j = i) -> transport_list_get l s = Some i;
}.

Section Config.
Context {options : ws_options} {externals : ws_externals} (nf : bool) (base : Z).

Record cfg_at (k : Z) (w : ws_world) (c : ws_client) (cfg : websocket_config_storage_t) : Prop := {
  ca_client : w_client w = Some c;
  ca_config : ws_config c = Some cfg;
  ca_heap : balanced nf base k w;
}.

(** The world in which only the heap and the configuration are new. *)
Definition with_cfg (w : ws_world) (c : ws_client) (h : heap) (cfg : websocket_config_storage_t) : ws_world :=
  set_w_client (set_w_heap w h) (Some (set_ws_config c (Some cfg))).

(** The step ends there, with the external transport as it was. *)
Definition cends {A} (k : Z) (w : ws_world) (c : ws_client) (cfg : websocket_config_storage_t)
    (P : A -> websocket_config_storage_t -> Prop) (r : A * ws_world) : Prop :=
  exists h cfg', snd r = with_cfg w c h cfg' /\ cfg_at k (snd r) (set_ws_config c (Some cfg')) cfg'
    /\ fixed cfg' = fixed cfg /\ P (fst r) cfg'.

Lemma cfg_at_heap k w c cfg : cfg_at k w c cfg -> w = with_cfg w c (w_heap w) cfg /\ c = set_ws_config c (Some cfg).
Proof.
  intros [Hc Hcfg _]. assert (E : c = set_ws_config c (Some cfg)) by (destruct c; cbn in *; by rewrite Hcfg).
  split; [|done]. unfold with_cfg. rewrite <- E. destruct w; cbn in *. by rewrite Hc.
Qed.

Lemma cends_ret {A} k w c cfg (a : A) (P : A -> websocket_config_storage_t -> Prop) : cfg_at k w c cfg -> P a cfg ->
  yields ((mret a : W A) w) (cends k w c cfg P).
Proof.
  intros H HP. destruct (cfg_at_heap _ _ _ _ H) as [E1 E2]. exists (w_heap w), cfg. cbn [fst snd]. rewrite <- E2. done.
Qed.

Lemma cends_from {A} k w c cfg h cfg1 (P : A -> websocket_config_storage_t -> Prop) m :
  fixed cfg1 = fixed cfg ->
  yields m (cends k (with_cfg w c h cfg1) (set_ws_config c (Some cfg1)) cfg1 P) -> yields m (cends k w c cfg P).
Proof.
  intros He Hm. eapply yields_mono; [exact Hm|]. intros r (h' & cfg' & E & H & He' & HP). exists h', cfg'.
  split_and!; [by rewrite E|exact H|congruence|done].
Qed.

Lemma cends_bind {A B} k k1 w c cfg (P : A -> websocket_config_storage_t -> Prop)
    (Q : B -> websocket_config_storage_t -> Prop) (m : W A) (f : A -> W B) :
  yields (m w) (cends k1 w c cfg P) ->
  (forall a w1 c1 cfg1, cfg_at k1 w1 c1 cfg1 -> P a cfg1 -> yields (f a w1) (cends k w1 c1 cfg1 Q)) ->
  yields ((m ≫= f) w) (cends k w c cfg Q).
Proof.
  intros Hm Hf. eapply st_seq; [exact Hm|]. intros a w1 (h & cfg1 & E & H & He & HP). cbn [fst snd] in *. subst w1.
  eapply cends_from; [exact He|]. by apply Hf.
Qed.

Lemma cends_mono {A} k w c cfg (P Q : A -> websocket_config_storage_t -> Prop) m : yields m (cends k w c cfg P) ->
  (forall a cfg', P a cfg' -> Q a cfg') -> yields m (cends k w c cfg Q).
Proof.
  intros Hm HPQ. eapply yields_mono; [exact Hm|]. intros r (h & cfg' & ? & ? & ? & ?). exists h, cfg'. auto.
Qed.

(** Blocks that are lost; only when an allocation failed. *)
Lemma balanced_lose k k' w : balanced nf base k' w -> nf = false -> (k <= k')%Z -> balanced nf base k w.
Proof.
  intros (Hn & leak & H0 & Hl & Hlive) Hnf Hk. split; [done|]. exists (leak + (k' - k))%Z. split_and!; [lia| |lia].
  intros. congruence.
Qed.

Lemma cends_lose {A} k k' w c cfg (P : A -> websocket_config_storage_t -> Prop) m : nf = false -> (k <= k')%Z ->
  yields m (cends k' w c cfg P) -> yields m (cends k w c cfg P).
Proof.
  intros Hnf Hk Hm. eapply yields_mono; [exact Hm|]. intros r (h & cfg' & E & [H1 H2 H3] & He & HP). exists h, cfg'.
  split_and!; try done. split; try done. by eapply balanced_lose.
Qed.

(** ** Steps *)

Lemma c_get_cfg {B} k w c cfg (f : websocket_config_storage_t -> W B) Q : cfg_at k w c cfg ->
  yields (f cfg w) Q -> yields ((get_cfg ≫= f) w) Q.
Proof.
  intros [Hc Hcfg _] Hf. unfold get_cfg, get. apply st_assoc. eapply st_asks; [by rewrite Hc|].
  eapply st_asks; [by rewrite Hcfg|done].
Qed.

Lemma c_upd_cfg k k' w c cfg g : cfg_at k w c cfg -> fixed (g cfg) = fixed cfg ->
  (k' = k + config_blocks cfg - config_blocks (g cfg))%Z ->
  yields (upd_cfg g w) (cends k' w c cfg (fun _ cfg' => cfg' = g cfg)).
Proof.
  intros H He ->. unfold upd_cfg. eapply c_get_cfg; [exact H|]. destruct H as [Hc Hcfg (Hn & leak & H0 & Hl & Hlive)].
  unfold upd, get. eapply st_asks; [by rewrite Hc|]. unfold writes. cbn [yields]. exists (w_heap w), (g cfg). cbn [fst snd].
  split; [by destruct w|]. split; [|done]. split; try done. split; [done|]. exists leak. split_and!; try done.
  rewrite Hc in Hlive. cbn [w_heap set_w_client w_client blocks_of] in *. unfold client_blocks in *. cbn.
  rewrite Hcfg in Hlive. cbn in Hlive. lia.
Qed.

Lemma cfg_at_with k k' w c cfg h : cfg_at k w c cfg -> balanced nf base k' (set_w_heap w h) ->
  set_w_heap w h = with_cfg w c h cfg /\ cfg_at k' (set_w_heap w h) (set_ws_config c (Some cfg)) cfg.
Proof.
  intros H Hb. destruct (cfg_at_heap _ _ _ _ H) as [_ E]. pose proof H as [Hc Hcfg _]. unfold with_cfg. rewrite <- E. split.
  - destruct w; cbn in *. by rewrite Hc.
  - by split.
Qed.

Lemma c_free k k' w c cfg n : cfg_at k w c cfg -> k' = (k - n)%Z ->
  yields (alloc (mfree n) w) (cends k' w c cfg (fun _ cfg' => cfg' = cfg)).
Proof.
  intros H ->. pose proof (ca_heap _ _ _ _ H) as (Hn & leak & H0 & Hl & Hlive). cbn.
  destruct (cfg_at_with k (k - n) w c cfg (mk_heap (fails (w_heap w)) (live (w_heap w) - n)) H) as [E H1].
  { split; [done|]. exists leak. cbn. split_and!; try done. lia. }
  exists (mk_heap (fails (w_heap w)) (live (w_heap w) - n)), cfg. done.
Qed.

Lemma c_new {A} k w c cfg (a : A) : cfg_at k w c cfg ->
  yields (new_block a w) (fun r => (fst r = Some a \/ fst r = None /\ nf = false)
    /\ yields (Ret r) (cends (k + opt_block (fst r)) w c cfg (fun _ cfg' => cfg' = cfg))).
Proof.
  intros H. pose proof (ca_heap _ _ _ _ H) as (Hn & leak & H0 & Hl & Hlive).
  assert (Hgo : forall ok h, (nf = true -> never_fails h /\ ok = true) -> live h = (live (w_heap w) + flag ok)%Z ->
    (when_ok a ok = Some a \/ when_ok a ok = None /\ nf = false)
    /\ cends (k + opt_block (when_ok a ok)) w c cfg (fun _ cfg' => cfg' = cfg) (when_ok a ok, set_w_heap w h)).
  { intros ok h Hok Hlh. destruct (cfg_at_with k (k + flag ok) w c cfg h H) as [E H1].
    { split; [by intros [? _]%Hok|]. exists leak. cbn. split_and!; try done. rewrite Hlh. lia. }
    split.
    - destruct ok; [by left|]. right. split; [done|]. apply nf_failed. by intros [_ ?]%Hok.
    - exists h, cfg. destruct ok; done. }
  unfold new_block, mbind, ST_bind, alloc, malloc. cbn [heap_of ws_world_heap].
  destruct (fails (w_heap w)) as [|[] f] eqn:Ef; cbn [yields mret ST_ret]; apply Hgo; cbn [live]; try done.
  - intros Hnf%Hn. unfold never_fails in Hnf. congruence.
  - cbn. lia.
  - intros Hnf%Hn. unfold never_fails in Hnf. congruence.
Qed.

(** ** Strings *)

(** [fld] and [put] read and write one string of the configuration. *)
Record str_field (fld : websocket_config_storage_t -> option cstr)
    (put : websocket_config_storage_t -> option cstr -> websocket_config_storage_t) : Prop := {
  sf_blocks : forall cfg p, config_blocks (put cfg p) = (config_blocks cfg - opt_block (fld cfg) + opt_block p)%Z;
  sf_ext : forall cfg p, fixed (put cfg p) = fixed cfg;
}.

Lemma replace_str_spec fld put k w c cfg s : str_field fld put -> cfg_at k w c cfg ->
  yields (replace_str fld put s w) (cends k w c cfg (fun ok cfg' =>
    ok = true /\ cfg' = put cfg (Some s) \/ ok = false /\ nf = false)).
Proof.
  intros [Hb He] H. unfold replace_str. eapply c_get_cfg; [exact H|].
  eapply (cends_bind k (k - opt_block (fld cfg))); [by eapply c_free|]. intros [] w1 c1 cfg1 H1 ->.
  eapply st_seq; [by eapply c_new|]. intros p w2 [Hp Hc]. cbn [fst snd] in *.
  destruct Hc as (h & cfg2 & E & H2 & _ & ->). cbn [fst snd] in *. subst. eapply cends_from; [done|].
  eapply cends_bind.
  - eapply (c_upd_cfg _ k); [exact H2|by rewrite He|]. rewrite Hb. lia.
  - intros [] w3 c3 cfg3 H3 ->. eapply cends_ret; [exact H3|]. destruct Hp as [-> |[-> Hnf]]; auto.
Qed.

Lemma str_host : str_field cf_host set_cf_host. Proof. split; intros; [unfold config_blocks; cbn; lia|done]. Qed.
Lemma str_uri : str_field cf_uri set_cf_uri. Proof. split; intros; [unfold config_blocks; cbn; lia|done]. Qed.
Lemma str_path : str_field cf_path set_cf_path. Proof. split; intros; [unfold config_blocks; cbn; lia|done]. Qed.
Lemma str_scheme : str_field cf_scheme set_cf_scheme. Proof. split; intros; [unfold config_blocks; cbn; lia|done]. Qed.
Lemma str_username : str_field cf_username set_cf_username. Proof. split; intros; [unfold config_blocks; cbn; lia|done]. Qed.
Lemma str_password : str_field cf_password set_cf_password. Proof. split; intros; [unfold config_blocks; cbn; lia|done]. Qed.
Lemma str_auth : str_field cf_auth set_cf_auth. Proof. split; intros; [unfold config_blocks; cbn; lia|done]. Qed.
Lemma str_subprotocol : str_field cf_subprotocol set_cf_subprotocol. Proof. split; intros; [unfold config_blocks; cbn; lia|done]. Qed.
Lemma str_user_agent : str_field cf_user_agent set_cf_user_agent. Proof. split; intros; [unfold config_blocks; cbn; lia|done]. Qed.
Lemma str_headers : str_field cf_headers set_cf_headers. Proof. split; intros; [unfold config_blocks; cbn; lia|done]. Qed.

(** ** The URI *)

(** A part of the URI as the parser reports it. *)
Definition part (uri : cstr) (f : nat * nat) : cstr := take (snd f) (drop (fst f) uri).

(** The configuration after a URI was set. *)
Definition with_part (uri : cstr) (f : nat * nat) (put : websocket_config_storage_t -> option cstr -> websocket_config_storage_t)
    (cfg : websocket_config_storage_t) : websocket_config_storage_t :=
  if snd f =? 0 then cfg else put cfg (Some (part uri f)).

Definition uri_path (uri : cstr) (u : http_parser_url) : cstr :=
  (if (snd (uf_path u) =? 0) && negb (snd (uf_query u) =? 0) then str "/" else part uri (uf_path u))
  ++ (if snd (uf_query u) =? 0 then [] else str "?" ++ part uri (uf_query u)).

Definition with_userinfo (info : cstr) (cfg : websocket_config_storage_t) : websocket_config_storage_t :=
  let '(user, pass) := split_colon info in
  set_cf_username (match pass with Some p => set_cf_password cfg (Some p) | None => cfg end) (Some user).

Definition with_uri (uri : cstr) (u : http_parser_url) (cfg : websocket_config_storage_t) : websocket_config_storage_t :=
  let cfg := with_part uri (uf_host u) set_cf_host (with_part uri (uf_schema u) set_cf_scheme cfg) in
  let cfg := if (snd (uf_path u) =? 0) && (snd (uf_query u) =? 0) then cfg else set_cf_path cfg (Some (uri_path uri u)) in
  let cfg := if fst (uf_port u) =? 0 then cfg else set_cf_port cfg (fst (strtol (drop (fst (uf_port u)) uri))) in
  if snd (uf_userinfo u) =? 0 then cfg else with_userinfo (part uri (uf_userinfo u)) cfg.

Lemma url_part_ok uri f : fst f + snd f <= length uri -> url_part uri f = Ret (part uri f).
Proof. intros Hf. unfold url_part. by rewrite rd_bytes_ok. Qed.

Lemma replace_part_spec fld put k w c cfg uri f : str_field fld put -> cfg_at k w c cfg -> fst f + snd f <= length uri ->
  yields (replace_part uri f fld put w) (cends k w c cfg (fun ok cfg' =>
    ok = true /\ cfg' = with_part uri f put cfg \/ ok = false /\ nf = false)).
Proof.
  intros Hsf H Hf. unfold replace_part, with_part. case_on_goal; [eapply cends_ret; [exact H|auto]|].
  eapply st_asks; [by apply url_part_ok|]. by apply replace_str_spec.
Qed.

Lemma url_path_ok uri u : fst (uf_path u) + snd (uf_path u) <= length uri ->
  fst (uf_query u) + snd (uf_query u) <= length uri ->
  (snd (uf_path u) =? 0) && (snd (uf_query u) =? 0) = false -> url_path uri u = Ret (uri_path uri u).
Proof.
  intros Hp Hq Hne. unfold url_path, uri_path. rewrite !url_part_ok by done.
  destruct (snd (uf_query u) =? 0), (snd (uf_path u) =? 0); cbn [andb negb mbind outcome_bind] in *; try done.
  by rewrite app_nil_r.
Qed.

(** A result that is not about memory cannot fail for want of it. *)
Definition no_mem (e : ws_err) : Prop := e = ESP_ERR_NO_MEM /\ nf = false.

Lemma set_userinfo_spec k w c cfg info : cfg_at k w c cfg ->
  yields (set_userinfo info w) (cends k w c cfg (fun e cfg' => e = ESP_OK /\ cfg' = with_userinfo info cfg \/ no_mem e)).
Proof.
  intros H. unfold set_userinfo. eapply st_seq; [by eapply c_new|]. intros b w1 [Hb Hc]. cbn [fst snd] in *.
  destruct Hc as (h & cfg1 & E & H1 & _ & ->). cbn [fst snd] in *. subst. eapply cends_from; [done|].
  destruct Hb as [-> |[-> Hnf]]; [|rewrite Z.add_0_r in H1; eapply cends_ret; [exact H1|right; done]].
  unfold with_userinfo. destruct (split_colon info) as [user pass]. cbn [opt_block] in H1.
  eapply (cends_bind k (k + 1) _ _ _ (fun ok cfg' => ok = true /\
     cfg' = match pass with Some p => set_cf_password cfg (Some p) | None => cfg end \/ ok = false /\ nf = false)).
  - destruct pass as [p|]; [by apply (replace_str_spec _ _ _ _ _ _ _ str_password)|]. eapply cends_ret; [exact H1|auto].
  - intros ok w2 c2 cfg2 H2 [[-> ->]|[-> Hnf]]; cbn [negb].
    + eapply cends_bind; [by apply (replace_str_spec _ _ _ _ _ _ _ str_username)|].
      intros ok w3 c3 cfg3 H3 [[-> ->]|[-> Hnf]]; cbn [negb].
      * eapply cends_bind; [eapply (c_free _ k); [exact H3|lia]|]. intros [] w4 c4 cfg4 H4 ->.
        eapply cends_ret; [exact H4|auto].
      * eapply (cends_lose k (k + 1)); [done|lia|]. eapply cends_ret; [exact H3|right; done].
    + eapply (cends_lose k (k + 1)); [done|lia|]. eapply cends_ret; [exact H2|right; done].
Qed.

(** ** Copies of the application's strings *)

(** A step that changes the configuration as [g] says, or runs out of memory. *)
Definition updates (m : W bool) (g : websocket_config_storage_t -> websocket_config_storage_t) : Prop :=
  forall k w c cfg, cfg_at k w c cfg ->
    yields (m w) (cends k w c cfg (fun ok cfg' => ok = true /\ cfg' = g cfg \/ ok = false /\ nf = false)).

Definition with_str (s : option cstr) (put : websocket_config_storage_t -> option cstr -> websocket_config_storage_t)
    (cfg : websocket_config_storage_t) : websocket_config_storage_t :=
  match s with None => cfg | Some s => put cfg (Some s) end.

Lemma copy_str_updates fld put s : str_field fld put -> updates (copy_str s fld put) (with_str s put).
Proof.
  intros Hsf k w c cfg H. unfold copy_str, with_str. destruct s; [by apply replace_str_spec|]. eapply cends_ret; [exact H|auto].
Qed.

Lemma copy_host_updates s : updates (copy_host s) (with_str s set_cf_host).
Proof.
  intros k w c cfg H. unfold copy_host, with_str. destruct s as [s|]; [|eapply cends_ret; [exact H|auto]].
  eapply st_seq; [by eapply c_new|]. intros p w1 [Hp Hc]. cbn [fst snd] in *.
  destruct Hc as (h & cfg1 & E & H1 & _ & ->). cbn [fst snd] in *. subst. eapply cends_from; [done|].
  destruct Hp as [-> |[-> Hnf]]; [|rewrite Z.add_0_r in H1; eapply cends_ret; [exact H1|auto]].
  cbn [opt_block] in H1. eapply c_get_cfg; [exact H1|].
  eapply cends_bind; [eapply (c_free _ (k + 1 - opt_block (cf_host cfg))); [exact H1|done]|]. intros [] w2 c2 cfg2 H2 ->.
  eapply cends_bind; [eapply (c_upd_cfg _ k); [exact H2|done|]|].
  { rewrite (sf_blocks _ _ str_host). cbn. lia. }
  intros [] w3 c3 cfg3 H3 ->. eapply cends_ret; [exact H3|auto].
Qed.

Definition basic_auth (user pass : cstr) : cstr := WS_HTTP_BASIC_AUTH ++ base64_encode (user ++ str ":" ++ pass).

Definition with_auth (cfg : websocket_config_storage_t) : websocket_config_storage_t :=
  match cf_username cfg, cf_password cfg with
  | Some user, Some pass => set_cf_auth cfg (Some (basic_auth user pass))
  | _, _ => cfg
  end.

Lemma http_auth_spec k w c cfg user pass : cfg_at k w c cfg ->
  yields (http_auth_basic user pass w) (fun r => (fst r = Some (basic_auth user pass) \/ fst r = None /\ nf = false)
    /\ yields (Ret r) (cends (k + opt_block (fst r)) w c cfg (fun _ cfg' => cfg' = cfg))).
Proof.
  intros H. unfold http_auth_basic. eapply st_seq; [by eapply c_new|]. intros i w1 [Hi Hc]. cbn [fst snd] in *.
  destruct Hc as (h & cfg1 & E & H1 & _ & ->). cbn [fst snd] in *. subst.
  destruct Hi as [-> |[-> Hnf]]; cbn [opt_block] in H1.
  2:{ cbn [yields mret ST_ret fst snd]. split; [by right|]. by exists h, cfg. }
  eapply st_seq; [by eapply c_new|]. intros d w2 [Hd Hc]. cbn [fst snd] in *.
  destruct Hc as (h2 & cfg2 & E & H2 & _ & ->). cbn [fst snd] in *. subst.
  eapply st_seq; [eapply (c_free _ (k + opt_block d)); [exact H2|lia]|]. intros [] w3 (h3 & cfg3 & E & H3 & _ & ->).
  cbn [fst snd] in *. subst. cbn [yields mret ST_ret fst snd]. split; [|by exists h3, cfg].
  destruct Hd as [-> |[-> ?]]; [left; done|by right].
Qed.

Lemma set_auth_updates : updates set_auth with_auth.
Proof.
  intros k w c cfg H. unfold set_auth, with_auth. eapply c_get_cfg; [exact H|].
  destruct (cf_username cfg) as [user|]; [|eapply cends_ret; [exact H|auto]].
  destruct (cf_password cfg) as [pass|]; [|eapply cends_ret; [exact H|auto]].
  eapply (cends_bind k (k - opt_block (cf_auth cfg))); [by eapply c_free|]. intros [] w1 c1 cfg1 H1 ->.
  eapply st_seq; [by eapply http_auth_spec|]. intros a w2 [Ha Hc]. cbn [fst snd] in *.
  destruct Hc as (h & cfg1 & E & H2 & _ & ->). cbn [fst snd] in *. subst. eapply cends_from; [done|].
  eapply cends_bind; [eapply (c_upd_cfg _ k); [exact H2|done|]|].
  { rewrite (sf_blocks _ _ str_auth). lia. }
  intros [] w3 c3 cfg3 H3 ->. eapply cends_ret; [exact H3|]. destruct Ha as [-> |[-> ?]]; auto.
Qed.

Lemma set_port_updates p :
  updates (_ ← (if (p =? 0)%Z then mret tt else upd_cfg (fun cfg => set_cf_port cfg p)); mret true)
    (fun cfg => if (p =? 0)%Z then cfg else set_cf_port cfg p).
Proof.
  intros k w c cfg H. eapply (cends_bind k k _ _ _ (fun _ cfg' => cfg' = if (p =? 0)%Z then cfg else set_cf_port cfg p)).
  - case_on_goal; [by eapply cends_ret|]. eapply (c_upd_cfg k k); [exact H|done|]. unfold config_blocks. cbn. lia.
  - intros [] w1 c1 cfg1 H1 ->. eapply cends_ret; [exact H1|auto].
Qed.

Lemma all_or_no_mem_spec l gs : Forall2 updates l gs -> forall k w c cfg, cfg_at k w c cfg ->
  yields (all_or_no_mem l w) (cends k w c cfg (fun e cfg' => e = ESP_OK /\ cfg' = foldl (fun cfg g => g cfg) cfg gs \/ no_mem e)).
Proof.
  induction 1 as [|m g l gs Hm _ IH]; intros k w c cfg H; cbn [all_or_no_mem foldl].
  - eapply cends_ret; [exact H|auto].
  - eapply cends_bind; [by apply Hm|]. intros ok w1 c1 cfg1 H1 [[-> ->]|[-> Hnf]]; cbn [negb].
    + by apply IH.
    + eapply cends_ret; [exact H1|]. right. done.
Qed.

Definition with_task (config : esp_websocket_client_config_t) (cfg : websocket_config_storage_t) : websocket_config_storage_t :=
  let cfg := set_cf_task_core_id cfg
    (if uc_task_core_id_set config then uc_task_core_id config else WEBSOCKET_TASK_CORE_ID) in
  let cfg := set_cf_task_prio cfg
    (if (uc_task_prio config <=? 0)%Z then WEBSOCKET_TASK_PRIORITY else uc_task_prio config) in
  let cfg := set_cf_task_name cfg (uc_task_name config) in
  set_cf_task_stack cfg (if (uc_task_stack config =? 0)%Z then WEBSOCKET_TASK_STACK else uc_task_stack config).

(** The configuration after [esp_websocket_client_set_config]. *)
Definition with_config (config : esp_websocket_client_config_t) (cfg : websocket_config_storage_t) : websocket_config_storage_t :=
  set_intervals config (foldl (fun cfg g => g cfg) (with_task config cfg)
    [with_str (uc_host config) set_cf_host;
     (fun cfg => if (uc_port config =? 0)%Z then cfg else set_cf_port cfg (uc_port config));
     with_str (uc_username config) set_cf_username;
     with_str (uc_password config) set_cf_password;
     with_auth;
     with_str (uc_uri config) set_cf_uri;
     with_str (uc_path config) set_cf_path;
     with_str (uc_subprotocol config) set_cf_subprotocol;
     with_str (uc_user_agent config) set_cf_user_agent;
     with_str (uc_headers config) set_cf_headers]).

Lemma set_config_spec k w c cfg config : cfg_at k w c cfg ->
  yields (esp_websocket_client_set_config config w) (cends k w c cfg (fun e cfg' =>
    e = ESP_OK /\ cfg' = with_config config cfg \/ no_mem e)).
Proof.
  intros H. unfold esp_websocket_client_set_config.
  eapply cends_bind; [eapply (c_upd_cfg k k _ _ _ (with_task config)); [exact H|done|]|].
  { unfold config_blocks. cbn. lia. }
  intros [] w1 c1 cfg1 H1 ->.
  eapply cends_bind.
  - eapply all_or_no_mem_spec; [|exact H1]. repeat apply Forall2_cons_2; [..|apply Forall2_nil_2];
      first [apply copy_host_updates|apply set_port_updates|apply set_auth_updates|apply copy_str_updates].
    + apply str_username. + apply str_password. + apply str_uri. + apply str_path.
    + apply str_subprotocol. + apply str_user_agent. + apply str_headers.
  - intros e w2 c2 cfg2 H2 [[-> ->]|[-> Hnf]]; [|rewrite decide_True by done; eapply cends_ret; [exact H2|right; done]].
    rewrite decide_False by auto. eapply cends_bind; [eapply (c_upd_cfg k k); [exact H2|done|]|].
    { unfold set_intervals, config_blocks. cbn. lia. }
    intros [] w3 c3 cfg3 H3 ->. eapply cends_ret; [exact H3|auto].
Qed.

Context {laws : ws_laws}.

(** The result and the configuration after [esp_websocket_client_set_uri]. *)
Definition uri_result (uri : option cstr) (cfg : websocket_config_storage_t) (e : ws_err)
    (cfg' : websocket_config_storage_t) : Prop :=
  match uri with
  | None => e = ESP_ERR_INVALID_ARG /\ cfg' = cfg
  | Some uri =>
      match http_parser_parse_url uri with
      | None => e = ESP_FAIL /\ cfg' = cfg
      | Some u => e = ESP_OK /\ cfg' = with_uri uri u cfg \/ no_mem e
      end
  end.

Lemma set_uri_spec k w c cfg uri : cfg_at k w c cfg ->
  yields (esp_websocket_client_set_uri uri w) (cends k w c cfg (uri_result uri cfg)).
Proof.
  intros H. unfold esp_websocket_client_set_uri, uri_result. destruct uri as [uri|]; [|by eapply cends_ret].
  destruct (http_parser_parse_url uri) as [u|] eqn:Eu; [|by eapply cends_ret].
  pose proof (url_in_range uri u Eu) as Hr. rewrite !Forall_cons in Hr. destruct Hr as (Hs & Hh & Hp & Hpa & Hq & Hu & _).
  eapply cends_bind; [by apply (replace_part_spec _ _ _ _ _ _ _ _ str_scheme)|].
  intros ok w1 c1 cfg1 H1 [[-> ->]|[-> Hnf]]; cbn [negb]; [|eapply cends_ret; [exact H1|right; done]].
  eapply cends_bind; [by apply (replace_part_spec _ _ _ _ _ _ _ _ str_host)|].
  intros ok w2 c2 cfg2 H2 [[-> ->]|[-> Hnf]]; cbn [negb]; [|eapply cends_ret; [exact H2|right; done]].
  set (cfg2 := with_part uri (uf_host u) _ _) in *.
  eapply (cends_bind k k _ _ _ (fun ok cfg' => ok = true /\
     cfg' = (if (snd (uf_path u) =? 0) && (snd (uf_query u) =? 0) then cfg2 else set_cf_path cfg2 (Some (uri_path uri u)))
     \/ ok = false /\ nf = false)).
  { case_on_goal; [eapply cends_ret; [exact H2|auto]|]. eapply st_asks; [by apply url_path_ok|].
    by apply (replace_str_spec _ _ _ _ _ _ _ str_path). }
  intros ok w3 c3 cfg3 H3 [[-> ->]|[-> Hnf]]; cbn [negb]; [|eapply cends_ret; [exact H3|right; done]].
  set (cfg3 := if _ && _ then cfg2 else _) in *.
  eapply (cends_bind k k _ _ _ (fun _ cfg' =>
     cfg' = if fst (uf_port u) =? 0 then cfg3 else set_cf_port cfg3 (fst (strtol (drop (fst (uf_port u)) uri))))).
  { case_on_goal; [by eapply cends_ret|]. eapply st_asks; [apply rd_bytes_ok; lia|].
    rewrite take_ge by (rewrite length_drop; lia). eapply (c_upd_cfg k k); [exact H3|done|].
    unfold config_blocks. cbn. lia. }
  intros [] w4 c4 cfg4 H4 ->. set (cfg4 := if fst (uf_port u) =? 0 then cfg3 else _) in *.
  case_on_goal.
  - eapply cends_ret; [exact H4|]. left. unfold with_uri. by rewrite Heqb.
  - eapply st_asks; [by apply url_part_ok|]. eapply cends_mono; [by apply set_userinfo_spec|].
    intros e cfg' [[-> ->]|He]; [|by right]. left. unfold with_uri. by rewrite Heqb.
Qed.

End Config.
