(* ===== verification/WsLife.v ===== *)
(** The life of the websocket client: headers, transports, creation and destruction,
    with the blocks each of them owns. *)
From S2P Require Import Prelude Heap State WsData Ws WsConfig WsProofs WsSafe WsConfigProofs.

Section Life.
Context {options : ws_options} {externals : ws_externals} {laws : ws_laws} (nf : bool) (base : Z).

Abbreviation dyn := enable_dynamic_buffer.
Abbreviation ok_at := (ws_at dyn nf base).
Abbreviation fin := (ends nf base).
Abbreviation cfg_ok := (cfg_at nf base).
Abbreviation cfin := (cends nf base).

(** * Configuration of a complete client *)

Lemma at_cfg k w c cfg : ok_at k w c cfg -> cfg_ok k w c cfg.
Proof. intros [Hc Hok _ _ Hb]. split; try done. apply (ok_config _ _ _ _ Hok). Qed.

Lemma with_cfg_at k k' w c cfg h cfg' : ok_at k w c cfg -> fixed cfg' = fixed cfg -> balanced nf base k' (with_cfg w c h cfg') ->
  ok_at k' (with_cfg w c h cfg') (set_ws_config c (Some cfg')) cfg' /\ ws_keeps w (with_cfg w c h cfg') c (set_ws_config c (Some cfg')).
Proof.
  intros [Hc Hok Hf Hh _] [= He Ht] Hb. split; [|by split]. split; try done. destruct Hok. split; try done; by rewrite ?He, ?Ht.
Qed.

(** A step on the configuration, seen from the whole client. *)
Lemma cfg_lift {A} k k' w c cfg (P : A -> websocket_config_storage_t -> Prop) m : ok_at k w c cfg ->
  (cfg_ok k w c cfg -> yields (m w) (cfin k' w c cfg P)) ->
  yields (m w) (fin k' w c (fun a w' c' => rx_view c' = rx_view c /\ ws_state c' = ws_state c
    /\ exists cfg', ws_config c' = Some cfg' /\ P a cfg')).
Proof.
  intros H Hm. eapply yields_mono; [by apply Hm, at_cfg|]. intros r (h & cfg' & E & [_ _ Hb] & He & HP).
  rewrite E in Hb. destruct (with_cfg_at k k' w c cfg h cfg' H He Hb) as [H1 K1]. exists (set_ws_config c (Some cfg')), cfg'.
  rewrite E. split_and!; try done. cbn. by exists cfg'.
Qed.

(** * Headers *)

(** The headers after [esp_websocket_client_append_header]. *)
Definition appended (old : option cstr) (key value : cstr) : cstr :=
  default [] old ++ key ++ str ": " ++ value ++ [13; 10]%Z.

Lemma header_line_length key value n : length (header_line key value (length key + length value + 5 + n)) = length key + length value + 5.
Proof. unfold header_line. rewrite length_app, length_take, !length_app. cbn. lia. Qed.

Lemma header_line_eq key value :
  header_line key value (length key + length value + 5) = (key ++ str ": " ++ value ++ [13; 10]%Z) ++ [0%Z].
Proof. unfold header_line. rewrite take_ge; [done|]. rewrite !length_app. cbn. lia. Qed.

Lemma cstr_of_terminated s r : cstr_ok s -> cstr_of (s ++ 0%Z :: r) = s.
Proof.
  induction 1 as [|b s Hb _ IH]; cbn [app cstr_of]; [done|]. rewrite IH. destruct (Z.eqb_spec b 0); [lia|done].
Qed.

Lemma appended_ok old key value : cstr_ok (default [] old) -> cstr_ok key -> cstr_ok value -> cstr_ok (appended old key value).
Proof.
  intros. unfold appended. rewrite !cstr_ok_app. split_and!; try done; unfold cstr_ok; repeat constructor.
Qed.

(** The header is added, or there is no memory and nothing changes. *)
Definition append_result (key value : cstr) (cfg : websocket_config_storage_t) (e : ws_err)
    (cfg' : websocket_config_storage_t) : Prop :=
  (e = ESP_OK /\ exists s, cfg' = set_cf_headers cfg (Some s)
     /\ (cstr_ok (default [] (cf_headers cfg)) -> cstr_ok key -> cstr_ok value -> s = appended (cf_headers cfg) key value))
  \/ no_mem nf e /\ cfg' = cfg.

Lemma append_header_spec k w c cfg key value : cfg_ok k w c cfg ->
  yields (esp_websocket_client_append_header key value w) (cfin k w c cfg (append_result key value cfg)).
Proof.
  intros H. unfold esp_websocket_client_append_header, append_result, calloc. eapply c_get_cfg; [exact H|].
  pose proof (header_line_length key value 0) as Hl. rewrite Nat.add_0_r in Hl.
  destruct (cf_headers cfg) as [old|] eqn:Eh.
  - eapply st_seq; [by eapply c_new|]. intros b w1 [Hb Hc]. cbn [fst snd] in *.
    destruct Hc as (h & cfg1 & E & H1 & _ & ->). cbn [fst snd] in *. subst. eapply cends_from; [done|].
    destruct Hb as [-> |[-> Hnf]]; [|rewrite Z.add_0_r in H1; eapply cends_ret; [exact H1|right; split; done]].
    set (n := length key + length value + 5) in *.
    eapply st_asks; [apply wr_bytes_ok; rewrite length_app, length_replicate; cbn; lia|]. rewrite take_0. cbn [app].
    set (b1 := (old ++ [0%Z]) ++ _). assert (Hb1 : length b1 = length old + n).
    { unfold b1. rewrite !length_app, length_drop, length_replicate. cbn. lia. }
    eapply st_asks; [apply wr_bytes_ok; lia|]. rewrite Hl.
    replace (drop (length old + n) b1) with (@nil Z) by (symmetry; apply drop_ge; lia).
    assert (Hold : take (length old) b1 = old) by (unfold b1; by rewrite <- app_assoc, take_app_length). rewrite Hold, app_nil_r.
    cbn [opt_block] in H1. rewrite <- Eh.
    eapply cends_bind; [eapply (c_free _ _ _ (k + 1 - opt_block (cf_headers cfg))); [exact H1|done]|]. intros [] w2 c2 cfg2 H2 ->.
    eapply cends_bind; [eapply (c_upd_cfg _ _ _ k); [exact H2|done|rewrite (sf_blocks _ _ str_headers); cbn; lia]|].
    intros [] w3 c3 cfg3 H3 ->. eapply cends_ret; [exact H3|]. left. split; [done|]. eexists. split; [done|].
    intros Ho Hk Hv. unfold n. rewrite header_line_eq, app_assoc. rewrite Eh in Ho |- *. rewrite cstr_of_terminated; [done|].
    by apply (appended_ok (Some old)).
  - eapply st_seq; [by eapply c_new|]. intros b w1 [Hb Hc]. cbn [fst snd] in *.
    destruct Hc as (h & cfg1 & E & H1 & _ & ->). cbn [fst snd] in *. subst. eapply cends_from; [done|].
    destruct Hb as [-> |[-> Hnf]]; [|rewrite Z.add_0_r in H1; eapply cends_ret; [exact H1|right; split; done]].
    eapply st_asks; [apply wr_bytes_ok; rewrite length_replicate; lia|]. rewrite take_0. cbn [app Nat.add]. rewrite Hl.
    rewrite drop_ge, app_nil_r by (rewrite length_replicate; lia). cbn [opt_block] in H1.
    eapply cends_bind; [eapply (c_upd_cfg _ _ _ k); [exact H1|done|rewrite (sf_blocks _ _ str_headers), Eh; cbn; lia]|].
    intros [] w3 c3 cfg3 H3 ->. eapply cends_ret; [exact H3|]. left. split; [done|]. eexists. split; [done|].
    intros Ho Hk Hv. rewrite header_line_eq, cstr_of_terminated; [done|]. by apply (appended_ok None).
Qed.

(** * Transports *)

(** The transports, as steps of the start change them: the client's list and the
    transports that exist grow. *)
Definition add_to (i : tid) (s : transport_setting) (l : list (tid * list transport_setting)) :=
  map (fun x => if decide (fst x = i) then (fst x, snd x ++ [s]) else x) l.

Lemma add_to_keys i s l : map fst (add_to i s l) = map fst l.
Proof. unfold add_to. rewrite map_map. apply map_ext. intros [j t]. cbn [fst]. by case_decide. Qed.

(** A setting that is no port leaves the default ports alone. *)
Definition is_port (s : transport_setting) : bool := match s with SetDefaultPort _ => true | _ => false end.

Definition port_of (i : tid) (l : list (tid * list transport_setting)) : option Z := default_port_of <$> settings_of i l.

Lemma port_of_add i j s l : is_port s = false -> port_of j (add_to i s l) = port_of j l.
Proof.
  intros Hs. unfold port_of, settings_of, add_to. induction l as [|[n t] l IH]; cbn [map List.find fst snd]; [done|].
  destruct (decide (n = i)) as [->|Hn]; cbn [fst].
  - destruct (i =? j); [|done]. cbn [fmap option_fmap option_map snd]. f_equal. unfold default_port_of. rewrite foldl_app. by destruct s.
  - by destruct (n =? j).
Qed.

Lemma port_of_set i p l : i ∈ map fst l -> port_of i (add_to i (SetDefaultPort p) l) = Some p.
Proof.
  unfold port_of, settings_of, add_to. induction l as [|[n t] l IH]; cbn [map List.find fst snd]; [by intros ?%elem_of_nil|].
  intros Hi. destruct (decide (n = i)) as [->|Hn]; cbn [fst].
  - rewrite Nat.eqb_refl. cbn [fmap option_fmap option_map snd]. f_equal. unfold default_port_of. by rewrite foldl_app.
  - rewrite (proj2 (Nat.eqb_neq n i)) by done. apply IH. apply elem_of_cons in Hi as [Hi|Hi]; [congruence|done].
Qed.

Lemma port_of_app i l l' : i ∈ map fst l -> port_of i (l ++ l') = port_of i l.
Proof.
  unfold port_of, settings_of. induction l as [|[n t] l IH]; cbn [map app List.find fst snd]; [by intros ?%elem_of_nil|].
  intros Hi. destruct (Nat.eqb_spec n i) as [->|Hn]; [done|]. apply IH. apply elem_of_cons in Hi as [Hi|Hi]; [congruence|done].
Qed.

(** The transports that exist are the same, with the same default ports. *)
Definition ports_kept (w w' : ws_world) : Prop := keys w' = keys w
  /\ forall i, port_of i (w_transports w') = port_of i (w_transports w).

Lemma ports_kept_trans w1 w2 w3 : ports_kept w1 w2 -> ports_kept w2 w3 -> ports_kept w1 w3.
Proof. intros [E1 P1] [E2 P2]. split; [congruence|]. intros i. by rewrite P2. Qed.

Lemma transports_at k w c cfg l : ok_at k w c cfg -> map fst l = keys w -> ok_at k (set_w_transports w l) c cfg.
Proof. intros [Hc Hok Hf Hh Hb] Hl. split; try done. assert (keys (set_w_transports w l) = keys w) as -> by done. done. Qed.

Lemma transports_grow k w c cfg l : ok_at k w c cfg -> ok_at k (set_w_transports w (w_transports w ++ l)) c cfg.
Proof.
  intros [Hc [] Hf Hh Hb]. split; try done. unfold keys in *. cbn. rewrite map_app. split; try done.
  - intros i Hi. apply elem_of_app. left. auto.
  - intros l' Hl'. eapply Forall_impl; [by apply ok_list|]. intros x Hx. apply elem_of_app. by left.
  - intros i Hi. apply elem_of_app. left. auto.
Qed.

Lemma set_list_id c : set_ws_transport_list c (ws_transport_list c) = c.
Proof. by destruct c. Qed.

Lemma add_setting_spec k w c cfg i s : ok_at k w c cfg -> i ∈ keys w -> is_port s = false ->
  yields (add_setting i s w) (fun r => ok_at k (snd r) c cfg /\ ports_kept w (snd r)).
Proof.
  intros H Hi Hs. unfold add_setting. eapply w_use; [exact H|done|]. cbn. split.
  - by apply transports_at; [|apply add_to_keys].
  - split; [apply add_to_keys|]. intros j. by apply port_of_add.
Qed.

Lemma add_port_spec k w c cfg i p : ok_at k w c cfg -> i ∈ keys w ->
  yields (add_setting i (SetDefaultPort p) w) (fun r => ok_at k (snd r) c cfg /\ keys (snd r) = keys w
    /\ port_of i (w_transports (snd r)) = Some p).
Proof.
  intros H Hi. unfold add_setting. eapply w_use; [exact H|done|]. cbn. split_and!.
  - by apply transports_at; [|apply add_to_keys].
  - apply add_to_keys.
  - by apply port_of_set.
Qed.

(** Steps that only set options. *)
Definition sets (m : W unit) (i : tid) : Prop := forall k w c cfg, ok_at k w c cfg -> i ∈ keys w ->
  yields (m w) (fun r => ok_at k (snd r) c cfg /\ ports_kept w (snd r)).

Lemma sets_none i : sets (mret tt) i.
Proof. intros k w c cfg H _. cbn. split; [done|]. by split. Qed.

Lemma sets_one i s : is_port s = false -> sets (add_setting i s) i.
Proof. intros Hs k w c cfg H Hi. by apply add_setting_spec. Qed.

Lemma sets_seq m n i : sets m i -> sets n i -> sets (_ ← m; n) i.
Proof.
  intros Hm Hn k w c cfg H Hi. eapply st_seq; [by apply Hm|]. intros [] w1 [H1 P1]. cbn [snd] in *.
  eapply yields_mono; [eapply Hn; [exact H1|by rewrite (proj1 P1)]|]. intros r [? ?]. split; [done|]. by eapply ports_kept_trans.
Qed.

Lemma sets_credential i d len pem der : credential_ok d len -> (forall b, is_port (pem b) = false) ->
  (forall b, is_port (der b) = false) -> sets (set_credential i d len pem der) i.
Proof.
  intros Hd Hp Hder. unfold set_credential. destruct d as [d|]; [|apply sets_none]. case_on_goal; [by apply sets_one|].
  intros k w c cfg H Hi. eapply st_asks; [by apply rd_bytes_ok|]. by apply sets_one.
Qed.

Lemma sets_tls i t : tls_ok t -> sets (set_tls_options i t) i.
Proof.
  intros (H1 & H2 & H3). unfold set_tls_options. repeat apply sets_seq.
  - case_on_goal; [by apply sets_one|by apply sets_credential].
  - by apply sets_credential.
  - by apply sets_credential.
  - unfold set_if. case_on_goal; [by apply sets_one|apply sets_none].
  - unfold set_if. case_on_goal; [by apply sets_one|apply sets_none].
  - case_on_goal; [by apply sets_one|apply sets_none].
Qed.

Lemma sets_link i : sets (set_link_options i) i.
Proof.
  intros k w c cfg H Hi. unfold set_link_options. eapply w_get; [exact H|].
  assert (Hs : sets (_ ← (match ws_keep_alive_cfg c with
       | Some (idle, interval, count) => add_setting i (SetKeepAlive idle interval count)
       | None => mret tt
       end); match ws_if_name c with Some n => add_setting i (SetInterface n) | None => mret tt end) i).
  { apply sets_seq; [destruct (ws_keep_alive_cfg c) as [[[a b] d]|]|destruct (ws_if_name c)];
      first [by apply sets_one|apply sets_none]. }
  by apply Hs.
Qed.

Lemma at_lose k k' w c cfg : ok_at k' w c cfg -> nf = false -> (k <= k')%Z -> ok_at k w c cfg.
Proof. intros [Hc Hok Hf Hh Hb] Hnf Hk. split; try done. by eapply balanced_lose. Qed.

Lemma fresh_id (l : list tid) : S (foldr Nat.max 0 l) ∉ l.
Proof.
  assert (Hle : forall x, x ∈ l -> x <= foldr Nat.max 0 l).
  { intros x Hx. induction Hx as [x l|x y l _ IH]; cbn [foldr]; lia. }
  intros Hin%Hle. lia.
Qed.

Lemma new_block_transports {A} (a : A) w : yields (new_block a w) (fun r => w_transports (snd r) = w_transports w).
Proof.
  unfold new_block, mbind, ST_bind, alloc, malloc. cbn [heap_of ws_world_heap].
  by destruct (fails (w_heap w)) as [|[] f].
Qed.

Lemma attempt_transports w : yields (alloc attempt w) (fun r => w_transports (snd r) = w_transports w).
Proof. unfold alloc, attempt. cbn [heap_of ws_world_heap]. by destruct (fails (w_heap w)) as [|[] f]. Qed.

Lemma new_transport_spec k w c cfg l : ok_at k w c cfg ->
  yields (new_transport l w) (fun r => match fst r with
    | None => nf = false /\ ok_at k (snd r) c cfg /\ keys (snd r) = keys w
    | Some i => (i ∉ keys w) /\ ok_at (k + 1) (snd r) c cfg /\ keys (snd r) = keys w ++ [i]
        /\ forall j, j ∈ keys w -> port_of j (w_transports (snd r)) = port_of j (w_transports w)
    end).
Proof.
  intros H. unfold new_transport.
  eapply st_seq; [apply yields_and; [by eapply new_block_spec|apply new_block_transports]|].
  intros p w1 [(Hp & H1 & K1) Et]. cbn [fst snd] in *.
  pose proof (kp_keys _ _ _ _ K1) as Ek.
  destruct Hp as [-> |[-> Hnf]]; [|cbn; rewrite Z.add_0_r in H1; done]. cbn [opt_block] in H1. cbn [yields].
  unfold mbind, ST_bind, reads, writes, mret, ST_ret. cbn [yields fst snd].
  fold (keys w1). rewrite Ek. split_and!.
  - apply fresh_id.
  - by apply transports_grow.
  - unfold keys at 1. cbn. by rewrite map_app, <- Ek.
  - intros j Hj. cbn [w_transports set_w_transports]. rewrite Et. by apply port_of_app.
Qed.

(** A transport goes into the list; when that fails it is lost. *)
Lemma list_add_spec k w c cfg i tag l0 : ok_at k w c cfg -> ws_transport_list c = Some l0 -> i ∈ keys w ->
  cf_ext_transport cfg = None ->
  yields (esp_transport_list_add i tag w) (fun r => exists l, ok_at (k - 1) (snd r) (set_ws_transport_list c (Some l)) cfg
    /\ ports_kept w (snd r) /\ (l = l0 ++ [(tag, i)] \/ l = l0 /\ nf = false)).
Proof.
  intros H Hl Hi He. unfold esp_transport_list_add.
  eapply st_seq; [apply yields_and; [by eapply w_attempt|apply (attempt_transports w)]|].
  intros ok w1 [(c1 & cfg1 & H1 & K1 & Hok & ->) Et]. cbn [fst snd] in *.
  assert (cfg1 = cfg) as ->.
  { pose proof (ok_config _ _ _ _ (at_is_ok _ _ _ _ _ _ H1)). pose proof (ok_config _ _ _ _ (at_is_ok _ _ _ _ _ _ H)). congruence. }
  assert (Hp : ports_kept w w1) by (split; [apply (kp_keys _ _ _ _ K1)|by rewrite Et]).
  destruct ok; cbn [negb].
  - eapply w_upd_last; [exact H1|]. exists (l0 ++ [(tag, i)]). rewrite Hl. cbn [fst snd option_map].
    split; [|split; [done|by left]]. pose proof (at_is_ok _ _ _ _ _ _ H1) as [].
    eapply (at_upd nf base k); [exact H1| |done|].
    + split; try done; cbn.
      * intros l' [= <-]. apply Forall_app. split; [by apply ok_list|]. apply Forall_singleton. cbn. by rewrite (proj1 Hp).
      * intros i' l' Hi'. congruence.
    + unfold client_blocks. cbn. rewrite Hl. cbn. rewrite length_app. cbn. lia.
  - cbn. exists l0. rewrite <- Hl, set_list_id. split; [|split; [done|right; split; [done|]]].
    + eapply at_lose; [exact H1|apply nf_failed; by intros ?%Hok|lia].
    + apply nf_failed. by intros ?%Hok.
Qed.

Lemma optional_spec k w c cfg l scheme : ok_at k w c cfg -> ws_transport_list c = Some l ->
  yields (set_websocket_transport_optional_settings scheme w) (fun r => ok_at k (snd r) c cfg /\ ports_kept w (snd r)
    /\ (nf = true -> is_Some (transport_list_get l scheme) -> fst r = ESP_OK)).
Proof.
  intros H Hl. unfold set_websocket_transport_optional_settings. eapply w_get; [exact H|]. eapply w_get_cfg; [exact H|].
  eapply st_asks; [by rewrite Hl|]. destruct (transport_list_get l scheme) as [i|] eqn:Eg.
  - eapply st_seq; [apply yields_and; [by eapply w_attempt|apply (attempt_transports w)]|].
    intros ok w1 [(c1 & cfg1 & H1 & K1 & Hok & ->) Et]. cbn [fst snd] in *.
    assert (cfg1 = cfg) as ->.
    { pose proof (ok_config _ _ _ _ (at_is_ok _ _ _ _ _ _ H1)). pose proof (ok_config _ _ _ _ (at_is_ok _ _ _ _ _ _ H)). congruence. }
    assert (Hp : ports_kept w w1) by (split; [apply (kp_keys _ _ _ _ K1)|by rewrite Et]).
    destruct ok; cbn [negb].
    + apply list_get_in in Eg. assert (Hi : i ∈ keys w1).
      { rewrite (proj1 Hp). pose proof (ok_list _ _ _ _ (at_is_ok _ _ _ _ _ _ H) l Hl) as Hall.
        apply list_elem_of_fmap in Eg as (x & -> & Hx). rewrite Forall_forall in Hall. by apply Hall. }
      eapply st_seq; [by apply (add_setting_spec k w1 c cfg i)|]. intros [] w2 [H2 P2]. cbn [yields mret ST_ret fst snd] in *.
      split; [done|]. split; [by eapply ports_kept_trans|done].
    + cbn. split; [done|]. split; [done|]. intros Hn. by specialize (Hok Hn).
  - cbn. split; [done|]. split; [by split|]. intros _ [? ?]. done.
Qed.

(** The websocket transport is on the list, under its scheme and with its port. *)
Definition on_list (w : ws_world) (l : list (cstr * tid)) (l0 : list (cstr * tid)) (scheme : cstr) (port : Z) : Prop :=
  exists ws, l = l0 ++ [(scheme, ws)] /\ (ws ∉ map snd l0) /\ port_of ws (w_transports w) = Some port.

Lemma add_ws_spec k w c cfg l0 parent port scheme : ok_at k w c cfg -> ws_transport_list c = Some l0 ->
  cf_ext_transport cfg = None ->
  yields (add_ws_transport parent port scheme w) (fun r => exists l, ok_at k (snd r) (set_ws_transport_list c (Some l)) cfg
    /\ (nf = true -> on_list (snd r) l l0 scheme port /\ (is_Some (transport_list_get l scheme) -> fst r = ESP_OK))).
Proof.
  intros H Hl He. unfold add_ws_transport.
  assert (Hin : forall i, i ∈ map snd l0 -> i ∈ keys w).
  { intros i Hi. pose proof (ok_list _ _ _ _ (at_is_ok _ _ _ _ _ _ H) l0 Hl) as Hall.
    apply list_elem_of_fmap in Hi as (x & -> & Hx). rewrite Forall_forall in Hall. by apply Hall. }
  eapply st_seq; [by eapply new_transport_spec|]. intros [ws|] w1 Hr; cbn [fst snd] in Hr.
  2:{ destruct Hr as (Hnf & H1 & _). cbn. exists l0. rewrite <- Hl, set_list_id. split; [done|]. intros. congruence. }
  destruct Hr as (Hnew & H1 & Ek & _).
  eapply st_seq; [eapply (add_port_spec _ _ _ _ ws port); [exact H1|rewrite Ek; apply elem_of_app; right; by left]|].
  intros [] w2 (H2 & Ek2 & Hport). cbn [snd] in *.
  eapply st_seq; [eapply (list_add_spec _ w2 c cfg ws scheme l0); [exact H2|done| |done]|].
  { rewrite Ek2, Ek. apply elem_of_app. right. by left. }
  intros [] w3 (l & H3 & P3 & Hadd). cbn [snd] in *. replace (k + 1 - 1)%Z with k in H3 by lia.
  eapply st_seq; [by eapply (optional_spec k w3 _ cfg l)|]. intros e w4 (H4 & P4 & Hok). cbn [yields mret ST_ret fst snd] in *.
  exists l. split; [done|]. intros Hn. destruct Hadd as [-> |[_ ?]]; [|congruence]. split.
  - exists ws. split; [done|]. split; [intros ?; by apply Hnew, Hin|]. by rewrite (proj2 P4), (proj2 P3).
  - intros Hg. rewrite (Hok Hn Hg). by rewrite decide_False by auto.
Qed.

(** The old list is destroyed. *)
Lemma drop_list_spec k w c cfg l : ok_at k w c cfg -> ws_transport_list c = Some l -> ws_transport c = None ->
  yields ((_ ← esp_transport_list_destroy l; upd (fun c => set_ws_transport_list c None)) w)
    (fun r => ok_at k (snd r) (set_ws_transport_list c None) cfg).
Proof.
  intros H Hl Ht. unfold esp_transport_list_destroy. pose proof (at_is_ok _ _ _ _ _ _ H) as Hok.
  apply st_assoc. eapply st_asks.
  { rewrite decide_True; [done|]. by apply (ok_list _ _ _ _ Hok). }
  apply st_assoc. apply st_writes. unfold alloc, mfree, upd, get, asks, writes, mbind, ST_bind.
  pose proof H as [Hc _ Hf Hh (Hn & leak & H0 & Hlk & Hlive)]. cbn. rewrite Hc. cbn.
  destruct Hok. split; try done.
  - split; try done; cbn; try congruence.
    intros i Hi. unfold keys. cbn. pose proof (ok_ext i Hi) as Hk. pose proof (ok_ext_list i l Hi Hl) as Hni.
    apply list_elem_of_fmap in Hk as (x & -> & Hx). apply list_elem_of_fmap. exists x. split; [done|].
    by apply list_elem_of_filter.
  - split; [done|]. exists leak. split_and!; try done. rewrite Hc in Hlive. cbn in *. unfold client_blocks in *. cbn.
    rewrite Hl in Hlive. cbn in Hlive. lia.
Qed.

(** What [esp_websocket_client_create_transport] promises: the scheme was known, and when
    memory is there, the transport of the scheme is found with its default port. *)
Definition scheme_port (scheme : cstr) : option (cstr * Z) :=
  if strcaseeq scheme WS_OVER_TCP_SCHEME then Some (WS_OVER_TCP_SCHEME, WEBSOCKET_TCP_DEFAULT_PORT)
  else if strcaseeq scheme WS_OVER_TLS_SCHEME then Some (WS_OVER_TLS_SCHEME, WEBSOCKET_SSL_DEFAULT_PORT)
  else None.

Definition created (cfg : websocket_config_storage_t) (e : ws_err) (w : ws_world) (l : option (list (cstr * tid))) : Prop :=
  (e = ESP_OK -> is_Some l /\ is_Some (cf_scheme cfg))
  /\ (nf = true -> forall s tag port, cf_scheme cfg = Some s -> scheme_port s = Some (tag, port) -> e = ESP_OK
      /\ exists l' ws, l = Some l' /\ transport_list_get l' s = Some ws /\ port_of ws (w_transports w) = Some port).

(** The lookup in the list the client makes. *)
Lemma found_by_scheme s base_tag base_id tag ws : strcaseeq s tag = true -> strcaseeq s base_tag = false -> ws <> base_id ->
  transport_list_get [(base_tag, base_id); (tag, ws)] s = Some ws.
Proof.
  intros Hs Hb Hne. apply (list_get_tag _ s tag ws Hs).
  - cbn. apply NoDup_cons. split; [|apply NoDup_singleton]. rewrite list_elem_of_singleton. congruence.
  - right. left.
  - intros tag' j Hj Hs'. apply elem_of_cons in Hj as [[= -> ->]|Hj]; [congruence|].
    apply list_elem_of_singleton in Hj as [= -> ->]. done.
Qed.

(** The two kinds of transport, from the lower one on. *)
Lemma stack_spec k w c cfg (opts : tid -> W unit) port base_tag tag : ok_at k w c cfg -> ws_transport_list c = Some [] ->
  cf_ext_transport cfg = None -> (forall i, sets (opts i) i) ->
  (forall s, strcaseeq s tag = true -> strcaseeq s base_tag = false) ->
  yields ((i ← new_transport [];
           match i with
           | None => mret ESP_ERR_NO_MEM
           | Some i => _ ← add_setting i (SetDefaultPort port); _ ← esp_transport_list_add i base_tag; _ ← opts i;
                       add_ws_transport i port tag
           end) w)
    (fun r => exists l, ok_at k (snd r) (set_ws_transport_list c (Some l)) cfg
      /\ (nf = true -> forall s, strcaseeq s tag = true -> fst r = ESP_OK
          /\ exists ws, transport_list_get l s = Some ws /\ port_of ws (w_transports (snd r)) = Some port)).
Proof.
  intros H Hl He Hopts Htag. eapply st_seq; [by eapply new_transport_spec|]. intros [i|] w1 Hr; cbn [fst snd] in Hr.
  2:{ destruct Hr as (Hnf & H1 & _). cbn. exists []. rewrite <- Hl, set_list_id. split; [done|]. intros. congruence. }
  destruct Hr as (Hnew & H1 & Ek & _).
  eapply st_seq; [eapply (add_port_spec _ _ _ _ i port); [exact H1|rewrite Ek; apply elem_of_app; right; by left]|].
  intros [] w2 (H2 & Ek2 & Hport). cbn [snd] in *. assert (Hi2 : i ∈ keys w2) by (rewrite Ek2, Ek; apply elem_of_app; right; by left).
  eapply st_seq; [by eapply (list_add_spec _ w2 c cfg i base_tag [])|].
  intros [] w3 (l & H3 & P3 & Hadd). cbn [snd] in *. replace (k + 1 - 1)%Z with k in H3 by lia.
  eapply st_seq; [eapply Hopts; [exact H3|by rewrite (proj1 P3)]|]. intros [] w4 [H4 P4]. cbn [snd] in *.
  eapply yields_mono; [by eapply (add_ws_spec k w4 _ cfg l i port tag)|]. intros [e w5] (l' & H5 & Hlist). cbn [fst snd] in *.
  exists l'. split; [done|]. intros Hn s Hs. destruct (Hlist Hn) as [(ws & -> & Hws & Hp) Hok].
  destruct Hadd as [-> |[_ ?]]; [|congruence]. cbn [app map snd] in *. rewrite list_elem_of_singleton in Hws.
  split.
  - apply Hok. exists ws. apply found_by_scheme; [apply strcaseeq_refl|apply Htag, strcaseeq_refl|done].
  - exists ws. split; [|done]. apply found_by_scheme; auto.
Qed.

Lemma create_spec k w c cfg : ok_at k w c cfg -> cf_ext_transport cfg = None -> ws_transport c = None ->
  yields (esp_websocket_client_create_transport w) (fun r => exists l, ok_at k (snd r) (set_ws_transport_list c l) cfg
    /\ created cfg (fst r) (snd r) l).
Proof.
  intros H He Ht. unfold esp_websocket_client_create_transport. eapply w_get; [exact H|]. eapply w_get_cfg; [exact H|].
  destruct (cf_scheme cfg) as [scheme|] eqn:Es.
  2:{ cbn. exists (ws_transport_list c). rewrite set_list_id. split; [done|]. split; [done|]. intros _ s tag port. by rewrite Es. }
  eapply (st_seq _ _ _ (fun r => ok_at k (snd r) (set_ws_transport_list c None) cfg)).
  { destruct (ws_transport_list c) as [l|] eqn:El; [by eapply drop_list_spec|]. cbn. by rewrite <- El, set_list_id. }
  intros [] w1 H1. cbn [snd] in H1. set (c1 := set_ws_transport_list c None) in *.
  eapply st_seq; [by eapply new_block_spec|]. intros b w2 (Hb & H2 & K2). cbn [fst snd] in *.
  destruct Hb as [-> |[-> Hnf]]; cbn [opt_block] in H2.
  2:{ eapply w_upd; [exact H2|]. cbn. exists None. split; [|split; [done|intros; congruence]].
      eapply (at_upd nf base); [exact H2|by apply (at_is_ok _ _ _ _ _ _ H2)|done|unfold client_blocks; cbn; lia]. }
  eapply w_upd; [exact H2|]. set (c2 := set_ws_transport_list c1 (Some [])).
  assert (H3 : ok_at k (set_w_client w2 (Some c2)) c2 cfg).
  { pose proof (at_is_ok _ _ _ _ _ _ H2) as []. eapply (at_upd nf base); [exact H2|split; try done|done|].
    - intros l [= <-]. constructor.
    - intros i l Hi. congruence.
    - unfold client_blocks, c2, c1. cbn. lia. }
  assert (Htls : tls_ok (cf_tls cfg)) by apply (ok_tls _ _ _ _ (at_is_ok _ _ _ _ _ _ H3)).
  unfold created, scheme_port. rewrite Es. case_on_goal.
  - eapply yields_mono; [eapply (stack_spec k _ c2 cfg set_link_options WEBSOCKET_TCP_DEFAULT_PORT (str "_tcp")); [exact H3|done|done|apply sets_link|]|].
    { intros s Hs%strcaseeq_iff%(f_equal length). rewrite !length_map in Hs. destruct (strcaseeq s (str "_tcp")) eqn:Eq; [|done].
      apply strcaseeq_iff, (f_equal length) in Eq. rewrite !length_map in Eq. rewrite Hs in Eq. done. }
    intros [e w4] (l & H4 & Hn). cbn [fst snd] in *. exists (Some l). split; [done|]. split; [split; [done|by exists scheme]|].
    intros Hnf s tag port [= <-]. rewrite Heqb. intros [= <- <-]. destruct (Hn Hnf scheme Heqb) as (-> & ws & ? & ?).
    split; [done|]. by exists l, ws.
  - case_on_goal.
    + eapply yields_mono; [eapply (stack_spec k _ c2 cfg (fun i => _ ← set_link_options i; set_tls_options i (cf_tls cfg))
        WEBSOCKET_SSL_DEFAULT_PORT (str "_ssl")); [exact H3|done|done|intros i; apply sets_seq; [apply sets_link|by apply sets_tls]|]|].
      { intros s Hs%strcaseeq_iff%(f_equal length). rewrite !length_map in Hs. destruct (strcaseeq s (str "_ssl")) eqn:Eq; [|done].
        apply strcaseeq_iff, (f_equal length) in Eq. rewrite !length_map in Eq. rewrite Hs in Eq. done. }
      intros [e w4] (l & H4 & Hn). cbn [fst snd] in *. exists (Some l). split; [done|]. split; [split; [done|by exists scheme]|].
      intros Hnf s tag port [= <-]. rewrite Heqb, Heqb0. intros [= <- <-]. destruct (Hn Hnf scheme Heqb0) as (-> & ws & ? & ?).
      split; [done|]. by exists l, ws.
    + cbn [yields mret ST_ret fst snd]. exists (Some []). split; [done|]. split; [done|]. intros _ s tag port [= <-]. by rewrite Heqb, Heqb0.
Qed.

(** * Destruction *)

(** [w'] is [w] with [n] blocks less, but for the client and the transports. *)
Record spent (n : Z) (w w' : ws_world) : Prop := {
  sp_fails : fails (w_heap w') = fails (w_heap w);
  sp_live : live (w_heap w') = (live (w_heap w) - n)%Z;
  sp_log : w_log w' = w_log w;
  sp_clock : w_clock w' = w_clock w;
  sp_reads : w_reads w' = w_reads w;
  sp_reactions : w_reactions w' = w_reactions w;
}.

Definition less (n : Z) (w : ws_world) : ws_world := set_w_heap w (mk_heap (fails (w_heap w)) (live (w_heap w) - n)).

Lemma spent_less n m w w' : spent n w w' -> spent (n + m) w (less m w').
Proof. intros []. split; cbn; try done. lia. Qed.

Lemma s_free {B} m w (f : unit -> W B) Q : yields (f tt (less m w)) Q -> yields ((alloc (mfree m) ≫= f) w) Q.
Proof. done. Qed.

Lemma s_delete {B} b w (f : unit -> W B) Q : yields (f tt (less (flag b) w)) Q -> yields ((delete_if b ≫= f) w) Q.
Proof.
  destruct b; [done|]. unfold delete_if. cbn [flag]. intros Hf. apply st_ret.
  replace w with (less 0 w); [done|]. unfold less. rewrite Z.sub_0_r. by destruct w as [? []].
Qed.

(** Everything the client owns is freed, once. *)
Lemma destroy_spec k w c : w_client w = Some c -> balanced nf base k w ->
  (forall l, ws_transport_list c = Some l -> Forall (fun x => snd x ∈ keys w) l) ->
  yields (destroy_and_free_resources w) (fun r => w_client (snd r) = None /\ balanced nf base k (snd r)
    /\ w_log (snd r) = w_log w /\ w_clock (snd r) = w_clock w /\ w_reads (snd r) = w_reads w
    /\ w_reactions (snd r) = w_reactions w).
Proof.
  intros Hc (Hn & leak & H0 & Hlk & Hlive) Hl. rewrite Hc in Hlive.
  assert (Hend : forall w', spent (client_blocks c) w w' -> w_client w' = None ->
    w_client w' = None /\ balanced nf base k w' /\ w_log w' = w_log w /\ w_clock w' = w_clock w
    /\ w_reads w' = w_reads w /\ w_reactions w' = w_reactions w).
  { intros w' [Ef El] Hw'. split_and!; try done. split.
    - intros Hnf. unfold never_fails in *. rewrite Ef. by apply Hn.
    - exists leak. rewrite Hw'. split_and!; try done. cbn in *. lia. }
  unfold destroy_and_free_resources. eapply st_asks; [by rewrite Hc|].
  apply s_delete, s_free. set (w1 := less (opt_block (ws_if_name c)) _).
  assert (S1 : spent (flag (ws_event_handle c) + opt_block (ws_if_name c)) w w1) by (split; cbn; try done; lia).
  assert (C1 : w_client w1 = Some c) by done. assert (T1 : w_transports w1 = w_transports w) by done. clearbody w1.
  set (n1 := (flag _ + _)%Z) in S1.
  eapply (st_seq _ _ _ (fun r => spent (n1 + stored_blocks (ws_config c)) w (snd r) /\ w_transports (snd r) = w_transports w)).
  { unfold esp_websocket_client_destroy_config. eapply st_asks; [by rewrite C1|]. destruct (ws_config c) as [cfg|].
    - apply s_free, s_free. unfold upd, get, asks, writes, mbind, ST_bind. cbn. rewrite C1. cbn.
      split; [|done]. destruct S1. split; cbn; try done. lia.
    - cbn. split; [|done]. by rewrite Z.add_0_r. }
  intros e w2 [S2 T2]. cbn [snd] in *. set (n2 := (n1 + _)%Z) in S2.
  eapply (st_seq _ _ _ (fun r => spent (n2 + list_blocks (ws_transport_list c)) w (snd r))).
  { destruct (ws_transport_list c) as [l|]; [|cbn; by rewrite Z.add_0_r].
    unfold esp_transport_list_destroy. eapply st_asks.
    { rewrite decide_True; [done|]. rewrite T2. by apply Hl. }
    apply st_writes. cbn. destruct S2. split; cbn; try done. lia. }
  intros [] w3 S3. cbn [snd] in *. apply s_delete, s_free, s_free, s_free, s_free, s_free.
  set (w4 := less 1 _). cbn [yields writes snd]. apply Hend; [|done].
  destruct S3. split; cbn; try done. unfold n2, n1 in *. unfold client_blocks. lia.
Qed.

End Life.
