(* ===== verification/WsInit.v ===== *)
(** Making a websocket client: whatever allocation fails, [esp_websocket_client_init]
    returns a complete client or null, and nothing is left behind. *)
From S2P Require Import Prelude Heap State WsData Ws WsConfig WsProofs WsSafe WsConfigProofs WsLife.

Section Init.
Context {options : ws_options} {externals : ws_externals} {laws : ws_laws} (nf : bool) (base : Z).

Abbreviation dyn := enable_dynamic_buffer.
Abbreviation ok_at := (ws_at dyn nf base).

(** A client in the making: it has no transports yet, and what the application and the
    surroundings gave is as it was. *)
Record staged (w0 w : ws_world) (c : ws_client) : Prop := {
  st_client : w_client w = Some c;
  st_heap : balanced nf base 0 w;
  st_list : ws_transport_list c = None;
  st_keys : keys w = keys w0;
  st_reads : w_reads w = w_reads w0;
  st_reactions : w_reactions w = w_reactions w0;
  st_log : w_log w = w_log w0;
  st_clock : (w_clock w0 <= w_clock w)%Z;
}.

(** A step that takes a client with [P] to one with [Q]; it fails only when an
    allocation did or [no] says so. *)
Definition makes (no : Prop) (P : ws_client -> Prop) (m : W bool) (Q : ws_client -> Prop) : Prop := forall w0 w c, staged w0 w c -> P c ->
  yields (m w) (fun r => exists c', staged w0 (snd r) c' /\ (fst r = true -> Q c') /\ (fst r = false -> nf = true -> no)).

Lemma makes_nil no P : makes no P (all_or_fail []) P.
Proof. intros w0 w c H HP. cbn. exists c. split_and!; try done. Qed.

Lemma makes_cons no P Q R m l : makes no P m Q -> makes no Q (all_or_fail l) R -> makes no P (all_or_fail (m :: l)) R.
Proof.
  intros Hm Hl w0 w c H HP. cbn [all_or_fail]. eapply st_seq; [by apply (Hm w0 w c)|].
  intros ok w1 (c1 & H1 & Ht & Hf). cbn [fst snd] in *. destruct ok; cbn [negb].
  - by eapply Hl; [exact H1|apply Ht].
  - cbn. exists c1. split; [done|]. split; [done|]. intros _ Hnf. by apply Hf.
Qed.

Lemma staged_upd w0 w c c' : staged w0 w c -> client_blocks c' = client_blocks c -> ws_transport_list c' = None ->
  staged w0 (set_w_client w (Some c')) c'.
Proof.
  intros [Hc (Hn & leak & H0 & Hl & Hlive)] Hb Hlist. split; try done. split; [done|]. exists leak. split_and!; try done.
  rewrite Hc in Hlive. cbn in *. lia.
Qed.

Lemma makes_upd no (P : ws_client -> Prop) f : (forall c, P c -> client_blocks (f c) = client_blocks c) -> (forall c, ws_transport_list (f c) = ws_transport_list c) ->
  makes no P (do_ (upd f)) (fun c => exists c0, P c0 /\ c = f c0).
Proof.
  intros Hb Hl w0 w c H HP. unfold do_, upd, get. pose proof (st_client _ _ _ H) as Hc. apply st_assoc.
  eapply st_asks; [by rewrite Hc|]. cbn. exists (f c). split_and!; try done; [|by exists c].
  apply (staged_upd _ _ _ _ H); [by apply Hb|]. rewrite Hl. apply (st_list _ _ _ H).
Qed.

Lemma makes_skip no P : makes no P (mret true) P.
Proof. intros w0 w c H HP. cbn. exists c. by split_and!. Qed.

Lemma makes_do_skip no P : makes no P (do_ (mret tt)) P.
Proof. intros w0 w c H HP. cbn. exists c. by split_and!. Qed.

Lemma makes_weaken no (P Q Q' : ws_client -> Prop) m : makes no P m Q -> (forall c, Q c -> Q' c) -> makes no P m Q'.
Proof. intros Hm HQ w0 w c H HP. eapply yields_mono; [by apply (Hm w0 w c)|]. intros r (c' & ? & ? & ?). exists c'. auto. Qed.

(** The world after an allocation. *)
Lemma balanced_new {A} k w (a : A) : balanced nf base k w -> yields (new_block a w) (fun r =>
  exists h, snd r = set_w_heap w h /\ (fst r = Some a \/ fst r = None /\ nf = false)
    /\ (nf = true -> never_fails h) /\ (live h = live (w_heap w) + opt_block (fst r))%Z).
Proof.
  intros [Hn _]. unfold new_block, mbind, ST_bind, alloc, malloc. cbn [heap_of ws_world_heap].
  destruct (fails (w_heap w)) as [|[] f] eqn:E; cbn [yields mret ST_ret fst snd].
  - exists (mk_heap [] (live (w_heap w) + 1)). split_and!; try done. by left.
  - exists (mk_heap f (live (w_heap w))). split_and!; try done.
    + right. split; [done|]. destruct nf; [|done]. specialize (Hn eq_refl). unfold never_fails in Hn. congruence.
    + intros Hnf%Hn. unfold never_fails in Hnf. congruence.
    + cbn. lia.
  - exists (mk_heap f (live (w_heap w) + 1)). split_and!; try done; [by left|].
    intros Hnf%Hn. unfold never_fails in Hnf. congruence.
Qed.

Lemma makes_create no (P : ws_client -> Prop) put : (forall c, P c -> client_blocks (put c) = (client_blocks c + 1)%Z) ->
  (forall c, ws_transport_list (put c) = ws_transport_list c) ->
  makes no P (create put) (fun c => exists c0, P c0 /\ c = put c0).
Proof.
  intros Hb Hl w0 w c H HP. unfold create. eapply st_seq; [eapply balanced_new, (st_heap _ _ _ H)|].
  intros p w1 (h & E & Hp & Hn & Hlive). cbn [fst snd] in *. subst w1.
  pose proof H as [Hc (_ & leak & H0 & Hlk & Hlive0) Hlist ? ? ? ? ?]. rewrite Hc in Hlive0. cbn [blocks_of] in Hlive0.
  destruct Hp as [-> |[-> Hnf]]; cbn [opt_block] in Hlive.
  - unfold upd, get. apply st_assoc. eapply st_asks; [cbn; by rewrite Hc|]. cbn. exists (put c).
    split; [|split; [by exists c|done]]. split; try done; [|by rewrite Hl]. split; [done|]. exists leak.
    split_and!; try done. cbn. rewrite Hb by done. lia.
  - cbn. exists c. split; [|split; [done|congruence]]. split; try done. split; [done|]. exists leak. split_and!; try done.
    cbn. rewrite Hc. cbn. lia.
Qed.

Lemma staged_cfg w0 w c cfg : staged w0 w c -> ws_config c = Some cfg -> cfg_at nf base 0 w c cfg.
Proof. intros []. by split. Qed.

(** A step on the configuration. *)
Lemma makes_cfg {A} (no : Prop) (P : ws_client -> Prop) (m : W A) (ok : A -> bool) (Q : A -> websocket_config_storage_t -> Prop)
    (R : websocket_config_storage_t -> websocket_config_storage_t -> Prop) :
  (forall c, P c -> is_Some (ws_config c)) ->
  (forall k w c cfg, P c -> cfg_at nf base k w c cfg -> yields (m w) (cends nf base k w c cfg (fun a cfg' =>
     (ok a = true -> R cfg cfg') /\ (ok a = false -> nf = true -> no)))) ->
  makes no P (a ← m; mret (ok a)) (fun c => exists c0 cfg cfg', P c0 /\ ws_config c0 = Some cfg /\ R cfg cfg'
    /\ c = set_ws_config c0 (Some cfg')).
Proof.
  intros Hcfg Hm w0 w c H HP. destruct (Hcfg c HP) as [cfg Ec].
  eapply st_seq; [eapply Hm; [done|by eapply staged_cfg]|].
  intros a w1 (h & cfg' & E & [H1 H2 H3] & _ & Hr & Hno). cbn [fst snd yields mret ST_ret] in *. subst w1.
  exists (set_ws_config c (Some cfg')). split; [|split; [|done]].
  - destruct H. split; try done.
  - intros Ha. exists c, cfg, cfg'. split_and!; try done. by apply Hr.
Qed.

Lemma makes_cfg_bool (no : Prop) (P : ws_client -> Prop) (m : W bool)
    (R : websocket_config_storage_t -> websocket_config_storage_t -> Prop) :
  (forall c, P c -> is_Some (ws_config c)) ->
  (forall k w c cfg, P c -> cfg_at nf base k w c cfg -> yields (m w) (cends nf base k w c cfg (fun a cfg' =>
     (a = true -> R cfg cfg') /\ (a = false -> nf = true -> no)))) ->
  makes no P m (fun c => exists c0 cfg cfg', P c0 /\ ws_config c0 = Some cfg /\ R cfg cfg'
    /\ c = set_ws_config c0 (Some cfg')).
Proof.
  intros Hcfg Hm w0 w c H HP. pose proof (makes_cfg no P m id (fun _ _ => True) R Hcfg Hm w0 w c H HP) as Hy.
  unfold mbind, ST_bind, mret, ST_ret, id in Hy. by destruct (m w) as [[a w1]| | |].
Qed.

(** [asprintf] of the scheme, which was not set. *)
Lemma makes_scheme no (P : ws_client -> Prop) s : (forall c, P c -> exists cfg, ws_config c = Some cfg /\ cf_scheme cfg = None) ->
  makes no P (set_scheme s) (fun c => exists c0 cfg cfg', P c0 /\ ws_config c0 = Some cfg
    /\ cfg' = set_cf_scheme cfg (Some s) /\ c = set_ws_config c0 (Some cfg')).
Proof.
  intros Hcfg. apply (makes_cfg_bool no P (set_scheme s) (fun cfg cfg' => cfg' = set_cf_scheme cfg (Some s))).
  - intros c HP. destruct (Hcfg c HP) as (cfg & E & _). by exists cfg.
  - intros k w c cfg HP H. destruct (Hcfg c HP) as (cfg' & E & Hs). rewrite (ca_config _ _ _ _ _ _ H) in E. injection E as <-.
    unfold set_scheme. eapply st_seq; [by eapply c_new|]. intros p w1 [Hp Hc]. cbn [fst snd] in *.
    destruct Hc as (h & cfg1 & E & H1 & _ & ->). cbn [fst snd] in *. subst. eapply cends_from; [done|].
    eapply cends_bind; [eapply (c_upd_cfg _ _ _ k); [exact H1|done|rewrite (sf_blocks _ _ str_scheme), Hs; cbn; lia]|].
    intros [] w3 c3 cfg3 H3 ->. eapply cends_ret; [exact H3|].
    destruct Hp as [-> |[-> ->]]; (split; [done|]); congruence.
Qed.

Lemma makes_upd_cfg no (P : ws_client -> Prop) g : (forall c, P c -> is_Some (ws_config c)) ->
  (forall cfg, config_blocks (g cfg) = config_blocks cfg) ->
  makes no P (do_ (upd_cfg g)) (fun c => exists c0 cfg, P c0 /\ ws_config c0 = Some cfg /\ c = set_ws_config c0 (Some (g cfg))).
Proof.
  intros Hcfg Hg w0 w c H HP. destruct (Hcfg c HP) as [cfg E]. pose proof (st_client _ _ _ H) as Hc.
  unfold do_, upd_cfg, get_cfg, upd, get. repeat apply st_assoc. eapply st_asks; [by rewrite Hc|].
  eapply st_asks; [by rewrite E|]. apply st_assoc. eapply st_asks; [by rewrite Hc|].
  cbn. exists (set_ws_config c (Some (g cfg))). split; [|split; [|done]].
  - apply (staged_upd _ _ _ _ H); [|apply (st_list _ _ _ H)]. unfold client_blocks. cbn. rewrite E. cbn. by rewrite Hg.
  - intros _. by exists c, cfg.
Qed.

Lemma makes_ticks no (P : ws_client -> Prop) (f : Z -> Z -> Z -> ws_client -> ws_client) :
  (forall t1 t2 t3 c, client_blocks (f t1 t2 t3 c) = client_blocks c) ->
  (forall t1 t2 t3 c, ws_transport_list (f t1 t2 t3 c) = ws_transport_list c) ->
  makes no P (t1 ← _tick_get_ms; t2 ← _tick_get_ms; t3 ← _tick_get_ms; do_ (upd (f t1 t2 t3)))
    (fun c => exists c0 t1 t2 t3, P c0 /\ c = f t1 t2 t3 c0).
Proof.
  intros Hb Hl w0 w c H HP.
  assert (Htick : forall w1, staged w0 w1 c -> yields (_tick_get_ms w1) (fun r => staged w0 (snd r) c)).
  { intros w1 [Hc Hh Hli Hk Hr Hre Hlog Hclk]. unfold _tick_get_ms, next, mbind, ST_bind, writes, reads.
    destruct (w_steps w1) as [|d l]; cbn; split; cbn; try done; lia. }
  eapply st_seq; [by apply Htick|]. intros t1 w1 H1. eapply st_seq; [by apply Htick|]. intros t2 w2 H2.
  eapply st_seq; [by apply Htick|]. intros t3 w3 H3. cbn [snd] in *.
  eapply yields_mono; [eapply (makes_upd no P (f t1 t2 t3)); [auto|auto|exact H3|done]|].
  intros r (c' & Hc' & Ht & Hf). exists c'. split; [done|]. split; [|done]. intros E. destruct (Ht E) as (c0 & ? & ->).
  by exists c0, t1, t2, t3.
Qed.

(** [xEventGroupSetBits] on the new event group. *)
Lemma makes_bits no (P : ws_client -> Prop) b : (forall c, P c -> is_Some (ws_status_bits c)) ->
  makes no P (do_ (set_bits b)) (fun c => exists c0 x, P c0 /\ ws_status_bits c0 = Some x
    /\ c = set_ws_status_bits c0 (Some (Z.lor x b))).
Proof.
  intros Hb w0 w c H HP. destruct (Hb c HP) as [x E]. pose proof (st_client _ _ _ H) as Hc.
  unfold do_, set_bits, get_bits, upd, get, mbind, ST_bind, asks, writes. cbn. rewrite Hc. cbn. rewrite E. cbn. rewrite Hc. cbn.
  exists (set_ws_status_bits c (Some (Z.lor x b))). split; [|split; [|done]].
  - apply (staged_upd _ _ _ _ H); [|apply (st_list _ _ _ H)]. unfold client_blocks. cbn. by rewrite E.
  - intros _. by exists c, x.
Qed.

(** * The client that is made *)

(** What the URI of the application does. *)
Definition uri_config (uri : option cstr) (cfg : websocket_config_storage_t) : websocket_config_storage_t :=
  match uri with
  | None => cfg
  | Some uri => match http_parser_parse_url uri with Some u => with_uri uri u cfg | None => cfg end
  end.

Definition cfg_scheme (config : esp_websocket_client_config_t) : websocket_config_storage_t :=
  match uc_transport config with
  | WEBSOCKET_TRANSPORT_OVER_TCP => set_cf_scheme zero_config (Some WS_OVER_TCP_SCHEME)
  | WEBSOCKET_TRANSPORT_OVER_SSL => set_cf_scheme zero_config (Some WS_OVER_TLS_SCHEME)
  | WEBSOCKET_TRANSPORT_UNKNOWN => zero_config
  end.

Definition cfg_tls (config : esp_websocket_client_config_t) : websocket_config_storage_t :=
  set_cf_ext_transport (set_cf_tls (cfg_scheme config) (uc_tls config)) (uc_ext_transport config).

Definition default_scheme (cfg : websocket_config_storage_t) : websocket_config_storage_t :=
  match cf_scheme cfg with None => set_cf_scheme cfg (Some WS_OVER_TCP_SCHEME) | Some _ => cfg end.

(** The configuration of a new client. *)
Definition init_config (config : esp_websocket_client_config_t) : websocket_config_storage_t :=
  default_scheme (with_config config (uri_config (uc_uri config) (cfg_tls config))).

(** The configurations it is refused for. *)
Definition refused (config : esp_websocket_client_config_t) : Prop :=
  (is_Some (tls_cert_common_name (uc_tls config)) /\ tls_skip_cert_common_name_check (uc_tls config) = true)
  \/ exists uri, uc_uri config = Some uri /\ http_parser_parse_url uri = None.

(** A fresh client. *)
Record fresh (config : esp_websocket_client_config_t) (c : ws_client) : Prop := {
  fr_config : ws_config c = Some (init_config config);
  fr_event : ws_event_handle c = true;
  fr_lock : ws_lock c = true;
  fr_bits : ws_status_bits c = Some STOPPED_BIT;
  fr_size : ws_buffer_size c = init_buffer_size config;
  fr_rx : ws_rx_buffer c = if dyn then None else Some (replicate (init_buffer_size config) 0%Z);
  fr_tx : ws_tx_buffer c = if dyn then None else Some (replicate (init_buffer_size config) 0%Z);
  fr_msg : ws_errormsg_buffer c = None /\ ws_errormsg_size c = 0;
  fr_transport : ws_transport c = None /\ ws_transport_list c = None;
  fr_state : ws_state c = WEBSOCKET_STATE_UNKNOW;
  fr_run : ws_run c = false /\ ws_selected_for_destroying c = false /\ ws_wait_for_pong_resp c = false;
  fr_wait : ws_wait_timeout_ms c = if negb (uc_disable_auto_reconnect config) && (uc_reconnect_timeout_ms config <=? 0)%Z
              then WEBSOCKET_RECONNECT_TIMEOUT_MS else uc_reconnect_timeout_ms config;
}.

(** Its parts as they are made: keep-alive, interface, reconnect delay, configuration. *)
Definition part_client (k : option (Z * Z * Z)) (n : option (list Z)) : ws_client :=
  set_ws_if_name (set_ws_keep_alive_cfg (set_ws_event_handle zero_client true) k) n.

Definition cfg_client k n (wt : Z) (cfg : websocket_config_storage_t) : ws_client :=
  set_ws_wait_timeout_ms (set_ws_config (set_ws_lock (part_client k n) true) (Some cfg)) wt.

Definition cfg_stage (wt : Z) (cfg : websocket_config_storage_t) (c : ws_client) : Prop := exists k n, c = cfg_client k n wt cfg.

Definition tick_client k n wt cfg t1 t2 t3 : ws_client :=
  set_ws_ping_tick_ms (set_ws_reconnect_tick_ms (set_ws_keepalive_tick_ms (cfg_client k n wt cfg) t1) t2) t3.

Definition tick_stage (wt : Z) (cfg : websocket_config_storage_t) (rx tx : option (list Z)) (bits : option Z) (bs : nat)
    (c : ws_client) : Prop :=
  exists k n t1 t2 t3, c = set_ws_buffer_size (set_ws_status_bits (set_ws_tx_buffer (set_ws_rx_buffer
    (tick_client k n wt cfg t1 t2 t3) rx) tx) bits) bs.

Lemma cfg_stage_config wt cfg c : cfg_stage wt cfg c -> ws_config c = Some cfg.
Proof. by intros (k & n & ->). Qed.

(** A step on the configuration of a client in the making. *)
Lemma makes_cfg_stage {A} no wt cfg0 (m : W A) (ok : A -> bool) (R : websocket_config_storage_t -> Prop) :
  (forall k w c, cfg_at nf base k w c cfg0 -> yields (m w) (cends nf base k w c cfg0 (fun a cfg' =>
     (ok a = true -> R cfg') /\ (ok a = false -> nf = true -> no)))) ->
  makes no (cfg_stage wt cfg0) (a ← m; mret (ok a)) (fun c => exists cfg', R cfg' /\ cfg_stage wt cfg' c).
Proof.
  intros Hm. eapply makes_weaken.
  - apply (makes_cfg no (cfg_stage wt cfg0) m ok (fun _ _ => True) (fun _ cfg' => R cfg')).
    + intros c HP. by rewrite (cfg_stage_config _ _ _ HP).
    + intros k w c cfg HP H. pose proof (ca_config _ _ _ _ _ _ H) as E. rewrite (cfg_stage_config _ _ _ HP) in E.
      injection E as <-. by apply Hm.
  - intros c (c0 & cfg & cfg' & (k & n & ->) & _ & HR & ->). exists cfg'. split; [done|]. by exists k, n.
Qed.

Lemma makes_eq no (P : ws_client -> Prop) m (R : websocket_config_storage_t -> Prop) Q wt cfg' :
  makes no P m (fun c => exists cfg, R cfg /\ cfg_stage wt cfg c) -> (forall cfg, R cfg -> cfg = cfg') ->
  (forall c, cfg_stage wt cfg' c -> Q c) -> makes no P m Q.
Proof. intros Hm HR HQ. eapply makes_weaken; [exact Hm|]. intros c (cfg & Hcfg & Hc). apply HQ. by rewrite <- (HR cfg). Qed.

Lemma scheme_stage no wt cfg s : cf_scheme cfg = None ->
  makes no (cfg_stage wt cfg) (set_scheme s) (cfg_stage wt (set_cf_scheme cfg (Some s))).
Proof.
  intros Hs. eapply makes_weaken; [apply makes_scheme|].
  - intros c HP. exists cfg. by rewrite (cfg_stage_config _ _ _ HP).
  - intros c (c0 & cfg0 & cfg' & (k & n & ->) & [= <-] & -> & ->). by exists k, n.
Qed.

Ltac ws_blocks := unfold client_blocks; cbv [part_client cfg_client tick_client]; ws_flat;
  cbn [opt_block flag list_blocks stored_blocks]; try change (config_blocks zero_config) with 0%Z; lia.

Ltac ws_same_client := cbv [part_client cfg_client tick_client]; ws_flat; reflexivity.

Section Steps.
Variable (config : esp_websocket_client_config_t).

Definition first_wait_ms : Z := if negb (uc_disable_auto_reconnect config) && (uc_reconnect_timeout_ms config <=? 0)%Z
  then WEBSOCKET_RECONNECT_TIMEOUT_MS else uc_reconnect_timeout_ms config.

Definition rx0 : option (list Z) := if dyn then None else Some (replicate (init_buffer_size config) 0%Z).

Definition made (c : ws_client) : Prop :=
  tick_stage first_wait_ms (init_config config) rx0 rx0 (Some STOPPED_BIT) (init_buffer_size config) c.

Lemma made_fresh c : made c -> fresh config c.
Proof. intros (k & n & t1 & t2 & t3 & ->). by split. Qed.

Lemma init_steps_make :
  makes (refused config) (fun c => c = part_client None None) (all_or_fail (init_steps config)) made.
Proof.
  unfold init_steps.
  eapply (makes_cons _ _ (fun c => exists k, c = part_client k None)).
  { case_on_goal; [|eapply makes_weaken; [apply makes_do_skip|]; intros c ->; by exists None].
    eapply makes_weaken; [apply makes_upd; [by intros c ->|done]|]. intros c (c0 & -> & ->). eexists. reflexivity. }
  eapply (makes_cons _ _ (fun c => exists k n, c = part_client k n)).
  { case_on_goal; [|eapply makes_weaken; [apply makes_skip|]; intros c [k ->]; by exists k, None].
    eapply makes_weaken; [apply makes_create; [by intros c [k ->]|done]|]. intros c (c0 & [k ->] & ->). eexists k, _. reflexivity. }
  eapply (makes_cons _ _ (fun c => exists k n, c = set_ws_lock (part_client k n) true)).
  { eapply makes_weaken; [apply makes_create; [|done]|].
    - intros c (k & n & ->). ws_blocks.
    - intros c (c0 & (k & n & ->) & ->). exists k, n; ws_same_client. }
  eapply (makes_cons _ _ (cfg_stage 0 zero_config)).
  { eapply makes_weaken; [apply makes_create; [|done]|].
    - intros c (k & n & ->). ws_blocks.
    - intros c (c0 & (k & n & ->) & ->). exists k, n; ws_same_client. }
  eapply (makes_cons _ _ (cfg_stage 0 (cfg_scheme config))).
  { unfold cfg_scheme. destruct (uc_transport config); [apply makes_skip|by apply scheme_stage|by apply scheme_stage]. }
  eapply (makes_cons _ _ (cfg_stage first_wait_ms (cfg_scheme config))).
  { eapply makes_weaken; [apply makes_upd; [by intros c (k & n & ->)|done]|]. intros c (c0 & (k & n & ->) & ->). exists k, n; ws_same_client. }
  eapply (makes_cons _ _ (cfg_stage first_wait_ms (cfg_scheme config))).
  { intros w0 w c H HP. cbn. exists c. split; [done|]. split; [done|]. intros Hrej _. left.
    destruct (tls_cert_common_name (uc_tls config)); [|done]. cbn in Hrej. apply negb_false_iff in Hrej. by split. }
  eapply (makes_cons _ _ (cfg_stage first_wait_ms (cfg_tls config))).
  { eapply makes_weaken; [apply makes_upd_cfg; [|done]|].
    - intros c HP. by rewrite (cfg_stage_config _ _ _ HP).
    - intros c (c0 & cfg & (k & n & ->) & [= <-] & ->). exists k, n; ws_same_client. }
  eapply (makes_cons _ _ (cfg_stage first_wait_ms (uri_config (uc_uri config) (cfg_tls config)))).
  { destruct (uc_uri config) as [uri|] eqn:Euri; [|apply makes_skip]. cbn [uri_config].
    eapply makes_eq; [apply (makes_cfg_stage _ _ _ _ _ (fun cfg' => cfg' = uri_config (Some uri) (cfg_tls config)))| |].
    - intros k w c H. eapply cends_mono; [by eapply set_uri_spec|]. intros e cfg' Hr. unfold uri_result in Hr. cbn [uri_config].
      destruct (http_parser_parse_url uri) as [u|] eqn:Eu.
      + destruct Hr as [[-> ->]|[-> Hnf]]; (split; [done|]); [done|congruence].
      + destruct Hr as [-> ->]. split; [done|]. intros _ _. right. by exists uri.
    - by intros cfg ->.
    - done. }
  eapply (makes_cons _ _ (cfg_stage first_wait_ms (with_config config (uri_config (uc_uri config) (cfg_tls config))))).
  { eapply makes_eq; [apply (makes_cfg_stage _ _ _ _ _ (fun cfg' => cfg' = with_config config (uri_config (uc_uri config) (cfg_tls config))))| |].
    - intros k w c H. eapply cends_mono; [by eapply set_config_spec|]. intros e cfg' [[-> ->]|[-> Hnf]]; (split; [done|]); [done|congruence].
    - by intros cfg ->.
    - done. }
  eapply (makes_cons _ _ (cfg_stage first_wait_ms (init_config config))).
  { unfold init_config, default_scheme. set (cfg := with_config config _).
    intros w0 w c H HP. pose proof (staged_cfg _ _ _ _ H (cfg_stage_config _ _ _ HP)) as Hcfg. eapply c_get_cfg; [exact Hcfg|].
    destruct (cf_scheme cfg) as [s|] eqn:Es; [by apply (makes_skip _ _ w0 w c H)|]. by apply (scheme_stage _ _ _ _ Es w0 w c H). }
  eapply (makes_cons _ _ (tick_stage first_wait_ms (init_config config) None None None 0)).
  { eapply makes_weaken; [apply (makes_ticks _ _ (fun t1 t2 t3 c => set_ws_selected_for_destroying (set_ws_wait_for_pong_resp
      (set_ws_ping_tick_ms (set_ws_reconnect_tick_ms (set_ws_keepalive_tick_ms c t1) t2) t3) false) false)); reflexivity|]. intros c (c0 & t1 & t2 & t3 & (k & n & ->) & ->). exists k, n, t1, t2, t3; ws_same_client. }
  eapply (makes_cons _ _ (tick_stage first_wait_ms (init_config config) None None None 0)).
  { eapply makes_weaken; [apply makes_upd; [intros c (k & n & t1 & t2 & t3 & ->); ws_blocks|done]|].
    intros c (c0 & (k & n & t1 & t2 & t3 & ->) & ->). exists k, n, t1, t2, t3; ws_same_client. }
  eapply (makes_cons _ _ (tick_stage first_wait_ms (init_config config) rx0 None None 0)).
  { unfold rx0. case_on_goal; [apply makes_skip|]. eapply makes_weaken; [apply makes_create; [|done]|].
    - intros c (k & n & t1 & t2 & t3 & ->). ws_blocks.
    - intros c (c0 & (k & n & t1 & t2 & t3 & ->) & ->). exists k, n, t1, t2, t3; ws_same_client. }
  eapply (makes_cons _ _ (tick_stage first_wait_ms (init_config config) rx0 rx0 None 0)).
  { unfold rx0. case_on_goal; [apply makes_skip|]. eapply makes_weaken; [apply makes_create; [|done]|].
    - intros c (k & n & t1 & t2 & t3 & ->). ws_blocks.
    - intros c (c0 & (k & n & t1 & t2 & t3 & ->) & ->). exists k, n, t1, t2, t3; ws_same_client. }
  eapply (makes_cons _ _ (tick_stage first_wait_ms (init_config config) rx0 rx0 (Some 0%Z) 0)).
  { eapply makes_weaken; [apply makes_create; [|done]|].
    - intros c (k & n & t1 & t2 & t3 & ->). ws_blocks.
    - intros c (c0 & (k & n & t1 & t2 & t3 & ->) & ->). exists k, n, t1, t2, t3; ws_same_client. }
  eapply (makes_cons _ _ (tick_stage first_wait_ms (init_config config) rx0 rx0 (Some STOPPED_BIT) 0)).
  { eapply makes_weaken; [apply makes_bits; intros c (k & n & t1 & t2 & t3 & ->); ws_flat; by eexists|].
    intros c (c0 & x & (k & n & t1 & t2 & t3 & ->) & [= <-] & ->). exists k, n, t1, t2, t3; ws_same_client. }
  eapply (makes_cons _ _ made); [|apply makes_nil].
  eapply makes_weaken; [apply makes_upd; [intros c (k & n & t1 & t2 & t3 & ->); ws_blocks|done]|].
  intros c (c0 & (k & n & t1 & t2 & t3 & ->) & ->). exists k, n, t1, t2, t3; ws_same_client.
Qed.

Lemma fixed_with_part uri f fld put cfg : str_field fld put -> fixed (with_part uri f put cfg) = fixed cfg.
Proof. intros [_ He]. unfold with_part. by case_on_goal. Qed.

Lemma fixed_with_uri uri u cfg : fixed (with_uri uri u cfg) = fixed cfg.
Proof.
  unfold with_uri. cbv zeta. set (c1 := with_part _ _ _ _).
  assert (E : fixed c1 = fixed cfg) by (unfold c1; by rewrite (fixed_with_part _ _ _ _ _ str_host), (fixed_with_part _ _ _ _ _ str_scheme)).
  clearbody c1. unfold with_userinfo. destruct (split_colon _) as [user [pass|]]; repeat case_on_goal; exact E.
Qed.

Lemma fixed_fold (gs : list (websocket_config_storage_t -> websocket_config_storage_t)) cfg :
  Forall (fun g => forall cfg, fixed (g cfg) = fixed cfg) gs -> fixed (foldl (fun cfg g => g cfg) cfg gs) = fixed cfg.
Proof.
  intros Hg. revert cfg. induction Hg as [|g gs Hg _ IH]; intros cfg; cbn [foldl]; [done|]. by rewrite IH, Hg.
Qed.

Lemma fixed_with_str s fld put cfg : str_field fld put -> fixed (with_str s put cfg) = fixed cfg.
Proof. intros [_ He]. destruct s; [apply He|done]. Qed.

Lemma fixed_with_config cfg : fixed (with_config config cfg) = fixed cfg.
Proof.
  unfold with_config. change (fixed (set_intervals config ?c)) with (fixed c). rewrite fixed_fold; [done|].
  repeat apply Forall_cons_2; [..|apply Forall_nil_2]; intros c1;
    first [by case_on_goal|by (eapply fixed_with_str; apply str_host)|by (eapply fixed_with_str; apply str_username)
      |by (eapply fixed_with_str; apply str_password)|by (eapply fixed_with_str; apply str_uri)
      |by (eapply fixed_with_str; apply str_path)|by (eapply fixed_with_str; apply str_subprotocol)
      |by (eapply fixed_with_str; apply str_user_agent)|by (eapply fixed_with_str; apply str_headers)|idtac].
  unfold with_auth. by repeat case_on_goal.
Qed.

Lemma fixed_default cfg : fixed (default_scheme cfg) = fixed cfg.
Proof. unfold default_scheme. by case_on_goal. Qed.

Lemma fixed_uri_config uri cfg : fixed (uri_config uri cfg) = fixed cfg.
Proof. unfold uri_config. case_on_goal; [|done]. case_on_goal; [apply fixed_with_uri|done]. Qed.

Lemma fixed_tls : fixed (cfg_tls config) = (uc_ext_transport config, uc_tls config).
Proof. done. Qed.

(** What of the configuration belongs to the application is what it gave. *)
Lemma fixed_init : fixed (init_config config) = (uc_ext_transport config, uc_tls config).
Proof. unfold init_config. by rewrite fixed_default, fixed_with_config, fixed_uri_config, fixed_tls. Qed.

#[local] Opaque init_config.

Lemma init_ext : cf_ext_transport (init_config config) = uc_ext_transport config.
Proof. exact (f_equal fst fixed_init). Qed.

Lemma init_tls : cf_tls (init_config config) = uc_tls config.
Proof. exact (f_equal snd fixed_init). Qed.

Lemma fresh_ok c ks : fresh config c -> tls_ok (uc_tls config) -> (forall i, uc_ext_transport config = Some i -> i ∈ ks) ->
  client_ok dyn ks c (init_config config).
Proof.
  intros [] Htls Hext. pose proof init_ext as Ee. pose proof init_tls as Et. destruct fr_msg0 as [Em1 Em2], fr_transport0 as [Et1 Et2].
  assert (Hbs : 0 < init_buffer_size config).
  { unfold init_buffer_size. case_on_goal; bsimp; unfold WEBSOCKET_BUFFER_SIZE_BYTE; lia. }
  split; rewrite ?Em1, ?Et1, ?Et2, ?Ee, ?Et, ?fr_size0, ?fr_state0, ?fr_bits0, ?fr_rx0, ?fr_tx0; try done;
    (case_on_goal; [done|apply length_replicate]).
Qed.

Lemma zero_blocks : client_blocks zero_client = 1%Z.
Proof. done. Qed.

Lemma init_spec w : w_client w = None -> balanced nf base 0 w ->
  Forall (frame_fits (init_buffer_size config)) (w_reads w) -> Forall (Forall handler_ok) (w_reactions w) ->
  tls_ok (uc_tls config) -> (forall i, uc_ext_transport config = Some i -> i ∈ keys w) ->
  yields (esp_websocket_client_init config w) (fun r =>
    if fst r then exists c, ok_at 0 (snd r) c (init_config config) /\ fresh config c /\ w_log (snd r) = w_log w
    else w_client (snd r) = None /\ balanced nf base 0 (snd r) /\ (nf = true -> refused config)).
Proof.
  intros Hw Hbal Hreads Hreact Htls Hext. unfold esp_websocket_client_init.
  eapply st_seq; [by eapply balanced_new|]. intros p w1 (h & E & Hp & Hn & Hlive). cbn [fst snd] in *. subst w1.
  destruct Hbal as (_ & leak & H0 & Hlk & Hlive0). rewrite Hw in Hlive0. cbn [blocks_of] in Hlive0.
  destruct Hp as [-> |[-> Hnf]]; cbn [opt_block] in Hlive.
  2:{ cbn. split; [done|]. split; [|congruence]. split; [done|]. exists leak. split_and!; try done. cbn. rewrite Hw. cbn. lia. }
  apply st_writes. set (w1 := set_w_client _ _).
  assert (H1 : staged w w1 zero_client).
  { split; try done. split; [done|]. exists leak. split_and!; try done. cbn. rewrite zero_blocks. lia. }
  eapply (st_seq _ _ _ (fun r : bool * ws_world => if fst r then staged w (snd r) (part_client None None)
      else nf = false /\ staged w (snd r) zero_client)).
  { unfold create. eapply st_seq; [eapply balanced_new, (st_heap _ _ _ H1)|].
    intros p w2 (h2 & E & Hp & Hn2 & Hl2). cbn [fst snd] in *. subst w2.
    assert (Hlive1 : live (w_heap w1) = (base + 1 + leak)%Z) by (unfold w1; cbn; lia).
    destruct Hp as [-> |[-> Hnf]]; cbn [opt_block] in Hl2.
    - unfold upd, get. apply st_assoc. eapply st_asks; [done|]. cbn [yields writes mret ST_ret mbind ST_bind fst snd].
      split; try done. split; [done|]. exists leak. split_and!; try done.
      change (live h2 = base + 2 + 0 + leak)%Z. lia.
    - cbn [yields mret ST_ret fst snd]. split; [done|]. split; try done. split; [done|]. exists leak. split_and!; try done.
      change (live h2 = base + 1 + 0 + leak)%Z. lia. }
  intros ok w2 Hok. cbn [fst snd] in *. destruct ok; cbn [negb].
  - rename Hok into H2. set (c2 := part_client None None) in *. assert (E2 : c2 = part_client None None) by done.
    eapply st_seq; [by apply (init_steps_make w w2 c2 H2)|].
    intros ok w3 (c3 & H3 & Ht & Hf). cbn [fst snd] in *. destruct ok; cbn [negb].
    + cbn [yields mret ST_ret fst snd]. exists c3. pose proof (made_fresh _ (Ht eq_refl)) as Hfr. destruct H3.
      split; [|by split]. split; try done.
      * rewrite st_keys0. by apply fresh_ok.
      * by rewrite st_reads0, (fr_size _ _ Hfr).
      * by rewrite st_reactions0.
    + eapply st_seq; [eapply destroy_spec; [apply (st_client _ _ _ H3)|apply (st_heap _ _ _ H3)|]|].
      { intros l Hl. rewrite (st_list _ _ _ H3) in Hl. done. }
      intros [] w4 (Hc4 & Hb4 & _). cbn. auto.
  - destruct Hok as [Hnf H2]. pose proof H2 as [Hc2 (Hn2 & leak2 & H02 & Hlk2 & Hlive2) _ _ _ _ _ _].
    rewrite Hc2 in Hlive2. cbn [blocks_of] in Hlive2. rewrite zero_blocks in Hlive2. apply s_free, st_writes. cbn. split; [done|]. split; [|congruence].
    split; [done|]. exists leak2. split_and!; try done. cbn. lia.
Qed.

End Steps.

End Init.
