(* ===== verification/WsRun.v ===== *)
(** The task of the websocket client and the calls of the application keep the
    invariant, step by step. *)
From S2P Require Import Prelude Heap State WsData Ws WsConfig WsTask WsProofs WsSafe WsConfigProofs WsLife.

Section Run.
Context {options : ws_options} {externals : ws_externals} {laws : ws_laws} (nf : bool) (base : Z).

Abbreviation dyn := enable_dynamic_buffer.
Abbreviation ok_at := (ws_at dyn nf base).
Abbreviation fin := (ends nf base).
Abbreviation any := (fun _ _ _ => True).
Abbreviation disp := esp_websocket_client_dispatch_event.

(** A step that keeps the client, whatever it returns. *)
Definition good {A} (m : W A) : Prop := forall k w c cfg, ok_at k w c cfg -> yields (m w) (fin k w c any).

(** The same for a client that has a transport. *)
Definition good_t {A} (m : W A) : Prop := forall k w c cfg, ok_at k w c cfg -> is_Some (ws_transport c) ->
  yields (m w) (fin k w c any).

Lemma good_ret {A} (a : A) : good (mret a).
Proof. intros k w c cfg H. by eapply w_ends. Qed.

Lemma good_bind {A B} (m : W A) (f : A -> W B) : good m -> (forall a, good (f a)) -> good (m ≫= f).
Proof.
  intros Hm Hf k w c cfg H. eapply ends_bind; [by eapply Hm|]. intros a w1 c1 cfg1 H1 K1 _. by eapply Hf.
Qed.

Lemma good_t_of {A} (m : W A) : good m -> good_t m.
Proof. intros Hm k w c cfg H _. by eapply Hm. Qed.

Lemma good_t_ret {A} (a : A) : good_t (mret a).
Proof. apply good_t_of, good_ret. Qed.

Lemma good_t_bind {A B} (m : W A) (f : A -> W B) : good_t m -> (forall a, good_t (f a)) -> good_t (m ≫= f).
Proof.
  intros Hm Hf k w c cfg H Ht. eapply ends_bind; [by eapply Hm|]. intros a w1 c1 cfg1 H1 K1 _.
  eapply Hf; [exact H1|]. by rewrite (kp_transport _ _ _ _ K1).
Qed.

Lemma good_t_get {B} (f : ws_client -> W B) :
  (forall k w c cfg, ok_at k w c cfg -> is_Some (ws_transport c) -> yields (f c w) (fin k w c any)) -> good_t (get ≫= f).
Proof. intros Hf k w c cfg H Ht. eapply w_get; [exact H|]. by eapply Hf. Qed.

Lemma good_t_cfg {B} (f : websocket_config_storage_t -> W B) : (forall cfg, good_t (f cfg)) -> good_t (get_cfg ≫= f).
Proof. intros Hf k w c cfg H Ht. eapply w_get_cfg; [exact H|]. by eapply Hf. Qed.

Lemma good_any {A} k w c (P : A -> ws_world -> ws_client -> Prop) m : yields m (fin k w c P) -> yields m (fin k w c any).
Proof. intros Hm. by eapply ends_mono. Qed.

Lemma good_event ev d n : good (disp ev d n).
Proof. intros k w c cfg H. eapply good_any. by eapply event_spec. Qed.

Lemma good_error r : good (esp_websocket_client_error disp r).
Proof. intros k w c cfg H. eapply good_any. by eapply client_error_spec. Qed.

Lemma good_abort e : good_t (esp_websocket_client_abort_connection disp e).
Proof. intros k w c cfg H Ht. eapply good_any. by eapply abort_connection_spec. Qed.

Lemma good_recv : good_t esp_websocket_client_recv.
Proof. intros k w c cfg H Ht. by eapply recv_spec. Qed.

Lemma good_tick : good _tick_get_ms.
Proof. intros k w c cfg H. eapply good_any. by eapply tick_spec. Qed.

(** An assignment the invariant is not about. *)
Lemma good_upd g : (forall c, core (g c) = core c) -> (forall c, ws_run (g c) = true -> ws_run c = true) ->
  good_t (upd g).
Proof. intros Hc Hr k w c cfg H Ht. eapply w_quiet_last; [exact H|by apply Hc|by apply Hr|done|done]. Qed.

Lemma good_set_bits b : b = CLOSE_FRAME_SENT_BIT \/ b = WAKEUP_BIT -> good (set_bits b).
Proof. intros Hb k w c cfg H. eapply good_any. by eapply set_bits_spec. Qed.

Lemma clear_bits_spec k w c cfg b : ok_at k w c cfg -> b = CLOSE_FRAME_SENT_BIT \/ b = WAKEUP_BIT ->
  yields (clear_bits b w) (fin k w c (fun _ _ c' => exists x, c' = set_ws_status_bits c (Some x))).
Proof.
  intros H Hb. unfold clear_bits. eapply w_bits; [exact H|]. intros x Hx. eapply w_upd_last; [exact H|].
  destruct (bits_upd nf base k w c cfg x (Z.ldiff x b) H Hx) as [H1 K1].
  - rewrite !bit_stopped, Z.ldiff_spec. by destruct Hb as [-> | ->]; rewrite andb_true_r.
  - rewrite !bit_requested, Z.ldiff_spec. by destruct Hb as [-> | ->]; rewrite andb_true_r.
  - exists (set_ws_status_bits c (Some (Z.ldiff x b))), cfg. split_and!; try done. by eexists.
Qed.

Lemma good_clear_bits b : b = CLOSE_FRAME_SENT_BIT \/ b = WAKEUP_BIT -> good (clear_bits b).
Proof. intros Hb k w c cfg H. eapply good_any. by eapply clear_bits_spec. Qed.

Lemma good_bits {B} (f : Z -> W B) : (forall b, good_t (f b)) -> good_t (get_bits ≫= f).
Proof. intros Hf k w c cfg H Ht. eapply w_bits; [exact H|]. intros b _. by eapply Hf. Qed.

Lemma good_raw op p : good_t (c ← get; esp_transport_ws_send_raw (ws_transport c) op p).
Proof. intros k w c cfg H Ht. eapply w_get; [exact H|]. eapply good_any. by eapply send_raw_spec. Qed.

Create HintDb ws_good.
Hint Resolve good_ret good_event good_error good_abort good_recv good_tick good_set_bits good_clear_bits good_raw
  good_t_ret : ws_good.
Hint Extern 1 (_ = _ \/ _ = _) => solve [by left|by right] : ws_good.
Hint Extern 1 (good_t _) => solve [apply good_t_of; auto with ws_good nocore] : ws_good.

(** * The cases of the switch *)

Lemma good_check_pong : good_t check_pong.
Proof.
  apply good_t_bind; [auto with ws_good|]. intros t. apply good_t_get. intros k w c cfg H Ht. eapply w_get_cfg; [exact H|].
  case_on_goal; [|by eapply w_ends].
  eapply (good_t_bind _ _ (good_t_of _ (good_error _))); [|exact H|done]. intros _.
  apply good_t_bind; [auto with ws_good|]. intros _. auto with ws_good.
Qed.

Lemma good_send_ping : good_t send_ping.
Proof.
  apply good_t_bind; [auto with ws_good|]. intros t. apply good_t_get. intros k w c cfg H Ht. eapply w_get_cfg; [exact H|].
  case_on_goal; [|by eapply w_ends].
  eapply ends_bind; [by eapply tick_spec|]. intros t2 w2 c2 cfg2 H2 K2 [_ ->].
  eapply w_quiet; [exact H2|done|done|apply (ok_state _ _ _ _ (at_is_ok _ _ _ _ _ _ H2))|]. intros w3 -> H3 K3.
  eapply ends_bind; [eapply (send_raw_spec nf base k _ (set_ws_ping_tick_ms c t2)); [exact H3|done]|]. intros n w4 c4 cfg4 H4 K4 [_ ->].
  eapply w_get; [exact H4|]. case_on_goal; [|by eapply w_ends].
  eapply ends_bind; [by eapply tick_spec|]. intros t5 w5 c5 cfg5 H5 K5 [_ ->]. by eapply w_quiet_last.
Qed.

Lemma good_connected_case : good_t case_connected.
Proof.
  apply good_bits. intros b. case_on_goal; [apply good_t_ret|]. apply good_t_bind; [apply good_send_ping|].
  intros _. apply good_check_pong.
Qed.

Lemma good_wait_case : good_t case_wait_timeout.
Proof.
  apply good_t_get. intros k w c cfg H Ht.
  assert (Hgo : good_t (t ← _tick_get_ms; upd (fun c => set_ws_reconnect_tick_ms (set_ws_state c WEBSOCKET_STATE_INIT) t))).
  { apply good_t_bind; [auto with ws_good|]. intros t. by apply good_upd. }
  case_on_goal; [by eapply Hgo|].
  eapply ends_bind; [by eapply tick_spec|]. intros t w1 c1 cfg1 H1 K1 [_ ->]. case_on_goal; [by eapply Hgo|by eapply w_ends].
Qed.

Lemma good_closing_case : good_t case_closing.
Proof.
  apply good_bits. intros b. case_on_goal; [apply good_t_ret|]. apply good_t_get. intros k w c cfg H Ht.
  eapply ends_bind; [by eapply send_raw_spec|]. intros n w1 c1 cfg1 H1 K1 _. eapply good_set_bits; [by left|exact H1].
Qed.

(** ** Connecting *)

Lemma good_headers l : good (iter l websocket_header_hook).
Proof.
  induction l as [|x l IH]; cbn [iter]; [apply good_ret|]. apply good_bind; [|intros _; exact IH].
  unfold websocket_header_hook. apply good_bind; [apply good_event|]. intros _. apply good_ret.
Qed.

Lemma good_connect : good_t esp_transport_connect.
Proof.
  apply good_t_get. intros k w c cfg H Ht. eapply w_get_cfg; [exact H|]. eapply w_use_own; [exact H|done|]. intros i _.
  eapply ends_bind; [by eapply out_spec|]. intros [] w1 c1 cfg1 H1 K1 ->.
  eapply ends_bind; [eapply next_spec; [exact H1|]; intros l _; split; cbn; first [done|lia]|].
  intros a w2 c2 cfg2 H2 K2 [_ ->].
  eapply (ends_bind nf base k k _ _ any).
  - case_on_goal; [by eapply good_headers|by eapply w_ends].
  - intros [] w3 c3 cfg3 H3 K3 _. by eapply w_ends.
Qed.

Lemma good_connected : good_t connected.
Proof.
  apply good_t_bind; [by apply good_upd|]. intros _. apply good_t_bind; [auto with ws_good|]. intros _.
  apply good_t_bind; [auto with ws_good|]. intros _. apply good_t_get. intros k w c cfg H Ht.
  eapply ends_bind; [by eapply poll_spec|]. intros r w1 c1 cfg1 H1 K1 _. rewrite <- (kp_transport _ _ _ _ K1) in Ht.
  case_on_goal; [|by eapply w_ends].
  eapply ends_bind; [by eapply recv_spec|]. intros e w2 c2 cfg2 H2 K2 _. rewrite <- (kp_transport _ _ _ _ K2) in Ht.
  case_decide; [|by eapply w_ends].
  eapply ends_bind; [by eapply good_abort|]. intros e2 w3 c3 cfg3 H3 K3 _. by eapply w_ends.
Qed.

Lemma default_port_spec k w c cfg : ok_at k w c cfg ->
  yields (esp_transport_get_default_port (ws_transport c) w) (fin k w c any).
Proof.
  intros H. unfold esp_transport_get_default_port. destruct (ws_transport c) as [i|] eqn:Hi; [|by eapply w_ends].
  pose proof (ok_transport _ _ _ _ (at_is_ok _ _ _ _ _ _ H) i Hi) as Hk.
  assert (exists l, settings_of i (w_transports w) = Some l) as [l Hl].
  { clear -Hk. unfold keys, settings_of in *. induction (w_transports w) as [|[j s] l IH]; cbn in *; [by apply elem_of_nil in Hk|].
    apply elem_of_cons in Hk as [->|Hk]; [rewrite Nat.eqb_refl; by eexists|]. destruct (j =? i); [by eexists|auto]. }
  unfold asks. rewrite Hl. cbn [deref mbind outcome_bind yields]. by eapply ends_here.
Qed.

Lemma port_upd k w c cfg p : ok_at k w c cfg -> yields (upd_cfg (fun cfg => set_cf_port cfg p) w) (fin k w c any).
Proof.
  intros H. eapply good_any. eapply (upd_cfg_spec nf base k k); [exact H|done|]. unfold config_blocks. cbn. lia.
Qed.

(** A port that is not set becomes the default of the transport. *)
Lemma default_port_step k w c cfg : ok_at k w c cfg ->
  yields ((if (cf_port cfg =? 0)%Z then
         p ← esp_transport_get_default_port (ws_transport c); upd_cfg (fun cfg => set_cf_port cfg p)
       else mret tt) w) (fin k w c any).
Proof.
  intros H. case_on_goal; [|by eapply w_ends]. eapply ends_bind; [by eapply default_port_spec|].
  intros p w1 c1 cfg1 H1 K1 _. by eapply port_upd.
Qed.

Lemma set_uri_at k w c cfg uri : ok_at k w c cfg -> yields (esp_websocket_client_set_uri uri w) (fin k w c any).
Proof. intros H. eapply good_any. eapply cfg_lift; [exact H|]. intros Hc. by eapply set_uri_spec. Qed.

Lemma good_redirect redir : good_t (follow_redirect redir).
Proof.
  intros k w c cfg H Ht. unfold follow_redirect. eapply w_get_cfg; [exact H|].
  eapply (ends_bind nf base k (k - opt_block (cf_uri cfg))); [by eapply opt_free_spec|]. intros [] w1 c1 cfg1 H1 K1 ->.
  assert (cfg1 = cfg) as ->.
  { pose proof (ok_config _ _ _ _ (at_is_ok _ _ _ _ _ _ H1)). pose proof (ok_config _ _ _ _ (at_is_ok _ _ _ _ _ _ H)). congruence. }
  eapply st_seq; [by eapply new_block_spec|]. intros u w2 (Hu & H2 & K2). cbn [fst snd] in *.
  eapply ends_from; [exact K2| |done].
  eapply (ends_bind nf base k k); [eapply (upd_cfg_spec nf base _ k); [exact H2|done|]|].
  { unfold config_blocks. cbn. lia. }
  intros [] w3 c3 cfg3 H3 K3 ->.
  eapply ends_bind; [by eapply set_uri_at|]. intros e w4 c4 cfg4 H4 K4 _.
  eapply w_get_cfg; [exact H4|]. eapply w_get; [exact H4|].
  eapply (ends_bind nf base k k _ _ any).
  - by eapply default_port_step.
  - intros [] w5 c5 cfg5 H5 K5 _. by eapply w_quiet_last.
Qed.

Lemma good_init_case : good case_init.
Proof.
  intros k w c cfg H. unfold case_init. eapply w_get; [exact H|]. destruct (ws_transport c) as [i|] eqn:Et.
  2:{ eapply w_quiet_last; [exact H|done|done| |done]. cbn. apply (ok_state _ _ _ _ (at_is_ok _ _ _ _ _ _ H)). }
  assert (Ht : is_Some (ws_transport c)) by by rewrite Et. clear Et. revert k w c cfg H Ht.
  change (good_t (_ ← disp WEBSOCKET_EVENT_BEFORE_CONNECT None 0; a ← esp_transport_connect;
      if (ca_result a <? 0)%Z then
        _ ← upd (fun c => set_ws_handshake_status c (ca_status a));
        _ ← esp_websocket_client_error disp (ReportConnect (ca_result a) (ca_status a));
        _ ← esp_websocket_client_abort_connection disp WEBSOCKET_ERROR_TYPE_TCP_TRANSPORT;
        mret tt
      else
        match (if redirect_header_support && WS_HTTP_REDIRECT (ca_result a) then ca_redir a else None) with
        | Some redir => follow_redirect redir
        | None => connected
        end)).
  apply good_t_bind; [auto with ws_good|]. intros _. apply good_t_bind; [apply good_connect|]. intros a.
  destruct (ca_result a <? 0)%Z.
  - apply good_t_bind; [|intros _; apply good_t_bind; [auto with ws_good|intros _;
      apply good_t_bind; [auto with ws_good|intros _; auto with ws_good]]].
    intros k w c cfg H Ht. by eapply w_quiet_last.
  - destruct (if redirect_header_support && WS_HTTP_REDIRECT (ca_result a) then ca_redir a else None);
      [apply good_redirect|apply good_connected].
Qed.

Lemma good_switch : good task_switch.
Proof.
  intros k w c cfg H. unfold task_switch. eapply take_lock_spec; [exact H|]. eapply w_get; [exact H|].
  pose proof (ok_state _ _ _ _ (at_is_ok _ _ _ _ _ _ H)) as Hs. destruct (ws_state c); cbn in Hs; try by eapply w_ends.
  - by eapply good_init_case.
  - eapply good_connected_case; [exact H|auto].
  - eapply good_wait_case; [exact H|auto].
  - eapply good_closing_case; [exact H|auto].
Qed.

End Run.
