(* ===== verification/WsSteps.v ===== *)
(** The steps of the task of the websocket client behind its [switch], its begin and
    its end, and the calls that start and stop it. *)
From S2P Require Import Prelude Heap State WsData Ws WsConfig WsTask WsProofs WsSafe WsConfigProofs WsLife WsRun.

Section Steps.
Context {options : ws_options} {externals : ws_externals} {laws : ws_laws} (nf : bool) (base : Z).

Abbreviation dyn := enable_dynamic_buffer.
Abbreviation ok_at := (ws_at dyn nf base).
Abbreviation fin := (ends nf base).
Abbreviation any := (fun _ _ _ => True).

(** * Behind the switch *)

(** Where the task may be when it has a transport, or need not have one. *)
Definition after_ok (pc : task_pc) (c : ws_client) : Prop :=
  match pc with
  | TaskPolled _ | TaskClosed => is_Some (ws_transport c)
  | TaskTop | TaskWaiting _ | TaskAfter => True
  | TaskFinish => ws_run c = false
  | TaskNone | TaskCreated => False
  end.

Lemma after_spec k w c cfg : ok_at k w c cfg -> yields (task_after w) (fin k w c (fun pc _ c' => after_ok pc c' /\ pc <> TaskAfter)).
Proof.
  intros H. unfold task_after. eapply w_get; [exact H|]. pose proof (ok_state _ _ _ _ (at_is_ok _ _ _ _ _ _ H)) as Hs.
  destruct (ws_state c); cbn [uses_transport] in Hs; try by eapply w_ends.
  - eapply ends_bind; [eapply poll_spec; [exact H|auto]|]. intros r w1 c1 cfg1 H1 K1 _. eapply w_ends; [exact H1|].
    cbn. rewrite (kp_transport _ _ _ _ K1). split; [auto|done].
  - eapply ends_bind; [eapply (good_clear_bits nf base WAKEUP_BIT); [by right|exact H]|]. intros [] w1 c1 cfg1 H1 K1 _.
    case_on_goal; [|by eapply w_ends]. eapply ends_bind; [by eapply tick_spec|]. intros t w2 c2 cfg2 H2 K2 _.
    case_on_goal; by eapply w_ends.
  - eapply w_bits; [exact H|]. intros b _. case_on_goal; [|by eapply w_ends].
    eapply w_use_own; [exact H|auto|]. intros i _. eapply w_ends; [exact H|]. cbn. split; [auto|done].
Qed.

Lemma good_polled r : good_t nf base (task_polled r).
Proof.
  intros k w c cfg H Ht. unfold task_polled. case_on_goal; [by eapply w_ends|]. eapply take_lock_spec; [exact H|].
  case_on_goal.
  - eapply ends_bind; [by eapply client_error_spec|]. intros e w1 c1 cfg1 H1 K1 _. rewrite <- (kp_transport _ _ _ _ K1) in Ht.
    eapply ends_bind; [by eapply abort_connection_spec|]. intros e2 w2 c2 cfg2 H2 K2 _. by eapply w_ends.
  - eapply ends_bind; [by eapply recv_spec|]. intros e w1 c1 cfg1 H1 K1 _. rewrite <- (kp_transport _ _ _ _ K1) in Ht.
    case_decide; [|by eapply w_ends].
    eapply ends_bind; [by eapply abort_connection_spec|]. intros e2 w2 c2 cfg2 H2 K2 _. by eapply w_ends.
Qed.

(** * Bits that the running client keeps *)

Lemma stopped_bit c x : ws_status_bits c = Some x -> bit_of STOPPED_BIT c = Z.testbit x 0.
Proof. intros Hx. unfold bit_of. by rewrite Hx, bit_stopped. Qed.

Lemma requested_bit c x : ws_status_bits c = Some x -> bit_of REQUESTED_STOP_BIT c = Z.testbit x 2.
Proof. intros Hx. unfold bit_of. by rewrite Hx, bit_requested. Qed.

(** A bit after the event group was changed. *)
Ltac ws_bit := unfold bit_of; cbn [ws_status_bits set_ws_status_bits set_ws_task_handle set_ws_state set_ws_run];
  rewrite ?bit_stopped, ?bit_requested, ?Z.lor_spec, ?Z.ldiff_spec, ?orb_true_r, ?andb_false_r, ?orb_false_r.

(** The event group of a client gets new bits. *)
Lemma bits_at k w c cfg x : ok_at k w c cfg ->
  ok_at k (set_w_client w (Some (set_ws_status_bits c (Some x)))) (set_ws_status_bits c (Some x)) cfg.
Proof.
  intros H. pose proof (at_is_ok _ _ _ _ _ _ H) as []. destruct ok_bits as [b Hb].
  eapply at_upd; [exact H|by split|done|]. unfold client_blocks. cbn. rewrite Hb. cbn. lia.
Qed.

Lemma clear_spec k w c cfg b : ok_at k w c cfg -> yields (clear_bits b w) (fun r => exists x,
  let c' := set_ws_status_bits c (Some (Z.ldiff x b)) in
  ws_status_bits c = Some x /\ ok_at k (snd r) c' cfg /\ snd r = set_w_client w (Some c')).
Proof.
  intros H. unfold clear_bits. eapply w_bits; [exact H|]. intros x Hx. eapply w_upd_last; [exact H|].
  exists x. split; [done|]. split; [by apply bits_at|done].
Qed.

Lemma set_spec k w c cfg b : ok_at k w c cfg -> yields (set_bits b w) (fun r => exists x,
  let c' := set_ws_status_bits c (Some (Z.lor x b)) in
  ws_status_bits c = Some x /\ ok_at k (snd r) c' cfg /\ snd r = set_w_client w (Some c')).
Proof.
  intros H. unfold set_bits. eapply w_bits; [exact H|]. intros x Hx. eapply w_upd_last; [exact H|].
  exists x. split; [done|]. split; [by apply bits_at|done].
Qed.

(** [STOPPED_BIT] is cleared when it is clear already. *)
Lemma clear_running k w c cfg : ok_at k w c cfg -> bit_of STOPPED_BIT c = false ->
  yields (clear_bits (Z.lor STOPPED_BIT CLOSE_FRAME_SENT_BIT) w)
    (fin k w c (fun _ _ c' => exists x, c' = set_ws_status_bits c (Some x))).
Proof.
  intros H Hs. unfold clear_bits. eapply w_bits; [exact H|]. intros x Hx. eapply w_upd_last; [exact H|].
  rewrite (stopped_bit _ _ Hx) in Hs.
  destruct (bits_upd nf base k w c cfg x (Z.ldiff x (Z.lor STOPPED_BIT CLOSE_FRAME_SENT_BIT)) H Hx) as [H1 K1].
  - rewrite !bit_stopped, Z.ldiff_spec, Hs. done.
  - rewrite !bit_requested, Z.ldiff_spec. by rewrite andb_true_r.
  - eexists _, cfg. split_and!; try done. by eexists.
Qed.

Lemma closed_spec k w c cfg : ok_at k w c cfg -> is_Some (ws_transport c) -> bit_of STOPPED_BIT c = false ->
  yields (task_closed w) (fin k w c (fun pc _ c' => pc = TaskTop \/ pc = TaskFinish /\ ws_run c' = false)).
Proof.
  intros H Ht Hs. unfold task_closed. eapply w_get_cfg; [exact H|]. case_on_goal.
  - eapply take_lock_spec; [exact H|]. eapply w_quiet; [exact H|done|done|done|]. intros w1 _ H1 K1.
    eapply w_get; [exact H1|]. eapply ends_bind; [by eapply close_spec|]. intros [] w2 c2 cfg2 H2 K2 [-> _].
    eapply ends_bind; [by eapply event_spec|]. intros e w3 c3 cfg3 H3 K3 _.
    eapply ends_bind; [by eapply tick_spec|]. intros t w4 c4 cfg4 H4 K4 [_ ->].
    eapply w_quiet; [exact H4|done|done|apply (ok_state _ _ _ _ (at_is_ok _ _ _ _ _ _ H4))|]. intros w5 _ H5 K5.
    eapply ends_bind; [eapply clear_running; [exact H5|]|].
    { rewrite (kp_stopped _ _ _ _ K5), (kp_stopped _ _ _ _ K3). done. }
    intros [] w6 c6 cfg6 H6 K6 _. eapply w_ends; [exact H6|]. by left.
  - eapply w_quiet; [exact H|done|done|done|]. intros w1 _ H1 K1.
    eapply ends_bind; [by eapply event_spec|]. intros e w2 c2 cfg2 H2 K2 _. eapply w_ends; [exact H2|].
    right. split; [done|]. destruct (ws_run c2) eqn:E; [|done]. by specialize (kp_run _ _ _ _ K2 E).
Qed.
(** * The begin of the task *)

(** There is a transport, or what it takes to look for one. *)
Definition ready (c : ws_client) : Prop := ws_transport c = None -> forall cfg, ws_config c = Some cfg ->
  cf_ext_transport cfg = None -> is_Some (cf_scheme cfg) /\ is_Some (ws_transport_list c).

Lemma core_at k w c cfg c' : ok_at k w c cfg -> core c' = core c ->
  (uses_transport (ws_state c') = true -> is_Some (ws_transport c)) -> ok_at k (set_w_client w (Some c')) c' cfg.
Proof.
  intros H Hc Hs. destruct (core_ok _ _ _ _ Hc Hs (at_is_ok _ _ _ _ _ _ H)) as [Hok Hb]. injection Hc as E1 E2 E3 E4 E5 E6 E7 E8 E9 E10 E11.
  eapply at_upd; [exact H|done|done|lia].
Qed.

(** The transport of the client is chosen. *)
Lemma transport_at k w c cfg t : ok_at k w c cfg -> (forall i, t = Some i -> i ∈ keys w) ->
  (uses_transport (ws_state c) = true -> is_Some t) ->
  ok_at k (set_w_client w (Some (set_ws_transport c t))) (set_ws_transport c t) cfg.
Proof.
  intros H Ht Hs. pose proof (at_is_ok _ _ _ _ _ _ H) as []. eapply at_upd; [exact H|by split|done|].
  unfold client_blocks. cbn. lia.
Qed.

Lemma listed k w c cfg l s i : ok_at k w c cfg -> ws_transport_list c = Some l -> transport_list_get l s = Some i -> i ∈ keys w.
Proof.
  intros H Hl Hg%list_get_in. pose proof (ok_list _ _ _ _ (at_is_ok _ _ _ _ _ _ H) l Hl) as Hall.
  apply list_elem_of_fmap in Hg as (x & -> & Hx). rewrite Forall_forall in Hall. by apply Hall.
Qed.

(** What the begin of the task leaves as it was. *)
Record begun (w w' : ws_world) (c c' : ws_client) : Prop := {
  bg_stopped : bit_of STOPPED_BIT c' = bit_of STOPPED_BIT c;
  bg_requested : bit_of REQUESTED_STOP_BIT c' = bit_of REQUESTED_STOP_BIT c;
  bg_selected : ws_selected_for_destroying c' = ws_selected_for_destroying c;
  bg_transport : is_Some (ws_transport c) -> ws_transport c' = ws_transport c;
}.

Lemma begin_spec k w c cfg : ok_at k w c cfg -> ready c -> bit_of STOPPED_BIT c = false -> before_init (ws_state c) = true ->
  yields (task_begin w) (fun r => exists c' cfg', ok_at k (snd r) c' cfg' /\ begun w (snd r) c c').
Proof.
  intros H Hr Hstop Hst. unfold task_begin. eapply w_upd; [exact H|]. set (c1 := set_ws_run c true). set (w1 := set_w_client w _).
  assert (Hu : uses_transport (ws_state c) = false) by by destruct (ws_state c).
  assert (H1 : ok_at k w1 c1 cfg) by (apply core_at with (c := c); [exact H|done|cbn; by rewrite Hu]).
  eapply w_get; [exact H1|]. eapply w_get_cfg; [exact H1|].
  eapply (st_seq _ _ _ (fun r => exists c2, ok_at k (snd r) c2 cfg /\ begun w (snd r) c c2)).
  { assert (Hsame : exists c2, ok_at k w1 c2 cfg /\ begun w w1 c c2) by (exists c1; split; [done|by split]).
    cbn [ws_transport set_ws_run c1]. destruct (ws_transport c) as [i|] eqn:Et; [exact Hsame|].
    destruct (cf_ext_transport cfg) as [i|] eqn:Ee; [exact Hsame|].
    destruct (Hr Et cfg (ok_config _ _ _ _ (at_is_ok _ _ _ _ _ _ H)) Ee) as [[s Hs] [l Hl]].
    eapply st_asks; [by rewrite Hs|]. eapply st_asks; [unfold c1; cbn; by rewrite Hl|]. eapply w_upd_last; [exact H1|]. eexists. split.
    - eapply transport_at; [exact H1| |cbn; by rewrite Hu]. intros i Hi. eapply (listed k w1 c1); [exact H1|exact Hl|exact Hi].
    - split; try done. rewrite Et. by intros [? ?]. }
  intros [] w2 (c2 & H2 & [B1 B2 B3 B4]). cbn [snd] in *. eapply w_get; [exact H2|].
  eapply (yields_mono _ (fin k w2 c2 any)).
  2:{ intros r (c3 & cfg3 & H3 & K3 & _). exists c3, cfg3. split; [done|]. split.
      - by rewrite (kp_stopped _ _ _ _ K3).
      - by rewrite (kp_requested _ _ _ _ K3).
      - by rewrite (kp_selected _ _ _ _ K3).
      - intros Hi. rewrite (kp_transport _ _ _ _ K3). auto. }
  eapply (ends_bind nf base k k _ _ (fun _ _ c' => ws_transport c' = ws_transport c2)).
  { destruct (ws_transport c2) eqn:Et; [by eapply w_ends|]. eapply w_quiet_last; [exact H2|done|done| |done].
    apply (ok_state _ _ _ _ (at_is_ok _ _ _ _ _ _ H2)). }
  intros [] w3 c3 cfg3 H3 K3 Et. rewrite <- Et. eapply w_get_cfg; [exact H3|].
  eapply ends_bind; [by eapply default_port_step|]. intros [] w4 c4 cfg4 H4 K4 _.
  eapply w_quiet; [exact H4|done|done|done|]. intros w5 _ H5 K5.
  eapply ends_bind; [eapply clear_running; [exact H5|]|].
  { by rewrite (kp_stopped _ _ _ _ K5), (kp_stopped _ _ _ _ K4), (kp_stopped _ _ _ _ K3), B1. }
  intros [] w6 c6 cfg6 H6 K6 _. eapply ends_bind; [by eapply event_spec|]. intros e w7 c7 cfg7 H7 K7 _. by eapply w_ends.
Qed.

(** * The end of the task *)

Lemma unknown_at k w c cfg : ok_at k w c cfg ->
  ok_at k (set_w_client w (Some (set_ws_state c WEBSOCKET_STATE_UNKNOW))) (set_ws_state c WEBSOCKET_STATE_UNKNOW) cfg.
Proof. intros H. by eapply core_at. Qed.

Lemma ws_finish_spec k w c cfg : ok_at k w c cfg -> yields (task_finish w) (fun r =>
  if ws_selected_for_destroying c then w_client (snd r) = None /\ balanced nf base k (snd r)
  else exists c' cfg', ok_at k (snd r) c' cfg' /\ bit_of STOPPED_BIT c' = true /\ ws_state c' = WEBSOCKET_STATE_UNKNOW
    /\ ws_selected_for_destroying c' = false /\ ws_transport c' = ws_transport c /\ (ws_run c' = true -> ws_run c = true)).
Proof.
  intros H. unfold task_finish. eapply st_seq; [by eapply event_spec|]. intros e w1 (c1 & cfg1 & H1 & K1 & _). cbn [snd] in *.
  eapply w_get; [exact H1|]. eapply st_seq; [by eapply close_spec|]. intros [] w2 (c2 & cfg2 & H2 & K2 & -> & _). cbn [snd] in *.
  eapply w_upd; [exact H2|]. pose proof (unknown_at _ _ _ _ H2) as H3. rewrite (kp_selected _ _ _ _ K1).
  destruct (ws_selected_for_destroying c) eqn:Es.
  - eapply yields_mono; [eapply (destroy_spec nf base k); [apply (at_client _ _ _ _ _ _ _ H3)|apply (at_heap _ _ _ _ _ _ _ H3)|]|].
    + apply (ok_list _ _ _ _ (at_is_ok _ _ _ _ _ _ H3)).
    + intros r (Hc & Hb & _). done.
  - eapply yields_mono; [eapply set_spec, H3|]. intros r (x & Hx & H4 & _). eexists _, cfg2. split; [exact H4|].
    split_and!; cbn [ws_state ws_selected_for_destroying ws_transport ws_run set_ws_status_bits set_ws_state].
    + by ws_bit.
    + done.
    + by rewrite (kp_selected _ _ _ _ K1).
    + apply (kp_transport _ _ _ _ K1).
    + apply (kp_run _ _ _ _ K1).
Qed.

(** * The calls that start and stop *)

(** The task stays asked to end. *)
Lemma request_stop_spec k w c cfg : ok_at k w c cfg -> yields (request_stop w) (fun r => exists c',
  ok_at k (snd r) c' cfg /\ ready_view c' = ready_view c /\ ws_transport c' = ws_transport c
  /\ ws_transport_list c' = ws_transport_list c /\ ws_selected_for_destroying c' = ws_selected_for_destroying c
  /\ ws_run c' = false /\ bit_of STOPPED_BIT c' = bit_of STOPPED_BIT c /\ bit_of REQUESTED_STOP_BIT c' = true).
Proof.
  intros H. unfold request_stop. eapply w_upd; [exact H|].
  assert (H1 : ok_at k (set_w_client w (Some (set_ws_run c false))) (set_ws_run c false) cfg).
  { eapply core_at; [exact H|done|]. apply (ok_state _ _ _ _ (at_is_ok _ _ _ _ _ _ H)). }
  eapply yields_mono; [eapply set_spec, H1|]. intros r (x & Hx & H2 & _). eexists. split; [exact H2|]. split_and!; try done.
  - cbn in Hx. rewrite (stopped_bit _ _ Hx). by ws_bit.
  - by ws_bit.
Qed.

Lemma start_spec k w c cfg : ok_at k w c cfg -> bit_of STOPPED_BIT c = true ->
  yields (esp_websocket_client_start w) (fun r => exists c', ok_at k (snd r) c' cfg
    /\ ws_run c' = ws_run c /\ ws_selected_for_destroying c' = ws_selected_for_destroying c
    /\ (if decide (fst r = ESP_OK) then bit_of STOPPED_BIT c' = false /\ bit_of REQUESTED_STOP_BIT c' = false
                                      /\ before_init (ws_state c') = true /\ ready c'
         else bit_of STOPPED_BIT c' = true)).
Proof.
  intros H Hstop. unfold esp_websocket_client_start. eapply w_get; [exact H|].
  destruct (before_init (ws_state c)) eqn:Hst; cbn [negb]; [|cbn; by exists c].
  assert (Hu : uses_transport (ws_state c) = false) by by destruct (ws_state c).
  eapply w_get_cfg; [exact H|]. eapply w_upd; [exact H|]. set (c1 := set_ws_transport c _). set (w1 := set_w_client w _).
  assert (H1 : ok_at k w1 c1 cfg).
  { apply transport_at; [exact H|apply (ok_ext _ _ _ _ (at_is_ok _ _ _ _ _ _ H))|by rewrite Hu]. }
  eapply (st_seq _ _ _ (fun r => exists l, ok_at k (snd r) (set_ws_transport_list c1 l) cfg
    /\ (fst r = ESP_OK -> ready (set_ws_transport_list c1 l)))).
  { destruct (cf_ext_transport cfg) as [i|] eqn:Ee.
    - cbn. exists (ws_transport_list c1). rewrite set_list_id. split; [done|]. intros _ Ht. by unfold c1 in Ht.
    - eapply yields_mono; [by eapply create_spec|]. intros r (l & H2 & [Hok _]). exists l. split; [done|]. intros He _ cfg' Hcfg _.
      cbn in Hcfg. rewrite (ok_config _ _ _ _ (at_is_ok _ _ _ _ _ _ H)) in Hcfg. injection Hcfg as <-. cbn. by destruct (Hok He). }
  intros e w2 (l & H2 & Hready). cbn [fst snd] in *. case_decide as He.
  { cbn [yields mret ST_ret fst snd]. eexists. split; [exact H2|]. done. }
  eapply st_seq; [eapply clear_spec, H2|]. intros [] w3 (x & Hx & H3 & _). cbn [snd] in *.
  eapply w_upd; [exact H3|].
  set (c3 := set_ws_status_bits (set_ws_transport_list c1 l) _) in *.
  assert (H4 : ok_at k (set_w_client w3 (Some (set_ws_task_handle c3 false))) (set_ws_task_handle c3 false) cfg).
  { eapply core_at; [exact H3|done|]. cbn. by rewrite Hu. }
  eapply st_seq; [eapply w_attempt, H4|]. intros ok w5 (c5 & cfg5 & H5 & K5 & _ & ->). cbn [fst snd] in *.
  assert (cfg5 = cfg) as ->.
  { pose proof (ok_config _ _ _ _ (at_is_ok _ _ _ _ _ _ H5)). pose proof (ok_config _ _ _ _ (at_is_ok _ _ _ _ _ _ H2)). cbn in *. congruence. }
  destruct ok; cbn [negb].
  - eapply w_upd; [exact H5|]. cbn [yields mret ST_ret fst snd]. eexists. split; [eapply core_at; [exact H5|done|cbn; by rewrite Hu]|].
    split_and!; try done. rewrite decide_True by done. unfold c3. split_and!; try done; [by ws_bit|by ws_bit|by apply Hready].
  - eapply st_seq; [eapply set_spec, H5|]. intros [] w6 (y & Hy & H6 & _). cbn [yields mret ST_ret fst snd] in *. eexists.
    split; [exact H6|]. split_and!; try done. rewrite decide_False by done.
    by ws_bit.
Qed.

End Steps.
