(* ===== verification/WsMachine.v ===== *)
(** Every interleaving of the task of the websocket client, the calls of the application
    and the passing of time keeps the client whole. *)
From S2P Require Import Prelude Heap State WsData Ws WsConfig WsTask WsProofs WsSafe WsConfigProofs WsLife WsInit WsRun WsSteps.

Section Machine.
Context {options : ws_options} {externals : ws_externals} {laws : ws_laws} (nf : bool) (base : Z).

(** Whether the invariant is that of a client whose task was asked to end. *)
Variable asked : bool.

Abbreviation dyn := enable_dynamic_buffer.
Abbreviation ok_at := (ws_at dyn nf base).
Abbreviation fin := (ends nf base).
Abbreviation any := (fun _ _ _ => True).

(** * The invariant *)

(** A send that waits for the lock has the data it says. *)
Definition send_ok (s : pending_send) : Prop := let '(_, data, len) := s in Z.to_nat len <= length (default [] data).

(** The task does not run its loop. *)
Definition out_of_loop (pc : task_pc) : bool :=
  match pc with TaskNone | TaskCreated | TaskFinish => true | _ => false end.

(** The task is about to use the transport. *)
Definition needs_transport (pc : task_pc) : bool :=
  match pc with TaskPolled _ | TaskClosed => true | _ => false end.

Record phase (pc : task_pc) (u : user_pc) (sends : list pending_send) (c : ws_client) : Prop := {
  ph_stopped : bit_of STOPPED_BIT c = bool_decide (pc = TaskNone);
  ph_run : out_of_loop pc = true -> ws_run c = false;
  ph_created : pc = TaskCreated -> before_init (ws_state c) = true /\ sends = [] /\ ready c;
  ph_transport : needs_transport pc = true \/ sends <> [] -> is_Some (ws_transport c);
  ph_sends : Forall send_ok sends;
  ph_destroy : u = UserInDestroy -> sends = [];
  ph_selected : ws_selected_for_destroying c = true -> pc <> TaskNone -> u = UserIdle /\ sends = [];
  ph_asked : asked = true -> pc <> TaskNone -> pc <> TaskCreated /\ ws_run c = false /\ bit_of REQUESTED_STOP_BIT c = true;
}.

Definition inv_at (pc : task_pc) (u : user_pc) (sends : list pending_send) (w : ws_world) : Prop :=
  match w_client w with
  | Some c => (exists cfg, ok_at 0 w c cfg) /\ phase pc u sends c
  | None => balanced nf base 0 w /\ pc = TaskNone /\ u = UserIdle /\ sends = []
  end.

Definition machine_ok (m : ws_machine) : Prop := inv_at (m_task m) (m_user m) (m_sends m) (m_world m).

Lemma inv_some pc u sends w c cfg : ok_at 0 w c cfg -> phase pc u sends c -> inv_at pc u sends w.
Proof. intros H P. unfold inv_at. rewrite (at_client _ _ _ _ _ _ _ H). split; [by exists cfg|done]. Qed.

(** * Steps that keep the client *)

Lemma ready_keeps w w' c c' : ws_keeps w w' c c' -> ready_view c' = ready_view c -> ready c -> ready c'.
Proof.
  intros K Hv Hr Ht cfg' Hcfg He. rewrite (kp_transport _ _ _ _ K) in Ht. rewrite (kp_list _ _ _ _ K).
  unfold ready_view in Hv. rewrite Hcfg in Hv. injection Hv as _ Hv. destruct (ws_config c) as [cfg|] eqn:Ec; [|done].
  injection Hv as Es Ee. rewrite Es. apply (Hr Ht cfg); congruence.
Qed.

Lemma phase_keeps pc u sends w w' c c' : phase pc u sends c -> ws_keeps w w' c c' ->
  (pc = TaskCreated -> ready_view c' = ready_view c) -> phase pc u sends c'.
Proof.
  intros [] K Hv. split; rewrite ?(kp_stopped _ _ _ _ K), ?(kp_transport _ _ _ _ K), ?(kp_selected _ _ _ _ K); try done.
  - intros Ho. destruct (ws_run c') eqn:E; [|done]. apply (kp_run _ _ _ _ K) in E. by rewrite ph_run0 in E.
  - intros Hc. specialize (Hv Hc). destruct (ph_created0 Hc) as (Hs & Hn & Hr). split_and!; [|done|by eapply ready_keeps].
    by injection Hv as ->.
  - intros Hq Hpc. destruct (ph_asked0 Hq Hpc) as (Hc & Hr & Hb). rewrite (kp_requested _ _ _ _ K). split_and!; try done.
    destruct (ws_run c') eqn:E; [|done]. apply (kp_run _ _ _ _ K) in E. congruence.
Qed.

(** The task goes from one point to another. *)
Lemma phase_move pc pc' u sends w w' c c' : phase pc u sends c -> pc <> TaskNone -> ws_keeps w w' c c' -> after_ok pc' c' ->
  phase pc' u sends c'.
Proof.
  intros [] Hpc K Ha. rewrite bool_decide_false in ph_stopped0 by done.
  split; rewrite ?(kp_stopped _ _ _ _ K), ?(kp_selected _ _ _ _ K); try done.
  - rewrite ph_stopped0. symmetry. apply bool_decide_false. intros ->. done.
  - by destruct pc'.
  - intros ->. done.
  - intros [Hn|Hs]; [by destruct pc'|]. rewrite (kp_transport _ _ _ _ K). auto.
  - auto.
  - intros Hq _. destruct (ph_asked0 Hq Hpc) as (Hc & Hr & Hb). rewrite (kp_requested _ _ _ _ K). split_and!; [by intros ->| |done].
    destruct (ws_run c') eqn:E; [|done]. apply (kp_run _ _ _ _ K) in E. congruence.
Qed.

(** A call that waits, or no longer waits. *)
Lemma phase_user pc u u' sends c : phase pc u sends c -> (u' = UserInDestroy -> sends = []) ->
  (u' = UserIdle \/ ws_selected_for_destroying c = false \/ pc = TaskNone) -> phase pc u' sends c.
Proof.
  intros [] Hd Hu. split; try done. intros Hs Hpc. destruct Hu as [->|[Hu|Hu]]; [|congruence|done].
  split; [done|]. by apply ph_selected0.
Qed.

(** * The task *)

(** How many steps a task that was asked to end has left at most. *)
Definition steps_left (pc : task_pc) : nat :=
  match pc with
  | TaskNone => 0
  | TaskFinish => 1
  | TaskTop => 2
  | TaskPolled _ | TaskWaiting _ | TaskClosed => 3
  | TaskAfter | TaskCreated => 4
  end.

Lemma task_step_ok pc u sends w c cfg : ok_at 0 w c cfg -> phase pc u sends c -> pc <> TaskNone ->
  yields (task_step pc w) (fun r => inv_at (fst r) u sends (snd r) /\ (asked = true -> steps_left (fst r) < steps_left pc)).
Proof.
  intros H P Hpc.
  assert (Hmove : forall pc' w' c' cfg', ok_at 0 w' c' cfg' -> ws_keeps w w' c c' -> after_ok pc' c' ->
    (asked = true -> ws_run c = false -> steps_left pc' < steps_left pc) ->
    inv_at pc' u sends w' /\ (asked = true -> steps_left pc' < steps_left pc)).
  { intros pc' w' c' cfg' H' K' Ha Hn. split; [eapply inv_some; [exact H'|by eapply phase_move]|].
    intros Hq. apply Hn; [done|]. by apply (ph_asked _ _ _ _ P). }
  pose proof (ph_stopped _ _ _ _ P) as Hs. rewrite bool_decide_false in Hs by done.
  destruct pc as [| | | |r|t| |]; cbn [task_step]; [done|..].
  - destruct (ph_created _ _ _ _ P eq_refl) as (Hst & -> & Hr).
    eapply st_seq; [by eapply begin_spec|]. intros [] w1 (c1 & cfg1 & H1 & []). cbn in *. split; [|lia]. eapply inv_some; [exact H1|].
    destruct P. split; try done; rewrite ?bg_selected; try done; [by rewrite bg_stopped|by intros [?|?]|auto|].
    intros Hq _. by destruct (ph_asked0 Hq) as [? _].
  - eapply w_get; [exact H|]. destruct (ws_run c) eqn:Er.
    + eapply st_seq; [by eapply good_switch|]. intros [] w1 (c1 & cfg1 & H1 & K1 & _). cbn in *. by eapply Hmove.
    + cbn. eapply Hmove; [exact H|apply keeps_refl|done|cbn; lia].
  - eapply yields_mono; [by eapply after_spec|]. intros r (c1 & cfg1 & H1 & K1 & Ha & Hne). eapply Hmove; [done..|].
    intros _ Hr. clear -Ha Hr Hne. destruct (fst r); cbn in *; first [done|lia].
  - eapply st_seq; [eapply good_polled; [exact H|]|]; [apply (ph_transport _ _ _ _ P); by left|].
    intros [] w1 (c1 & cfg1 & H1 & K1 & _). cbn in *. eapply Hmove; [done..|cbn; lia].
  - cbn. eapply Hmove; [exact H|apply keeps_refl|done|cbn; lia].
  - eapply yields_mono; [eapply closed_spec; [exact H| |done]|]; [apply (ph_transport _ _ _ _ P); by left|].
    intros r (c1 & cfg1 & H1 & K1 & Ha). eapply Hmove; [exact H1|done| |]; destruct Ha as [-> |[-> Ha]]; cbn; first [done|lia].
  - eapply st_seq; [by eapply ws_finish_spec|]. intros [] w1 Hf. cbn [fst snd yields mret ST_ret] in *. split; [|cbn; lia].
    destruct (ws_selected_for_destroying c) eqn:Esel.
    + destruct Hf as [Hc Hb]. destruct (ph_selected _ _ _ _ P Esel) as [-> ->]; [done|]. unfold inv_at. by rewrite Hc.
    + destruct Hf as (c1 & cfg1 & H1 & B1 & _ & Es1 & Et1 & Hr1). eapply inv_some; [exact H1|]. destruct P.
      split; rewrite ?Et1, ?Es1; try done.
      intros _. destruct (ws_run c1); [|done]. rewrite ph_run0 in Hr1 by done. symmetry. by apply Hr1.
Qed.

(** * The calls of the application *)

(** The client may be used: it is not about to destroy itself. *)
Definition usable (pc : task_pc) (c : ws_client) : Prop := ws_selected_for_destroying c = false \/ pc = TaskNone.

Lemma keep_ok {A} pc u sends w c cfg (m : W A) P : ok_at 0 w c cfg -> phase pc u sends c ->
  yields (m w) (fin 0 w c P) -> (pc = TaskCreated -> forall a w' c', P a w' c' -> ready_view c' = ready_view c) ->
  yields (m w) (fun r => inv_at pc u sends (snd r)).
Proof.
  intros H Ph Hm Hv. eapply yields_mono; [exact Hm|]. intros r (c' & cfg' & H' & K' & HP). eapply inv_some; [exact H'|].
  eapply phase_keeps; [exact Ph|done|]. intros Hpc. by eapply Hv.
Qed.

Lemma request_ok pc u u' sends w c cfg : ok_at 0 w c cfg -> phase pc u sends c -> usable pc c ->
  (u' = UserInDestroy -> sends = []) -> yields (request_stop w) (fun r => inv_at pc u' sends (snd r)).
Proof.
  intros H Ph Hu Hd. eapply yields_mono; [by eapply request_stop_spec|].
  intros r (c' & H' & Hv & Et & El & Es & Hr & Hs & Hreq). eapply inv_some; [exact H'|]. apply (phase_user _ _ u') in Ph; [|done|by right].
  destruct Ph. split; rewrite ?Es, ?Et, ?Hs; try done.
  2:{ intros Hq Hpc. by destruct (ph_asked0 Hq Hpc). }
  intros Hc. destruct (ph_created0 Hc) as (Hb & Hn & Hready).
  injection Hv as Hv1 Hv2. rewrite Hv1. split_and!; try done. intros Ht cfg' Hcfg He. rewrite Et in Ht. rewrite El.
  rewrite Hcfg in Hv2. destruct (ws_config c) as [cfg0|] eqn:Ec; [|done]. injection Hv2 as E1 E2. rewrite E1.
  apply (Hready Ht cfg0); [done|congruence].
Qed.

Lemma ws_start_ok w c cfg : asked = false -> ok_at 0 w c cfg -> phase TaskNone UserIdle [] c ->
  yields (esp_websocket_client_start w) (fun r =>
    inv_at (if decide (fst r = ESP_OK) then TaskCreated else TaskNone) UserIdle [] (snd r)).
Proof.
  intros Hq H []. eapply yields_mono; [by eapply start_spec|]. intros r (c' & H' & Er & Es & Hc). eapply inv_some; [exact H'|].
  rewrite <- Er in ph_run0. case_decide.
  - destruct Hc as (B1 & _ & B3 & B4). split; try done; [by intros [?|?]|congruence].
  - split; try done. by intros [?|?].
Qed.

Lemma close_call_spec k w c cfg body : ok_at k w c cfg ->
  match body with Some (_, data, len) => Z.to_nat len <= length (default [] data) | None => True end ->
  yields (esp_websocket_client_close_with_optional_body body w) (fin k w c (fun _ _ c' => ws_run c = false -> c' = c)).
Proof.
  intros H Hb. unfold esp_websocket_client_close_with_optional_body. eapply w_get; [exact H|].
  destruct (ws_run c); cbn [negb]; [|by eapply w_ends].
  eapply (ends_bind nf base k k _ _ any).
  - destruct body as [[[code data] len]|]; (eapply ends_mono; [eapply send_close_spec; [exact H|]|done]); [|done].
    by replace (len + 2 - 2)%Z with len by lia.
  - intros ret w1 c1 cfg1 H1 K1 _. case_on_goal; [by eapply w_ends|].
    eapply ends_bind; [eapply (good_set_bits nf base CLOSE_FRAME_SENT_BIT); [by left|exact H1]|]. intros [] w2 c2 cfg2 H2 K2 _.
    eapply w_get_cfg; [exact H2|]. by eapply w_ends.
Qed.

Lemma close_ok pc u sends w c cfg body : ok_at 0 w c cfg -> phase pc u sends c -> usable pc c ->
  match body with Some (_, data, len) => Z.to_nat len <= length (default [] data) | None => True end -> u = UserIdle ->
  yields (esp_websocket_client_close_with_optional_body body w) (fun r =>
    inv_at pc (match fst r with None => UserInClose | Some _ => u end) sends (snd r)).
Proof.
  intros H Ph Hu Hb ->. eapply yields_mono; [by eapply close_call_spec|]. intros r (c' & cfg' & H' & K' & Hc).
  eapply inv_some; [exact H'|]. eapply phase_keeps; [|exact K'|].
  - eapply phase_user; [exact Ph|by destruct (fst r)|]. destruct (fst r); [by left|by right].
  - intros ->. rewrite Hc; [done|]. by apply (ph_run _ _ _ _ Ph).
Qed.

Lemma set_headers_spec k w c cfg hs : ok_at k w c cfg ->
  yields (esp_websocket_client_set_headers hs w) (fin k w c (fun _ _ c' => c' = c)).
Proof.
  intros H. unfold esp_websocket_client_set_headers. eapply w_get; [exact H|]. case_decide as Hs; [by eapply w_ends|].
  eapply take_lock_spec; [exact H|]. pose proof (ok_state _ _ _ _ (at_is_ok _ _ _ _ _ _ H)) as Ht.
  rewrite Hs in Ht.
  eapply w_use_own; [exact H|auto|]. intros i _. eapply ends_bind; [by eapply w_attempt|]. intros ok w1 c1 cfg1 H1 K1 [_ ->].
  destruct ok; cbn [negb]; [|by eapply w_ends]. apply st_writes. cbn [yields mret ST_ret].
  edestruct (at_same nf base k w1 (set_w_transports w1 (add_to i (SetWsHeaders hs) (w_transports w1))) c cfg1 H1) as [H2 K2].
  { split; cbn; first [done|lia|idtac]. apply (add_to_keys i (SetWsHeaders hs)). }
  by exists c, cfg1.
Qed.

Lemma lookup_nonempty {A} (l : list A) i x : l !! i = Some x -> l <> [].
Proof. by intros Hi ->. Qed.

Lemma send_go_ok pc u sends w c cfg i locked op data len : ok_at 0 w c cfg -> phase pc u sends c ->
  sends !! i = Some (op, data, len) ->
  yields (send_locked esp_websocket_client_dispatch_event locked op data len w) (fun r => inv_at pc u (delete i sends) (snd r)).
Proof.
  intros H Ph Hi. pose proof (lookup_nonempty _ _ _ Hi) as Hne. pose proof (ph_sends _ _ _ _ Ph) as Hall.
  assert (Hc : pc <> TaskCreated) by (intros ->; by destruct (ph_created _ _ _ _ Ph eq_refl) as (_ & ? & _)).
  eapply yields_mono; [eapply (send_now_spec nf base 0); [exact H|apply (ph_transport _ _ _ _ Ph); by right|]|].
  { apply (Forall_lookup_1 _ _ _ _ Hall Hi). }
  intros r (c' & cfg' & H' & K' & _). eapply inv_some; [exact H'|]. assert (Ph' : phase pc u sends c') by by eapply phase_keeps.
  destruct Ph'. split; try done.
  - intros _. apply ph_transport0. by right.
  - by apply Forall_delete.
  - intros Hu. by rewrite ph_destroy0 in Hne.
  - intros Hs Hpc. by destruct (ph_selected0 Hs Hpc) as [_ ?].
Qed.

Lemma send_call_ok pc u sends w c cfg op data len : ok_at 0 w c cfg -> phase pc u sends c -> usable pc c -> u <> UserInDestroy ->
  match data with Some d => Z.to_nat len <= length d | None => True end ->
  yields (send_checks data len w) (fun r => inv_at pc u (if fst r then sends ++ [(op, data, len)] else sends) (snd r)).
Proof.
  intros H Ph Hu Hd Hl. eapply yields_mono; [by eapply send_checks_spec|]. intros [ok w'] [Ew Hok]. cbn [fst snd] in *. subst w'.
  eapply inv_some; [exact H|]. destruct ok; [|done]. destruct (Hok eq_refl) as (Ht & Hst & Hlen & Hnone). destruct Ph. split; try done.
  - intros Hc. destruct (ph_created0 Hc) as [Hb _]. by rewrite Hst in Hb.
  - apply Forall_app. split; [done|]. apply Forall_singleton. cbn. destruct data; [done|]. by rewrite Hnone.
  - intros Hs Hpc. destruct Hu; congruence.
Qed.

(** What [permitted] says of a client that is there. *)
Lemma mine_spec m c : w_client (m_world m) = Some c ->
  (match w_client (m_world m) with
   | Some c => (negb (ws_selected_for_destroying c) || bool_decide (m_task m = TaskNone)) && bool_decide (m_user m <> UserInDestroy)
   | None => false
   end = true) -> usable (m_task m) c /\ m_user m <> UserInDestroy.
Proof.
  intros ->. rewrite andb_true_iff, orb_true_iff, negb_true_iff, !bool_decide_eq_true. unfold usable. tauto.
Qed.

Lemma destroy_ok w c cfg : ok_at 0 w c cfg -> yields (destroy_and_free_resources w) (fun r => inv_at TaskNone UserIdle [] (snd r)).
Proof.
  intros H. eapply yields_mono; [eapply (destroy_spec nf base 0); [apply (at_client _ _ _ _ _ _ _ H)|apply (at_heap _ _ _ _ _ _ _ H)|]|].
  - apply (ok_list _ _ _ _ (at_is_ok _ _ _ _ _ _ H)).
  - intros r (Hc & Hb & _). unfold inv_at. by rewrite Hc.
Qed.

(** The whole machine, seen as a step of the world. *)
Definition effect_inv (r : task_pc * user_pc * list pending_send * ws_world) : Prop :=
  let '(pc, u, sends, w) := r in inv_at pc u sends w.

Lemma effect_gone l m : w_client (m_world m) = None -> machine_ok m -> possible l m = true -> permitted l m = true ->
  yields (ws_effect l (m_task m) (m_user m) (m_sends m) (m_world m)) effect_inv.
Proof.
  intros Hc Hm Hp Hq. unfold machine_ok, inv_at in Hm. rewrite Hc in Hm. destruct Hm as (Hb & Et & Eu & Es).
  unfold possible, bit_set in Hp. unfold permitted in Hq. rewrite Hc, ?Et, ?Eu, ?Es in *.
  destruct l; cbn in Hp, Hq; try done. cbn [ws_effect]. apply st_writes. cbn [yields mret ST_ret effect_inv]. unfold inv_at. cbn.
  by rewrite Hc.
Qed.

(** A part of the effect that has the invariant as its result. *)
Lemma effect_of {A} (m : W A) (f : A -> task_pc * user_pc * list pending_send) w :
  yields (m w) (fun r => let '(pc, u, sends) := f (fst r) in inv_at pc u sends (snd r)) ->
  yields ((a ← m; mret (f a)) w) effect_inv.
Proof. intros Hm. eapply st_seq; [exact Hm|]. intros a w1 Hr. cbn in *. by destruct (f a) as [[pc u] sends]. Qed.

Section Effects.
Variables (m : ws_machine) (c : ws_client) (cfg : websocket_config_storage_t).
Abbreviation w := (m_world m).
Abbreviation pc := (m_task m).
Abbreviation u := (m_user m).
Abbreviation sends := (m_sends m).
Hypotheses (H : ok_at 0 w c cfg) (Ph : phase pc u sends c).

(** The task goes on, time passes, calls and sends that waited go on. *)
Definition goes_on (l : ws_label) : bool :=
  match l with LTask | LTime _ | LWake | LTimeout | LSendGo _ _ => true | _ => false end.

Lemma effect_on l : goes_on l = true -> possible l m = true ->
  yields (ws_effect l pc u sends w) effect_inv.
Proof.
  intros Hl Hp. unfold possible, bit_set in Hp. rewrite (at_client _ _ _ _ _ _ _ H) in Hp.
  destruct l; try done; cbn [ws_effect].
  - apply (effect_of _ (fun pc => (pc, u, sends))). eapply yields_mono; [eapply task_step_ok; [exact H|done|]|by intros r [? _]].
    intros E. by rewrite E in Hp.
  - apply st_writes. cbn [yields mret ST_ret effect_inv].
    edestruct (at_same nf base 0 w (set_w_clock w (w_clock w + Z.of_N d)) c cfg H) as [H1 K1]; [split; cbn; first [done|lia]|].
    by eapply inv_some.
  - rewrite andb_true_iff, bool_decide_eq_true in Hp. destruct Hp as [Hu Hs].
    change (bit_of STOPPED_BIT c = true) in Hs. rewrite (ph_stopped _ _ _ _ Ph), bool_decide_eq_true in Hs. rewrite Hs in *.
    assert (Hidle : forall w' c' cfg', ok_at 0 w' c' cfg' -> ws_keeps w w' c c' -> inv_at TaskNone UserIdle sends w').
    { intros w' c' cfg' H' K'. eapply inv_some; [exact H'|]. eapply phase_keeps; [|exact K'|done].
      eapply phase_user; [exact Ph|done|by left]. }
    assert (Hst : yields (stopped w) (fin 0 w c any)) by by eapply w_quiet_last.
    destruct u eqn:Eu; [done|..].
    + apply (effect_of _ (fun _ => (TaskNone, UserIdle, sends))). eapply yields_mono; [exact Hst|].
      intros r (c' & cfg' & H' & K' & _). by eapply Hidle.
    + eapply st_seq; [exact Hst|]. intros [] w1 (c1 & cfg1 & H1 & K1 & _). cbn [snd] in *.
      rewrite (ph_destroy _ _ _ _ Ph eq_refl). apply (effect_of _ (fun _ => (TaskNone, UserIdle, []))). by eapply destroy_ok.
    + cbn. eapply Hidle; [exact H|apply keeps_refl].
  - rewrite bool_decide_eq_true in Hp. apply (effect_of _ (fun _ => (pc, UserInStop, sends))).
    eapply request_ok; [exact H|exact Ph| |done]. unfold usable. destruct (ws_selected_for_destroying c) eqn:Es; [|by left].
    destruct (decide (pc = TaskNone)); [by right|]. destruct (ph_selected _ _ _ _ Ph Es); [done|congruence].
  - destruct (sends !! i) as [[[op data] len]|] eqn:Ei; [|cbn; by eapply inv_some].
    apply (effect_of _ (fun _ => (pc, u, delete i sends))). by eapply send_go_ok.
Qed.

Hypotheses (Husable : usable pc c) (Hnd : u <> UserInDestroy).

(** Calls that change no more than the client's settings. *)
Lemma effect_set l : (match l with LSetUri _ | LAppendHeader _ _ => pc = TaskNone
                      | LSetHeaders _ | LSetPingInterval _ | LSetReconnectTimeout _ => True | _ => False end) ->
  yields (ws_effect l pc u sends w) effect_inv.
Proof.
  intros Hl. destruct l; try done; cbn [ws_effect]; apply (effect_of _ (fun _ => (pc, u, sends)));
    (eapply keep_ok; [exact H|exact Ph| |]).
  - by eapply set_uri_at.
  - rewrite Hl. done.
  - eapply cfg_lift; [exact H|]. intros Hc. by eapply append_header_spec.
  - rewrite Hl. done.
  - by eapply set_headers_spec.
  - by intros _ a w' c' ->.
  - by eapply set_ping_spec.
  - by intros _ a w' c' [_ ?].
  - by eapply set_reconnect_spec.
  - by intros _ a w' c' [_ ?].
Qed.

(** Calls that wait for the task. *)
Lemma effect_stop l : l = LStop \/ l = LDestroy -> u = UserIdle -> (l = LDestroy -> sends = []) ->
  yields (ws_effect l pc u sends w) effect_inv.
Proof.
  intros Hl Hu Hs. pose proof (at_is_ok _ _ _ _ _ _ H) as []. destruct ok_bits as [b Hb].
  assert (Eb : has_bit b STOPPED_BIT = bool_decide (pc = TaskNone)).
  { rewrite <- (ph_stopped _ _ _ _ Ph). unfold bit_of. by rewrite Hb. }
  destruct Hl as [-> | ->]; cbn [ws_effect].
  - apply (effect_of _ (fun b : bool => (pc, if b then UserInStop else u, sends))). unfold esp_websocket_client_stop.
    eapply w_bits; [exact H|]. intros b' Hb'. case_on_goal; [cbn; by eapply inv_some|].
    eapply st_seq; [by eapply (request_ok _ _ UserInStop)|]. intros [] w1 H1. exact H1.
  - apply (effect_of _ (fun b : bool => (pc, if b then UserInDestroy else u, sends))). unfold esp_websocket_client_destroy.
    eapply w_get; [exact H|]. rewrite Hb, Eb. case_bool_decide as Hpc.
    + eapply st_seq; [by eapply destroy_ok|]. intros [] w1 H1. cbn in *. rewrite Hpc, Hu, Hs by done. exact H1.
    + eapply st_seq; [eapply (request_ok _ _ UserInDestroy); [exact H|exact Ph|done|auto]|]. intros [] w1 H1. exact H1.
Qed.

Lemma effect_destroy_on_exit : u = UserIdle -> sends = [] -> yields (ws_effect LDestroyOnExit pc u sends w) effect_inv.
Proof.
  intros Hu Hs. cbn [ws_effect]. apply (effect_of _ (fun _ => (pc, u, sends))). unfold esp_websocket_client_destroy_on_exit.
  eapply w_upd; [exact H|]. cbn [yields mret ST_ret fst snd].
  assert (H1 : ok_at 0 (set_w_client w (Some (set_ws_selected_for_destroying c true))) (set_ws_selected_for_destroying c true) cfg).
  { pose proof (at_is_ok _ _ _ _ _ _ H) as []. eapply at_upd; [exact H|by split|done|unfold client_blocks; cbn; lia]. }
  eapply inv_some; [exact H1|]. destruct Ph. by split.
Qed.

End Effects.

Lemma effect_ok l m : (asked = true -> l <> LStart) -> machine_ok m -> possible l m = true -> permitted l m = true ->
  yields (ws_effect l (m_task m) (m_user m) (m_sends m) (m_world m)) effect_inv.
Proof.
  intros Hasked Hm Hp Hq. destruct (w_client (m_world m)) as [c|] eqn:Hc; [|by apply effect_gone].
  pose proof (mine_spec m c Hc) as Hmine. unfold machine_ok, inv_at in Hm. rewrite Hc in Hm, Hmine. destruct Hm as [[cfg H] Ph].
  destruct (goes_on l) eqn:Hl; [by eapply effect_on|].
  unfold permitted in Hq. rewrite Hc in Hq. 
  set (mine := (negb (ws_selected_for_destroying c) || bool_decide (m_task m = TaskNone)) && bool_decide (m_user m <> UserInDestroy)) in *.
  clearbody mine.
  destruct l; try done; rewrite ?andb_true_iff in Hq; destruct_and?; destruct (Hmine ltac:(assumption)) as [Hus Hnd];
    repeat match goal with E : bool_decide _ = true |- _ => apply bool_decide_eq_true in E end;
    try (by eapply effect_set); try (by eapply effect_stop; auto); try (by eapply effect_destroy_on_exit); cbn [ws_effect].
  - apply (effect_of _ (fun e => (if decide (e = ESP_OK) then TaskCreated else m_task m, m_user m, m_sends m))).
    repeat match goal with E : m_user m = _ |- _ => rewrite E in * | E : m_task m = _ |- _ => rewrite E in *
      | E : m_sends m = _ |- _ => rewrite E in * end. eapply ws_start_ok; [|done..].
    destruct asked; [|done]. by specialize (Hasked eq_refl).
  - apply (effect_of _ (fun e => (m_task m, match e with None => UserInClose | Some _ => m_user m end, m_sends m))).
    by eapply (close_ok _ _ _ _ _ _ None).
  - apply (effect_of _ (fun e => (m_task m, match e with None => UserInClose | Some _ => m_user m end, m_sends m))).
    eapply (close_ok _ _ _ _ _ _ (Some (code, data, len))); try done. by apply Nat.leb_le.
  - apply (effect_of _ (fun ok : bool => (m_task m, m_user m, if ok then m_sends m ++ [(opcode, data, len)] else m_sends m))).
    eapply send_call_ok; try done. destruct data; [|done]. by apply Nat.leb_le.
Qed.

(** * Reachable machines *)

Lemma step_ok l m : (asked = true -> l <> LStart) -> machine_ok m -> possible l m = true -> permitted l m = true -> yields (ws_step l m) machine_ok.
Proof.
  intros Ha Hm Hp Hq. unfold ws_step. pose proof (effect_ok l m Ha Hm Hp Hq) as He.
  destruct (ws_effect l (m_task m) (m_user m) (m_sends m) (m_world m)) as [[[[pc u] sends] w]| | |]; done.
Qed.

(** A step of the task of a client that was asked to stop. *)
Lemma task_steps_left m m' : asked = true -> machine_ok m -> possible LTask m = true -> ws_step LTask m = Ret m' ->
  steps_left (m_task m') < steps_left (m_task m).
Proof.
  intros Hq Hm Hp Hs. unfold machine_ok, inv_at in Hm. destruct (w_client (m_world m)) as [c|] eqn:Hc.
  - destruct Hm as [[cfg H] Ph]. assert (Hpc : m_task m <> TaskNone) by (intros E; unfold possible in Hp; by rewrite E in Hp).
    pose proof (task_step_ok _ _ _ _ _ _ H Ph Hpc) as Hy. unfold ws_step, ws_effect, mbind, ST_bind, outcome_bind in Hs.
    destruct (task_step (m_task m) (m_world m)) as [[pc w]| | |]; try done. cbn in Hy, Hs. injection Hs as <-. cbn. by apply Hy.
  - destruct Hm as (_ & E & _). unfold possible in Hp. by rewrite E in Hp.
Qed.

(** It is never blocked. *)
Lemma task_possible m : asked = true -> machine_ok m -> m_task m <> TaskNone -> possible LTask m = true.
Proof.
  intros Hq Hm Hpc. unfold machine_ok, inv_at in Hm. unfold possible, bit_set. destruct (w_client (m_world m)) as [c|] eqn:Hc.
  - destruct Hm as [[cfg H] Ph]. destruct (ph_asked _ _ _ _ Ph Hq Hpc) as (_ & _ & Hb). destruct (m_task m); try done.
    apply orb_true_iff. left. unfold bit_of in Hb. destruct (ws_status_bits c) as [x|]; [|done]. rewrite bit_requested in Hb.
    unfold has_bit. apply negb_true_iff, Z.eqb_neq. intros E. apply (f_equal (fun z => Z.testbit z 2)) in E.
    rewrite Z.land_spec, Hb, Z.bits_0 in E. done.
  - by destruct Hm as (_ & E & _).
Qed.

End Machine.

(** The labels of a run, and the machines they lead to. *)
Inductive ws_runs `{ws_options, ws_externals} (m : ws_machine) : list ws_label -> ws_machine -> Prop :=
| runs_nil : ws_runs m [] m
| runs_snoc ls l m1 m2 : ws_runs m ls m1 -> possible l m1 = true -> permitted l m1 = true -> ws_step l m1 = Ret m2 ->
    ws_runs m (ls ++ [l]) m2.

(** Labels that are steps of the task, and those that start it again. *)
Definition is_task (l : ws_label) : bool := match l with LTask => true | _ => false end.
Definition is_start (l : ws_label) : bool := match l with LStart => true | _ => false end.
Definition task_steps (ls : list ws_label) : nat := length (filter (fun l => is_task l = true) ls).

Section Runs.
Context {options : ws_options} {externals : ws_externals} {laws : ws_laws} (nf : bool) (base : Z).

Lemma runs_ok m ls m' : machine_ok nf base false m -> ws_runs m ls m' -> machine_ok nf base false m'.
Proof.
  intros Hm Hr. induction Hr as [|ls l m1 m2 Hr IH Hp Hq Hs]; [done|].
  pose proof (step_ok nf base false l m1 ltac:(done) IH Hp Hq) as Hy. by rewrite Hs in Hy.
Qed.

(** Only the task and a start move the task. *)
Lemma step_task l m m' : ws_step l m = Ret m' -> is_task l = false -> is_start l = false -> m_task m' = m_task m.
Proof.
  intros Hs Ht Hst. unfold ws_step in Hs. destruct (ws_effect l (m_task m) (m_user m) (m_sends m) (m_world m)) as [[[[pc u] sends] w]| | |] eqn:E;
    try done. injection Hs as <-. cbn. revert E. destruct l; try done; cbn [ws_effect]; unfold mbind, ST_bind.
  all: repeat match goal with
    | |- context [match ?x with Ret _ => _ | _ => _ end] => destruct x as [[? ?]| | |]
    | |- context [match ?x with UserIdle => _ | _ => _ end] => destruct x
    | |- context [match ?x with Some _ => _ | None => _ end] => destruct x as [[[? ?] ?]|]
    end; try done; unfold mret, ST_ret; by intros [= <- _ _ _].
Qed.

(** From a machine whose task was asked to end, each step of the task counts. *)
Lemma asked_runs m ls m' : machine_ok nf base true m -> ws_runs m ls m' -> Forall (fun l => is_start l = false) ls ->
  machine_ok nf base true m' /\ task_steps ls + steps_left (m_task m') <= steps_left (m_task m).
Proof.
  intros Hm Hr. induction Hr as [|ls l m1 m2 Hr IH Hp Hq Hs]; intros Hls; [split; [done|unfold task_steps; cbn; lia]|].
  apply Forall_app in Hls as [Hls Hl]. apply Forall_cons in Hl as [Hl _]. destruct (IH Hls) as [H1 Hn]. split.
  - pose proof (step_ok nf base true l m1) as Hy. rewrite Hs in Hy. apply Hy; try done. intros _ ->. done.
  - unfold task_steps in *. rewrite filter_app, length_app. destruct (is_task l) eqn:Et.
    + destruct l; try done. pose proof (task_steps_left nf base true m1 m2 eq_refl H1 Hp Hs) as Hlt.
      rewrite filter_cons_True, filter_nil by done. cbn [length]. lia.
    + rewrite (step_task l m1 m2) by done. rewrite filter_cons_False, filter_nil by congruence. cbn [length]. lia.
Qed.

End Runs.

(** A new client. *)
Definition new_machine (w : ws_world) : ws_machine := mk_ws_machine w TaskNone UserIdle [].

Lemma fresh_machine `{ws_options, ws_externals, !ws_laws} nf base config w c : ws_at enable_dynamic_buffer nf base 0 w c (init_config config) ->
  fresh config c -> machine_ok nf base false (new_machine w).
Proof.
  intros Hat [_ _ _ Hb _ _ _ _ _ _ (Hr & Hs & _) _]. eapply inv_some; [exact Hat|]. split; rewrite ?Hs; try done; cbn.
  - unfold bit_of. by rewrite Hb.
  - by intros [?|?].
Qed.
