(* ===== verification/WsTheorems.v ===== *)
(** What the websocket client promises over its whole life: it is created whole or not
    at all, no interleaving of its task and its users breaks it, and a stop ends
    the task. *)
From S2P Require Import Prelude Heap State WsData Ws WsConfig WsTask WsProofs WsSafe WsConfigProofs WsLife WsInit WsRun WsSteps WsMachine.

(** What the surroundings and the application owe a client with this configuration:
    control frames that fit into its buffer, handlers that send no more than they
    have, certificates of the lengths given, an external transport that exists. *)
Record ws_env_ok (config : esp_websocket_client_config_t) (w : ws_world) : Prop := {
  env_none : w_client w = None;
  env_fits : Forall (frame_fits (init_buffer_size config)) (w_reads w);
  env_handlers : Forall (Forall handler_ok) (w_reactions w);
  env_tls : tls_ok (uc_tls config);
  env_ext : forall i, uc_ext_transport config = Some i -> i ∈ keys w;
}.

(** Whether an allocation can fail. *)
Definition safe_heap (w : ws_world) : bool := match fails (w_heap w) with [] => true | _ => false end.

Section Theorems.
Context {options : ws_options} {externals : ws_externals} {laws : ws_laws}.

Lemma start_balanced w : w_client w = None -> balanced (safe_heap w) (live (w_heap w)) 0 w.
Proof.
  intros Hc. split; [unfold safe_heap, never_fails; by destruct (fails (w_heap w))|]. exists 0%Z. rewrite Hc. cbn.
  split_and!; (done || lia).
Qed.

Lemma end_balanced (w w' : ws_world) : w_client w' = None -> balanced (safe_heap w) (live (w_heap w)) 0 w' ->
  (live (w_heap w) <= live (w_heap w'))%Z /\ (never_fails (w_heap w) -> live (w_heap w') = live (w_heap w)).
Proof.
  intros Hc (_ & leak & H0 & Hl & Hlive). rewrite Hc in Hlive. cbn in Hlive. split; [lia|]. intros Hn.
  rewrite Hl in Hlive; [lia|]. unfold safe_heap. by rewrite Hn.
Qed.

Lemma init_at config w : ws_env_ok config w -> yields (esp_websocket_client_init config w) (fun r =>
    if fst r then exists c, ws_at enable_dynamic_buffer (safe_heap w) (live (w_heap w)) 0 (snd r) c (init_config config)
      /\ fresh config c /\ w_log (snd r) = w_log w
    else w_client (snd r) = None /\ balanced (safe_heap w) (live (w_heap w)) 0 (snd r) /\ (safe_heap w = true -> refused config)).
Proof. intros []. apply init_spec; try done. by apply start_balanced. Qed.

(** C35.  [esp_websocket_client_init] returns, whichever of its allocations fail.  Either it
    gives a complete client (its event loop, lock, buffers, event group and the
    configuration that its URI and options stand for, not started) and has allocated
    the blocks of that client, or it gives null and there is no client; when memory
    was there, null means that the configuration was refused (a URI that does not
    parse, or a common name that is both given and not to be checked) and every
    block was freed again. *)
Theorem ws_init_all_or_nothing config w : ws_env_ok config w ->
  exists ok w', esp_websocket_client_init config w = Ret (ok, w')
    /\ match w_client w' with
       | Some c => ok = true /\ fresh config c /\ w_log w' = w_log w
           /\ (never_fails (w_heap w) -> live (w_heap w') = live (w_heap w) + client_blocks c)%Z
       | None => ok = false /\ (live (w_heap w) <= live (w_heap w'))%Z
           /\ (never_fails (w_heap w) -> refused config /\ live (w_heap w') = live (w_heap w))
       end.
Proof.
  intros He. pose proof (init_at config w He) as Hy. destruct (esp_websocket_client_init config w) as [[ok w']| | |]; try done.
  exists ok, w'. split; [done|]. cbn [yields fst snd] in Hy. destruct ok.
  - destruct Hy as (c & Hat & Hf & Hl). rewrite (at_client _ _ _ _ _ _ _ Hat). split_and!; try done. intros Hn.
    destruct (at_heap _ _ _ _ _ _ _ Hat) as (_ & leak & H0 & Hlk & Hlive). rewrite (at_client _ _ _ _ _ _ _ Hat) in Hlive.
    cbn [blocks_of] in Hlive. rewrite Hlk in Hlive; [lia|]. unfold safe_heap. by rewrite Hn.
  - destruct Hy as (Hc & Hb & Hr). rewrite Hc. destruct (end_balanced w w' Hc Hb) as [Hle Heq]. split_and!; try done.
    intros Hn. split; [|by apply Heq]. apply Hr. unfold safe_heap. by rewrite Hn.
Qed.

Lemma new_client_ok config w w1 : ws_env_ok config w -> esp_websocket_client_init config w = Ret (true, w1) ->
  machine_ok (safe_heap w) (live (w_heap w)) false (new_machine w1).
Proof.
  intros He Hi. pose proof (init_at config w He) as Hy. rewrite Hi in Hy. destruct Hy as (c & Hat & Hf & _).
  by eapply fresh_machine.
Qed.


(** A stop asks the task to end. *)
Lemma stop_asks nf base m m1 : machine_ok nf base false m -> m_task m <> TaskNone -> m_task m <> TaskCreated ->
  permitted LStop m = true -> ws_step LStop m = Ret m1 -> machine_ok nf base true m1 /\ m_task m1 = m_task m.
Proof.
  intros Hm Hn Hcr Hq Hs. pose proof (step_task LStop m m1 Hs eq_refl eq_refl) as Et. split; [|done].
  unfold machine_ok, inv_at in Hm. destruct (w_client (m_world m)) as [c|] eqn:Hc; [|by destruct Hm as (_ & ? & _)].
  destruct Hm as [[cfg H] Ph]. unfold permitted in Hq. rewrite andb_true_iff, bool_decide_eq_true in Hq. destruct Hq as [Hmine Hu].
  destruct (mine_spec m c Hc Hmine) as [Hus Hnd]. pose proof (ph_stopped _ _ _ _ _ Ph) as Hb. rewrite bool_decide_false in Hb by done.
  unfold ws_step, ws_effect, esp_websocket_client_stop in Hs.
  assert (Hy : yields ((b ← get_bits; if has_bit b STOPPED_BIT then mret false else _ ← request_stop; mret true) (m_world m))
    (fun r => fst r = true /\ exists c', ws_at enable_dynamic_buffer nf base 0 (snd r) c' cfg
       /\ phase true (m_task m) UserInStop (m_sends m) c')).
  { eapply w_bits; [exact H|]. intros b Eb. unfold bit_of in Hb. rewrite Eb in Hb. rewrite Hb.
    eapply st_seq; [by eapply request_stop_spec|]. intros [] w' (c' & H' & Hv & Et' & El & Es & Hr & Hst & Hreq).
    cbn [yields mret ST_ret fst snd] in *. split; [done|]. exists c'. split; [done|].
    destruct Ph. split; rewrite ?Hst, ?Et', ?Es; try done. intros Hsel. destruct Hus; congruence. }
  unfold mbind, ST_bind, outcome_bind in Hs, Hy.
  destruct (match get_bits (m_world m) with Ret _ => _ | _ => _ end) as [[b w']| | |]; try done.
  destruct Hy as (Hb' & c' & H' & Ph'). cbn [fst snd] in *. subst b. injection Hs as <-. unfold machine_ok. by eapply inv_some.
Qed.

(** C36.  [esp_websocket_client_stop] ends the task: called once the task has begun, whatever
    else happens then, but for a new start, the task is never blocked and takes at
    most four more steps; after them it is gone and the caller of the stop sees
    [STOPPED_BIT] (or the client has destroyed itself as it was asked to). *)
Theorem ws_stop_ends config w w1 ls m m1 ls' m2 : ws_env_ok config w -> esp_websocket_client_init config w = Ret (true, w1) ->
  ws_runs (new_machine w1) ls m -> m_task m <> TaskNone -> m_task m <> TaskCreated -> permitted LStop m = true ->
  ws_step LStop m = Ret m1 -> ws_runs m1 ls' m2 -> Forall (fun l => is_start l = false) ls' ->
  task_steps ls' <= 4 /\ (task_steps ls' = 4 -> m_task m2 = TaskNone)
  /\ (m_task m2 <> TaskNone -> possible LTask m2 = true /\ exists m3, ws_step LTask m2 = Ret m3)
  /\ (m_task m2 = TaskNone -> w_client (m_world m2) = None \/ bit_set STOPPED_BIT (m_world m2) = true).
Proof.
  intros He Hi Hr Hn Hc Hq Hs Hr' Hls. pose proof (runs_ok _ _ _ _ _ (new_client_ok _ _ _ He Hi) Hr) as Hm.
  destruct (stop_asks _ _ _ _ Hm Hn Hc Hq Hs) as [Hm1 Et]. destruct (asked_runs _ _ _ _ _ Hm1 Hr' Hls) as [Hm2 Hle].
  assert (Hl : steps_left (m_task m1) <= 4) by (destruct (m_task m1); cbn; lia). split_and!.
  - lia.
  - intros Hts. destruct (m_task m2); cbn in *; first [done|lia].
  - intros Hn2. pose proof (task_possible _ _ _ _ eq_refl Hm2 Hn2) as Hp. split; [done|].
    pose proof (step_ok _ _ true LTask m2 ltac:(done) Hm2 Hp eq_refl) as Hy. destruct (ws_step LTask m2); try done. by eexists.
  - intros Hn2. unfold machine_ok, inv_at in Hm2. unfold bit_set. destruct (w_client (m_world m2)) as [c|]; [|by left]. right.
    destruct Hm2 as [_ Ph]. pose proof (ph_stopped _ _ _ _ _ Ph) as Hb. by rewrite bool_decide_true in Hb.
Qed.

(** The blocks of a client whose configuration was replaced. *)
Lemma blocks_cfg c cfg' : client_blocks (set_ws_config c (Some cfg'))
  = (client_blocks c - stored_blocks (ws_config c) + (1 + config_blocks cfg'))%Z.
Proof. unfold client_blocks. cbn [set_ws_config stored_blocks ws_config ws_event_handle ws_if_name ws_transport_list ws_lock
  ws_tx_buffer ws_rx_buffer ws_errormsg_buffer ws_status_bits]. lia. Qed.

Lemma cfg_live base k w c cfg h cfg' : ws_at enable_dynamic_buffer true base k w c cfg ->
  balanced true base k (with_cfg w c h cfg') -> (live h - live (w_heap w) = config_blocks cfg' - config_blocks cfg)%Z.
Proof.
  intros Hat (_ & leak' & _ & Hlk' & Hl'). destruct (at_heap _ _ _ _ _ _ _ Hat) as (_ & leak & _ & Hlk & Hl).
  rewrite (Hlk eq_refl), (at_client _ _ _ _ _ _ _ Hat) in Hl. rewrite (Hlk' eq_refl) in Hl'.
  change (live h = base + client_blocks (set_ws_config c (Some cfg')) + k + 0)%Z in Hl'.
  rewrite blocks_cfg, (ok_config _ _ _ _ (at_is_ok _ _ _ _ _ _ Hat)) in Hl'. cbn [stored_blocks blocks_of] in *. lia.
Qed.

(** C39.  [esp_websocket_client_set_uri], in any client: a URI that parses replaces the scheme, the
    host, the path with the query, the port and the credentials, each one the URI
    has, by what the URI says and leaves everything else of the client as it was; the
    strings that were replaced are freed and the new ones allocated, no more and no
    less. *)
Theorem ws_set_uri config w w1 ls m c cfg uri u : ws_env_ok config w -> esp_websocket_client_init config w = Ret (true, w1) ->
  ws_runs (new_machine w1) ls m -> never_fails (w_heap w) -> w_client (m_world m) = Some c -> ws_config c = Some cfg ->
  http_parser_parse_url uri = Some u ->
  exists w', esp_websocket_client_set_uri (Some uri) (m_world m) = Ret (ESP_OK, w')
    /\ w_client w' = Some (set_ws_config c (Some (with_uri uri u cfg))) /\ w_log w' = w_log (m_world m)
    /\ (live (w_heap w') - live (w_heap (m_world m)) = config_blocks (with_uri uri u cfg) - config_blocks cfg)%Z.
Proof.
  intros He Hi Hr Hn Hc Hcfg Hu. pose proof (runs_ok _ _ _ _ _ (new_client_ok _ _ _ He Hi) Hr) as Hm.
  unfold machine_ok, inv_at in Hm. rewrite Hc in Hm. destruct Hm as [[cfg0 Hat] _].
  assert (Hnf : safe_heap w = true) by (unfold safe_heap; by rewrite Hn). rewrite Hnf in Hat.
  pose proof (ok_config _ _ _ _ (at_is_ok _ _ _ _ _ _ Hat)) as E. rewrite Hcfg in E. injection E as <-.
  pose proof (set_uri_spec _ _ _ _ _ _ (Some uri) (at_cfg _ _ _ _ _ _ Hat)) as Hy.
  destruct (esp_websocket_client_set_uri (Some uri) (m_world m)) as [[e w']| | |]; try done.
  destruct Hy as (h & cfg' & Ew & Hat' & _ & Hres). cbn [fst snd] in *. unfold uri_result in Hres. rewrite Hu in Hres.
  destruct Hres as [[-> ->]|[_ ?]]; [|done]. exists w'. rewrite Ew in Hat' |- *. set (cfg' := with_uri uri u cfg) in *. clearbody cfg'.
  split_and!; try done. eapply cfg_live; [exact Hat|]. apply (ca_heap _ _ _ _ _ _ Hat').
Qed.

End Theorems.
