(* ===== verification/WsSend.v ===== *)
(** What a send of the websocket client puts on the wire: a message, cut into frames of at
    most a buffer. *)
From S2P Require Import Prelude Heap State WsData Ws WsConfig WsTask WsProofs WsSafe WsConfigProofs WsLife WsInit WsRun WsSteps WsMachine WsTheorems.

(** * Steps nobody outside sees *)

(** What others see of the client, and what they will answer. *)
Definition outside (w : ws_world) := (w_log w, w_writes w, w_reads w, w_reactions w, w_tls w).

Definition silent {A} (m : W A) : Prop := forall w a w', m w = Ret (a, w') -> outside w' = outside w.

Lemma silent_bind {A B} (m : W A) (f : A -> W B) : silent m -> (forall a, silent (f a)) -> silent (m ≫= f).
Proof.
  intros Hm Hf w b w'. unfold mbind, ST_bind. destruct (m w) as [[a w1]| | |] eqn:E; try done. intros Hw.
  by rewrite (Hf a w1 b w' Hw), (Hm w a w1 E).
Qed.

Lemma silent_ret {A} (a : A) : silent (mret a).
Proof. by intros w b w' [= <- <-]. Qed.

Lemma silent_asks {A} (f : ws_world -> outcome A) : silent (asks f).
Proof. intros w a w'. unfold asks. by destruct (f w); intros [= <- <-]. Qed.

Lemma silent_upd f : silent (upd f).
Proof. unfold upd, get. apply silent_bind; [apply silent_asks|]. intros c w a w' [= <- <-]. done. Qed.

Lemma silent_alloc {A} (m : H A) : silent (alloc m).
Proof. intros w a w'. unfold alloc. destruct (m (heap_of w)) as [[b h]| | |]; try done. by intros [= <- <-]. Qed.

Create HintDb ws_silent.
#[export] Hint Resolve silent_ret silent_asks silent_upd silent_alloc : ws_silent.

Ltac go_silent := repeat first [solve [auto with ws_silent] | apply silent_bind; [|intros ?] | case_match].

Section Send.
Context {options : ws_options} {externals : ws_externals} {laws : ws_laws} (nf : bool) (base : Z).

Lemma silent_new_buf is_tx : silent (esp_websocket_new_buf is_tx).
Proof. unfold esp_websocket_new_buf, calloc, new_block, opt_free, get. go_silent. Qed.

Lemma silent_free_buf is_tx : silent (esp_websocket_free_buf is_tx).
Proof. unfold esp_websocket_free_buf, opt_free, get. go_silent. Qed.

Lemma silent_fill data i n : silent (fill_tx data i n).
Proof. unfold fill_tx, get. go_silent. Qed.

Abbreviation ok_at := (ws_at enable_dynamic_buffer nf base).
Abbreviation fin := (ends nf base).

(** A specification, and that nothing is seen of the step. *)
Lemma ends_silent {A} k w c (P : A -> ws_world -> ws_client -> Prop) (m : W A) : silent m -> yields (m w) (fin k w c P) ->
  yields (m w) (fin k w c (fun a w' c' => P a w' c' /\ outside w' = outside w)).
Proof.
  intros Hs Hm. destruct (m w) as [[a w']| | |] eqn:E; try done. destruct Hm as (c' & cfg' & ? & ? & ?). exists c', cfg'.
  split_and!; try done. by apply (Hs w a w').
Qed.

(** * Messages *)

Definition frame (opcode : Z) (p : list Z) : ws_out := OutFrame opcode p (Z.of_nat (length p)).

(** All but the last frame: without FIN, and continuations after the first. *)
Definition first_frames (opcode : Z) (ps : list (list Z)) : list ws_out :=
  match ps with
  | [] => []
  | p :: ps => frame (Z.ldiff opcode WS_TRANSPORT_OPCODES_FIN) p :: map (frame WS_TRANSPORT_OPCODES_CONT) ps
  end.

(** The opcode of the last frame: with FIN when that was asked for. *)
Definition last_opcode (with_fin : bool) (opcode : Z) (ps : list (list Z)) : Z :=
  match ps with
  | [] => if with_fin then Z.lor opcode WS_TRANSPORT_OPCODES_FIN else opcode
  | _ => if with_fin then WS_TRANSPORT_OPCODES_FIN else WS_TRANSPORT_OPCODES_CONT
  end.

(** [data] as frames of at most [bs] bytes, all of them full but the last, which is
    empty only when there is no data. *)
Definition message (bs : nat) (with_fin : bool) (opcode : Z) (data : list Z) (frames : list ws_out) : Prop :=
  exists ps p, data = concat ps ++ p /\ Forall (fun q => length q = bs) ps /\ length p <= bs /\ (p = [] -> data = [])
    /\ frames = first_frames opcode ps ++ [frame (last_opcode with_fin opcode ps) p].

Lemma message_last bs wf op data : length data <= bs ->
  message bs wf op data [frame (if wf then Z.lor op WS_TRANSPORT_OPCODES_FIN else op) data].
Proof. intros Hl. exists [], data. by split_and!. Qed.

Lemma first_frames_cont ps : first_frames 0 ps = map (frame WS_TRANSPORT_OPCODES_CONT) ps.
Proof. by destruct ps. Qed.

Lemma message_more bs wf op p data frames : length p = bs -> data <> [] -> message bs wf 0 data frames ->
  message bs wf op (p ++ data) (frame (Z.ldiff op WS_TRANSPORT_OPCODES_FIN) p :: frames).
Proof.
  intros Hp Hd (ps & q & -> & Hps & Hq & Hne & ->). exists (p :: ps), q. split_and!; try done.
  - cbn. by rewrite app_assoc.
  - by constructor.
  - intros Hq0. exfalso. by apply Hd, Hne.
  - rewrite first_frames_cont. cbn [first_frames app]. do 3 f_equal. destruct ps; [by destruct wf|done].
Qed.

(** * The loop *)

Section Loop.
Variables (disp : esp_websocket_event_id_t -> option (list Z) -> nat -> W ws_err).

Lemma send_raw_full k w c cfg op p : ok_at k w c cfg -> is_Some (ws_transport c) -> w_writes w = [] ->
  yields (esp_transport_ws_send_raw (ws_transport c) op p w) (fin k w c (fun n w' c' => n = Z.of_nat (length p) /\ c' = c
    /\ w' = set_w_log w (w_log w ++ [frame op p]))).
Proof.
  intros H Ht Hw. eapply w_use_own; [exact H|done|]. intros i _. unfold next, mbind, ST_bind. rewrite Hw. cbn [yields].
  rewrite Z.min_id. unfold out, writes, mret, ST_ret. cbn [yields].
  destruct (at_same nf base k w (set_w_log w (w_log w ++ [frame op p])) c cfg H) as [H1 K1]; [split; cbn; first [done|lia]|].
  exists c, cfg. done.
Qed.

(** From byte [i] on, the loop sends the rest of the message and nothing else. *)
Definition loop_sends fuel data len wf op i : Prop := forall k w c cfg, ok_at k w c cfg -> w_writes w = [] ->
  is_Some (ws_transport c) -> is_Some (ws_tx_buffer c) ->
  yields (send_loop disp fuel data len wf op i (len - i) w) (fin k w c (fun n w' c' => n = Z.of_nat len
    /\ exists frames, w_log w' = w_log w ++ frames
       /\ if ((i <? len) || negb (op =? 0)%Z) then message (ws_buffer_size c) wf op (take (len - i) (drop i data)) frames
          else frames = [])).

(** The body of the loop for a part of [n] bytes, when the rest is sent from there on. *)
Lemma send_part fuel data len wf op i n op' k w c cfg (rest := take (len - i) (drop i data)) :
  ok_at k w c cfg -> w_writes w = [] -> is_Some (ws_transport c) -> is_Some (ws_tx_buffer c) -> len <= length data -> i <= len ->
  n <= len - i -> n <= ws_buffer_size c -> loop_sends fuel data len wf 0 (i + n) ->
  (forall frames, (if (i + n <? len) || negb (0 =? 0)%Z then message (ws_buffer_size c) wf 0 (drop n rest) frames else frames = []) ->
     message (ws_buffer_size c) wf op rest (frame op' (take n rest) :: frames)) ->
  yields ((part ← fill_tx data i n; wlen ← esp_transport_ws_send_raw (ws_transport c) op' part;
     if (wlen <? 0)%Z || (wlen =? 0)%Z && negb (n =? 0) then
       _ ← esp_websocket_free_buf true; _ ← esp_websocket_client_error disp (ReportWrite wlen);
       _ ← esp_websocket_client_abort_connection disp WEBSOCKET_ERROR_TYPE_TCP_TRANSPORT; mret wlen
     else send_loop disp fuel data len wf 0 (i + Z.to_nat wlen) (len - (i + Z.to_nat wlen))) w)
    (fin k w c (fun n w' c' => n = Z.of_nat len
       /\ exists frames, w_log w' = w_log w ++ frames /\ message (ws_buffer_size c) wf op rest frames)).
Proof.
  intros H Hw Ht Htx Hlen Hi Hn Hnb IH Hmsg.
  assert (Hrest : length rest = len - i) by (unfold rest; rewrite length_take, length_drop; lia).
  assert (Etake : take n (drop i data) = take n rest) by (unfold rest; rewrite take_take; f_equal; lia).
  eapply ends_bind; [eapply ends_silent; [apply silent_fill|eapply (fill_tx_spec nf base k w c cfg data i n); [exact H|done|lia|done]]|].
  intros part w1 c1 cfg1 H1 K1 [(-> & [_ [Et _]]%same_tx & Htx1) Ho]. injection Ho as Elog Ewr _ _ _. rewrite <- Et in Ht |- *. rewrite Etake.
  eapply ends_bind; [eapply send_raw_full; [exact H1|done|by rewrite Ewr]|].
  intros wlen w2 c2 cfg2 H2 K2 (-> & -> & Ew2).
  assert (Hw2 : w_writes w2 = []) by by rewrite Ew2, <- Hw.
  assert (Hlog : w_log w2 = w_log w1 ++ [frame op' (take n rest)]) by by rewrite Ew2. clear Ew2. rewrite length_take, Hrest, Nat.min_l by done.
  replace ((Z.of_nat n <? 0)%Z || (Z.of_nat n =? 0)%Z && negb (n =? 0)) with false.
  2:{ symmetry. apply orb_false_iff. split; [apply Z.ltb_ge; lia|]. destruct n; [done|]. apply andb_false_iff. left. apply Z.eqb_neq. lia. }
  rewrite Nat2Z.id. eapply ends_mono; [eapply IH; [exact H2|done|done|done]|].
  intros r w' c' [-> (frames & Hl' & Hfr)]. split; [done|]. exists (frame op' (take n rest) :: frames).
  split; [rewrite Hl', Hlog, Elog, <- app_assoc; done|]. apply Hmsg. rewrite (kp_size _ _ _ _ K1) in Hfr.
  destruct ((i + n <? len) || negb (0 =? 0)%Z); [|done].
  replace (drop n rest) with (take (len - (i + n)) (drop (i + n) data)); [done|].
  unfold rest. rewrite <- drop_drop, take_drop_commute. f_equal. f_equal. lia.
Qed.

(** The whole loop, with a step for each byte left and one for a message without any. *)
Lemma send_loop_full fuel data len wf : len <= length data -> forall op i, i <= len ->
  (if (op =? 0)%Z then 0 else 1) + (len - i) < fuel -> loop_sends fuel data len wf op i.
Proof.
  intros Hlen. induction fuel as [|fuel IH]; intros op i Hi Hf k w c cfg H Hw Ht Htx; [lia|]. cbn [send_loop].
  destruct ((i <? len) || negb (op =? 0)%Z) eqn:Emore; cbn [negb].
  2:{ apply orb_false_iff in Emore as [Ei _]. bsimp. eapply ends_bind; [eapply ends_silent; [apply silent_free_buf|by eapply free_tx_spec]|].
      intros [] w1 c1 cfg1 H1 K1 [_ Ho]. eapply w_ends; [exact H1|]. split; [lia|]. exists []. injection Ho as -> _ _ _ _.
      by rewrite app_nil_r. }
  eapply w_get; [exact H|].
  assert (Hrest : length (take (len - i) (drop i data)) = len - i) by (rewrite length_take, length_drop; lia).
  pose proof (ok_size _ _ _ _ (at_is_ok _ _ _ _ _ _ H)) as Hbs.
  assert (Hgo : forall n, n <= len - i -> (0 < len - i -> 0 < n) -> loop_sends fuel data len wf 0 (i + n)).
  { intros n Hn Hn0. apply IH; [lia|]. cbn. destruct (Z.eqb_spec op 0) as [->|]; cbv iota in Hf; [|lia].
    rewrite orb_false_r in Emore. bsimp. lia. }
  unfold next_part. destruct (ws_buffer_size c <? len - i) eqn:Eb; bsimp; [|destruct wf].
  - eapply send_part; try done; [lia|apply Hgo; lia|]. intros frames.
    rewrite (proj2 (Nat.ltb_lt _ _)) by lia. cbn [orb]. intros Hm. rewrite <- (take_drop (ws_buffer_size c) (take (len - i) _)) at 1.
    apply message_more; [rewrite length_take; lia| |done]. intros E%(f_equal length). rewrite length_drop in E. cbn in E. lia.
  - eapply send_part; try done; [apply Hgo; lia|]. intros frames.
    rewrite (proj2 (Nat.ltb_ge _ _)) by lia. cbn. intros ->. rewrite (take_ge (take _ _)) by lia. apply (message_last _ true). lia.
  - eapply send_part; try done; [apply Hgo; lia|]. intros frames.
    rewrite (proj2 (Nat.ltb_ge _ _)) by lia. cbn. intros ->. rewrite (take_ge (take _ _)) by lia. apply (message_last _ false). lia.
Qed.
End Loop.

Lemma send_full k w c cfg op data len : ok_at k w c cfg -> nf = true -> ws_state c = WEBSOCKET_STATE_CONNECTED -> w_writes w = [] ->
  len <= length data -> 0 < len \/ op <> 0%Z ->
  yields (esp_websocket_client_send_with_exact_opcode esp_websocket_client_dispatch_event true op (Some data) (Z.of_nat len) w)
    (fin k w c (fun n w' _ => n = Z.of_nat len /\ exists frames, w_log w' = w_log w ++ frames
       /\ message (ws_buffer_size c) (has_bit op WS_TRANSPORT_OPCODES_FIN) op (take len data) frames)).
Proof.
  intros H Hnf Hs Hw Hl Hop. unfold esp_websocket_client_send_with_exact_opcode.
  assert (Ht : is_Some (ws_transport c)) by (apply (ok_state _ _ _ _ (at_is_ok _ _ _ _ _ _ H)); by rewrite Hs).
  eapply (st_seq _ _ _ (fun r => r = (true, w))).
  { unfold send_checks, esp_websocket_client_is_connected. rewrite (proj2 (Z.ltb_ge _ _)) by lia. cbn [orb].
    apply st_assoc. eapply w_get; [exact H|]. apply st_ret. rewrite bool_decide_true by done. cbn [negb].
    eapply w_get; [exact H|]. cbn. by destruct Ht as [i ->]. }
  intros ok w0 [= -> ->]. cbn [negb]. unfold send_locked. eapply take_lock_spec; [exact H|]. cbn [negb].
  eapply ends_bind; [eapply ends_silent; [apply silent_new_buf|by eapply new_tx_spec]|].
  intros e w1 c1 cfg1 H1 K1 [([Hv [Et _]]%same_tx & Htx & He) Ho]. rewrite (He Hnf), decide_False by auto. rewrite Nat2Z.id.
  injection Ho as Elog Ewr _ _ _. rewrite <- Et in Ht. cbn [default].
  pose proof (send_loop_full esp_websocket_client_dispatch_event (S (S len)) data len (has_bit op WS_TRANSPORT_OPCODES_FIN) Hl op 0
    ltac:(lia) ltac:(case_match; lia) k w1 c1 cfg1 H1 ltac:(congruence) Ht (Htx (He Hnf))) as Hy. rewrite Nat.sub_0_r in Hy.
  eapply ends_mono; [exact Hy|]. intros n w' c' (-> & frames & Hlog & Hm). split; [done|]. exists frames. rewrite Hlog, Elog. split; [done|].
  rewrite (kp_size _ _ _ _ K1), drop_0 in Hm. replace ((0 <? len) || negb (op =? 0)%Z) with true in Hm; [done|].
  symmetry. apply orb_true_iff. rewrite Nat.ltb_lt, negb_true_iff, Z.eqb_neq. done.
Qed.

End Send.

(** C37.  A message that a connected client sends to a transport that takes it is on the
    wire as the websocket protocol wants it: the frames carry the data in its order
    and nothing else, none is longer than the buffer and all but the last are full;
    the first has the opcode asked for and the others are continuations; FIN is on
    the last one, if it was asked for, and on no other.  The call returns the number
    of bytes. *)
Theorem ws_send_is_message {options : ws_options} {externals : ws_externals} {laws : ws_laws} config w w1 ls m c op data len :
  ws_env_ok config w -> esp_websocket_client_init config w = Ret (true, w1) -> ws_runs (new_machine w1) ls m ->
  never_fails (w_heap w) -> w_client (m_world m) = Some c -> ws_state c = WEBSOCKET_STATE_CONNECTED -> w_writes (m_world m) = [] ->
  len <= length data -> 0 < len \/ op <> 0%Z ->
  exists w' frames, esp_websocket_client_send_with_exact_opcode esp_websocket_client_dispatch_event true op (Some data) (Z.of_nat len)
      (m_world m) = Ret (Z.of_nat len, w')
    /\ w_log w' = w_log (m_world m) ++ frames
    /\ message (ws_buffer_size c) (has_bit op WS_TRANSPORT_OPCODES_FIN) op (take len data) frames.
Proof.
  intros He Hi Hr Hn Hc Hs Hw Hl Hop. pose proof (runs_ok _ _ _ _ _ (new_client_ok _ _ _ He Hi) Hr) as Hm.
  unfold machine_ok, inv_at in Hm. rewrite Hc in Hm. destruct Hm as [[cfg H0] _].
  assert (Hnf : safe_heap w = true) by (unfold safe_heap; by rewrite Hn).
  pose proof (send_full _ _ _ _ _ _ op data len H0 Hnf Hs Hw Hl Hop) as Hy.
  destruct (esp_websocket_client_send_with_exact_opcode _ _ _ _ _ _) as [[n w']| | |]; try done.
  destruct Hy as (c' & cfg' & _ & _ & Hy). cbn in Hy. destruct Hy as (-> & frames & Hlog & Hmsg). by exists w', frames.
Qed.
