(* ===== verification/WsRecv.v ===== *)
(** What the application gets to see of a frame the websocket client receives, and what
    the client answers. *)
From S2P Require Import Prelude Heap State WsData Ws WsConfig WsTask WsProofs WsSafe WsConfigProofs WsLife WsInit WsRun WsSteps WsMachine WsTheorems WsSend.

(** The event that is posted for a client in this state. *)
Definition event_of (c : ws_client) (cfg : websocket_config_storage_t) (d : option (list Z)) (n : nat) : esp_websocket_event_data_t :=
  mk_ws_event d n (ws_last_fin c) (u8 (ws_last_opcode c)) (cf_user_context cfg) (ws_payload_len c) (ws_payload_offset c)
    (ws_close_status_code c) (ws_error_type c) (ws_handshake_status c) None.

(** A frame as the transport delivers it, part by part. *)
Definition parts_of (plen : nat) (fin : bool) (op : Z) (ps : list (list Z)) : list read_answer :=
  map (fun p => ReadData p plen fin op) ps.

(** What the events say of the connection. *)
Definition about (c : ws_client) := (ws_close_status_code c, ws_error_type c, ws_handshake_status c).

(** The events for the parts of a frame: each part with its place in the frame. *)
Fixpoint data_events (a : Z * esp_websocket_error_type_t * Z) (context : Z) (plen : nat) (fin : bool) (op : Z) (offset : nat) (ps : list (list Z)) : list ws_out :=
  match ps with
  | [] => []
  | p :: ps =>
      OutEvent WEBSOCKET_EVENT_DATA (mk_ws_event (Some p) (length p) fin (u8 op) context plen offset
        (fst (fst a)) (snd (fst a)) (snd a) None)
      :: data_events a context plen fin op (offset + length p) ps
  end.

(** What does not change while a frame is read. *)
Definition recv_view (c : ws_client) :=
  (ws_state c, ws_transport c, ws_buffer_size c, ws_close_status_code c, (ws_error_type c, ws_handshake_status c, ws_wait_for_pong_resp c)).

Section Recv.
Context {options : ws_options} {externals : ws_externals} {laws : ws_laws} (base : Z).

Abbreviation ok_at := (ws_at enable_dynamic_buffer true base).
Abbreviation fin := (ends true base).
Abbreviation disp := esp_websocket_client_dispatch_event.

(** An event nobody reacts to. *)
Lemma event_quiet k w c cfg ev d n : ok_at k w c cfg -> w_reactions w = [] -> ws_error_type c <> WEBSOCKET_ERROR_TYPE_TCP_TRANSPORT ->
  yields (disp ev d n w) (fun r => snd r = set_w_log w (w_log w ++ [OutEvent ev (event_of c cfg d n)])
    /\ ok_at k (snd r) c cfg /\ ws_keeps w (snd r) c c).
Proof.
  intros H Hr He. unfold disp. apply State.st_reads. rewrite Hr. cbn [length dispatch]. unfold make_event. apply st_assoc.
  eapply w_get; [exact H|]. apply st_assoc. eapply w_get_cfg; [exact H|]. rewrite decide_False by done. apply st_ret.
  eapply w_get; [exact H|]. eapply st_asks; [by rewrite (ok_event _ _ _ _ (at_is_ok _ _ _ _ _ _ H))|].
  pose proof (at_heap _ _ _ _ _ _ _ H) as [Hn _]. specialize (Hn eq_refl). unfold never_fails in Hn.
  eapply (st_seq _ _ _ (fun r => r = (true, w))).
  { unfold alloc, attempt. cbn [heap_of ws_world_heap]. rewrite Hn. cbn. by destruct w. }
  intros ok w0 [= -> ->]. cbn [negb]. unfold out. apply st_writes. unfold next, mbind, ST_bind. cbn [w_reactions set_w_log].
  rewrite Hr. cbn [iter yields mret ST_ret snd]. split_and!; try done;
    (eapply (at_same true base k w); [exact H|split; cbn; first [done|lia]]).
Qed.

(** The state the last part leaves behind. *)
Record frame_read (c0 c : ws_client) (plen : nat) (op : Z) (p : list Z) : Prop := {
  rd_view : recv_view c = recv_view c0;
  rd_opcode : ws_last_opcode c = op;
  rd_plen : ws_payload_len c = plen;
  rd_rx : exists rx, ws_rx_buffer c = Some rx /\ take (length p) rx = p;
}.

Lemma read_full k w c cfg p plen fn op l : ok_at k w c cfg -> is_Some (ws_transport c) -> w_reads w = ReadData p plen fn op :: l ->
  length p <= ws_buffer_size c ->
  esp_transport_read (ws_transport c) (ws_buffer_size c) w = Ret (ReadData p plen fn op, set_w_reads w l).
Proof.
  intros H [i Hi] Hr Hl. unfold esp_transport_read, use_transport, asks, mbind, ST_bind. rewrite Hi. cbn [deref mbind outcome_bind].
  pose proof (ok_transport _ _ _ _ (at_is_ok _ _ _ _ _ _ H) i Hi) as Hk. rewrite decide_True by exact Hk. unfold next. rewrite Hr. cbn.
  unfold mret, ST_ret. by rewrite take_ge by lia.
Qed.

Lemma recv_loop_full ps : forall fuel k w c cfg rest plen fn op, ok_at k w c cfg -> w_reactions w = [] ->
  ws_error_type c <> WEBSOCKET_ERROR_TYPE_TCP_TRANSPORT -> is_Some (ws_transport c) -> is_Some (ws_rx_buffer c) ->
  aborted (ws_state c) = false -> w_reads w = parts_of plen fn op ps ++ rest -> ps <> [] ->
  ws_payload_offset c + length (concat ps) = plen -> Forall (fun p => length p <= ws_buffer_size c) ps ->
  length ps = 1 \/ Forall (fun p => 0 < length p) ps -> op <> WS_TRANSPORT_OPCODES_NONE -> length ps <= fuel ->
  yields (recv_loop fuel w) (fin k w c (fun r w' c' => r = None /\ w_reads w' = rest /\ w_writes w' = w_writes w
    /\ w_log w' = w_log w ++ data_events (about c) (cf_user_context cfg) plen fn op (ws_payload_offset c) ps
    /\ frame_read c c' plen op (List.last ps []))).
Proof.
  induction ps as [|p ps IH]; intros fuel k w c cfg rest plen fn op H Hre He Ht [rx Hrx] Hst Hrd Hne Hoff Hsz Hpos Hop Hf; [done|].
  destruct fuel as [|fuel]; [cbn in Hf; lia|]. cbn [recv_loop]. eapply w_get; [exact H|]. eapply st_asks; [by rewrite Hrx|].
  cbn [parts_of map app] in Hrd. apply Forall_cons in Hsz as [Hp Hsz].
  eapply (st_seq _ _ _ (fun r => r = (ReadData p plen fn op, set_w_reads w (parts_of plen fn op ps ++ rest)))).
  { by rewrite (read_full k w c cfg p plen fn op (parts_of plen fn op ps ++ rest)). }
  intros r w1 [= -> ->]. destruct (reads_at true base k w c cfg _ _ H Hrd) as [H1 K1]. eapply ends_from; [exact K1| |done].
  pose proof (ok_rx _ _ _ _ (at_is_ok _ _ _ _ _ _ H)) as Hl. rewrite Hrx in Hl. cbn in Hl.
  eapply st_asks; [apply wr_bytes_ok; lia|]. rewrite take_0. cbn [Nat.add app].
  set (rx1 := p ++ drop (length p) rx). assert (Hrx1 : length rx1 = ws_buffer_size c) by (unfold rx1; rewrite !length_app, length_drop; lia).
  assert (Htk : take (length p) rx1 = p) by (unfold rx1; by rewrite take_app_length).
  eapply w_upd; [exact H1|]. destruct (part_read_at true base k _ c cfg rx rx1 plen fn op H1 Hrx Hrx1) as [H2 K2].
  eapply ends_from; [exact K2| |done]. fold (part_read c rx1 plen fn op). set (c2 := part_read c rx1 plen fn op) in *.
  rewrite (proj2 (Z.eqb_neq _ _) Hop), andb_false_r.
  eapply st_seq; [by eapply event_quiet|]. intros e w3 (E3 & H3 & K3). cbn [snd] in *. subst w3. eapply ends_from; [exact K3| |done].
  eapply w_get; [exact H3|]. change (ws_state c2) with (ws_state c). rewrite Hst.
  eapply w_quiet; [exact H3|done|done|apply (ok_state _ _ _ _ (at_is_ok _ _ _ _ _ _ H3))|]. intros w4 -> H4 K4. eapply w_get; [exact H4|].
  set (c4 := set_ws_payload_offset c2 (ws_payload_offset c2 + length p)) in *. cbn [concat length] in Hoff. rewrite length_app in Hoff.
  change (ws_payload_offset c4) with (ws_payload_offset c + length p). change (ws_payload_len c4) with plen.
  assert (Hev : event_of c2 cfg (Some (take (length p) rx1)) (length p)
    = mk_ws_event (Some p) (length p) fn (u8 op) (cf_user_context cfg) plen (ws_payload_offset c)
        (ws_close_status_code c) (ws_error_type c) (ws_handshake_status c) None) by (unfold event_of; by rewrite Htk).
  destruct ps as [|q ps].
  - cbn [concat length] in Hoff. rewrite (proj2 (Nat.ltb_ge _ _)) by lia. eapply w_ends; [exact H4|]. cbn [w_reads w_writes w_log set_w_client set_w_log set_w_reads].
    split_and!; try done; [by rewrite Hev|]. split; try done. by exists rx1.
  - destruct Hpos as [Hpos|Hpos]; [done|]. apply Forall_cons in Hpos as [_ Hpos].
    rewrite (proj2 (Nat.ltb_lt _ _)).
    2:{ apply Forall_cons in Hpos as [Hq _]. cbn [concat] in Hoff. rewrite length_app in Hoff. lia. }
    eapply ends_mono; [eapply (IH fuel k _ c4 cfg rest plen fn op); try done|].
    + change (ws_payload_offset c4) with (ws_payload_offset c + length p). lia.
    + by right.
    + cbn in *. lia.
    + intros r w' c' (-> & Hr' & Hw' & Hlog & [Hv Ho Hpl Hrx']). split_and!; try done.
      rewrite Hlog. cbn [w_log set_w_client set_w_log set_w_reads data_events]. rewrite Hev, <- app_assoc. done.
Qed.

(** What the client answers, and the status a close frame carries. *)
Definition answer (op : Z) (p : list Z) : list ws_out :=
  if (op =? WS_TRANSPORT_OPCODES_PING)%Z then [frame (Z.lor WS_TRANSPORT_OPCODES_PONG WS_TRANSPORT_OPCODES_FIN) p] else [].

Definition close_code (p : list Z) : Z := match p with hi :: lo :: _ => be16 hi lo | _ => 0 end.

(** The client after the frame. *)
Record after_frame (c c' : ws_client) (op : Z) (p : list Z) : Prop := {
  af_state : ws_state c' = if (op =? WS_TRANSPORT_OPCODES_CLOSE)%Z then WEBSOCKET_STATE_CLOSING else ws_state c;
  af_code : ws_close_status_code c' = if (op =? WS_TRANSPORT_OPCODES_CLOSE)%Z then close_code p else ws_close_status_code c;
  af_pong : ws_wait_for_pong_resp c' = if (op =? WS_TRANSPORT_OPCODES_PONG)%Z then false else ws_wait_for_pong_resp c;
}.

(** Frames the client itself looks into arrive in one part. *)
Definition looked_into (op : Z) : bool := (op =? WS_TRANSPORT_OPCODES_PING)%Z || (op =? WS_TRANSPORT_OPCODES_CLOSE)%Z.

Lemma frame_received_full k w c0 c cfg op p plen : ok_at k w c cfg -> is_Some (ws_transport c) -> w_writes w = [] ->
  frame_read c0 c plen op p -> (looked_into op = true -> plen = length p) ->
  yields (frame_received w) (fin k w c (fun _ w' c' => w_reads w' = w_reads w /\ w_log w' = w_log w ++ answer op p /\ after_frame c0 c' op p)).
Proof.
  intros H Ht Hw [Hv Hop Hpl (rx & Hrx & Htk)] Hlook. injection Hv as Ev1 Ev2 Ev3 Ev4 Ev5 Ev6 Ev7.
  unfold frame_received, answer, looked_into in *. eapply w_get; [exact H|]. rewrite Hop, Hpl.
  pose proof (ok_rx _ _ _ _ (at_is_ok _ _ _ _ _ _ H)) as Hl. rewrite Hrx in Hl. cbn in Hl.
  assert (Erx : rx = p ++ drop (length p) rx) by (rewrite <- Htk at 1; by rewrite take_drop).
  destruct (Z.eqb_spec op WS_TRANSPORT_OPCODES_PING) as [->|Hping]; cbn [orb] in Hlook.
  - rewrite (Hlook eq_refl) in *. eapply (st_seq _ _ _ (fun r => r = (p, w))).
    { case_on_goal; bsimp; [by destruct p|]. eapply st_asks; [by rewrite Hrx|]. unfold asks. rewrite rd_bytes_ok, drop_0, Htk; [done|].
      rewrite Erx, length_app. lia. }
    intros d w0 [= -> ->]. eapply ends_bind; [by eapply send_raw_full|]. intros n w1 c1 cfg1 H1 K1 (_ & -> & ->).
    eapply w_ends; [exact H1|]. by split_and!.
  - destruct (Z.eqb_spec op WS_TRANSPORT_OPCODES_PONG) as [->|Hpong].
    { eapply w_quiet_last; [exact H|done|done|apply (ok_state _ _ _ _ (at_is_ok _ _ _ _ _ _ H))|]. rewrite app_nil_r. by split_and!. }
    destruct (Z.eqb_spec op WS_TRANSPORT_OPCODES_CLOSE) as [->|Hclose].
    2:{ eapply w_ends; [exact H|]. rewrite app_nil_r. split_and!; try done.
        split; [by rewrite (proj2 (Z.eqb_neq _ _) Hclose)..|by rewrite (proj2 (Z.eqb_neq _ _) Hpong)]. }
    rewrite (Hlook eq_refl) in *. eapply w_quiet; [exact H|done|done|apply (ok_state _ _ _ _ (at_is_ok _ _ _ _ _ _ H))|].
    intros w1 -> H1 K1. rewrite app_nil_r.
    eapply (ends_bind true base k k _ _ (fun _ w' c' => outside w' = outside w /\ is_Some (ws_transport c')
      /\ ws_close_status_code c' = close_code p /\ ws_wait_for_pong_resp c' = ws_wait_for_pong_resp c)).
    + destruct p as [|hi [|lo p]]; [by eapply w_ends..|]. cbn [length Nat.leb]. eapply st_asks; [by rewrite Hrx|].
      rewrite Erx. eapply st_asks; [done|]. eapply st_asks; [done|]. by eapply w_quiet_last.
    + intros [] w2 c2 cfg2 H2 K2 (Ho & Ht2 & Hcode & Hwait). injection Ho as Elog _ Erd _ _. eapply w_quiet_last; [exact H2|done|done|done|].
      split_and!; try done. split; cbn; [done|done|]. by rewrite Hwait.
Qed.

(** Only the content of frames that are looked into matters. *)
Lemma answer_same op p q : (looked_into op = true -> p = q) -> answer op p = answer op q.
Proof. unfold answer, looked_into. intros Hpq. destruct (op =? WS_TRANSPORT_OPCODES_PING)%Z; [|done]. by rewrite Hpq. Qed.

Lemma after_frame_same c c' op p q : (looked_into op = true -> p = q) -> after_frame c c' op p -> after_frame c c' op q.
Proof.
  unfold looked_into. intros Hpq []. split; try done. destruct (op =? WS_TRANSPORT_OPCODES_CLOSE)%Z; [|done].
  rewrite <- Hpq; [done|]. by rewrite orb_true_r.
Qed.

Lemma recv_full k w c cfg rest plen fn op ps : ok_at k w c cfg -> w_reactions w = [] -> w_writes w = [] ->
  ws_error_type c <> WEBSOCKET_ERROR_TYPE_TCP_TRANSPORT -> ws_state c = WEBSOCKET_STATE_CONNECTED ->
  w_reads w = parts_of plen fn op ps ++ rest -> length (concat ps) = plen -> Forall (fun p => length p <= ws_buffer_size c) ps ->
  length ps = 1 \/ ps <> [] /\ looked_into op = false /\ Forall (fun p => 0 < length p) ps -> op <> WS_TRANSPORT_OPCODES_NONE ->
  yields (esp_websocket_client_recv w) (fin k w c (fun e w' c' => e = ESP_OK /\ w_reads w' = rest
    /\ w_log w' = w_log w ++ data_events (about c) (cf_user_context cfg) plen fn op 0 ps ++ answer op (concat ps)
    /\ after_frame c c' op (concat ps))).
Proof.
  intros H Hre Hw He Hst Hrd Hlen Hsz Hps Hop. unfold esp_websocket_client_recv.
  assert (Ht : is_Some (ws_transport c)) by (apply (ok_state _ _ _ _ (at_is_ok _ _ _ _ _ _ H)); by rewrite Hst).
  eapply w_quiet; [exact H|done|done|done|]. intros w1 -> H1 K1.
  eapply ends_bind; [eapply ends_silent; [apply silent_new_buf|by eapply new_rx_spec]|].
  intros e w2 c2 cfg2 H2 K2 [(Hsame & Hrx & Hok) Ho]. rewrite (Hok eq_refl), decide_False by auto.
  injection Ho as Elog Ewr Erd Ere _. cbn in Elog, Ewr, Erd, Ere. apply State.st_reads.
  assert (Hne : ps <> []) by (destruct Hps as [?|[? _]]; [by intros ->|done]).
  assert (Hlast : looked_into op = true -> List.last ps [] = concat ps).
  { destruct Hps as [Hps|(_ & -> & _)]; [|done]. destruct ps as [|p [|q ps]]; try done. cbn. by rewrite app_nil_r. }
  assert (cfg2 = cfg) as ->.
  { pose proof (ok_config _ _ _ _ (at_is_ok _ _ _ _ _ _ H2)) as E2. pose proof (ok_config _ _ _ _ (at_is_ok _ _ _ _ _ _ H)) as E1.
    rewrite Hsame in E2. cbn in E2. congruence. }
  assert (Ht2 : is_Some (ws_transport c2)) by by rewrite Hsame.
  eapply ends_bind; [eapply (recv_loop_full ps _ k w2 c2 cfg rest plen fn op); try done|].
  - by rewrite Ere.
  - by rewrite Hsame.
  - by apply Hrx, Hok.
  - rewrite Hsame. cbn. by rewrite Hst.
  - by rewrite Erd.
  - rewrite Hsame. cbn. exact Hlen.
  - rewrite Hsame. exact Hsz.
  - destruct Hps as [?|(_ & _ & ?)]; auto.
  - rewrite Erd, Hrd, length_app. unfold parts_of. rewrite length_map. lia.
  - intros r w3 c3 cfg3 H3 K3 (-> & Hr3 & Hw3 & Hlog3 & Hfr).
    assert (Ht3 : is_Some (ws_transport c3)) by by rewrite (kp_transport _ _ _ _ K3).
    eapply ends_bind; [eapply frame_received_full; [exact H3|done|by rewrite Hw3, Ewr|exact Hfr|]|].
    { intros Hlk. rewrite (Hlast Hlk). done. }
    intros [] w4 c4 cfg4 H4 K4 (Hr4 & Hlog4 & Haf).
    eapply ends_bind; [eapply ends_silent; [apply silent_free_buf|by eapply free_rx_spec]|].
    intros [] w5 c5 cfg5 H5 K5 [Hs5 Ho5]. injection Ho5 as E5 _ R5 _ _. eapply w_ends; [exact H5|]. split_and!.
    + done.
    + by rewrite R5, Hr4.
    + rewrite E5, Hlog4, Hlog3, Elog, (answer_same op _ _ Hlast), <- app_assoc. by rewrite Hsame.
    + apply (after_frame_same _ _ _ _ _ Hlast). destruct Haf as [A1 A2 A3]. rewrite Hs5.
      split; cbn; rewrite ?A1, ?A2, ?A3, Hsame; done.
Qed.

End Recv.

(** C38.  The application gets to see a frame whole: while the client is connected, has
    memory, its handler does no more than look and no write is refused, and if the frame
    comes in one part, or in any number of parts that are not empty and is neither a PING
    nor a CLOSE, [esp_websocket_client_recv] posts one DATA event for each part
    the transport delivers, in order, with the bytes of the part, its offset in the
    frame, the length of the frame, its opcode and FIN.  A PING is answered with a
    PONG that carries its payload, a PONG ends the wait for one, a CLOSE moves the
    client to closing with the status code it carries, and no other frame changes the
    state. *)
Theorem ws_recv_delivers {options : ws_options} {externals : ws_externals} {laws : ws_laws} config w w1 ls m c cfg rest plen fn op ps :
  ws_env_ok config w -> esp_websocket_client_init config w = Ret (true, w1) -> ws_runs (new_machine w1) ls m ->
  never_fails (w_heap w) -> w_client (m_world m) = Some c -> ws_config c = Some cfg -> ws_state c = WEBSOCKET_STATE_CONNECTED ->
  ws_error_type c <> WEBSOCKET_ERROR_TYPE_TCP_TRANSPORT -> w_reactions (m_world m) = [] -> w_writes (m_world m) = [] ->
  w_reads (m_world m) = parts_of plen fn op ps ++ rest -> length (concat ps) = plen ->
  Forall (fun p => length p <= ws_buffer_size c) ps ->
  length ps = 1 \/ ps <> [] /\ looked_into op = false /\ Forall (fun p => 0 < length p) ps -> op <> WS_TRANSPORT_OPCODES_NONE ->
  exists w' c', esp_websocket_client_recv (m_world m) = Ret (ESP_OK, w') /\ w_client w' = Some c' /\ w_reads w' = rest
    /\ w_log w' = w_log (m_world m) ++ data_events (about c) (cf_user_context cfg) plen fn op 0 ps ++ answer op (concat ps)
    /\ after_frame c c' op (concat ps).
Proof.
  intros Henv Hi Hr Hn Hc Hcfg Hs He Hre Hw Hrd Hlen Hsz Hps Hop.
  pose proof (runs_ok _ _ _ _ _ (new_client_ok _ _ _ Henv Hi) Hr) as Hm. unfold machine_ok, inv_at in Hm. rewrite Hc in Hm.
  destruct Hm as [[cfg0 Hat] _]. assert (Hnf : safe_heap w = true) by (unfold safe_heap; by rewrite Hn). rewrite Hnf in Hat.
  pose proof (ok_config _ _ _ _ (at_is_ok _ _ _ _ _ _ Hat)) as E. rewrite Hcfg in E. injection E as <-.
  pose proof (recv_full _ _ _ _ _ rest plen fn op ps Hat Hre Hw He Hs Hrd Hlen Hsz Hps Hop) as Hy.
  destruct (esp_websocket_client_recv (m_world m)) as [[e w']| | |]; try done. destruct Hy as (c' & cfg' & Hat' & _ & Hy). cbn [fst snd] in *.
  destruct Hy as (-> & Hr' & Hl' & Ha). exists w', c'. split_and!; try done. apply (at_client _ _ _ _ _ _ _ Hat').
Qed.
