(* ===== verification/WsLost.v ===== *)
(** What becomes of a stop that comes before the first step of the task of the websocket
    client: the begin of the task overwrites it. *)
From S2P Require Import Prelude Heap State WsData Ws WsConfig WsTask WsProofs WsSafe WsConfigProofs WsLife WsInit WsRun WsSteps WsMachine WsTheorems.

(** * Steps that leave [run] and the transport alone *)

Definition run_view (w : ws_world) := (option_map (fun c => (ws_run c, ws_transport c)) (w_client w), w_reactions w).

Definition run_kept {A} (m : W A) : Prop := forall w a w', w_reactions w = [] -> m w = Ret (a, w') -> run_view w' = run_view w.

Lemma rk_bind {A B} (m : W A) (f : A -> W B) : run_kept m -> (forall a, run_kept (f a)) -> run_kept (m ≫= f).
Proof.
  intros Hm Hf w b w' Hr. unfold mbind, ST_bind. destruct (m w) as [[a w1]| | |] eqn:E; try done. intros Hw.
  pose proof (Hm w a w1 Hr E) as E1. rewrite (Hf a w1 b w'); [done| |done]. injection E1 as _ E1. congruence.
Qed.

Lemma rk_ret {A} (a : A) : run_kept (mret a).
Proof. by intros w b w' _ [= <- <-]. Qed.

Lemma rk_asks {A} (f : ws_world -> outcome A) : run_kept (asks f).
Proof. intros w a w' _. unfold asks. by destruct (f w); intros [= <- <-]. Qed.

Lemma rk_writes f : (forall w, run_view (f w) = run_view w) -> run_kept (writes f).
Proof. intros Hf w a w' _ [= <- <-]. apply Hf. Qed.

Lemma rk_upd f : (forall c, ws_run (f c) = ws_run c /\ ws_transport (f c) = ws_transport c) -> run_kept (upd f).
Proof.
  intros Hf w a w' _. unfold upd, get, asks, mbind, ST_bind. destruct (w_client w) as [c|] eqn:E; [|done].
  intros [= <- <-]. unfold run_view. cbn. destruct (Hf c) as [-> ->]. by rewrite E.
Qed.

Lemma rk_alloc {A} (m : H A) : run_kept (alloc m).
Proof. intros w a w' _. unfold alloc. destruct (m (heap_of w)) as [[b h]| | |]; try done. by intros [= <- <-]. Qed.

Lemma rk_next {A} (d : A) (get : ws_world -> list A) (put : ws_world -> list A -> ws_world) :
  (forall w l, run_view (put w l) = run_view w) -> run_kept (next d get put).
Proof. intros Hp w a w' _. unfold next. destruct (get w); intros [= <- <-]; auto. Qed.

Create HintDb ws_run_kept.
#[export] Hint Resolve rk_ret rk_asks rk_alloc : ws_run_kept.
#[export] Hint Extern 1 (run_kept (upd _)) => by apply rk_upd : ws_run_kept.
#[export] Hint Extern 1 (run_kept (writes _)) => by apply rk_writes : ws_run_kept.
#[export] Hint Extern 1 (run_kept (next _ _ _)) => by apply rk_next : ws_run_kept.

Ltac go_run_kept := repeat first [solve [auto with ws_run_kept] | apply rk_bind; [|intros ?] | case_match].

Section Lost.
Context {options : ws_options} {externals : ws_externals} {laws : ws_laws}.

Lemma rk_make_event d n : run_kept (make_event d n).
Proof. unfold make_event, get_cfg, get, may_use_transport, use_transport. go_run_kept. Qed.

Lemma rk_event ev d n : run_kept (esp_websocket_client_dispatch_event ev d n).
Proof.
  intros w a w' Hr. unfold esp_websocket_client_dispatch_event, reads, mbind, ST_bind. rewrite Hr. cbn [length dispatch].
  revert w a w' Hr. apply rk_bind; [apply rk_make_event|]. intros ev1. unfold get, out.
  apply rk_bind; [auto with ws_run_kept|]. intros c. apply rk_bind; [auto with ws_run_kept|]. intros _.
  apply rk_bind; [auto with ws_run_kept|]. intros ok. case_match; [auto with ws_run_kept|].
  apply rk_bind; [auto with ws_run_kept|]. intros _. intros w a w' Hr. unfold next, mbind, ST_bind. rewrite Hr. cbn [iter].
  by intros [= <- <-].
Qed.

(** Nobody reacts, and the client runs, at least if it has a transport. *)
Definition running (w : ws_world) : Prop := w_reactions w = [] /\ exists c, w_client w = Some c /\ ws_run c = true.

Definition may_run (w : ws_world) : Prop :=
  w_reactions w = [] /\ exists c, w_client w = Some c /\ (is_Some (ws_transport c) -> ws_run c = true).

Definition leads {A} (I : ws_world -> Prop) (m : W A) (J : ws_world -> Prop) : Prop :=
  forall w a w', I w -> m w = Ret (a, w') -> J w'.

Lemma leads_bind {A B} I J K (m : W A) (f : A -> W B) : leads I m J -> (forall a, leads J (f a) K) -> leads I (m ≫= f) K.
Proof.
  intros Hm Hf w b w' HI. unfold mbind, ST_bind. destruct (m w) as [[a w1]| | |] eqn:E; try done. intros Hw.
  eapply (Hf a); [by eapply Hm|exact Hw].
Qed.

Lemma leads_kept {A} (m : W A) : run_kept m -> leads running m running /\ leads may_run m may_run.
Proof.
  intros Hm. split; intros w a w' [Hr (c & Hc & Hrun)] Hw; injection (Hm w a w' Hr Hw) as Ev Er; rewrite Hc in Ev;
    (destruct (w_client w') as [c'|] eqn:Hc'; [|done]); cbn in Ev; injection Ev as E1 E2;
    (split; [congruence|]); exists c'; (split; [done|]); by rewrite E1, ?E2.
Qed.

Lemma leads_running {A} (m : W A) : run_kept m -> leads running m running.
Proof. apply leads_kept. Qed.

Lemma leads_may {A} (m : W A) : run_kept m -> leads may_run m may_run.
Proof. apply leads_kept. Qed.

Lemma leads_upd I J f : (forall w c, I w -> w_client w = Some c -> J (set_w_client w (Some (f c)))) -> leads I (upd f) J.
Proof.
  intros Hf w a w' HI. unfold upd, get, asks, mbind, ST_bind. destruct (w_client w) as [c|] eqn:E; [|done].
  cbn. intros [= <- <-]. by apply Hf.
Qed.

Lemma leads_get {B} I J (f : ws_client -> W B) : (forall c, leads (fun w => I w /\ w_client w = Some c) (f c) J) ->
  leads I (get ≫= f) J.
Proof.
  intros Hf w a w' HI. unfold get, asks, mbind, ST_bind. destruct (w_client w) as [c|] eqn:E; [|done]. cbn. by apply Hf.
Qed.

(** The begin of the task sets [run] whatever it was. *)
Lemma begin_runs : leads (fun w => w_reactions w = []) task_begin may_run.
Proof.
  unfold task_begin. eapply (leads_bind _ running).
  { apply leads_upd. intros w c Hr Hc. split; [done|]. by eexists. }
  intros _. eapply leads_bind; [apply leads_running; unfold get; auto with ws_run_kept|]. intros c.
  eapply leads_bind; [apply leads_running; unfold get_cfg, get; go_run_kept|]. intros cfg.
  eapply (leads_bind _ running).
  { assert (Hset : forall f, (forall c, ws_run (f c) = ws_run c) -> leads running (upd f) running).
    { intros f Hf. apply leads_upd. intros w c1 [Hr (c2 & Hc2 & Hrun)] Hc1. split; [done|]. exists (f c1).
      split; [done|]. rewrite Hf. congruence. }
    repeat case_match; try (by apply leads_running; auto with ws_run_kept).
    eapply leads_bind; [apply leads_running; auto with ws_run_kept|]. intros s.
    eapply leads_bind; [apply leads_running; auto with ws_run_kept|]. intros l. by apply Hset. }
  intros _. apply leads_get. intros c1. eapply (leads_bind _ may_run).
  { destruct (ws_transport c1) as [t|] eqn:Et.
    - intros w a w' [[Hr (c2 & Hc2 & Hrun)] Hc1] [= <- <-]. split; [done|]. by exists c2.
    - apply leads_upd. intros w c2 [[Hr _] Hc1] Hc2. split; [done|]. eexists. split; [done|]. cbn.
      rewrite Hc1 in Hc2. injection Hc2 as <-. rewrite Et. by intros [? ?]. }
  intros _. eapply leads_bind; [apply leads_may; unfold get_cfg, get; go_run_kept|]. intros cfg1.
  eapply leads_bind; [apply leads_may|].
  { unfold upd_cfg, get_cfg, get, esp_transport_get_default_port. go_run_kept. }
  intros _. eapply leads_bind; [apply leads_may; auto with ws_run_kept|]. intros _.
  eapply leads_bind; [apply leads_may; unfold clear_bits, get_bits, get; go_run_kept|]. intros _.
  eapply leads_bind; [apply leads_may, rk_event|]. intros _. by apply leads_may, rk_ret.
Qed.

(** * The call *)

(** A call that asks the task to end and then waits for it. *)
Definition asks_to_stop (l : ws_label) (u : user_pc) : Prop :=
  l = LStop /\ u = UserInStop \/ l = LDestroy /\ u = UserInDestroy.

(** What is left of the world when the call waits. *)
Definition asked_world (w : ws_world) (c : ws_client) (b : Z) : ws_world :=
  set_w_client (set_w_client w (Some (set_ws_run c false)))
    (Some (set_ws_status_bits (set_ws_run c false) (Some (Z.lor b REQUESTED_STOP_BIT)))).

Lemma request_stop_eq w c b : w_client w = Some c -> ws_status_bits c = Some b -> request_stop w = Ret (tt, asked_world w c b).
Proof.
  intros Hc Hb. unfold request_stop, set_bits, get_bits, upd, get, asks, writes, mbind, ST_bind. rewrite Hc. cbn. by rewrite Hb.
Qed.

Lemma stop_step l u m c b : asks_to_stop l u -> w_client (m_world m) = Some c -> ws_status_bits c = Some b ->
  has_bit b STOPPED_BIT = false ->
  ws_step l m = Ret (mk_ws_machine (asked_world (m_world m) c b) (m_task m) u (m_sends m)).
Proof.
  intros Hl Hc Hb Hs. pose proof (request_stop_eq _ _ _ Hc Hb) as Hr. destruct Hl as [[-> ->]|[-> ->]].
  - unfold ws_step, ws_effect, esp_websocket_client_stop, get_bits, get, asks, mbind, ST_bind. rewrite Hc. cbn. rewrite Hb. cbn.
    rewrite Hs. by rewrite Hr.
  - unfold ws_step, ws_effect, esp_websocket_client_destroy, get, asks, mbind, ST_bind. rewrite Hc. cbn. rewrite Hb. cbn.
    rewrite Hs. by rewrite Hr.
Qed.

(** C40.  A stop that comes too early is lost.  In any client whose task was created but has
    not taken its first step, [esp_websocket_client_stop], and [esp_websocket_client_destroy]
    likewise, goes on to wait for [STOPPED_BIT].  The first step of the task then goes
    through and leaves the task at the top of its loop, the call waiting and
    [STOPPED_BIT] clear; and when no handler reacts to an event and there is a
    transport for the scheme, [run] is set, as if nobody had asked the task to stop. *)
Theorem ws_early_stop_lost config w w1 ls m l u m1 : ws_env_ok config w -> esp_websocket_client_init config w = Ret (true, w1) ->
  ws_runs (new_machine w1) ls m -> m_task m = TaskCreated -> asks_to_stop l u -> permitted l m = true -> ws_step l m = Ret m1 ->
  m_user m1 = u /\ m_task m1 = TaskCreated
  /\ exists m2, ws_step LTask m1 = Ret m2 /\ m_task m2 = TaskTop /\ m_user m2 = u /\ bit_set STOPPED_BIT (m_world m2) = false
      /\ (w_reactions (m_world m) = [] -> exists c, w_client (m_world m2) = Some c /\ (is_Some (ws_transport c) -> ws_run c = true)).
Proof.
  intros He Hi Hr Ht Hl Hq Hs. pose proof (runs_ok _ _ _ _ _ (new_client_ok _ _ _ He Hi) Hr) as Hm.
  assert (Hp : possible l m = true) by by destruct Hl as [[-> _]|[-> _]].
  pose proof (step_ok _ _ false l m ltac:(done) Hm Hp Hq) as Hm1. rewrite Hs in Hm1. cbn [yields] in Hm1.
  unfold machine_ok at 1, inv_at in Hm. destruct (w_client (m_world m)) as [c|] eqn:Hc; [|destruct Hm as (_ & Hn & _); congruence].
  destruct Hm as [[cfg H] Ph]. destruct (ok_bits _ _ _ _ (at_is_ok _ _ _ _ _ _ H)) as [b Hb].
  pose proof (ph_stopped _ _ _ _ _ Ph) as Hst. rewrite Ht, bool_decide_false in Hst by done. unfold bit_of in Hst. rewrite Hb in Hst.
  rewrite (stop_step l u m c b Hl Hc Hb Hst) in Hs. injection Hs as <-. split; [done|]. split; [exact Ht|].
  set (m1 := mk_ws_machine _ _ _ _) in *. assert (Ht1 : m_task m1 = TaskCreated) by exact Ht.
  assert (Hp1 : possible LTask m1 = true) by (cbn; by rewrite Ht).
  pose proof (step_ok _ _ false LTask m1 ltac:(done) Hm1 Hp1 eq_refl) as Hm2. unfold ws_step in *. cbn [ws_effect] in *.
  rewrite Ht1 in *. cbn [task_step] in *. unfold mbind, ST_bind, mret, ST_ret in *.
  destruct (task_begin (m_world m1)) as [[[] w2]| | |] eqn:Eb; try done. eexists. split; [reflexivity|].
  cbn [m_task m_user m_world outcome_bind yields] in *. split_and!; [done|done| |].
  - unfold machine_ok, inv_at in Hm2. cbn [m_task m_user m_world m_sends] in Hm2. unfold bit_set.
    destruct (w_client w2) as [c2|]; [|done]. destruct Hm2 as [_ Ph2]. pose proof (ph_stopped _ _ _ _ _ Ph2) as Hst2. exact Hst2.
  - intros Hre. destruct (begin_runs (m_world m1) tt w2 Hre Eb) as [_ Hrun]. exact Hrun.
Qed.

End Lost.
