(* ===== verification/WsExamples.v ===== *)
(** A concrete websocket client: a parser of URIs, a list of transports and a
    configuration, and what the client does with them. *)
From S2P Require Import Prelude Heap State WsData Ws WsConfig WsTask WsProofs WsSafe WsConfigProofs WsLife WsInit WsRun WsSteps WsMachine WsTheorems WsLost WsSend WsRecv.

(** * Surroundings *)

#[local] Instance plain_options : ws_options := {
  enable_dynamic_buffer := false;
  redirect_header_support := true;
  header_callback_support := true;
  certificate_bundle := false;
  tick_rate_hz := 100;
}.

(** Parses [ws://host] and nothing else. *)
Definition toy_parse (uri : cstr) : option http_parser_url :=
  if decide (take 5 uri = str "ws://") then Some (mk_url (0, 2) (5, length uri - 5) (0, 0) (0, 0) (0, 0) (0, 0)) else None.

Definition toy_list_get (l : list (cstr * tid)) (s : cstr) : option tid :=
  snd <$> List.find (fun x => strcaseeq s (fst x)) l.

#[local] Instance toy_externals : ws_externals := {
  http_parser_parse_url := toy_parse;
  base64_encode := fun s => s;
  transport_list_get := toy_list_get;
  format_report := fun r => match r with ReportConnect _ _ => Some (str "connect") | _ => Some (str "error") end;
}.

#[local] Instance toy_laws : ws_laws.
Proof.
  split.
  - intros uri u Hu. cbn in Hu. unfold toy_parse in Hu. case_decide as H5; [|done]. injection Hu as <-.
    assert (5 <= length uri) by (apply (f_equal length) in H5; rewrite length_take in H5; change (length (str "ws://")) with 5 in H5; lia).
    repeat constructor; cbn; lia.
  - intros l s i Hi. cbn in Hi. unfold toy_list_get in Hi. destruct (List.find _ l) as [[t j]|] eqn:E; [|done].
    injection Hi as <-. apply find_some in E as [E _]. apply list_elem_of_fmap. exists (t, j). split; [done|]. by apply list_elem_of_In.
  - intros l s tag i Hs _ Hin Hall. cbn. unfold toy_list_get. destruct (List.find _ l) as [[t j]|] eqn:E.
    + apply find_some in E as [E Et]. cbn in *. f_equal. apply (Hall t); [by apply list_elem_of_In|done].
    + apply list_elem_of_In in Hin. pose proof (find_none _ _ E _ Hin) as Hn. cbn in Hn. congruence.
Qed.

Definition no_tls : tls_config := mk_tls_config false None 0 None 0 None 0 false None false.

(** [ws://h], a buffer of four bytes, everything else at its default. *)
Definition toy_config : esp_websocket_client_config_t := mk_ws_user_config
  (Some (str "ws://h")) None 0 None None None false false 7 false 0 0 None 0 4 no_tls WEBSOCKET_TRANSPORT_UNKNOWN
  None None None 0 false false 0 0 0 0 0 0 None None.

(** A server that accepts the connection and then says what [reads] says. *)
Definition toy_world (polls : list Z) (reads : list read_answer) : ws_world := mk_ws_world
  None (mk_heap [] 0) 1000 [] [] [mk_connect_answer 101 [str "a: b"] 101 None] polls reads [] [] [] [].

(** The labels, one after the other, each of them possible and permitted. *)
Fixpoint steps (ls : list ws_label) (m : ws_machine) : outcome ws_machine :=
  match ls with
  | [] => Ret m
  | l :: ls => if possible l m && permitted l m then m' ← ws_step l m; steps ls m' else BadAccess
  end.

Lemma steps_runs ls : forall m0 ls0 m m', ws_runs m0 ls0 m -> steps ls m = Ret m' -> ws_runs m0 (ls0 ++ ls) m'.
Proof.
  induction ls as [|l ls IH]; intros m0 ls0 m m' Hr Hs; cbn [steps] in Hs.
  - injection Hs as <-. by rewrite app_nil_r.
  - destruct (possible l m && permitted l m) eqn:E; [|done]. apply andb_true_iff in E as [Hp Hq].
    destruct (ws_step l m) as [m1| | |] eqn:E1; try done. cbn in Hs. replace (ls0 ++ l :: ls) with ((ls0 ++ [l]) ++ ls) by by rewrite <- app_assoc.
    eapply IH; [|exact Hs]. by eapply runs_snoc.
Qed.

Lemma steps_app ls ls' m : steps (ls ++ ls') m = (m' ← steps ls m; steps ls' m').
Proof.
  revert m. induction ls as [|l ls IH]; intros m; cbn [steps app]; [done|]. destruct (possible l m && permitted l m); [|done].
  destruct (ws_step l m) as [m1| | |]; cbn; auto.
Qed.

(** The world with a new client, and the machine some labels later. *)
Definition world_of {A} (d : A) (o : outcome A) : A := match o with Ret a => a | _ => d end.

Definition toy_start (polls : list Z) (reads : list read_answer) : ws_world :=
  match esp_websocket_client_init toy_config (toy_world polls reads) with Ret (_, w) => w | _ => toy_world polls reads end.

Definition toy_client (polls : list Z) (reads : list read_answer) : ws_machine := new_machine (toy_start polls reads).

Definition toy_after (polls : list Z) (reads : list read_answer) (ls : list ws_label) : ws_machine :=
  world_of (toy_client polls reads) (steps ls (toy_client polls reads)).

Lemma toy_env polls reads : Forall (frame_fits 4) reads -> ws_env_ok toy_config (toy_world polls reads).
Proof. intros Hr. split; try done. Qed.

Lemma toy_init polls reads : esp_websocket_client_init toy_config (toy_world polls reads) = Ret (true, toy_start polls reads).
Proof. vm_compute. reflexivity. Qed.

(** ** A stop that is lost *)

(** The task as it idles, connected. *)
Definition idle_machine : ws_machine := toy_after [] [] [LStart; LStop; LTask; LTask; LTask; LTask].

Lemma idle_reached : steps [LStart; LStop; LTask; LTask; LTask; LTask] (toy_client [] []) = Ret idle_machine.
Proof. vm_compute. reflexivity. Qed.

Lemma idle_again : steps [LTask; LTask; LTask] idle_machine = Ret idle_machine.
Proof. vm_compute. reflexivity. Qed.

Lemma idle_forever n : steps (replicate (3 * n) LTask) idle_machine = Ret idle_machine.
Proof.
  induction n as [|n IH]; [done|]. replace (3 * S n) with (3 + 3 * n) by lia. rewrite replicate_add, steps_app.
  change (replicate 3 LTask) with [LTask; LTask; LTask]. rewrite idle_again. exact IH.
Qed.

(** The machine after any number of steps of the task. *)
Lemma stop_lost_at n : exists m, steps ([LStart; LStop] ++ replicate n LTask) (toy_client [] []) = Ret m
  /\ m_user m = UserInStop /\ m_task m <> TaskNone /\ bit_set STOPPED_BIT (m_world m) = false.
Proof.
  destruct (decide (n < 4)) as [Hn|Hn].
  - destruct n as [|[|[|[|n]]]]; [..|lia]; (eexists; split; [vm_compute; reflexivity|done]).
  - pose proof (Nat.div_mod_eq (n - 4) 3) as E. pose proof (Nat.mod_upper_bound (n - 4) 3 ltac:(lia)) as Hr.
    set (q := (n - 4) / 3) in *. set (r := (n - 4) mod 3) in *. clearbody q r.
    replace n with (4 + (3 * q + r)) by lia. rewrite !replicate_add, app_assoc, steps_app.
    change (steps ([LStart; LStop] ++ replicate 4 LTask) (toy_client [] [])) with (steps [LStart; LStop; LTask; LTask; LTask; LTask] (toy_client [] [])).
    rewrite idle_reached. cbn [mbind outcome_bind]. rewrite steps_app, idle_forever. cbn [mbind outcome_bind].
    destruct r as [|[|[|r]]]; [..|lia]; (eexists; split; [vm_compute; reflexivity|done]).
Qed.

(** The lost stop of a client of [ws://h] that is started and stopped at once, with a server
    that accepts the connection: the call waits for [STOPPED_BIT] and the task keeps
    running, however many steps it takes. *)
Theorem ws_stop_before_task_hangs n : exists m, ws_runs (toy_client [] []) ([LStart; LStop] ++ replicate n LTask) m
  /\ m_user m = UserInStop /\ m_task m <> TaskNone /\ bit_set STOPPED_BIT (m_world m) = false.
Proof.
  destruct (stop_lost_at n) as (m & Hs & Hm). exists m. split; [|exact Hm]. eapply (steps_runs _ _ []); [apply runs_nil|exact Hs].
Qed.

(** ** The theorems at this client *)

Lemma toy_runs polls reads ls : match steps ls (toy_client polls reads) with Ret _ => True | _ => False end ->
  ws_runs (toy_client polls reads) ls (toy_after polls reads ls).
Proof.
  intros Hs. unfold toy_after. destruct (steps ls (toy_client polls reads)) as [m| | |] eqn:E; try done.
  by eapply (steps_runs _ _ []); [apply runs_nil|].
Qed.

Lemma ws_early_stop_lost_witness : m_user (toy_after [] [] [LStart; LDestroy]) = UserInDestroy
  /\ exists m2, ws_step LTask (toy_after [] [] [LStart; LDestroy]) = Ret m2 /\ m_user m2 = UserInDestroy
     /\ bit_set STOPPED_BIT (m_world m2) = false /\ exists c, w_client (m_world m2) = Some c /\ (is_Some (ws_transport c) -> ws_run c = true).
Proof.
  destruct (ws_early_stop_lost toy_config (toy_world [] []) (toy_start [] []) [LStart] (toy_after [] [] [LStart]) LDestroy UserInDestroy
    (toy_after [] [] [LStart; LDestroy]) (toy_env [] [] (Forall_nil_2 _)) (toy_init [] [])) as (Hu & _ & m2 & Hs & _ & Hu2 & Hb & Hr).
  - apply toy_runs. vm_compute. exact I.
  - vm_compute. reflexivity.
  - right. split; reflexivity.
  - vm_compute. reflexivity.
  - vm_compute. reflexivity.
  - split; [exact Hu|]. exists m2. split_and!; [exact Hs|exact Hu2|exact Hb|]. apply Hr. vm_compute. reflexivity.
Defined.

Lemma ws_init_all_or_nothing_witness : exists ok w', esp_websocket_client_init toy_config (toy_world [] []) = Ret (ok, w')
  /\ (w_client w' = None -> ok = false).
Proof.
  destruct (ws_init_all_or_nothing toy_config (toy_world [] []) (toy_env [] [] (Forall_nil_2 _))) as (ok & w' & Hi & Hm).
  exists ok, w'. split; [exact Hi|]. intros E. rewrite E in Hm. apply Hm.
Defined.

(** A message is sent while the task runs, the server pings, the client is destroyed. *)
Definition busy : list ws_label :=
  [LStart; LTask; LTask; LTask; LSend 129 (Some (str "hello")) 5; LTask; LSendGo 0 true; LTask; LTask; LTask; LTask].

Definition ping : list read_answer := [ReadData (str "ping") 4 true 9].

Lemma ping_fits : Forall (frame_fits 4) ping.
Proof. apply Forall_singleton. cbn. split; [lia|done]. Qed.


Lemma ws_stop_ends_witness : exists m1 m2, ws_step LStop (toy_after [] [] [LStart; LTask; LTask]) = Ret m1
  /\ ws_runs m1 [LTask; LTime 5; LTask; LTask; LTask] m2 /\ m_task m2 = TaskNone.
Proof.
  set (m := toy_after [] [] [LStart; LTask; LTask]). set (m1 := world_of m (ws_step LStop m)).
  set (ls := [LTask; LTime 5; LTask; LTask; LTask]). set (m2 := world_of m (steps ls m1)). exists m1, m2.
  assert (Hr : ws_runs m1 ls m2).
  { eapply (steps_runs _ _ []); [apply runs_nil|]. vm_compute. reflexivity. }
  split; [vm_compute; reflexivity|]. split; [exact Hr|].
  apply (ws_stop_ends toy_config (toy_world [] []) (toy_start [] []) [LStart; LTask; LTask] m m1 ls m2).
  - apply toy_env, Forall_nil_2.
  - apply toy_init.
  - apply toy_runs. vm_compute. exact I.
  - vm_compute. discriminate.
  - vm_compute. discriminate.
  - vm_compute. reflexivity.
  - vm_compute. reflexivity.
  - exact Hr.
  - repeat constructor.
  - vm_compute. reflexivity.
Defined.

(** Connected, with a message from the server on its way. *)
Definition text : list read_answer := parts_of 6 true WS_TRANSPORT_OPCODES_TEXT [str "abcd"; str "ef"].

Lemma text_fits : Forall (frame_fits 4) text.
Proof. repeat constructor; discriminate. Qed.

Definition online : ws_machine := toy_after [] text [LStart; LTask; LTask].

Definition online_client : ws_client := default zero_client (w_client (m_world online)).

Definition online_config : websocket_config_storage_t := default zero_config (ws_config online_client).

Lemma ws_send_is_message_witness : exists w',
  esp_websocket_client_send_with_exact_opcode esp_websocket_client_dispatch_event true 129 (Some (str "hello")) 5 (m_world online) = Ret (5%Z, w').
Proof.
  destruct (ws_send_is_message toy_config (toy_world [] text) (toy_start [] text) [LStart; LTask; LTask] online online_client 129
    (str "hello") 5) as (w' & frames & Hs & _).
  - apply toy_env, text_fits.
  - apply toy_init.
  - apply toy_runs. vm_compute. exact I.
  - reflexivity.
  - vm_compute. reflexivity.
  - vm_compute. reflexivity.
  - vm_compute. reflexivity.
  - vm_compute. repeat constructor.
  - left. lia.
  - exists w'. exact Hs.
Defined.

Lemma ws_recv_delivers_witness : exists w', esp_websocket_client_recv (m_world online) = Ret (ESP_OK, w') /\ w_reads w' = [].
Proof.
  destruct (ws_recv_delivers toy_config (toy_world [] text) (toy_start [] text) [LStart; LTask; LTask] online online_client online_config
    [] 6 true WS_TRANSPORT_OPCODES_TEXT [str "abcd"; str "ef"]) as (w' & c' & Hs & _ & Hr & _).
  - apply toy_env, text_fits.
  - apply toy_init.
  - apply toy_runs. vm_compute. exact I.
  - reflexivity.
  - vm_compute. reflexivity.
  - vm_compute. reflexivity.
  - vm_compute. reflexivity.
  - vm_compute. discriminate.
  - vm_compute. reflexivity.
  - vm_compute. reflexivity.
  - vm_compute. reflexivity.
  - vm_compute. reflexivity.
  - replace (ws_buffer_size online_client) with 4 by (vm_compute; reflexivity).
    repeat constructor.
  - right. split; [discriminate|]. split; [reflexivity|]. repeat constructor; vm_compute; lia.
  - discriminate.
  - exists w'. split; [exact Hs|exact Hr].
Defined.

(** The frames of [hello] and what the server's message leads to. *)
Example hello_frames : exists w', send_locked esp_websocket_client_dispatch_event true 129 (Some (str "hello")) 5 (m_world online) = Ret (5%Z, w')
  /\ drop (length (w_log (m_world online))) (w_log w') = [OutFrame 1 (str "hell") 4; OutFrame 128 (str "o") 1].
Proof. eexists. split; [vm_compute; reflexivity|vm_compute; reflexivity]. Qed.

Lemma ws_set_uri_witness : exists w', esp_websocket_client_set_uri (Some (str "ws://x")) (m_world (toy_client [] [])) = Ret (ESP_OK, w')
  /\ w_log w' = [].
Proof.
  destruct (ws_set_uri toy_config (toy_world [] []) (toy_start [] []) [] (toy_client [] []) (default zero_client (w_client (toy_start [] [])))
    (default zero_config (ws_config (default zero_client (w_client (toy_start [] []))))) (str "ws://x")
    (mk_url (0, 2) (5, 1) (0, 0) (0, 0) (0, 0) (0, 0))) as (w' & Hs & _ & Hl & _).
  - apply toy_env, Forall_nil_2.
  - apply toy_init.
  - apply runs_nil.
  - reflexivity.
  - vm_compute. reflexivity.
  - vm_compute. reflexivity.
  - vm_compute. reflexivity.
  - exists w'. split; [exact Hs|]. rewrite Hl. vm_compute. reflexivity.
Defined.
